(* ===== verification/_CoqProject ===== *)
-Q . S2P
Prelude.v
KList.v
QSort.v
Format.v
RingBuffer.v
FdTable.v
Signal.v
VNode.v
Pipe.v
EventFD.v
Tmpfs.v
Pmm.v
PageTable.v
AddressSpace.v
MemSyscalls.v
NameSpace.v
Sched.v
Cred.v
Time.v
Futex.v
UserMem.v
Elf.v
Exec.v
Jobs.v
Sockets.v
SocketCalls.v
Net.v
Tcp.v
Terminal.v
Epoll.v
MemFD.v
SignalFD.v
Tty.v
Input.v
UsbHid.v
Devices.v
Framebuffer.v
Initramfs.v
ForkTables.v
Fork.v
KernelMap.v
Bump.v
Clone.v
ProcCalls.v
PathCalls.v
InfoNode.v
Procfs.v
Async.v
Virtio.v
VirtioNet.v
Xhci.v
XhciSetup.v
Lock.v
Pci.v
Interrupts.v
Acpi.v
Execve.v
Ps2.v
Vmem.v
Start.v
