(* ===== verification/Prelude.v ===== *)
(** * Fishix: a model of the kernel

    Fishix is a small Unix-like kernel for x86-64 written in C++
    (src/kernel/src).  User programs enter it through system calls and page
    faults, devices through interrupts; it answers from a handful of objects:
    processes with their threads, address spaces and descriptor tables, vnodes
    (files, pipes, counters, sockets) behind file descriptions, and the
    events on which threads sleep.  This library models those objects and the
    operations on them, and proves what makes them correct.

    ** Layout

    Foundations
    - Prelude.v: machine words, bit tests, list and option lemmas, tactics.
    - KList.v: klib's intrusive lists, hash table, vector, bitmap
      (klib/list.hpp, hashtable.hpp, vector.hpp, bitmap.hpp).
    - QSort.v: klib's quicksort (klib/algorithm.hpp).
    - Format.v: C strings and formatted output (klib/cstring.cpp, cstdio.hpp,
      cstdio.cpp).
    - RingBuffer.v: klib's ring (klib/ring_buffer.hpp).

    Files
    - FdTable.v: descriptor tables and file descriptions (sched::Process and
      the descriptor calls of fs/vfs.cpp).
    - VNode.v: the VNode interface as a class with its laws, and the calls
      written against it: read, write, their vector and positioned forms,
      lseek, poll, select (fs/vfs.hpp, fs/vfs.cpp).
    - Pipe.v, EventFD.v, Tmpfs.v: implementations of that interface
      (userland/pipe.cpp, userland/eventfd.cpp, fs/tmpfs.cpp), which discharge
      its laws.
    - NameSpace.v: entries, path resolution and the path calls of fs/vfs.cpp
      over the tmpfs driver.

    Memory
    - Pmm.v: the physical page allocator (mem/pmm.cpp).
    - PageTable.v: four-level page tables (mem/vmm.cpp), refining a flat map.
    - AddressSpace.v, MemSyscalls.v: the ranges of an address space, the page
      fault handler and the memory calls (mem/vmm.cpp), over that flat map.

    Execution
    - Signal.v: delivery of signals and the return from handlers
      (userland/signal.cpp, sched/context.cpp, cpu/syscall/syscall.cpp).
    - Sched.v: threads, processes, the run list, events, exit and wait
      (sched/sched.cpp, sched/event.cpp).
    - Cred.v: credentials (userland/cred.cpp).
    - Time.v: clocks and timers (klib/timespec.hpp, sched/time.cpp).
    - Futex.v: futexes (userland/futex.cpp), over Sched.v, Time.v, KList.v and
      MemSyscalls.v.
    - UserMem.v, Elf.v, Exec.v: loading and starting a program
      (userland/elf.cpp, user_exec and execve in sched/sched.cpp).
    - Jobs.v: process groups, sessions and the calls that signal them
      (userland/pid.cpp, userland/signal.cpp), over Sched.v.

    Sockets
    - Sockets.v: local stream, packet and datagram sockets
      (userland/socket/local), over the rings and the links of KList.v.
    - SocketCalls.v: datagram operations and the socket system calls
      (userland/socket/socket.cpp) with the descriptors they make.
    - Net.v, Tcp.v: checksums, ARP, IPv4, routes (dev/net.cpp) and the UDP and
      TCP sockets (userland/socket/udp.cpp, tcp.cpp).

    More of the kernel's objects
    - Epoll.v, MemFD.v, SignalFD.v: epoll, memory files, signalfd and inotify
      (userland/epoll.cpp, memfd.cpp, signalfd.cpp, inotify.cpp).
    - PathCalls.v: the calls on paths and descriptors left by NameSpace.v
      (fs/vfs.cpp).
    - InfoNode.v, Procfs.v: files printed when they are read, and what procfs
      prints in them (fs/procfs.hpp, procfs.cpp).
    - Initramfs.v: the archive loaded at start, and the device files
      (fs/initramfs.cpp, kernel.cpp).
    - ForkTables.v, Fork.v, KernelMap.v: the copy of an address space, access to
      another's memory, the kernel's half (mem/vmm.cpp).
    - Bump.v, Vmem.v: the kernel heap and the address arenas (mem/bump.cpp,
      mem/vmem.cpp, klib/cstdlib.cpp).
    - Clone.v: fork and clone put together (sched/sched.cpp), over Sched.v,
      Fork.v, FdTable.v and Signal.v.
    - Execve.v: the execve call around Exec.v, with the blocks it allocates.
    - ProcCalls.v: calls about the calling process and the system
      (sched/sched.cpp, userland/info.cpp).
    - Start.v: the scheduler's first state and the first process
      (sched/sched.cpp).

    Devices
    - Devices.v: device numbers, the simple devices, block devices
      (dev/devnode.cpp, simple_char.hpp, block.cpp).
    - Terminal.v, Framebuffer.v: the screen's terminal and what it paints
      (gfx/terminal.cpp, gfx/framebuffer.cpp).
    - Tty.v: the line discipline, the console and pseudo-terminals (dev/tty),
      over Terminal.v and Jobs.v.
    - Input.v, Ps2.v, UsbHid.v: events from keyboards and mice to their
      readers, the PS/2 controller, report descriptors (dev/input).
    - Async.v: completions awaited by coroutines (klib/async.hpp,
      dev/io_service.cpp).
    - Virtio.v, VirtioNet.v: queues, the block device, the network device
      (dev/virtio.cpp).
    - Xhci.v, XhciSetup.v: rings and requests of the USB controller, and the
      set-up of devices (dev/xhci.cpp).
    - Lock.v: spin locks against interrupts and other processors
      (klib/lock.hpp).
    - Pci.v, Interrupts.v, Acpi.v: configuration space (dev/pci.cpp), tables,
      vectors and timers (cpu/gdt, cpu/interrupts, sched/timer), the firmware's
      tables (acpi/tables.cpp).

    ** How the code is rendered

    Integers are [Z] with the wrap-around of their width written out ([u32],
    [u64], [i32], ...).  An object that the code shares by pointer lives in a
    finite map from addresses (or identifiers) to records, and the operation
    takes and returns the map; an object with one owner is passed by value.
    [None] is a kernel that stops or does what C++ leaves undefined: a failed
    assertion, a panic, a null pointer, a read outside an array.  Error returns
    are the negative error numbers the code returns.

    The kernel runs one thread at a time on one processor, and threads switch
    where they sleep or are interrupted.  A call that sleeps is cut there: its
    first half ends in the wait and its second half starts in whatever state
    the others left, or the sleep is a parameter that may change the shared
    state as other threads may.  The spin locks, which only mask interrupts
    between those points, are left out of the components; Lock.v is about them
    alone.

    Hardware is not in the source.  A driver's file says what it takes for
    granted of its device: nothing, when the answers are an argument (PCI, ACPI,
    the set-up of USB devices); or a device that follows the rings the driver
    shares with it, as steps that come in any order between the driver's
    (virtio, xHCI).

    Loops that are not structural take fuel.  Where the fuel is a bound the
    code implies (the length of a list, the bits of a word), it is computed in
    the definition and a lemma shows it is enough; where a loop may not end, the
    model says so with [None] and theorems about the result show that it does
    not happen.

    What is not under src/ or not modelled enters as a parameter with named
    hypotheses: realloc and its contents, other implementations of VNode, what
    a wake of another component does to the run list, and what hardware answers.

    ** What is shown

    - Containers: the linked lists refine lists of addresses, the hash table a
      map whatever its hash, the ring a bounded queue with indices that wrap,
      and the quicksort returns a sorted permutation within its array.
    - Text: the digits put for a number read back as the number.
    - Descriptors: every operation keeps reference counts and tables
      consistent; numbers are the lowest free ones; closing all releases all.
    - Files: reads, writes and cursors against any vnode that keeps the
      interface's laws; a pipe is a stream that loses no wake-up; a counter
      loses no count; a tmpfs file is its byte sequence; poll reports what is
      ready.
    - Names: plain paths resolve to the entry they name; opening with O_CREAT
      creates it.
    - Memory: pages are handed out once; the page tables refine a map; page
      faults, mmap and mprotect do what they promise to the pages and leave
      the rest alone.
    - Execution: a handler's return restores the interrupted registers; the
      lowest unblocked signal goes first; the run list holds the runnable
      threads, each once, through every operation; every runnable thread runs
      in turn; an event wakes its sleepers; a killed process is reaped with its
      status; no thread gains identifiers it did not have; timers fire on time.
    - Programs: a loaded program's memory is what its headers say; its initial
      stack is laid out as the ABI wants; an exec that fails changes nothing;
      group lists and signals sent to groups stay consistent.
    - Sockets: stream sockets deliver the bytes sent, in order; packet sockets
      refine queues of packets; a socket pair is connected both ways; a
      datagram passes the receiving host's checksums and arrives at its port;
      hardware addresses are resolved.
    - Forks: a fork's child has the parent's memory in frames of its own, its
      descriptors and its registers, and returns zero; the child's tables
      translate as the parent's.
    - Execve and the start: what a successful exec leaves; the first state
      satisfies the invariants the other theorems start from.
    - Terminals: whatever is written, the screen's terminal stays well formed;
      text refines a page that scrolls; the painting stays in the display's
      memory and shows what was drawn; a raw pseudo-terminal is a stream in
      both directions; a typed ^C signals the foreground group and no other.
    - Input: scan codes arrive at the console as the keys they mean, mouse
      packets at the event node as the motion they encode; the parser of report
      descriptors ends.
    - Drivers: no virtio descriptor is lost or used twice, through any order of
      requests and completions; commands to the USB controller complete in the
      order they were sent; a lock is held by one processor at a time.
    - Also: an archive becomes the entries it lists; /proc/pid/cmdline reads as
      the memory it names; the heap hands out disjoint blocks.
    Some theorems show where the code does not do what it means to: they are
    stated of the same definitions and say so in their comments.

    ** What is not modelled

    - The processor and the boot: interrupt entry and exit, the context switch,
      loading of descriptor tables, the structures of the boot protocol, the
      order in which the kernel thread starts the drivers, the C++ runtime:
      assembly and hardware state.
    - Owning pointers (klib/functional.hpp) and the assembly memory copies.
    - Of the drivers: the registers that start a controller, notifications and
      barriers, printed messages, the frames of coroutines (the compiler's).
    - Kernel stacks, the loopback device's packets, the serial port.
*)
From stdpp Require Export base gmap list sets.
From Stdlib Require Export ZArith Lia.

Declare Scope fishix_scope.
Delimit Scope fishix_scope with fishix.
Global Open Scope Z_scope.

(** ** Machine words

    A [w]-bit unsigned word is a [Z] in [0 .. 2^w); arithmetic wraps through
    [uN], and a signed reading of the same bits is [sN]. *)
Definition uN (w x : Z) : Z := x mod 2 ^ w.
Definition sN (w x : Z) : Z :=
  let y := x mod 2 ^ w in if y <? 2 ^ (w - 1) then y else y - 2 ^ w.

Abbreviation u8 := (uN 8).
Abbreviation u16 := (uN 16).
Abbreviation u32 := (uN 32).
Abbreviation u64 := (uN 64).
Abbreviation i32 := (sN 32).
Abbreviation i64 := (sN 64).

Definition PAGE_SIZE : Z := 4096.

(** A bit test on a flag word, [x & m] used as a condition. *)
Definition has (x m : Z) : bool := negb (Z.land x m =? 0).

(** C's conversion of a truth value to an integer. *)
Definition b2z (b : bool) : Z := if b then 1 else 0.

Lemma uN_range w x : 0 <= w -> 0 <= uN w x < 2 ^ w.
Proof. intros. unfold uN. apply Z.mod_pos_bound. lia. Qed.

Lemma uN_small w x : 0 <= x < 2 ^ w -> uN w x = x.
Proof. intros. unfold uN. by apply Z.mod_small. Qed.

Lemma u64_range x : 0 <= u64 x < 18446744073709551616.
Proof. apply (uN_range 64). lia. Qed.

Lemma u64_small x : 0 <= x < 18446744073709551616 -> u64 x = x.
Proof. apply (uN_small 64). Qed.

Lemma u32_range x : 0 <= u32 x < 4294967296.
Proof. apply (uN_range 32). lia. Qed.

Lemma u32_small x : 0 <= x < 4294967296 -> u32 x = x.
Proof. apply (uN_small 32). Qed.

Lemma uN_idemp w x : 0 <= w -> uN w (uN w x) = uN w x.
Proof. intros. apply uN_small, uN_range. lia. Qed.

Lemma u64_sub_wrap a b :
  0 <= a < 18446744073709551616 -> 0 <= b < 18446744073709551616 ->
  u64 (a - b) = if b <=? a then a - b else a - b + 18446744073709551616.
Proof.
  intros Ha Hb. unfold uN. change (2 ^ 64) with 18446744073709551616.
  destruct (b <=? a) eqn:E.
  - apply Z.mod_small. lia.
  - rewrite <- (Z_mod_plus_full (a - b) 1). apply Z.mod_small. lia.
Qed.

Lemma sN_small w x : 0 < w -> 0 <= x < 2 ^ (w - 1) -> sN w x = x.
Proof.
  intros Hw Hx. unfold sN.
  assert (2 ^ w = 2 * 2 ^ (w - 1)).
  { replace w with (1 + (w - 1)) at 1 by lia. rewrite Z.pow_add_r by lia. done. }
  rewrite Z.mod_small by lia. destruct (Z.ltb_spec x (2 ^ (w - 1))); lia.
Qed.

Definition INT_MAX : Z := 2147483647.

(** Two words that share no bits. *)
Lemma lor_shiftl a x n : 0 <= n -> 0 <= a < 2 ^ n -> Z.lor a (Z.shiftl x n) = a + x * 2 ^ n.
Proof.
  intros Hn Ha. rewrite <- Z.shiftl_mul_pow2 by done. rewrite <- Z.lxor_lor, Z.add_nocarry_lxor; [done| |];
    (apply Z.bits_inj'; intros m Hm; rewrite Z.land_spec, Z.bits_0; destruct (decide (m < n));
     [rewrite Z.shiftl_spec_low by done; apply andb_false_r
     |rewrite <- (Z.mod_small a (2 ^ n)), Z.mod_pow2_bits_high by lia; done]).
Qed.

(** klib::align_up and klib::align_down on 64-bit words. *)
Definition align_down (i a : Z) : Z := if i mod a =? 0 then i else i / a * a.
Definition align_up (i a : Z) : Z := if i mod a =? 0 then i else u64 ((i / a + 1) * a).

Lemma align_down_spec x a :
  0 < a -> 0 <= x -> align_down x a mod a = 0 /\ align_down x a <= x < align_down x a + a /\
  0 <= align_down x a.
Proof.
  intros Ha Hx. unfold align_down. pose proof (Z.mod_pos_bound x a Ha).
  pose proof (Z.div_mod x a ltac:(lia)). pose proof (Z.div_pos x a Hx Ha).
  destruct (Z.eqb_spec (x mod a) 0); [lia|]. rewrite Z_mod_mult. nia.
Qed.

Lemma align_up_le x a b :
  0 < a -> 0 <= x -> x <= b < 18446744073709551616 -> b mod a = 0 ->
  align_up x a mod a = 0 /\ x <= align_up x a <= b.
Proof.
  intros Ha Hx Hb Hm. unfold align_up. pose proof (Z.mod_pos_bound x a Ha).
  pose proof (Z.div_mod x a ltac:(lia)). pose proof (Z.div_mod b a ltac:(lia)).
  pose proof (Z.div_pos x a Hx Ha).
  destruct (Z.eqb_spec (x mod a) 0); [lia|].
  assert (x / a < b / a) by nia. assert ((x / a + 1) * a <= b) by nia.
  rewrite u64_small by nia. rewrite Z_mod_mult. nia.
Qed.

(** ** The effect conventions

    A computation that an [ASSERT], a [panic] or an access outside an object
    can stop is an [option]: [None] is the stopped kernel.  A system call body
    runs with interrupts disabled up to the point where it sleeps on an event;
    one pass through the head of its waiting loop is an [attempt]. *)
Inductive attempt (S A : Type) : Type :=
| Return (r : A) (s : S)
| Block (s : S)
| Crash.
Arguments Return {S A} r s.
Arguments Block {S A} s.
Arguments Crash {S A}.

(** How a sleeping thread is resumed: [event.wait()] returned [-EINTR], or it
    returned normally; either way the other threads have left the shared
    object in some state. *)
Inductive wake (S : Type) : Type :=
| Interrupted (s : S)
| Woken (s : S).
Arguments Interrupted {S} s.
Arguments Woken {S} s.

(** The result of a system call body run against a supply of wake-ups: it
    returns, with the unused supply; it still sleeps when the supply is
    exhausted; or it stops the kernel. *)
Inductive outcome (S A : Type) : Type :=
| Done (r : A) (s : S) (ws : list (wake S))
| Asleep
| Crashed.
Arguments Done {S A} r s ws.
Arguments Asleep {S A}.
Arguments Crashed {S A}.

Definition proc (S A : Type) : Type := S -> list (wake S) -> outcome S A.

#[export] Instance proc_ret {S} : MRet (proc S) := fun A r s ws => Done r s ws.
#[export] Instance proc_bind {S} : MBind (proc S) := fun A B k m s ws =>
  match m s ws with
  | Done r s' ws' => k r s' ws'
  | Asleep => Asleep
  | Crashed => Crashed
  end.

Definition get_state {S} : proc S S := fun s ws => Done s s ws.
Definition put_state {S} (s : S) : proc S unit := fun _ ws => Done tt s ws.
Definition crash {S A} : proc S A := fun _ _ => Crashed.

Lemma bind_run {S A B} (m : proc S A) (k : A -> proc S B) s ws :
  (m ≫= k) s ws = match m s ws with
                  | Done r s' ws' => k r s' ws'
                  | Asleep => Asleep
                  | Crashed => Crashed
                  end.
Proof. reflexivity. Qed.

Lemma ret_run {S A} (r : A) (s : S) ws : (mret r : proc S A) s ws = Done r s ws.
Proof. reflexivity. Qed.

(** The waiting loop [while (cond) { ...; if (event.wait() == -EINTR) return
    -EINTR; if (woken) return x; }]: [woken] gives the result of a loop that
    returns on some wake-ups without a new attempt. *)
Fixpoint run_blocking {S A} (try : S -> attempt S A) (eintr : A) (woken : S -> option A)
    (s : S) (ws : list (wake S)) : outcome S A :=
  match try s with
  | Return r s' => Done r s' ws
  | Crash => Crashed
  | Block _ =>
      match ws with
      | [] => Asleep
      | Interrupted s' :: ws' => Done eintr s' ws'
      | Woken s' :: ws' =>
          match woken s' with
          | Some r => Done r s' ws'
          | None => run_blocking try eintr woken s' ws'
          end
      end
  end.

Definition blocking {S A} (try : S -> attempt S A) (eintr : A) : proc S A :=
  fun s ws => run_blocking try eintr (fun _ => None) s ws.

(** Whatever the interleaving, a waiting loop ends by an interruption, by an
    attempt that succeeds in the state it finds, or by a wake-up it returns on. *)
Lemma run_blocking_inv {S A} (try : S -> attempt S A) eintr woken s ws r s' ws' :
  run_blocking try eintr woken s ws = Done r s' ws' ->
  (r = eintr /\ Interrupted s' ∈ ws) \/
  (woken s' = Some r /\ Woken s' ∈ ws) \/
  (exists s0, (s0 = s \/ Woken s0 ∈ ws) /\ try s0 = Return r s').
Proof.
  revert s. induction ws as [|w ws IH]; intros s; simpl.
  - destruct (try s) eqn:E; intros; simplify_eq. right. right. eauto.
  - destruct (try s) eqn:E; [|destruct w as [s1|s1]|done].
    + intros; simplify_eq. right. right. eauto.
    + intros; simplify_eq. left. split; [done|]. by left.
    + destruct (woken s1) eqn:Ew.
      * intros; simplify_eq. right. left. split; [done|]. by left.
      * intros H. destruct (IH _ H) as [[-> Hin]|[[Hw Hin]|(s2 & [->|Hin] & Ht)]].
        -- left. split; [done|]. by right.
        -- right. left. split; [done|]. by right.
        -- right. right. exists s1. split; [|done]. right. by left.
        -- right. right. exists s2. split; [|done]. right. by right.
Qed.

(** A loop whose first attempt succeeds never sleeps. *)
Lemma run_blocking_now {S A} (try : S -> attempt S A) eintr woken s ws r s' :
  try s = Return r s' -> run_blocking try eintr woken s ws = Done r s' ws.
Proof. intros H. destruct ws; simpl; by rewrite H. Qed.

(** ** Loops whose body may stop the kernel *)

Fixpoint each {A S} (f : A -> S -> option S) (xs : list A) (s : S) : option S :=
  match xs with
  | [] => Some s
  | x :: xs => s1 ← f x s; each f xs s1
  end.

Lemma each_app {A S} (f : A -> S -> option S) xs ys s : each f (xs ++ ys) s = (s1 ← each f xs s; each f ys s1).
Proof. revert s. induction xs as [|x xs IH]; intros s; [done|]. cbn. destruct (f x s) as [s1|]; cbn; [apply IH|done]. Qed.

(** A loop that its invariant carries through ends, and keeps it. *)
Lemma each_inv {A S} (P : S -> Prop) (f : A -> S -> option S) xs s :
  (forall x s, x ∈ xs -> P s -> exists s', f x s = Some s' /\ P s') -> P s -> exists s', each f xs s = Some s' /\ P s'.
Proof.
  revert s. induction xs as [|x xs IH]; intros s Hf Hs; [by exists s|].
  destruct (Hf x s ltac:(left) Hs) as (s1 & E & H1). cbn. rewrite E. cbn. apply IH; [|done].
  intros y s2 Hy. apply Hf. by right.
Qed.

(** The invariant of a counting loop mentions the counter. *)
Lemma each_count {T} (P : Z -> T -> Prop) (f : Z -> T -> option T) a n s :
  (forall i s, a <= i < a + n -> P i s -> exists s', f i s = Some s' /\ P (i + 1) s') -> 0 <= n -> P a s ->
  exists s', each f (seqZ a n) s = Some s' /\ P (a + n) s'.
Proof.
  intros Hf Hn. revert a s Hf. destruct (Z_of_nat_complete n Hn) as [m ->]. induction m as [|m IH]; intros a s Hf Hs.
  { exists s. rewrite Z.add_0_r. done. }
  rewrite seqZ_cons by lia. destruct (Hf a s ltac:(lia) Hs) as (s1 & E & H1). cbn [each]. rewrite E. cbn [mbind option_bind].
  replace (Z.pred (Z.of_nat (S m))) with (Z.of_nat m) by lia. replace (Z.succ a) with (a + 1) by lia.
  destruct (IH (Zle_0_nat m) (a + 1) s1) as (s' & E' & H'); [intros i s2 Hi; apply Hf; lia|done|].
  exists s'. split; [done|]. by replace (a + Z.of_nat (S m)) with (a + 1 + Z.of_nat m) by lia.
Qed.

(** ** errno values of the Linux ABI (negated in results) *)
Definition EPERM : Z := 1.
Definition ENOENT : Z := 2.
Definition ESRCH : Z := 3.
Definition EINTR : Z := 4.
Definition ENXIO : Z := 6.
Definition ENOEXEC : Z := 8.
Definition EBADF : Z := 9.
Definition ECHILD : Z := 10.
Definition EWOULDBLOCK : Z := 11.
Definition EAGAIN : Z := 11.
Definition ENOMEM : Z := 12.
Definition EACCES : Z := 13.
Definition EFAULT : Z := 14.
Definition EEXIST : Z := 17.
Definition ENODEV : Z := 19.
Definition ENOTDIR : Z := 20.
Definition EISDIR : Z := 21.
Definition EINVAL : Z := 22.
Definition ENOTTY : Z := 25.
Definition ESPIPE : Z := 29.
Definition EPIPE : Z := 32.
Definition ERANGE : Z := 34.
Definition ENOSYS : Z := 38.
Definition ELOOP : Z := 40.
Definition EDESTADDRREQ : Z := 89.
Definition EPROTOTYPE : Z := 91.
Definition ENOPROTOOPT : Z := 92.
Definition EOPNOTSUPP : Z := 95.
Definition ENOTSUP : Z := 95.
Definition EAFNOSUPPORT : Z := 97.
Definition EADDRINUSE : Z := 98.
Definition EISCONN : Z := 106.
Definition ENOTCONN : Z := 107.
Definition ETIMEDOUT : Z := 110.
Definition ECONNREFUSED : Z := 111.

(** [open(2)] and [poll(2)] flag bits used across components *)
Definition O_ACCMODE : Z := 3.
Definition O_RDONLY : Z := 0.
Definition O_WRONLY : Z := 1.
Definition O_RDWR : Z := 2.
Definition O_NONBLOCK : Z := 2048.
Definition O_CLOEXEC : Z := 524288.
Definition FD_CLOEXEC : Z := 1.
Definition POLLIN : Z := 1.
Definition POLLPRI : Z := 2.
Definition POLLOUT : Z := 4.
Definition POLLERR : Z := 8.
Definition POLLHUP : Z := 16.
Definition POLLNVAL : Z := 32.

(** ** Arithmetic lemmas shared by the components *)
Lemma mod_add_cases a i m :
  0 < m -> 0 <= i <= m ->
  (a + i) mod m = if a mod m + i <? m then a mod m + i else a mod m + i - m.
Proof.
  intros Hm Hi. pose proof (Z.mod_pos_bound a m Hm) as Ha.

  rewrite <- (Zplus_mod_idemp_l a i m).
  destruct (Z.ltb_spec (a mod m + i) m).
  - apply Z.mod_small. lia.
  - rewrite <- (Z_mod_plus_full (a mod m + i) (-1)).
    replace (a mod m + i + -1 * m) with (a mod m + i - m) by lia.
    destruct (Z.eq_dec i m) as [->|].
    + apply Z.mod_small. lia.
    + apply Z.mod_small. lia.
Qed.

Lemma mod_u64_divide a m :
  0 < m -> (m | 18446744073709551616) -> u64 a mod m = a mod m.
Proof.
  intros Hm [k Hk]. unfold uN. change (2 ^ 64) with 18446744073709551616.
  rewrite (Z.mod_eq a 18446744073709551616) by lia. rewrite Hk at 1.
  replace (a - k * m * (a / 18446744073709551616))
    with (a + (- (k * (a / 18446744073709551616))) * m) by lia.
  apply Z_mod_plus_full.
Qed.

(** ** Lists addressed by machine integers *)
Definition sub {T} (l : list T) (off n : Z) : list T :=
  take (Z.to_nat n) (drop (Z.to_nat off) l).

Lemma sub_length {T} (l : list T) off n :
  0 <= off -> 0 <= n -> off + n <= Z.of_nat (length l) -> Z.of_nat (length (sub l off n)) = n.
Proof. intros. unfold sub. rewrite length_take, length_drop. lia. Qed.

Lemma sub_lookup {T} (l : list T) off n i :
  0 <= off -> (Z.of_nat i < n) -> sub l off n !! i = l !! Z.to_nat (off + Z.of_nat i).
Proof.
  intros. unfold sub. rewrite lookup_take_lt by lia. rewrite lookup_drop.
  f_equal. lia.
Qed.

Lemma sub_full {T} (l : list T) n : Z.of_nat (length l) <= n -> sub l 0 n = l.
Proof. intros. unfold sub. simpl. apply take_ge. lia. Qed.

Lemma take_add {T} (l : list T) a b : take (a + b) l = take a l ++ take b (drop a l).
Proof.
  revert l. induction a as [|a IH]; intros l; [done|].
  destruct l as [|x l]; simpl; [by rewrite take_nil|]. by rewrite IH.
Qed.

Lemma sub_app {T} (l : list T) off a b :
  0 <= off -> 0 <= a -> 0 <= b -> sub l off (a + b) = sub l off a ++ sub l (off + a) b.
Proof.
  intros. unfold sub. rewrite !Z2Nat.inj_add by lia. by rewrite take_add, drop_drop.
Qed.

Lemma sub_short {T} (l : list T) off n :
  0 <= off -> 0 <= n -> Z.of_nat (length (sub l off n)) < n -> forall m, sub l (off + n) m = [].
Proof.
  intros Hoff Hn Hs m. unfold sub in *. rewrite length_take, length_drop in Hs.
  rewrite drop_ge; [by rewrite take_nil|]. lia.
Qed.

(** [memcpy(l + off, xs, |xs|)] *)
Definition blit {T} (off : Z) (xs l : list T) : list T :=
  list_inserts (Z.to_nat off) xs l.

Lemma blit_length {T} off (xs l : list T) : length (blit off xs l) = length l.
Proof. apply length_inserts. Qed.

Lemma blit_lookup_in {T} off (xs l : list T) i :
  0 <= off -> (Z.to_nat off <= i < Z.to_nat off + length xs)%nat -> (i < length l)%nat ->
  blit off xs l !! i = xs !! (i - Z.to_nat off)%nat.
Proof. intros. unfold blit. by rewrite list_lookup_inserts by lia. Qed.

Lemma blit_lookup_out {T} off (xs l : list T) i :
  (i < Z.to_nat off)%nat \/ (Z.to_nat off + length xs <= i)%nat ->
  blit off xs l !! i = l !! i.
Proof.
  intros [|]; unfold blit;
    [by apply list_lookup_inserts_lt | by apply list_lookup_inserts_ge].
Qed.

(** The part of a list before the first [c], and the part from there on. *)
Fixpoint take_until (c : Z) (l : list Z) : list Z :=
  match l with
  | [] => []
  | x :: l' => if x =? c then [] else x :: take_until c l'
  end.
Fixpoint drop_until (c : Z) (l : list Z) : list Z :=
  match l with
  | [] => []
  | x :: l' => if x =? c then l else drop_until c l'
  end.

Lemma take_drop_until c l : take_until c l ++ drop_until c l = l.
Proof. induction l as [|x l IH]; [done|]. cbn. destruct (x =? c); [done|]. cbn. by rewrite IH. Qed.

Lemma take_until_app c l r : c ∉ l -> take_until c (l ++ c :: r) = l.
Proof.
  induction l as [|x l IH]; intros H; cbn; [by rewrite Z.eqb_refl|].
  destruct (Z.eqb_spec x c) as [->|Hx]; [destruct H; left|]. rewrite IH; [done|]. intros Hin. apply H. by right.
Qed.

Lemma take_until_all c l : c ∉ l -> take_until c l = l.
Proof.
  induction l as [|x l IH]; intros H; cbn; [done|].
  destruct (Z.eqb_spec x c) as [->|Hx]; [destruct H; left|]. rewrite IH; [done|]. intros Hin. apply H. by right.
Qed.

(** ** Little-endian words *)
Definition byte (b : Z) : Prop := 0 <= b < 256.

Fixpoint le_split (n : nat) (x : Z) : list Z :=
  match n with
  | O => []
  | S n => x mod 256 :: le_split n (x / 256)
  end.

Definition le_combine (l : list Z) : Z := foldr (fun b acc => b + 256 * acc) 0 l.

Lemma le_split_length n x : length (le_split n x) = n.
Proof. revert x. induction n; intros; simpl; auto. Qed.

Lemma le_combine_split n x : le_combine (le_split n x) = x mod 256 ^ Z.of_nat n.
Proof.
  revert x. induction n as [|n IH]; intros x; [by rewrite Z.mod_1_r|].
  simpl le_split. change (le_combine (x mod 256 :: le_split n (x / 256)))
    with (x mod 256 + 256 * le_combine (le_split n (x / 256))). rewrite IH.
  rewrite Nat2Z.inj_succ, Z.pow_succ_r by lia. by rewrite Z.rem_mul_r by lia.
Qed.

Lemma le_combine_range l :
  Forall byte l -> 0 <= le_combine l < 256 ^ Z.of_nat (length l).
Proof.
  induction 1 as [|b l Hb Hl IH]; [done|].
  simpl length. rewrite Nat2Z.inj_succ, Z.pow_succ_r by lia.
  change (le_combine (b :: l)) with (b + 256 * le_combine l). unfold byte in Hb. lia.
Qed.

Lemma le_split_byte n x : Forall byte (le_split n x).
Proof.
  revert x. induction n; intros x; simpl; constructor; auto.
  apply Z.mod_pos_bound. lia.
Qed.

#[global] Arguments le_split : simpl never.
#[global] Arguments le_combine : simpl never.

(** ** Automation *)

(** Turn the boolean tests of the model into propositions. *)
Ltac zbool :=
  repeat match goal with
  | H : (_ && _)%bool = true |- _ => apply andb_prop in H as [? ?]
  | H : (_ || _)%bool = false |- _ => apply orb_false_elim in H as [? ?]
  | H : (_ <? _) = true |- _ => apply Z.ltb_lt in H
  | H : (_ <? _) = false |- _ => apply Z.ltb_ge in H
  | H : (_ <=? _) = true |- _ => apply Z.leb_le in H
  | H : (_ <=? _) = false |- _ => apply Z.leb_gt in H
  | H : (_ =? _) = true |- _ => apply Z.eqb_eq in H
  | H : (_ =? _) = false |- _ => apply Z.eqb_neq in H
  | H : negb _ = true |- _ => apply negb_true_iff in H
  | H : negb _ = false |- _ => apply negb_false_iff in H
  end.

(** Split on the tests a definition makes, innermost scrutinee first. *)
Ltac split_ifs :=
  repeat (case_match; zbool; simplify_eq/=; try done).

Create HintDb word.
Create Rewrite HintDb word.
#[export] Hint Resolve u64_range u32_range : word.
#[export] Hint Rewrite @blit_length : word.
