(* ===== verification/KList.v ===== *)
(** The kernel's containers (src/kernel/src/klib/list.hpp, hashtable.hpp,
    vector.hpp and bitmap.hpp): intrusive doubly linked lists as a heap of
    links, what the other components take them for (a list of addresses), the
    hash table built on them, the growth of a vector and a bitmap's words. *)
From S2P Require Import Prelude.

(** ** Intrusive lists *)
Module KList.

(** A node's address gives its next and its previous node; 0 is null. *)
Abbreviation heap := (gmap Z (Z * Z)).

Definition next_of (h : heap) (x : Z) : option Z := fst <$> h !! x.
Definition prev_of (h : heap) (x : Z) : option Z := snd <$> h !! x.

(** Stores; writing through a pointer that is no node is [None]. *)
Definition set_next (x v : Z) (h : heap) : option heap := p ← h !! x; Some (<[x := (v, snd p)]> h).
Definition set_prev (x v : Z) (h : heap) : option heap := p ← h !! x; Some (<[x := (fst p, v)]> h).

Definition init (this : Z) (h : heap) : option heap := h1 ← set_next this this h; set_prev this this h1.

Definition add (this entry : Z) (h : heap) : option heap :=
  n ← next_of h this;
  h1 ← set_prev n entry h;
  n1 ← next_of h1 this;
  h2 ← set_next entry n1 h1;
  h3 ← set_prev entry this h2;
  set_next this entry h3.

Definition add_before (this entry : Z) (h : heap) : option heap :=
  p ← prev_of h this;
  h1 ← set_next p entry h;
  p1 ← prev_of h1 this;
  h2 ← set_prev entry p1 h1;
  h3 ← set_next entry this h2;
  set_prev this entry h3.

Definition remove (this : Z) (h : heap) : option heap :=
  n ← next_of h this;
  p ← prev_of h this;
  h1 ← set_prev n p h;
  p1 ← prev_of h1 this;
  n1 ← next_of h1 this;
  h2 ← set_next p1 n1 h1;
  h3 ← set_next this 0 h2;
  set_prev this 0 h3.

Definition is_empty (this : Z) (h : heap) : option bool := n ← next_of h this; Some (n =? this).
Definition is_invalid (this : Z) (h : heap) : option bool :=
  n ← next_of h this; p ← prev_of h this; Some ((n =? 0) || (p =? 0)).

(** [LIST_FOR_EACH]: the addresses the loop visits, from [pos] to the head; a
    turn of the loop takes a unit of fuel. *)
Fixpoint visit (fuel : nat) (head pos : Z) (h : heap) : option (list Z) :=
  match fuel with
  | O => None
  | S fuel => if pos =? head then Some [] else (n ← next_of h pos; l ← visit fuel head n h; Some (pos :: l))
  end.
Definition for_each (fuel : nat) (head : Z) (h : heap) : option (list Z) := n ← next_of h head; visit fuel head n h.

(** *** What a list stands for *)

(** Consecutive nodes point at each other. *)
Fixpoint path (h : heap) (xs : list Z) : Prop :=
  match xs with
  | x :: (y :: _) as r => next_of h x = Some y /\ prev_of h y = Some x /\ path h r
  | _ => True
  end.
Definition ring (h : heap) (a : Z) (l : list Z) : Prop := NoDup (a :: l) /\ path h (a :: l ++ [a]).

Lemma path_app h P x N : path h (P ++ x :: N) <-> path h (P ++ [x]) /\ path h (x :: N).
Proof.
  induction P as [|a P IH]; [simpl; tauto|]. destruct P as [|b P]; cbn [app path] in *; [tauto|].
  rewrite IH. tauto.
Qed.

Lemma path_cons h x y r : path h (x :: y :: r) <-> next_of h x = Some y /\ prev_of h y = Some x /\ path h (y :: r).
Proof. done. Qed.

Lemma path_frame h h' P x :
  (forall z, z ∈ P -> next_of h' z = next_of h z) ->
  (forall z, z ∈ tail (P ++ [x]) -> prev_of h' z = prev_of h z) ->
  path h (P ++ [x]) -> path h' (P ++ [x]).
Proof.
  induction P as [|a P IH]; intros Hn Hp Hpath; [done|].
  destruct P as [|b P]; cbn [app path tail] in *.
  - destruct Hpath as (H1 & H2 & _). rewrite Hn, Hp by (by left). done.
  - destruct Hpath as (H1 & H2 & H3). rewrite Hn by (by left). rewrite Hp by (by left). split; [done|]. split; [done|].
    apply IH; [|intros z Hz; apply Hp; by right|done]. intros z Hz. apply Hn. by right.
Qed.

(** A ring depends on its own nodes only. *)
Lemma ring_frame h h' a l : (forall z, z ∈ a :: l -> h' !! z = h !! z) -> ring h a l -> ring h' a l.
Proof.
  intros Hz [Hnd Hp]. split; [done|]. change (a :: l ++ [a]) with ((a :: l) ++ [a]) in *.
  apply (path_frame h); [| |done]; intros z Hin; unfold next_of, prev_of.
  - by rewrite Hz.
  - cbn in Hin. rewrite Hz; [done|]. apply elem_of_app in Hin as [Hin|Hin]; [by right|].
    apply list_elem_of_singleton in Hin as ->. left.
Qed.

(** The effect of a store on the pointers. *)
Lemma set_next_spec x v h : is_Some (h !! x) -> exists h', set_next x v h = Some h' /\
  (forall z, next_of h' z = if decide (z = x) then Some v else next_of h z) /\
  (forall z, prev_of h' z = prev_of h z) /\ (forall z, is_Some (h' !! z) <-> is_Some (h !! z)).
Proof.
  intros [p Hp]. unfold set_next, next_of, prev_of. rewrite Hp. eexists. split; [reflexivity|].
  split; [|split]; intros z; destruct (decide (z = x)) as [->|Hz].
  - by rewrite lookup_insert_eq.
  - by rewrite lookup_insert_ne.
  - by rewrite lookup_insert_eq, Hp.
  - by rewrite lookup_insert_ne.
  - rewrite lookup_insert_eq, Hp. split; eauto.
  - by rewrite lookup_insert_ne.
Qed.

Lemma set_prev_spec x v h : is_Some (h !! x) -> exists h', set_prev x v h = Some h' /\
  (forall z, prev_of h' z = if decide (z = x) then Some v else prev_of h z) /\
  (forall z, next_of h' z = next_of h z) /\ (forall z, is_Some (h' !! z) <-> is_Some (h !! z)).
Proof.
  intros [p Hp]. unfold set_prev, next_of, prev_of. rewrite Hp. eexists. split; [reflexivity|].
  split; [|split]; intros z; destruct (decide (z = x)) as [->|Hz].
  - by rewrite lookup_insert_eq.
  - by rewrite lookup_insert_ne.
  - by rewrite lookup_insert_eq, Hp.
  - by rewrite lookup_insert_ne.
  - rewrite lookup_insert_eq, Hp. split; eauto.
  - by rewrite lookup_insert_ne.
Qed.

(** No operation makes or unmakes a node. *)
Lemma set_next_dom x v h h' z : set_next x v h = Some h' -> is_Some (h' !! z) <-> is_Some (h !! z).
Proof.
  unfold set_next. destruct (h !! x) as [p|] eqn:E; [|done]. intros [= <-]. rewrite lookup_insert_is_Some.
  destruct (decide (x = z)) as [<-|]; [rewrite E|]; naive_solver.
Qed.
Lemma set_prev_dom x v h h' z : set_prev x v h = Some h' -> is_Some (h' !! z) <-> is_Some (h !! z).
Proof.
  unfold set_prev. destruct (h !! x) as [p|] eqn:E; [|done]. intros [= <-]. rewrite lookup_insert_is_Some.
  destruct (decide (x = z)) as [<-|]; [rewrite E|]; naive_solver.
Qed.
Lemma remove_dom e h h' z : remove e h = Some h' -> is_Some (h' !! z) <-> is_Some (h !! z).
Proof.
  unfold remove. intros H.
  repeat match type of H with (?o ≫= _) = _ => destruct o eqn:?; [|done]; cbn [mbind option_bind] in H end.
  repeat match goal with
  | E : set_next _ _ _ = Some _ |- _ => apply (set_next_dom _ _ _ _ z) in E
  | E : set_prev _ _ _ = Some _ |- _ => apply (set_prev_dom _ _ _ _ z) in E
  end. tauto.
Qed.

Lemma next_some h x y : next_of h x = Some y -> is_Some (h !! x).
Proof. unfold next_of. destruct (h !! x); by eauto. Qed.
Lemma prev_some h x y : prev_of h x = Some y -> is_Some (h !! x).
Proof. unfold prev_of. destruct (h !! x); by eauto. Qed.

(** A ring cut before and after its head. *)
Lemma ring_last h a l : ring h a l -> exists P p, a :: l = P ++ [p] /\ path h (P ++ [p]) /\ next_of h p = Some a /\ prev_of h a = Some p.
Proof.
  intros [_ Hp]. destruct (exists_last (l := a :: l)) as (P & p & E); [done|]. exists P, p. split; [done|].
  change (a :: l ++ [a]) with ((a :: l) ++ [a]) in Hp. rewrite E, <- app_assoc in Hp. cbn [app] in Hp.
  apply path_app in Hp as [H1 (H2 & H3 & _)]. done.
Qed.

Lemma ring_first h a l : ring h a l -> exists n N, l ++ [a] = n :: N /\ path h (n :: N) /\ next_of h a = Some n /\ prev_of h n = Some a.
Proof.
  intros [_ Hp]. destruct (l ++ [a]) as [|n N] eqn:E; [by destruct l|]. exists n, N. split; [done|].
  cbn [path] in Hp. destruct Hp as (H1 & H2 & H3). done.
Qed.

Lemma cell_ext h h' z : next_of h' z = next_of h z -> prev_of h' z = prev_of h z -> h' !! z = h !! z.
Proof.
  unfold next_of, prev_of. destruct (h !! z) as [[]|], (h' !! z) as [[]|]; simpl; congruence.
Qed.

Lemma add_before_writes h a e p :
  prev_of h a = Some p -> is_Some (h !! p) -> is_Some (h !! e) -> p <> e -> a <> e ->
  exists h', add_before a e h = Some h' /\
    (forall z, next_of h' z = if decide (z = e) then Some a else if decide (z = p) then Some e else next_of h z) /\
    (forall z, prev_of h' z = if decide (z = a) then Some e else if decide (z = e) then Some p else prev_of h z).
Proof.
  intros Hp Hsp Hse Hpe Hae. unfold add_before. rewrite Hp. cbn [mbind option_bind].
  destruct (set_next_spec p e h) as (h1 & -> & N1 & P1 & D1); [done|]. cbn [mbind option_bind]. rewrite P1, Hp. cbn [mbind option_bind].
  destruct (set_prev_spec e p h1) as (h2 & -> & P2 & N2 & D2); [by apply D1|]. cbn [mbind option_bind].
  destruct (set_next_spec e a h2) as (h3 & -> & N3 & P3 & D3); [by apply D2, D1|]. cbn [mbind option_bind].
  destruct (set_prev_spec a e h3) as (h4 & -> & P4 & N4 & D4); [by apply D3, D2, D1; eapply prev_some|].
  exists h4. split; [done|]. split; intros z.
  - by rewrite N4, N3, N2, N1.
  - by rewrite P4, P3, P2, P1.
Qed.

Lemma add_writes h a e n :
  next_of h a = Some n -> is_Some (h !! n) -> is_Some (h !! e) -> n <> e -> a <> e ->
  exists h', add a e h = Some h' /\
    (forall z, next_of h' z = if decide (z = a) then Some e else if decide (z = e) then Some n else next_of h z) /\
    (forall z, prev_of h' z = if decide (z = e) then Some a else if decide (z = n) then Some e else prev_of h z).
Proof.
  intros Hn Hsn Hse Hne Hae. unfold add. rewrite Hn. cbn [mbind option_bind].
  destruct (set_prev_spec n e h) as (h1 & -> & P1 & N1 & D1); [done|]. cbn [mbind option_bind]. rewrite N1, Hn. cbn [mbind option_bind].
  destruct (set_next_spec e n h1) as (h2 & -> & N2 & P2 & D2); [by apply D1|]. cbn [mbind option_bind].
  destruct (set_prev_spec e a h2) as (h3 & -> & P3 & N3 & D3); [by apply D2, D1|]. cbn [mbind option_bind].
  destruct (set_next_spec a e h3) as (h4 & -> & N4 & P4 & D4); [by apply D3, D2, D1; eapply next_some|].
  exists h4. split; [done|]. split; intros z.
  - by rewrite N4, N3, N2, N1.
  - by rewrite P4, P3, P2, P1.
Qed.

Lemma remove_writes h e p n :
  next_of h e = Some n -> prev_of h e = Some p -> is_Some (h !! n) -> is_Some (h !! p) -> n <> e -> p <> e ->
  exists h', remove e h = Some h' /\
    (forall z, next_of h' z = if decide (z = e) then Some 0 else if decide (z = p) then Some n else next_of h z) /\
    (forall z, prev_of h' z = if decide (z = e) then Some 0 else if decide (z = n) then Some p else prev_of h z).
Proof.
  intros Hn Hp Hsn Hsp Hne Hpe. unfold remove. rewrite Hn. cbn [mbind option_bind]. rewrite Hp. cbn [mbind option_bind].
  destruct (set_prev_spec n p h) as (h1 & -> & P1 & N1 & D1); [done|]. cbn [mbind option_bind].
  rewrite P1, N1, Hn. rewrite decide_False by congruence. rewrite Hp. cbn [mbind option_bind].
  destruct (set_next_spec p n h1) as (h2 & -> & N2 & P2 & D2); [by apply D1|]. cbn [mbind option_bind].
  destruct (set_next_spec e 0 h2) as (h3 & -> & N3 & P3 & D3); [by apply D2, D1; eapply next_some|]. cbn [mbind option_bind].
  destruct (set_prev_spec e 0 h3) as (h4 & -> & P4 & N4 & D4); [by apply D3, D2, D1; eapply next_some|].
  exists h4. split; [done|]. split; intros z.
  - by rewrite N4, N3, N2, N1.
  - by rewrite P4, P3, P2, P1.
Qed.

Lemma add_before_spec h a l e :
  ring h a l -> e ∉ a :: l -> is_Some (h !! e) ->
  exists h', add_before a e h = Some h' /\ ring h' a (l ++ [e]) /\
    (forall z, z ∉ a :: l -> z <> e -> h' !! z = h !! z).
Proof.
  intros Hring Hne He. pose proof (ring_last _ _ _ Hring) as (P & p & E & Hpath & Hn & Hp). destruct Hring as [Hnd _].
  assert (Hpl : p ∈ a :: l) by (rewrite E; apply elem_of_app; right; by apply list_elem_of_singleton).
  assert (Hnp : p <> e) by congruence. assert (Hna : a <> e) by (intros <-; apply Hne; by left).
  destruct (add_before_writes h a e p) as (h' & Ha & HN & HP); [done|by eapply next_some|done|done|done|].
  exists h'. split; [done|]. split; [split|].
  - change (a :: l ++ [e]) with ((a :: l) ++ [e]). apply NoDup_app. split; [done|]. split; [|apply NoDup_singleton].
    intros x Hx ->%list_elem_of_singleton. done.
  - replace (a :: (l ++ [e]) ++ [a]) with (P ++ p :: [e; a]).
    2:{ change (a :: (l ++ [e]) ++ [a]) with (((a :: l) ++ [e]) ++ [a]). rewrite E, <- !app_assoc. done. }
    apply path_app. split.
    + apply (path_frame h); [| |done].
      * intros z Hz. rewrite HN. rewrite decide_False, decide_False; [done| |].
        { intros ->. rewrite E in Hnd. apply NoDup_app in Hnd as (_ & Hd & _). by apply (Hd p Hz), list_elem_of_singleton. }
        { intros ->. apply Hne. rewrite E. apply elem_of_app. by left. }
      * rewrite <- E. cbn [tail]. intros z Hz. rewrite HP. rewrite decide_False, decide_False; [done| |].
        { intros ->. apply Hne. by right. } { intros ->. by apply NoDup_cons in Hnd as [Hnd _]. }
    + cbn [path]. rewrite !HN, !HP. repeat case_decide; try congruence; done.
  - intros z Hz Hze. apply cell_ext; rewrite ?HN, ?HP; rewrite !decide_False; try done; intros ->; try done.
    apply Hz. by left.
Qed.

Lemma add_spec h a l e :
  ring h a l -> e ∉ a :: l -> is_Some (h !! e) ->
  exists h', add a e h = Some h' /\ ring h' a (e :: l) /\
    (forall z, z ∉ a :: l -> z <> e -> h' !! z = h !! z).
Proof.
  intros Hring Hne He. pose proof (ring_first _ _ _ Hring) as (n & N & E & Hpath & Hn & Hp). destruct Hring as [Hnd _].
  assert (Hnl : n ∈ a :: l).
  { destruct l; cbn in E; injection E as <- _; [by left|by right; left]. }
  assert (Hnn : n <> e) by congruence. assert (Hna : a <> e) by (intros <-; apply Hne; by left).
  destruct (add_writes h a e n) as (h' & Ha & HN & HP); [done|by eapply prev_some|done|done|done|].
  exists h'. split; [done|]. split; [split|].
  - apply not_elem_of_cons in Hne as [_ Hne]. apply NoDup_cons in Hnd as [Hal Hnd].
    apply NoDup_cons. split; [by rewrite not_elem_of_cons|]. by apply NoDup_cons.
  - change (a :: (e :: l) ++ [a]) with ([a] ++ e :: (l ++ [a])). apply path_app. split.
    { cbn. rewrite HN, HP, !decide_True by done. done. }
    rewrite E. apply path_cons. rewrite HN, HP. split; [repeat case_decide; congruence|].
    split; [repeat case_decide; congruence|]. rewrite <- E.
    apply (path_frame h); [| |by rewrite E].
    + intros z Hz. rewrite HN, !decide_False; [done| |]; intros ->; [apply Hne; by right|by apply NoDup_cons in Hnd as [Hnd _]].
    + assert (Hnd' : NoDup (l ++ [a])).
      { apply NoDup_app. apply NoDup_cons in Hnd as [Ha' Hnd]. split; [done|]. split; [|apply NoDup_singleton].
        by intros x Hx ->%list_elem_of_singleton. }
      intros z Hz. rewrite HP, !decide_False; [done| |]; intros ->.
      * rewrite E in Hnd', Hz. by apply NoDup_cons in Hnd' as [Hnd' _].
      * assert (e ∈ l ++ [a]) as [He'|He'%list_elem_of_singleton]%elem_of_app
          by (rewrite E in Hz |- *; right; exact Hz); [apply Hne; by right|congruence].
  - intros z Hz Hze. apply cell_ext; rewrite ?HN, ?HP; rewrite !decide_False; try done; intros ->; try done.
    apply Hz. by left.
Qed.

Lemma ring_cut h a l1 e l2 : ring h a (l1 ++ e :: l2) ->
  exists P p n N, a :: l1 = P ++ [p] /\ l2 ++ [a] = n :: N /\ path h (P ++ [p]) /\ path h (n :: N) /\
    next_of h p = Some e /\ prev_of h e = Some p /\ next_of h e = Some n /\ prev_of h n = Some e.
Proof.
  intros [_ Hp]. destruct (exists_last (l := a :: l1)) as (P & p & E1); [done|].
  destruct (l2 ++ [a]) as [|n N] eqn:E2; [by destruct l2|]. exists P, p, n, N.
  replace (a :: (l1 ++ e :: l2) ++ [a]) with (P ++ p :: e :: n :: N) in Hp.
  2:{ rewrite <- E2. change (P ++ p :: e :: l2 ++ [a]) with (P ++ [p] ++ e :: l2 ++ [a]). rewrite app_assoc, <- E1, <- app_assoc. done. }
  apply path_app in Hp as [H1 H2]. apply path_cons in H2 as (H3 & H4 & H5). apply path_cons in H5 as (H6 & H7 & H8). done.
Qed.

Lemma remove_spec h a l1 e l2 :
  ring h a (l1 ++ e :: l2) ->
  exists h', remove e h = Some h' /\ ring h' a (l1 ++ l2) /\ is_invalid e h' = Some true /\
    (forall z, z ∉ a :: l1 ++ e :: l2 -> h' !! z = h !! z).
Proof.
  intros Hring. pose proof (ring_cut _ _ _ _ _ Hring) as (P & p & n & N & E1 & E2 & H1 & H2 & Hpn & Hep & Hen & Hnp).
  destruct Hring as [Hnd _].
  assert (Hnd1 : NoDup ((a :: l1) ++ e :: l2)) by exact Hnd. apply NoDup_app in Hnd1 as (Hnd1 & Hd & Hnd2).
  apply NoDup_cons in Hnd2 as [He2 Hnd2].
  assert (Hpl : p ∈ a :: l1) by (rewrite E1; apply elem_of_app; right; by apply list_elem_of_singleton).
  assert (Hpe : p <> e) by (intros ->; apply (Hd e Hpl); by left).
  assert (Hae : a <> e) by (intros ->; apply (Hd e); by left).
  assert (Hnl : n ∈ l2 ++ [a]) by (rewrite E2; by left).
  assert (Hne : n <> e) by (intros ->; apply elem_of_app in Hnl as [|Hnl%list_elem_of_singleton]; [done|congruence]).
  destruct (remove_writes h e p n) as (h' & Hr & HN & HP); [done|done|by eapply prev_some|by eapply next_some|done|done|].
  exists h'. split; [done|]. split; [split|split].
  - change (NoDup ((a :: l1) ++ l2)). apply NoDup_app. split; [done|]. split; [|done]. intros x Hx Hx2. apply (Hd x Hx). by right.
  - replace (a :: (l1 ++ l2) ++ [a]) with (P ++ p :: n :: N).
    2:{ rewrite <- E2. change (P ++ p :: l2 ++ [a]) with (P ++ [p] ++ l2 ++ [a]). rewrite app_assoc, <- E1, <- app_assoc. done. }
    apply path_app. split; [|apply path_cons; split; [|split]].
    + apply (path_frame h); [| |done].
      * intros z Hz. assert (z ∈ a :: l1) by (rewrite E1; apply elem_of_app; by left).
        rewrite HN, !decide_False; [done| |]; intros ->; [|by apply (Hd e); [|left]].
        rewrite E1 in Hnd1. apply NoDup_app in Hnd1 as (_ & Hd1 & _). by apply (Hd1 p Hz), list_elem_of_singleton.
      * rewrite <- E1. cbn [tail]. intros z Hz. rewrite HP, !decide_False; [done| |]; intros ->.
        { apply elem_of_app in Hnl as [Hnl|Hnl%list_elem_of_singleton]; [apply (Hd n); right; done|].
          subst n. by apply NoDup_cons in Hnd1 as [Hnd1 _]. }
        { apply (Hd e); [by right|by left]. }
    + rewrite HN. repeat case_decide; congruence.
    + rewrite HP. repeat case_decide; congruence.
    + rewrite <- E2. assert (HndN : NoDup (l2 ++ [a])).
      { apply NoDup_app. split; [done|]. split; [|apply NoDup_singleton]. intros x Hx ->%list_elem_of_singleton.
        apply (Hd a); [by left|by right]. }
      apply (path_frame h); [| |by rewrite E2].
      * intros z Hz. rewrite HN, !decide_False; [done| |]; intros ->; [by apply (Hd p Hpl); right|done].
      * intros z Hz. rewrite HP, !decide_False; [done| |]; intros ->.
        { rewrite E2 in HndN, Hz. by apply NoDup_cons in HndN as [HndN _]. }
        { assert (e ∈ l2 ++ [a]) as [|He'%list_elem_of_singleton]%elem_of_app
            by (rewrite E2 in Hz |- *; right; exact Hz); [done|congruence]. }
  - unfold is_invalid. rewrite HN, decide_True by done. cbn [mbind option_bind]. rewrite HP, decide_True by done. done.
  - intros z Hz. change (a :: l1 ++ e :: l2) with ((a :: l1) ++ e :: l2) in Hz.
    apply not_elem_of_app in Hz as [Hz1 Hz2]. apply not_elem_of_cons in Hz2 as [Hze Hz2]. apply cell_ext; rewrite ?HN, ?HP, !decide_False; try done; intros ->; [done|].
    apply elem_of_app in Hnl as [|Hnl%list_elem_of_singleton]; [done|]. subst n. apply Hz1. by left.
Qed.

Lemma init_spec h a : is_Some (h !! a) -> exists h', init a h = Some h' /\ ring h' a [] /\ (forall z, z <> a -> h' !! z = h !! z).
Proof.
  intros Ha. unfold init.
  destruct (set_next_spec a a h) as (h1 & -> & N1 & P1 & D1); [done|]. cbn [mbind option_bind].
  destruct (set_prev_spec a a h1) as (h2 & -> & P2 & N2 & D2); [by apply D1|]. exists h2. split; [done|]. split.
  - split; [apply NoDup_singleton|]. cbn. rewrite N2, N1, P2, !decide_True by done. done.
  - intros z Hz. apply cell_ext; rewrite ?N2, ?P2, ?N1, ?P1, ?decide_False; done.
Qed.

(** The forward pointers alone. *)
Fixpoint forward (h : heap) (xs : list Z) : Prop :=
  match xs with
  | x :: (y :: _) as r => next_of h x = Some y /\ forward h r
  | _ => True
  end.

Lemma forward_cons h x y r : forward h (x :: y :: r) <-> next_of h x = Some y /\ forward h (y :: r).
Proof. done. Qed.

Lemma path_forward h xs : path h xs -> forward h xs.
Proof.
  induction xs as [|x [|y r] IH]; [done|done|]. rewrite path_cons, forward_cons. intros (H1 & _ & H2). auto.
Qed.

Lemma forward_app h P x N : forward h (P ++ x :: N) <-> forward h (P ++ [x]) /\ forward h (x :: N).
Proof.
  induction P as [|a P IH]; [simpl; tauto|]. destruct P as [|b P]; cbn [app forward] in *; [tauto|].
  rewrite IH. tauto.
Qed.

Lemma forward_frame h h' P x : (forall z, z ∈ P -> next_of h' z = next_of h z) -> forward h (P ++ [x]) -> forward h' (P ++ [x]).
Proof.
  induction P as [|a P IH]; intros Hn Hp; [done|]. destruct P as [|b P]; cbn [app] in *.
  - destruct Hp as [Hp _]. split; [|done]. by rewrite Hn by (by left).
  - apply forward_cons in Hp as [H1 H2]. apply forward_cons. rewrite Hn by (by left). split; [done|].
    apply IH; [|done]. intros z Hz. apply Hn. by right.
Qed.

(** A walk over the list visits its nodes in order and ends. *)
Lemma visit_spec h a : forall l x fuel, forward h (x :: l ++ [a]) -> a ∉ l -> (length l < fuel)%nat ->
  (n ← next_of h x; visit fuel a n h) = Some l.
Proof.
  induction l as [|y l IH]; intros x fuel Hp Ha Hf; (destruct fuel as [|fuel]; [simpl in Hf; lia|]).
  - destruct Hp as [-> _]. cbn. by rewrite Z.eqb_refl.
  - apply not_elem_of_cons in Ha as [Hay Ha]. cbn [app] in Hp. apply forward_cons in Hp as [-> Hp]. cbn [mbind option_bind visit].
    destruct (Z.eqb_spec y a) as [E|_]; [congruence|]. simpl in Hf.
    specialize (IH y fuel Hp Ha ltac:(lia)). destruct (next_of h y) as [n|]; [|done]. cbn [mbind option_bind] in *.
    by rewrite IH.
Qed.

Lemma for_each_spec h a l fuel : ring h a l -> (length l < fuel)%nat -> for_each fuel a h = Some l.
Proof.
  intros [Hnd Hp] Hf. apply NoDup_cons in Hnd as [Ha _]. exact (visit_spec h a l a fuel (path_forward _ _ Hp) Ha Hf).
Qed.

Lemma is_empty_spec h a l : ring h a l -> is_empty a h = Some (bool_decide (l = [])).
Proof.
  intros [Hnd Hp]. unfold is_empty. apply NoDup_cons in Hnd as [Ha _].
  destruct l as [|x l]; apply path_cons in Hp as (-> & _ & _); cbn [mbind option_bind].
  - by rewrite Z.eqb_refl.
  - rewrite not_elem_of_cons in Ha. destruct (Z.eqb_spec x a); [naive_solver congruence|done].
Qed.

(** *** Operations on one list *)
Inductive Op : Type := Add (e : Z) | AddBefore (e : Z) | Remove (e : Z).

Definition run_op (a : Z) (o : Op) (h : heap) : option heap :=
  match o with Add e => add a e h | AddBefore e => add_before a e h | Remove e => remove e h end.

(** The abstract list, and when an operation may be applied. *)
Definition spec_op (o : Op) (l : list Z) : list Z :=
  match o with Add e => e :: l | AddBefore e => l ++ [e] | Remove e => filter (fun x => x <> e) l end.
Definition op_ok (a : Z) (dom : Z -> Prop) (o : Op) (l : list Z) : Prop :=
  match o with Add e | AddBefore e => e <> a /\ e ∉ l /\ dom e | Remove e => e ∈ l end.

Fixpoint run_ops (a : Z) (os : list Op) (h : heap) : option heap :=
  match os with [] => Some h | o :: os' => h1 ← run_op a o h; run_ops a os' h1 end.
Fixpoint ops_ok (a : Z) (dom : Z -> Prop) (os : list Op) (l : list Z) : Prop :=
  match os with [] => True | o :: os' => op_ok a dom o l /\ ops_ok a dom os' (spec_op o l) end.

Lemma filter_out (l1 : list Z) e l2 : e ∉ l1 -> e ∉ l2 -> filter (fun x => x <> e) (l1 ++ e :: l2) = l1 ++ l2.
Proof.
  intros H1 H2. assert (Hf : forall l : list Z, e ∉ l -> filter (fun x => x <> e) l = l).
  { induction l as [|x l IH]; [done|]. rewrite not_elem_of_cons. intros [Hx Hl]. rewrite filter_cons_True by congruence. by rewrite IH. }
  rewrite filter_app, filter_cons_False by (intros H; by apply H). by rewrite !Hf.
Qed.

Lemma ring_dom h a l z : ring h a l -> z ∈ a :: l -> is_Some (h !! z).
Proof.
  intros [_ Hp] Hz. change (a :: l ++ [a]) with ((a :: l) ++ [a]) in Hp. apply list_elem_of_split in Hz as (l1 & l2 & E).
  rewrite E, <- app_assoc in Hp. cbn [app] in Hp. apply path_app in Hp as [_ Hp].
  destruct (l2 ++ [a]) as [|y r] eqn:E2; [by destruct l2|]. apply path_cons in Hp as (Hn & _). by eapply next_some.
Qed.

(** Nodes stay nodes. *)
Lemma dom_kept (h h' : heap) a l l' e : (forall z, z ∉ a :: l -> z <> e -> h' !! z = h !! z) ->
  ring h' a l' -> is_Some (h' !! e) -> (forall z, z ∈ a :: l -> z = e \/ z ∈ a :: l') ->
  forall z, is_Some (h !! z) -> is_Some (h' !! z).
Proof.
  intros Hf Hr He Hl z Hz. destruct (decide (z ∈ a :: l)) as [Hin|Hout].
  - destruct (Hl z Hin) as [->|]; [done|by eapply ring_dom].
  - destruct (decide (z = e)) as [->|]; [done|]. by rewrite Hf.
Qed.

Lemma run_op_ring a o h l : ring h a l -> op_ok a (fun e => is_Some (h !! e)) o l ->
  exists h', run_op a o h = Some h' /\ ring h' a (spec_op o l) /\ (forall z, is_Some (h !! z) -> is_Some (h' !! z)).
Proof.
  intros Hr Hok. destruct o as [e|e|e]; cbn [run_op spec_op op_ok] in *.
  - destruct Hok as (H1 & H2 & H3). destruct (add_spec h a l e Hr) as (h' & Ha & Hr' & Hf); [by rewrite not_elem_of_cons|done|].
    exists h'. split; [done|]. split; [done|]. apply (dom_kept h h' a l (e :: l) e Hf Hr').
    + eapply ring_dom; [exact Hr'|]. right. by left.
    + intros z [->|Hz]%elem_of_cons; right; [by left|by right; right].
  - destruct Hok as (H1 & H2 & H3). destruct (add_before_spec h a l e Hr) as (h' & Ha & Hr' & Hf); [by rewrite not_elem_of_cons|done|].
    exists h'. split; [done|]. split; [done|]. apply (dom_kept h h' a l (l ++ [e]) e Hf Hr').
    + eapply ring_dom; [exact Hr'|]. right. apply elem_of_app. right. by left.
    + intros z [->|Hz]%elem_of_cons; right; [by left|right]. apply elem_of_app. by left.
  - apply list_elem_of_split in Hok as (l1 & l2 & ->).
    destruct (remove_spec h a l1 e l2 Hr) as (h' & Ha & Hr' & Hi & Hf).
    assert (He : e ∉ l1 /\ e ∉ l2).
    { destruct Hr as [Hnd _]. apply NoDup_cons in Hnd as [_ Hnd]. apply NoDup_app in Hnd as (_ & Hd & Hnd).
      apply NoDup_cons in Hnd as [He2 _]. split; [|done]. intros He1. apply (Hd e He1). by left. }
    rewrite filter_out by apply He. exists h'. split; [done|]. split; [done|].
    apply (dom_kept h h' a (l1 ++ e :: l2) (l1 ++ l2) e); [by intros z Hz _; apply Hf|done| |].
    + unfold is_invalid in Hi. destruct (next_of h' e) eqn:En; [by eapply next_some|done].
    + intros z. rewrite !elem_of_cons, !elem_of_app, elem_of_cons. tauto.
Qed.

Lemma run_ops_ring a os : forall h l, ring h a l -> ops_ok a (fun e => is_Some (h !! e)) os l ->
  exists h', run_ops a os h = Some h' /\ ring h' a (fold_left (fun l o => spec_op o l) os l).
Proof.
  induction os as [|o os IH]; intros h l Hr Hok; cbn [run_ops fold_left ops_ok] in *; [by exists h|].
  destruct Hok as [Ho Hos]. destruct (run_op_ring a o h l Hr Ho) as (h1 & -> & Hr1 & Hd). cbn [mbind option_bind].
  apply IH; [done|]. clear Ho IH Hr Hr1. generalize dependent (spec_op o l).
  induction os as [|o' os IH]; intros l' Hos; [done|]. cbn [ops_ok] in *. destruct Hos as [Ho Hos]. split; [|by apply IH].
  destruct o' as [e|e|e]; cbn [op_ok] in *; naive_solver.
Qed.

(** A list whose nodes are never linked twice behaves as the list of
    their addresses under any sequence of [add], [add_before] and [remove], and a
    walk over it visits exactly those nodes, in order. *)
Theorem list_refines a os h0 h l :
  is_Some (h0 !! a) -> init a h0 = Some h -> ops_ok a (fun e => is_Some (h !! e)) os [] ->
  fold_left (fun l o => spec_op o l) os [] = l ->
  exists h', run_ops a os h = Some h' /\ ring h' a l /\ is_empty a h' = Some (bool_decide (l = [])) /\
    forall fuel, (length l < fuel)%nat -> for_each fuel a h' = Some l.
Proof.
  intros Ha Hi Hok Hl. destruct (init_spec h0 a Ha) as (h1 & Hi' & Hr & _). rewrite Hi in Hi'. injection Hi' as <-.
  destruct (run_ops_ring a os h [] Hr Hok) as (h' & Hrun & Hr'). rewrite Hl in Hr'. exists h'.
  split; [done|]. split; [done|]. split; [by apply is_empty_spec|]. intros fuel Hf. by apply for_each_spec.
Qed.

(** A node that is put at the tail while it is still in the list cuts off
    every node that came after it: a walk ends there, and the others, though
    their links say otherwise, are no longer reached. *)
Theorem relink_cuts_tail h a l1 e l2 :
  ring h a (l1 ++ e :: l2) -> l2 <> [] ->
  exists h', add_before a e h = Some h' /\ forall fuel, (length l1 + 1 < fuel)%nat -> for_each fuel a h' = Some (l1 ++ [e]).
Proof.
  intros Hr Hl2. pose proof (ring_last _ _ _ Hr) as (P & p & E & _ & _ & Hp).
  pose proof Hr as [Hnd Hpath]. apply NoDup_cons in Hnd as [Ha Hnd].
  assert (Hae : a <> e) by (intros ->; apply Ha, elem_of_app; right; by left).
  assert (Hpl : p ∈ l2).
  { destruct (exists_last Hl2) as (l3 & b & ->). change (a :: l1 ++ e :: l3 ++ [b]) with ((a :: l1) ++ (e :: l3) ++ [b]) in E.
    rewrite app_assoc in E. apply app_inj_tail in E as [_ ->]. apply elem_of_app. right. by left. }
  apply NoDup_app in Hnd as (Hnd1 & Hd & Hnd2). apply NoDup_cons in Hnd2 as [He2 Hnd2].
  assert (Hpe : p <> e) by congruence.
  assert (Hin : forall z, z ∈ a :: l1 -> z <> e /\ z <> p).
  { intros z [->|Hz]%elem_of_cons; split; try done; intros ->; [apply Ha, elem_of_app; right; by right|..];
      apply (Hd _ Hz); [by left|by right]. }
  destruct (add_before_writes h a e p) as (h' & Hadd & HN & _); [done| | |done|done|].
  { eapply ring_dom; [exact Hr|]. right. apply elem_of_app. right. by right. }
  { eapply ring_dom; [exact Hr|]. right. apply elem_of_app. right. by left. }
  exists h'. split; [done|]. intros fuel Hf. apply (visit_spec h' a (l1 ++ [e]) a fuel).
  - replace (a :: (l1 ++ [e]) ++ [a]) with ((a :: l1) ++ e :: [a]) by (cbn; by rewrite <- app_assoc).
    apply forward_app. split.
    + apply (forward_frame h); [intros z Hz; rewrite HN, !decide_False by (by apply Hin); done|].
      apply path_forward in Hpath. replace (a :: (l1 ++ e :: l2) ++ [a]) with ((a :: l1) ++ e :: (l2 ++ [a])) in Hpath
        by (cbn; by rewrite <- app_assoc).
      by apply forward_app in Hpath as [Hpath _].
    + apply forward_cons. by rewrite HN, decide_True.
  - rewrite elem_of_app, list_elem_of_singleton. intros [Hz|Hz]; [apply Ha, elem_of_app; by left|done].
  - rewrite length_app. simpl. lia.
Qed.

End KList.

(** ** Hash tables *)
(** [klib::hash] on 64-bit words. *)
Definition hash64 (h : Z) : Z :=
  let h := Z.lxor h (Z.shiftr h 33) in
  let h := u64 (h * 18397679294719823053) in
  let h := Z.lxor h (Z.shiftr h 33) in
  let h := u64 (h * 14181476777654086739) in
  Z.lxor h (Z.shiftr h 33).

Module HashTable.
Section HashTable.
Context {K V : Type} `{Countable K}.
(** [klib::hash], on the keys of the table. *)
Context (hash : K -> Z).

(** A bucket lists its entries from the head of its list. *)
Record HashTable : Type := mkHashTable {
  table : list (list (K * V));
  table_size : Z;
  num_stored : Z
}.

Definition new (size : Z) : HashTable := mkHashTable (replicate (Z.to_nat size) []) size 0.

(** A table without buckets divides by zero: [None]. *)
Definition get_hash_bucket (k : K) (t : HashTable) : option Z :=
  if table_size t =? 0 then None else Some (hash k mod table_size t).

Fixpoint find (k : K) (b : list (K * V)) : option V :=
  match b with
  | [] => None
  | (k', v) :: b' => if bool_decide (k' = k) then Some v else find k b'
  end.

(** [operator []]: a null pointer is the inner [None]. *)
Definition get (k : K) (t : HashTable) : option (option V) :=
  i ← get_hash_bucket k t; b ← table t !! Z.to_nat i; Some (find k b).

Definition emplace (k : K) (v : V) (t : HashTable) : option HashTable :=
  i ← get_hash_bucket k t;
  b ← table t !! Z.to_nat i;
  Some (mkHashTable (<[Z.to_nat i := (k, v) :: b]> (table t)) (table_size t) (u64 (num_stored t + 1))).

Fixpoint remove_from (k : K) (b : list (K * V)) : option (list (K * V)) :=
  match b with
  | [] => None
  | (k', v) :: b' => if bool_decide (k' = k) then Some b' else (b1 ← remove_from k b'; Some ((k', v) :: b1))
  end.

Definition remove (k : K) (t : HashTable) : option HashTable :=
  i ← get_hash_bucket k t;
  b ← table t !! Z.to_nat i;
  match remove_from k b with
  | Some b1 => Some (mkHashTable (<[Z.to_nat i := b1]> (table t)) (table_size t) (u64 (num_stored t - 1)))
  | None => Some t
  end.

(** The entries [for_each] visits, in order. *)
Definition for_each (t : HashTable) : list (K * V) := concat (table t).

(** *** The map a table stands for *)
Definition bucket_of (t : HashTable) (k : K) : nat := Z.to_nat (hash k mod table_size t).

Record table_ok (t : HashTable) : Prop := {
  ok_size : 0 < table_size t;
  ok_length : length (table t) = Z.to_nat (table_size t);
  ok_nodup : forall i b, table t !! i = Some b -> NoDup b.*1;
  ok_bucket : forall i b k v, table t !! i = Some b -> (k, v) ∈ b -> bucket_of t k = i
}.
Definition represents (t : HashTable) (m : gmap K V) : Prop :=
  table_ok t /\ forall k v, (exists b, table t !! bucket_of t k = Some b /\ (k, v) ∈ b) <-> m !! k = Some v.

Lemma find_spec k b : NoDup b.*1 -> forall v, find k b = Some v <-> (k, v) ∈ b.
Proof.
  induction b as [|[k' v'] b IH]; intros Hnd v; cbn [find].
  - split; [done|]. intros Hv. by apply elem_of_nil in Hv.
  - cbn in Hnd. apply NoDup_cons in Hnd as [Hk Hnd]. rewrite elem_of_cons. case_bool_decide as E.
    + subst k'. split; [intros [= ->]; by left|]. intros [[= ->]|Hv]; [done|].
      destruct Hk. apply list_elem_of_fmap. by exists (k, v).
    + rewrite (IH Hnd). split; [by right|]. intros [[= <- _]|]; done.
Qed.

Lemma remove_from_spec k b : NoDup b.*1 ->
  match remove_from k b with
  | Some b1 => k ∈ b.*1 /\ NoDup b1.*1 /\ forall k' v, (k', v) ∈ b1 <-> (k', v) ∈ b /\ k' <> k
  | None => k ∉ b.*1
  end.
Proof.
  induction b as [|[k0 v0] b IH]; intros Hnd; cbn [remove_from]; [apply not_elem_of_nil|].
  cbn in Hnd. apply NoDup_cons in Hnd as [Hk Hnd]. case_bool_decide as E.
  - subst k0. split; [by left|]. split; [done|]. intros k' v. rewrite elem_of_cons. split.
    + intros Hv. split; [by right|]. intros ->. destruct Hk. apply list_elem_of_fmap. by exists (k, v).
    + intros [[[= -> _]|Hv] Hne]; done.
  - specialize (IH Hnd). destruct (remove_from k b) as [b1|]; cbn [mbind option_bind].
    + destruct IH as (Hin & Hnd1 & Hb). split; [by right|]. split.
      * cbn. apply NoDup_cons. split; [|done]. intros Hk1. apply list_elem_of_fmap in Hk1 as ([k1 v1] & -> & Hv).
        destruct Hk. apply Hb in Hv as [Hv _]. apply list_elem_of_fmap. by exists (k1, v1).
      * intros k' v. rewrite !elem_of_cons, Hb. naive_solver.
    + cbn. by rewrite not_elem_of_cons.
Qed.

Lemma bucket_lookup t k : table_ok t -> exists b, table t !! bucket_of t k = Some b /\ get_hash_bucket k t = Some (hash k mod table_size t).
Proof.
  intros [Hs Hl _ _]. unfold get_hash_bucket, bucket_of. destruct (Z.eqb_spec (table_size t) 0); [lia|].
  pose proof (Z.mod_pos_bound (hash k) (table_size t) Hs).
  destruct (lookup_lt_is_Some_2 (table t) (Z.to_nat (hash k mod table_size t))) as [b Hb]; [lia|]. by exists b.
Qed.

Lemma new_represents size : 0 < size -> represents (new size) ∅.
Proof.
  intros Hs. unfold new. split.
  - constructor; cbn; [done|by rewrite length_replicate|..].
    + intros i b [-> _]%lookup_replicate. apply NoDup_nil_2.
    + intros i b k v [-> _]%lookup_replicate Hv. by apply elem_of_nil in Hv.
  - intros k v. cbn. rewrite lookup_empty. split; [|done]. intros (b & [-> _]%lookup_replicate & Hv). by apply elem_of_nil in Hv.
Qed.

Lemma get_represents t m k : represents t m -> get k t = Some (m !! k).
Proof.
  intros [Hok Hm]. destruct (bucket_lookup t k Hok) as (b & Hb & Hg). unfold get. rewrite Hg. cbn [mbind option_bind].
  change (Z.to_nat (hash k mod table_size t)) with (bucket_of t k). rewrite Hb. cbn [mbind option_bind]. f_equal.
  pose proof (find_spec k b (ok_nodup _ Hok _ _ Hb)) as Hf. apply option_eq. intros v. rewrite Hf, <- Hm.
  split; [intros Hv; by exists b|]. intros (b' & Hb' & Hv). congruence.
Qed.

(** Replacing the bucket of a key. *)
Lemma bucket_replace t m k b b1 m1 n :
  represents t m -> table t !! bucket_of t k = Some b ->
  NoDup b1.*1 -> (forall k' v, (k', v) ∈ b1 -> bucket_of t k' = bucket_of t k) ->
  (forall k' v, bucket_of t k' = bucket_of t k -> (k', v) ∈ b1 <-> m1 !! k' = Some v) ->
  (forall k', bucket_of t k' <> bucket_of t k -> m1 !! k' = m !! k') ->
  represents (mkHashTable (<[bucket_of t k := b1]> (table t)) (table_size t) n) m1.
Proof.
  intros [Hok Hm] Hb Hnd Hbk Hin Hout. pose proof Hok as [Hs Hl Hn Hbu]. pose proof (lookup_lt_Some _ _ _ Hb) as Hlt.
  assert (Hcell : forall i b', <[bucket_of t k := b1]> (table t) !! i = Some b' ->
    i = bucket_of t k /\ b' = b1 \/ i <> bucket_of t k /\ table t !! i = Some b').
  { intros i b' Hi. destruct (decide (i = bucket_of t k)) as [->|Hne].
    - rewrite list_lookup_insert_eq in Hi by done. left. by injection Hi as <-.
    - rewrite list_lookup_insert_ne in Hi by done. by right. }
  split.
  - constructor; cbn [table table_size]; [done|by rewrite length_insert|..].
    + intros i b' [[_ ->]|[_ Hi]]%Hcell; [done|by eapply Hn].
    + intros i b' k' v [[-> ->]|[_ Hi]]%Hcell Hv; [by eapply Hbk|]. exact (Hbu _ _ _ _ Hi Hv).
  - intros k' v. cbn [table]. change (bucket_of (mkHashTable _ _ _) k') with (bucket_of t k').
    destruct (decide (bucket_of t k' = bucket_of t k)) as [E|E].
    + rewrite E, list_lookup_insert_eq by done. rewrite <- Hin by done. split; [|by exists b1]. intros (? & [= <-] & Hv). done.
    + rewrite list_lookup_insert_ne by done. rewrite Hout by done. apply Hm.
Qed.

Lemma emplace_represents t m k v : represents t m -> m !! k = None ->
  exists t', emplace k v t = Some t' /\ represents t' (<[k := v]> m).
Proof.
  intros Hr Hk. pose proof Hr as [Hok Hm]. destruct (bucket_lookup t k Hok) as (b & Hb & Hg).
  unfold emplace. rewrite Hg. cbn [mbind option_bind].
  change (Z.to_nat (hash k mod table_size t)) with (bucket_of t k). rewrite Hb. cbn [mbind option_bind].
  eexists. split; [reflexivity|]. assert (Hkb : k ∉ b.*1).
  { intros Hin. apply list_elem_of_fmap in Hin as ([k' v'] & Ek & Hv). cbn in Ek. subst k'.
    assert (m !! k = Some v') by (apply Hm; by exists b). congruence. }
  apply (bucket_replace t m k b); try done.
  - cbn. apply NoDup_cons. split; [done|]. by eapply ok_nodup.
  - intros k' v' [[= -> _]|Hv]%elem_of_cons; [done|]. exact (ok_bucket _ Hok _ _ _ _ Hb Hv).
  - intros k' v' E. rewrite elem_of_cons. destruct (decide (k' = k)) as [->|Hne].
    + rewrite lookup_insert_eq. split; [|intros [= ->]; by left]. intros [[= ->]|Hv]; [done|].
      destruct Hkb. apply list_elem_of_fmap. by exists (k, v').
    + rewrite lookup_insert_ne by done. rewrite <- Hm, E. split.
      * intros [[= -> _]|Hv]; [done|by exists b].
      * intros (b' & Hb' & Hv). right. congruence.
  - intros k' E. rewrite lookup_insert_ne; [done|]. by intros ->.
Qed.

Lemma remove_represents t m k : represents t m ->
  exists t', remove k t = Some t' /\ represents t' (delete k m).
Proof.
  intros Hr. pose proof Hr as [Hok Hm]. destruct (bucket_lookup t k Hok) as (b & Hb & Hg).
  unfold remove. rewrite Hg. cbn [mbind option_bind].
  change (Z.to_nat (hash k mod table_size t)) with (bucket_of t k). rewrite Hb. cbn [mbind option_bind].
  pose proof (remove_from_spec k b (ok_nodup _ Hok _ _ Hb)) as Hrem. destruct (remove_from k b) as [b1|].
  - destruct Hrem as (Hin & Hnd & Hb1). eexists. split; [reflexivity|]. apply (bucket_replace t m k b); try done.
    + intros k' v' [Hv _]%Hb1. exact (ok_bucket _ Hok _ _ _ _ Hb Hv).
    + intros k' v' E. rewrite Hb1. destruct (decide (k' = k)) as [->|Hne].
      * rewrite lookup_delete_eq. naive_solver.
      * rewrite lookup_delete_ne by done. rewrite <- Hm, E. split; [intros [Hv _]; by exists b|].
        intros (b' & Hb' & Hv). split; [congruence|done].
    + intros k' E. rewrite lookup_delete_ne; [done|]. by intros ->.
  - eexists. split; [reflexivity|]. assert (Hn : m !! k = None).
    { destruct (m !! k) as [v|] eqn:E; [|done]. apply Hm in E as (b' & Hb' & Hv). destruct Hrem.
      apply list_elem_of_fmap. exists (k, v). split; [done|congruence]. }
    by rewrite delete_id.
Qed.

(** *** Operations *)
Inductive Op : Type := Emplace (k : K) (v : V) | Remove (k : K).
Definition run_op (o : Op) (t : HashTable) : option HashTable :=
  match o with Emplace k v => emplace k v t | Remove k => remove k t end.
Definition spec_op (o : Op) (m : gmap K V) : gmap K V :=
  match o with Emplace k v => <[k := v]> m | Remove k => delete k m end.
(** Keys are emplaced only when they are absent. *)
Definition op_ok (o : Op) (m : gmap K V) : Prop :=
  match o with Emplace k _ => m !! k = None | Remove _ => True end.
Fixpoint run_ops (os : list Op) (t : HashTable) : option HashTable :=
  match os with [] => Some t | o :: os' => t1 ← run_op o t; run_ops os' t1 end.
Fixpoint ops_ok (os : list Op) (m : gmap K V) : Prop :=
  match os with [] => True | o :: os' => op_ok o m /\ ops_ok os' (spec_op o m) end.

End HashTable.
End HashTable.

(** ** Vectors *)
Module Vector.
Section Vector.
Context {T : Type}.

(** The elements in use and the number there is room for. *)
Record Vector : Type := mkVector { elements : list T; m_capacity : Z }.
Definition m_size (v : Vector) : Z := Z.of_nat (length (elements v)).
Definition empty : Vector := mkVector [] 0.

(** The doubling loop; 65 turns take 1 past 2^63. *)
Fixpoint grow (fuel : nat) (new_capacity cap : Z) : option Z :=
  if new_capacity <=? cap then Some cap
  else match fuel with
       | O => None
       | S fuel => grow fuel new_capacity (if cap =? 0 then 1 else u64 (cap * 2))
       end.
Definition increase_capacity (new_capacity : Z) (v : Vector) : option Vector :=
  if m_capacity v <? new_capacity
  then (c ← grow 65 new_capacity (m_capacity v); Some (mkVector (elements v) c))
  else Some v.

Definition emplace_back (x : T) (v : Vector) : option Vector :=
  v1 ← increase_capacity (m_size v + 1) v; Some (mkVector (elements v1 ++ [x]) (m_capacity v1)).

(** New elements are whatever the allocation holds: [fresh]. *)
Definition resize (new_size : Z) (fresh : nat -> T) (v : Vector) : option Vector :=
  v1 ← increase_capacity new_size v;
  Some (mkVector (firstn (Z.to_nat new_size) (elements v1) ++
                  (fresh <$> seq (length (elements v1)) (Z.to_nat new_size - length (elements v1)))) (m_capacity v1)).

Lemma grow_S fuel n cap :
  grow (S fuel) n cap = if n <=? cap then Some cap else grow fuel n (if cap =? 0 then 1 else u64 (cap * 2)).
Proof. done. Qed.

Lemma grow_double fuel n k : (k <= 63)%nat -> (63 - k < fuel)%nat -> n <= 2 ^ 63 ->
  exists c, grow fuel n (2 ^ Z.of_nat k) = Some c /\ n <= c /\ c <= Z.max (2 ^ Z.of_nat k) (2 * n).
Proof.
  revert k. induction fuel as [|fuel IH]; intros k Hk Hf Hn; [lia|]. cbn [grow].
  destruct (Z.leb_spec n (2 ^ Z.of_nat k)) as [|Hlt]; [eexists; split; [done|lia]|].
  assert (Hk' : (k < 63)%nat).
  { destruct (decide (k = 63%nat)) as [->|]; [|lia]. change (Z.of_nat 63) with 63 in Hlt. lia. }
  pose proof (Z.pow_pos_nonneg 2 (Z.of_nat k)) as Hpos.
  assert (Hp : 2 ^ Z.of_nat (S k) = 2 ^ Z.of_nat k * 2) by (rewrite Nat2Z.inj_succ, Z.pow_succ_r; lia).
  assert (Hb : 2 ^ Z.of_nat (S k) <= 2 ^ 63) by (apply Z.pow_le_mono_r; lia).
  destruct (Z.eqb_spec (2 ^ Z.of_nat k) 0); [lia|].
  rewrite u64_small by (change (2 ^ 63) with 9223372036854775808 in Hb; lia). rewrite <- Hp.
  destruct (IH (S k)) as (c & Hc & Hle & Hge); [lia|lia|done|]. exists c. split; [done|]. rewrite Hp in Hge. lia.
Qed.

(** From nothing the capacity ends at the size asked for, or at most twice it. *)
Lemma increase_capacity_enough n : 0 < n <= 2 ^ 63 ->
  exists v, increase_capacity n empty = Some v /\ n <= m_capacity v <= 2 * n /\ elements v = [].
Proof.
  intros Hn. unfold increase_capacity, empty. cbn [m_capacity elements]. destruct (Z.ltb_spec 0 n); [|lia].
  rewrite (grow_S 64). destruct (Z.leb_spec n 0); [lia|]. rewrite Z.eqb_refl.
  destruct (grow_double 64 n 0) as (c & Hc & Hle & Hge); [lia|lia|lia|]. change (2 ^ Z.of_nat 0) with 1 in *. rewrite Hc.
  eexists. split; [reflexivity|]. cbn [m_capacity elements]. split; [lia|done].
Qed.
End Vector.
End Vector.

(** ** Bitmaps *)
Module Bitmap.
Definition bits_per_usize : Z := 64.
Definition bits_to (i : Z) : Z := align_up i bits_per_usize / bits_per_usize.
Definition new (size : Z) : list Z := replicate (Z.to_nat (bits_to size)) 0.

Definition get (index : Z) (data : list Z) : option bool :=
  w ← data !! Z.to_nat (index / bits_per_usize);
  Some (Z.testbit w (index mod bits_per_usize)).
Definition set (index : Z) (value : bool) (data : list Z) : option (list Z) :=
  let d := Z.to_nat (index / bits_per_usize) in
  let r := index mod bits_per_usize in
  w ← data !! d;
  Some (<[d := if value then Z.lor w (Z.shiftl 1 r) else Z.ldiff w (Z.shiftl 1 r)]> data).

Lemma get_set index value data data' j :
  0 <= index -> 0 <= j -> set index value data = Some data' ->
  get j data' = if j =? index then Some value else get j data.
Proof.
  intros Hi Hj. unfold get, set. destruct (data !! _) as [w|] eqn:Hw; [|done]. cbn [mbind option_bind]. intros [= <-].
  pose proof (lookup_lt_Some _ _ _ Hw). change bits_per_usize with 64 in *.
  pose proof (Z.mod_pos_bound index 64 ltac:(lia)). pose proof (Z.mod_pos_bound j 64 ltac:(lia)).
  pose proof (Z.div_mod index 64 ltac:(lia)) as E1. pose proof (Z.div_mod j 64 ltac:(lia)) as E2.
  assert (0 <= index / 64) by (apply Z.div_pos; lia). assert (0 <= j / 64) by (apply Z.div_pos; lia).
  assert (Hbit : forall b, Z.testbit (if value then Z.lor w (Z.shiftl 1 (index mod 64)) else Z.ldiff w (Z.shiftl 1 (index mod 64))) b
                 = if b =? index mod 64 then value else Z.testbit w b).
  { intros b. rewrite !Z.shiftl_1_l.
    destruct value; [rewrite Z.lor_spec|rewrite Z.ldiff_spec];
      (destruct (Z.eqb_spec b (index mod 64)) as [->|Hb]; [rewrite Z.pow2_bits_true by lia|
        rewrite Z.pow2_bits_false by lia]); by destruct (Z.testbit w _). }
  destruct (Z.eqb_spec (index / 64) (j / 64)) as [E|E].
  - rewrite <- E, list_lookup_insert_eq by done. cbn [mbind option_bind]. rewrite Hbit.
    destruct (Z.eqb_spec j index) as [->|]; [by rewrite Z.eqb_refl|].
    destruct (Z.eqb_spec (j mod 64) (index mod 64)); [lia|]. by rewrite Hw.
  - rewrite list_lookup_insert_ne by lia. destruct (Z.eqb_spec j index) as [->|]; done.
Qed.
End Bitmap.

(** ** Concrete lists and tables *)

(** A head at 16 and three nodes. *)
Definition demo_heap : gmap Z (Z * Z) := list_to_map [(16, (0, 0)); (32, (0, 0)); (48, (0, 0)); (64, (0, 0))].
Definition demo_list_ops : list KList.Op :=
  [KList.AddBefore 32; KList.AddBefore 48; KList.Add 64; KList.Remove 48; KList.AddBefore 48].

Lemma list_refines_witness :
  exists h h', KList.init 16 demo_heap = Some h /\ KList.run_ops 16 demo_list_ops h = Some h' /\
    KList.for_each 4 16 h' = Some [64; 32; 48].
Proof.
  destruct (KList.init 16 demo_heap) as [h|] eqn:Ei; [|by vm_compute in Ei].
  destruct (KList.list_refines 16 demo_list_ops demo_heap h [64; 32; 48]) as (h' & H1 & _ & _ & H2); [by eexists|done| |done|].
  - injection Ei as <-. repeat (split; [cbn [KList.op_ok KList.spec_op]; try (by eexists);
      repeat split; try (by eexists); try lia; try set_solver|]); done.
  - exists h, h'. split; [done|]. split; [exact H1|]. apply H2. simpl. lia.
Defined.

Lemma relink_cuts_tail_witness :
  exists h h', KList.add_before 16 32 h = Some h' /\
    KList.for_each 4 16 h = Some [32; 48] /\ KList.for_each 4 16 h' = Some [32].
Proof.
  destruct (KList.init_spec demo_heap 16) as (h0 & E0 & R0 & F0); [by eexists|].
  destruct (KList.run_ops_ring 16 [KList.AddBefore 32; KList.AddBefore 48] h0 [] R0) as (h & E & R).
  { cbn. rewrite !F0 by done. repeat split; try (by eexists); try lia; set_solver. }
  destruct (KList.relink_cuts_tail h 16 [] 32 [48] R ltac:(done)) as (h' & E' & Hf).
  exists h, h'. split; [done|]. split; [by apply (KList.for_each_spec h 16 [32; 48]); [|simpl; lia]|]. apply (Hf 4%nat). simpl. lia.
Defined.

