(* ===== verification/QSort.v ===== *)
(** The in-place quicksort of src/kernel/src/klib/algorithm.hpp over an array of
    integers.  A read outside the array is [None], and so is a loop that does
    not end within its fuel; the theorem shows neither happens. *)
From S2P Require Import Prelude.
From Stdlib Require Import Sorting.Sorted.

(** [while ( *low < pivot) ++low;] *)
Fixpoint scan_up (fuel : nat) (a : list Z) (low : nat) (pivot : Z) : option nat :=
  x ← a !! low;
  if x <? pivot then match fuel with O => None | S fuel => scan_up fuel a (S low) pivot end
  else Some low.

(** [do { --high; } while (pivot < *high);] *)
Fixpoint scan_down (fuel : nat) (a : list Z) (high : nat) (pivot : Z) : option nat :=
  match high with
  | O => None
  | S h =>
      y ← a !! h;
      if pivot <? y then match fuel with O => None | S fuel => scan_down fuel a h pivot end
      else Some h
  end.

Definition swap (i j : nat) (a : list Z) : option (list Z) :=
  x ← a !! i; y ← a !! j; Some (<[j := x]> (<[i := y]> a)).

Fixpoint partition_loop (fuel : nat) (a : list Z) (low high : nat) (pivot : Z) : option (nat * list Z) :=
  match fuel with
  | O => None
  | S fuel =>
      low1 ← scan_up (length a) a low pivot;
      high1 ← scan_down (length a) a high pivot;
      if (high1 <=? low1)%nat then Some (low1, a)
      else (a1 ← swap low1 high1 a; partition_loop fuel a1 (S low1) high1 pivot)
  end.

Definition qsort_partition (a : list Z) (low high : nat) : option (nat * list Z) :=
  pivot ← a !! (low + (high - low) / 2)%nat;
  partition_loop (S (length a)) a low high pivot.

Fixpoint qsort (fuel : nat) (a : list Z) (b e : nat) : option (list Z) :=
  if (e - b <? 2)%nat then Some a
  else match fuel with
       | O => None
       | S fuel =>
           '(p, a1) ← qsort_partition a b e;
           a2 ← qsort fuel a1 b p;
           qsort fuel a2 p e
       end.

(** ** The loops *)

(** Every element of [a] from [i] up to [j] satisfies [P]. *)
Definition between (a : list Z) (i j : nat) (P : Z -> Prop) : Prop :=
  forall k x, (i <= k < j)%nat -> a !! k = Some x -> P x.

Lemma scan_up_spec a pivot : forall fuel low k y,
  a !! k = Some y -> pivot <= y -> (low <= k)%nat -> (k - low <= fuel)%nat ->
  exists l x, scan_up fuel a low pivot = Some l /\ (low <= l <= k)%nat /\ a !! l = Some x /\ pivot <= x /\
    between a low l (fun z => z < pivot).
Proof.
  induction fuel as [|fuel IH]; intros low k y Hk Hy Hlow Hf; pose proof (lookup_lt_Some _ _ _ Hk) as Hlt;
    (destruct (lookup_lt_is_Some_2 a low) as [x Hx]; [lia|]); cbn [scan_up]; rewrite Hx; cbn [mbind option_bind];
    destruct (Z.ltb_spec x pivot) as [Hlt'|Hge].
  - assert (k = low) as -> by lia. rewrite Hk in Hx. injection Hx as ->. lia.
  - exists low, x. split; [done|]. split; [lia|]. split; [done|]. split; [lia|]. intros i z Hi. lia.
  - assert (low <> k) by (intros ->; rewrite Hk in Hx; injection Hx as ->; lia).
    destruct (IH (S low) k y Hk Hy) as (l & x' & Hl & Hb & Hl' & Hp & Hbt); [lia|lia|].
    exists l, x'. split; [done|]. split; [lia|]. split; [done|]. split; [done|].
    intros i z Hi Hz. destruct (decide (i = low)) as [->|]; [congruence|]. apply (Hbt i); [lia|done].
  - exists low, x. split; [done|]. split; [lia|]. split; [done|]. split; [lia|]. intros i z Hi. lia.
Qed.

Lemma scan_down_spec a pivot : forall fuel high k y,
  a !! k = Some y -> y <= pivot -> (k < high <= length a)%nat -> (high - 1 - k <= fuel)%nat ->
  exists h x, scan_down fuel a high pivot = Some h /\ (k <= h < high)%nat /\ a !! h = Some x /\ x <= pivot /\
    between a (S h) high (fun z => pivot < z).
Proof.
  induction fuel as [|fuel IH]; intros high k y Hk Hy Hhi Hf; (destruct high as [|h]; [lia|]);
    (destruct (lookup_lt_is_Some_2 a h) as [x Hx]; [lia|]); cbn [scan_down]; rewrite Hx; cbn [mbind option_bind];
    destruct (Z.ltb_spec pivot x) as [Hlt'|Hge].
  - assert (k = h) as -> by lia. rewrite Hk in Hx. injection Hx as ->. lia.
  - exists h, x. split; [done|]. split; [lia|]. split; [done|]. split; [lia|]. intros i z Hi. lia.
  - assert (h <> k) by (intros ->; rewrite Hk in Hx; injection Hx as ->; lia).
    destruct (IH h k y Hk Hy) as (h' & x' & Hl & Hb & Hl' & Hp & Hbt); [lia|lia|].
    exists h', x'. split; [done|]. split; [lia|]. split; [done|]. split; [done|].
    intros i z Hi Hz. destruct (decide (i = h)) as [->|]; [congruence|]. apply (Hbt i); [lia|done].
  - exists h, x. split; [done|]. split; [lia|]. split; [done|]. split; [lia|]. intros i z Hi. lia.
Qed.

(** Swapping two cells permutes the array and touches no other. *)
Lemma swap_spec i j a x y : a !! i = Some x -> a !! j = Some y -> i <> j ->
  exists a', swap i j a = Some a' /\ a' ≡ₚ a /\ length a' = length a /\ a' !! i = Some y /\ a' !! j = Some x /\
    (forall k, k <> i -> k <> j -> a' !! k = a !! k).
Proof.
  intros Hi Hj Hne. unfold swap. rewrite Hi, Hj. cbn [mbind option_bind]. eexists. split; [reflexivity|].
  pose proof (lookup_lt_Some _ _ _ Hi). pose proof (lookup_lt_Some _ _ _ Hj).
  assert (L1 : <[j:=x]> (<[i:=y]> a) !! i = Some y) by (rewrite list_lookup_insert_ne, list_lookup_insert_eq by done; done).
  assert (L2 : <[j:=x]> (<[i:=y]> a) !! j = Some x) by (rewrite list_lookup_insert_eq; [done|by rewrite length_insert]).
  assert (L3 : forall k, k <> i -> k <> j -> <[j:=x]> (<[i:=y]> a) !! k = a !! k) by (intros; by rewrite !list_lookup_insert_ne).
  split; [|by rewrite !length_insert].
  apply Permutation_inj. split; [by rewrite !length_insert|].
  exists (fun k => if decide (k = i) then j else if decide (k = j) then i else k). split.
  - intros k1 k2. repeat case_decide; congruence.
  - intros k. repeat case_decide; subst; [by rewrite L1|by rewrite L2|by apply L3].
Qed.

(** ** The partition *)
Section Partition.
Context (b e : nat) (pivot : Z).

(** What holds at the top of the loop: the two ends are sorted out, and there
    are elements that stop each scan inside the array. *)
Record loop_inv (a : list Z) (low high : nat) : Prop := {
  li_range : (b <= low <= high)%nat /\ (high <= e <= length a)%nat;
  li_low : between a b low (fun z => z <= pivot);
  li_high : between a high e (fun z => pivot <= z);
  li_up : exists k y, (low <= k < e)%nat /\ (k <= high)%nat /\ a !! k = Some y /\ pivot <= y;
  li_down : exists k y, (b <= k < high)%nat /\ a !! k = Some y /\ y <= pivot;
  li_first : low = b /\ high = e /\ (exists m, (b < m < e)%nat /\ a !! m = Some pivot) \/ (b < low)%nat /\ (high < e)%nat
}.

Lemma partition_loop_spec : forall fuel a low high, loop_inv a low high -> (high - low < fuel)%nat ->
  exists p a', partition_loop fuel a low high pivot = Some (p, a') /\ (b < p < e)%nat /\ a' ≡ₚ a /\ length a' = length a /\
    (forall k, ~ (b <= k < e)%nat -> a' !! k = a !! k) /\
    between a' b p (fun z => z <= pivot) /\ between a' p e (fun z => pivot <= z).
Proof.
  induction fuel as [|fuel IH]; intros a low high Hinv Hf; [lia|]. cbn [partition_loop].
  destruct Hinv as [[Hr1 Hr2] Hlow Hhigh (ku & yu & Hku & Hkuh & Hyu & Hpu) (kd & yd & Hkd & Hyd & Hpd) Hfirst].
  destruct (scan_up_spec a pivot (length a) low ku yu Hyu Hpu) as (l & xl & -> & Hl & Hxl & Hpl & Hbl); [lia|lia|].
  destruct (scan_down_spec a pivot (length a) high kd yd Hyd Hpd) as (h & xh & -> & Hh & Hxh & Hph & Hbh); [lia|lia|].
  cbn [mbind option_bind].
  assert (HL : between a b l (fun z => z <= pivot)).
  { intros i z Hi Hz. destruct (decide (i < low)%nat); [apply (Hlow i); [lia|done]|]. apply Z.lt_le_incl, (Hbl i); [lia|done]. }
  assert (HH : between a (S h) e (fun z => pivot <= z)).
  { intros i z Hi Hz. destruct (decide (high <= i)%nat); [apply (Hhigh i); [lia|done]|]. apply Z.lt_le_incl, (Hbh i); [lia|done]. }
  destruct (Nat.leb_spec h l) as [Hhl|Hlh].
  - exists l, a. split; [done|]. split; [|split; [done|]; split; [done|]; split; [done|]; split; [done|]].
    + destruct Hfirst as [(-> & -> & m & Hm & Hmp)|[H1 H2]]; [|lia].
      assert (l <= m)%nat. { destruct (decide (l <= m)%nat); [done|]. pose proof (Hbl m pivot ltac:(lia) Hmp) as Hc. cbn in Hc. lia. }
      assert (m <= h)%nat. { destruct (decide (m <= h)%nat); [done|]. pose proof (Hbh m pivot ltac:(lia) Hmp) as Hc. cbn in Hc. lia. }
      lia.
    + intros i z Hi Hz. destruct (decide (i = l)) as [->|]; [congruence|]. apply (HH i); [lia|done].
  - destruct (swap_spec l h a xl xh Hxl Hxh ltac:(lia)) as (a1 & -> & Hperm & Hlen & H1 & H2 & H3). cbn [mbind option_bind].
    destruct (IH a1 (S l) h) as (p & a' & Hp & Hpr & Hpe & Hle & Hout & Hb1 & Hb2).
    { constructor.
      - rewrite Hlen. lia.
      - intros i z Hi Hz. destruct (decide (i = l)) as [->|]; [rewrite H1 in Hz; injection Hz as <-; lia|].
        rewrite H3 in Hz by lia. apply (HL i); [lia|done].
      - intros i z Hi Hz. destruct (decide (i = h)) as [->|]; [rewrite H2 in Hz; injection Hz as <-; lia|].
        rewrite H3 in Hz by lia. apply (HH i); [lia|done].
      - exists h, xl. split; [lia|]. done.
      - exists l, xh. split; [lia|]. done.
      - right. lia. }
    { lia. }
    exists p, a'. split; [done|]. split; [done|]. split; [by rewrite Hpe|]. split; [lia|].
    split; [|done]. intros k Hk. rewrite Hout by done. apply H3; lia.
Qed.
End Partition.

Lemma qsort_partition_spec a b e : (b + 2 <= e <= length a)%nat ->
  exists p a' pivot, qsort_partition a b e = Some (p, a') /\ (b < p < e)%nat /\ a' ≡ₚ a /\ length a' = length a /\
    (forall k, ~ (b <= k < e)%nat -> a' !! k = a !! k) /\
    between a' b p (fun z => z <= pivot) /\ between a' p e (fun z => pivot <= z).
Proof.
  intros He. unfold qsort_partition. set (m := (b + (e - b) / 2)%nat).
  assert (Hm : (b < m < e)%nat).
  { unfold m. pose proof (Nat.div_mod (e - b) 2). pose proof (Nat.mod_upper_bound (e - b) 2). lia. }
  destruct (lookup_lt_is_Some_2 a m) as [pivot Hp]; [lia|]. rewrite Hp. cbn [mbind option_bind].
  destruct (partition_loop_spec b e pivot (S (length a)) a b e) as (p & a' & H); [|lia|by exists p, a', pivot].
  constructor; [lia|intros ? ? ?; lia|intros ? ? ?; lia|by exists m, pivot; repeat split; try lia|by exists m, pivot; repeat split; try lia|].
  left. split; [done|]. split; [done|]. by exists m.
Qed.

(** ** The sort *)

(** The cells from [b] up to [e]. *)
Definition segment (a : list Z) (b e : nat) : list Z := take (e - b) (drop b a).

Lemma segment_split a b e : (b <= e)%nat -> a = take b a ++ segment a b e ++ drop e a.
Proof.
  intros H. unfold segment. replace (drop e a) with (drop (e - b) (drop b a)) by (rewrite drop_drop; f_equal; lia).
  by rewrite take_drop, take_drop.
Qed.

Lemma segment_lookup a b e k x : (b <= k < e)%nat -> a !! k = Some x -> segment a b e !! (k - b)%nat = Some x.
Proof.
  intros Hk Hx. unfold segment. rewrite lookup_take_lt by lia. rewrite lookup_drop. by replace (b + (k - b))%nat with k by lia.
Qed.

Lemma segment_elem a b e x : x ∈ segment a b e -> exists k, (b <= k < e)%nat /\ a !! k = Some x.
Proof.
  intros [i Hi]%list_elem_of_lookup. unfold segment in Hi. apply lookup_take_Some in Hi as [Hi Hlt]. rewrite lookup_drop in Hi.
  exists (b + i)%nat. split; [lia|done].
Qed.

(** A permutation that moves nothing outside the segment permutes it. *)
Lemma segment_perm a a' b e : (b <= e)%nat -> a' ≡ₚ a -> length a' = length a ->
  (forall k, ~ (b <= k < e)%nat -> a' !! k = a !! k) -> segment a' b e ≡ₚ segment a b e.
Proof.
  intros He Hp Hl Hout.
  assert (H1 : take b a' = take b a).
  { apply list_eq. intros i. destruct (decide (i < b)%nat).
    - rewrite !lookup_take_lt by done. apply Hout. lia.
    - by rewrite !lookup_take_ge by lia. }
  assert (H2 : drop e a' = drop e a) by (apply list_eq; intros i; rewrite !lookup_drop; apply Hout; lia).
  rewrite (segment_split a' b e He), (segment_split a b e He), H1, H2 in Hp.
  apply Permutation_app_inv_l in Hp. by apply Permutation_app_inv_r in Hp.
Qed.

Lemma between_perm a a' b e P : (b <= e)%nat -> a' ≡ₚ a -> length a' = length a ->
  (forall k, ~ (b <= k < e)%nat -> a' !! k = a !! k) -> between a b e P -> between a' b e P.
Proof.
  intros He Hp Hl Hout Hb k x Hk Hx. pose proof (segment_perm a a' b e He Hp Hl Hout) as Hs.
  assert (x ∈ segment a' b e) as Hin by (apply list_elem_of_lookup; eexists; by eapply segment_lookup).
  rewrite Hs in Hin. apply segment_elem in Hin as (k' & Hk' & Hx'). by eapply Hb.
Qed.

Definition ordered (a : list Z) (b e : nat) : Prop :=
  forall i j x y, (b <= i < j)%nat -> (j < e)%nat -> a !! i = Some x -> a !! j = Some y -> x <= y.

Lemma ordered_same a a' b e : (forall k, (b <= k < e)%nat -> a' !! k = a !! k) -> ordered a b e -> ordered a' b e.
Proof. intros H Ho i j x y Hij Hj Hx Hy. rewrite H in Hx, Hy by lia. by apply (Ho i j). Qed.

Lemma ordered_join a b p e pivot : (b <= p <= e)%nat -> ordered a b p -> ordered a p e ->
  between a b p (fun z => z <= pivot) -> between a p e (fun z => pivot <= z) -> ordered a b e.
Proof.
  intros Hp H1 H2 Hb1 Hb2 i j x y Hij Hj Hx Hy.
  destruct (decide (j < p)%nat); [by apply (H1 i j); try lia|].
  destruct (decide (p <= i)%nat); [apply (H2 i j); try lia; done|].
  pose proof (Hb1 i x ltac:(lia) Hx) as E1. pose proof (Hb2 j y ltac:(lia) Hy) as E2. cbn in E1, E2. lia.
Qed.

Lemma qsort_spec : forall fuel a b e, (b <= e <= length a)%nat -> (e - b <= fuel)%nat ->
  exists a', qsort fuel a b e = Some a' /\ a' ≡ₚ a /\ length a' = length a /\
    (forall k, ~ (b <= k < e)%nat -> a' !! k = a !! k) /\ ordered a' b e.
Proof.
  induction fuel as [|fuel IH]; intros a b e He Hf; cbn [qsort]; destruct (Nat.ltb_spec (e - b) 2) as [Hlt|Hge].
  1,3: exists a; repeat split; try done; intros i j x y; lia.
  - lia.
  - destruct (qsort_partition_spec a b e) as (p & a1 & pivot & -> & Hp & Hp1 & Hl1 & Ho1 & Hb1 & Hb2); [lia|].
    cbn [mbind option_bind].
    destruct (IH a1 b p) as (a2 & -> & Hp2 & Hl2 & Ho2 & Hs2); [lia|lia|]. cbn [mbind option_bind].
    destruct (IH a2 p e) as (a3 & -> & Hp3 & Hl3 & Ho3 & Hs3); [lia|lia|]. exists a3. split; [done|].
    split; [by rewrite Hp3, Hp2|]. split; [lia|]. split; [intros k Hk; rewrite Ho3, Ho2 by lia; by apply Ho1|].
    apply (ordered_join a3 b p e pivot); [lia| |done| |].
    + apply (ordered_same a2); [intros k Hk; apply Ho3; lia|done].
    + intros k x Hk Hx. rewrite Ho3 in Hx by lia. revert k x Hk Hx. change (between a2 b p (fun z => z <= pivot)).
      apply (between_perm a1); [lia|done|done|done|done].
    + apply (between_perm a2); [lia|done|done|done|]. intros k x Hk Hx. rewrite Ho2 in Hx by lia. by apply (Hb2 k).
Qed.

Lemma ordered_sorted a : ordered a 0 (length a) -> Sorted Z.le a.
Proof.
  induction a as [|x a IH]; intros Ho; [constructor|]. constructor.
  - apply IH. intros i j y z Hij Hj Hy Hz. apply (Ho (S i) (S j)); simpl; try lia; done.
  - destruct a as [|y a]; constructor. apply (Ho 0%nat 1%nat); simpl; try lia; done.
Qed.

(** The whole array, with fuel for its length. *)
Definition qsort_array (a : list Z) : option (list Z) := qsort (length a) a 0 (length a).

(** C20: Sorting an array returns, stays inside it, and leaves a sorted
    permutation of it. *)
Theorem qsort_sorts a : exists a', qsort_array a = Some a' /\ a' ≡ₚ a /\ Sorted Z.le a'.
Proof.
  destruct (qsort_spec (length a) a 0 (length a)) as (a' & H & Hp & Hl & _ & Ho); [lia|lia|].
  exists a'. split; [exact H|]. split; [done|]. apply ordered_sorted. by rewrite Hl.
Qed.
