(* ===== verification/Format.v ===== *)
(** Text: the C string functions of src/kernel/src/klib/cstring.cpp and the
    formatted output of src/kernel/src/klib/cstdio.hpp and cstdio.cpp.

    A pointer to characters is the list of bytes from it on; reading past the
    end of the list is [None].  A string ends at its first 0. *)
From S2P Require Import Prelude.

(** ** C strings *)

(** The loops run along the list they read, so they end with it. *)
Fixpoint strlen (str : list Z) : option Z :=
  match str with
  | [] => None
  | c :: str' => if c =? 0 then Some 0 else (n ← strlen str'; Some (n + 1))
  end.

Fixpoint strnlen (str : list Z) (maxlen : nat) : option Z :=
  match maxlen with
  | O => Some 0
  | S m =>
      match str with
      | [] => None
      | c :: str' => if c =? 0 then Some 0 else (n ← strnlen str' m; Some (n + 1))
      end
  end.

(** What [strncpy] leaves in the first [n] bytes. *)
Fixpoint strncpy (src : list Z) (n : nat) : option (list Z) :=
  match n with
  | O => Some []
  | S m =>
      match src with
      | [] => None
      | c :: src' => if c =? 0 then Some (replicate n 0) else (d ← strncpy src' m; Some (c :: d))
      end
  end.

Definition uchar (c : Z) : Z := u8 c.

Fixpoint strcmp (lhs rhs : list Z) : option Z :=
  match lhs, rhs with
  | a :: lhs', b :: rhs' =>
      if negb (a =? 0) && (a =? b) then strcmp lhs' rhs' else Some (uchar a - uchar b)
  | _, _ => None
  end.

Fixpoint strncmp (lhs rhs : list Z) (count : nat) : option Z :=
  match count with
  | O => Some 0
  | S m =>
      match lhs, rhs with
      | a :: lhs', b :: rhs' =>
          if negb (a =? 0) && (a =? b) then strncmp lhs' rhs' m else Some (uchar a - uchar b)
      | _, _ => None
      end
  end.

(** [strcpy] and [strcat]: what the destination then holds from its start. *)
Definition strcpy (dst src : list Z) : option (list Z) :=
  n ← strlen src;
  if (Z.of_nat (length dst) <? n + 1) then None
  else Some (take (Z.to_nat n + 1) src ++ drop (Z.to_nat n + 1) dst).
Definition strcat (dst src : list Z) : option (list Z) :=
  n ← strlen dst;
  d ← strcpy (drop (Z.to_nat n) dst) src;
  Some (take (Z.to_nat n) dst ++ d).

(** [memcmp] for equality, over [n] bytes of each. *)
Definition memcmp_eq (l r : list Z) (n : nat) : option bool :=
  if (length l <? n)%nat || (length r <? n)%nat then None else Some (bool_decide (take n l = take n r)).

(** [strstr]: the offset of the first match, or null. *)
Fixpoint strstr_from (str substr : list Z) (n : nat) (i : Z) : option (option Z) :=
  match str with
  | [] => None
  | c :: str' =>
      if c =? 0 then Some None
      else (eq ← memcmp_eq str substr n; if eq : bool then Some (Some i) else strstr_from str' substr n (i + 1))
  end.
Definition strstr (str substr : list Z) : option (option Z) :=
  n ← strlen substr; strstr_from str substr (Z.to_nat n) 0.

(** A string without its terminator. *)
Definition chars (s : list Z) : Prop := Forall (fun c => 0 < c < 256) s.

Lemma strlen_chars s r : chars s -> strlen (s ++ 0 :: r) = Some (Z.of_nat (length s)).
Proof.
  induction 1 as [|c s Hc Hs IH]; [done|]. cbn [strlen app]. destruct (Z.eqb_spec c 0); [lia|]. rewrite IH. simpl. f_equal. lia.
Qed.

Lemma strcmp_zero s t r1 r2 : chars s -> chars t -> strcmp (s ++ 0 :: r1) (t ++ 0 :: r2) = Some 0 <-> s = t.
Proof.
  intros Hs. revert t. induction Hs as [|a s Ha Hs IH]; intros t Ht; destruct Ht as [|b t Hb Ht]; cbn [app strcmp].
  - done.
  - unfold uchar. rewrite !uN_small by (change (2 ^ 8) with 256; lia). split; [intros [=]; lia|done].
  - destruct (Z.eqb_spec a 0); [lia|]. destruct (Z.eqb_spec a 0) as [|_]; [lia|].
    unfold uchar. rewrite !uN_small by (change (2 ^ 8) with 256; lia).
    destruct (Z.eqb_spec a 0); [lia|]. cbn [negb andb]. split; [intros [=]; lia|done].
  - destruct (Z.eqb_spec a 0); [lia|]. cbn [negb andb]. destruct (Z.eqb_spec a b) as [->|Hab].
    + rewrite IH by done. split; [by intros ->|by intros [= ->]].
    + unfold uchar. rewrite !uN_small by (change (2 ^ 8) with 256; lia). split; [intros [=]; lia|congruence].
Qed.

Lemma strncpy_fits s r n : chars s -> (length s < n)%nat -> strncpy (s ++ 0 :: r) n = Some (s ++ replicate (n - length s) 0).
Proof.
  intros Hs. revert n. induction Hs as [|c s Hc Hs IH]; intros n Hn; destruct n as [|n]; simpl in Hn; try lia; cbn [strncpy app].
  - done.
  - destruct (Z.eqb_spec c 0); [lia|]. rewrite IH by lia. done.
Qed.

(** ** Numbers *)

(** [num_digits]: one less than the number of digits; a turn of the loop takes
    a unit of fuel and 64 are enough for a 64-bit word. *)
Fixpoint num_digits_loop (fuel : nat) (x base i : Z) : option Z :=
  match fuel with
  | O => None
  | S fuel => let x := x / base in if x =? 0 then Some i else num_digits_loop fuel x base (i + 1)
  end.
Definition num_digits (x base : Z) : option Z := num_digits_loop 64 x base 0.

Definition low_digits : list Z := [48;49;50;51;52;53;54;55;56;57;97;98;99;100;101;102].
Definition high_digits : list Z := [48;49;50;51;52;53;54;55;56;57;65;66;67;68;69;70].

(** [for (int dii = 0; dii < di; dii++) v /= base;] *)
Fixpoint divide_times (di : nat) (v base : Z) : Z :=
  match di with O => v | S di => divide_times di (v / base) base end.

(** The digits from place [di] down to the last. *)
Fixpoint put_digits (di : nat) (used : list Z) (value base : Z) : option (list Z) :=
  d ← used !! Z.to_nat (divide_times di value base mod base);
  match di with
  | O => Some [d]
  | S di' => r ← put_digits di' used value base; Some (d :: r)
  end.

(** ** Formatted output *)

(** What a call passes: an integer or a pointer to characters. *)
Inductive Arg : Type := AInt (v : Z) | AStr (s : list Z).

(** The flags gathered after a percent sign. *)
Record Spec : Type := mkSpec {
  alt_form : bool; long_int : bool; padding : Z; is_zero_padding : bool; s_length : option Z
}.
Definition no_spec : Spec := mkSpec false false 0 false None.

Definition chr_percent : Z := 37.
Definition chr_hash : Z := 35.
Definition chr_zero : Z := 48.
Definition chr_nine : Z := 57.
Definition chr_l : Z := 108.
Definition chr_dot : Z := 46.
Definition chr_star : Z := 42.
Definition chr_minus : Z := 45.
Definition chr_space : Z := 32.
Definition chr_u : Z := 117.
Definition chr_d : Z := 100.
Definition chr_o : Z := 111.
Definition chr_x : Z := 120.
Definition chr_X : Z := 88.
Definition chr_c : Z := 99.
Definition chr_s : Z := 115.

(** The output with what it adds to [written]: the minus sign is not counted. *)
Definition put_number (sp : Spec) (c v : Z) : option (list Z * Z) :=
  let base := if (c =? chr_x) || (c =? chr_X) then 16 else if c =? chr_o then 8 else 10 in
  let prefix := if alt_form sp then (if base =? 16 then [chr_zero; chr_x] else if base =? 8 then [chr_zero] else []) else [] in
  let used := if c =? chr_X then high_digits else low_digits in
  let raw := if long_int sp then u64 v else u32 v in
  let signed := if long_int sp then i64 raw else i32 raw in
  let minus := (c =? chr_d) && (signed <? 0) in
  let value := if minus then u64 (- signed) else raw in
  digits ← num_digits value base;
  let pad := if negb (padding sp =? 0) && (digits <? padding sp) then padding sp - digits - 1 else 0 in
  ds ← put_digits (Z.to_nat digits) used value base;
  Some (prefix ++ (if minus then [chr_minus] else []) ++
          replicate (Z.to_nat pad) (if is_zero_padding sp then chr_zero else chr_space) ++ ds,
        Z.of_nat (length prefix) + pad + (digits + 1)).

Fixpoint put_string (s : list Z) : option (list Z) :=
  match s with
  | [] => None
  | c :: s' => if c =? 0 then Some [] else (r ← put_string s'; Some (c :: r))
  end.

(** [format[i]]; the list holds the terminating 0. *)
Definition at_ (format : list Z) (i : nat) : option Z := format !! i.

Definition is_digit (c : Z) : bool := (chr_zero <=? c) && (c <=? chr_nine).

Fixpoint scan_width (fuel : nat) (format : list Z) (i : nat) (w : Z) : option (Z * nat) :=
  match fuel with
  | O => None
  | S fuel =>
      c ← at_ format i;
      if is_digit c then scan_width fuel format (S i) (w * 10 + (c - chr_zero)) else Some (w, i)
  end.

Definition next_int (args : list Arg) : option (Z * list Arg) :=
  match args with AInt v :: r => Some (v, r) | _ => None end.

(** The inner loop, from after the percent sign to the label [end]: the output,
    what it adds to [written], the index of the conversion and the arguments
    left.  A turn takes a unit of fuel. *)
Fixpoint conversion (fuel : nat) (format : list Z) (i : nat) (sp : Spec) (args : list Arg)
    : option (list Z * Z * nat * list Arg) :=
  match fuel with
  | O => None
  | S fuel =>
      c ← at_ format i;
      if c =? chr_hash then conversion fuel format (S i) (mkSpec true (long_int sp) (padding sp) (is_zero_padding sp) (s_length sp)) args
      else if c =? chr_zero then conversion fuel format (S i) (mkSpec (alt_form sp) (long_int sp) (padding sp) true (s_length sp)) args
      else if c =? chr_l then conversion fuel format (S i) (mkSpec (alt_form sp) true (padding sp) (is_zero_padding sp) (s_length sp)) args
      else if c =? chr_dot then
        c1 ← at_ format (S i);
        if c1 =? chr_star then
          '(v, args1) ← next_int args;
          conversion fuel format (S (S i)) (mkSpec (alt_form sp) (long_int sp) (padding sp) (is_zero_padding sp) (Some v)) args1
        else conversion fuel format (S i) sp args
      else if c =? chr_star then
        '(v, args1) ← next_int args;
        conversion fuel format (S i) (mkSpec (alt_form sp) (long_int sp) v (is_zero_padding sp) (s_length sp)) args1
      else if (c =? chr_u) || (c =? chr_d) || (c =? chr_o) || (c =? chr_x) || (c =? chr_X) then
        '(v, args1) ← next_int args;
        '(out, w) ← put_number sp c v;
        Some (out, w, i, args1)
      else if c =? chr_c then
        '(v, args1) ← next_int args; Some ([u8 v], 1, i, args1)
      else if c =? chr_s then
        match args with
        | AStr s :: args1 =>
            out ← (match s_length sp with
                   | Some n => if Z.of_nat (length s) <? n then None else Some (take (Z.to_nat n) s)
                   | None => put_string s
                   end);
            Some (out, Z.of_nat (length out), i, args1)
        | _ => None
        end
      else if (chr_zero <? c) && (c <=? chr_nine) then
        '(w, j) ← scan_width (length format) format (S i) (c - chr_zero);
        conversion fuel format j (mkSpec (alt_form sp) (long_int sp) w (is_zero_padding sp) (s_length sp)) args
      else conversion fuel format i sp args
  end.

(** [vprintf_template]: everything put, and the count returned. *)
Fixpoint vprintf_loop (fuel : nat) (format : list Z) (i : nat) (args : list Arg) (out : list Z) (written : Z)
    : option (list Z * Z) :=
  match fuel with
  | O => None
  | S fuel =>
      c ← at_ format i;
      if c =? 0 then Some (out, written)
      else if c =? chr_percent then
        '(o, w, j, args1) ← conversion fuel format (S i) no_spec args;
        vprintf_loop fuel format (S j) args1 (out ++ o) (written + w)
      else vprintf_loop fuel format (S i) args (out ++ [c]) (written + 1)
  end.
Definition vprintf (fuel : nat) (format : list Z) (args : list Arg) : option (list Z * Z) :=
  vprintf_loop fuel format 0 args [] 0.

(** [snprintf]: the bytes written to the buffer, from its start, and the
    result; [size - 1] wraps at 0. *)
Definition snprintf (fuel : nat) (size : Z) (format : list Z) (args : list Arg) : option (list Z * Z) :=
  '(out, written) ← vprintf fuel format args;
  Some (take (Z.to_nat (u64 (size - 1))) out ++ [0], written).

(** ** Digits *)

Lemma divide_times_pow di : forall v base, 0 < base -> divide_times di v base = v / base ^ Z.of_nat di.
Proof.
  induction di as [|di IH]; intros v base Hb; cbn [divide_times]; [by rewrite Z.pow_0_r, Z.div_1_r|].
  rewrite IH by done. rewrite Nat2Z.inj_succ, Z.pow_succ_r by lia. rewrite Z.div_div; [done|lia|].
  apply Z.pow_pos_nonneg; lia.
Qed.

Lemma num_digits_loop_spec fuel : forall x base i, 2 <= base -> 0 <= x < 2 ^ Z.of_nat fuel -> (0 < fuel)%nat -> 0 <= i ->
  exists n, num_digits_loop fuel x base i = Some (i + n) /\ 0 <= n /\ x < base ^ (n + 1) /\ (n = 0 \/ base ^ n <= x).
Proof.
  induction fuel as [|fuel IH]; intros x base i Hb Hx Hf Hi; [lia|]. cbn [num_digits_loop].
  pose proof (Z.div_mod x base ltac:(lia)) as Hd. pose proof (Z.mod_pos_bound x base ltac:(lia)) as Hm.
  assert (Hq : 0 <= x / base) by (apply Z.div_pos; lia).
  destruct (Z.eqb_spec (x / base) 0) as [E|E].
  - exists 0. split; [f_equal; lia|]. split; [lia|]. rewrite Z.pow_1_r. split; [lia|by left].
  - rewrite Nat2Z.inj_succ, Z.pow_succ_r in Hx by lia.
    assert (Hf' : (0 < fuel)%nat) by (destruct fuel; [simpl in Hx; nia|lia]).
    destruct (IH (x / base) base (i + 1) Hb) as (n & -> & Hn & Hlt & Hge); [nia|done|lia|].
    exists (n + 1). split; [f_equal; lia|]. split; [lia|]. split.
    + replace (n + 1 + 1) with (Z.succ (n + 1)) by lia. rewrite Z.pow_succ_r by lia. nia.
    + right. destruct Hge as [->|Hge]; [rewrite Z.pow_1_r; nia|].
      replace (n + 1) with (Z.succ n) by lia. rewrite Z.pow_succ_r by lia. nia.
Qed.

Lemma num_digits_spec x base : 2 <= base -> 0 <= x < 2 ^ 64 ->
  exists n, num_digits x base = Some n /\ 0 <= n < 64 /\ x < base ^ (n + 1) /\ (n = 0 \/ base ^ n <= x).
Proof.
  intros Hb Hx. destruct (num_digits_loop_spec 64 x base 0 Hb Hx) as (n & H & Hn & Hlt & Hge); [lia|lia|].
  exists n. split; [exact H|]. split; [split; [done|]|done]. destruct Hge as [->|Hge]; [lia|].
  apply Z.nle_gt. intros Hc. assert (2 ^ 64 <= base ^ n); [|lia].
  transitivity (2 ^ n); [by apply Z.pow_le_mono_r|]. by apply Z.pow_le_mono_l.
Qed.

(** Reading the digits back. *)
Definition digit_of (c : Z) : Z := if c <=? 57 then c - 48 else if c <=? 70 then c - 55 else c - 87.
Definition parse (base : Z) (l : list Z) : Z := fold_left (fun acc c => acc * base + digit_of c) l 0.

Lemma parse_app base l1 l2 acc : fold_left (fun acc c => acc * base + digit_of c) (l1 ++ l2) acc =
  fold_left (fun acc c => acc * base + digit_of c) l2 (fold_left (fun acc c => acc * base + digit_of c) l1 acc).
Proof. apply fold_left_app. Qed.

(** Both tables give a digit below 16 its character. *)
Definition digit_table (used : list Z) : Prop := used = low_digits \/ used = high_digits.
Lemma digit_table_lookup used d : digit_table used -> 0 <= d < 16 ->
  exists c, used !! Z.to_nat d = Some c /\ digit_of c = d.
Proof.
  intros Ht Hd. assert (Hall : forallb (fun k => match used !! k with Some c => digit_of c =? Z.of_nat k | None => false end) (seq 0 16) = true)
    by (by destruct Ht as [-> | ->]).
  rewrite forallb_forall in Hall. specialize (Hall (Z.to_nat d)). rewrite in_seq in Hall. specialize (Hall ltac:(lia)).
  destruct (used !! Z.to_nat d) as [c|]; [|done]. exists c. split; [done|]. apply Z.eqb_eq in Hall. lia.
Qed.

Lemma put_digits_spec used base value : digit_table used -> 2 <= base <= 16 -> 0 <= value ->
  forall di, exists ds, put_digits di used value base = Some ds /\ length ds = S di /\
    (forall acc, fold_left (fun acc c => acc * base + digit_of c) ds acc = acc * base ^ Z.of_nat (S di) + value mod base ^ Z.of_nat (S di)) /\
    exists c, head ds = Some c /\ digit_of c = value / base ^ Z.of_nat di mod base.
Proof.
  intros Ht Hb Hv. induction di as [|di IH]; cbn [put_digits].
  - cbn [divide_times]. pose proof (Z.mod_pos_bound value base ltac:(lia)).
    destruct (digit_table_lookup used (value mod base) Ht ltac:(lia)) as (c & -> & Hc). exists [c]. split; [done|].
    split; [done|]. split; [intros acc; cbn; rewrite Hc, Z.pow_1_r; done|]. exists c. split; [done|]. by rewrite Z.pow_0_r, Z.div_1_r.
  - rewrite divide_times_pow by lia. pose proof (Z.mod_pos_bound (value / base ^ Z.of_nat (S di)) base ltac:(lia)).
    destruct (digit_table_lookup used (value / base ^ Z.of_nat (S di) mod base) Ht ltac:(lia)) as (c & -> & Hc).
    destruct IH as (ds & -> & Hl & Hp & _). cbn [mbind option_bind]. exists (c :: ds). split; [done|].
    split; [simpl; by rewrite Hl|]. split; [|by exists c]. intros acc. cbn [fold_left]. rewrite Hp, Hc.
    rewrite (Nat2Z.inj_succ (S di)), (Z.pow_succ_r base) by lia. set (P := base ^ Z.of_nat (S di)).
    assert (0 < P) by (apply Z.pow_pos_nonneg; lia).
    rewrite (Z.mul_comm base P), Z.rem_mul_r by lia. nia.
Qed.

(** ** Theorems *)

(** The number a conversion prints, its base and what surrounds the digits. *)
Definition base_of (c : Z) : Z := if (c =? chr_x) || (c =? chr_X) then 16 else if c =? chr_o then 8 else 10.
Definition number (sp : Spec) (c v : Z) : Z :=
  if c =? chr_d then (if long_int sp then i64 v else i32 v) else (if long_int sp then u64 v else u32 v).
Definition prefix_of (sp : Spec) (c : Z) : list Z :=
  if alt_form sp then (if base_of c =? 16 then [chr_zero; chr_x] else if base_of c =? 8 then [chr_zero] else []) else [].
Definition fill_of (sp : Spec) : Z := if is_zero_padding sp then chr_zero else chr_space.

Lemma sN_cases w x : 0 < w -> sN w (uN w x) = sN w x /\ (sN w x < 0 -> sN w x = uN w x - 2 ^ w) /\ (0 <= sN w x -> sN w x = uN w x) /\
  - 2 ^ (w - 1) <= sN w x.
Proof.
  intros Hw. unfold sN. change (uN w x mod 2 ^ w) with (uN w (uN w x)). change (x mod 2 ^ w) with (uN w x).
  rewrite uN_idemp by lia. cbv zeta.
  pose proof (uN_range w x ltac:(lia)) as Hr.
  assert (E : 2 ^ w = 2 * 2 ^ (w - 1)) by (rewrite <- Z.pow_succ_r by lia; f_equal; lia).
  split; [done|]. destruct (Z.ltb_spec (uN w x) (2 ^ (w - 1))); repeat split; lia.
Qed.

(** A number is printed with digits that read back as its absolute value
    in the base asked for, without leading zeros, after the sign and the prefix,
    filled up to the width; the count returned leaves out the minus sign. *)
Theorem printf_number_roundtrip sp c v :
  c ∈ [chr_u; chr_d; chr_o; chr_x; chr_X] -> 0 <= padding sp ->
  exists ds fill,
    put_number sp c v =
      Some (prefix_of sp c ++ (if number sp c v <? 0 then [chr_minus] else []) ++ replicate fill (fill_of sp) ++ ds,
            Z.of_nat (length (prefix_of sp c) + fill + length ds)) /\
    parse (base_of c) ds = Z.abs (number sp c v) /\
    (forall x, head ds = Some x -> digit_of x = 0 -> length ds = 1%nat) /\
    Z.of_nat (fill + length ds) = Z.max (padding sp) (Z.of_nat (length ds)).
Proof.
  intros Hc Hpad. unfold put_number. fold (base_of c). fold (prefix_of sp c). fold (fill_of sp).
  set (used := if c =? chr_X then high_digits else low_digits).
  assert (Ht : digit_table used) by (unfold used; destruct (c =? chr_X); [by right|by left]).
  assert (Hb : 2 <= base_of c <= 16) by (unfold base_of; repeat case_match; lia).
  set (raw := if long_int sp then u64 v else u32 v). set (signed := if long_int sp then i64 raw else i32 raw).
  set (value := if (c =? chr_d) && (signed <? 0) then u64 (- signed) else raw).
  assert (Hval : value = Z.abs (number sp c v) /\ ((c =? chr_d) && (signed <? 0)) = (number sp c v <? 0) /\ 0 <= value < 2 ^ 64).
  { unfold value, signed, raw, number. change (2 ^ 64) with 18446744073709551616.
    pose proof (u64_range v). pose proof (u32_range v).
    destruct (sN_cases 64 v ltac:(lia)) as (E64 & N64 & P64 & R64). destruct (sN_cases 32 v ltac:(lia)) as (E32 & N32 & P32 & R32).
    change (2 ^ 64) with 18446744073709551616 in *. change (2 ^ 32) with 4294967296 in *.
    change (2 ^ (64 - 1)) with 9223372036854775808 in *. change (2 ^ (32 - 1)) with 2147483648 in *.
    destruct (c =? chr_d); cbn [andb]; destruct (long_int sp); rewrite ?E64, ?E32.
    - destruct (Z.ltb_spec (i64 v) 0); [rewrite u64_small by lia; lia|lia].
    - destruct (Z.ltb_spec (i32 v) 0); [rewrite u64_small by lia; lia|lia].
    - destruct (Z.ltb_spec (u64 v) 0); lia.
    - destruct (Z.ltb_spec (u32 v) 0); lia. }
  destruct Hval as (Hval & -> & Hrange). 
  destruct (num_digits_spec value (base_of c) ltac:(lia) Hrange) as (n & -> & Hn & Hlt & Hge). cbn [mbind option_bind].
  destruct (put_digits_spec used (base_of c) value Ht Hb ltac:(lia) (Z.to_nat n)) as (ds & -> & Hl & Hp & x & Hx & Hd).
  cbn [mbind option_bind]. rewrite Nat2Z.inj_succ, Z2Nat.id in Hp by lia. rewrite Z2Nat.id in Hd by lia.
  replace (Z.succ n) with (n + 1) in Hp by lia. rewrite Z.mod_small in Hp by lia.
  set (pad := if negb (padding sp =? 0) && (n <? padding sp) then padding sp - n - 1 else 0).
  assert (Hpadn : 0 <= pad /\ pad + (n + 1) = Z.max (padding sp) (n + 1)).
  { unfold pad. destruct (Z.eqb_spec (padding sp) 0), (Z.ltb_spec n (padding sp)); cbn [negb andb]; lia. }
  exists ds, (Z.to_nat pad). split; [do 2 f_equal; lia|]. split; [|split].
  - unfold parse. rewrite Hp. lia.
  - intros y Hy Hzero. assert (y = x) as -> by congruence. rewrite Hd in Hzero.
    destruct Hge as [->|Hge]; [by rewrite Hl|]. exfalso.
    rewrite Z.mod_small in Hzero.
    + apply Z.div_small_iff in Hzero; [lia|]. apply Z.pow_nonzero; lia.
    + split; [apply Z.div_pos; [lia|apply Z.pow_pos_nonneg; lia]|]. apply Z.div_lt_upper_bound; [apply Z.pow_pos_nonneg; lia|].
      rewrite Z.pow_add_r, Z.pow_1_r in Hlt by lia. lia.
  - lia.
Qed.

(** A percent sign followed by a character that starts no conversion, a
    second percent sign among them, never comes back. *)
Theorem printf_unknown_hangs fuel format args i c :
  format !! i = Some chr_percent -> (forall j x, (j < i)%nat -> format !! j = Some x -> x <> 0 /\ x <> chr_percent) ->
  format !! S i = Some c ->
  c ∉ [chr_hash; chr_l; chr_dot; chr_star; chr_u; chr_d; chr_o; chr_x; chr_X; chr_c; chr_s] -> is_digit c = false ->
  vprintf fuel format args = None.
Proof.
  intros Hi Hbefore Hc Hout Hdig.
  assert (Hconv : forall f sp a, conversion f format (S i) sp a = None).
  { induction f as [|f IH]; intros sp a; cbn [conversion]; [done|]. unfold at_. rewrite Hc. cbn [mbind option_bind].
    unfold is_digit in Hdig. rewrite !not_elem_of_cons in Hout.
    destruct Hout as (H1 & H2 & H3 & H4 & H5 & H6 & H7 & H8 & H9 & H10 & H11 & _).
    rewrite !(proj2 (Z.eqb_neq c _)) by (done || (intros ->; done)). cbn [orb].
    assert (((chr_zero <? c) && (c <=? chr_nine)) = false) as ->; [|apply IH].
    apply andb_false_iff in Hdig as [Hd| ->]; [|by rewrite andb_false_r]. apply Z.leb_gt in Hd.
    by rewrite (proj2 (Z.ltb_ge chr_zero c)) by lia. }
  assert (Hloop : forall f k out w, (k <= i)%nat -> vprintf_loop f format k args out w = None).
  { induction f as [|f IH]; intros k out w Hk; cbn [vprintf_loop]; [done|]. unfold at_.
    destruct (decide (k = i)) as [->|Hne].
    - rewrite Hi. cbn [mbind option_bind]. change (chr_percent =? 0) with false. rewrite Z.eqb_refl. by rewrite Hconv.
    - destruct (format !! k) as [x|] eqn:Hx; [|done]. cbn [mbind option_bind]. destruct (Hbefore k x ltac:(lia) Hx) as [H1 H2].
      rewrite (proj2 (Z.eqb_neq _ _) H1), (proj2 (Z.eqb_neq _ _) H2). apply IH. lia. }
  apply Hloop. lia.
Qed.

(** ** Witnesses *)
Lemma printf_number_roundtrip_witness :
  exists ds fill, put_number (mkSpec false false 6 true None) chr_d 4294967041 =
      Some ([] ++ [chr_minus] ++ replicate fill chr_zero ++ ds, Z.of_nat (0 + fill + length ds)) /\
    parse 10 ds = 255 /\ Z.of_nat (fill + length ds) = Z.max 6 (Z.of_nat (length ds)).
Proof.
  destruct (printf_number_roundtrip (mkSpec false false 6 true None) chr_d 4294967041) as (ds & fill & H1 & H2 & _ & H4);
    [by right; left|done|].
  exists ds, fill. split; [exact H1|]. split; [exact H2|exact H4].
Defined.

(** What that call puts: -000255 with a count of 6. *)
Example put_number_minus :
  put_number (mkSpec false false 6 true None) chr_d 4294967041 = Some ([45; 48; 48; 48; 50; 53; 53], 6).
Proof. by vm_compute. Qed.

(** The format of two percent signs. *)
Lemma printf_unknown_hangs_witness : vprintf 1000 [37; 37; 0] [] = None.
Proof.
  apply (printf_unknown_hangs 1000 [37; 37; 0] [] 0 37); [done|intros j x Hj; lia|done| |done].
  apply (bool_decide_unpack _). by vm_compute.
Defined.
