(* ===== verification/RingBuffer.v ===== *)
(** klib::RingBuffer (src/kernel/src/klib/ring_buffer.hpp): a ring of [size]
    elements addressed by two free-running 64-bit indices, and its refinement
    of a bounded FIFO queue. *)
From S2P Require Import Prelude.

Section RingBuffer.
Context {T : Type}.

Record RingBuffer : Type := mkRingBuffer {
  read_index : Z;
  write_index : Z;
  data : list T
}.

Context (size : Z).

Definition data_count (rb : RingBuffer) : Z := u64 (write_index rb - read_index rb).
Definition free_count (rb : RingBuffer) : Z := u64 (size - data_count rb).
Definition is_empty (rb : RingBuffer) : bool := data_count rb =? 0.
Definition is_full (rb : RingBuffer) : bool := data_count rb =? size.

(** The element count returned, the elements stored in the caller's buffer
    and the new state. *)
Definition RingBuffer_read (rb : RingBuffer) (count0 : Z) : Z * list T * RingBuffer :=
  let count := Z.min count0 (data_count rb) in
  if count =? 0 then (0, [], rb) else
  let first_pass_offset := read_index rb mod size in
  let first_pass_remaining := size - first_pass_offset in
  let first_pass_count := Z.min count first_pass_remaining in
  let first := sub (data rb) first_pass_offset first_pass_count in
  let second :=
    if first_pass_count <? count then sub (data rb) 0 (count - first_pass_count) else [] in
  (count, first ++ second,
   mkRingBuffer (u64 (read_index rb + count)) (write_index rb) (data rb)).

Definition RingBuffer_write (rb : RingBuffer) (buffer : list T) (count0 : Z)
    : Z * RingBuffer :=
  let count := Z.min count0 (free_count rb) in
  let first_pass_offset := write_index rb mod size in
  let first_pass_remaining := size - first_pass_offset in
  let first_pass_count := Z.min count first_pass_remaining in
  let data1 := blit first_pass_offset (sub buffer 0 first_pass_count) (data rb) in
  let data2 :=
    if first_pass_count <? count
    then blit 0 (sub buffer first_pass_count (count - first_pass_count)) data1
    else data1 in
  (count, mkRingBuffer (read_index rb) (u64 (write_index rb + count)) data2).

Definition RingBuffer_truncate (rb : RingBuffer) (count0 : Z) : Z * RingBuffer :=
  let count := Z.min count0 (data_count rb) in
  (count, mkRingBuffer (u64 (read_index rb + count)) (write_index rb) (data rb)).

Definition RingBuffer_write_truncate (rb : RingBuffer) (buffer : list T) (count : Z)
    : Z * RingBuffer :=
  let rb1 := if free_count rb <? count then snd (RingBuffer_truncate rb count) else rb in
  RingBuffer_write rb1 buffer count.

Definition RingBuffer_peek (rb : RingBuffer) : Z * list T :=
  if is_empty rb then (0, []) else (1, sub (data rb) (read_index rb mod size) 1).

(** The queue a ring stands for. *)
Definition contents (rb : RingBuffer) : list T :=
  let off := Z.to_nat (read_index rb mod size) in
  take (Z.to_nat (data_count rb)) (drop off (data rb) ++ take off (data rb)).

(** [no_wrap rb n]: pushing [n] more elements keeps index arithmetic
    meaningful, because the size divides 2^64 or the indices do not wrap. *)
Definition no_wrap (rb : RingBuffer) (n : Z) : Prop :=
  (size | 18446744073709551616) \/
  (read_index rb <= write_index rb /\ write_index rb + n < 18446744073709551616).

Record ring_wf (rb : RingBuffer) : Prop := {
  wf_size : 0 < size < 9223372036854775808;
  wf_data : Z.of_nat (length (data rb)) = size;
  wf_read : 0 <= read_index rb < 18446744073709551616;
  wf_write : 0 <= write_index rb < 18446744073709551616;
  wf_count : data_count rb <= size;
  wf_phase : write_index rb mod size = (read_index rb + data_count rb) mod size;
  wf_epoch : (size | 18446744073709551616) \/ read_index rb <= write_index rb
}.

Lemma data_count_nonneg rb : 0 <= data_count rb.
Proof. apply u64_range. Qed.

Lemma free_count_eq rb : ring_wf rb -> free_count rb = size - data_count rb.
Proof.
  intros []. unfold free_count. pose proof (data_count_nonneg rb).
  apply u64_small. lia.
Qed.

Lemma contents_length rb : ring_wf rb -> Z.of_nat (length (contents rb)) = data_count rb.
Proof.
  intros []. unfold contents. pose proof (data_count_nonneg rb).
  rewrite length_take, length_app, length_drop, length_take.
  pose proof (Z.mod_pos_bound (read_index rb) size). lia.
Qed.

Lemma ring_empty_spec rb : ring_wf rb -> is_empty rb = bool_decide (contents rb = []).
Proof.
  intros Hwf. pose proof (contents_length rb Hwf) as Hl. unfold is_empty.
  case_bool_decide as E.
  - rewrite E in Hl. simpl in Hl. by apply Z.eqb_eq.
  - apply Z.eqb_neq. destruct (contents rb); simpl in *; [done|lia].
Qed.

Lemma ring_full_spec rb :
  ring_wf rb -> is_full rb = (Z.of_nat (length (contents rb)) =? size).
Proof. intros Hwf. unfold is_full. by rewrite (contents_length rb Hwf). Qed.

Lemma contents_lookup rb i :
  ring_wf rb -> Z.of_nat i < data_count rb ->
  contents rb !! i = data rb !! Z.to_nat ((read_index rb + Z.of_nat i) mod size).
Proof.
  intros [] Hi. unfold contents. rewrite lookup_take_lt by lia.
  pose proof (Z.mod_pos_bound (read_index rb) size ltac:(lia)) as Hm.
  rewrite mod_add_cases by lia.
  destruct (Z.ltb_spec (read_index rb mod size + Z.of_nat i) size).
  - rewrite lookup_app_l by (rewrite length_drop; lia).
    rewrite lookup_drop. f_equal. lia.
  - rewrite lookup_app_r by (rewrite length_drop; lia).
    rewrite length_drop, lookup_take_lt by lia. f_equal. lia.
Qed.

(** Advancing an index by [c] steps through the ring. *)
Lemma index_advance idx c :
  0 < size -> 0 <= idx -> 0 <= c ->
  (size | 18446744073709551616) \/ idx + c < 18446744073709551616 ->
  u64 (idx + c) mod size = (idx + c) mod size.
Proof.
  intros ??? [Hd|Hn].
  - by apply mod_u64_divide.
  - rewrite u64_small by lia. done.
Qed.

(** The element count after advancing the read index. *)
Lemma count_after_read rb c :
  ring_wf rb -> 0 <= c <= data_count rb ->
  data_count (mkRingBuffer (u64 (read_index rb + c)) (write_index rb) (data rb))
  = data_count rb - c.
Proof.
  intros [] Hc. unfold data_count in *; simpl in *. unfold uN in *.
  change (2 ^ 64) with 18446744073709551616 in *.
  rewrite Zminus_mod_idemp_r.
  replace (write_index rb - (read_index rb + c)) with ((write_index rb - read_index rb) - c) by lia.
  rewrite <- Zminus_mod_idemp_l. apply Z.mod_small.
  pose proof (Z.mod_pos_bound (write_index rb - read_index rb) 18446744073709551616). lia.
Qed.

Lemma count_after_write rb c d :
  ring_wf rb -> 0 <= c <= size - data_count rb ->
  data_count (mkRingBuffer (read_index rb) (u64 (write_index rb + c)) d) = data_count rb + c.
Proof.
  intros [] Hc. unfold data_count in *; simpl in *. unfold uN in *.
  change (2 ^ 64) with 18446744073709551616 in *.
  rewrite Zminus_mod_idemp_l.
  replace (write_index rb + c - read_index rb) with ((write_index rb - read_index rb) + c) by lia.
  rewrite <- Zplus_mod_idemp_l. apply Z.mod_small.
  pose proof (Z.mod_pos_bound (write_index rb - read_index rb) 18446744073709551616). lia.
Qed.

Lemma count_no_wrap rb :
  ring_wf rb -> read_index rb <= write_index rb ->
  data_count rb = write_index rb - read_index rb.
Proof. intros [] H. unfold data_count. apply u64_small. lia. Qed.

(** Dropping [c] elements from the front, the effect shared by [read] and
    [truncate]. *)
Lemma ring_drop_spec rb c :
  ring_wf rb -> 0 <= c <= data_count rb ->
  let rb' := mkRingBuffer (u64 (read_index rb + c)) (write_index rb) (data rb) in
  ring_wf rb' /\ contents rb' = drop (Z.to_nat c) (contents rb).
Proof.
  intros Hwf Hc rb'. pose proof Hwf as [].
  pose proof (count_after_read rb c Hwf Hc) as Hn. fold rb' in Hn.
  assert (Hside : (size | 18446744073709551616) \/ read_index rb + c < 18446744073709551616).
  { destruct wf_epoch0 as [|He]; [by left|right].
    rewrite (count_no_wrap rb Hwf He) in Hc. lia. }
  assert (Hmod : u64 (read_index rb + c) mod size = (read_index rb + c) mod size)
    by (apply index_advance; [lia..|done]).
  assert (Hwf' : ring_wf rb').
  { constructor; try (rewrite Hn); simpl; auto; try lia.
    - apply u64_range.
    - rewrite <- Zplus_mod_idemp_l, Hmod, Zplus_mod_idemp_l, wf_phase0. f_equal. lia.
    - destruct wf_epoch0 as [|He]; [by left|right].
      rewrite (count_no_wrap rb Hwf He) in Hc. rewrite u64_small; lia. }
  split; [done|]. apply list_eq. intros i. rewrite lookup_drop.
  destruct (decide (Z.of_nat i < data_count rb - c)).
  - rewrite !contents_lookup by (auto; lia). simpl. f_equal. f_equal.
    rewrite <- Zplus_mod_idemp_l, Hmod, Zplus_mod_idemp_l. f_equal. lia.
  - pose proof (contents_length rb Hwf). pose proof (contents_length rb' Hwf').
    rewrite !lookup_ge_None_2 by lia. done.
Qed.

Lemma RingBuffer_read_spec rb n :
  ring_wf rb -> 0 <= n ->
  let '(c, out, rb') := RingBuffer_read rb n in
  c = Z.min n (data_count rb) /\ out = take (Z.to_nat n) (contents rb) /\
  ring_wf rb' /\ contents rb' = drop (Z.to_nat n) (contents rb).
Proof.
  intros Hwf Hn. pose proof Hwf as []. pose proof (contents_length rb Hwf) as Hlen.
  pose proof (data_count_nonneg rb). unfold RingBuffer_read.
  destruct (Z.eqb_spec (Z.min n (data_count rb)) 0) as [E|E].
  { assert (n = 0 \/ contents rb = []) as [->| ->].
    { destruct (decide (n = 0)); [by left|right]. apply nil_length_inv. lia. }
    - done.
    - by rewrite take_nil, drop_nil. }
  set (c := Z.min n (data_count rb)) in *.
  destruct (ring_drop_spec rb c Hwf ltac:(lia)) as [Hwf' Hc'].
  split; [done|]. split; [|split; [done|]].
  - assert (take (Z.to_nat n) (contents rb) = take (Z.to_nat c) (contents rb)) as ->.
    { destruct (decide (n <= data_count rb)); [by replace c with n by lia|].
      rewrite !take_ge by lia. done. }
    pose proof (Z.mod_pos_bound (read_index rb) size ltac:(lia)).
    unfold contents. rewrite take_take, Nat.min_l by lia.
    rewrite take_app, length_drop. unfold sub.
    set (o := read_index rb mod size) in *.
    destruct (Z.ltb_spec (Z.min c (size - o)) c).
    + rewrite !Z.min_r by lia. f_equal.
      * rewrite !take_ge by (rewrite length_drop; lia). done.
      * rewrite take_take. simpl. f_equal. lia.
    + rewrite Z.min_l by lia. f_equal.
      replace (Z.to_nat c - (length (data rb) - Z.to_nat o))%nat with 0%nat by lia. done.
  - rewrite Hc'. destruct (decide (n <= data_count rb)); [by replace c with n by lia|].
    rewrite !drop_ge by lia. done.
Qed.

Lemma RingBuffer_truncate_spec rb n :
  ring_wf rb -> 0 <= n ->
  let '(c, rb') := RingBuffer_truncate rb n in
  c = Z.min n (data_count rb) /\
  ring_wf rb' /\ contents rb' = drop (Z.to_nat n) (contents rb).
Proof.
  intros Hwf Hn. unfold RingBuffer_truncate. pose proof (data_count_nonneg rb).
  destruct (ring_drop_spec rb (Z.min n (data_count rb)) Hwf ltac:(lia)) as [Hwf' ->].
  repeat split; auto; try apply Hwf'.
  pose proof (contents_length rb Hwf).
  destruct (decide (n <= data_count rb)); [by rewrite Z.min_l by lia|].
  rewrite !drop_ge by lia. done.
Qed.

(** The storage after the two [memcpy] calls of [write]. *)
Lemma write_data_lookup (d buf : list T) o c j :
  0 < size -> Z.of_nat (length d) = size -> 0 <= o < size ->
  0 <= c <= size -> c <= Z.of_nat (length buf) -> 0 <= j < size ->
  let f := Z.min c (size - o) in
  let d1 := blit o (sub buf 0 f) d in
  let d2 := if f <? c then blit 0 (sub buf f (c - f)) d1 else d1 in
  d2 !! Z.to_nat j =
    if (o <=? j) && (j <? o + f) then buf !! Z.to_nat (j - o)
    else if j <? c - f then buf !! Z.to_nat (f + j)
    else d !! Z.to_nat j.
Proof.
  intros Hs Hd Ho Hc Hb Hj f d1 d2.
  assert (Hl1 : Z.of_nat (length (sub buf 0 f)) = f) by (apply sub_length; lia).
  assert (Hd1 : d1 !! Z.to_nat j =
    if (o <=? j) && (j <? o + f) then buf !! Z.to_nat (j - o) else d !! Z.to_nat j).
  { unfold d1. destruct (Z.leb_spec o j), (Z.ltb_spec j (o + f)); simpl.
    - rewrite blit_lookup_in by lia. rewrite sub_lookup by lia. f_equal. lia.
    - apply blit_lookup_out. lia.
    - apply blit_lookup_out. lia.
    - apply blit_lookup_out. lia. }
  unfold d2. destruct (Z.ltb_spec f c); rewrite ?Hd1.
  - assert (Hl2 : Z.of_nat (length (sub buf f (c - f))) = c - f) by (apply sub_length; lia).
    destruct (Z.ltb_spec j (c - f)).
    + rewrite blit_lookup_in by (unfold d1; rewrite ?blit_length; lia).
      rewrite sub_lookup by lia.
      destruct (Z.leb_spec o j); simpl; [lia|]. f_equal. lia.
    + rewrite blit_lookup_out by lia. by rewrite Hd1.
  - destruct (Z.leb_spec o j), (Z.ltb_spec j (o + f)), (Z.ltb_spec j (c - f));
      simpl; try done; lia.
Qed.

Lemma RingBuffer_write_spec rb buf n :
  ring_wf rb -> 0 <= n <= Z.of_nat (length buf) -> no_wrap rb n ->
  let '(c, rb') := RingBuffer_write rb buf n in
  c = Z.min n (size - data_count rb) /\ ring_wf rb' /\ contents rb' = contents rb ++ take (Z.to_nat c) buf /\ (no_wrap rb n -> read_index rb' = read_index rb).
Proof.
  intros Hwf Hn Hnw. pose proof Hwf as []. pose proof (data_count_nonneg rb).
  unfold RingBuffer_write. rewrite (free_count_eq rb Hwf).
  set (c := Z.min n (size - data_count rb)).
  set (o := write_index rb mod size). set (f := Z.min c (size - o)).
  pose proof (Z.mod_pos_bound (write_index rb) size ltac:(lia)) as Ho. fold o in Ho.
  match goal with |- context [mkRingBuffer _ _ ?d] => set (d2 := d) end.
  pose proof (count_after_write rb c d2 Hwf ltac:(lia)) as Hcnt.
  set (rb' := mkRingBuffer _ _ d2) in *.
  assert (Hlen2 : length d2 = length (data rb)).
  { unfold d2. case_match; by autorewrite with word. }
  assert (Hside : (size | 18446744073709551616) \/ write_index rb + c < 18446744073709551616).
  { destruct Hnw as [|[? ?]]; [by left|right; lia]. }
  assert (Hwf' : ring_wf rb').
  { constructor; try rewrite Hcnt; simpl; rewrite ?Hlen2; auto; try lia.
    - apply u64_range.
    - rewrite index_advance by (auto; lia).
      rewrite <- Zplus_mod_idemp_l, wf_phase0, Zplus_mod_idemp_l. f_equal. lia.
    - destruct Hnw as [|[? ?]]; [by left|right]. rewrite u64_small; lia. }
  assert (Hdat : forall j, 0 <= j < size -> d2 !! Z.to_nat j =
    if (o <=? j) && (j <? o + f) then buf !! Z.to_nat (j - o)
    else if j <? c - f then buf !! Z.to_nat (f + j) else data rb !! Z.to_nat j).
  { intros. apply write_data_lookup; lia. }
  repeat split; auto; try apply Hwf'.
  pose proof (contents_length rb Hwf) as Hl. pose proof (contents_length rb' Hwf') as Hl'.
  pose proof (Z.mod_pos_bound (read_index rb) size ltac:(lia)) as Hr.
  assert (Hor : o = if read_index rb mod size + data_count rb <? size
    then read_index rb mod size + data_count rb
    else read_index rb mod size + data_count rb - size).
  { unfold o. rewrite wf_phase0. apply mod_add_cases; lia. }
  apply list_eq. intros i. destruct (decide (Z.of_nat i < data_count rb + c)) as [Hi|Hi].
  - rewrite contents_lookup by (auto; lia). change (read_index rb') with (read_index rb).
    change (data rb') with d2. rewrite mod_add_cases by lia.
    destruct (decide (Z.of_nat i < data_count rb)).
    + rewrite lookup_app_l by lia. rewrite contents_lookup by (auto; lia).
      rewrite mod_add_cases by lia. rewrite Hdat by (split_ifs; lia).
      repeat (case_match; zbool; try done; try lia).
    + rewrite lookup_app_r by lia. rewrite lookup_take_lt by lia.
      rewrite Hdat by (split_ifs; lia).
      repeat (case_match; zbool; try lia); f_equal; lia.
  - rewrite !lookup_ge_None_2; [done| |lia].
    rewrite length_app, length_take. lia.
Qed.

Lemma RingBuffer_peek_spec rb :
  ring_wf rb ->
  RingBuffer_peek rb = (Z.of_nat (length (take 1 (contents rb))), take 1 (contents rb)).
Proof.
  intros Hwf. unfold RingBuffer_peek. rewrite (ring_empty_spec rb Hwf).
  pose proof (contents_length rb Hwf) as Hl. pose proof Hwf as [].
  case_bool_decide as E; [by rewrite E|].
  destruct (contents rb) as [|x xs] eqn:Ec; [done|]. simpl in Hl.
  pose proof (Z.mod_pos_bound (read_index rb) size ltac:(lia)).
  pose proof (contents_lookup rb 0 Hwf ltac:(lia)) as H0. rewrite Ec in H0. simpl in H0.
  rewrite Z.add_0_r in H0.
  f_equal. unfold sub. change (take 1 (x :: xs)) with [x].
  rewrite (drop_S _ x); [done|]. by rewrite <- H0.
Qed.
End RingBuffer.
Arguments RingBuffer : clear implicits.

Arguments RingBuffer_read : simpl never.
Arguments RingBuffer_write : simpl never.
Arguments RingBuffer_truncate : simpl never.
Arguments RingBuffer_write_truncate : simpl never.
Arguments RingBuffer_peek : simpl never.
Arguments contents : simpl never.
Arguments data_count : simpl never.
Arguments free_count : simpl never.

(** *** Refinement of a bounded queue

    The operations as the rest of the kernel calls them, on a ring and on the
    bounded queue it stands for. *)
Inductive queue_op (T : Type) : Type :=
| QRead (count : Z)
| QWrite (buffer : list T)
| QTruncate (count : Z)
| QWriteTruncate (buffer : list T)
| QPeek.
Arguments QRead {T} count.
Arguments QWrite {T} buffer.
Arguments QTruncate {T} count.
Arguments QWriteTruncate {T} buffer.
Arguments QPeek {T}.

Definition ring_run {T} (size : Z) (rb : RingBuffer T) (op : queue_op T)
    : (Z * list T) * RingBuffer T :=
  match op with
  | QRead n => let '(c, out, rb') := RingBuffer_read size rb n in ((c, out), rb')
  | QWrite b =>
      let '(c, rb') := RingBuffer_write size rb b (Z.of_nat (length b)) in ((c, []), rb')
  | QTruncate n => let '(c, rb') := RingBuffer_truncate rb n in ((c, []), rb')
  | QWriteTruncate b =>
      let '(c, rb') := RingBuffer_write_truncate size rb b (Z.of_nat (length b)) in
      ((c, []), rb')
  | QPeek => (RingBuffer_peek size rb, rb)
  end.

Definition queue_run {T} (size : Z) (q : list T) (op : queue_op T)
    : (Z * list T) * list T :=
  let len := Z.of_nat (length q) in
  match op with
  | QRead n => ((Z.min n len, take (Z.to_nat n) q), drop (Z.to_nat n) q)
  | QWrite b =>
      let c := Z.min (Z.of_nat (length b)) (size - len) in
      ((c, []), q ++ take (Z.to_nat c) b)
  | QTruncate n => ((Z.min n len, []), drop (Z.to_nat n) q)
  | QWriteTruncate b =>
      let n := Z.of_nat (length b) in
      let q1 := if size - len <? n then drop (Z.to_nat n) q else q in
      let c := Z.min n (size - Z.of_nat (length q1)) in
      ((c, []), q1 ++ take (Z.to_nat c) b)
  | QPeek => ((Z.of_nat (length (take 1 q)), take 1 q), q)
  end.

Definition queue_op_ok {T} (op : queue_op T) : Prop :=
  match op with QRead n | QTruncate n => 0 <= n | _ => True end.

Fixpoint run_all {S T R} (step : S -> queue_op T -> R * S) (s : S) (ops : list (queue_op T))
    : list R * S :=
  match ops with
  | [] => ([], s)
  | op :: ops' =>
      let (r, s1) := step s op in
      let (rs, s2) := run_all step s1 ops' in (r :: rs, s2)
  end.

(** A freshly constructed ring (both indices zero) over some storage. *)
Definition RingBuffer_init {T} (storage : list T) : RingBuffer T := mkRingBuffer 0 0 storage.

Lemma ring_init_wf {T} size (st : list T) :
  0 < size < 9223372036854775808 -> Z.of_nat (length st) = size ->
  ring_wf size (RingBuffer_init st) /\ contents size (RingBuffer_init st) = [].
Proof.
  intros Hs Hl.
  assert (data_count (RingBuffer_init st) = 0) as Hd by done.
  split; [|done]. constructor; rewrite ?Hd; simpl; auto; try lia.
Qed.

Lemma ring_run_spec {T} size (rb : RingBuffer T) op :
  (size | 18446744073709551616) -> ring_wf size rb -> queue_op_ok op ->
  let (r, rb') := ring_run size rb op in
  ring_wf size rb' /\ queue_run size (contents size rb) op = (r, contents size rb').
Proof.
  intros Hd Hwf Hop. pose proof (contents_length size rb Hwf) as Hl.
  destruct op as [n|b|n|b|]; cbn [ring_run queue_run queue_op_ok] in *.
  - pose proof (RingBuffer_read_spec size rb n Hwf Hop) as H.
    destruct (RingBuffer_read size rb n) as [[c out] rb']. destruct H as (-> & -> & ? & ->).
    split; [done|]. by rewrite Hl.
  - pose proof (RingBuffer_write_spec size rb b (Z.of_nat (length b)) Hwf ltac:(lia)
      ltac:(by left)) as H.
    destruct (RingBuffer_write size rb b _) as [c rb'].
    destruct H as (-> & ? & -> & _).
    split; [done|]. by rewrite Hl.
  - pose proof (RingBuffer_truncate_spec size rb n Hwf Hop) as H.
    destruct (RingBuffer_truncate rb n) as [c rb']. destruct H as (-> & ? & ->).
    split; [done|]. by rewrite Hl.
  - unfold RingBuffer_write_truncate. set (n := Z.of_nat (length b)).
    set (rb1 := if free_count size rb <? n then snd (RingBuffer_truncate rb n) else rb).
    assert (H1 : ring_wf size rb1 /\ contents size rb1 =
      if size - data_count rb <? n then drop (Z.to_nat n) (contents size rb) else contents size rb).
    { unfold rb1. rewrite (free_count_eq size rb Hwf). destruct (size - data_count rb <? n); [|by split].
      pose proof (RingBuffer_truncate_spec size rb n Hwf ltac:(lia)) as H.
      destruct (RingBuffer_truncate rb n) as [c rb']. by destruct H as (_ & ? & ?). }
    destruct H1 as [Hwf1 Hc1]. rewrite Hl, <- Hc1, (contents_length size rb1 Hwf1).
    pose proof (RingBuffer_write_spec size rb1 b n Hwf1 ltac:(lia) ltac:(by left)) as H.
    destruct (RingBuffer_write size rb1 b n) as [c rb'].
    destruct H as (-> & ? & -> & _). done.
  - split; [done|]. by rewrite (RingBuffer_peek_spec size rb Hwf).
Qed.



