(* ===== verification/FdTable.v ===== *)
(** File descriptor tables (sched::Process, src/kernel/src/sched/sched.cpp) and
    the descriptor system calls of src/kernel/src/fs/vfs.cpp: allocation of
    numbers, reference counting of file descriptions, close, close_range, dup,
    fcntl.

    A [FileDescription*] is its address: a positive even number (allocations
    are 16-byte aligned), so that bit 0 of a descriptor word holds the
    [FD_CLOEXEC] flag, as in [vfs::FileDescriptor]. *)
From S2P Require Import Prelude.

(** ** vfs::FileDescription *)
Record FileDescription : Type := mkDescription {
  vnode : Z;
  cursor : Z;
  flags : Z;
  ref_count : Z
}.

Definition can_read (fl : Z) : bool :=
  (Z.land fl O_ACCMODE =? O_RDONLY) || (Z.land fl O_ACCMODE =? O_RDWR).
Definition can_write (fl : Z) : bool :=
  (Z.land fl O_ACCMODE =? O_WRONLY) || (Z.land fl O_ACCMODE =? O_RDWR).

(** ** vfs::FileDescriptor: one word, pointer and flag *)
Definition flags_mask : Z := 1.
Definition FileDescriptor_init (description fl : Z) : Z := Z.lor description fl.
Definition get_description (d : Z) : Z := Z.ldiff d flags_mask.
Definition get_flags (d : Z) : Z := Z.land d flags_mask.
Definition set_flags (d fl : Z) : Z := Z.lor (get_description d) (Z.land fl flags_mask).

(** The descriptor part of a process, and the heap of descriptions.  [closed]
    logs the vnodes whose [close] a destroyed description called;
    [memfd_seals] gives the seals of the vnodes of type MEMFD. *)
Record FdState : Type := mkFdState {
  file_descriptors : list Z;
  num_file_descriptors : Z;
  first_free_fdnum : Z;
  descriptions : gmap Z FileDescription;
  closed : list Z;
  memfd_seals : gmap Z Z
}.

Definition set_table (t : list Z) (s : FdState) : FdState :=
  mkFdState t (num_file_descriptors s) (first_free_fdnum s) (descriptions s) (closed s) (memfd_seals s).
Definition set_descriptions (ds : gmap Z FileDescription) (s : FdState) : FdState :=
  mkFdState (file_descriptors s) (num_file_descriptors s) (first_free_fdnum s) ds (closed s) (memfd_seals s).

(** Number of entries, as the [(int)] cast of the code sees it. *)
Definition fd_size (s : FdState) : Z := Z.of_nat (length (file_descriptors s)).

Definition fd_word (s : FdState) (fd : Z) : Z :=
  default 0 (file_descriptors s !! Z.to_nat fd).

(** [FileDescription::decrement_ref_count], destructor included. *)
Definition decrement_ref_count (p : Z) (s : FdState) : FdState :=
  match descriptions s !! p with
  | None => s
  | Some d =>
      let n := ref_count d - 1 in
      if n =? 0
      then mkFdState (file_descriptors s) (num_file_descriptors s) (first_free_fdnum s)
             (delete p (descriptions s)) (closed s ++ [vnode d]) (memfd_seals s)
      else set_descriptions
             (<[p := mkDescription (vnode d) (cursor d) (flags d) n]> (descriptions s)) s
  end.

Definition increment_ref_count (p : Z) (s : FdState) : FdState :=
  set_descriptions
    (alter (fun d => mkDescription (vnode d) (cursor d) (flags d) (ref_count d + 1)) p
       (descriptions s)) s.

(** [Process::allocate_fdnum]: the number returned, with the table grown when
    no free slot was found. *)
Definition allocate_fdnum (min_fdnum : Z) (s : FdState) : Z * FdState :=
  let low := min_fdnum <? first_free_fdnum s in
  let begin := if low then first_free_fdnum s else min_fdnum in
  match list_find (fun d => get_description d = 0) (drop (Z.to_nat begin) (file_descriptors s)) with
  | Some (i, _) =>
      let fd := begin + Z.of_nat i in
      (fd, mkFdState (file_descriptors s) (num_file_descriptors s + 1)
             (if low then fd + 1 else first_free_fdnum s)
             (descriptions s) (closed s) (memfd_seals s))
  | None =>
      (fd_size s,
       mkFdState (file_descriptors s ++ [0]) (num_file_descriptors s + 1)
         (if low then fd_size s else first_free_fdnum s)
         (descriptions s) (closed s) (memfd_seals s))
  end.

(** [FileDescriptor::close] *)
Definition FileDescriptor_close (fdnum : Z) (s : FdState) : FdState :=
  let s1 := decrement_ref_count (get_description (fd_word s fdnum)) s in
  mkFdState (<[Z.to_nat fdnum := 0]> (file_descriptors s1)) (num_file_descriptors s1 - 1)
    (if fdnum <? first_free_fdnum s1 then fdnum else first_free_fdnum s1)
    (descriptions s1) (closed s1) (memfd_seals s1).

(** [FileDescriptor::duplicate]: the new word, with the reference taken. *)
Definition FileDescriptor_duplicate (keep_flags : bool) (d : Z) (s : FdState) : Z * FdState :=
  (if keep_flags then d else Z.ldiff d flags_mask,
   increment_ref_count (get_description d) s).

(** [vfs::get_file_description]; 0 is [nullptr]. *)
Definition get_file_description (fd : Z) (s : FdState) : Z :=
  if (fd_size s <=? fd) || (fd <? 0) then 0 else get_description (fd_word s fd).

Definition syscall_close (fd : Z) (s : FdState) : Z * FdState :=
  if (fd_size s <=? fd) || (fd <? 0) then (- EBADF, s)
  else if get_description (fd_word s fd) =? 0 then (- EBADF, s)
  else (0, FileDescriptor_close fd s).

Definition CLOSE_RANGE_UNSHARE : Z := 2.
Definition CLOSE_RANGE_CLOEXEC : Z := 4.

(** The body of the [close_range] loop for one number. *)
Definition close_range_one (fl : Z) (fd : Z) (s : FdState) : FdState :=
  if get_description (fd_word s fd) =? 0 then s
  else if has fl CLOSE_RANGE_CLOEXEC
  then set_table (<[Z.to_nat fd := set_flags (fd_word s fd) FD_CLOEXEC]> (file_descriptors s)) s
  else FileDescriptor_close fd s.

(** [last] is clamped to the table; a process always has descriptors, and an
    empty table is left to the code's underflowing [size() - 1] ([None]). *)
Definition syscall_close_range (first last fl : Z) (s : FdState) : option (Z * FdState) :=
  if negb (Z.land fl (Z.lnot (Z.lor CLOSE_RANGE_CLOEXEC CLOSE_RANGE_UNSHARE)) =? 0)
  then Some (- EINVAL, s)
  else if last <? first then Some (- EINVAL, s)
  else if fd_size s =? 0 then None
  else
    let last' := Z.min last (fd_size s - 1) in
    Some (0, fold_left (fun s fd => close_range_one fl fd s)
               (seqZ first (last' - first + 1)) s).

(** *** fcntl *)
Definition F_DUPFD : Z := 0.
Definition F_GETFD : Z := 1.
Definition F_SETFD : Z := 2.
Definition F_GETFL : Z := 3.
Definition F_SETFL : Z := 4.
Definition F_GETLK : Z := 5.
Definition F_SETLK : Z := 6.
Definition F_SETLKW : Z := 7.
Definition F_DUPFD_CLOEXEC : Z := 1030.
Definition F_GETPIPE_SZ : Z := 1032.
Definition F_ADD_SEALS : Z := 1033.
Definition F_GET_SEALS : Z := 1034.
Definition F_SEAL_SEAL : Z := 1.
(** SEAL, SHRINK, GROW, WRITE, FUTURE_WRITE and EXEC. *)
Definition all_seals : Z := 63.
(** O_APPEND | O_ASYNC | O_DIRECT | O_NOATIME | O_NONBLOCK *)
Definition setfl_mask : Z := 1024 + 8192 + 16384 + 262144 + 2048.
Definition Pipe_capacity : Z := 4096.

Definition dup_into (newfd oldfd : Z) (new_flags : Z) (s : FdState) : FdState :=
  let (w, s1) := FileDescriptor_duplicate false (fd_word s oldfd) s in
  set_table (<[Z.to_nat newfd := set_flags w new_flags]> (file_descriptors s1)) s1.

(** [None] where the code would dereference a dead description. *)
Definition fcntl_impl (fd cmd arg : Z) (s : FdState) : option (Z * FdState) :=
  if (fd_size s <=? fd) || (fd <? 0) then Some (- EBADF, s) else
  let word := fd_word s fd in
  let p := get_description word in
  if p =? 0 then Some (- EBADF, s) else
  match descriptions s !! p with
  | None => None
  | Some d =>
    if (cmd =? F_DUPFD) || (cmd =? F_DUPFD_CLOEXEC) then
      let (newfd, s1) := allocate_fdnum (i32 arg) s in
      Some (newfd, dup_into newfd fd (if cmd =? F_DUPFD_CLOEXEC then FD_CLOEXEC else 0) s1)
    else if cmd =? F_GETFD then Some (get_flags word, s)
    else if cmd =? F_SETFD then
      Some (0, set_table (<[Z.to_nat fd := set_flags word arg]> (file_descriptors s)) s)
    else if cmd =? F_GETFL then Some (flags d, s)
    else if cmd =? F_SETFL then
      let fl := Z.lor (Z.ldiff (flags d) setfl_mask) (Z.land arg setfl_mask) in
      Some (0, set_descriptions
                 (<[p := mkDescription (vnode d) (cursor d) fl (ref_count d)]> (descriptions s)) s)
    else if (cmd =? F_SETLK) || (cmd =? F_SETLKW) || (cmd =? F_GETLK) then Some (0, s)
    else if cmd =? F_GETPIPE_SZ then Some (Pipe_capacity, s)
    else if cmd =? F_ADD_SEALS then
      match memfd_seals s !! vnode d with
      | None => Some (- EINVAL, s)
      | Some seals =>
          if has seals F_SEAL_SEAL || negb (can_write (flags d)) then Some (- EPERM, s)
          else if negb (Z.ldiff arg all_seals =? 0) then Some (- EINVAL, s)
          else Some (0, mkFdState (file_descriptors s) (num_file_descriptors s)
                 (first_free_fdnum s) (descriptions s) (closed s)
                 (<[vnode d := Z.lor seals arg]> (memfd_seals s)))
      end
    else if cmd =? F_GET_SEALS then
      match memfd_seals s !! vnode d with
      | None => Some (- EINVAL, s)
      | Some seals => Some (seals, s)
      end
    else Some (- EINVAL, s)
  end.

(** *** dup *)
Definition dup3_impl (oldfd newfd fl : Z) (s : FdState) : Z * FdState :=
  if (fd_size s <=? oldfd) || (oldfd <? 0) then (- EBADF, s)
  else if (1023 <? newfd) || (newfd <? 0) then (- EBADF, s)
  else if get_description (fd_word s oldfd) =? 0 then (- EBADF, s)
  else if negb (Z.ldiff fl FD_CLOEXEC =? 0) then (- EINVAL, s)
  else if oldfd =? newfd then (newfd, s)
  else
    let s1 := if fd_size s <=? newfd
              then set_table (file_descriptors s ++
                                replicate (Z.to_nat (newfd + 1 - fd_size s)) 0) s
              else s in
    let s2 := if get_description (fd_word s1 newfd) =? 0 then s1
              else FileDescriptor_close newfd s1 in
    (newfd, dup_into newfd oldfd fl s2).

Definition syscall_dup (oldfd : Z) (s : FdState) : option (Z * FdState) :=
  fcntl_impl oldfd F_DUPFD 0 s.
Definition syscall_dup2 (oldfd newfd : Z) (s : FdState) : Z * FdState :=
  dup3_impl oldfd newfd 0 s.
Definition syscall_dup3 (oldfd newfd fl : Z) (s : FdState) : Z * FdState :=
  if oldfd =? newfd then (- EINVAL, s) else dup3_impl oldfd newfd fl s.

(** The installation of a fresh description, the common end of openat, pipe2,
    eventfd2, signalfd4, epoll_create1, inotify_init1 and memfd_create: [p] is
    the address the allocator returned for [new FileDescription(vn, fl)]. *)
Definition install_fd (p vn fl : Z) (cloexec : bool) (s : FdState) : Z * FdState :=
  let (fd, s1) := allocate_fdnum 0 s in
  let s2 := set_descriptions (<[p := mkDescription vn 0 fl 1]> (descriptions s1)) s1 in
  (fd, set_table (<[Z.to_nat fd := FileDescriptor_init p (if cloexec then FD_CLOEXEC else 0)]>
                    (file_descriptors s2)) s2).

(** ** Descriptor words *)
Ltac bitwise :=
  apply Z.bits_inj'; intros ? ?;
  repeat first [rewrite Z.ldiff_spec by lia | rewrite Z.lor_spec by lia
               | rewrite Z.land_spec by lia];
  repeat match goal with |- context [Z.testbit ?a ?n] => destruct (Z.testbit a n) end;
  reflexivity.

Lemma get_set_flags w f : get_description (set_flags w f) = get_description w.
Proof. unfold set_flags, get_description. bitwise. Qed.

Lemma get_flags_set_flags w f : get_flags (set_flags w f) = Z.land f flags_mask.
Proof. unfold set_flags, get_flags, get_description. bitwise. Qed.

Lemma get_description_idemp w : get_description (get_description w) = get_description w.
Proof. unfold get_description. bitwise. Qed.

(** An address the allocator can return for a description. *)
Definition is_addr (p : Z) : Prop := 0 < p /\ get_description p = p.

Lemma get_init p (c : bool) :
  is_addr p -> get_description (FileDescriptor_init p (if c then FD_CLOEXEC else 0)) = p.
Proof.
  intros [_ Hp]. transitivity (get_description p); [|done].
  unfold FileDescriptor_init, get_description, FD_CLOEXEC, flags_mask.
  destruct c; rewrite ?Z.lor_0_r; [bitwise|done].
Qed.

(** ** Reference counting *)

(** How many descriptors of the table refer to [p]. *)
Definition occ (p : Z) (l : list Z) : Z :=
  Z.of_nat (length (filter (fun w => get_description w = p) l)).

Lemma occ_nonneg p l : 0 <= occ p l.
Proof. unfold occ. lia. Qed.

Lemma occ_cons p w l :
  occ p (w :: l) = (if decide (get_description w = p) then 1 else 0) + occ p l.
Proof. unfold occ. rewrite filter_cons. case_decide; simpl length; lia. Qed.

Lemma occ_app p l k : occ p (l ++ k) = occ p l + occ p k.
Proof. unfold occ. rewrite filter_app, length_app. lia. Qed.

Lemma occ_zeros p n : p <> 0 -> occ p (replicate n 0) = 0.
Proof.
  intros Hp. induction n as [|n IH]; [done|]. simpl. rewrite occ_cons, IH.
  rewrite decide_False by (cbv; lia). done.
Qed.

Lemma occ_insert p l i w0 w :
  l !! i = Some w0 ->
  occ p (<[i := w]> l) = occ p l
    - (if decide (get_description w0 = p) then 1 else 0)
    + (if decide (get_description w = p) then 1 else 0).
Proof.
  revert i. induction l as [|x l IH]; intros [|i] H; simplify_eq/=; rewrite !occ_cons.
  - lia.
  - rewrite (IH i H). lia.
Qed.

Lemma occ_pos p l w : w ∈ l -> get_description w = p -> 0 < occ p l.
Proof.
  intros Hin Hw. unfold occ.
  assert (w ∈ filter (fun w => get_description w = p) l) by (apply list_elem_of_filter; done).
  destruct (filter _ l); [by apply not_elem_of_nil in H|simpl; lia].
Qed.

(** The invariant: every word of the table is null or refers to a live
    description; a live description's count is the number of descriptors that
    refer to it plus [ext], the references other processes and mapped ranges
    hold; every number below [first_free_fdnum] is in use, but for a slot
    [hole] that was allocated and is not filled yet (none in a stable state). *)
Record fd_inv_hole (ext : Z -> Z) (hole : Z) (s : FdState) : Prop := {
  fi_live : forall w, w ∈ file_descriptors s -> get_description w <> 0 ->
    is_Some (descriptions s !! get_description w);
  fi_refs : forall p d, descriptions s !! p = Some d ->
    ref_count d = occ p (file_descriptors s) + ext p /\ 0 < ref_count d;
  fi_addr : forall p, is_Some (descriptions s !! p) -> is_addr p;
  fi_ext : forall p, 0 <= ext p;
  fi_range : 0 <= first_free_fdnum s <= fd_size s;
  fi_used : forall i w, Z.of_nat i < first_free_fdnum s -> Z.of_nat i <> hole ->
    file_descriptors s !! i = Some w -> get_description w <> 0
}.
Abbreviation fd_inv ext s := (fd_inv_hole ext (-1) s).

Lemma fd_word_lookup s fd :
  0 <= fd < fd_size s -> file_descriptors s !! Z.to_nat fd = Some (fd_word s fd).
Proof.
  intros H. unfold fd_word, fd_size in *.
  destruct (lookup_lt_is_Some_2 (file_descriptors s) (Z.to_nat fd)) as [w Hw]; [lia|].
  by rewrite Hw.
Qed.

Lemma fd_word_in s fd : 0 <= fd < fd_size s -> fd_word s fd ∈ file_descriptors s.
Proof. intros H. eapply list_elem_of_lookup_2, fd_word_lookup, H. Qed.

(** Rewriting a slot to a word with the same description keeps the invariant. *)
Lemma fd_inv_reflag ext s i w0 w :
  fd_inv ext s -> file_descriptors s !! i = Some w0 ->
  get_description w = get_description w0 ->
  fd_inv ext (set_table (<[i := w]> (file_descriptors s)) s).
Proof.
  intros [] Hi Hw. constructor; simpl; auto.
  - intros v Hv Hnz. apply list_elem_of_lookup in Hv as [j Hj].
    apply list_lookup_insert_Some in Hj as [(-> & -> & _)|[_ Hj]].
    + rewrite Hw in *. apply fi_live0; [|done]. by eapply list_elem_of_lookup_2.
    + apply fi_live0; [|done]. by eapply list_elem_of_lookup_2.
  - intros p d Hd. rewrite (occ_insert p _ _ w0) by done. rewrite Hw.
    destruct (fi_refs0 p d Hd). split; [|done]. case_decide; lia.
  - unfold fd_size in *; simpl. by rewrite length_insert.
  - intros j v Hj _ Hv. apply list_lookup_insert_Some in Hv as [(-> & -> & _)|[_ Hv]].
    + rewrite Hw. apply (fi_used0 j); [done|lia|done].
    + apply (fi_used0 j); [done|lia|done].
Qed.

(** Changing cursor or flags of a live description. *)
Lemma fd_inv_update ext s p d d' :
  fd_inv ext s -> descriptions s !! p = Some d -> ref_count d' = ref_count d ->
  fd_inv ext (set_descriptions (<[p := d']> (descriptions s)) s).
Proof.
  intros [] Hd Hr. constructor; simpl; auto.
  - intros w Hw Hnz. rewrite lookup_insert. case_decide; eauto.
  - intros q e. rewrite lookup_insert. case_decide; [|eauto]. intros; simplify_eq.
    rewrite Hr. eauto.
  - intros q. rewrite lookup_insert. case_decide; [|eauto]. intros; simplify_eq. eauto.
Qed.

(** Clearing a slot and dropping its reference. *)
Lemma fd_inv_close ext s fd :
  fd_inv ext s -> 0 <= fd < fd_size s -> get_description (fd_word s fd) <> 0 ->
  fd_inv ext (FileDescriptor_close fd s).
Proof.
  intros Hinv Hfd Hnz. pose proof Hinv as [].
  pose proof (fd_word_lookup s fd Hfd) as Hlk. pose proof (fd_word_in s fd Hfd) as Hin.
  set (p := get_description (fd_word s fd)) in *.
  destruct (fi_live0 _ Hin Hnz) as [d Hd]. fold p in Hd.
  destruct (fi_refs0 p d Hd) as [Hr Hpos].
  assert (Hocc : forall q, occ q (<[Z.to_nat fd := 0]> (file_descriptors s)) =
    occ q (file_descriptors s) - (if decide (p = q) then 1 else 0)
      + (if decide (0 = q) then 1 else 0)).
  { intros q. rewrite (occ_insert q _ _ (fd_word s fd)) by done. done. }
  assert (Hlive : forall w, w ∈ <[Z.to_nat fd := 0]> (file_descriptors s) ->
    get_description w <> 0 -> w ∈ file_descriptors s).
  { intros w Hw Hw0. apply list_elem_of_lookup in Hw as [j Hj].
    apply list_lookup_insert_Some in Hj as [(_ & <- & _)|[_ Hj]]; [by cbv in Hw0|].
    by eapply list_elem_of_lookup_2. }
  unfold FileDescriptor_close, decrement_ref_count. fold p. rewrite Hd.
  destruct (Z.eqb_spec (ref_count d - 1) 0) as [E|E].
  - constructor; simpl.
    + intros w Hw Hw0. rewrite lookup_delete. case_decide as Hp; [|eauto].
      exfalso. pose proof (Hocc p) as Ho. rewrite decide_True in Ho by done.
      rewrite decide_False in Ho by congruence.
      pose proof (occ_pos p _ w Hw (eq_sym Hp)). pose proof (fi_ext0 p). lia.
    + intros q e. rewrite lookup_delete. case_decide as Hp; [done|]. intros He.
      rewrite Hocc. destruct (fi_refs0 q e He). destruct (fi_addr0 q) as [Hq _]; [eauto|].
      rewrite !decide_False by lia. lia.
    + intros q. rewrite lookup_delete. case_decide; [by intros []|eauto].
    + done.
    + unfold fd_size in *; simpl. rewrite length_insert. case_match; zbool; lia.
    + intros j v Hj _ Hv. apply list_lookup_insert_Some in Hv as [(<- & _ & _)|[_ Hv]].
      * case_match; zbool; lia.
      * apply (fi_used0 j); [|lia|done]. case_match; zbool; lia.
  - constructor; simpl.
    + intros w Hw Hw0. rewrite lookup_insert. case_decide; eauto.
    + intros q e. rewrite lookup_insert, Hocc. destruct (fi_addr0 p) as [Hp _]; [eauto|].
      case_decide as Hpq; intros He; simplify_eq.
      * rewrite decide_False by lia. simpl. lia.
      * destruct (fi_refs0 q e He). destruct (fi_addr0 q) as [Hq _]; [eauto|].
        rewrite decide_False by lia. lia.
    + intros q. rewrite lookup_insert. case_decide; [intros; simplify_eq; eauto|eauto].
    + done.
    + unfold fd_size in *; simpl. rewrite length_insert. case_match; zbool; lia.
    + intros j v Hj _ Hv. apply list_lookup_insert_Some in Hv as [(<- & _ & _)|[_ Hv]].
      * case_match; zbool; lia.
      * apply (fi_used0 j); [|lia|done]. case_match; zbool; lia.
Qed.

(** ** Allocation of numbers *)

Lemma allocate_fdnum_shape ext m s fd s1 :
  fd_inv ext s -> allocate_fdnum m s = (fd, s1) ->
  0 <= fd < fd_size s1 /\ get_description (fd_word s1 fd) = 0 /\
  (file_descriptors s1 = file_descriptors s \/ file_descriptors s1 = file_descriptors s ++ [0]) /\
  descriptions s1 = descriptions s /\ closed s1 = closed s /\ memfd_seals s1 = memfd_seals s /\
  fd_inv_hole ext fd s1.
Proof.
  intros Hinv Ha. pose proof Hinv as []. unfold allocate_fdnum in Ha.
  set (low := m <? first_free_fdnum s) in *.
  set (begin := if low then first_free_fdnum s else m) in *.
  assert (Hb : 0 <= begin /\ first_free_fdnum s <= begin)
    by (unfold begin, low; destruct (Z.ltb_spec m (first_free_fdnum s)); lia).
  destruct (list_find _ _) as [[i w]|] eqn:Hf; simplify_eq.
  - apply list_find_Some in Hf as (Hi & Hw & Hmin).
    rewrite lookup_drop in Hi.
    assert (Hin : (Z.to_nat begin + i < length (file_descriptors s))%nat)
      by (eapply lookup_lt_Some; eauto).
    unfold fd_size, fd_word in *; simpl.
    replace (Z.to_nat (begin + Z.of_nat i)) with (Z.to_nat begin + i)%nat by lia.
    rewrite Hi. simpl.
    do 6 (split; [first [lia | by auto]|]). constructor; simpl; auto.
    { unfold fd_size; simpl. destruct low; lia. }
    intros j v Hj Hne Hv. destruct (decide (Z.of_nat j < first_free_fdnum s)).
    { apply (fi_used0 j); [done|lia|done]. }
    assert (low = true) as Hlow by (destruct low; [done|lia]).
    assert (begin = first_free_fdnum s) as Hbeg by (unfold begin; by rewrite Hlow).
    rewrite Hlow in Hj.
    intros Hz. apply (Hmin (j - Z.to_nat begin)%nat v); [|lia|done].
      rewrite lookup_drop. rewrite <- Hv. f_equal. lia.
  - unfold fd_size, fd_word in *; simpl. rewrite length_app; simpl.
    rewrite Nat2Z.id, lookup_app_r, Nat.sub_diag by lia. simpl.
    apply list_find_None in Hf. rewrite Forall_lookup in Hf.
    do 6 (split; [first [lia | by auto]|]). constructor; simpl; auto.
    + intros w Hw Hnz. apply elem_of_app in Hw as [Hw|Hw]; [eauto|].
      apply list_elem_of_singleton in Hw as ->. done.
    + intros p d Hpd. destruct (fi_refs0 p d Hpd). rewrite occ_app.
      destruct (fi_addr0 p) as [Hp _]; [eauto|].
      pose proof (occ_zeros p 1 ltac:(lia)). simpl in *. lia.
    + unfold fd_size; simpl. rewrite length_app; simpl. destruct low; lia.
    + intros j v Hj Hne Hv.
      destruct (decide (Z.of_nat j < first_free_fdnum s)).
      { apply (fi_used0 j); [done|lia|]. rewrite lookup_app_l in Hv by lia. done. }
      assert (low = true) as Hlow by (destruct low; [done|lia]).
      assert (begin = first_free_fdnum s) as Hbeg by (unfold begin; by rewrite Hlow).
    rewrite Hlow in Hj.
      rewrite lookup_app_l in Hv by lia.
      apply (Hf (j - Z.to_nat begin)%nat v). rewrite lookup_drop.
      rewrite <- Hv. f_equal. lia.
Qed.

(** Filling a null slot with a new reference to a live description. *)
Lemma fd_inv_fill ext hole s fd q d w :
  fd_inv_hole ext hole s -> (hole = fd \/ hole = -1) -> 0 <= fd < fd_size s ->
  get_description (fd_word s fd) = 0 -> descriptions s !! q = Some d ->
  get_description w = q ->
  fd_inv ext (set_table (<[Z.to_nat fd := w]> (file_descriptors s)) (increment_ref_count q s)).
Proof.
  intros Hinv Hh Hfd Hz Hd Hw. pose proof Hinv as [].
  pose proof (fd_word_lookup s fd Hfd) as Hlk.
  destruct (fi_addr0 q) as [Hq _]; [eauto|].
  constructor; simpl; auto.
  - intros v Hv Hnz. rewrite lookup_alter_is_Some.
    apply list_elem_of_lookup in Hv as [j Hj].
    apply list_lookup_insert_Some in Hj as [(_ & <- & _)|[_ Hj]].
    + rewrite Hw. eauto.
    + apply fi_live0; [|done]. by eapply list_elem_of_lookup_2.
  - intros p e. rewrite lookup_alter. rewrite (occ_insert p _ _ _ w Hlk), Hz, Hw.
    case_decide as Hpq; intros He.
    + subst p. rewrite Hd in He. simplify_eq/=. destruct (fi_refs0 _ _ Hd).
      rewrite decide_False by lia. lia.
    + destruct (fi_refs0 p e He). destruct (fi_addr0 p) as [Hp _]; [eauto|].
      rewrite decide_False by lia. lia.
  - intros p. rewrite lookup_alter_is_Some. eauto.
  - unfold fd_size in *; simpl. by rewrite length_insert.
  - intros j v Hj _ Hv. apply list_lookup_insert_Some in Hv as [(<- & <- & _)|[Hne Hv]].
    + rewrite Hw. lia.
    + apply (fi_used0 j); [done| |done]. destruct Hh; lia.
Qed.

(** [dup_into] from a state with a hole at [newfd]. *)
Lemma fd_inv_dup_into ext hole s newfd oldfd fl :
  fd_inv_hole ext hole s -> (hole = newfd \/ hole = -1) ->
  0 <= newfd < fd_size s -> get_description (fd_word s newfd) = 0 ->
  0 <= oldfd < fd_size s -> get_description (fd_word s oldfd) <> 0 ->
  fd_inv ext (dup_into newfd oldfd fl s).
Proof.
  intros Hinv Hh Hn Hnz Ho Hoz. unfold dup_into, FileDescriptor_duplicate.
  destruct (fi_live _ _ _ Hinv _ (fd_word_in s oldfd Ho) Hoz) as [d Hd].
  assert (get_description (set_flags (Z.ldiff (fd_word s oldfd) flags_mask) fl)
    = get_description (fd_word s oldfd)).
  { rewrite get_set_flags. apply get_description_idemp. }
  simpl. by eapply fd_inv_fill.
Qed.

(** Growing the table with null words. *)
Lemma fd_inv_extend ext s n :
  fd_inv ext s -> fd_inv ext (set_table (file_descriptors s ++ replicate n 0) s).
Proof.
  intros []. constructor; simpl; auto.
  - intros w Hw Hnz. apply elem_of_app in Hw as [Hw|Hw]; [eauto|].
    apply elem_of_replicate in Hw as [-> _]. by cbv in Hnz.
  - intros p d Hd. destruct (fi_refs0 p d Hd). destruct (fi_addr0 p) as [? _]; [eauto|].
    rewrite occ_app, occ_zeros by lia. lia.
  - unfold fd_size in *; simpl. rewrite length_app. lia.
  - intros j v Hj _ Hv. apply (fi_used0 j); [done|lia|].
    unfold fd_size in *. rewrite lookup_app_l in Hv by lia. done.
Qed.

Lemma fd_word_app s l fd :
  0 <= fd < fd_size s ->
  fd_word (set_table (file_descriptors s ++ l) s) fd = fd_word s fd.
Proof.
  intros H. unfold fd_word, fd_size in *; simpl. by rewrite lookup_app_l by lia.
Qed.

(** [FileDescriptor_close] leaves the other words and the size alone. *)
Lemma close_table fd s :
  file_descriptors (FileDescriptor_close fd s) = <[Z.to_nat fd := 0]> (file_descriptors s).
Proof.
  unfold FileDescriptor_close, decrement_ref_count. simpl.
  repeat case_match; done.
Qed.

Lemma close_size fd s : fd_size (FileDescriptor_close fd s) = fd_size s.
Proof. unfold fd_size. by rewrite close_table, length_insert. Qed.

Lemma close_word fd s i :
  0 <= fd < fd_size s -> 0 <= i ->
  fd_word (FileDescriptor_close fd s) i = if i =? fd then 0 else fd_word s i.
Proof.
  intros Hf Hi. unfold fd_word, fd_size in *. rewrite close_table.
  destruct (Z.eqb_spec i fd) as [->|Hne].
  - by rewrite list_lookup_insert_eq by lia.
  - by rewrite list_lookup_insert_ne by lia.
Qed.

Lemma close_range_one_inv ext fl fd s :
  fd_inv ext s -> 0 <= fd < fd_size s ->
  fd_inv ext (close_range_one fl fd s) /\ fd_size (close_range_one fl fd s) = fd_size s.
Proof.
  intros Hinv Hfd. unfold close_range_one. destruct (Z.eqb_spec (get_description (fd_word s fd)) 0).
  - done.
  - destruct (has fl _).
    + split.
      * eapply fd_inv_reflag; [done|by apply fd_word_lookup|]. apply get_set_flags.
      * unfold fd_size; simpl. by rewrite length_insert.
    + split; [by apply fd_inv_close|apply close_size].
Qed.

Lemma close_range_inv ext fl fds s :
  fd_inv ext s -> Forall (fun fd => 0 <= fd < fd_size s) fds ->
  fd_inv ext (fold_left (fun s fd => close_range_one fl fd s) fds s).
Proof.
  intros Hinv H. revert s Hinv H. induction fds as [|fd fds IH]; intros s Hinv H; simpl; [done|].
  apply Forall_cons in H as [Hfd H].
  destruct (close_range_one_inv ext fl fd s Hinv Hfd) as [Hinv' Hsz].
  apply IH; [done|]. by rewrite Hsz.
Qed.

Lemma dup3_inv ext oldfd newfd fl s r s' :
  fd_inv ext s -> dup3_impl oldfd newfd fl s = (r, s') -> fd_inv ext s'.
Proof.
  intros Hinv H. unfold dup3_impl in H.
  destruct (_ || _) eqn:E1; [by simplify_eq|].
  destruct (_ || _) eqn:E2 in H; [by simplify_eq|].
  destruct (_ =? 0) eqn:E3 in H; [by simplify_eq|].
  destruct (negb _) in H; [by simplify_eq|].
  destruct (oldfd =? newfd) eqn:E4; [by simplify_eq|].
  apply pair_equal_spec in H as [_ <-]. zbool.
  set (s1 := if _ <=? newfd then _ else s).
  assert (Hgrow : fd_inv ext s1 /\ fd_size s <= fd_size s1 /\ newfd < fd_size s1 /\
    fd_word s1 oldfd = fd_word s oldfd).
  { unfold s1. destruct (Z.leb_spec (fd_size s) newfd); [|by auto with lia].
    split; [by apply fd_inv_extend|]. rewrite fd_word_app by lia.
    unfold fd_size in *; simpl. rewrite length_app, length_replicate. split; [lia|]. split; [lia|done]. }
  destruct Hgrow as (Hinv1 & Hs1 & Hn1 & Hw1). clearbody s1.
  destruct (Z.eqb_spec (get_description (fd_word s1 newfd)) 0) as [Hz|Hz].
  - eapply fd_inv_dup_into; [done|by right|lia|done|lia|congruence].
  - pose proof (close_word newfd s1 newfd ltac:(lia) ltac:(lia)) as Hcn.
    pose proof (close_word newfd s1 oldfd ltac:(lia) ltac:(lia)) as Hco.
    rewrite Z.eqb_refl in Hcn. rewrite (proj2 (Z.eqb_neq oldfd newfd)) in Hco by done.
    eapply fd_inv_dup_into; rewrite ?close_size.
    + apply fd_inv_close; [done|lia|done].
    + by right.
    + lia.
    + by rewrite Hcn.
    + lia.
    + rewrite Hco. congruence.
Qed.

Lemma fcntl_inv ext fd cmd arg s r s' :
  fd_inv ext s -> fcntl_impl fd cmd arg s = Some (r, s') -> fd_inv ext s'.
Proof.
  intros Hinv H. unfold fcntl_impl in H.
  destruct (_ || _) eqn:E1; [by simplify_eq|]. zbool.
  destruct (_ =? 0) eqn:E2 in H; [by simplify_eq|]. zbool.
  destruct (descriptions s !! _) as [d|] eqn:Hd; [|done].
  destruct (_ || _) in H.
  { destruct (allocate_fdnum (i32 arg) s) as [newfd s1] eqn:Ha. simplify_eq.
    destruct (allocate_fdnum_shape _ _ _ _ _ Hinv Ha) as (Hn & Hz & Htab & Hds & _ & _ & Hh).
    assert (fd_word s1 fd = fd_word s fd /\ fd < fd_size s1) as [Hw Hs].
    { unfold fd_word, fd_size in *. destruct Htab as [-> | ->]; [by split; [|lia]|].
      rewrite lookup_app_l, length_app by lia. split; [done|lia]. }
    eapply fd_inv_dup_into; [done|by left|done|done|lia|congruence]. }
  destruct (cmd =? F_GETFD) in H; [by simplify_eq|].
  destruct (cmd =? F_SETFD) in H.
  { simplify_eq. eapply fd_inv_reflag; [done|apply fd_word_lookup; lia|apply get_set_flags]. }
  destruct (cmd =? F_GETFL) in H; [by simplify_eq|].
  destruct (cmd =? F_SETFL) in H.
  { simplify_eq. by eapply fd_inv_update. }
  repeat (case_match; simplify_eq; try done).
  destruct Hinv. constructor; simpl; auto.
Qed.

(** ** The descriptor system calls as one transition system *)
Inductive fd_op : Type :=
| OpClose (fd : Z)
| OpCloseRange (first last fl : Z)
| OpFcntl (fd cmd arg : Z)
| OpDup (oldfd : Z)
| OpDup2 (oldfd newfd : Z)
| OpDup3 (oldfd newfd fl : Z)
| OpInstall (p vn fl : Z) (cloexec : bool).

Definition fd_run (op : fd_op) (s : FdState) : option (Z * FdState) :=
  match op with
  | OpClose fd => Some (syscall_close fd s)
  | OpCloseRange a b fl => syscall_close_range a b fl s
  | OpFcntl fd cmd arg => fcntl_impl fd cmd arg s
  | OpDup fd => syscall_dup fd s
  | OpDup2 a b => Some (syscall_dup2 a b s)
  | OpDup3 a b fl => Some (syscall_dup3 a b fl s)
  | OpInstall p vn fl c => Some (install_fd p vn fl c s)
  end.

(** What the callers guarantee: unsigned range bounds on a table that is not
    empty, and a fresh, aligned address for a new description. *)
Definition fd_op_ok (ext : Z -> Z) (op : fd_op) (s : FdState) : Prop :=
  match op with
  | OpCloseRange a _ _ => 0 <= a /\ fd_size s <> 0
  | OpInstall p _ _ _ => is_addr p /\ descriptions s !! p = None /\ ext p = 0
  | _ => True
  end.

Lemma install_inv ext p vn fl c s fd s' :
  fd_inv ext s -> is_addr p -> descriptions s !! p = None -> ext p = 0 ->
  install_fd p vn fl c s = (fd, s') -> fd_inv ext s'.
Proof.
  intros Hinv Hp Hnone Hext H. unfold install_fd in H.
  destruct (allocate_fdnum 0 s) as [fd0 s1] eqn:Ha. simplify_eq.
  destruct (allocate_fdnum_shape _ _ _ _ _ Hinv Ha) as (Hn & Hz & Htab & Hds & _ & _ & Hh).
  destruct Hh. pose proof (fd_word_lookup s1 fd Hn) as Hlk.
  assert (Hfresh : occ p (file_descriptors s1) = 0).
  { destruct (decide (occ p (file_descriptors s1) = 0)) as [|Hne]; [done|].
    unfold occ in Hne. destruct (filter _ (file_descriptors s1)) as [|w l] eqn:Hf; [done|].
    assert (w ∈ filter (fun w => get_description w = p) (file_descriptors s1)) as Hw
      by (rewrite Hf; by left).
    apply list_elem_of_filter in Hw as [Hw Hin]. destruct Hp as [Hp _].
    destruct (fi_live0 w Hin) as [d Hd]; [lia|]. rewrite Hw, Hds, Hnone in Hd. done. }
  pose proof (get_init p c Hp) as Hg. destruct Hp as [Hp0 Hp].
  set (w := FileDescriptor_init p (if c then FD_CLOEXEC else 0)) in *.
  clearbody w. constructor; simpl; auto.
  - intros v Hv Hnz. rewrite lookup_insert. case_decide as Hpv; [eauto|].
    apply list_elem_of_lookup in Hv as [j Hj].
    apply list_lookup_insert_Some in Hj as [(_ & <- & _)|[_ Hj]]; [congruence|].
    apply fi_live0; [|done]. by eapply list_elem_of_lookup_2.
  - intros q e. rewrite (occ_insert q _ _ _ w Hlk), Hz, Hg, lookup_insert.
    case_decide as Hpq; intros He; simplify_eq/=.
    + rewrite decide_False by lia. lia.
    + destruct (fi_refs0 q e He). destruct (fi_addr0 q) as [Hq _]; [eauto|].
      rewrite decide_False by lia. lia.
  - intros q. rewrite lookup_insert. case_decide; [intros; subst; done|eauto].
  - unfold fd_size in *; simpl. by rewrite length_insert.
  - intros j v Hj _ Hv. apply list_lookup_insert_Some in Hv as [(<- & <- & _)|[Hne Hv]].
    + rewrite Hg. lia.
    + apply (fi_used0 j); [done|lia|done].
Qed.

(** A description installed is found under its number; the others stay. *)
Lemma install_lookup ext p vn fl c s fd s' :
  fd_inv ext s -> is_addr p -> install_fd p vn fl c s = (fd, s') ->
  get_file_description fd s' = p /\ 0 <= fd /\
  descriptions s' = <[p := mkDescription vn 0 fl 1]> (descriptions s) /\ closed s' = closed s /\
  (forall fd', get_file_description fd' s <> 0 ->
     fd' <> fd /\ get_file_description fd' s' = get_file_description fd' s).
Proof.
  intros Hinv Hp H. unfold install_fd in H.
  destruct (allocate_fdnum 0 s) as [fd0 s1] eqn:Ha. injection H as <- <-.
  destruct (allocate_fdnum_shape _ _ _ _ _ Hinv Ha) as (Hn & Hz & Htab & Hds & Hcl & _).
  pose proof (get_init p c Hp) as Hg. set (w := FileDescriptor_init _ _) in *. clearbody w.
  set (s2 := set_table _ _). assert (fd_size s2 = fd_size s1) as Hsz.
  { unfold s2, fd_size. cbn. by rewrite length_insert. }
  assert (forall j, 0 <= j < fd_size s1 -> fd_word s2 j = if decide (j = fd0) then w else fd_word s1 j) as Hword.
  { intros j Hj. unfold s2, fd_word, fd_size in *. cbn. case_decide as E.
    - subst j. rewrite list_lookup_insert_eq by lia. done.
    - rewrite list_lookup_insert_ne by lia. done. }
  assert (forall j, fd_word s1 j = fd_word s j /\ fd_size s <= fd_size s1 <= fd_size s + 1) as Hold.
  { intros j. unfold fd_word, fd_size. destruct Htab as [-> | ->]; [split; [done|lia]|]. rewrite length_app. cbn. split; [|lia].
    destruct (decide (Z.to_nat j < length (file_descriptors s))%nat).
    - by rewrite lookup_app_l by lia.
    - rewrite (lookup_ge_None_2 (file_descriptors s)) by lia. rewrite lookup_app_r by lia.
      destruct (Z.to_nat j - length (file_descriptors s))%nat; done. }
  unfold get_file_description. rewrite Hsz. split.
  { destruct (Z.leb_spec (fd_size s1) fd0); [lia|]. destruct (Z.ltb_spec fd0 0); [lia|]. cbn [orb].
    rewrite Hword, decide_True by (done || lia). done. }
  split; [lia|]. split; [by unfold s2; cbn; rewrite Hds|]. split; [done|]. intros fd' Hne.
  destruct (Hold fd') as [Hw Hs]. destruct (Z.leb_spec (fd_size s) fd'); [by cbn in Hne|].
  destruct (Z.ltb_spec fd' 0); [by rewrite orb_true_r in Hne|]. cbn [orb] in *.
  destruct (Z.leb_spec (fd_size s1) fd'); [lia|]. cbn [orb].
  assert (fd' <> fd0) by (intros ->; congruence). split; [done|]. rewrite Hword, decide_False by (done || lia). by rewrite Hw.
Qed.

(** On a state that satisfies the invariant no system call meets a dead
    description. *)
Lemma fcntl_total ext fd cmd arg s :
  fd_inv ext s -> is_Some (fcntl_impl fd cmd arg s).
Proof.
  intros Hinv. unfold fcntl_impl. destruct (_ || _) eqn:E1; [eauto|]. zbool.
  destruct (Z.eqb_spec (get_description (fd_word s fd)) 0) as [|Hnz]; [eauto|].
  destruct (fi_live _ _ _ Hinv _ (fd_word_in s fd ltac:(lia)) Hnz) as [d ->].
  destruct (allocate_fdnum (i32 arg) s).
  repeat (case_match; eauto).
Qed.

Lemma fd_run_total ext op s :
  fd_inv ext s -> fd_op_ok ext op s -> is_Some (fd_run op s).
Proof.
  intros Hinv Hok. destruct op; simpl in *; eauto using fcntl_total.
  unfold syscall_close_range. repeat (case_match; eauto). zbool. lia.
Qed.

(** C2: every descriptor system call returns, and preserves the
    reference-counting invariant: each live description is counted once per
    descriptor that refers to it (plus the references held outside the table),
    no descriptor refers to a destroyed description, and every number below
    [first_free_fdnum] is in use. *)
Theorem fd_run_preserves ext op s :
  fd_inv ext s -> fd_op_ok ext op s ->
  exists r s', fd_run op s = Some (r, s') /\ fd_inv ext s'.
Proof.
  intros Hinv Hok. destruct (fd_run_total ext op s Hinv Hok) as [[r s'] H].
  exists r, s'. split; [done|]. destruct op; simpl in *.
  - unfold syscall_close in H. destruct (_ || _) eqn:E1; [by simplify_eq|].
    destruct (_ =? 0) eqn:E2 in H; [by simplify_eq|]. simplify_eq. zbool.
    by apply fd_inv_close.
  - unfold syscall_close_range in H. repeat (case_match; simplify_eq; try done); zbool.
    apply close_range_inv; [done|]. apply Forall_forall. intros fd Hfd.
    apply elem_of_seqZ in Hfd. lia.
  - by eapply fcntl_inv.
  - by eapply fcntl_inv.
  - eapply dup3_inv; [done|]. unfold syscall_dup2 in H. by injection H.
  - unfold syscall_dup3 in H. destruct (_ =? _); [by simplify_eq|].
    eapply dup3_inv; [done|]. by injection H.
  - destruct Hok as (? & ? & ?). eapply install_inv; eauto. by injection H.
Qed.

(** Two descriptors on one description, one on another, a hole at 2. *)
Definition fd_example : FdState :=
  mkFdState [16; 17; 0; 32] 3 2
    (<[16 := mkDescription 1 0 2 2]> (<[32 := mkDescription 2 0 0 1]> ∅)) [] ∅.

Lemma fd_example_inv : fd_inv (fun _ => 0) fd_example.
Proof.
  constructor; simpl; try lia.
  - intros w Hw Hnz. apply list_elem_of_lookup in Hw as [[|[|[|[|i]]]] Hw]; simplify_eq/=;
      vm_compute in Hnz; vm_compute; eauto; done.
  - intros p d Hd. apply lookup_insert_Some in Hd as [[<- <-]|[_ Hd]]; [by vm_compute|].
    apply lookup_insert_Some in Hd as [[<- <-]|[_ Hd]]; [by vm_compute|]. by rewrite lookup_empty in Hd.
  - intros p [d Hd]. apply lookup_insert_Some in Hd as [[<- <-]|[_ Hd]]; [by split|].
    apply lookup_insert_Some in Hd as [[<- <-]|[_ Hd]]; [by split|]. by rewrite lookup_empty in Hd.
  - unfold fd_size; simpl; lia.
  - intros i w Hi _ Hw. destruct i as [|[|i]]; simplify_eq/=; [by vm_compute| by vm_compute|lia].
Qed.

Lemma fd_run_preserves_witness :
  exists r s', fd_run (OpDup2 3 0) fd_example = Some (r, s') /\ fd_inv (fun _ => 0) s'.
Proof. apply (fd_run_preserves (fun _ => 0) (OpDup2 3 0)); [apply fd_example_inv|exact I]. Defined.

(** a descriptor number allocated with a lower bound inside the table is
    the lowest free number at or above the bound. *)
Theorem allocate_fdnum_lowest ext m s fd s1 :
  fd_inv ext s -> 0 <= m <= fd_size s -> allocate_fdnum m s = (fd, s1) ->
  m <= fd <= fd_size s /\ get_description (fd_word s fd) = 0 /\
  forall i, m <= i < fd -> get_description (fd_word s i) <> 0.
Proof.
  intros Hinv Hm Ha. unfold allocate_fdnum in Ha. pose proof (fi_range _ _ _ Hinv).
  set (begin := if _ <? _ then _ else m) in Ha.
  assert (Hb : begin = Z.max m (first_free_fdnum s))
    by (unfold begin; destruct (Z.ltb_spec m (first_free_fdnum s)); lia).
  assert (Hlow : forall i, m <= i < first_free_fdnum s -> get_description (fd_word s i) <> 0).
  { intros i Hi. apply (fi_used _ _ _ Hinv (Z.to_nat i)); [lia|lia|].
    apply fd_word_lookup. lia. }
  destruct (list_find _ _) as [[k w]|] eqn:Hf; injection Ha as <- _.
  - apply list_find_Some in Hf as (Hk & Hw & Hmin). rewrite lookup_drop in Hk.
    pose proof (lookup_lt_Some _ _ _ Hk). unfold fd_size in *.
    split; [lia|]. split.
    + unfold fd_word. replace (Z.to_nat (begin + Z.of_nat k)) with (Z.to_nat begin + k)%nat by lia.
      by rewrite Hk.
    + intros i Hi. destruct (Z.ltb_spec i (first_free_fdnum s)); [apply Hlow; lia|].
      apply (Hmin (Z.to_nat i - Z.to_nat begin)%nat); [|lia]. rewrite lookup_drop.
      replace (Z.to_nat begin + (Z.to_nat i - Z.to_nat begin))%nat with (Z.to_nat i) by lia.
      apply fd_word_lookup. unfold fd_size. lia.
  - apply list_find_None in Hf. rewrite Forall_lookup in Hf. split; [lia|]. split.
    + unfold fd_word, fd_size. rewrite Nat2Z.id, lookup_ge_None_2 by lia. done.
    + intros i Hi. destruct (Z.ltb_spec i (first_free_fdnum s)); [apply Hlow; lia|].
      apply (Hf (Z.to_nat i - Z.to_nat begin)%nat). rewrite lookup_drop.
      replace (Z.to_nat begin + (Z.to_nat i - Z.to_nat begin))%nat with (Z.to_nat i) by lia.
      apply fd_word_lookup. lia.
Qed.

Lemma allocate_fdnum_lowest_witness :
  1 <= 2 <= fd_size fd_example /\ get_description (fd_word fd_example 2) = 0 /\
  forall i, 1 <= i < 2 -> get_description (fd_word fd_example i) <> 0.
Proof.
  eapply (allocate_fdnum_lowest (fun _ => 0) 1 fd_example 2).
  - apply fd_example_inv.
  - unfold fd_size; simpl; lia.
  - reflexivity.
Defined.

(** with a lower bound beyond the table [F_DUPFD] returns the table's
    size, which is below the bound the caller asked for. *)
Theorem fcntl_dupfd_below_bound ext fd arg s :
  fd_inv ext s -> fd_size s < arg < 2147483648 ->
  0 <= fd < fd_size s -> get_description (fd_word s fd) <> 0 ->
  exists s', fcntl_impl fd F_DUPFD arg s = Some (fd_size s, s') /\ fd_size s < arg.
Proof.
  intros Hinv Harg Hfd Hnz. unfold fcntl_impl.
  destruct (fi_live _ _ _ Hinv _ (fd_word_in s fd Hfd) Hnz) as [d ->].
  destruct (Z.leb_spec (fd_size s) fd); [lia|]. destruct (Z.ltb_spec fd 0); [lia|].
  destruct (Z.eqb_spec (get_description (fd_word s fd)) 0); [done|].
  rewrite (sN_small 32) by lia. pose proof (fi_range _ _ _ Hinv).
  cbn [orb Z.eqb F_DUPFD]. unfold allocate_fdnum.
  destruct (Z.ltb_spec arg (first_free_fdnum s)); [lia|].
  rewrite drop_ge by (unfold fd_size in *; lia). simpl. eexists. split; [reflexivity|lia].
Qed.

Lemma fcntl_dupfd_below_bound_witness :
  exists s', fcntl_impl 0 F_DUPFD 10 fd_example = Some (4, s') /\ 4 < 10.
Proof.
  apply (fcntl_dupfd_below_bound (fun _ => 0)).
  - apply fd_example_inv.
  - unfold fd_size; simpl; lia.
  - unfold fd_size; simpl; lia.
  - by vm_compute.
Defined.

(** ** Closing every descriptor *)

(** The vnodes of the descriptions that are alive. *)
Definition live_vnodes (s : FdState) : list Z := (map_to_list (vnode <$> descriptions s)).*2.

Lemma decrement_vnodes p s :
  closed (decrement_ref_count p s) ++ live_vnodes (decrement_ref_count p s)
  ≡ₚ closed s ++ live_vnodes s.
Proof.
  unfold decrement_ref_count, live_vnodes. destruct (descriptions s !! p) as [d|] eqn:Hd; [|done].
  destruct (Z.eqb_spec (ref_count d - 1) 0); simpl.
  - rewrite fmap_delete, <- app_assoc. simpl. f_equiv.
    rewrite <- (map_to_list_delete (vnode <$> descriptions s) p (vnode d)); [done|].
    by rewrite lookup_fmap, Hd.
  - rewrite fmap_insert. simpl. by rewrite insert_id by (by rewrite lookup_fmap, Hd).
Qed.

Lemma close_vnodes fd s :
  closed (FileDescriptor_close fd s) ++ live_vnodes (FileDescriptor_close fd s)
  ≡ₚ closed s ++ live_vnodes s.
Proof. apply (decrement_vnodes (get_description (fd_word s fd)) s). Qed.

Lemma close_range_one_0 fd s :
  0 <= fd < fd_size s ->
  fd_size (close_range_one 0 fd s) = fd_size s /\
  get_description (fd_word (close_range_one 0 fd s) fd) = 0 /\
  (forall i, 0 <= i -> get_description (fd_word s i) = 0 ->
     get_description (fd_word (close_range_one 0 fd s) i) = 0) /\
  closed (close_range_one 0 fd s) ++ live_vnodes (close_range_one 0 fd s)
  ≡ₚ closed s ++ live_vnodes s.
Proof.
  intros Hfd. unfold close_range_one.
  destruct (Z.eqb_spec (get_description (fd_word s fd)) 0); [done|].
  change (has 0 CLOSE_RANGE_CLOEXEC) with false. cbn match.
  rewrite close_size. split; [done|]. split; [|split].
  - by rewrite close_word, Z.eqb_refl by lia.
  - intros i Hi Hz. rewrite close_word by lia. by destruct (i =? fd).
  - apply close_vnodes.
Qed.

Lemma close_fold_all n s k :
  0 <= k -> k + Z.of_nat n = fd_size s ->
  (forall i, 0 <= i < k -> get_description (fd_word s i) = 0) ->
  let s' := fold_left (fun s fd => close_range_one 0 fd s) (seqZ k (Z.of_nat n)) s in
  fd_size s' = fd_size s /\
  (forall i, 0 <= i < fd_size s -> get_description (fd_word s' i) = 0) /\
  closed s' ++ live_vnodes s' ≡ₚ closed s ++ live_vnodes s.
Proof.
  revert s k. induction n as [|n IH]; intros s k Hk Hsz Hz.
  - simpl. split; [done|]. split; [|done]. intros. apply Hz. lia.
  - rewrite seqZ_cons by lia. replace (Z.pred (Z.of_nat (S n))) with (Z.of_nat n) by lia.
    simpl. destruct (close_range_one_0 k s ltac:(lia)) as (Hs & Hc & Hkeep & Hp).
    destruct (IH (close_range_one 0 k s) (Z.succ k)) as (IH1 & IH2 & IH3); [lia|lia| |].
    + intros i Hi. destruct (Z.eq_dec i k) as [->|]; [done|]. apply Hkeep; [lia|]. apply Hz. lia.
    + rewrite Hs in *. split; [done|]. split; [done|]. by rewrite IH3.
Qed.

(** closing the whole range of a table whose descriptions are referenced
    by nothing else leaves no description alive, and the vnode of each is closed
    exactly once. *)
Theorem close_range_all_releases s :
  fd_inv (fun _ => 0) s -> 0 < fd_size s <= 4294967296 ->
  exists s', syscall_close_range 0 4294967295 0 s = Some (0, s') /\
    descriptions s' = ∅ /\ closed s' ≡ₚ closed s ++ live_vnodes s.
Proof.
  intros Hinv Hsz. unfold syscall_close_range. cbn [negb Z.land Z.eqb Z.ltb Z.compare].
  destruct (Z.eqb_spec (fd_size s) 0); [lia|].
  rewrite Z.min_r by lia. replace (fd_size s - 1 - 0 + 1) with (Z.of_nat (Z.to_nat (fd_size s))) by lia.
  eexists. split; [reflexivity|].
  destruct (close_fold_all (Z.to_nat (fd_size s)) s 0) as (H1 & H2 & H3); [lia|lia|lia|].
  pose proof (close_range_inv (fun _ => 0) 0 (seqZ 0 (Z.of_nat (Z.to_nat (fd_size s)))) s Hinv) as Hi.
  set (s' := fold_left _ _ s) in *. destruct Hi as [_ Hrefs Haddr _ _ _].
  { apply Forall_forall. intros fd Hfd%elem_of_seqZ. lia. }
  assert (Hemp : descriptions s' = ∅).
  { apply map_eq. intros p. rewrite lookup_empty. destruct (descriptions s' !! p) as [d|] eqn:Hd; [|done].
    exfalso. destruct (Hrefs p d Hd) as [Hr Hpos]. destruct (Haddr p) as [Hp _]; [eauto|].
    assert (occ p (file_descriptors s') <> 0) as Hocc by lia. unfold occ in Hocc.
    destruct (filter _ _) as [|w l] eqn:Hf; [done|].
    assert (w ∈ filter (fun w => get_description w = p) (file_descriptors s')) as Hw
      by (rewrite Hf; by left).
    apply list_elem_of_filter in Hw as [Hw Hin]. apply list_elem_of_lookup in Hin as [j Hj].
    pose proof (lookup_lt_Some _ _ _ Hj). unfold fd_size in *.
    specialize (H2 (Z.of_nat j)). unfold fd_word in H2. rewrite Nat2Z.id, Hj in H2. simpl in H2. lia. }
  split; [done|]. revert H3. unfold live_vnodes at 1. rewrite Hemp, fmap_empty, map_to_list_empty.
  simpl. by rewrite app_nil_r.
Qed.

Lemma close_range_all_releases_witness :
  exists s', syscall_close_range 0 4294967295 0 fd_example = Some (0, s') /\
    descriptions s' = ∅ /\ closed s' ≡ₚ closed fd_example ++ live_vnodes fd_example.
Proof.
  apply (close_range_all_releases fd_example); [apply fd_example_inv|unfold fd_size; simpl; lia].
Defined.
