(* ===== verification/Signal.v ===== *)
(** Signals (src/kernel/src/userland/signal.cpp, the signal fields of
    sched::Thread, src/kernel/src/sched/context.cpp and the end of
    src/kernel/src/cpu/syscall/syscall.cpp): masks and dispositions, selection
    of a pending signal, the frame built for a handler and the return from it. *)
From S2P Require Import Prelude.

Definition SIGHUP : Z := 1.
Definition SIGINT : Z := 2.
Definition SIGQUIT : Z := 3.
Definition SIGKILL : Z := 9.
Definition SIGSEGV : Z := 11.
Definition SIGPIPE : Z := 13.
Definition SIGALRM : Z := 14.
Definition SIGCHLD : Z := 17.
Definition SIGCONT : Z := 18.
Definition SIGSTOP : Z := 19.
Definition SIGTSTP : Z := 20.
Definition SIGWINCH : Z := 28.

Definition SIG_DFL : Z := 0.
Definition SIG_IGN : Z := 1.
Definition SA_NOCLDSTOP : Z := 1.
Definition SA_ONSTACK : Z := 134217728.
Definition SA_RESTART : Z := 268435456.
Definition SA_NODEFER : Z := 1073741824.
Definition SA_RESETHAND : Z := 2147483648.
Definition SS_ONSTACK : Z := 1.
Definition SS_DISABLE : Z := 2.
Definition SS_AUTODISARM : Z := 2147483648.
Definition SIG_BLOCK : Z := 0.
Definition SIG_UNBLOCK : Z := 1.
Definition SIG_SETMASK : Z := 2.
Definition SEGV_MAPERR : Z := 1.
Definition SEGV_ACCERR : Z := 2.
Definition SI_TKILL : Z := -6.

(** [get_signal_bit] for 1 <= signal <= 64. *)
Definition get_signal_bit (signal : Z) : Z := u64 (Z.shiftl 1 (signal - 1)).

Inductive SignalDefault : Type := IGNORE | TERMINATE | CORE | CONTINUE | STOP.

Definition signal_default_action (signal : Z) : SignalDefault :=
  if bool_decide (signal ∈ [SIGCHLD; 23 (* SIGURG *); SIGWINCH]) then IGNORE
  else if signal =? SIGCONT then CONTINUE
  else if bool_decide (signal ∈ [SIGSTOP; SIGTSTP; 21 (* SIGTTIN *); 22 (* SIGTTOU *)]) then STOP
  else if bool_decide (signal ∈ [SIGALRM; SIGHUP; SIGINT; 29 (* SIGIO *); SIGKILL; SIGPIPE;
      27 (* SIGPROF *); 30 (* SIGPWR *); 16 (* SIGSTKFLT *); 15 (* SIGTERM *);
      10 (* SIGUSR1 *); 12 (* SIGUSR2 *); 26 (* SIGVTALRM *)]) then TERMINATE
  else CORE.

(** The saved registers of a thread. *)
Record InterruptState : Type := mkRegs {
  ds : Z; es : Z;
  r15 : Z; r14 : Z; r13 : Z; r12 : Z; r11 : Z; r10 : Z; r9 : Z; r8 : Z;
  rbp : Z; rdi : Z; rsi : Z; rdx : Z; rcx : Z; rbx : Z; rax : Z;
  err : Z; rip : Z; cs : Z; rflags : Z; rsp : Z; ss : Z
}.

Record KernelSigaction : Type := mkAction {
  sa_handler : Z;
  sa_flags : Z;
  sa_restorer : Z;
  sa_mask : Z
}.

Record stack_t : Type := mkStack { ss_sp : Z; ss_flags : Z; ss_size : Z }.

(** The part of [sigcontext] the kernel copies, with the FPU image it points
    to. *)
Record sigcontext : Type := mkContext {
  uc_r15 : Z; uc_r14 : Z; uc_r13 : Z; uc_r12 : Z; uc_r11 : Z; uc_r10 : Z; uc_r9 : Z; uc_r8 : Z;
  uc_rbp : Z; uc_rdi : Z; uc_rsi : Z; uc_rdx : Z; uc_rcx : Z; uc_rbx : Z; uc_rax : Z;
  uc_rip : Z; uc_rsp : Z; uc_eflags : Z;
  fpstate : Z;
  fpimage : list Z
}.

Record SignalFrame : Type := mkFrame {
  fr_addr : Z;
  fr_restorer : Z;
  fr_mcontext : sigcontext;
  fr_sigmask : Z;
  si_signo : Z; si_errno : Z; si_code : Z; si_addr : Z; si_pid : Z
}.

(** The signal part of [sched::Thread], with the action table of its process. *)
Record Thread : Type := mkThread {
  gpr_state : InterruptState;
  extended_state : list Z;
  signal_alt_stack : stack_t;
  signal_mask : Z;
  pending_signals : Z;
  enqueued_by_signal : Z;
  entering_signal : bool;
  exiting_signal : bool;
  signal_frame : option SignalFrame;
  poll_saved_signal_mask : Z;
  has_poll_saved_signal_mask : bool;
  last_syscall_num : Z;
  last_syscall_rip : Z;
  last_syscall_ret : Z;
  signal_actions : list KernelSigaction
}.

Definition has_pending_signals (t : Thread) : bool :=
  negb (Z.ldiff (pending_signals t) (signal_mask t) =? 0).

(** *** Record updates *)
Definition set_mask (m : Z) (t : Thread) : Thread :=
  mkThread (gpr_state t) (extended_state t) (signal_alt_stack t) m (pending_signals t)
    (enqueued_by_signal t) (entering_signal t) (exiting_signal t) (signal_frame t)
    (poll_saved_signal_mask t) (has_poll_saved_signal_mask t) (last_syscall_num t)
    (last_syscall_rip t) (last_syscall_ret t) (signal_actions t).
Definition set_pending (p : Z) (t : Thread) : Thread :=
  mkThread (gpr_state t) (extended_state t) (signal_alt_stack t) (signal_mask t) p
    (enqueued_by_signal t) (entering_signal t) (exiting_signal t) (signal_frame t)
    (poll_saved_signal_mask t) (has_poll_saved_signal_mask t) (last_syscall_num t)
    (last_syscall_rip t) (last_syscall_ret t) (signal_actions t).
Definition set_entry (enq : Z) (entering exiting : bool) (fr : option SignalFrame) (t : Thread) : Thread :=
  mkThread (gpr_state t) (extended_state t) (signal_alt_stack t) (signal_mask t) (pending_signals t)
    enq entering exiting fr
    (poll_saved_signal_mask t) (has_poll_saved_signal_mask t) (last_syscall_num t)
    (last_syscall_rip t) (last_syscall_ret t) (signal_actions t).
Definition set_poll_saved (m : Z) (h : bool) (t : Thread) : Thread :=
  mkThread (gpr_state t) (extended_state t) (signal_alt_stack t) (signal_mask t) (pending_signals t)
    (enqueued_by_signal t) (entering_signal t) (exiting_signal t) (signal_frame t)
    m h (last_syscall_num t)
    (last_syscall_rip t) (last_syscall_ret t) (signal_actions t).
Definition set_regs (r : InterruptState) (t : Thread) : Thread :=
  mkThread r (extended_state t) (signal_alt_stack t) (signal_mask t) (pending_signals t)
    (enqueued_by_signal t) (entering_signal t) (exiting_signal t) (signal_frame t)
    (poll_saved_signal_mask t) (has_poll_saved_signal_mask t) (last_syscall_num t)
    (last_syscall_rip t) (last_syscall_ret t) (signal_actions t).
Definition set_actions (a : list KernelSigaction) (t : Thread) : Thread :=
  mkThread (gpr_state t) (extended_state t) (signal_alt_stack t) (signal_mask t) (pending_signals t)
    (enqueued_by_signal t) (entering_signal t) (exiting_signal t) (signal_frame t)
    (poll_saved_signal_mask t) (has_poll_saved_signal_mask t) (last_syscall_num t)
    (last_syscall_rip t) (last_syscall_ret t) a.
Definition set_alt_stack (a : stack_t) (t : Thread) : Thread :=
  mkThread (gpr_state t) (extended_state t) a (signal_mask t) (pending_signals t)
    (enqueued_by_signal t) (entering_signal t) (exiting_signal t) (signal_frame t)
    (poll_saved_signal_mask t) (has_poll_saved_signal_mask t) (last_syscall_num t)
    (last_syscall_rip t) (last_syscall_ret t) (signal_actions t).
Definition set_fpu (f : list Z) (t : Thread) : Thread :=
  mkThread (gpr_state t) f (signal_alt_stack t) (signal_mask t) (pending_signals t)
    (enqueued_by_signal t) (entering_signal t) (exiting_signal t) (signal_frame t)
    (poll_saved_signal_mask t) (has_poll_saved_signal_mask t) (last_syscall_num t)
    (last_syscall_rip t) (last_syscall_ret t) (signal_actions t).
Definition set_last_syscall (num ip ret : Z) (t : Thread) : Thread :=
  mkThread (gpr_state t) (extended_state t) (signal_alt_stack t) (signal_mask t) (pending_signals t)
    (enqueued_by_signal t) (entering_signal t) (exiting_signal t) (signal_frame t)
    (poll_saved_signal_mask t) (has_poll_saved_signal_mask t) num ip ret (signal_actions t).

(** ** sched/context.cpp *)
Definition to_ucontext (st : InterruptState) (extended : list Z) (fp : Z) : sigcontext :=
  mkContext (r15 st) (r14 st) (r13 st) (r12 st) (r11 st) (r10 st) (r9 st) (r8 st)
    (rbp st) (rdi st) (rsi st) (rdx st) (rcx st) (rbx st) (rax st)
    (rip st) (rsp st) (rflags st) fp extended.

Definition from_ucontext (st : InterruptState) (c : sigcontext) : InterruptState * list Z :=
  (mkRegs (ds st) (es st) (uc_r15 c) (uc_r14 c) (uc_r13 c) (uc_r12 c) (uc_r11 c) (uc_r10 c)
     (uc_r9 c) (uc_r8 c) (uc_rbp c) (uc_rdi c) (uc_rsi c) (uc_rdx c) (uc_rcx c) (uc_rbx c)
     (uc_rax c) (err st) (uc_rip c) (cs st) (uc_eflags c) (uc_rsp c) (ss st),
   fpimage c).

Definition set_rip_rax (ip ax : Z) (st : InterruptState) : InterruptState :=
  mkRegs (ds st) (es st) (r15 st) (r14 st) (r13 st) (r12 st) (r11 st) (r10 st) (r9 st) (r8 st)
    (rbp st) (rdi st) (rsi st) (rdx st) (rcx st) (rbx st) ax (err st) ip (cs st) (rflags st)
    (rsp st) (ss st).
Definition set_rsp (sp : Z) (st : InterruptState) : InterruptState :=
  mkRegs (ds st) (es st) (r15 st) (r14 st) (r13 st) (r12 st) (r11 st) (r10 st) (r9 st) (r8 st)
    (rbp st) (rdi st) (rsi st) (rdx st) (rcx st) (rbx st) (rax st) (err st) (rip st) (cs st)
    (rflags st) sp (ss st).
(** The entry state of a handler: three arguments, cleared result and flags. *)
Definition enter_handler (handler a1 a2 a3 : Z) (st : InterruptState) : InterruptState :=
  mkRegs (ds st) (es st) (r15 st) (r14 st) (r13 st) (r12 st) (r11 st) (r10 st) (r9 st) (r8 st)
    (rbp st) a1 a2 a3 (rcx st) (rbx st) 0 (err st) handler (cs st)
    (Z.ldiff (Z.ldiff (Z.ldiff (rflags st) 256) 1024) 65536) (rsp st) (ss st).

(** What a dispatch asks of the scheduler, or the frame it wrote. *)
Inductive dispatch_effect : Type :=
| NoEffect
| TerminateProcess (signal : Z)
| DequeueThread (signal : Z)
| Deliver (frame : SignalFrame).

(** The signal selected: the lowest bit set. *)
Definition first_signal (accepted : Z) : option Z :=
  match list_find (fun i => Z.land (Z.shiftr accepted i) 1 <> 0) (seqZ 0 64) with
  | Some (_, i) => Some (i + 1)
  | None => None
  end.

Section Dispatch.
(** Sizes of the FPU save area and of [SignalFrame], and offsets of its
    [siginfo] and [ucontext] members (ABI headers); the fault address and the
    process id read at dispatch. *)
Context (extended_state_size sizeof_SignalFrame offset_siginfo offset_ucontext : Z).

(** The frame's address below the stack pointer [sp0]. *)
Definition frame_address (sp0 : Z) : Z :=
  let sp1 := u64 (sp0 - extended_state_size) in
  let sp2 := align_down sp1 64 in
  let sp3 := u64 (sp2 - sizeof_SignalFrame) in
  u64 (align_down sp3 16 - 8).

Definition build_frame (cr2 pid signal : Z) (a : KernelSigaction) (sp0 : Z) (t : Thread)
    : SignalFrame :=
  let st := gpr_state t in
  let frame := frame_address sp0 in
  let fp := align_up (u64 (frame + sizeof_SignalFrame)) 64 in
  mkFrame frame (sa_restorer a)
    (to_ucontext st (extended_state t) fp) (signal_mask t)
    signal
    (if signal =? SIGSEGV then EFAULT else 0)
    (if signal =? SIGSEGV then (if has (err st) 1 then SEGV_ACCERR else SEGV_MAPERR)
     else if signal =? 33 then SI_TKILL else 0)
    (if signal =? SIGSEGV then cr2 else 0)
    (if (signal =? 33) && negb (signal =? SIGSEGV) then pid else 0).

(** The restart of an interrupted system call. *)
Definition restart_syscall (a : KernelSigaction) (t : Thread) : Thread :=
  let st := gpr_state t in
  if has (sa_flags a) SA_RESTART && (last_syscall_ret t =? - EINTR) &&
     (rip st =? last_syscall_rip t)
  then set_regs (set_rip_rax (u64 (rip st - 2)) (last_syscall_num t) st) t
  else t.

(** The delivery of [signal] to its handler. *)
Definition deliver (cr2 pid signal : Z) (a : KernelSigaction) (t : Thread) : Thread * SignalFrame :=
  let t1 := if has (sa_flags a) SA_RESETHAND
            then set_actions (<[Z.to_nat signal :=
                   mkAction SIG_DFL (sa_flags a) (sa_restorer a) (sa_mask a)]> (signal_actions t)) t
            else t in
  let alt := signal_alt_stack t1 in
  let use_alt := has (sa_flags a) SA_ONSTACK && negb (has (ss_flags alt) SS_DISABLE) in
  let sp0 := if use_alt then u64 (ss_sp alt + ss_size alt) else u64 (rsp (gpr_state t1) - 128) in
  let t2 := if use_alt
            then set_alt_stack (mkStack (ss_sp alt) (Z.lor (ss_flags alt) SS_ONSTACK) (ss_size alt)) t1
            else t1 in
  let frame := build_frame cr2 pid signal a sp0 t2 in
  let handler := if has (sa_flags a) SA_RESETHAND then SIG_DFL else sa_handler a in
  let st := enter_handler handler signal (u64 (fr_addr frame + offset_siginfo))
              (u64 (fr_addr frame + offset_ucontext)) (set_rsp (fr_addr frame) (gpr_state t2)) in
  let m1 := Z.lor (signal_mask t2) (sa_mask a) in
  let m2 := if has (sa_flags a) SA_NODEFER then m1 else Z.lor m1 (get_signal_bit signal) in
  (set_mask m2 (set_regs st t2), frame).

Definition dispatch_pending_signal (cr2 pid : Z) (t0 : Thread) : option (Thread * dispatch_effect) :=
  let t := set_entry (-1) false (exiting_signal t0) (signal_frame t0) t0 in
  let accepted := Z.ldiff (pending_signals t) (signal_mask t) in
  if accepted =? 0 then Some (t, NoEffect) else
  match first_signal accepted with
  | None => None
  | Some signal =>
      let t1 := set_pending (Z.ldiff (pending_signals t) (get_signal_bit signal)) t in
      match signal_actions t1 !! Z.to_nat signal with
      | None => None
      | Some a =>
          let t2 := restart_syscall a t1 in
          if sa_handler a =? SIG_IGN then Some (t2, NoEffect)
          else if sa_handler a =? SIG_DFL then
            match signal_default_action signal with
            | IGNORE | CONTINUE => Some (t2, NoEffect)
            | TERMINATE | CORE => Some (t2, TerminateProcess signal)
            | STOP => Some (t2, DequeueThread signal)
            end
          else if sa_restorer a =? 0 then Some (t2, TerminateProcess signal)
          else
            let (t3, frame) := deliver cr2 pid signal a t2 in
            Some (t3, Deliver frame)
      end
  end.

(** [return_from_signal]: the frame is the one [syscall_rt_sigreturn] found on
    the user stack. *)
Definition return_from_signal (t : Thread) : option Thread :=
  match signal_frame t with
  | None => None
  | Some frame =>
      let alt := signal_alt_stack t in
      let t1 := set_entry (enqueued_by_signal t) (entering_signal t) false None t in
      let t2 := if has (ss_flags alt) SS_ONSTACK
                then set_alt_stack (mkStack (ss_sp alt) (Z.ldiff (ss_flags alt) SS_ONSTACK)
                       (ss_size alt)) t1
                else t1 in
      let (st, fpu) := from_ucontext (gpr_state t2) (fr_mcontext frame) in
      let t3 := set_mask (fr_sigmask frame) (set_fpu fpu (set_regs st t2)) in
      Some (if has_poll_saved_signal_mask t3
            then set_poll_saved (poll_saved_signal_mask t3) false
                   (set_mask (poll_saved_signal_mask t3) t3)
            else t3)
  end.

(** The body of rt_sigreturn up to its self-interrupt: the frame is read 8
    bytes below the user stack pointer. *)
Definition syscall_rt_sigreturn (user_frames : Z -> option SignalFrame) (user_stack : Z)
    (t : Thread) : option Thread :=
  if entering_signal t || exiting_signal t then None
  else Some (set_entry (enqueued_by_signal t) false true (user_frames (u64 (user_stack - 8))) t).

End Dispatch.

(** The end of [__syscall_handler], after the call returned [ret]. *)
Definition syscall_exit_path (ret : Z) (t : Thread) : Thread :=
  let t1 := if has_poll_saved_signal_mask t
            then set_poll_saved (poll_saved_signal_mask t) false
                   (set_mask (poll_saved_signal_mask t) t)
            else t in
  let t2 := set_last_syscall (last_syscall_num t1) (last_syscall_rip t1) ret t1 in
  if negb (exiting_signal t2) && negb (entering_signal t2) && has_pending_signals t2
  then set_entry (enqueued_by_signal t2) true (exiting_signal t2) (signal_frame t2) t2
  else t2.

(** The head of ppoll and epoll_pwait2 when a signal mask is given: [Some] of
    a result when the call returns at once. *)
Definition install_poll_mask (sigmask : option Z) (t : Thread) : option (option Z * Thread) :=
  match sigmask with
  | None => Some (None, t)
  | Some m =>
      if has_poll_saved_signal_mask t then None
      else
        let t1 := set_mask m (set_poll_saved (signal_mask t) true t) in
        Some (if has_pending_signals t1 then Some (- EINTR) else None, t1)
  end.

Definition syscall_rt_sigprocmask (how : Z) (set : option Z) (t : Thread) : Z * Z * Thread :=
  let old := signal_mask t in
  match set with
  | None => (0, old, t)
  | Some m =>
      if how =? SIG_BLOCK then (0, old, set_mask (Z.lor old m) t)
      else if how =? SIG_UNBLOCK then (0, old, set_mask (Z.ldiff old m) t)
      else if how =? SIG_SETMASK then (0, old, set_mask m t)
      else (- EINVAL, old, t)
  end.

Definition syscall_rt_sigaction (signum : Z) (act : option KernelSigaction) (t : Thread)
    : Z * option KernelSigaction * Thread :=
  if (signum <=? 0) || (64 <=? signum) || (signum =? SIGKILL) || (signum =? SIGSTOP)
  then (- EINVAL, None, t)
  else
    let old := signal_actions t !! Z.to_nat signum in
    match act with
    | None => (0, old, t)
    | Some a =>
        (0, old, set_actions (<[Z.to_nat signum :=
           mkAction (sa_handler a) (u32 (sa_flags a)) (sa_restorer a) (sa_mask a)]>
             (signal_actions t)) t)
    end.

Definition syscall_sigaltstack (new : option stack_t) (t : Thread) : Z * stack_t * Thread :=
  let old := signal_alt_stack t in
  match new with
  | None => (0, old, t)
  | Some s =>
      if has (ss_flags s) SS_AUTODISARM then (- EINVAL, old, t)
      else if ss_flags s =? SS_DISABLE then (0, old, set_alt_stack (mkStack 0 SS_DISABLE 0) t)
      else if ss_flags s =? 0 then (0, old, set_alt_stack s t)
      else (- EINVAL, old, t)
  end.

(** ** Selection of a signal *)

Lemma shiftr_land_1 x i : 0 <= i -> Z.land (Z.shiftr x i) 1 <> 0 <-> Z.testbit x i = true.
Proof.
  intros Hi. rewrite (Z.land_ones _ 1) by lia. change (2 ^ 1) with 2.
  rewrite <- Z.bit0_mod, Z.shiftr_spec, Z.add_0_l by lia. destruct (Z.testbit x i); simpl; lia.
Qed.

Lemma first_signal_spec x s :
  first_signal x = Some s ->
  1 <= s <= 64 /\ Z.testbit x (s - 1) = true /\
  forall i, 0 <= i < s - 1 -> Z.testbit x i = false.
Proof.
  unfold first_signal. destruct (list_find _ _) as [[k i]|] eqn:Hf; [|done].
  intros; simplify_eq. apply list_find_Some in Hf as (Hk & Hb & Hmin).
  apply lookup_seqZ in Hk as [-> Hk]. rewrite shiftr_land_1 in Hb by lia.
  replace (0 + Z.of_nat k + 1 - 1) with (0 + Z.of_nat k) by lia.
  split; [lia|]. split; [done|]. intros j Hj.
  destruct (Z.testbit x j) eqn:E; [|done]. exfalso.
  assert (seqZ 0 64 !! Z.to_nat j = Some j) as Hs by (apply lookup_seqZ; lia).
  apply (Hmin _ _ Hs); [lia|]. by apply shiftr_land_1; [lia|].
Qed.

Lemma first_signal_total x : 0 < x < 2 ^ 64 -> exists s, first_signal x = Some s.
Proof.
  intros Hx. unfold first_signal. destruct (list_find _ _) as [[k i]|] eqn:Hf; [eauto|].
  exfalso. apply list_find_None in Hf. rewrite Forall_lookup in Hf.
  assert (x = 0); [|lia]. apply Z.bits_inj'. intros n Hn. rewrite Z.bits_0.
  destruct (Z.testbit x n) eqn:E; [|done]. exfalso.
  destruct (Z_lt_le_dec n 64) as [Hlt|Hge].
  - apply (Hf (Z.to_nat n) n); [apply lookup_seqZ; lia|]. by apply shiftr_land_1.
  - rewrite Z.bits_above_log2 in E; [done|lia|].
    pose proof (Z.log2_lt_pow2 x 64 ltac:(lia)). lia.
Qed.

(** [get_signal_bit] is the single bit [signal - 1]. *)
Lemma get_signal_bit_spec s i :
  1 <= s <= 64 -> 0 <= i -> Z.testbit (get_signal_bit s) i = (i =? s - 1).
Proof.
  intros Hs Hi. unfold get_signal_bit, uN. rewrite Z.shiftl_1_l.
  rewrite Z.mod_small.
  - rewrite Z.pow2_bits_eqb by lia. apply Z.eqb_sym.
  - split; [lia|]. apply Z.pow_lt_mono_r; lia.
Qed.

(** The thread as a pending signal and a mask, with the table covering the
    signals the kernel accepts. *)
Record thread_wf (t : Thread) : Prop := {
  tw_pending : 0 <= pending_signals t < 2 ^ 63;
  tw_actions : length (signal_actions t) = 64%nat
}.

Lemma has_pending_spec t : has_pending_signals t = false <-> Z.ldiff (pending_signals t) (signal_mask t) = 0.
Proof. unfold has_pending_signals. rewrite negb_false_iff. apply Z.eqb_eq. Qed.

Lemma ldiff_range p m : 0 <= p -> 0 <= Z.ldiff p m <= p.
Proof.
  intros Hp. split; [apply Z.ldiff_nonneg; by left|].
  assert (Z.land p m + Z.ldiff p m = p) as H.
  { rewrite Z.add_nocarry_lxor.
    - apply Z.bits_inj'. intros n Hn. rewrite Z.lxor_spec, Z.land_spec, Z.ldiff_spec.
      by destruct (Z.testbit p n), (Z.testbit m n).
    - apply Z.bits_inj'. intros n Hn. rewrite Z.land_spec, Z.land_spec, Z.ldiff_spec, Z.bits_0.
      by destruct (Z.testbit p n), (Z.testbit m n). }
  assert (0 <= Z.land p m) by (apply Z.land_nonneg; by left). lia.
Qed.

Section DispatchProofs.
Context (E F osi ouc : Z).
Abbreviation dispatch := (dispatch_pending_signal E F osi ouc).

(** The thread after the bookkeeping common to every dispatch of [signal]. *)
Lemma dispatch_shape cr2 pid t :
  thread_wf t ->
  (Z.ldiff (pending_signals t) (signal_mask t) = 0 /\
   dispatch cr2 pid t
   = Some (set_entry (-1) false (exiting_signal t) (signal_frame t) t, NoEffect)) \/
  (exists s a t' e, first_signal (Z.ldiff (pending_signals t) (signal_mask t)) = Some s /\
     signal_actions t !! Z.to_nat s = Some a /\ 1 <= s <= 63 /\
     dispatch cr2 pid t = Some (t', e) /\
     pending_signals t' = Z.ldiff (pending_signals t) (get_signal_bit s) /\
     length (signal_actions t') = 64%nat /\ entering_signal t' = false /\
     match e with
     | NoEffect => True
     | TerminateProcess s' | DequeueThread s' => s' = s
     | Deliver f => si_signo f = s
     end).
Proof.
  intros [Hp Ha]. unfold dispatch_pending_signal.
  cbn [pending_signals signal_mask set_entry signal_actions set_pending].
  destruct (Z.eqb_spec (Z.ldiff (pending_signals t) (signal_mask t)) 0) as [Hz|Hz]; [by left|].
  right. pose proof (ldiff_range (pending_signals t) (signal_mask t) ltac:(lia)) as Hr.
  destruct (first_signal_total (Z.ldiff (pending_signals t) (signal_mask t))) as [s Hs]; [lia|].
  rewrite Hs. destruct (first_signal_spec _ _ Hs) as (Hrange & Hbit & _).
  assert (s <= 63) as Hs63.
  { destruct (Z_lt_le_dec 63 s); [|done]. exfalso. rewrite Z.ldiff_spec in Hbit.
    replace (s - 1) with 63 in Hbit by lia. rewrite Z.bits_above_log2 in Hbit; [done|lia|].
    destruct (Z.eq_dec (pending_signals t) 0) as [->|]; [simpl; lia|].
    apply Z.log2_lt_pow2; lia. }
  destruct (lookup_lt_is_Some_2 (signal_actions t) (Z.to_nat s)) as [a Ea]; [lia|].
  rewrite Ea. exists s, a.
  unfold restart_syscall, deliver.
  repeat case_match; simplify_eq/=; repeat eexists; eauto;
    try solve [cbn; rewrite ?length_insert; auto | lia].
Qed.

(** a dispatch never stops the kernel, and takes the lowest-numbered
    pending signal that is not blocked: the thread's other pending signals stay
    pending and a blocked signal is never taken. *)
Theorem dispatch_takes_lowest cr2 pid t :
  thread_wf t ->
  exists t' e, dispatch cr2 pid t = Some (t', e) /\
    (has_pending_signals t = false -> e = NoEffect /\ pending_signals t' = pending_signals t) /\
    (has_pending_signals t = true -> exists s, 1 <= s <= 63 /\
       Z.testbit (pending_signals t) (s - 1) = true /\ Z.testbit (signal_mask t) (s - 1) = false /\
       (forall i, 0 <= i < s - 1 ->
          Z.testbit (pending_signals t) i = false \/ Z.testbit (signal_mask t) i = true) /\
       (forall i, 0 <= i -> Z.testbit (pending_signals t') i
                            = (Z.testbit (pending_signals t) i && negb (i =? s - 1))%bool) /\
       match e with
       | NoEffect => True
       | TerminateProcess s' | DequeueThread s' => s' = s
       | Deliver f => si_signo f = s
       end).
Proof.
  intros Hwf. destruct (dispatch_shape cr2 pid t Hwf)
    as [[Hz ->]|(s & a & t' & e & Hs & Ha & Hr & -> & Hp & _ & _ & He)].
  - do 2 eexists. split; [reflexivity|]. split; [done|]. intros Hb.
    unfold has_pending_signals in Hb. by rewrite Hz in Hb.
  - exists t', e. split; [done|]. destruct (first_signal_spec _ _ Hs) as (H1 & H2 & H3).
    rewrite Z.ldiff_spec in H2. apply andb_prop in H2 as [H2 H2']. apply negb_true_iff in H2'. split.
    + intros Hn. apply has_pending_spec in Hn. by rewrite Hn in Hs.
    + intros _. exists s. split; [done|]. split; [done|]. split; [done|]. split; [|split; [|done]].
      * intros i Hi. specialize (H3 i Hi). rewrite Z.ldiff_spec in H3.
        destruct (Z.testbit (pending_signals t) i); [right|by left].
        by destruct (Z.testbit (signal_mask t) i).
      * intros i Hi. by rewrite Hp, Z.ldiff_spec, get_signal_bit_spec by lia.
Qed.

End DispatchProofs.

(** ** The handler's frame *)

(** The stack pointer the frame is built below. *)
Definition delivery_stack (a : KernelSigaction) (t : Thread) : Z :=
  let alt := signal_alt_stack t in
  if has (sa_flags a) SA_ONSTACK && negb (has (ss_flags alt) SS_DISABLE)
  then u64 (ss_sp alt + ss_size alt) else u64 (rsp (gpr_state t) - 128).

Lemma deliver_frame E F osi ouc cr2 pid s a t t' f :
  deliver E F osi ouc cr2 pid s a t = (t', f) ->
  fr_addr f = frame_address E F (delivery_stack a t) /\
  fpstate (fr_mcontext f) = align_up (u64 (fr_addr f + F)) 64 /\
  fr_sigmask f = signal_mask t /\ fr_restorer f = sa_restorer a /\
  fr_mcontext f = to_ucontext (gpr_state t) (extended_state t) (fpstate (fr_mcontext f)) /\
  rsp (gpr_state t') = fr_addr f /\
  rip (gpr_state t') = (if has (sa_flags a) SA_RESETHAND then SIG_DFL else sa_handler a).
Proof.
  unfold deliver, delivery_stack, build_frame. intros H. simplify_eq/=.
  destruct (has (sa_flags a) SA_RESETHAND); simpl;
    destruct (has (sa_flags a) SA_ONSTACK), (has (ss_flags (signal_alt_stack t)) SS_DISABLE); done.
Qed.

Lemma dispatch_deliver_inv E F osi ouc cr2 pid t t' f :
  dispatch_pending_signal E F osi ouc cr2 pid t = Some (t', Deliver f) ->
  exists a t0, signal_actions t !! Z.to_nat (si_signo f) = Some a /\
    t0 = set_pending (Z.ldiff (pending_signals t) (get_signal_bit (si_signo f)))
           (set_entry (-1) false (exiting_signal t) (signal_frame t) t) /\
    sa_handler a <> SIG_DFL /\ sa_handler a <> SIG_IGN /\ sa_restorer a <> 0 /\
    deliver E F osi ouc cr2 pid (si_signo f) a (restart_syscall a t0) = (t', f).
Proof.
  unfold dispatch_pending_signal. cbn [pending_signals signal_mask set_entry signal_actions set_pending].
  destruct (_ =? 0) in |- *; [done|]. destruct (first_signal _) as [s|]; [|done].
  destruct (signal_actions t !! Z.to_nat s) as [a|] eqn:Ha; [|done].
  destruct (Z.eqb_spec (sa_handler a) SIG_IGN); [done|].
  destruct (Z.eqb_spec (sa_handler a) SIG_DFL); [by destruct (signal_default_action s)|].
  destruct (Z.eqb_spec (sa_restorer a) 0); [done|].
  destruct (deliver _ _ _ _ _ _ _ _ _) as [t3 fr] eqn:Hd. intros; simplify_eq.
  assert (si_signo f = s) as Hs by (unfold deliver in Hd; by simplify_eq/=).
  rewrite <- Hs in *. eauto 10.
Qed.


Definition segments (st : InterruptState) : Z * Z * Z * Z * Z :=
  (ds st, es st, err st, cs st, ss st).

(** sched::from_ucontext undoes sched::to_ucontext, the segment registers and
    the error code excepted, which they leave alone. *)
Lemma from_to_ucontext st g ext fp :
  segments st = segments g -> from_ucontext st (to_ucontext g ext fp) = (g, ext).
Proof. destruct st, g. unfold segments. simpl. intros. by simplify_eq. Qed.

Lemma restart_fields a p e x fr t :
  let t0 := set_pending p (set_entry e false x fr t) in
  gpr_state (restart_syscall a t0) = gpr_state (restart_syscall a t) /\
  extended_state (restart_syscall a t0) = extended_state t /\
  signal_mask (restart_syscall a t0) = signal_mask t.
Proof. unfold restart_syscall. simpl. by destruct (_ && _ && _)%bool. Qed.

Lemma restart_segments a t : segments (gpr_state (restart_syscall a t)) = segments (gpr_state t).
Proof. unfold restart_syscall. by destruct (_ && _ && _)%bool. Qed.

(** C8: a handler that returns through its restorer resumes the interrupted
    thread: general registers, FPU image and signal mask are those the dispatch
    found (with the program counter moved back when the interrupted system call
    is restarted), whatever the handler did to them meanwhile. *)
Theorem signal_return_roundtrip E F osi ouc cr2 pid t t' f a frames u :
  dispatch_pending_signal E F osi ouc cr2 pid t = Some (t', Deliver f) ->
  signal_actions t !! Z.to_nat (si_signo f) = Some a ->
  frames (fr_addr f) = Some f -> 0 <= fr_addr f < 18446744073709551616 ->
  entering_signal u = false -> exiting_signal u = false ->
  has_poll_saved_signal_mask u = false ->
  segments (gpr_state u) = segments (gpr_state t) ->
  exists u1 u2, syscall_rt_sigreturn frames (u64 (fr_addr f + 8)) u = Some u1 /\
    return_from_signal u1 = Some u2 /\
    gpr_state u2 = gpr_state (restart_syscall a t) /\ extended_state u2 = extended_state t /\
    signal_mask u2 = signal_mask t /\ exiting_signal u2 = false.
Proof.
  intros H Ha Hfr Hr He Hx Hpl Hseg. destruct (dispatch_deliver_inv _ _ _ _ _ _ _ _ _ H)
    as (a' & t0 & Ha' & -> & _ & _ & _ & Hd). rewrite Ha in Ha'. injection Ha' as <-.
  destruct (deliver_frame _ _ _ _ _ _ _ _ _ _ _ Hd) as (_ & _ & Hm & _ & Hc & _).
  unfold syscall_rt_sigreturn. rewrite He, Hx. cbn [orb].
  assert (u64 (u64 (fr_addr f + 8) - 8) = fr_addr f) as ->.
  { unfold uN. rewrite Zminus_mod_idemp_l. rewrite Z.mod_small by (change (2^64) with 18446744073709551616; lia). lia. }
  rewrite Hfr. do 2 eexists. split; [reflexivity|].
  destruct (restart_fields a (Z.ldiff (pending_signals t) (get_signal_bit (si_signo f)))
    (-1) (exiting_signal t) (signal_frame t) t) as (Hg & Hext & Hmask).
  rewrite Hg, Hext in Hc. rewrite Hmask in Hm.
  unfold return_from_signal. cbn [signal_frame set_entry]. rewrite Hc, Hm.
  assert (forall g : Thread, gpr_state g = gpr_state u ->
    from_ucontext (gpr_state g) (to_ucontext (gpr_state (restart_syscall a t)) (extended_state t)
      (fpstate (fr_mcontext f))) = (gpr_state (restart_syscall a t), extended_state t)) as Hft.
  { intros g ->. apply from_to_ucontext. by rewrite restart_segments. }
  rewrite Hft by (by destruct (has _ SS_ONSTACK)).
  split; [reflexivity|]. cbn [signal_alt_stack set_entry set_mask set_fpu set_regs has_poll_saved_signal_mask].
  destruct (has _ SS_ONSTACK); cbn [has_poll_saved_signal_mask set_alt_stack set_entry]; by rewrite Hpl.
Qed.

(** with [SA_RESETHAND] the handler address is reset before it is loaded:
    the thread is sent to address 0 instead of its handler. *)
Theorem resethand_enters_null E F osi ouc cr2 pid t t' f a :
  dispatch_pending_signal E F osi ouc cr2 pid t = Some (t', Deliver f) ->
  signal_actions t !! Z.to_nat (si_signo f) = Some a ->
  has (sa_flags a) SA_RESETHAND = true ->
  sa_handler a <> SIG_DFL /\ rip (gpr_state t') = 0.
Proof.
  intros H Ha Hr. destruct (dispatch_deliver_inv _ _ _ _ _ _ _ _ _ H)
    as (a' & t0 & Ha' & -> & Hn & _ & _ & Hd). rewrite Ha in Ha'. simplify_eq.
  destruct (deliver_frame _ _ _ _ _ _ _ _ _ _ _ Hd) as (_ & _ & _ & _ & _ & _ & Hip).
  split; [done|]. by rewrite Hip, Hr.
Qed.

(** a signal that only the mask given to ppoll (or epoll_pwait) unblocks
    interrupts the call, but the original mask is back before the pending
    signals are looked at: the handler does not run. *)
Theorem poll_mask_signal_not_delivered m t :
  has_poll_saved_signal_mask t = false -> entering_signal t = false -> exiting_signal t = false ->
  has_pending_signals t = false -> has_pending_signals (set_mask m t) = true ->
  exists t1, install_poll_mask (Some m) t = Some (Some (- EINTR), t1) /\
    entering_signal (syscall_exit_path (- EINTR) t1) = false /\
    signal_mask (syscall_exit_path (- EINTR) t1) = signal_mask t /\
    pending_signals (syscall_exit_path (- EINTR) t1) = pending_signals t.
Proof.
  intros Hs He Hx Hn Hp. unfold install_poll_mask. rewrite Hs.
  change (has_pending_signals (set_mask m (set_poll_saved (signal_mask t) true t)))
    with (has_pending_signals (set_mask m t)). rewrite Hp.
  eexists. split; [reflexivity|]. unfold syscall_exit_path.
  cbn [has_poll_saved_signal_mask set_mask set_poll_saved].
  change (has_pending_signals (set_last_syscall _ _ _ _)) with (has_pending_signals t).
  rewrite Hn, andb_false_r. done.
Qed.

(** SIG_BLOCK does not exempt SIGKILL: a thread that blocked it is not
    terminated by it. *)
Theorem sigkill_can_be_blocked E F osi ouc cr2 pid how t r old t1 :
  thread_wf t -> how = SIG_BLOCK ->
  syscall_rt_sigprocmask how (Some (get_signal_bit SIGKILL)) t = (r, old, t1) ->
  r = 0 /\ forall t2, thread_wf t2 -> signal_mask t2 = signal_mask t1 ->
    Z.testbit (pending_signals t2) 8 = true ->
    exists t3 e, dispatch_pending_signal E F osi ouc cr2 pid t2 = Some (t3, e) /\
      e <> TerminateProcess SIGKILL /\ Z.testbit (pending_signals t3) 8 = true.
Proof.
  intros _ -> H. unfold syscall_rt_sigprocmask in H. cbn [Z.eqb SIG_BLOCK] in H.
  injection H as <- _ <-. split; [done|].
  intros t2 Hwf Hm Hp.
  assert (Z.testbit (signal_mask t2) 8 = true) as Hb.
  { rewrite Hm. cbn [signal_mask set_mask]. rewrite Z.lor_spec.
    rewrite (get_signal_bit_spec SIGKILL 8) by (unfold SIGKILL; lia). apply orb_true_r. }
  destruct (dispatch_shape E F osi ouc cr2 pid t2 Hwf)
    as [[Hz ->]|(s & a & t' & e & Hs & Ha & Hr & -> & Hq & _ & _ & He)]; [eauto|].
  exists t', e. split; [done|]. destruct (first_signal_spec _ _ Hs) as (_ & H2 & _).
  assert (s <> 9).
  { intros ->. rewrite Z.ldiff_spec in H2. change (9 - 1) with 8 in H2.
    by rewrite Hb, andb_false_r in H2. }
  split.
  - intros ->. by subst.
  - rewrite Hq, Z.ldiff_spec, Hp, get_signal_bit_spec by lia.
    destruct (Z.eqb_spec 8 (s - 1)); [lia|done].
Qed.

(** ** Concrete instances: the x86-64 sizes, a thread with SIGHUP (blocked) and
    SIGSEGV pending, a handler for SIGSEGV. *)
Definition regs_example : InterruptState :=
  mkRegs 27 27 15 14 13 12 11 10 9 8 7 6 5 4 3 2 0 0 4198400 35 514 140737488289792 27.
Definition thread_example (fl : Z) : Thread :=
  mkThread regs_example [1; 2; 3] (mkStack 0 SS_DISABLE 0) 1 1025 (-1) true false None 0 false 0 0 0
    (<[11%nat := mkAction 4202496 fl 4206592 4096]> (replicate 64 (mkAction 0 0 0 0))).

Lemma thread_example_wf fl : thread_wf (thread_example fl).
Proof. split; simpl; [lia|done]. Qed.

Lemma dispatch_takes_lowest_witness :
  exists t' e, dispatch_pending_signal 2688 440 312 8 0 5 (thread_example 0) = Some (t', e) /\
    pending_signals t' = 1.
Proof.
  destruct (dispatch_takes_lowest 2688 440 312 8 0 5 (thread_example 0) (thread_example_wf 0))
    as (t' & e & H & _). exists t', e. split; [exact H|].
  vm_compute in H. injection H as <- _. reflexivity.
Defined.

Definition delivered_example : option (Thread * SignalFrame) :=
  match dispatch_pending_signal 2688 440 312 8 0 5 (thread_example 0) with
  | Some (t, Deliver f) => Some (t, f)
  | _ => None
  end.

Lemma delivered_example_dispatch t f :
  delivered_example = Some (t, f) ->
  dispatch_pending_signal 2688 440 312 8 0 5 (thread_example 0) = Some (t, Deliver f).
Proof.
  unfold delivered_example. destruct (dispatch_pending_signal _ _ _ _ _ _ _) as [[t' []]|];
    intros; by simplify_eq.
Qed.


Lemma signal_return_roundtrip_witness :
  exists t f u1 u2, delivered_example = Some (t, f) /\
    syscall_rt_sigreturn (fun _ => Some f) (u64 (fr_addr f + 8)) t = Some u1 /\
    return_from_signal u1 = Some u2 /\ gpr_state u2 = regs_example.
Proof.
  destruct delivered_example as [[t f]|] eqn:Hd; [|vm_compute in Hd; discriminate].
  edestruct (signal_return_roundtrip 2688 440 312 8 0 5 (thread_example 0) t f
    (mkAction 4202496 0 4206592 4096) (fun _ => Some f) t) as (u1 & u2 & H1 & H2 & H3 & _).
  - apply delivered_example_dispatch, Hd.
  - vm_compute in Hd. injection Hd as _ <-. reflexivity.
  - reflexivity.
  - vm_compute in Hd. injection Hd as _ <-. vm_compute. split; [discriminate|reflexivity].
  - vm_compute in Hd. injection Hd as <- _. reflexivity.
  - vm_compute in Hd. injection Hd as <- _. reflexivity.
  - vm_compute in Hd. injection Hd as <- _. reflexivity.
  - vm_compute in Hd. injection Hd as <- _. reflexivity.
  - exists t, f, u1, u2. split; [reflexivity|]. split; [exact H1|]. split; [exact H2|exact H3].
Defined.

Lemma resethand_enters_null_witness :
  exists t' f, dispatch_pending_signal 2688 440 312 8 0 5 (thread_example SA_RESETHAND)
    = Some (t', Deliver f) /\ rip (gpr_state t') = 0.
Proof.
  destruct (dispatch_pending_signal 2688 440 312 8 0 5 (thread_example SA_RESETHAND))
    as [[t []]|] eqn:Hd; try (vm_compute in Hd; discriminate).
  exists t, frame. split; [reflexivity|].
  edestruct (resethand_enters_null 2688 440 312 8 0 5 (thread_example SA_RESETHAND) t frame
    (mkAction 4202496 SA_RESETHAND 4206592 4096)) as (_ & H).
  - exact Hd.
  - vm_compute in Hd. injection Hd as _ <-. reflexivity.
  - reflexivity.
  - exact H.
Defined.

Lemma poll_mask_signal_not_delivered_witness :
  let t := set_entry (-1) false false None (set_pending 1 (thread_example 0)) in
  exists t1, install_poll_mask (Some 0) t = Some (Some (- EINTR), t1) /\
    entering_signal (syscall_exit_path (- EINTR) t1) = false /\
    signal_mask (syscall_exit_path (- EINTR) t1) = signal_mask t /\
    pending_signals (syscall_exit_path (- EINTR) t1) = pending_signals t.
Proof. apply (poll_mask_signal_not_delivered 0); reflexivity. Defined.

Lemma sigkill_can_be_blocked_witness :
  exists r old t1,
    syscall_rt_sigprocmask SIG_BLOCK (Some (get_signal_bit SIGKILL)) (thread_example 0) = (r, old, t1)
    /\ r = 0.
Proof.
  do 3 eexists. split; [reflexivity|].
  edestruct (sigkill_can_be_blocked 2688 440 312 8 0 5 SIG_BLOCK (thread_example 0)) as [H _];
    [apply thread_example_wf|reflexivity|reflexivity|exact H].
Defined.
