(* ===== verification/VNode.v ===== *)
(** The VNode interface (vfs::VNode, src/kernel/src/fs/vfs.hpp), what its
    implementations promise, and the system calls written against it in
    src/kernel/src/fs/vfs.cpp: read, write, pread, pwrite, their vector forms,
    lseek, poll and select.

    The methods take the flags of the file description they are called on. *)
From S2P Require Import Prelude FdTable Signal.

Class VNodeOps (V : Type) : Type := {
  vn_open : Z -> V -> Z * V;
  vn_close : Z -> V -> V;
  (** flags, count, offset; the result and the bytes stored in the buffer *)
  vn_read : Z -> Z -> Z -> V -> attempt V (Z * list Z);
  (** flags, buffer, offset *)
  vn_write : Z -> list Z -> Z -> V -> attempt V Z;
  (** position, offset, whence *)
  vn_seek : Z -> Z -> Z -> V -> Z;
  (** flags, events *)
  vn_poll : Z -> Z -> V -> Z
}.

(** The methods of the base class. *)
Definition VNode_open {V} (_ : Z) (v : V) : Z * V := (0, v).
Definition VNode_close {V} (_ : Z) (v : V) : V := v.
Definition VNode_read {V} (_ _ _ : Z) (v : V) : attempt V (Z * list Z) := Return (- ENOTSUP, []) v.
Definition VNode_write {V} (_ : Z) (_ : list Z) (_ : Z) (v : V) : attempt V Z := Return (- ENOTSUP) v.
Definition VNode_seek {V} (_ _ _ : Z) (_ : V) : Z := - ENOTSUP.
Definition VNode_poll {V} (_ _ : Z) (_ : V) : Z := Z.lor POLLIN POLLOUT.

(** What the callers below rely on, for nodes that satisfy [wf]. *)
Class VNodeLaws (V : Type) `{!VNodeOps V} (wf : V -> Prop) : Prop := {
  law_read fl count off v :
    wf v -> 0 <= count < 9223372036854775808 -> 0 <= off < 9223372036854775808 ->
    match vn_read fl count off v with
    | Return (r, bs) v' =>
        wf v' /\ (r < 0 /\ bs = [] /\ v' = v \/ 0 <= r <= count /\ Z.of_nat (length bs) = r)
    | Block v' => v' = v /\ has fl O_NONBLOCK = false
    | Crash => False
    end;
  law_write fl buf off v :
    wf v -> Forall byte buf -> Z.of_nat (length buf) < 2305843009213693952 ->
    0 <= off < 2305843009213693952 ->
    match vn_write fl buf off v with
    | Return r v' => wf v' /\ (r < 0 /\ v' = v \/ 0 <= r <= Z.of_nat (length buf))
    | Block v' => v' = v /\ has fl O_NONBLOCK = false
    | Crash => False
    end;
  law_poll_in fl ev count off v :
    wf v -> has ev POLLIN = true -> has (vn_poll fl ev v) (Z.lor POLLIN POLLHUP) = true ->
    forall v', vn_read fl count off v <> Block v'
}.

Definition O_APPEND : Z := 1024.
Definition SEEK_SET : Z := 0.
Definition SEEK_CUR : Z := 1.
Definition SEEK_END : Z := 2.
Definition SEEK_DATA : Z := 3.
Definition SEEK_HOLE : Z := 4.

Record pollfd : Type := mkPollfd { poll_fd : Z; poll_events : Z; poll_revents : Z }.

Section Syscalls.
Context {V : Type} `{!VNodeOps V}.

(** The current thread with its process's descriptors, and the vnodes. *)
Record Sys : Type := mkSys {
  sys_fds : FdState;
  sys_nodes : gmap Z V;
  sys_thread : Thread
}.

Definition set_node (n : Z) (v : V) (s : Sys) : Sys :=
  mkSys (sys_fds s) (<[n := v]> (sys_nodes s)) (sys_thread s).
Definition set_fds (f : FdState) (s : Sys) : Sys := mkSys f (sys_nodes s) (sys_thread s).
Definition set_thread (t : Thread) (s : Sys) : Sys := mkSys (sys_fds s) (sys_nodes s) t.

Definition set_cursor (p c : Z) (s : Sys) : Sys :=
  set_fds (set_descriptions
    (alter (fun d => mkDescription (vnode d) c (flags d) (ref_count d)) p
       (descriptions (sys_fds s))) (sys_fds s)) s.

(** The description at [p] and its vnode; [None] when either is gone. *)
Definition lookup_description (p : Z) (s : Sys) : option (FileDescription * V) :=
  match descriptions (sys_fds s) !! p with
  | None => None
  | Some d => match sys_nodes s !! vnode d with None => None | Some v => Some (d, v) end
  end.

(** A method called on a description: the vnode's attempt inside the system. *)
Definition on_description {A} (p : Z) (m : FileDescription -> V -> attempt V A) (s : Sys)
    : attempt Sys A :=
  match lookup_description p s with
  | None => Crash
  | Some (d, v) =>
      match m d v with
      | Return r v' => Return r (set_node (vnode d) v' s)
      | Block v' => Block (set_node (vnode d) v' s)
      | Crash => Crash
      end
  end.

Definition method_read (p count off : Z) : proc Sys (Z * list Z) :=
  blocking (on_description p (fun d => vn_read (flags d) count off)) (- EINTR, []).
Definition method_write (p : Z) (buf : list Z) (off : Z) : proc Sys Z :=
  blocking (on_description p (fun d => vn_write (flags d) buf off)) (- EINTR).

Definition get_cursor (p : Z) : proc Sys Z := fun s ws =>
  match descriptions (sys_fds s) !! p with
  | None => Crashed
  | Some d => Done (cursor d) s ws
  end.
Definition advance_cursor (p r : Z) : proc Sys unit := fun s ws =>
  match descriptions (sys_fds s) !! p with
  | None => Crashed
  | Some d => Done tt (set_cursor p (u64 (cursor d + r)) s) ws
  end.

(** [description->vnode->seek(...)], no effect on the state. *)
Definition method_seek (p off whence : Z) : proc Sys Z := fun s ws =>
  match lookup_description p s with
  | None => Crashed
  | Some (d, v) => Done (vn_seek (cursor d) off whence v) s ws
  end.

Definition with_description {A} (fd : Z) (ebadf : A) (k : Z -> proc Sys A) : proc Sys A :=
  fun s ws =>
    let p := get_file_description fd (sys_fds s) in
    if p =? 0 then Done ebadf s ws else k p s ws.

Definition seek_to_end_if_append (p : Z) : proc Sys unit := fun s ws =>
  match lookup_description p s with
  | None => Crashed
  | Some (d, v) =>
      if has (flags d) O_APPEND then
        let ret := vn_seek (cursor d) 0 SEEK_END v in
        Done tt (if 0 <=? ret then set_cursor p ret s else s) ws
      else Done tt s ws
  end.

Definition syscall_read (fd count : Z) : proc Sys (Z * list Z) :=
  with_description fd (- EBADF, []) (fun p =>
    off ← get_cursor p;
    rb ← method_read p count off;
    if fst rb <? 0 then mret rb
    else advance_cursor p (fst rb);; mret rb).

Definition syscall_write (fd : Z) (buf : list Z) : proc Sys Z :=
  with_description fd (- EBADF) (fun p =>
    seek_to_end_if_append p;;
    off ← get_cursor p;
    r ← method_write p buf off;
    if r <? 0 then mret r else advance_cursor p r;; mret r).

Definition syscall_pread64 (fd count off : Z) : proc Sys (Z * list Z) :=
  with_description fd (- EBADF, []) (fun p => method_read p count off).
Definition syscall_pwrite64 (fd : Z) (buf : list Z) (off : Z) : proc Sys Z :=
  with_description fd (- EBADF) (fun p => method_write p buf off).

(** VNode::readv over the lengths of the vectors: the bytes read so far are
    returned with the count. *)
Fixpoint VNode_readv (p : Z) (iovs : list Z) (off transferred : Z) (acc : list Z)
    : proc Sys (Z * list Z) :=
  match iovs with
  | [] => mret (transferred, acc)
  | len :: iovs' =>
      if len =? 0 then VNode_readv p iovs' off transferred acc
      else
        rb ← method_read p len off;
        let ret := fst rb in
        if ret <? 0 then mret (if transferred =? 0 then ret else transferred, acc)
        else if ret <? len then mret (u64 (transferred + ret), acc ++ snd rb)
        else VNode_readv p iovs' (u64 (off + ret)) (u64 (transferred + ret)) (acc ++ snd rb)
  end.

Fixpoint VNode_writev (p : Z) (iovs : list (list Z)) (off transferred : Z) : proc Sys Z :=
  match iovs with
  | [] => mret transferred
  | buf :: iovs' =>
      if Z.of_nat (length buf) =? 0 then VNode_writev p iovs' off transferred
      else
        ret ← method_write p buf off;
        if ret <? 0 then mret (if transferred =? 0 then ret else transferred)
        else if ret <? Z.of_nat (length buf) then mret (u64 (transferred + ret))
        else VNode_writev p iovs' (u64 (off + ret)) (u64 (transferred + ret))
  end.

Definition syscall_readv (fd : Z) (iovs : list Z) : proc Sys (Z * list Z) :=
  with_description fd (- EBADF, []) (fun p =>
    off ← get_cursor p;
    rb ← VNode_readv p iovs off 0 [];
    if fst rb <? 0 then mret rb
    else advance_cursor p (fst rb);; mret rb).

Definition syscall_writev (fd : Z) (iovs : list (list Z)) : proc Sys Z :=
  with_description fd (- EBADF) (fun p =>
    seek_to_end_if_append p;;
    off ← get_cursor p;
    r ← VNode_writev p iovs off 0;
    if r <? 0 then mret r else advance_cursor p r;; mret r).

Definition pair_offset (offset_low offset_high : Z) : Z :=
  Z.lor (u64 (Z.shiftl offset_high 32)) offset_low.
Definition syscall_preadv (fd : Z) (iovs : list Z) (lo hi : Z) : proc Sys (Z * list Z) :=
  with_description fd (- EBADF, []) (fun p => VNode_readv p iovs (pair_offset lo hi) 0 []).
Definition syscall_pwritev (fd : Z) (iovs : list (list Z)) (lo hi : Z) : proc Sys Z :=
  with_description fd (- EBADF) (fun p => VNode_writev p iovs (pair_offset lo hi) 0).

Definition syscall_lseek (fd off whence : Z) : proc Sys Z :=
  with_description fd (- EBADF) (fun p =>
    ret ← method_seek p off whence;
    s ← get_state;
    (if 0 <=? ret then put_state (set_cursor p ret s) else mret tt);;
    mret ret).

(** ** poll

    A poll sleeps on the events of its descriptors and on a timer of its own;
    the state of a sleeping poll is the system with the timer's [fired]. *)
Definition poll_one (e : pollfd) (s : Sys) : option Z :=
  if (poll_fd e <? 0) || (poll_events e =? 0) then Some 0
  else
    let p := get_file_description (poll_fd e) (sys_fds s) in
    if p =? 0 then Some POLLNVAL
    else match lookup_description p s with
         | None => None
         | Some (d, v) => Some (vn_poll (flags d) (poll_events e) v)
         end.

(** One pass: the number of entries with a result, and the entries. *)
Fixpoint poll_scan (fds : list pollfd) (s : Sys) : option (Z * list pollfd) :=
  match fds with
  | [] => Some (0, [])
  | e :: fds' =>
      match poll_one e s with
      | None => None
      | Some revents =>
          match poll_scan fds' s with
          | None => None
          | Some (ret, out) =>
              if revents =? 0 then Some (ret, e :: out)
              else Some (ret + 1, mkPollfd (poll_fd e) (poll_events e) revents :: out)
          end
      end
  end.

Definition ppoll_try (block : bool) (fds : list pollfd) (sf : Sys * bool)
    : attempt (Sys * bool) (Z * list pollfd) :=
  match poll_scan fds (fst sf) with
  | None => Crash
  | Some (ret, out) =>
      if negb (ret =? 0) then Return (ret, out) sf
      else if negb block then Return (0, out) sf
      else Block sf
  end.

Definition clear_revents (e : pollfd) : pollfd := mkPollfd (poll_fd e) (poll_events e) 0.

(** [timeout] is the pair seconds, nanoseconds when there is one. *)
Definition ppoll_impl (fds : list pollfd) (timeout : option (Z * Z)) (sigmask : option Z)
    : proc (Sys * bool) (Z * list pollfd) := fun sf ws =>
  if 1024 <? Z.of_nat (length fds) then Done (- EINVAL, fds) sf ws
  else
    match install_poll_mask sigmask (sys_thread (fst sf)) with
    | None => Crashed
    | Some (Some r, t) => Done (r, fds) (set_thread t (fst sf), snd sf) ws
    | Some (None, t) =>
        let fds0 := map clear_revents fds in
        let block := match timeout with
                     | Some (s, n) => negb ((s =? 0) && (n =? 0))
                     | None => true
                     end in
        run_blocking (ppoll_try block fds0) (- EINTR, fds0)
          (fun sf' => if snd sf' then Some (0, fds0) else None)
          (set_thread t (fst sf), snd sf) ws
    end.

(** [timeout] in milliseconds. *)
Definition syscall_poll (fds : list pollfd) (timeout : Z) : proc (Sys * bool) (Z * list pollfd) :=
  if 0 <=? timeout
  then ppoll_impl fds (Some (Z.quot timeout 1000, Z.rem timeout 1000 * 1000000)) None
  else ppoll_impl fds None None.

(** ** select: a set of descriptors is a word of 1024 bits. *)
Definition FD_ISSET (i : Z) (set : option Z) : bool :=
  match set with Some m => Z.testbit m i | None => false end.

Definition select_events (readfds writefds exceptfds : option Z) (i : Z) : Z :=
  Z.lor (Z.lor (if FD_ISSET i readfds then POLLIN else 0)
               (if FD_ISSET i writefds then POLLOUT else 0))
        (if FD_ISSET i exceptfds then POLLPRI else 0).

Definition select_fds (nfds : Z) (readfds writefds exceptfds : option Z) : list pollfd :=
  map (fun i => let ev := select_events readfds writefds exceptfds i in
                if ev =? 0 then mkPollfd (-1) 0 0 else mkPollfd i ev 0) (seqZ 0 nfds).

(** The result set: the members of [set] whose result meets [mask]. *)
Definition select_result (set : option Z) (mask : Z) (out : list pollfd) : option Z :=
  match set with
  | None => None
  | Some _ =>
      Some (foldr (fun '(i, e) acc =>
              if FD_ISSET i set && has (poll_revents e) mask
              then Z.lor acc (Z.shiftl 1 i) else acc) 0
              (zip (seqZ 0 (Z.of_nat (length out))) out))
  end.

Definition pselect_impl (nfds : Z) (readfds writefds exceptfds : option Z)
    (timeout : option (Z * Z)) (sigmask : option Z)
    : proc (Sys * bool) (Z * (option Z * option Z * option Z)) :=
  if 1024 <? nfds then mret (- EINVAL, (readfds, writefds, exceptfds))
  else
    ro ← ppoll_impl (select_fds nfds readfds writefds exceptfds) timeout sigmask;
    if fst ro <? 0 then mret (fst ro, (readfds, writefds, exceptfds))
    else mret (fst ro,
      (select_result readfds (Z.lor (Z.lor POLLIN POLLERR) POLLHUP) (snd ro),
       select_result writefds (Z.lor (Z.lor POLLOUT POLLERR) POLLHUP) (snd ro),
       select_result exceptfds POLLPRI (snd ro))).

Definition syscall_select (nfds : Z) (readfds writefds exceptfds : option Z)
    (timeout : option (Z * Z)) : proc (Sys * bool) (Z * (option Z * option Z * option Z)) :=
  pselect_impl (u64 nfds) readfds writefds exceptfds
    (match timeout with Some (s, us) => Some (s, us * 1000) | None => None end) None.

End Syscalls.
Arguments Sys V : clear implicits.

(** ** Systems whose vnodes satisfy the interface *)
Section Clients.
Context {V : Type} `{!VNodeOps V} (wf : V -> Prop).

(** Every description is on a vnode of the system, and every vnode is good. *)
Definition sys_ok (s : Sys V) : Prop :=
  (forall p d, descriptions (sys_fds s) !! p = Some d -> is_Some (sys_nodes s !! vnode d)) /\
  (forall n v, sys_nodes s !! n = Some v -> wf v).

Definition live (p : Z) (s : Sys V) : Prop := is_Some (descriptions (sys_fds s) !! p).

Definition cursor_of (p : Z) (s : Sys V) : Z :=
  match descriptions (sys_fds s) !! p with Some d => cursor d | None => 0 end.

(** Whatever state a sleeping thread wakes in, the description it sleeps on is
    still open and the vnodes are good. *)
Definition wake_ok (p : Z) (w : wake (Sys V)) : Prop :=
  match w with Interrupted s | Woken s => sys_ok s /\ live p s end.

Lemma lookup_description_ok p s :
  sys_ok s -> live p s ->
  exists d v, lookup_description p s = Some (d, v) /\ wf v /\
    descriptions (sys_fds s) !! p = Some d /\ sys_nodes s !! vnode d = Some v.
Proof.
  intros [H1 H2] [d Hd]. destruct (H1 p d Hd) as [v Hv].
  exists d, v. unfold lookup_description. rewrite Hd, Hv. eauto 6.
Qed.

Lemma set_node_ok n v s : sys_ok s -> wf v -> sys_ok (set_node n v s).
Proof.
  intros [H1 H2] Hv. split; simpl.
  - intros p d Hd. rewrite lookup_insert_is_Some.
    destruct (decide (n = vnode d)); [by left|]. right. eauto.
  - intros m w Hm. apply lookup_insert_Some in Hm as [[_ <-]|[_ Hm]]; eauto.
Qed.

Context `{!VNodeLaws V wf}.

(** A read that returns: it moved data and left everything but the vnode as it
    found it, or it failed and left everything as it found it. *)
Definition read_result (p count r : Z) (bs : list Z) (s0 s' : Sys V) : Prop :=
  sys_fds s' = sys_fds s0 /\ sys_thread s' = sys_thread s0 /\ sys_ok s' /\
  (r < 0 /\ bs = [] /\ s' = s0 \/ 0 <= r <= count /\ Z.of_nat (length bs) = r).

Lemma read_attempt_spec p count off s :
  sys_ok s -> live p s -> 0 <= count < 9223372036854775808 -> 0 <= off < 9223372036854775808 ->
  match on_description p (fun d => vn_read (flags d) count off) s with
  | Return (r, bs) s' => read_result p count r bs s s'
  | Block _ => True
  | Crash => False
  end.
Proof.
  intros Hok Hlive Hc Ho. destruct (lookup_description_ok p s Hok Hlive) as (d & v & Hl & Hv & _ & Hn).
  unfold on_description. rewrite Hl. pose proof (law_read (flags d) count off v Hv Hc Ho) as Hlaw.
  destruct (vn_read _ _ _ _) as [[r bs] v'|v'|]; [|done|done].
  destruct Hlaw as [Hwf Hcase]. split; [done|]. split; [done|]. split; [by apply set_node_ok|].
  destruct Hcase as [(Hr & -> & ->)|[Hr Hlen]]; [left|by right].
  split; [done|]. split; [done|]. unfold set_node. rewrite insert_id by done. by destruct s.
Qed.

Lemma method_read_spec p count off s ws :
  sys_ok s -> live p s -> Forall (wake_ok p) ws ->
  0 <= count < 9223372036854775808 -> 0 <= off < 9223372036854775808 ->
  match method_read p count off s ws with
  | Done (r, bs) s' ws' =>
      Forall (wake_ok p) ws' /\
      exists s0, (s0 = s \/ Woken s0 ∈ ws \/ Interrupted s0 ∈ ws) /\ live p s0 /\
        read_result p count r bs s0 s'
  | Asleep => True
  | Crashed => False
  end.
Proof.
  intros Hok Hlive Hws Hc Ho. unfold method_read, blocking.
  revert s Hok Hlive Hws. induction ws as [|w ws IH]; intros s Hok Hlive Hws; simpl;
    pose proof (read_attempt_spec p count off s Hok Hlive Hc Ho) as Ha;
    destruct (on_description _ _ _) as [[r bs] s'|s'|]; try done.
  - split; [done|]. exists s. auto.
  - split; [done|]. exists s. auto.
  - apply Forall_cons in Hws as [Hw Hws]. destruct w as [s1|s1]; destruct Hw as [Hok1 Hl1].
    + split; [done|]. exists s1. split; [right; right; by left|]. split; [done|].
      split; [done|]. split; [done|]. split; [done|]. left. done.
    + specialize (IH s1 Hok1 Hl1 Hws). destruct (run_blocking _ _ _ _ _) as [[r bs] s2 ws2| |]; try done.
      destruct IH as (Hws2 & s0 & Hin & Hl & Hres). split; [done|]. exists s0.
      split; [|done]. right. destruct Hin as [->|[Hin|Hin]];
        [left; by left|left; by right|right; by right].
Qed.

(** a read on an open descriptor either reports an error and leaves the
    descriptor table as it found it, or returns as many bytes as it says, at
    most the count asked for, and moves the description's cursor by exactly
    that much; it never stops the kernel, whatever ran while it slept. *)
Theorem syscall_read_spec fd count s ws :
  sys_ok s -> 0 <= count < 9223372036854775808 ->
  (forall p, p = get_file_description fd (sys_fds s) -> p <> 0 ->
     live p s /\ 0 <= cursor_of p s < 9223372036854775808 /\ Forall (wake_ok p) ws) ->
  match syscall_read fd count s ws with
  | Done (r, bs) s' _ =>
      (r < 0 /\ bs = [] /\ exists s0, (s0 = s \/ Woken s0 ∈ ws \/ Interrupted s0 ∈ ws) /\ s' = s0) \/
      (0 <= r <= count /\ Z.of_nat (length bs) = r /\
       let p := get_file_description fd (sys_fds s) in
       exists s0, (s0 = s \/ Woken s0 ∈ ws \/ Interrupted s0 ∈ ws) /\
         cursor_of p s' = u64 (cursor_of p s0 + r) /\
         file_descriptors (sys_fds s') = file_descriptors (sys_fds s0) /\
         (forall q, q <> p -> descriptions (sys_fds s') !! q = descriptions (sys_fds s0) !! q))
  | Asleep => True
  | Crashed => False
  end.
Proof.
  intros Hok Hc Hfd. unfold syscall_read, with_description.
  set (p := get_file_description fd (sys_fds s)) in *.
  destruct (Z.eqb_spec p 0) as [_|Hp].
  { left. split; [unfold EBADF; lia|]. eauto. }
  destruct (Hfd p eq_refl Hp) as (Hlive & Hcur & Hws).
  pose proof Hlive as [d Hd]. rewrite bind_run. unfold get_cursor at 1. rewrite Hd, bind_run.
  assert (Hcd : cursor_of p s = cursor d) by (unfold cursor_of; by rewrite Hd).
  pose proof (method_read_spec p count (cursor d) s ws Hok Hlive Hws Hc ltac:(lia)) as Hm.
  destruct (method_read _ _ _ _ _) as [[r bs] s' ws'| |]; try done.
  destruct Hm as (_ & s0 & Hin & Hl0 & Hf & Ht & Hok' & Hres). cbn [fst].
  destruct (Z.ltb_spec r 0).
  - left. destruct Hres as [(Hr & -> & ->)|]; [|lia]. split; [done|]. split; [done|]. by exists s0.
  - destruct Hres as [|[Hr Hlen]]; [lia|]. rewrite bind_run. unfold advance_cursor.
    destruct Hl0 as [d0 Hd0]. rewrite Hf, Hd0, ret_run. right. split; [done|]. split; [done|].
    exists s0. split; [done|]. unfold cursor_of, set_cursor; simpl.
    rewrite Hf, lookup_alter, decide_True, Hd0 by done. simpl. split; [done|]. split; [done|].
    intros q Hq. by rewrite lookup_alter_ne by done.
Qed.

End Clients.

(** ** Vnodes that hold a byte sequence *)
Class VNodeFile (V : Type) `{!VNodeOps V} (wf : V -> Prop) (content : V -> list Z) : Prop :=
  law_file_read fl count off v :
    wf v -> 0 <= count -> 0 <= off -> off + count < 18446744073709551616 ->
    vn_read fl count off v
    = Return (Z.of_nat (length (sub (content v) off count)), sub (content v) off count) v.

Section Files.
Context {V : Type} `{!VNodeOps V} (wf : V -> Prop) (content : V -> list Z).
Context `{!VNodeFile V wf content}.

Lemma method_read_file p count off s ws d v :
  lookup_description p s = Some (d, v) -> wf v -> 0 <= count -> 0 <= off ->
  off + count < 18446744073709551616 ->
  method_read p count off s ws
  = Done (Z.of_nat (length (sub (content v) off count)), sub (content v) off count) s ws.
Proof.
  intros Hl Hv Hc Ho Hs. unfold method_read, blocking. apply run_blocking_now.
  unfold on_description. rewrite Hl, (law_file_read _ _ _ _ Hv) by done. f_equal.
  unfold set_node. rewrite insert_id; [by destruct s|].
  unfold lookup_description in Hl. repeat case_match; by simplify_eq.
Qed.

Lemma readv_file_gen p s ws d v iovs off tr acc :
  lookup_description p s = Some (d, v) -> wf v -> Forall (fun len => 0 <= len) iovs -> 0 <= off ->
  0 <= tr -> tr + foldr Z.add 0 iovs < 9223372036854775808 ->
  off + foldr Z.add 0 iovs < 9223372036854775808 ->
  let total := foldr Z.add 0 iovs in
  VNode_readv p iovs off tr acc s ws
  = Done (tr + Z.of_nat (length (sub (content v) off total)), acc ++ sub (content v) off total) s ws.
Proof.
  intros Hl Hv Hiov. revert off tr acc.
  induction Hiov as [|len iovs Hlen Hiov IH]; intros off tr acc Ho Htr Hst Hs; simpl in *.
  - rewrite ret_run. unfold sub. simpl. by rewrite app_nil_r, Z.add_0_r.
  - assert (0 <= foldr Z.add 0 iovs) by (clear -Hiov; induction Hiov; simpl; lia).
    rewrite sub_app by lia. set (xs := sub (content v) off len).
    destruct (Z.eqb_spec len 0) as [->|Hz].
    + rewrite IH by lia. unfold xs, sub at 2. simpl. by rewrite Z.add_0_r.
    + rewrite bind_run, (method_read_file p len off s ws d v) by (done || lia). cbn [fst snd]. fold xs.
      assert (Z.of_nat (length xs) <= len) as Hx.
      { unfold xs, sub. rewrite length_take. lia. }
      destruct (Z.ltb_spec (Z.of_nat (length xs)) 0); [lia|].
      destruct (Z.ltb_spec (Z.of_nat (length xs)) len) as [Hlt|Hge].
      * rewrite ret_run, u64_small by lia. unfold xs in Hlt. rewrite (sub_short _ _ _ Ho Hlen Hlt).
        by rewrite app_nil_r.
      * assert (Z.of_nat (length xs) = len) as Hx2 by lia. rewrite Hx2.
        rewrite !u64_small by lia. rewrite IH by lia.
        rewrite length_app, app_assoc. do 2 f_equal. lia.
Qed.

(** on a vnode that holds a byte sequence, a vectored read returns the
    bytes one read of the total length returns, in order. *)
Theorem VNode_readv_is_read p s ws d v iovs off :
  lookup_description p s = Some (d, v) -> wf v -> Forall (fun len => 0 <= len) iovs -> 0 <= off ->
  off + foldr Z.add 0 iovs < 9223372036854775808 ->
  VNode_readv p iovs off 0 [] s ws = method_read p (foldr Z.add 0 iovs) off s ws.
Proof.
  intros Hl Hv Hiov Ho Hs.
  assert (0 <= foldr Z.add 0 iovs) by (clear -Hiov; induction Hiov; simpl; lia).
  rewrite (method_read_file p _ off s ws d v) by (done || lia).
  by rewrite (readv_file_gen p s ws d v iovs off 0 []) by (done || lia).
Qed.

End Files.

(** ** poll and select *)
Section Poll.
Context {V : Type} `{!VNodeOps V} (wf : V -> Prop).

(** The answers of one pass over [fds] in state [s]. *)
Definition poll_answers (fds : list pollfd) (s : Sys V) (r : Z) (out : list pollfd) : Prop :=
  Forall2 (fun e o => poll_fd o = poll_fd e /\ poll_events o = poll_events e) fds out /\
  Forall (fun o => poll_one o s = Some (poll_revents o)) out /\
  r = Z.of_nat (length (filter (fun o => poll_revents o <> 0) out)).

Lemma poll_scan_spec fds s ret out :
  poll_scan (map clear_revents fds) s = Some (ret, out) -> poll_answers fds s ret out.
Proof.
  revert ret out. induction fds as [|e fds IH]; intros ret out H; simpl in H.
  { simplify_eq. repeat split; constructor. }
  destruct (poll_one (clear_revents e) s) as [r|] eqn:He; [|done].
  destruct (poll_scan _ s) as [[ret1 out1]|]; [|done].
  destruct (IH _ _ eq_refl) as (H1 & H2 & H3).
  destruct (Z.eqb_spec r 0) as [->|Hr]; simplify_eq; (split; [by constructor|]); (split; [by constructor|]).
  - by rewrite filter_cons, decide_False by auto.
  - rewrite filter_cons, decide_True by done. simpl length. lia.
Qed.

Lemma ppoll_cases fds timeout sigmask sf ws r out sf' ws' :
  ppoll_impl fds timeout sigmask sf ws = Done (r, out) sf' ws' -> 0 < r ->
  poll_answers fds (fst sf') r out.
Proof.
  unfold ppoll_impl. intros H Hr. destruct (1024 <? _); [simplify_eq; by vm_compute in Hr|].
  destruct (install_poll_mask sigmask _) as [[[r1|] t]|] eqn:Hm; [|clear Hm|done].
  { simplify_eq. unfold install_poll_mask in Hm. repeat (case_match; simplify_eq; try done); by vm_compute in Hr. }
  destruct (run_blocking_inv _ _ _ _ _ _ _ _ H) as [[Heq _]|[[Hf _]|(s0 & _ & Ht)]].
  - simplify_eq. by vm_compute in Hr.
  - destruct (snd sf'); simplify_eq. lia.
  - unfold ppoll_try in Ht. destruct (poll_scan _ _) as [[ret out1]|] eqn:Hs; [|done].
    destruct (Z.eqb_spec ret 0) as [->|]; simpl in Ht.
    + case_match; simplify_eq. lia.
    + simplify_eq. by apply poll_scan_spec.
Qed.

Context `{!VNodeLaws V wf}.

(** a poll that returns a positive count returns the number of entries
    with a result, the results being those of the final state; and an entry
    that asked for input and is reported readable or hung up belongs to a
    descriptor whose next read does not sleep. *)
Theorem ppoll_ready fds timeout sigmask sf ws r out sf' ws' :
  ppoll_impl fds timeout sigmask sf ws = Done (r, out) sf' ws' -> 0 < r -> sys_ok wf (fst sf') ->
  map poll_fd out = map poll_fd fds /\
  r = Z.of_nat (length (filter (fun o => poll_revents o <> 0) out)) /\
  forall o, o ∈ out -> has (poll_events o) POLLIN = true ->
    has (poll_revents o) (Z.lor POLLIN POLLHUP) = true ->
    let p := get_file_description (poll_fd o) (sys_fds (fst sf')) in
    p <> 0 /\ forall count off s1,
      on_description p (fun d => vn_read (flags d) count off) (fst sf') <> Block s1.
Proof.
  intros H Hr Hok. destruct (ppoll_cases _ _ _ _ _ _ _ _ _ H Hr) as (H1 & H2 & H3).
  split; [|split; [done|]].
  { clear -H1. induction H1 as [|e o l k [He _] Hl IH]; simpl; congruence. }
  intros o Ho Hev Hrev p. rewrite Forall_forall in H2. specialize (H2 o Ho).
  unfold poll_one in H2. destruct (_ || _) eqn:E.
  { injection H2 as H2. rewrite <- H2 in Hrev. done. }
  fold p in H2. destruct (Z.eqb_spec p 0); [injection H2 as H2; by rewrite <- H2 in Hrev|].
  split; [done|]. intros count off s1. unfold on_description.
  destruct (lookup_description p (fst sf')) as [[d v]|] eqn:Hl; [|done].
  injection H2 as H2. rewrite <- H2 in Hrev.
  assert (wf v) as Hv.
  { destruct Hok as [_ Hn]. unfold lookup_description in Hl. repeat case_match; simplify_eq. eauto. }
  pose proof (law_poll_in (flags d) (poll_events o) count off v Hv Hev Hrev) as Hlaw.
  destruct (vn_read _ _ _ _) as [| v' |] eqn:Hread; [done| |done]. by destruct (Hlaw v').
Qed.

End Poll.
