(* ===== verification/Pipe.v ===== *)
(** Pipes (src/kernel/src/userland/pipe.cpp): a byte ring between readers and
    writers, as an implementation of the VNode interface. *)
From S2P Require Import Prelude RingBuffer FdTable Signal VNode.

Definition capacity : Z := 4096.

(** [pipe_triggers] counts the calls of [pipe_event.trigger()]. *)
Record Pipe : Type := mkPipe {
  readers : Z;
  writers : Z;
  ring_buffer : RingBuffer Z;
  pipe_triggers : Z
}.

Definition Pipe_new (storage : list Z) : Pipe := mkPipe 0 0 (RingBuffer_init storage) 0.

Definition Pipe_open (fl : Z) (p : Pipe) : Z * Pipe :=
  (0, mkPipe (if can_read fl then u64 (readers p + 1) else readers p)
             (if can_write fl then u64 (writers p + 1) else writers p)
             (ring_buffer p) (pipe_triggers p)).

Definition Pipe_close (fl : Z) (p : Pipe) : Pipe :=
  mkPipe (if can_read fl then u64 (readers p - 1) else readers p)
         (if can_write fl then u64 (writers p - 1) else writers p)
         (ring_buffer p) (pipe_triggers p + 1).

(** One pass through the waiting loop of [Pipe::read], and the transfer. *)
Definition Pipe_read (fl count : Z) (off : Z) (p : Pipe) : attempt Pipe (Z * list Z) :=
  if is_empty (ring_buffer p) then
    if writers p =? 0 then Return (0, []) p
    else if has fl O_NONBLOCK then Return (- EWOULDBLOCK, []) p
    else Block p
  else
    let '(n, bytes, rb) := RingBuffer_read capacity (ring_buffer p) count in
    Return (n, bytes) (mkPipe (readers p) (writers p) rb (pipe_triggers p + 1)).

Definition Pipe_write (fl : Z) (buf : list Z) (off : Z) (p : Pipe) : attempt Pipe Z :=
  if readers p =? 0 then Return (- EPIPE) p
  else if negb (is_full capacity (ring_buffer p)) then
    let (n, rb) := RingBuffer_write capacity (ring_buffer p) buf (Z.of_nat (length buf)) in
    Return n (mkPipe (readers p) (writers p) rb (pipe_triggers p + 1))
  else if has fl O_NONBLOCK then Return (- EWOULDBLOCK) p
  else Block p.

Definition Pipe_poll (fl events : Z) (p : Pipe) : Z :=
  Z.lor
    (if has events POLLIN then
       if writers p =? 0 then POLLHUP
       else if negb (is_empty (ring_buffer p)) then POLLIN else 0
     else 0)
    (if has events POLLOUT then
       if readers p =? 0 then POLLERR
       else if negb (is_full capacity (ring_buffer p)) then POLLOUT else 0
     else 0).

Definition FIONREAD : Z := 21531.
Definition TCGETS : Z := 21505.
Definition TCSETS : Z := 21506.
Definition TIOCSCTTY : Z := 21518.
Definition TIOCGWINSZ : Z := 21523.
Definition VNode_ioctl (cmd : Z) : Z :=
  if (cmd =? TCGETS) || (cmd =? TCSETS) || (cmd =? TIOCSCTTY) || (cmd =? TIOCGWINSZ)
  then - ENOTTY else - EINVAL.

(** The result and the [int] stored at [arg]. *)
Definition Pipe_ioctl (cmd : Z) (p : Pipe) : Z * option Z :=
  if cmd =? FIONREAD then (0, Some (i32 (data_count (ring_buffer p))))
  else (VNode_ioctl cmd, None).

Definition Pipe_seek (position off whence : Z) (p : Pipe) : Z := - ESPIPE.

#[export] Instance Pipe_VNodeOps : VNodeOps Pipe := {
  vn_open := Pipe_open;
  vn_close := Pipe_close;
  vn_read := Pipe_read;
  vn_write := Pipe_write;
  vn_seek := Pipe_seek;
  vn_poll := Pipe_poll
}.

(** [pipe_impl]: the two descriptors, [p1] and [p2] being the addresses the
    allocator returned for the two descriptions and [vn] the pipe's vnode. *)
Definition pipe_impl (storage : list Z) (vn p1 p2 fl : Z) (s : FdState)
    : Z * option (Z * Z * Pipe) * FdState :=
  if negb (Z.ldiff fl (Z.lor O_CLOEXEC O_NONBLOCK) =? 0) then (- EINVAL, None, s)
  else
    let cloexec := has fl O_CLOEXEC in
    let rfl := Z.lor O_RDONLY (Z.land fl O_NONBLOCK) in
    let wfl := Z.lor O_WRONLY (Z.land fl O_NONBLOCK) in
    let (fd0, s1) := install_fd p1 vn rfl cloexec s in
    let (_, pipe1) := Pipe_open rfl (Pipe_new storage) in
    let (fd1, s2) := install_fd p2 vn wfl cloexec s1 in
    let (_, pipe2) := Pipe_open wfl pipe1 in
    (0, Some (fd0, fd1, pipe2), s2).

Definition syscall_pipe storage vn p1 p2 s := pipe_impl storage vn p1 p2 0 s.
Definition syscall_pipe2 storage vn p1 p2 fl s := pipe_impl storage vn p1 p2 fl s.

(** ** The interface's promises *)
Definition pipe_wf (p : Pipe) : Prop := ring_wf capacity (ring_buffer p).

Lemma capacity_divides n (rb : RingBuffer Z) : no_wrap capacity rb n.
Proof. left. exists 4503599627370496. reflexivity. Qed.

Lemma Pipe_read_spec fl count off p :
  pipe_wf p -> 0 <= count ->
  match Pipe_read fl count off p with
  | Return (r, bs) p' =>
      pipe_wf p' /\
      (r < 0 /\ bs = [] /\ p' = p \/
       0 <= r <= count /\ Z.of_nat (length bs) = r /\
       contents capacity (ring_buffer p) = bs ++ contents capacity (ring_buffer p'))
  | Block p' => p' = p /\ has fl O_NONBLOCK = false /\ contents capacity (ring_buffer p) = [] /\
                writers p <> 0
  | Crash => False
  end.
Proof.
  intros Hwf Hc. unfold Pipe_read. pose proof (ring_empty_spec capacity (ring_buffer p) Hwf) as He.
  destruct (is_empty _) eqn:E.
  - symmetry in He. apply bool_decide_eq_true in He.
    destruct (Z.eqb_spec (writers p) 0); [|destruct (has fl O_NONBLOCK) eqn:Hn].
    + split; [done|]. right. rewrite He. split; [lia|done].
    + split; [done|]. left. unfold EWOULDBLOCK. split; [lia|done].
    + done.
  - pose proof (RingBuffer_read_spec capacity (ring_buffer p) count Hwf Hc) as Hr.
    destruct (RingBuffer_read _ _ _) as [[n bs] rb]. destruct Hr as (Hn & Hb & Hwf' & Hcon).
    split; [done|]. right. simpl. rewrite Hcon, Hb, take_drop.
    pose proof (contents_length capacity (ring_buffer p) Hwf). rewrite length_take. 
    pose proof (data_count_nonneg (ring_buffer p)). split; [lia|]. split; [lia|done].
Qed.

Lemma Pipe_write_spec fl buf off p :
  pipe_wf p ->
  match Pipe_write fl buf off p with
  | Return r p' =>
      pipe_wf p' /\
      (r < 0 /\ p' = p \/
       0 <= r <= Z.of_nat (length buf) /\ readers p <> 0 /\
       contents capacity (ring_buffer p')
       = contents capacity (ring_buffer p) ++ take (Z.to_nat r) buf)
  | Block p' => p' = p /\ has fl O_NONBLOCK = false /\ readers p <> 0 /\
                Z.of_nat (length (contents capacity (ring_buffer p))) = capacity
  | Crash => False
  end.
Proof.
  intros Hwf. unfold Pipe_write. pose proof (ring_full_spec capacity (ring_buffer p) Hwf) as Hf.
  destruct (Z.eqb_spec (readers p) 0); [split; [done|]; left; unfold EPIPE; split; [lia|done]|].
  destruct (is_full _ _) eqn:E; cbn [negb].
  - symmetry in Hf. apply Z.eqb_eq in Hf. destruct (has fl O_NONBLOCK) eqn:Hn; [|done].
    split; [done|]. left. unfold EWOULDBLOCK. split; [lia|done].
  - pose proof (RingBuffer_write_spec capacity (ring_buffer p) buf (Z.of_nat (length buf)) Hwf
      ltac:(lia) (capacity_divides _ _)) as Hw.
    destruct (RingBuffer_write _ _ _ _) as [m rb]. destruct Hw as (Hm & Hwf' & Hcon & _).
    split; [done|]. right. simpl. rewrite Hcon. pose proof (wf_count _ _ Hwf). split; [lia|done].
Qed.

#[export] Instance Pipe_VNodeLaws : VNodeLaws Pipe pipe_wf.
Proof.
  split.
  - intros fl count off p Hwf Hc _. pose proof (Pipe_read_spec fl count off p Hwf ltac:(lia)) as H.
    simpl. destruct (Pipe_read _ _ _ _) as [[r bs] p'|p'|]; naive_solver.
  - intros fl buf off p Hwf _ _ _. pose proof (Pipe_write_spec fl buf off p Hwf) as H.
    simpl. destruct (Pipe_write _ _ _ _) as [r p'|p'|]; naive_solver.
  - intros fl ev count off p Hwf Hev Hp p' Hr. simpl in *.
    pose proof (Pipe_read_spec fl count off p Hwf) as H.
    unfold Pipe_poll in Hp. rewrite Hev in Hp. unfold Pipe_read in Hr.
    destruct (is_empty _); [|by destruct (RingBuffer_read _ _ _) as [[? ?] ?]].
    destruct (writers p =? 0); [done|]. cbn [negb] in Hp.
    destruct (has ev POLLOUT); [|done]. by repeat case_match.
Qed.

(** ** The pipe as a byte stream *)
Inductive pipe_op : Type :=
| POpen (fl : Z)
| PClose (fl : Z)
| PRead (fl count : Z)
| PWrite (fl : Z) (buf : list Z).

(** A pipe with the bytes read from it and the bytes written to it so far. An
    operation that would sleep leaves no trace: it is attempted again. *)
Record PipeTrace : Type := mkTrace { tr_pipe : Pipe; tr_received : list Z; tr_sent : list Z }.

Definition pipe_step (op : pipe_op) (t : PipeTrace) : PipeTrace :=
  let p := tr_pipe t in
  match op with
  | POpen fl => mkTrace (snd (Pipe_open fl p)) (tr_received t) (tr_sent t)
  | PClose fl => mkTrace (Pipe_close fl p) (tr_received t) (tr_sent t)
  | PRead fl count =>
      match Pipe_read fl count 0 p with
      | Return (r, bs) p' => mkTrace p' (tr_received t ++ bs) (tr_sent t)
      | _ => t
      end
  | PWrite fl buf =>
      match Pipe_write fl buf 0 p with
      | Return r p' => mkTrace p' (tr_received t) (tr_sent t ++ take (Z.to_nat r) buf)
      | _ => t
      end
  end.

Definition pipe_op_ok (op : pipe_op) : Prop :=
  match op with PRead _ count => 0 <= count | _ => True end.

Definition stream_inv (t : PipeTrace) : Prop :=
  pipe_wf (tr_pipe t) /\ tr_sent t = tr_received t ++ contents capacity (ring_buffer (tr_pipe t)).

Lemma pipe_step_inv op t : pipe_op_ok op -> stream_inv t -> stream_inv (pipe_step op t).
Proof.
  intros Hok [Hwf Hs]. destruct op as [fl|fl|fl count|fl buf]; [by split|by split| |]; simpl in *.
  - pose proof (Pipe_read_spec fl count 0 (tr_pipe t) Hwf Hok) as H.
    destruct (Pipe_read _ _ _ _) as [[r bs] p'|p'|]; [|by split|done].
    destruct H as [Hwf' [(_ & -> & ->)|(_ & _ & Hc)]]; split; simpl; rewrite ?app_nil_r; try done.
    by rewrite Hs, Hc, app_assoc.
  - pose proof (Pipe_write_spec fl buf 0 (tr_pipe t) Hwf) as H.
    destruct (Pipe_write _ _ _ _) as [r p'|p'|]; [|by split|done].
    destruct H as [Hwf' [(Hr & ->)|(_ & _ & Hc)]]; split; simpl; try done.
    + replace (Z.to_nat r) with 0%nat by lia. by rewrite app_nil_r.
    + by rewrite Hs, Hc, app_assoc.
Qed.

(** C10: through any interleaving of opens, closes, reads and writes, the bytes
    read from a pipe are the bytes written to it, in order, up to the at most
    4096 bytes still in the ring. *)
Theorem pipe_is_stream storage ops :
  Z.of_nat (length storage) = capacity -> Forall pipe_op_ok ops ->
  let t := fold_left (fun t op => pipe_step op t) ops (mkTrace (Pipe_new storage) [] []) in
  tr_sent t = tr_received t ++ contents capacity (ring_buffer (tr_pipe t)) /\
  Z.of_nat (length (contents capacity (ring_buffer (tr_pipe t)))) <= capacity.
Proof.
  intros Hst Hops t.
  assert (stream_inv t) as [Hwf Hs].
  { unfold t. assert (stream_inv (mkTrace (Pipe_new storage) [] [])) as H0.
    { destruct (ring_init_wf capacity storage ltac:(unfold capacity; lia) Hst) as [H1 H2].
      split; [done|]. simpl. by rewrite H2. }
    revert H0. generalize (mkTrace (Pipe_new storage) [] []).
    induction Hops as [|op ops Hop Hops IH]; intros t0 H0; simpl; [done|].
    by apply IH, pipe_step_inv. }
  split; [done|]. rewrite contents_length by done. apply Hwf.
Qed.

Lemma pipe_is_stream_witness :
  let t := fold_left (fun t op => pipe_step op t)
    [POpen 0; POpen 1; PWrite 1 [10; 20; 30]; PRead 0 2; PClose 1; PRead 0 7; PRead 0 7]
    (mkTrace (Pipe_new (replicate 4096 0)) [] []) in
  tr_sent t = tr_received t ++ contents capacity (ring_buffer (tr_pipe t)) /\
  Z.of_nat (length (contents capacity (ring_buffer (tr_pipe t)))) <= capacity.
Proof.
  apply (pipe_is_stream (replicate 4096 0)
    [POpen 0; POpen 1; PWrite 1 [10; 20; 30]; PRead 0 2; PClose 1; PRead 0 7; PRead 0 7]);
    [reflexivity|]. repeat constructor; simpl; lia.
Defined.

(** *** Wake-ups *)
Definition read_blocks (p : Pipe) : Prop := exists p', Pipe_read 0 1 0 p = Block p'.
Definition write_blocks (p : Pipe) : Prop := exists p', Pipe_write 1 [0] 0 p = Block p'.

Lemma read_blocks_iff p : read_blocks p <-> is_empty (ring_buffer p) = true /\ writers p <> 0.
Proof.
  unfold read_blocks, Pipe_read. destruct (is_empty _).
  - destruct (Z.eqb_spec (writers p) 0); simpl; naive_solver.
  - destruct (RingBuffer_read _ _ _) as [[n bs] rb]. naive_solver.
Qed.

Lemma write_blocks_iff p :
  write_blocks p <-> is_full capacity (ring_buffer p) = true /\ readers p <> 0.
Proof.
  unfold write_blocks, Pipe_write. destruct (Z.eqb_spec (readers p) 0); [naive_solver|].
  destruct (is_full _ _) eqn:E; cbn [negb].
  - simpl. naive_solver.
  - destruct (RingBuffer_write capacity (ring_buffer p) [0] _) as [m rb]. naive_solver.
Qed.

(** no wake-up is lost: an operation after which a sleeping reader (or
    writer) could proceed triggers the pipe's event. *)
Theorem pipe_no_lost_wakeup op t :
  0 <= readers (tr_pipe t) < 18446744073709551615 ->
  0 <= writers (tr_pipe t) < 18446744073709551615 ->
  let p := tr_pipe t in let p' := tr_pipe (pipe_step op t) in
  (read_blocks p /\ ~ read_blocks p') \/ (write_blocks p /\ ~ write_blocks p') ->
  pipe_triggers p' = pipe_triggers p + 1.
Proof.
  intros Hr Hw p p'. subst p p'. rewrite !read_blocks_iff, !write_blocks_iff.
  destruct op as [fl|fl|fl count|fl buf]; simpl; [|done| |].
  - assert (forall b : bool, readers (tr_pipe t) <> 0 ->
      (if b then u64 (readers (tr_pipe t) + 1) else readers (tr_pipe t)) <> 0) as H1.
    { intros []; rewrite ?u64_small by lia; lia. }
    assert (forall b : bool, writers (tr_pipe t) <> 0 ->
      (if b then u64 (writers (tr_pipe t) + 1) else writers (tr_pipe t)) <> 0) as H2.
    { intros []; rewrite ?u64_small by lia; lia. }
    intros [[[He Hn] H]|[[He Hn] H]]; exfalso; apply H; auto.
  - unfold Pipe_read. destruct (is_empty _) eqn:E.
    + destruct (writers _ =? 0), (has fl O_NONBLOCK); simpl; rewrite ?E; naive_solver.
    + destruct (RingBuffer_read _ _ _) as [[n bs] rb]. done.
  - unfold Pipe_write. destruct (readers (tr_pipe t) =? 0); [simpl; naive_solver|].
    destruct (is_full _ _) eqn:E; cbn [negb].
    + destruct (has fl O_NONBLOCK); simpl; rewrite ?E; naive_solver.
    + destruct (RingBuffer_write _ _ _ _) as [n rb]. done.
Qed.

Lemma pipe_no_lost_wakeup_witness :
  let t := pipe_step (POpen 2) (mkTrace (Pipe_new (replicate 4096 0)) [] []) in
  pipe_triggers (tr_pipe (pipe_step (PWrite 1 [7]) t)) = pipe_triggers (tr_pipe t) + 1.
Proof.
  intros t. apply (pipe_no_lost_wakeup (PWrite 1 [7]) t).
  - vm_compute. split; [discriminate|reflexivity].
  - vm_compute. split; [discriminate|reflexivity].
  - left. rewrite !read_blocks_iff. split.
    + split; [reflexivity|vm_compute; discriminate].
    + intros [H _]. vm_compute in H. discriminate H.
Defined.
