(* ===== verification/EventFD.v ===== *)
(** Event counters (src/kernel/src/userland/eventfd.cpp), as an implementation
    of the VNode interface. *)
From S2P Require Import Prelude FdTable Signal VNode.

Definition COUNTER_MAX : Z := 18446744073709551614.
Definition EFD_SEMAPHORE : Z := 1.
Definition EFD_NONBLOCK : Z := 2048.
Definition EFD_CLOEXEC : Z := 524288.

(** [efd_triggers] counts the calls of [eventfd_event.trigger(true)]. *)
Record EventFD : Type := mkEventFD {
  counter : Z;
  is_semaphore : bool;
  efd_triggers : Z
}.

(** One pass through the waiting loop of [EventFD::read]. *)
Definition EventFD_read (fl count off : Z) (e : EventFD) : attempt EventFD (Z * list Z) :=
  if count <? 8 then Return (- EINVAL, []) e
  else if counter e =? 0 then
    if has fl O_NONBLOCK then Return (- EWOULDBLOCK, []) e else Block e
  else if is_semaphore e
  then Return (8, le_split 8 1) (mkEventFD (u64 (counter e - 1)) true (efd_triggers e + 1))
  else Return (8, le_split 8 (counter e)) (mkEventFD 0 false (efd_triggers e + 1)).

Definition EventFD_write (fl : Z) (buf : list Z) (off : Z) (e : EventFD) : attempt EventFD Z :=
  if Z.of_nat (length buf) <? 8 then Return (- EINVAL) e
  else
    let to_add := le_combine (take 8 buf) in
    if to_add =? 18446744073709551615 then Return (- EINVAL) e
    else if u64 (COUNTER_MAX - to_add) <? counter e then
      if has fl O_NONBLOCK then Return (- EWOULDBLOCK) e else Block e
    else Return 8 (mkEventFD (u64 (counter e + to_add)) (is_semaphore e) (efd_triggers e + 1)).

Definition EventFD_poll (fl events : Z) (e : EventFD) : Z :=
  Z.lor (if has events POLLIN && (0 <? counter e) then POLLIN else 0)
        (if has events POLLOUT && (counter e <? COUNTER_MAX) then POLLOUT else 0).

#[export] Instance EventFD_VNodeOps : VNodeOps EventFD := {
  vn_open := VNode_open;
  vn_close := VNode_close;
  vn_read := EventFD_read;
  vn_write := EventFD_write;
  vn_seek := VNode_seek;
  vn_poll := EventFD_poll
}.

(** The flags of the description: the conditional expression takes
    [O_RDWR | (flags & EFD_NONBLOCK)] as its condition. *)
Definition eventfd_description_flags (fl : Z) : Z :=
  if Z.lor O_RDWR (Z.land fl EFD_NONBLOCK) =? 0 then 0 else O_NONBLOCK.

(** [p] is the address of the new description, [vn] the new vnode. *)
Definition eventfd_impl (vn p initval fl : Z) (s : FdState) : Z * option EventFD * FdState :=
  if negb (Z.ldiff fl (Z.lor (Z.lor EFD_NONBLOCK EFD_CLOEXEC) EFD_SEMAPHORE) =? 0)
  then (- EINVAL, None, s)
  else
    let e := mkEventFD initval (has fl EFD_SEMAPHORE) 0 in
    let (efd, s') := install_fd p vn (eventfd_description_flags fl) (has fl EFD_CLOEXEC) s in
    (efd, Some e, s').

Definition syscall_eventfd2 vn p initval fl s := eventfd_impl vn p initval fl s.
Definition syscall_eventfd vn p initval s := eventfd_impl vn p initval 0 s.

(** ** The interface's promises *)
Definition eventfd_wf (e : EventFD) : Prop := 0 <= counter e <= COUNTER_MAX.

(** The value a write adds. *)
Definition written_value (buf : list Z) : Z := le_combine (take 8 buf).

Lemma written_value_range buf :
  Forall byte buf -> 8 <= Z.of_nat (length buf) ->
  0 <= written_value buf < 18446744073709551616.
Proof.
  intros Hb Hl. unfold written_value.
  pose proof (le_combine_range (take 8 buf) ltac:(by apply Forall_take)) as H.
  rewrite length_take in H. replace (8 `min` length buf)%nat with 8%nat in H by lia. exact H.
Qed.

(** What an attempt that returns does to the counter: it fails and changes
    nothing, or moves a whole value in or out. *)
Lemma EventFD_read_cases fl count off e :
  eventfd_wf e ->
  match EventFD_read fl count off e with
  | Return (r, bs) e' =>
      (r < 0 /\ bs = [] /\ e' = e) \/
      (r = 8 /\ 8 <= count /\ length bs = 8%nat /\ 0 < counter e /\ eventfd_wf e' /\
       is_semaphore e' = is_semaphore e /\ efd_triggers e' = efd_triggers e + 1 /\
       counter e = counter e' + le_combine bs /\
       le_combine bs = if is_semaphore e then 1 else counter e)
  | Block e' => e' = e /\ has fl O_NONBLOCK = false /\ counter e = 0 /\ 8 <= count
  | Crash => False
  end.
Proof.
  unfold eventfd_wf, COUNTER_MAX. destruct e as [c sem tr]; simpl. intros Hwf. unfold EventFD_read; simpl.
  destruct (Z.ltb_spec count 8); [left; by unfold EINVAL|].
  destruct (Z.eqb_spec c 0).
  { destruct (has fl O_NONBLOCK); [left; by unfold EWOULDBLOCK|done]. }
  destruct sem; right; cbn [counter is_semaphore efd_triggers].
  - rewrite u64_small by lia. change (le_combine (le_split 8 1)) with 1. repeat split; try done; lia.
  - rewrite le_combine_split, Z.mod_small by lia. rewrite le_split_length. repeat split; try done; lia.
Qed.

Lemma EventFD_write_cases fl buf off e :
  eventfd_wf e -> Forall byte buf ->
  match EventFD_write fl buf off e with
  | Return r e' =>
      (r < 0 /\ e' = e) \/
      (r = 8 /\ 8 <= Z.of_nat (length buf) /\ eventfd_wf e' /\
       is_semaphore e' = is_semaphore e /\ efd_triggers e' = efd_triggers e + 1 /\
       counter e' = counter e + written_value buf)
  | Block e' => e' = e /\ has fl O_NONBLOCK = false /\ COUNTER_MAX < counter e + written_value buf
  | Crash => False
  end.
Proof.
  intros Hwf Hb. unfold EventFD_write. fold (written_value buf).
  destruct (Z.ltb_spec (Z.of_nat (length buf)) 8); [left; by unfold EINVAL|].
  pose proof (written_value_range buf Hb ltac:(lia)) as Hv. unfold eventfd_wf in *.
  destruct e as [c sem tr]; simpl in *. unfold COUNTER_MAX in *.
  destruct (Z.eqb_spec (written_value buf) 18446744073709551615); [left; by unfold EINVAL|].
  rewrite (u64_small (_ - _)) by lia.
  destruct (Z.ltb_spec (18446744073709551614 - written_value buf) c).
  - destruct (has fl O_NONBLOCK); [left; by unfold EWOULDBLOCK|]. repeat split; lia.
  - right. simpl. rewrite u64_small by lia. repeat split; lia.
Qed.

#[export] Instance EventFD_VNodeLaws : VNodeLaws EventFD eventfd_wf.
Proof.
  split; simpl.
  - intros fl count off e Hwf Hc _. pose proof (EventFD_read_cases fl count off e Hwf) as H.
    destruct (EventFD_read _ _ _ _) as [[r bs] e'|e'|]; [|naive_solver|done].
    destruct H as [(? & -> & ->)|(-> & ? & ? & ? & ? & _)]; (split; [done|]); [left; auto|right; lia].
  - intros fl buf off e Hwf Hb _ _. pose proof (EventFD_write_cases fl buf off e Hwf Hb) as H.
    destruct (EventFD_write _ _ _ _) as [r e'|e'|]; [|naive_solver|done].
    destruct H as [(? & ->)|(-> & ? & ? & _)]; (split; [done|]); [left; auto|right; lia].
  - intros fl ev count off e Hwf Hev Hp e' Hr.
    pose proof (EventFD_read_cases fl count off e Hwf) as H. rewrite Hr in H.
    destruct H as (_ & _ & Hz & _). unfold EventFD_poll in Hp. rewrite Hz, andb_false_r in Hp.
    by destruct (has ev POLLOUT && _)%bool.
Qed.

(** ** Conservation of the count *)
Inductive eventfd_op : Type :=
| ERead (fl count : Z)
| EWrite (fl : Z) (buf : list Z).

(** An event counter with the sums of the values read from it and written to
    it so far. *)
Record EventFDTrace : Type := mkETrace { et_efd : EventFD; et_taken : Z; et_added : Z }.

Definition eventfd_step (op : eventfd_op) (t : EventFDTrace) : EventFDTrace :=
  match op with
  | ERead fl count =>
      match EventFD_read fl count 0 (et_efd t) with
      | Return (_, bs) e' => mkETrace e' (et_taken t + le_combine bs) (et_added t)
      | _ => t
      end
  | EWrite fl buf =>
      match EventFD_write fl buf 0 (et_efd t) with
      | Return r e' => mkETrace e' (et_taken t)
                         (et_added t + if r =? 8 then written_value buf else 0)
      | _ => t
      end
  end.

Definition eventfd_op_ok (op : eventfd_op) : Prop :=
  match op with ERead _ _ => True | EWrite _ buf => Forall byte buf end.

Lemma eventfd_step_inv op t init :
  eventfd_op_ok op -> eventfd_wf (et_efd t) ->
  counter (et_efd t) + et_taken t = init + et_added t ->
  let t' := eventfd_step op t in
  eventfd_wf (et_efd t') /\ counter (et_efd t') + et_taken t' = init + et_added t'.
Proof.
  intros Hop Hwf Hs. destruct op as [fl count|fl buf]; simpl in *.
  - pose proof (EventFD_read_cases fl count 0 (et_efd t) Hwf) as H.
    destruct (EventFD_read _ _ _ _) as [[r bs] e'|e'|]; [|done|done].
    destruct H as [(? & -> & ->)|(-> & ? & ? & ? & ? & _ & _ & Hc & _)]; simpl; (split; [done|]).
    + change (le_combine []) with 0. lia.
    + lia.
  - pose proof (EventFD_write_cases fl buf 0 (et_efd t) Hwf Hop) as H.
    destruct (EventFD_write _ _ _ _) as [r e'|e'|]; [|done|done].
    destruct H as [(? & ->)|(-> & ? & ? & _ & _ & Hc)]; simpl; (split; [done|]).
    + destruct (Z.eqb_spec r 8); lia.
    + lia.
Qed.

Lemma eventfd_fold_inv ops t init :
  Forall eventfd_op_ok ops -> eventfd_wf (et_efd t) ->
  counter (et_efd t) + et_taken t = init + et_added t ->
  let t' := fold_left (fun t op => eventfd_step op t) ops t in
  eventfd_wf (et_efd t') /\ counter (et_efd t') + et_taken t' = init + et_added t'.
Proof.
  intros Hops. revert t. induction Hops as [|op ops Hop Hops IH]; intros t H1 H2; simpl; [done|].
  destruct (eventfd_step_inv op t init Hop H1 H2). by apply IH.
Qed.

(** through any interleaving of reads and writes no count is lost: the
    counter is the initial value plus the values written less the values read,
    and never exceeds its maximum; and once it is not zero a read returns at
    once, with one unit in semaphore mode and the whole count otherwise. *)
Theorem eventfd_conserves init sem ops :
  0 <= init <= COUNTER_MAX -> Forall eventfd_op_ok ops ->
  let t := fold_left (fun t op => eventfd_step op t) ops (mkETrace (mkEventFD init sem 0) 0 0) in
  counter (et_efd t) = init + et_added t - et_taken t /\
  0 <= counter (et_efd t) <= COUNTER_MAX /\
  (counter (et_efd t) <> 0 -> forall fl, exists bs e',
     EventFD_read fl 8 0 (et_efd t) = Return (8, bs) e' /\
     le_combine bs = if is_semaphore (et_efd t) then 1 else counter (et_efd t)).
Proof.
  intros Hi Hops t.
  assert (eventfd_wf (et_efd t) /\ counter (et_efd t) + et_taken t = init + et_added t) as [Hwf Hs].
  { apply eventfd_fold_inv; [done|exact Hi|reflexivity]. }
  clearbody t. split; [lia|]. split; [done|]. intros Hnz fl.
  pose proof (EventFD_read_cases fl 8 0 (et_efd t) Hwf) as H.
  unfold EventFD_read in *. destruct (8 <? 8) eqn:E8; [done|].
  destruct (Z.eqb_spec (counter (et_efd t)) 0); [done|].
  destruct (is_semaphore (et_efd t)); do 2 eexists; (split; [reflexivity|]);
    destruct H as [(? & _)|(_ & _ & _ & _ & _ & _ & _ & _ & H)]; (lia || exact H).
Qed.

Lemma eventfd_conserves_witness :
  let t := fold_left (fun t op => eventfd_step op t)
    [EWrite 0 [3;0;0;0;0;0;0;0]; ERead 0 8; ERead 2048 8; EWrite 0 [1;1;0;0;0;0;0;0]]
    (mkETrace (mkEventFD 5 false 0) 0 0) in
  counter (et_efd t) = 5 + et_added t - et_taken t.
Proof.
  destruct (eventfd_conserves 5 false
    [EWrite 0 [3;0;0;0;0;0;0;0]; ERead 0 8; ERead 2048 8; EWrite 0 [1;1;0;0;0;0;0;0]]) as [H _].
  - unfold COUNTER_MAX. lia.
  - repeat constructor; unfold byte; simpl; lia.
  - exact H.
Defined.

(** whatever the flags given to eventfd2, the description it creates is
    non-blocking: a read of a zero counter returns EWOULDBLOCK instead of
    sleeping. *)
Theorem eventfd_never_sleeps vn p initval fl s efd e s' count off :
  eventfd_impl vn p initval fl s = (efd, Some e, s') ->
  exists d, descriptions s' !! p = Some d /\ vnode d = vn /\
    has (flags d) O_NONBLOCK = true /\
    forall e1, EventFD_read (flags d) count off e <> Block e1.
Proof.
  unfold eventfd_impl. destruct (negb _); [done|].
  destruct (install_fd _ _ _ _ _) as [fd s1] eqn:Hi. intros. simplify_eq.
  unfold install_fd in Hi. destruct (allocate_fdnum 0 s) as [fd0 s0]. simplify_eq/=.
  eexists. split; [by rewrite lookup_insert_eq|].
  assert (eventfd_description_flags fl = O_NONBLOCK) as ->.
  { unfold eventfd_description_flags.
    destruct (Z.eqb_spec (Z.lor O_RDWR (Z.land fl EFD_NONBLOCK)) 0) as [E|]; [|done].
    apply Z.lor_eq_0_iff in E as [E _]. discriminate E. }
  split; [done|]. split; [done|]. intros e1. unfold EventFD_read. simpl.
  destruct (count <? 8); [done|]. destruct (initval =? 0); [done|].
  by destruct (has fl EFD_SEMAPHORE).
Qed.

Lemma eventfd_never_sleeps_witness :
  exists efd e s', eventfd_impl 9 64 0 0 fd_example = (efd, Some e, s') /\
    EventFD_read O_NONBLOCK 8 0 e <> Block e.
Proof.
  do 3 eexists. split; [reflexivity|].
  edestruct (eventfd_never_sleeps 9 64 0 0 fd_example) as (d & Hd & _ & _ & H); [reflexivity|].
  vm_compute in Hd. injection Hd as <-. apply H.
Defined.
