(* ===== verification/Tmpfs.v ===== *)
(** The in-memory file system (src/kernel/src/fs/tmpfs.cpp): file contents as
    growing buffers, as an implementation of the VNode interface that holds a
    byte sequence; inode numbers and directory listing. *)
From S2P Require Import Prelude FdTable Signal VNode.

(** What the file system needs of [klib::realloc]: the new block has the size
    asked for and starts with the old contents; nothing is said of the rest. *)
Class Realloc : Type := {
  realloc : list Z -> Z -> list Z;
  realloc_length l n : 0 <= n -> Z.of_nat (length (realloc l n)) = n;
  realloc_prefix l n : Z.of_nat (length l) <= n -> take (length l) (realloc l n) = l
}.

Record NodeData : Type := mkNodeData {
  is_directory : bool;
  inode_num : Z;
  storage : list Z;
  size : Z
}.

(** The bytes of the file. *)
Definition file_content (n : NodeData) : list Z := sub (storage n) 0 (size n).

(** The capacity is the length of the storage block. *)
Definition node_capacity (n : NodeData) : Z := Z.of_nat (length (storage n)).

(** The capacity loop of [grow_to]; [None] when the fuel runs out. *)
Fixpoint grow_capacity (fuel : nat) (cap len : Z) : option Z :=
  if len <=? cap then Some cap
  else match fuel with
       | O => None
       | S fuel => grow_capacity fuel (Z.max 1 (u64 (cap * 4))) len
       end.

(** 33 multiplications by four take 1 past 2^64. *)
Definition grow_fuel : nat := 34.



Section Node.
Context `{!Realloc}.

Definition grow_to (len : Z) (n : NodeData) : option NodeData :=
  if node_capacity n <? len then
    match grow_capacity grow_fuel (node_capacity n) len with
    | None => None
    | Some cap => Some (mkNodeData (is_directory n) (inode_num n) (realloc (storage n) cap) len)
    end
  else Some (mkNodeData (is_directory n) (inode_num n) (storage n) len).

(** A copy out of (or into) the storage past its end is [Crash]. *)
Definition Node_read (fl count off : Z) (n : NodeData) : attempt NodeData (Z * list Z) :=
  if is_directory n then Return (- EISDIR, []) n
  else if size n <=? off then Return (0, []) n
  else
    let actual_count := if size n <? u64 (off + count) then size n - off else count in
    if node_capacity n <? off + actual_count then Crash
    else Return (actual_count, sub (storage n) off actual_count) n.

Definition Node_write (fl : Z) (buf : list Z) (off : Z) (n : NodeData) : attempt NodeData Z :=
  if is_directory n then Return (- EISDIR) n
  else
    let count := Z.of_nat (length buf) in
    if count =? 0 then Return 0 n
    else
      match (if size n <? u64 (off + count) then grow_to (u64 (off + count)) n else Some n) with
      | None => Crash
      | Some n1 =>
          if node_capacity n1 <? off + count then Crash
          else Return count (mkNodeData (is_directory n1) (inode_num n1)
                               (blit off buf (storage n1)) (size n1))
      end.

Definition Node_seek (position off whence : Z) (n : NodeData) : Z :=
  if whence =? SEEK_SET then off
  else if whence =? SEEK_CUR then i64 (position + off)
  else if whence =? SEEK_END then i64 (size n + off)
  else if whence =? SEEK_DATA then if size n <=? u64 off then - ENXIO else off
  else if whence =? SEEK_HOLE then if size n <=? u64 off then - ENXIO else i64 (size n)
  else - EINVAL.

(** The [memset] after growing covers [length - node_data->size] bytes, and
    [grow_to] has already set the size to the length. *)
Definition Node_truncate (len : Z) (n : NodeData) : option (Z * NodeData) :=
  if is_directory n then Some (- EISDIR, n)
  else
    match (if size n <? len
           then match grow_to len n with
                | None => None
                | Some n1 =>
                    Some (mkNodeData (is_directory n1) (inode_num n1)
                            (blit (size n1) (replicate (Z.to_nat (u64 (len - size n1))) 0)
                               (storage n1)) (size n1))
                end
           else Some n) with
    | None => None
    | Some n2 => Some (0, mkNodeData (is_directory n2) (inode_num n2) (storage n2) len)
    end.

End Node.

#[export] Instance Node_VNodeOps `{!Realloc} : VNodeOps NodeData := {
  vn_open := VNode_open;
  vn_close := VNode_close;
  vn_read := Node_read;
  vn_write := Node_write;
  vn_seek := Node_seek;
  vn_poll := VNode_poll
}.

(** ** The capacity loop *)
Lemma grow_capacity_ge fuel cap len c : grow_capacity fuel cap len = Some c -> len <= c.
Proof.
  revert cap. induction fuel as [|fuel IH]; intros cap; simpl;
    destruct (Z.leb_spec len cap); intros; simplify_eq; eauto.
Qed.

(** Powers of four from one: the k-th pass holds [4^k]. *)
Lemma grow_capacity_pow k fuel len :
  (k <= 31)%nat -> (31 - k < fuel)%nat -> len <= 4 ^ 31 ->
  exists c, grow_capacity fuel (4 ^ Z.of_nat k) len = Some c /\ c <= Z.max (4 ^ Z.of_nat k) (4 * len).
Proof.
  revert k. induction fuel as [|fuel IH]; intros k Hk Hf Hl; [lia|]. simpl.
  destruct (Z.leb_spec len (4 ^ Z.of_nat k)) as [|Hlt]; [eexists; split; [done|lia]|].
  assert (k < 31)%nat as Hk'.
  { destruct (decide (k = 31%nat)) as [->|]; [|lia]. change (Z.of_nat 31) with 31 in Hlt. lia. }
  assert (4 ^ Z.of_nat (S k) = 4 ^ Z.of_nat k * 4) as Hp by (rewrite Nat2Z.inj_succ, Z.pow_succ_r; lia).
  assert (4 ^ Z.of_nat (S k) <= 4 ^ 31) as Hb by (apply Z.pow_le_mono_r; lia).
  rewrite u64_small; [|split; [lia|]]; cycle 1.
  { change (4 ^ 31) with 4611686018427387904 in Hb. lia. }
  rewrite Z.max_r by lia. rewrite <- Hp. destruct (IH (S k)) as (c & Hc & Hle); [lia|lia|done|].
  exists c. split; [done|]. rewrite Hp in Hle. lia.
Qed.

(** The capacities a block goes through. *)
Definition cap_ok (c : Z) : Prop := c = 0 \/ exists k, (k <= 31)%nat /\ c = 4 ^ Z.of_nat k.

Lemma cap_ok_next c : cap_ok c -> cap_ok (Z.max 1 (u64 (c * 4))).
Proof.
  intros [->|(k & Hk & ->)]; [right; exists 0%nat; split; [lia|done]|].
  destruct (decide (k = 31%nat)) as [->|]; [right; exists 0%nat; split; [lia|done]|].
  right. exists (S k). split; [lia|].
  assert (4 ^ Z.of_nat (S k) = 4 ^ Z.of_nat k * 4) as Hp by (rewrite Nat2Z.inj_succ, Z.pow_succ_r; lia).
  assert (4 ^ Z.of_nat (S k) <= 4 ^ 31) as Hb by (apply Z.pow_le_mono_r; lia).
  change (4 ^ 31) with 4611686018427387904 in Hb.
  pose proof (Z.pow_pos_nonneg 4 (Z.of_nat k) ltac:(lia) ltac:(lia)).
  rewrite u64_small by lia. rewrite <- Hp. lia.
Qed.

Lemma grow_capacity_ok fuel c len c' :
  cap_ok c -> grow_capacity fuel c len = Some c' -> cap_ok c'.
Proof.
  revert c. induction fuel as [|fuel IH]; intros c Hc; simpl; destruct (len <=? c);
    intros; simplify_eq; eauto using cap_ok_next.
Qed.

Lemma grow_capacity_total c len :
  cap_ok c -> len <= 4611686018427387904 -> exists c', grow_capacity grow_fuel c len = Some c'.
Proof.
  intros [->|(k & Hk & ->)] Hl.
  - unfold grow_fuel. simpl. destruct (Z.leb_spec len 0); [eauto|].
    destruct (grow_capacity_pow 0 33 len) as (c & Hc & _); [lia|lia|done|].
    exists c. exact Hc.
  - destruct (grow_capacity_pow k grow_fuel len) as (c & Hc & _); [lia|unfold grow_fuel; lia|done|eauto].
Qed.

(** beyond 2^62 the capacity wraps to zero and the loop starts over: a
    request to grow a file past that size never returns. *)
Theorem grow_capacity_diverges fuel c len :
  cap_ok c -> 4611686018427387904 < len -> grow_capacity fuel c len = None.
Proof.
  intros Hc Hl. revert c Hc. induction fuel as [|fuel IH]; intros c Hc; simpl;
    (destruct (Z.leb_spec len c) as [Hle|]; [|eauto using cap_ok_next]); exfalso;
    destruct Hc as [->|(k & Hk & ->)]; try lia;
    assert (4 ^ Z.of_nat k <= 4 ^ 31) as Hb by (apply Z.pow_le_mono_r; lia);
    change (4 ^ 31) with 4611686018427387904 in Hb; lia.
Qed.

Lemma grow_capacity_diverges_witness : grow_capacity 1000 4 4611686018427387905 = None.
Proof. apply grow_capacity_diverges; [right; exists 1%nat; split; [lia|reflexivity]|lia]. Defined.

(** ** The node as a file *)
Record node_wf (n : NodeData) : Prop := {
  nw_size : 0 <= size n <= node_capacity n;
  nw_cap : cap_ok (node_capacity n)
}.

Lemma cap_ok_le c : cap_ok c -> 0 <= c <= 4611686018427387904.
Proof.
  intros [->|(k & Hk & ->)]; [lia|].
  assert (4 ^ Z.of_nat k <= 4 ^ 31) as Hb by (apply Z.pow_le_mono_r; lia).
  change (4 ^ 31) with 4611686018427387904 in Hb. lia.
Qed.

Lemma file_content_length n : node_wf n -> Z.of_nat (length (file_content n)) = size n.
Proof. intros [H _]. unfold file_content, node_capacity in *. apply sub_length; lia. Qed.

Section NodeProofs.
Context `{!Realloc}.

Lemma grow_to_spec len n :
  node_wf n -> 0 <= len <= 4611686018427387904 ->
  exists n1, grow_to len n = Some n1 /\ node_wf n1 /\ size n1 = len /\
    is_directory n1 = is_directory n /\ inode_num n1 = inode_num n /\
    take (length (storage n)) (storage n1) = storage n.
Proof.
  intros [Hs Hc] Hl. unfold grow_to. destruct (Z.ltb_spec (node_capacity n) len) as [Hlt|Hge].
  - destruct (grow_capacity_total _ len Hc ltac:(lia)) as [c Hg]. rewrite Hg.
    pose proof (grow_capacity_ge _ _ _ _ Hg). eexists. split; [done|]. unfold node_capacity in *.
    assert (Z.of_nat (length (realloc (storage n) c)) = c) as Hr by (apply realloc_length; lia).
    split; [split; unfold node_capacity; simpl; rewrite Hr; [lia|by eapply grow_capacity_ok]|].
    do 3 (split; [done|]). simpl. apply realloc_prefix. lia.
  - eexists. split; [done|]. unfold node_capacity in *.
    split; [split; unfold node_capacity; simpl; [lia|done]|]. do 3 (split; [done|]).
    simpl. by apply take_ge.
Qed.

Lemma Node_read_spec fl count off n :
  node_wf n -> is_directory n = false -> 0 <= count -> 0 <= off ->
  off + count < 18446744073709551616 ->
  Node_read fl count off n
  = Return (Z.of_nat (length (sub (file_content n) off count)), sub (file_content n) off count) n.
Proof.
  intros Hwf Hd Hc Ho Hs. pose proof (file_content_length n Hwf) as Hlen. destruct Hwf as [Hw _].
  unfold Node_read. rewrite Hd. unfold node_capacity in *.
  destruct (Z.leb_spec (size n) off) as [Hle|Hlt].
  - assert (sub (file_content n) off count = []) as ->; [|done].
    unfold sub at 1. rewrite drop_ge by lia. apply take_nil.
  - rewrite u64_small by lia.
    set (a := if size n <? off + count then size n - off else count).
    assert (Ha : a = Z.min count (size n - off)) by (unfold a; destruct (Z.ltb_spec (size n) (off + count)); lia).
    destruct (Z.ltb_spec (Z.of_nat (length (storage n))) (off + a)); [lia|].
    assert (sub (file_content n) off count = sub (storage n) off a) as ->.
    { unfold file_content, sub. apply list_eq. intros i. rewrite !lookup_take, !lookup_drop, lookup_take. simpl.
      repeat case_decide; try done; try lia. }
    by rewrite sub_length by lia.
Qed.

Lemma file_content_lookup n i :
  Z.of_nat i < size n -> file_content n !! i = storage n !! i.
Proof. intros Hi. unfold file_content. rewrite sub_lookup by lia. f_equal. lia. Qed.

Lemma file_content_ge n i :
  node_wf n -> size n <= Z.of_nat i -> file_content n !! i = None.
Proof. intros Hwf Hi. apply lookup_ge_None. pose proof (file_content_length n Hwf). lia. Qed.

(** What a write inside the address range does, byte by byte. *)
Definition write_result (buf : list Z) (off : Z) (n n' : NodeData) : Prop :=
  node_wf n' /\ size n' = Z.max (size n) (off + Z.of_nat (length buf)) /\
  is_directory n' = is_directory n /\ inode_num n' = inode_num n /\
  (forall i, Z.of_nat i < off -> Z.of_nat i < size n ->
     file_content n' !! i = file_content n !! i) /\
  (forall i, off <= Z.of_nat i < off + Z.of_nat (length buf) ->
     file_content n' !! i = buf !! (i - Z.to_nat off)%nat) /\
  (forall i, off + Z.of_nat (length buf) <= Z.of_nat i ->
     file_content n' !! i = file_content n !! i).

Lemma Node_write_grown buf off n n1 :
  node_wf n -> node_wf n1 -> 0 <= off -> buf <> [] ->
  size n1 = Z.max (size n) (off + Z.of_nat (length buf)) ->
  is_directory n1 = is_directory n -> inode_num n1 = inode_num n ->
  take (length (storage n)) (storage n1) = storage n ->
  write_result buf off n
    (mkNodeData (is_directory n1) (inode_num n1) (blit off buf (storage n1)) (size n1)).
Proof.
  intros Hwf Hwf1 Ho Hb Hs Hd Hi Hp. pose proof Hwf as [Hw _]. pose proof Hwf1 as [Hw1 Hc1].
  unfold node_capacity in *.
  set (n' := mkNodeData _ _ _ _).
  assert (Hn' : node_wf n').
  { split; unfold node_capacity; simpl; by rewrite blit_length. }
  assert (Hold : forall i, Z.of_nat i < size n -> storage n1 !! i = storage n !! i).
  { intros i Hi'. rewrite <- Hp, lookup_take_lt by lia. done. }
  split; [done|]. split; [done|]. split; [done|]. split; [done|]. split; [|split].
  - intros i H1 H2. rewrite !file_content_lookup by (simpl; lia). simpl.
    rewrite blit_lookup_out by lia. auto.
  - intros i H1. rewrite file_content_lookup by (simpl; lia). simpl.
    rewrite blit_lookup_in by lia. done.
  - intros i H1. destruct (Z_lt_le_dec (Z.of_nat i) (size n)).
    + rewrite !file_content_lookup by (simpl; lia). simpl. rewrite blit_lookup_out by lia. auto.
    + rewrite !file_content_ge; try done. simpl. lia.
Qed.

(** A write of a non-empty buffer returns its length. *)
Lemma Node_write_returns fl buf off n :
  node_wf n -> is_directory n = false -> buf <> [] -> 0 <= off ->
  off + Z.of_nat (length buf) <= 4611686018427387904 ->
  exists n', Node_write fl buf off n = Return (Z.of_nat (length buf)) n' /\ write_result buf off n n'.
Proof.
  intros Hwf Hd Hb Ho Hl. unfold Node_write. rewrite Hd. pose proof Hwf as [Hs Hc].
  assert (0 < Z.of_nat (length buf)) by (destruct buf; simpl; [done|lia]).
  destruct (Z.eqb_spec (Z.of_nat (length buf)) 0); [lia|]. rewrite u64_small by lia.
  assert (exists n1, (if size n <? off + Z.of_nat (length buf)
            then grow_to (off + Z.of_nat (length buf)) n else Some n) = Some n1 /\ node_wf n1 /\
          size n1 = Z.max (size n) (off + Z.of_nat (length buf)) /\
          is_directory n1 = is_directory n /\ inode_num n1 = inode_num n /\
          take (length (storage n)) (storage n1) = storage n) as (n1 & -> & Hwf1 & Hs1 & Hd1 & Hi1 & Hp1).
  { destruct (Z.ltb_spec (size n) (off + Z.of_nat (length buf))).
    - destruct (grow_to_spec (off + Z.of_nat (length buf)) n Hwf ltac:(lia))
        as (n1 & Hg & Hw1 & Hs1 & Hd1 & Hi1 & Hp1). exists n1. rewrite Hs1. split; [done|].
      split; [done|]. split; [lia|]. done.
    - exists n. split; [done|]. split; [done|]. split; [lia|]. split; [done|]. split; [done|].
      by apply take_ge. }
  pose proof Hwf1 as [Hw1 _].
  destruct (Z.ltb_spec (node_capacity n1) (off + Z.of_nat (length buf))); [lia|].
  eexists. split; [reflexivity|].
  exact (Node_write_grown buf off n n1 Hwf Hwf1 Ho Hb Hs1 Hd1 Hi1 Hp1).
Qed.

(** C11: a write of a non-empty buffer to a file returns its length; the bytes
    written can be read back, every other byte of the old contents is what it
    was, and the file ends at the larger of the old end and the write's end. *)
Theorem Node_write_spec fl buf off n :
  node_wf n -> is_directory n = false -> buf <> [] -> 0 <= off ->
  off + Z.of_nat (length buf) <= 4611686018427387904 ->
  exists n', Node_write fl buf off n = Return (Z.of_nat (length buf)) n' /\
    write_result buf off n n' /\
    Node_read fl (Z.of_nat (length buf)) off n' = Return (Z.of_nat (length buf), buf) n'.
Proof.
  intros Hwf Hd Hb Ho Hl. destruct (Node_write_returns fl buf off n Hwf Hd Hb Ho Hl) as (n' & -> & Hr).
  exists n'. split; [done|]. split; [done|].
  destruct Hr as (Hwf' & Hs' & Hd' & _ & _ & Hin & _). pose proof Hwf as [Hs _].
  rewrite (Node_read_spec fl _ off n') by (lia || done || congruence).
  assert (sub (file_content n') off (Z.of_nat (length buf)) = buf) as ->; [|done].
  pose proof (file_content_length n' Hwf') as Hlen.
  apply list_eq. intros i. destruct (decide (i < length buf)%nat) as [Hi|Hi].
  - rewrite sub_lookup, Hin by lia. f_equal. lia.
  - rewrite !lookup_ge_None_2; [done|lia|]. apply Nat2Z.inj_le. rewrite sub_length by lia. lia.
Qed.

(** truncating a file to zero and growing it back exposes its old bytes:
    the extension is not zero-filled. *)
Theorem Node_truncate_exposes_stale n :
  node_wf n -> is_directory n = false -> 0 < size n ->
  exists n1 n2, Node_truncate 0 n = Some (0, n1) /\ file_content n1 = [] /\
    Node_truncate (size n) n1 = Some (0, n2) /\ file_content n2 = file_content n.
Proof.
  intros Hwf Hd Hs. pose proof Hwf as [Hw _]. unfold Node_truncate at 1. rewrite Hd.
  destruct (Z.ltb_spec (size n) 0); [lia|]. eexists _, _. split; [reflexivity|]. split; [done|].
  unfold Node_truncate. cbn [is_directory size inode_num storage]. rewrite Hd.
  destruct (Z.ltb_spec 0 (size n)); [|lia]. unfold grow_to, node_capacity in *.
  cbn [storage]. destruct (Z.ltb_spec (Z.of_nat (length (storage n))) (size n)); [lia|].
  cbn [is_directory size inode_num storage]. rewrite Z.sub_diag. cbn [Z.to_nat replicate u64 uN].
  split; [reflexivity|]. done.
Qed.

(** a read whose end wraps around the address space is not clipped to the
    file: it copies past the end of the storage. *)
Theorem Node_read_overflow fl count off n :
  node_wf n -> is_directory n = false -> 0 <= off < size n ->
  count < 18446744073709551616 -> 18446744073709551616 <= off + count ->
  Node_read fl count off n = Crash.
Proof.
  intros Hwf Hd Ho Hc Hw. pose proof Hwf as [Hs Hcap]. apply cap_ok_le in Hcap.
  unfold Node_read. rewrite Hd. destruct (Z.leb_spec (size n) off); [lia|].
  assert (u64 (off + count) = off + count - 18446744073709551616) as ->.
  { unfold uN. change (2 ^ 64) with 18446744073709551616.
    rewrite <- (Z_mod_plus_full (off + count) (-1)). apply Z.mod_small. lia. }
  destruct (Z.ltb_spec (size n) (off + count - 18446744073709551616)); [lia|].
  destruct (Z.ltb_spec (node_capacity n) (off + count)); [done|lia].
Qed.

#[export] Instance Node_VNodeFile :
  VNodeFile NodeData (fun n => node_wf n /\ is_directory n = false) file_content.
Proof. intros fl count off n [Hwf Hd] Hc Ho Hs. by apply Node_read_spec. Qed.

#[export] Instance Node_VNodeLaws : VNodeLaws NodeData node_wf.
Proof.
  split; simpl.
  - intros fl count off n Hwf Hc Ho. destruct (is_directory n) eqn:Hd.
    { unfold Node_read. rewrite Hd. split; [done|]. by left. }
    rewrite Node_read_spec by (done || lia). split; [done|]. right. split; [|done].
    unfold sub. rewrite length_take. lia.
  - intros fl buf off n Hwf _ Hl Ho. destruct (is_directory n) eqn:Hd.
    { unfold Node_write. rewrite Hd. split; [done|]. by left. }
    destruct (decide (buf = [])) as [->|Hb].
    { unfold Node_write. rewrite Hd. split; [done|]. right. done. }
    destruct (Node_write_returns fl buf off n Hwf Hd Hb ltac:(lia) ltac:(lia)) as (n' & -> & Hw & _).
    split; [done|]. right. lia.
  - intros fl ev count off n _ _ _ n'. unfold Node_read. repeat case_match; done.
Qed.

End NodeProofs.

(** ** Concrete instances: an allocator that fills new bytes with 170. *)
#[local] Instance realloc_170 : Realloc.
Proof.
  refine {| realloc l n := take (Z.to_nat n) (l ++ replicate (Z.to_nat n) 170) |}.
  - intros l n Hn. rewrite length_take, length_app, length_replicate. lia.
  - intros l n Hl. rewrite take_take, Nat.min_l by lia. rewrite take_app_le by lia. by apply take_ge.
Defined.

Definition node_example : NodeData := mkNodeData false 7 [104; 101; 108; 111] 3.

Lemma node_example_wf : node_wf node_example.
Proof. split; [vm_compute; split; discriminate|]. right. exists 1%nat. split; [lia|reflexivity]. Qed.

Lemma Node_write_spec_witness :
  exists n', Node_write 1 [9; 9; 9] 2 node_example = Return 3 n' /\
    Node_read 1 3 2 n' = Return (3, [9; 9; 9]) n'.
Proof.
  destruct (Node_write_spec 1 [9; 9; 9] 2 node_example) as (n' & H1 & _ & H2).
  - apply node_example_wf.
  - reflexivity.
  - discriminate.
  - lia.
  - simpl. lia.
  - exists n'. split; [exact H1|exact H2].
Defined.

Lemma Node_truncate_exposes_stale_witness :
  exists n1 n2, Node_truncate 0 node_example = Some (0, n1) /\ file_content n1 = [] /\
    Node_truncate 3 n1 = Some (0, n2) /\ file_content n2 = [104; 101; 108].
Proof.
  apply (Node_truncate_exposes_stale node_example); [apply node_example_wf|reflexivity|reflexivity].
Defined.

Lemma Node_read_overflow_witness : Node_read 0 18446744073709551615 1 node_example = Crash.
Proof.
  apply (Node_read_overflow 0 18446744073709551615 1 node_example);
    [apply node_example_wf|reflexivity|simpl; lia|lia|lia].
Defined.

(** A system with one open file. *)
Definition file_system_example (t : Thread) : Sys NodeData :=
  mkSys fd_example (<[1 := node_example]> (<[2 := node_example]> ∅)) t.

Lemma VNode_readv_is_read_witness :
  VNode_readv 16 [1; 0; 4] 1 0 [] (file_system_example (thread_example 0)) []
  = method_read 16 5 1 (file_system_example (thread_example 0)) [].
Proof.
  apply (VNode_readv_is_read (fun n => node_wf n /\ is_directory n = false) file_content
    16 (file_system_example (thread_example 0)) [] (mkDescription 1 0 2 2) node_example [1; 0; 4] 1).
  - reflexivity.
  - split; [apply node_example_wf|reflexivity].
  - repeat constructor; lia.
  - lia.
  - simpl. lia.
Defined.

Lemma file_system_example_ok t : sys_ok node_wf (file_system_example t).
Proof.
  split; simpl.
  - intros p d Hd. apply lookup_insert_Some in Hd as [[<- <-]|[_ Hd]]; [vm_compute; eauto|].
    apply lookup_insert_Some in Hd as [[<- <-]|[_ Hd]]; [vm_compute; eauto|]. by rewrite lookup_empty in Hd.
  - intros n v Hv. apply lookup_insert_Some in Hv as [[_ <-]|[_ Hv]]; [apply node_example_wf|].
    apply lookup_insert_Some in Hv as [[_ <-]|[_ Hv]]; [apply node_example_wf|]. by rewrite lookup_empty in Hv.
Qed.

Lemma syscall_read_spec_witness :
  match syscall_read 0 2 (file_system_example (thread_example 0)) [] with
  | Done (r, bs) s' _ => r = 2 /\ bs = [104; 101] /\ cursor_of 16 s' = 2
  | _ => False
  end.
Proof.
  pose proof (syscall_read_spec node_wf 0 2 (file_system_example (thread_example 0)) []
    (file_system_example_ok _) ltac:(lia)) as H.
  destruct (syscall_read 0 2 (file_system_example (thread_example 0)) []) as [[r bs] s' ws| |] eqn:E.
  - vm_compute in E. injection E as <- <- <- _. split; [reflexivity|]. split; reflexivity.
  - vm_compute in E. discriminate.
  - apply H. intros p -> _. split; [vm_compute; eauto|]. split; [vm_compute; split; [discriminate|reflexivity]|constructor].
Defined.

Lemma ppoll_ready_witness :
  let s := (file_system_example (thread_example 0), false) in
  exists r out, ppoll_impl [mkPollfd 0 1 0; mkPollfd (-1) 1 0] (Some (0, 0)) None s [] = Done (r, out) s [] /\
    map poll_fd out = [0; -1] /\ r = 1.
Proof.
  intros s. do 2 eexists. split; [vm_compute; reflexivity|].
  edestruct (ppoll_ready node_wf [mkPollfd 0 1 0; mkPollfd (-1) 1 0] (Some (0, 0)) None s []) as (H1 & H2 & _).
  - vm_compute; reflexivity.
  - lia.
  - apply file_system_example_ok.
  - split; [exact H1|reflexivity].
Defined.
