(* ===== verification/Pmm.v ===== *)
(** The physical page allocator (src/kernel/src/mem/pmm.cpp): regions with
    their page structures, the free list, and the lookup of a page structure
    from a physical address. *)
From S2P Require Import Prelude.

Definition sizeof_Region : Z := 32.
Definition sizeof_Page : Z := 32.

Record Page : Type := mkPage { page_free : bool; mapped_addr : Z }.

(** A region is identified by its physical base, where its header lives. *)
Record Region : Type := mkRegion { base_phy : Z; num_pages : Z }.

Definition end_phy (r : Region) : Z := base_phy r + num_pages r * PAGE_SIZE.
Definition num_pages_reserved (r : Region) : Z :=
  (sizeof_Region + num_pages r * sizeof_Page + PAGE_SIZE - 1) / PAGE_SIZE.
Definition num_pages_usable (r : Region) : Z := u64 (num_pages r - num_pages_reserved r).

#[export] Instance Region_eq_dec : EqDecision Region.
Proof. solve_decision. Defined.

(** Page structures are named by their page frame numbers. *)
Record Pmm : Type := mkPmm {
  region_list : list Region;
  pages : gmap Z Page;
  page_freelist : list Z;
  total_pages_usable : Z;
  total_pages_reserved : Z;
  total_free_pages : Z
}.

Definition phy (pfn : Z) : Z := pfn * PAGE_SIZE.

(** The loop that initialises the page structures of a region, from [pfn] on. *)
Fixpoint absorb_pages (n : nat) (pfn : Z) (s : Pmm) : Pmm :=
  match n with
  | O => s
  | S n =>
      absorb_pages n (pfn + 1)
        (mkPmm (region_list s) (<[pfn := mkPage true 0]> (pages s)) (page_freelist s ++ [pfn])
           (total_pages_usable s) (total_pages_reserved s) (total_free_pages s + 1))
  end.

Definition absorb_memmap_entry (base len : Z) (s : Pmm) : Pmm :=
  let pfn_start0 := base / PAGE_SIZE in
  let pfn_end0 := base / PAGE_SIZE + len / PAGE_SIZE in
  let pfn_start := if base mod PAGE_SIZE =? 0 then pfn_start0 else pfn_start0 + 1 in
  let pfn_end := if len mod PAGE_SIZE =? 0 then pfn_end0 else pfn_end0 - 1 in
  let region := mkRegion (pfn_start * PAGE_SIZE) (u64 (pfn_end - pfn_start)) in
  absorb_pages (Z.to_nat (num_pages_usable region)) (pfn_start + num_pages_reserved region)
    (mkPmm (region_list s ++ [region]) (pages s) (page_freelist s) (total_pages_usable s)
       (total_pages_reserved s + num_pages_reserved region) (total_free_pages s)).

(** The usable entries of the memory map, as base and length. *)
Definition Pmm_init (entries : list (Z * Z)) : Pmm :=
  let s := fold_left (fun s e => absorb_memmap_entry (fst e) (snd e) s) entries
             (mkPmm [] ∅ [] 0 0 0) in
  mkPmm (region_list s) (pages s) (page_freelist s) (total_free_pages s)
    (total_pages_reserved s) (total_free_pages s).

(** The loop of [find_page]: the outer option is the [ASSERT], the inner one
    the null pointer. *)
Fixpoint find_page_in (rs : list Region) (p : Z) (s : Pmm) : option (option Z) :=
  match rs with
  | [] => Some None
  | r :: rs' =>
      if (p <? base_phy r) || (end_phy r <? p) then find_page_in rs' p s
      else
        let offset_pages := (p - base_phy r) / PAGE_SIZE in
        if offset_pages <? num_pages_reserved r then Some None
        else
          let index := offset_pages - num_pages_reserved r in
          if index <? num_pages_usable r then
            let pfn := base_phy r / PAGE_SIZE + num_pages_reserved r + index in
            if phy pfn =? p then Some (Some pfn) else None
          else None
  end.
Definition find_page (p : Z) (s : Pmm) : option (option Z) := find_page_in (region_list s) p s.

Definition alloc_page (s : Pmm) : option (Z * Pmm) :=
  match page_freelist s with
  | [] => None
  | pfn :: rest =>
      match pages s !! pfn with
      | Some pg =>
          if page_free pg
          then Some (pfn, mkPmm (region_list s) (<[pfn := mkPage false (mapped_addr pg)]> (pages s)) rest
                 (total_pages_usable s) (total_pages_reserved s) (total_free_pages s - 1))
          else None
      | None => None
      end
  end.

Definition free_page (pfn : Z) (s : Pmm) : option Pmm :=
  match pages s !! pfn with
  | Some pg =>
      if page_free pg then None
      else Some (mkPmm (region_list s) (<[pfn := mkPage true 0]> (pages s)) (pfn :: page_freelist s)
             (total_pages_usable s) (total_pages_reserved s) (total_free_pages s + 1))
  | None => None
  end.

(** [alloc_pages] insists on a single page. *)
Definition alloc_pages (n : Z) (s : Pmm) : option (Z * Pmm) :=
  if n =? 1 then
    match alloc_page s with Some (pfn, s') => Some (phy pfn, s') | None => None end
  else None.

(** ** The invariant *)

(** [pfn] is the frame of a usable page of region [r]. *)
Definition in_region (r : Region) (pfn : Z) : Prop :=
  base_phy r / PAGE_SIZE + num_pages_reserved r <= pfn < base_phy r / PAGE_SIZE + num_pages r.

Record region_ok (r : Region) : Prop := {
  ro_aligned : base_phy r mod PAGE_SIZE = 0;
  ro_base : 0 <= base_phy r;
  ro_count : 0 < num_pages r < 4503599627370496
}.

Record pmm_wf (s : Pmm) : Prop := {
  pw_nodup : NoDup (page_freelist s);
  pw_free : forall pfn, pfn ∈ page_freelist s <-> exists a, pages s !! pfn = Some (mkPage true a);
  pw_count : total_free_pages s = Z.of_nat (length (page_freelist s));
  pw_regions : forall r, r ∈ region_list s -> region_ok r;
  pw_disjoint : forall i j r1 r2, region_list s !! i = Some r1 -> region_list s !! j = Some r2 ->
    i <> j -> end_phy r1 <= base_phy r2 \/ end_phy r2 <= base_phy r1;
  pw_pages : forall pfn, is_Some (pages s !! pfn) <-> exists r, r ∈ region_list s /\ in_region r pfn
}.

Lemma reserved_bounds r :
  region_ok r -> 0 < num_pages_reserved r <= num_pages r /\
  sizeof_Region + num_pages r * sizeof_Page <= num_pages_reserved r * PAGE_SIZE.
Proof.
  intros [_ _ Hc]. unfold num_pages_reserved, sizeof_Region, sizeof_Page, PAGE_SIZE.
  set (x := 32 + num_pages r * 32 + 4096 - 1).
  pose proof (Z.div_mod x 4096 ltac:(lia)). pose proof (Z.mod_pos_bound x 4096 ltac:(lia)).
  assert (x = 32 + num_pages r * 32 + 4096 - 1) by done. lia.
Qed.

Lemma usable_eq r : region_ok r -> num_pages_usable r = num_pages r - num_pages_reserved r.
Proof.
  intros H. destruct (reserved_bounds r H) as [[? ?] _]. destruct H as [_ _ ?].
  unfold num_pages_usable. apply u64_small. lia.
Qed.

Lemma region_pfn r : region_ok r -> base_phy r = base_phy r / PAGE_SIZE * PAGE_SIZE.
Proof.
  intros [Ha _ _]. unfold PAGE_SIZE in *. pose proof (Z.div_mod (base_phy r) 4096 ltac:(lia)). lia.
Qed.

(** The page structures are inside the reserved pages of their region. *)
Lemma alloc_page_wf s pfn s' : pmm_wf s -> alloc_page s = Some (pfn, s') -> pmm_wf s'.
Proof.
  intros [] H. unfold alloc_page in H. destruct (page_freelist s) as [|p rest] eqn:Hf; [done|].
  destruct (pages s !! p) as [pg|] eqn:Hp; [|done]. destruct (page_free pg) eqn:Hfree; [|done].
  simplify_eq. apply NoDup_cons in pw_nodup0 as [Hnin Hnd]. constructor; simpl; auto.
  - intros q. rewrite lookup_insert. case_decide as Hq.
    + subst q. split; [done|]. intros [a Ha]. simplify_eq.
    + rewrite <- pw_free0. split; [by right|]. intros [->|]%elem_of_cons; done.
  - simpl in pw_count0. lia.
  - intros q. rewrite lookup_insert_is_Some, <- pw_pages0.
    split; [intros [->|[_ ?]]; [eauto|done]|]. destruct (decide (pfn = q)); auto.
Qed.

Lemma free_page_wf s pfn s' : pmm_wf s -> free_page pfn s = Some s' -> pmm_wf s'.
Proof.
  intros [] H. unfold free_page in H.
  destruct (pages s !! pfn) as [pg|] eqn:Hp; [|done]. destruct (page_free pg) eqn:Hfree; [done|].
  simplify_eq. constructor; simpl; auto.
  - apply NoDup_cons. split; [|done]. rewrite pw_free0. intros [a Ha]. by simplify_eq/=.
  - intros q. rewrite lookup_insert, elem_of_cons. case_decide as Hq.
    + subst q. split; [eauto|by left].
    + rewrite pw_free0. split; [intros [->|?]; done|by right].
  - lia.
  - intros q. rewrite lookup_insert_is_Some, <- pw_pages0.
    split; [intros [->|[_ ?]]; [eauto|done]|]. destruct (decide (pfn = q)); auto.
Qed.

(** ** Absorbing a memory map *)
Lemma absorb_pages_spec n pfn s :
  pmm_wf s -> (forall q, pfn <= q < pfn + Z.of_nat n -> pages s !! q = None) ->
  let s' := absorb_pages n pfn s in
  region_list s' = region_list s /\ NoDup (page_freelist s') /\
  (forall q, q ∈ page_freelist s' <-> exists a, pages s' !! q = Some (mkPage true a)) /\
  total_free_pages s' = Z.of_nat (length (page_freelist s')) /\
  (forall q, is_Some (pages s' !! q) <-> is_Some (pages s !! q) \/ pfn <= q < pfn + Z.of_nat n).
Proof.
  intros [Hnd Hfree Hcnt _ _ _]. revert pfn s Hnd Hfree Hcnt.
  induction n as [|n IH]; intros pfn s Hnd Hfree Hcnt Hnew; simpl.
  { split; [done|]. do 3 (split; [done|]). intros q. split; [by left|]. intros [?|?]; [done|lia]. }
  edestruct (IH (pfn + 1)) as (H1 & H2 & H3 & H4 & H5); cycle 4.
  - split; [exact H1|]. split; [exact H2|]. split; [exact H3|]. split; [exact H4|].
    intros q. rewrite H5. simpl. rewrite lookup_insert_is_Some.
    destruct (decide (pfn = q)) as [->|]; [split; [right; lia|left; by left]|].
    split; [intros [[?|[_ ?]]|?]; [done|by left|right; lia]|].
    intros [?|?]; [left; by right|right; lia].
  - simpl. apply NoDup_app. split; [done|]. split; [|apply NoDup_singleton].
    intros x Hx Hx2. apply list_elem_of_singleton in Hx2 as ->. apply Hfree in Hx as [a Ha].
    rewrite Hnew in Ha by lia. done.
  - simpl. intros q. rewrite elem_of_app, list_elem_of_singleton, lookup_insert.
    case_decide as Hq; [subst; split; [eauto|by right]|]. rewrite Hfree.
    split; [intros [?|?]; [done|by subst]|by left].
  - simpl. rewrite length_app. simpl. lia.
  - intros q Hq. simpl. rewrite lookup_insert_ne by lia. apply Hnew. lia.
Qed.

(** The region list and the statistics do not matter to the page loop. *)
Lemma absorb_pages_congr n p a b :
  pages a = pages b -> page_freelist a = page_freelist b -> total_free_pages a = total_free_pages b ->
  pages (absorb_pages n p a) = pages (absorb_pages n p b) /\
  page_freelist (absorb_pages n p a) = page_freelist (absorb_pages n p b) /\
  total_free_pages (absorb_pages n p a) = total_free_pages (absorb_pages n p b) /\
  region_list (absorb_pages n p a) = region_list a.
Proof.
  revert p a b. induction n as [|n IH]; intros p a b E1 E2 E3; [done|]. simpl.
  match goal with |- context [absorb_pages n (p + 1) (mkPmm (region_list a) ?x ?y ?z ?u ?v)] =>
    set (a1 := mkPmm (region_list a) x y z u v) end.
  match goal with |- context [absorb_pages n (p + 1) (mkPmm (region_list b) ?x ?y ?z ?u ?v)] =>
    set (b1 := mkPmm (region_list b) x y z u v) end.
  apply (IH (p + 1) a1 b1); unfold a1, b1; simpl; congruence.
Qed.

(** An entry of the memory map the boot loader reports as usable. *)
Definition entry_ok (e : Z * Z) : Prop :=
  fst e mod PAGE_SIZE = 0 /\ snd e mod PAGE_SIZE = 0 /\ 0 <= fst e /\
  0 < snd e /\ fst e + snd e < 18446744073709551616.
Definition entry_region (e : Z * Z) : Region := mkRegion (fst e) (snd e / PAGE_SIZE).

Lemma entry_region_ok e : entry_ok e -> region_ok (entry_region e) /\ end_phy (entry_region e) = fst e + snd e.
Proof.
  intros (H1 & H2 & H3 & H4 & H5). unfold PAGE_SIZE in *. unfold entry_region, end_phy, PAGE_SIZE; simpl.
  pose proof (Z.div_mod (snd e) 4096 ltac:(lia)). split; [|lia]. split; simpl; unfold PAGE_SIZE; lia.
Qed.

Lemma absorb_region e s :
  entry_ok e -> absorb_memmap_entry (fst e) (snd e) s
  = let r := entry_region e in
    absorb_pages (Z.to_nat (num_pages_usable r)) (fst e / PAGE_SIZE + num_pages_reserved r)
      (mkPmm (region_list s ++ [r]) (pages s) (page_freelist s) (total_pages_usable s)
         (total_pages_reserved s + num_pages_reserved r) (total_free_pages s)).
Proof.
  intros (H1 & H2 & H3 & H4 & H5). unfold absorb_memmap_entry. rewrite H1, H2. cbn [Z.eqb].
  unfold PAGE_SIZE in *.
  assert (u64 (fst e / 4096 + snd e / 4096 - fst e / 4096) = snd e / 4096) as ->.
  { replace (fst e / 4096 + snd e / 4096 - fst e / 4096) with (snd e / 4096) by lia.
    pose proof (Z.div_mod (snd e) 4096 ltac:(lia)). apply u64_small. lia. }
  assert (fst e / 4096 * 4096 = fst e) as -> by (pose proof (Z.div_mod (fst e) 4096 ltac:(lia)); lia).
  done.
Qed.

Lemma in_region_disjoint r1 r2 q :
  region_ok r1 -> region_ok r2 -> end_phy r1 <= base_phy r2 \/ end_phy r2 <= base_phy r1 ->
  in_region r1 q -> in_region r2 q -> False.
Proof.
  intros Ho1 Ho2 Hd H1 H2. pose proof (region_pfn r1 Ho1). pose proof (region_pfn r2 Ho2).
  destruct (reserved_bounds r1 Ho1) as [? _], (reserved_bounds r2 Ho2) as [? _].
  unfold in_region, end_phy, PAGE_SIZE in *. lia.
Qed.

Lemma absorb_wf e s :
  pmm_wf s -> entry_ok e ->
  (forall r, r ∈ region_list s -> end_phy r <= fst e \/ fst e + snd e <= base_phy r) ->
  let s' := absorb_memmap_entry (fst e) (snd e) s in
  pmm_wf s' /\ region_list s' = region_list s ++ [entry_region e].
Proof.
  intros Hwf He Hdis. pose proof Hwf as []. destruct (entry_region_ok e He) as [Hro Hend].
  rewrite absorb_region by done. cbn zeta. set (r := entry_region e) in *.
  set (s0 := mkPmm _ _ _ _ _ _).
  destruct (reserved_bounds r Hro) as [Hres _]. pose proof (usable_eq r Hro) as Hus.
  assert (Hfresh : forall q, fst e / PAGE_SIZE + num_pages_reserved r <= q <
      fst e / PAGE_SIZE + num_pages_reserved r + Z.of_nat (Z.to_nat (num_pages_usable r)) ->
      pages s !! q = None).
  { intros q Hq. destruct (pages s !! q) eqn:Hp; [|done]. exfalso.
    destruct (proj1 (pw_pages0 q)) as (r1 & Hr1 & Hin); [by rewrite Hp|].
    apply (in_region_disjoint r1 r q); [auto|done| |done|].
    - change (base_phy r) with (fst e). destruct (Hdis r1 Hr1); lia.
    - unfold in_region. change (base_phy r) with (fst e). lia. }
  assert (Hq : forall q, fst e / PAGE_SIZE + num_pages_reserved r <= q <
      fst e / PAGE_SIZE + num_pages_reserved r + Z.of_nat (Z.to_nat (num_pages_usable r)) <-> in_region r q).
  { intros q. unfold in_region. change (base_phy r) with (fst e). lia. }
  destruct (absorb_pages_spec (Z.to_nat (num_pages_usable r)) (fst e / PAGE_SIZE + num_pages_reserved r) s Hwf Hfresh)
    as (_ & H2 & H3 & H4 & H5).
  destruct (absorb_pages_congr (Z.to_nat (num_pages_usable r)) (fst e / PAGE_SIZE + num_pages_reserved r)
    s0 s eq_refl eq_refl eq_refl) as (E1 & E2 & E3 & E4).
  split; [|done]. constructor; rewrite ?E1, ?E2, ?E3, ?E4; auto.
  - simpl. intros r1 [Hr1|Hr1%list_elem_of_singleton]%elem_of_app; [auto|by subst].
  - simpl. intros i j r1 r2 Hi Hj Hij.
    apply lookup_app_Some in Hi as [Hi|[Hi1 Hi]]; apply lookup_app_Some in Hj as [Hj|[Hj1 Hj]].
    + eauto.
    + apply list_lookup_singleton_Some in Hj as [_ <-].
      apply list_elem_of_lookup_2 in Hi. change (base_phy r) with (fst e). destruct (Hdis r1 Hi); lia.
    + apply list_lookup_singleton_Some in Hi as [_ <-].
      apply list_elem_of_lookup_2 in Hj. change (base_phy r) with (fst e). destruct (Hdis r2 Hj); lia.
    + apply list_lookup_singleton_Some in Hi as [? <-].
      apply list_lookup_singleton_Some in Hj as [? <-]. lia.
  - intros q. rewrite H5, pw_pages0, Hq. simpl. split.
    + intros [(r1 & Hr1 & Hin)|Hin]; [exists r1|exists r]; rewrite elem_of_app, list_elem_of_singleton; auto.
    + intros (r1 & Hr1 & Hin). rewrite elem_of_app, list_elem_of_singleton in Hr1.
      destruct Hr1 as [?| ->]; eauto.
Qed.

(** A memory map whose usable entries do not overlap. *)
Definition memmap_ok (es : list (Z * Z)) : Prop :=
  Forall entry_ok es /\
  ForallOrdPairs (fun e1 e2 => fst e1 + snd e1 <= fst e2 \/ fst e2 + snd e2 <= fst e1) es.

Definition pmm_empty : Pmm := mkPmm [] ∅ [] 0 0 0.

Lemma pmm_empty_wf : pmm_wf pmm_empty.
Proof.
  constructor; simpl; try done.
  - constructor.
  - intros q. split; [by intros ?%not_elem_of_nil|]. intros [a Ha]. by rewrite lookup_empty in Ha.
  - intros r Hr. by apply not_elem_of_nil in Hr.
  - intros q. split; [intros [? Ha]; by rewrite lookup_empty in Ha|].
    intros (r & Hr & _). by apply not_elem_of_nil in Hr.
Qed.

Lemma absorb_fold_wf es s :
  pmm_wf s -> memmap_ok es ->
  Forall (fun e => forall r, r ∈ region_list s -> end_phy r <= fst e \/ fst e + snd e <= base_phy r) es ->
  let s' := fold_left (fun s e => absorb_memmap_entry (fst e) (snd e) s) es s in
  pmm_wf s' /\ region_list s' = region_list s ++ map entry_region es.
Proof.
  intros Hwf [Hes Hpairs]. revert s Hwf. induction Hpairs as [|e es He Hpairs IH]; intros s Hwf Hd; simpl.
  { by rewrite app_nil_r. }
  apply Forall_cons in Hes as [Hok Hes]. apply Forall_cons in Hd as [Hd0 Hd].
  destruct (absorb_wf e s Hwf Hok Hd0) as [Hwf' Hrl].
  destruct (IH Hes _ Hwf') as [H1 H2].
  - rewrite Hrl. rewrite Forall_forall in Hd, He |- *. intros e2 Hin r Hr.
    apply elem_of_app in Hr as [Hr|Hr%list_elem_of_singleton]; [by apply Hd|subst].
    destruct (entry_region_ok e Hok) as [_ Hend]. rewrite Hend. simpl.
    destruct (He e2 Hin); lia.
  - split; [done|]. by rewrite H2, Hrl, <- app_assoc.
Qed.

Lemma Pmm_init_wf es :
  memmap_ok es -> pmm_wf (Pmm_init es) /\ region_list (Pmm_init es) = map entry_region es.
Proof.
  intros Hok. destruct (absorb_fold_wf es pmm_empty pmm_empty_wf Hok) as [[] Hrl].
  { apply Forall_forall. intros e _ r Hr. by apply not_elem_of_nil in Hr. }
  split; [by constructor|done].
Qed.

(** ** Exclusive allocation *)
Inductive pmm_op : Type := PAlloc | PFree (pfn : Z).

(** The allocator with the pages its clients hold. A client frees only a page
    it holds. *)
Inductive pmm_step : Pmm * list Z -> Pmm * list Z -> Prop :=
| PmmAlloc s held pfn s' :
    alloc_page s = Some (pfn, s') -> pmm_step (s, held) (s', pfn :: held)
| PmmFree s held pfn l1 l2 s' :
    held = l1 ++ pfn :: l2 -> free_page pfn s = Some s' -> pmm_step (s, held) (s', l1 ++ l2).

Definition held_inv (c : Pmm * list Z) : Prop :=
  pmm_wf (fst c) /\ NoDup (snd c) /\
  (forall pfn, pfn ∈ snd c <-> exists a, pages (fst c) !! pfn = Some (mkPage false a)) /\
  total_free_pages (fst c) + Z.of_nat (length (snd c)) = total_pages_usable (fst c).

Lemma pmm_step_inv c c' : held_inv c -> pmm_step c c' -> held_inv c'.
Proof.
  intros (Hwf & Hnd & Hheld & Hcnt) Hstep. destruct Hstep as [s held pfn s' Ha|s held pfn l1 l2 s' -> Hf];
    simpl in *.
  - split; [by eapply alloc_page_wf|]. pose proof Hwf as []. unfold alloc_page in Ha.
    destruct (page_freelist s) as [|p rest] eqn:Hfl; [done|].
    destruct (pages s !! p) as [[[] a]|] eqn:Hp; simplify_eq/=.
    assert (pfn ∉ held) by (rewrite Hheld; intros [a' Ha']; simplify_eq).
    split; [by constructor|]. split; [|lia].
    intros q. rewrite elem_of_cons, lookup_insert. case_decide as Hq; [subst; split; [eauto|by left]|].
    rewrite Hheld. split; [intros [?|?]; [by subst|done]|by right].
  - split; [by eapply free_page_wf|]. unfold free_page in Hf.
    destruct (pages s !! pfn) as [[[] a]|] eqn:Hp; simplify_eq/=.
    rewrite <- Permutation_middle in Hnd. apply NoDup_cons in Hnd as [Hnin Hnd].
    split; [done|]. split; [|rewrite !length_app in *; simpl in *; lia].
    intros q. specialize (Hheld q). rewrite <- Permutation_middle, elem_of_cons in Hheld.
    rewrite lookup_insert. case_decide as Hq.
    + subst q. split; [done|]. intros [a' Ha']. simplify_eq.
    + rewrite <- Hheld. split; [by right|]. intros [?|?]; [by subst|done].
Qed.

(** The state after boot, with every usable page free. *)
Lemma Pmm_init_held es : memmap_ok es -> held_inv (Pmm_init es, []).
Proof.
  intros Hok. destruct (Pmm_init_wf es Hok) as [Hwf _]. split; [done|]. simpl.
  split; [constructor|]. split; [|lia]. intros q. split; [by intros ?%not_elem_of_nil|].
  intros [a Ha].
  assert (forall n p s, (forall q a, pages s !! q = Some (mkPage false a) -> False) ->
    forall q a, pages (absorb_pages n p s) !! q = Some (mkPage false a) -> False) as Hab.
  { intros n. induction n as [|n IH]; intros p s Hs; simpl; [done|]. apply IH. simpl. intros q' a' H.
    apply lookup_insert_Some in H as [[_ H]|[_ H]]; [done|eauto]. }
  assert (forall es s, (forall q a, pages s !! q = Some (mkPage false a) -> False) ->
    forall q a, pages (fold_left (fun s e => absorb_memmap_entry (fst e) (snd e) s) es s) !! q
      = Some (mkPage false a) -> False) as Hfold.
  { intros es0. induction es0 as [|e es0 IH]; intros s Hs; simpl; [done|]. apply IH. apply Hab. done. }
  exfalso. eapply (Hfold es pmm_empty); [|exact Ha]. intros q' a' H. cbn in H; by rewrite lookup_empty in H.
Qed.

(** C7: from boot on, through any sequence of allocations and of releases of
    held pages, no page is held twice, no held page is on the free list, free
    and held pages add up to the usable pages, and every page held belongs to
    the usable part of a region of the memory map. *)
Theorem pmm_allocation_exclusive es c :
  memmap_ok es -> rtc pmm_step (Pmm_init es, []) c ->
  NoDup (snd c ++ page_freelist (fst c)) /\
  total_free_pages (fst c) = Z.of_nat (length (page_freelist (fst c))) /\
  total_free_pages (fst c) + Z.of_nat (length (snd c)) = total_pages_usable (fst c) /\
  forall pfn, pfn ∈ snd c -> exists r, r ∈ region_list (fst c) /\ in_region r pfn.
Proof.
  intros Hok Hrtc. assert (held_inv c) as (Hwf & Hnd & Hheld & Hcnt).
  { pose proof (Pmm_init_held es Hok) as H0. revert H0.
    induction Hrtc as [|c1 c2 c3 Hs _ IH]; [done|]. intros H1. apply IH. by eapply pmm_step_inv. }
  pose proof Hwf as []. split; [|split; [done|split; [done|]]].
  - apply NoDup_app. split; [done|]. split; [|done]. intros q Hq Hq2.
    apply Hheld in Hq as [a Ha]. apply pw_free0 in Hq2 as [a' Ha']. simplify_eq.
  - intros pfn Hp. apply Hheld in Hp as [a Ha]. apply pw_pages0. by rewrite Ha.
Qed.

(** ** Page lookup *)
Lemma find_page_in_spec rs s r pfn :
  (forall r, r ∈ rs -> region_ok r) ->
  (forall i j r1 r2, rs !! i = Some r1 -> rs !! j = Some r2 ->
     i <> j -> end_phy r1 <= base_phy r2 \/ end_phy r2 <= base_phy r1) ->
  r ∈ rs -> in_region r pfn -> find_page_in rs (phy pfn) s = Some (Some pfn).
Proof.
  induction rs as [|r0 rs IH]; intros Hok Hdis Hin Hpfn; [by apply not_elem_of_nil in Hin|].
  pose proof (Hok r0 ltac:(by left)) as Hok0. pose proof (Hok r Hin) as Hokr.
  pose proof (region_pfn r0 Hok0) as Hb0. pose proof (region_pfn r Hokr) as Hb.
  destruct (reserved_bounds r Hokr) as [Hres _]. destruct (reserved_bounds r0 Hok0) as [Hres0 _].
  pose proof (usable_eq r0 Hok0) as Hus0.
  simpl. destruct (decide (r = r0)) as [->|Hne].
  - unfold in_region, end_phy, phy, PAGE_SIZE in *.
    destruct (Z.ltb_spec (pfn * 4096) (base_phy r0)); [lia|].
    destruct (Z.ltb_spec (base_phy r0 + num_pages r0 * 4096) (pfn * 4096)); [lia|]. cbn [orb].
    assert ((pfn * 4096 - base_phy r0) / 4096 = pfn - base_phy r0 / 4096) as ->.
    { rewrite Hb0 at 1. replace (pfn * 4096 - base_phy r0 / 4096 * 4096)
        with ((pfn - base_phy r0 / 4096) * 4096) by lia. by rewrite Z.div_mul by lia. }
    destruct (Z.ltb_spec (pfn - base_phy r0 / 4096) (num_pages_reserved r0)); [lia|].
    destruct (Z.ltb_spec (pfn - base_phy r0 / 4096 - num_pages_reserved r0) (num_pages_usable r0)); [|lia].
    replace (base_phy r0 / 4096 + num_pages_reserved r0 +
      (pfn - base_phy r0 / 4096 - num_pages_reserved r0)) with pfn by lia.
    by rewrite Z.eqb_refl.
  - apply elem_of_cons in Hin as [->|Hin]; [done|].
    apply list_elem_of_lookup in Hin as [j Hj].
    pose proof (Hdis 0%nat (S j) r0 r eq_refl Hj ltac:(lia)) as Hd.
    assert ((phy pfn <? base_phy r0) || (end_phy r0 <? phy pfn) = true) as ->.
    { apply orb_true_iff. rewrite !Z.ltb_lt. unfold in_region, end_phy, phy, PAGE_SIZE in *. lia. }
    apply IH; [intros; apply Hok; by right| |by eapply list_elem_of_lookup_2|done].
    intros i k r1 r2 Hi Hk Hik. apply (Hdis (S i) (S k) r1 r2 Hi Hk). lia.
Qed.

(** the page structure of every allocatable page is found from its
    physical address. *)
Theorem find_page_phy s pfn :
  pmm_wf s -> is_Some (pages s !! pfn) -> find_page (phy pfn) s = Some (Some pfn).
Proof.
  intros Hwf Hp. apply (pw_pages _ Hwf) in Hp as (r & Hr & Hin).
  eapply find_page_in_spec; [apply Hwf|apply Hwf|done|done].
Qed.

(** the end of a region's address range is taken as inside it: looking up
    the first address after a region reads past its page structures and stops
    the kernel. *)
Theorem find_page_region_end s r rs :
  pmm_wf s -> region_list s = r :: rs -> find_page (end_phy r) s = None.
Proof.
  intros Hwf Hrl. assert (region_ok r) as Hok by (apply Hwf; rewrite Hrl; by left).
  unfold find_page. rewrite Hrl. simpl. destruct (reserved_bounds r Hok) as [Hres _].
  pose proof (usable_eq r Hok) as Hus. pose proof Hok as [_ _ Hc]. unfold end_phy at 1, PAGE_SIZE at 1.
  destruct (Z.ltb_spec (base_phy r + num_pages r * 4096) (base_phy r)); [lia|].
  rewrite Z.ltb_irrefl. cbn [orb].
  assert ((end_phy r - base_phy r) / PAGE_SIZE = num_pages r) as ->.
  { unfold end_phy. replace (base_phy r + num_pages r * PAGE_SIZE - base_phy r)
      with (num_pages r * PAGE_SIZE) by lia. by apply Z.div_mul. }
  destruct (Z.ltb_spec (num_pages r) (num_pages_reserved r)); [lia|].
  destruct (Z.ltb_spec (num_pages r - num_pages_reserved r) (num_pages_usable r)); [lia|done].
Qed.

(** ** A concrete machine: two regions of 4 and 3 pages. *)
Definition memmap_example : list (Z * Z) := [(4096, 16384); (65536, 12288)].

Lemma memmap_example_ok : memmap_ok memmap_example.
Proof.
  split; [repeat constructor; simpl; lia|]. unfold memmap_example.
  apply FOP_cons; [|apply FOP_cons; [constructor|apply FOP_nil]]. repeat constructor. simpl. lia.
Qed.

Lemma pmm_allocation_exclusive_witness :
  exists c, rtc pmm_step (Pmm_init memmap_example, []) c /\ snd c = [2] /\
    NoDup (snd c ++ page_freelist (fst c)).
Proof.
  destruct (alloc_page (Pmm_init memmap_example)) as [[pfn s]|] eqn:H; [|vm_compute in H; discriminate].
  assert (rtc pmm_step (Pmm_init memmap_example, []) (s, [pfn])) as Hr.
  { eapply rtc_l; [apply PmmAlloc, H|apply rtc_refl]. }
  exists (s, [pfn]). split; [exact Hr|]. split.
  - vm_compute in H. injection H as <- _. reflexivity.
  - apply (pmm_allocation_exclusive memmap_example (s, [pfn]) memmap_example_ok Hr).
Defined.

Lemma find_page_phy_witness :
  find_page (phy 17) (Pmm_init memmap_example) = Some (Some 17).
Proof.
  apply find_page_phy; [apply Pmm_init_wf, memmap_example_ok|vm_compute; eauto].
Defined.

Lemma find_page_region_end_witness : find_page 20480 (Pmm_init memmap_example) = None.
Proof.
  apply (find_page_region_end (Pmm_init memmap_example) (mkRegion 4096 4) [mkRegion 65536 3]);
    [apply Pmm_init_wf, memmap_example_ok|reflexivity].
Defined.
