(* ===== verification/PageTable.v ===== *)
(** Four-level page tables (the walk, the creation of missing tables and the
    mapping of pages of mem::Pagemap, src/kernel/src/mem/vmm.cpp), and their
    refinement of a flat map from virtual pages to entries. *)
From S2P Require Import Prelude Pmm.

Definition PAGE_PRESENT : Z := 1.
Definition PAGE_WRITABLE : Z := 2.
Definition PAGE_USER : Z := 4.
Definition PAGE_NO_EXECUTE : Z := 9223372036854775808.
(** 0x000FFFFFFFFFF000 *)
Definition ADDR_MASK : Z := 4503599627366400.

(** The tables are arrays of 512 words named by their physical address. *)
Record PageTables : Type := mkPT {
  pml4 : Z;
  tables : gmap Z (list Z);
  page_table_pages_list : list Z;
  pt_pmm : Pmm
}.

Definition read_entry (t i : Z) (pt : PageTables) : Z :=
  match tables pt !! t with Some l => default 0 (l !! Z.to_nat i) | None => 0 end.
Definition write_entry (t i w : Z) (pt : PageTables) : PageTables :=
  mkPT (pml4 pt) (alter (fun l => <[Z.to_nat i := w]> l) t (tables pt))
    (page_table_pages_list pt) (pt_pmm pt).

Definition alloc_page_for_page_table (pt : PageTables) : option (Z * PageTables) :=
  match alloc_page (pt_pmm pt) with
  | None => None
  | Some (pfn, pmm) =>
      Some (phy pfn, mkPT (pml4 pt) (tables pt) (page_table_pages_list pt ++ [pfn]) pmm)
  end.

(** A zeroed table, linked from entry [i] of table [t]. *)
Definition create_next_page_table (t i : Z) (pt : PageTables) : option (Z * PageTables) :=
  match alloc_page_for_page_table pt with
  | None => None
  | Some (new_page, pt1) =>
      let pt2 := mkPT (pml4 pt1) (<[new_page := replicate 512 0]> (tables pt1))
                   (page_table_pages_list pt1) (pt_pmm pt1) in
      Some (new_page, write_entry t i
              (Z.lor (Z.lor (Z.lor new_page PAGE_PRESENT) PAGE_WRITABLE) PAGE_USER) pt2)
  end.

(** [Pagemap::Pagemap] with the clearing of the new root its users do. *)
Definition Pagemap_new (pmm : Pmm) : option PageTables :=
  match alloc_page_for_page_table (mkPT 0 ∅ [] pmm) with
  | None => None
  | Some (t, pt) =>
      Some (mkPT t {[ t := replicate 512 0 ]} (page_table_pages_list pt) (pt_pmm pt))
  end.

Definition index_at (shift virt : Z) : Z := Z.land (Z.shiftr virt shift) 511.

(** One level of the walk: the next table, [None] inside when it is missing
    and not to be created; the outer [None] is memory exhaustion. *)
Definition next_table (t shift virt : Z) (create : bool) (pt : PageTables)
    : option (option Z * PageTables) :=
  let i := index_at shift virt in
  let e := read_entry t i pt in
  if has e PAGE_PRESENT then Some (Some (Z.land e ADDR_MASK), pt)
  else if create then
    match create_next_page_table t i pt with
    | None => None
    | Some (t', pt') => Some (Some t', pt')
    end
  else Some (None, pt).

(** The location of the leaf entry: table and index. *)
Definition find_page_table_entry (virt : Z) (create : bool) (pt : PageTables)
    : option (option (Z * Z) * PageTables) :=
  match next_table (pml4 pt) 39 virt create pt with
  | None => None
  | Some (None, pt1) => Some (None, pt1)
  | Some (Some t1, pt1) =>
      match next_table t1 30 virt create pt1 with
      | None => None
      | Some (None, pt2) => Some (None, pt2)
      | Some (Some t2, pt2) =>
          match next_table t2 21 virt create pt2 with
          | None => None
          | Some (None, pt3) => Some (None, pt3)
          | Some (Some t3, pt3) => Some (Some (t3, index_at 12 virt), pt3)
          end
      end
  end.

Definition map_page (p virt fl : Z) (pt : PageTables) : option PageTables :=
  match find_page_table_entry virt true pt with
  | Some (Some (t, i), pt1) => Some (write_entry t i (Z.lor (Z.land p ADDR_MASK) fl) pt1)
  | _ => None
  end.

Fixpoint map_pages_loop (n : nat) (p virt fl : Z) (pt : PageTables) : option PageTables :=
  match n with
  | O => Some pt
  | S n =>
      match map_page p virt fl pt with
      | None => None
      | Some pt1 => map_pages_loop n (p + PAGE_SIZE) (virt + PAGE_SIZE) fl pt1
      end
  end.
Definition map_pages (p virt len fl : Z) (pt : PageTables) : option PageTables :=
  map_pages_loop (Z.to_nat ((len + PAGE_SIZE - 1) / PAGE_SIZE)) p virt fl pt.

(** The entry a virtual address translates through; 0 when a table is missing. *)
Definition entry_of (virt : Z) (pt : PageTables) : Z :=
  match find_page_table_entry virt false pt with
  | Some (Some (t, i), _) => read_entry t i pt
  | _ => 0
  end.

(** ** Words and indices *)
Lemma addr_mask_bits n : 0 <= n -> Z.testbit ADDR_MASK n = (12 <=? n) && (n <? 52).
Proof.
  intros Hn. change ADDR_MASK with (Z.shiftl (Z.ones 40) 12).
  rewrite Z.shiftl_spec by done. destruct (Z.leb_spec 12 n).
  - rewrite Z.testbit_ones_nonneg by lia. destruct (Z.ltb_spec n 52), (Z.ltb_spec (n - 12) 40); lia || done.
  - by rewrite Z.testbit_neg_r by lia.
Qed.

(** A page-aligned physical address below 2^52. *)
Definition page_addr (p : Z) : Prop := exists pfn, p = phy pfn /\ 0 <= pfn < 2 ^ 40.

Lemma page_addr_bits p n : page_addr p -> 0 <= n -> Z.testbit p n = Z.testbit p n && (12 <=? n) && (n <? 52).
Proof.
  intros (pfn & -> & Hp) Hn. unfold phy, PAGE_SIZE. change 4096 with (2 ^ 12).
  rewrite <- Z.shiftl_mul_pow2 by lia. rewrite Z.shiftl_spec by done.
  destruct (Z.leb_spec 12 n); [|by rewrite Z.testbit_neg_r by lia].
  destruct (Z.ltb_spec n 52); [by rewrite !andb_true_r|]. rewrite andb_false_r.
  destruct (Z.eq_dec pfn 0) as [->|]; [by rewrite Z.testbit_0_l|].
  apply Z.bits_above_log2; [lia|]. assert (Z.log2 pfn < 40) by (apply Z.log2_lt_pow2; lia). lia.
Qed.

Lemma link_word p :
  page_addr p ->
  let w := Z.lor (Z.lor (Z.lor p PAGE_PRESENT) PAGE_WRITABLE) PAGE_USER in
  Z.land w ADDR_MASK = p /\ has w PAGE_PRESENT = true.
Proof.
  intros Hp w. split.
  - apply Z.bits_inj'. intros n Hn. unfold w. rewrite Z.land_spec, !Z.lor_spec, addr_mask_bits by done.
    rewrite (page_addr_bits p n Hp Hn).
    destruct (Z.leb_spec 12 n); [|by rewrite !andb_false_r].
    assert (forall m, 0 < m < 4096 -> Z.testbit m n = false) as Hlow.
    { intros m Hm. apply Z.bits_above_log2; [lia|].
      assert (Z.log2 m < 12) by (apply Z.log2_lt_pow2; lia). lia. }
    rewrite (Hlow PAGE_PRESENT), (Hlow PAGE_WRITABLE), (Hlow PAGE_USER) by (unfold PAGE_PRESENT, PAGE_WRITABLE, PAGE_USER; lia).
    rewrite !orb_false_r, !andb_true_r. by destruct (Z.testbit p n), (n <? 52).
  - unfold has. apply negb_true_iff, Z.eqb_neq. intros H.
    assert (Z.testbit (Z.land w PAGE_PRESENT) 0 = true) as Hb; [|by rewrite H in Hb].
    unfold w. rewrite Z.land_spec, !Z.lor_spec. change (Z.testbit PAGE_PRESENT 0) with true.
    by rewrite !orb_true_r.
Qed.

Lemma index_range shift virt : 0 <= index_at shift virt < 512.
Proof. unfold index_at. change 511 with (Z.ones 9). rewrite Z.land_ones by lia. apply Z.mod_pos_bound. lia. Qed.

(** Two canonical user addresses on different pages differ at some level. *)
Lemma index_inj v1 v2 :
  0 <= v1 < 2 ^ 48 -> 0 <= v2 < 2 ^ 48 ->
  index_at 39 v1 = index_at 39 v2 -> index_at 30 v1 = index_at 30 v2 ->
  index_at 21 v1 = index_at 21 v2 -> index_at 12 v1 = index_at 12 v2 ->
  v1 / PAGE_SIZE = v2 / PAGE_SIZE.
Proof.
  unfold index_at. change 511 with (Z.ones 9). rewrite !Z.land_ones, !Z.shiftr_div_pow2 by lia.
  unfold PAGE_SIZE. intros H1 H2 E39 E30 E21 E12.
  change (2 ^ 39) with (4096 * 512 * 512 * 512) in *. change (2 ^ 30) with (4096 * 512 * 512) in *.
  change (2 ^ 21) with (4096 * 512) in *. change (2 ^ 12) with 4096 in *. change (2 ^ 9) with 512 in *.
  change (2 ^ 48) with (4096 * 512 * 512 * 512 * 512) in *.
  assert (forall x, x / (4096 * 512 * 512 * 512) = x / 4096 / 512 / 512 / 512) as D39
    by (intros; by rewrite !Z.div_div by lia).
  assert (forall x, x / (4096 * 512 * 512) = x / 4096 / 512 / 512) as D30
    by (intros; by rewrite !Z.div_div by lia).
  assert (forall x, x / (4096 * 512) = x / 4096 / 512) as D21
    by (intros; by rewrite !Z.div_div by lia).
  rewrite !D39 in E39. rewrite !D30 in E30. rewrite !D21 in E21.
  set (a := v1 / 4096) in *. set (b := v2 / 4096) in *.
  assert (0 <= a < 512 * 512 * 512 * 512) as Ha.
  { unfold a. split; [apply Z.div_pos; lia|apply Z.div_lt_upper_bound; lia]. }
  assert (0 <= b < 512 * 512 * 512 * 512) as Hb.
  { unfold b. split; [apply Z.div_pos; lia|apply Z.div_lt_upper_bound; lia]. }
  clearbody a b.
  assert (forall x, 0 <= x < 512 * 512 * 512 * 512 -> (x / 512 / 512 / 512) mod 512 = x / 512 / 512 / 512) as Hs.
  { intros x Hx. apply Z.mod_small. rewrite !Z.div_div by lia.
    split; [apply Z.div_pos; lia|apply Z.div_lt_upper_bound; lia]. }
  rewrite !Hs in E39 by done.
  assert (a / 512 / 512 = b / 512 / 512).
  { rewrite (Z.div_mod (a / 512 / 512) 512), (Z.div_mod (b / 512 / 512) 512) by lia. congruence. }
  assert (a / 512 = b / 512).
  { rewrite (Z.div_mod (a / 512) 512), (Z.div_mod (b / 512) 512) by lia. congruence. }
  rewrite (Z.div_mod a 512), (Z.div_mod b 512) by lia. congruence.
Qed.

#[local] Arguments replicate : simpl never.

(** ** The tree of tables *)

(** The level of each table: 3 for the root, 0 for the last one. *)
Record pt_wf (pt : PageTables) (lvl : gmap Z nat) : Prop := {
  pt_root : lvl !! pml4 pt = Some 3%nat;
  pt_dom : forall t, is_Some (lvl !! t) <-> is_Some (tables pt !! t);
  pt_len : forall t l, tables pt !! t = Some l -> length l = 512%nat;
  pt_addr : forall t, is_Some (tables pt !! t) ->
    exists pfn a, t = phy pfn /\ pages (pt_pmm pt) !! pfn = Some (mkPage false a);
  pt_next : forall t k i, lvl !! t = Some (S k) -> 0 <= i < 512 ->
    has (read_entry t i pt) PAGE_PRESENT = true ->
    lvl !! Z.land (read_entry t i pt) ADDR_MASK = Some k;
  pt_inj : forall t1 t2 k1 k2 i1 i2, lvl !! t1 = Some (S k1) -> lvl !! t2 = Some (S k2) ->
    0 <= i1 < 512 -> 0 <= i2 < 512 ->
    has (read_entry t1 i1 pt) PAGE_PRESENT = true -> has (read_entry t2 i2 pt) PAGE_PRESENT = true ->
    Z.land (read_entry t1 i1 pt) ADDR_MASK = Z.land (read_entry t2 i2 pt) ADDR_MASK ->
    t1 = t2 /\ i1 = i2;
  pt_pmm_wf : pmm_wf (pt_pmm pt);
  pt_frames : forall pfn, is_Some (pages (pt_pmm pt) !! pfn) -> 0 <= pfn < 2 ^ 40
}.

Lemma read_write_entry t i w t' i' pt l :
  tables pt !! t = Some l -> length l = 512%nat -> 0 <= i < 512 -> 0 <= i' < 512 ->
  read_entry t' i' (write_entry t i w pt)
  = if decide (t' = t /\ i' = i) then w else read_entry t' i' pt.
Proof.
  intros Hl Hlen Hi Hi'. unfold read_entry, write_entry; simpl. rewrite lookup_alter.
  case_decide as E1; case_decide as E2.
  - destruct E2 as [-> ->]. rewrite Hl. simpl. by rewrite list_lookup_insert_eq by lia.
  - subst t'. rewrite Hl. simpl. rewrite list_lookup_insert_ne; [done|]. intros ?. apply E2. split; [done|lia].
  - destruct E2 as [-> _]. done.
  - done.
Qed.

(** The last table on the path of [v] from table [t] of level [k]. *)
Fixpoint leaf_of (k : nat) (t v : Z) (pt : PageTables) : option Z :=
  match k with
  | O => Some t
  | S k' =>
      let e := read_entry t (index_at (12 + 9 * Z.of_nat k) v) pt in
      if has e PAGE_PRESENT then leaf_of k' (Z.land e ADDR_MASK) v pt else None
  end.

Lemma entry_of_leaf v pt :
  entry_of v pt = match leaf_of 3 (pml4 pt) v pt with
                  | Some t => read_entry t (index_at 12 v) pt
                  | None => 0
                  end.
Proof.
  unfold entry_of, find_page_table_entry, next_table. cbn [leaf_of].
  change (12 + 9 * Z.of_nat 3) with 39. change (12 + 9 * Z.of_nat 2) with 30.
  change (12 + 9 * Z.of_nat 1) with 21. by repeat (case_match; simplify_eq; try done).
Qed.

Lemma leaf_level pt lvl k t v l :
  pt_wf pt lvl -> lvl !! t = Some k -> leaf_of k t v pt = Some l -> lvl !! l = Some 0%nat.
Proof.
  intros Hwf. revert t. induction k as [|k IH]; intros t Ht Hl; cbn [leaf_of] in Hl; [by simplify_eq|].
  destruct (has _ _) eqn:Hp; [|done]. eapply IH; [|done].
  eapply pt_next; eauto using index_range.
Qed.

(** Two addresses reach the same last table only by the same path. *)
Lemma leaf_inj pt lvl k t1 t2 v1 v2 l :
  pt_wf pt lvl -> lvl !! t1 = Some k -> lvl !! t2 = Some k ->
  leaf_of k t1 v1 pt = Some l -> leaf_of k t2 v2 pt = Some l ->
  t1 = t2 /\ forall j, (0 < j <= k)%nat ->
    index_at (12 + 9 * Z.of_nat j) v1 = index_at (12 + 9 * Z.of_nat j) v2.
Proof.
  intros Hwf. revert t1 t2. induction k as [|k IH]; intros t1 t2 Ht1 Ht2 H1 H2; cbn [leaf_of] in *.
  - simplify_eq. split; [done|lia].
  - destruct (has _ _) eqn:P1 in H1; [|done]. destruct (has _ _) eqn:P2 in H2; [|done].
    set (i1 := index_at _ v1) in *. set (i2 := index_at _ v2) in *.
    assert (0 <= i1 < 512) as Hi1 by apply index_range.
    assert (0 <= i2 < 512) as Hi2 by apply index_range.
    edestruct (IH _ _ (pt_next _ _ Hwf _ _ _ Ht1 Hi1 P1) (pt_next _ _ Hwf _ _ _ Ht2 Hi2 P2) H1 H2) as [Heq Hj].
    destruct (pt_inj _ _ Hwf _ _ _ _ _ _ Ht1 Ht2 Hi1 Hi2 P1 P2 Heq) as [-> Hi]. split; [done|].
    intros j Hjk. destruct (decide (j = S k)) as [->|]; [exact Hi|]. apply Hj. lia.
Qed.

(** Allocation of a table's page. *)
Lemma alloc_page_total s :
  pmm_wf s -> page_freelist s <> [] -> exists pfn s', alloc_page s = Some (pfn, s').
Proof.
  intros Hwf Hne. unfold alloc_page. destruct (page_freelist s) as [|p rest] eqn:Hf; [done|].
  assert (p ∈ page_freelist s) as Hin by (rewrite Hf; by left).
  apply (pw_free _ Hwf) in Hin as [a ->]. simpl. eauto.
Qed.

Lemma alloc_page_inv s pfn s' :
  alloc_page s = Some (pfn, s') ->
  exists a, pages s !! pfn = Some (mkPage true a) /\ pages s' = <[pfn := mkPage false a]> (pages s) /\
    page_freelist s = pfn :: page_freelist s'.
Proof.
  unfold alloc_page. intros H. destruct (page_freelist s) as [|p rest] eqn:Hf; [done|].
  destruct (pages s !! p) as [[[] a]|] eqn:Hp; simplify_eq/=. eauto.
Qed.

(** Adding a table below an absent entry. *)
Lemma create_table_spec t k i pt lvl :
  pt_wf pt lvl -> lvl !! t = Some (S k) -> 0 <= i < 512 ->
  has (read_entry t i pt) PAGE_PRESENT = false -> page_freelist (pt_pmm pt) <> [] ->
  exists t' pt', create_next_page_table t i pt = Some (t', pt') /\
    length (page_freelist (pt_pmm pt)) = S (length (page_freelist (pt_pmm pt'))) /\
    pml4 pt' = pml4 pt /\ lvl !! t' = None /\ pt_wf pt' (<[t' := k]> lvl) /\
    has (read_entry t i pt') PAGE_PRESENT = true /\ Z.land (read_entry t i pt') ADDR_MASK = t' /\
    (forall j, 0 <= j < 512 -> read_entry t' j pt' = 0) /\
    (forall t0 j, is_Some (lvl !! t0) -> 0 <= j < 512 -> ~ (t0 = t /\ j = i) ->
       read_entry t0 j pt' = read_entry t0 j pt).
Proof.
  intros Hwf Ht Hi Habs Hmem. unfold create_next_page_table, alloc_page_for_page_table.
  destruct (alloc_page_total _ (pt_pmm_wf _ _ Hwf) Hmem) as (pfn & pmm & Ha). rewrite Ha.
  destruct (alloc_page_inv _ _ _ Ha) as (a & Hpg & Hpgs & Hfl).
  pose proof (alloc_page_wf _ _ _ (pt_pmm_wf _ _ Hwf) Ha) as Hpmm.
  assert (page_addr (phy pfn)) as Haddr by (exists pfn; split; [done|]; apply (pt_frames _ _ Hwf); eauto).
  destruct (link_word _ Haddr) as [Hlm Hlp]. set (w := Z.lor _ PAGE_USER) in *.
  assert (tables pt !! phy pfn = None) as Hnew.
  { apply eq_None_not_Some. intros Hs. destruct (pt_addr _ _ Hwf _ Hs) as (pfn' & a' & He & Hp).
    assert (pfn = pfn') as <- by (unfold phy, PAGE_SIZE in He; lia). by simplify_eq. }
  assert (lvl !! phy pfn = None) as Hnl.
  { apply eq_None_not_Some. intros Hs%(pt_dom _ _ Hwf). rewrite Hnew in Hs. by destruct Hs. }
  destruct (proj1 (pt_dom _ _ Hwf t)) as [l Hl]; [eauto|]. pose proof (pt_len _ _ Hwf _ _ Hl) as Hlen.
  assert (Htn : t <> phy pfn) by congruence.
  set (pt1 := mkPT (pml4 pt) (<[phy pfn := replicate 512 0]> (tables pt))
                (page_table_pages_list pt ++ [pfn]) pmm).
  assert (Hl1 : tables pt1 !! t = Some l) by (simpl; by rewrite lookup_insert_ne).
  set (pt2 := write_entry t i w pt1).
  assert (Hread : forall t0 j, is_Some (lvl !! t0) -> 0 <= j < 512 ->
    read_entry t0 j pt2 = if decide (t0 = t /\ j = i) then w else read_entry t0 j pt).
  { intros t0 j Ht0 Hj. unfold pt2. rewrite (read_write_entry _ _ _ _ _ _ _ Hl1 Hlen) by done.
    case_decide; [done|]. unfold read_entry, pt1; simpl. rewrite lookup_insert_ne; [done|].
    intros <-. rewrite Hnl in Ht0. by destruct Ht0. }
  assert (Hzero : forall j, 0 <= j < 512 -> read_entry (phy pfn) j pt2 = 0).
  { intros j Hj. unfold pt2. rewrite (read_write_entry _ _ _ _ _ _ _ Hl1 Hlen) by done.
    rewrite decide_False by naive_solver. unfold read_entry, pt1; simpl. rewrite lookup_insert_eq.
    by rewrite lookup_replicate_2 by lia. }
  exists (phy pfn), pt2. split; [done|]. split; [simpl; by rewrite Hfl|]. split; [done|]. split; [done|].
  split; [|rewrite Hread, decide_True by eauto; split; [done|split; [done|split; [done|]]];
            intros t0 j Ht0 Hj Hne; by rewrite Hread, decide_False by done].
  assert (Hlvl : forall t0 k0, <[phy pfn := k]> lvl !! t0 = Some (S k0) ->
    t0 = phy pfn /\ k = S k0 \/ t0 <> phy pfn /\ lvl !! t0 = Some (S k0)).
  { intros t0 k0 H. apply lookup_insert_Some in H as [[<- H]|[H1 H2]]; [left|right]; auto. }
  constructor.
  - simpl. rewrite lookup_insert_ne; [apply Hwf|]. intros He.
    pose proof (pt_root _ _ Hwf) as Hr. rewrite <- He in Hr. congruence.
  - intros t0. simpl. rewrite lookup_alter_is_Some, !lookup_insert_is_Some.
    rewrite (pt_dom _ _ Hwf t0). done.
  - intros t0 l0. simpl. rewrite lookup_alter_Some. intros [(<- & l1 & H1 & ->)|[_ H1]].
    + rewrite length_insert. rewrite lookup_insert_ne in H1 by done. by simplify_eq.
    + apply lookup_insert_Some in H1 as [[_ <-]|[_ H1]]; [by rewrite length_replicate|by eapply pt_len].
  - intros t0. simpl. rewrite lookup_alter_is_Some, lookup_insert_is_Some, Hpgs.
    intros [<-|[_ Hs]]; [exists pfn, a; split; [done|]; by rewrite lookup_insert_eq|].
    destruct (pt_addr _ _ Hwf _ Hs) as (pfn' & a' & He & Hp). exists pfn', a'. split; [done|].
    rewrite lookup_insert_ne; [done|]. intros <-. by simplify_eq.
  - intros t0 k0 j H Hj Hpres. destruct (Hlvl _ _ H) as [[-> Hk]|[Hne H0]].
    + by rewrite Hzero in Hpres.
    + rewrite Hread in * by eauto. case_decide as E.
      * destruct E as [-> ->]. rewrite Hlm, lookup_insert_eq. congruence.
      * rewrite lookup_insert_ne; [by eapply pt_next|]. intros He.
        pose proof (pt_next _ _ Hwf _ _ _ H0 Hj Hpres) as Hx. rewrite <- He in Hx. congruence.
  - intros t1 t2 k1 k2 i1 i2 H1 H2 Hi1 Hi2 P1 P2 He.
    destruct (Hlvl _ _ H1) as [[-> _]|[_ G1]]; [by rewrite Hzero in P1|].
    destruct (Hlvl _ _ H2) as [[-> _]|[_ G2]]; [by rewrite Hzero in P2|].
    rewrite Hread in P1, He by eauto. rewrite (Hread t2) in He, P2 by eauto.
    case_decide as E1; case_decide as E2.
    + naive_solver.
    + pose proof (pt_next _ _ Hwf _ _ _ G2 Hi2 P2) as Hx. rewrite <- He, Hlm in Hx. congruence.
    + pose proof (pt_next _ _ Hwf _ _ _ G1 Hi1 P1) as Hx. rewrite He, Hlm in Hx. congruence.
    + by eapply pt_inj.
  - done.
  - intros q. simpl. rewrite Hpgs, lookup_insert_is_Some. intros [<-|[_ Hs]];
      apply (pt_frames _ _ Hwf); eauto.
Qed.

Definition val_of (k : nat) (t v : Z) (pt : PageTables) : Z :=
  match leaf_of k t v pt with Some l => read_entry l (index_at 12 v) pt | None => 0 end.

(** One step of the path of [v], from a table of level [k]. *)
Definition step_of (k : nat) (t v : Z) (pt : PageTables) : option Z :=
  let e := read_entry t (index_at (12 + 9 * Z.of_nat k) v) pt in
  if has e PAGE_PRESENT then Some (Z.land e ADDR_MASK) else None.

Lemma leaf_of_step k t t' v pt :
  step_of (S k) t v pt = Some t' -> leaf_of (S k) t v pt = leaf_of k t' v pt.
Proof. unfold step_of. cbn [leaf_of]. destruct (has _ _); [intros; by simplify_eq|done]. Qed.

(** [pt'] has more tables than [pt], and translates everything alike. *)
Record extends (pt : PageTables) (lvl : gmap Z nat) (pt' : PageTables) (lvl' : gmap Z nat) : Prop := {
  ext_root : pml4 pt' = pml4 pt;
  ext_lvl : lvl ⊆ lvl';
  ext_step : forall k t v t', lvl !! t = Some (S k) ->
    step_of (S k) t v pt = Some t' -> step_of (S k) t v pt' = Some t';
  ext_val : forall k t v, lvl !! t = Some k -> val_of k t v pt' = val_of k t v pt
}.

Lemma extends_refl pt lvl : extends pt lvl pt lvl.
Proof. by constructor. Qed.

Lemma extends_trans p1 l1 p2 l2 p3 l3 : extends p1 l1 p2 l2 -> extends p2 l2 p3 l3 -> extends p1 l1 p3 l3.
Proof.
  intros [H1 H2 H3 H4] [G1 G2 G3 G4]. constructor.
  - congruence.
  - by transitivity l2.
  - intros k t v t' Ht Hl. apply G3; [by eapply lookup_weaken|]. by apply H3.
  - intros k t v Ht. rewrite G4 by (by eapply lookup_weaken). by apply H4.
Qed.

Lemma create_extends t k i pt lvl t' pt' :
  pt_wf pt lvl -> lvl !! t = Some (S k) -> 0 <= i < 512 -> lvl !! t' = None ->
  pml4 pt' = pml4 pt -> has (read_entry t i pt) PAGE_PRESENT = false ->
  Z.land (read_entry t i pt') ADDR_MASK = t' ->
  (forall j, 0 <= j < 512 -> read_entry t' j pt' = 0) ->
  (forall t0 j, is_Some (lvl !! t0) -> 0 <= j < 512 -> ~ (t0 = t /\ j = i) ->
     read_entry t0 j pt' = read_entry t0 j pt) ->
  extends pt lvl pt' (<[t' := k]> lvl).
Proof.
  intros Hwf Ht Hi Hnew Hroot Habs Htgt Hzero Hsame.
  assert (Hz : forall k0 v, val_of k0 t' v pt' = 0).
  { intros k0 v. unfold val_of. destruct k0; cbn [leaf_of]; rewrite Hzero by apply index_range; done. }
  constructor; [done|by apply insert_subseteq| |].
  - intros k0 t0 v l Ht0 Hl. unfold step_of in *. set (j := index_at _ v) in *.
    assert (0 <= j < 512) as Hj by apply index_range.
    destruct (has (read_entry t0 j pt) _) eqn:Hp; [|done].
    by rewrite Hsame, Hp; [|eauto|done|intros [-> ->]; congruence].
  - intros k0. induction k0 as [|k0 IH]; intros t0 v Ht0.
    + unfold val_of; cbn [leaf_of]. apply Hsame; [eauto|apply index_range|]. intros [-> _]. congruence.
    + unfold val_of in *. cbn [leaf_of] in *. set (j := index_at _ v) in *.
      assert (0 <= j < 512) as Hj by apply index_range.
      destruct (decide (t0 = t /\ j = i)) as [[-> Hji]|Hne].
      * rewrite Hji, Habs, Htgt. destruct (has (read_entry t i pt') _); [apply (Hz k0 v)|done].
      * rewrite Hsame by eauto. destruct (has (read_entry t0 j pt) _) eqn:Hp; [|done].
        apply IH. by eapply pt_next.
Qed.

(** A level of the walk that creates what is missing. *)
Lemma next_table_spec t k v pt lvl :
  pt_wf pt lvl -> lvl !! t = Some (S k) -> (0 < length (page_freelist (pt_pmm pt)))%nat ->
  exists t' pt' lvl', next_table t (12 + 9 * Z.of_nat (S k)) v true pt = Some (Some t', pt') /\
    pt_wf pt' lvl' /\ extends pt lvl pt' lvl' /\ lvl' !! t' = Some k /\
    (length (page_freelist (pt_pmm pt)) <= S (length (page_freelist (pt_pmm pt'))))%nat /\
    step_of (S k) t v pt' = Some t'.
Proof.
  intros Hwf Ht Hmem. unfold next_table, step_of. set (i := index_at _ v).
  assert (0 <= i < 512) as Hi by apply index_range.
  destruct (has (read_entry t i pt) PAGE_PRESENT) eqn:Hp.
  - do 3 eexists. split; [done|]. split; [done|]. split; [apply extends_refl|].
    split; [by eapply pt_next|]. split; [lia|]. by rewrite Hp.
  - destruct (create_table_spec t k i pt lvl) as
      (t' & pt' & -> & Hlen & Hroot & Hnew & Hwf' & Hpres & Htgt & Hzero & Hsame); try done.
    { by destruct (page_freelist (pt_pmm pt)); simpl in *; [lia|]. }
    exists t', pt', (<[t' := k]> lvl). split; [done|]. split; [done|].
    split; [by eapply create_extends|]. split; [apply lookup_insert_eq|]. split; [lia|].
    by rewrite Hpres, Htgt.
Qed.

Lemma find_entry_create_spec v pt lvl :
  pt_wf pt lvl -> (3 <= length (page_freelist (pt_pmm pt)))%nat ->
  exists t pt' lvl', find_page_table_entry v true pt = Some (Some (t, index_at 12 v), pt') /\
    pt_wf pt' lvl' /\ extends pt lvl pt' lvl' /\ lvl' !! t = Some 0%nat /\
    leaf_of 3 (pml4 pt') v pt' = Some t.
Proof.
  intros Hwf Hmem. unfold find_page_table_entry.
  destruct (next_table_spec (pml4 pt) 2 v pt lvl Hwf (pt_root _ _ Hwf) ltac:(lia))
    as (t1 & pt1 & lvl1 & E1 & Hwf1 & Hx1 & Ht1 & Hl1 & Hp1).
  change (12 + 9 * Z.of_nat 3) with 39 in E1. rewrite E1.
  destruct (next_table_spec t1 1 v pt1 lvl1 Hwf1 Ht1 ltac:(lia))
    as (t2 & pt2 & lvl2 & E2 & Hwf2 & Hx2 & Ht2 & Hl2 & Hp2).
  change (12 + 9 * Z.of_nat 2) with 30 in E2. rewrite E2.
  destruct (next_table_spec t2 0 v pt2 lvl2 Hwf2 Ht2 ltac:(lia))
    as (t3 & pt3 & lvl3 & E3 & Hwf3 & Hx3 & Ht3 & Hl3 & Hp3).
  change (12 + 9 * Z.of_nat 1) with 21 in E3. rewrite E3.
  exists t3, pt3, lvl3. split; [done|]. split; [done|].
  pose proof (extends_trans _ _ _ _ _ _ Hx2 Hx3) as Hx23.
  pose proof (extends_trans _ _ _ _ _ _ Hx1 Hx23) as Hx.
  split; [done|]. split; [done|]. rewrite (ext_root _ _ _ _ Hx).
  assert (lvl1 !! pml4 pt = Some 3%nat) as Hr by (eapply lookup_weaken; [apply (pt_root _ _ Hwf)|apply Hx1]).
  rewrite (leaf_of_step _ _ _ _ _ (ext_step _ _ _ _ Hx23 _ _ _ _ Hr Hp1)).
  assert (lvl2 !! t1 = Some 2%nat) as Hr1 by (eapply lookup_weaken; [exact Ht1|apply Hx2]).
  rewrite (leaf_of_step _ _ _ _ _ (ext_step _ _ _ _ Hx3 _ _ _ _ Hr1 Hp2)).
  by rewrite (leaf_of_step _ _ _ _ _ Hp3).
Qed.

(** Writing a last-level entry. *)
Lemma write_leaf_spec t i w pt lvl :
  pt_wf pt lvl -> lvl !! t = Some 0%nat -> 0 <= i < 512 ->
  pt_wf (write_entry t i w pt) lvl /\
  (forall k t0 v, lvl !! t0 = Some k -> leaf_of k t0 v (write_entry t i w pt) = leaf_of k t0 v pt).
Proof.
  intros Hwf Ht Hi. destruct (proj1 (pt_dom _ _ Hwf t)) as [l Hl]; [eauto|].
  pose proof (pt_len _ _ Hwf _ _ Hl) as Hlen.
  assert (Hread : forall t0 k j, lvl !! t0 = Some (S k) -> 0 <= j < 512 ->
    read_entry t0 j (write_entry t i w pt) = read_entry t0 j pt).
  { intros t0 k j H Hj. rewrite (read_write_entry _ _ _ _ _ _ _ Hl Hlen) by done.
    rewrite decide_False; [done|]. intros [-> _]. congruence. }
  split.
  - pose proof Hwf as []. constructor; simpl; auto.
    + intros t0. rewrite lookup_alter_is_Some. auto.
    + intros t0 l0. rewrite lookup_alter_Some. intros [(<- & l1 & H1 & ->)|[_ H1]]; [|by eauto].
      rewrite length_insert. eauto.
    + intros t0. rewrite lookup_alter_is_Some. auto.
    + intros t0 k j H Hj. rewrite (Hread _ _ _ H Hj). eauto.
    + intros t1 t2 k1 k2 i1 i2 H1 H2 Hi1 Hi2. rewrite (Hread _ _ _ H1 Hi1), (Hread _ _ _ H2 Hi2). eauto.
  - intros k. induction k as [|k IH]; intros t0 v Ht0; cbn [leaf_of]; [done|].
    rewrite (Hread _ _ _ Ht0) by apply index_range.
    destruct (has _ _) eqn:Hp; [|done]. apply IH. eapply pt_next; eauto using index_range.
Qed.

(** C6: mapping a page succeeds while three pages are free, keeps the tables a
    tree, and changes the translation of that page only: every other page
    translates as before, tables created on the way included. *)
Theorem map_page_refines p v fl pt lvl :
  pt_wf pt lvl -> 0 <= v < 2 ^ 48 -> (3 <= length (page_freelist (pt_pmm pt)))%nat ->
  exists pt' lvl', map_page p v fl pt = Some pt' /\ pt_wf pt' lvl' /\
    entry_of v pt' = Z.lor (Z.land p ADDR_MASK) fl /\
    forall v', 0 <= v' < 2 ^ 48 -> v' / PAGE_SIZE <> v / PAGE_SIZE -> entry_of v' pt' = entry_of v' pt.
Proof.
  intros Hwf Hv Hmem. unfold map_page.
  destruct (find_entry_create_spec v pt lvl Hwf Hmem) as (t & pt1 & lvl1 & -> & Hwf1 & Hx & Ht & Hleaf).
  set (w := Z.lor _ fl). pose proof (index_range 12 v) as Hi.
  destruct (write_leaf_spec t (index_at 12 v) w pt1 lvl1 Hwf1 Ht Hi) as [Hwf2 Hsame].
  exists (write_entry t (index_at 12 v) w pt1), lvl1. split; [done|]. split; [done|].
  destruct (proj1 (pt_dom _ _ Hwf1 t)) as [l Hl]; [eauto|]. pose proof (pt_len _ _ Hwf1 _ _ Hl) as Hlen.
  pose proof (pt_root _ _ Hwf1) as Hr1.
  rewrite entry_of_leaf. change (pml4 (write_entry t (index_at 12 v) w pt1)) with (pml4 pt1).
  rewrite (Hsame 3%nat) by done. rewrite Hleaf.
  rewrite (read_write_entry _ _ _ _ _ _ _ Hl Hlen), decide_True by done. split; [done|].
  intros v' Hv' Hne. rewrite !entry_of_leaf.
  change (pml4 (write_entry t (index_at 12 v) w pt1)) with (pml4 pt1). rewrite (Hsame 3%nat) by done.
  transitivity (val_of 3 (pml4 pt1) v' pt1).
  - unfold val_of. destruct (leaf_of 3 (pml4 pt1) v' pt1) as [t0|] eqn:Hl0; [|done].
    rewrite (read_write_entry _ _ _ _ _ _ _ Hl Hlen) by (done || apply index_range).
    case_decide as E; [|done]. exfalso. destruct E as [-> Hi12].
    destruct (leaf_inj _ _ _ _ _ _ _ _ Hwf1 Hr1 Hr1 Hl0 Hleaf) as [_ Hj].
    apply Hne, index_inj; [done|done| | | |done].
    + apply (Hj 3%nat). lia.
    + apply (Hj 2%nat). lia.
    + apply (Hj 1%nat). lia.
  - rewrite (ext_root _ _ _ _ Hx). apply (ext_val _ _ _ _ Hx). apply (pt_root _ _ Hwf).
Qed.

(** ** A new pagemap *)
Lemma Pagemap_new_wf pmm pt :
  pmm_wf pmm -> (forall pfn, is_Some (pages pmm !! pfn) -> 0 <= pfn < 2 ^ 40) ->
  Pagemap_new pmm = Some pt -> pt_wf pt {[ pml4 pt := 3%nat ]} /\ forall v, entry_of v pt = 0.
Proof.
  intros Hwf Hfr H. unfold Pagemap_new, alloc_page_for_page_table in H. simpl in H.
  destruct (alloc_page pmm) as [[pfn s]|] eqn:Ha; [|done]. simplify_eq.
  destruct (alloc_page_inv _ _ _ Ha) as (a & Hpg & Hpgs & _).
  assert (Hz : forall t j, 0 <= j < 512 ->
    read_entry t j (mkPT (phy pfn) {[ phy pfn := replicate 512 0 ]} [pfn] s) = 0).
  { intros t j Hj. unfold read_entry; simpl. destruct (decide (t = phy pfn)) as [->|Hne].
    - rewrite lookup_singleton_eq. by rewrite lookup_replicate_2 by lia.
    - by rewrite lookup_singleton_ne. }
  split.
  - constructor; simpl.
    + apply lookup_singleton_eq.
    + intros t. by rewrite !lookup_singleton_is_Some.
    + intros t l [<- <-]%lookup_singleton_Some. apply length_replicate.
    + intros t <-%lookup_singleton_is_Some. exists pfn, a. split; [done|]. by rewrite Hpgs, lookup_insert_eq.
    + intros t k i _ Hi. by rewrite Hz.
    + intros t1 t2 k1 k2 i1 i2 _ _ Hi1 _. by rewrite Hz.
    + by eapply alloc_page_wf.
    + intros q. rewrite Hpgs, lookup_insert_is_Some. intros [<-|[_ ?]]; apply Hfr; [by rewrite Hpg|done].
  - intros v. rewrite entry_of_leaf. cbn [leaf_of pml4]. by rewrite Hz by apply index_range.
Qed.

(** A machine with one region of twenty pages. *)
Definition small_memmap : list (Z * Z) := [(65536, 81920)].

Lemma small_memmap_ok : memmap_ok small_memmap.
Proof. split; [repeat constructor; simpl; lia|repeat constructor]. Qed.

(** Physical memory below 2^52 has frames below 2^40. *)
Lemma frames_bound s pfn :
  pmm_wf s -> Forall (fun r => end_phy r <= 4503599627370496) (region_list s) ->
  is_Some (pages s !! pfn) -> 0 <= pfn < 2 ^ 40.
Proof.
  intros Hwf Hr Hp. apply (pw_pages _ Hwf) in Hp as (r & Hin & Hpfn).
  rewrite Forall_forall in Hr. specialize (Hr r Hin).
  pose proof (pw_regions _ Hwf r Hin) as Hok. pose proof (region_pfn r Hok).
  destruct (reserved_bounds r Hok) as [? _]. pose proof (ro_base _ Hok).
  change (2 ^ 40) with 1099511627776. unfold in_region, end_phy, PAGE_SIZE in *. lia.
Qed.

Lemma small_new_wf pt :
  Pagemap_new (Pmm_init small_memmap) = Some pt ->
  pt_wf pt {[ pml4 pt := 3%nat ]} /\ forall v, entry_of v pt = 0.
Proof.
  destruct (Pmm_init_wf _ small_memmap_ok) as [Hwf Hrl].
  apply Pagemap_new_wf; [exact Hwf|]. intros pfn. apply (frames_bound _ _ Hwf).
  rewrite Hrl. repeat constructor. vm_compute. discriminate.
Qed.

Lemma map_page_refines_witness :
  exists pt pt', Pagemap_new (Pmm_init small_memmap) = Some pt /\
    map_page 123456789 4198400 7 pt = Some pt' /\ entry_of 4198400 pt' = 123453447 /\
    entry_of 8192 pt' = 0.
Proof.
  destruct (Pagemap_new (Pmm_init small_memmap)) as [pt|] eqn:Hpt; [|vm_compute in Hpt; discriminate].
  destruct (small_new_wf pt Hpt) as [Hwf Hz].
  destruct (map_page_refines 123456789 4198400 7 pt _ Hwf) as (pt' & lvl & H1 & _ & H2 & H3).
  - split; [lia|reflexivity].
  - vm_compute in Hpt. injection Hpt as <-. vm_compute. lia.
  - exists pt, pt'. split; [reflexivity|]. split; [exact H1|]. split; [exact H2|].
    rewrite H3; [apply Hz|split; [lia|reflexivity]|vm_compute; discriminate].
Defined.
