(* ===== verification/AddressSpace.v ===== *)
(** Process address spaces (the range list of mem::Pagemap and the memory
    system calls, src/kernel/src/mem/vmm.cpp): mapped ranges, the pages mapped
    in them, and mmap, munmap, mprotect, brk, madvise, mincore.

    Page-table entries are a map from virtual page numbers to words, which is
    what the four-level tables of PageTable.v implement. *)
From S2P Require Import Prelude Pmm PageTable.

Inductive RangeType : Type := NONE | DIRECT | ANONYMOUS | FILE | DIRECT_VIRTUAL.

#[export] Instance RangeType_eq_dec : EqDecision RangeType.
Proof. solve_decision. Defined.

(** A range is named by the address of its object, [rid]; a null [file] is 0. *)
Record MappedRange : Type := mkRange {
  rid : Z;
  base : Z;
  original_base : Z;
  range_length : Z;
  page_flags : Z;
  range_type : RangeType;
  phy_base : Z;
  file : Z;
  file_offset : Z
}.

Definition range_end (r : MappedRange) : Z := u64 (base r + range_length r).

(** [page_owner] says on which range's page list a frame is; [file_refs]
    counts the references ranges hold on file descriptions. *)
Record Pagemap : Type := mkPagemap {
  range_list : list MappedRange;
  ptes : gmap Z Z;
  page_owner : gmap Z Z;
  file_refs : gmap Z Z;
  pm_pmm : Pmm;
  next_rid : Z
}.

Definition set_ranges (l : list MappedRange) (s : Pagemap) : Pagemap :=
  mkPagemap l (ptes s) (page_owner s) (file_refs s) (pm_pmm s) (next_rid s).

Definition vpn (virt : Z) : Z := virt / PAGE_SIZE.

(** [page->mapped_addr = virt] on an allocated page. *)
Definition set_mapped_addr (f virt : Z) (p : Pmm) : Pmm :=
  mkPmm (region_list p) (<[f := mkPage false virt]> (pages p)) (page_freelist p)
    (total_pages_usable p) (total_pages_reserved p) (total_free_pages p).

(** [Pagemap::invalidate_page]: the page at [virt] is handed to a range (its
    identity and flags), or freed when there is none.  [None] is a failed
    [ASSERT] or memory exhaustion. *)
Definition invalidate_page (virt : Z) (range : option (Z * Z)) (s : Pagemap) : option Pagemap :=
  match ptes s !! vpn virt with
  | None => Some s
  | Some e =>
      if negb (has e PAGE_PRESENT) then Some s
      else
        let p := Z.land e ADDR_MASK in
        match find_page p (pm_pmm s) with
        | None => None
        | Some page =>
            let asserted := match page with
                            | Some f => match pages (pm_pmm s) !! f with
                                        | Some pg => negb (page_free pg)
                                        | None => false
                                        end
                            | None => true
                            end in
            if negb asserted then None
            else
              match range with
              | Some (r, fl) =>
                  if negb (has fl PAGE_PRESENT) then None
                  else
                    match (match page with
                           | Some f => Some (f, pm_pmm s)
                           | None => alloc_page (pm_pmm s)
                           end) with
                    | None => None
                    | Some (f, pmm) =>
                        Some (mkPagemap (range_list s)
                                (<[vpn virt := Z.lor (phy f) fl]> (ptes s))
                                (<[f := r]> (page_owner s)) (file_refs s) (set_mapped_addr f virt pmm) (next_rid s))
                    end
              | None =>
                  match page with
                  | Some f =>
                      match free_page f (pm_pmm s) with
                      | None => None
                      | Some pmm =>
                          Some (mkPagemap (range_list s) (delete (vpn virt) (ptes s))
                                  (delete f (page_owner s)) (file_refs s) pmm (next_rid s))
                      end
                  | None =>
                      Some (mkPagemap (range_list s) (delete (vpn virt) (ptes s)) (page_owner s)
                              (file_refs s) (pm_pmm s) (next_rid s))
                  end
              end
        end
  end.

Fixpoint invalidate_loop (n : nat) (virt : Z) (range : option (Z * Z)) (s : Pagemap) : option Pagemap :=
  match n with
  | O => Some s
  | S n =>
      match invalidate_page virt range s with
      | None => None
      | Some s' => invalidate_loop n (virt + PAGE_SIZE) range s'
      end
  end.

Definition invalidate_pages (b len : Z) (range : option (Z * Z)) (s : Pagemap) : option Pagemap :=
  invalidate_loop (Z.to_nat ((len + PAGE_SIZE - 1) / PAGE_SIZE)) b range s.

(** *** Updates of one range *)
Definition update_range (r : Z) (f : MappedRange -> MappedRange) (l : list MappedRange) : list MappedRange :=
  map (fun x => if rid x =? r then f x else x) l.

Definition set_flags (fl : Z) (x : MappedRange) : MappedRange :=
  mkRange (rid x) (base x) (original_base x) (range_length x) fl (range_type x) (phy_base x)
    (file x) (file_offset x).
Definition set_extent (b len : Z) (x : MappedRange) : MappedRange :=
  mkRange (rid x) b (original_base x) len (page_flags x) (range_type x) (phy_base x)
    (file x) (file_offset x).

Definition ref_file (f d : Z) (m : gmap Z Z) : gmap Z Z :=
  if f =? 0 then m else <[f := default 0 (m !! f) + d]> m.

(** [delete existing]: the pages left on its list are freed. *)
Definition free_owned (r : Z) (s : Pagemap) : option Pagemap :=
  foldr (fun f acc =>
           match acc with
           | None => None
           | Some s =>
               match free_page f (pm_pmm s) with
               | None => None
               | Some pmm => Some (mkPagemap (range_list s) (ptes s) (delete f (page_owner s))
                                     (file_refs s) pmm (next_rid s))
               end
           end) (Some s)
    (map fst (filter (fun fo => snd fo = r) (map_to_list (page_owner s)))).

Definition delete_range (x : MappedRange) (s : Pagemap) : option Pagemap :=
  match free_owned (rid x) s with
  | None => None
  | Some s1 =>
      Some (mkPagemap (filter (fun y => rid y <> rid x) (range_list s1)) (ptes s1) (page_owner s1)
              (ref_file (file x) (-1) (file_refs s1)) (pm_pmm s1) (next_rid s1))
  end.

(** The insertion point: after the first element at the earliest, and before
    the first later element with a higher base. *)
Fixpoint insert_rest (x : MappedRange) (l : list MappedRange) : list MappedRange :=
  match l with
  | [] => [x]
  | y :: l' => if base x <? base y then x :: l else y :: insert_rest x l'
  end.
Definition insert_position (x : MappedRange) (l : list MappedRange) : list MappedRange :=
  match l with
  | [] => [x]
  | y :: l' => y :: insert_rest x l'
  end.

(** The creation of a range, at the end of [add_range]; the new identity. *)
Definition insert_range (b len fl : Z) (ty : RangeType) (pb fi fo : Z) (s : Pagemap) : MappedRange * Pagemap :=
  let x := mkRange (next_rid s) b b len fl ty pb fi fo in
  (x, mkPagemap (insert_position x (range_list s)) (ptes s) (page_owner s)
        (ref_file fi 1 (file_refs s)) (pm_pmm s) (next_rid s + 1)).

Section AddRange.
Context (b len fl : Z) (ty : RangeType) (keep_pages : bool).
Let end_ : Z := u64 (b + len).

Definition overlaps (e : MappedRange) : bool := negb ((range_end e <=? b) || (end_ <=? base e)).

(** What one pass does at an existing range: the state, whether there was an
    overlap, and whether [add_range] returns at once. *)
Definition resolve_one (e : MappedRange) (s : Pagemap) : option (Pagemap * bool * bool) :=
  if negb (overlaps e) then Some (s, false, false)
  else if b <=? base e then
    if range_end e <=? end_ then
      if keep_pages && (b =? base e) && (end_ =? range_end e) && bool_decide (ty = range_type e) then
        if page_flags e =? fl then Some (s, true, true)
        else
          match invalidate_pages (base e) (range_length e) (Some (rid e, fl))
                  (set_ranges (update_range (rid e) (set_flags fl) (range_list s)) s) with
          | None => None
          | Some s' => Some (s', true, true)
          end
      else
        match invalidate_pages (base e) (range_length e) None s with
        | None => None
        | Some s1 =>
            match delete_range e s1 with
            | None => None
            | Some s2 => Some (s2, true, false)
            end
        end
    else
      let overlap := u64 (end_ - base e) in
      Some (set_ranges (update_range (rid e)
              (set_extent (u64 (base e + overlap)) (u64 (range_length e - overlap))) (range_list s)) s,
            true, false)
  else if range_end e <=? end_ then
    Some (set_ranges (update_range (rid e)
            (set_extent (base e) (u64 (range_length e - (range_end e - b)))) (range_list s)) s,
          true, false)
  else
    let base2 := end_ in
    let length2 := u64 (range_end e - end_) in
    let split_offset := u64 (base2 - base e) in
    let split_phy := if phy_base e =? 0 then 0 else u64 (phy_base e + split_offset) in
    let split_file_offset := u64 (file_offset e + split_offset) in
    let s1 := set_ranges (update_range (rid e) (set_extent (base e) (u64 (b - base e))) (range_list s)) s in
    let (x, s2) := insert_range base2 length2 (page_flags e) (range_type e) split_phy (file e)
                     split_file_offset s1 in
    match invalidate_pages base2 length2 (Some (rid x, page_flags e)) s2 with
    | None => None
    | Some s3 => Some (s3, true, false)
    end.

Fixpoint resolve_pass (es : list MappedRange) (s : Pagemap) (had : bool) : option (Pagemap * bool * bool) :=
  match es with
  | [] => Some (s, had, false)
  | e :: es' =>
      match resolve_one e s with
      | None => None
      | Some (s', o, true) => Some (s', true, true)
      | Some (s', o, false) => resolve_pass es' s' (had || o)
      end
  end.

(** The outer loop: passes until one finds no overlap. The last component
    tells an early return; no fuel left is [None]. *)
Fixpoint resolve_loop (fuel : nat) (s : Pagemap) (had : bool) : option (Pagemap * bool * bool) :=
  match fuel with
  | O => None
  | S fuel =>
      match resolve_pass (range_list s) s false with
      | None => None
      | Some (s', _, true) => Some (s', true, true)
      | Some (s', false, false) => Some (s', had, false)
      | Some (s', true, false) => resolve_loop fuel s' true
      end
  end.

(** The anonymous range a new one is merged into, with its new extent. *)
Definition merge_one (e : MappedRange) : option MappedRange :=
  if bool_decide (ty = range_type e) && (fl =? page_flags e) then
    if b =? range_end e then Some (set_extent (base e) (u64 (range_length e + len)) e)
    else if end_ =? base e then Some (set_extent (u64 (base e - len)) (u64 (range_length e + len)) e)
    else None
  else None.

Fixpoint merge_scan (es : list MappedRange) : option MappedRange :=
  match es with
  | [] => None
  | e :: es' => match merge_one e with Some e' => Some e' | None => merge_scan es' end
  end.

Definition add_range (pb fi fo : Z) (merge resolve_overlap : bool) (s : Pagemap) : option Pagemap :=
  match (if resolve_overlap then resolve_loop 3 s false else Some (s, false, false)) with
  | None => None
  | Some (s1, _, true) => Some s1
  | Some (s1, had_overlap, false) =>
      match (if merge && bool_decide (ty = ANONYMOUS) then merge_scan (range_list s1) else None) with
      | Some e' =>
          let s2 := set_ranges (update_range (rid e') (fun _ => e') (range_list s1)) s1 in
          if had_overlap then invalidate_pages b len (Some (rid e', page_flags e')) s2 else Some s2
      | None =>
          if bool_decide (ty = NONE) then invalidate_pages b len None s1
          else
            let (x, s2) := insert_range b len fl ty pb fi fo s1 in
            if had_overlap then invalidate_pages b len (Some (rid x, fl)) s2 else Some s2
      end
  end.

End AddRange.

(** ** Well-formed address spaces *)

Record range_ok (x : MappedRange) : Prop := {
  rk_base : 0 <= base x;
  rk_len : 0 < range_length x;
  rk_end : base x + range_length x < 18446744073709551616;
  rk_base_al : base x mod PAGE_SIZE = 0;
  rk_len_al : range_length x mod PAGE_SIZE = 0;
  rk_type : range_type x <> NONE
}.

Definition covers (x : MappedRange) (a : Z) : Prop := base x <= a < base x + range_length x.
Definition disjoint_ranges (x y : MappedRange) : Prop :=
  base x + range_length x <= base y \/ base y + range_length y <= base x.

(** Page flags: the present bit, and nothing in the address field. *)
Definition flags_ok (fl : Z) : Prop :=
  has fl PAGE_PRESENT = true /\ Z.land fl ADDR_MASK = 0.

Record ranges_ok (l : list MappedRange) (next : Z) : Prop := {
  ro_ok : forall x, x ∈ l -> range_ok x /\ flags_ok (page_flags x);
  ro_disj : forall x y, x ∈ l -> y ∈ l -> rid x <> rid y -> disjoint_ranges x y;
  ro_nodup : NoDup (map rid l);
  ro_next : forall x, x ∈ l -> rid x < next
}.

(** The attributes of the mapping at an address. *)
Definition mapped (l : list MappedRange) (a fl : Z) (ty : RangeType) : Prop :=
  exists x, x ∈ l /\ covers x a /\ page_flags x = fl /\ range_type x = ty.

(** A page table entry with the range its frame is listed on. *)
Definition page_view (s : Pagemap) (v : Z) : option (Z * option Z) :=
  match ptes s !! v with
  | Some e => Some (e, page_owner s !! (Z.land e ADDR_MASK / PAGE_SIZE))
  | None => None
  end.

(** Every entry maps a frame of its own that is not free, every frame on a
    range's list is mapped. *)
Record frames_ok (s : Pagemap) : Prop := {
  fk_pmm : pmm_wf (pm_pmm s);
  fk_pte : forall v e, ptes s !! v = Some e -> has e PAGE_PRESENT = true /\
    exists f a, Z.land e ADDR_MASK = phy f /\ pages (pm_pmm s) !! f = Some (mkPage false a);
  fk_inj : forall v1 v2 e1 e2, ptes s !! v1 = Some e1 -> ptes s !! v2 = Some e2 ->
    Z.land e1 ADDR_MASK = Z.land e2 ADDR_MASK -> v1 = v2;
  fk_owner : forall f r, page_owner s !! f = Some r ->
    exists v e, ptes s !! v = Some e /\ Z.land e ADDR_MASK = phy f;
  fk_frame : forall f, is_Some (pages (pm_pmm s) !! f) -> 0 <= f < 2 ^ 40
}.

(** While the interval [b, e) is being taken over, the pages of every range
    are where the range is, except that pages inside the interval may still be
    listed on a range that has already given way. *)
Definition pages_ok (b e : Z) (s : Pagemap) : Prop :=
  forall v w o, page_view s v = Some (w, o) ->
    exists r, o = Some r /\
      ((exists x, x ∈ range_list s /\ rid x = r /\ covers x (v * PAGE_SIZE) /\
          w = Z.lor (Z.land w ADDR_MASK) (page_flags x)) \/
       (b <= v * PAGE_SIZE < e /\
        forall x, x ∈ range_list s -> ~ covers x (v * PAGE_SIZE) /\
          (rid x = r -> base x + range_length x <= b \/ e <= base x))).

(** The permissions of every mapped page are those of the range it is in. *)
Record as_wf (s : Pagemap) : Prop := {
  aw_ranges : ranges_ok (range_list s) (next_rid s);
  aw_frames : frames_ok s;
  aw_pages : pages_ok 0 0 s
}.

Lemma range_end_eq x : range_ok x -> range_end x = base x + range_length x.
Proof. intros []. unfold range_end. apply u64_small. lia. Qed.

(** *** Words *)
Lemma land_phy_lor f fl :
  0 <= f < 2 ^ 40 -> Z.land fl ADDR_MASK = 0 -> Z.land (Z.lor (phy f) fl) ADDR_MASK = phy f.
Proof.
  intros Hf Hfl. rewrite Z.land_lor_distr_l, Hfl, Z.lor_0_r.
  apply Z.bits_inj'. intros n Hn. rewrite Z.land_spec, addr_mask_bits by done.
  rewrite (page_addr_bits (phy f) n) by (done || by exists f).
  by destruct (Z.testbit (phy f) n), (12 <=? n), (n <? 52).
Qed.

Lemma has_lor_r x fl m : has fl m = true -> has (Z.lor x fl) m = true.
Proof.
  unfold has. rewrite !negb_true_iff, !Z.eqb_neq. intros H G. apply H.
  rewrite Z.land_lor_distr_l in G. by apply Z.lor_eq_0_iff in G as [_ G].
Qed.

Lemma phy_div f : phy f / PAGE_SIZE = f.
Proof. unfold phy. by rewrite Z.div_mul. Qed.

Lemma phy_inj f g : phy f = phy g -> f = g.
Proof. unfold phy, PAGE_SIZE. lia. Qed.

Lemma find_page_managed s f :
  pmm_wf s -> is_Some (pages s !! f) -> find_page (phy f) s = Some (Some f).
Proof.
  intros Hwf Hp. apply (pw_pages _ Hwf) in Hp as (r & Hr & Hin).
  eapply find_page_in_spec; [apply Hwf|apply Hwf|done|done].
Qed.

(** *** One page *)
Lemma page_view_Some s v w o :
  page_view s v = Some (w, o) <-> ptes s !! v = Some w /\ o = page_owner s !! (Z.land w ADDR_MASK / PAGE_SIZE).
Proof. unfold page_view. destruct (ptes s !! v); naive_solver. Qed.

Lemma page_view_None s v : page_view s v = None <-> ptes s !! v = None.
Proof. unfold page_view. destruct (ptes s !! v); naive_solver. Qed.

Definition same_ranges (s s' : Pagemap) : Prop :=
  range_list s' = range_list s /\ next_rid s' = next_rid s /\ file_refs s' = file_refs s.

(** What an invalidation leaves at a page it touches. *)
Definition retag (range : option (Z * Z)) (p : option (Z * option Z)) : option (Z * option Z) :=
  match range, p with
  | Some (r, fl), Some (e, _) => Some (Z.lor (Z.land e ADDR_MASK) fl, Some r)
  | _, _ => None
  end.

Definition target_ok (range : option (Z * Z)) : Prop :=
  match range with Some (_, fl) => flags_ok fl | None => True end.

Lemma view_frame s v w o f :
  page_view s v = Some (w, o) -> Z.land w ADDR_MASK = phy f -> o = page_owner s !! f.
Proof. intros [_ ->]%page_view_Some ->. by rewrite phy_div. Qed.

Lemma set_mapped_addr_wf p f a virt :
  pmm_wf p -> pages p !! f = Some (mkPage false a) -> pmm_wf (set_mapped_addr f virt p).
Proof.
  intros [] Hp. constructor; simpl; auto.
  - intros q. rewrite pw_free, lookup_insert. case_decide as Hq; [|done]. subst q. rewrite Hp. naive_solver.
  - intros q. rewrite lookup_insert_is_Some, <- pw_pages.
    split; [intros [->|[_ ?]]; [eauto|done]|]. destruct (decide (f = q)); auto.
Qed.

Lemma invalidate_page_give s v e f a r fl virt :
  frames_ok s -> flags_ok fl -> ptes s !! v = Some e -> Z.land e ADDR_MASK = phy f ->
  pages (pm_pmm s) !! f = Some (mkPage false a) ->
  let s' := mkPagemap (range_list s) (<[v := Z.lor (phy f) fl]> (ptes s)) (<[f := r]> (page_owner s))
              (file_refs s) (set_mapped_addr f virt (pm_pmm s)) (next_rid s) in
  frames_ok s' /\ forall v', page_view s' v'
    = if v' =? v then retag (Some (r, fl)) (page_view s v') else page_view s v'.
Proof.
  intros Hok [Hfp Hfm] He Hm Hp s'. pose proof Hok as [].
  assert (Hfr : 0 <= f < 2 ^ 40) by eauto.
  pose proof (land_phy_lor f fl Hfr Hfm) as Hland.
  assert (Hother : forall v' e', v' <> v -> ptes s !! v' = Some e' -> Z.land e' ADDR_MASK <> phy f).
  { intros v' e' Hne He' Hc. apply Hne. eapply fk_inj0; eauto. congruence. }
  split.
  - constructor; simpl; auto.
    + by eapply set_mapped_addr_wf.
    + intros v' e' [[<- <-]|[Hne He']]%lookup_insert_Some.
      * split; [by apply has_lor_r|]. rewrite Hland. exists f, virt. by rewrite lookup_insert_eq.
      * destruct (fk_pte0 _ _ He') as (H1 & f' & a' & H2 & H3). split; [done|]. exists f', a'.
        split; [done|]. rewrite lookup_insert_ne; [done|]. intros <-. by eapply Hother; eauto.
    + intros v1 v2 e1 e2 [[<- <-]|[H1 H1']]%lookup_insert_Some [[<- <-]|[H2 H2']]%lookup_insert_Some Heq;
        rewrite ?Hland in Heq; try done; try (exfalso; by eapply Hother; eauto); eauto.
    + intros f' r' [[<- <-]|[Hne Ho]]%lookup_insert_Some.
      * exists v, (Z.lor (phy f) fl). rewrite lookup_insert_eq. done.
      * destruct (fk_owner0 _ _ Ho) as (v' & e' & He' & Hm'). exists v', e'.
        rewrite lookup_insert_ne; [done|]. intros <-. rewrite He in He'. simplify_eq.
        apply Hne, phy_inj. congruence.
    + intros f' Hs. apply lookup_insert_is_Some in Hs as [<-|[_ Hs]]; eauto.
  - intros v'. destruct (Z.eqb_spec v' v) as [->|Hne].
    + unfold page_view; simpl. rewrite lookup_insert_eq, He, Hland, phy_div, lookup_insert_eq. simpl.
      by rewrite Hm.
    + unfold page_view; simpl. rewrite lookup_insert_ne by done.
      destruct (ptes s !! v') as [e'|] eqn:He'; [|done]. do 2 f_equal.
      destruct (fk_pte0 _ _ He') as (_ & f' & a' & Hf' & _). rewrite Hf', phy_div.
      rewrite lookup_insert_ne; [done|]. intros ->. by eapply Hother.
Qed.

Lemma invalidate_page_free s v e f a pmm :
  frames_ok s -> ptes s !! v = Some e -> Z.land e ADDR_MASK = phy f ->
  pages (pm_pmm s) !! f = Some (mkPage false a) -> free_page f (pm_pmm s) = Some pmm ->
  let s' := mkPagemap (range_list s) (delete v (ptes s)) (delete f (page_owner s))
              (file_refs s) pmm (next_rid s) in
  frames_ok s' /\ forall v', page_view s' v' = if v' =? v then None else page_view s v'.
Proof.
  intros Hok He Hm Hp Hfree s'. pose proof Hok as [].
  assert (Hother : forall v' e', v' <> v -> ptes s !! v' = Some e' -> Z.land e' ADDR_MASK <> phy f).
  { intros v' e' Hne He' Hc. apply Hne. eapply fk_inj0; eauto. congruence. }
  assert (Hpages : pages pmm = <[f := mkPage true 0]> (pages (pm_pmm s))).
  { unfold free_page in Hfree. rewrite Hp in Hfree. simpl in Hfree. by simplify_eq. }
  split.
  - constructor; simpl; auto.
    + by eapply free_page_wf.
    + intros v' e' [Hne He']%lookup_delete_Some. destruct (fk_pte0 _ _ He') as (H1 & f' & a' & H2 & H3).
      split; [done|]. exists f', a'. split; [done|]. rewrite Hpages, lookup_insert_ne; [done|].
      intros ->. by eapply Hother; eauto.
    + intros v1 v2 e1 e2 [_ H1]%lookup_delete_Some [_ H2]%lookup_delete_Some. eauto.
    + intros f' r' [Hne Ho]%lookup_delete_Some. destruct (fk_owner0 _ _ Ho) as (v' & e' & He' & Hm').
      exists v', e'. rewrite lookup_delete_ne; [done|]. intros <-. rewrite He in He'. simplify_eq.
      apply Hne, phy_inj. congruence.
    + intros f' Hs. rewrite Hpages in Hs. apply lookup_insert_is_Some in Hs as [<-|[_ Hs]]; eauto.
  - intros v'. destruct (Z.eqb_spec v' v) as [->|Hne].
    + unfold page_view; simpl. by rewrite lookup_delete_eq.
    + unfold page_view; simpl. rewrite lookup_delete_ne by done.
      destruct (ptes s !! v') as [e'|] eqn:He'; [|done]. do 2 f_equal.
      destruct (fk_pte0 _ _ He') as (_ & f' & a' & Hf' & _). rewrite Hf', phy_div.
      rewrite lookup_delete_ne; [done|]. intros ->. by eapply Hother.
Qed.

Lemma invalidate_page_spec virt range s :
  frames_ok s -> target_ok range ->
  exists s', invalidate_page virt range s = Some s' /\ frames_ok s' /\ same_ranges s s' /\
    forall v, page_view s' v = if v =? vpn virt then retag range (page_view s v) else page_view s v.
Proof.
  intros Hok Ht. unfold invalidate_page. destruct (ptes s !! vpn virt) as [e|] eqn:He.
  - destruct (fk_pte _ Hok _ _ He) as (Hpres & f & a & Hm & Hp). rewrite Hpres, Hm. cbn [negb].
    rewrite (find_page_managed _ f (fk_pmm _ Hok)) by eauto. rewrite Hp. cbn [page_free negb].
    destruct range as [[r fl]|].
    + pose proof Ht as [Hfp _]. rewrite Hfp. cbn [negb]. eexists. split; [reflexivity|].
      destruct (invalidate_page_give s _ e f a r fl virt Hok Ht He Hm Hp) as [H1 H2]. done.
    + assert (exists pmm, free_page f (pm_pmm s) = Some pmm) as [pmm Hfree]
        by (unfold free_page; rewrite Hp; simpl; eauto).
      rewrite Hfree. eexists. split; [reflexivity|].
      destruct (invalidate_page_free s _ e f a pmm Hok He Hm Hp Hfree) as [H1 H2]. split; [done|].
      split; [done|]. intros v. rewrite H2. destruct (Z.eqb_spec v (vpn virt)); [|done].
      by destruct (page_view s v).
  - exists s. split; [done|]. split; [done|]. split; [done|]. intros v.
    destruct (Z.eqb_spec v (vpn virt)) as [->|]; [|done].
    unfold page_view. rewrite He. by destruct range as [[? ?]|].
Qed.

(** *** An interval of pages *)
Lemma same_ranges_trans a b c : same_ranges a b -> same_ranges b c -> same_ranges a c.
Proof. unfold same_ranges. naive_solver congruence. Qed.

Lemma invalidate_loop_spec n virt range s :
  frames_ok s -> target_ok range -> virt mod PAGE_SIZE = 0 ->
  exists s', invalidate_loop n virt range s = Some s' /\ frames_ok s' /\ same_ranges s s' /\
    forall v, page_view s' v
      = if (vpn virt <=? v) && (v <? vpn virt + Z.of_nat n) then retag range (page_view s v) else page_view s v.
Proof.
  intros Hok Ht. revert virt s Hok. induction n as [|n IH]; intros virt s Hok Hal.
  - exists s. split; [done|]. split; [done|]. split; [done|]. intros v.
    destruct (Z.leb_spec (vpn virt) v), (Z.ltb_spec v (vpn virt + Z.of_nat 0)); simpl; try done; lia.
  - cbn [invalidate_loop]. destruct (invalidate_page_spec virt range s Hok Ht) as (s1 & -> & Hok1 & Hs1 & Hv1).
    assert (vpn (virt + PAGE_SIZE) = vpn virt + 1) as Hvpn.
    { unfold vpn. rewrite <- (Z.mul_1_l PAGE_SIZE) at 1. by rewrite Z.div_add. }
    destruct (IH (virt + PAGE_SIZE) s1 Hok1) as (s2 & -> & Hok2 & Hs2 & Hv2).
    { rewrite <- (Z.mul_1_l PAGE_SIZE) at 1. by rewrite Z_mod_plus_full. }
    exists s2. split; [done|]. split; [done|]. split; [by eapply same_ranges_trans|].
    intros v. rewrite Hv2, Hv1, Hvpn.
    destruct (Z.eqb_spec v (vpn virt)) as [->|].
    + destruct (Z.leb_spec (vpn virt + 1) (vpn virt)); [lia|]. simpl.
      destruct (Z.leb_spec (vpn virt) (vpn virt)); [|lia].
      destruct (Z.ltb_spec (vpn virt) (vpn virt + Z.of_nat (S n))); [done|lia].
    + destruct (Z.leb_spec (vpn virt + 1) v), (Z.leb_spec (vpn virt) v),
        (Z.ltb_spec v (vpn virt + 1 + Z.of_nat n)), (Z.ltb_spec v (vpn virt + Z.of_nat (S n)));
        simpl; try done; lia.
Qed.

(** The page numbers of an aligned interval. *)
Lemma interval_pages b len v :
  0 <= len -> b mod PAGE_SIZE = 0 -> len mod PAGE_SIZE = 0 ->
  (vpn b <=? v) && (v <? vpn b + Z.of_nat (Z.to_nat ((len + PAGE_SIZE - 1) / PAGE_SIZE)))
  = (b <=? v * PAGE_SIZE) && (v * PAGE_SIZE <? b + len).
Proof.
  intros Hl Hb Hm. unfold vpn, PAGE_SIZE in *.
  pose proof (Z.div_mod b 4096 ltac:(lia)). pose proof (Z.div_mod len 4096 ltac:(lia)).
  assert ((len + 4096 - 1) / 4096 = len / 4096) as ->.
  { replace (len + 4096 - 1) with (4095 + (len / 4096) * 4096) by lia.
    rewrite Z_div_plus_full by lia. done. }
  rewrite Z2Nat.id by (apply Z.div_pos; lia).
  destruct (Z.leb_spec (b / 4096) v), (Z.leb_spec b (v * 4096)); simpl; try done; try lia.
Qed.

Definition in_interval (b len v : Z) : bool := (b <=? v * PAGE_SIZE) && (v * PAGE_SIZE <? b + len).

Lemma invalidate_pages_spec b len range s :
  frames_ok s -> target_ok range -> 0 <= len -> b mod PAGE_SIZE = 0 -> len mod PAGE_SIZE = 0 ->
  exists s', invalidate_pages b len range s = Some s' /\ frames_ok s' /\ same_ranges s s' /\
    forall v, page_view s' v = if in_interval b len v then retag range (page_view s v) else page_view s v.
Proof.
  intros Hok Ht Hl Hb Hm. unfold invalidate_pages.
  destruct (invalidate_loop_spec (Z.to_nat ((len + PAGE_SIZE - 1) / PAGE_SIZE)) b range s Hok Ht Hb)
    as (s' & Hi & Hok' & Hs & Hv).
  exists s'. split; [done|]. split; [done|]. split; [done|]. intros v.
  rewrite Hv. unfold in_interval. by rewrite interval_pages.
Qed.

Lemma in_interval_spec b len v : in_interval b len v = true <-> b <= v * PAGE_SIZE < b + len.
Proof. unfold in_interval. rewrite andb_true_iff, Z.leb_le, Z.ltb_lt. done. Qed.

Lemma aligned_add x y : x mod PAGE_SIZE = 0 -> y mod PAGE_SIZE = 0 -> (x + y) mod PAGE_SIZE = 0.
Proof. intros Hx Hy. by rewrite Z.add_mod, Hx, Hy. Qed.

Lemma aligned_sub x y : x mod PAGE_SIZE = 0 -> y mod PAGE_SIZE = 0 -> (x - y) mod PAGE_SIZE = 0.
Proof. intros Hx Hy. by rewrite Zminus_mod, Hx, Hy. Qed.

(** *** Range lists *)
Lemma disjoint_sym x y : disjoint_ranges x y -> disjoint_ranges y x.
Proof. unfold disjoint_ranges. lia. Qed.

Lemma rid_unique l x y : NoDup (map rid l) -> x ∈ l -> y ∈ l -> rid x = rid y -> x = y.
Proof.
  intros Hnd Hx Hy He. apply list_elem_of_lookup in Hx as [i Hi]. apply list_elem_of_lookup in Hy as [j Hj].
  assert (i = j) as ->; [|congruence].
  apply (NoDup_lookup (map rid l) i j (rid x) Hnd).
  - change (map rid l) with (rid <$> l). by rewrite list_lookup_fmap, Hi.
  - change (map rid l) with (rid <$> l). by rewrite list_lookup_fmap, Hj, He.
Qed.

Lemma elem_update l e f x :
  NoDup (map rid l) -> e ∈ l ->
  x ∈ update_range (rid e) f l <-> (x ∈ l /\ rid x <> rid e) \/ x = f e.
Proof.
  intros Hnd He. unfold update_range.
  change (map ?g l) with (g <$> l). rewrite list_elem_of_fmap. split.
  - intros (y & -> & Hy). destruct (Z.eqb_spec (rid y) (rid e)) as [E|]; [right|by left].
    by rewrite (rid_unique l y e).
  - intros [[Hx Hne]| ->]; [exists x|exists e].
    + by rewrite (proj2 (Z.eqb_neq _ _)).
    + by rewrite Z.eqb_refl.
Qed.

Lemma update_rids l e f : rid (f e) = rid e -> NoDup (map rid l) -> e ∈ l ->
  map rid (update_range (rid e) f l) = map rid l.
Proof.
  intros Hf Hnd He. unfold update_range. rewrite map_map. apply map_ext_in. intros y Hy%list_elem_of_In.
  destruct (Z.eqb_spec (rid y) (rid e)) as [E|]; [|done]. by rewrite (rid_unique l y e).
Qed.

Lemma insert_rest_perm x l : insert_rest x l ≡ₚ x :: l.
Proof.
  induction l as [|y l IH]; simpl; [done|]. destruct (base x <? base y); [done|].
  rewrite IH. constructor.
Qed.

Lemma insert_position_perm x l : insert_position x l ≡ₚ x :: l.
Proof. destruct l as [|y l]; [done|]. simpl. rewrite insert_rest_perm. constructor. Qed.

Lemma ranges_ok_update l next e f :
  ranges_ok l next -> e ∈ l -> rid (f e) = rid e -> range_ok (f e) -> flags_ok (page_flags (f e)) ->
  (forall y, y ∈ l -> rid y <> rid e -> disjoint_ranges (f e) y) ->
  ranges_ok (update_range (rid e) f l) next.
Proof.
  intros [Hok Hdis Hnd Hnext] He Hr Hro Hfl Hd. constructor.
  - intros x [[Hx _]| ->]%elem_update; auto.
  - intros x y [[Hx Hxe]| ->]%elem_update [[Hy Hye]| ->]%elem_update Hne; auto using disjoint_sym.
    congruence.
  - by rewrite update_rids.
  - intros x [[Hx _]| ->]%elem_update; auto. rewrite Hr. auto.
Qed.

Lemma ranges_ok_insert l next x :
  ranges_ok l next -> rid x = next -> range_ok x -> flags_ok (page_flags x) ->
  (forall y, y ∈ l -> disjoint_ranges x y) -> ranges_ok (insert_position x l) (next + 1).
Proof.
  intros [Hok Hdis Hnd Hnext] Hr Hro Hfl Hd. pose proof (insert_position_perm x l) as Hp. constructor.
  - intros y. rewrite Hp, elem_of_cons. intros [->|Hy]; auto.
  - intros y z. rewrite Hp, !elem_of_cons. intros [->|Hy] [->|Hz] Hne; auto using disjoint_sym. done.
  - rewrite Hp. simpl. apply NoDup_cons. split; [|done]. rewrite Hr.
    change (map rid l) with (rid <$> l). rewrite list_elem_of_fmap. intros (y & Hy & Hin).
    specialize (Hnext y Hin). lia.
  - intros y. rewrite Hp, elem_of_cons. intros [->|Hy]; [lia|]. specialize (Hnext y Hy). lia.
Qed.

Lemma ranges_ok_filter l next r :
  ranges_ok l next -> ranges_ok (filter (fun y => rid y <> r) l) next.
Proof.
  intros [Hok Hdis Hnd Hnext]. constructor.
  - intros x [_ Hx]%list_elem_of_filter. auto.
  - intros x y [_ Hx]%list_elem_of_filter [_ Hy]%list_elem_of_filter. auto.
  - clear -Hnd. induction l as [|y l IH]; simpl; [constructor|]. apply NoDup_cons in Hnd as [Hn Hnd].
    rewrite filter_cons. case_decide; [|auto]. simpl. apply NoDup_cons. split; [|auto].
    intros Hin. apply Hn. change (map rid l) with (rid <$> l).
    change (map rid (filter (fun y => rid y <> r) l)) with (rid <$> filter (fun y => rid y <> r) l) in Hin.
    apply list_elem_of_fmap in Hin as (z & Hz & Hin). apply list_elem_of_filter in Hin as [_ Hin].
    apply list_elem_of_fmap. eauto.
  - intros x [_ Hx]%list_elem_of_filter. auto.
Qed.

(** Deleting a range that lists no page. *)
Lemma delete_range_spec x s :
  (forall f, page_owner s !! f <> Some (rid x)) ->
  delete_range x s = Some (mkPagemap (filter (fun y => rid y <> rid x) (range_list s)) (ptes s)
    (page_owner s) (ref_file (file x) (-1) (file_refs s)) (pm_pmm s) (next_rid s)).
Proof.
  intros Hno. unfold delete_range, free_owned.
  assert (filter (fun fo => snd fo = rid x) (map_to_list (page_owner s)) = []) as ->; [|done].
  destruct (filter _ _) as [|[f o] l] eqn:E; [done|]. exfalso.
  assert ((f, o) ∈ filter (fun fo => snd fo = rid x) (map_to_list (page_owner s))) as Hin by (rewrite E; by left).
  apply list_elem_of_filter in Hin as [Ho Hin]. apply elem_of_map_to_list in Hin. simpl in Ho. subst.
  by apply (Hno f).
Qed.

(** *** Taking an interval over *)
Section Taking.
Context (b len : Z) (l0 : list MappedRange).
Hypothesis (Hb : 0 <= b) (Hlen : 0 < len) (Hend : b + len < 18446744073709551616).
Hypothesis (Hb_al : b mod PAGE_SIZE = 0) (Hlen_al : len mod PAGE_SIZE = 0).

Definition off (x : MappedRange) : Prop := base x + range_length x <= b \/ b + len <= base x.

(** Outside the interval nothing changes. *)
Record taking (s : Pagemap) : Prop := {
  tk_ranges : ranges_ok (range_list s) (next_rid s);
  tk_frames : frames_ok s;
  tk_pages : pages_ok b (b + len) s;
  tk_mapped : forall a fl ty, ~ (b <= a < b + len) -> mapped (range_list s) a fl ty <-> mapped l0 a fl ty
}.

Lemma end_word : u64 (b + len) = b + len.
Proof. apply u64_small. lia. Qed.

Lemma overlaps_spec e : range_ok e -> overlaps b len e = true <-> ~ off e.
Proof.
  intros Hok. unfold overlaps, off. rewrite end_word, range_end_eq by done.
  rewrite negb_true_iff, orb_false_iff, !Z.leb_gt. lia.
Qed.

Lemma overlaps_false e : range_ok e -> overlaps b len e = false <-> off e.
Proof.
  intros Hok. destruct (overlaps b len e) eqn:E.
  - apply overlaps_spec in E; [|done]. split; done.
  - split; [|done]. intros _. unfold overlaps in E. rewrite end_word, range_end_eq in E by done.
    apply negb_false_iff, orb_true_iff in E as [E|E]; apply Z.leb_le in E; unfold off; lia.
Qed.

Lemma taking_range s x : taking s -> x ∈ range_list s -> range_ok x /\ flags_ok (page_flags x).
Proof. intros [[H _ _ _] _ _ _]. auto. Qed.

Lemma taking_unique s x y a : taking s -> x ∈ range_list s -> y ∈ range_list s ->
  covers x a -> covers y a -> x = y.
Proof.
  intros [[Hok Hd Hnd _] _ _ _] Hx Hy Hcx Hcy. destruct (decide (rid x = rid y)) as [E|Hne].
  - by eapply rid_unique.
  - specialize (Hd x y Hx Hy Hne). unfold disjoint_ranges, covers in *. lia.
Qed.

Lemma vpn_page v : 0 <= v -> vpn (v * PAGE_SIZE) = v.
Proof. intros. unfold vpn. by rewrite Z.div_mul. Qed.

(** Trimming a range to the part [b', b'+l') of it outside the interval. *)
Lemma taking_trim s e b' l' :
  taking s -> e ∈ range_list s -> 0 <= b' -> 0 < l' -> base e <= b' -> b' + l' <= base e + range_length e ->
  b' mod PAGE_SIZE = 0 -> l' mod PAGE_SIZE = 0 -> b' + l' <= b \/ b + len <= b' ->
  (forall a, covers e a -> ~ (b <= a < b + len) -> b' <= a < b' + l') ->
  taking (set_ranges (update_range (rid e) (set_extent b' l') (range_list s)) s).
Proof.
  intros Htk He Hb0 Hl0 Hlo Hhi Hal1 Hal2 Hside Hcov. pose proof Htk as [Hro Hfr Hpg Hmap].
  pose proof Hro as [Hok Hd Hnd Hnx]. destruct (Hok e He) as [Hre Hfe].
  assert (Hin : forall x, x ∈ update_range (rid e) (set_extent b' l') (range_list s) <->
    (x ∈ range_list s /\ rid x <> rid e) \/ x = set_extent b' l' e) by (intros; by apply elem_update).
  constructor; cbn [set_ranges range_list next_rid].
  - apply ranges_ok_update; auto.
    + destruct Hre. constructor; simpl; auto; lia.
    + intros y Hy Hne. specialize (Hd e y He Hy (not_eq_sym Hne)). unfold disjoint_ranges in *. simpl. lia.
  - destruct Hfr. by constructor.
  - intros v w o Hv. destruct (Hpg v w o Hv) as (r & -> & Hcase). exists r. split; [done|].
    destruct Hcase as [(x & Hx & <- & Hc & Hw)|[Hv1 Hv2]].
    + destruct (decide (rid x = rid e)) as [E|Hne].
      * assert (x = e) as -> by eauto using rid_unique.
        destruct (decide (b <= v * PAGE_SIZE < b + len)) as [Hi|Hi].
        { right. split; [done|]. intros y [[Hy Hne]| ->]%Hin.
          - split; [|done]. intros Hcy. apply Hne. f_equal. by eapply taking_unique.
          - split; [|by intros _]. unfold covers; simpl. lia. }
        left. exists (set_extent b' l' e). split; [apply Hin; by right|]. split; [done|].
        split; [|done]. by apply Hcov.
      * left. exists x. split; [apply Hin; by left|]. done.
    + right. split; [done|]. intros y [[Hy Hne]| ->]%Hin; [by apply Hv2|].
      split; [|by intros _]. unfold covers; simpl. lia.
  - intros a fl ty Ha. rewrite <- Hmap by done. unfold mapped. split.
    + intros (x & [[Hx Hne]| ->]%Hin & Hc & Hf & Ht); [by exists x|]. exists e.
      unfold covers in *. simpl in *. split; [done|]. split; [lia|]. done.
    + intros (x & Hx & Hc & Hf & Ht). destruct (decide (rid x = rid e)) as [E|Hne].
      * assert (x = e) as -> by eauto using rid_unique. exists (set_extent b' l' e).
        split; [apply Hin; by right|]. split; [by apply Hcov|]. done.
      * exists x. split; [apply Hin; by left|]. done.
Qed.

Lemma in_extent x v : in_interval (base x) (range_length x) v = true <-> covers x (v * PAGE_SIZE).
Proof. apply in_interval_spec. Qed.

(** A range inside the interval is dropped with its pages. *)
Lemma taking_delete s e :
  taking s -> e ∈ range_list s -> b <= base e -> base e + range_length e <= b + len ->
  exists s1 s2, invalidate_pages (base e) (range_length e) None s = Some s1 /\ delete_range e s1 = Some s2 /\
    taking s2 /\ range_list s2 = filter (fun y => rid y <> rid e) (range_list s).
Proof.
  intros Htk He Hlo Hhi. pose proof Htk as [Hro Hfr Hpg Hmap].
  pose proof Hro as [Hok Hd Hnd Hnx]. destruct (Hok e He) as [Hre Hfe]. pose proof Hre as [].
  destruct (invalidate_pages_spec (base e) (range_length e) None s) as (s1 & Hi & Hfr1 & (Hl & Hn & _) & Hv1);
    try done; [lia|].
  assert (Hno : forall f, page_owner s1 !! f <> Some (rid e)).
  { intros f Ho. destruct (fk_owner _ Hfr1 _ _ Ho) as (v & w & Hw & Hm).
    assert (page_view s1 v = Some (w, Some (rid e))) as Hv
      by (apply page_view_Some; rewrite Hm, phy_div; done).
    rewrite Hv1 in Hv. destruct (in_interval _ _ v) eqn:Hin; [done|].
    destruct (Hpg _ _ _ Hv) as (r & [= <-] & [(x & Hx & Hr & Hc & _)|[_ Hx]]).
    - assert (x = e) as -> by eauto using rid_unique. apply in_extent in Hc. congruence.
    - destruct (Hx e He) as [_ Hoff]. specialize (Hoff eq_refl). lia. }
  exists s1. eexists. split; [done|]. split; [by apply delete_range_spec|].
  cbn [range_list]. rewrite Hl. split; [|done].
  constructor; cbn [range_list next_rid].
  - rewrite Hn. by apply ranges_ok_filter.
  - destruct Hfr1. by constructor.
  - intros v w o Hv. change (page_view s1 v = Some (w, o)) in Hv. rewrite Hv1 in Hv.
    destruct (in_interval _ _ v) eqn:Hin; [done|].
    destruct (Hpg v w o Hv) as (r & -> & Hcase). exists r. split; [done|].
    destruct Hcase as [(x & Hx & <- & Hc & Hw)|[Hi1 Hi2]].
    + left. exists x. split; [|done]. apply list_elem_of_filter. split; [|done]. intros E.
      assert (x = e) as -> by eauto using rid_unique. apply in_extent in Hc. congruence.
    + right. split; [done|]. intros x [_ Hx]%list_elem_of_filter. by apply Hi2.
  - intros a fl ty Ha. rewrite <- Hmap by done. unfold mapped. split.
    + intros (x & [_ Hx]%list_elem_of_filter & Hrest). by exists x.
    + intros (x & Hx & Hc & Hrest). exists x. split; [|done]. apply list_elem_of_filter. split; [|done].
      intros E. assert (x = e) as -> by eauto using rid_unique. unfold covers in Hc. lia.
Qed.

(** A range around the interval is split in two. *)
Lemma taking_split s e sp sf :
  taking s -> e ∈ range_list s -> base e < b -> b + len < base e + range_length e ->
  let e2 := base e + range_length e - (b + len) in
  let s1 := set_ranges (update_range (rid e) (set_extent (base e) (b - base e)) (range_list s)) s in
  let x := mkRange (next_rid s) (b + len) (b + len) e2 (page_flags e) (range_type e) sp (file e) sf in
  let s2 := mkPagemap (insert_position x (range_list s1)) (ptes s1) (page_owner s1)
              (ref_file (file e) 1 (file_refs s1)) (pm_pmm s1) (next_rid s1 + 1) in
  exists s3, invalidate_pages (b + len) e2 (Some (next_rid s, page_flags e)) s2 = Some s3 /\ taking s3 /\
    range_list s3 = insert_position x (update_range (rid e) (set_extent (base e) (b - base e)) (range_list s)).
Proof.
  intros Htk He Hlo Hhi e2 s1 x s2. pose proof Htk as [Hro Hfr Hpg Hmap].
  pose proof Hro as [Hok Hd Hnd Hnx]. destruct (Hok e He) as [Hre Hfe]. pose proof Hre as [].
  assert (He2 : e2 mod PAGE_SIZE = 0) by (unfold e2; auto using aligned_sub, aligned_add).
  assert (Hbe : (b - base e) mod PAGE_SIZE = 0) by auto using aligned_sub.
  assert (Hbl : (b + len) mod PAGE_SIZE = 0) by auto using aligned_add.
  assert (Hfr2 : frames_ok s2) by (destruct Hfr; by constructor).
  destruct (invalidate_pages_spec (b + len) e2 (Some (next_rid s, page_flags e)) s2)
    as (s3 & Hi & Hfr3 & (Hl & Hn & _) & Hv3); try done; [unfold e2; lia|].
  exists s3. split; [done|]. rewrite Hl. split; [|done].
  assert (Hin : forall y, y ∈ range_list s3 <->
    y = x \/ (y ∈ range_list s /\ rid y <> rid e) \/ y = set_extent (base e) (b - base e) e).
  { intros y. rewrite Hl. cbn [s2 s1 range_list set_ranges]. rewrite insert_position_perm, elem_of_cons.
    by rewrite elem_update. }
  constructor.
  - rewrite Hl, Hn. cbn [s2 s1 range_list next_rid set_ranges]. apply ranges_ok_insert.
    + apply ranges_ok_update; auto.
      * constructor; simpl; auto; lia.
      * intros y Hy Hne. specialize (Hd e y He Hy (not_eq_sym Hne)). unfold disjoint_ranges in *. simpl. lia.
    + done.
    + constructor; simpl; auto; unfold e2; lia.
    + done.
    + intros y [[Hy Hne]| ->]%elem_update; try done.
      * specialize (Hd e y He Hy (not_eq_sym Hne)). unfold disjoint_ranges in *. simpl. unfold e2. lia.
      * unfold disjoint_ranges. simpl. lia.
  - done.
  - assert (Hview2 : forall v, page_view s2 v = page_view s v) by done.
    intros v w o Hv. rewrite Hv3, Hview2 in Hv. destruct (in_interval (b + len) e2 v) eqn:Hiv.
    + apply in_interval_spec in Hiv. destruct (page_view s v) as [[w0 o0]|] eqn:Hv0; [|done].
      simpl in Hv. injection Hv as <- <-. exists (next_rid s). split; [done|]. left. exists x.
      split; [apply Hin; by left|]. split; [done|]. split; [unfold covers; simpl; lia|].
      simpl. destruct Hfe as [_ Hfm]. rewrite Z.land_lor_distr_l, Hfm, Z.lor_0_r.
      by rewrite <- Z.land_assoc, Z.land_diag.
    + assert (Hniv : ~ (b + len <= v * PAGE_SIZE < b + len + e2)).
      { intros E. apply in_interval_spec in E. congruence. }
      destruct (Hpg v w o Hv) as (r & -> & Hcase). exists r. split; [done|].
      destruct Hcase as [(y & Hy & <- & Hc & Hw)|[Hi1 Hi2]].
      * destruct (decide (rid y = rid e)) as [E|Hne].
        -- assert (y = e) as -> by eauto using rid_unique. unfold covers, e2 in *.
           destruct (decide (b <= v * PAGE_SIZE)) as [Hge|Hlt].
           ++ right. split; [lia|]. intros z [->|[[Hz Hne]| ->]]%Hin; simpl.
              ** split; [|by lia]. lia.
              ** split; [|done]. specialize (Hd z e Hz He Hne). unfold disjoint_ranges in Hd. lia.
              ** split; lia.
           ++ left. exists (set_extent (base e) (b - base e) e). split; [apply Hin; by do 2 right|].
              simpl. split; [done|]. split; [lia|done].
        -- left. exists y. split; [apply Hin; right; by left|]. done.
      * exfalso. destruct (Hi2 e He) as [Hc _]. apply Hc. unfold covers. lia.
  - intros a fl ty Ha. rewrite <- Hmap by done. unfold mapped. split.
    + intros (y & [->|[[Hy Hne]| ->]]%Hin & Hc & Hf & Ht); [exists e|by exists y|exists e];
        unfold covers, e2 in *; simpl in *; (split; [done|]); (split; [lia|done]).
    + intros (y & Hy & Hc & Hf & Ht). destruct (decide (rid y = rid e)) as [E|Hne].
      * assert (y = e) as -> by eauto using rid_unique. unfold covers in Hc.
        destruct (decide (a < b)) as [Hab|Hab].
        -- exists (set_extent (base e) (b - base e) e). split; [apply Hin; by do 2 right|].
           unfold covers; simpl. split; [lia|done].
        -- exists x. split; [apply Hin; by left|]. unfold covers, e2; simpl. split; [lia|done].
      * exists y. split; [apply Hin; right; by left|]. done.
Qed.

(** What [add_range] is for: the interval is mapped with the attributes
    asked for (or unmapped), everything else as before. *)
Definition settled (fl : Z) (ty : RangeType) (s : Pagemap) : Prop :=
  as_wf s /\ forall a fl' ty', mapped (range_list s) a fl' ty' <->
    if (b <=? a) && (a <? b + len) then ty <> NONE /\ fl' = fl /\ ty' = ty else mapped l0 a fl' ty'.

Lemma inside_spec a : (b <=? a) && (a <? b + len) = true <-> b <= a < b + len.
Proof. rewrite andb_true_iff, Z.leb_le, Z.ltb_lt. done. Qed.

(** An interval that is exactly one range. *)
Lemma settled_exact s e :
  taking s -> e ∈ range_list s -> base e = b -> range_length e = len -> settled (page_flags e) (range_type e) s.
Proof.
  intros Htk He Hbe Hle. pose proof Htk as [Hro Hfr Hpg Hmap].
  pose proof Hro as [Hok Hd Hnd Hnx]. destruct (Hok e He) as [Hre _].
  assert (Hcov : forall a, covers e a <-> b <= a < b + len) by (intros; unfold covers; rewrite Hbe, Hle; done).
  split; [constructor; [done|done|]|].
  - intros v w o Hv. destruct (Hpg v w o Hv) as (r & -> & [Hx|[Hi Hx]]); exists r; (split; [done|]); [by left|].
    exfalso. destruct (Hx e He) as [Hc _]. apply Hc. by apply Hcov.
  - intros a fl ty. destruct ((b <=? a) && (a <? b + len)) eqn:Ei.
    + apply inside_spec in Ei. pose proof (rk_type _ Hre). split.
      * intros (x & Hx & Hc & <- & <-). assert (x = e) as -> by (eapply taking_unique; eauto; by apply Hcov). done.
      * intros (_ & -> & ->). exists e. rewrite Hcov. done.
    + apply Hmap. intros Ha. apply inside_spec in Ha. congruence.
Qed.

Lemma taking_reflag s e fl :
  taking s -> e ∈ range_list s -> base e = b -> range_length e = len -> flags_ok fl ->
  exists s', invalidate_pages (base e) (range_length e) (Some (rid e, fl))
      (set_ranges (update_range (rid e) (set_flags fl) (range_list s)) s) = Some s' /\
    settled fl (range_type e) s'.
Proof.
  intros Htk He Hbe Hle Hfl. pose proof Htk as [Hro Hfr Hpg Hmap].
  pose proof Hro as [Hok Hd Hnd Hnx]. destruct (Hok e He) as [Hre _].
  set (s1 := set_ranges _ s).
  assert (Hfr1 : frames_ok s1) by (destruct Hfr; by constructor).
  destruct (invalidate_pages_spec (base e) (range_length e) (Some (rid e, fl)) s1)
    as (s2 & Hi & Hfr2 & (Hl & Hn & _) & Hv2); try done; try (destruct Hre; done || lia).
  exists s2. split; [done|].
  assert (Hin : forall y, y ∈ range_list s2 <->
    (y ∈ range_list s /\ rid y <> rid e) \/ y = set_flags fl e).
  { intros y. rewrite Hl. cbn [s1 range_list set_ranges]. by rewrite elem_update. }
  assert (Htk2 : taking s2).
  { constructor.
    - rewrite Hl, Hn. cbn [s1 range_list next_rid set_ranges]. apply ranges_ok_update; auto.
      + destruct Hre; by constructor.
      + intros y Hy Hne. specialize (Hd e y He Hy (not_eq_sym Hne)). done.
    - done.
    - intros v w o Hv. rewrite Hv2 in Hv. change (page_view s1 v) with (page_view s v) in Hv.
      destruct (in_interval _ _ v) eqn:Hiv.
      + apply in_interval_spec in Hiv. destruct (page_view s v) as [[w0 o0]|]; [|done].
        simpl in Hv. injection Hv as <- <-. exists (rid e). split; [done|]. left. exists (set_flags fl e).
        split; [apply Hin; by right|]. split; [done|]. split; [done|].
        simpl. destruct Hfl as [_ Hfm]. rewrite Z.land_lor_distr_l, Hfm, Z.lor_0_r.
        by rewrite <- Z.land_assoc, Z.land_diag.
      + assert (Hnc : ~ covers e (v * PAGE_SIZE)) by (intros E; apply in_extent in E; congruence).
        destruct (Hpg v w o Hv) as (r & -> & Hcase). exists r. split; [done|].
        destruct Hcase as [(x & Hx & <- & Hc & Hw)|[Hi1 Hi2]].
        * left. exists x. split; [|done]. apply Hin. left. split; [done|]. intros E.
          assert (x = e) as -> by eauto using rid_unique. done.
        * right. split; [done|]. intros x [[Hx Hne]| ->]%Hin; [by apply Hi2|]. apply (Hi2 e He).
    - intros a fl' ty Ha. rewrite <- Hmap by done. unfold mapped. split.
      + intros (x & [[Hx Hne]| ->]%Hin & Hc & Hrest); [by exists x|]. unfold covers in Hc. simpl in Hc. lia.
      + intros (x & Hx & Hc & Hrest). exists x. split; [|done]. apply Hin. left. split; [done|]. intros E.
        assert (x = e) as -> by eauto using rid_unique. unfold covers in Hc. lia. }
  apply (settled_exact s2 (set_flags fl e) Htk2); try done. apply Hin. by right.
Qed.

(** One range of the pass. *)
Definition resolved (e : MappedRange) (fl : Z) (ty : RangeType) (s s' : Pagemap) (o r : bool) : Prop :=
  if r then settled fl ty s'
  else taking s' /\ (if o then ~ off e else off e /\ s' = s) /\
    (forall x, x ∈ range_list s' -> (x ∈ range_list s /\ rid x <> rid e) \/ off x) /\
    (forall x, x ∈ range_list s -> rid x <> rid e -> x ∈ range_list s').

Lemma trimmed_members s e b' l' x :
  taking s -> e ∈ range_list s -> b' + l' <= b \/ b + len <= b' ->
  x ∈ update_range (rid e) (set_extent b' l') (range_list s) ->
  (x ∈ range_list s /\ rid x <> rid e) \/ off x.
Proof.
  intros [[_ _ Hnd _] _ _ _] He Hs Hx. apply elem_update in Hx as [Hx| ->]; auto.
Qed.

Lemma resolved_trim s e b' l' fl ty :
  taking s -> e ∈ range_list s -> ~ off e ->
  0 <= b' -> 0 < l' -> base e <= b' -> b' + l' <= base e + range_length e ->
  b' mod PAGE_SIZE = 0 -> l' mod PAGE_SIZE = 0 -> b' + l' <= b \/ b + len <= b' ->
  (forall a, covers e a -> ~ (b <= a < b + len) -> b' <= a < b' + l') ->
  resolved e fl ty s (set_ranges (update_range (rid e) (set_extent b' l') (range_list s)) s) true false.
Proof.
  intros Htk He Hoff. intros. split; [by apply taking_trim|]. split; [done|]. split.
  - intros x Hx. cbn [range_list set_ranges] in Hx. by eapply trimmed_members.
  - intros x Hx Hne. cbn [range_list set_ranges]. apply elem_update; auto; apply (tk_ranges _ Htk).
Qed.

Lemma resolve_one_spec fl ty keep s e :
  taking s -> e ∈ range_list s -> (ty <> NONE -> flags_ok fl) ->
  exists s' o r, resolve_one b len fl ty keep e s = Some (s', o, r) /\ resolved e fl ty s s' o r.
Proof.
  intros Htk He Hfl. destruct (taking_range _ _ Htk He) as [Hre Hfe]. pose proof Hre as [].
  unfold resolve_one. destruct (overlaps b len e) eqn:Hov; cbn [negb].
  2:{ apply overlaps_false in Hov; [|done]. exists s, false, false. split; [done|].
      split; [done|]. split; [done|]. split; [|auto]. intros x Hx.
      destruct (decide (rid x = rid e)) as [E|]; [|auto]. right.
      assert (x = e) as -> by (eapply rid_unique; eauto; apply (tk_ranges _ Htk)). done. }
  apply overlaps_spec in Hov; [|done]. rewrite end_word, !range_end_eq by done.
  assert (base e < b + len /\ b < base e + range_length e) as [Ho1 Ho2] by (unfold off in Hov; lia).
  destruct (Z.leb_spec b (base e)) as [H1|H1].
  - destruct (Z.leb_spec (base e + range_length e) (b + len)) as [H2|H2].
    + destruct (keep && (b =? base e) && _ && _) eqn:Hk.
      * apply andb_true_iff in Hk as [[[_ Hk1]%andb_true_iff Hk2]%andb_true_iff Hk3].
        apply Z.eqb_eq in Hk1, Hk2. apply bool_decide_eq_true in Hk3 as ->.
        destruct (Z.eqb_spec (page_flags e) fl) as [<-|Hne].
        -- exists s, true, true. split; [done|]. apply settled_exact; auto. lia.
        -- destruct (taking_reflag s e fl Htk He) as (s' & -> & Hset); auto; [lia|]. by exists s', true, true.
      * destruct (taking_delete s e Htk He H1 H2) as (s1 & s2 & -> & -> & Htk2 & Hl2).
        exists s2, true, false. split; [done|]. split; [done|]. split; [done|]. rewrite Hl2. split.
        -- intros x [Hne Hx]%list_elem_of_filter. auto.
        -- intros x Hx Hne. by apply list_elem_of_filter.
    + eexists _, true, false. split; [reflexivity|].
      rewrite !(u64_small (b + len - base e)) by lia. rewrite !u64_small by lia.
      apply resolved_trim; auto; try lia.
      * replace (base e + (b + len - base e)) with (b + len) by lia. auto using aligned_add.
      * auto using aligned_add, aligned_sub.
      * unfold covers. lia.
  - destruct (Z.leb_spec (base e + range_length e) (b + len)) as [H2|H2].
    + eexists _, true, false. split; [reflexivity|].
      rewrite !u64_small by lia. apply resolved_trim; auto; try lia.
      * auto using aligned_add, aligned_sub.
      * unfold covers. lia.
    + unfold insert_range. cbn [set_ranges range_list next_rid].
      rewrite (u64_small (base e + range_length e - (b + len))), (u64_small (b - base e)) by lia.
      match goal with |- context [mkRange (next_rid s) _ _ _ _ _ ?sp _ ?sf] =>
        destruct (taking_split s e sp sf Htk He) as (s3 & Hi & Htk3 & Hl3); [lia|lia|] end.
      cbn [set_ranges rid ptes page_owner file_refs pm_pmm] in *. cbn [range_list next_rid set_ranges] in Hi. rewrite Hi.
      exists s3, true, false. split; [done|]. split; [done|]. split; [done|]. rewrite Hl3. split.
      * intros x. rewrite insert_position_perm, elem_of_cons. intros [->|Hx].
        -- right. unfold off. simpl. lia.
        -- eapply trimmed_members; eauto. lia.
      * intros x Hx Hne. rewrite insert_position_perm, elem_of_cons. right. apply elem_update; auto.
        apply (tk_ranges _ Htk).
Qed.

Lemma resolve_pass_spec fl ty keep es s had :
  (ty <> NONE -> flags_ok fl) -> taking s -> (forall x, x ∈ es -> x ∈ range_list s) -> NoDup (map rid es) ->
  (forall x, x ∈ range_list s -> x ∈ es \/ off x) ->
  exists s' o r, resolve_pass b len fl ty keep es s had = Some (s', o, r) /\
    if r then settled fl ty s'
    else taking s' /\ (forall x, x ∈ range_list s' -> off x) /\
      (o = false -> had = false /\ s' = s) /\ ((forall x, x ∈ es -> off x) -> o = had).
Proof.
  intros Hfl. revert s had. induction es as [|e es IH]; intros s had Htk Hin Hnd Hall; cbn [resolve_pass].
  - exists s, had, false. split; [done|]. split; [done|]. split; [|naive_solver].
    intros x Hx. destruct (Hall x Hx) as [Hn|]; [by apply not_elem_of_nil in Hn|done].
  - destruct (resolve_one_spec fl ty keep s e Htk) as (s1 & o & r & -> & Hres); auto; [apply Hin; by left|].
    destruct r; [by exists s1, true, true|]. destruct Hres as (Htk1 & Ho & Hsub & Hkeep).
    apply NoDup_cons in Hnd as [Hne Hnd].
    assert (Hdiff : forall x, x ∈ es -> rid x <> rid e).
    { intros x Hx E. apply Hne. change (map rid es) with (rid <$> es). apply list_elem_of_fmap. eauto. }
    destruct (IH s1 (had || o) Htk1) as (s2 & o2 & r2 & -> & Hrest); auto.
    { intros x Hx. apply Hkeep; auto. apply Hin. by right. }
    { intros x Hx. destruct (Hsub x Hx) as [[Hx1 Hx2]|]; auto.
      destruct (Hall x Hx1) as [[->|Hx3]%elem_of_cons|]; auto. done. }
    exists s2, o2, r2. split; [done|]. destruct r2; [done|].
    destruct Hrest as (Htk2 & Hoff & Hf & Hn). split; [done|]. split; [done|]. split.
    + intros ->. destruct (Hf eq_refl) as [[-> ->]%orb_false_iff ->]. destruct Ho as [_ ->]. done.
    + intros Hoffs. rewrite Hn by (intros; apply Hoffs; by right).
      destruct o; [|by rewrite orb_false_r]. exfalso. apply Ho, Hoffs. by left.
Qed.

Lemma resolve_loop_spec fl ty keep s :
  (ty <> NONE -> flags_ok fl) -> taking s ->
  exists s' o r, resolve_loop b len fl ty keep 3 s false = Some (s', o, r) /\
    if r then settled fl ty s'
    else taking s' /\ (forall x, x ∈ range_list s' -> off x) /\ (o = false -> s' = s).
Proof.
  intros Hfl Htk. unfold resolve_loop.
  destruct (resolve_pass_spec fl ty keep (range_list s) s false) as (s1 & o & r & -> & H1); auto;
    [apply (tk_ranges _ Htk)|].
  destruct r; [destruct o; by exists s1, true, true|]. destruct H1 as (Htk1 & Hoff1 & Hf & _).
  destruct o; [|exists s1, false, false; naive_solver].
  destruct (resolve_pass_spec fl ty keep (range_list s1) s1 false) as (s2 & o2 & r2 & -> & H2); auto;
    [apply (tk_ranges _ Htk1)|].
  destruct r2; [destruct o2; by exists s2, true, true|]. destruct H2 as (Htk2 & Hoff2 & _ & Hn).
  rewrite (Hn Hoff1). exists s2, true, false. done.
Qed.

(** Once nothing overlaps the interval, the new mapping is put there: by
    extending a range, by adding one, or not at all. *)
Lemma settle_by s s' x fl ty :
  taking s -> (forall y, y ∈ range_list s -> off y) ->
  frames_ok s' -> ranges_ok (range_list s') (next_rid s') -> x ∈ range_list s' ->
  page_flags x = fl -> range_type x = ty -> flags_ok fl -> range_ok x ->
  (forall a, b <= a < b + len -> covers x a) ->
  (forall y, y ∈ range_list s' -> rid y <> rid x -> y ∈ range_list s) ->
  (forall y, y ∈ range_list s -> rid y <> rid x -> y ∈ range_list s') ->
  (forall a, ~ (b <= a < b + len) -> covers x a <-> exists y, y ∈ range_list s /\ rid y = rid x /\ covers y a) ->
  (forall y, y ∈ range_list s -> rid y = rid x -> page_flags y = fl /\ range_type y = ty) ->
  (forall v, page_view s' v = if in_interval b len v then retag (Some (rid x, fl)) (page_view s v) else page_view s v) ->
  settled fl ty s'.
Proof.
  intros Htk Hoff Hfr Hro Hx Hxf Hxt Hfl Hxok Hxc Hold Hnew Hext Hsame Hv.
  pose proof Htk as [_ _ Hpg Hmap].
  assert (Huniq : forall y, y ∈ range_list s' -> rid y = rid x -> y = x)
    by (intros; eapply rid_unique; eauto; apply Hro).
  split; [constructor; [done|done|]|].
  - intros v w o Hw. rewrite Hv in Hw. destruct (in_interval b len v) eqn:Hiv.
    + apply in_interval_spec in Hiv. destruct (page_view s v) as [[w0 o0]|]; [|done].
      simpl in Hw. injection Hw as <- <-. exists (rid x). split; [done|]. left. exists x.
      split; [done|]. split; [done|]. split; [by apply Hxc|]. rewrite Hxf.
      destruct Hfl as [_ Hfm]. rewrite Z.land_lor_distr_l, Hfm, Z.lor_0_r.
      by rewrite <- Z.land_assoc, Z.land_diag.
    + destruct (Hpg v w o Hw) as (r & -> & [(y & Hy & <- & Hc & Hyw)|[Hi _]]).
      2:{ apply in_interval_spec in Hi. congruence. }
      exists (rid y). split; [done|]. left. destruct (decide (rid y = rid x)) as [E|Hne].
      * exists x. split; [done|]. split; [done|]. split.
        -- apply Hext; [intros Hi; apply in_interval_spec in Hi; congruence|eauto].
        -- destruct (Hsame y Hy E) as [Hyf _]. by rewrite Hxf, <- Hyf.
      * exists y. split; [by apply Hnew|done].
  - intros a fl' ty'. destruct ((b <=? a) && (a <? b + len)) eqn:Ei.
    + apply inside_spec in Ei. split.
      * intros (y & Hy & Hc & <- & <-). assert (y = x) as ->.
        { destruct (decide (rid y = rid x)) as [E|Hne]; [by apply Huniq|].
          specialize (Hoff y (Hold y Hy Hne)). unfold off, covers in *. lia. }
        split; [|done]. rewrite <- Hxt. apply (rk_type _ Hxok).
      * intros (_ & -> & ->). exists x. auto.
    + assert (Ha : ~ (b <= a < b + len)) by (intros Hc; apply inside_spec in Hc; congruence).
      rewrite <- Hmap by done. unfold mapped. split.
      * intros (y & Hy & Hc & Hf & Ht). destruct (decide (rid y = rid x)) as [E|Hne]; [|by exists y; auto].
        rewrite (Huniq y Hy E) in *. destruct (proj1 (Hext a Ha) Hc) as (z & Hz & Hzr & Hzc).
        destruct (Hsame z Hz Hzr) as [Hzf Hzt]. exists z. split; [done|]. split; [done|]. split; congruence.
      * intros (y & Hy & Hc & Hf & Ht). destruct (decide (rid y = rid x)) as [E|Hne].
        -- destruct (Hsame y Hy E) as [Hyf Hyt]. exists x. split; [done|]. split; [apply Hext; eauto|].
           split; congruence.
        -- exists y. auto.
Qed.

Lemma merge_scan_spec fl ty es e' :
  (forall x, x ∈ es -> range_ok x) -> merge_scan b len fl ty es = Some e' ->
  exists e, e ∈ es /\ page_flags e = fl /\ range_type e = ty /\
    ((b = base e + range_length e /\ e' = set_extent (base e) (u64 (range_length e + len)) e) \/
     (b + len = base e /\ e' = set_extent (u64 (base e - len)) (u64 (range_length e + len)) e)).
Proof.
  intros Hok. induction es as [|e es IH]; [done|]. cbn [merge_scan]. unfold merge_one.
  pose proof (Hok e ltac:(by left)) as Hre. rewrite end_word, range_end_eq by done.
  destruct (bool_decide (ty = range_type e) && (fl =? page_flags e)) eqn:Hm.
  - apply andb_true_iff in Hm as [Hm1%bool_decide_eq_true Hm2%Z.eqb_eq].
    destruct (Z.eqb_spec b (base e + range_length e)).
    { intros [= <-]. exists e. split; [by left|]. auto. }
    destruct (Z.eqb_spec (b + len) (base e)).
    { intros [= <-]. exists e. split; [by left|]. auto. }
    intros H. destruct IH as (x & Hx & Hrest); [|done|exists x; split; [by right|done]].
    intros x Hx. apply Hok. by right.
  - intros H. destruct IH as (x & Hx & Hrest); [|done|exists x; split; [by right|done]].
    intros x Hx. apply Hok. by right.
Qed.

(** What is still to be done when the interval is free: either its pages are
    to be handed over, or there are none. *)
Definition vacant (had : bool) (s : Pagemap) : Prop :=
  taking s /\ (forall y, y ∈ range_list s -> off y) /\
  (had = false -> forall v, in_interval b len v = true -> page_view s v = None).

Definition hand_over (had : bool) (r fl : Z) (s : Pagemap) : option Pagemap :=
  if had then invalidate_pages b len (Some (r, fl)) s else Some s.

Lemma hand_over_spec had s s1 r fl :
  vacant had s -> flags_ok fl -> frames_ok s1 -> (forall v, page_view s1 v = page_view s v) ->
  exists s', hand_over had r fl s1 = Some s' /\ frames_ok s' /\ same_ranges s1 s' /\
    forall v, page_view s' v = if in_interval b len v then retag (Some (r, fl)) (page_view s v) else page_view s v.
Proof.
  intros (Htk & Hoff & Hno) Hfl Hfr Hv. unfold hand_over. destruct had.
  - destruct (invalidate_pages_spec b len (Some (r, fl)) s1) as (s' & -> & Hfr' & Hs' & Hv'); auto; [lia|].
    exists s'. split; [done|]. split; [done|]. split; [done|]. intros v. by rewrite Hv', Hv.
  - exists s1. split; [done|]. split; [done|]. split; [done|]. intros v. rewrite Hv.
    destruct (in_interval b len v) eqn:E; [|done]. by rewrite (Hno eq_refl v E).
Qed.

Lemma settle_merge had s e e' fl ty :
  vacant had s -> flags_ok fl -> e ∈ range_list s -> page_flags e = fl -> range_type e = ty ->
  (b = base e + range_length e /\ e' = set_extent (base e) (u64 (range_length e + len)) e) \/
  (b + len = base e /\ e' = set_extent (u64 (base e - len)) (u64 (range_length e + len)) e) ->
  exists s', hand_over had (rid e') (page_flags e')
      (set_ranges (update_range (rid e') (fun _ => e') (range_list s)) s) = Some s' /\ settled fl ty s'.
Proof.
  intros Hvac Hfl He Hef Het Hcase. pose proof Hvac as (Htk & Hoff & _).
  pose proof Htk as [Hro Hfr _ _]. pose proof Hro as [Hok Hd Hnd Hnx].
  destruct (Hok e He) as [Hre _]. pose proof Hre as [].
  assert (exists b' l', e' = set_extent b' l' e /\ 0 <= b' /\ b' mod PAGE_SIZE = 0 /\ l' = range_length e + len /\
    (b' = base e /\ b = base e + range_length e \/ b' = b /\ b + len = base e)) as (b' & l' & -> & Hb' & Hal & -> & Hpos).
  { destruct Hcase as [[H1 ->]|[H1 ->]]; eexists _, _; (split; [reflexivity|]); rewrite !u64_small by lia;
      (split; [lia|]); (split; [|lia]); [done|]. replace (base e - len) with b by lia. done. }
  clear Hcase. cbn [set_extent rid page_flags]. set (s1 := set_ranges _ s).
  assert (Hfr1 : frames_ok s1) by (destruct Hfr; by constructor).
  rewrite Hef. destruct (hand_over_spec had s s1 (rid e) fl Hvac Hfl Hfr1) as (s' & Hh & Hfr' & (Hl & Hn & _) & Hv'); [done|].
  exists s'. split; [done|].
  set (x := set_extent b' (range_length e + len) e).
  assert (Hin : forall y, y ∈ range_list s' <-> (y ∈ range_list s /\ rid y <> rid e) \/ y = x).
  { intros y. rewrite Hl. by apply (elem_update _ e (fun _ => x)). }
  assert (Hxok : range_ok x) by (constructor; simpl; auto using aligned_add; lia).
  pose proof (Hoff e He) as Hoe.
  apply (settle_by s s' x fl ty Htk Hoff); auto.
  - rewrite Hl, Hn. cbn [s1 range_list next_rid set_ranges].
    apply (ranges_ok_update _ _ e (fun _ => x)); auto; [simpl; by rewrite Hef|].
    intros y Hy Hne. specialize (Hd e y He Hy (not_eq_sym Hne)). specialize (Hoff y Hy).
    destruct (Hok y Hy) as [[] _]. unfold disjoint_ranges, off in *. simpl. lia.
  - apply Hin. by right.
  - intros a Ha. unfold covers. simpl. lia.
  - intros y [[Hy Hne]| ->]%Hin Hr; [done|]. done.
  - intros y Hy Hr. apply Hin. by left.
  - intros a Ha. unfold covers at 1. simpl. split.
    + intros Hc. exists e. split; [done|]. split; [done|]. unfold covers. lia.
    + intros (y & Hy & Hr & Hc). assert (y = e) as -> by eauto using rid_unique. unfold covers in Hc. lia.
  - intros y Hy Hr. assert (y = e) as -> by eauto using rid_unique. done.
Qed.

Lemma settle_insert had s pb fi fo fl ty :
  vacant had s -> flags_ok fl -> ty <> NONE ->
  exists s', (let (x, s2) := insert_range b len fl ty pb fi fo s in hand_over had (rid x) fl s2) = Some s' /\
    settled fl ty s'.
Proof.
  intros Hvac Hfl Hty. pose proof Hvac as (Htk & Hoff & _).
  pose proof Htk as [Hro Hfr _ _]. pose proof Hro as [Hok Hd Hnd Hnx].
  unfold insert_range. cbn [rid]. set (x := mkRange _ _ _ _ _ _ _ _ _). set (s1 := mkPagemap _ _ _ _ _ _).
  assert (Hfr1 : frames_ok s1) by (destruct Hfr; by constructor).
  destruct (hand_over_spec had s s1 (next_rid s) fl Hvac Hfl Hfr1) as (s' & Hh & Hfr' & (Hl & Hn & _) & Hv'); [done|].
  exists s'. split; [done|].
  assert (Hin : forall y, y ∈ range_list s' <-> y = x \/ y ∈ range_list s).
  { intros y. rewrite Hl. cbn [s1 range_list]. by rewrite insert_position_perm, elem_of_cons. }
  assert (Hxok : range_ok x) by (constructor; simpl; auto; lia).
  assert (Hnew : forall y, y ∈ range_list s -> rid y <> next_rid s) by (intros y Hy; specialize (Hnx y Hy); lia).
  apply (settle_by s s' x fl ty Htk Hoff); auto.
  - rewrite Hl, Hn. cbn [s1 range_list next_rid]. apply ranges_ok_insert; auto.
    intros y Hy. specialize (Hoff y Hy). unfold off, disjoint_ranges in *. simpl. lia.
  - apply Hin. by left.
  - intros y [->|Hy]%Hin Hr; done.
  - intros y Hy Hr. apply Hin. by right.
  - intros a Ha. unfold covers at 1. simpl. split; [lia|]. intros (y & Hy & Hr & _). by apply Hnew in Hy.
  - intros y Hy Hr. by apply Hnew in Hy.
Qed.

Lemma settle_none had s fl :
  vacant had s -> exists s', invalidate_pages b len None s = Some s' /\ settled fl NONE s'.
Proof.
  intros (Htk & Hoff & _). pose proof Htk as [Hro Hfr Hpg Hmap].
  destruct (invalidate_pages_spec b len None s) as (s' & Hi & Hfr' & (Hl & Hn & _) & Hv'); auto; [done|lia|].
  exists s'. split; [done|]. split; [constructor; [by rewrite Hl, Hn|done|]|].
  - intros v w o Hw. rewrite Hv' in Hw. destruct (in_interval b len v) eqn:Hiv; [done|].
    destruct (Hpg v w o Hw) as (r & -> & [Hx|[Hi' _]]).
    + exists r. split; [done|]. left. by rewrite Hl.
    + apply in_interval_spec in Hi'. congruence.
  - intros a fl' ty'. rewrite Hl. destruct ((b <=? a) && (a <? b + len)) eqn:Ei.
    + apply inside_spec in Ei. split; [|naive_solver]. intros (y & Hy & Hc & _).
      specialize (Hoff y Hy). unfold off, covers in *. lia.
    + apply Hmap. intros Hc. apply inside_spec in Hc. congruence.
Qed.

Lemma vacant_start s (Hwf : as_wf s) : l0 = range_list s ->
  taking s /\ ((forall y, y ∈ range_list s -> off y) -> forall v, in_interval b len v = true -> page_view s v = None).
Proof.
  intros Hl0. destruct Hwf as [Hro Hfr Hpg]. split.
  - constructor; auto; [|by rewrite Hl0]. intros v w o Hv. destruct (Hpg v w o Hv) as (r & -> & [Hx|[Hi _]]); [|lia].
    exists r. auto.
  - intros Hoff v Hi. destruct (page_view s v) as [[w o]|] eqn:Hv; [|done].
    destruct (Hpg v w o Hv) as (r & -> & [(x & Hx & _ & Hc & _)|[Hi' _]]); [|lia].
    apply in_interval_spec in Hi. specialize (Hoff x Hx). unfold off, covers in *. lia.
Qed.
End Taking.

(** [add_range] as the map calls use it: overlaps resolved. *)
Lemma add_range_spec b len fl ty keep pb fi fo merge s :
  as_wf s -> 0 <= b -> 0 < len -> b + len < 18446744073709551616 ->
  b mod PAGE_SIZE = 0 -> len mod PAGE_SIZE = 0 -> (ty <> NONE -> flags_ok fl) ->
  exists s', add_range b len fl ty keep pb fi fo merge true s = Some s' /\
    settled b len (range_list s) fl ty s'.
Proof.
  intros Hwf Hb Hlen Hend Hal1 Hal2 Hfl. unfold add_range.
  destruct (vacant_start b len _ s Hwf eq_refl) as [Htk Hno].
  destruct (resolve_loop_spec b len (range_list s) Hb Hlen Hend Hal1 Hal2 fl ty keep s Hfl Htk)
    as (s1 & o & r & -> & H1).
  destruct r; [by exists s1|]. destruct H1 as (Htk1 & Hoff1 & Hsame).
  assert (Hvac : vacant b len (range_list s) o s1).
  { split; [done|]. split; [done|]. intros Ho v Hv. rewrite (Hsame Ho) in *. by apply Hno. }
  destruct (if merge && bool_decide (ty = ANONYMOUS) then _ else None) as [e'|] eqn:Hm.
  - destruct (merge && bool_decide (ty = ANONYMOUS)) eqn:Hma; [|done].
    apply andb_true_iff in Hma as [_ Hma%bool_decide_eq_true].
    assert (flags_ok fl) by (apply Hfl; by rewrite Hma).
    destruct (merge_scan_spec b len Hb Hlen Hend fl ty (range_list s1) e') as (e & He & Hef & Het & Hcase); auto.
    { intros x Hx. by apply (taking_range _ _ _ _ _ Htk1). }
    destruct (settle_merge b len (range_list s) Hb Hlen Hend Hal1 Hal2 o s1 e e' fl ty) as (s' & Hs' & Hset); auto.
    exists s'. split; [|done]. unfold hand_over in Hs'. by destruct o.
  - clear Hm. case_bool_decide as Hty.
    + subst ty. by apply (settle_none b len (range_list s) Hlen Hal1 Hal2 o).
    + destruct (settle_insert b len (range_list s) Hb Hlen Hend Hal1 Hal2 o s1 pb fi fo fl ty) as (s' & Hs' & Hset); auto.
      exists s'. split; [|done]. unfold insert_range, hand_over in *. cbn [rid] in *. by destruct o.
Qed.
