(* ===== verification/MemSyscalls.v ===== *)
(** The memory system calls and the page-fault handler
    (src/kernel/src/mem/vmm.cpp), over the address spaces of AddressSpace.v. *)
From S2P Require Import Prelude Pmm PageTable AddressSpace.

Definition PROT_READ : Z := 1.
Definition PROT_WRITE : Z := 2.
Definition PROT_EXEC : Z := 4.
Definition MAP_SHARED : Z := 1.
Definition MAP_PRIVATE : Z := 2.
Definition MAP_FIXED : Z := 16.
Definition MAP_ANONYMOUS : Z := 32.
Definition PAGE_WRITE_COMBINING : Z := 144.
Definition MADV_DONTNEED : Z := 4.
Definition MADV_FREE : Z := 8.
Definition MADV_DONTFORK : Z := 10.

(** The kernel's half, shared by all processes: its ranges, its page-table
    entries and the owners of its frames. *)
Record Kernel : Type := mkKernel {
  k_ranges : list MappedRange;
  k_ptes : gmap Z Z;
  k_owner : gmap Z Z
}.

(** The part of a process the memory calls work on.  [tables] holds the
    numbers of the last-level page tables that exist. *)
Record Process : Type := mkProcess {
  pagemap : Pagemap;
  kernel_half : Kernel;
  tables : gset Z;
  mmap_anon_base : Z;
  brk : Z
}.

Definition set_pagemap (s : Pagemap) (p : Process) : Process :=
  mkProcess s (kernel_half p) (tables p) (mmap_anon_base p) (brk p).
Definition set_anon_base (a : Z) (p : Process) : Process :=
  mkProcess (pagemap p) (kernel_half p) (tables p) a (brk p).

Definition mmap_prot_to_page_flags (prot : Z) : Z :=
  let page_flags := Z.lor PAGE_PRESENT PAGE_USER in
  let page_flags := if has prot PROT_WRITE then Z.lor page_flags PAGE_WRITABLE else page_flags in
  if negb (has prot PROT_EXEC) then Z.lor page_flags PAGE_NO_EXECUTE else page_flags.

(** [Pagemap::addr_to_range], without its one-entry cache. *)
Definition range_at (virt : Z) (l : list MappedRange) : option MappedRange :=
  List.find (fun r => (base r <=? virt) && (virt <? range_end r)) l.
Definition addr_to_range (virt : Z) (p : Process) : option MappedRange :=
  match range_at virt (range_list (pagemap p)) with
  | Some r => Some r
  | None => range_at virt (k_ranges (kernel_half p))
  end.

Definition map_anonymous (b len page_flags : Z) (keep_pages : bool) (s : Pagemap) : option Pagemap :=
  if negb (has page_flags PAGE_PRESENT) then None
  else add_range b len page_flags ANONYMOUS keep_pages 0 0 0 true true s.

Definition map_direct (b len page_flags phy_base : Z) (s : Pagemap) : option Pagemap :=
  if negb (has page_flags PAGE_PRESENT) then None
  else add_range b len page_flags DIRECT false phy_base 0 0 false true s.

Definition map_file (b len page_flags file file_offset : Z) (s : Pagemap) : option Pagemap :=
  if negb (has page_flags PAGE_PRESENT) then None
  else add_range b len page_flags FILE false 0 file file_offset false true s.

(** The [mmap] methods of the vnode classes. *)
Inductive MmapNode : Type :=
| DefaultNode
| DeniedNode
| TmpfsNode
| MemFDNode (address : Z)
| FramebufferNode (phy_addr : Z).

(** A result and the pagemap; [None] as for [add_range]. *)
Definition returning (r : Z) (s : option Pagemap) : option (Z * Pagemap) :=
  match s with Some s' => Some (r, s') | None => None end.

Definition vnode_mmap (node : MmapNode) (fd addr length offset prot flags : Z) (s : Pagemap)
    : option (Z * Pagemap) :=
  match node with
  | DefaultNode => Some (- ENODEV, s)
  | DeniedNode => Some (- EACCES, s)
  | TmpfsNode => returning addr (map_file addr length (mmap_prot_to_page_flags prot) fd offset s)
  | MemFDNode address =>
      let page_flags := mmap_prot_to_page_flags prot in
      if has flags MAP_SHARED then
        returning addr (add_range addr length page_flags DIRECT_VIRTUAL false address 0 0 false true s)
      else if has flags MAP_PRIVATE then returning addr (map_file addr length page_flags fd offset s)
      else Some (- EINVAL, s)
  | FramebufferNode phy_addr =>
      returning addr
        (map_direct addr length (Z.lor (mmap_prot_to_page_flags prot) PAGE_WRITE_COMBINING) phy_addr s)
  end.

(** What [get_file_description] finds: the description's identity, its access
    rights and its vnode's kind. *)
Record MmapFile : Type := mkMmapFile {
  mf_id : Z;
  mf_can_read : bool;
  mf_can_write : bool;
  mf_node : MmapNode
}.

Definition syscall_mmap (addr length prot flags : Z) (file : option MmapFile) (offset : Z) (p : Process)
    : option (Z * Process) :=
  if length =? 0 then Some (- EINVAL, p)
  else
    let aligned_size := align_up length PAGE_SIZE in
    let '(b, p1) :=
      if has flags MAP_FIXED then
        (addr, set_anon_base (align_up (Z.max (mmap_anon_base p) (u64 (addr + aligned_size))) PAGE_SIZE) p)
      else (mmap_anon_base p, set_anon_base (u64 (mmap_anon_base p + aligned_size)) p) in
    if has flags MAP_ANONYMOUS then
      match map_anonymous b aligned_size (mmap_prot_to_page_flags prot) (negb (has flags MAP_FIXED)) (pagemap p1) with
      | Some s => Some (b, set_pagemap s p1)
      | None => None
      end
    else
      match file with
      | None => Some (- EBADF, p1)
      | Some f =>
          if negb (mf_can_read f) then Some (- EACCES, p1)
          else if has flags MAP_SHARED && has prot PROT_WRITE && negb (mf_can_write f) then Some (- EACCES, p1)
          else
            match vnode_mmap (mf_node f) (mf_id f) b aligned_size offset prot flags (pagemap p1) with
            | Some (r, s) => Some (r, set_pagemap s p1)
            | None => None
            end
      end.

Definition syscall_munmap (addr length : Z) (p : Process) : option (Z * Process) :=
  if negb (addr mod PAGE_SIZE =? 0) then Some (- EINVAL, p)
  else
    let length := align_up length PAGE_SIZE in
    match add_range addr length 0 NONE false 0 0 0 false true (pagemap p) with
    | None => None
    | Some s =>
        let p1 := set_pagemap s p in
        Some (0, if mmap_anon_base p1 =? u64 (addr + length) then set_anon_base addr p1 else p1)
    end.

(** The loop of [syscall_mprotect]; one step deals with the rest of a range. *)
Fixpoint mprotect_loop (fuel : nat) (prot current end_ : Z) (p : Process) : option (Z * Process) :=
  match fuel with
  | O => None
  | S fuel =>
      if negb (current <? end_) then Some (0, p)
      else
        match addr_to_range current p with
        | None => Some (- ENOMEM, p)
        | Some existing =>
            let range_len := u64 (range_end existing - current) in
            let range_len := if end_ <? u64 (current + range_len) then u64 (end_ - current) else range_len in
            let offset := u64 (file_offset existing + (current - base existing)) in
            let phy := if phy_base existing =? 0 then 0
                       else u64 (phy_base existing + (current - base existing)) in
            match add_range current range_len (mmap_prot_to_page_flags prot) (range_type existing) true
                    phy (file existing) offset true true (pagemap p) with
            | None => None
            | Some s => mprotect_loop fuel prot (u64 (current + range_len)) end_ (set_pagemap s p)
            end
        end
  end.

Definition syscall_mprotect (addr length prot : Z) (p : Process) : option (Z * Process) :=
  if negb (addr mod PAGE_SIZE =? 0) then Some (- EINVAL, p)
  else
    let length := align_up length PAGE_SIZE in
    let end_ := u64 (addr + length) in
    mprotect_loop (S (Z.to_nat (length / PAGE_SIZE))) prot addr end_ p.

(** The bytes [syscall_mincore] stores before it returns are all 1. *)
Fixpoint mincore_loop (n : nat) (page : Z) (p : Process) : Z * list Z :=
  match n with
  | O => (0, [])
  | S n =>
      match addr_to_range page p with
      | None => (- ENOMEM, [])
      | Some _ => let '(r, vec) := mincore_loop n (u64 (page + PAGE_SIZE)) p in (r, 1 :: vec)
      end
  end.
Definition syscall_mincore (addr length : Z) (p : Process) : Z * list Z :=
  if negb (addr mod PAGE_SIZE =? 0) then (- EINVAL, [])
  else mincore_loop (Z.to_nat (align_up length PAGE_SIZE / PAGE_SIZE)) addr p.

(** MADV_NORMAL, RANDOM, SEQUENTIAL, WILLNEED, MERGEABLE, UNMERGEABLE,
    HUGEPAGE, NOHUGEPAGE, DONTDUMP and DODUMP. *)
Definition advice_ignored (advice : Z) : bool :=
  existsb (Z.eqb advice) [0; 1; 2; 3; 12; 13; 14; 15; 16; 17].

(** The two halves of an address space. The kernel's tables are linked into
    every process, so a page operation reaches them by the address alone. *)
Definition KERNEL_HALF : Z := 140737488355328.
Definition kernel_view (p : Process) : Pagemap :=
  let s := pagemap p in
  let k := kernel_half p in
  mkPagemap (k_ranges k) (k_ptes k) (k_owner k) (file_refs s) (pm_pmm s) (next_rid s).
Definition half_of (virt : Z) (p : Process) : Pagemap :=
  if virt <? KERNEL_HALF then pagemap p else kernel_view p.
Definition set_half (virt : Z) (s : Pagemap) (p : Process) : Process :=
  if virt <? KERNEL_HALF then set_pagemap s p
  else
    let u := pagemap p in
    mkProcess (mkPagemap (range_list u) (ptes u) (page_owner u) (file_refs s) (pm_pmm s) (next_rid s))
      (mkKernel (range_list s) (ptes s) (page_owner s)) (tables p) (mmap_anon_base p) (brk p).

Fixpoint madvise_loop (n : nat) (page : Z) (p : Process) : option Process :=
  match n with
  | O => Some p
  | S n =>
      match invalidate_page page None (half_of page p) with
      | None => None
      | Some s => madvise_loop n (u64 (page + PAGE_SIZE)) (set_half page s p)
      end
  end.

Definition syscall_madvise (addr length advice : Z) (p : Process) : option (Z * Process) :=
  if negb (addr mod PAGE_SIZE =? 0) then Some (- EINVAL, p)
  else
    let length := align_up length PAGE_SIZE in
    if advice_ignored advice then Some (0, p)
    else if advice =? MADV_DONTFORK then Some (0, p)
    else if (advice =? MADV_FREE) || (advice =? MADV_DONTNEED) then
      match madvise_loop (Z.to_nat (length / PAGE_SIZE)) addr p with
      | Some p' => Some (0, p')
      | None => None
      end
    else Some (- EINVAL, p).

Definition syscall_brk (addr : Z) (p : Process) : option (Z * Process) :=
  if addr =? 0 then Some (brk p, p)
  else
    let new_brk := addr in
    let old_page_brk := align_up (brk p) PAGE_SIZE in
    let new_page_brk := align_up new_brk PAGE_SIZE in
    match (if old_page_brk <? new_page_brk then
             map_anonymous old_page_brk (u64 (new_page_brk - old_page_brk))
               (mmap_prot_to_page_flags (Z.lor PROT_READ PROT_WRITE)) true (pagemap p)
           else if new_page_brk <? old_page_brk then
             add_range new_page_brk (u64 (old_page_brk - new_page_brk)) 0 NONE false 0 0 0 false true (pagemap p)
           else Some (pagemap p)) with
    | None => None
    | Some s => Some (new_brk, mkProcess s (kernel_half p) (tables p) (mmap_anon_base p) new_brk)
    end.

(** ** Page faults *)

(** What a fault puts into the frame it allocates. *)
Inductive Fill : Type :=
| Zeroed
| FilePage (file offset : Z).

(** [find_page_table_entry]: null when the last-level table is missing. *)
Definition find_entry (virt : Z) (p : Process) : option Z :=
  if bool_decide (vpn virt / 512 ∈ tables p) then Some (default 0 (ptes (half_of virt p) !! vpn virt)) else None.
Definition create_tables (virt : Z) (p : Process) : Process :=
  mkProcess (pagemap p) (kernel_half p) ({[ vpn virt / 512 ]} ∪ tables p) (mmap_anon_base p) (brk p).
Definition set_entry (virt e : Z) (p : Process) : Process :=
  let s := half_of virt p in
  set_half virt (mkPagemap (range_list s) (<[vpn virt := e]> (ptes s)) (page_owner s) (file_refs s)
                   (pm_pmm s) (next_rid s)) p.

(** A new page for [range], mapped at [virt]: its physical address. *)
Definition fault_page (virt page_virt : Z) (range : MappedRange) (p : Process) : option (Z * Process) :=
  let s := half_of virt p in
  match alloc_page (pm_pmm s) with
  | None => None
  | Some (f, pmm) =>
      Some (phy f,
        set_half virt
          (mkPagemap (range_list s) (<[vpn virt := Z.lor (phy f) (page_flags range)]> (ptes s))
             (<[f := rid range]> (page_owner s)) (file_refs s) (set_mapped_addr f page_virt pmm) (next_rid s)) p)
  end.

(** [Pagemap::handle_page_fault], with the frames it filled. The mirrored
    mapping may fault in turn, once per level of mirroring. *)
Fixpoint handle_page_fault (fuel : nat) (virt : Z) (p : Process) : option (Z * list (Z * Fill) * Process) :=
  match fuel with
  | O => None
  | S fuel =>
      let page_virt := align_down virt PAGE_SIZE in
      let p := create_tables virt p in
      let entry := default 0 (find_entry virt p) in
      if has entry PAGE_PRESENT then Some (- EFAULT, [], p)
      else
        match addr_to_range virt p with
        | None => Some (- EFAULT, [], p)
        | Some range =>
            match range_type range with
            | ANONYMOUS =>
                match fault_page virt page_virt range p with
                | None => None
                | Some (phy, p') => Some (phy, [(phy, Zeroed)], p')
                end
            | DIRECT =>
                let phy := u64 (page_virt - original_base range + phy_base range) in
                Some (phy, [], set_entry virt (Z.lor (Z.land phy ADDR_MASK) (page_flags range)) p)
            | DIRECT_VIRTUAL =>
                let map := u64 (page_virt - original_base range + phy_base range) in
                match (match find_entry map p with
                       | Some e => Some (Some e, [], p)
                       | None =>
                           match handle_page_fault fuel map p with
                           | None => None
                           | Some (_, filled, p') => Some (find_entry map p', filled, p')
                           end
                       end) with
                | None => None
                | Some (None, filled, p') => Some (- EFAULT, filled, p')
                | Some (Some target_entry, filled, p') =>
                    let phy := Z.land target_entry ADDR_MASK in
                    Some (phy, filled, set_entry virt (Z.lor phy (page_flags range)) p')
                end
            | FILE =>
                let offset := u64 (page_virt - original_base range + file_offset range) in
                match fault_page virt page_virt range p with
                | None => None
                | Some (phy, p') => Some (phy, [(phy, FilePage (file range) offset)], p')
                end
            | NONE => Some (- EFAULT, [], p)
            end
        end
  end.

(** [Pagemap::get_physical_addr] *)
Definition get_physical_addr (fuel : nat) (virt : Z) (p : Process) : option (Z * list (Z * Fill) * Process) :=
  match find_entry virt p with
  | Some e => if has e PAGE_PRESENT then Some (Z.land e ADDR_MASK, [], p) else handle_page_fault fuel virt p
  | None => handle_page_fault fuel virt p
  end.

(** ** Properties *)

Lemma prot_flags_ok prot : flags_ok (mmap_prot_to_page_flags prot).
Proof.
  unfold mmap_prot_to_page_flags, flags_ok. by destruct (has prot PROT_WRITE), (has prot PROT_EXEC).
Qed.

Lemma range_at_some a l next r :
  ranges_ok l next -> range_at a l = Some r -> r ∈ l /\ covers r a.
Proof.
  intros Hro H. apply List.find_some in H as [Hin H]. apply list_elem_of_In in Hin. split; [done|].
  zbool. rewrite range_end_eq in * by apply (ro_ok _ _ Hro r Hin). unfold covers. lia.
Qed.

Lemma range_at_none a l next :
  ranges_ok l next -> range_at a l = None -> forall r, r ∈ l -> ~ covers r a.
Proof.
  intros Hro H r Hr [Hc1 Hc2]. assert (Hin : In r l) by by apply list_elem_of_In.
  pose proof (List.find_none _ _ H r Hin) as Hf. simpl in Hf.
  rewrite range_end_eq in Hf by apply (ro_ok _ _ Hro r Hr). apply andb_false_iff in Hf. lia.
Qed.

Lemma mapped_range l next r a fl ty :
  ranges_ok l next -> r ∈ l -> covers r a -> mapped l a fl ty <-> fl = page_flags r /\ ty = range_type r.
Proof.
  intros [Hok Hd Hnd _] Hr Hc. split.
  - intros (x & Hx & Hcx & <- & <-). assert (x = r) as ->; [|done].
    destruct (decide (rid x = rid r)) as [E|Hne]; [by eapply rid_unique|].
    specialize (Hd x r Hx Hr Hne). unfold disjoint_ranges, covers in *. lia.
  - intros [-> ->]. by exists r.
Qed.

Lemma align_up_page n :
  0 <= n -> n + PAGE_SIZE < 18446744073709551616 ->
  align_up n PAGE_SIZE mod PAGE_SIZE = 0 /\ n <= align_up n PAGE_SIZE < n + PAGE_SIZE.
Proof.
  unfold align_up, PAGE_SIZE. intros H0 H1. pose proof (Z.div_mod n 4096 ltac:(lia)).
  pose proof (Z.mod_pos_bound n 4096 ltac:(lia)).
  destruct (Z.eqb_spec (n mod 4096) 0); [lia|]. rewrite u64_small by lia. rewrite Z_mod_mult. lia.
Qed.

(** What is mapped after [mprotect] worked from [lo] to [stop]. *)
Definition reprotected (lo stop fl : Z) (l l' : list MappedRange) : Prop :=
  forall a fl' ty, mapped l' a fl' ty <->
    if (lo <=? a) && (a <? stop) then fl' = fl /\ exists fl0, mapped l a fl0 ty else mapped l a fl' ty.

Definition mprotect_result (lo end_ prot : Z) (p : Process) (r : Z) (p' : Process) (stop : Z) : Prop :=
  lo <= stop <= end_ /\ as_wf (pagemap p') /\
  reprotected lo stop (mmap_prot_to_page_flags prot) (range_list (pagemap p)) (range_list (pagemap p')) /\
  ((r = 0 /\ stop = end_) \/
   (r = - ENOMEM /\ stop < end_ /\ forall fl ty, ~ mapped (range_list (pagemap p)) stop fl ty)).

Lemma reprotected_trans lo mid stop fl l1 l2 l3 :
  lo <= mid <= stop -> reprotected lo mid fl l1 l2 -> reprotected mid stop fl l2 l3 ->
  reprotected lo stop fl l1 l3.
Proof.
  intros Hm H1 H2 a fl' ty. rewrite (H2 a fl' ty).
  destruct (Z.leb_spec mid a), (Z.ltb_spec a stop), (Z.leb_spec lo a); cbn [andb]; try lia.
  - setoid_rewrite (H1 a). destruct (Z.leb_spec lo a), (Z.ltb_spec a mid); cbn [andb]; try lia. done.
  - rewrite (H1 a). destruct (Z.leb_spec lo a), (Z.ltb_spec a mid); cbn [andb]; try lia. done.
  - rewrite (H1 a). destruct (Z.leb_spec lo a), (Z.ltb_spec a mid); cbn [andb]; try lia. done.
  - rewrite (H1 a). destruct (Z.leb_spec lo a), (Z.ltb_spec a mid); cbn [andb]; try lia. done.
Qed.

Lemma mprotect_loop_spec fuel prot current end_ p :
  as_wf (pagemap p) -> 0 <= current <= end_ -> end_ < 18446744073709551616 ->
  current mod PAGE_SIZE = 0 -> end_ mod PAGE_SIZE = 0 ->
  (forall a, current <= a < end_ -> range_at a (k_ranges (kernel_half p)) = None) ->
  end_ - current < Z.of_nat fuel * PAGE_SIZE ->
  exists r p' stop, mprotect_loop fuel prot current end_ p = Some (r, p') /\
    mprotect_result current end_ prot p r p' stop.
Proof.
  revert current p. induction fuel as [|fuel IH]; intros current p Hwf Hcur Hend Hal1 Hal2 Hk Hfuel; [lia|].
  cbn [mprotect_loop]. destruct (Z.ltb_spec current end_) as [Hlt|Hge]; cbn [negb].
  2:{ exists 0, p, end_. split; [done|]. split; [lia|]. split; [done|]. split; [|left; lia].
      intros a fl ty. destruct (Z.leb_spec current a), (Z.ltb_spec a end_); simpl; try lia; done. }
  unfold addr_to_range. pose proof Hwf as [Hro Hfr Hpg].
  destruct (range_at current (range_list (pagemap p))) as [e|] eqn:He.
  2:{ rewrite Hk by lia. exists (- ENOMEM), p, current. split; [done|]. split; [lia|]. split; [done|]. split.
      - intros a fl ty. destruct (Z.leb_spec current a), (Z.ltb_spec a current); simpl; try lia; done.
      - right. split; [done|]. split; [done|]. intros fl ty (x & Hx & Hc & _). by eapply range_at_none. }
  destruct (range_at_some _ _ _ _ Hro He) as [Hin Hc].
  destruct (ro_ok _ _ Hro e Hin) as [Hre Hfe]. pose proof Hre as []. rewrite range_end_eq by done.
  unfold covers in Hc. rewrite (u64_small (base e + range_length e - current)) by lia.
  set (len := if _ : bool then _ else _).
  assert (Hlen : 0 < len <= end_ - current /\ current + len <= base e + range_length e /\ len mod PAGE_SIZE = 0).
  { unfold len. rewrite !u64_small by lia.
    destruct (Z.ltb_spec end_ (current + (base e + range_length e - current))); (split; [lia|]);
      (split; [lia|]); auto using aligned_sub, aligned_add. }
  destruct Hlen as (Hlen & Hlen2 & Hlen3). clearbody len.
  assert (PAGE_SIZE <= len).
  { unfold PAGE_SIZE in *. pose proof (Z.div_mod len 4096 ltac:(lia)). lia. }
  match goal with |- context [add_range _ _ _ _ _ ?pb ?fi ?fo _ _ _] =>
    destruct (add_range_spec current len (mmap_prot_to_page_flags prot) (range_type e) true pb fi fo true (pagemap p))
      as (s & -> & Hwf' & Hm) end; auto using prot_flags_ok; try lia.
  rewrite (u64_small (current + len)) by lia.
  destruct (IH (current + len) (set_pagemap s p)) as (r & p' & stop & -> & Hst & Hwf2 & Hrep & Hres); auto;
    auto using aligned_add; try (cbn [set_pagemap kernel_half]; intros; apply Hk); try lia.
  exists r, p', stop. split; [done|]. split; [lia|]. split; [done|].
  assert (Hrep1 : reprotected current (current + len) (mmap_prot_to_page_flags prot)
                    (range_list (pagemap p)) (range_list s)).
  { intros a fl ty. rewrite Hm. destruct (Z.leb_spec current a), (Z.ltb_spec a (current + len)); cbn [andb]; try done.
    pose proof (fun fl ty => mapped_range _ _ e a fl ty Hro Hin ltac:(unfold covers; lia)) as He'.
    setoid_rewrite He'. split.
    - intros (_ & -> & ->). split; [done|]. by exists (page_flags e).
    - intros (-> & fl0 & -> & ->). done. }
  split; [eapply reprotected_trans; [|done|done]; lia|].
  destruct Hres as [Hres|(-> & Hlt' & Hno)]; [by left|]. right. split; [done|]. split; [done|].
  intros fl ty Hmap. apply (Hno fl ty). cbn [set_pagemap pagemap]. rewrite Hm.
  destruct (Z.leb_spec current stop), (Z.ltb_spec stop (current + len)); cbn [andb]; try lia; done.
Qed.

(** A frame taken from the free list is mapped nowhere. *)
Lemma alloc_page_fresh s f pmm :
  frames_ok s -> alloc_page (pm_pmm s) = Some (f, pmm) ->
  0 <= f < 2 ^ 40 /\ pages pmm = <[f := mkPage false (default 0 (mapped_addr <$> pages (pm_pmm s) !! f))]> (pages (pm_pmm s)) /\
  (forall v e, ptes s !! v = Some e -> Z.land e ADDR_MASK <> phy f) /\ page_owner s !! f = None.
Proof.
  intros [] H. unfold alloc_page in H. destruct (page_freelist (pm_pmm s)) as [|q l]; [done|].
  destruct (pages (pm_pmm s) !! q) as [[fr a]|] eqn:Hq; [|done]. cbn [page_free] in H. destruct fr; [|done].
  injection H as <- <-. rewrite Hq.
  assert (Hno : forall v e, ptes s !! v = Some e -> Z.land e ADDR_MASK <> phy q).
  { intros v e He Hm. destruct (fk_pte _ _ He) as (_ & f & a' & Hf & Hp).
    assert (f = q) as -> by (apply phy_inj; congruence). congruence. }
  split; [by apply fk_frame|]. split; [done|]. split; [done|].
  destruct (page_owner s !! q) as [r|] eqn:Ho; [|done].
  destruct (fk_owner _ _ Ho) as (v & e & He & Hm). by apply Hno in He.
Qed.

Lemma fault_frames s f pmm v a r fl :
  frames_ok s -> flags_ok fl -> alloc_page (pm_pmm s) = Some (f, pmm) -> ptes s !! v = None ->
  let s' := mkPagemap (range_list s) (<[v := Z.lor (phy f) fl]> (ptes s)) (<[f := r]> (page_owner s))
              (file_refs s) (set_mapped_addr f a pmm) (next_rid s) in
  frames_ok s' /\ forall v', page_view s' v'
    = if v' =? v then Some (Z.lor (phy f) fl, Some r) else page_view s v'.
Proof.
  intros Hok [Hfp Hfm] Ha Hv s'. pose proof Hok as [].
  destruct (alloc_page_fresh s f pmm Hok Ha) as (Hf & Hpages & Hno & Hown).
  pose proof (land_phy_lor f fl Hf Hfm) as Hland.
  assert (Hpf : pages pmm !! f = Some (mkPage false (default 0 (mapped_addr <$> pages (pm_pmm s) !! f))))
    by by rewrite Hpages, lookup_insert_eq.
  split.
  - constructor; simpl; auto.
    + eapply set_mapped_addr_wf; [by eapply alloc_page_wf|done].
    + intros v' e' [[<- <-]|[Hne He']]%lookup_insert_Some.
      * split; [by apply has_lor_r|]. rewrite Hland. exists f, a. by rewrite lookup_insert_eq.
      * destruct (fk_pte _ _ He') as (H1 & f' & a' & H2 & H3). split; [done|]. exists f', a'.
        assert (f <> f') by (intros <-; by apply Hno in He').
        split; [done|]. by rewrite lookup_insert_ne, Hpages, lookup_insert_ne by done.
    + intros v1 v2 e1 e2 [[<- <-]|[H1 H1']]%lookup_insert_Some [[<- <-]|[H2 H2']]%lookup_insert_Some Heq;
        rewrite ?Hland in Heq; try done; eauto; exfalso; first [by eapply (Hno v2)|by eapply (Hno v1)].
    + intros f' r' [[<- <-]|[Hne Ho]]%lookup_insert_Some.
      * exists v, (Z.lor (phy f) fl). by rewrite lookup_insert_eq.
      * destruct (fk_owner _ _ Ho) as (v' & e' & He' & Hm'). exists v', e'.
        rewrite lookup_insert_ne; [done|]. congruence.
    + intros f' Hs. apply lookup_insert_is_Some in Hs as [<-|[_ Hs]]; [done|].
      rewrite Hpages in Hs. apply lookup_insert_is_Some in Hs as [<-|[_ Hs]]; auto.
  - intros v'. unfold page_view; simpl. destruct (Z.eqb_spec v' v) as [->|Hne].
    + by rewrite lookup_insert_eq, Hland, phy_div, lookup_insert_eq.
    + rewrite lookup_insert_ne by done. destruct (ptes s !! v') as [e'|] eqn:He'; [|done]. do 2 f_equal.
      destruct (fk_pte _ _ He') as (_ & f' & a' & Hf' & _). rewrite Hf', phy_div.
      rewrite lookup_insert_ne; [done|]. intros <-. by eapply Hno.
Qed.

Lemma fault_wf s f pmm virt a e :
  as_wf s -> e ∈ range_list s -> covers e virt -> alloc_page (pm_pmm s) = Some (f, pmm) ->
  ptes s !! vpn virt = None ->
  as_wf (mkPagemap (range_list s) (<[vpn virt := Z.lor (phy f) (page_flags e)]> (ptes s))
          (<[f := rid e]> (page_owner s)) (file_refs s) (set_mapped_addr f a pmm) (next_rid s)).
Proof.
  intros [Hro Hfr Hpg] He Hc Ha Hv. destruct (ro_ok _ _ Hro e He) as [Hre Hfl].
  destruct (alloc_page_fresh s f pmm Hfr Ha) as (Hf & _).
  destruct (fault_frames s f pmm (vpn virt) a (rid e) (page_flags e) Hfr Hfl Ha Hv) as [Hfr' Hview].
  constructor; [done|done|]. intros v w o Hw. rewrite Hview in Hw.
  destruct (Z.eqb_spec v (vpn virt)) as [->|Hne].
  - injection Hw as <- <-. exists (rid e). split; [done|]. left. exists e. split; [done|]. split; [done|].
    split; [|rewrite land_phy_lor; [done|done|apply Hfl]].
    destruct Hre. unfold covers, vpn, PAGE_SIZE in *.
    pose proof (Z.div_mod (base e) 4096 ltac:(lia)). pose proof (Z.div_mod (range_length e) 4096 ltac:(lia)).
    pose proof (Z.div_mod virt 4096 ltac:(lia)). pose proof (Z.mod_pos_bound virt 4096 ltac:(lia)). lia.
  - destruct (Hpg v w o Hw) as (r & -> & [Hx|[Hi _]]); [|lia]. exists r. split; [done|]. by left.
Qed.

Definition fill_of (r : MappedRange) (page_virt : Z) : Fill :=
  match range_type r with
  | FILE => FilePage (file r) (u64 (page_virt - original_base r + file_offset r))
  | _ => Zeroed
  end.

Lemma find_entry_created virt p :
  find_entry virt (create_tables virt p) = Some (default 0 (ptes (half_of virt p) !! vpn virt)).
Proof.
  unfold find_entry, create_tables, half_of, kernel_view. cbn [tables pagemap kernel_half].
  rewrite bool_decide_true by set_solver. done.
Qed.


(** mprotect works from its address up to the end or to the first
    unmapped address, where it fails: what it passed has the new permissions
    and is otherwise mapped as before, and nothing else changes. *)
Theorem syscall_mprotect_spec addr length prot p :
  as_wf (pagemap p) -> 0 <= addr -> 0 <= length -> addr + length + PAGE_SIZE < 18446744073709551616 ->
  addr mod PAGE_SIZE = 0 ->
  (forall a, addr <= a < addr + align_up length PAGE_SIZE -> range_at a (k_ranges (kernel_half p)) = None) ->
  exists r p' stop, syscall_mprotect addr length prot p = Some (r, p') /\
    mprotect_result addr (addr + align_up length PAGE_SIZE) prot p r p' stop.
Proof.
  intros Hwf Ha Hl Hend Hal Hk. unfold PAGE_SIZE at 1 in Hend.
  destruct (align_up_page length Hl) as [Hm Hb]; [unfold PAGE_SIZE; lia|]. unfold PAGE_SIZE at 3 in Hb.
  unfold syscall_mprotect. rewrite Hal. cbn [Z.eqb negb]. rewrite u64_small by lia.
  apply mprotect_loop_spec; auto using aligned_add; try lia.
  unfold PAGE_SIZE in *. pose proof (Z.div_mod (align_up length 4096) 4096 ltac:(lia)). lia.
Qed.


(** nothing bounds a shared mapping of a memory file by the file: a fault
    past its end maps whatever frame the kernel has at the address there. *)
Theorem memfd_mapping_unbounded fuel virt p r e :
  0 <= virt < KERNEL_HALF -> ptes (pagemap p) !! vpn virt = None ->
  addr_to_range virt p = Some r -> range_type r = DIRECT_VIRTUAL ->
  let map := u64 (align_down virt PAGE_SIZE - original_base r + phy_base r) in
  find_entry map (create_tables virt p) = Some e ->
  exists p', handle_page_fault (S fuel) virt p = Some (Z.land e ADDR_MASK, [], p') /\
    ptes (pagemap p') !! vpn virt = Some (Z.lor (Z.land e ADDR_MASK) (page_flags r)).
Proof.
  intros Hv Hno Hr Hty map He.
  assert (Hhalf : forall q, half_of virt q = pagemap q)
    by (intros q; unfold half_of; destruct (Z.ltb_spec virt KERNEL_HALF); [done|lia]).
  assert (Hset : forall s q, set_half virt s q = set_pagemap s q)
    by (intros s q; unfold set_half; destruct (Z.ltb_spec virt KERNEL_HALF); [done|lia]).
  cbn [handle_page_fault]. rewrite find_entry_created, Hhalf, Hno. cbn [from_option id].
  change (addr_to_range virt (create_tables virt p)) with (addr_to_range virt p). rewrite Hr, Hty.
  fold map. rewrite He. cbn [has Z.land Z.eqb negb]. eexists. split; [reflexivity|].
  unfold set_entry. rewrite Hset, Hhalf. cbn [set_pagemap pagemap ptes]. by rewrite lookup_insert_eq.
Qed.

(** madvise(MADV_DONTNEED) takes any address: given a page of the kernel
    it removes the kernel's mapping and frees the frame under it. *)
Theorem madvise_frees_kernel_page addr p e f a :
  KERNEL_HALF <= addr -> addr mod PAGE_SIZE = 0 -> pmm_wf (pm_pmm (pagemap p)) ->
  k_ptes (kernel_half p) !! vpn addr = Some e -> has e PAGE_PRESENT = true ->
  Z.land e ADDR_MASK = phy f -> pages (pm_pmm (pagemap p)) !! f = Some (mkPage false a) ->
  exists p', syscall_madvise addr PAGE_SIZE MADV_DONTNEED p = Some (0, p') /\
    k_ptes (kernel_half p') !! vpn addr = None /\
    page_freelist (pm_pmm (pagemap p')) = f :: page_freelist (pm_pmm (pagemap p)).
Proof.
  intros Ha Hal Hwf He Hp Hm Hf. unfold syscall_madvise. rewrite Hal. cbn [Z.eqb negb].
  change (align_up PAGE_SIZE PAGE_SIZE) with 4096. change (Z.to_nat (4096 / PAGE_SIZE)) with 1%nat.
  change (advice_ignored MADV_DONTNEED) with false. cbn [Z.eqb MADV_DONTNEED MADV_DONTFORK MADV_FREE orb Pos.eqb].
  cbn [madvise_loop]. unfold half_of, set_half. destruct (Z.ltb_spec addr KERNEL_HALF); [lia|].
  unfold invalidate_page. cbn [kernel_view ptes]. rewrite He, Hp. cbn [negb kernel_view pm_pmm]. rewrite Hm.
  rewrite (find_page_managed _ f Hwf) by eauto. rewrite Hf. cbn [page_free negb].
  unfold free_page. rewrite Hf. cbn [page_free].
  eexists. split; [reflexivity|]. cbn [kernel_half k_ptes ptes pagemap pm_pmm page_freelist].
  by rewrite lookup_delete_eq.
Qed.

(** ** A concrete process *)
Definition empty_pagemap : Pagemap := mkPagemap [] ∅ ∅ ∅ (Pmm_init memmap_example) 1.
Definition example_base : Z := 1073741824.

Lemma empty_pagemap_wf : as_wf empty_pagemap.
Proof.
  constructor.
  - constructor; simpl; try (intros; set_solver). apply NoDup_nil_2.
  - constructor; cbn [empty_pagemap ptes page_owner pm_pmm]; try (intros; set_solver).
    + apply Pmm_init_wf, memmap_example_ok.
    + intros f Hf. apply (pw_pages _ (proj1 (Pmm_init_wf _ memmap_example_ok))) in Hf as (r & Hr & Hin).
      assert (r ∈ [mkRegion 4096 4; mkRegion 65536 3]) as [->|[->|[]%elem_of_nil]%elem_of_cons]%elem_of_cons by done.
      * change (2 <= f < 5) in Hin. lia.
      * change (17 <= f < 19) in Hin. lia.
  - intros v w o H. by vm_compute in H.
Qed.

(** Three anonymous pages, read and write. *)
Definition example_pagemap : Pagemap :=
  default empty_pagemap
    (add_range example_base 12288 (mmap_prot_to_page_flags 3) ANONYMOUS true 0 0 0 true true empty_pagemap).

Lemma example_pagemap_wf : as_wf example_pagemap.
Proof.
  unfold example_pagemap.
  destruct (add_range_spec example_base 12288 (mmap_prot_to_page_flags 3) ANONYMOUS true 0 0 0 true empty_pagemap
              empty_pagemap_wf) as (s & -> & Hs & _); try done; auto using prot_flags_ok. 
Qed.

(** The kernel half: two pages at the bottom of it, the first the contents of
    a memory file, the second, present in frame 2, something else. *)
Definition example_kbase : Z := 18446603336221196288.
Definition example_kernel : Kernel :=
  mkKernel [mkRange 100 example_kbase example_kbase 8192 (Z.lor PAGE_PRESENT PAGE_WRITABLE) ANONYMOUS 0 0 0]
    {[ vpn (example_kbase + 4096) := Z.lor (phy 2) 3 ]} {[ 2 := 100 ]}.
Definition example_process (s : Pagemap) : Process :=
  mkProcess s example_kernel {[ vpn example_kbase / 512 ]} (example_base + 12288) 0.


Lemma syscall_mprotect_spec_witness :
  exists r p' stop, syscall_mprotect (example_base + 4096) 16384 1 (example_process example_pagemap)
      = Some (r, p') /\
    mprotect_result (example_base + 4096) (example_base + 20480) 1 (example_process example_pagemap) r p' stop.
Proof.
  apply (syscall_mprotect_spec (example_base + 4096) 16384 1 (example_process example_pagemap)).
  - exact example_pagemap_wf.
  - unfold example_base; lia.
  - lia.
  - unfold example_base, PAGE_SIZE; lia.
  - reflexivity.
  - intros a Ha. change (align_up 16384 PAGE_SIZE) with 16384 in Ha. unfold example_base in Ha.
    cbn [example_process kernel_half example_kernel k_ranges range_at List.find base].
    destruct (Z.leb_spec example_kbase a) as [H|H]; [unfold example_kbase in H; lia|reflexivity].
Defined.


(** A one-page memory file mapped over two pages: the second page of the
    mapping is the kernel's next page. *)
Definition memfd_pagemap : Pagemap :=
  default empty_pagemap
    (add_range example_base 8192 (mmap_prot_to_page_flags 3) DIRECT_VIRTUAL false example_kbase 0 0
       false true empty_pagemap).

Lemma memfd_mapping_unbounded_witness :
  exists p', handle_page_fault 1 (example_base + 4096) (example_process memfd_pagemap) = Some (phy 2, [], p') /\
    ptes (pagemap p') !! vpn (example_base + 4096) = Some (Z.lor (phy 2) (mmap_prot_to_page_flags 3)).
Proof.
  apply (memfd_mapping_unbounded 0 (example_base + 4096) (example_process memfd_pagemap)
    (mkRange 1 example_base example_base 8192 (mmap_prot_to_page_flags 3) DIRECT_VIRTUAL example_kbase 0 0)
    (Z.lor (phy 2) 3)); try reflexivity; try (vm_compute; reflexivity).
  unfold example_base, KERNEL_HALF; lia.
Defined.

Definition example_used_pagemap : Pagemap :=
  mkPagemap [] ∅ ∅ ∅ (match alloc_page (Pmm_init memmap_example) with Some (_, s) => s | None => Pmm_init memmap_example end) 1.

Lemma madvise_frees_kernel_page_witness :
  exists p', syscall_madvise (example_kbase + 4096) PAGE_SIZE MADV_DONTNEED (example_process example_used_pagemap) = Some (0, p') /\
    k_ptes (kernel_half p') !! vpn (example_kbase + 4096) = None /\
    page_freelist (pm_pmm (pagemap p')) = 2 :: page_freelist (pm_pmm example_used_pagemap).
Proof.
  apply (madvise_frees_kernel_page (example_kbase + 4096) (example_process example_used_pagemap) (Z.lor (phy 2) 3) 2 0);
    try reflexivity.
  - vm_compute; congruence.
  - destruct (alloc_page (Pmm_init memmap_example)) as [[f s]|] eqn:Ha; [|vm_compute in Ha; discriminate].
    cbn [example_process pagemap example_used_pagemap pm_pmm]. rewrite Ha.
    eapply alloc_page_wf; [apply Pmm_init_wf, memmap_example_ok|exact Ha].
Defined.
