(* ===== verification/NameSpace.v ===== *)
(** The name space (vfs::Entry, path resolution and the path system calls of
    src/kernel/src/fs/vfs.cpp) over the tmpfs driver (fs/tmpfs.cpp).

    Entries, vnodes, file systems and descriptions are objects of a heap,
    named by their addresses (multiples of 16; 0 is the null pointer).  A path
    or name is the list of its bytes before the terminating zero.  [None] is a
    stopped kernel: a null or wild pointer, or a call that does not return. *)
From S2P Require Import Prelude FdTable VNode Tmpfs.
From stdpp Require Import strings.
From Stdlib Require Strings.Ascii Strings.String.
Open Scope Z_scope.

Definition str (s : string) : list Z := map (fun c => Z.of_N (Ascii.N_of_ascii c)) (String.list_ascii_of_string s).
Definition SLASH : Z := 47.

Inductive NodeType : Type :=
| HARD_LINK | REGULAR | DIRECTORY | CHAR_DEVICE | BLOCK_DEVICE | SYMLINK | FIFO | SOCKET
| EPOLL | INOTIFY | EVENTFD | SIGNALFD | MEMFD.

#[export] Instance NodeType_eq_dec : EqDecision NodeType.
Proof. solve_decision. Defined.

Definition is_device (t : NodeType) : bool :=
  bool_decide (t = CHAR_DEVICE) && negb (bool_decide (t = BLOCK_DEVICE)).

(** The reference count of a vnode, which nothing reads, is left out; the three
    times are set together. *)
Record VNode : Type := mkVNode {
  node_type : NodeType;
  fs : Z;
  fs_mounted_here : Z;
  fs_data : option NodeData;
  times : Z;
  uid : Z;
  gid : Z;
  mode : Z;
  rdev : Z
}.

(** [linked] says whether the sibling link holds valid pointers; [children]
    is the list of the entries linked there. *)
Record Entry : Type := mkEntry {
  e_vnode : Z;
  parent : Z;
  redirect : Z;
  children : list Z;
  linked : bool;
  name_hash : Z;
  name : list Z
}.

Record Filesystem : Type := mkFilesystem {
  last_inode_num : Z;
  dev_id : Z;
  root_entry : Z
}.

(** The name space, and what the path calls use of the process and thread. *)
Record Ns : Type := mkNs {
  entries : gmap Z Entry;
  vnodes : gmap Z VNode;
  filesystems : gmap Z Filesystem;
  next_addr : Z;
  non_device_dev_id : Z;
  ns_fds : FdState;
  desc_entry : gmap Z Z;
  cwd : Z;
  umask : Z;
  euid : Z;
  egid : Z;
  realtime : Z
}.

Definition ROOT : Z := 16.
Definition NULL_ENTRY : Z := 32.

Definition set_entries (m : gmap Z Entry) (s : Ns) : Ns :=
  mkNs m (vnodes s) (filesystems s) (next_addr s) (non_device_dev_id s) (ns_fds s) (desc_entry s)
    (cwd s) (umask s) (euid s) (egid s) (realtime s).
Definition set_vnodes (m : gmap Z VNode) (s : Ns) : Ns :=
  mkNs (entries s) m (filesystems s) (next_addr s) (non_device_dev_id s) (ns_fds s) (desc_entry s)
    (cwd s) (umask s) (euid s) (egid s) (realtime s).
Definition set_filesystems (m : gmap Z Filesystem) (s : Ns) : Ns :=
  mkNs (entries s) (vnodes s) m (next_addr s) (non_device_dev_id s) (ns_fds s) (desc_entry s)
    (cwd s) (umask s) (euid s) (egid s) (realtime s).
Definition set_next (a : Z) (s : Ns) : Ns :=
  mkNs (entries s) (vnodes s) (filesystems s) a (non_device_dev_id s) (ns_fds s) (desc_entry s)
    (cwd s) (umask s) (euid s) (egid s) (realtime s).
Definition set_ns_fds (f : FdState) (d : gmap Z Z) (s : Ns) : Ns :=
  mkNs (entries s) (vnodes s) (filesystems s) (next_addr s) (non_device_dev_id s) f d
    (cwd s) (umask s) (euid s) (egid s) (realtime s).
Definition set_cwd (e : Z) (s : Ns) : Ns :=
  mkNs (entries s) (vnodes s) (filesystems s) (next_addr s) (non_device_dev_id s) (ns_fds s) (desc_entry s)
    e (umask s) (euid s) (egid s) (realtime s).

(** The vnode of an entry, and its address. *)
Definition vnode_of (e : Z) (s : Ns) : option Z := e_vnode <$> entries s !! e.
Definition entry_vnode (e : Z) (s : Ns) : option VNode := v ← vnode_of e s; vnodes s !! v.
Definition upd_entry (e : Z) (f : Entry -> Entry) (s : Ns) : Ns := set_entries (alter f e (entries s)) s.
Definition upd_vnode (v : Z) (f : VNode -> VNode) (s : Ns) : Ns := set_vnodes (alter f v (vnodes s)) s.

(** [klib::hash], djb2a: the characters are signed. *)
Definition hash (n : list Z) : Z :=
  fold_left (fun h c => Z.lxor (u32 (u32 (Z.shiftl h 5) + h)) (u32 (sN 8 c))) n 5381.

(** ** vfs::Entry *)

Definition with_vnode (v : Z) (e : Entry) : Entry :=
  mkEntry v (parent e) (redirect e) (children e) (linked e) (name_hash e) (name e).
Definition with_children (l : list Z) (e : Entry) : Entry :=
  mkEntry (e_vnode e) (parent e) (redirect e) l (linked e) (name_hash e) (name e).
Definition with_linked (b : bool) (e : Entry) : Entry :=
  mkEntry (e_vnode e) (parent e) (redirect e) (children e) b (name_hash e) (name e).

Definition Entry_construct (vn par : Z) (nm : list Z) (red : Z) (s : Ns) : Z * Ns :=
  let e := next_addr s in
  (e, set_next (e + 16) (set_entries (<[e := mkEntry vn par red [] true (hash nm) nm]> (entries s)) s)).

Definition add_child (p e : Z) (s : Ns) : Ns :=
  upd_entry e (with_linked true) (upd_entry p (fun d => with_children (e :: children d) d) s).

(** [sibling_link.remove()] with the links it unhooks; a link removed before
    is null. *)
Definition remove_from_parent (e : Z) (s : Ns) : option Ns :=
  d ← entries s !! e;
  if linked d then
    Some (upd_entry e (with_linked false)
            (set_entries ((fun d => with_children (filter (fun c => c <> e) (children d)) d) <$> entries s) s))
  else None.

(** [Entry::reduce]: the chain of redirections. *)
Fixpoint reduce (fuel : nat) (e : Z) (s : Ns) : option Z :=
  match fuel with
  | O => None
  | S fuel =>
      d ← entries s !! e;
      if redirect d =? 0 then Some e else reduce fuel (redirect d) s
  end.

(** Redirections go to the entry of a directory, which has none of its own. *)
Definition reduce_fuel : nat := 3.

Definition find_child (p : Z) (child_name : list Z) (s : Ns) : option Z :=
  d ← entries s !! p;
  List.find (fun c => match entries s !! c with
                      | Some child => (name_hash child =? hash child_name) && bool_decide (name child = child_name)
                      | None => false
                      end) (children d).

(** [tmpfs::Filesystem::create] *)
Definition no_id : Z := 4294967295.
Definition fs_create (f e : Z) (new_node_type : NodeType) (s : Ns) : option Ns :=
  fsd ← filesystems s !! f;
  v0 ← vnode_of e s;
  if (v0 =? 0) && bool_decide (new_node_type = HARD_LINK) then None
  else
    let '(v, s1) :=
      if v0 =? 0 then
        let v := next_addr s in
        (v, set_next (v + 16)
              (upd_entry e (with_vnode v)
                 (set_vnodes (<[v := mkVNode new_node_type 0 0 None 0 no_id no_id 0 0]> (vnodes s)) s)))
      else (v0, s) in
    d ← vnodes s1 !! v;
    let data := mkNodeData (bool_decide (node_type d = DIRECTORY)) (last_inode_num fsd) [] 0 in
    Some (set_filesystems
            (<[f := mkFilesystem (last_inode_num fsd + 1) (dev_id fsd) (root_entry fsd)]> (filesystems s1))
            (upd_vnode v (fun d => mkVNode (node_type d) f (fs_mounted_here d) (Some data) (realtime s1)
                                     (uid d) (gid d) (mode d) (rdev d)) s1)).

(** The file system below a directory entry. *)
Definition fs_below (e : Z) (s : Ns) : option Z :=
  v ← entry_vnode e s;
  Some (if fs_mounted_here v =? 0 then fs v else fs_mounted_here v).

(** [Entry::lookup]: tmpfs has nothing beyond the entries. *)
Definition Entry_lookup (e : Z) (s : Ns) : option Ns :=
  d ← entries s !! e;
  f ← fs_below (parent d) s;
  _ ← filesystems s !! f;
  p ← reduce reduce_fuel (parent d) s;
  match find_child p (name d) s with
  | Some _ => Some s
  | None => Some (add_child (parent d) e s)
  end.

(** [Entry::create]; [no_id] is the [-1] that leaves a field alone. *)
Definition set_owner (new_node_type : NodeType) (u g m : Z) (d : VNode) : VNode :=
  mkVNode (node_type d) (fs d) (fs_mounted_here d) (fs_data d) (times d)
    (if u =? no_id then uid d else u) (if g =? no_id then gid d else g)
    (if bool_decide (new_node_type = SYMLINK) then 511 else if m =? no_id then mode d else m) (rdev d).

Definition Entry_create (e : Z) (new_node_type : NodeType) (u g m : Z) (s : Ns) : option Ns :=
  d ← entries s !! e;
  s1 ← (if bool_decide (new_node_type = HARD_LINK) then Some s
        else (f ← fs_below (parent d) s; fs_create f e new_node_type s));
  _ ← entries s1 !! parent d;
  let s2 := match find_child (parent d) (name d) s1 with
            | Some _ => s1
            | None => add_child (parent d) e s1
            end in
  v ← vnode_of e s2;
  if v =? 0 then Some s2
  else
    vn ← vnodes s2 !! v;
    s3 ← (if bool_decide (node_type vn = DIRECTORY) then
            let '(dot, s3) := Entry_construct v e (str ".") e s2 in
            let s4 := add_child e dot s3 in
            pv ← vnode_of (parent d) s4;
            let '(dotdot, s5) := Entry_construct pv e (str "..") (parent d) s4 in
            Some (add_child e dotdot s5)
          else Some s2);
    Some (upd_vnode v (set_owner new_node_type u g m) s3).

(** [Entry::remove]: the vnode's file system must be there. *)
Definition Entry_remove (e : Z) (s : Ns) : option Ns :=
  v ← entry_vnode e s;
  _ ← filesystems s !! fs v;
  remove_from_parent e s.

(** ** Path resolution *)

(** [vfs::lookup] *)
Definition lookup_child (p : Z) (filename : list Z) (s : Ns) : option (Z * Ns) :=
  _ ← entries s !! p;
  match find_child p filename s with
  | Some r => Some (r, s)
  | None =>
      let '(e, s1) := Entry_construct 0 p filename 0 s in
      s2 ← Entry_lookup e s1;
      Some (e, s2)
  end.

Fixpoint strchr (c : Z) (l : list Z) : option Z :=
  match l with
  | [] => None
  | x :: l' => if x =? c then Some 0 else (fun i => i + 1) <$> strchr c l'
  end.

(** The characters before the first zero. *)
Fixpoint cstr (l : list Z) : list Z :=
  match l with
  | [] => []
  | x :: l' => if x =? 0 then [] else x :: cstr l'
  end.

(** Where the walk starts, or what [path_to_entry] returns at once. *)
Definition path_start (path : list Z) (starting_point : Z) (s : Ns) : option (Z + list Z * Z * Z) :=
  match path with
  | [] => Some (inl NULL_ENTRY)
  | c :: rest =>
      let path_len := Z.of_nat (length path) in
      if c =? SLASH then
        if bool_decide (rest = []) then Some (inl ROOT) else Some (inr (rest, path_len - 1, ROOT))
      else if starting_point =? 0 then Some (inl NULL_ENTRY)
      else (e ← reduce reduce_fuel starting_point s; Some (inr (path, path_len, e)))
  end.

(** The end of the first component: its length and whether it is the last;
    nothing for a duplicate slash. *)
Definition component (path : list Z) (path_len : Z) : option (Z * bool) :=
  match strchr SLASH path with
  | None => Some (path_len, true)
  | Some i => if i =? path_len - 1 then Some (i, true) else if i =? 0 then None else Some (i, false)
  end.

(** The string at an offset of the path; [None] beyond its end. *)
Definition rest_at (n : Z) (path : list Z) : option (list Z) :=
  if n <=? Z.of_nat (length path) then Some (drop (Z.to_nat n) path) else None.

(** The loop of [path_to_entry] and its recursion through symbolic links, a
    unit of fuel a turn. *)
Fixpoint path_walk (fuel : nat) (path : list Z) (path_len current : Z) (follow : bool) (s : Ns)
    : option (Z * Ns) :=
  match fuel with
  | O => None
  | S fuel =>
      cv ← entry_vnode current s;
      if negb (bool_decide (node_type cv = DIRECTORY)) then Some (NULL_ENTRY, s)
      else
        match component path path_len with
        | None => path_walk fuel (tail path) path_len current follow s
        | Some (n, last) =>
            '(next, s1) ← lookup_child current (take (Z.to_nat n) path) s;
            v ← vnode_of next s1;
            if v =? 0 then Some (if last then next else NULL_ENTRY, s1)
            else
              nv ← vnodes s1 !! v;
              if (negb last || follow) && bool_decide (node_type nv = SYMLINK) then
                data ← fs_data nv;
                match Node_read 0 128 0 data with
                | Return (ret, target) _ =>
                    if (ret <? 0) || (127 <? ret) then Some (NULL_ENTRY, s1)
                    else
                      rest ← rest_at n path;
                      if 256 <? ret + Z.of_nat (length rest) + 1 then None
                      else
                        st ← path_start (cstr (target ++ rest)) current s1;
                        match st with
                        | inl e => Some (e, s1)
                        | inr (path', len', start) => path_walk fuel path' len' start follow s1
                        end
                | _ => None
                end
              else if last then Some (next, s1)
              else
                dir ← reduce reduce_fuel next s1;
                path_walk fuel (drop (Z.to_nat (n + 1)) path) (path_len - (n + 1)) dir follow s1
        end
  end.

Definition path_to_entry (fuel : nat) (path : list Z) (starting_point : Z) (follow : bool) (s : Ns)
    : option (Z * Ns) :=
  st ← path_start path starting_point s;
  match st with
  | inl e => Some (e, s)
  | inr (path', len', start) => path_walk fuel path' len' start follow s
  end.

(** ** The path system calls *)
Definition AT_FDCWD : Z := -100.
Definition AT_SYMLINK_NOFOLLOW : Z := 256.
Definition AT_REMOVEDIR : Z := 512.
Definition AT_EMPTY_PATH : Z := 4096.
Definition O_CREAT : Z := 64.
Definition O_EXCL : Z := 128.
Definition O_TRUNC : Z := 512.
Definition O_DIRECTORY : Z := 65536.
Definition O_NOFOLLOW : Z := 131072.

Definition lookup_description (fd : Z) (s : Ns) : option (Z * FileDescription) :=
  let p := get_file_description fd (ns_fds s) in
  if p =? 0 then None else (fun d => (p, d)) <$> descriptions (ns_fds s) !! p.

(** The error, or the starting point (null for an absolute path). *)
Definition get_starting_point (dirfd : Z) (path : list Z) (s : Ns) : option (Z + Z) :=
  if bool_decide (head path = Some SLASH) then Some (inr 0)
  else if dirfd =? AT_FDCWD then Some (inr (cwd s))
  else match lookup_description dirfd s with
       | None => Some (inl (- EBADF))
       | Some (p, d) =>
           v ← vnodes s !! vnode d;
           if negb (bool_decide (node_type v = DIRECTORY)) then Some (inl (- ENOTDIR))
           else Some (inr (default 0 (desc_entry s !! p)))
       end.

Section Calls.
Context `{!Realloc}.
(** The fuel of path resolution, and the [open] method of the vnodes that
    have one of their own (devices and pipes). *)
Context (fuel : nat) (vnode_open : Z -> Z -> Z).

(** Resolution relative to a descriptor: an error or the entry. *)
Definition resolve (dirfd : Z) (path : list Z) (follow : bool) (s : Ns) : option ((Z + Z) * Ns) :=
  st ← get_starting_point dirfd path s;
  match st with
  | inl err => Some (inl err, s)
  | inr start => '(e, s1) ← path_to_entry fuel path start follow s; Some (inr e, s1)
  end.

Definition get_vnode_from_dirfd_path (fd : Z) (path : list Z) (fl : Z) (s : Ns) : option ((Z + Z) * Ns) :=
  if has fl AT_EMPTY_PATH && bool_decide (path = []) then
    if fd =? AT_FDCWD then (v ← vnode_of (cwd s) s; Some (inr v, s))
    else match lookup_description fd s with
         | None => Some (inl (- EBADF), s)
         | Some (_, d) => Some (inr (vnode d), s)
         end
  else
    '(r, s1) ← resolve fd path (negb (has fl AT_SYMLINK_NOFOLLOW)) s;
    match r with
    | inl err => Some (inl err, s1)
    | inr e =>
        v ← vnode_of e s1;
        if v =? 0 then Some (inl (- ENOENT), s1)
        else (e' ← reduce reduce_fuel e s1; v' ← vnode_of e' s1; Some (inr v', s1))
    end.

(** [vnode->truncate] and [vnode->write] on a tmpfs node. *)
Definition truncate_vnode (v len : Z) (s : Ns) : option (Z * Ns) :=
  vn ← vnodes s !! v;
  match fs_data vn with
  | None => Some (- EINVAL, s)
  | Some data =>
      '(r, data') ← Node_truncate len data;
      Some (r, upd_vnode v (fun d => mkVNode (node_type d) (fs d) (fs_mounted_here d) (Some data') (times d)
                                       (uid d) (gid d) (mode d) (rdev d)) s)
  end.
Definition write_vnode (v : Z) (buf : list Z) (off : Z) (s : Ns) : option (Z * Ns) :=
  vn ← vnodes s !! v;
  data ← fs_data vn;
  match Node_write 0 buf off data with
  | Return r data' =>
      Some (r, upd_vnode v (fun d => mkVNode (node_type d) (fs d) (fs_mounted_here d) (Some data') (times d)
                                       (uid d) (gid d) (mode d) (rdev d)) s)
  | _ => None
  end.

(** A new description of an entry in the lowest free slot. *)
Definition install_entry (e v fl : Z) (cloexec : bool) (s : Ns) : Z * Ns :=
  let p := next_addr s in
  let '(fd, f) := install_fd p v fl cloexec (ns_fds s) in
  (fd, set_next (p + 16) (set_ns_fds f (<[p := e]> (desc_entry s)) s)).

(** What [openat] does with an entry that exists: an error, or whether to
    truncate. *)
Definition open_existing (fl : Z) (v : VNode) : option (Z + bool) :=
  let acc := Z.land fl O_ACCMODE in
  if bool_decide (node_type v = SYMLINK) then
    if has fl O_NOFOLLOW then Some (inl (- ELOOP)) else None
  else if has fl O_EXCL then Some (inl (- EEXIST))
  else if bool_decide (node_type v = DIRECTORY) then
    if (acc =? O_RDWR) || (acc =? O_WRONLY) || has fl O_CREAT then Some (inl (- EISDIR)) else Some (inr false)
  else if has fl O_DIRECTORY then Some (inl (- ENOTDIR))
  else Some (inr (has fl O_TRUNC && bool_decide (node_type v = REGULAR))).

Definition openat_impl (dirfd : Z) (path : list Z) (fl md : Z) (s : Ns) : option (Z * Ns) :=
  '(r, s1) ← resolve dirfd path (negb (has fl O_NOFOLLOW)) s;
  match r with
  | inl err => Some (err, s1)
  | inr e =>
      d ← entries s1 !! e;
      '(r, s2) ←
        (if e_vnode d =? 0 then
           if negb (has fl O_CREAT) then Some (inl (- ENOENT), s1)
           else if parent d =? 0 then Some (inl (- ENOENT), s1)
           else (s2 ← Entry_create e REGULAR (euid s1) (egid s1) (Z.ldiff md (umask s1)) s1; Some (inr false, s2))
         else (vn ← vnodes s1 !! e_vnode d; o ← open_existing fl vn; Some (o, s1)));
      match r with
      | inl err => Some (err, s2)
      | inr should_truncate =>
          v ← vnode_of e s2;
          let err := vnode_open v (Z.ldiff fl O_CLOEXEC) in
          if negb (err =? 0) then Some (err, s2)
          else
            s3 ← (if should_truncate : bool then ('(_, s3) ← truncate_vnode v 0 s2; Some s3) else Some s2);
            Some (install_entry e v (Z.ldiff fl O_CLOEXEC) (has fl O_CLOEXEC) s3)
      end
  end.

Definition syscall_openat (dirfd : Z) (path : list Z) (fl md : Z) := openat_impl dirfd path fl md.
Definition syscall_open (path : list Z) (fl md : Z) := openat_impl AT_FDCWD path fl md.
Definition syscall_creat (path : list Z) (md : Z) :=
  openat_impl AT_FDCWD path (Z.lor (Z.lor O_CREAT O_WRONLY) O_TRUNC) md.

Definition mkdirat_impl (dirfd : Z) (path : list Z) (md : Z) (s : Ns) : option (Z * Ns) :=
  '(r, s1) ← resolve dirfd path true s;
  match r with
  | inl err => Some (err, s1)
  | inr e =>
      d ← entries s1 !! e;
      if negb (e_vnode d =? 0) then Some (- EEXIST, s1)
      else if parent d =? 0 then Some (- ENOENT, s1)
      else
        s2 ← Entry_create e DIRECTORY (euid s1) (egid s1) (Z.land (Z.ldiff md (umask s1)) 511) s1;
        Some (0, s2)
  end.
Definition syscall_mkdir (path : list Z) (md : Z) := mkdirat_impl AT_FDCWD path md.

Definition unlinkat_impl (dirfd : Z) (path : list Z) (fl : Z) (s : Ns) : option (Z * Ns) :=
  '(r, s1) ← resolve dirfd path true s;
  match r with
  | inl err => Some (err, s1)
  | inr e =>
      v ← vnode_of e s1;
      if v =? 0 then Some (- ENOENT, s1)
      else
        vn ← vnodes s1 !! v;
        if bool_decide (node_type vn = DIRECTORY) && negb (has fl AT_REMOVEDIR) then Some (- EISDIR, s1)
        else (s2 ← Entry_remove e s1; Some (0, s2))
  end.
Definition syscall_unlink (path : list Z) := unlinkat_impl AT_FDCWD path 0.
Definition syscall_rmdir (path : list Z) := unlinkat_impl AT_FDCWD path AT_REMOVEDIR.

Definition renameat_impl (old_dirfd : Z) (old_path : list Z) (new_dirfd : Z) (new_path : list Z) (s : Ns)
    : option (Z * Ns) :=
  '(r, s1) ← resolve old_dirfd old_path true s;
  match r with
  | inl err => Some (err, s1)
  | inr old_entry =>
      v ← vnode_of old_entry s1;
      if v =? 0 then Some (- ENOENT, s1)
      else
        '(r, s2) ← resolve new_dirfd new_path true s1;
        match r with
        | inl err => Some (err, s2)
        | inr new_entry =>
            nv ← vnode_of new_entry s2;
            s3 ← (if negb (nv =? 0) then Entry_remove new_entry s2 else Some s2);
            ov ← vnode_of old_entry s3;
            s4 ← Entry_create new_entry HARD_LINK no_id no_id no_id (upd_entry new_entry (with_vnode ov) s3);
            s5 ← Entry_remove old_entry s4;
            Some (0, s5)
        end
  end.
Definition syscall_rename (old_path new_path : list Z) := renameat_impl AT_FDCWD old_path AT_FDCWD new_path.

Definition linkat_impl (old_dirfd : Z) (old_path : list Z) (new_dirfd : Z) (new_path : list Z) (s : Ns)
    : option (Z * Ns) :=
  '(r, s1) ← resolve old_dirfd old_path true s;
  match r with
  | inl err => Some (err, s1)
  | inr old_entry =>
      v ← vnode_of old_entry s1;
      if v =? 0 then Some (- ENOENT, s1)
      else
        '(r, s2) ← resolve new_dirfd new_path true s1;
        match r with
        | inl err => Some (err, s2)
        | inr new_entry =>
            nv ← vnode_of new_entry s2;
            if negb (nv =? 0) then Some (- EEXIST, s2)
            else
              s3 ← Entry_create new_entry HARD_LINK no_id no_id no_id (upd_entry new_entry (with_vnode v) s2);
              Some (0, s3)
        end
  end.

Definition symlinkat_impl (target_path : list Z) (dirfd : Z) (link_path : list Z) (s : Ns) : option (Z * Ns) :=
  '(r, s1) ← resolve dirfd link_path true s;
  match r with
  | inl err => Some (err, s1)
  | inr e =>
      d ← entries s1 !! e;
      if parent d =? 0 then Some (- ENOENT, s1)
      else if negb (e_vnode d =? 0) then Some (- EEXIST, s1)
      else
        s2 ← Entry_create e SYMLINK (euid s1) (egid s1) 511 s1;
        v ← vnode_of e s2;
        '(_, s3) ← write_vnode v target_path 0 s2;
        Some (0, s3)
  end.

Definition readlinkat_impl (dirfd : Z) (path : list Z) (count : Z) (s : Ns) : option (Z * list Z * Ns) :=
  '(r, s1) ← resolve dirfd path false s;
  match r with
  | inl err => Some (err, [], s1)
  | inr e =>
      v ← vnode_of e s1;
      if v =? 0 then Some (- ENOENT, [], s1)
      else
        vn ← vnodes s1 !! v;
        if negb (bool_decide (node_type vn = SYMLINK)) then Some (- EINVAL, [], s1)
        else
          data ← fs_data vn;
          match Node_read 0 count 0 data with
          | Return (r, bs) _ => Some (r, bs, s1)
          | _ => None
          end
  end.

Definition syscall_chdir (path : list Z) (s : Ns) : option (Z * Ns) :=
  '(e, s1) ← path_to_entry fuel path (cwd s) true s;
  v ← vnode_of e s1;
  if v =? 0 then Some (- ENOENT, s1)
  else
    vn ← vnodes s1 !! v;
    if negb (bool_decide (node_type vn = DIRECTORY)) then Some (- ENOTDIR, s1)
    else Some (0, set_cwd e s1).

Definition syscall_fchdir (fd : Z) (s : Ns) : option (Z * Ns) :=
  match lookup_description fd s with
  | None => Some (- EBADF, s)
  | Some (p, d) =>
      let e := default 0 (desc_entry s !! p) in
      if e =? 0 then Some (- EBADF, s)
      else
        vn ← vnodes s !! vnode d;
        if negb (bool_decide (node_type vn = DIRECTORY)) then Some (- ENOTDIR, s) else Some (0, set_cwd e s)
  end.

(** [Entry::print_path] *)
Fixpoint print_path (n : nat) (e : Z) (s : Ns) : option (list Z) :=
  match n with
  | O => None
  | S n =>
      d ← entries s !! e;
      pre ← (if parent d =? 0 then Some []
             else (p ← entries s !! parent d; if parent p =? 0 then Some [] else print_path n (parent d) s));
      Some (pre ++ SLASH :: name d)
  end.

(** The result and the characters stored, without the final zero. *)
Definition syscall_getcwd (size : Z) (s : Ns) : option (Z * list Z) :=
  out ← print_path fuel (cwd s) s;
  let written := Z.min (Z.of_nat (length out)) (Z.max 0 (size - 1)) in
  let buf := take (Z.to_nat written) out in
  if size <=? written + 1 then Some (- ERANGE, buf) else Some (0, buf).

(** [tmpfs::Filesystem::readdir]: the directory entries stored (inode, offset,
    record length, type and name), the bytes used and the new cursor. *)
Record Dirent : Type := mkDirent {
  d_ino : Z;
  d_off : Z;
  d_reclen : Z;
  d_type : Z;
  d_name : list Z
}.
Definition sizeof_Dirent : Z := 24.
Definition d_type_from_node_type (t : NodeType) : Z :=
  match t with
  | REGULAR => 8 | DIRECTORY => 4 | BLOCK_DEVICE => 6 | CHAR_DEVICE => 2 | SYMLINK => 10 | _ => 0
  end.

Fixpoint readdir_loop (l : list Z) (i count cursor max_size : Z) (s : Ns) : option (list Dirent * Z * Z) :=
  match l with
  | [] => Some ([], count, i)
  | c :: l' =>
      child ← entries s !! c;
      if (i <? cursor) || (e_vnode child =? 0) then readdir_loop l' (i + 1) count cursor max_size s
      else
        let entry_len := align_up (sizeof_Dirent + Z.of_nat (length (name child)) + 1) 8 in
        if max_size <? count + entry_len then Some ([], count, i)
        else
          vn ← vnodes s !! e_vnode child;
          data ← fs_data vn;
          '(out, count', i') ← readdir_loop l' (i + 1) (count + entry_len) cursor max_size s;
          Some (mkDirent (inode_num data) i entry_len (d_type_from_node_type (node_type vn)) (name child) :: out,
                count', i')
  end.

Definition syscall_getdents64 (fd max_size : Z) (s : Ns) : option (Z * list Dirent * Ns) :=
  match lookup_description fd s with
  | None => Some (- EBADF, [], s)
  | Some (p, d) =>
      vn ← vnodes s !! vnode d;
      if negb (bool_decide (node_type vn = DIRECTORY)) then Some (- ENOTDIR, [], s)
      else
        _ ← filesystems s !! fs vn;
        e ← reduce reduce_fuel (default 0 (desc_entry s !! p)) s;
        dir ← entries s !! e;
        '(out, count, i) ← readdir_loop (children dir) 0 0 (cursor d) max_size s;
        let f := ns_fds s in
        let ds := <[p := mkDescription (vnode d) i (flags d) (ref_count d)]> (descriptions f) in
        Some (count, out, set_ns_fds (FdTable.set_descriptions ds f) (desc_entry s) s)
  end.

(** ** stat *)
Record stat : Type := mkStat {
  st_dev : Z; st_ino : Z; st_mode : Z; st_nlink : Z; st_uid : Z; st_gid : Z; st_rdev : Z;
  st_size : Z; st_blksize : Z; st_blocks : Z; st_times : Z
}.
Definition MODE_TYPE_MASK : Z := 61440.
Definition sizeof_Entry : Z := 64.
Definition mode_type (t : NodeType) : Z :=
  match t with
  | REGULAR => 32768 | DIRECTORY => 16384 | BLOCK_DEVICE => 24576 | CHAR_DEVICE => 8192
  | SYMLINK => 40960 | FIFO => 4096 | SOCKET => 49152 | _ => 0
  end.

(** The device numbers of pipes and sockets, made on first use, are given. *)
Context (pipe_dev_id socket_dev_id : Z).

Definition stat_vnode (vn : VNode) (s : Ns) : option stat :=
  let md := Z.lor (Z.ldiff (mode vn) MODE_TYPE_MASK) (mode_type (node_type vn)) in
  let rd := if is_device (node_type vn) then rdev vn else 0 in
  if fs vn =? 0 then
    let dev := match node_type vn with FIFO => pipe_dev_id | SOCKET => socket_dev_id | _ => 0 end in
    Some (mkStat dev 0 md 0 (uid vn) (gid vn) rd 0 0 0 (times vn))
  else
    f ← filesystems s !! fs vn;
    data ← fs_data vn;
    let sz := if bool_decide (node_type vn = DIRECTORY) then sizeof_Entry else Tmpfs.size data in
    Some (mkStat (dev_id f) (inode_num data) md 2 (uid vn) (gid vn) rd sz PAGE_SIZE
            (Z.quot (sz + PAGE_SIZE - 1) PAGE_SIZE) (times vn)).

Definition fstatat_impl (fd : Z) (path : list Z) (fl : Z) (s : Ns) : option (Z * option stat * Ns) :=
  '(r, s1) ← get_vnode_from_dirfd_path fd path fl s;
  match r with
  | inl err => Some (err, None, s1)
  | inr v => vn ← vnodes s1 !! v; st ← stat_vnode vn s1; Some (0, Some st, s1)
  end.

Definition faccessat2_impl (dirfd : Z) (path : list Z) (fl : Z) (s : Ns) : option (Z * Ns) :=
  '(r, _, s1) ← fstatat_impl dirfd path (Z.land fl (Z.lor AT_EMPTY_PATH AT_SYMLINK_NOFOLLOW)) s; Some (r, s1).

Definition fchownat_impl (fd : Z) (path : list Z) (owner group fl : Z) (s : Ns) : option (Z * Ns) :=
  '(r, s1) ← get_vnode_from_dirfd_path fd path fl s;
  match r with
  | inl err => Some (err, s1)
  | inr v =>
      _ ← vnodes s1 !! v;
      Some (0, upd_vnode v (fun d => mkVNode (node_type d) (fs d) (fs_mounted_here d) (fs_data d) (times d)
                                       (if owner =? no_id then uid d else owner)
                                       (if group =? no_id then gid d else group) (mode d) (rdev d)) s1)
  end.

Definition fchmodat2_impl (fd : Z) (path : list Z) (md fl : Z) (s : Ns) : option (Z * Ns) :=
  '(r, s1) ← get_vnode_from_dirfd_path fd path fl s;
  match r with
  | inl err => Some (err, s1)
  | inr v =>
      _ ← vnodes s1 !! v;
      Some (0, upd_vnode v (fun d => mkVNode (node_type d) (fs d) (fs_mounted_here d) (fs_data d) (times d)
                                       (uid d) (gid d) md (rdev d)) s1)
  end.

(** [tmpfs::Driver::mount]: a new file system whose root is the mount point. *)
Definition tmpfs_mount (mount_entry : Z) (s : Ns) : option (Z * Ns) :=
  let f := next_addr s in
  let s1 := mkNs (entries s) (vnodes s) (<[f := mkFilesystem 2 (non_device_dev_id s) mount_entry]> (filesystems s))
              (f + 16) (non_device_dev_id s + 1) (ns_fds s) (desc_entry s) (cwd s) (umask s) (euid s) (egid s)
              (realtime s) in
  s2 ← fs_create f mount_entry DIRECTORY s1;
  v ← vnode_of mount_entry s2;
  Some (f, upd_vnode v (fun d => mkVNode (node_type d) (fs d) f (fs_data d) (times d) (uid d) (gid d) (mode d) (rdev d)) s2).

Definition syscall_mount (target fs_type : list Z) (s : Ns) : option (Z * Ns) :=
  if bool_decide (target = str "/") then Some (- ENOSYS, s)
  else if negb (bool_decide (fs_type = str "tmpfs")) then Some (- ENODEV, s)
  else
    '(e, s1) ← path_to_entry fuel target (cwd s) true s;
    v ← vnode_of e s1;
    if v =? 0 then Some (- ENOENT, s1)
    else
      vn ← vnodes s1 !! v;
      if negb (bool_decide (node_type vn = DIRECTORY)) then Some (- ENOTDIR, s1)
      else ('(_, s2) ← tmpfs_mount e s1; Some (0, s2)).

(** [create_node] of the device registry: the vnode of a device number. *)
Context (create_device_node : Z -> bool).

Definition S_IFREG : Z := 32768.
Definition S_IFCHR : Z := 8192.
Definition S_IFBLK : Z := 24576.
Definition S_IFIFO : Z := 4096.

(** The vnode [mknod] makes before [create], if any: its type and device. *)
Definition mknod_vnode (requested_type dev : Z) : option (NodeType * option VNode) :=
  if (requested_type =? 0) || (requested_type =? S_IFREG) then Some (REGULAR, None)
  else if requested_type =? S_IFCHR then
    if create_device_node dev then Some (CHAR_DEVICE, Some (mkVNode CHAR_DEVICE 0 0 None 0 no_id no_id 0 dev)) else None
  else if requested_type =? S_IFBLK then
    if create_device_node dev then Some (BLOCK_DEVICE, Some (mkVNode BLOCK_DEVICE 0 0 None 0 no_id no_id 0 dev)) else None
  else if requested_type =? S_IFIFO then Some (FIFO, Some (mkVNode FIFO 0 0 None 0 no_id no_id 0 0))
  else None.

Definition mknodat_impl (dirfd : Z) (path : list Z) (md dev : Z) (s : Ns) : option (Z * Ns) :=
  '(r, s1) ← resolve dirfd path true s;
  match r with
  | inl err => Some (err, s1)
  | inr e =>
      d ← entries s1 !! e;
      if negb (e_vnode d =? 0) then Some (- EEXIST, s1)
      else if parent d =? 0 then Some (- ENOENT, s1)
      else
        match mknod_vnode (Z.land md MODE_TYPE_MASK) dev with
        | None => Some (- EINVAL, s1)
        | Some (t, ov) =>
            let s2 := match ov with
                      | None => s1
                      | Some vn =>
                          let v := next_addr s1 in
                          set_next (v + 16) (upd_entry e (with_vnode v) (set_vnodes (<[v := vn]> (vnodes s1)) s1))
                      end in
            s3 ← Entry_create e t (euid s2) (egid s2) (Z.land (Z.ldiff (Z.ldiff md MODE_TYPE_MASK) (umask s2)) 511) s2;
            Some (0, s3)
        end
  end.

Definition syscall_truncate (path : list Z) (length : Z) (s : Ns) : option (Z * Ns) :=
  if length <? 0 then Some (- EINVAL, s)
  else
    '(e, s1) ← path_to_entry fuel path (cwd s) true s;
    v ← vnode_of e s1;
    if v =? 0 then Some (- ENOENT, s1) else truncate_vnode v length s1.

Definition syscall_ftruncate (fd length : Z) (s : Ns) : option (Z * Ns) :=
  if length <? 0 then Some (- EINVAL, s)
  else match lookup_description fd s with
       | None => Some (- EBADF, s)
       | Some (_, d) => truncate_vnode (vnode d) length s
       end.

(** [statfs]: the file system of a path, null when its vnode has none. *)
Definition statfs_vnode (v : Z) (s : Ns) : option (Z + Filesystem) :=
  vn ← vnodes s !! v;
  let f := if fs_mounted_here vn =? 0 then fs vn else fs_mounted_here vn in
  if f =? 0 then Some (inl (- ENOSYS)) else (fd ← filesystems s !! f; Some (inr fd)).

Definition syscall_statfs (path : list Z) (s : Ns) : option ((Z + Filesystem) * Ns) :=
  '(e, s1) ← path_to_entry fuel path (cwd s) true s;
  v ← vnode_of e s1;
  if v =? 0 then Some (inl (- ENOENT), s1) else (r ← statfs_vnode v s1; Some (r, s1)).

End Calls.

(** [vfs::init] with the root mounted, for a process at the root. *)
Definition ns_init (f : FdState) (u g um clock : Z) : option Ns :=
  let e nm := mkEntry 0 0 0 [] true (hash nm) nm in
  let s0 := mkNs (<[ROOT := e []]> (<[NULL_ENTRY := e []]> ∅)) ∅ ∅ 48 1 f ∅ ROOT um u g clock in
  '(_, s1) ← tmpfs_mount ROOT s0;
  v ← vnode_of ROOT s1;
  let '(dot, s2) := Entry_construct v ROOT (str ".") ROOT s1 in
  let s3 := add_child ROOT dot s2 in
  let '(dotdot, s4) := Entry_construct v ROOT (str "..") ROOT s3 in
  let s5 := add_child ROOT dotdot s4 in
  Some (upd_vnode v (fun d => mkVNode (node_type d) (fs d) (fs_mounted_here d) (fs_data d) (times d) 0 0 493 (rdev d)) s5).

(** ** Resolution of plain paths *)

(** A component of a path: no slash, no zero, not empty. *)
Definition plain (n : list Z) : Prop := n <> [] /\ SLASH ∉ n /\ 0 ∉ n.

Definition is_dir (d : Z) (s : Ns) : Prop := exists v, entry_vnode d s = Some v /\ node_type v = DIRECTORY.

(** From directory [d], the names lead through directories to the existing
    entry [t]. *)
Inductive leads (s : Ns) (follow : bool) : Z -> list (list Z) -> Z -> Prop :=
| LeadsLast d n t v a : is_dir d s -> plain n -> find_child d n s = Some t ->
    vnode_of t s = Some a -> a <> 0 -> vnodes s !! a = Some v -> (follow = true -> node_type v <> SYMLINK) ->
    leads s follow d [n] t
| LeadsStep d n e a d' ns t : is_dir d s -> plain n -> find_child d n s = Some e ->
    vnode_of e s = Some a -> a <> 0 -> is_dir e s -> reduce reduce_fuel e s = Some d' ->
    leads s follow d' ns t -> leads s follow d (n :: ns) t.

Fixpoint join (ns : list (list Z)) : list Z :=
  match ns with
  | [] => []
  | [n] => n
  | n :: ns' => n ++ SLASH :: join ns'
  end.

Lemma strchr_none c l : c ∉ l -> strchr c l = None.
Proof.
  induction l as [|x l IH]; [done|]. rewrite not_elem_of_cons. intros [H1 H2]. simpl.
  destruct (Z.eqb_spec x c); [congruence|]. by rewrite IH.
Qed.

Lemma strchr_app c n l : c ∉ n -> strchr c (n ++ c :: l) = Some (Z.of_nat (length n)).
Proof.
  induction n as [|x n IH]; simpl; [by rewrite Z.eqb_refl|].
  rewrite not_elem_of_cons. intros [H1 H2]. destruct (Z.eqb_spec x c); [congruence|].
  rewrite IH by done. simpl. f_equal. lia.
Qed.

Lemma component_last n b :
  plain n -> component (n ++ (if b : bool then [SLASH] else [])) (Z.of_nat (length (n ++ if b then [SLASH] else [])))
             = Some (Z.of_nat (length n), true).
Proof.
  intros (Hne & Hs & _). unfold component. destruct b.
  - rewrite strchr_app by done. rewrite length_app; simpl.
    destruct (Z.eqb_spec (Z.of_nat (length n)) (Z.of_nat (length n + 1) - 1)); [done|lia].
  - rewrite app_nil_r, strchr_none by done. done.
Qed.

Lemma component_step n l :
  plain n -> l <> [] -> component (n ++ SLASH :: l) (Z.of_nat (length (n ++ SLASH :: l))) = Some (Z.of_nat (length n), false).
Proof.
  intros (Hne & Hs & _) Hl. unfold component. rewrite strchr_app by done. rewrite length_app; simpl.
  destruct l as [|x l]; [done|]. simpl.
  destruct (Z.eqb_spec (Z.of_nat (length n)) (Z.of_nat (length n + S (S (length l))) - 1)); [lia|].
  destruct n; [done|]. simpl. done.
Qed.

Lemma leads_nonempty s follow d ns t : leads s follow d ns t -> join ns <> [].
Proof.
  intros H. inversion H as [? n ? ? ? _ (Hn & _)|? n ? ? ? ns' ? _ (Hn & _)]; subst; [done|].
  destruct ns'; simpl; [done|]. by destruct n.
Qed.

Lemma lookup_existing d n s e :
  find_child d n s = Some e -> lookup_child d n s = Some (e, s).
Proof.
  intros H. unfold lookup_child. unfold find_child in H. destruct (entries s !! d) eqn:Hd; [|done]. simpl in *.
  unfold find_child. rewrite Hd. simpl. by rewrite H.
Qed.

Lemma take_component (n l : list Z) : take (Z.to_nat (Z.of_nat (length n))) (n ++ l) = n.
Proof. by rewrite Nat2Z.id, take_app_length. Qed.

(** One directory on the way. *)
Lemma walk_one fuel s follow d n e a d' l :
  is_dir d s -> plain n -> find_child d n s = Some e -> vnode_of e s = Some a -> a <> 0 ->
  is_dir e s -> reduce reduce_fuel e s = Some d' -> l <> [] ->
  path_walk (S fuel) (n ++ SLASH :: l) (Z.of_nat (length (n ++ SLASH :: l))) d follow s
  = path_walk fuel l (Z.of_nat (length l)) d' follow s.
Proof.
  intros [cv [Hcv Hdir]] Hn Hc Ha Hna [nv [Hnv Hnd]] Hr Hl. cbn [path_walk].
  rewrite Hcv; cbn [mbind option_bind]; rewrite Hdir; rewrite bool_decide_true by done; cbn [negb].
  rewrite component_step by done.
  rewrite take_component, (lookup_existing _ _ _ _ Hc). cbn [mbind option_bind]. rewrite Ha. cbn [mbind option_bind].
  destruct (Z.eqb_spec a 0); [done|].
  assert (Hva : vnodes s !! a = Some nv) by (unfold entry_vnode in Hnv; rewrite Ha in Hnv; done).
  rewrite Hva. cbn [mbind option_bind negb orb andb]. rewrite bool_decide_false by congruence.
  rewrite Hr. cbn [mbind option_bind].
  replace (Z.to_nat (Z.of_nat (length n) + 1)) with (length (n ++ [SLASH])) by (rewrite length_app; simpl; lia).
  change (n ++ SLASH :: l) with (n ++ [SLASH] ++ l). rewrite (app_assoc n), drop_app_length.
  f_equal. rewrite !length_app; simpl; lia.
Qed.

Lemma join_cons n ns : ns <> [] -> join (n :: ns) = n ++ SLASH :: join ns.
Proof. by destruct ns. Qed.

Lemma walk_leads fuel s follow d ns t (b : bool) :
  leads s follow d ns t -> (length ns <= fuel)%nat ->
  let path := join ns ++ if b then [SLASH] else [] in
  path_walk fuel path (Z.of_nat (length path)) d follow s = Some (t, s).
Proof.
  intros H. revert fuel. induction H as
    [d n t v a [cv [Hcv Hdir]] Hn Hc Ha Hna Hv Hsym | d n e a d' ns t Hd Hn Hc Ha Hna He Hr H IH];
    intros fuel Hf; destruct fuel as [|fuel]; simpl length in Hf; try lia.
  - cbn [path_walk join].
    rewrite Hcv; cbn [mbind option_bind]; rewrite Hdir; rewrite bool_decide_true by done; cbn [negb].
    rewrite component_last, take_component by done. rewrite (lookup_existing _ _ _ _ Hc). cbn [mbind option_bind].
    rewrite Ha. cbn [mbind option_bind]. destruct (Z.eqb_spec a 0); [done|]. rewrite Hv. cbn [mbind option_bind negb orb].
    destruct follow; cbn [andb]; [|done]. by rewrite bool_decide_false by auto.
  - rewrite join_cons by (by inversion H). rewrite <- app_assoc. cbn [app].
    rewrite (walk_one fuel s follow d n e a d'); [apply IH; lia|done..|].
    apply leads_nonempty in H. by destruct (join ns).
Qed.

(** C12: a path of plain names, absolute or relative to a directory, with or
    without a trailing slash, resolves to the entry its names lead to from
    where it starts, and resolving it changes nothing. *)
Theorem path_resolves fuel s follow start ns t (absolute trailing : bool) :
  let d := if absolute then Some ROOT else if start =? 0 then None else reduce reduce_fuel start s in
  (forall d', d = Some d' -> leads s follow d' ns t) -> is_Some d -> (length ns <= fuel)%nat ->
  path_to_entry fuel ((if absolute then [SLASH] else []) ++ join ns ++ if trailing then [SLASH] else [])
    start follow s = Some (t, s).
Proof.
  intros d Hl [d' Hd] Hf. specialize (Hl d' Hd). pose proof (leads_nonempty _ _ _ _ _ Hl) as Hne.
  unfold path_to_entry, path_start. destruct absolute; cbn [app].
  - rewrite Z.eqb_refl. rewrite bool_decide_false by (by destruct (join ns)). cbn [mbind option_bind].
    injection Hd as <-. simpl length. replace (Z.of_nat (S _) - 1) with
      (Z.of_nat (length (join ns ++ if trailing then [SLASH] else []))) by lia.
    by apply walk_leads.
  - assert (exists c l, join ns ++ (if trailing then [SLASH] else []) = c :: l /\ c <> SLASH) as (c & l & Hj & Hc).
    { inversion Hl as [? n ? ? ? _ (Hn & Hs & _)|? n ? ? ? ns' ? _ (Hn & Hs & _)]; subst;
        destruct n as [|c n]; try done; rewrite not_elem_of_cons in Hs;
        [|destruct ns']; eexists c, _; (split; [reflexivity|naive_solver]). }
    rewrite Hj. destruct (Z.eqb_spec c SLASH); [done|]. subst d. destruct (start =? 0); [done|].
    rewrite Hd. cbn [mbind option_bind]. rewrite <- Hj. by apply walk_leads.
Qed.

(** ** Creation *)

(** Addresses from [next_addr] on are unused, and children are entries. *)
Record ns_fresh (s : Ns) : Prop := {
  nf_pos : 0 < next_addr s;
  nf_entries : forall a, next_addr s <= a -> entries s !! a = None;
  nf_vnodes : forall a, next_addr s <= a -> vnodes s !! a = None;
  nf_children : forall d x c, entries s !! d = Some x -> c ∈ children x -> is_Some (entries s !! c)
}.

Lemma fresh_ne s a : ns_fresh s -> is_Some (entries s !! a) -> a <> next_addr s.
Proof. intros [] [x Hx] ->. by rewrite nf_entries0 in Hx. Qed.

Definition matches (s : Ns) (n : list Z) (c : Z) : bool :=
  match entries s !! c with
  | Some child => (name_hash child =? hash n) && bool_decide (name child = n)
  | None => false
  end.

Lemma find_ext {A} (f g : A -> bool) l : (forall x, x ∈ l -> f x = g x) -> List.find f l = List.find g l.
Proof.
  induction l as [|x l IH]; [done|]. intros H. simpl. rewrite (H x) by (by left).
  destruct (g x); [done|]. apply IH. intros y Hy. apply H. by right.
Qed.

(** The entry a lookup adds for a name that is not there. *)
Definition new_entry (v p : Z) (n : list Z) : Entry := mkEntry v p 0 [] true (hash n) n.
Definition adopt (e : Z) (d : Entry) : Entry := with_children (e :: children d) d.

(** Only the name [n] of directory [p] can be found differently. *)
Definition same_but (p : Z) (n : list Z) (s s' : Ns) : Prop :=
  forall d m, is_Some (entries s !! d) -> d <> p \/ m <> n -> find_child d m s' = find_child d m s.

Lemma find_child_grown s s' p pd n v :
  ns_fresh s -> entries s !! p = Some pd ->
  entries s' = <[next_addr s := new_entry v p n]> (<[p := adopt (next_addr s) pd]> (entries s)) ->
  find_child p n s' = Some (next_addr s) /\ same_but p n s s'.
Proof.
  intros Hf Hp Hs'. pose proof Hf as []. pose proof (fresh_ne s) as Hne0. set (e := next_addr s) in *.
  assert (Hpe : p <> e) by eauto.
  assert (Hsame : forall c m, is_Some (entries s !! c) -> matches s' m c = matches s m c).
  { intros c m Hc. unfold matches. rewrite Hs'.
    assert (c <> e) by eauto.
    rewrite lookup_insert_ne by done. destruct (decide (c = p)) as [->|]; [|by rewrite lookup_insert_ne by done].
    by rewrite lookup_insert_eq, Hp. }
  assert (Hme : forall m, matches s' m e = bool_decide (n = m)).
  { intros m. unfold matches. rewrite Hs', lookup_insert_eq. simpl.
    case_bool_decide; [subst; by rewrite Z.eqb_refl|apply andb_false_r]. }
  split.
  - unfold find_child. rewrite Hs', lookup_insert_ne, lookup_insert_eq by done. rewrite <- Hs'. simpl.
    fold (matches s' n e). by rewrite Hme, bool_decide_true.
  - intros d m Hd Hne. unfold find_child. rewrite Hs'.
    assert (d <> e) by eauto.
    rewrite lookup_insert_ne by done. rewrite <- Hs'. destruct (decide (d = p)) as [->|Hdp].
    + rewrite lookup_insert_eq, Hp. simpl. fold (matches s' m e). rewrite Hme, bool_decide_false by naive_solver.
      apply find_ext. intros c Hc. apply (Hsame c m). eauto.
    + rewrite lookup_insert_ne by done. destruct (entries s !! d) as [x|] eqn:Hx; [|done]. simpl.
      apply find_ext. intros c Hc. apply (Hsame c m). eauto.
Qed.

(** A directory entry of a file system, not a redirection. *)
Definition dir_on (s : Ns) (p f : Z) : Prop :=
  (exists pd, entries s !! p = Some pd /\ redirect pd = 0) /\ is_dir p s /\
  fs_below p s = Some f /\ is_Some (filesystems s !! f).

(** The state after the miss. *)
Definition missed (p : Z) (pd : Entry) (n : list Z) (s : Ns) : Ns :=
  set_next (next_addr s + 16)
    (set_entries (<[next_addr s := new_entry 0 p n]> (<[p := adopt (next_addr s) pd]> (entries s))) s).

Lemma lookup_missing s p pd f n :
  ns_fresh s -> entries s !! p = Some pd -> redirect pd = 0 ->
  fs_below p s = Some f -> is_Some (filesystems s !! f) -> find_child p n s = None ->
  lookup_child p n s = Some (next_addr s, missed p pd n s).
Proof.
  intros Hf Hp Hr Hfs [fd Hfd] Hno. pose proof Hf as []. pose proof (fresh_ne s) as Hne0. set (e := next_addr s) in *.
  assert (Hpe : p <> e) by eauto.
  unfold lookup_child. rewrite Hp, Hno. cbn [mbind option_bind Entry_construct]. fold e.
  set (s1 := set_next _ _).
  assert (He1 : entries s1 = <[e := new_entry 0 p n]> (entries s)) by done.
  assert (Hfs1 : fs_below p s1 = Some f).
  { rewrite <- Hfs. unfold fs_below, entry_vnode, vnode_of. rewrite He1, lookup_insert_ne by done. done. }
  unfold Entry_lookup. rewrite He1, lookup_insert_eq. cbn [mbind option_bind new_entry parent name]. rewrite Hfs1.
  cbn [mbind option_bind]. change (filesystems s1) with (filesystems s). rewrite Hfd. cbn [mbind option_bind].
  assert (Hred : reduce reduce_fuel p s1 = Some p).
  { unfold reduce_fuel. cbn [reduce]. rewrite He1, lookup_insert_ne, Hp by done. cbn [mbind option_bind]. by rewrite Hr. }
  rewrite Hred. cbn [mbind option_bind].
  assert (Hno1 : find_child p n s1 = None).
  { rewrite <- Hno. unfold find_child. rewrite He1, lookup_insert_ne, Hp by done. simpl. apply find_ext.
    intros c Hc. rewrite lookup_insert_ne; [done|]. apply not_eq_sym. eauto. }
  rewrite Hno1.
  assert (HM : alter (with_linked true) e (alter (fun d => with_children (e :: children d) d) p (<[e := new_entry 0 p n]> (entries s)))
    = <[e := new_entry 0 p n]> (<[p := adopt e pd]> (entries s))).
  { apply map_eq. intros a. destruct (decide (a = e)) as [->|Hae].
    - by rewrite lookup_alter_eq, lookup_alter_ne, !lookup_insert_eq by done.
    - rewrite lookup_alter_ne, (lookup_insert_ne (<[p:=_]> _)) by done. destruct (decide (a = p)) as [->|Hap].
      + by rewrite lookup_alter_eq, lookup_insert_ne, lookup_insert_eq, Hp by done.
      + by rewrite lookup_alter_ne, !lookup_insert_ne by done. }
  unfold missed, add_child, upd_entry, s1, set_next, set_entries. cbn [entries vnodes filesystems next_addr
    non_device_dev_id ns_fds desc_entry cwd umask euid egid realtime].
  fold e. fold (new_entry 0 p n). by rewrite HM.
Qed.

(** From directory [d], the names lead to directory [p]. *)
Inductive chain (s : Ns) : Z -> list (list Z) -> Z -> Prop :=
| ChainNil p : chain s p [] p
| ChainStep d n e a d' ns p : is_dir d s -> plain n -> find_child d n s = Some e ->
    vnode_of e s = Some a -> a <> 0 -> is_dir e s -> reduce reduce_fuel e s = Some d' ->
    chain s d' ns p -> chain s d (n :: ns) p.

Lemma join_snoc_nonempty ns n : plain n -> join (ns ++ [n]) <> [].
Proof.
  intros (Hn & _). destruct ns as [|m ns]; [done|]. cbn [app]. rewrite join_cons by (by destruct ns). by destruct m.
Qed.

Lemma walk_missing fuel s follow d ns p pd f n :
  ns_fresh s -> chain s d ns p -> is_dir p s -> plain n ->
  entries s !! p = Some pd -> redirect pd = 0 -> fs_below p s = Some f -> is_Some (filesystems s !! f) ->
  find_child p n s = None -> (length ns < fuel)%nat ->
  path_walk fuel (join (ns ++ [n])) (Z.of_nat (length (join (ns ++ [n])))) d follow s
  = Some (next_addr s, missed p pd n s).
Proof.
  intros Hfr H [cv [Hcv Hdir]] Hn Hp Hr Hf Hfs Hno. revert fuel.
  induction H as [p|d m e a d' ns p Hd Hm Hc Ha Hna He Hre H IH]; intros [|fuel] Hfu; simpl in Hfu; try lia.
  - pose proof (component_last n false Hn) as Hcomp. rewrite app_nil_r in Hcomp. cbn [app join path_walk].
    rewrite Hcv. cbn [mbind option_bind]. rewrite Hdir, bool_decide_true by done. cbn [negb]. rewrite Hcomp.
    rewrite Nat2Z.id, firstn_all, (lookup_missing s p pd f n) by done. cbn [mbind option_bind].
    unfold vnode_of, missed, set_next. cbn [entries set_entries]. by rewrite lookup_insert_eq.
  - cbn [app]. rewrite join_cons by (by destruct ns).
    rewrite (walk_one fuel s follow d m e a d'); [apply IH; auto; lia|done..|by apply join_snoc_nonempty].
Qed.

(** What [create] leaves of a missed entry. *)
Definition created_vnode (t : NodeType) (f ino : Z) (s : Ns) (u g m : Z) : VNode :=
  mkVNode t f 0 (Some (mkNodeData (bool_decide (t = DIRECTORY)) ino [] 0)) (realtime s) u g m 0.

Lemma create_missed s p pd f fd n u g m :
  ns_fresh s -> entries s !! p = Some pd -> fs_below p s = Some f -> filesystems s !! f = Some fd ->
  find_child p n s = None -> 0 <= m < 4096 ->
  let e := next_addr s in
  exists s', Entry_create e REGULAR u g m (missed p pd n s) = Some s' /\
    entries s' = <[e := new_entry (e + 16) p n]> (<[p := adopt e pd]> (entries s)) /\
    vnodes s' = <[e + 16 := created_vnode REGULAR f (last_inode_num fd) s u g m]> (vnodes s) /\
    ns_fds s' = ns_fds s /\ desc_entry s' = desc_entry s /\ next_addr s' = e + 32 /\ umask s' = umask s.
Proof.
  intros Hfr Hp Hf Hfd Hno Hm e. pose proof Hfr as [].
  assert (Hpe : p <> e) by (apply fresh_ne; eauto).
  set (s1 := missed p pd n s).
  assert (He1 : entries s1 = <[e := new_entry 0 p n]> (<[p := adopt e pd]> (entries s))) by done.
  assert (Hf1 : fs_below p s1 = Some f).
  { rewrite <- Hf. unfold fs_below, entry_vnode, vnode_of. rewrite He1, lookup_insert_ne, lookup_insert_eq, Hp by done. done. }
  unfold Entry_create. rewrite He1, lookup_insert_eq. cbn [mbind option_bind new_entry parent name].
  rewrite bool_decide_false by done. rewrite Hf1. cbn [mbind option_bind].
  unfold fs_create. change (filesystems s1) with (filesystems s). rewrite Hfd. cbn [mbind option_bind].
  assert (Hv1 : vnode_of e s1 = Some 0) by (unfold vnode_of; by rewrite He1, lookup_insert_eq).
  rewrite Hv1. cbn [mbind option_bind].
  rewrite bool_decide_false by done. cbn [Z.eqb andb]. change (next_addr s1) with (e + 16).
  set (s2 := set_next _ _). assert (Hv2 : vnodes s2 = <[e + 16 := mkVNode REGULAR 0 0 None 0 no_id no_id 0 0]> (vnodes s)) by done.
  assert (He2 : entries s2 = <[e := new_entry (e + 16) p n]> (<[p := adopt e pd]> (entries s))).
  { change (entries s2) with (alter (with_vnode (e + 16)) e (entries s1)). rewrite He1. apply map_eq. intros a.
    destruct (decide (a = e)) as [->|]; [by rewrite lookup_alter_eq, !lookup_insert_eq|].
    by rewrite lookup_alter_ne, !(lookup_insert_ne _ e) by done. }
  rewrite Hv2, lookup_insert_eq. cbn [mbind option_bind node_type].
  match goal with |- context [set_filesystems ?a ?b] => set (s3 := set_filesystems a b) end.
  assert (He3 : entries s3 = entries s2) by done.
  assert (Hv3 : vnodes s3 = <[e + 16 := created_vnode REGULAR f (last_inode_num fd) s no_id no_id 0]> (vnodes s)).
  { unfold s3. cbn [set_filesystems upd_vnode set_vnodes vnodes]. rewrite Hv2, alter_insert_eq. done. }
  rewrite He3, He2, lookup_insert_ne, lookup_insert_eq by done. cbn [mbind option_bind].
  destruct (find_child_grown s s3 p pd n (e + 16) Hfr Hp) as [Hfc _]; [by rewrite He3, He2|]. rewrite Hfc. cbn zeta.
  assert (Hve : vnode_of e s3 = Some (e + 16)) by (unfold vnode_of; by rewrite He3, He2, lookup_insert_eq).
  rewrite Hve. cbn [mbind option_bind].
  destruct (Z.eqb_spec (e + 16) 0); [lia|]. rewrite Hv3, lookup_insert_eq. cbn [mbind option_bind created_vnode node_type].
  rewrite bool_decide_false by done. eexists. split; [reflexivity|].
  split; [by rewrite <- He2|]. split; [|do 2 (split; [done|]); split; [|done]; cbn; unfold e; lia].
  cbn [upd_vnode set_vnodes vnodes]. rewrite Hv3, alter_insert_eq. f_equal. unfold set_owner, created_vnode. simpl.
  unfold no_id in *. destruct (Z.eqb_spec m 4294967295); [lia|].
  by destruct (Z.eqb_spec u 4294967295) as [->|], (Z.eqb_spec g 4294967295) as [->|].
Qed.

(** C13: opening a missing name of an existing directory with O_CREAT creates
    an empty regular file there, owned by the caller and with the mode the
    umask leaves, under exactly that name, and returns a descriptor of it. *)
Theorem openat_creates `{!Realloc} fuel vnode_open s start ns p pd f fd n fl md :
  ns_fresh s -> reduce reduce_fuel (cwd s) s = Some start -> cwd s <> 0 ->
  chain s start ns p -> is_dir p s -> plain n -> head (join (ns ++ [n])) <> Some SLASH ->
  entries s !! p = Some pd -> redirect pd = 0 -> fs_below p s = Some f -> filesystems s !! f = Some fd ->
  p <> 0 -> find_child p n s = None -> (length ns < fuel)%nat ->
  has fl O_CREAT = true -> 0 <= md < 4096 -> vnode_open (next_addr s + 16) (Z.ldiff fl O_CLOEXEC) = 0 ->
  exists r s', syscall_open fuel vnode_open (join (ns ++ [n])) fl md s = Some (r, s') /\
    find_child p n s' = Some (next_addr s) /\
    entry_vnode (next_addr s) s'
      = Some (created_vnode REGULAR f (last_inode_num fd) s (euid s) (egid s) (Z.ldiff md (umask s))) /\
    same_but p n s s' /\
    r = fst (install_fd (next_addr s + 32) (next_addr s + 16) (Z.ldiff fl O_CLOEXEC) (has fl O_CLOEXEC) (ns_fds s)) /\
    desc_entry s' !! (next_addr s + 32) = Some (next_addr s).
Proof.
  intros Hfr Hst Hcwd Hch Hdir Hn Hrel Hp Hr Hf Hfd Hp0 Hno Hfu Hcr Hmd Hopen.
  unfold syscall_open, openat_impl, resolve. unfold get_starting_point.
  rewrite bool_decide_false by done. rewrite Z.eqb_refl. cbn [mbind option_bind].
  assert (Hpath : path_to_entry fuel (join (ns ++ [n])) (cwd s) (negb (has fl O_NOFOLLOW)) s
    = Some (next_addr s, missed p pd n s)).
  { unfold path_to_entry, path_start. pose proof (join_snoc_nonempty ns n Hn) as Hne.
    pose proof (walk_missing fuel s (negb (has fl O_NOFOLLOW)) start ns p pd f n Hfr Hch Hdir Hn Hp Hr Hf
      ltac:(by exists fd) Hno Hfu) as Hw.
    destruct (join (ns ++ [n])) as [|c l]; [done|]. destruct (Z.eqb_spec c SLASH) as [->|]; [done|].
    destruct (Z.eqb_spec (cwd s) 0); [done|]. rewrite Hst. exact Hw. }
  assert (Hme : entries (missed p pd n s) !! next_addr s = Some (new_entry 0 p n)) by apply lookup_insert_eq.
  rewrite Hpath. cbn [mbind option_bind]. rewrite Hme. cbn [mbind option_bind new_entry e_vnode parent Z.eqb]. rewrite Hcr. cbn [negb].
  destruct (Z.eqb_spec p 0); [done|].
  destruct (create_missed s p pd f fd n (euid s) (egid s) (Z.ldiff md (umask s)) Hfr Hp Hf Hfd Hno)
    as (s2 & Hc & He2 & Hv2 & Hfd2 & Hde2 & Hna2 & Hum2).
  { assert (0 <= Z.ldiff md (umask s)) by (apply Z.ldiff_nonneg; lia). split; [done|].
    apply Z.le_lt_trans with md; [|lia]. apply Z.ldiff_le; [lia|]. apply Z.bits_inj'. intros i Hi.
    rewrite !Z.ldiff_spec, Z.bits_0 by done. by destruct (Z.testbit md i), (Z.testbit (umask s) i). }
  change (euid (missed p pd n s)) with (euid s). change (egid (missed p pd n s)) with (egid s).
  change (umask (missed p pd n s)) with (umask s). rewrite Hc. cbn [mbind option_bind].
  assert (Hve : vnode_of (next_addr s) s2 = Some (next_addr s + 16))
    by (unfold vnode_of; by rewrite He2, lookup_insert_eq).
  rewrite Hve. cbn [mbind option_bind]. rewrite Hopen. cbn [Z.eqb negb].
  unfold install_entry. rewrite Hna2, Hfd2.
  destruct (install_fd _ _ _ _ _) as [r f'] eqn:Hi. eexists r, _. split; [reflexivity|].
  destruct (find_child_grown s s2 p pd n _ Hfr Hp He2) as [Hfc Hsame].
  split; [exact Hfc|]. split; [|split; [exact Hsame|split; [done|]]].
  - unfold entry_vnode. change (vnode_of (next_addr s) _) with (vnode_of (next_addr s) s2). rewrite Hve.
    cbn [mbind option_bind]. change (vnodes _) with (vnodes s2). by rewrite Hv2, lookup_insert_eq.
  - cbn [desc_entry set_next set_ns_fds]. by rewrite lookup_insert_eq.
Qed.

(** renaming or linking to a path whose directory does not exist stops the
    kernel: the entry such a path resolves to has no parent, and only open,
    mkdir, mknod and symlink look. *)
Theorem rename_missing_directory_crashes `{!Realloc} fuel old_path new_path s old s1 s2 :
  resolve fuel AT_FDCWD old_path true s = Some (inr old, s1) ->
  (exists a, vnode_of old s1 = Some a /\ a <> 0) ->
  resolve fuel AT_FDCWD new_path true s1 = Some (inr NULL_ENTRY, s2) ->
  (exists ne, entries s2 !! NULL_ENTRY = Some ne /\ parent ne = 0 /\ e_vnode ne = 0) ->
  is_Some (entries s2 !! old) -> entries s2 !! 0 = None ->
  syscall_rename fuel old_path new_path s = None /\ linkat_impl fuel AT_FDCWD old_path AT_FDCWD new_path s = None.
Proof.
  intros H1 (a & Ha & Hna) H2 (ne & Hne & Hpar & Hnv) [oe Hoe] H0.
  assert (Hcrash : forall t u g m v, Entry_create NULL_ENTRY HARD_LINK u g m (upd_entry NULL_ENTRY (with_vnode v) s2)
      = t -> t = None).
  { intros t u g m v <-. unfold Entry_create, upd_entry. cbn [entries set_entries].
    rewrite lookup_alter_eq, Hne. cbn [fmap option_fmap option_map mbind option_bind]. rewrite bool_decide_true by done.
    cbn [with_vnode parent]. rewrite Hpar.
    cbn [mbind option_bind entries set_entries]. by rewrite lookup_alter_ne, H0. }
  assert (Hnv' : vnode_of NULL_ENTRY s2 = Some 0) by (unfold vnode_of; rewrite Hne; simpl; by rewrite Hnv).
  assert (Hov : vnode_of old s2 = Some (e_vnode oe)) by (unfold vnode_of; by rewrite Hoe).
  unfold syscall_rename, renameat_impl, linkat_impl. rewrite H1. cbn [mbind option_bind]. rewrite Ha.
  cbn [mbind option_bind]. destruct (Z.eqb_spec a 0); [done|]. rewrite H2. cbn [mbind option_bind].
  rewrite Hnv'. cbn [mbind option_bind Z.eqb negb]. split.
  - rewrite Hov. cbn [mbind option_bind]. by rewrite (Hcrash _ _ _ _ _ eq_refl).
  - by rewrite (Hcrash _ _ _ _ _ eq_refl).
Qed.

(** ** A concrete name space: /home and a process in it. *)
#[local] Existing Instance realloc_170.

Definition ns_example_fuel : nat := 20.
Definition ns_open (_ _ : Z) : Z := 0.
Definition ns_empty : Ns := mkNs ∅ ∅ ∅ 0 0 fd_example ∅ 0 0 0 0 0.
Definition run_ns (o : option (Z * Ns)) : Ns := match o with Some (_, s) => s | None => ns_empty end.
Definition ns_root : Ns :=
  match ns_init (mkFdState [] 0 0 ∅ [] ∅) 1000 1000 18 77 with Some s => s | None => ns_empty end.
Definition ns_home : Ns :=
  run_ns (syscall_chdir ns_example_fuel (str "home") (run_ns (syscall_mkdir ns_example_fuel (str "/home") 493 ns_root))).
Definition ns_file : Ns := run_ns (syscall_creat ns_example_fuel ns_open (str "notes") 420 ns_home).

(** Decidable checks of the hypotheses on a concrete state. *)
Definition fresh_check (s : Ns) : bool :=
  (0 <? next_addr s) &&
  bool_decide (map_Forall (fun a _ => a < next_addr s) (entries s)) &&
  bool_decide (map_Forall (fun a _ => a < next_addr s) (vnodes s)) &&
  bool_decide (map_Forall (fun _ x => Forall (fun c => is_Some (entries s !! c)) (children x)) (entries s)).

Lemma fresh_check_ok s : fresh_check s = true -> ns_fresh s.
Proof.
  unfold fresh_check. rewrite !andb_true_iff, !bool_decide_eq_true. intros [[[H1 H2] H3] H4]. constructor.
  - by apply Z.ltb_lt.
  - intros a Ha. destruct (entries s !! a) eqn:E; [|done]. specialize (H2 _ _ E). simpl in H2. lia.
  - intros a Ha. destruct (vnodes s !! a) eqn:E; [|done]. specialize (H3 _ _ E). simpl in H3. lia.
  - intros d x c Hd Hc. specialize (H4 _ _ Hd). simpl in H4. rewrite Forall_forall in H4. auto.
Qed.

Lemma is_dir_check d s :
  match entry_vnode d s with Some v => bool_decide (node_type v = DIRECTORY) | None => false end = true -> is_dir d s.
Proof. unfold is_dir. destruct (entry_vnode d s); [|done]. intros H%bool_decide_eq_true. eauto. Qed.

Lemma plain_check n : bool_decide (n <> [] /\ SLASH ∉ n /\ 0 ∉ n) = true -> plain n.
Proof. intros H%bool_decide_eq_true. exact H. Qed.

(** The entry of /home is its own first address. *)
Definition home_entry : Z := match find_child ROOT (str "home") ns_home with Some e => e | None => 0 end.
Definition notes_entry : Z := match find_child home_entry (str "notes") ns_file with Some e => e | None => 0 end.

Lemma path_resolves_witness :
  path_to_entry 2 (str "/home/notes/") 0 true ns_file = Some (notes_entry, ns_file).
Proof.
  apply (path_resolves 2 ns_file true 0 [str "home"; str "notes"] notes_entry true true).
  - intros d' [= <-]. eapply (LeadsStep _ _ _ _ home_entry); try (vm_compute; reflexivity).
    + apply is_dir_check. vm_compute. reflexivity.
    + apply plain_check. vm_compute. reflexivity.
    + vm_compute. discriminate.
    + apply is_dir_check. vm_compute. reflexivity.
    + eapply LeadsLast; try (vm_compute; reflexivity).
      * apply is_dir_check. vm_compute. reflexivity.
      * apply plain_check. vm_compute. reflexivity.
      * vm_compute. discriminate.
      * intros _. vm_compute. discriminate.
  - by exists ROOT.
  - simpl. lia.
Defined.

Lemma openat_creates_witness :
  exists r s', syscall_open ns_example_fuel ns_open (str "notes") 65 438 ns_home = Some (r, s') /\
    find_child home_entry (str "notes") s' = Some (next_addr ns_home) /\ same_but home_entry (str "notes") ns_home s'.
Proof.
  destruct (entries ns_home !! home_entry) as [pd|] eqn:Hp; [|vm_compute in Hp; discriminate].
  destruct (fs_below home_entry ns_home) as [f|] eqn:Hf; [|vm_compute in Hf; discriminate].
  destruct (filesystems ns_home !! f) as [fd|] eqn:Hfd.
  2:{ exfalso. vm_compute in Hf. injection Hf as <-. vm_compute in Hfd. discriminate. }
  destruct (openat_creates ns_example_fuel ns_open ns_home home_entry [] home_entry pd f fd (str "notes") 65 438)
    as (r & s' & H1 & H2 & _ & H4 & _).
  - apply fresh_check_ok. vm_compute. reflexivity.
  - vm_compute. reflexivity.
  - vm_compute. discriminate.
  - constructor.
  - apply is_dir_check. vm_compute. reflexivity.
  - apply plain_check. vm_compute. reflexivity.
  - vm_compute. discriminate.
  - exact Hp.
  - vm_compute in Hp. injection Hp as <-. reflexivity.
  - exact Hf.
  - exact Hfd.
  - vm_compute. discriminate.
  - vm_compute. reflexivity.
  - vm_compute. lia.
  - reflexivity.
  - lia.
  - reflexivity.
  - exists r, s'. split; [exact H1|]. split; [exact H2|exact H4].
Defined.

Lemma rename_missing_directory_crashes_witness :
  syscall_rename ns_example_fuel (str "/home/notes") (str "/nowhere/notes") ns_file = None /\
  linkat_impl ns_example_fuel AT_FDCWD (str "/home/notes") AT_FDCWD (str "/nowhere/notes") ns_file = None.
Proof.
  destruct (resolve ns_example_fuel AT_FDCWD (str "/nowhere/notes") true ns_file) as [[r s2]|] eqn:H2;
    [|vm_compute in H2; discriminate].
  assert (Hr : r = inr NULL_ENTRY) by (vm_compute in H2; injection H2 as <- _; reflexivity). subst r.
  apply (rename_missing_directory_crashes ns_example_fuel _ _ ns_file notes_entry ns_file s2).
  - vm_compute. reflexivity.
  - exists (match vnode_of notes_entry ns_file with Some a => a | None => 0 end). vm_compute. split; [reflexivity|discriminate].
  - exact H2.
  - vm_compute in H2. injection H2 as <-. eexists. split; [vm_compute; reflexivity|]. split; reflexivity.
  - vm_compute in H2. injection H2 as <-. vm_compute. eexists. reflexivity.
  - vm_compute in H2. injection H2 as <-. vm_compute. reflexivity.
Defined.
