(* ===== verification/Sched.v ===== *)
(** Threads, processes and the scheduler (src/kernel/src/sched/sched.cpp) and
    the events they sleep on (src/kernel/src/sched/event.cpp).

    Threads and processes are named by their identifiers, a process by that of
    its main thread.  [None] is a stopped kernel: a failed [ASSERT], a panic, or
    a list link inserted while it is still in a list. *)
From S2P Require Import Prelude Signal.

Inductive State : Type := READY | RUNNING | BLOCKED | STOPPED | ZOMBIE.

#[export] Instance State_eq_dec : EqDecision State.
Proof. solve_decision. Defined.

(** The events of processes and threads, and those of other objects. *)
Inductive EventId : Type :=
| zombie_event (pid : Z)
| stopped_event (pid : Z)
| continued_event (pid : Z)
| signal_event (tid : Z)
| signal_return_event (tid : Z)
| timer_event (n : Z)
| futex_event (phy_addr : Z)
| object_event (n : Z).

#[export] Instance EventId_eq_dec : EqDecision EventId.
Proof. solve_decision. Defined.
#[export] Instance EventId_countable : Countable EventId.
Proof.
  refine (inj_countable'
    (fun e => match e with zombie_event p => (0, p) | stopped_event p => (1, p) | continued_event p => (2, p)
                         | signal_event p => (3, p) | object_event p => (4, p) | signal_return_event p => (5, p)
                         | timer_event p => (6, p) | futex_event p => (7, p) end)
    (fun p => match p with (0, p) => zombie_event p | (1, p) => stopped_event p | (2, p) => continued_event p
                         | (3, p) => signal_event p | (5, p) => signal_return_event p | (6, p) => timer_event p
                         | (7, p) => futex_event p | (_, p) => object_event p end) _).
  by intros [].
Defined.

(** An event with its listeners: the thread and the index it waits under. *)
Record Event : Type := mkEvent {
  pending : Z;
  listener_list : list (Z * Z)
}.
Definition new_event : Event := mkEvent 0 [].
Definition num_listeners (e : Event) : Z := Z.of_nat (length (listener_list e)).

Record SThread : Type := mkSThread {
  process : Z;
  state : State;
  enqueued_by_signal : Z;
  which_event : Z;
  pending_signals : Z;
  signal_mask : Z;
  listeners : list EventId;
  entering_signal : bool;
  exiting_signal : bool;
  is_user : bool;
  clear_child_tid : Z;
  set_child_tid : Z
}.

Record SProcess : Type := mkSProcess {
  thread_list : list Z;
  num_living_threads : Z;
  parent : Z;
  children_list : list Z;
  wait_status : Z;
  wait_code : Z;
  is_zombie : bool;
  sigchld_flags : Z;
  group : Z;
  umask : Z
}.

Record Sched : Type := mkSched {
  threads : gmap Z SThread;
  processes : gmap Z SProcess;
  groups : gmap Z (list Z);
  events : gmap EventId Event;
  run_list : list Z;
  running_thread : Z;
  thread_table : list bool;
  first_free_tid : Z
}.

Definition IDLE : Z := 0.
Definition INIT : Z := 1.
Definition CLD_EXITED : Z := 1.
Definition CLD_KILLED : Z := 2.
Definition CLD_STOPPED : Z := 5.
Definition CLD_CONTINUED : Z := 6.

Definition set_threads (m : gmap Z SThread) (s : Sched) : Sched :=
  mkSched m (processes s) (groups s) (events s) (run_list s) (running_thread s) (thread_table s) (first_free_tid s).
Definition set_processes (m : gmap Z SProcess) (s : Sched) : Sched :=
  mkSched (threads s) m (groups s) (events s) (run_list s) (running_thread s) (thread_table s) (first_free_tid s).
Definition set_groups (m : gmap Z (list Z)) (s : Sched) : Sched :=
  mkSched (threads s) (processes s) m (events s) (run_list s) (running_thread s) (thread_table s) (first_free_tid s).
Definition set_events (m : gmap EventId Event) (s : Sched) : Sched :=
  mkSched (threads s) (processes s) (groups s) m (run_list s) (running_thread s) (thread_table s) (first_free_tid s).
Definition set_run_list (l : list Z) (s : Sched) : Sched :=
  mkSched (threads s) (processes s) (groups s) (events s) l (running_thread s) (thread_table s) (first_free_tid s).
Definition set_running (t : Z) (s : Sched) : Sched :=
  mkSched (threads s) (processes s) (groups s) (events s) (run_list s) t (thread_table s) (first_free_tid s).

Definition upd_thread (t : Z) (f : SThread -> SThread) (s : Sched) : Sched := set_threads (alter f t (threads s)) s.
Definition upd_process (p : Z) (f : SProcess -> SProcess) (s : Sched) : Sched := set_processes (alter f p (processes s)) s.

Definition with_state (st : State) (t : SThread) : SThread :=
  mkSThread (process t) st (enqueued_by_signal t) (which_event t) (pending_signals t) (signal_mask t) (listeners t)
    (entering_signal t) (exiting_signal t) (is_user t) (clear_child_tid t) (set_child_tid t).
Definition with_enqueued (sg : Z) (st : State) (t : SThread) : SThread :=
  mkSThread (process t) st sg (which_event t) (pending_signals t) (signal_mask t) (listeners t)
    (entering_signal t) (exiting_signal t) (is_user t) (clear_child_tid t) (set_child_tid t).
Definition with_which (w : Z) (t : SThread) : SThread :=
  mkSThread (process t) (state t) (enqueued_by_signal t) w (pending_signals t) (signal_mask t) (listeners t)
    (entering_signal t) (exiting_signal t) (is_user t) (clear_child_tid t) (set_child_tid t).
Definition with_pending (m : Z) (t : SThread) : SThread :=
  mkSThread (process t) (state t) (enqueued_by_signal t) (which_event t) m (signal_mask t) (listeners t)
    (entering_signal t) (exiting_signal t) (is_user t) (clear_child_tid t) (set_child_tid t).
Definition with_listeners (l : list EventId) (t : SThread) : SThread :=
  mkSThread (process t) (state t) (enqueued_by_signal t) (which_event t) (pending_signals t) (signal_mask t) l
    (entering_signal t) (exiting_signal t) (is_user t) (clear_child_tid t) (set_child_tid t).

Definition with_wait (st code : Z) (p : SProcess) : SProcess :=
  mkSProcess (thread_list p) (num_living_threads p) (parent p) (children_list p) st code (is_zombie p)
    (sigchld_flags p) (group p) (umask p).
Definition with_children (l : list Z) (p : SProcess) : SProcess :=
  mkSProcess (thread_list p) (num_living_threads p) (parent p) l (wait_status p) (wait_code p) (is_zombie p)
    (sigchld_flags p) (group p) (umask p).

(** [sched_list_head.add_before]: at the tail. *)
Definition list_append (t : Z) (l : list Z) : option (list Z) :=
  if bool_decide (t ∈ l) then None else Some (l ++ [t]).
Definition list_remove (t : Z) (l : list Z) : list Z := filter (fun x => x <> t) l.

(** ** Run list and events *)

Definition enqueue_thread (t sg : Z) (s : Sched) : option Sched :=
  th ← threads s !! t;
  if negb (bool_decide (state th = BLOCKED)) && negb (bool_decide (state th = STOPPED)) then Some s
  else if bool_decide (state th = STOPPED) && negb (sg =? SIGCONT) then Some s
  else
    l ← list_append t (run_list s);
    Some (upd_thread t (with_enqueued sg (if bool_decide (state th = BLOCKED) then READY else state th))
            (set_run_list l s)).

Definition event_of (e : EventId) (s : Sched) : Event := default new_event (events s !! e).

(** The loop of [Event::trigger] over the listeners: threads woken. *)
Fixpoint wake_listeners (l : list (Z * Z)) (num max_to_wake : Z) (s : Sched) : option (Z * Sched) :=
  match l with
  | [] => Some (num, s)
  | (t, which) :: l' =>
      s1 ← enqueue_thread t (-1) (upd_thread t (with_which which) s);
      if max_to_wake <=? num + 1 then Some (num + 1, s1) else wake_listeners l' (num + 1) max_to_wake s1
  end.

Definition INT_MAX : Z := 2147483647.

Definition Event_trigger (e : EventId) (drop : bool) (max_to_wake : Z) (s : Sched) : option (Z * Sched) :=
  let ev := event_of e s in
  if num_listeners ev =? 0 then
    Some (0, if drop then s else set_events (<[e := mkEvent (pending ev + 1) []]> (events s)) s)
  else wake_listeners (listener_list ev) 0 max_to_wake s.

Definition trigger (e : EventId) (s : Sched) : option Sched := snd <$> Event_trigger e false INT_MAX s.

Definition Thread_send_signal (t sg : Z) (s : Sched) : option Sched :=
  th ← threads s !! t;
  s1 ← enqueue_thread t sg (upd_thread t (with_pending (Z.lor (pending_signals th) (get_signal_bit sg))) s);
  trigger (signal_event t) s1.

(** [Process::send_signal]: to the main thread. *)
Definition Process_send_signal (p sg : Z) (s : Sched) : option Sched :=
  pr ← processes s !! p;
  t ← head (thread_list pr);
  if negb (t =? p) then None else Thread_send_signal t sg s.

Definition dequeue_thread (t stop_signal : Z) (s : Sched) : option Sched :=
  th ← threads s !! t;
  if negb (bool_decide (state th = READY)) && negb (bool_decide (state th = RUNNING)) then None
  else
    let s1 := set_run_list (list_remove t (run_list s)) s in
    if negb (stop_signal =? -1) then
      let s2 := upd_process (process th) (with_wait stop_signal CLD_STOPPED) (upd_thread t (with_state STOPPED) s1) in
      s3 ← trigger (stopped_event (process th)) s2;
      pr ← processes s3 !! process th;
      par ← processes s3 !! parent pr;
      if negb (has (sigchld_flags par) SA_NOCLDSTOP) then Process_send_signal (parent pr) SIGCHLD s3 else Some s3
    else Some (upd_thread t (with_state BLOCKED) s1).

Definition clear_listeners (t : Z) (s : Sched) : option Sched :=
  th ← threads s !! t;
  let evs := foldr (fun e m => alter (fun ev => mkEvent (pending ev) (filter (fun p => fst p <> t) (listener_list ev))) e m)
               (events s) (listeners th) in
  Some (upd_thread t (with_listeners []) (set_events evs s)).

(** *** Event::wait, up to the switch to another thread and after it *)
Fixpoint take_pending (l : list EventId) (i : Z) (s : Sched) : option (Z * Sched) :=
  match l with
  | [] => None
  | e :: l' =>
      let ev := event_of e s in
      if 0 <? pending ev
      then Some (i, set_events (<[e := mkEvent (pending ev - 1) (listener_list ev)]> (events s)) s)
      else take_pending l' (i + 1) s
  end.

Fixpoint add_listeners (t : Z) (l : list EventId) (i : Z) (s : Sched) : Sched :=
  match l with
  | [] => s
  | e :: l' =>
      let ev := event_of e s in
      add_listeners t l' (i + 1)
        (upd_thread t (fun th => with_listeners (listeners th ++ [e]) th)
           (set_events (<[e := mkEvent (pending ev) (listener_list ev ++ [(t, i)])]> (events s)) s))
  end.

Definition has_pending (th : SThread) : bool := negb (Z.ldiff (pending_signals th) (signal_mask th) =? 0).

(** The result, or nothing when the thread went to sleep. *)
Definition Event_wait (t : Z) (l : list EventId) (nonblocking : bool) (s : Sched) : option (option Z * Sched) :=
  th ← threads s !! t;
  if has_pending th then Some (Some (- EINTR), s)
  else
    match take_pending l 0 s with
    | Some (i, s1) => Some (Some i, s1)
    | None =>
        if nonblocking then Some (Some (- EWOULDBLOCK), s)
        else if negb (bool_decide (listeners th = [])) then None
        else (s1 ← dequeue_thread t (-1) (add_listeners t l 0 s); Some (None, s1))
    end.

Definition Event_wait_end (t : Z) (s : Sched) : option (Z * Sched) :=
  s1 ← clear_listeners t s;
  th ← threads s1 !! t;
  Some (if enqueued_by_signal th =? -1 then which_event th else - EINTR, s1).

(** ** Process tree *)

(** [ProcessGroup::add_process] *)
Definition add_process (g p : Z) (s : Sched) : option Sched :=
  pr ← processes s !! p;
  let gs := if group pr =? 0 then groups s else alter (fun l => filter (fun x => x <> p) l) (group pr) (groups s) in
  l ← gs !! g;
  Some (upd_process p (fun pr => mkSProcess (thread_list pr) (num_living_threads pr) (parent pr) (children_list pr)
                                   (wait_status pr) (wait_code pr) (is_zombie pr) (sigchld_flags pr) g (umask pr))
          (set_groups (<[g := l ++ [p]]> gs) s)).

(** [Process::set_parent] *)
Definition set_parent (p new_parent : Z) (s : Sched) : option Sched :=
  pr ← processes s !! p;
  np ← processes s !! new_parent;
  let s1 := upd_process p (fun pr => mkSProcess (thread_list pr) (num_living_threads pr) new_parent (children_list pr)
                                       (wait_status pr) (wait_code pr) (is_zombie pr) (sigchld_flags pr) (group pr) (umask pr)) s in
  let s2 := set_processes ((fun q => with_children (filter (fun x => x <> p) (children_list q)) q) <$> processes s1) s1 in
  let s3 := upd_process new_parent (fun q => with_children (children_list q ++ [p]) q) s2 in
  add_process (group np) p s3.

Fixpoint reparent (l : list Z) (s : Sched) : option Sched :=
  match l with
  | [] => Some s
  | c :: l' => s1 ← set_parent c INIT s; reparent l' s1
  end.

(** [Process::zombify]; closing the descriptors and freeing the address space
    are the business of the descriptor table and of the page map. *)
Definition zombify (p terminate_signal : Z) (s : Sched) : option Sched :=
  if p =? INIT then None
  else
    pr ← processes s !! p;
    let s1 := upd_process p (fun pr => mkSProcess (thread_list pr) (num_living_threads pr) (parent pr) (children_list pr)
                (if negb (terminate_signal =? -1) then terminate_signal else wait_status pr)
                (if negb (terminate_signal =? -1) then CLD_KILLED else wait_code pr) true
                (sigchld_flags pr) (group pr) (umask pr)) s in
    s2 ← reparent (children_list pr) s1;
    s3 ← trigger (zombie_event p) s2;
    pr3 ← processes s3 !! p;
    Process_send_signal (parent pr3) SIGCHLD s3.

Section Terminate.
(** [userland::futex_wake] at the address of a thread that is gone. *)
Context (futex_wake : Z -> Sched -> option Sched).

Definition terminate_thread (t terminate_signal : Z) (s : Sched) : option Sched :=
  th ← threads s !! t;
  if bool_decide (state th = ZOMBIE) then Some s
  else
    let s1 := if bool_decide (state th = READY) || bool_decide (state th = RUNNING)
              then set_run_list (list_remove t (run_list s)) s else s in
    let s2 := upd_thread t (with_state ZOMBIE) s1 in
    pr ← processes s2 !! process th;
    let n := num_living_threads pr - 1 in
    let s3 := upd_process (process th) (fun pr => mkSProcess (thread_list pr) n (parent pr) (children_list pr)
                (wait_status pr) (wait_code pr) (is_zombie pr) (sigchld_flags pr) (group pr) (umask pr)) s2 in
    if n =? 0 then zombify (process th) terminate_signal s3
    else if negb (clear_child_tid th =? 0) then futex_wake (clear_child_tid th) s3
    else Some s3.

Fixpoint terminate_threads (l : list Z) (terminate_signal : Z) (s : Sched) : option Sched :=
  match l with
  | [] => Some s
  | t :: l' => s1 ← terminate_thread t terminate_signal s; terminate_threads l' terminate_signal s1
  end.

Definition terminate_process (p terminate_signal : Z) (s : Sched) : option Sched :=
  pr ← processes s !! p; terminate_threads (thread_list pr) terminate_signal s.

(** [exit] drops its status; [exit_group] leaves it to the parent. *)
Definition syscall_exit (t : Z) (s : Sched) : option Sched := terminate_thread t (-1) s.
Definition syscall_exit_group (t status : Z) (s : Sched) : option Sched :=
  th ← threads s !! t;
  terminate_process (process th) (-1) (upd_process (process th) (with_wait status CLD_EXITED) s).

End Terminate.

(** ** New threads and processes *)

Fixpoint free_tid (l : list bool) (i : Z) : option Z :=
  match l with
  | [] => None
  | used :: l' => if used : bool then free_tid l' (i + 1) else Some i
  end.

Definition allocate_tid (s : Sched) : Z * Sched :=
  let table := if bool_decide (thread_table s = []) then [false; false] else thread_table s in
  match free_tid (drop (Z.to_nat (first_free_tid s)) table) (first_free_tid s) with
  | Some i =>
      (i, mkSched (threads s) (processes s) (groups s) (events s) (run_list s) (running_thread s) table (i + 1))
  | None =>
      let n := Z.of_nat (length table) in
      (n, mkSched (threads s) (processes s) (groups s) (events s) (run_list s) (running_thread s)
            (table ++ [false]) (n + 1))
  end.

(** [Thread::Thread] *)
Definition Thread_new (p tid : Z) (s : Sched) : option Sched :=
  pr ← processes s !! p;
  let th := mkSThread p BLOCKED (-1) 0 0 0 [] false false true 0 0 in
  let s1 := upd_process p (fun pr => mkSProcess (thread_list pr ++ [tid]) (num_living_threads pr + 1) (parent pr)
              (children_list pr) (wait_status pr) (wait_code pr) (is_zombie pr) (sigchld_flags pr) (group pr) (umask pr))
              (set_threads (<[tid := th]> (threads s)) s) in
  Some (mkSched (threads s1) (processes s1) (groups s1) (events s1) (run_list s1) (running_thread s1)
          (<[Z.to_nat tid := true]> (thread_table s1)) (first_free_tid s1)).

Definition default_umask : Z := 18.
Definition Process_new (s : Sched) : Z * Sched :=
  let '(pid, s1) := allocate_tid s in
  (pid, set_processes (<[pid := mkSProcess [] 0 0 [] 0 0 false 0 0 default_umask]> (processes s1)) s1).

Definition CLONE_VM : Z := 256.
Definition CLONE_VFORK : Z := 16384.
Definition CLONE_SIGHAND : Z := 2048.
Definition CLONE_CLEAR_SIGHAND : Z := 4294967296.
Definition CLONE_CHILD_CLEARTID : Z := 2097152.
Definition CLONE_CHILD_SETTID : Z := 16777216.
Definition thread_clone_flags : Z := 331520.
Definition supported_generic_clone_flags : Z := 4315414528.

(** The scheduling side of [clone_impl]: which of thread and process is made,
    whose child it is, and what it inherits. *)
Definition clone_flags (flags : Z) : option (Z * bool) :=
  if has flags CLONE_SIGHAND && has flags CLONE_CLEAR_SIGHAND then None
  else
    let flags := if has flags CLONE_VM && has flags CLONE_VFORK
                 then Z.ldiff flags (Z.lor CLONE_VM CLONE_VFORK) else flags in
    let is_spawning_thread := has flags thread_clone_flags in
    let flags := if is_spawning_thread then Z.ldiff flags thread_clone_flags else flags in
    if has (Z.ldiff flags supported_generic_clone_flags) (-1) then None else Some (flags, is_spawning_thread).

(** The new thread, of the process of the old one or of a new process. *)
Definition new_task (is_spawning_thread : bool) (old_process : Z) (s : Sched) : option (Z * Sched) :=
  if is_spawning_thread then
    let '(tid, s1) := allocate_tid s in (s2 ← Thread_new old_process tid s1; Some (tid, s2))
  else let '(pid, s1) := Process_new s in (s2 ← Thread_new pid pid s1; Some (pid, s2)).

Definition clone_impl (old flags child_tid : Z) (s : Sched) : option (Z * Sched) :=
  match clone_flags flags with
  | None => Some (- EINVAL, s)
  | Some (fl, is_spawning_thread) =>
      ot ← threads s !! old;
      op ← processes s !! process ot;
      '(tid, s1) ← new_task is_spawning_thread (process ot) s;
      let s2 := upd_thread tid (fun th => mkSThread (process th) (state th) (enqueued_by_signal th) (which_event th)
                  (pending_signals th) (signal_mask ot) (listeners th) (entering_signal th) (exiting_signal th)
                  (is_user th) (clear_child_tid th) (set_child_tid th)) s1 in
      s3 ← (if is_spawning_thread : bool then Some s2
            else
              set_parent tid (process ot)
                (upd_process tid (fun pr => mkSProcess (thread_list pr) (num_living_threads pr) (parent pr) (children_list pr)
                   (wait_status pr) (wait_code pr) (is_zombie pr) (sigchld_flags op) (group pr) (umask pr)) s2));
      let s4 := upd_thread tid (fun th => mkSThread (process th) READY (enqueued_by_signal th) (which_event th)
                  (pending_signals th) (signal_mask th) (listeners th) (entering_signal th) (exiting_signal th)
                  (is_user th) (if has fl CLONE_CHILD_CLEARTID then child_tid else clear_child_tid th)
                  (if has fl CLONE_CHILD_SETTID then child_tid else set_child_tid th)) s3 in
      l ← list_append tid (run_list s4);
      Some (tid, set_run_list l s4)
  end.

Definition syscall_fork (old : Z) (s : Sched) : option (Z * Sched) := clone_impl old 0 0 s.
Definition syscall_vfork (old : Z) (s : Sched) : option (Z * Sched) := clone_impl old (Z.lor CLONE_VFORK CLONE_VM) 0 s.

Definition CSIGNAL : Z := 255.
Definition syscall_clone (old flags child_tid : Z) (s : Sched) : option (Z * Sched) :=
  clone_impl old (Z.ldiff flags CSIGNAL) child_tid s.
Definition syscall_clone3 (old flags child_tid : Z) (s : Sched) : option (Z * Sched) := clone_impl old flags child_tid s.

Definition syscall_umask (p md : Z) (s : Sched) : option (Z * Sched) :=
  pr ← processes s !! p;
  Some (umask pr, upd_process p (fun pr => mkSProcess (thread_list pr) (num_living_threads pr) (parent pr) (children_list pr)
                   (wait_status pr) (wait_code pr) (is_zombie pr) (sigchld_flags pr) (group pr) (Z.land md 511)) s).

(** ** The scheduler *)

(** The element after [t], the first element at the end of the list. *)
Fixpoint after (t : Z) (l : list Z) : option Z :=
  match l with
  | [] => None
  | x :: l' => if x =? t then head l' else after t l'
  end.
Definition next_thread (current : Z) (l : list Z) : Z :=
  match after current l with
  | Some t => t
  | None => default IDLE (head l)
  end.

Section Scheduler.
(** The delivery of a pending signal, or the return from a handler: see
    Signal.v. *)
Context (dispatch_pending_signal return_from_signal : Z -> Sched -> option Sched).

(** [scheduler_isr]; a turn of the [retry] loop takes a unit of fuel. *)
Fixpoint scheduler_isr (fuel : nat) (current : Z) (s : Sched) : option Sched :=
  match fuel with
  | O => None
  | S fuel =>
      let s1 := upd_thread current (fun th => if bool_decide (state th = RUNNING) then with_state READY th else th) s in
      let t := next_thread current (run_list s1) in
      th ← threads s1 !! t;
      if bool_decide (state th = BLOCKED) || bool_decide (state th = ZOMBIE) then None
      else
        s2 ← (if (enqueued_by_signal th =? SIGCONT) && bool_decide (state th = STOPPED) then
                trigger (continued_event (process th))
                  (upd_process (process th) (with_wait SIGCONT CLD_CONTINUED) (upd_thread t (with_state READY) s1))
              else Some s1);
        s3 ← (if is_user th then
                if entering_signal th then dispatch_pending_signal t s2
                else if exiting_signal th then return_from_signal t s2
                else Some s2
              else Some s2);
        th3 ← threads s3 !! t;
        let s4 := upd_thread t (fun th => mkSThread (process th) (state th) (enqueued_by_signal th) (which_event th)
                    (pending_signals th) (signal_mask th) (listeners th) (entering_signal th)
                    (exiting_signal th) (is_user th) (clear_child_tid th) 0) (set_running t s3) in
        if bool_decide (state th3 = ZOMBIE) || bool_decide (state th3 = STOPPED) then scheduler_isr fuel t s4
        else Some (upd_thread t (with_state RUNNING) s4)
  end.
End Scheduler.

(** ** Waiting for children *)
Definition WNOHANG : Z := 1.
Definition WSTOPPED : Z := 2.
Definition WUNTRACED : Z := 2.
Definition WEXITED : Z := 4.
Definition WCONTINUED : Z := 8.
Definition WNOWAIT : Z := 16777216.
Definition P_ALL : Z := 0.
Definition P_PID : Z := 1.
Definition P_PGID : Z := 2.

(** [Process::~Process] with its threads'. *)
Definition delete_thread (t : Z) (s : Sched) : option Sched :=
  th ← threads s !! t;
  if negb (bool_decide (state th = ZOMBIE)) then None
  else
    s1 ← clear_listeners t s;
    Some (mkSched (delete t (threads s1)) (processes s1) (groups s1) (events s1) (run_list s1) (running_thread s1)
            (<[Z.to_nat t := false]> (thread_table s1)) (first_free_tid s1)).

Section Delete.
Context (futex_wake : Z -> Sched -> option Sched).

Fixpoint delete_threads (l : list Z) (s : Sched) : option Sched :=
  match l with
  | [] => Some s
  | t :: l' =>
      th ← threads s !! t;
      s1 ← (if negb (bool_decide (state th = ZOMBIE)) then terminate_thread futex_wake t (-1) s else Some s);
      s2 ← delete_thread t s1;
      delete_threads l' s2
  end.
Definition delete_process (p : Z) (s : Sched) : option Sched :=
  pr ← processes s !! p;
  if negb (is_zombie pr) then None
  else
    let s1 := set_processes ((fun q => with_children (filter (fun x => x <> p) (children_list q)) q) <$> processes s) s in
    let s2 := set_groups (alter (fun l => filter (fun x => x <> p) l) (group pr) (groups s1)) s1 in
    s3 ← delete_threads (thread_list pr) s2;
    Some (set_processes (delete p (processes s3)) s3).
End Delete.

(** What the call reports: process, status and code; no process is all zero. *)
Record siginfo : Type := mkSiginfo { si_pid : Z; si_status : Z; si_code : Z }.

(** The children and events a call waits for, or its result. *)
Definition add_targets (options p : Z) : list (Z * EventId) :=
  (if has options WEXITED then [(p, zombie_event p)] else []) ++
  (if has options WSTOPPED then [(p, stopped_event p)] else []) ++
  (if has options WCONTINUED then [(p, continued_event p)] else []).

Definition wait_targets (self idtype id options : Z) (s : Sched) : option (Z + list (Z * EventId)) :=
  if negb (has options (Z.lor (Z.lor WEXITED WSTOPPED) WCONTINUED)) then Some (inl (- EINVAL))
  else
    me ← processes s !! self;
    if idtype =? P_ALL then
      if bool_decide (children_list me = []) then Some (inl (- ECHILD))
      else Some (inr (flat_map (add_targets options) (children_list me)))
    else if idtype =? P_PID then
      match threads s !! id with
      | None => Some (inl (- ECHILD))
      | Some th =>
          child ← processes s !! process th;
          if negb (parent child =? self) then Some (inl (- ECHILD))
          else Some (inr (add_targets options (process th)))
      end
    else Some (inl 0).

(** One turn of the waiting loop: a result with what it reports, or sleep on
    the events. *)
Definition waitid_turn (futex_wake : Z -> Sched -> option Sched) (options : Z) (targets : list (Z * EventId)) (s : Sched)
    : option (option (Z * siginfo) * Sched) :=
  match List.find (fun '(p, _) => match processes s !! p with Some pr => negb (wait_code pr =? 0) | None => false end)
          targets with
  | Some (p, _) =>
      pr ← processes s !! p;
      let info := mkSiginfo p (wait_status pr) (wait_code pr) in
      s1 ← (if has options WNOWAIT then Some s
            else if is_zombie pr then delete_process futex_wake p s
            else Some (upd_process p (with_wait (wait_status pr) 0) s));
      Some (Some (p, info), s1)
  | None => if has options WNOHANG then Some (Some (0, mkSiginfo 0 0 0), s) else Some (None, s)
  end.

(** The word [wait4] stores. *)
Definition wait_status_word (i : siginfo) : Z :=
  if si_pid i =? 0 then 0
  else if si_code i =? CLD_EXITED then Z.shiftl (si_status i) 8
  else if si_code i =? CLD_KILLED then si_status i
  else if si_code i =? CLD_STOPPED then Z.lor (Z.shiftl (si_status i) 8) 127
  else if si_code i =? CLD_CONTINUED then 65535
  else 0.

(** Options [wait4] knows; any other is an error. *)
Definition wait4_known : Z := fold_right Z.lor 0 [WNOHANG; WUNTRACED; WCONTINUED; 2147483648; 1073741824; 536870912].
Definition wait4_options (options : Z) : Z :=
  let o := Z.lor WEXITED (Z.ldiff options WUNTRACED) in
  if has options WUNTRACED then Z.lor o WSTOPPED else o.
Definition wait4_id (pid group_leader : Z) : Z * Z :=
  if pid <? -1 then (P_PGID, - pid)
  else if pid =? -1 then (P_ALL, 0)
  else if pid =? 0 then (P_PGID, group_leader)
  else (P_PID, pid).

(** [syscall_wait4]: before it sleeps and, given what the wait reports, its
    result with the status word it stores. *)
Definition syscall_wait4_begin (self pid options : Z) (s : Sched) : option (Z + list (Z * EventId)) :=
  if has options (Z.lnot wait4_known) then Some (inl (- EINVAL))
  else
    me ← processes s !! self;
    let '(idtype, id) := wait4_id pid (group me) in
    wait_targets self idtype id (wait4_options options) s.
Definition syscall_wait4_end (ret : Z) (info : siginfo) : Z * option Z :=
  if ret <? 0 then (ret, None) else (si_pid info, Some (wait_status_word info)).

(** ** The run list *)

Definition runnable (st : State) : bool := match st with READY | RUNNING => true | _ => false end.

(** The states of the threads. *)
Definition states (s : Sched) : gmap Z State := state <$> threads s.

(** The run list holds the runnable threads, each once; the idle thread is
    always runnable and never listed. *)
Record rq_ok (l : list Z) (m : gmap Z State) : Prop := {
  rq_nodup : NoDup l;
  rq_list : forall t, t ∈ l <-> t <> IDLE /\ exists st, m !! t = Some st /\ runnable st = true;
  rq_idle : forall st, m !! IDLE = Some st -> runnable st = true
}.
Definition queue_ok (s : Sched) : Prop := rq_ok (run_list s) (states s).

Lemma states_lookup s t : states s !! t = state <$> threads s !! t.
Proof. apply lookup_fmap. Qed.

Lemma states_upd s t f : (forall th, state (f th) = state th) -> states (upd_thread t f s) = states s.
Proof.
  intros Hf. apply map_eq. intros u. rewrite !states_lookup. cbn [upd_thread set_threads threads].
  destruct (decide (t = u)) as [->|]; [rewrite lookup_alter_eq|by rewrite lookup_alter_ne].
  destruct (threads s !! u); simpl; [by rewrite Hf|done].
Qed.

Lemma states_set s t f st : is_Some (threads s !! t) -> (forall th, state (f th) = st) ->
  states (upd_thread t f s) = <[t := st]> (states s).
Proof.
  intros [th Hth] Hf. apply map_eq. intros u. rewrite !states_lookup. cbn [upd_thread set_threads threads].
  destruct (decide (t = u)) as [->|].
  - by rewrite lookup_alter_eq, lookup_insert_eq, Hth; simpl; rewrite Hf.
  - by rewrite lookup_alter_ne, lookup_insert_ne, states_lookup.
Qed.

(** The process each thread belongs to. *)
Definition owners (s : Sched) : gmap Z Z := process <$> threads s.

Lemma owners_upd s t f : (forall th, process (f th) = process th) -> owners (upd_thread t f s) = owners s.
Proof.
  intros Hf. apply map_eq. intros u. unfold owners. rewrite !lookup_fmap. cbn [upd_thread set_threads threads].
  destruct (decide (t = u)) as [->|]; [rewrite lookup_alter_eq|by rewrite lookup_alter_ne].
  destruct (threads s !! u); simpl; [by rewrite Hf|done].
Qed.

(** *** The moves of the run list *)
Lemma rq_wake l m t : rq_ok l m -> m !! t = Some BLOCKED -> t ∉ l /\ rq_ok (l ++ [t]) (<[t := READY]> m).
Proof.
  intros [Hnd Hl Hi] Ht.
  assert (Hn : t ∉ l) by (rewrite Hl; intros [_ (st & Hst & Hr)]; rewrite Ht in Hst; injection Hst as <-; done).
  assert (Hidle : t <> IDLE) by (intros ->; apply Hi in Ht; done). split; [done|]. constructor.
  - apply NoDup_app. split; [done|]. split; [|apply NoDup_singleton]. intros x Hx Hx'%list_elem_of_singleton. by subst.
  - intros u. rewrite elem_of_app, list_elem_of_singleton, Hl. destruct (decide (t = u)) as [<-|Hne].
    + rewrite lookup_insert_eq. naive_solver.
    + rewrite lookup_insert_ne by done. naive_solver.
  - intros st. rewrite lookup_insert_ne by done. auto.
Qed.

Lemma rq_leave l m t st0 st : rq_ok l m -> m !! t = Some st0 -> t <> IDLE -> runnable st = false ->
  rq_ok (list_remove t l) (<[t := st]> m).
Proof.
  intros [Hnd Hl Hi] Ht Hidle Hst. constructor.
  - by apply NoDup_filter.
  - intros u. unfold list_remove. rewrite list_elem_of_filter, Hl. destruct (decide (t = u)) as [<-|Hne].
    + rewrite lookup_insert_eq. naive_solver congruence.
    + rewrite lookup_insert_ne by done. naive_solver.
  - intros st'. rewrite lookup_insert_ne by done. auto.
Qed.

Lemma list_remove_out t l : t ∉ l -> list_remove t l = l.
Proof.
  unfold list_remove. induction l as [|x l IH]; [done|]. rewrite not_elem_of_cons. intros [H1 H2].
  rewrite filter_cons_True by congruence. by rewrite IH.
Qed.

Lemma rq_die l m t st0 st : rq_ok l m -> m !! t = Some st0 -> runnable st0 = false -> runnable st = false ->
  rq_ok l (<[t := st]> m).
Proof.
  intros Hok Ht H0 Hst. pose proof Hok as [Hnd Hl Hi].
  assert (Hidle : t <> IDLE) by (intros ->; apply Hi in Ht; congruence).
  rewrite <- (list_remove_out t l); [by eapply rq_leave|]. rewrite Hl. intros [_ (s & Hs & Hr)]. congruence.
Qed.

Lemma rq_switch l m t st0 st : rq_ok l m -> m !! t = Some st0 -> runnable st0 = true -> runnable st = true ->
  rq_ok l (<[t := st]> m).
Proof.
  intros [Hnd Hl Hi] Ht H0 Hst. constructor; [done| |].
  - intros u. rewrite Hl. destruct (decide (t = u)) as [<-|Hne];
      [rewrite lookup_insert_eq|rewrite lookup_insert_ne by done; done]. naive_solver.
  - intros st'. destruct (decide (t = IDLE)) as [->|]; [rewrite lookup_insert_eq|rewrite lookup_insert_ne by done; auto].
    naive_solver.
Qed.

Lemma rq_new l m t : rq_ok l m -> m !! t = None -> t <> IDLE -> rq_ok l (<[t := BLOCKED]> m).
Proof.
  intros [Hnd Hl Hi] Ht Hidle. constructor; [done| |].
  - intros u. rewrite Hl. destruct (decide (t = u)) as [<-|Hne];
      [rewrite lookup_insert_eq|by rewrite lookup_insert_ne]. naive_solver.
  - intros st'. rewrite lookup_insert_ne by done. auto.
Qed.

(** *** The operations *)

(** A signal may continue a stopped thread only if it is not SIGCONT: that
    case puts the thread on the list before it is runnable. *)
Definition wakes_blocked (t sg : Z) (s : Sched) : Prop :=
  sg <> SIGCONT \/ forall th, threads s !! t = Some th -> state th <> STOPPED.

Lemma enqueue_thread_spec t sg s :
  queue_ok s -> is_Some (threads s !! t) -> wakes_blocked t sg s ->
  exists s', enqueue_thread t sg s = Some s' /\ queue_ok s' /\
    (forall u st, states s !! u = Some st -> states s' !! u = Some st \/ (u = t /\ st = BLOCKED /\ states s' !! u = Some READY)) /\
    (states s !! t = Some BLOCKED -> states s' !! t = Some READY /\ t ∈ run_list s').
Proof.
  intros Hok [th Hth] Hsg. unfold enqueue_thread. rewrite Hth. cbn [mbind option_bind].
  assert (Hst : states s !! t = Some (state th)) by by rewrite states_lookup, Hth.
  destruct (state th) eqn:Hstate; cbn [bool_decide negb andb].
  all: try (exists s; split; [done|]; split; [done|]; split; [auto|congruence]).
  - rewrite (bool_decide_true (BLOCKED = BLOCKED)), (bool_decide_false (BLOCKED = STOPPED)) by done. cbn [negb andb].
    destruct (rq_wake _ _ t Hok Hst) as [Hn Hok']. unfold list_append. rewrite bool_decide_false by done.
    cbn [mbind option_bind]. eexists. split; [reflexivity|].
    assert (Hs' : states (upd_thread t (with_enqueued sg READY) (set_run_list (run_list s ++ [t]) s)) = <[t := READY]> (states s))
      by (apply (states_set (set_run_list (run_list s ++ [t]) s)); [by exists th|done]).
    split; [|split].
    + unfold queue_ok. by rewrite Hs'.
    + intros u st Hu. rewrite Hs'. destruct (decide (t = u)) as [<-|]; [|left; by rewrite lookup_insert_ne].
      right. rewrite lookup_insert_eq. rewrite Hst in Hu. by injection Hu as <-.
    + intros _. rewrite Hs', lookup_insert_eq. split; [done|]. cbn. rewrite elem_of_app, list_elem_of_singleton. by right.
  - rewrite (bool_decide_false (STOPPED = BLOCKED)), (bool_decide_true (STOPPED = STOPPED)) by done. cbn [negb andb].
    assert (sg =? SIGCONT = false) as ->.
    { apply Z.eqb_neq. destruct Hsg as [|Hn]; [done|]. by apply Hn in Hth. }
    cbn [negb andb].
    exists s. split; [done|]. split; [done|]. split; [auto|congruence].
Qed.

(** What waking does: blocked threads may become ready, nothing else. *)
Record woke (s s' : Sched) : Prop := {
  wk_states : forall u st, states s !! u = Some st ->
    states s' !! u = Some st \/ (st = BLOCKED /\ states s' !! u = Some READY);
  wk_none : forall u, states s !! u = None -> states s' !! u = None;
  wk_processes : processes s' = processes s;
  wk_owners : owners s' = owners s;
  wk_queue : queue_ok s'
}.

Lemma woke_trans a b c : woke a b -> woke b c -> woke a c.
Proof.
  intros [A1 A2 A3 A4 A5] [B1 B2 B3 B4 B5]. constructor; auto; [|congruence..].
  intros u st Hu. destruct (A1 u st Hu) as [H|[-> H]]; destruct (B1 u _ H) as [G|[E G]]; auto.
Qed.

Lemma woke_same s s' : queue_ok s -> run_list s' = run_list s -> states s' = states s ->
  processes s' = processes s -> owners s' = owners s -> woke s s'.
Proof. intros Hok Hr Hs Hp Ho. constructor; rewrite ?Hs; auto. unfold queue_ok. by rewrite Hr, Hs. Qed.

Lemma states_some s t : is_Some (threads s !! t) <-> is_Some (states s !! t).
Proof. rewrite states_lookup. by rewrite fmap_is_Some. Qed.

Lemma enqueue_shape t sg s s' : enqueue_thread t sg s = Some s' ->
  s' = s \/ exists l st, s' = upd_thread t (with_enqueued sg st) (set_run_list l s).
Proof.
  unfold enqueue_thread. destruct (threads s !! t) as [th|]; [|done]. cbn [mbind option_bind].
  destruct (negb _ && negb _); [by intros [= <-]; left|]. destruct (_ && _); [by intros [= <-]; left|].
  unfold list_append. destruct (bool_decide (t ∈ run_list s)); [done|]. cbn [mbind option_bind]. intros [= <-]. right. eauto.
Qed.

Lemma enqueue_woke t sg s :
  queue_ok s -> is_Some (threads s !! t) -> wakes_blocked t sg s ->
  exists s', enqueue_thread t sg s = Some s' /\ woke s s' /\
    (states s !! t = Some BLOCKED -> states s' !! t = Some READY /\ t ∈ run_list s').
Proof.
  intros Hok Ht Hsg. destruct (enqueue_thread_spec t sg s Hok Ht Hsg) as (s' & He & Hok' & Hst & Hwake).
  exists s'. split; [done|]. split; [|done]. constructor; auto.
  - intros u st Hu. destruct (Hst u st Hu) as [|(_ & ? & ?)]; auto.
  - intros u Hu. destruct (enqueue_shape _ _ _ _ He) as [->|(l & st & ->)]; [done|].
    rewrite states_lookup in *. cbn [upd_thread set_threads threads set_run_list].
    destruct (decide (t = u)) as [->|]; [rewrite lookup_alter_eq|by rewrite lookup_alter_ne].
    by destruct (threads s !! u); simpl in *.
  - by destruct (enqueue_shape _ _ _ _ He) as [->|(l & st & ->)].
  - destruct (enqueue_shape _ _ _ _ He) as [->|(l & st & ->)]; [done|]. by apply (owners_upd (set_run_list l s)).
Qed.

Lemma wakes_blocked_minus t s : wakes_blocked t (-1) s.
Proof. by left. Qed.

Lemma woke_exists s s' t : woke s s' -> is_Some (threads s !! t) -> is_Some (threads s' !! t).
Proof.
  intros Hw. rewrite !states_some. intros [st Hst]. destruct (wk_states _ _ Hw t st Hst) as [H|[_ H]]; eauto.
Qed.

Lemma woke_ready s s' t : woke s s' -> states s !! t = Some READY -> states s' !! t = Some READY.
Proof. intros Hw Hs. destruct (wk_states _ _ Hw t _ Hs) as [H|[? _]]; done. Qed.

Lemma ready_listed s t : queue_ok s -> t <> IDLE -> states s !! t = Some READY -> t ∈ run_list s.
Proof. intros [_ Hq _] Ht Hs. apply Hq. eauto. Qed.

Lemma blocked_not_idle s t : queue_ok s -> states s !! t = Some BLOCKED -> t <> IDLE.
Proof. intros [_ _ Hi] Hs ->. by apply Hi in Hs. Qed.

Lemma wake_listeners_spec l num max_to_wake s :
  queue_ok s -> (forall t w, (t, w) ∈ l -> is_Some (threads s !! t)) -> num + Z.of_nat (length l) <= max_to_wake ->
  exists s', wake_listeners l num max_to_wake s = Some (num + Z.of_nat (length l), s') /\ woke s s' /\
    forall t w, (t, w) ∈ l -> states s !! t = Some BLOCKED -> states s' !! t = Some READY.
Proof.
  revert num s. induction l as [|[t which] l IH]; intros num s Hok Hl Hmax; cbn [wake_listeners].
  - exists s. split; [simpl; do 2 f_equal; lia|]. split; [by apply woke_same|]. intros ? ? H. by apply elem_of_nil in H.
  - set (s0 := upd_thread t (with_which which) s).
    assert (H0 : woke s s0) by (apply woke_same; [done|done|by apply states_upd|done|by apply owners_upd]).
    destruct (enqueue_woke t (-1) s0) as (s1 & He & Hw1 & Hr1);
      [apply H0|eapply woke_exists, Hl; [done|by left]|apply wakes_blocked_minus|].
    rewrite He. cbn [mbind option_bind]. pose proof (woke_trans _ _ _ H0 Hw1) as Hw.
    assert (Hready : states s !! t = Some BLOCKED -> states s1 !! t = Some READY).
    { intros Hb. apply Hr1. unfold s0. by rewrite states_upd. }
    simpl length in *. destruct (Z.leb_spec max_to_wake (num + 1)) as [Hle|Hgt].
    + assert (l = []) as -> by (destruct l; simpl in *; [done|lia]). exists s1. split; [do 2 f_equal|].
      split; [done|]. intros u w [H|H]%elem_of_cons Hb; [by simplify_eq; apply Hready|by apply elem_of_nil in H].
    + destruct (IH (num + 1) s1) as (s2 & Hw2 & Hk2 & Hr2); [apply Hw| |lia|].
      { intros u w Hu. eapply woke_exists, Hl; [done|by right]. }
      exists s2. split; [rewrite Hw2; do 2 f_equal; lia|]. split; [by eapply woke_trans|].
      intros u w [H|H]%elem_of_cons Hb; [simplify_eq; eapply woke_ready; [done|by apply Hready]|].
      destruct (wk_states _ _ Hw u _ Hb) as [Hb'|[_ Hb']]; [by eapply Hr2|by eapply woke_ready].
Qed.

(** Listeners are threads. *)
Definition listeners_ok (s : Sched) : Prop :=
  forall e ev t w, events s !! e = Some ev -> (t, w) ∈ listener_list ev -> is_Some (threads s !! t).

Lemma trigger_woke e drop max_to_wake s :
  queue_ok s -> listeners_ok s -> num_listeners (event_of e s) <= max_to_wake ->
  exists s', Event_trigger e drop max_to_wake s = Some (num_listeners (event_of e s), s') /\ woke s s' /\
    (forall t w, (t, w) ∈ listener_list (event_of e s) -> states s !! t = Some BLOCKED ->
       states s' !! t = Some READY) /\
    (listener_list (event_of e s) = [] -> pending (event_of e s') = pending (event_of e s) + b2z (negb drop)).
Proof.
  intros Hok Hl Hmax. unfold Event_trigger. set (ev := event_of e s) in *.
  destruct (Z.eqb_spec (num_listeners ev) 0) as [H0|H0].
  - assert (Hn : listener_list ev = []) by (unfold num_listeners in H0; destruct (listener_list ev); [done|simpl in H0; lia]).
    rewrite H0. eexists. split; [reflexivity|]. destruct drop.
    + split; [by apply woke_same|]. split; [rewrite Hn; intros ? ? H; by apply elem_of_nil in H|]. intros _. simpl. unfold ev. lia.
    + split; [by apply woke_same|]. split; [rewrite Hn; intros ? ? H; by apply elem_of_nil in H|]. intros _.
      unfold event_of. cbn [set_events events]. by rewrite lookup_insert_eq.
  - destruct (wake_listeners_spec (listener_list ev) 0 max_to_wake s) as (s' & Hw & Hk & Hr); [done| |done|].
    { intros t w Ht. unfold ev, event_of in Ht. destruct (events s !! e) as [x|] eqn:He; [by eapply Hl|].
      by apply elem_of_nil in Ht. }
    exists s'. split; [done|]. split; [done|]. split; [done|]. intros Hn. unfold num_listeners in H0. by rewrite Hn in H0.
Qed.

(** *** Preservation *)
Lemma wakes_blocked_dec t sg s : wakes_blocked t sg s \/ (sg = SIGCONT /\ states s !! t = Some STOPPED).
Proof.
  unfold wakes_blocked. destruct (decide (sg = SIGCONT)) as [->|]; [|by left; left].
  rewrite states_lookup. destruct (threads s !! t) as [th|]; [|left; right; by intros ? [=]].
  destruct (decide (state th = STOPPED)) as [E|]; [right; simpl; by rewrite E|].
  left. right. by intros ? [= <-].
Qed.

Lemma enqueue_some_woke t sg s s' :
  enqueue_thread t sg s = Some s' -> queue_ok s -> wakes_blocked t sg s -> woke s s'.
Proof.
  intros He Hok Hsg. assert (Ht : is_Some (threads s !! t)).
  { unfold enqueue_thread in He. by destruct (threads s !! t). }
  destruct (enqueue_woke t sg s Hok Ht Hsg) as (s1 & He1 & Hw & _). by simplify_eq.
Qed.

Lemma wake_listeners_woke l num max_to_wake s n s' :
  wake_listeners l num max_to_wake s = Some (n, s') -> queue_ok s -> woke s s'.
Proof.
  revert num s. induction l as [|[t which] l IH]; intros num s H Hok; cbn [wake_listeners] in H.
  - simplify_eq. by apply woke_same.
  - set (s0 := upd_thread t (with_which which) s) in *.
    assert (H0 : woke s s0) by (apply woke_same; [done|done|by apply states_upd|done|by apply owners_upd]).
    destruct (enqueue_thread t (-1) s0) as [s1|] eqn:He; [|done]. cbn [mbind option_bind] in H.
    pose proof (enqueue_some_woke _ _ _ _ He (wk_queue _ _ H0) (wakes_blocked_minus _ _)) as H1.
    pose proof (woke_trans _ _ _ H0 H1) as H2. destruct (max_to_wake <=? num + 1); [by simplify_eq|].
    eapply woke_trans, IH; eauto. apply H2.
Qed.

Lemma trigger_some_woke e drop m s n s' : Event_trigger e drop m s = Some (n, s') -> queue_ok s -> woke s s'.
Proof.
  unfold Event_trigger. intros H Hok. destruct (_ =? 0); [|by eapply wake_listeners_woke].
  simplify_eq. destruct drop; by apply woke_same.
Qed.

Lemma trigger_woke1 e s s' : trigger e s = Some s' -> queue_ok s -> woke s s'.
Proof.
  unfold trigger. intros H Hok. destruct (Event_trigger e false INT_MAX s) as [[n s1]|] eqn:E; [|done].
  simplify_eq/=. by eapply trigger_some_woke.
Qed.

Lemma send_signal_woke t sg s s' :
  Thread_send_signal t sg s = Some s' -> queue_ok s -> wakes_blocked t sg s -> woke s s'.
Proof.
  unfold Thread_send_signal. intros H Hok Hsg. destruct (threads s !! t) as [th|] eqn:Ht; [|done]. cbn [mbind option_bind] in H.
  set (s0 := upd_thread t _ s) in *.
  assert (H0 : woke s s0) by (apply woke_same; [done|done|by apply states_upd|done|by apply owners_upd]).
  destruct (enqueue_thread t sg s0) as [s1|] eqn:He; [|done]. cbn [mbind option_bind] in H.
  assert (H1 : woke s0 s1).
  { eapply enqueue_some_woke; [done|apply H0|]. destruct (wakes_blocked_dec t sg s0) as [|[-> Hst]]; [done|].
    unfold s0 in Hst. rewrite states_upd, states_lookup, Ht in Hst by done. destruct Hsg as [|Hsg]; [done|].
    simplify_eq/=. by apply Hsg in Ht. }
  pose proof (woke_trans _ _ _ H0 H1) as H2. eapply woke_trans, trigger_woke1; eauto. apply H2.
Qed.

Lemma process_signal_woke p sg s s' :
  Process_send_signal p sg s = Some s' -> queue_ok s -> wakes_blocked p sg s -> woke s s'.
Proof.
  unfold Process_send_signal. intros H Hok Hsg. destruct (processes s !! p) as [pr|]; [|done]. cbn [mbind option_bind] in H.
  destruct (head (thread_list pr)) as [t|]; [|done]. cbn [mbind option_bind] in H.
  destruct (Z.eqb_spec t p) as [E|]; cbn [negb] in H; [|done]. subst p. by eapply send_signal_woke.
Qed.

Lemma not_sigcont : SIGCHLD <> SIGCONT.
Proof. done. Qed.

(** Neither the run list nor a state changes. *)
Definition same_queue (s s' : Sched) : Prop := run_list s' = run_list s /\ states s' = states s.

Lemma same_queue_ok s s' : same_queue s s' -> queue_ok s -> queue_ok s'.
Proof. intros [H1 H2] Hok. unfold queue_ok. by rewrite H1, H2. Qed.

Lemma same_queue_trans a b c : same_queue a b -> same_queue b c -> same_queue a c.
Proof. unfold same_queue. naive_solver congruence. Qed.

Lemma set_parent_same p q s s' : set_parent p q s = Some s' -> same_queue s s'.
Proof.
  unfold set_parent, add_process. intros H. repeat (case_match; simplify_eq/=; try done).
  all: unfold mbind, option_bind in *; repeat (case_match; simplify_eq/=; try done).
Qed.

Lemma reparent_same l s s' : reparent l s = Some s' -> same_queue s s'.
Proof.
  revert s. induction l as [|c l IH]; intros s H; cbn [reparent] in H; [by simplify_eq|].
  destruct (set_parent c INIT s) as [s1|] eqn:E; [|done]. cbn [mbind option_bind] in H.
  eapply same_queue_trans; [by eapply set_parent_same|by apply IH].
Qed.

Lemma zombify_queue p sg s s' : zombify p sg s = Some s' -> queue_ok s -> queue_ok s'.
Proof.
  unfold zombify. intros H Hok. destruct (p =? INIT); [done|].
  destruct (processes s !! p) as [pr|]; [|done]. cbn [mbind option_bind] in H.
  set (s1 := upd_process p _ s) in *. destruct (reparent _ s1) as [s2|] eqn:E2; [|done]. cbn [mbind option_bind] in H.
  destruct (trigger _ s2) as [s3|] eqn:E3; [|done]. cbn [mbind option_bind] in H.
  destruct (processes s3 !! p) as [pr3|]; [|done]. cbn [mbind option_bind] in H.
  assert (H2 : queue_ok s2) by (eapply same_queue_ok; [by eapply reparent_same|exact Hok]).
  pose proof (trigger_woke1 _ _ _ E3 H2) as H3.
  eapply wk_queue, process_signal_woke; [exact H|apply H3|by left].
Qed.

Lemma dequeue_queue t sg s s' : dequeue_thread t sg s = Some s' -> t <> IDLE -> queue_ok s -> queue_ok s'.
Proof.
  unfold dequeue_thread. intros H Ht Hok. destruct (threads s !! t) as [th|] eqn:Hth; [|done]. cbn [mbind option_bind] in H.
  destruct (negb _ && negb _); [done|].
  assert (Hst : states s !! t = Some (state th)) by by rewrite states_lookup, Hth.
  assert (Hleave : forall st, runnable st = false ->
    queue_ok (upd_thread t (with_state st) (set_run_list (list_remove t (run_list s)) s))).
  { intros st Hr. unfold queue_ok. rewrite (states_set (set_run_list _ s) t _ st); [|by exists th|done].
    by eapply rq_leave. }
  destruct (negb (sg =? -1)); [|simplify_eq; by apply Hleave].
  destruct (trigger _ _) as [s3|] eqn:E3; [|done]. cbn [mbind option_bind] in H.
  destruct (processes s3 !! process th) as [pr|]; [|done]. cbn [mbind option_bind] in H.
  destruct (processes s3 !! parent pr) as [par|]; [|done]. cbn [mbind option_bind] in H.
  assert (H3 : queue_ok s3) by (eapply wk_queue, trigger_woke1; [exact E3|]; by apply (Hleave STOPPED)).
  destruct (negb (has _ _)); [|by simplify_eq]. eapply wk_queue, process_signal_woke; [exact H|done|by left].
Qed.

Lemma clear_listeners_same t s s' : clear_listeners t s = Some s' -> same_queue s s'.
Proof.
  unfold clear_listeners. destruct (threads s !! t) as [th|]; [|done]. cbn [mbind option_bind]. intros [= <-].
  split; [done|]. by rewrite states_upd.
Qed.

Lemma add_listeners_same t l i s : same_queue s (add_listeners t l i s).
Proof.
  revert i s. induction l as [|e l IH]; intros i s; cbn [add_listeners]; [done|].
  eapply same_queue_trans, IH. split; [done|]. by rewrite states_upd.
Qed.

Lemma take_pending_same l i s j s' : take_pending l i s = Some (j, s') -> same_queue s s'.
Proof.
  revert i. induction l as [|e l IH]; intros i H; cbn [take_pending] in H; [done|].
  destruct (0 <? _); [|by eapply IH]. by simplify_eq.
Qed.

Lemma Event_wait_queue t l nb s r s' :
  Event_wait t l nb s = Some (r, s') -> t <> IDLE -> queue_ok s -> queue_ok s'.
Proof.
  unfold Event_wait. intros H Ht Hok. destruct (threads s !! t) as [th|]; [|done]. cbn [mbind option_bind] in H.
  destruct (has_pending th); [by simplify_eq|].
  destruct (take_pending l 0 s) as [[i s1]|] eqn:E.
  { simplify_eq. eapply same_queue_ok; [by eapply take_pending_same|done]. }
  destruct nb; [by simplify_eq|]. destruct (negb _); [done|].
  destruct (dequeue_thread t (-1) _) as [s1|] eqn:Hd; [|done]. cbn [mbind option_bind] in H. simplify_eq.
  eapply dequeue_queue; [exact Hd|done|]. eapply same_queue_ok; [apply add_listeners_same|done].
Qed.

(** A thread leaves the list, if it is there, and is dead. *)
Definition bury (t : Z) (th : SThread) (s : Sched) : Sched :=
  upd_thread t (with_state ZOMBIE)
    (if bool_decide (state th = READY) || bool_decide (state th = RUNNING)
     then set_run_list (list_remove t (run_list s)) s else s).

Lemma bury_states t th s : threads s !! t = Some th -> states (bury t th s) = <[t := ZOMBIE]> (states s).
Proof.
  intros Hth. unfold bury. destruct (_ || _); [|by apply states_set; [exists th|]].
  by apply (states_set (set_run_list _ s)); [exists th|].
Qed.

Lemma bury_owners t th s : owners (bury t th s) = owners s.
Proof. unfold bury. destruct (_ || _); [by apply (owners_upd (set_run_list _ s))|by apply owners_upd]. Qed.

Lemma bury_processes t th s : processes (bury t th s) = processes s.
Proof. unfold bury. by destruct (_ || _). Qed.

Lemma bury_queue t s th : threads s !! t = Some th -> t <> IDLE -> queue_ok s -> queue_ok (bury t th s).
Proof.
  intros Hth Ht Hok. assert (Hst : states s !! t = Some (state th)) by by rewrite states_lookup, Hth.
  unfold queue_ok. rewrite bury_states by done. unfold bury.
  destruct (state th) eqn:Es; cbn.
  1,2: by eapply rq_leave. all: by eapply rq_die.
Qed.

Section TerminateQueue.
Context (futex_wake : Z -> Sched -> option Sched).
Hypothesis (futex_wake_queue : forall a s s', futex_wake a s = Some s' -> queue_ok s -> queue_ok s').

Lemma terminate_thread_queue t sg s s' :
  terminate_thread futex_wake t sg s = Some s' -> t <> IDLE -> queue_ok s -> queue_ok s'.
Proof.
  unfold terminate_thread. intros H Ht Hok. destruct (threads s !! t) as [th|] eqn:Hth; [|done]. cbn [mbind option_bind] in H.
  destruct (bool_decide (state th = ZOMBIE)); [by simplify_eq|].
  assert (Hst : states s !! t = Some (state th)) by by rewrite states_lookup, Hth.
  pose proof (bury_queue t s th Hth Ht Hok) as Hok2. cbv zeta in H. fold (bury t th s) in H.
  destruct (processes _ !! process th) as [pr|]; [|done]. cbn [mbind option_bind] in H.
  destruct (num_living_threads pr - 1 =? 0); [by eapply zombify_queue|].
  destruct (negb _); [by eapply futex_wake_queue|]. by simplify_eq.
Qed.

Lemma terminate_threads_queue l sg s s' :
  terminate_threads futex_wake l sg s = Some s' -> IDLE ∉ l -> queue_ok s -> queue_ok s'.
Proof.
  revert s. induction l as [|t l IH]; intros s H Hl Hok; cbn [terminate_threads] in H; [by simplify_eq|].
  apply not_elem_of_cons in Hl as [Ht Hl].
  destruct (terminate_thread futex_wake t sg s) as [s1|] eqn:E; [|done]. cbn [mbind option_bind] in H.
  eapply IH; [exact H|done|]. by eapply terminate_thread_queue.
Qed.
End TerminateQueue.

Lemma allocate_tid_same s t s' : allocate_tid s = (t, s') -> same_queue s s' /\ threads s' = threads s.
Proof. unfold allocate_tid. intros H. destruct (free_tid _ _); by simplify_eq. Qed.

Lemma Thread_new_queue p t s s' :
  Thread_new p t s = Some s' -> t <> IDLE -> threads s !! t = None -> queue_ok s ->
  queue_ok s' /\ states s' !! t = Some BLOCKED.
Proof.
  unfold Thread_new. intros H Ht Hno Hok. destruct (processes s !! p); [|done]. cbn [mbind option_bind] in H. simplify_eq.
  set (th := mkSThread p BLOCKED (-1) 0 0 0 [] false false true 0 0).
  assert (Hs : forall sx, threads sx = <[t := th]> (threads s) -> states sx = <[t := BLOCKED]> (states s)).
  { intros sx E. unfold states. rewrite E. by rewrite fmap_insert. }
  split; [|erewrite Hs by reflexivity; apply lookup_insert_eq].
  unfold queue_ok. erewrite Hs by reflexivity. apply rq_new; [done| |done].
  by rewrite states_lookup, Hno.
Qed.

Lemma clone_queue old fl ct s r s' :
  clone_impl old fl ct s = Some (r, s') -> queue_ok s ->
  (forall t s1, allocate_tid s = (t, s1) -> t <> IDLE /\ threads s !! t = None) -> queue_ok s'.
Proof.
  unfold clone_impl. intros H Hok Hfresh. destruct (clone_flags fl) as [[f th]|]; [|by simplify_eq].
  destruct (threads s !! old) as [ot|]; [|done]. cbn [mbind option_bind] in H.
  destruct (processes s !! process ot) as [op|]; [|done]. cbn [mbind option_bind] in H.
  assert (Hnew : forall tid s1, new_task th (process ot) s = Some (tid, s1) -> queue_ok s1 /\ states s1 !! tid = Some BLOCKED).
  { intros tid s1 Hn. unfold new_task in Hn. destruct th; unfold Process_new in Hn; destruct (allocate_tid s) as [nt ns] eqn:Ea;
      destruct (allocate_tid_same _ _ _ Ea) as [Hs0 Ht0]; destruct (Hfresh _ _ eq_refl) as [Hi Hno];
      (destruct (Thread_new _ _ _) as [s2|] eqn:En; [|done]); cbn [mbind option_bind] in Hn; simplify_eq;
      (eapply Thread_new_queue; [exact En|done| |]); first [by rewrite <- Ht0 in Hno | by apply (same_queue_ok s)]. }
  destruct (new_task th (process ot) s) as [[tid s1]|] eqn:En; [|done]. cbn [mbind option_bind] in H.
  destruct (Hnew _ _ eq_refl) as [Hok1 Hb]. clear Hnew En.
  set (s2 := upd_thread tid _ s1) in *.
  assert (H2 : same_queue s1 s2) by (split; [done|by apply states_upd]).
  destruct (if th : bool then Some s2 else _) as [s3|] eqn:E3; [|done]. cbn [mbind option_bind] in H.
  assert (H3 : same_queue s2 s3).
  { destruct th; [by simplify_eq|]. eapply same_queue_trans; [|by eapply set_parent_same]. done. }
  pose proof (same_queue_trans _ _ _ H2 H3) as [Hrl Hsts].
  destruct (list_append _ _) as [l|] eqn:El; [|done]. cbn [mbind option_bind] in H. injection H as Hr Hs'. subst r s'.
  unfold list_append in El. cbn [upd_thread set_threads run_list] in El. rewrite Hrl in El.
  destruct (bool_decide (tid ∈ run_list s1)); [done|]. injection El as <-.
  destruct (rq_wake _ _ _ Hok1 Hb) as [_ Hok'].
  unfold queue_ok. cbn [set_run_list run_list].
  match goal with |- rq_ok _ (states (set_run_list _ (upd_thread tid ?f s3))) =>
    assert (Hs : states (upd_thread tid f s3) = <[tid := READY]> (states s3)) end.
  { apply states_set; [|done]. apply states_some. rewrite Hsts. eauto. }
  change (states (set_run_list ?l ?x)) with (states x). rewrite Hs, Hsts. done.
Qed.

(** *** The scheduler *)

(** No thread has a signal to take or a handler to leave. *)
Definition quiet (s : Sched) : Prop :=
  forall t th, threads s !! t = Some th -> entering_signal th = false /\ exiting_signal th = false.

Definition demote (st : State) : State := match st with RUNNING => READY | _ => st end.

Lemma after_in t l u : after t l = Some u -> u ∈ l.
Proof.
  induction l as [|x l IH]; cbn [after]; [done|]. destruct (x =? t); [|by right; auto].
  destruct l; [done|]. intros [= <-]. by right; left.
Qed.

Lemma next_thread_in c l : next_thread c l = IDLE /\ l = [] \/ next_thread c l ∈ l.
Proof.
  unfold next_thread. destruct (after c l) as [u|] eqn:E; [right; by eapply after_in|].
  destruct l; simpl; [by left|]. right. by left.
Qed.

Lemma rq_demote l m t : rq_ok l m -> rq_ok l (alter demote t m).
Proof.
  intros Hok. destruct (m !! t) as [st|] eqn:E.
  - assert (alter demote t m = <[t := demote st]> m) as ->.
    { apply map_eq. intros u. destruct (decide (t = u)) as [<-|];
        [by rewrite lookup_alter_eq, E, lookup_insert_eq|by rewrite lookup_alter_ne, lookup_insert_ne]. }
    destruct (runnable st) eqn:Hr; [eapply rq_switch; [done|done|done|by destruct st]|].
    destruct st; try done; cbn [demote]; rewrite insert_id by done; done.
  - assert (alter demote t m = m) as ->; [|done].
    apply map_eq. intros u. destruct (decide (t = u)) as [<-|]; [by rewrite lookup_alter_eq, E|by rewrite lookup_alter_ne].
Qed.

Lemma states_alter s t f g : (forall th, state (f th) = g (state th)) ->
  states (upd_thread t f s) = alter g t (states s).
Proof.
  intros Hf. apply map_eq. intros u. rewrite !states_lookup. cbn [upd_thread set_threads threads].
  destruct (decide (t = u)) as [<-|]; [|by rewrite !lookup_alter_ne, states_lookup].
  rewrite !lookup_alter_eq, states_lookup. destruct (threads s !! t); simpl; [by rewrite Hf|done].
Qed.

Lemma demoted_states c s :
  states (upd_thread c (fun th => if bool_decide (state th = RUNNING) then with_state READY th else th) s) =
  alter demote c (states s).
Proof. apply states_alter. intros th. by destruct (state th) eqn:E; simpl; rewrite ?E. Qed.

Lemma demoted_ok c s : queue_ok s ->
  queue_ok (upd_thread c (fun th => if bool_decide (state th = RUNNING) then with_state READY th else th) s).
Proof. intros Hok. unfold queue_ok. rewrite demoted_states. by apply rq_demote. Qed.

Section SchedulerQueue.
Context (dispatch_pending_signal return_from_signal : Z -> Sched -> option Sched).

(** A thread taking a signal runs on, stops or dies; it does not block. *)
Definition keeps_queue (f : Z -> Sched -> option Sched) : Prop :=
  forall t s s', f t s = Some s' -> queue_ok s -> states s !! t <> Some BLOCKED ->
    queue_ok s' /\ states s' !! t <> Some BLOCKED.
Hypothesis (dispatch_queue : keeps_queue dispatch_pending_signal).
Hypothesis (return_queue : keeps_queue return_from_signal).

Lemma scheduler_isr_queue fuel c s s' :
  scheduler_isr dispatch_pending_signal return_from_signal fuel c s = Some s' -> queue_ok s ->
  queue_ok s' /\ states s' !! running_thread s' = Some RUNNING.
Proof.
  revert c s. induction fuel as [|fuel IH]; intros c s H Hok; cbn [scheduler_isr] in H; [done|].
  pose proof (demoted_ok c s Hok) as Hok1. set (s1 := upd_thread c _ s) in *.
  set (t := next_thread c (run_list s1)) in *.
  destruct (threads s1 !! t) as [th|] eqn:Hth; [|done]. cbn [mbind option_bind] in H.
  destruct (_ || _) eqn:Hb in H; [done|]. apply orb_false_iff in Hb as [Hb Hz].
  apply bool_decide_eq_false in Hb, Hz.
  assert (Hst : states s1 !! t = Some (state th)) by by rewrite states_lookup, Hth.
  assert (Hrun : runnable (state th) = true).
  { destruct (next_thread_in c (run_list s1)) as [[Hi _]|Hin]; [change (t = IDLE) in Hi|change (t ∈ run_list s1) in Hin].
    - rewrite Hi in Hst. by apply Hok1 in Hst.
    - apply Hok1 in Hin as (_ & st & Hst' & Hr). rewrite Hst in Hst'. by injection Hst' as <-. }
  rewrite (bool_decide_false (state th = STOPPED)), andb_false_r in H by (intros E; by rewrite E in Hrun).
  cbn [mbind option_bind] in H.
  assert (Hnb : states s1 !! t <> Some BLOCKED) by (rewrite Hst; congruence).
  destruct (if is_user th then _ else _) as [s3|] eqn:E3; [|done]. cbn [mbind option_bind] in H.
  assert (Hok3 : queue_ok s3 /\ states s3 !! t <> Some BLOCKED).
  { destruct (is_user th); [|by simplify_eq]. destruct (entering_signal th); [by eapply dispatch_queue|].
    destruct (exiting_signal th); [by eapply return_queue|by simplify_eq]. }
  clear E3. destruct Hok3 as [Hok3 Hnb3].
  destruct (threads s3 !! t) as [th3|] eqn:Hth3; [|done]. cbn [mbind option_bind] in H.
  assert (Hst3 : states s3 !! t = Some (state th3)) by by rewrite states_lookup, Hth3.
  set (s4 := upd_thread t _ (set_running t s3)) in *.
  assert (H4 : same_queue s3 s4) by (split; [done|by apply (states_upd (set_running t s3))]).
  destruct (_ || _) eqn:Hb4 in H; [eapply IH; [exact H|by eapply same_queue_ok]|]. injection H as <-.
  apply orb_false_iff in Hb4 as [Hz4 Hs4]. apply bool_decide_eq_false in Hz4, Hs4.
  assert (Hst4 : states s4 !! t = Some (state th3)) by (destruct H4 as [_ ->]; done).
  assert (Hu : states (upd_thread t (with_state RUNNING) s4) = <[t := RUNNING]> (states s4))
    by (apply states_set; [apply states_some; eauto|done]).
  split; [|rewrite Hu; apply lookup_insert_eq].
  unfold queue_ok. rewrite Hu. eapply rq_switch; [exact (same_queue_ok _ _ H4 Hok3)|exact Hst4| |done].
  destruct (state th3); done || congruence.
Qed.
End SchedulerQueue.

(** *** Round robin *)
Section RoundRobin.
Context (dispatch_pending_signal return_from_signal : Z -> Sched -> option Sched).
#[local] Abbreviation isr := (scheduler_isr dispatch_pending_signal return_from_signal).

Lemma upd_thread_some t f s u th : threads (upd_thread t f s) !! u = Some th ->
  exists th0, threads s !! u = Some th0 /\ (th = th0 \/ th = f th0).
Proof.
  cbn [upd_thread set_threads threads]. destruct (decide (t = u)) as [<-|].
  - rewrite lookup_alter_eq. destruct (threads s !! t) as [th0|]; [|done]. intros [= <-]. eauto.
  - rewrite lookup_alter_ne by done. eauto.
Qed.

Lemma quiet_upd t f s : quiet s ->
  (forall th, entering_signal (f th) = entering_signal th /\ exiting_signal (f th) = exiting_signal th) ->
  quiet (upd_thread t f s).
Proof.
  intros Hq Hf u th (th0 & H0 & [->| ->])%upd_thread_some; [by apply (Hq u)|].
  destruct (Hf th0) as [-> ->]. by apply (Hq u).
Qed.

(** The timer interrupt of a quiet machine whose idle thread exists. *)
Record steady (s : Sched) : Prop := {
  st_queue : queue_ok s;
  st_quiet : quiet s;
  st_idle : is_Some (threads s !! IDLE)
}.

Lemma isr_steady fuel c s : steady s ->
  exists s', isr (S fuel) c s = Some s' /\ running_thread s' = next_thread c (run_list s) /\
    run_list s' = run_list s /\ steady s'.
Proof.
  intros [Hok Hq Hidle]. cbn [scheduler_isr]. pose proof (demoted_ok c s Hok) as Hok1.
  set (s1 := upd_thread c _ s) in *. set (t := next_thread c (run_list s1)) in *.
  assert (Hq1 : quiet s1) by (apply quiet_upd; [done|]; intros th; by destruct (bool_decide _)).
  assert (Hi1 : is_Some (threads s1 !! IDLE)).
  { apply states_some. unfold s1. rewrite demoted_states, lookup_alter_is_Some. by apply states_some. }
  assert (Hth : exists th, threads s1 !! t = Some th /\ runnable (state th) = true).
  { assert (exists st, states s1 !! t = Some st /\ runnable st = true) as (st & Hst & Hr).
    { destruct (next_thread_in c (run_list s1)) as [[Hi _]|Hin]; [change (t = IDLE) in Hi|change (t ∈ run_list s1) in Hin].
      - rewrite Hi. apply states_some in Hi1 as [st Hst]. exists st. split; [done|]. by apply Hok1 in Hst.
      - by apply Hok1 in Hin as (_ & st & Hst & Hr); eauto. }
    rewrite states_lookup in Hst. destruct (threads s1 !! t) as [th|]; [|done]. injection Hst as <-. eauto. }
  destruct Hth as (th & Hth & Hr). rewrite Hth. cbn [mbind option_bind].
  rewrite (bool_decide_false (state th = BLOCKED)), (bool_decide_false (state th = ZOMBIE)),
    (bool_decide_false (state th = STOPPED)), andb_false_r by (intros E; by rewrite E in Hr). cbn [orb mbind option_bind].
  destruct (Hq1 _ _ Hth) as [-> ->]. replace (if is_user th then Some s1 else Some s1) with (Some s1) by (by destruct (is_user th)).
  cbn [mbind option_bind]. rewrite Hth. cbn [mbind option_bind].
  rewrite (bool_decide_false (state th = ZOMBIE)), (bool_decide_false (state th = STOPPED)) by (intros E; by rewrite E in Hr).
  cbn [orb]. eexists. split; [reflexivity|]. split; [done|]. split; [done|]. set (s4 := upd_thread t _ (set_running t s1)).
  assert (H4 : states s4 = states s1) by (by apply (states_upd (set_running t s1))).
  assert (Hst4 : states s4 !! t = Some (state th)) by by rewrite H4, states_lookup, Hth.
  assert (Hu : states (upd_thread t (with_state RUNNING) s4) = <[t := RUNNING]> (states s4))
    by (apply states_set; [apply states_some; eauto|done]).
  constructor.
  - unfold queue_ok. rewrite Hu, H4. eapply rq_switch; [exact Hok1|by rewrite <- H4|done|done].
  - apply quiet_upd; [|done]. by apply quiet_upd.
  - apply states_some. rewrite Hu, H4. destruct (decide (t = IDLE)) as [->|];
      [rewrite lookup_insert_eq; eauto|rewrite lookup_insert_ne by done; by apply states_some].
Qed.

(** So many interrupts, each in the thread the last one switched to. *)
Fixpoint ticks (k : nat) (s : Sched) : option Sched :=
  match k with
  | O => Some s
  | S k => s1 ← isr 1 (running_thread s) s; ticks k s1
  end.

Lemma after_mid l1 c l2 : c ∉ l1 -> after c (l1 ++ c :: l2) = head l2.
Proof.
  induction l1 as [|x l1 IH]; cbn [after app]; intros Hn; [by rewrite Z.eqb_refl|].
  apply not_elem_of_cons in Hn as [Hx Hn]. destruct (Z.eqb_spec x c); [congruence|auto].
Qed.

Lemma after_out c l : c ∉ l -> after c l = None.
Proof.
  induction l as [|x l IH]; cbn [after]; [done|]. intros [Hx Hn]%not_elem_of_cons.
  destruct (Z.eqb_spec x c); [congruence|auto].
Qed.

Lemma next_thread_nth l i c : NoDup l -> l !! i = Some c ->
  l !! (S i mod length l)%nat = Some (next_thread c l).
Proof.
  intros Hnd Hi. pose proof (lookup_lt_Some _ _ _ Hi) as Hlt.
  pose proof (take_drop_middle _ _ _ Hi) as Hl. unfold next_thread.
  assert (Hc : c ∉ take i l).
  { intros [j Hj]%list_elem_of_lookup. apply lookup_take_Some in Hj as [Hj Hji].
    pose proof (NoDup_lookup _ _ _ _ Hnd Hi Hj). lia. }
  assert (Ha : after c l = l !! S i).
  { rewrite <- Hl at 1. rewrite after_mid by done. rewrite head_lookup, lookup_drop. f_equal. lia. }
  rewrite Ha. destruct (decide (S i = length l)) as [E|E].
  - rewrite <- E at 1. rewrite Nat.Div0.mod_same, (lookup_ge_None_2 l (S i)) by lia. rewrite head_lookup.
    destruct l; [done|]. done.
  - rewrite Nat.mod_small by lia. destruct (lookup_lt_is_Some_2 l (S i)) as [x Hx]; [lia|]. by rewrite Hx.
Qed.

Lemma ticks_steady k : forall s i, steady s -> run_list s !! i = Some (running_thread s) ->
  exists s', ticks k s = Some s' /\ run_list s !! ((i + k) mod length (run_list s))%nat = Some (running_thread s').
Proof.
  induction k as [|k IH]; intros s i Hs Hi; cbn [ticks].
  - exists s. split; [done|]. rewrite Nat.add_0_r, Nat.mod_small; [done|]. by eapply lookup_lt_Some.
  - destruct (isr_steady 0 (running_thread s) s Hs) as (s1 & H1 & Hr & Hl & Hs1). rewrite H1. cbn [mbind option_bind].
    pose proof (next_thread_nth _ _ _ (rq_nodup _ _ (st_queue _ Hs)) Hi) as Hn. rewrite <- Hr, <- Hl in Hn.
    destruct (IH s1 _ Hs1 Hn) as (s' & Ht & Hs'). exists s'. split; [done|]. rewrite <- Hs', Hl. f_equal.
    pose proof (lookup_lt_Some _ _ _ Hi). rewrite Nat.Div0.add_mod_idemp_l. f_equal. lia.
Qed.

Lemma ticks_reach s t : steady s -> t ∈ run_list s ->
  exists k s', (1 <= k <= length (run_list s))%nat /\ ticks k s = Some s' /\ running_thread s' = t.
Proof.
  intros Hs [j Hj]%list_elem_of_lookup. pose proof (lookup_lt_Some _ _ _ Hj) as Hlt. set (n := length (run_list s)) in *.
  destruct (decide (running_thread s ∈ run_list s)) as [[i Hi]%list_elem_of_lookup|Hout].
  - pose proof (lookup_lt_Some _ _ _ Hi) as Hlti. fold n in Hlti.
    set (k := if decide (i < j)%nat then (j - i)%nat else (j + n - i)%nat).
    destruct (ticks_steady k s i Hs Hi) as (s' & Ht & Hr). exists k, s'. fold n in Hr.
    assert (Hk : (1 <= k <= n)%nat /\ ((i + k) mod n)%nat = j).
    { unfold k. destruct (decide (i < j)%nat); split; try lia.
      - replace (i + (j - i))%nat with j by lia. by apply Nat.mod_small.
      - replace (i + (j + n - i))%nat with (j + 1 * n)%nat by lia. rewrite Nat.Div0.mod_add. by apply Nat.mod_small. }
    destruct Hk as [Hk Hm]. rewrite Hm, Hj in Hr. injection Hr as <-. done.
  - destruct (isr_steady 0 (running_thread s) s Hs) as (s1 & H1 & Hr & Hl & Hs1).
    assert (Hn : next_thread (running_thread s) (run_list s) = default IDLE (head (run_list s)))
      by (unfold next_thread; by rewrite after_out).
    assert (H0 : run_list s1 !! 0%nat = Some (running_thread s1)).
    { rewrite Hr, Hl, Hn, head_lookup. destruct (run_list s); [done|done]. }
    destruct (ticks_steady j s1 0 Hs1 H0) as (s' & Ht & Hs'). exists (S j), s'. split; [unfold n; lia|].
    cbn [ticks]. rewrite H1. cbn [mbind option_bind]. split; [done|]. rewrite Hl in Hs'. fold n in Hs'.
    cbn [Nat.add] in Hs'. rewrite Nat.mod_small, Hj in Hs' by lia. by injection Hs' as <-.
Qed.
End RoundRobin.

(** *** Sequences of operations *)

(** What happens to the run list: an event fires, a signal is sent, a thread
    sleeps on events, is stopped by a signal or exits, a process exits, a
    thread or a process is cloned, and the timer switches threads. *)
Inductive Op : Type :=
| OpTrigger (e : EventId) (drop : bool) (max_to_wake : Z)
| OpSignal (t sg : Z)
| OpWait (t : Z) (l : list EventId) (nonblocking : bool)
| OpStop (t sg : Z)
| OpExit (t : Z)
| OpExitGroup (t status : Z)
| OpClone (t flags child_tid : Z)
| OpTick.

Section Operations.
Context (futex_wake : Z -> Sched -> option Sched).
Context (dispatch_pending_signal return_from_signal : Z -> Sched -> option Sched).

Definition run_op (o : Op) (s : Sched) : option Sched :=
  match o with
  | OpTrigger e d m => snd <$> Event_trigger e d m s
  | OpSignal t sg => Thread_send_signal t sg s
  | OpWait t l nb => snd <$> Event_wait t l nb s
  | OpStop t sg => dequeue_thread t sg s
  | OpExit t => syscall_exit futex_wake t s
  | OpExitGroup t st => syscall_exit_group futex_wake t st s
  | OpClone t fl ct => snd <$> clone_impl t fl ct s
  | OpTick => scheduler_isr dispatch_pending_signal return_from_signal 2 (running_thread s) s
  end.

(** The idle thread neither sleeps nor ends, identifiers given out are new, and
    no SIGCONT is sent to a stopped thread. *)
Definition op_fits (o : Op) (s : Sched) : Prop :=
  match o with
  | OpSignal t sg => wakes_blocked t sg s
  | OpWait t _ _ | OpStop t _ | OpExit t => t <> IDLE
  | OpExitGroup t _ => forall th pr, threads s !! t = Some th -> processes s !! process th = Some pr -> IDLE ∉ thread_list pr
  | OpClone _ _ _ => forall t s1, allocate_tid s = (t, s1) -> t <> IDLE /\ threads s !! t = None
  | _ => True
  end.

Fixpoint run_ops (l : list Op) (s : Sched) : option Sched :=
  match l with
  | [] => Some s
  | o :: l' => s1 ← run_op o s; run_ops l' s1
  end.
Fixpoint ops_fit (l : list Op) (s : Sched) : Prop :=
  match l with
  | [] => True
  | o :: l' => op_fits o s /\ forall s1, run_op o s = Some s1 -> ops_fit l' s1
  end.

Hypothesis (futex_wake_queue : forall a s s', futex_wake a s = Some s' -> queue_ok s -> queue_ok s').
Hypothesis (dispatch_queue : keeps_queue dispatch_pending_signal).
Hypothesis (return_queue : keeps_queue return_from_signal).

Lemma run_op_queue o s s' : run_op o s = Some s' -> op_fits o s -> queue_ok s -> queue_ok s'.
Proof.
  intros H Hfit Hok. destruct o as [e d m|t sg|t l nb|t sg|t|t st|t fl ct|]; cbn [run_op op_fits] in *.
  - destruct (Event_trigger e d m s) as [[n s1]|] eqn:E; [|done]. simplify_eq/=. by eapply wk_queue, trigger_some_woke.
  - by eapply wk_queue, send_signal_woke.
  - destruct (Event_wait t l nb s) as [[r s1]|] eqn:E; [|done]. simplify_eq/=. by eapply Event_wait_queue.
  - by eapply dequeue_queue.
  - by eapply terminate_thread_queue.
  - unfold syscall_exit_group, terminate_process in H. destruct (threads s !! t) as [th|] eqn:Ht; [|done].
    cbn [mbind option_bind] in H. cbn [upd_process set_processes processes] in H. rewrite lookup_alter_eq in H.
    destruct (processes s !! process th) as [pr|] eqn:Hp; [|done]. cbn [fmap option_fmap option_map mbind option_bind] in H.
    eapply terminate_threads_queue; [done|exact H|by apply (Hfit th pr)|done].
  - destruct (clone_impl t fl ct s) as [[r s1]|] eqn:E; [|done]. simplify_eq/=. by eapply clone_queue.
  - by destruct (scheduler_isr_queue _ _ dispatch_queue return_queue _ _ _ _ H Hok).
Qed.

Lemma run_ops_queue l s s' : run_ops l s = Some s' -> ops_fit l s -> queue_ok s -> queue_ok s'.
Proof.
  revert s. induction l as [|o l IH]; intros s H Hfit Hok; cbn [run_ops ops_fit] in *; [by simplify_eq|].
  destruct (run_op o s) as [s1|] eqn:E; [|done]. cbn [mbind option_bind] in H. destruct Hfit as [Hf Hl].
  eapply IH; [exact H|by apply Hl|by eapply run_op_queue].
Qed.
End Operations.

(** *** The end of a process *)

(** What its parent is told, and its threads. *)
Definition told (pr : SProcess) : Z * Z * bool * list Z := (wait_status pr, wait_code pr, is_zombie pr, thread_list pr).
Definition same_told (s s' : Sched) : Prop := forall p, told <$> processes s' !! p = told <$> processes s !! p.

Lemma same_told_trans a b c : same_told a b -> same_told b c -> same_told a c.
Proof. unfold same_told. intros H1 H2 p. by rewrite H2. Qed.

Lemma told_upd p f s : (forall pr, told (f pr) = told pr) -> same_told s (upd_process p f s).
Proof.
  intros Hf q. cbn [upd_process set_processes processes].
  destruct (decide (p = q)) as [<-|]; [|by rewrite lookup_alter_ne].
  rewrite lookup_alter_eq. destruct (processes s !! p); simpl; [by rewrite Hf|done].
Qed.

Lemma told_map f s : (forall pr, told (f pr) = told pr) -> same_told s (set_processes (f <$> processes s) s).
Proof.
  intros Hf q. cbn [set_processes processes]. rewrite lookup_fmap.
  destruct (processes s !! q); simpl; [by rewrite Hf|done].
Qed.

Lemma set_parent_told p q s s' : set_parent p q s = Some s' -> same_told s s'.
Proof.
  unfold set_parent, add_process. intros H.
  destruct (processes s !! p) as [pr|]; [|done]. cbn [mbind option_bind] in H.
  destruct (processes s !! q) as [np|]; [|done]. cbn [mbind option_bind] in H.
  set (s1 := upd_process p _ s) in *. set (s2 := set_processes _ s1) in *. set (s3 := upd_process q _ s2) in *.
  destruct (processes s3 !! p) as [pr3|]; [|done]. cbn [mbind option_bind] in H.
  destruct (_ !! group np) as [gl|]; [|done]. cbn [mbind option_bind] in H. injection H as <-.
  apply (same_told_trans s s1); [by apply told_upd|]. apply (same_told_trans s1 s2); [by apply told_map|].
  apply (same_told_trans s2 s3); [by apply told_upd|].
  match goal with |- same_told _ (upd_process _ _ ?x) => apply (same_told_trans s3 x); [done|by apply told_upd] end.
Qed.

Lemma reparent_told l s s' : reparent l s = Some s' -> same_told s s'.
Proof.
  revert s. induction l as [|c l IH]; intros s H; cbn [reparent] in H; [by simplify_eq|].
  destruct (set_parent c INIT s) as [s1|] eqn:E; [|done]. cbn [mbind option_bind] in H.
  eapply same_told_trans; [by eapply set_parent_told|by apply IH].
Qed.

Lemma zombify_told p sg s s' pr :
  zombify p sg s = Some s' -> queue_ok s -> processes s !! p = Some pr ->
  (told <$> processes s' !! p) =
    Some (if sg =? -1 then wait_status pr else sg, if sg =? -1 then wait_code pr else CLD_KILLED, true, thread_list pr) /\
  (forall u, states s !! u = Some ZOMBIE -> states s' !! u = Some ZOMBIE).
Proof.
  unfold zombify. intros H Hok Hp. destruct (p =? INIT); [done|]. rewrite Hp in H. cbn [mbind option_bind] in H.
  set (s1 := upd_process p _ s) in *. destruct (reparent _ s1) as [s2|] eqn:E2; [|done]. cbn [mbind option_bind] in H.
  destruct (trigger _ s2) as [s3|] eqn:E3; [|done]. cbn [mbind option_bind] in H.
  destruct (processes s3 !! p) as [pr3|]; [|done]. cbn [mbind option_bind] in H.
  pose proof (reparent_same _ _ _ E2) as H2.
  pose proof (trigger_woke1 _ _ _ E3 (same_queue_ok _ _ H2 Hok)) as H3.
  assert (H4 : woke s3 s') by (eapply process_signal_woke; [exact H|apply H3|by left]).
  split.
  - rewrite (wk_processes _ _ H4), (wk_processes _ _ H3), (reparent_told _ _ _ E2).
    unfold s1. cbn [upd_process set_processes processes]. rewrite lookup_alter_eq, Hp. simpl. unfold told. simpl.
    by destruct (sg =? -1).
  - intros u Hu. assert (Hz : states s2 !! u = Some ZOMBIE) by (destruct H2 as [_ ->]; done).
    destruct (wk_states _ _ H3 u _ Hz) as [Hz3|[? _]]; [|done].
    by destruct (wk_states _ _ H4 u _ Hz3) as [|[? _]].
Qed.

Section ExitGroup.
Context (futex_wake : Z -> Sched -> option Sched).
(** Waking the waiters of an address is no more than waking threads. *)
Hypothesis (futex_wake_woke : forall a s s', futex_wake a s = Some s' -> queue_ok s -> woke s s').

(** The threads of [l], all alive, are the living threads of process [p]. *)
Record living (p : Z) (l : list Z) (s : Sched) : Prop := {
  lv_nodup : NoDup l;
  lv_threads : forall t, t ∈ l -> t <> IDLE /\ owners s !! t = Some p /\ exists st, states s !! t = Some st /\ st <> ZOMBIE;
  lv_count : num_living_threads <$> processes s !! p = Some (Z.of_nat (length l))
}.

Lemma terminate_thread_step p t l sg s s' :
  terminate_thread futex_wake t sg s = Some s' -> queue_ok s -> living p (t :: l) s -> l <> [] ->
  queue_ok s' /\ living p l s' /\ (told <$> processes s' !! p) = told <$> processes s !! p /\
    (forall u, u = t \/ states s !! u = Some ZOMBIE -> states s' !! u = Some ZOMBIE).
Proof.
  intros H Hok [Hnd Hl Hn] Hne.
  destruct (Hl t) as (Hidle & Ho & st & Hst & Hz); [by left|].
  assert (Hok' : queue_ok s').
  { eapply terminate_thread_queue; [|exact H|done|done]. intros a x y Hxy Hx. by eapply wk_queue, futex_wake_woke. }
  split; [done|]. unfold terminate_thread in H.
  unfold owners in Ho. rewrite lookup_fmap in Ho. rewrite states_lookup in Hst.
  destruct (threads s !! t) as [th|] eqn:Hth; [|done]. cbn [mbind option_bind] in H.
  injection Ho as Hp. injection Hst as Hst. rewrite bool_decide_false in H by congruence.
  cbv zeta in H. fold (bury t th s) in H. rewrite Hp, bury_processes in H.
  destruct (processes s !! p) as [pr|] eqn:Hpr; [|done]. cbn [mbind option_bind] in H.
  injection Hn as Hn. assert (Hl0 : (length l <> 0)%nat) by (by destruct l).
  destruct (Z.eqb_spec (num_living_threads pr - 1) 0) as [E|_]; [simpl in Hn; lia|].
  set (s3 := upd_process p _ (bury t th s)) in *.
  assert (Hok3 : queue_ok s3) by (apply (bury_queue t s th); done).
  assert (Hw : woke s3 s').
  { destruct (negb _); [by eapply futex_wake_woke|]. injection H as <-. by apply woke_same. }
  assert (Hs3 : states s3 = <[t := ZOMBIE]> (states s)) by by apply (bury_states t th s).
  assert (Hdead : forall u, u = t \/ states s !! u = Some ZOMBIE -> states s' !! u = Some ZOMBIE).
  { intros u Hu. assert (Hu3 : states s3 !! u = Some ZOMBIE).
    { rewrite Hs3. destruct (decide (t = u)) as [<-|]; [by rewrite lookup_insert_eq|rewrite lookup_insert_ne by done].
      destruct Hu; congruence. }
    by destruct (wk_states _ _ Hw u _ Hu3) as [|[? _]]. }
  assert (Hpr' : processes s' !! p = (fun q => mkSProcess (thread_list q) (num_living_threads pr - 1) (parent q)
      (children_list q) (wait_status q) (wait_code q) (is_zombie q) (sigchld_flags q) (group q) (umask q)) <$> Some pr).
  { rewrite (wk_processes _ _ Hw). unfold s3. cbn [upd_process set_processes processes].
    by rewrite bury_processes, lookup_alter_eq, Hpr. }
  split; [|split; [by rewrite Hpr'|done]]. apply NoDup_cons in Hnd as [Ht Hnd]. constructor; [done| |].
  - intros u Hu. assert (Hut : t <> u) by (intros ->; done).
    destruct (Hl u) as (Hi & Ho & st' & Hst' & Hz'); [by right|]. split; [done|]. split.
    { rewrite (wk_owners _ _ Hw). unfold s3. change (owners (bury t th s) !! u = Some p). by rewrite bury_owners. }
    assert (Hu3 : states s3 !! u = Some st') by (by rewrite Hs3, lookup_insert_ne).
    destruct (wk_states _ _ Hw u _ Hu3) as [|[_ ?]]; [by exists st'|by exists READY].
  - rewrite Hpr'. simpl in *. f_equal. lia.
Qed.

Lemma terminate_last p t sg s s' pr :
  terminate_thread futex_wake t sg s = Some s' -> queue_ok s -> living p [t] s -> processes s !! p = Some pr ->
  (told <$> processes s' !! p) =
    Some (if sg =? -1 then wait_status pr else sg, if sg =? -1 then wait_code pr else CLD_KILLED, true, thread_list pr) /\
  (forall u, u = t \/ states s !! u = Some ZOMBIE -> states s' !! u = Some ZOMBIE).
Proof.
  intros H Hok [_ Hl Hn] Hpr. destruct (Hl t) as (Hidle & Ho & st & Hst & Hz); [by left|].
  unfold terminate_thread in H. unfold owners in Ho. rewrite lookup_fmap in Ho. rewrite states_lookup in Hst.
  destruct (threads s !! t) as [th|] eqn:Hth; [|done]. cbn [mbind option_bind] in H.
  injection Ho as Hp. injection Hst as Hst. rewrite bool_decide_false in H by congruence.
  cbv zeta in H. fold (bury t th s) in H. rewrite Hp, bury_processes, Hpr in H. cbn [mbind option_bind] in H.
  rewrite Hpr in Hn. injection Hn as Hn. rewrite Hn in H. cbn [Z.sub Z.eqb] in H.
  set (s3 := upd_process p _ (bury t th s)) in *.
  assert (Hok3 : queue_ok s3) by (apply (bury_queue t s th); done).
  destruct (zombify_told p sg s3 s' (mkSProcess (thread_list pr) 0 (parent pr) (children_list pr) (wait_status pr)
              (wait_code pr) (is_zombie pr) (sigchld_flags pr) (group pr) (umask pr)) H Hok3) as [Ht Hd].
  { unfold s3. cbn [upd_process set_processes processes]. by rewrite bury_processes, lookup_alter_eq, Hpr. }
  split; [done|]. intros u Hu. apply Hd. change (states (bury t th s) !! u = Some ZOMBIE).
  rewrite bury_states by done. destruct (decide (t = u)) as [<-|];
    [by rewrite lookup_insert_eq|rewrite lookup_insert_ne by done; destruct Hu; congruence].
Qed.

Lemma terminate_all p l : forall s s' pr,
  terminate_threads futex_wake l (-1) s = Some s' -> l <> [] -> queue_ok s -> living p l s -> processes s !! p = Some pr ->
  (told <$> processes s' !! p) = Some (wait_status pr, wait_code pr, true, thread_list pr) /\
  (forall u, u ∈ l \/ states s !! u = Some ZOMBIE -> states s' !! u = Some ZOMBIE).
Proof.
  induction l as [|t l IH]; intros s s' pr H Hne Hok Hlv Hpr; [done|]. cbn [terminate_threads] in H.
  destruct (terminate_thread futex_wake t (-1) s) as [s1|] eqn:E; [|done]. cbn [mbind option_bind] in H.
  destruct (decide (l = [])) as [->|Hl].
  - cbn [terminate_threads] in H. injection H as <-.
    destruct (terminate_last p t (-1) s s1 pr E Hok Hlv Hpr) as [Ht Hd]. split; [done|]. intros u [Hu%list_elem_of_singleton|Hu]; auto.
  - destruct (terminate_thread_step p t l (-1) s s1 E Hok Hlv Hl) as (Hok1 & Hlv1 & Ht1 & Hd1).
    rewrite Hpr in Ht1. destruct (processes s1 !! p) as [pr1|] eqn:Hpr1; [|done]. injection Ht1 as E1 E2 _ E4.
    destruct (IH s1 s' pr1 H Hl Hok1 Hlv1 Hpr1) as [Ht Hd]. rewrite Ht, E1, E2, E4. split; [done|].
    intros u [[->|Hu]%elem_of_cons|Hu]; apply Hd; auto.
Qed.

Lemma exit_group_told t th pr status s s' :
  syscall_exit_group futex_wake t status s = Some s' -> queue_ok s ->
  threads s !! t = Some th -> processes s !! process th = Some pr -> thread_list pr <> [] ->
  living (process th) (thread_list pr) s ->
  (told <$> processes s' !! process th) = Some (status, CLD_EXITED, true, thread_list pr) /\
  (forall u, u ∈ thread_list pr -> states s' !! u = Some ZOMBIE).
Proof.
  unfold syscall_exit_group, terminate_process. intros H Hok Hth Hpr Hne Hlv. rewrite Hth in H. cbn [mbind option_bind] in H.
  set (s1 := upd_process _ _ s) in *.
  assert (Hp1 : processes s1 !! process th = Some (with_wait status CLD_EXITED pr))
    by (unfold s1; cbn [upd_process set_processes processes]; by rewrite lookup_alter_eq, Hpr).
  rewrite Hp1 in H. cbn [mbind option_bind] in H.
  destruct (terminate_all (process th) (thread_list pr) s1 s' (with_wait status CLD_EXITED pr) H Hne Hok) as [Ht Hd]; [|exact Hp1|].
  - destruct Hlv as [H1 H2 H3]. constructor; [done|done|]. rewrite Hp1. rewrite Hpr in H3. done.
  - split; [done|]. intros u Hu. apply Hd. by left.
Qed.

End ExitGroup.

Lemma delete_threads_zombies futex_wake l : forall s, NoDup l -> (forall t, t ∈ l -> states s !! t = Some ZOMBIE) ->
  exists s', delete_threads futex_wake l s = Some s' /\ processes s' = processes s /\
    (forall t, threads s' !! t = None \/ t ∉ l) /\ (forall t, threads s !! t = None -> threads s' !! t = None).
Proof.
  induction l as [|t l IH]; intros s Hnd Hz; cbn [delete_threads].
  - exists s. split; [done|]. split; [done|]. split; [|done]. intros t. right. apply not_elem_of_nil.
  - apply NoDup_cons in Hnd as [Ht Hnd]. pose proof (Hz t ltac:(by left)) as Hst. rewrite states_lookup in Hst.
    destruct (threads s !! t) as [th|] eqn:Hth; [|done].
    injection Hst as Hst. cbn [mbind option_bind]. rewrite bool_decide_true by done. cbn [negb mbind option_bind].
    unfold delete_thread, clear_listeners. rewrite Hth. cbn [mbind option_bind].
    rewrite bool_decide_true by done. cbn [negb mbind option_bind].
    set (s1 := mkSched _ _ _ _ _ _ _ _).
    destruct (IH s1 Hnd) as (s' & Hs' & Hp & Hd & Hk).
    { intros u Hu. rewrite states_lookup. unfold s1. cbn [threads upd_thread set_threads].
      assert (t <> u) by (intros ->; done). rewrite lookup_delete_ne, lookup_alter_ne by done.
      rewrite <- states_lookup. apply Hz. by right. }
    exists s'. split; [done|]. split; [by rewrite Hp|]. split.
    + intros u. destruct (decide (u = t)) as [->|]; [left; apply Hk; apply lookup_delete_eq|].
      destruct (Hd u); [by left|]. right. by rewrite not_elem_of_cons.
    + intros u Hu. apply Hk. unfold s1. cbn [threads]. destruct (decide (t = u)) as [->|];
        [apply lookup_delete_eq|]. rewrite lookup_delete_ne by done. cbn [upd_thread set_threads threads].
      by rewrite lookup_alter_ne.
Qed.

Lemma delete_process_zombie futex_wake p pr s :
  processes s !! p = Some pr -> is_zombie pr = true -> NoDup (thread_list pr) ->
  (forall t, t ∈ thread_list pr -> states s !! t = Some ZOMBIE) ->
  exists s', delete_process futex_wake p s = Some s' /\ processes s' !! p = None /\
    forall t, t ∈ thread_list pr -> threads s' !! t = None.
Proof.
  intros Hp Hz Hnd Hth. unfold delete_process. rewrite Hp. cbn [mbind option_bind]. rewrite Hz. cbn [negb].
  set (s2 := set_groups _ _). destruct (delete_threads_zombies futex_wake _ s2 Hnd Hth) as (s3 & H3 & Hp3 & Hd & _).
  rewrite H3. cbn [mbind option_bind]. eexists. split; [reflexivity|]. split; [apply lookup_delete_eq|].
  intros t Ht. by destruct (Hd t).
Qed.

(** ** Concrete machines *)

(** The invariant, checked by computation. *)
Definition rq_check (l : list Z) (m : gmap Z State) : bool :=
  bool_decide (NoDup l) &&
  forallb (fun t => negb (t =? IDLE) && match m !! t with Some st => runnable st | None => false end) l &&
  bool_decide (map_Forall (fun t st => runnable st = false \/ t = IDLE \/ t ∈ l) m) &&
  match m !! IDLE with Some st => runnable st | None => true end.

Lemma rq_check_ok l m : rq_check l m = true -> rq_ok l m.
Proof.
  unfold rq_check. rewrite !andb_true_iff, !bool_decide_eq_true, forallb_forall. intros [[[H1 H2] H3] H4].
  constructor; [done| |].
  - intros t. split.
    + intros Ht%list_elem_of_In%H2. apply andb_true_iff in Ht as [Hi Hr]. split; [by apply negb_true_iff, Z.eqb_neq in Hi|].
      destruct (m !! t) as [st|]; [by exists st|done].
    + intros [Hi (st & Hst & Hr)]. destruct (H3 t st Hst) as [|[|]]; congruence || done.
  - intros st Hst. by rewrite Hst in H4.
Qed.

(** The idle thread, init asleep in its wait for its child 2, and the child with
    the thread 3 beside its own; thread 1 listens to the end of the child. *)
Definition demo_thread (p : Z) (st : State) (ev : list EventId) : SThread := mkSThread p st (-1) 0 0 0 ev false false true 0 0.
Definition demo_process (ts children : list Z) (par : Z) : SProcess :=
  mkSProcess ts (Z.of_nat (length ts)) par children 0 0 false 0 1 default_umask.
Definition demo_sched : Sched :=
  mkSched
    (list_to_map [(0, demo_thread 0 READY []); (1, demo_thread 1 BLOCKED [zombie_event 2]);
                  (2, demo_thread 2 RUNNING []); (3, demo_thread 2 READY [])])
    (list_to_map [(1, demo_process [1] [2] 1); (2, demo_process [2; 3] [] 1)])
    (list_to_map [(1, [1; 2])])
    (list_to_map [(zombie_event 2, mkEvent 0 [(1, 0)])])
    [2; 3] 2 [true; true; true; true] 4.

Lemma demo_queue : queue_ok demo_sched.
Proof. apply rq_check_ok. by vm_compute. Qed.

Lemma demo_listeners : listeners_ok demo_sched.
Proof.
  intros e ev t w He Ht. unfold demo_sched in *. cbn [events threads] in *.
  apply elem_of_list_to_map_2, list_elem_of_singleton in He. injection He as _ ->.
  apply list_elem_of_singleton in Ht. injection Ht as -> _. by eexists.
Qed.

Lemma demo_steady : steady demo_sched.
Proof.
  constructor; [apply demo_queue| |by eexists].
  assert (map_Forall (fun _ th => entering_signal th = false /\ exiting_signal th = false) (threads demo_sched)) as H
    by (apply (bool_decide_unpack _); by vm_compute).
  exact H.
Qed.

Lemma demo_living : living 2 [2; 3] demo_sched.
Proof.
  constructor; [apply (bool_decide_unpack _); by vm_compute| |done].
  intros t Ht. repeat (apply elem_of_cons in Ht as [->|Ht]; [split; [done|]; split; [done|]; eexists; split; [reflexivity|done]|]).
  by apply elem_of_nil in Ht.
Qed.

(** The same with thread 2 alone in its process. *)
Definition demo_single : Sched :=
  mkSched
    (list_to_map [(0, demo_thread 0 READY []); (1, demo_thread 1 BLOCKED []); (2, demo_thread 2 RUNNING [])])
    (list_to_map [(1, demo_process [1] [2] 1); (2, demo_process [2] [] 1)])
    (list_to_map [(1, [1; 2])]) ∅ [2] 2 [true; true; true] 3.

Lemma demo_single_queue : queue_ok demo_single.
Proof. apply rq_check_ok. by vm_compute. Qed.

Lemma demo_single_living : living 2 [2] demo_single.
Proof.
  constructor; [apply (bool_decide_unpack _); by vm_compute| |done].
  intros t ->%list_elem_of_singleton. split; [done|]. split; [done|]. by eexists.
Qed.

Definition no_futex (a : Z) (s : Sched) : option Sched := Some s.
Lemma no_futex_woke a s s' : no_futex a s = Some s' -> queue_ok s -> woke s s'.
Proof. intros [= <-] Hok. by apply woke_same. Qed.
Lemma no_futex_queue a s s' : no_futex a s = Some s' -> queue_ok s -> queue_ok s'.
Proof. by intros [= <-]. Qed.
Definition no_signal (t : Z) (s : Sched) : option Sched := Some s.
Lemma no_signal_keeps : keeps_queue no_signal.
Proof. by intros t s s' [= <-]. Qed.

(** A day in the life of the machine: a fork, two ticks, a signal, a sleep, and
    the end of the child. *)
Definition demo_ops : list Op :=
  [OpClone 2 0 0; OpTick; OpTick; OpSignal 1 SIGCHLD; OpWait 3 [object_event 7] false; OpTrigger (object_event 7) false INT_MAX;
   OpTick; OpExitGroup 2 3].

(** The side conditions, checked by computation. *)
Definition op_fits_check (o : Op) (s : Sched) : bool :=
  match o with
  | OpSignal t sg =>
      negb (sg =? SIGCONT) || match threads s !! t with Some th => negb (bool_decide (state th = STOPPED)) | None => true end
  | OpWait t _ _ | OpStop t _ | OpExit t => negb (t =? IDLE)
  | OpExitGroup t _ =>
      match threads s !! t with
      | Some th => match processes s !! process th with Some pr => bool_decide (IDLE ∉ thread_list pr) | None => true end
      | None => true
      end
  | OpClone _ _ _ => let t := fst (allocate_tid s) in negb (t =? IDLE) && bool_decide (threads s !! t = None)
  | _ => true
  end.

Lemma op_fits_check_ok o s : op_fits_check o s = true -> op_fits o s.
Proof.
  destruct o as [e d m|t sg|t l nb|t sg|t|t st|t fl ct|]; cbn [op_fits_check op_fits]; try done;
    try (intros H%negb_true_iff%Z.eqb_neq; exact H).
  - intros [H%negb_true_iff%Z.eqb_neq|H]%orb_true_iff; [by left|right]. intros th Hth. rewrite Hth in H.
    by apply negb_true_iff, bool_decide_eq_false in H.
  - intros H th pr Hth Hpr. rewrite Hth, Hpr in H. by apply bool_decide_eq_true in H.
  - intros [H1%negb_true_iff%Z.eqb_neq H2%bool_decide_eq_true]%andb_true_iff t' s1 Ha. by rewrite Ha in H1, H2.
Qed.

Section FitsCheck.
Context (futex_wake : Z -> Sched -> option Sched).
Context (dispatch_pending_signal return_from_signal : Z -> Sched -> option Sched).

Fixpoint ops_fit_check (l : list Op) (s : Sched) : bool :=
  match l with
  | [] => true
  | o :: l' =>
      op_fits_check o s &&
      match run_op futex_wake dispatch_pending_signal return_from_signal o s with
      | Some s1 => ops_fit_check l' s1 | None => true end
  end.

Lemma ops_fit_check_ok l s : ops_fit_check l s = true ->
  ops_fit futex_wake dispatch_pending_signal return_from_signal l s.
Proof.
  revert s. induction l as [|o l IH]; intros s; cbn [ops_fit_check ops_fit]; [done|].
  intros [H1 H2]%andb_true_iff. split; [by apply op_fits_check_ok|]. intros s1 E. rewrite E in H2. auto.
Qed.
End FitsCheck.

Lemma demo_fits : ops_fit no_futex no_signal no_signal demo_ops demo_sched.
Proof. apply ops_fit_check_ok. by vm_compute. Qed.

(** ** Theorems *)

(** C15: Triggering an event that threads sleep on makes every one of them
    ready and puts it on the run list; triggering one that nobody listens to
    counts the trigger, so the next to wait does not sleep.  No thread on the
    run list leaves it. *)
Theorem event_wakes_listeners e s :
  queue_ok s -> listeners_ok s -> num_listeners (event_of e s) <= INT_MAX ->
  exists s', trigger e s = Some s' /\ queue_ok s' /\
    (forall t w, (t, w) ∈ listener_list (event_of e s) -> states s !! t = Some BLOCKED ->
       states s' !! t = Some READY /\ t ∈ run_list s') /\
    (listener_list (event_of e s) = [] -> pending (event_of e s') = pending (event_of e s) + 1) /\
    (forall t, t ∈ run_list s -> t ∈ run_list s').
Proof.
  intros Hok Hl Hmax. destruct (trigger_woke e false INT_MAX s Hok Hl Hmax) as (s' & He & Hw & Hr & Hp).
  exists s'. unfold trigger. rewrite He. split; [done|]. split; [apply Hw|]. split; [|split; [exact Hp|]].
  - intros t w Ht Hb. pose proof (Hr t w Ht Hb) as Hready. split; [done|].
    apply ready_listed; [apply Hw|by eapply blocked_not_idle|done].
  - intros t Ht. apply (wk_queue _ _ Hw). apply Hok in Ht as (Hi & st & Hst & Hrun). split; [done|].
    destruct (wk_states _ _ Hw t st Hst) as [H|[_ H]]; eauto.
Qed.




(** A process whose only thread leaves by [exit] is a zombie with no
    wait code, so its parent's wait finds nothing and sleeps: the child is never
    reaped and the status is lost. *)
Theorem exit_not_reaped futex_wake t th pr s s1 :
  (forall a s s', futex_wake a s = Some s' -> queue_ok s -> woke s s') ->
  queue_ok s -> threads s !! t = Some th -> processes s !! process th = Some pr ->
  living (process th) [t] s -> wait_code pr = 0 ->
  syscall_exit futex_wake t s = Some s1 ->
  (exists pr1, processes s1 !! process th = Some pr1 /\ is_zombie pr1 = true) /\
  waitid_turn futex_wake WEXITED (add_targets WEXITED (process th)) s1 = Some (None, s1).
Proof.
  intros Hf Hok Hth Hpr Hlv Hc H. unfold syscall_exit in H.
  destruct (terminate_last futex_wake (process th) t (-1) s s1 pr H Hok Hlv Hpr) as [Ht _].
  destruct (processes s1 !! process th) as [pr1|] eqn:Hp1; [|done]. injection Ht as E1 E2 E3 E4.
  split; [by exists pr1|]. unfold waitid_turn.
  change (add_targets WEXITED (process th)) with [(process th, zombie_event (process th))]. cbn [List.find].
  by rewrite Hp1, E2, Hc.
Qed.

(** ** Witnesses *)
Lemma event_wakes_listeners_witness :
  exists s', trigger (zombie_event 2) demo_sched = Some s' /\ states s' !! 1 = Some READY /\ 1 ∈ run_list s'.
Proof.
  destruct (event_wakes_listeners (zombie_event 2) demo_sched demo_queue demo_listeners) as (s' & H & _ & Hr & _);
    [by vm_compute|].
  exists s'. split; [exact H|]. apply (Hr 1 0); [by apply list_elem_of_singleton|done].
Defined.




Lemma exit_not_reaped_witness :
  exists s1, syscall_exit no_futex 2 demo_single = Some s1 /\
    waitid_turn no_futex WEXITED (add_targets WEXITED 2) s1 = Some (None, s1).
Proof.
  destruct (syscall_exit no_futex 2 demo_single) as [s1|] eqn:E; [|by vm_compute in E].
  exists s1. split; [done|].
  apply (exit_not_reaped no_futex 2 (demo_thread 2 RUNNING []) (demo_process [2] [] 1) demo_single s1
           no_futex_woke demo_single_queue eq_refl eq_refl demo_single_living eq_refl E).
Defined.
