(* ===== verification/Cred.v ===== *)
(** User and group identifiers (src/kernel/src/userland/cred.hpp and cred.cpp):
    the credentials of a thread and the calls that read and change them. *)
From S2P Require Import Prelude QSort.
From Stdlib Require Import Sorting.Sorted.

Definition ENOSYS : Z := 38.
Definition EPERM : Z := 1.
Definition EINVAL : Z := 22.

(** An identifier is an unsigned int; all ones means no change. *)
Record IdSet : Type := mkIdSet { rid : Z; eid : Z; fsid : Z; sid : Z }.
Definition contains (ids : IdSet) (id : Z) : bool := (rid ids =? id) || (eid ids =? id) || (sid ids =? id).

Record Cred : Type := mkCred { uids : IdSet; gids : IdSet; groups : list Z }.
Definition CAP_SETGID : Z := 6.
Definition CAP_SETUID : Z := 7.
Definition has_capability (c : Cred) (cap : Z) : bool := eid (uids c) =? 0.

(** A thread's credentials and its process's dumpable flag. *)
Record Task : Type := mkTask { cred : Cred; dumpable : bool }.

Definition ids_of (is_gid : bool) (c : Cred) : IdSet := if is_gid then gids c else uids c.
Definition set_ids (is_gid : bool) (ids : IdSet) (c : Cred) : Cred :=
  if is_gid then mkCred (uids c) ids (groups c) else mkCred ids (gids c) (groups c).
Definition no_change : Z := 4294967295.

Definition syscall_getuid (t : Task) : Z := rid (uids (cred t)).
Definition syscall_geteuid (t : Task) : Z := eid (uids (cred t)).
Definition syscall_getgid (t : Task) : Z := rid (gids (cred t)).
Definition syscall_getegid (t : Task) : Z := eid (gids (cred t)).
(** The real, effective and saved identifier. *)
Definition syscall_getresuid (t : Task) : Z * Z * Z := (rid (uids (cred t)), eid (uids (cred t)), sid (uids (cred t))).
Definition syscall_getresgid (t : Task) : Z * Z * Z := (rid (gids (cred t)), eid (gids (cred t)), sid (gids (cred t))).

Definition setid (is_gid : bool) (id : Z) (t : Task) : Z * Task :=
  let ids := ids_of is_gid (cred t) in
  let dump := if negb (id =? eid ids) then false else dumpable t in
  if has_capability (cred t) (if is_gid then CAP_SETGID else CAP_SETUID)
  then (0, mkTask (set_ids is_gid (mkIdSet id id id id) (cred t)) dump)
  else if contains ids id
  then (0, mkTask (set_ids is_gid (mkIdSet (rid ids) id id (sid ids)) (cred t)) dump)
  else (- EPERM, t).

Definition setresid (is_gid : bool) (r e s : Z) (t : Task) : Z * Task :=
  let ids := ids_of is_gid (cred t) in
  let pick (id old : Z) := if id =? no_change then old else id in
  let finish :=
    let ne := pick e (eid ids) in
    let new_ids := mkIdSet (pick r (rid ids)) ne ne (pick s (sid ids)) in
    let dump := if negb (eid new_ids =? eid ids) || negb (fsid new_ids =? fsid ids) then false else dumpable t in
    (0, mkTask (set_ids is_gid new_ids (cred t)) dump) in
  let allowed (id : Z) := (id =? no_change) || contains ids id in
  if has_capability (cred t) (if is_gid then CAP_SETGID else CAP_SETUID) then finish
  else if negb (allowed e) then (- EPERM, t)
  else if negb (allowed r) then (- EPERM, t)
  else if negb (allowed s) then (- EPERM, t)
  else finish.

Definition syscall_setuid (uid : Z) (t : Task) : Z * Task := setid false uid t.
Definition syscall_setgid (gid : Z) (t : Task) : Z * Task := setid true gid t.
Definition syscall_setreuid (ruid euid : Z) (t : Task) : Z * Task := setresid false ruid euid no_change t.
Definition syscall_setregid (rgid egid : Z) (t : Task) : Z * Task := setresid true rgid egid no_change t.
Definition syscall_setresuid (ruid euid suid : Z) (t : Task) : Z * Task := setresid false ruid euid suid t.
Definition syscall_setresgid (rgid egid sgid : Z) (t : Task) : Z * Task := setresid true rgid egid sgid t.
Definition syscall_setfsuid (fsuid : Z) (t : Task) : Z * Task := (- ENOSYS, t).
Definition syscall_setfsgid (fsgid : Z) (t : Task) : Z * Task := (- ENOSYS, t).

(** The result and what is copied out. *)
Definition syscall_getgroups (size : Z) (t : Task) : Z * list Z :=
  let actual_size := Z.of_nat (length (groups (cred t))) in
  if size =? 0 then (actual_size, [])
  else if size <? actual_size then (- EINVAL, [])
  else (actual_size, groups (cred t)).

(** [list] is the user's array. *)
Definition syscall_setgroups (size : Z) (l : list Z) (t : Task) : option (Z * Task) :=
  if size <? 0 then Some (- EINVAL, t)
  else if Z.of_nat (length l) <? size then None
  else
    sorted ← qsort_array (take (Z.to_nat size) l);
    Some (0, mkTask (mkCred (uids (cred t)) (gids (cred t)) sorted) (dumpable t)).

(** ** Calls *)
Inductive Call : Type :=
| Setuid (uid : Z) | Setgid (gid : Z) | Setreuid (r e : Z) | Setregid (r e : Z)
| Setresuid (r e s : Z) | Setresgid (r e s : Z) | Setfsuid (id : Z) | Setfsgid (id : Z).

Definition run (c : Call) (t : Task) : Z * Task :=
  match c with
  | Setuid u => syscall_setuid u t
  | Setgid g => syscall_setgid g t
  | Setreuid r e => syscall_setreuid r e t
  | Setregid r e => syscall_setregid r e t
  | Setresuid r e s => syscall_setresuid r e s t
  | Setresgid r e s => syscall_setresgid r e s t
  | Setfsuid u => syscall_setfsuid u t
  | Setfsgid g => syscall_setfsgid g t
  end.
Definition run_all (l : list Call) (t : Task) : Task := fold_left (fun t c => snd (run c t)) l t.

(** The identifiers a set gives the right to. *)
Definition owned (ids : IdSet) : list Z := [rid ids; eid ids; sid ids].

(** [ids] holds nothing but identifiers of [S]. *)
Definition within (S : list Z) (ids : IdSet) : Prop := rid ids ∈ S /\ eid ids ∈ S /\ sid ids ∈ S.

Lemma contains_within S ids id : within S ids -> contains ids id = true -> id ∈ S.
Proof.
  unfold contains. intros (H1 & H2 & H3) [[H%Z.eqb_eq|H%Z.eqb_eq]%orb_true_iff|H%Z.eqb_eq]%orb_true_iff; by subst.
Qed.

Definition unprivileged (t : Task) : Prop := eid (uids (cred t)) <> 0.

Lemma unprivileged_capability t cap : unprivileged t -> has_capability (cred t) cap = false.
Proof. unfold unprivileged, has_capability. by intros H%Z.eqb_neq. Qed.

Lemma setid_within is_gid id t U G :
  0 ∉ U -> within U (uids (cred t)) -> within G (gids (cred t)) ->
  let t' := snd (setid is_gid id t) in within U (uids (cred t')) /\ within G (gids (cred t')).
Proof.
  intros H0 HU HG. unfold setid. rewrite unprivileged_capability by (intros E; apply H0; rewrite <- E; apply HU).
  destruct (contains _ id) eqn:Hc; [|done]. cbn [snd cred]. destruct is_gid; cbn [ids_of set_ids uids gids] in *.
  - split; [done|]. destruct HG as (H1 & H2 & H3). pose proof (contains_within G _ _ (conj H1 (conj H2 H3)) Hc). done.
  - split; [|done]. destruct HU as (H1 & H2 & H3). pose proof (contains_within U _ _ (conj H1 (conj H2 H3)) Hc). done.
Qed.

Lemma setresid_within is_gid r e s t U G :
  0 ∉ U -> within U (uids (cred t)) -> within G (gids (cred t)) ->
  let t' := snd (setresid is_gid r e s t) in within U (uids (cred t')) /\ within G (gids (cred t')).
Proof.
  intros H0 HU HG. unfold setresid. rewrite unprivileged_capability by (intros E; apply H0; rewrite <- E; apply HU).
  set (ids := ids_of is_gid (cred t)).
  assert (Hids : within (if is_gid then G else U) ids) by (unfold ids; by destruct is_gid).
  assert (Hpick : forall id old, old ∈ (if is_gid then G else U) -> negb ((id =? no_change) || contains ids id) = false ->
            (if id =? no_change then old else id) ∈ (if is_gid then G else U)).
  { intros id old Hold Ha%negb_false_iff. destruct (id =? no_change); [done|]. by eapply contains_within. }
  destruct (negb (_ || contains ids e)) eqn:He; [done|]. destruct (negb (_ || contains ids r)) eqn:Hr; [done|].
  destruct (negb (_ || contains ids s)) eqn:Hs; [done|]. destruct Hids as (H1 & H2 & H3).
  pose proof (Hpick e _ H2 He). pose proof (Hpick r _ H1 Hr). pose proof (Hpick s _ H3 Hs).
  cbn [snd cred]. destruct is_gid; cbn [set_ids uids gids]; done.
Qed.


(** Setting the supplementary groups succeeds for any thread, privileged
    or not, and any groups, and stores them sorted. *)
Theorem setgroups_unchecked size l t :
  0 <= size <= Z.of_nat (length l) ->
  exists t', syscall_setgroups size l t = Some (0, t') /\ groups (cred t') ≡ₚ take (Z.to_nat size) l /\
    Sorted Z.le (groups (cred t')) /\ uids (cred t') = uids (cred t) /\
    syscall_getgroups size t' = (if size =? 0 then (0, []) else (size, groups (cred t'))).
Proof.
  intros Hs. unfold syscall_setgroups. destruct (Z.ltb_spec size 0); [lia|]. destruct (Z.ltb_spec (Z.of_nat (length l)) size); [lia|].
  destruct (qsort_spec (length (take (Z.to_nat size) l)) (take (Z.to_nat size) l) 0 (length (take (Z.to_nat size) l)))
    as (a & Ha & Hp & Hl & _ & Ho); [lia|lia|].
  unfold qsort_array. rewrite Ha. cbn [mbind option_bind]. eexists. split; [reflexivity|]. cbn [cred groups uids].
  split; [done|]. split; [apply ordered_sorted; by rewrite Hl|]. split; [done|].
  unfold syscall_getgroups. cbn [cred groups]. rewrite Hl, length_take. rewrite Nat.min_l by lia. rewrite Z2Nat.id by lia.
  destruct (Z.eqb_spec size 0) as [->|]; [done|]. by rewrite Z.ltb_irrefl.
Qed.

(** ** Witnesses *)
Definition demo_task : Task := mkTask (mkCred (mkIdSet 1000 1001 1001 1002) (mkIdSet 100 100 100 100) []) true.


Lemma setgroups_unchecked_witness :
  exists t', syscall_setgroups 3 [20; 0; 7] demo_task = Some (0, t') /\ groups (cred t') ≡ₚ [20; 0; 7].
Proof.
  destruct (setgroups_unchecked 3 [20; 0; 7] demo_task) as (t' & H & Hp & _); [simpl; lia|]. exists t'. split; [exact H|exact Hp].
Defined.
