(* ===== verification/Time.v ===== *)
(** Clocks and timers (src/kernel/src/klib/timespec.hpp and
    src/kernel/src/sched/time.cpp): times as seconds and nanoseconds, the timers
    the timer interrupt counts down, and the calls on clocks, sleeps and interval
    timers. *)
From S2P Require Import Prelude Signal Sched.

(** ** Times *)
Record TimeSpec : Type := mkTime { seconds : Z; nanoseconds : Z }.
#[export] Instance TimeSpec_eq_dec : EqDecision TimeSpec.
Proof. solve_decision. Defined.

Definition zero_time : TimeSpec := mkTime 0 0.
Definition from_seconds (s : Z) : TimeSpec := mkTime s 0.
Definition from_microseconds (us : Z) : TimeSpec := mkTime (us / 1000000) (us mod 1000000 * 1000).

(** A timeval: seconds and microseconds. *)
Record TimeVal : Type := mkTimeVal { tv_sec : Z; tv_usec : Z }.
Definition from_timeval (v : TimeVal) : TimeSpec := mkTime (tv_sec v) (tv_usec v * 1000).
Definition to_timeval (t : TimeSpec) : TimeVal := mkTimeVal (seconds t) (Z.quot (nanoseconds t) 1000).

Definition is_zero (t : TimeSpec) : bool := (seconds t =? 0) && (nanoseconds t =? 0).

(** [operator +=] *)
Definition time_add (a b : TimeSpec) : TimeSpec :=
  if 999999999 <? nanoseconds a + nanoseconds b
  then mkTime (seconds a + 1 + seconds b) (nanoseconds a + nanoseconds b - 1000000000)
  else mkTime (seconds a + seconds b) (nanoseconds a + nanoseconds b).

(** [operator -=] *)
Definition time_sub (a b : TimeSpec) : TimeSpec :=
  if nanoseconds a <? nanoseconds b then
    let n := 999999999 - (nanoseconds b - nanoseconds a) in
    if seconds a =? 0 then zero_time
    else
      let s := seconds a - 1 in
      if s <? seconds b then zero_time else mkTime (s - seconds b) n
  else
    if seconds a <? seconds b then zero_time else mkTime (seconds a - seconds b) (nanoseconds a - nanoseconds b).

(** ** Timers *)
Record Timer : Type := mkTimer {
  remaining : TimeSpec;
  interval : TimeSpec;
  callback : option Z;
  fired : bool
}.
Definition new_timer : Timer := mkTimer zero_time zero_time None false.

(** The timers there are, those the interrupt counts down in their order, and
    the clocks. *)
Record Clock : Type := mkClock {
  timers : gmap Z Timer;
  armed_timers_list : list Z;
  monotonic_clock : TimeSpec;
  realtime_clock : TimeSpec
}.
Definition set_timers (m : gmap Z Timer) (c : Clock) : Clock :=
  mkClock m (armed_timers_list c) (monotonic_clock c) (realtime_clock c).
Definition set_armed (l : list Z) (c : Clock) : Clock :=
  mkClock (timers c) l (monotonic_clock c) (realtime_clock c).

Definition init_time (boot_time : option Z) : Clock :=
  mkClock ∅ [] (from_seconds 0) (from_seconds (default 0 boot_time)).

(** [Timer::arm]; the callback is kept when none is given.  Arming a timer that
    is already armed links it twice: [None]. *)
Definition arm (t : Z) (time : TimeSpec) (cb : option Z) (c : Clock) : option Clock :=
  tm ← timers c !! t;
  l ← list_append t (armed_timers_list c);
  Some (set_armed l (set_timers (<[t := mkTimer time (interval tm) (match cb with Some _ => cb | None => callback tm end) false]> (timers c)) c)).

Definition disarm (t : Z) (c : Clock) : option Clock :=
  tm ← timers c !! t;
  Some (set_armed (list_remove t (armed_timers_list c))
          (set_timers (<[t := mkTimer zero_time zero_time None (fired tm)]> (timers c)) c)).

Section Update.
(** What a timer's callback does with its data. *)
Context (run_callback : Z -> Sched -> option Sched).

(** The body of the loop of [update_time]. *)
Definition tick_timer (dt : TimeSpec) (t : Z) (c : Clock) (s : Sched) : option (Clock * Sched) :=
  tm ← timers c !! t;
  if fired tm then Some (c, s)
  else
    let r := time_sub (remaining tm) dt in
    if is_zero r then
      '(c1, s1) ← (if is_zero (interval tm) then
                     s1 ← trigger (timer_event t) s;
                     Some (set_armed (list_remove t (armed_timers_list c))
                             (set_timers (<[t := mkTimer r (interval tm) (callback tm) true]> (timers c)) c), s1)
                   else Some (set_timers (<[t := mkTimer (interval tm) (interval tm) (callback tm) false]> (timers c)) c, s));
      match callback tm with
      | Some d => s2 ← run_callback d s1; Some (c1, s2)
      | None => Some (c1, s1)
      end
    else Some (set_timers (<[t := mkTimer r (interval tm) (callback tm) false]> (timers c)) c, s).

Fixpoint tick_timers (dt : TimeSpec) (l : list Z) (c : Clock) (s : Sched) : option (Clock * Sched) :=
  match l with
  | [] => Some (c, s)
  | t :: l' => '(c1, s1) ← tick_timer dt t c s; tick_timers dt l' c1 s1
  end.

Definition update_time (dt : TimeSpec) (c : Clock) (s : Sched) : option (Clock * Sched) :=
  let c1 := mkClock (timers c) (armed_timers_list c) (time_add (monotonic_clock c) dt) (time_add (realtime_clock c) dt) in
  tick_timers dt (armed_timers_list c1) c1 s.
End Update.

(** ** Clocks *)
Definition CLOCK_REALTIME : Z := 0.
Definition CLOCK_MONOTONIC : Z := 1.
Definition CLOCK_MONOTONIC_RAW : Z := 4.
Definition CLOCK_MONOTONIC_COARSE : Z := 6.
Definition CLOCK_BOOTTIME : Z := 7.

(** [us] is the time since the last interrupt. *)
Definition get_clock (clock_id us : Z) (imprecise : bool) (c : Clock) : TimeSpec :=
  let current_interval := if imprecise then zero_time else from_microseconds us in
  if (clock_id =? CLOCK_BOOTTIME) || (clock_id =? CLOCK_MONOTONIC) then time_add (monotonic_clock c) current_interval
  else if clock_id =? CLOCK_REALTIME then time_add (realtime_clock c) current_interval
  else zero_time.

Definition syscall_time (us : Z) (c : Clock) : Z := seconds (get_clock CLOCK_REALTIME us false c).
Definition syscall_gettimeofday (us : Z) (c : Clock) : TimeVal := to_timeval (get_clock CLOCK_REALTIME us false c).

Definition plain_clock (clock_id : Z) : Z :=
  if (clock_id =? CLOCK_MONOTONIC_COARSE) || (clock_id =? CLOCK_MONOTONIC_RAW) || (clock_id =? CLOCK_BOOTTIME)
  then CLOCK_MONOTONIC else clock_id.
Definition known_clock (clock_id : Z) : bool := (clock_id =? CLOCK_REALTIME) || (clock_id =? CLOCK_MONOTONIC).

(** The result and the time stored. *)
Definition syscall_clock_gettime (clock_id us : Z) (c : Clock) : Z * option TimeSpec :=
  let id := plain_clock clock_id in
  if negb (known_clock id) then (- EINVAL, None) else (0, Some (get_clock id us false c)).
Definition syscall_clock_getres (clock_id : Z) : Z * option TimeSpec :=
  if negb (known_clock (plain_clock clock_id)) then (- EINVAL, None) else (0, Some (from_microseconds 10)).

(** [clock_nanosleep_impl] with its timer [t], up to the sleep and after it. *)
Definition nanosleep_begin (t th : Z) (duration : TimeSpec) (c : Clock) (s : Sched) : option (option Z * Clock * Sched) :=
  c1 ← arm t duration None (set_timers (<[t := new_timer]> (timers c)) c);
  '(r, s1) ← Event_wait th [timer_event t] false s;
  Some (r, c1, s1).
(** [ret] is the result of the wait; the remaining time is read after [disarm]. *)
Definition nanosleep_end (t ret : Z) (c : Clock) : option (Z * TimeSpec * Clock) :=
  c1 ← disarm t c;
  tm ← timers c1 !! t;
  if ret =? - EINTR then Some (- EINTR, remaining tm, c1)
  else if fired tm then Some (0, remaining tm, c1) else None.

Definition ITIMER_REAL : Z := 0.
Record ITimerVal : Type := mkITimerVal { it_interval : TimeVal; it_value : TimeVal }.

Definition read_itimer (t : Z) (c : Clock) : option ITimerVal :=
  tm ← timers c !! t; Some (mkITimerVal (to_timeval (interval tm)) (to_timeval (remaining tm))).
Definition syscall_getitimer (t which : Z) (c : Clock) : option (Z * option ITimerVal) :=
  if negb (which =? ITIMER_REAL) then Some (- EINVAL, None) else (v ← read_itimer t c; Some (0, Some v)).

(** [t] is the interval timer of process [p]; its callback sends [p] a SIGALRM. *)
Definition setitimer_impl (t p which : Z) (new_value : option ITimerVal) (c : Clock) : option (Z * option ITimerVal * Clock) :=
  if negb (which =? ITIMER_REAL) then Some (- EINVAL, None, c)
  else
    let nv := default (mkITimerVal (mkTimeVal 0 0) (mkTimeVal 0 0)) new_value in
    if (999999 <? tv_usec (it_value nv)) || (999999 <? tv_usec (it_interval nv)) then Some (- EINVAL, None, c)
    else
      let timer_value := from_timeval (it_value nv) in
      let timer_interval := from_timeval (it_interval nv) in
      old ← read_itimer t c;
      c1 ← disarm t c;
      if is_zero timer_value then Some (0, Some old, c1)
      else
        tm ← timers c1 !! t;
        c2 ← arm t timer_value (Some p) (set_timers (<[t := mkTimer (remaining tm) timer_interval (callback tm) (fired tm)]> (timers c1)) c1);
        Some (0, Some old, c2).
Definition syscall_alarm (t p secs : Z) (c : Clock) : option (Z * Clock) :=
  '(r, old, c1) ← setitimer_impl t p ITIMER_REAL (Some (mkITimerVal (mkTimeVal 0 0) (mkTimeVal secs 0))) c;
  o ← old;
  Some (tv_sec (it_value o), c1).
(** The callback of an interval timer. *)
Definition send_sigalrm (p : Z) (s : Sched) : option Sched := Process_send_signal p SIGALRM s.

(** ** The arithmetic *)
Definition normal (t : TimeSpec) : Prop := 0 <= seconds t /\ 0 <= nanoseconds t <= 999999999.
Definition total (t : TimeSpec) : Z := seconds t * 1000000000 + nanoseconds t.

Lemma time_add_total a b : normal a -> normal b -> normal (time_add a b) /\ total (time_add a b) = total a + total b.
Proof.
  unfold normal, total, time_add. intros Ha Hb. destruct (Z.ltb_spec 999999999 (nanoseconds a + nanoseconds b)); cbn [seconds nanoseconds]; lia.
Qed.

(** A borrow loses a nanosecond; what would be negative is zero. *)
Lemma time_sub_total a b : normal a -> normal b ->
  normal (time_sub a b) /\ Z.max 0 (total a - total b - 1) <= total (time_sub a b) <= Z.max 0 (total a - total b).
Proof.
  unfold normal, total, time_sub, zero_time. intros Ha Hb.
  destruct (Z.ltb_spec (nanoseconds a) (nanoseconds b)).
  - destruct (Z.eqb_spec (seconds a) 0); [cbn [seconds nanoseconds]; lia|].
    destruct (Z.ltb_spec (seconds a - 1) (seconds b)); cbn [seconds nanoseconds]; lia.
  - destruct (Z.ltb_spec (seconds a) (seconds b)); cbn [seconds nanoseconds]; lia.
Qed.

Lemma is_zero_total t : normal t -> is_zero t = (total t =? 0).
Proof.
  unfold normal, total, is_zero. intros H. destruct (Z.eqb_spec (seconds t) 0), (Z.eqb_spec (nanoseconds t) 0); cbn [andb];
    symmetry; apply Z.eqb_eq || apply Z.eqb_neq; lia.
Qed.

(** ** Counting down *)
Section CountDown.
Context (run_callback : Z -> Sched -> option Sched).
Context (dt : TimeSpec) (dt_normal : normal dt).

(** A one-shot timer that has yet to fire. *)
Definition pending_timer (t : Z) (c : Clock) (tm : Timer) : Prop :=
  timers c !! t = Some tm /\ t ∈ armed_timers_list c /\ fired tm = false /\ interval tm = zero_time /\ normal (remaining tm).
Definition has_fired (t : Z) (c : Clock) : Prop :=
  exists tm, timers c !! t = Some tm /\ fired tm = true /\ t ∉ armed_timers_list c.

Definition same_timer (t : Z) (c c' : Clock) : Prop :=
  timers c' !! t = timers c !! t /\ (t ∈ armed_timers_list c' <-> t ∈ armed_timers_list c).

Lemma list_remove_elem x t l : x ∈ list_remove t l <-> x <> t /\ x ∈ l.
Proof. unfold list_remove. by rewrite list_elem_of_filter. Qed.

Lemma tick_other t u c s c' s' : tick_timer run_callback dt u c s = Some (c', s') -> t <> u ->
  same_timer t c c' /\ (NoDup (armed_timers_list c) -> NoDup (armed_timers_list c')).
Proof.
  unfold tick_timer. intros H Htu. destruct (timers c !! u) as [tm|]; [|done]. cbn [mbind option_bind] in H.
  destruct (fired tm); [by simplify_eq|].
  assert (Hst : forall c1, same_timer t c c1 /\ (NoDup (armed_timers_list c) -> NoDup (armed_timers_list c1)) ->
    forall s1, match callback tm with Some d => s2 ← run_callback d s1; Some (c1, s2) | None => Some (c1, s1) end = Some (c', s') ->
    same_timer t c c' /\ (NoDup (armed_timers_list c) -> NoDup (armed_timers_list c'))).
  { intros c1 Hc1 s1 Hcb. destruct (callback tm); [|by simplify_eq]. destruct (run_callback _ s1); [by simplify_eq/=|done]. }
  destruct (is_zero (time_sub (remaining tm) dt)).
  - destruct (is_zero (interval tm)).
    + destruct (trigger (timer_event u) s) as [s1|]; [|done]. cbn [mbind option_bind] in H. eapply Hst, H.
      split; [split; [by cbn; rewrite lookup_insert_ne|]|cbn; intros; by apply NoDup_filter].
      cbn. rewrite list_remove_elem. tauto.
    + cbn [mbind option_bind] in H. eapply Hst, H. split; [split; [by cbn; rewrite lookup_insert_ne|done]|done].
  - simplify_eq. split; [split; [by cbn; rewrite lookup_insert_ne|done]|done].
Qed.

Lemma tick_self t tm c s c' s' : tick_timer run_callback dt t c s = Some (c', s') -> pending_timer t c tm ->
  if total (time_sub (remaining tm) dt) =? 0 then has_fired t c'
  else pending_timer t c' (mkTimer (time_sub (remaining tm) dt) zero_time (callback tm) false).
Proof.
  unfold tick_timer. intros H (Htm & Harm & Hf & Hi & Hn). rewrite Htm in H. cbn [mbind option_bind] in H. rewrite Hf in H.
  destruct (time_sub_total (remaining tm) dt Hn dt_normal) as [Hn' _]. rewrite is_zero_total in H by done.
  destruct (total (time_sub (remaining tm) dt) =? 0).
  - rewrite Hi in H. change (is_zero zero_time) with true in H. cbv iota in H.
    destruct (trigger (timer_event t) s) as [s1|]; [|done]. cbn [mbind option_bind] in H.
    assert (c' = set_armed (list_remove t (armed_timers_list c))
                   (set_timers (<[t := mkTimer (time_sub (remaining tm) dt) zero_time (callback tm) true]> (timers c)) c)) as ->.
    { destruct (callback tm); [|by simplify_eq]. destruct (run_callback _ s1); [by simplify_eq/=|done]. }
    eexists. split; [cbn; apply lookup_insert_eq|]. split; [done|]. cbn. rewrite list_remove_elem. tauto.
  - injection H as <- <-. rewrite Hi. split; [cbn; apply lookup_insert_eq|]. done.
Qed.

Lemma tick_timers_other t : forall l c s c' s', tick_timers run_callback dt l c s = Some (c', s') -> t ∉ l ->
  same_timer t c c'.
Proof.
  induction l as [|u l IH]; intros c s c' s' H Ht; cbn [tick_timers] in H; [by simplify_eq|].
  apply not_elem_of_cons in Ht as [Htu Ht]. destruct (tick_timer run_callback dt u c s) as [[c1 s1]|] eqn:E; [|done].
  cbn [mbind option_bind] in H. destruct (tick_other t u c s c1 s1 E Htu) as [[H1 H2] _].
  destruct (IH _ _ _ _ H Ht) as [H3 H4]. split; [congruence|tauto].
Qed.

Lemma tick_timers_nodup : forall l c s c' s', tick_timers run_callback dt l c s = Some (c', s') ->
  NoDup (armed_timers_list c) -> NoDup (armed_timers_list c').
Proof.
  induction l as [|u l IH]; intros c s c' s' H Hnd; cbn [tick_timers] in H; [by simplify_eq|].
  destruct (tick_timer run_callback dt u c s) as [[c1 s1]|] eqn:E; [|done]. cbn [mbind option_bind] in H.
  apply (IH _ _ _ _ H). clear H. unfold tick_timer in E. destruct (timers c !! u) as [tm|]; [|done]. cbn [mbind option_bind] in E.
  destruct (fired tm); [by simplify_eq|]. destruct (is_zero (time_sub _ dt)); [|by simplify_eq].
  destruct (is_zero (interval tm)).
  - destruct (trigger (timer_event u) s) as [s2|]; [|done]. cbn [mbind option_bind] in E.
    destruct (callback tm); [destruct (run_callback _ s2); [|done]|]; simplify_eq/=; by apply NoDup_filter.
  - cbn [mbind option_bind] in E. destruct (callback tm); [destruct (run_callback _ s); [|done]|]; by simplify_eq/=.
Qed.

Lemma update_pending t tm c s c' s' : update_time run_callback dt c s = Some (c', s') -> pending_timer t c tm ->
  NoDup (armed_timers_list c) ->
  NoDup (armed_timers_list c') /\
  if total (time_sub (remaining tm) dt) =? 0 then has_fired t c'
  else pending_timer t c' (mkTimer (time_sub (remaining tm) dt) zero_time (callback tm) false).
Proof.
  unfold update_time. intros H Hp Hnd. split; [by eapply tick_timers_nodup in H|].
  set (c0 := mkClock _ _ _ _) in H. assert (Hp0 : pending_timer t c0 tm) by exact Hp.
  change (armed_timers_list c0) with (armed_timers_list c) in H. destruct Hp as (_ & Harm & _).
  clearbody c0. revert c0 s H Hp0 Hnd Harm. generalize (armed_timers_list c).
  induction l as [|u l IH]; intros c0 s0 H Hp0 Hnd Harm; [by apply elem_of_nil in Harm|]. cbn [tick_timers] in H.
  destruct (tick_timer run_callback dt u c0 s0) as [[c1 s1]|] eqn:E; [|done]. cbn [mbind option_bind] in H.
  apply NoDup_cons in Hnd as [Hu Hnd]. apply elem_of_cons in Harm as [->|Harm].
  - pose proof (tick_self u tm c0 s0 c1 s1 E Hp0) as Hs. destruct (tick_timers_other u _ _ _ _ _ H Hu) as [H1 H2].
    destruct (_ =? 0).
    + destruct Hs as (tm' & Ht' & Hf' & Ha'). exists tm'. rewrite H1, H2. done.
    + destruct Hs as (Ht' & Ha' & Hr'). split; [congruence|]. split; [tauto|done].
  - assert (Htu : t <> u) by (intros ->; done).
    destruct (tick_other t u c0 s0 c1 s1 E Htu) as [[H1 H2] _]. apply (IH c1 s1 H); [|done|done].
    destruct Hp0 as (P1 & P2 & P3). split; [congruence|]. split; [tauto|done].
Qed.

(** So many timer interrupts. *)
Fixpoint updates (n : nat) (c : Clock) (s : Sched) : option (Clock * Sched) :=
  match n with O => Some (c, s) | S n => '(c1, s1) ← update_time run_callback dt c s; updates n c1 s1 end.

Lemma fired_kept t c s c' s' : update_time run_callback dt c s = Some (c', s') -> has_fired t c -> has_fired t c'.
Proof.
  unfold update_time. intros H (tm & H1 & H2 & H3). set (c0 := mkClock _ _ _ _) in H.
  destruct (tick_timers_other t _ _ _ _ _ H H3) as [E1 E2]. exists tm. rewrite E1, E2. done.
Qed.

Lemma updates_fired t n : forall c s c' s', updates n c s = Some (c', s') -> has_fired t c -> has_fired t c'.
Proof.
  induction n as [|n IH]; intros c s c' s' H Hf; cbn [updates] in H; [by simplify_eq|].
  destruct (update_time run_callback dt c s) as [[c1 s1]|] eqn:E; [|done]. cbn [mbind option_bind] in H.
  eapply IH; [exact H|by eapply fired_kept].
Qed.

Lemma updates_pending t : forall n tm c s c' s', updates n c s = Some (c', s') -> pending_timer t c tm ->
  NoDup (armed_timers_list c) ->
  (Z.of_nat n * (total dt + 1) < total (remaining tm) ->
     exists tm', pending_timer t c' tm' /\
       total (remaining tm) - Z.of_nat n * (total dt + 1) <= total (remaining tm') <= total (remaining tm) - Z.of_nat n * total dt) /\
  ((0 < n)%nat -> total (remaining tm) <= Z.of_nat n * total dt -> has_fired t c').
Proof.
  induction n as [|n IH]; intros tm c s c' s' H Hp Hnd; cbn [updates] in H.
  - simplify_eq. split; [intros _; exists tm; split; [done|lia]|lia].
  - destruct (update_time run_callback dt c s) as [[c1 s1]|] eqn:E; [|done]. cbn [mbind option_bind] in H.
    destruct (update_pending t tm c s c1 s1 E Hp Hnd) as [Hnd1 Hstep].
    destruct Hp as (_ & _ & _ & _ & Hn). pose proof (time_sub_total (remaining tm) dt Hn dt_normal) as [Hn' Hb].
    assert (Hdt : 0 <= total dt) by (destruct dt_normal; unfold total; lia).
    destruct (Z.eqb_spec (total (time_sub (remaining tm) dt)) 0) as [E0|E0].
    + split; [intros Hlt; rewrite Nat2Z.inj_succ in Hlt; nia|]. intros _ _. by eapply updates_fired.
    + destruct (IH _ c1 s1 c' s' H Hstep Hnd1) as [IH1 IH2]. cbn [remaining] in IH1, IH2. rewrite Nat2Z.inj_succ. split.
      * intros Hlt. destruct IH1 as (tm' & Hp' & Hr'); [nia|]. exists tm'. split; [done|]. nia.
      * intros _ Hge. apply IH2; [destruct n; [simpl in Hge; lia|lia]|nia].
Qed.
End CountDown.


(** *** A sleep of 12 ms on a 5 ms interrupt *)
Definition demo_clock : Clock := set_timers {[9 := new_timer]} (init_time None).
Definition dt_5ms : TimeSpec := from_microseconds 5000.

