(* ===== verification/Futex.v ===== *)
(** Futexes (src/kernel/src/userland/futex.cpp): waiting on and waking through
    a word of user memory, over the events of Sched.v, the hash table of KList.v,
    the timers of Time.v and the page tables of MemSyscalls.v.

    An event is found by what [Pagemap::get_physical_addr] returns for the
    address, which is the address of the page. *)
From S2P Require Import Prelude.
From S2P Require Import KList.
From S2P Require Import PageTable.
From S2P Require Import AddressSpace.
From S2P Require Import MemSyscalls.
From S2P Require Import Signal.
From S2P Require Import Sched.
From S2P Require Import Time.

Definition EAGAIN : Z := 11.
Definition ETIMEDOUT : Z := 110.
Definition ENOSYS : Z := 38.
Definition FUTEX_BITSET_MATCH_ANY : Z := 4294967295.

(** The table of addresses that have an event, the address space and the user
    words of the calling process, the clocks and the scheduler. *)
Record Fx : Type := mkFx {
  futex_hash_table : @HashTable.HashTable Z unit;
  space : MemSyscalls.Process;
  words : gmap Z Z;
  clock : Clock;
  sch : Sched.Sched
}.
Definition set_table (t : @HashTable.HashTable Z unit) (x : Fx) : Fx := mkFx t (space x) (words x) (clock x) (sch x).
Definition set_space (p : MemSyscalls.Process) (x : Fx) : Fx := mkFx (futex_hash_table x) p (words x) (clock x) (sch x).
Definition set_words (w : gmap Z Z) (x : Fx) : Fx := mkFx (futex_hash_table x) (space x) w (clock x) (sch x).
Definition set_clock (c : Clock) (x : Fx) : Fx := mkFx (futex_hash_table x) (space x) (words x) c (sch x).
Definition set_sch (s : Sched.Sched) (x : Fx) : Fx := mkFx (futex_hash_table x) (space x) (words x) (clock x) s.

Section Futex.
(** Fuel for the page faults a lookup of an address takes. *)
Context (pf_fuel : nat).

Definition phys (uaddr : Z) (x : Fx) : option (Z * Fx) :=
  '(r, _, p) ← MemSyscalls.get_physical_addr pf_fuel uaddr (space x); Some (r, set_space p x).

(** [timeout]: the local timer with the duration it is armed for.  The result
    is that of the wait, or nothing when the thread [th] went to sleep. *)
Definition futex_wait_begin (th uaddr expected : Z) (timeout : option (Z * TimeSpec)) (x : Fx) : option (option Z * Fx) :=
  w ← words x !! uaddr;
  if negb (w =? expected) then Some (Some (- EAGAIN), x)
  else
    '(phy_addr, x) ← phys uaddr x;
    if phy_addr <? 0 then Some (Some phy_addr, x)
    else
      ev ← HashTable.get hash64 phy_addr (futex_hash_table x);
      t ← (match ev with Some _ => Some (futex_hash_table x) | None => HashTable.emplace hash64 phy_addr tt (futex_hash_table x) end);
      let x := set_table t x in
      '(events, x) ← (match timeout with
                      | Some (tm, duration) =>
                          c ← arm tm duration None (set_timers (<[tm := new_timer]> (timers (clock x))) (clock x));
                          Some ([futex_event phy_addr; timer_event tm], set_clock c x)
                      | None => Some ([futex_event phy_addr], x)
                      end);
      '(r, s) ← Event_wait th events false (sch x);
      Some (r, set_sch s x).

(** After the wait: its result, and the timer disarmed. *)
Definition futex_wait_end (ret : Z) (timeout : option (Z * TimeSpec)) (x : Fx) : option (Z * Fx) :=
  c ← (match timeout with Some (tm, _) => disarm tm (clock x) | None => Some (clock x) end);
  Some (if ret =? 1 then - ETIMEDOUT else ret, set_clock c x).

Definition futex_wake (uaddr max_to_wake : Z) (x : Fx) : option (Z * Fx) :=
  _ ← words x !! uaddr;
  '(phy_addr, x) ← phys uaddr x;
  if phy_addr <? 0 then Some (phy_addr, x)
  else
    ev ← HashTable.get hash64 phy_addr (futex_hash_table x);
    match ev with
    | None => Some (0, x)
    | Some _ =>
        '(n, s) ← Event_trigger (futex_event phy_addr) true max_to_wake (sch x);
        Some (n, set_sch s x)
    end.

Definition FUTEX_OP_OPARG_SHIFT : Z := 8.

(** The value to store, or nothing for an unknown operation. *)
Definition futex_op (op old op_arg : Z) : option Z :=
  if op =? 0 then Some op_arg
  else if op =? 1 then Some (u32 (old + op_arg))
  else if op =? 2 then Some (Z.lor old op_arg)
  else if op =? 3 then Some (u32 (Z.lnot (Z.land old op_arg)))
  else if op =? 4 then Some (Z.lxor old op_arg)
  else None.
Definition futex_cmp (cmp old_val cmp_arg : Z) : option bool :=
  if cmp =? 0 then Some (old_val =? cmp_arg)
  else if cmp =? 1 then Some (negb (old_val =? cmp_arg))
  else if cmp =? 2 then Some (old_val <? cmp_arg)
  else if cmp =? 3 then Some (old_val <=? cmp_arg)
  else if cmp =? 4 then Some (cmp_arg <? old_val)
  else if cmp =? 5 then Some (cmp_arg <=? old_val)
  else None.

(** The code takes the operand from bits 24 to 27 and the comparison from bits
    12 to 23, where callers put them the other way round. *)
Definition futex_wake_op (uaddr1 max1 uaddr2 max2 op_encoded : Z) (x : Fx) : option (Z * Fx) :=
  let op := Z.land (Z.shiftr op_encoded 28) 15 in
  let op_arg := Z.land (Z.shiftr op_encoded 24) 15 in
  let cmp := Z.land (Z.shiftr op_encoded 12) 4095 in
  let cmp_arg := Z.land op_encoded 4095 in
  let op_arg := if has op FUTEX_OP_OPARG_SHIFT then Z.shiftl 1 op_arg else op_arg in
  let op := Z.ldiff op FUTEX_OP_OPARG_SHIFT in
  match futex_op op 0 op_arg with
  | None => Some (- EINVAL, x)
  | Some _ =>
      old_val ← words x !! uaddr2;
      new ← futex_op op old_val op_arg;
      '(ret1, x) ← futex_wake uaddr1 max1 (set_words (<[uaddr2 := new]> (words x)) x);
      if ret1 <? 0 then Some (ret1, x)
      else
        match futex_cmp cmp old_val cmp_arg with
        | None => Some (- EINVAL, x)
        | Some false => Some (ret1, x)
        | Some true =>
            '(ret2, x) ← futex_wake uaddr2 max2 x;
            if ret2 <? 0 then Some (ret2, x) else Some (ret1 + ret2, x)
        end
  end.

(** [us] is the time since the last interrupt, [tm] the local timer. *)
Definition futex_wait_bitset (th tm uaddr expected : Z) (absolute_timeout : option TimeSpec) (mask us : Z)
    (is_clock_realtime : bool) (x : Fx) : option (option Z * Fx) :=
  if negb (mask =? FUTEX_BITSET_MATCH_ANY) then Some (Some (- ENOSYS), x)
  else
    match absolute_timeout with
    | Some a =>
        let current_time := get_clock (if is_clock_realtime then CLOCK_REALTIME else CLOCK_MONOTONIC) us false (clock x) in
        let relative_timeout := time_sub a current_time in
        if is_zero relative_timeout then Some (Some (- ETIMEDOUT), x)
        else futex_wait_begin th uaddr expected (Some (tm, relative_timeout)) x
    | None => futex_wait_begin th uaddr expected None x
    end.
Definition futex_wake_bitset (uaddr max_to_wake mask : Z) (x : Fx) : option (Z * Fx) :=
  if negb (mask =? FUTEX_BITSET_MATCH_ANY) then Some (- ENOSYS, x) else futex_wake uaddr max_to_wake x.

Definition FUTEX_CLOCK_REALTIME : Z := 256.
Definition FUTEX_CMD_MASK : Z := -385.

(** [syscall_futex]; [timeout] is the time [arg2] points at. *)
Definition syscall_futex (th tm us uaddr op arg1 arg2 arg3 arg4 : Z) (timeout : option TimeSpec) (x : Fx)
    : option (option Z * Fx) :=
  let done (r : option (Z * Fx)) := '(v, x) ← r; Some (Some v, x) in
  let cmd := Z.land (Z.ldiff op 128) FUTEX_CMD_MASK in
  let is_clock_realtime := has op FUTEX_CLOCK_REALTIME in
  if cmd =? 0 then futex_wait_begin th uaddr (u32 arg1) ((fun t => (tm, t)) <$> timeout) x
  else if cmd =? 1 then done (futex_wake uaddr (i32 arg1) x)
  else if cmd =? 9 then futex_wait_bitset th tm uaddr (u32 arg1) timeout (u32 arg4) us is_clock_realtime x
  else if cmd =? 10 then done (futex_wake_bitset uaddr (i32 arg1) (u32 arg4) x)
  else if cmd =? 5 then done (futex_wake_op uaddr (i32 arg1) arg3 (i32 arg2) (u32 arg4) x)
  else Some (Some (- ENOSYS), x).

(** What the end of a thread does with its [clear_child_tid]: store 0 there and
    wake one waiter. *)
Definition clear_tid (uaddr : Z) (x : Fx) : option Fx :=
  _ ← words x !! uaddr;
  snd <$> futex_wake uaddr 1 (set_words (<[uaddr := 0]> (words x)) x).
End Futex.

(** ** Waking a few *)

(** The loop stops after the first [max_to_wake] listeners, one at least. *)
Lemma wake_listeners_cut l : forall num max_to_wake s, l <> [] ->
  wake_listeners l num max_to_wake s =
  wake_listeners (take (Z.to_nat (Z.max 1 (max_to_wake - num))) l) num INT_MAX s \/ INT_MAX <= num + Z.of_nat (length l).
Proof.
  induction l as [|[t w] l IH]; intros num m s Hl; [done|]. clear Hl.
  destruct (Z.leb_spec INT_MAX (num + Z.of_nat (length ((t, w) :: l)))) as [|Hlt]; [by right|left].
  cbn [length] in Hlt. destruct (Z.to_nat (Z.max 1 (m - num))) as [|k] eqn:Ek; [lia|]. cbn [take wake_listeners].
  destruct (enqueue_thread t (-1) (upd_thread t (with_which w) s)) as [s1|]; [|done]. cbn [mbind option_bind].
  destruct (Z.leb_spec INT_MAX (num + 1)); [lia|].
  destruct (Z.leb_spec m (num + 1)).
  - assert (k = 0%nat) as -> by lia. done.
  - destruct l as [|p l]; [by rewrite take_nil|]. destruct (IH (num + 1) m s1 ltac:(done)) as [-> | Hov]; [|simpl in *; lia].
    replace (Z.to_nat (Z.max 1 (m - (num + 1)))) with k by lia. done.
Qed.

(** A thread that does not listen keeps its state. *)
Lemma wake_listeners_frame l : forall num m s n s' u, wake_listeners l num m s = Some (n, s') -> u ∉ l.*1 ->
  states s' !! u = states s !! u.
Proof.
  induction l as [|[t w] l IH]; intros num m s n s' u H Hu; cbn [wake_listeners] in H; [by simplify_eq|].
  cbn in Hu. apply not_elem_of_cons in Hu as [Hut Hu].
  set (s0 := upd_thread t (with_which w) s) in *.
  destruct (enqueue_thread t (-1) s0) as [s1|] eqn:E; [|done]. cbn [mbind option_bind] in H.
  assert (H1 : states s1 !! u = states s !! u).
  { transitivity (states s0 !! u); [|unfold s0; by rewrite states_upd].
    destruct (enqueue_shape _ _ _ _ E) as [->|(l0 & st & ->)]; [done|].
    rewrite !states_lookup. cbn [upd_thread set_threads threads set_run_list]. by rewrite lookup_alter_ne. }
  destruct (m <=? num + 1); [by simplify_eq|]. rewrite <- H1. by eapply IH.
Qed.

(** The first [k] of the listeners. *)
Definition woken (max_to_wake : Z) (l : list (Z * Z)) : list (Z * Z) := take (Z.to_nat (Z.max 1 max_to_wake)) l.

Lemma trigger_first e max_to_wake s :
  queue_ok s -> listeners_ok s -> NoDup (listener_list (event_of e s)).*1 ->
  0 < num_listeners (event_of e s) < INT_MAX ->
  exists s', Event_trigger e true max_to_wake s = Some (Z.of_nat (length (woken max_to_wake (listener_list (event_of e s)))), s') /\
    woke s s' /\
    (forall t, t ∈ (woken max_to_wake (listener_list (event_of e s))).*1 -> states s !! t = Some BLOCKED -> states s' !! t = Some READY) /\
    (forall t, t ∉ (woken max_to_wake (listener_list (event_of e s))).*1 -> states s' !! t = states s !! t).
Proof.
  intros Hok Hl Hnd Hn. unfold Event_trigger. destruct (Z.eqb_spec (num_listeners (event_of e s)) 0); [lia|].
  unfold num_listeners in Hn. set (l := listener_list (event_of e s)) in *.
  destruct (wake_listeners_cut l 0 max_to_wake s) as [E|]; [intros E; rewrite E in Hn; simpl in Hn; lia| |lia].
  rewrite Z.sub_0_r in E. fold (woken max_to_wake l) in E. rewrite E.
  assert (Hlen : (length (woken max_to_wake l) <= length l)%nat) by (unfold woken; rewrite length_take; lia).
  destruct (wake_listeners_spec (woken max_to_wake l) 0 INT_MAX s) as (s' & Hw & Hk & Hr); [done| |lia|].
  { intros t w Ht. apply elem_of_take in Ht as (i & Hi & _). unfold l, event_of in Hi.
    destruct (events s !! e) as [ev|] eqn:He; [|done]. eapply Hl; [exact He|]. apply list_elem_of_lookup. by exists i. }
  exists s'. split; [exact Hw|]. split; [done|]. split.
  - intros t [[t' w] [-> Htw]]%list_elem_of_fmap Hb. by eapply Hr.
  - intros t Ht. by eapply wake_listeners_frame.
Qed.

(** Waking [n] waiters of an address wakes the [n] that came first, one at
    least, in the order they came, leaves every other thread as it was and
    returns how many it woke. *)
Theorem futex_wake_first pf_fuel uaddr n x w a fills p m :
  words x !! uaddr = Some w ->
  MemSyscalls.get_physical_addr pf_fuel uaddr (space x) = Some (a, fills, p) -> 0 <= a ->
  HashTable.represents hash64 (futex_hash_table x) m -> m !! a = Some tt ->
  queue_ok (sch x) -> listeners_ok (sch x) ->
  let l := listener_list (event_of (futex_event a) (sch x)) in
  NoDup l.*1 -> 0 < Z.of_nat (length l) < INT_MAX ->
  exists x', futex_wake pf_fuel uaddr n x = Some (Z.min (Z.max 1 n) (Z.of_nat (length l)), x') /\ queue_ok (sch x') /\
    (forall t, t ∈ (take (Z.to_nat (Z.max 1 n)) l).*1 -> states (sch x) !! t = Some BLOCKED -> states (sch x') !! t = Some READY) /\
    (forall t, t ∉ (take (Z.to_nat (Z.max 1 n)) l).*1 -> states (sch x') !! t = states (sch x) !! t).
Proof.
  intros Hw Hg Ha Hr Hm Hok Hl l Hnd Hlen. unfold futex_wake, phys. rewrite Hw. cbn [mbind option_bind]. rewrite Hg.
  cbn [mbind option_bind]. destruct (Z.ltb_spec a 0); [lia|]. cbn [set_space futex_hash_table sch].
  rewrite (HashTable.get_represents hash64 _ m a Hr), Hm. cbn [mbind option_bind].
  destruct (trigger_first (futex_event a) n (sch x) Hok Hl Hnd Hlen) as (s' & -> & Hwk & H1 & H2). cbn [mbind option_bind].
  eexists. split.
  { f_equal. f_equal. unfold woken. rewrite length_take. change (listener_list (event_of (futex_event a) (sch x))) with l. lia. }
  split; [exact (wk_queue _ _ Hwk)|]. split; [exact H1|exact H2].
Qed.

(** The wake of a thread's end wakes threads and does nothing else to the
    scheduler: what the exit of a thread asks of it. *)
Lemma clear_tid_woke pf_fuel uaddr x x' :
  clear_tid pf_fuel uaddr x = Some x' -> queue_ok (sch x) -> woke (sch x) (sch x').
Proof.
  unfold clear_tid. intros H Hok. destruct (words x !! uaddr) as [w|]; [|done]. cbn [mbind option_bind] in H.
  set (x0 := set_words _ x) in *. destruct (futex_wake pf_fuel uaddr 1 x0) as [[r x1]|] eqn:E; [|done]. injection H as <-.
  unfold futex_wake in E. destruct (words x0 !! uaddr); [|done]. cbn [mbind option_bind] in E. unfold phys in E.
  destruct (MemSyscalls.get_physical_addr _ _ _) as [[[a fl] p]|]; [|done]. cbn [mbind option_bind] in E.
  destruct (a <? 0); [injection E as _ <-; by apply woke_same|].
  destruct (HashTable.get _ _ _) as [ev|]; [|done]. cbn [mbind option_bind] in E.
  destruct ev; [|injection E as _ <-; by apply woke_same].
  destruct (Event_trigger _ _ _ _) as [[n s1]|] eqn:Et; [|done]. cbn [mbind option_bind] in E. injection E as _ <-.
  by eapply trigger_some_woke.
Qed.

(** ** Going to sleep *)

(** A thread that goes to sleep on one event is blocked and last in its list. *)
Lemma Event_wait_sleeps t e s s' : Event_wait t [e] false s = Some (None, s') ->
  states s' = <[t := BLOCKED]> (states s) /\
  event_of e s' = mkEvent (pending (event_of e s)) (listener_list (event_of e s) ++ [(t, 0)]) /\
  (listeners_ok s -> listeners_ok s').
Proof.
  unfold Event_wait. intros H. destruct (threads s !! t) as [th|] eqn:Ht; [|done]. cbn [mbind option_bind] in H.
  destruct (has_pending th); [done|]. cbn [take_pending] in H. destruct (0 <? pending (event_of e s)); [done|].
  destruct (negb _); [done|]. cbn [add_listeners] in H.
  set (s1 := upd_thread t _ (set_events _ s)) in *.
  assert (H1 : states s1 = states s) by by apply (states_upd (set_events _ s)).
  assert (He : event_of e s1 = mkEvent (pending (event_of e s)) (listener_list (event_of e s) ++ [(t, 0)])).
  { unfold s1, event_of. cbn [upd_thread set_threads set_events events]. by rewrite lookup_insert_eq. }
  assert (Hl1 : listeners_ok s -> listeners_ok s1).
  { intros Hl e' ev u w He' Hu. apply states_some. rewrite H1. apply states_some. unfold s1 in He'.
    cbn [upd_thread set_threads set_events events] in He'. destruct (decide (e = e')) as [<-|].
    - rewrite lookup_insert_eq in He'. injection He' as <-. cbn in Hu. apply elem_of_app in Hu as [Hu|Hu].
      + unfold event_of in Hu. destruct (events s !! e) as [ev|] eqn:Hev; [by eapply Hl|by apply elem_of_nil in Hu].
      + apply list_elem_of_singleton in Hu. injection Hu as -> _. by exists th.
    - rewrite lookup_insert_ne in He' by done. by eapply Hl. }
  unfold dequeue_thread in H. destruct (threads s1 !! t) as [th1|] eqn:Ht1; [|done]. cbn [mbind option_bind] in H.
  destruct (_ && _); [done|]. cbn [Z.opp Z.eqb negb] in H. injection H as <-.
  assert (Hs' : states (upd_thread t (with_state BLOCKED) (set_run_list (list_remove t (run_list s)) s1)) = <[t := BLOCKED]> (states s1)).
  { apply (states_set (set_run_list (list_remove t (run_list s)) s1)); [by exists th1|done]. }
  split; [by rewrite Hs', H1|]. split; [exact He|]. intros Hl e' ev u w He' Hu.
  apply states_some. rewrite Hs'. destruct (decide (t = u)) as [<-|]; [rewrite lookup_insert_eq; eauto|].
  rewrite lookup_insert_ne by done. apply states_some. by eapply (Hl1 Hl e').
Qed.

Lemma same_page_phys a b e p fuel :
  0 <= a < KERNEL_HALF -> 0 <= b < KERNEL_HALF -> vpn a = vpn b ->
  find_entry a p = Some e -> has e PAGE_PRESENT = true ->
  MemSyscalls.get_physical_addr fuel b p = Some (Z.land e ADDR_MASK, [], p).
Proof.
  intros Ha Hb Hv He Hp. unfold get_physical_addr. assert (find_entry b p = Some e) as ->; [|by rewrite Hp].
  rewrite <- He. unfold find_entry, half_of. rewrite Hv. destruct (Z.ltb_spec a KERNEL_HALF), (Z.ltb_spec b KERNEL_HALF); lia || done.
Qed.

Lemma wait_begin_sleeps pf th a v x x' A m :
  MemSyscalls.get_physical_addr pf a (space x) = Some (A, [], space x) -> 0 <= A ->
  HashTable.represents hash64 (futex_hash_table x) m ->
  futex_wait_begin pf th a v None x = Some (None, x') ->
  space x' = space x /\ words x' = words x /\ words x !! a = Some v /\
  HashTable.represents hash64 (futex_hash_table x') (<[A := tt]> m) /\
  Event_wait th [futex_event A] false (sch x) = Some (None, sch x').
Proof.
  intros Hg HA Hr H. unfold futex_wait_begin in H. destruct (words x !! a) as [w|] eqn:Hw; [|done]. cbn [mbind option_bind] in H.
  destruct (Z.eqb_spec w v) as [->|]; cbn [negb] in H; [|done]. unfold phys in H. rewrite Hg in H. cbn [mbind option_bind] in H.
  destruct (Z.ltb_spec A 0); [lia|]. cbn [set_space futex_hash_table sch] in H.
  rewrite (HashTable.get_represents hash64 _ m A Hr) in H. cbn [mbind option_bind] in H.
  assert (Ht : exists t', (match m !! A with Some _ => Some (futex_hash_table x)
                           | None => HashTable.emplace hash64 A tt (futex_hash_table x) end) = Some t' /\
                          HashTable.represents hash64 t' (<[A := tt]> m)).
  { destruct (m !! A) as [[]|] eqn:Em; [exists (futex_hash_table x); split; [done|by rewrite (insert_id m A tt Em)]|by apply HashTable.emplace_represents]. }
  destruct Ht as (t' & Et & Hr'). rewrite Et in H. cbn [mbind option_bind] in H. cbn [set_table set_space sch] in H.
  destruct (Event_wait th [futex_event A] false (sch x)) as [[r s1]|]; [|done]. cbn [mbind option_bind] in H.
  injection H as -> <-. done.
Qed.

(** Two words of one page share an event.  A thread waits on the one, then
    another thread on the other; waking one waiter of the second word wakes the
    first thread, reports a success, and the thread meant sleeps on. *)
Theorem futex_page_shared pf th1 th2 a b va vb x x1 x2 e m :
  0 <= a < KERNEL_HALF -> 0 <= b < KERNEL_HALF -> vpn a = vpn b ->
  find_entry a (space x) = Some e -> has e PAGE_PRESENT = true -> 0 <= e ->
  HashTable.represents hash64 (futex_hash_table x) m -> queue_ok (sch x) -> listeners_ok (sch x) ->
  listener_list (event_of (futex_event (Z.land e ADDR_MASK)) (sch x)) = [] ->
  th1 <> th2 -> th1 <> IDLE -> th2 <> IDLE ->
  futex_wait_begin pf th1 a va None x = Some (None, x1) ->
  futex_wait_begin pf th2 b vb None x1 = Some (None, x2) ->
  exists x3, futex_wake pf b 1 x2 = Some (1, x3) /\
    states (sch x3) !! th1 = Some READY /\ states (sch x3) !! th2 = Some BLOCKED.
Proof.
  intros Ha Hb Hv He Hp He0 Hr Hok Hl Hnil H12 Hi1 Hi2 H1 H2. set (A := Z.land e ADDR_MASK) in *.
  assert (HA : 0 <= A) by (apply Z.land_nonneg; by left).
  destruct (wait_begin_sleeps pf th1 a va x x1 A m) as (Es1 & Ew1 & Wa & Hr1 & Hw1); [|done|done|done|].
  { by apply (same_page_phys a a e). }
  destruct (wait_begin_sleeps pf th2 b vb x1 x2 A (<[A := tt]> m)) as (Es2 & Ew2 & Wb & Hr2 & Hw2); [|done|done|done|].
  { rewrite Es1. by apply (same_page_phys a b e). }
  destruct (Event_wait_sleeps _ _ _ _ Hw1) as (S1 & L1 & K1). destruct (Event_wait_sleeps _ _ _ _ Hw2) as (S2 & L2 & K2).
  assert (Hok2 : queue_ok (sch x2)).
  { eapply Event_wait_queue; [exact Hw2|done|]. eapply Event_wait_queue; [exact Hw1|done|done]. }
  rewrite L1, Hnil in L2. cbn [listener_list pending app] in L2.
  assert (Hlist : listener_list (event_of (futex_event A) (sch x2)) = [(th1, 0); (th2, 0)]) by by rewrite L2.
  destruct (trigger_first (futex_event A) 1 (sch x2) Hok2 (K2 (K1 Hl))) as (s3 & Ht & _ & R1 & R2).
  { rewrite Hlist. cbn. repeat constructor; set_solver. }
  { unfold num_listeners. rewrite Hlist. by vm_compute. }
  rewrite Hlist in Ht, R1, R2. change (woken 1 [(th1, 0); (th2, 0)]) with [(th1, 0)] in *.
  exists (set_sch s3 x2). split; [|split].
  - unfold futex_wake, phys. rewrite Ew2, Wb. cbn [mbind option_bind]. rewrite Es2, Es1.
    rewrite (same_page_phys a b e) by done. cbn [mbind option_bind]. fold A. destruct (Z.ltb_spec A 0); [lia|].
    cbn [set_space futex_hash_table sch]. rewrite (HashTable.get_represents hash64 _ _ A Hr2).
    rewrite lookup_insert_eq. cbn [mbind option_bind]. rewrite Ht. cbn [mbind option_bind]. do 2 f_equal.
    unfold set_space. cbn [words clock sch]. rewrite <- Es1, <- Es2. by destruct x2.
  - cbn [sch set_sch]. apply R1; [by left|]. rewrite S2, S1, lookup_insert_ne, lookup_insert_eq by done. done.
  - cbn [sch set_sch]. rewrite R2; [|cbn; rewrite list_elem_of_singleton; congruence]. by rewrite S2, lookup_insert_eq.
Qed.

(** ** Witnesses *)

(** Two words in a page that is present, and the machine of Sched.v. *)
Definition demo_space : MemSyscalls.Process :=
  MemSyscalls.mkProcess
    (mkPagemap [] {[ vpn example_base := Z.lor (Pmm.phy 2) 7 ]} ∅ ∅ (Pmm.Pmm_init Pmm.memmap_example) 1)
    example_kernel {[ vpn example_base / 512 ]} 0 0.
Definition demo_fx : Fx :=
  mkFx (HashTable.new 256) demo_space {[ example_base := 5; example_base + 64 := 6 ]} (init_time None) demo_sched.

(** Both threads of process 2 asleep, each on its word. *)
Definition demo_waiting : Fx :=
  match futex_wait_begin 1 2 example_base 5 None demo_fx with
  | Some (None, x1) => match futex_wait_begin 1 3 (example_base + 64) 6 None x1 with Some (None, x2) => x2 | _ => demo_fx end
  | _ => demo_fx
  end.

Lemma demo_table : HashTable.represents hash64 (futex_hash_table demo_fx) ∅.
Proof. by apply HashTable.new_represents. Qed.

Lemma futex_page_shared_witness :
  exists x1 x2 x3, futex_wait_begin 1 2 example_base 5 None demo_fx = Some (None, x1) /\
    futex_wait_begin 1 3 (example_base + 64) 6 None x1 = Some (None, x2) /\
    futex_wake 1 (example_base + 64) 1 x2 = Some (1, x3) /\ states (sch x3) !! 3 = Some BLOCKED.
Proof.
  pose proof (fun x1 x2 => futex_page_shared 1 2 3 example_base (example_base + 64) 5 6 demo_fx x1 x2 (Z.lor (Pmm.phy 2) 7) ∅
    ltac:(by vm_compute) ltac:(by vm_compute) ltac:(by vm_compute) ltac:(by vm_compute) ltac:(by vm_compute) ltac:(by vm_compute)
    demo_table demo_queue demo_listeners ltac:(by vm_compute) ltac:(done) ltac:(done) ltac:(done)) as T.
  destruct (futex_wait_begin 1 2 example_base 5 None demo_fx) as [[r1 x1]|] eqn:E1; [|by vm_compute in E1].
  assert (r1 = None) as -> by (assert (fst <$> futex_wait_begin 1 2 example_base 5 None demo_fx = Some None) as H
    by (by vm_compute); rewrite E1 in H; by injection H).
  destruct (futex_wait_begin 1 3 (example_base + 64) 6 None x1) as [[r2 x2]|] eqn:E2;
    [|vm_compute in E1; injection E1 as <-; by vm_compute in E2].
  assert (r2 = None) as ->.
  { assert ((match futex_wait_begin 1 2 example_base 5 None demo_fx with
             | Some (_, y) => fst <$> futex_wait_begin 1 3 (example_base + 64) 6 None y | None => None end) = Some None) as H
      by (by vm_compute). rewrite E1, E2 in H. by injection H. }
  destruct (T x1 x2 eq_refl E2) as (x3 & H1 & _ & H2).
  exists x1, x2, x3. exact (conj eq_refl (conj E2 (conj H1 H2))).
Defined.

Lemma futex_wake_first_witness :
  exists x', futex_wake 1 example_base 5 demo_waiting = Some (2, x') /\
    states (sch x') !! 2 = Some READY /\ states (sch x') !! 3 = Some READY.
Proof.
  destruct (futex_wake_first 1 example_base 5 demo_waiting 5 (Pmm.phy 2) [] demo_space {[ Pmm.phy 2 := tt ]})
    as (x' & H1 & _ & H2 & _).
  - by vm_compute.
  - by vm_compute.
  - by vm_compute.
  - destruct (HashTable.emplace_represents hash64 _ _ (Pmm.phy 2) tt demo_table eq_refl) as (t & Et & Hr).
    assert (Some (futex_hash_table demo_waiting) = Some t) as E by (rewrite <- Et; by vm_compute).
    apply (inj Some) in E. rewrite E. rewrite insert_empty in Hr. exact Hr.
  - done.
  - apply rq_check_ok. by vm_compute.
  - intros e ev t w He Ht.
    assert (map_Forall (fun _ ev => Forall (fun p => is_Some (threads (sch demo_waiting) !! fst p)) (listener_list ev))
              (events (sch demo_waiting))) as Hall by (apply (bool_decide_unpack _); by vm_compute).
    specialize (Hall e ev He). rewrite Forall_forall in Hall. exact (Hall _ Ht).
  - apply (bool_decide_unpack _); by vm_compute.
  - by vm_compute.
  - exists x'. split; [exact H1|]. split; (apply H2; [apply (bool_decide_unpack _); by vm_compute|by vm_compute]).
Defined.
