(* ===== verification/UserMem.v ===== *)
(** The memory of a process as the kernel sees it while it loads a program:
    the ranges [Pagemap::map_anonymous] (src/kernel/src/mem/vmm.cpp) has mapped
    and the bytes stored there.  A page that was not touched reads as zeros,
    which is what the fault handler of MemSyscalls.v fills it with; an access
    outside every range is [None]. *)
From S2P Require Import Prelude.

Record Mem : Type := mkMem {
  anonymous : list (Z * Z);
  stored : gmap Z Z
}.
Definition no_mem : Mem := mkMem [] ∅.

Definition in_range (a : Z) (r : Z * Z) : bool := (fst r <=? a) && (a <? fst r + snd r).
Definition is_mapped (a : Z) (m : Mem) : bool := existsb (in_range a) (anonymous m).

(** A range over pages that were mapped before keeps their bytes. *)
Definition map_anonymous (base len : Z) (m : Mem) : Mem := mkMem ((base, len) :: anonymous m) (stored m).

Definition load8 (a : Z) (m : Mem) : option Z :=
  if is_mapped a m then Some (default 0 (stored m !! a)) else None.
Definition store8 (a v : Z) (m : Mem) : option Mem :=
  if is_mapped a m then Some (mkMem (anonymous m) (<[a := v]> (stored m))) else None.

(** [memcpy] to user memory, and [memset]. *)
Fixpoint store_bytes (a : Z) (l : list Z) (m : Mem) : option Mem :=
  match l with
  | [] => Some m
  | v :: l' => m1 ← store8 a v m; store_bytes (u64 (a + 1)) l' m1
  end.
Definition memset (a v len : Z) (m : Mem) : option Mem := store_bytes a (replicate (Z.to_nat len) v) m.

Fixpoint load_bytes (a : Z) (n : nat) (m : Mem) : option (list Z) :=
  match n with
  | O => Some []
  | S n => v ← load8 a m; l ← load_bytes (u64 (a + 1)) n m; Some (v :: l)
  end.

Definition store_word (a w : Z) (m : Mem) : option Mem := store_bytes a (le_split 8 w) m.
Definition load_word (a : Z) (m : Mem) : option Z := le_combine <$> load_bytes a 8 m.

(** ** Laws *)

Definition mapped_all (lo hi : Z) (m : Mem) : Prop := forall a, lo <= a < hi -> is_mapped a m = true.
Definition TOP : Z := 18446744073709551616.

Lemma in_range_spec a r : in_range a r = true <-> fst r <= a < fst r + snd r.
Proof. unfold in_range. rewrite andb_true_iff, Z.leb_le, Z.ltb_lt. done. Qed.

Lemma is_mapped_spec a m : is_mapped a m = true <-> exists r, r ∈ anonymous m /\ fst r <= a < fst r + snd r.
Proof.
  unfold is_mapped. rewrite existsb_exists. split; intros (r & Hr & Ha); exists r.
  - split; [by apply list_elem_of_In|by apply in_range_spec].
  - split; [by apply list_elem_of_In|by apply in_range_spec].
Qed.

Lemma map_anonymous_mapped b len m : mapped_all b (b + len) (map_anonymous b len m).
Proof. intros a Ha. apply is_mapped_spec. exists (b, len). split; [left|done]. Qed.

Lemma map_anonymous_keeps b len m a : is_mapped a m = true -> is_mapped a (map_anonymous b len m) = true.
Proof. rewrite !is_mapped_spec. intros (r & Hr & Ha). exists r. split; [by right|done]. Qed.

Lemma load8_mapped a m : is_mapped a m = true <-> is_Some (load8 a m).
Proof. unfold load8. destruct (is_mapped a m); split; [done|done|done|by intros [? ?]]. Qed.

Lemma load8_map b len m a : is_mapped a m = true -> load8 a (map_anonymous b len m) = load8 a m.
Proof. intros Ha. unfold load8. by rewrite (map_anonymous_keeps _ _ _ _ Ha), Ha. Qed.

(** What a sequence of stores does. *)
Lemma store_bytes_spec l : forall a m, 0 <= a -> a + Z.of_nat (length l) <= TOP ->
  mapped_all a (a + Z.of_nat (length l)) m ->
  exists m', store_bytes a l m = Some m' /\ anonymous m' = anonymous m /\
    (forall k v, l !! k = Some v -> load8 (a + Z.of_nat k) m' = Some v) /\
    (forall x, x < a \/ a + Z.of_nat (length l) <= x -> load8 x m' = load8 x m).
Proof.
  induction l as [|v l IH]; intros a m Ha Ht Hm; [by exists m|]. cbn [store_bytes length] in *.
  assert (is_mapped a m = true) as Hma by (apply Hm; lia).
  unfold store8. rewrite Hma. cbn [mbind option_bind].
  set (m1 := mkMem (anonymous m) (<[a := v]> (stored m))).
  assert (forall x, is_mapped x m1 = is_mapped x m) as Hmm by done.
  destruct l as [|w l'].
  - exists m1. cbn [store_bytes]. split_and!; try done.
    + intros [|k] v' Hk; cbn in Hk; [|done]. simplify_eq. rewrite Z.add_0_r. unfold load8. rewrite Hmm, Hma.
      cbn [stored m1]. by rewrite lookup_insert_eq.
    + intros x Hx. unfold load8. rewrite Hmm. cbn [stored m1]. rewrite lookup_insert_ne; [done|]. cbn in Hx. lia.
  - rewrite u64_small by (cbn [length] in *; unfold TOP in *; lia).
    destruct (IH (a + 1) m1) as (m' & Hs & Han & Hin & Hout).
    { lia. } { cbn [length] in *. lia. } { intros x Hx. rewrite Hmm. apply Hm. cbn [length] in *. lia. }
    exists m'. split_and!; [done|done| |].
    + intros [|k] v' Hk; cbn in Hk.
      * simplify_eq. rewrite Hout by lia. rewrite Z.add_0_r. unfold load8. rewrite Hmm, Hma.
        cbn [stored m1]. by rewrite lookup_insert_eq.
      * replace (a + Z.of_nat (S k)) with (a + 1 + Z.of_nat k) by lia. by apply Hin.
    + intros x Hx. rewrite Hout by (cbn [length] in *; lia).
      unfold load8. rewrite Hmm. cbn [stored m1]. rewrite lookup_insert_ne; [done|]. cbn [length] in Hx. lia.
Qed.

Lemma anonymous_mapped m m' a : anonymous m' = anonymous m -> is_mapped a m' = is_mapped a m.
Proof. unfold is_mapped. by intros ->. Qed.

Lemma memset_spec a v len m : 0 <= a -> 0 <= len -> a + len <= TOP -> mapped_all a (a + len) m ->
  exists m', memset a v len m = Some m' /\ anonymous m' = anonymous m /\
    (forall x, a <= x < a + len -> load8 x m' = Some v) /\
    (forall x, x < a \/ a + len <= x -> load8 x m' = load8 x m).
Proof.
  intros Ha Hl Ht Hm.
  destruct (store_bytes_spec (replicate (Z.to_nat len) v) a m) as (m' & Hs & Han & Hin & Hout).
  { done. } { rewrite length_replicate, Z2Nat.id; done. } { rewrite length_replicate, Z2Nat.id; done. }
  rewrite length_replicate, Z2Nat.id in Hout by done.
  exists m'. split_and!; [done|done| |done].
  intros x Hx. specialize (Hin (Z.to_nat (x - a)) v).
  rewrite Z2Nat.id in Hin by lia. replace (a + (x - a)) with x in Hin by lia.
  apply Hin. apply lookup_replicate. split; [done|lia].
Qed.

(** The bytes [l] are found from [a] on. *)
Definition bytes_at (m : Mem) (a : Z) (l : list Z) : Prop :=
  forall k v, l !! k = Some v -> load8 (a + Z.of_nat k) m = Some v.

Lemma bytes_at_app m a l1 l2 : bytes_at m a (l1 ++ l2) <-> bytes_at m a l1 /\ bytes_at m (a + Z.of_nat (length l1)) l2.
Proof.
  split.
  - intros H. split; intros k v Hk.
    + apply H. by apply lookup_app_l_Some.
    + specialize (H (length l1 + k)%nat v). rewrite <- Z.add_assoc, <- Nat2Z.inj_add. apply H.
      rewrite lookup_app_r by lia. by replace (length l1 + k - length l1)%nat with k by lia.
  - intros [H1 H2] k v Hk. apply lookup_app_Some in Hk as [Hk|[Hl Hk]]; [by apply H1|].
    specialize (H2 _ _ Hk). rewrite <- H2. f_equal. lia.
Qed.

Lemma bytes_at_frame m m' a l : bytes_at m a l ->
  (forall x, a <= x < a + Z.of_nat (length l) -> load8 x m' = load8 x m) -> bytes_at m' a l.
Proof. intros H Hf k v Hk. rewrite Hf; [by apply H|]. apply lookup_lt_Some in Hk. lia. Qed.

Lemma load_bytes_at l : forall a m, 0 <= a -> a + Z.of_nat (length l) <= TOP -> bytes_at m a l ->
  load_bytes a (length l) m = Some l.
Proof.
  induction l as [|v l IH]; intros a m Ha Ht H; [done|]. cbn [load_bytes length] in *.
  pose proof (H 0%nat v eq_refl) as H0. rewrite Z.add_0_r in H0. rewrite H0. cbn [mbind option_bind].
  destruct l as [|w l']; [done|].
  rewrite u64_small by (cbn [length] in *; unfold TOP in *; lia).
  rewrite IH; [done|lia|cbn [length] in *; lia|].
  intros k x Hk. specialize (H (S k) x Hk). rewrite <- H. f_equal. lia.
Qed.

(** The words [l] are found from [a] on. *)
Fixpoint words_at (m : Mem) (a : Z) (l : list Z) : Prop :=
  match l with
  | [] => True
  | w :: l' => load_word a m = Some w /\ words_at m (a + 8) l'
  end.

Lemma load_word_frame m m' a : 0 <= a -> a + 8 <= TOP -> (forall x, a <= x < a + 8 -> load8 x m' = load8 x m) ->
  load_word a m' = load_word a m.
Proof.
  intros Ha Ht H. unfold load_word. f_equal.
  assert (forall n b, a <= b -> b + Z.of_nat n <= a + 8 -> load_bytes b n m' = load_bytes b n m) as Hn.
  { induction n as [|n IH]; intros b Hb Hl; [done|]. cbn [load_bytes]. rewrite H by lia.
    destruct n as [|n']; [done|]. unfold TOP in Ht. rewrite u64_small by lia. rewrite IH by lia. done. }
  apply Hn; lia.
Qed.

Lemma words_at_frame l : forall m m' a, 0 <= a -> a + 8 * Z.of_nat (length l) <= TOP ->
  (forall x, a <= x < a + 8 * Z.of_nat (length l) -> load8 x m' = load8 x m) -> words_at m a l -> words_at m' a l.
Proof.
  induction l as [|w l IH]; intros m m' a Ha Ht Hf; [done|]. cbn [words_at length] in *. intros [Hw Hl]. split.
  - rewrite (load_word_frame m m') by (try lia; intros; apply Hf; lia). done.
  - apply (IH m); [lia|lia| |done]. intros x Hx. apply Hf. lia.
Qed.

Lemma words_at_lookup l : forall m a k w, words_at m a l -> l !! k = Some w -> load_word (a + 8 * Z.of_nat k) m = Some w.
Proof.
  induction l as [|x l IH]; intros m a k w Hw Hk; [done|]. destruct Hw as [H0 Hl]. destruct k as [|k]; cbn in Hk.
  - simplify_eq. by rewrite Z.add_0_r.
  - rewrite <- (IH m (a + 8) k w Hl Hk). f_equal. lia.
Qed.

Lemma words_at_app l1 : forall l2 m a, words_at m a (l1 ++ l2) <->
  words_at m a l1 /\ words_at m (a + 8 * Z.of_nat (length l1)) l2.
Proof.
  induction l1 as [|w l1 IH]; intros l2 m a; cbn [words_at app length].
  - rewrite Z.add_0_r. tauto.
  - rewrite IH. replace (a + 8 + 8 * Z.of_nat (length l1)) with (a + 8 * Z.of_nat (S (length l1))) by lia. tauto.
Qed.

Definition word (w : Z) : Prop := 0 <= w < TOP.

Lemma store_word_spec a w m : 0 <= a -> a + 8 <= TOP -> mapped_all a (a + 8) m -> word w ->
  exists m', store_word a w m = Some m' /\ anonymous m' = anonymous m /\ load_word a m' = Some w /\
    (forall x, x < a \/ a + 8 <= x -> load8 x m' = load8 x m).
Proof.
  intros Ha Ht Hm Hw.
  destruct (store_bytes_spec (le_split 8 w) a m) as (m' & Hs & Han & Hin & Hout).
  { done. } { by rewrite le_split_length. } { by rewrite le_split_length. }
  rewrite le_split_length in Hout. exists m'. split_and!; [done|done| |done].
  unfold load_word. pose proof (load_bytes_at (le_split 8 w) a m' Ha) as Hl. rewrite le_split_length in Hl.
  rewrite Hl by done. cbn [fmap option_fmap option_map]. rewrite le_combine_split. f_equal.
  apply Z.mod_small. done.
Qed.
