(* ===== verification/Elf.v ===== *)
(** The ELF loader (src/kernel/src/userland/elf.hpp and elf.cpp): the headers
    of a file and the loading of its segments into a fresh address space.

    The file is a vnode that keeps its bytes while it is read (program files
    are regular).  [None] is a stopped kernel: a failed [ASSERT] or a store
    outside the mapped ranges. *)
From S2P Require Import Prelude FdTable Signal VNode Tmpfs UserMem.

(** ** Headers *)
Record Header : Type := mkHeader {
  identifier : list Z;
  type : Z;
  arch : Z;
  version : Z;
  entry_addr : Z;
  ph_table_offset : Z;
  sh_table_offset : Z;
  header_flags : Z;
  eh_size : Z;
  ph_entry_size : Z;
  ph_count : Z;
  sh_entry_size : Z;
  sh_count : Z;
  sh_str_table_index : Z
}.
Definition header_size : Z := 64.

Record ProgramHeader : Type := mkProgramHeader {
  ph_type : Z;
  ph_flags : Z;
  ph_offset : Z;
  virt_addr : Z;
  phy_addr : Z;
  file_size : Z;
  mem_size : Z;
  alignment : Z
}.
Definition program_header_size : Z := 56.

(** A field of [n] bytes at an offset of a packed structure. *)
Definition field (bs : list Z) (off n : Z) : Z := le_combine (sub bs off n).

Definition decode_header (bs : list Z) : Header :=
  mkHeader (sub bs 0 16) (field bs 16 2) (field bs 18 2) (field bs 20 4) (field bs 24 8) (field bs 32 8)
    (field bs 40 8) (field bs 48 4) (field bs 52 2) (field bs 54 2) (field bs 56 2) (field bs 58 2) (field bs 60 2)
    (field bs 62 2).
Definition decode_program_header (bs : list Z) : ProgramHeader :=
  mkProgramHeader (field bs 0 4) (field bs 4 4) (field bs 8 8) (field bs 16 8) (field bs 24 8) (field bs 32 8)
    (field bs 40 8) (field bs 48 8).

Record Auxval : Type := mkAuxval { at_entry : Z; at_phdr : Z; at_phent : Z; at_phnum : Z }.
Definition no_auxval : Auxval := mkAuxval 0 0 0 0.

Definition ELFMAG : list Z := [127; 69; 76; 70].
Definition EI_CLASS : nat := 4.
Definition EI_DATA : nat := 5.
Definition EI_OSABI : nat := 7.
Definition ELFCLASS64 : Z := 2.
Definition ELFDATA2LSB : Z := 1.
Definition ELFOSABI_SYSV : Z := 0.
Definition ELFOSABI_GNU : Z := 3.
Definition EM_X86_64 : Z := 62.
Definition ET_EXEC : Z := 2.
Definition PT_LOAD : Z := 1.
Definition PT_INTERP : Z := 3.
Definition PT_PHDR : Z := 6.

Section Load.
Context {V : Type} `{!VNodeOps V}.

(** [file->read(nullptr, buffer, count, offset)] into a buffer of zeros. *)
Definition read_file (file : V) (count off : Z) : option (list Z) :=
  match vn_read 0 count off file with
  | Return (_, bs) _ => Some bs
  | _ => None
  end.
Definition read_struct (file : V) (count off : Z) : option (list Z) :=
  bs ← read_file file count off; Some (blit 0 bs (replicate (Z.to_nat count) 0)).

Definition header_known (h : Header) : bool :=
  bool_decide (take 4 (identifier h) = ELFMAG)
  && (nth EI_CLASS (identifier h) 0 =? ELFCLASS64) && (nth EI_DATA (identifier h) 0 =? ELFDATA2LSB)
  && (arch h =? EM_X86_64)
  && ((nth EI_OSABI (identifier h) 0 =? ELFOSABI_SYSV) || (nth EI_OSABI (identifier h) 0 =? ELFOSABI_GNU)).

(** What the loop over the program headers carries. *)
Record Loading : Type := mkLoading {
  ld_mem : Mem;
  file_virt_base : Z;
  first_free_virt : Z;
  aux_phdr : Z;
  ld_path : option (list Z)
}.

(** The pages of a segment from the [i]-th on; the total read so far. *)
Fixpoint load_pages (file : V) (ph : ProgramHeader) (base misalign file_page_count : Z) (n : nat) (i total : Z)
    (first_free : Z) (m : Mem) : option (Z * Z * Mem) :=
  match n with
  | O => Some (total, first_free, m)
  | S n =>
      let page_virt := u64 (base + i * PAGE_SIZE) in
      let dst := u64 (align_down base PAGE_SIZE + i * PAGE_SIZE) in
      m1 ← memset dst 0 PAGE_SIZE m;
      '(total1, m2) ←
        (if i <? file_page_count then
           let offset := u64 (ph_offset ph + i * PAGE_SIZE) in
           let size := if i =? 0 then PAGE_SIZE - misalign else PAGE_SIZE in
           let dst := if i =? 0 then u64 (dst + misalign) else dst in
           let offset := if i =? 0 then offset else u64 (offset - misalign) in
           let size := if i =? file_page_count - 1 then u64 (file_size ph - total) else size in
           bs ← read_file file size offset;
           m2 ← store_bytes dst bs m1;
           Some (u64 (total + size), m2)
         else Some (total, m1));
      load_pages file ph base misalign file_page_count n (i + 1) total1
        (if first_free <=? page_virt then u64 (page_virt + PAGE_SIZE) else first_free) m2
  end.

Definition load_segment (file : V) (load_base : Z) (ph : ProgramHeader) (l : Loading) : option Loading :=
  let misalign := Z.land (virt_addr ph) 4095 in
  let mem_page_count := u64 (mem_size ph + misalign + PAGE_SIZE - 1) / PAGE_SIZE in
  let file_page_count := u64 (file_size ph + misalign + PAGE_SIZE - 1) / PAGE_SIZE in
  let base := u64 (load_base + virt_addr ph) in
  let m := map_anonymous (align_down base PAGE_SIZE) (mem_page_count * PAGE_SIZE) (ld_mem l) in
  '(total, first_free, m') ←
    load_pages file ph base misalign file_page_count (Z.to_nat mem_page_count) 0 0 (first_free_virt l) m;
  if total =? file_size ph
  then Some (mkLoading m' (Z.min (file_virt_base l) base) first_free (aux_phdr l) (ld_path l))
  else None.

(** [want_path] says whether the caller asks for the path of the dynamic
    linker; the path is what a reader of the C string sees, which must end
    inside the block of [file_size + 1] bytes. *)
Definition load_header (file : V) (load_base : Z) (want_path : bool) (ph : ProgramHeader) (l : Loading) : option Loading :=
  if ph_type ph =? PT_LOAD then load_segment file load_base ph l
  else if ph_type ph =? PT_PHDR then
    Some (mkLoading (ld_mem l) (file_virt_base l) (first_free_virt l) (u64 (load_base + virt_addr ph)) (ld_path l))
  else if (ph_type ph =? PT_INTERP) && want_path then
    bs ← read_file file (file_size ph) (ph_offset ph);
    if bool_decide (0 ∈ bs) && (Z.of_nat (length bs) <=? u64 (file_size ph + 1))
    then Some (mkLoading (ld_mem l) (file_virt_base l) (first_free_virt l) (aux_phdr l)
                 (Some (take_until 0 bs)))
    else None
  else Some l.

Fixpoint load_headers (file : V) (load_base : Z) (want_path : bool) (h : Header) (n : nat) (i : Z) (l : Loading)
    : option Loading :=
  match n with
  | O => Some l
  | S n =>
      bs ← read_struct file program_header_size (u64 (ph_table_offset h + i * ph_entry_size h));
      l1 ← load_header file load_base want_path (decode_program_header bs) l;
      load_headers file load_base want_path h n (i + 1) l1
  end.

(** The error, or the auxiliary values, the first free address, the path of the
    dynamic linker and the memory. *)
Definition load (file : V) (load_base : Z) (want_path : bool) (first_free : Z) (m : Mem)
    : option (Z + Auxval * Z * option (list Z) * Mem) :=
  bs ← read_struct file header_size 0;
  let h := decode_header bs in
  if negb (header_known h) then Some (inl (- ENOEXEC))
  else
    let load_base := if type h =? ET_EXEC then 0 else load_base in
    l ← load_headers file load_base want_path h (Z.to_nat (ph_count h)) 0 (mkLoading m 18446744073709551615 first_free 0 None);
    Some (inr (mkAuxval (u64 (load_base + entry_addr h))
                 (if aux_phdr l =? 0 then u64 (file_virt_base l + ph_table_offset h) else aux_phdr l)
                 (ph_entry_size h) (ph_count h),
               align_up (first_free_virt l) PAGE_SIZE, ld_path l, ld_mem l)).

End Load.

(** ** What loading does *)

Definition header_of (c : list Z) : Header := decode_header (blit 0 (sub c 0 header_size) (replicate 64 0)).
Definition program_header (c : list Z) (h : Header) (i : Z) : ProgramHeader :=
  decode_program_header
    (blit 0 (sub c (u64 (ph_table_offset h + i * ph_entry_size h)) program_header_size) (replicate 56 0)).
Definition program_headers (c : list Z) (h : Header) : list ProgramHeader :=
  map (fun i => program_header c h (Z.of_nat i)) (seq 0 (Z.to_nat (ph_count h))).

(** The end of the user half of the address space. *)
Definition USER_END : Z := 140737488355328.

(** The pages of a segment, and the byte a segment puts at an address. *)
Definition segment_start (load_base : Z) (ph : ProgramHeader) : Z := load_base + virt_addr ph.
Definition pages_from (load_base : Z) (ph : ProgramHeader) : Z :=
  segment_start load_base ph - segment_start load_base ph mod PAGE_SIZE.
Definition page_count (load_base : Z) (ph : ProgramHeader) : Z :=
  (mem_size ph + segment_start load_base ph mod PAGE_SIZE + PAGE_SIZE - 1) / PAGE_SIZE.
Definition pages_to (load_base : Z) (ph : ProgramHeader) : Z :=
  pages_from load_base ph + page_count load_base ph * PAGE_SIZE.
Definition segment_byte (c : list Z) (load_base : Z) (ph : ProgramHeader) (x : Z) : Z :=
  let base := segment_start load_base ph in
  if (base <=? x) && (x <? base + file_size ph) then nth (Z.to_nat (ph_offset ph + (x - base))) c 0 else 0.

Record segment_ok (c : list Z) (load_base : Z) (ph : ProgramHeader) : Prop := {
  so_virt : 0 <= virt_addr ph;
  so_end : segment_start load_base ph + mem_size ph + PAGE_SIZE <= USER_END;
  so_size : 0 <= file_size ph <= mem_size ph;
  so_file : 0 <= ph_offset ph /\ ph_offset ph + file_size ph <= Z.of_nat (length c)
}.

Definition header_ok (c : list Z) (load_base : Z) (ph : ProgramHeader) : Prop :=
  if ph_type ph =? PT_LOAD then segment_ok c load_base ph
  else if ph_type ph =? PT_INTERP then
    0 <= ph_offset ph /\ 0 <= file_size ph /\ ph_offset ph + file_size ph <= Z.of_nat (length c) /\
    0 ∈ sub c (ph_offset ph) (file_size ph)
  else True.

(** No page of one segment is a page of the other. *)
Definition apart (load_base : Z) (a b : ProgramHeader) : Prop :=
  pages_to load_base a <= pages_from load_base b \/ pages_to load_base b <= pages_from load_base a.

Section LoadProofs.
Context {V : Type} `{!VNodeOps V} (wf : V -> Prop) (content : V -> list Z) `{!VNodeFile V wf content}.
Context (file : V) (Hwf : wf file).
Let c := content file.
Context (Hc : Z.of_nat (length c) < 4611686018427387904).

Lemma read_file_spec count off : 0 <= count -> 0 <= off -> off + count < 18446744073709551616 ->
  read_file file count off = Some (sub c off count).
Proof. intros H1 H2 H3. unfold read_file. by rewrite (law_file_read 0 count off file). Qed.

Section Segment.
Context (load_base : Z) (Hlb : 0 <= load_base) (Hal : load_base mod PAGE_SIZE = 0).
Context (ph : ProgramHeader) (Hok : segment_ok c load_base ph).

Let base := segment_start load_base ph.
Let mis := base mod PAGE_SIZE.
Let A := base - mis.
Let Np := page_count load_base ph.
(** How much of the file is in place before the [i]-th page. *)
Let T (i : Z) : Z := if i <=? 0 then 0 else Z.min (file_size ph) (i * PAGE_SIZE - mis).

Lemma mis_range : 0 <= mis < PAGE_SIZE.
Proof. subst mis. unfold PAGE_SIZE. apply Z.mod_pos_bound. lia. Qed.

Lemma mis_virt : Z.land (virt_addr ph) 4095 = mis.
Proof.
  change 4095 with (Z.ones 12). rewrite Z.land_ones by lia. subst mis base. unfold segment_start.
  change (2 ^ 12) with PAGE_SIZE. rewrite Z.add_mod by (unfold PAGE_SIZE; lia). rewrite Hal, Z.add_0_l.
  symmetry. apply Z.mod_mod. unfold PAGE_SIZE; lia.
Qed.

Lemma base_range : 0 <= base /\ base + mem_size ph + PAGE_SIZE <= USER_END /\ 0 <= A.
Proof.
  destruct Hok as [H1 H2 H3 H4]. pose proof mis_range. assert (0 <= base) as Hb by (subst base; unfold segment_start; lia).
  split_and!; [done|done|]. subst A. assert (mis <= base); [|lia]. subst mis. apply Z.mod_le; unfold PAGE_SIZE; lia.
Qed.

Lemma base_down : align_down base PAGE_SIZE = A.
Proof.
  unfold align_down. subst A mis. destruct (Z.eqb_spec (base mod PAGE_SIZE) 0) as [E|E]; [lia|].
  pose proof (Z.div_mod base PAGE_SIZE). unfold PAGE_SIZE in *. lia.
Qed.

Lemma pages_spec n : 0 <= n -> let k := (n + mis + PAGE_SIZE - 1) / PAGE_SIZE in
  n + mis <= k * PAGE_SIZE /\ k * PAGE_SIZE < n + mis + PAGE_SIZE /\ 0 <= k.
Proof.
  intros Hn k. pose proof mis_range as Hm. subst k. clear A T. clearbody mis. unfold PAGE_SIZE in *.
  pose proof (Z.div_mod (n + mis + 4096 - 1) 4096 ltac:(lia)).
  pose proof (Z.mod_pos_bound (n + mis + 4096 - 1) 4096 ltac:(lia)).
  assert (0 <= (n + mis + 4096 - 1) / 4096) by (apply Z.div_pos; lia). lia.
Qed.

Lemma step_bytes i : 0 <= i -> i < Np ->
  0 <= T i /\ T i <= T (i + 1) /\ T (i + 1) <= file_size ph /\ T (i + 1) - T i <= PAGE_SIZE /\
  (T i < T (i + 1) -> A + i * PAGE_SIZE <= base + T i /\ base + T (i + 1) <= A + (i + 1) * PAGE_SIZE).
Proof.
  intros Hi Hn. pose proof mis_range as Hm. destruct Hok as [_ _ Hs _]. subst T A. cbv beta. clearbody mis.
  destruct (Z.leb_spec i 0); destruct (Z.leb_spec (i + 1) 0); unfold PAGE_SIZE in *; lia.
Qed.

Let Nf := (file_size ph + mis + PAGE_SIZE - 1) / PAGE_SIZE.

Lemma counts : file_size ph + mis <= Nf * PAGE_SIZE /\ Nf * PAGE_SIZE < file_size ph + mis + PAGE_SIZE /\ 0 <= Nf /\
  mem_size ph + mis <= Np * PAGE_SIZE /\ Np * PAGE_SIZE < mem_size ph + mis + PAGE_SIZE /\ 0 <= Np.
Proof.
  destruct Hok as [_ _ Hs _]. destruct (pages_spec (file_size ph)) as (H1 & H2 & H3); [lia|].
  destruct (pages_spec (mem_size ph)) as (H4 & H5 & H6); [lia|]. split_and!; assumption.
Qed.

(** The part of the file that goes to the [i]-th page. *)
Lemma page_part i : 0 <= i < Nf ->
  (if i =? 0 then u64 (A + i * PAGE_SIZE + mis) else A + i * PAGE_SIZE) = base + T i /\
  (if i =? 0 then u64 (ph_offset ph + i * PAGE_SIZE) else u64 (u64 (ph_offset ph + i * PAGE_SIZE) - mis))
    = ph_offset ph + T i /\
  (if i =? Nf - 1 then u64 (file_size ph - T i) else if i =? 0 then PAGE_SIZE - mis else PAGE_SIZE) = T (i + 1) - T i.
Proof.
  intros Hi. pose proof mis_range as Hm. pose proof base_range as (Hb & He & HA). pose proof counts as (C1 & C2 & C3 & _).
  destruct Hok as [Hv Hse Hs Hf]. subst T. cbv beta. clearbody Nf. clearbody c.
  assert (A + mis = base) as HAb by (subst A; lia). clearbody A mis base.
  assert (ph_offset ph + i * PAGE_SIZE < 9223372036854775808) by (unfold USER_END, PAGE_SIZE in *; lia).
  split_and!.
  - destruct (Z.eqb_spec i 0) as [->|].
    + rewrite u64_small by (unfold USER_END, PAGE_SIZE in *; lia). cbn. lia.
    + destruct (Z.leb_spec i 0); unfold PAGE_SIZE in *; lia.
  - destruct (Z.eqb_spec i 0) as [->|].
    + rewrite u64_small by lia. cbn. lia.
    + destruct (Z.leb_spec i 0); [lia|]. rewrite !u64_small; unfold PAGE_SIZE in *; try lia; rewrite ?u64_small; lia.
  - destruct (Z.eqb_spec i (Nf - 1)) as [E|E].
    + destruct (Z.leb_spec i 0), (Z.leb_spec (i + 1) 0); rewrite u64_small; unfold USER_END, PAGE_SIZE in *; lia.
    + destruct (Z.eqb_spec i 0); destruct (Z.leb_spec i 0), (Z.leb_spec (i + 1) 0); unfold PAGE_SIZE in *; lia.
Qed.

Let want (x : Z) : Z := segment_byte c load_base ph x.

Lemma part_read i : 0 <= i < Np ->
  Z.of_nat (length (sub c (ph_offset ph + T i) (T (i + 1) - T i))) = T (i + 1) - T i.
Proof.
  intros Hi. destruct (step_bytes i) as (H1 & H2 & H3 & _); [lia|lia|]. destruct Hok as [_ _ Hs Hf].
  rewrite sub_length; lia.
Qed.

(** The bytes of the part are those the segment wants there. *)
Lemma part_bytes i k v : 0 <= i < Np -> sub c (ph_offset ph + T i) (T (i + 1) - T i) !! k = Some v ->
  want (base + T i + Z.of_nat k) = v.
Proof.
  intros Hi Hk. destruct (step_bytes i) as (H1 & H2 & H3 & _); [lia|lia|]. pose proof (part_read i Hi) as Hl.
  pose proof (lookup_lt_Some _ _ _ Hk) as Hlt. destruct Hok as [_ _ Hs Hf].
  rewrite sub_lookup in Hk by lia. subst want. cbv beta. unfold segment_byte. fold base.
  destruct (Z.leb_spec base (base + T i + Z.of_nat k)); [|lia].
  destruct (Z.ltb_spec (base + T i + Z.of_nat k) (base + file_size ph)); [|lia]. cbn [andb].
  apply nth_lookup_Some. rewrite <- Hk. f_equal. lia.
Qed.

Lemma want_zero i x : 0 <= i < Np -> A + i * PAGE_SIZE <= x < A + (i + 1) * PAGE_SIZE ->
  x < base + T i \/ base + T (i + 1) <= x -> want x = 0.
Proof.
  intros Hi Hx Ho. pose proof mis_range as Hm. pose proof counts as (C1 & C2 & C3 & _). destruct Hok as [_ _ Hs _].
  subst want. cbv beta. unfold segment_byte. fold base.
  destruct (Z.leb_spec base x); [|done]. destruct (Z.ltb_spec x (base + file_size ph)); [|done]. exfalso.
  subst T. cbv beta in Ho. assert (A + mis = base) as HAb by (subst A; lia). clearbody A mis base.
  destruct (Z.leb_spec i 0), (Z.leb_spec (i + 1) 0); unfold PAGE_SIZE in *; lia.
Qed.

Lemma page_write i m1 : 0 <= i < Np -> mapped_all (A + i * PAGE_SIZE) (A + (i + 1) * PAGE_SIZE) m1 ->
  (forall x, A + i * PAGE_SIZE <= x < A + (i + 1) * PAGE_SIZE -> load8 x m1 = Some 0) ->
  exists m2,
    (if i <? Nf then
       bs ← read_file file (if i =? Nf - 1 then u64 (file_size ph - T i) else if i =? 0 then PAGE_SIZE - mis else PAGE_SIZE)
              (if i =? 0 then u64 (ph_offset ph + i * PAGE_SIZE) else u64 (u64 (ph_offset ph + i * PAGE_SIZE) - mis));
       m2 ← store_bytes (if i =? 0 then u64 (A + i * PAGE_SIZE + mis) else A + i * PAGE_SIZE) bs m1;
       Some (u64 (T i + (if i =? Nf - 1 then u64 (file_size ph - T i) else if i =? 0 then PAGE_SIZE - mis else PAGE_SIZE)), m2)
     else Some (T i, m1)) = Some (T (i + 1), m2) /\ anonymous m2 = anonymous m1 /\
    (forall x, A + i * PAGE_SIZE <= x < A + (i + 1) * PAGE_SIZE -> load8 x m2 = Some (want x)) /\
    (forall x, x < A + i * PAGE_SIZE \/ A + (i + 1) * PAGE_SIZE <= x -> load8 x m2 = load8 x m1).
Proof.
  intros Hi Hm Hz. destruct (step_bytes i) as (H1 & H2 & H3 & H4 & H5); [lia|lia|].
  pose proof base_range as (Hb & He & HA). pose proof counts as (C1 & C2 & C3 & _).
  destruct Hok as [_ _ Hs Hf].
  destruct (Z.ltb_spec i Nf) as [Hlt|Hge].
  - destruct (page_part i) as (-> & -> & ->); [lia|].
    rewrite read_file_spec by lia. cbn [mbind option_bind]. pose proof (part_read i Hi) as Hl.
    assert (T i = T (i + 1) \/ T i < T (i + 1)) as [Heq|Hlt'] by lia.
    + assert (sub c (ph_offset ph + T i) (T (i + 1) - T i) = []) as -> by (apply nil_length_inv; lia).
      cbn [store_bytes mbind option_bind]. exists m1. rewrite u64_small by (unfold USER_END in *; lia).
      split_and!; [f_equal; f_equal; lia|done| |done]. intros x Hx. rewrite Hz by done.
      rewrite (want_zero i x); [done|lia|done|lia].
    + destruct (H5 Hlt') as [H6 H7].
      destruct (store_bytes_spec (sub c (ph_offset ph + T i) (T (i + 1) - T i)) (base + T i) m1) as (m2 & -> & Han & Hin & Hout).
      { lia. } { unfold TOP, USER_END in *. lia. } { intros x Hx. apply Hm. lia. }
      cbn [mbind option_bind]. exists m2. rewrite u64_small by (unfold USER_END in *; lia).
      split_and!; [f_equal; f_equal; lia|done| |intros x Hx; apply Hout; lia].
      intros x Hx. destruct (decide (x < base + T i \/ base + T (i + 1) <= x)) as [Ho|Ho].
      * rewrite Hout by lia. rewrite Hz by done. by rewrite (want_zero i x).
      * destruct (lookup_lt_is_Some_2 (sub c (ph_offset ph + T i) (T (i + 1) - T i)) (Z.to_nat (x - (base + T i)))) as [v Hv]; [lia|].
        pose proof (Hin _ _ Hv) as Hv'. pose proof (part_bytes i _ _ Hi Hv) as Hw.
        replace (base + T i + Z.of_nat (Z.to_nat (x - (base + T i)))) with x in * by lia. by rewrite Hw.
  - assert (T (i + 1) = T i) as Heq.
    { subst T. cbv beta. pose proof mis_range. clearbody mis Nf. destruct (Z.leb_spec i 0), (Z.leb_spec (i + 1) 0); unfold PAGE_SIZE in *; lia. }
    exists m1. rewrite Heq. split_and!; [done|done| |done]. intros x Hx. rewrite Hz by done.
    rewrite (want_zero i x); [done|lia|done|lia].
Qed.

Lemma part_end : T Np = file_size ph.
Proof.
  pose proof counts as (_ & _ & _ & C4 & C5 & C6). pose proof mis_range. destruct Hok as [_ _ Hs _].
  subst T. cbv beta. clearbody mis Np. destruct (Z.leb_spec Np 0); unfold PAGE_SIZE in *; lia.
Qed.

Lemma load_pages_spec n : forall i ff m, i + Z.of_nat n = Np -> 0 <= i -> mapped_all A (A + Np * PAGE_SIZE) m ->
  0 <= ff <= 2 * USER_END -> (forall x, A <= x < A + i * PAGE_SIZE -> load8 x m = Some (want x)) ->
  exists ff' m', load_pages file ph base mis Nf n i (T i) ff m = Some (file_size ph, ff', m') /\ anonymous m' = anonymous m /\
    (forall x, A <= x < A + Np * PAGE_SIZE -> load8 x m' = Some (want x)) /\
    (forall x, x < A \/ A + Np * PAGE_SIZE <= x -> load8 x m' = load8 x m) /\
    ff <= ff' <= 2 * USER_END /\ ((0 < n)%nat -> base + (Np - 1) * PAGE_SIZE < ff').
Proof.
  pose proof base_range as (Hb & He & HA). pose proof counts as (_ & _ & _ & C4 & C5 & C6). pose proof mis_range as Hmr.
  assert (A + mis = base) as HAb by (subst A; lia).
  induction n as [|n IH]; intros i ff m Hi H0 Hm Hff Hw.
  - exists ff, m. assert (i = Np) as -> by lia. cbn [load_pages]. rewrite part_end. split_and!; try done; lia.
  - cbn [load_pages]. cbv zeta. rewrite base_down.
    rewrite !(u64_small (A + i * PAGE_SIZE)) by (unfold USER_END, PAGE_SIZE in *; lia).
    rewrite !(u64_small (base + i * PAGE_SIZE)) by (unfold USER_END, PAGE_SIZE in *; lia).
    destruct (memset_spec (A + i * PAGE_SIZE) 0 PAGE_SIZE m) as (m1 & -> & Han1 & Hz & Ho1).
    { unfold PAGE_SIZE; lia. } { unfold PAGE_SIZE; lia. } { unfold TOP, USER_END, PAGE_SIZE in *; lia. }
    { intros x Hx. apply Hm. unfold PAGE_SIZE in *; lia. }
    cbn [mbind option_bind].
    destruct (page_write i m1) as (m2 & Heq & Han2 & Hin & Ho2).
    { lia. } { intros x Hx. rewrite (anonymous_mapped m) by done. apply Hm. unfold PAGE_SIZE in *; lia. }
    { intros x Hx. apply Hz. unfold PAGE_SIZE in *; lia. }
    rewrite Heq. cbn [mbind option_bind].
    set (ff1 := if ff <=? base + i * PAGE_SIZE then u64 (base + i * PAGE_SIZE + PAGE_SIZE) else ff).
    assert (ff <= ff1 <= 2 * USER_END /\ base + i * PAGE_SIZE < ff1) as (Hf1 & Hf2).
    { subst ff1. destruct (Z.leb_spec ff (base + i * PAGE_SIZE)); [|lia].
      rewrite u64_small by (unfold USER_END, PAGE_SIZE in *; lia). unfold USER_END, PAGE_SIZE in *; lia. }
    destruct (IH (i + 1) ff1 m2) as (ff' & m' & Hl & Han & Hall & Hout & Hf & Hlast).
    { lia. } { lia. } { intros x Hx. rewrite (anonymous_mapped m1), (anonymous_mapped m) by done. by apply Hm. }
    { lia. }
    { intros x Hx. destruct (decide (A + i * PAGE_SIZE <= x)) as [Hge|Hlt].
      - apply Hin. lia.
      - rewrite Ho2 by lia. rewrite Ho1 by lia. apply Hw. lia. }
    exists ff', m'. split_and!; [done|by rewrite Han, Han2|done| |lia|lia|].
    { intros x Hx. rewrite Hout by lia. rewrite Ho2, Ho1; [done|unfold PAGE_SIZE in *; lia|unfold PAGE_SIZE in *; lia]. }
    intros _. destruct n as [|n]; [|apply Hlast; lia]. replace (Np - 1) with i by lia. lia.
Qed.

Lemma load_segment_spec l : 0 <= first_free_virt l <= 2 * USER_END ->
  exists l', load_segment file load_base ph l = Some l' /\ ld_path l' = ld_path l /\
    (forall x, pages_from load_base ph <= x < pages_to load_base ph -> load8 x (ld_mem l') = Some (want x)) /\
    (forall x, x < pages_from load_base ph \/ pages_to load_base ph <= x -> is_mapped x (ld_mem l) = true ->
       load8 x (ld_mem l') = load8 x (ld_mem l)) /\
    first_free_virt l <= first_free_virt l' <= 2 * USER_END /\
    (0 < mem_size ph -> pages_to load_base ph - PAGE_SIZE < first_free_virt l').
Proof.
  intros Hff. pose proof base_range as (Hb & He & HA). pose proof counts as (C1 & C2 & C3 & C4 & C5 & C6).
  pose proof mis_range as Hmr. destruct Hok as [Hv _ Hs Hf].
  unfold load_segment. rewrite mis_virt. cbv zeta.
  rewrite (u64_small (load_base + virt_addr ph)) by (unfold base, segment_start, USER_END, PAGE_SIZE in *; lia).
  change (load_base + virt_addr ph) with base. rewrite base_down.
  rewrite (u64_small (mem_size ph + _ + _ - 1)) by (unfold USER_END, PAGE_SIZE in *; lia).
  rewrite (u64_small (file_size ph + _ + _ - 1)) by (unfold USER_END, PAGE_SIZE in *; lia).
  change ((mem_size ph + mis + PAGE_SIZE - 1) / PAGE_SIZE) with Np.
  change ((file_size ph + mis + PAGE_SIZE - 1) / PAGE_SIZE) with Nf.
  destruct (load_pages_spec (Z.to_nat Np) 0 (first_free_virt l) (map_anonymous A (Np * PAGE_SIZE) (ld_mem l)))
    as (ff' & m' & Hl & Han & Hall & Hout & Hf1 & Hf2).
  { lia. } { lia. } { apply map_anonymous_mapped. } { lia. } { unfold PAGE_SIZE; lia. }
  change (T 0) with 0 in Hl. rewrite Hl. cbn [mbind option_bind]. rewrite Z.eqb_refl.
  eexists. split; [done|]. cbn [ld_path ld_mem first_free_virt].
  change (pages_from load_base ph) with A. change (pages_to load_base ph) with (A + Np * PAGE_SIZE).
  split_and!; [done|done| |lia|lia|].
  - intros x Hx Hmap. rewrite Hout by done. by apply load8_map.
  - intros Hm. assert (0 < Np) by (unfold PAGE_SIZE in *; lia). assert (A + mis = base) as HAb by (subst A; lia).
    specialize (Hf2 ltac:(lia)). unfold PAGE_SIZE in *. lia.
Qed.

End Segment.

Definition is_load (ph : ProgramHeader) : Prop := ph_type ph = PT_LOAD.
Definition in_pages (load_base : Z) (ph : ProgramHeader) (x : Z) : Prop := pages_from load_base ph <= x < pages_to load_base ph.
(** The path of the dynamic linker after a header. *)
Definition interp_path (want_path : bool) (path : option (list Z)) (ph : ProgramHeader) : option (list Z) :=
  if (ph_type ph =? PT_INTERP) && want_path then Some (take_until 0 (sub c (ph_offset ph) (file_size ph))) else path.

Section Headers.
Context (load_base : Z) (Hlb : 0 <= load_base) (Hal : load_base mod PAGE_SIZE = 0) (want_path : bool).

Lemma load_header_spec ph l : header_ok c load_base ph -> 0 <= first_free_virt l <= 2 * USER_END ->
  exists l', load_header file load_base want_path ph l = Some l' /\ ld_path l' = interp_path want_path (ld_path l) ph /\
    (is_load ph -> forall x, in_pages load_base ph x -> load8 x (ld_mem l') = Some (segment_byte c load_base ph x)) /\
    (forall x v, load8 x (ld_mem l) = Some v -> (is_load ph -> ~ in_pages load_base ph x) -> load8 x (ld_mem l') = Some v) /\
    first_free_virt l <= first_free_virt l' <= 2 * USER_END /\
    (is_load ph -> 0 < mem_size ph -> pages_to load_base ph - PAGE_SIZE < first_free_virt l').
Proof.
  intros Hok Hff. unfold header_ok in Hok. unfold load_header, interp_path, is_load.
  destruct (Z.eqb_spec (ph_type ph) PT_LOAD) as [Ht|Ht].
  - rewrite Ht. destruct (load_segment_spec load_base Hlb Hal ph Hok l Hff) as (l' & Hl & Hp & Hin & Hout & Hf & He).
    exists l'. split_and!; [done|done|by intros _ x Hx; apply Hin| |lia|lia|by intros _; apply He].
    intros x v Hv Hx. rewrite Hout; [done| |].
    + specialize (Hx eq_refl). unfold in_pages in Hx. lia.
    + apply load8_mapped. by exists v.
  - destruct (Z.eqb_spec (ph_type ph) PT_PHDR) as [Hp|Hp].
    + rewrite Hp. eexists. split; [done|]. split_and!; try done; cbn; lia.
    + destruct (Z.eqb_spec (ph_type ph) PT_INTERP) as [Hi|Hi]; cbn [andb]; [|exists l; split_and!; try done; lia].
      destruct want_path; cbn [andb]; [|exists l; split_and!; try done; lia].
      destruct Hok as (H1 & H2 & H3 & H4). rewrite read_file_spec by lia. cbn [mbind option_bind].
      rewrite bool_decide_true by done. rewrite u64_small by lia.
      destruct (Z.leb_spec (Z.of_nat (length (sub c (ph_offset ph) (file_size ph)))) (file_size ph + 1)) as [_|Hgt].
      2:{ rewrite sub_length in Hgt by lia. lia. }
      cbn [andb]. eexists. split; [done|]. split_and!; try done; cbn; lia.
Qed.

Lemma load_headers_spec h n : forall i l,
  let phs := map (fun i => program_header c h (Z.of_nat i)) (seq i n) in
  Forall (header_ok c load_base) phs -> 0 <= first_free_virt l <= 2 * USER_END ->
  0 <= ph_table_offset h -> 0 <= ph_entry_size h ->
  ph_table_offset h + Z.of_nat (i + n) * ph_entry_size h <= 4611686018427387904 ->
  exists l', load_headers file load_base want_path h n (Z.of_nat i) l = Some l' /\
    ld_path l' = fold_left (interp_path want_path) phs (ld_path l) /\
    (forall l1 ph l2, phs = l1 ++ ph :: l2 -> is_load ph -> Forall (fun q => is_load q -> apart load_base ph q) l2 ->
       forall x, in_pages load_base ph x -> load8 x (ld_mem l') = Some (segment_byte c load_base ph x)) /\
    (forall x v, load8 x (ld_mem l) = Some v -> Forall (fun q => is_load q -> ~ in_pages load_base q x) phs ->
       load8 x (ld_mem l') = Some v) /\
    first_free_virt l <= first_free_virt l' <= 2 * USER_END /\
    Forall (fun ph => is_load ph -> 0 < mem_size ph -> pages_to load_base ph - PAGE_SIZE < first_free_virt l') phs.
Proof.
  induction n as [|n IH]; intros i l phs Hok Hff Ho Hes Hend.
  - exists l. split_and!; [done|done| |done|lia|lia|constructor]. intros l1 ph l2 Hphs. by destruct l1.
  - subst phs. cbn [seq map] in *. inversion Hok as [|? ? Hok1 Hok2]; subst. cbn [load_headers].
    unfold read_struct. rewrite read_file_spec; cycle 1.
    { done. } { apply u64_range. }
    { assert (Z.of_nat i * ph_entry_size h <= Z.of_nat (i + S n) * ph_entry_size h) by (apply Z.mul_le_mono_nonneg_r; lia).
      rewrite u64_small by lia. unfold program_header_size. lia. }
    cbn [mbind option_bind].
    destruct (load_header_spec (program_header c h (Z.of_nat i)) l Hok1 Hff) as (l1 & Hl1 & Hp1 & Hin1 & Hout1 & Hf1 & He1).
    change (Z.to_nat program_header_size) with 56%nat.
    change (decode_program_header _) with (program_header c h (Z.of_nat i)). rewrite Hl1. cbn [mbind option_bind].
    replace (Z.of_nat i + 1) with (Z.of_nat (S i)) by lia.
    destruct (IH (S i) l1 Hok2) as (l' & Hl' & Hp' & Hin & Hout & Hf & He); [lia|done|done|by rewrite Nat.add_succ_comm|].
    exists l'. split_and!; [done|by rewrite Hp', Hp1| | |lia|lia|].
    + intros k1 ph k2 Heq Hld Hap x Hx. destruct k1 as [|a k1]; cbn in Heq; injection Heq as H1 H2.
      * subst ph k2. apply Hout; [by apply Hin1|]. eapply Forall_impl; [exact Hap|].
        intros q Hq Hlq Hxq. specialize (Hq Hlq). unfold apart, in_pages in *. lia.
      * by apply (Hin k1 ph k2).
    + intros x v Hv Hx. inversion Hx as [|? ? Hx1 Hx2]; subst. apply Hout; [|done]. by apply Hout1.
    + constructor; [|done]. intros Hld Hm. specialize (He1 Hld Hm). lia.
Qed.

End Headers.
End LoadProofs.

Lemma elf_align_up x : 0 <= x <= 2 * USER_END ->
  align_up x PAGE_SIZE mod PAGE_SIZE = 0 /\ x <= align_up x PAGE_SIZE < x + PAGE_SIZE.
Proof.
  intros Hx. unfold align_up. pose proof (Z.div_mod x PAGE_SIZE). pose proof (Z.mod_pos_bound x PAGE_SIZE).
  unfold USER_END, PAGE_SIZE in *. destruct (Z.eqb_spec (x mod 4096) 0); [lia|].
  rewrite u64_small by lia. rewrite Z.mod_mul by lia. lia.
Qed.

Lemma page_gap a b : a mod PAGE_SIZE = 0 -> b mod PAGE_SIZE = 0 -> a - PAGE_SIZE < b -> a <= b.
Proof.
  unfold PAGE_SIZE. intros Ha Hb H. pose proof (Z.div_mod a 4096 ltac:(lia)). pose proof (Z.div_mod b 4096 ltac:(lia)). lia.
Qed.

Lemma pages_to_aligned lb ph : pages_to lb ph mod PAGE_SIZE = 0.
Proof.
  unfold pages_to, pages_from. rewrite Z.mod_add by (unfold PAGE_SIZE; lia).
  rewrite Zminus_mod, Z.mod_mod by (unfold PAGE_SIZE; lia). by rewrite Z.sub_diag, Z.mod_0_l by (unfold PAGE_SIZE; lia).
Qed.

Lemma Forall_blit {A} (P : A -> Prop) off (xs l : list A) : Forall P xs -> Forall P l -> Forall P (blit off xs l).
Proof.
  intros Hx Hl. apply Forall_lookup. intros i x Hi. unfold blit in Hi.
  apply list_lookup_inserts_Some in Hi as [[_ Hi]|(_ & _ & Hi)].
  - by apply (Forall_lookup_1 _ _ _ _ Hl Hi).
  - by apply (Forall_lookup_1 _ _ _ _ Hx Hi).
Qed.

Lemma field_nonneg bs o n : Forall byte bs -> 0 <= field bs o n.
Proof. intros Hb. unfold field. apply le_combine_range. by apply Forall_take, Forall_drop. Qed.


(** ** A small program *)
#[local] Instance realloc_0 : Realloc.
Proof.
  refine {| realloc l n := take (Z.to_nat n) (l ++ replicate (Z.to_nat n) 0) |}.
  - intros l n Hn. rewrite length_take, length_app, length_replicate. lia.
  - intros l n Hl. rewrite take_take, Nat.min_l by lia. by rewrite take_app_length.
Defined.

(** One segment of 24 bytes in memory, its last eight from the file at 120. *)
Definition demo_header (ty entry : Z) : list Z :=
  ELFMAG ++ [2; 1; 1; 0; 0; 0; 0; 0; 0; 0; 0; 0]
  ++ le_split 2 ty ++ le_split 2 62 ++ le_split 4 1 ++ le_split 8 entry ++ le_split 8 64 ++ le_split 8 0
  ++ le_split 4 0 ++ le_split 2 64 ++ le_split 2 56 ++ le_split 2 1 ++ le_split 2 0 ++ le_split 2 0 ++ le_split 2 0.
Definition demo_segment (vaddr : Z) : list Z :=
  le_split 4 1 ++ le_split 4 5 ++ le_split 8 120 ++ le_split 8 vaddr ++ le_split 8 0 ++ le_split 8 8
  ++ le_split 8 24 ++ le_split 8 4096.
Definition demo_image (ty vaddr : Z) : list Z := demo_header ty (vaddr + 4) ++ demo_segment vaddr ++ [1; 2; 3; 4; 5; 6; 7; 8].
Definition demo_file (ty vaddr : Z) : NodeData :=
  mkNodeData false 7 (demo_image ty vaddr ++ replicate 128 0) 128.

Lemma demo_file_wf ty vaddr : node_wf (demo_file ty vaddr) /\ is_directory (demo_file ty vaddr) = false.
Proof.
  split; [|done]. assert (node_capacity (demo_file ty vaddr) = 256) as Hc by done.
  split; rewrite Hc; [cbn; lia|]. right. exists 4%nat. split; [lia|done].
Qed.

Definition demo_content : list Z := Eval vm_compute in demo_image 2 4198408.
Lemma demo_content_eq : file_content (demo_file 2 4198408) = demo_content.
Proof. by vm_compute. Qed.
Lemma demo_headers : program_headers demo_content (header_of demo_content) = [mkProgramHeader 1 5 120 4198408 0 8 24 4096].
Proof. by vm_compute. Qed.
Lemma demo_bytes : Forall byte demo_content.
Proof. unfold demo_content. repeat (constructor; [unfold byte; lia|]). constructor. Qed.
Lemma demo_segment_ok : header_ok demo_content 0 (mkProgramHeader 1 5 120 4198408 0 8 24 4096).
Proof. unfold header_ok. cbn [ph_type]. cbn. split; vm_compute; intuition discriminate. Qed.

