(* ===== verification/Exec.v ===== *)
(** Running a program (user_exec and execve in
    src/kernel/src/sched/sched.cpp): the interpreter line of a script, the
    initial stack with its arguments, environment and auxiliary vector, and the
    change of the process's image with its error paths. *)
From S2P Require Import Prelude FdTable Signal VNode Tmpfs Format NameSpace UserMem Elf.
From stdpp Require Import strings.
Open Scope Z_scope.

Definition user_stack_size : Z := 8388608.
Definition user_binary_base : Z := 94557999988736.
Definition user_linker_base : Z := 138538465099776.
Definition user_mmap_base : Z := 139637976727552.

(** ** Scripts *)

Fixpoint skip_spaces (l : list Z) : list Z :=
  match l with
  | c :: l' => if c =? 32 then skip_spaces l' else l
  | [] => []
  end.

(** The interpreter of a script's first line and its argument, from the first
    256 bytes of the file; nothing when there is no such line. *)
Definition parse_shebang (buf : list Z) : option (list Z * option (list Z)) :=
  if negb (bool_decide (10 ∈ buf)) then None
  else
    let line := take_until 10 buf in
    if negb (bool_decide (take 2 line = [35; 33])) then None
    else
      let s := skip_spaces (take_until 0 (drop 2 line)) in
      if bool_decide (s = []) then None
      else
        let interpreter_path := take_until 32 s in
        let interpreter_arg := take_until 32 (drop_until 32 s) in
        Some (interpreter_path, if bool_decide (interpreter_arg = []) then None else Some interpreter_arg).

(** ** The initial stack

    A stack is its pointer and the memory it grows in. *)
Definition Stack : Type := Z * Mem.

Definition push_bytes (l : list Z) (room : Z) (st : Stack) : option Stack :=
  let sp := u64 (fst st - room) in
  m ← store_bytes sp l (snd st);
  Some (sp, m).

(** A string, whose terminator is the zero the fresh page has there. *)
Definition push_string (s : list Z) (st : Stack) : option Stack := push_bytes s (Z.of_nat (length s) + 1) st.

(** Strings from the last to the first. *)
Definition push_strings (l : list (list Z)) (st : Stack) : option Stack :=
  foldr (fun s acc => st ← acc; push_string s st) (Some st) l.

Definition push_word (w : Z) (st : Stack) : option Stack :=
  let sp := u64 (fst st - 8) in
  m ← store_word sp w (snd st);
  Some (sp, m).

(** [stack -= 2; stack[0] = tag; stack[1] = value] *)
Definition push_aux (tag value : Z) (st : Stack) : option Stack :=
  let sp := u64 (fst st - 16) in
  m1 ← store_word sp tag (snd st);
  m2 ← store_word (u64 (sp + 8)) value m1;
  Some (sp, m2).

(** Pointers to consecutive strings, the first at [current_str_addr]. *)
Fixpoint store_pointers (a : Z) (l : list (list Z)) (current_str_addr : Z) (m : Mem) : option Mem :=
  match l with
  | [] => Some m
  | s :: l' =>
      m1 ← store_word a current_str_addr m;
      store_pointers (u64 (a + 8)) l' (u64 (current_str_addr + Z.of_nat (length s) + 1)) m1
  end.

(** A pointer array below its null terminator. *)
Definition push_pointers (l : list (list Z)) (first : Z) (st : Stack) : option Stack :=
  '(sp0, m0) ← push_word 0 st;
  let sp := u64 (sp0 - 8 * Z.of_nat (length l)) in
  m ← store_pointers sp l first m0;
  Some (sp, m).

Definition AT_NULL : Z := 0.
Definition AT_PHDR : Z := 3.
Definition AT_PHENT : Z := 4.
Definition AT_PHNUM : Z := 5.
Definition AT_PAGESZ : Z := 6.
Definition AT_FLAGS : Z := 8.
Definition AT_ENTRY : Z := 9.
Definition AT_UID : Z := 11.
Definition AT_EUID : Z := 12.
Definition AT_GID : Z := 13.
Definition AT_EGID : Z := 14.
Definition AT_SECURE : Z := 23.
Definition AT_RANDOM : Z := 25.
Definition AT_EXECFN : Z := 31.

(** The real and effective identifiers of the thread. *)
Record Ids : Type := mkIds { id_uid : Z; id_euid : Z; id_gid : Z; id_egid : Z }.

(** The auxiliary vector in the order of the pushes, the last one at the lowest
    address. *)
Definition aux_entries (execfn random_data : Z) (ids : Ids) (auxv : Auxval) : list (Z * Z) :=
  [(AT_EXECFN, execfn); (AT_RANDOM, random_data); (AT_SECURE, 0); (AT_EGID, id_egid ids); (AT_GID, id_gid ids);
   (AT_EUID, id_euid ids); (AT_UID, id_uid ids); (AT_ENTRY, at_entry auxv); (AT_FLAGS, 0); (AT_PHNUM, at_phnum auxv);
   (AT_PHENT, at_phent auxv); (AT_PHDR, at_phdr auxv); (AT_PAGESZ, PAGE_SIZE)].

Definition push_auxes (l : list (Z * Z)) (st : Stack) : option Stack :=
  fold_left (fun acc p => st ← acc; push_aux (fst p) (snd p) st) l (Some st).

Record Layout : Type := mkLayout {
  lo_sp : Z;
  lo_mem : Mem;
  lo_arg_start : Z;
  lo_arg_end : Z;
  lo_env_start : Z;
  lo_env_end : Z
}.

(** The bytes above the words: where each part starts, and the memory.
    [interp] is the interpreter's path and argument, when the program is a
    script. *)
Record Strings : Type := mkStrings {
  st_random : Z;
  st_execfn : Z;
  st_env_start : Z;
  st_arg_start : Z;
  st_mem : Mem
}.
Definition build_strings (top : Z) (path : list Z) (interp : list (list Z)) (argv envp : list (list Z)) (m : Mem)
    : option Strings :=
  '(random_data, m1) ← push_bytes (replicate 16 175) 16 (top, m);
  '(execfn, m2) ← push_string path (random_data, m1);
  '(env_start, m3) ← push_strings envp (execfn, m2);
  '(arg_end, m4) ← push_strings argv (env_start, m3);
  '(arg_start, m5) ← push_strings interp (arg_end, m4);
  Some (mkStrings random_data execfn env_start arg_start m5).

(** Where the words start: a word of padding keeps the stack aligned. *)
Definition words_top (arg_start : Z) (interp argv envp : list (list Z)) : Z :=
  let words := Z.of_nat (length argv) + Z.of_nat (length envp) + Z.of_nat (length interp) + 1 in
  let sp := align_down arg_start 16 in
  if negb (Z.land words 1 =? 0) then u64 (sp - 8) else sp.

Definition build_words (interp argv envp : list (list Z)) (ids : Ids) (auxv : Auxval) (s : Strings) : option Stack :=
  st1 ← push_word 0 (words_top (st_arg_start s) interp argv envp, st_mem s);
  st2 ← push_word 0 st1;
  st3 ← push_auxes (aux_entries (st_execfn s) (st_random s) ids auxv) st2;
  st4 ← push_pointers envp (st_env_start s) st3;
  st5 ← push_pointers (interp ++ argv) (st_arg_start s) st4;
  push_word (Z.of_nat (length argv) + Z.of_nat (length interp)) st5.

Definition build_stack (top : Z) (path : list Z) (interp : list (list Z)) (argv envp : list (list Z)) (ids : Ids)
    (auxv : Auxval) (m : Mem) : option Layout :=
  s ← build_strings top path interp argv envp m;
  '(sp, m') ← build_words interp argv envp ids auxv s;
  Some (mkLayout sp m' (st_arg_start s) (st_env_start s) (st_env_start s) (st_execfn s)).

(** ** The new image *)

(** What [user_exec] uses and changes of the process and its main thread. *)
Record Proc : Type := mkProc {
  p_pid : Z;
  p_mem : Mem;
  p_mmap_anon_base : Z;
  p_brk : Z;
  p_exe : Z;
  p_arg_start : Z;
  p_arg_end : Z;
  p_env_start : Z;
  p_env_end : Z;
  p_name : list Z;
  p_regs : InterruptState;
  p_actions : list KernelSigaction;
  p_alt_stack : stack_t;
  p_ids : Ids;
  has_performed_execve : bool
}.

Definition set_brk (b : Z) (p : Proc) : Proc :=
  mkProc (p_pid p) (p_mem p) (p_mmap_anon_base p) b (p_exe p) (p_arg_start p) (p_arg_end p) (p_env_start p) (p_env_end p)
    (p_name p) (p_regs p) (p_actions p) (p_alt_stack p) (p_ids p) (has_performed_execve p).
(** The page map, the next address for mappings and the name of the main
    thread, which a failure restores. *)
Definition set_image (m : Mem) (b : Z) (nm : list Z) (p : Proc) : Proc :=
  mkProc (p_pid p) m b (p_brk p) (p_exe p) (p_arg_start p) (p_arg_end p) (p_env_start p) (p_env_end p)
    nm (p_regs p) (p_actions p) (p_alt_stack p) (p_ids p) (has_performed_execve p).

Definition USER_CODE_SELECTOR : Z := 35.
Definition USER_DATA_SELECTOR : Z := 27.
Definition no_regs : InterruptState := mkRegs 0 0 0 0 0 0 0 0 0 0 0 0 0 0 0 0 0 0 0 0 0 0 0.

(** [Thread::init_user], the FPU state apart. *)
Definition init_user (entry new_stack : Z) : InterruptState :=
  mkRegs USER_DATA_SELECTOR USER_DATA_SELECTOR 0 0 0 0 0 0 0 0 0 0 0 0 0 0 0 0 entry USER_CODE_SELECTOR 514 new_stack
    USER_DATA_SELECTOR.

Definition no_action : KernelSigaction := mkAction 0 0 0 0.
Definition reset_actions : list KernelSigaction := replicate 64 no_action.

(** The loop over the descriptors that closes those marked close-on-exec. *)
Definition close_on_exec_one (s : FdState) (fd : nat) : FdState :=
  if negb (get_flags (fd_word s (Z.of_nat fd)) =? 0) then FileDescriptor_close (Z.of_nat fd) s else s.
Definition close_on_exec (s : FdState) : FdState :=
  fold_left close_on_exec_one (seq 0 (length (file_descriptors s))) s.

Definition ELIBBAD : Z := 80.

Section Exec.
Context `{!Realloc} (fuel : nat).

(** The vnode a path names for execution: an error, or its entry and data.
    The files are those of tmpfs. *)
Definition find_executable (path : list Z) (starting_point : Z) (s : Ns) : option ((Z + Z * NodeData) * Ns) :=
  '(e, s1) ← path_to_entry fuel path starting_point true s;
  v ← vnode_of e s1;
  if v =? 0 then Some (inl (- ENOENT), s1)
  else
    vn ← vnodes s1 !! v;
    if negb (bool_decide (node_type vn = REGULAR)) then Some (inl (- EACCES), s1)
    else (data ← fs_data vn; Some (inr (e, data), s1)).

Definition starting_point (path : list Z) (s : Ns) : Z := if bool_decide (head path = Some SLASH) then 0 else cwd s.

Record Program : Type := mkProgram {
  pg_exe : Z;
  pg_interp : list (list Z);
  pg_auxv : Auxval;
  pg_free : Z;
  pg_ld_path : option (list Z);
  pg_mem : Mem
}.

(** The executable, or the interpreter its first line names. *)
Definition load_program (e : Z) (data : NodeData) (s : Ns) : option ((Z + Program) * Ns) :=
  r ← load data user_binary_base true 0 no_mem;
  match r with
  | inr (aux, free, ldp, m) => Some (inr (mkProgram e [] aux free ldp m), s)
  | inl err =>
      buf ← read_struct data 256 0;
      match parse_shebang buf with
      | None => Some (inl err, s)
      | Some (interpreter_path, interpreter_arg) =>
          '(f, s1) ← find_executable interpreter_path (cwd s) s;
          match f with
          | inl err => Some (inl err, s1)
          | inr (e', data') =>
              r ← load data' user_binary_base true 0 no_mem;
              match r with
              | inl err => Some (inl err, s1)
              | inr (aux, free, ldp, m) =>
                  Some (inr (mkProgram e' (interpreter_path :: option_list interpreter_arg) aux free ldp m), s1)
              end
          end
      end
  end.

(** The dynamic linker: an error, or the entry point and the memory with it. *)
Definition load_linker (ldp : list Z) (free : Z) (m : Mem) (s : Ns) : option ((Z + Z * Mem) * Ns) :=
  '(e, s1) ← path_to_entry fuel ldp (starting_point ldp s) true s;
  v ← vnode_of e s1;
  if v =? 0 then Some (inl (- ENOENT), s1)
  else
    vn ← vnodes s1 !! v;
    if bool_decide (node_type vn = DIRECTORY) then Some (inl (- EISDIR), s1)
    else
      data ← fs_data vn;
      r ← load data user_linker_base false free m;
      match r with
      | inl err => Some (inl (if err =? - ENOEXEC then - ELIBBAD else err), s1)
      | inr (aux, _, _, m1) => Some (inr (at_entry aux, m1), s1)
      end.

(** From the loaded program on. *)
Definition start_program (path : list Z) (argv envp : list (list Z)) (pg : Program) (p : Proc) (s : Ns)
    : option (Z * Proc * Ns) :=
  let argv := match argv with a :: l => (if bool_decide (pg_interp pg = []) then a else path) :: l | [] => [] end in
  let p1 := set_brk (u64 (pg_free pg + 805306368)) (set_image (pg_mem pg) (pg_free pg) (p_name p) p) in
  '(ld, s1) ← match pg_ld_path pg with
              | None => Some (inr (at_entry (pg_auxv pg), pg_mem pg), s)
              | Some ldp => load_linker ldp (pg_free pg) (pg_mem pg) s
              end;
  match ld with
  | inl err => Some (err, p1, s1)
  | inr (entry, m) =>
      let m1 := map_anonymous user_mmap_base user_stack_size m in
      lo ← build_stack (user_mmap_base + user_stack_size) path (pg_interp pg) argv envp (p_ids p) (pg_auxv pg) m1;
      Some (0,
        mkProc (p_pid p) (lo_mem lo) (user_mmap_base + user_stack_size + 65536) (p_brk p1) (pg_exe pg)
          (lo_arg_start lo) (lo_arg_end lo) (lo_env_start lo) (lo_env_end lo) (p_name p)
          (init_user entry (lo_sp lo)) reset_actions (mkStack 0 SS_DISABLE 0) (p_ids p) true,
        set_ns_fds (close_on_exec (ns_fds s1)) (desc_entry s1) s1)
  end.

Definition user_exec (path : list Z) (argv envp : list (list Z)) (p : Proc) (s : Ns) : option (Z * Proc * Ns) :=
  '(f, s1) ← find_executable path (starting_point path s) s;
  match f with
  | inl err => Some (err, p, s1)
  | inr (e, data) =>
      ent ← entries s1 !! e;
      old_name ← strncpy (p_name p) 64;
      new_name ← strncpy (name ent ++ [0]) 16;
      let p1 := set_image no_mem 0 (blit 0 new_name (p_name p)) p in
      '(r, s2) ← load_program e data s1;
      '(err, p2, s3) ← match r with
                        | inl err => Some (err, p1, s2)
                        | inr pg => start_program path argv envp pg p1 s2
                        end;
      if (err <? 0) && negb (p_pid p =? 1)
      then (nm ← strncpy old_name 64; Some (err, set_image (p_mem p) (p_mmap_anon_base p) nm p2, s3))
      else Some (err, p2, s3)
  end.

End Exec.

(** ** The initial stack is what the ABI asks for *)

Definition strings_size (l : list (list Z)) : Z := foldr (fun s n => Z.of_nat (length s) + 1 + n) 0 l.
Fixpoint pointers (l : list (list Z)) (first : Z) : list Z :=
  match l with
  | [] => []
  | s :: l' => first :: pointers l' (first + Z.of_nat (length s) + 1)
  end.
Definition string_at (m : Mem) (a : Z) (s : list Z) : Prop := load_bytes a (length s + 1) m = Some (s ++ [0]).

Definition zeros (lo hi : Z) (m : Mem) : Prop := forall x, lo <= x < hi -> load8 x m = Some 0.
Definition same_from (a : Z) (m m' : Mem) : Prop := forall x, a <= x -> load8 x m' = load8 x m.

Lemma zeros_mapped lo hi m : zeros lo hi m -> mapped_all lo hi m.
Proof. intros H x Hx. apply load8_mapped. rewrite H by done. by eexists. Qed.

Lemma strings_size_cons s l : strings_size (s :: l) = Z.of_nat (length s) + 1 + strings_size l.
Proof. done. Qed.

Lemma strings_size_nonneg l : 0 <= strings_size l.
Proof. induction l as [|s l IH]; [done|]. rewrite strings_size_cons. lia. Qed.

Lemma strings_size_app l1 l2 : strings_size (l1 ++ l2) = strings_size l1 + strings_size l2.
Proof. induction l1 as [|s l IH]; [done|]. cbn [app]. rewrite !strings_size_cons, IH. lia. Qed.

Lemma pointers_length l a : length (pointers l a) = length l.
Proof. revert a. induction l as [|s l IH]; intros a; cbn; [done|]. by rewrite IH. Qed.

Section StackProofs.
Context (lo top : Z) (Hlo : 0 <= lo) (Htop : top <= USER_END).

Lemma push_bytes_spec l room sp m : zeros lo sp m -> sp <= top -> Z.of_nat (length l) <= room -> lo + room <= sp ->
  exists m', push_bytes l room (sp, m) = Some (sp - room, m') /\ zeros lo (sp - room) m' /\ same_from sp m m' /\
    bytes_at m' (sp - room) (l ++ replicate (Z.to_nat (room - Z.of_nat (length l))) 0).
Proof.
  intros Hz Ht Hl Hr. unfold push_bytes. cbn [fst snd]. rewrite u64_small by (unfold USER_END in *; lia).
  destruct (store_bytes_spec l (sp - room) m) as (m' & -> & Han & Hin & Hout).
  { lia. } { unfold TOP, USER_END in *; lia. } { intros x Hx. apply (zeros_mapped lo sp); [done|lia]. }
  cbn [mbind option_bind]. exists m'. split_and!; [done| | |].
  - intros x Hx. rewrite Hout by lia. apply Hz. lia.
  - intros x Hx. apply Hout. lia.
  - apply bytes_at_app. split; [done|]. intros k v Hk. apply lookup_replicate in Hk as [-> Hk].
    rewrite Hout by lia. apply Hz. lia.
Qed.

Lemma push_string_spec s sp m : zeros lo sp m -> sp <= top -> lo + Z.of_nat (length s) + 1 <= sp ->
  let sp' := sp - (Z.of_nat (length s) + 1) in
  exists m', push_string s (sp, m) = Some (sp', m') /\ zeros lo sp' m' /\ same_from sp m m' /\ bytes_at m' sp' (s ++ [0]).
Proof.
  intros Hz Ht Hr sp'. destruct (push_bytes_spec s (Z.of_nat (length s) + 1) sp m) as (m' & Hp & H1 & H2 & H3); [done|done|lia|lia|].
  exists m'. split_and!; [done|done|done|]. replace (Z.to_nat _) with 1%nat in H3 by lia. done.
Qed.

(** The strings one after the other. *)
Fixpoint strings_at (m : Mem) (a : Z) (l : list (list Z)) : Prop :=
  match l with
  | [] => True
  | s :: l' => bytes_at m a (s ++ [0]) /\ strings_at m (a + Z.of_nat (length s) + 1) l'
  end.

Lemma strings_at_frame l : forall m m' a, strings_at m a l -> same_from a m m' -> strings_at m' a l.
Proof.
  induction l as [|s l IH]; intros m m' a; [done|]. intros [H1 H2] Hf. split.
  - apply (bytes_at_frame m); [done|]. intros x Hx. apply Hf. lia.
  - apply (IH m); [done|]. intros x Hx. apply Hf. lia.
Qed.

Lemma strings_at_app l1 : forall l2 m a, strings_at m a (l1 ++ l2) <-> strings_at m a l1 /\ strings_at m (a + strings_size l1) l2.
Proof.
  induction l1 as [|s l IH]; intros l2 m a; cbn [strings_at app].
  - cbn. rewrite Z.add_0_r. tauto.
  - rewrite IH, strings_size_cons.
    replace (a + Z.of_nat (length s) + 1 + strings_size l) with (a + (Z.of_nat (length s) + 1 + strings_size l)) by lia. tauto.
Qed.

Lemma push_strings_spec l sp m : zeros lo sp m -> sp <= top -> lo + strings_size l <= sp ->
  let sp' := sp - strings_size l in
  exists m', push_strings l (sp, m) = Some (sp', m') /\ zeros lo sp' m' /\ same_from sp m m' /\ strings_at m' sp' l.
Proof.
  intros Hz Ht. induction l as [|s l IH]; intros Hr sp'.
  - exists m. subst sp'. cbn. rewrite Z.sub_0_r. done.
  - rewrite strings_size_cons in Hr. pose proof (strings_size_nonneg l).
    destruct IH as (m1 & Hp & Hz1 & Hf1 & Hs1); [lia|]. cbn [push_strings foldr]. fold (push_strings l (sp, m)). rewrite Hp.
    cbn [mbind option_bind].
    destruct (push_string_spec s (sp - strings_size l) m1) as (m2 & -> & Hz2 & Hf2 & Hs2); [done|lia|lia|].
    assert (sp - strings_size l - (Z.of_nat (length s) + 1) = sp') as E by (subst sp'; rewrite strings_size_cons; lia).
    rewrite E in *. exists m2. split_and!; [done|done| |].
    + intros x Hx. rewrite Hf2, Hf1; [done|lia|lia].
    + cbn [strings_at]. split; [done|]. replace (sp' + _ + 1) with (sp - strings_size l) by lia.
      by apply (strings_at_frame l m1).
Qed.

(** The words [ws] on a stack that grew down from [hi]. *)
Record words_on (hi : Z) (m0 : Mem) (ws : list Z) (st : Stack) : Prop := {
  wo_sp : fst st = hi - 8 * Z.of_nat (length ws);
  wo_words : words_at (snd st) (fst st) ws;
  wo_same : same_from hi m0 (snd st);
  wo_mapped : mapped_all lo hi (snd st)
}.

Lemma store_word_on a w m hi : lo <= a -> a + 8 <= hi -> hi <= top -> mapped_all lo hi m -> word w ->
  exists m', store_word a w m = Some m' /\ load_word a m' = Some w /\
    (forall x, x < a \/ a + 8 <= x -> load8 x m' = load8 x m) /\ mapped_all lo hi m'.
Proof.
  intros Ha Hh Ht Hm Hw.
  destruct (store_word_spec a w m) as (m' & Hs & Han & Hl & Ho).
  { lia. } { unfold TOP, USER_END in *; lia. } { intros x Hx. apply Hm. lia. } { done. }
  exists m'. split_and!; [done|done|done|]. intros x Hx. rewrite (anonymous_mapped m) by done. by apply Hm.
Qed.

Lemma push_word_on hi m0 ws st w : words_on hi m0 ws st -> hi <= top -> lo + 8 * Z.of_nat (length ws) + 8 <= hi -> word w ->
  exists st', push_word w st = Some st' /\ words_on hi m0 (w :: ws) st'.
Proof.
  intros [Hs Hw Hf Hm] Ht Hr Hww. destruct st as [sp m]. cbn [fst snd] in *. unfold push_word. cbn [fst snd].
  rewrite u64_small by (unfold USER_END in *; lia).
  destruct (store_word_on (sp - 8) w m hi) as (m' & -> & Hl & Ho & Hm'); [lia|lia|done|done|done|].
  cbn [mbind option_bind]. eexists. split; [done|]. split; cbn [fst snd length].
  - lia.
  - split; [done|]. replace (sp - 8 + 8) with sp by lia. apply (words_at_frame ws m).
    { lia. } { unfold TOP, USER_END in *; lia. } { intros x Hx. apply Ho. lia. } { done. }
  - intros x Hx. rewrite Ho by lia. by apply Hf.
  - done.
Qed.

Lemma push_aux_on hi m0 ws st t v : words_on hi m0 ws st -> hi <= top -> lo + 8 * Z.of_nat (length ws) + 16 <= hi ->
  word t -> word v -> exists st', push_aux t v st = Some st' /\ words_on hi m0 (t :: v :: ws) st'.
Proof.
  intros [Hs Hw Hf Hm] Ht Hr Hwt Hwv. destruct st as [sp m]. cbn [fst snd] in *. unfold push_aux. cbn [fst snd].
  rewrite (u64_small (sp - 16)) by (unfold USER_END in *; lia).
  destruct (store_word_on (sp - 16) t m hi) as (m1 & -> & Hl1 & Ho1 & Hm1); [lia|lia|done|done|done|].
  cbn [mbind option_bind]. rewrite u64_small by (unfold USER_END in *; lia).
  destruct (store_word_on (sp - 16 + 8) v m1 hi) as (m2 & -> & Hl2 & Ho2 & Hm2); [lia|lia|done|done|done|].
  cbn [mbind option_bind]. eexists. split; [done|]. split; cbn [fst snd length].
  - lia.
  - split; [|split; [done|]].
    + rewrite <- Hl1. apply load_word_frame; [lia|unfold TOP, USER_END in *; lia|]. intros x Hx. apply Ho2. lia.
    + replace (sp - 16 + 8 + 8) with sp by lia. apply (words_at_frame ws m).
      { lia. } { unfold TOP, USER_END in *; lia. } { intros x Hx. rewrite Ho2, Ho1; [done|lia|lia]. } { done. }
  - intros x Hx. rewrite Ho2, Ho1 by lia. by apply Hf.
  - done.
Qed.

(** The auxiliary vector as it lies in memory. *)
Definition aux_words (l : list (Z * Z)) : list Z := concat (map (fun p => [fst p; snd p]) (rev l)).

Lemma aux_words_cons p l : aux_words (p :: l) = aux_words l ++ [fst p; snd p].
Proof. unfold aux_words. cbn [rev]. by rewrite map_app, concat_app. Qed.

Lemma aux_words_length l : length (aux_words l) = (2 * length l)%nat.
Proof. induction l as [|p l IH]; [done|]. rewrite aux_words_cons, length_app, IH. cbn. lia. Qed.

Lemma push_auxes_on l : forall hi m0 ws st, words_on hi m0 ws st -> hi <= top ->
  lo + 8 * Z.of_nat (length ws) + 16 * Z.of_nat (length l) <= hi -> Forall (fun p => word (fst p) /\ word (snd p)) l ->
  exists st', push_auxes l st = Some st' /\ words_on hi m0 (aux_words l ++ ws) st'.
Proof.
  induction l as [|[t v] l IH]; intros hi m0 ws st Hws Ht Hr Hl; [by exists st|].
  inversion Hl as [|? ? [H1 H2] H3]; subst. cbn [length fst snd] in *. unfold push_auxes. cbn [fold_left mbind option_bind fst snd].
  destruct (push_aux_on hi m0 ws st t v) as (st1 & -> & Hws1); [done|done|lia|done|done|].
  destruct (IH hi m0 (t :: v :: ws) st1) as (st' & Hp & Hws'); [done|done|cbn [length]; lia|done|].
  exists st'. split; [exact Hp|]. rewrite aux_words_cons, <- app_assoc. exact Hws'.
Qed.

Lemma store_pointers_on l : forall a first m hi, lo <= a -> a + 8 * Z.of_nat (length l) <= hi -> hi <= top -> mapped_all lo hi m ->
  0 <= first -> first + strings_size l < TOP ->
  exists m', store_pointers a l first m = Some m' /\ words_at m' a (pointers l first) /\
    (forall x, x < a \/ a + 8 * Z.of_nat (length l) <= x -> load8 x m' = load8 x m) /\ mapped_all lo hi m'.
Proof.
  induction l as [|s l IH]; intros a first m hi Ha Hh Ht Hm Hf Hs; [by exists m|]. cbn [length store_pointers pointers words_at] in *.
  rewrite strings_size_cons in Hs. pose proof (strings_size_nonneg l).
  destruct (store_word_on a first m hi) as (m1 & -> & Hl1 & Ho1 & Hm1); [lia|lia|done|done|unfold word; lia|].
  cbn [mbind option_bind]. rewrite !u64_small by (unfold TOP, USER_END in *; lia).
  destruct (IH (a + 8) (first + Z.of_nat (length s) + 1) m1 hi) as (m' & -> & Hw & Ho & Hm'); [lia|lia|done|done|lia|lia|].
  exists m'. split_and!; [done| |done| |done].
  - rewrite <- Hl1. apply load_word_frame; [lia|unfold TOP, USER_END in *; lia|]. intros x Hx. apply Ho. lia.
  - intros x Hx. rewrite Ho, Ho1; [done|lia|lia].
Qed.

Lemma push_pointers_on l first hi m0 ws st : words_on hi m0 ws st -> hi <= top ->
  lo + 8 * Z.of_nat (length ws) + 8 * Z.of_nat (length l) + 8 <= hi -> 0 <= first -> first + strings_size l < TOP ->
  exists st', push_pointers l first st = Some st' /\ words_on hi m0 (pointers l first ++ 0 :: ws) st'.
Proof.
  intros Hws Ht Hr Hf Hs. unfold push_pointers.
  destruct (push_word_on hi m0 ws st 0) as ([sp m] & -> & [Hs1 Hw1 Hf1 Hm1]); [done|done|lia|done|].
  cbn [mbind option_bind fst snd length] in *. rewrite u64_small by (unfold USER_END in *; lia).
  destruct (store_pointers_on l (sp - 8 * Z.of_nat (length l)) first m hi) as (m' & -> & Hw & Ho & Hm'); [lia|lia|done|done|done|done|].
  cbn [mbind option_bind]. eexists. split; [done|]. split; cbn [fst snd].
  - rewrite length_app, pointers_length. cbn [length]. lia.
  - apply words_at_app. split; [done|]. rewrite pointers_length.
    replace (sp - 8 * Z.of_nat (length l) + 8 * Z.of_nat (length l)) with sp by lia.
    apply (words_at_frame (0 :: ws) m); [lia| | |exact Hw1].
    { cbn [length]. unfold TOP, USER_END in *; lia. } { intros x Hx. apply Ho. lia. }
  - intros x Hx. rewrite Ho by lia. by apply Hf1.
  - done.
Qed.

End StackProofs.

Lemma pointers_strings m l : forall a, 0 <= a -> a + strings_size l <= TOP -> strings_at m a l ->
  Forall2 (string_at m) (pointers l a) l.
Proof.
  induction l as [|s l IH]; intros a Ha Ht Hs; [constructor|]. destruct Hs as [H1 H2]. rewrite strings_size_cons in Ht.
  pose proof (strings_size_nonneg l). cbn [pointers]. constructor; [|apply IH; [lia|lia|done]].
  unfold string_at. pose proof (load_bytes_at (s ++ [0]) a m) as Hl. rewrite length_app in Hl. cbn [length] in Hl.
  apply Hl; [done|lia|done].
Qed.

Lemma align_down_16 x : 0 <= x -> align_down x 16 mod 16 = 0 /\ x - 16 < align_down x 16 <= x.
Proof.
  intros Hx. unfold align_down. pose proof (Z.div_mod x 16 ltac:(lia)). pose proof (Z.mod_pos_bound x 16 ltac:(lia)).
  destruct (Z.eqb_spec (x mod 16) 0); [lia|]. rewrite Z.mod_mul by lia. lia.
Qed.

(** Where the words start so that they end on a multiple of sixteen. *)
Lemma stack_parity hi n k : hi mod 16 = 0 -> 0 <= n -> 0 <= k -> n = 30 + k ->
  ((if negb (Z.land k 1 =? 0) then hi - 8 else hi) - 8 * n) mod 16 = 0.
Proof.
  intros Hh Hn Hk ->. pose proof (Z.div_mod hi 16 ltac:(lia)) as H1. rewrite Hh in H1.
  change 1 with (Z.ones 1). rewrite Z.land_ones by lia. change (2 ^ 1) with 2.
  pose proof (Z.div_mod k 2 ltac:(lia)) as H2. pose proof (Z.mod_pos_bound k 2 ltac:(lia)).
  destruct (Z.eqb_spec (k mod 2) 0) as [E|E]; cbn [negb].
  - replace (hi - 8 * (30 + k)) with ((hi / 16 - 15 - k / 2) * 16) by lia. by apply Z.mod_mul.
  - replace (hi - 8 - 8 * (30 + k)) with ((hi / 16 - 16 - k / 2) * 16) by lia. by apply Z.mod_mul.
Qed.

Definition ids_ok (ids : Ids) : Prop := word (id_uid ids) /\ word (id_euid ids) /\ word (id_gid ids) /\ word (id_egid ids).
Definition auxv_ok (a : Auxval) : Prop := word (at_entry a) /\ word (at_phdr a) /\ word (at_phent a) /\ word (at_phnum a).

(** What a stack of this size takes: the strings, sixteen random bytes, the
    alignment, and the words. *)
Definition stack_need (path : list Z) (interp argv envp : list (list Z)) : Z :=
  strings_size (path :: envp ++ argv ++ interp) + 16 + 24
  + 8 * (31 + Z.of_nat (length argv) + Z.of_nat (length envp) + Z.of_nat (length interp)).

Lemma words_count argc args a envp e aux :
  length (argc :: pointers args a ++ 0 :: pointers envp e ++ 0 :: aux_words aux ++ [AT_NULL; 0])
  = (5 + 2 * length aux + length envp + length args)%nat.
Proof.
  cbn [length]. rewrite !length_app, pointers_length. cbn [length]. rewrite !length_app, pointers_length. cbn [length].
  rewrite length_app, aux_words_length. cbn [length]. lia.
Qed.

Lemma push_all_words lo top hi m0 aux envp env_start args arg_start argc : 0 <= lo -> top <= USER_END -> hi <= top ->
  mapped_all lo hi m0 -> Forall (fun p => word (fst p) /\ word (snd p)) aux -> word argc ->
  0 <= env_start -> env_start + strings_size envp < TOP -> 0 <= arg_start -> arg_start + strings_size args < TOP ->
  lo + 8 * (5 + 2 * Z.of_nat (length aux) + Z.of_nat (length envp) + Z.of_nat (length args)) <= hi ->
  exists st,
    (st6 ← push_word 0 (hi, m0); st7 ← push_word 0 st6; st8 ← push_auxes aux st7; st9 ← push_pointers envp env_start st8;
     st10 ← push_pointers args arg_start st9; push_word argc st10) = Some st /\
    words_on lo hi m0 (argc :: pointers args arg_start ++ 0 :: pointers envp env_start ++ 0 :: aux_words aux ++ [AT_NULL; 0]) st.
Proof.
  intros Hlo Htop Ht Hm Haux Hargc He1 He2 Ha1 Ha2 Hr.
  assert (words_on lo hi m0 [] (hi, m0)) as W0 by (split; cbn; [lia|done|done|done]).
  destruct (push_word_on lo top Hlo Htop _ _ _ _ 0 W0) as (st6 & -> & W6); [done|cbn; lia|done|]. cbn [mbind option_bind].
  destruct (push_word_on lo top Hlo Htop _ _ _ _ 0 W6) as (st7 & -> & W7); [done|cbn; lia|done|]. cbn [mbind option_bind].
  destruct (push_auxes_on lo top Hlo Htop aux _ _ _ _ W7) as (st8 & -> & W8); [done|cbn; lia|done|]. cbn [mbind option_bind].
  destruct (push_pointers_on lo top Hlo Htop envp env_start _ _ _ _ W8) as (st9 & -> & W9); [done| |done|done|].
  { rewrite length_app, aux_words_length. cbn [length]. lia. } cbn [mbind option_bind].
  destruct (push_pointers_on lo top Hlo Htop args arg_start _ _ _ _ W9) as (st10 & -> & W10); [done| |done|done|].
  { rewrite !length_app, pointers_length. cbn [length]. rewrite length_app, aux_words_length. cbn [length]. lia. }
  cbn [mbind option_bind].
  destruct (push_word_on lo top Hlo Htop _ _ _ _ argc W10) as (st & Hst & W); [done| |done|].
  { rewrite !length_app, !pointers_length. cbn [length]. rewrite !length_app, pointers_length. cbn [length].
    rewrite length_app, aux_words_length. cbn [length]. lia. }
  exists st. split; [done|]. exact W.
Qed.

(** The strings lie one after the other below the top. *)
Lemma build_strings_spec lo top path interp argv envp m : 0 <= lo -> top <= USER_END -> zeros lo top m ->
  lo + strings_size (path :: envp ++ argv ++ interp) + 16 <= top ->
  exists s, build_strings top path interp argv envp m = Some s /\ zeros lo (st_arg_start s) (st_mem s) /\
    st_arg_start s = top - 16 - strings_size (path :: envp ++ argv ++ interp) /\
    st_env_start s = st_arg_start s + strings_size (interp ++ argv) /\
    st_execfn s = st_env_start s + strings_size envp /\ st_random s = top - 16 /\
    strings_at (st_mem s) (st_arg_start s) (interp ++ argv) /\ strings_at (st_mem s) (st_env_start s) envp /\
    strings_at (st_mem s) (st_execfn s) [path] /\ bytes_at (st_mem s) (st_random s) (replicate 16 175).
Proof.
  intros Hlo Htop Hz Hneed. rewrite strings_size_cons, !strings_size_app in Hneed.
  pose proof (strings_size_nonneg envp). pose proof (strings_size_nonneg argv). pose proof (strings_size_nonneg interp).
  unfold build_strings.
  destruct (push_bytes_spec lo top Hlo Htop (replicate 16 175) 16 top m) as (m1 & -> & Hz1 & Hf1 & Hr1); [done|lia|cbn; lia|lia|].
  cbn [mbind option_bind].
  destruct (push_string_spec lo top Hlo Htop path (top - 16) m1) as (m2 & -> & Hz2 & Hf2 & Hs2); [done|lia|lia|].
  cbn [mbind option_bind]. set (execfn := top - 16 - (Z.of_nat (length path) + 1)) in *.
  destruct (push_strings_spec lo top Hlo Htop envp execfn m2) as (m3 & -> & Hz3 & Hf3 & Hs3); [done|lia|lia|].
  cbn [mbind option_bind]. set (env_start := execfn - strings_size envp) in *.
  destruct (push_strings_spec lo top Hlo Htop argv env_start m3) as (m4 & -> & Hz4 & Hf4 & Hs4); [done|lia|lia|].
  cbn [mbind option_bind]. set (arg_end := env_start - strings_size argv) in *.
  destruct (push_strings_spec lo top Hlo Htop interp arg_end m4) as (m5 & -> & Hz5 & Hf5 & Hs5); [done|lia|lia|].
  cbn [mbind option_bind]. set (arg_start := arg_end - strings_size interp) in *.
  eexists. split; [done|]. cbn [st_random st_execfn st_env_start st_arg_start st_mem].
  rewrite strings_size_cons, !strings_size_app.
  split_and!; [done|lia|lia|lia|done| | | |].
  - apply strings_at_app. split; [done|]. replace (arg_start + strings_size interp) with arg_end by lia.
    by apply (strings_at_frame _ m4).
  - apply (strings_at_frame _ m3); [done|]. intros x Hx. rewrite Hf5 by lia. apply Hf4. lia.
  - apply (strings_at_frame _ m2); [by split|]. intros x Hx. rewrite Hf5, Hf4 by lia. apply Hf3. lia.
  - cbn in Hr1. apply (bytes_at_frame m1); [done|]. intros x Hx. rewrite Hf5, Hf4, Hf3 by lia. apply Hf2. lia.
Qed.

Lemma words_top_spec a interp argv envp : 24 <= a < TOP ->
  a - 24 < words_top a interp argv envp <= a /\
  (words_top a interp argv envp
   - 8 * (31 + (Z.of_nat (length argv) + Z.of_nat (length envp) + Z.of_nat (length interp)))) mod 16 = 0.
Proof.
  intros Ha. destruct (align_down_16 a) as [Hal1 Hal2]; [lia|]. unfold words_top. cbv zeta.
  rewrite u64_small by (unfold TOP in *; lia). split; [destruct (negb _); lia|]. apply stack_parity; [done|lia|lia|lia].
Qed.

(** C24: The program starts with a stack pointer that is a multiple of sixteen; from
    it on lie the number of arguments, the pointers to the arguments (the
    interpreter's first), a null, the pointers to the environment, a null and the
    auxiliary vector with its terminator, and every pointer leads to its
    string. *)
Theorem exec_stack_layout lo top path interp argv envp ids auxv m :
  0 <= lo -> top <= USER_END -> zeros lo top m -> ids_ok ids -> auxv_ok auxv ->
  lo + stack_need path interp argv envp <= top ->
  exists l execfn random_data, build_stack top path interp argv envp ids auxv m = Some l /\
    lo_sp l mod 16 = 0 /\ lo <= lo_sp l /\
    words_at (lo_mem l) (lo_sp l)
      (Z.of_nat (length argv) + Z.of_nat (length interp)
       :: pointers (interp ++ argv) (lo_arg_start l) ++ 0 :: pointers envp (lo_env_start l) ++ 0
       :: aux_words (aux_entries execfn random_data ids auxv) ++ [AT_NULL; 0]) /\
    Forall2 (string_at (lo_mem l)) (pointers (interp ++ argv) (lo_arg_start l)) (interp ++ argv) /\
    Forall2 (string_at (lo_mem l)) (pointers envp (lo_env_start l)) envp /\
    string_at (lo_mem l) execfn path /\ load_bytes random_data 16 (lo_mem l) = Some (replicate 16 175).
Proof.
  intros Hlo Htop Hz (I1 & I2 & I3 & I4) (A1 & A2 & A3 & A4) Hneed. unfold stack_need in Hneed.
  destruct (build_strings_spec lo top path interp argv envp m Hlo Htop Hz) as (s & Hs & Hzs & E1 & E2 & E3 & E4 & S1 & S2 & S3 & S4);
    [lia|].
  set (size := strings_size (path :: envp ++ argv ++ interp)) in *.
  pose proof (strings_size_nonneg envp). pose proof (strings_size_nonneg (interp ++ argv)). pose proof (strings_size_nonneg [path]).
  assert (strings_size (interp ++ argv) + strings_size envp + strings_size [path] = size) as Hsz
    by (subst size; rewrite !strings_size_cons, !strings_size_app; cbn; lia).
  destruct (words_top_spec (st_arg_start s) interp argv envp) as [Ht1 Ht2]; [unfold TOP, USER_END in *; lia|].
  destruct (push_all_words lo top (words_top (st_arg_start s) interp argv envp) (st_mem s)
    (aux_entries (st_execfn s) (st_random s) ids auxv) envp (st_env_start s) (interp ++ argv) (st_arg_start s)
    (Z.of_nat (length argv) + Z.of_nat (length interp))) as ([sp m6] & Hst & [W1 W2 W3 W4]); try done; try lia.
  { intros x Hx. apply (zeros_mapped lo (st_arg_start s)); [done|lia]. }
  { unfold aux_entries. repeat constructor; cbn; try done; unfold word, TOP, USER_END, PAGE_SIZE in *; lia. }
  { unfold word, TOP, USER_END in *; lia. } { unfold TOP, USER_END in *; lia. } { unfold TOP, USER_END in *; lia. }
  { rewrite length_app. cbn [aux_entries length]. lia. }
  unfold build_stack. rewrite Hs. cbn [mbind option_bind]. unfold build_words. rewrite Hst. cbn [mbind option_bind fst snd] in *.
  eexists _, (st_execfn s), (st_random s). split; [done|]. cbn [lo_sp lo_mem lo_arg_start lo_env_start].
  rewrite words_count, length_app in W1. cbn [aux_entries length] in W1.
  assert (same_from (st_arg_start s) (st_mem s) m6) as F6 by (intros x Hx; apply W3; lia).
  assert (forall a l, st_arg_start s <= a -> strings_at (st_mem s) a l -> strings_at m6 a l) as K
    by (intros a l Ha Hl; apply (strings_at_frame _ (st_mem s)); [done|intros x Hx; apply F6; lia]).
  split_and!; [rewrite W1; rewrite <- Ht2; f_equal; lia|lia|exact W2| | | |].
  - apply pointers_strings; [lia|unfold TOP, USER_END in *; lia|]. apply K; [lia|done].
  - apply pointers_strings; [lia|unfold TOP, USER_END in *; lia|]. apply K; [lia|done].
  - assert (Forall2 (string_at m6) [st_execfn s] [path]) as Hp; [|by inversion Hp].
    apply (pointers_strings m6 [path]); [lia|unfold TOP, USER_END in *; lia|]. apply K; [lia|done].
  - apply (load_bytes_at (replicate 16 175)); [lia|cbn; unfold TOP, USER_END in *; lia|].
    apply (bytes_at_frame (st_mem s)); [done|]. intros x Hx. apply F6. lia.
Qed.

(** ** Scripts *)
Lemma skip_spaces_replicate n c l : c <> 32 -> skip_spaces (replicate n 32 ++ c :: l) = c :: l.
Proof. intros Hc. induction n as [|n IH]; cbn; [|done]. by destruct (Z.eqb_spec c 32). Qed.

Lemma drop_until_head c l : drop_until c l = [] \/ head (drop_until c l) = Some c.
Proof. induction l as [|x l IH]; cbn; [by left|]. destruct (Z.eqb_spec x c) as [->|]; [by right|done]. Qed.

(** A first line [#! path] names the interpreter, with any number of spaces
    before it; whatever follows the path is lost: a script's interpreter never
    gets the argument its line gives. *)
Theorem shebang_drops_argument n path rest buf :
  path <> [] -> 0 ∉ path -> 10 ∉ path -> 32 ∉ path -> 10 ∉ rest -> (rest = [] \/ head rest = Some 32) ->
  parse_shebang ([35; 33] ++ replicate n 32 ++ path ++ rest ++ 10 :: buf) = Some (path, None).
Proof.
  intros Hp H0 H10 H32 Hr Hh. unfold parse_shebang.
  rewrite bool_decide_true by (repeat (apply elem_of_app; right); left). cbn [negb].
  replace ([35; 33] ++ replicate n 32 ++ path ++ rest ++ 10 :: buf)
    with (([35; 33] ++ replicate n 32 ++ path ++ rest) ++ 10 :: buf) by (by rewrite <- !app_assoc).
  rewrite take_until_app.
  2:{ rewrite !elem_of_app. intros [H|[H|[H|H]]]; [|apply elem_of_replicate in H as [H _]; lia|done|done].
      apply elem_of_cons in H as [H|H]; [lia|]. apply elem_of_cons in H as [H|H]; [lia|]. by apply elem_of_nil in H. }
  cbn [app take drop]. rewrite drop_0, bool_decide_true by done. cbn [negb].
  assert (exists r', take_until 0 (path ++ rest) = path ++ r' /\ (r' = [] \/ head r' = Some 32)) as (r' & Ht & Hr').
  { exists (take_until 0 rest). split.
    - clear -H0. induction path as [|x l IH]; [done|]. cbn [app take_until].
      destruct (Z.eqb_spec x 0) as [->|]; [destruct H0; left|]. rewrite IH; [done|]. intros H. apply H0. by right.
    - destruct rest as [|x rest]; [by left|]. destruct Hh as [|Hh]; [done|]. cbn in Hh. injection Hh as ->. by right. }
  assert (take_until 0 (replicate n 32 ++ path ++ rest) = replicate n 32 ++ path ++ r') as ->.
  { clear -Ht. induction n as [|n IH]; [done|]. cbn. by rewrite IH. }
  destruct path as [|c path]; [done|]. cbn [app]. rewrite skip_spaces_replicate.
  2:{ intros ->. apply H32. left. }
  rewrite bool_decide_false by done.
  replace (c :: path ++ r') with ((c :: path) ++ r') by done.
  assert (take_until 32 ((c :: path) ++ r') = c :: path) as ->.
  { destruct Hr' as [->|Hr']; [rewrite app_nil_r; by apply take_until_all|].
    destruct r' as [|y r']; [done|]. cbn in Hr'. injection Hr' as ->. by apply take_until_app. }
  destruct (drop_until_head 32 ((c :: path) ++ r')) as [->|Hd]; [done|].
  destruct (drop_until 32 ((c :: path) ++ r')) as [|y l]; [done|]. cbn in Hd. injection Hd as ->. done.
Qed.

(** ** The descriptors and the outcome *)

Lemma path_walk_fds fuel : forall path len cur follow s e s',
  path_walk fuel path len cur follow s = Some (e, s') -> ns_fds s' = ns_fds s /\ desc_entry s' = desc_entry s.
Proof.
  induction fuel as [|fuel IH]; intros path len cur follow s e s' H; [done|]. cbn [path_walk] in H.
  destruct (entry_vnode cur s) as [cv|]; [|done]. cbn [mbind option_bind] in H.
  destruct (negb _); [by injection H as <- <-|].
  destruct (component path len) as [[n last]|]; [|by apply IH in H].
  destruct (lookup_child cur _ s) as [[next s1]|] eqn:E; [|done]. cbn [mbind option_bind] in H.
  assert (ns_fds s1 = ns_fds s /\ desc_entry s1 = desc_entry s) as [F1 F2].
  { unfold lookup_child in E. destruct (entries s !! cur); [|done]. cbn [mbind option_bind] in E.
    destruct (find_child _ _ _); [by injection E as _ <-|].
    destruct (Entry_construct 0 cur _ 0 s) as [ne s0] eqn:E0. unfold Entry_construct in E0. injection E0 as <- <-.
    destruct (Entry_lookup _ _) as [s2|] eqn:E2; [|done]. injection E as _ <-.
    unfold Entry_lookup in E2.
    repeat match type of E2 with context [mbind _ ?o] => destruct o; [|done]; cbn [mbind option_bind] in E2 end.
    by destruct (find_child _ _ _); injection E2 as <-. }
  rewrite <- F1, <- F2. clear E F1 F2.
  repeat first
    [ done | by apply IH in H | by injection H as <- <-
    | match type of H with
      | mbind _ ?o = _ => destruct o; [|done]; cbn [mbind option_bind] in H
      | (if ?b then _ else _) = _ => destruct b
      | match ?x with _ => _ end = _ => destruct x
      end ].
Qed.

Lemma path_to_entry_fds fuel path start follow s e s' :
  path_to_entry fuel path start follow s = Some (e, s') -> ns_fds s' = ns_fds s /\ desc_entry s' = desc_entry s.
Proof.
  unfold path_to_entry. destruct (path_start _ _ _) as [[e0|[[? ?] ?]]|]; cbn [mbind option_bind]; [|apply path_walk_fds|done].
  by injection 1 as <- <-.
Qed.

(** The descriptors of one name space are those of the other. *)
Definition same_fds (s s' : Ns) : Prop := ns_fds s' = ns_fds s /\ desc_entry s' = desc_entry s.

Section Outcome.
Context `{!Realloc} (fuel : nat).

Lemma find_executable_fds path start s r s' : find_executable fuel path start s = Some (r, s') -> same_fds s s'.
Proof.
  unfold find_executable. destruct (path_to_entry _ _ _ _ _) as [[e s1]|] eqn:E; [|done]. cbn [mbind option_bind].
  apply path_to_entry_fds in E. destruct (vnode_of e s1) as [v|]; [|done]. cbn [mbind option_bind].
  destruct (v =? 0); [by injection 1 as <- <-|]. destruct (vnodes s1 !! v) as [vn|]; [|done]. cbn [mbind option_bind].
  destruct (negb _); [by injection 1 as <- <-|]. destruct (fs_data vn); [|done]. by injection 1 as <- <-.
Qed.

Lemma load_program_fds e data s r s' : load_program fuel e data s = Some (r, s') -> same_fds s s'.
Proof.
  unfold load_program. destruct (load data _ _ _ _) as [[err|[[[aux free] ldp] m]]|]; [|by injection 1 as <- <-|done].
  cbn [mbind option_bind]. destruct (read_struct data 256 0); [|done]. cbn [mbind option_bind].
  destruct (parse_shebang _) as [[ip ia]|]; [|by injection 1 as <- <-].
  destruct (find_executable fuel ip _ s) as [[f s1]|] eqn:E; [|done]. cbn [mbind option_bind].
  apply find_executable_fds in E. destruct f as [err'|[e' data']]; [by injection 1 as <- <-|].
  destruct (load data' _ _ _ _) as [[err'|[[[aux free] ldp] m]]|]; [by injection 1 as <- <-|by injection 1 as <- <-|done].
Qed.

Lemma load_linker_fds ldp free m s r s' : load_linker fuel ldp free m s = Some (r, s') -> same_fds s s'.
Proof.
  unfold load_linker. destruct (path_to_entry _ _ _ _ _) as [[e s1]|] eqn:E; [|done]. cbn [mbind option_bind].
  apply path_to_entry_fds in E. destruct (vnode_of e s1) as [v|]; [|done]. cbn [mbind option_bind].
  destruct (v =? 0); [by injection 1 as <- <-|]. destruct (vnodes s1 !! v) as [vn|]; [|done]. cbn [mbind option_bind].
  destruct (bool_decide _); [by injection 1 as <- <-|]. destruct (fs_data vn); [|done]. cbn [mbind option_bind].
  destruct (load _ _ _ _ _) as [[err|[[[aux fr] lp] m']]|]; [by injection 1 as <- <-|by injection 1 as <- <-|done].
Qed.

Lemma load_error data lb w ff m err : load data lb w ff m = Some (inl err) -> err = - ENOEXEC.
Proof.
  unfold load. destruct (read_struct data header_size 0); [|done]. cbn [mbind option_bind].
  destruct (negb _); [by injection 1 as <-|]. by destruct (load_headers _ _ _ _ _ _ _).
Qed.

Lemma find_executable_error path start s err s' : find_executable fuel path start s = Some (inl err, s') -> err < 0.
Proof.
  unfold find_executable. destruct (path_to_entry _ _ _ _ _) as [[e s1]|]; [|done]. cbn [mbind option_bind].
  destruct (vnode_of e s1) as [v|]; [|done]. cbn [mbind option_bind]. destruct (v =? 0); [by injection 1 as <- <-|].
  destruct (vnodes s1 !! v) as [vn|]; [|done]. cbn [mbind option_bind].
  destruct (negb _); [by injection 1 as <- <-|]. by destruct (fs_data vn).
Qed.

Lemma load_program_error e data s err s' : load_program fuel e data s = Some (inl err, s') -> err < 0.
Proof.
  unfold load_program. destruct (load data _ _ _ _) as [[err1|[[[aux free] ldp] m]]|] eqn:E1; [|done|done].
  apply load_error in E1 as ->. cbn [mbind option_bind]. destruct (read_struct data 256 0); [|done]. cbn [mbind option_bind].
  destruct (parse_shebang _) as [[ip ia]|]; [|by injection 1 as <- <-].
  destruct (find_executable fuel ip _ s) as [[f s1]|] eqn:E; [|done]. cbn [mbind option_bind].
  destruct f as [err'|[e' data']]; [injection 1 as <- <-; by apply find_executable_error in E|].
  destruct (load data' _ _ _ _) as [[err'|[[[aux free] ldp] m]]|] eqn:E2; [|done|done].
  apply load_error in E2 as ->. by injection 1 as <- <-.
Qed.

Lemma load_linker_error ldp free m s err s' : load_linker fuel ldp free m s = Some (inl err, s') -> err < 0.
Proof.
  unfold load_linker. destruct (path_to_entry _ _ _ _ _) as [[e s1]|]; [|done]. cbn [mbind option_bind].
  destruct (vnode_of e s1) as [v|]; [|done]. cbn [mbind option_bind]. destruct (v =? 0); [by injection 1 as <- <-|].
  destruct (vnodes s1 !! v) as [vn|]; [|done]. cbn [mbind option_bind].
  destruct (bool_decide _); [by injection 1 as <- <-|]. destruct (fs_data vn); [|done]. cbn [mbind option_bind].
  destruct (load _ _ _ _ _) as [[err1|[[[aux fr] lp] m']]|] eqn:E; [|done|done].
  apply load_error in E as ->. by injection 1 as <- <-.
Qed.

(** A program that started: its stack is built and its registers lead to it,
    what was close-on-exec is closed, and no handler is left. *)
Definition started (path : list Z) (envp : list (list Z)) (p p' : Proc) (s s' : Ns) : Prop :=
  exists pg argv m entry l,
    build_stack (user_mmap_base + user_stack_size) path (pg_interp pg) argv envp (p_ids p) (pg_auxv pg) m = Some l /\
    p_mem p' = lo_mem l /\ p_regs p' = init_user entry (lo_sp l) /\ p_exe p' = pg_exe pg /\
    ns_fds s' = close_on_exec (ns_fds s) /\ p_actions p' = reset_actions /\ has_performed_execve p' = true /\
    p_pid p' = p_pid p.

Lemma start_program_outcome path argv envp pg p s r p' s' : start_program fuel path argv envp pg p s = Some (r, p', s') ->
  (r = 0 /\ started path envp p p' s s') \/
  (r < 0 /\ same_fds s s' /\ exists m b bk, p' = set_brk bk (set_image m b (p_name p) p)).
Proof.
  unfold start_program. set (ld := match pg_ld_path pg with None => _ | Some _ => _ end).
  assert (forall x s1, ld = Some (x, s1) -> same_fds s s1 /\ (forall err, x = inl err -> err < 0)) as Hld.
  { subst ld. intros x s1. destruct (pg_ld_path pg) as [ldp|]; [|by injection 1 as <- <-].
    intros Hq. split; [by apply load_linker_fds in Hq|]. intros err ->. by apply load_linker_error in Hq. }
  destruct ld as [[[err|[entry m]] s1]|]; cbn [mbind option_bind]; [| |done]; destruct (Hld _ _ eq_refl) as [[F1 F2] He].
  - injection 1 as <- <- <-. right. split; [by apply He|]. split; [done|]. by do 3 eexists.
  - destruct (build_stack _ _ _ _ _ _ _ _) as [l|] eqn:E; [|done]. cbn [mbind option_bind]. injection 1 as <- <- <-.
    left. split; [done|]. eexists pg, _, _, entry, l. split; [exact E|].
    cbn [p_mem p_regs p_exe p_actions has_performed_execve p_pid]. split_and!; try reflexivity.
    cbn [ns_fds set_ns_fds]. by rewrite F1.
Qed.

End Outcome.

Definition name_ok (nm : list Z) : Prop :=
  exists n, chars n /\ (length n < 64)%nat /\ nm = n ++ replicate (64 - length n) 0.

Lemma name_saved nm : name_ok nm -> strncpy nm 64 = Some nm.
Proof.
  intros (n & Hn & Hl & ->). replace (64 - length n)%nat with (S (63 - length n)) by lia. cbn [replicate].
  rewrite strncpy_fits by done. by replace (64 - length n)%nat with (S (63 - length n)) by lia.
Qed.

Lemma exec_close_word s fd : 0 <= fd -> file_descriptors (FileDescriptor_close fd s) = <[Z.to_nat fd := 0]> (file_descriptors s).
Proof.
  intros Hf. unfold FileDescriptor_close. cbn [file_descriptors]. f_equal. unfold decrement_ref_count.
  destruct (descriptions s !! _) as [d|]; [|done]. by destruct (_ =? 0).
Qed.

Lemma close_on_exec_words l : forall s, NoDup l -> (forall i, i ∈ l -> (i < length (file_descriptors s))%nat) ->
  length (file_descriptors (fold_left close_on_exec_one l s)) = length (file_descriptors s) /\
  forall i, file_descriptors (fold_left close_on_exec_one l s) !! i =
    (if bool_decide (i ∈ l) then (fun w => if get_flags w =? 0 then w else 0) <$> file_descriptors s !! i
     else file_descriptors s !! i).
Proof.
  induction l as [|k l IH]; intros s Hnd Hin; [done|]. cbn [fold_left].
  inversion Hnd as [|? ? Hk Hnd']; subst. pose proof (Hin k ltac:(left)) as Hlt.
  set (s1 := close_on_exec_one s k).
  assert (file_descriptors s1 = if get_flags (fd_word s (Z.of_nat k)) =? 0 then file_descriptors s
    else <[k := 0]> (file_descriptors s)) as Hs1.
  { subst s1. unfold close_on_exec_one. destruct (_ =? 0); cbn [negb]; [done|]. rewrite exec_close_word by lia. by rewrite Nat2Z.id. }
  assert (length (file_descriptors s1) = length (file_descriptors s)) as Hlen
    by (rewrite Hs1; destruct (_ =? 0); [done|apply length_insert]).
  destruct (IH s1) as [Hl Hw]; [done|intros i Hi; rewrite Hlen; apply Hin; by right|].
  split; [by rewrite Hl|]. intros i. rewrite Hw, Hs1.
  destruct (decide (i = k)) as [->|Hne].
  - unfold fd_word. rewrite Nat2Z.id. rewrite bool_decide_false by done. rewrite (bool_decide_true (k ∈ k :: l)) by (rewrite elem_of_cons; by left).
    destruct (lookup_lt_is_Some_2 _ _ Hlt) as [w Hw']. rewrite Hw'. cbn [default fmap option_fmap option_map].
    unfold id. destruct (get_flags w =? 0); [done|]. by rewrite list_lookup_insert_eq.
  - assert ((if get_flags (fd_word s (Z.of_nat k)) =? 0 then file_descriptors s
      else <[k:=0]> (file_descriptors s)) !! i = file_descriptors s !! i) as ->
      by (destruct (get_flags _ =? 0); [reflexivity|rewrite list_lookup_insert_ne by congruence; reflexivity]).
    destruct (decide (i ∈ l)); [rewrite !bool_decide_true by (rewrite ?elem_of_cons; auto); done|].
    rewrite !bool_decide_false; [done|rewrite elem_of_cons; by intros [?|?]|done].
Qed.


(** ** Concrete runs *)
#[local] Existing Instance realloc_170.

Definition demo_top : Z := user_mmap_base + user_stack_size.
Definition demo_mem : Mem := map_anonymous (demo_top - 4096) 4096 no_mem.
Definition demo_ids : Ids := mkIds 0 0 0 0.
Definition demo_aux : Auxval := mkAuxval 4198412 4194368 56 1.

Lemma demo_zeros : zeros (demo_top - 4096) demo_top demo_mem.
Proof.
  intros x Hx. pose proof (map_anonymous_mapped (demo_top - 4096) 4096 no_mem x ltac:(lia)) as H.
  unfold load8, demo_mem. by rewrite H.
Qed.

Lemma exec_stack_layout_witness :
  exists l, build_stack demo_top (str "/bin/ls") [] [str "ls"; str "-l"] [str "A=1"] demo_ids demo_aux demo_mem = Some l /\
    lo_sp l mod 16 = 0 /\ load_word (lo_sp l) (lo_mem l) = Some 2 /\
    exists p, load_word (lo_sp l + 16) (lo_mem l) = Some p /\ load_bytes p 3 (lo_mem l) = Some (str "-l" ++ [0]).
Proof.
  destruct (exec_stack_layout (demo_top - 4096) demo_top (str "/bin/ls") [] [str "ls"; str "-l"] [str "A=1"] demo_ids demo_aux demo_mem)
    as (l & execfn & rd & Hb & Hal & _ & Hw & Hargs & _).
  - vm_compute; discriminate.
  - vm_compute; discriminate.
  - apply demo_zeros.
  - vm_compute. intuition discriminate.
  - vm_compute. intuition discriminate.
  - vm_compute; discriminate.
  - exists l. split; [exact Hb|]. split; [exact Hal|]. split; [exact (proj1 Hw)|].
    exists (lo_arg_start l + 2 + 1). split; [exact (words_at_lookup _ _ _ 2 _ Hw eq_refl)|].
    apply Forall2_cons_1 in Hargs as [_ Hargs]. apply Forall2_cons_1 in Hargs as [Hs _]. exact Hs.
Defined.

Lemma shebang_drops_argument_witness :
  parse_shebang (str "#! /bin/sh -e" ++ 10 :: str "exit 0") = Some (str "/bin/sh", None).
Proof.
  apply (shebang_drops_argument 1 (str "/bin/sh") (str " -e") (str "exit 0")).
  - discriminate.
  - apply (bool_decide_unpack _); by vm_compute.
  - apply (bool_decide_unpack _); by vm_compute.
  - apply (bool_decide_unpack _); by vm_compute.
  - apply (bool_decide_unpack _); by vm_compute.
  - right. reflexivity.
Defined.

(** A process whose descriptor 0 is marked close-on-exec runs a program. *)
Definition demo_proc : Proc :=
  mkProc 5 no_mem 0 0 0 0 0 0 0 (str "sh" ++ replicate 62 0) no_regs reset_actions (mkStack 0 2 0) demo_ids false.
Definition ns_program : Ns :=
  let s := run_ns (syscall_open ns_example_fuel ns_open (str "notes") 524353 438 ns_home) in
  match path_to_entry ns_example_fuel (str "/home/notes") 0 true s with
  | Some (e, _) =>
      match vnode_of e s with
      | Some v => upd_vnode v (fun d => mkVNode (node_type d) (fs d) (fs_mounted_here d) (Some (demo_file 2 4198408)) (times d)
                                          (uid d) (gid d) (mode d) (rdev d)) s
      | None => s
      end
  | None => s
  end.

