(* ===== verification/Jobs.v ===== *)
(** Jobs: identifiers, sessions and process groups
    (src/kernel/src/userland/pid.cpp, the groups of
    src/kernel/src/sched/sched.cpp) and the calls that send signals to
    processes and groups (src/kernel/src/userland/signal.cpp).

    Groups and sessions are objects that nothing ever frees, named by numbers;
    a group's leader is a pointer to a process, named by its identifier, and
    following it after the process is gone is [None]. *)
From S2P Require Import Prelude Signal Sched.

Record Jobs : Type := mkJobs {
  sched : Sched;
  leader_process : gmap Z Z;
  session : gmap Z Z;
  leader_group : gmap Z Z;
  performed_execve : list Z;
  next_object : Z
}.

Definition set_sched (s : Sched) (j : Jobs) : Jobs :=
  mkJobs s (leader_process j) (session j) (leader_group j) (performed_execve j) (next_object j).

(** [Thread::get_from_tid] *)
Definition get_from_tid (tid : Z) (s : Sched) : option SThread :=
  if (tid <=? 0) || (Z.of_nat (length (thread_table s)) <=? tid) then None
  else if default false (thread_table s !! Z.to_nat tid) then threads s !! tid else None.

(** [new ProcessGroup(session, leader)] and [new Session()] *)
Definition ProcessGroup_new (sn leader : Z) (j : Jobs) : Z * Jobs :=
  let g := next_object j in
  (g, mkJobs (set_groups (<[g := []]> (groups (sched j))) (sched j)) (<[g := leader]> (leader_process j))
        (<[g := sn]> (session j)) (leader_group j) (performed_execve j) (g + 1)).
Definition Session_new (j : Jobs) : Z * Jobs :=
  (next_object j, mkJobs (sched j) (leader_process j) (session j) (leader_group j) (performed_execve j) (next_object j + 1)).

Definition process_group (p : Z) (j : Jobs) : option Z := group <$> processes (sched j) !! p.
(** [process->group->leader_process] and [process->session_leader()], as
    pointers. *)
Definition group_leader (p : Z) (j : Jobs) : option Z := g ← process_group p j; leader_process j !! g.
Definition session_leader (p : Z) (j : Jobs) : option Z :=
  g ← process_group p j; sn ← session j !! g; lg ← leader_group j !! sn; leader_process j !! lg.
(** The [pid] field behind a pointer. *)
Definition pid_of (p : Z) (j : Jobs) : option Z := _ ← processes (sched j) !! p; Some p.

Definition syscall_gettid (t : Z) : Z := t.
Definition syscall_getpid (t : Z) (j : Jobs) : option Z := process <$> threads (sched j) !! t.
Definition syscall_getppid (self : Z) (j : Jobs) : option Z :=
  pr ← processes (sched j) !! self; pid_of (parent pr) j.

(** The process a call names: by the identifier of a thread, or its own. *)
Definition named_process (self pid : Z) (j : Jobs) : option Z :=
  if negb (pid =? 0) then process <$> get_from_tid pid (sched j) else Some self.

Definition syscall_getpgid (self pid : Z) (j : Jobs) : option Z :=
  match named_process self pid j with
  | None => Some (- ESRCH)
  | Some p => l ← group_leader p j; pid_of l j
  end.
Definition syscall_getpgrp (self : Z) (j : Jobs) : option Z := l ← group_leader self j; pid_of l j.
Definition syscall_getsid (self pid : Z) (j : Jobs) : option Z :=
  match named_process self pid j with
  | None => Some (- ESRCH)
  | Some p => l ← session_leader p j; pid_of l j
  end.

(** The process [setpgid] moves, or its error. *)
Definition setpgid_target (self pid : Z) (j : Jobs) : option (Z + Z) :=
  if negb (pid =? 0) then
    match get_from_tid pid (sched j) with
    | None => Some (inl (- ESRCH))
    | Some th =>
        let target := process th in
        pr ← processes (sched j) !! target;
        if negb (target =? self) && negb (parent pr =? self) then Some (inl (- ESRCH))
        else if (parent pr =? self) && bool_decide (target ∈ performed_execve j) then Some (inl (- EACCES))
        else Some (inr target)
    end
  else Some (inr self).

Definition syscall_setpgid (self pid pgid : Z) (j : Jobs) : option (Z * Jobs) :=
  tgt ← setpgid_target self pid j;
  match tgt with
  | inl err => Some (err, j)
  | inr target =>
      sl ← session_leader target j;
      if sl =? target then Some (- EPERM, j)
      else
        g0 ← process_group target j;
        sn ← session j !! g0;
        if negb (pgid =? 0) && negb (pgid =? target) then
          if pgid <? 0 then Some (- EINVAL, j)
          else
            match get_from_tid pgid (sched j) with
            | None => Some (- EPERM, j)
            | Some th =>
                g ← process_group (process th) j;
                sn' ← session j !! g;
                if negb (sn' =? sn) then Some (- EPERM, j)
                else (s ← add_process g target (sched j); Some (0, set_sched s j))
            end
        else
          l ← leader_process j !! g0;
          if l =? target then Some (0, j)
          else
            let '(g, j1) := ProcessGroup_new sn target j in
            s ← add_process g target (sched j1);
            Some (0, set_sched s j1)
  end.

Definition syscall_setsid (self : Z) (j : Jobs) : option (Z * Jobs) :=
  l ← group_leader self j;
  if l =? self then Some (- EPERM, j)
  else
    let '(sn, j1) := Session_new j in
    let '(g, j2) := ProcessGroup_new sn self j1 in
    s ← add_process g self (sched j2);
    let j3 := set_sched s j2 in
    g' ← process_group self j3;
    Some (self, mkJobs (sched j3) (leader_process j3) (session j3) (<[sn := g']> (leader_group j3)) (performed_execve j3)
                  (next_object j3)).

(** *** Signals to processes and groups *)

(** [ProcessGroup::send_signal], with its assertion. *)
Fixpoint send_to_members (g sg : Z) (l : list Z) (s : Sched) : option Sched :=
  match l with
  | [] => Some s
  | p :: l' =>
      pr ← processes s !! p;
      if negb (group pr =? g) then None
      else (s1 ← Process_send_signal p sg s; send_to_members g sg l' s1)
  end.
Definition ProcessGroup_send_signal (g sg : Z) (s : Sched) : option Sched :=
  l ← groups s !! g; send_to_members g sg l s.

(** Whom [kill] addresses: whether a group, and by which thread. *)
Definition kill_target (self pid : Z) (j : Jobs) : option (bool * Z) :=
  if pid <? 0 then Some (true, i32 (- pid))
  else if pid =? 0 then (l ← group_leader self j; l' ← pid_of l j; Some (true, l'))
  else Some (false, pid).

Definition syscall_kill (self pid sg : Z) (j : Jobs) : option (Z * Jobs) :=
  if (sg <? 0) || (64 <=? sg) then Some (- EINVAL, j)
  else
    '(to_process_group, pid) ← kill_target self pid j;
    match get_from_tid pid (sched j) with
    | None => Some (- ESRCH, j)
    | Some th =>
        if bool_decide (state th = ZOMBIE) then Some (- ESRCH, j)
        else
          l ← (if to_process_group : bool then group_leader (process th) j else Some (process th));
          if to_process_group && negb (l =? process th) then Some (- ESRCH, j)
          else if sg =? 0 then Some (0, j)
          else
            s ← (if to_process_group : bool
                 then (g ← process_group (process th) j; ProcessGroup_send_signal g sg (sched j))
                 else Thread_send_signal pid sg (sched j));
            Some (0, set_sched s j)
    end.

Definition syscall_tgkill (pid tid sg : Z) (j : Jobs) : option (Z * Jobs) :=
  if (sg <? 0) || (64 <=? sg) then Some (- EINVAL, j)
  else
    match get_from_tid tid (sched j) with
    | None => Some (- ESRCH, j)
    | Some th =>
        if bool_decide (state th = ZOMBIE) then Some (- ESRCH, j)
        else if negb (process th =? pid) then Some (- ESRCH, j)
        else if sg =? 0 then Some (0, j)
        else (s ← Thread_send_signal tid sg (sched j); Some (0, set_sched s j))
    end.

(** [pause], up to the switch to another thread; it then returns [-EINTR]. *)
Definition syscall_pause (t : Z) (s : Sched) : option (option Z * Sched) :=
  match Event_wait t [signal_return_event t] false s with
  | Some (Some _, s1) => Some (Some (- EINTR), s1)
  | Some (None, s1) => Some (None, s1)
  | None => None
  end.

(** ** Who is a member of what *)

Definition group_ids (s : Sched) : gmap Z Z := group <$> processes s.

Section Members.
(** Groups are numbered below the next object. *)
Context (bound : Z).

(** Every process of a group but the first process, which is never linked, is
    listed there once, and every listed process has that group: the assertion
    of [send_signal] holds. *)
Record members_ok (s : Sched) : Prop := {
  mo_listed : forall p g, group_ids s !! p = Some g -> g <> 0 -> exists l, groups s !! g = Some l /\ (p <> INIT -> p ∈ l);
  mo_member : forall g l p, groups s !! g = Some l -> p ∈ l -> group_ids s !! p = Some g;
  mo_once : forall g l, groups s !! g = Some l -> NoDup l /\ 0 < g < bound
}.

Definition same_members (s s' : Sched) : Prop := groups s' = groups s /\ group_ids s' = group_ids s.

Lemma same_members_ok s s' : same_members s s' -> members_ok s -> members_ok s'.
Proof. intros [H1 H2] [A B C]. split; rewrite ?H1, ?H2; done. Qed.

Lemma same_members_refl s : same_members s s.
Proof. done. Qed.

Lemma same_members_trans a b c : same_members a b -> same_members b c -> same_members a c.
Proof. intros [A1 A2] [B1 B2]. split; congruence. Qed.

Lemma same_members_upd p f s : (forall pr, group (f pr) = group pr) -> same_members s (upd_process p f s).
Proof.
  intros Hf. split; [done|]. unfold group_ids. cbn [upd_process set_processes processes]. apply map_eq. intros q.
  rewrite !lookup_fmap. destruct (decide (p = q)) as [->|]; [rewrite lookup_alter_eq|by rewrite lookup_alter_ne].
  destruct (processes s !! q); [cbn; by rewrite Hf|done].
Qed.

Lemma same_members_map f s : (forall pr, group (f pr) = group pr) -> same_members s (set_processes (f <$> processes s) s).
Proof.
  intros Hf. split; [done|]. unfold group_ids. cbn [set_processes processes]. apply map_eq. intros q.
  rewrite !lookup_fmap. destruct (processes s !! q); [cbn; by rewrite Hf|done].
Qed.

(** Nothing but the threads, the events and the run list. *)
Definition same_procs (s s' : Sched) : Prop := groups s' = groups s /\ processes s' = processes s.

Lemma same_procs_members s s' : same_procs s s' -> same_members s s'.
Proof. intros [H1 H2]. split; [done|]. unfold group_ids. by rewrite H2. Qed.

Lemma same_procs_trans a b c : same_procs a b -> same_procs b c -> same_procs a c.
Proof. intros [A1 A2] [B1 B2]. split; congruence. Qed.

Lemma enqueue_procs t sg s s' : enqueue_thread t sg s = Some s' -> same_procs s s'.
Proof. intros H. by destruct (enqueue_shape _ _ _ _ H) as [->|(l & st & ->)]. Qed.

Lemma wake_listeners_procs l : forall num m s n s', wake_listeners l num m s = Some (n, s') -> same_procs s s'.
Proof.
  induction l as [|[t w] l IH]; intros num m s n s' H; cbn [wake_listeners] in H; [by injection H as <- <-|].
  destruct (enqueue_thread t (-1) _) as [s1|] eqn:E; [|done]. cbn [mbind option_bind] in H. apply enqueue_procs in E.
  assert (same_procs s s1) as E1 by (destruct E; split; [done|done]).
  destruct (m <=? num + 1); [by injection H as <- <-|]. eapply same_procs_trans; [exact E1|by eapply IH].
Qed.

Lemma trigger_procs e d m s n s' : Event_trigger e d m s = Some (n, s') -> same_procs s s'.
Proof.
  unfold Event_trigger. destruct (_ =? 0); [|apply wake_listeners_procs]. injection 1 as <- <-. by destruct d.
Qed.

Lemma trigger1_procs e s s' : trigger e s = Some s' -> same_procs s s'.
Proof.
  unfold trigger. destruct (Event_trigger e false INT_MAX s) as [[n s1]|] eqn:E; [|done]. injection 1 as <-.
  by eapply trigger_procs.
Qed.

Lemma send_signal_procs t sg s s' : Thread_send_signal t sg s = Some s' -> same_procs s s'.
Proof.
  unfold Thread_send_signal. destruct (threads s !! t) as [th|]; [|done]. cbn [mbind option_bind].
  destruct (enqueue_thread t sg _) as [s1|] eqn:E; [|done]. cbn [mbind option_bind]. intros H.
  apply enqueue_procs in E. apply trigger1_procs in H. eapply same_procs_trans; [|exact H]. by destruct E.
Qed.

Lemma process_signal_procs p sg s s' : Process_send_signal p sg s = Some s' -> same_procs s s'.
Proof.
  unfold Process_send_signal. destruct (processes s !! p) as [pr|]; [|done]. cbn [mbind option_bind].
  destruct (head (thread_list pr)) as [t|]; [|done]. cbn [mbind option_bind]. destruct (negb _); [done|]. apply send_signal_procs.
Qed.

Lemma add_process_ok g p s s' : add_process g p s = Some s' -> members_ok s ->
  members_ok s' /\ group_ids s' = <[p := g]> (group_ids s) /\ 0 < g < bound /\ threads s' = threads s /\
  (forall q, q <> g -> groups s' !! q = (fun l => filter (fun x => x <> p) l) <$> groups s !! q).
Proof.
  unfold add_process. destruct (processes s !! p) as [pr|] eqn:Hp; [|done]. cbn [mbind option_bind]. intros H [A B C].
  assert (group_ids s !! p = Some (group pr)) as Hg by (unfold group_ids; by rewrite lookup_fmap, Hp).
  set (gs := if group pr =? 0 then groups s else _) in H.
  assert (forall q, gs !! q = (fun l => filter (fun x => x <> p) l) <$> groups s !! q) as Hgs.
  { intros q. subst gs. assert (forall q l, groups s !! q = Some l -> group pr <> q -> filter (fun x => x <> p) l = l) as Hf.
    { intros q' l Hl Hne. apply (list_remove_out p). intros Hx. pose proof (B _ _ _ Hl Hx). congruence. }
    destruct (Z.eqb_spec (group pr) 0) as [E|E].
    - destruct (groups s !! q) as [l|] eqn:Eq; [|done]. cbn. f_equal. symmetry. apply (Hf q); [done|].
      rewrite E. intros <-. destruct (C _ _ Eq). lia.
    - destruct (decide (group pr = q)) as [<-|Hne]; [by rewrite lookup_alter_eq|]. rewrite lookup_alter_ne by done.
      destruct (groups s !! q) as [l|] eqn:Eq; [|done]. cbn. f_equal. symmetry. by apply (Hf q). }
  destruct (gs !! g) as [l|] eqn:El; [|done]. cbn [mbind option_bind] in H. injection H as <-.
  rewrite Hgs in El. destruct (groups s !! g) as [l0|] eqn:E0; [|done]. cbn in El. injection El as <-.
  assert (0 < g < bound) as Hg0 by by destruct (C _ _ E0).
  set (s' := upd_process p _ _).
  assert (group_ids s' = <[p := g]> (group_ids s)) as Hids.
  { apply map_eq. intros q. unfold group_ids, s'. cbn [upd_process set_processes processes set_groups].
    rewrite lookup_fmap. destruct (decide (p = q)) as [->|Hne].
    - by rewrite lookup_alter_eq, lookup_insert_eq, Hp.
    - rewrite lookup_alter_ne, lookup_insert_ne by done. by rewrite lookup_fmap. }
  assert (forall q, groups s' !! q = if decide (q = g) then Some (filter (fun x => x <> p) l0 ++ [p])
    else (fun l => filter (fun x => x <> p) l) <$> groups s !! q) as Hgr.
  { intros q. unfold s'. cbn [upd_process set_processes groups set_groups]. destruct (decide (q = g)) as [->|];
      [by rewrite lookup_insert_eq|by rewrite lookup_insert_ne]. }
  split; [|split; [done|split; [done|split; [done|intros q Hq; rewrite Hgr; by rewrite decide_False]]]].
  split.
  - intros q h Hq Hh. rewrite Hids in Hq. rewrite Hgr. destruct (decide (p = q)) as [->|Hne].
    + rewrite lookup_insert_eq in Hq. injection Hq as <-. rewrite decide_True by done. eexists. split; [done|]. intros _. apply elem_of_app. right. left.
    + rewrite lookup_insert_ne in Hq by done. destruct (A _ _ Hq Hh) as (l & Hl & Hin). destruct (decide (h = g)) as [->|].
      * eexists. split; [done|]. intros HI. apply elem_of_app. left. rewrite E0 in Hl. injection Hl as ->. apply list_elem_of_filter. auto.
      * rewrite Hl. eexists. split; [done|]. intros HI. apply list_elem_of_filter. auto.
  - intros h l q Hl Hq. rewrite Hids. rewrite Hgr in Hl. destruct (decide (h = g)) as [->|Hne].
    + injection Hl as <-. apply elem_of_app in Hq as [Hq|Hq].
      * apply list_elem_of_filter in Hq as [Hq1 Hq2]. rewrite lookup_insert_ne by done. by eapply B.
      * apply list_elem_of_singleton in Hq as ->. by rewrite lookup_insert_eq.
    + destruct (groups s !! h) as [l1|] eqn:E1; [|done]. injection Hl as <-.
      apply list_elem_of_filter in Hq as [Hq1 Hq2]. rewrite lookup_insert_ne by done. by eapply B.
  - intros h l Hl. rewrite Hgr in Hl. destruct (decide (h = g)) as [->|Hne].
    + injection Hl as <-. split; [|done]. destruct (C _ _ E0) as [Hnd _]. apply NoDup_app. split; [by apply NoDup_filter|].
      split; [|apply NoDup_singleton]. intros x Hx ->%list_elem_of_singleton. by apply list_elem_of_filter in Hx as [? _].
    + destruct (groups s !! h) as [l1|] eqn:E1; [|done]. injection Hl as <-. destruct (C _ _ E1) as [Hnd H0].
      split; [by apply NoDup_filter|done].
Qed.

Lemma set_parent_members p q s s' : set_parent p q s = Some s' -> members_ok s -> members_ok s'.
Proof.
  unfold set_parent. destruct (processes s !! p) as [pr|]; [|done]. cbn [mbind option_bind].
  destruct (processes s !! q) as [np|]; [|done]. cbn [mbind option_bind]. intros H Hok.
  refine (proj1 (add_process_ok _ _ _ _ H _)).
  eapply same_members_ok; [|eapply same_members_ok; [|eapply same_members_ok; [|exact Hok]]];
    [by apply same_members_upd|by apply same_members_map|by apply same_members_upd].
Qed.

Lemma reparent_members l : forall s s', reparent l s = Some s' -> members_ok s -> members_ok s'.
Proof.
  induction l as [|c l IH]; intros s s' H Hok; cbn [reparent] in H; [by injection H as <-|].
  destruct (set_parent c INIT s) as [s1|] eqn:E; [|done]. cbn [mbind option_bind] in H.
  apply set_parent_members in E; [|done]. by eapply IH.
Qed.

Lemma zombify_members p sg s s' : zombify p sg s = Some s' -> members_ok s -> members_ok s'.
Proof.
  unfold zombify. intros H Hok. destruct (p =? INIT); [done|].
  destruct (processes s !! p) as [pr|]; [|done]. cbn [mbind option_bind] in H.
  destruct (reparent _ _) as [s2|] eqn:E2; [|done]. cbn [mbind option_bind] in H.
  destruct (trigger _ s2) as [s3|] eqn:E3; [|done]. cbn [mbind option_bind] in H.
  destruct (processes s3 !! p) as [pr3|]; [|done]. cbn [mbind option_bind] in H.
  apply reparent_members in E2; [|eapply same_members_ok; [|exact Hok]; by apply same_members_upd].
  apply trigger1_procs, same_procs_members in E3. apply process_signal_procs, same_procs_members in H.
  eapply same_members_ok; [exact H|]. by eapply same_members_ok.
Qed.

Section Ops.
Context (futex_wake : Z -> Sched -> option Sched).
Hypothesis (futex_wake_members : forall a s s', futex_wake a s = Some s' -> same_members s s').

Lemma terminate_thread_members t sg s s' : terminate_thread futex_wake t sg s = Some s' -> members_ok s -> members_ok s'.
Proof.
  unfold terminate_thread. intros H Hok. destruct (threads s !! t) as [th|]; [|done]. cbn [mbind option_bind] in H.
  destruct (bool_decide _); [by injection H as <-|]. cbv zeta in H.
  set (s2 := upd_thread t (with_state ZOMBIE) _) in H.
  assert (same_members s s2) as H2 by (subst s2; by destruct (_ || _)).
  destruct (processes s2 !! process th) as [pr|]; [|done]. cbn [mbind option_bind] in H.
  set (s3 := upd_process _ _ s2) in H. assert (same_members s2 s3) as H3 by by apply same_members_upd.
  assert (members_ok s3) as Hok3 by (eapply same_members_ok; [exact H3|by eapply same_members_ok]).
  destruct (_ =? 0); [by eapply zombify_members|]. destruct (negb _); [|by injection H as <-].
  eapply same_members_ok; [by eapply futex_wake_members|done].
Qed.

Lemma terminate_threads_members l sg : forall s s', terminate_threads futex_wake l sg s = Some s' -> members_ok s -> members_ok s'.
Proof.
  induction l as [|t l IH]; intros s s' H Hok; cbn [terminate_threads] in H; [by injection H as <-|].
  destruct (terminate_thread futex_wake t sg s) as [s1|] eqn:E; [|done]. cbn [mbind option_bind] in H.
  apply terminate_thread_members in E; [|done]. by eapply IH.
Qed.

Lemma clear_listeners_procs t s s' : clear_listeners t s = Some s' -> same_procs s s'.
Proof. unfold clear_listeners. destruct (threads s !! t); [|done]. by injection 1 as <-. Qed.

Lemma delete_threads_procs l : forall s s', delete_threads futex_wake l s = Some s' ->
  (forall t th, t ∈ l -> threads s !! t = Some th -> state th = ZOMBIE) -> same_procs s s'.
Proof.
  induction l as [|t l IH]; intros s s' H Hz; cbn [delete_threads] in H; [by injection H as <-|].
  destruct (threads s !! t) as [th|] eqn:Et; [|done]. cbn [mbind option_bind] in H.
  rewrite bool_decide_true in H by (eapply Hz; [left|done]). cbn [negb mbind option_bind] in H.
  unfold delete_thread, clear_listeners in H. rewrite Et in H. cbn [mbind option_bind] in H.
  rewrite bool_decide_true in H by (eapply Hz; [left|done]). cbn [negb mbind option_bind] in H.
  eapply same_procs_trans; [|eapply (IH _ _ H)]; [done|].
  intros u uh Hu. cbn [threads upd_thread set_threads]. rewrite lookup_delete_Some. intros [Hne Hu'].
  rewrite lookup_alter_ne in Hu' by done. eapply Hz; [by right|done].
Qed.

(** Reaping a process, all of whose threads have ended. *)
Lemma delete_process_members p s s' : delete_process futex_wake p s = Some s' ->
  (forall pr t th, processes s !! p = Some pr -> t ∈ thread_list pr -> threads s !! t = Some th -> state th = ZOMBIE) ->
  members_ok s -> members_ok s'.
Proof.
  unfold delete_process. intros H Hz [A B C]. destruct (processes s !! p) as [pr|] eqn:Hp; [|done]. cbn [mbind option_bind] in H.
  destruct (negb (is_zombie pr)); [done|]. cbv zeta in H.
  set (s1 := set_processes _ s) in H. set (s2 := set_groups _ s1) in H.
  destruct (delete_threads futex_wake (thread_list pr) s2) as [s3|] eqn:E; [|done]. cbn [mbind option_bind] in H. injection H as <-.
  apply delete_threads_procs in E as [G P]; [|intros t th Ht; by eapply Hz].
  assert (group_ids s !! p = Some (group pr)) as Hg by (unfold group_ids; by rewrite lookup_fmap, Hp).
  assert (forall q, group_ids (set_processes (delete p (processes s3)) s3) !! q = if decide (q = p) then None else group_ids s !! q) as Hids.
  { intros q. unfold group_ids. cbn [set_processes processes]. rewrite fmap_delete, P. unfold s2, s1. cbn [set_groups set_processes processes].
    destruct (decide (q = p)) as [->|]; [by rewrite lookup_delete_eq|]. rewrite lookup_delete_ne by done. rewrite !lookup_fmap.
    by destruct (processes s !! q). }
  assert (forall q l, groups (set_processes (delete p (processes s3)) s3) !! q = Some l ->
    p ∉ l /\ exists l0, groups s !! q = Some l0 /\ l = list_remove p l0) as Hgr.
  { intros q l. cbn [set_processes groups]. rewrite G. unfold s2, s1. cbn [set_groups set_processes groups].
    destruct (decide (group pr = q)) as [<-|Hne].
    - rewrite lookup_alter_eq. destruct (groups s !! group pr) as [l0|]; [|done]. injection 1 as <-.
      split; [intros Hin; by apply list_elem_of_filter in Hin as [? _]|]. by exists l0.
    - rewrite lookup_alter_ne by done. intros Hl. assert (p ∉ l) as Hn by (intros Hin; pose proof (B _ _ _ Hl Hin); congruence).
      split; [done|]. exists l. split; [done|]. by rewrite list_remove_out. }
  split.
  - intros q g Hq Hg0. rewrite Hids in Hq. destruct (decide (q = p)) as [|Hne]; [done|].
    destruct (A _ _ Hq Hg0) as (l & Hl & Hin). cbn [set_processes groups]. rewrite G. unfold s2, s1. cbn [set_groups set_processes groups].
    destruct (decide (group pr = g)) as [<-|]; [rewrite lookup_alter_eq, Hl|rewrite lookup_alter_ne by done; by exists l].
    eexists. split; [done|]. intros HI. apply list_elem_of_filter. auto.
  - intros g l q Hl Hq. apply Hgr in Hl as (Hn & l0 & Hl0 & ->). rewrite Hids. destruct (decide (q = p)) as [->|]; [done|].
    apply list_elem_of_filter in Hq as [_ Hq]. by eapply B.
  - intros g l Hl. apply Hgr in Hl as (Hn & l0 & Hl0 & ->). destruct (C _ _ Hl0). split; [by apply NoDup_filter|done].
Qed.

Lemma allocate_tid_procs s t s' : allocate_tid s = (t, s') -> same_procs s s'.
Proof. unfold allocate_tid. intros H. destruct (free_tid _ _); by injection H as <- <-. Qed.

Lemma Thread_new_members p t s s' : Thread_new p t s = Some s' -> same_members s s'.
Proof.
  unfold Thread_new. destruct (processes s !! p); [|done]. cbn [mbind option_bind]. injection 1 as <-.
  match goal with |- same_members s (mkSched _ (alter ?f p _) _ _ _ _ _ _) =>
    destruct (same_members_upd p f s (fun pr => eq_refl)) as [H1 H2] end.
  split; [done|exact H2].
Qed.

Lemma new_process_members p s : members_ok s -> processes s !! p = None ->
  members_ok (set_processes (<[p := mkSProcess [] 0 0 [] 0 0 false 0 0 default_umask]> (processes s)) s).
Proof.
  intros [A B C] Hp. assert (group_ids s !! p = None) as Hg by (unfold group_ids; by rewrite lookup_fmap, Hp).
  assert (group_ids (set_processes (<[p := mkSProcess [] 0 0 [] 0 0 false 0 0 default_umask]> (processes s)) s)
    = <[p := 0]> (group_ids s)) as Hids by (unfold group_ids; cbn [set_processes processes]; by rewrite fmap_insert).
  split; rewrite ?Hids; cbn [set_processes groups].
  - intros q g Hq H0. destruct (decide (p = q)) as [->|]; [rewrite lookup_insert_eq in Hq; by injection Hq as <-|].
    rewrite lookup_insert_ne in Hq by done. by apply A.
  - intros g l q Hl Hq. pose proof (B _ _ _ Hl Hq). rewrite lookup_insert_ne; [done|congruence].
  - done.
Qed.

Lemma clone_members old fl ct s r s' : clone_impl old fl ct s = Some (r, s') ->
  (forall t s1, allocate_tid s = (t, s1) -> processes s !! t = None) -> members_ok s -> members_ok s'.
Proof.
  unfold clone_impl. intros H Hf Hok. destruct (clone_flags fl) as [[f th]|]; [|by injection H as <- <-].
  destruct (threads s !! old) as [ot|]; [|done]. cbn [mbind option_bind] in H.
  destruct (processes s !! process ot) as [op|]; [|done]. cbn [mbind option_bind] in H.
  destruct (new_task th (process ot) s) as [[tid s1]|] eqn:En; [|done]. cbn [mbind option_bind] in H.
  assert (members_ok s1) as Hok1.
  { unfold new_task, Process_new in En. destruct (allocate_tid s) as [nt ns] eqn:Ea. pose proof (Hf _ _ eq_refl) as Hn.
    apply allocate_tid_procs in Ea. assert (members_ok ns) as Hns by (eapply same_members_ok; [by apply same_procs_members|done]).
    destruct th; cbn [mbind option_bind] in En.
    - destruct (Thread_new _ _ _) as [s2|] eqn:E2; [|done]. injection En as <- <-. apply Thread_new_members in E2. by eapply same_members_ok.
    - destruct (Thread_new _ _ _) as [s2|] eqn:E2; [|done]. injection En as <- <-. apply Thread_new_members in E2.
      eapply same_members_ok; [exact E2|]. apply new_process_members; [done|]. by rewrite (proj2 Ea). }
  cbv zeta in H. destruct (if th : bool then _ else _) as [s3|] eqn:E3; [|done]. cbn [mbind option_bind] in H.
  destruct (list_append _ _) as [l|]; [|done]. cbn [mbind option_bind] in H. injection H as <- <-.
  assert (members_ok s3) as Hok3; [|by eapply same_members_ok; [|exact Hok3]].
  destruct th; [injection E3 as <-; by eapply same_members_ok; [|exact Hok1]|].
  eapply set_parent_members; [exact E3|]. eapply same_members_ok; [|exact Hok1]. by apply (same_members_upd _ _ (upd_thread tid _ s1)).
Qed.

End Ops.
End Members.

Lemma members_ok_mono n m s : members_ok n s -> n <= m -> members_ok m s.
Proof. intros [A B C] H. split; [done|done|]. intros g l Hl. destruct (C g l Hl). split; [done|lia]. Qed.

Definition jobs_ok (j : Jobs) : Prop := 0 < next_object j /\ members_ok (next_object j) (sched j).

Lemma new_group_ok sn p j g j' : ProcessGroup_new sn p j = (g, j') -> jobs_ok j ->
  jobs_ok j' /\ g = next_object j /\ groups (sched j') = <[g := []]> (groups (sched j)) /\
  processes (sched j') = processes (sched j) /\ groups (sched j) !! g = None.
Proof.
  intros H [H0 [A B C]]. injection H as <- <-. cbn [sched set_groups groups processes next_object].
  assert (groups (sched j) !! next_object j = None) as Hn.
  { destruct (groups (sched j) !! next_object j) as [l|] eqn:E; [|done]. destruct (C _ _ E). lia. }
  split; [|done]. split; [cbn; lia|]. split; cbn [set_groups groups next_object sched].
  - intros q h Hq Hh. destruct (A q h Hq Hh) as (l & Hl & Hin). exists l. split; [|done]. rewrite lookup_insert_ne; [done|congruence].
  - intros h l q Hl Hq. destruct (decide (h = next_object j)) as [->|Hne].
    + rewrite lookup_insert_eq in Hl. injection Hl as <-. by apply elem_of_nil in Hq.
    + rewrite lookup_insert_ne in Hl by done. by eapply B.
  - intros h l Hl. destruct (decide (h = next_object j)) as [->|Hne].
    + rewrite lookup_insert_eq in Hl. injection Hl as <-. split; [constructor|lia].
    + rewrite lookup_insert_ne in Hl by done. destruct (C _ _ Hl). split; [done|lia].
Qed.

Lemma set_sched_ok s j : jobs_ok j -> members_ok (next_object j) s -> jobs_ok (set_sched s j).
Proof. by intros [H _] Hm. Qed.

Lemma setpgid_ok self pid pgid j r j' : syscall_setpgid self pid pgid j = Some (r, j') -> jobs_ok j -> jobs_ok j'.
Proof.
  unfold syscall_setpgid. intros H Hok. destruct (setpgid_target self pid j) as [[err|target]|]; [by injection H as <- <-| |done].
  cbn [mbind option_bind] in H. destruct (session_leader target j) as [sl|]; [|done]. cbn [mbind option_bind] in H.
  destruct (sl =? target); [by injection H as <- <-|]. destruct (process_group target j) as [g0|]; [|done]. cbn [mbind option_bind] in H.
  destruct (session j !! g0) as [sn|]; [|done]. cbn [mbind option_bind] in H. destruct (_ && _).
  - destruct (pgid <? 0); [by injection H as <- <-|]. destruct (get_from_tid pgid (sched j)) as [th|]; [|by injection H as <- <-].
    destruct (process_group (process th) j) as [g|]; [|done]. cbn [mbind option_bind] in H.
    destruct (session j !! g) as [sn'|]; [|done]. cbn [mbind option_bind] in H. destruct (negb _); [by injection H as <- <-|].
    destruct (add_process g target (sched j)) as [s|] eqn:E; [|done]. injection H as <- <-.
    apply set_sched_ok; [done|]. by destruct (add_process_ok _ _ _ _ _ E (proj2 Hok)).
  - destruct (leader_process j !! g0) as [l|]; [|done]. cbn [mbind option_bind] in H. destruct (l =? target); [by injection H as <- <-|].
    destruct (ProcessGroup_new sn target j) as [g j1] eqn:En. destruct (new_group_ok _ _ _ _ _ En Hok) as [Hok1 _].
    destruct (add_process g target (sched j1)) as [s|] eqn:E; [|done]. injection H as <- <-.
    apply set_sched_ok; [done|]. by destruct (add_process_ok _ _ _ _ _ E (proj2 Hok1)).
Qed.

Lemma setsid_ok self j r j' : syscall_setsid self j = Some (r, j') -> jobs_ok j -> jobs_ok j'.
Proof.
  unfold syscall_setsid. intros H Hok. destruct (group_leader self j) as [l|]; [|done]. cbn [mbind option_bind] in H.
  destruct (l =? self); [by injection H as <- <-|]. destruct (Session_new j) as [sn j1] eqn:Es.
  assert (jobs_ok j1) as Hok1 by (injection Es as <- <-; destruct Hok; split; cbn; [lia|eapply members_ok_mono; [done|lia]]).
  destruct (ProcessGroup_new sn self j1) as [g j2] eqn:En. destruct (new_group_ok _ _ _ _ _ En Hok1) as [Hok2 _].
  destruct (add_process g self (sched j2)) as [s|] eqn:E; [|done]. cbn [mbind option_bind] in H.
  destruct (process_group _ _) as [g'|]; [|done]. injection H as <- <-.
  split; [apply Hok2|]. by destruct (add_process_ok _ _ _ _ _ E (proj2 Hok2)).
Qed.

Lemma send_to_members_procs g sg l : forall s s', send_to_members g sg l s = Some s' -> same_procs s s'.
Proof.
  induction l as [|p l IH]; intros s s' H; cbn [send_to_members] in H; [by injection H as <-|].
  destruct (processes s !! p) as [pr|]; [|done]. cbn [mbind option_bind] in H. destruct (negb _); [done|].
  destruct (Process_send_signal p sg s) as [s1|] eqn:E; [|done]. cbn [mbind option_bind] in H.
  eapply same_procs_trans; [by eapply process_signal_procs|by apply IH].
Qed.

Lemma kill_ok self pid sg j r j' : syscall_kill self pid sg j = Some (r, j') -> jobs_ok j -> jobs_ok j'.
Proof.
  unfold syscall_kill. intros H Hok. destruct (_ || _); [by injection H as <- <-|].
  destruct (kill_target self pid j) as [[b q]|]; [|done]. cbn [mbind option_bind] in H.
  destruct (get_from_tid q (sched j)) as [th|]; [|by injection H as <- <-]. destruct (bool_decide _); [by injection H as <- <-|].
  set (o := if b : bool then group_leader _ _ else _) in H. destruct o as [l|]; [|done]. cbn [mbind option_bind] in H.
  destruct (_ && _); [by injection H as <- <-|]. destruct (sg =? 0); [by injection H as <- <-|].
  destruct (if b : bool then _ else _) as [s|] eqn:E; [|done]. injection H as <- <-.
  apply set_sched_ok; [done|]. eapply same_members_ok; [|exact (proj2 Hok)]. apply same_procs_members.
  destruct b; [|by eapply send_signal_procs]. destruct (process_group _ _) as [g|]; [|done]. cbn [mbind option_bind] in E.
  unfold ProcessGroup_send_signal in E. destruct (groups _ !! g); [|done]. by eapply send_to_members_procs.
Qed.

Lemma tgkill_ok pid tid sg j r j' : syscall_tgkill pid tid sg j = Some (r, j') -> jobs_ok j -> jobs_ok j'.
Proof.
  unfold syscall_tgkill. intros H Hok. destruct (_ || _); [by injection H as <- <-|].
  destruct (get_from_tid tid (sched j)) as [th|]; [|by injection H as <- <-]. destruct (bool_decide _); [by injection H as <- <-|].
  destruct (negb _); [by injection H as <- <-|]. destruct (sg =? 0); [by injection H as <- <-|].
  destruct (Thread_send_signal tid sg (sched j)) as [s|] eqn:E; [|done]. injection H as <- <-.
  apply set_sched_ok; [done|]. eapply same_members_ok; [|exact (proj2 Hok)]. by eapply same_procs_members, send_signal_procs.
Qed.

(** ** Sequences of calls *)
Inductive JobOp : Type :=
| JSetpgid (self pid pgid : Z)
| JSetsid (self : Z)
| JKill (self pid sg : Z)
| JTgkill (pid tid sg : Z)
| JClone (t flags child_tid : Z)
| JExit (t : Z)
| JExitGroup (t status : Z)
| JReap (p : Z).

Section JobOps.
Context (futex_wake : Z -> Sched -> option Sched).
Hypothesis (futex_wake_members : forall a s s', futex_wake a s = Some s' -> same_members s s').

Definition run_job (o : JobOp) (j : Jobs) : option Jobs :=
  match o with
  | JSetpgid self pid pgid => snd <$> syscall_setpgid self pid pgid j
  | JSetsid self => snd <$> syscall_setsid self j
  | JKill self pid sg => snd <$> syscall_kill self pid sg j
  | JTgkill pid tid sg => snd <$> syscall_tgkill pid tid sg j
  | JClone t fl ct => (fun r => set_sched (snd r) j) <$> clone_impl t fl ct (sched j)
  | JExit t => (fun s => set_sched s j) <$> syscall_exit futex_wake t (sched j)
  | JExitGroup t st => (fun s => set_sched s j) <$> syscall_exit_group futex_wake t st (sched j)
  | JReap p => (fun s => set_sched s j) <$> delete_process futex_wake p (sched j)
  end.

(** Identifiers given out are new, and a process is reaped when its threads
    have ended. *)
Definition job_fits (o : JobOp) (j : Jobs) : Prop :=
  match o with
  | JClone _ _ _ => forall t s1, allocate_tid (sched j) = (t, s1) -> processes (sched j) !! t = None
  | JReap p => forall pr t th, processes (sched j) !! p = Some pr -> t ∈ thread_list pr -> threads (sched j) !! t = Some th ->
      state th = ZOMBIE
  | _ => True
  end.

Fixpoint run_jobs (l : list JobOp) (j : Jobs) : option Jobs :=
  match l with
  | [] => Some j
  | o :: l' => j1 ← run_job o j; run_jobs l' j1
  end.
Fixpoint jobs_fit (l : list JobOp) (j : Jobs) : Prop :=
  match l with
  | [] => True
  | o :: l' => job_fits o j /\ forall j1, run_job o j = Some j1 -> jobs_fit l' j1
  end.

Lemma run_job_ok o j j' : run_job o j = Some j' -> job_fits o j -> jobs_ok j -> jobs_ok j'.
Proof.
  intros H Hfit Hok. destruct o as [self pid pgid|self|self pid sg|pid tid sg|t fl ct|t|t st|p]; cbn [run_job job_fits] in *.
  - destruct (syscall_setpgid _ _ _ _) as [[r j1]|] eqn:E; [|done]. injection H as <-. by eapply setpgid_ok.
  - destruct (syscall_setsid _ _) as [[r j1]|] eqn:E; [|done]. injection H as <-. by eapply setsid_ok.
  - destruct (syscall_kill _ _ _ _) as [[r j1]|] eqn:E; [|done]. injection H as <-. by eapply kill_ok.
  - destruct (syscall_tgkill _ _ _ _) as [[r j1]|] eqn:E; [|done]. injection H as <-. by eapply tgkill_ok.
  - destruct (clone_impl _ _ _ _) as [[r s1]|] eqn:E; [|done]. injection H as <-. apply set_sched_ok; [done|].
    eapply clone_members; [exact E|exact Hfit|apply Hok].
  - destruct (syscall_exit _ _ _) as [s1|] eqn:E; [|done]. injection H as <-. apply set_sched_ok; [done|].
    eapply terminate_thread_members; [exact futex_wake_members|exact E|apply Hok].
  - unfold syscall_exit_group, terminate_process in H. destruct (threads _ !! t) as [th|]; [|done]. cbn [mbind option_bind] in H.
    destruct (processes _ !! process th) as [pr|]; [|done]. cbn [mbind option_bind] in H.
    destruct (terminate_threads _ _ _ _) as [s1|] eqn:E; [|done]. injection H as <-. apply set_sched_ok; [done|].
    eapply terminate_threads_members; [exact futex_wake_members|exact E|]. eapply same_members_ok; [by apply same_members_upd|apply Hok].
  - destruct (delete_process _ _ _) as [s1|] eqn:E; [|done]. injection H as <-. apply set_sched_ok; [done|].
    eapply delete_process_members; [exact E|exact Hfit|apply Hok].
Qed.

End JobOps.

(** C26: Through any sequence of calls that make, move, signal, end and reap
    processes, every process of a group but the first process stays listed
    there exactly once and every listed process belongs to the group, so a
    signal to a group never fails its assertion. *)
Theorem jobs_invariant futex_wake l j j' :
  (forall a s s', futex_wake a s = Some s' -> same_members s s') ->
  run_jobs futex_wake l j = Some j' -> jobs_fit futex_wake l j -> jobs_ok j -> jobs_ok j'.
Proof.
  intros Hf. revert j. induction l as [|o l IH]; intros j H Hfit Hok; cbn [run_jobs jobs_fit] in *; [by injection H as <-|].
  destruct (run_job futex_wake o j) as [j1|] eqn:E; [|done]. cbn [mbind option_bind] in H. destruct Hfit as [F1 F2].
  eapply IH; [exact H|by apply F2|]. by eapply run_job_ok.
Qed.

(** ** What a signal to a group does *)

Definition pending_of (s : Sched) (t : Z) : option Z := pending_signals <$> threads s !! t.
(** The pending signals of every thread and the listeners of every event. *)
Definition same_pending (s s' : Sched) : Prop :=
  (forall t, pending_of s' t = pending_of s t) /\
  (forall e, listener_list (event_of e s') = listener_list (event_of e s)).

Lemma same_pending_trans a b c : same_pending a b -> same_pending b c -> same_pending a c.
Proof. intros [A1 A2] [B1 B2]. split; intros x; congruence. Qed.

Lemma same_pending_upd t f s : (forall th, pending_signals (f th) = pending_signals th) -> same_pending s (upd_thread t f s).
Proof.
  intros Hf. split; [|done]. intros u. unfold pending_of. cbn [upd_thread set_threads threads].
  destruct (decide (t = u)) as [->|]; [rewrite lookup_alter_eq|by rewrite lookup_alter_ne].
  destruct (threads s !! u); [cbn; by rewrite Hf|done].
Qed.

Lemma enqueue_pending t sg s s' : enqueue_thread t sg s = Some s' -> same_pending s s'.
Proof.
  intros H. destruct (enqueue_shape _ _ _ _ H) as [->|(l & st & ->)]; [done|]. by apply (same_pending_upd t _ (set_run_list l s)).
Qed.

Definition listeners_live (s : Sched) : Prop :=
  forall e t w, (t, w) ∈ listener_list (event_of e s) -> is_Some (pending_of s t).

Lemma listeners_live_same s s' : same_pending s s' -> listeners_live s -> listeners_live s'.
Proof. intros [H1 H2] H e t w Ht. rewrite H1. rewrite H2 in Ht. by eapply H. Qed.

Lemma pending_thread s t : is_Some (pending_of s t) <-> is_Some (threads s !! t).
Proof. apply fmap_is_Some. Qed.

Lemma wake_listeners_total l : forall num m s, queue_ok s -> (forall t w, (t, w) ∈ l -> is_Some (pending_of s t)) ->
  exists n s', wake_listeners l num m s = Some (n, s') /\ same_pending s s' /\ queue_ok s'.
Proof.
  induction l as [|[t w] l IH]; intros num m s Hq Hl; [by exists num, s|]. cbn [wake_listeners].
  set (s0 := upd_thread t (with_which w) s).
  assert (woke s s0) as W0 by (apply woke_same; [done|done|by apply states_upd|done|by apply owners_upd]).
  assert (same_pending s s0) as P0 by by apply same_pending_upd.
  destruct (enqueue_woke t (-1) s0) as (s1 & He & Hw & _).
  { apply W0. } { apply pending_thread. rewrite (proj1 P0). eapply Hl. left. } { apply wakes_blocked_minus. }
  rewrite He. cbn [mbind option_bind]. apply enqueue_pending in He. pose proof (same_pending_trans _ _ _ P0 He) as P1.
  destruct (m <=? num + 1); [exists (num + 1), s1; split; [done|]; split; [done|]; apply Hw|].
  destruct (IH (num + 1) m s1) as (n & s' & Hs & P & Q); [apply Hw| |].
  { intros u x Hu. rewrite (proj1 P1). eapply Hl. by right. }
  exists n, s'. split; [done|]. split; [by eapply same_pending_trans|done].
Qed.

Lemma trigger_total e s : queue_ok s -> listeners_live s -> exists s', trigger e s = Some s' /\ same_pending s s' /\ queue_ok s'.
Proof.
  intros Hq Hl. unfold trigger, Event_trigger. destruct (Z.eqb_spec (num_listeners (event_of e s)) 0) as [E|E].
  - eexists. split; [reflexivity|]. split; [|done]. split; [done|]. intros e'. destruct (decide (e = e')) as [<-|Hne].
    + unfold event_of, num_listeners in *. cbn [snd set_events events]. rewrite lookup_insert_eq. cbn [default listener_list].
      destruct (listener_list _); [done|cbn in E; lia].
    + unfold event_of. cbn [snd set_events events]. by rewrite lookup_insert_ne.
  - destruct (wake_listeners_total (listener_list (event_of e s)) 0 INT_MAX s Hq) as (n & s' & -> & P & Q); [intros; by eapply Hl|].
    by exists s'.
Qed.

Lemma send_signal_total t sg s : queue_ok s -> listeners_live s -> is_Some (pending_of s t) -> sg <> SIGCONT ->
  exists s', Thread_send_signal t sg s = Some s' /\ queue_ok s' /\ listeners_live s' /\
    forall u, pending_of s' u = if decide (u = t) then (fun m => Z.lor m (get_signal_bit sg)) <$> pending_of s u else pending_of s u.
Proof.
  intros Hq Hl Ht Hsg. apply pending_thread in Ht as [th Hth]. unfold Thread_send_signal. rewrite Hth. cbn [mbind option_bind].
  set (s0 := upd_thread t _ s).
  assert (woke s s0) as W0 by (apply woke_same; [done|done|by apply states_upd|done|by apply owners_upd]).
  assert (forall u, pending_of s0 u = if decide (u = t) then (fun m => Z.lor m (get_signal_bit sg)) <$> pending_of s u else pending_of s u) as P0.
  { intros u. unfold pending_of, s0. cbn [upd_thread set_threads threads]. destruct (decide (u = t)) as [->|];
      [rewrite lookup_alter_eq|by rewrite lookup_alter_ne]. by rewrite Hth. }
  assert (listeners_live s0) as L0.
  { intros e u w Hu. rewrite P0. specialize (Hl e u w Hu). destruct (decide (u = t)); [by apply fmap_is_Some|done]. }
  destruct (enqueue_woke t sg s0) as (s1 & He & Hw & _).
  { apply W0. } { apply (woke_exists _ _ _ W0). by exists th. } { by left. }
  rewrite He. cbn [mbind option_bind]. apply enqueue_pending in He.
  destruct (trigger_total (signal_event t) s1) as (s2 & Ht2 & P2 & Q2); [apply Hw|by eapply listeners_live_same|].
  exists s2. split; [done|]. split; [done|]. pose proof (same_pending_trans _ _ _ He P2) as P.
  split; [by eapply listeners_live_same|]. intros u. by rewrite (proj1 P), P0.
Qed.

(** The main thread of every process is its first and is there. *)
Definition main_ok (s : Sched) : Prop :=
  forall p pr, processes s !! p = Some pr -> head (thread_list pr) = Some p /\ is_Some (pending_of s p).

Lemma send_to_members_total g sg l : forall s, queue_ok s -> listeners_live s -> main_ok s -> sg <> SIGCONT -> NoDup l ->
  (forall p, p ∈ l -> group_ids s !! p = Some g) ->
  exists s', send_to_members g sg l s = Some s' /\
    forall u, pending_of s' u = if bool_decide (u ∈ l) then (fun m => Z.lor m (get_signal_bit sg)) <$> pending_of s u else pending_of s u.
Proof.
  induction l as [|p l IH]; intros s Hq Hl Hm Hsg Hnd Hg; [exists s; by split|]. cbn [send_to_members].
  apply NoDup_cons in Hnd as [Hp Hnd]. pose proof (Hg p ltac:(left)) as Hgp. unfold group_ids in Hgp. rewrite lookup_fmap in Hgp.
  destruct (processes s !! p) as [pr|] eqn:Epr; [|done]. cbn in Hgp. injection Hgp as Hgp. cbn [mbind option_bind].
  rewrite Hgp, Z.eqb_refl. cbn [negb]. destruct (Hm p pr Epr) as [Hh Hpp].
  destruct (send_signal_total p sg s Hq Hl Hpp Hsg) as (s1 & Hs1 & Q1 & L1 & P1).
  unfold Process_send_signal. rewrite Epr. cbn [mbind option_bind]. rewrite Hh. cbn [mbind option_bind]. rewrite Z.eqb_refl. cbn [negb].
  rewrite Hs1. cbn [mbind option_bind]. apply send_signal_procs in Hs1 as [G1 R1].
  destruct (IH s1) as (s' & Hs' & P'); [done|done| |done|done| |].
  - intros q qr Hq'. rewrite R1 in Hq'. destruct (Hm q qr Hq') as [H1 H2]. split; [done|]. rewrite P1.
    destruct (decide (q = p)); [by apply fmap_is_Some|done].
  - intros q Hq'. unfold group_ids. rewrite R1. apply Hg. by right.
  - exists s'. split; [done|]. intros u. rewrite P', P1. destruct (decide (u = p)) as [->|Hne].
    + rewrite bool_decide_false by done. by rewrite bool_decide_true by (rewrite elem_of_cons; by left).
    + case_bool_decide; [rewrite bool_decide_true by (rewrite elem_of_cons; by right); done|].
      rewrite bool_decide_false; [done|]. rewrite elem_of_cons. by intros [?|?].
Qed.

(** A signal (SIGCONT apart) sent to a group through its living leader becomes
    pending in the main thread of every member of the group and in no other
    thread. *)
Theorem kill_reaches_group self pid sg j q th g l :
  jobs_ok j -> queue_ok (sched j) -> listeners_live (sched j) -> main_ok (sched j) -> 0 < sg < 64 -> sg <> SIGCONT ->
  kill_target self pid j = Some (true, q) -> get_from_tid q (sched j) = Some th -> state th <> ZOMBIE ->
  group_leader (process th) j = Some (process th) -> process_group (process th) j = Some g -> groups (sched j) !! g = Some l ->
  exists j', syscall_kill self pid sg j = Some (0, j') /\
    forall t, pending_of (sched j') t
      = if bool_decide (t ∈ l) then (fun m => Z.lor m (get_signal_bit sg)) <$> pending_of (sched j) t else pending_of (sched j) t.
Proof.
  intros [_ [A B C]] Hq Hl Hm Hs Hc Hk Hth Hz Hlead Hg Hgl. destruct (C g l Hgl) as [Hnd _].
  destruct (send_to_members_total g sg l (sched j)) as (s' & Hs' & P); [done|done|done|done|done|intros p; by apply B|].
  exists (set_sched s' j). split; [|exact P]. unfold syscall_kill.
  destruct (Z.ltb_spec sg 0); [lia|]. destruct (Z.leb_spec 64 sg); [lia|]. cbn [orb]. rewrite Hk. cbn [mbind option_bind].
  rewrite Hth, bool_decide_false by done. rewrite Hlead. cbn [mbind option_bind]. rewrite Z.eqb_refl. cbn [negb andb].
  destruct (Z.eqb_spec sg 0); [lia|]. rewrite Hg. cbn [mbind option_bind]. unfold ProcessGroup_send_signal. rewrite Hgl.
  cbn [mbind option_bind]. rewrite Hs'. done.
Qed.

(** ** A new session *)

Lemma add_process_new g p s : groups s !! g = Some [] -> is_Some (processes s !! p) ->
  exists s', add_process g p s = Some s' /\ groups s' !! g = Some [p].
Proof.
  intros Hg [pr Hp]. unfold add_process. rewrite Hp. cbn [mbind option_bind]. set (gs := if group pr =? 0 then _ else _).
  assert (gs !! g = Some []) as Hgs.
  { subst gs. destruct (group pr =? 0); [done|]. destruct (decide (group pr = g)) as [->|];
      [by rewrite lookup_alter_eq, Hg|by rewrite lookup_alter_ne]. }
  rewrite Hgs. cbn [mbind option_bind]. eexists. split; [done|]. cbn [upd_process set_processes groups set_groups].
  by rewrite lookup_insert_eq.
Qed.

(** Sessions and their leading groups are objects made before. *)
Definition objects_ok (j : Jobs) : Prop :=
  (forall g sn, session j !! g = Some sn -> sn < next_object j) /\
  (forall sn g, leader_group j !! sn = Some g -> g < next_object j).

(** A process that leads no group becomes the leader of a new group alone in a
    new session, and no other process changes group or session. *)
Theorem setsid_new_session self j l :
  jobs_ok j -> objects_ok j -> group_leader self j = Some l -> l <> self ->
  exists j' g, syscall_setsid self j = Some (self, j') /\ jobs_ok j' /\
    process_group self j' = Some g /\ groups (sched j') !! g = Some [self] /\
    group_leader self j' = Some self /\ session_leader self j' = Some self /\
    (forall p, p <> self -> process_group p j' = process_group p j /\
       forall h, process_group p j = Some h -> h <> 0 -> group_leader p j' = group_leader p j /\
         session_leader p j' = session_leader p j).
Proof.
  intros Hok [Hsn Hlg] Hl Hne. assert (is_Some (processes (sched j) !! self)) as Hpr.
  { unfold group_leader, process_group in Hl. by destruct (processes (sched j) !! self). }
  destruct (Session_new j) as [sn j1] eqn:Es.
  assert (jobs_ok j1) as Hok1 by (injection Es as <- <-; destruct Hok; split; cbn; [lia|eapply members_ok_mono; [done|lia]]).
  destruct (ProcessGroup_new sn self j1) as [g j2] eqn:En.
  destruct (new_group_ok _ _ _ _ _ En Hok1) as (Hok2 & Hg & Hgr & Hp & Hno).
  destruct (add_process_new g self (sched j2)) as (s & Ea & Hgs).
  { rewrite Hgr. apply lookup_insert_eq. } { rewrite Hp. by injection Es as <- <-. }
  destruct (add_process_ok _ _ _ _ _ Ea (proj2 Hok2)) as (Hm & Hids & _).
  assert (forall p, process_group p (set_sched s j2) = if decide (p = self) then Some g else process_group p j) as Hpg.
  { intros p. change (process_group p (set_sched s j2)) with (group <$> processes s !! p). rewrite <- lookup_fmap.
    change (group <$> processes s) with (group_ids s). rewrite Hids. destruct (decide (p = self)) as [->|];
      [by rewrite lookup_insert_eq|]. rewrite lookup_insert_ne by done. unfold group_ids. rewrite Hp, lookup_fmap.
    by injection Es as <- <-. }
  eexists _, g. split.
  { unfold syscall_setsid. rewrite Hl. cbn [mbind option_bind]. destruct (Z.eqb_spec l self); [done|]. rewrite Es, En, Ea.
    cbn [mbind option_bind]. rewrite Hpg, decide_True by done. reflexivity. }
  assert (next_object j = sn /\ g = sn + 1 /\ leader_process j2 = <[g := self]> (leader_process j) /\
    session j2 = <[g := sn]> (session j) /\ leader_group j2 = leader_group j) as (En0 & Eg & El2 & Es2 & Elg).
  { injection Es as <- <-. injection En as <- <-. by split_and!. }
  match goal with |- jobs_ok ?J /\ _ => set (j' := J) end.
  assert (forall p, process_group p j' = if decide (p = self) then Some g else process_group p j) as Hpg' by exact Hpg.
  assert (leader_process j' = <[g := self]> (leader_process j)) as L1 by exact El2.
  assert (session j' = <[g := sn]> (session j)) as L2 by exact Es2.
  assert (leader_group j' = <[sn := g]> (leader_group j)) as L3 by (unfold j'; cbn [leader_group]; by rewrite <- Elg).
  split; [split; [apply Hok2|exact Hm]|]. split; [by rewrite Hpg', decide_True|]. split; [exact Hgs|]. clearbody j'.
  unfold group_leader, session_leader. rewrite L1, L2, L3. split.
  { rewrite Hpg', decide_True by done. cbn [mbind option_bind]. apply lookup_insert_eq. }
  split.
  { rewrite Hpg', decide_True by done. cbn [mbind option_bind]. rewrite lookup_insert_eq. cbn [mbind option_bind].
    rewrite lookup_insert_eq. cbn [mbind option_bind]. apply lookup_insert_eq. }
  intros p Hpne. rewrite Hpg', decide_False by done. split; [done|]. intros h Hh H0. rewrite Hh. cbn [mbind option_bind].
  assert (h < next_object j) as Hhb.
  { destruct Hok as [_ [A B C]]. unfold process_group in Hh. rewrite <- lookup_fmap in Hh.
    destruct (A p h Hh H0) as (l0 & Hl0 & _). destruct (C _ _ Hl0); lia. }
  rewrite !(lookup_insert_ne _ g h) by lia. split; [done|].
  destruct (session j !! h) as [sn0|] eqn:E1; [|done]. cbn [mbind option_bind]. specialize (Hsn _ _ E1).
  rewrite lookup_insert_ne by lia. destruct (leader_group j !! sn0) as [lg|] eqn:E2; [|done]. cbn [mbind option_bind].
  specialize (Hlg _ _ E2). by rewrite lookup_insert_ne by lia.
Qed.

(** ** Concrete jobs

    Process 1 leads the first group and session; 5 and 6 are its children in
    that group. *)
Definition demo_proc (ts children : list Z) (par g : Z) : SProcess := mkSProcess ts (Z.of_nat (length ts)) par children 0 0 false 0 g 18.
Definition demo_jobs : Jobs :=
  mkJobs
    (mkSched
       (<[1 := demo_thread 1 RUNNING []]> (<[5 := demo_thread 5 BLOCKED []]> (<[6 := demo_thread 6 READY []]> ∅)))
       (<[1 := demo_proc [1] [5; 6] 1 1]> (<[5 := demo_proc [5] [] 1 1]> (<[6 := demo_proc [6] [] 1 1]> ∅)))
       (<[1 := [1; 5; 6]]> ∅) ∅ [1; 6] 1 [false; true; false; false; false; true; true] 7)
    (<[1 := 1]> ∅) (<[1 := 2]> ∅) (<[2 := 1]> ∅) [] 3.

Lemma members_check n s :
  forallb (fun '(p, g) => (g =? 0) || match groups s !! g with Some l => bool_decide (p ∈ l) | None => false end)
    (map_to_list (group_ids s)) = true ->
  forallb (fun '(g, l) => forallb (fun p => bool_decide (group_ids s !! p = Some g)) l && bool_decide (NoDup l) && (0 <? g) && (g <? n))
    (map_to_list (groups s)) = true ->
  members_ok n s.
Proof.
  rewrite !forallb_forall. intros H1 H2. split.
  - intros p g Hp Hg. specialize (H1 (p, g)). rewrite <- list_elem_of_In, elem_of_map_to_list in H1. specialize (H1 Hp). cbn in H1.
    destruct (Z.eqb_spec g 0); [done|]. cbn in H1. destruct (groups s !! g) as [l|]; [|done]. exists l. split; [done|].
    intros _. by apply bool_decide_eq_true in H1.
  - intros g l p Hl Hp. specialize (H2 (g, l)). rewrite <- list_elem_of_In, elem_of_map_to_list in H2. specialize (H2 Hl).
    rewrite !andb_true_iff, forallb_forall in H2. destruct H2 as [[[H2 _] _] _]. specialize (H2 p).
    rewrite <- list_elem_of_In, bool_decide_eq_true in H2. by apply H2.
  - intros g l Hl. specialize (H2 (g, l)). rewrite <- list_elem_of_In, elem_of_map_to_list in H2. specialize (H2 Hl).
    rewrite !andb_true_iff, bool_decide_eq_true, Z.ltb_lt, Z.ltb_lt in H2. naive_solver.
Qed.

Lemma demo_jobs_ok : jobs_ok demo_jobs.
Proof. split; [cbn; lia|]. apply members_check; by vm_compute. Qed.

Lemma demo_objects_ok : objects_ok demo_jobs.
Proof.
  split; intros a b H; cbn [session leader_group demo_jobs] in H; apply lookup_insert_Some in H as [[<- <-]|[_ H]]; try (by rewrite lookup_empty in H); cbn; lia.
Qed.

Lemma setsid_new_session_witness :
  exists j' g, syscall_setsid 5 demo_jobs = Some (5, j') /\ groups (sched j') !! g = Some [5] /\ session_leader 5 j' = Some 5.
Proof.
  destruct (setsid_new_session 5 demo_jobs 1 demo_jobs_ok demo_objects_ok ltac:(by vm_compute) ltac:(lia))
    as (j' & g & H1 & _ & _ & H2 & _ & H3 & _).
  exists j', g. split; [exact H1|]. split; [exact H2|exact H3].
Defined.

Lemma demo_listeners_live : listeners_live (sched demo_jobs).
Proof. intros e t w H. by apply elem_of_nil in H. Qed.

Lemma demo_main : main_ok (sched demo_jobs).
Proof.
  intros p pr H. cbn [sched processes demo_jobs] in H.
  repeat (apply lookup_insert_Some in H as [[<- <-]|[_ H]]; [split; [done|vm_compute; by eexists]|]). by rewrite lookup_empty in H.
Qed.

Lemma demo_jobs_queue : queue_ok (sched demo_jobs).
Proof. apply rq_check_ok. by vm_compute. Qed.

(** [kill(-1, SIGINT)] reaches the group of process 1. *)
Lemma kill_reaches_group_witness :
  exists j', syscall_kill 5 (-1) 2 demo_jobs = Some (0, j') /\ pending_of (sched j') 6 = Some 2 /\ pending_of (sched j') 1 = Some 2.
Proof.
  destruct (kill_reaches_group 5 (-1) 2 demo_jobs 1 (demo_thread 1 RUNNING []) 1 [1; 5; 6]) as (j' & H1 & H2).
  - exact demo_jobs_ok.
  - exact demo_jobs_queue.
  - exact demo_listeners_live.
  - exact demo_main.
  - lia.
  - discriminate.
  - reflexivity.
  - reflexivity.
  - discriminate.
  - reflexivity.
  - reflexivity.
  - reflexivity.
  - exists j'. split; [exact H1|]. split; rewrite H2; reflexivity.
Defined.

Definition demo_job_ops : list JobOp := [JSetpgid 1 5 0; JSetpgid 1 6 5; JKill 1 (-5) 15; JSetsid 6; JClone 5 0 0; JExit 6].

Lemma no_futex_members a s s' : no_futex a s = Some s' -> same_members s s'.
Proof. by injection 1 as <-. Qed.

Lemma jobs_invariant_witness :
  exists j', run_jobs no_futex demo_job_ops demo_jobs = Some j' /\ jobs_ok j'.
Proof.
  pose proof (fun j' => jobs_invariant no_futex demo_job_ops demo_jobs j' no_futex_members) as T.
  destruct (run_jobs no_futex demo_job_ops demo_jobs) as [j'|] eqn:E; [|vm_compute in E; discriminate].
  exists j'. split; [reflexivity|]. apply T; [reflexivity| |exact demo_jobs_ok].
  clear. cbn [jobs_fit demo_job_ops job_fits]. repeat (split; [exact I|]; let j := fresh in let E := fresh in intros j E;
    vm_compute in E; injection E as <-).
  split; [|].
  2:{ intros j' E'. split; [exact I|done]. }
  intros t s1 E'. vm_compute in E'. injection E' as <- _. reflexivity.
Defined.
