(* ===== verification/Sockets.v ===== *)
(** Local stream and sequenced-packet sockets
    (src/kernel/src/userland/socket/local/stream.cpp), over the name space.

    A socket is named by the address of its vnode, which is also the name of
    its link: [pending_list] is both the head of the list of a listener's
    waiting clients and the node by which a client waits. *)
From S2P Require Import Prelude KList RingBuffer FdTable VNode Pipe NameSpace.

Definition AF_LOCAL : Z := 1.
Definition AF_INET : Z := 2.
Definition SOCK_STREAM : Z := 1.
Definition SOCK_DGRAM : Z := 2.
Definition SOCK_SEQPACKET : Z := 5.
Definition SOCK_NONBLOCK : Z := 2048.
Definition SOCK_CLOEXEC : Z := 524288.
Definition MSG_CTRUNC : Z := 8.
Definition MSG_TRUNC : Z := 32.
Definition MSG_DONTWAIT : Z := 64.
Definition SOL_SOCKET : Z := 1.
Definition SCM_CREDENTIALS : Z := 2.
Definition SO_TYPE : Z := 3.
Definition SO_SNDBUF : Z := 7.
Definition SO_RCVBUF : Z := 8.
Definition SO_KEEPALIVE : Z := 9.
Definition SO_PASSCRED : Z := 16.
Definition SO_PEERCRED : Z := 17.
Definition SO_PEERSEC : Z := 31.
Definition SO_DOMAIN : Z := 39.
Definition ENOTSOCK : Z := 88.

(** ** Addresses *)

(** [sun_path]: the bytes before the terminating zero, the rest of the 108
    being zeros; a user's address may hold a longer string. *)
Record sockaddr_un : Type := mkUn { sun_family : Z; sun_path : list Z }.

Definition sizeof_sockaddr_un : Z := 110.
Definition get_local_addr_length (a : sockaddr_un) : Z :=
  Z.min (2 + Z.of_nat (length (sun_path a))) sizeof_sockaddr_un.

(** [memset] and [memcpy] of an address into a socket. *)
Definition copy_address (a : sockaddr_un) : sockaddr_un :=
  mkUn (sun_family a) (take (Z.to_nat (get_local_addr_length a - 2)) (sun_path a)).

(** The first [n] bytes of an address of that length. *)
Definition address_bytes (a : sockaddr_un) (n : Z) : list Z :=
  take (Z.to_nat (Z.min (get_local_addr_length a) n)) (le_split 2 (sun_family a) ++ sun_path a).

Record ucred : Type := mkUcred { uc_pid : Z; uc_uid : Z; uc_gid : Z }.

(** ** LocalStreamSocket *)
Module Stream.

Definition RING_SIZE : Z := 212992.
Definition ANCILLARY_SIZE : Z := 8.

(** [credentials] is [None] until it is first assigned: the constructor leaves
    it as the allocator returned it.  A copied control message is held in the
    ancillary ring as its bytes. *)
Record LocalStreamSocket : Type := mkStream {
  ring_buffer : option (RingBuffer Z);
  ancillary_ring_buffer : RingBuffer (list Z);
  peer : Z;
  address : sockaddr_un;
  num_pending : Z;
  max_pending : Z;
  credentials : option ucred;
  passcred : bool;
  is_seqpacket : bool
}.

Definition new_ring : RingBuffer Z := RingBuffer_init (replicate (Z.to_nat RING_SIZE) 0).
Definition LocalStreamSocket_new (seqpacket : bool) : LocalStreamSocket :=
  mkStream None (RingBuffer_init (replicate (Z.to_nat ANCILLARY_SIZE) [])) 0 (mkUn AF_LOCAL [])
    0 0 None false seqpacket.

Definition with_ring (r : option (RingBuffer Z)) (s : LocalStreamSocket) : LocalStreamSocket :=
  mkStream r (ancillary_ring_buffer s) (peer s) (address s) (num_pending s) (max_pending s)
    (credentials s) (passcred s) (is_seqpacket s).
Definition with_ancillary (r : RingBuffer (list Z)) (s : LocalStreamSocket) : LocalStreamSocket :=
  mkStream (ring_buffer s) r (peer s) (address s) (num_pending s) (max_pending s)
    (credentials s) (passcred s) (is_seqpacket s).
Definition with_peer (p : Z) (s : LocalStreamSocket) : LocalStreamSocket :=
  mkStream (ring_buffer s) (ancillary_ring_buffer s) p (address s) (num_pending s) (max_pending s)
    (credentials s) (passcred s) (is_seqpacket s).
Definition with_address (a : sockaddr_un) (s : LocalStreamSocket) : LocalStreamSocket :=
  mkStream (ring_buffer s) (ancillary_ring_buffer s) (peer s) a (num_pending s) (max_pending s)
    (credentials s) (passcred s) (is_seqpacket s).
Definition with_max_pending (n : Z) (s : LocalStreamSocket) : LocalStreamSocket :=
  mkStream (ring_buffer s) (ancillary_ring_buffer s) (peer s) (address s) (num_pending s) n
    (credentials s) (passcred s) (is_seqpacket s).
Definition with_credentials (c : ucred) (s : LocalStreamSocket) : LocalStreamSocket :=
  mkStream (ring_buffer s) (ancillary_ring_buffer s) (peer s) (address s) (num_pending s) (max_pending s)
    (Some c) (passcred s) (is_seqpacket s).
Definition with_passcred (b : bool) (s : LocalStreamSocket) : LocalStreamSocket :=
  mkStream (ring_buffer s) (ancillary_ring_buffer s) (peer s) (address s) (num_pending s) (max_pending s)
    (credentials s) b (is_seqpacket s).

(** *** Rings and vectors of buffers *)

(** The loop of [recvmsg] over the vector, whose buffers are given by their
    lengths: the bytes transferred and what each buffer visited gets. *)
Fixpoint recv_iovs (seq : bool) (packet_length transferred : Z) (iovs : list Z) (rb : RingBuffer Z)
    : Z * list (list Z) * RingBuffer Z :=
  match iovs with
  | [] => (transferred, [], rb)
  | len :: rest =>
      if len =? 0 then
        let '(t, out, rb') := recv_iovs seq packet_length transferred rest rb in (t, [] :: out, rb')
      else
        let amount := if seq then Z.min len (u64 (packet_length - transferred)) else len in
        if seq && (amount =? 0) then (transferred, [], rb)
        else
          let '(n, bs, rb1) := RingBuffer_read RING_SIZE rb amount in
          if is_empty rb1 then (transferred + n, [bs], rb1)
          else
            let '(t, out, rb') := recv_iovs seq packet_length (transferred + n) rest rb1 in
            (t, bs :: out, rb')
  end.

Fixpoint send_iovs (transferred : Z) (iovs : list (list Z)) (rb : RingBuffer Z) : Z * RingBuffer Z :=
  match iovs with
  | [] => (transferred, rb)
  | buf :: rest =>
      if bool_decide (buf = []) then send_iovs transferred rest rb
      else
        let (n, rb1) := RingBuffer_write RING_SIZE rb buf (Z.of_nat (length buf)) in
        if is_full RING_SIZE rb1 then (transferred + n, rb1) else send_iovs (transferred + n) rest rb1
  end.

(** The transfer of [recvmsg] out of a ring that is not empty: the bytes
    transferred, the buffers, [MSG_TRUNC] or nothing, and the ring; [None] is
    a failed assertion. *)
Definition recv_transfer (seq : bool) (iovs : list Z) (rb : RingBuffer Z)
    : option (Z * list (list Z) * Z * RingBuffer Z) :=
  if seq then
    let '(ret, hd, rb1) := RingBuffer_read RING_SIZE rb 4 in
    if negb (ret =? 4) then None
    else
      let packet_length := le_combine hd in
      let '(t, out, rb2) := recv_iovs true packet_length 0 iovs rb1 in
      if packet_length <? t then None
      else if t <? packet_length then
        Some (t, out, MSG_TRUNC, snd (RingBuffer_truncate rb2 (packet_length - t)))
      else Some (t, out, 0, rb2)
  else
    let '(t, out, rb1) := recv_iovs false 0 0 iovs rb in Some (t, out, 0, rb1).

Definition packet_length_of (iovs : list (list Z)) : Z :=
  fold_left (fun acc buf => u32 (acc + Z.of_nat (length buf))) iovs 0.

(** The transfer of [sendmsg] into a ring that is not full. *)
Definition send_transfer (seq : bool) (iovs : list (list Z)) (rb : RingBuffer Z)
    : option (Z * RingBuffer Z) :=
  if seq then
    let (ret, rb1) := RingBuffer_write RING_SIZE rb (le_split 4 (packet_length_of iovs)) 4 in
    if negb (ret =? 4) then None else Some (send_iovs 0 iovs rb1)
  else Some (send_iovs 0 iovs rb).

End Stream.
Import Stream.

(** ** LocalDatagramSocket *)
Module Dgram.

Definition RING_SIZE : Z := 256.

Record Datagram : Type := mkDatagram { from : Z; length : Z; bytes : list Z }.

(** The ring holds pointers to datagrams, each from one write to one read: the
    datagram stands for the pointer. *)
Record LocalDatagramSocket : Type := mkDgram {
  ring_buffer : RingBuffer Datagram;
  connected : Z;
  address : sockaddr_un
}.

Definition LocalDatagramSocket_new : LocalDatagramSocket :=
  mkDgram (RingBuffer_init (replicate (Z.to_nat RING_SIZE) (mkDatagram 0 0 []))) 0 (mkUn AF_LOCAL []).

(** [Datagram::construct] and the copy into it: the length is a 32-bit
    integer, the copy is not; a copy past the allocation is [None]. *)
Definition construct (sender : Z) (iovs : list (list Z)) : option Datagram :=
  let count := Z.of_nat (List.length (concat iovs)) in
  if u32 count <? count then None else Some (mkDatagram sender (u32 count) (concat iovs)).

(** The loop of [recvmsg]: what is transferred and what each buffer visited gets. *)
Fixpoint recv_iovs (d : Datagram) (transferred : Z) (iovs : list Z) : Z * list (list Z) :=
  match iovs with
  | [] => (transferred, [])
  | len :: rest =>
      if len =? 0 then let (t, out) := recv_iovs d transferred rest in (t, [] :: out)
      else
        let count := Z.min (u64 (length d - transferred)) len in
        let chunk := sub (bytes d) transferred count in
        if count <? len then (transferred + count, [chunk])
        else let (t, out) := recv_iovs d (transferred + count) rest in (t, chunk :: out)
  end.

End Dgram.

(** ** The state of the sockets

    [links] holds the pending links of the stream sockets; [triggered] logs
    the sockets whose event was triggered, with the [drop] argument. *)
Record SockSys : Type := mkSockSys {
  ns : Ns;
  streams : gmap Z LocalStreamSocket;
  dgrams : gmap Z Dgram.LocalDatagramSocket;
  links : gmap Z (Z * Z);
  triggered : list (Z * bool)
}.

Definition set_ns (n : Ns) (s : SockSys) : SockSys := mkSockSys n (streams s) (dgrams s) (links s) (triggered s).
Definition set_streams (m : gmap Z LocalStreamSocket) (s : SockSys) : SockSys :=
  mkSockSys (ns s) m (dgrams s) (links s) (triggered s).
Definition set_dgrams (m : gmap Z Dgram.LocalDatagramSocket) (s : SockSys) : SockSys :=
  mkSockSys (ns s) (streams s) m (links s) (triggered s).
Definition set_links (h : gmap Z (Z * Z)) (s : SockSys) : SockSys :=
  mkSockSys (ns s) (streams s) (dgrams s) h (triggered s).
Definition upd_stream (v : Z) (f : LocalStreamSocket -> LocalStreamSocket) (s : SockSys) : SockSys :=
  set_streams (alter f v (streams s)) s.
Definition upd_dgram (v : Z) (f : Dgram.LocalDatagramSocket -> Dgram.LocalDatagramSocket) (s : SockSys) : SockSys :=
  set_dgrams (alter f v (dgrams s)) s.
Definition trigger_socket (v : Z) (drop : bool) (s : SockSys) : SockSys :=
  mkSockSys (ns s) (streams s) (dgrams s) (links s) (triggered s ++ [(v, drop)]).

(** The constructors: a vnode of type SOCKET, with the socket behind it. *)
Definition socket_vnode : VNode := mkVNode SOCKET 0 0 None 0 no_id no_id 0 0.
Definition new_vnode (s : SockSys) : Z * SockSys :=
  let v := next_addr (ns s) in
  (v, set_ns (set_next (v + 16) (set_vnodes (<[v := socket_vnode]> (vnodes (ns s))) (ns s))) s).
Definition new_stream (seqpacket : bool) (s : SockSys) : Z * SockSys :=
  let (v, s1) := new_vnode s in
  (v, set_links (<[v := (v, v)]> (links s1))
        (set_streams (<[v := LocalStreamSocket_new seqpacket]> (streams s1)) s1)).
Definition new_dgram (s : SockSys) : Z * SockSys :=
  let (v, s1) := new_vnode s in (v, set_dgrams (<[v := Dgram.LocalDatagramSocket_new]> (dgrams s1)) s1).

(** [Socket::create_socket_fd] *)
Definition create_socket_fd (v fl : Z) (s : SockSys) : Z * SockSys :=
  let p := next_addr (ns s) in
  let '(fd, f) := install_fd p v (Z.lor O_RDONLY (if has fl SOCK_NONBLOCK then O_NONBLOCK else 0))
                    (has fl SOCK_CLOEXEC) (ns_fds (ns s)) in
  (fd, set_ns (set_next (p + 16) (set_ns_fds f (desc_entry (ns s)) (ns s))) s).

(** One [socket_event.wait()]: whether it was interrupted. *)
Definition wait_once : proc SockSys bool := fun s ws =>
  match ws with
  | [] => Asleep
  | Interrupted s' :: ws' => Done true s' ws'
  | Woken s' :: ws' => Done false s' ws'
  end.
Definition lift {A} (o : option A) : proc SockSys A := fun s ws =>
  match o with Some a => Done a s ws | None => Crashed end.
Definition act {A} (f : SockSys -> option (A * SockSys)) : proc SockSys A := fun s ws =>
  match f s with Some (a, s') => Done a s' ws | None => Crashed end.

Section StreamOps.
(** The fuel of path resolution, and the calling process. *)
Context (fuel : nat) (pid : Z).

Definition my_credentials (s : SockSys) : ucred := mkUcred pid (euid (ns s)) (egid (ns s)).
Definition nonblocking (fl flags : Z) : bool := has fl O_NONBLOCK || has flags MSG_DONTWAIT.

Definition stream_close (v : Z) (s : SockSys) : option SockSys :=
  st ← streams s !! v;
  let s1 := if peer st =? 0 then s else upd_stream (peer st) (with_peer 0) s in
  Some (upd_stream v (with_ring None) s1).

Definition stream_poll (v events : Z) (s : SockSys) : option Z :=
  st ← streams s !! v;
  no_pending ← KList.is_empty v (links s);
  let readable := match ring_buffer st with Some rb => negb (is_empty rb) | None => false end in
  let writable :=
    if peer st =? 0 then false
    else match streams s !! peer st ≫= ring_buffer with
         | Some rb => negb (is_full RING_SIZE rb)
         | None => false
         end in
  Some (Z.lor (if has events POLLIN && (readable || ((0 <? max_pending st) && negb no_pending)) then POLLIN else 0)
              (if has events POLLOUT && writable then POLLOUT else 0)).

(** The result and the [int] stored at [arg]. *)
Definition stream_ioctl (v cmd : Z) (s : SockSys) : option (Z * option Z) :=
  st ← streams s !! v;
  Some (if cmd =? FIONREAD then
          match ring_buffer st with
          | None => (- EINVAL, None)
          | Some rb => (0, Some (i32 (data_count rb)))
          end
        else (VNode_ioctl cmd, None)).

(** The entry made for a bound socket, the same for both kinds. *)
Definition bind_entry (v : Z) (addr : sockaddr_un) (s : SockSys) : option (Z * SockSys) :=
  '(e, n1) ← path_to_entry fuel (sun_path addr) (cwd (ns s)) true (ns s);
  d ← entries n1 !! e;
  let s1 := set_ns n1 s in
  if negb (e_vnode d =? 0) then Some (- EADDRINUSE, s1)
  else if parent d =? 0 then Some (- ENOENT, s1)
  else
    n2 ← Entry_create e SOCKET (euid n1) (egid n1) (Z.ldiff 511 (umask n1)) (upd_entry e (with_vnode v) n1);
    Some (0, set_ns n2 s).

Definition stream_bind (v : Z) (addr : sockaddr_un) (s : SockSys) : option (Z * SockSys) :=
  '(r, s1) ← bind_entry v addr s;
  Some (r, if r =? 0 then upd_stream v (with_address (copy_address addr)) s1 else s1).

(** The socket an address names: an error, or its vnode. *)
Definition target_of (addr : sockaddr_un) (s : SockSys) : option ((Z + Z) * SockSys) :=
  '(e, n1) ← path_to_entry fuel (sun_path addr) (cwd (ns s)) true (ns s);
  d ← entries n1 !! e;
  let s1 := set_ns n1 s in
  if e_vnode d =? 0 then Some (inl (- ENOENT), s1)
  else
    vn ← vnodes n1 !! e_vnode d;
    if negb (bool_decide (node_type vn = SOCKET)) then Some (inl (- ECONNREFUSED), s1)
    else Some (inr (e_vnode d), s1).

(** A client joins the list of a listener; a target that is no stream socket
    is taken for one, which is [None]. *)
Definition enqueue (v target : Z) (s : SockSys) : option (Z * SockSys) :=
  t ← streams s !! target;
  if max_pending t <=? num_pending t then Some (- ECONNREFUSED, s)
  else
    h ← KList.add_before target v (links s);
    Some (0, trigger_socket target false (set_links h s)).

(** [LocalStreamSocket::connect] up to the wait. *)
Definition connect_begin (v : Z) (addr : sockaddr_un) (s : SockSys) : option (Z * SockSys) :=
  if negb (sun_family addr =? AF_LOCAL) then Some (- EAFNOSUPPORT, s)
  else
    '(r, s1) ← target_of addr s;
    match r with
    | inl err => Some (err, s1)
    | inr target => enqueue v target s1
    end.

Definition stream_connect (v : Z) (addr : sockaddr_un) : proc SockSys Z :=
  r ← act (connect_begin v addr);
  if r <? 0 then mret r
  else
    interrupted ← wait_once;
    if (interrupted : bool) then mret (- EINTR)
    else act (fun s => Some (0, upd_stream v (with_credentials (my_credentials s)) s)).

Definition stream_listen (v backlog : Z) (s : SockSys) : option (Z * SockSys) :=
  Some (0, upd_stream v (fun st => with_credentials (my_credentials s) (with_max_pending (u64 backlog) st)) s).

(** [accept] from the first waiting client on: the descriptor, and the length
    and bytes of the client's address. *)
Definition accept_first (v fl : Z) (s : SockSys) : option (Z * (Z * list Z) * SockSys) :=
  this ← streams s !! v;
  client ← KList.next_of (links s) v;
  h ← KList.remove client (links s);
  st ← streams s !! client;
  let len := get_local_addr_length (address st) in
  let (c, s1) := new_stream (is_seqpacket this) (set_links h s) in
  let s2 := upd_stream c (fun d => with_address (copy_address (address this))
                                     (with_ring (Some new_ring) (with_peer client d))) s1 in
  let s3 := upd_stream client (fun d =>
              with_ring (Some (match ring_buffer d with Some rb => rb | None => new_ring end))
                (with_peer c d)) s2 in
  let (fd, s4) := create_socket_fd c fl (trigger_socket client false s3) in
  Some (fd, (len, address_bytes (address st) len), s4).

Definition accept_attempt (v : Z) (nonblock : bool) (fl : Z) (s : SockSys)
    : attempt SockSys (Z * option (Z * list Z)) :=
  match KList.is_empty v (links s) with
  | None => Crash
  | Some true => if nonblock then Return (- EWOULDBLOCK, None) s else Block s
  | Some false =>
      match accept_first v fl s with
      | None => Crash
      | Some (fd, addr, s') => Return (fd, Some addr) s'
      end
  end.

Definition stream_accept (v : Z) (nonblock : bool) (fl : Z) : proc SockSys (Z * option (Z * list Z)) :=
  blocking (accept_attempt v nonblock fl) (- EINTR, None).

(** *** recvmsg *)

(** [CMSG_ALIGN] *)
Definition CMSG_ALIGN (len : Z) : Z := Z.ldiff (u64 (len + 7)) 7.
Definition sizeof_cmsghdr : Z := 16.
Definition cmsg_len (c : list Z) : Z := le_combine (take 8 c).

(** The loop over the ancillary ring, at most as many turns as it has
    elements: the size of what is stored, the stores with their offsets, and
    whether a message did not fit.  A copy of no bytes has no length to read. *)
Fixpoint recv_control (turns : nat) (room transferred : Z) (out : list (Z * list Z)) (trunc : bool)
    (rb : RingBuffer (list Z)) : option (Z * list (Z * list Z) * bool * RingBuffer (list Z)) :=
  match turns with
  | O => Some (transferred, out, trunc, rb)
  | S turns =>
      match RingBuffer_read ANCILLARY_SIZE rb 1 with
      | (_, [] :: _, _) => None
      | (_, c :: _, rb1) =>
          if transferred + CMSG_ALIGN (cmsg_len c) <=? room
          then recv_control turns room (transferred + CMSG_ALIGN (cmsg_len c)) (out ++ [(transferred, c)]) trunc rb1
          else recv_control turns room transferred out true rb1
      | (_, [], rb1) => Some (transferred, out, trunc, rb1)
      end
  end.

(** What [recvmsg] returns: the result, the buffers, [msg_flags], and the new
    [msg_controllen] with the stores to [msg_control] if it was not zero. *)
Record RecvResult : Type := mkRecv {
  rr_ret : Z;
  rr_buffers : list (list Z);
  rr_flags : Z;
  rr_control : option (Z * list (Z * list Z))
}.

(** The part before the waiting loop: the flags and control bytes so far. *)
Definition recv_begin (v controllen : Z) (s : SockSys)
    : option (Z * option (Z * list (Z * list Z)) * SockSys) :=
  st ← streams s !! v;
  if 0 <? controllen then
    '(len, out, trunc, rb) ←
      recv_control (S (Z.to_nat (data_count (ancillary_ring_buffer st)))) controllen 0 [] false
        (ancillary_ring_buffer st);
    Some (if (trunc : bool) then MSG_CTRUNC else 0, Some (len, out), upd_stream v (with_ancillary rb) s)
  else Some (0, None, s).

(** From the waiting loop on. *)
Definition recv_attempt (v : Z) (nonblock : bool) (iovs : list Z) (flags0 : Z)
    (control : option (Z * list (Z * list Z)))
    (s : SockSys) : attempt SockSys RecvResult :=
  match streams s !! v with
  | None => Crash
  | Some st =>
      match ring_buffer st with
      | None => Crash
      | Some rb =>
          if is_empty rb then
            if nonblock then Return (mkRecv (- EWOULDBLOCK) [] flags0 control) s else Block s
          else
            match recv_transfer (is_seqpacket st) iovs rb with
            | None => Crash
            | Some (t, out, fl, rb') =>
                if peer st =? 0 then Crash
                else Return (mkRecv t out (Z.lor flags0 fl) control)
                       (trigger_socket (peer st) true (upd_stream v (with_ring (Some rb')) s))
            end
      end
  end.

Definition connected (v : Z) (s : SockSys) : bool :=
  match streams s !! v with
  | Some st => negb (peer st =? 0) && bool_decide (is_Some (ring_buffer st))
  | None => false
  end.

Definition stream_recvmsg (v : Z) (nonblock : bool) (iovs : list Z) (controllen : Z) : proc SockSys RecvResult :=
  b ← act (fun s => '(fl, control, s1) ← recv_begin v controllen s; Some ((fl, control), s1));
  s ← get_state;
  if connected v s
  then blocking (recv_attempt v nonblock iovs b.1 b.2) (mkRecv (- EINTR) [] b.1 b.2)
  else mret (mkRecv (- ENOTCONN) [] b.1 b.2).

(** *** sendmsg *)

(** The credentials messages of the control buffer, copied to the peer.
    [CMSG_NXTHDR] compares signed differences; a header outside the buffer, or
    a message longer than it, is memory the kernel reads without asking. *)
Fixpoint send_control (turns : nat) (control : list Z) (off : Z) (v : Z) (s : SockSys) : option SockSys :=
  match turns with
  | O => None
  | S turns =>
      let total := Z.of_nat (length control) in
      if total <? off + sizeof_cmsghdr then None
      else
        let len := le_combine (sub control off 8) in
        let level := i32 (le_combine (sub control (off + 8) 4)) in
        let type := i32 (le_combine (sub control (off + 12) 4)) in
        s1 ← (if (level =? SOL_SOCKET) && (type =? SCM_CREDENTIALS) then
                if total <? off + len then None
                else
                  st ← streams s !! v;
                  p ← streams s !! peer st;
                  Some (upd_stream (peer st)
                          (with_ancillary
                             (snd (RingBuffer_write ANCILLARY_SIZE (ancillary_ring_buffer p) [sub control off len] 1))) s)
              else Some s);
        if (len <? sizeof_cmsghdr) || (total - off <=? i64 (sizeof_cmsghdr + CMSG_ALIGN len))
        then Some s1
        else send_control turns control (u64 (off + CMSG_ALIGN len)) v s1
  end.

Definition send_begin (v namelen : Z) (control : list Z) (s : SockSys) : option (Z * SockSys) :=
  if negb (namelen =? 0) then Some (- EISCONN, s)
  else
    s1 ← (if Z.of_nat (length control) <? sizeof_cmsghdr then Some s
          else send_control (length control) control 0 v s);
    st ← streams s1 !! v;
    if (peer st =? 0) || bool_decide (streams s1 !! peer st ≫= ring_buffer = None)
    then Some (- ENOTCONN, s1) else Some (0, s1).

Definition send_attempt (v : Z) (nonblock : bool) (iovs : list (list Z)) (s : SockSys) : attempt SockSys Z :=
  match streams s !! v with
  | None => Crash
  | Some st =>
      match (if peer st =? 0 then None else streams s !! peer st ≫= ring_buffer) with
      | None => Crash
      | Some rb =>
          if is_full RING_SIZE rb then (if nonblock then Return (- EWOULDBLOCK) s else Block s)
          else
            match send_transfer (is_seqpacket st) iovs rb with
            | None => Crash
            | Some (t, rb') =>
                Return t (trigger_socket (peer st) true (upd_stream (peer st) (with_ring (Some rb')) s))
            end
      end
  end.

Definition stream_sendmsg (v : Z) (nonblock : bool) (namelen : Z) (control : list Z) (iovs : list (list Z))
    : proc SockSys Z :=
  r ← act (send_begin v namelen control);
  if r <? 0 then mret r else blocking (send_attempt v nonblock iovs) (- EINTR).

(** *** Options and names *)

(** The result, and the bytes stored at [buffer] ([None] in them is what the
    constructor left unset). *)
Definition stream_getsockopt (v layer number : Z) (s : SockSys) : option (Z * option (list Z + option ucred)) :=
  st ← streams s !! v;
  if negb (layer =? SOL_SOCKET) then Some (- ENOPROTOOPT, None)
  else if number =? SO_PASSCRED then Some (0, Some (inl (le_split 4 (b2z (passcred st)))))
  else if number =? SO_PEERCRED then
    (p ← streams s !! peer st; Some (0, Some (inr (credentials p))))
  else if (number =? SO_SNDBUF) || (number =? SO_RCVBUF) then
    Some (0, Some (inl (le_split 4 RING_SIZE)))
  else if number =? SO_KEEPALIVE then Some (0, Some (inl (le_split 4 0)))
  else Some (- ENOPROTOOPT, None).

(** [value] is the [int] at [buffer]. *)
Definition stream_setsockopt (v layer number value : Z) (s : SockSys) : Z * SockSys :=
  if (layer =? SOL_SOCKET) && (number =? SO_PASSCRED)
  then (0, upd_stream v (with_passcred (negb (value =? 0))) s)
  else if (layer =? SOL_SOCKET) && ((number =? SO_SNDBUF) || (number =? SO_RCVBUF)) then (0, s)
  else if layer =? 6 then (- EOPNOTSUPP, s)
  else (- ENOPROTOOPT, s).

(** The bytes stored and the length, for a caller's length of [n]. *)
Definition stream_getsockname (v n : Z) (s : SockSys) : option (list Z * Z) :=
  st ← streams s !! v;
  Some (address_bytes (address st) n, get_local_addr_length (address st)).
Definition stream_getpeername (v n : Z) (s : SockSys) : option (list Z * Z) :=
  st ← streams s !! v;
  p ← streams s !! peer st;
  Some (address_bytes (address p) n, get_local_addr_length (address p)).

End StreamOps.

(** ** Transfers *)
Definition total_length (iovs : list Z) : Z := foldr Z.add 0 iovs.

Lemma total_nonneg iovs : Forall (fun n => 0 <= n) iovs -> 0 <= total_length iovs.
Proof. induction 1; simpl; lia. Qed.

Lemma take_split {T} (l : list T) a b :
  0 <= a -> 0 <= b -> take (Z.to_nat (a + b)) l = take (Z.to_nat a) l ++ take (Z.to_nat b) (drop (Z.to_nat a) l).
Proof. intros. rewrite Z2Nat.inj_add by lia. apply take_add. Qed.

Lemma drop_split {T} (l : list T) a b :
  0 <= a -> 0 <= b -> drop (Z.to_nat (a + b)) l = drop (Z.to_nat b) (drop (Z.to_nat a) l).
Proof. intros. rewrite drop_drop. f_equal. lia. Qed.

Lemma RING_SIZE_index (rb : RingBuffer Z) : ring_wf RING_SIZE rb -> read_index rb <= write_index rb.
Proof. intros [? ? ? ? ? ? [[k Hk]|]]; [unfold RING_SIZE in Hk; lia|done]. Qed.

(** Reading [c] of the elements advances the read index by as much. *)
Lemma read_index_advance (rb : RingBuffer Z) n :
  ring_wf RING_SIZE rb -> 0 <= n ->
  let '(c, _, rb') := RingBuffer_read RING_SIZE rb n in read_index rb' = read_index rb + c.
Proof.
  intros Hwf Hn. pose proof (RING_SIZE_index rb Hwf) as Hi. pose proof (count_no_wrap _ rb Hwf Hi) as Hc.
  pose proof Hwf as []. unfold RingBuffer_read. pose proof (data_count_nonneg rb).
  destruct (Z.eqb_spec (Z.min n (data_count rb)) 0); [lia|]. cbn. apply u64_small. lia.
Qed.

Lemma recv_iovs_spec seq packet_length iovs t0 (rb : RingBuffer Z) :
  ring_wf RING_SIZE rb -> Forall (fun n => 0 <= n) iovs ->
  let room := if seq : bool then packet_length - t0 else data_count rb in
  0 <= room <= data_count rb ->
  let '(t, out, rb') := recv_iovs seq packet_length t0 iovs rb in
  let n := Z.min (total_length iovs) room in
  t = t0 + n /\ ring_wf RING_SIZE rb' /\ read_index rb' = read_index rb + n /\
  concat out = take (Z.to_nat n) (contents RING_SIZE rb) /\
  contents RING_SIZE rb' = drop (Z.to_nat n) (contents RING_SIZE rb).
Proof.
  intros Hwf Hf. revert t0 rb Hwf. induction Hf as [|len iovs Hlen Hf IH]; intros t0 rb Hwf room Hroom.
  { cbn. rewrite Z.min_l by lia. cbn. rewrite Z.add_0_r. split_and!; try done; lia. }
  pose proof (total_nonneg iovs Hf) as Htot. cbn [recv_iovs total_length foldr]. fold (total_length iovs).
  destruct (Z.eqb_spec len 0) as [->|Hne].
  { specialize (IH t0 rb Hwf). cbn zeta in IH. fold room in IH. specialize (IH Hroom).
    destruct (recv_iovs seq packet_length t0 iovs rb) as [[t out] rb']. by rewrite Z.add_0_l. }
  set (amount := if seq then Z.min len (u64 (packet_length - t0)) else len).
  assert (Ha : Z.min amount (data_count rb) = Z.min len room /\ 0 <= amount /\ (seq = true -> amount = Z.min len room)).
  { pose proof Hwf as []. subst amount room. destruct seq; [|split_and!; lia || done]. rewrite u64_small by lia. split_and!; intros; lia. }
  destruct Ha as (Ha & Ha0 & Has). clearbody amount.
  pose proof (RingBuffer_read_spec RING_SIZE rb amount Hwf Ha0) as Hr.
  pose proof (read_index_advance rb amount Hwf Ha0) as Hri.
  destruct (seq && (amount =? 0)) eqn:Es.
  { apply andb_true_iff in Es as [-> Ez%Z.eqb_eq]. specialize (Has eq_refl).
    rewrite (Z.min_r (len + _)) by lia. replace room with 0 by lia. cbn. rewrite !Z.add_0_r. split_and!; try done; lia. }
  destruct (RingBuffer_read RING_SIZE rb amount) as [[c bs] rb1]. destruct Hr as (Hc & Hbs & Hwf1 & Hcon1).
  rewrite Ha in Hc. set (l := contents RING_SIZE rb) in *.
  pose proof (contents_length RING_SIZE rb Hwf) as Hl. fold l in Hl.
  pose proof (contents_length RING_SIZE rb1 Hwf1) as Hl1. rewrite Hcon1 in Hl1.
  pose proof (ring_empty_spec RING_SIZE rb1 Hwf1) as He. rewrite Hcon1 in He.
  assert (Hbs' : bs = take (Z.to_nat c) l /\ drop (Z.to_nat amount) l = drop (Z.to_nat c) l).
  { destruct (decide (amount <= data_count rb)); [by replace c with amount by lia|].
    rewrite Hbs, !take_ge, !drop_ge by lia. done. }
  destruct Hbs' as [-> Hdc]. rewrite Hdc in Hcon1.
  destruct (is_empty rb1) eqn:Ee.
  - symmetry in He. apply bool_decide_eq_true in He. rewrite He in Hl1. cbn in Hl1.
    assert (c = data_count rb) as Hcc.
    { apply (f_equal (@List.length Z)) in He. rewrite length_drop in He. cbn in He. lia. }
    rewrite (Z.min_r (len + _)) by lia. replace room with c by lia. cbn [concat]. rewrite app_nil_r. split_and!; try done.
  - specialize (IH (t0 + c) rb1 Hwf1). cbn zeta in IH.
    set (room1 := if seq then packet_length - (t0 + c) else data_count rb1) in IH.
    assert (Hr1 : room1 = room - c /\ 0 <= room1 <= data_count rb1).
    { assert (data_count rb1 = data_count rb - c).
      { pose proof (contents_length RING_SIZE rb1 Hwf1) as H1. rewrite Hcon1, length_drop in H1. lia. }
      subst room1 room. destruct seq; [lia|]. lia. }
    destruct Hr1 as [Hr1 Hr1']. specialize (IH Hr1'). clearbody room1.
    destruct (recv_iovs seq packet_length (t0 + c) iovs rb1) as [[t out] rb'].
    cbn zeta in IH. destruct IH as (-> & Hwf' & Hri' & Hout & Hcon').
    set (n1 := Z.min (total_length iovs) room1) in *.
    replace (Z.min (len + total_length iovs) room) with (c + n1) by lia.
    cbn [concat]. rewrite take_split, drop_split by lia. rewrite Hout, Hcon', Hcon1, Hri', Hri. split_and!; try done; lia.
Qed.

Lemma write_index_advance (rb : RingBuffer Z) buf n :
  ring_wf RING_SIZE rb -> 0 <= n -> write_index rb + n < 18446744073709551616 ->
  let '(c, rb') := RingBuffer_write RING_SIZE rb buf n in write_index rb' = write_index rb + c.
Proof.
  intros Hwf Hn Hb. pose proof Hwf as []. unfold RingBuffer_write. rewrite free_count_eq by done. cbn. apply u64_small. lia.
Qed.

Lemma write_ok (rb : RingBuffer Z) buf n :
  ring_wf RING_SIZE rb -> 0 <= n <= Z.of_nat (length buf) -> write_index rb + n < 18446744073709551616 ->
  let '(c, rb') := RingBuffer_write RING_SIZE rb buf n in
  c = Z.min n (RING_SIZE - data_count rb) /\ ring_wf RING_SIZE rb' /\
  contents RING_SIZE rb' = contents RING_SIZE rb ++ take (Z.to_nat c) buf /\
  read_index rb' = read_index rb /\ write_index rb' = write_index rb + c /\ data_count rb' = data_count rb + c.
Proof.
  intros Hwf Hn Hb. pose proof (RING_SIZE_index rb Hwf) as Hi.
  assert (Hnw : no_wrap RING_SIZE rb n) by (right; done).
  pose proof (RingBuffer_write_spec RING_SIZE rb buf n Hwf Hn Hnw) as Hw.
  pose proof (write_index_advance rb buf n Hwf ltac:(lia) Hb) as Hwi.
  destruct (RingBuffer_write RING_SIZE rb buf n) as [c rb']. destruct Hw as (Hc & Hwf' & Hcon & Hri).
  split_and!; try done; [by apply Hri|].
  pose proof (contents_length _ _ Hwf') as H1. pose proof (contents_length _ _ Hwf) as H2.
  rewrite Hcon, length_app, length_take in H1. pose proof (wf_count _ _ Hwf). lia.
Qed.

Lemma send_iovs_spec iovs t0 (rb : RingBuffer Z) :
  ring_wf RING_SIZE rb -> write_index rb + Z.of_nat (length (concat iovs)) < 18446744073709551616 ->
  let '(t, rb') := send_iovs t0 iovs rb in
  let n := Z.min (Z.of_nat (length (concat iovs))) (RING_SIZE - data_count rb) in
  t = t0 + n /\ ring_wf RING_SIZE rb' /\ read_index rb' = read_index rb /\ write_index rb' = write_index rb + n /\
  contents RING_SIZE rb' = contents RING_SIZE rb ++ take (Z.to_nat n) (concat iovs).
Proof.
  revert t0 rb. induction iovs as [|buf iovs IH]; intros t0 rb Hwf Hb.
  { cbn. pose proof (wf_count _ _ Hwf). rewrite Z.min_l by lia. cbn. rewrite !Z.add_0_r, app_nil_r. done. }
  pose proof (wf_count _ _ Hwf) as Hcnt. cbn [concat send_iovs] in *. case_bool_decide as E; [subst; by apply IH|].
  rewrite length_app in *. pose proof (write_ok rb buf (Z.of_nat (length buf)) Hwf ltac:(lia) ltac:(lia)) as Hw.
  destruct (RingBuffer_write RING_SIZE rb buf (Z.of_nat (length buf))) as [c rb1].
  destruct Hw as (Hc & Hwf1 & Hcon1 & Hr1 & Hw1 & Hd1).
  pose proof (wf_count _ _ Hwf1) as Hcnt1. unfold is_full. destruct (Z.eqb_spec (data_count rb1) RING_SIZE) as [Ef|Ef].
  - replace (Z.min _ _) with c by lia. split_and!; try done. rewrite Hcon1, take_app_le by lia. done.
  - specialize (IH (t0 + c) rb1 Hwf1 ltac:(lia)). destruct (send_iovs (t0 + c) iovs rb1) as [t rb'].
    cbn zeta in IH. destruct IH as (-> & Hwf' & Hr' & Hw' & Hcon').
    assert (c = Z.of_nat (length buf)) as Hcb by lia.
    set (n1 := Z.min (Z.of_nat (length (concat iovs))) (RING_SIZE - data_count rb1)) in *.
    replace (Z.min _ (RING_SIZE - data_count rb)) with (c + n1) by lia.
    split_and!; try done; try lia. rewrite Hcon', Hcon1, take_split by lia. rewrite <- app_assoc. f_equal. f_equal.
    + by rewrite take_app_le by lia.
    + rewrite drop_app_ge by lia. f_equal. rewrite Hcb, Nat2Z.id, Nat.sub_diag. done.
Qed.

(** ** Streams deliver

    The sockets with, for each of them, the bytes sent to its present ring and
    the bytes received from it. *)
Record StreamTrace : Type := mkTrace { tr_sys : SockSys; tr_sent : Z -> list Z; tr_received : Z -> list Z }.

Inductive stream_op : Type :=
| OSend (v : Z) (nonblock : bool) (iovs : list (list Z))
| ORecv (v : Z) (nonblock : bool) (iovs : list Z)
| OClose (v : Z)
| OEnqueue (v target : Z)
| OAccept (v : Z) (nonblock : bool) (fl : Z).

Definition ring_of (v : Z) (s : SockSys) : option (RingBuffer Z) := streams s !! v ≫= ring_buffer.
Definition append_at (v : Z) (bs : list Z) (f : Z -> list Z) : Z -> list Z :=
  fun x => if decide (x = v) then f x ++ bs else f x.
(** A ring that is made starts without history. *)
Definition restart (s : SockSys) (f : Z -> list Z) : Z -> list Z :=
  fun x => if ring_of x s then f x else [].

(** An operation that would sleep leaves no trace: it is attempted again. *)
Definition stream_step (op : stream_op) (t : StreamTrace) : StreamTrace :=
  let s := tr_sys t in
  match op with
  | OSend v nb iovs =>
      match streams s !! v, send_attempt v nb iovs s with
      | Some st, Return n s' =>
          mkTrace s' (append_at (peer st) (take (Z.to_nat n) (concat iovs)) (tr_sent t)) (tr_received t)
      | _, _ => t
      end
  | ORecv v nb iovs =>
      match recv_attempt v nb iovs 0 None s with
      | Return r s' => mkTrace s' (tr_sent t) (append_at v (concat (rr_buffers r)) (tr_received t))
      | _ => t
      end
  | OClose v => match stream_close v s with Some s' => mkTrace s' (tr_sent t) (tr_received t) | None => t end
  | OEnqueue v target => match enqueue v target s with Some (_, s') => mkTrace s' (tr_sent t) (tr_received t) | None => t end
  | OAccept v nb fl =>
      match accept_attempt v nb fl s with
      | Return _ s' => mkTrace s' (restart s (tr_sent t)) (restart s (tr_received t))
      | _ => t
      end
  end.

Definition stream_op_ok (op : stream_op) : Prop :=
  match op with ORecv _ _ iovs => Forall (fun n => 0 <= n) iovs | _ => True end.
Definition op_bytes (op : stream_op) : Z :=
  match op with OSend _ _ iovs => Z.of_nat (length (concat iovs)) | _ => 0 end.
Definition ops_bytes (ops : list stream_op) : Z := foldr Z.add 0 (map op_bytes ops).

(** Byte streams, their addresses allocated. *)
Definition plain_streams (s : SockSys) : Prop :=
  forall x st, streams s !! x = Some st -> is_seqpacket st = false /\ x < next_addr (ns s).

(** [budget] bytes may still be sent before an index reaches 2^64, where the
    ring's size would no longer divide it. *)
Record stream_inv (budget : Z) (t : StreamTrace) : Prop := {
  si_plain : plain_streams (tr_sys t);
  si_ring x rb : ring_of x (tr_sys t) = Some rb ->
    ring_wf RING_SIZE rb /\ write_index rb + budget < 18446744073709551616 /\
    tr_sent t x = tr_received t x ++ contents RING_SIZE rb
}.

Lemma ring_of_upd x v f (s : SockSys) :
  ring_of x (upd_stream v f s) =
  if decide (x = v) then (streams s !! v ≫= fun st => ring_buffer (f st)) else ring_of x s.
Proof.
  unfold ring_of, upd_stream. cbn. destruct (decide (x = v)) as [->|Hne].
  - rewrite lookup_alter_eq. by destruct (streams s !! v).
  - by rewrite lookup_alter_ne.
Qed.

Lemma ring_of_upd_same x v f (s : SockSys) :
  (forall st, ring_buffer (f st) = ring_buffer st) -> ring_of x (upd_stream v f s) = ring_of x s.
Proof.
  intros Hf. rewrite ring_of_upd. destruct (decide (x = v)) as [->|]; [|done].
  unfold ring_of. destruct (streams s !! v); [|done]. cbn. apply Hf.
Qed.

Lemma plain_upd v f (s : SockSys) :
  (forall st, is_seqpacket (f st) = is_seqpacket st) -> plain_streams s -> plain_streams (upd_stream v f s).
Proof.
  intros Hf Hp x st. unfold upd_stream. cbn. destruct (decide (x = v)) as [->|Hne].
  - rewrite lookup_alter_eq. destruct (streams s !! v) as [st0|] eqn:E; [|done]. cbn. intros [= <-].
    rewrite Hf. by apply Hp.
  - rewrite lookup_alter_ne by done. apply Hp.
Qed.

Lemma trigger_ring_of x v d s : ring_of x (trigger_socket v d s) = ring_of x s.
Proof. done. Qed.

Lemma new_ring_ok : ring_wf RING_SIZE new_ring /\ contents RING_SIZE new_ring = [] /\ write_index new_ring = 0.
Proof.
  destruct (ring_init_wf RING_SIZE (replicate (Z.to_nat RING_SIZE) 0)) as [H1 H2].
  { unfold RING_SIZE. lia. } { rewrite length_replicate. unfold RING_SIZE. lia. } done.
Qed.
#[local] Opaque new_ring.

Lemma send_step_inv budget v nb iovs t :
  stream_inv (budget + Z.of_nat (length (concat iovs))) t -> 0 <= budget ->
  stream_inv budget (stream_step (OSend v nb iovs) t).
Proof.
  intros [Hp Hr] Hb.
  assert (Hweak : stream_inv budget t) by (split; [done|]; intros x rb Hx; destruct (Hr x rb Hx) as (? & ? & ?); split_and!; done || lia).
  cbn [stream_step]. destruct (streams (tr_sys t) !! v) as [st|] eqn:Ev; [|done].
  unfold send_attempt. rewrite Ev. destruct (Z.eqb_spec (peer st) 0) as [|Hpeer]; [done|].
  destruct (streams (tr_sys t) !! peer st ≫= ring_buffer) as [rb|] eqn:Erb; [|done].
  destruct (is_full RING_SIZE rb).
  { destruct nb; [|done]. destruct t as [s se re]. cbn [tr_sys tr_sent tr_received] in *. split; [done|].
    cbn [tr_sys tr_sent tr_received]. intros x rb' Hx. destruct Hweak as [_ Hw]. destruct (Hw x rb' Hx) as (H1 & H2 & H3). split_and!; try done.
    unfold append_at. case_decide; [|done]. cbn. by rewrite app_nil_r. }
  destruct (Hp v st Ev) as [Hs _]. rewrite Hs. cbn [send_transfer].
  destruct (Hr (peer st) rb Erb) as (Hwf & Hidx & Hcon).
  pose proof (send_iovs_spec iovs 0 rb Hwf ltac:(lia)) as H.
  unfold send_transfer. destruct (send_iovs 0 iovs rb) as [n rb']. cbn zeta in H. destruct H as (Hn & Hwf' & Hri & Hwi & Hcon').
  split; cbn [tr_sys tr_sent tr_received].
  - intros x d Hx. eapply (plain_upd (peer st) (with_ring (Some rb'))); [done|apply Hp|exact Hx].
  - intros x rx. rewrite trigger_ring_of, ring_of_upd. unfold append_at. case_decide as E; [subst x|].
    + destruct (streams (tr_sys t) !! peer st); [|done]. cbn. intros [= <-]. pose proof (wf_count _ _ Hwf).
      split_and!; [done|lia|]. rewrite Hcon, Hcon', <- app_assoc. by rewrite Hn, Z.add_0_l.
    + destruct Hweak as [_ Hw]. apply Hw.
Qed.

Lemma recv_step_inv budget v nb iovs t :
  stream_inv budget t -> Forall (fun n => 0 <= n) iovs -> stream_inv budget (stream_step (ORecv v nb iovs) t).
Proof.
  intros [Hp Hr] Hf. cbn [stream_step]. unfold recv_attempt.
  destruct (streams (tr_sys t) !! v) as [st|] eqn:Ev; [|by split].
  destruct (ring_buffer st) as [rb|] eqn:Erb; [|by split].
  assert (ring_of v (tr_sys t) = Some rb) as Hrv by (unfold ring_of; by rewrite Ev).
  destruct (is_empty rb).
  { destruct nb; [|by split]. destruct t as [s se re]. cbn [tr_sys tr_sent tr_received rr_buffers] in *. split; [done|].
    cbn [tr_sys tr_sent tr_received]. intros x rb' Hx. destruct (Hr x rb' Hx) as (H1 & H2 & H3). split_and!; try done.
    unfold append_at. case_decide; [|done]. cbn. by rewrite app_nil_r. }
  destruct (Hp v st Ev) as [Hs _]. rewrite Hs. destruct (Hr v rb Hrv) as (Hwf & Hidx & Hcon).
  pose proof (data_count_nonneg rb). pose proof (recv_iovs_spec false 0 iovs 0 rb Hwf Hf ltac:(cbn; lia)) as H1.
  unfold recv_transfer. destruct (recv_iovs false 0 0 iovs rb) as [[n out] rb']. cbn zeta in H1.
  destruct H1 as (Hn & Hwf' & Hri & Hout & Hcon'). destruct (Z.eqb_spec (peer st) 0); [by split|].
  split; cbn [tr_sys tr_sent tr_received rr_buffers].
  - intros x d Hx. eapply (plain_upd v (with_ring (Some rb'))); [done|apply Hp|exact Hx].
  - intros x rx. rewrite trigger_ring_of, ring_of_upd. unfold append_at. case_decide as E; [subst x|by apply Hr].
    rewrite Ev. cbn. intros [= <-]. 
    assert (write_index rb' = write_index rb) as ->.
    { pose proof (RING_SIZE_index _ Hwf'). pose proof (RING_SIZE_index _ Hwf).
      pose proof (count_no_wrap _ _ Hwf' ltac:(done)). pose proof (count_no_wrap _ _ Hwf ltac:(done)).
      pose proof (contents_length _ _ Hwf') as L1. pose proof (contents_length _ _ Hwf) as L2. rewrite Hcon', length_drop in L1.
      pose proof (total_nonneg _ Hf). lia. }
    split_and!; [done|done|]. rewrite Hcon, Hcon', Hout, <- app_assoc, take_drop. done.
Qed.

Lemma close_step_inv budget v t : stream_inv budget t -> stream_inv budget (stream_step (OClose v) t).
Proof.
  intros [Hp Hr]. cbn [stream_step]. unfold stream_close. destruct (streams (tr_sys t) !! v) as [st|]; [|by split].
  cbn [mbind option_bind]. set (s1 := if peer st =? 0 then _ else _).
  assert (plain_streams s1 /\ forall x, ring_of x s1 = ring_of x (tr_sys t)) as [Hp1 Hr1].
  { subst s1. destruct (peer st =? 0); [done|]. split; [by apply plain_upd|]. intros x. by apply ring_of_upd_same. }
  split; cbn [tr_sys tr_sent tr_received]; [by apply plain_upd|].
  intros x rb. rewrite ring_of_upd. case_decide; [by destruct (streams s1 !! v)|]. rewrite Hr1. apply Hr.
Qed.

Lemma enqueue_step_inv budget v target t :
  stream_inv budget t -> stream_inv budget (stream_step (OEnqueue v target) t).
Proof.
  intros [Hp Hr]. cbn [stream_step]. unfold enqueue. destruct (streams (tr_sys t) !! target) as [st|]; [|by split].
  cbn [mbind option_bind]. destruct (max_pending st <=? num_pending st); [by split|].
  destruct (KList.add_before target v (links (tr_sys t))); by split.
Qed.

(** What an accept does to the sockets. *)
Lemma accept_first_spec v fl s fd addr s' :
  (forall x st, streams s !! x = Some st -> x < next_addr (ns s)) ->
  accept_first v fl s = Some (fd, addr, s') ->
  let c := next_addr (ns s) in
  exists this client st h,
    streams s !! v = Some this /\ KList.next_of (links s) v = Some client /\
    KList.remove client (links s) = Some h /\ streams s !! client = Some st /\ client <> c /\
    streams s' = <[client := with_ring (Some (default new_ring (ring_buffer st))) (with_peer c st)]>
      (<[c := with_address (copy_address (address this))
                (with_ring (Some new_ring) (with_peer client (LocalStreamSocket_new (is_seqpacket this))))]> (streams s)) /\
    links s' = <[c := (c, c)]> h /\ triggered s' = triggered s ++ [(client, false)] /\
    next_addr (ns s') = c + 32 /\ vnodes (ns s') = <[c := socket_vnode]> (vnodes (ns s)) /\
    (fd, ns_fds (ns s')) = install_fd (c + 16) c (Z.lor O_RDONLY (if has fl SOCK_NONBLOCK then O_NONBLOCK else 0))
                             (has fl SOCK_CLOEXEC) (ns_fds (ns s)).
Proof.
  intros Hp H c. unfold accept_first in H.
  destruct (streams s !! v) as [this|] eqn:Ev; [|done]. cbn [mbind option_bind] in H.
  destruct (KList.next_of (links s) v) as [client|] eqn:En; [|done]. cbn [mbind option_bind] in H.
  destruct (KList.remove client (links s)) as [h|] eqn:Eh; [|done]. cbn [mbind option_bind] in H.
  destruct (streams s !! client) as [st|] eqn:Es; [|done]. cbn [mbind option_bind] in H.
  assert (client <> c) as Hne by (apply Hp in Es; unfold c; lia).
  unfold new_stream, new_vnode, create_socket_fd in H. cbn in H. fold c in H.
  destruct (install_fd _ _ _ _ _) as [fd' f] eqn:Ei. injection H as <- <- <-.
  exists this, client, st, h. cbn. split_and!; try done; try (unfold c; lia).
  rewrite alter_insert_eq. rewrite alter_insert_ne by done. rewrite (insert_insert_ne _ client c) by done. f_equal.
  apply map_eq. intros y. destruct (decide (y = client)) as [->|Hy].
  - rewrite lookup_alter_eq, lookup_insert_eq, Es. cbn. by destruct (ring_buffer st).
  - by rewrite lookup_alter_ne, lookup_insert_ne.
Qed.

Lemma accept_step_inv budget v nb fl t :
  budget < 18446744073709551616 ->
  stream_inv budget t -> stream_inv budget (stream_step (OAccept v nb fl) t).
Proof.
  intros Hb [Hp Hr]. cbn [stream_step]. unfold accept_attempt.
  assert (Hidle : forall s, s = tr_sys t -> stream_inv budget (mkTrace s (restart s (tr_sent t)) (restart s (tr_received t)))).
  { intros s ->. split; cbn; [done|]. intros x rb Hx. unfold restart. rewrite Hx. by apply Hr. }
  destruct (KList.is_empty v (links (tr_sys t))) as [[|]|]; [destruct nb; [by apply Hidle|by split]| |by split].
  destruct (accept_first v fl (tr_sys t)) as [[[fd addr] s']|] eqn:Ea; [|by split].
  apply accept_first_spec in Ea; [|intros x st Hx; by apply (Hp x st)].
  destruct Ea as (this & client & st & h & Ev & _ & _ & Ec & Hne & Hs & _ & _ & Hnext & _).
  set (c := next_addr (ns (tr_sys t))) in *. destruct new_ring_ok as (Hw0 & Hc0 & Hi0).
  split; cbn [tr_sys tr_sent tr_received].
  - intros x d. rewrite Hs, Hnext. unfold c. destruct (decide (x = client)) as [->|Hx].
    { rewrite lookup_insert_eq. intros [= <-]. destruct (Hp _ _ Ec). cbn. split; [done|lia]. }
    rewrite lookup_insert_ne by done. destruct (decide (x = c)) as [->|Hxc].
    { rewrite lookup_insert_eq. intros [= <-]. destruct (Hp _ _ Ev). cbn. split; [done|unfold c; lia]. }
    rewrite lookup_insert_ne by done. intros Hd. destruct (Hp _ _ Hd). split; [done|lia].
  - intros x rb. unfold ring_of at 1. rewrite Hs. unfold restart.
    destruct (decide (x = client)) as [->|Hx].
    { rewrite lookup_insert_eq. cbn. intros [= <-]. unfold ring_of. rewrite Ec. cbn.
      destruct (ring_buffer st) as [rb|] eqn:E; cbn.
      - apply Hr. unfold ring_of. by rewrite Ec.
      - rewrite Hi0, Hc0. split_and!; done || lia. }
    rewrite lookup_insert_ne by done. destruct (decide (x = c)) as [->|Hxc].
    { rewrite lookup_insert_eq. cbn. intros [= <-]. unfold ring_of.
      destruct (streams (tr_sys t) !! c) as [d|] eqn:Ed; [apply Hp in Ed; unfold c in Ed; lia|]. cbn.
      rewrite Hi0, Hc0. split_and!; done || lia. }
    rewrite lookup_insert_ne by done. change (streams (tr_sys t) !! x ≫= ring_buffer) with (ring_of x (tr_sys t)).
    intros Hx'. rewrite Hx'. by apply Hr.
Qed.

Lemma stream_step_inv budget op t :
  stream_op_ok op -> 0 <= budget -> budget + op_bytes op < 18446744073709551616 ->
  stream_inv (budget + op_bytes op) t -> stream_inv budget (stream_step op t).
Proof.
  intros Hok Hb Hlt Hinv.
  destruct op; cbn [op_bytes] in *; try (rewrite Z.add_0_r in Hinv); cbn in Hok.
  - by apply send_step_inv.
  - by apply recv_step_inv.
  - by apply close_step_inv.
  - by apply enqueue_step_inv.
  - apply accept_step_inv; [lia|done].
Qed.

Lemma ops_bytes_nonneg ops : 0 <= ops_bytes ops.
Proof.
  unfold ops_bytes. induction ops as [|op ops IH]; [done|]. cbn.
  assert (0 <= op_bytes op) by (destruct op; cbn; lia). lia.
Qed.

Lemma stream_run_inv ops t :
  Forall stream_op_ok ops -> ops_bytes ops < 18446744073709551616 ->
  stream_inv (ops_bytes ops) t -> stream_inv 0 (fold_left (fun t op => stream_step op t) ops t).
Proof.
  intros Hok. revert t. induction Hok as [|op ops Hop Hops IH]; intros t Hb Hinv; [done|].
  pose proof (ops_bytes_nonneg ops) as H0. assert (0 <= op_bytes op) by (destruct op; cbn; lia).
  change (ops_bytes (op :: ops)) with (op_bytes op + ops_bytes ops) in Hb, Hinv.
  cbn [fold_left]. apply IH; [lia|]. apply stream_step_inv; [done|done|lia|]. by rewrite Z.add_comm.
Qed.

(** C14: Byte-stream sockets deliver what they are sent: from any sockets not yet
    connected, through any interleaving of connection requests, accepts,
    sends, receives and closes that send fewer than 2^64 bytes, the bytes
    received from a socket's ring are those sent to it, in order, up to the at
    most 212992 bytes still there. *)
Theorem stream_sockets_deliver s ops :
  plain_streams s -> (forall x, ring_of x s = None) ->
  Forall stream_op_ok ops -> ops_bytes ops < 18446744073709551616 ->
  let t := fold_left (fun t op => stream_step op t) ops (mkTrace s (fun _ => []) (fun _ => [])) in
  forall x rb, ring_of x (tr_sys t) = Some rb ->
    tr_sent t x = tr_received t x ++ contents RING_SIZE rb /\
    Z.of_nat (length (contents RING_SIZE rb)) <= RING_SIZE.
Proof.
  intros Hp Hn Hok Hb t x rb Hx.
  assert (stream_inv 0 t) as [_ Hr].
  { unfold t. apply stream_run_inv; [done|done|]. split; [done|]. cbn. intros y ry Hy. by rewrite Hn in Hy. }
  destruct (Hr x rb Hx) as (Hwf & _ & He). split; [done|]. rewrite contents_length by done. apply Hwf.
Qed.

(** ** Connections *)

Fixpoint enqueue_all (xs : list Z) (v : Z) (s : SockSys) : option SockSys :=
  match xs with
  | [] => Some s
  | x :: xs => '(r, s1) ← enqueue x v s; if r =? 0 then enqueue_all xs v s1 else None
  end.

(** [n] calls of accept that do not sleep, the state after them. *)
Fixpoint accept_all (n : nat) (v fl : Z) (s : SockSys) : option SockSys :=
  match n with
  | O => Some s
  | S n => match accept_attempt v false fl s with Return _ s1 => accept_all n v fl s1 | _ => None end
  end.

(** A listener and the clients that may wait for it. *)
Record listening (v : Z) (waiting : list Z) (s : SockSys) : Prop := {
  ln_listener : exists this, streams s !! v = Some this /\ num_pending this < max_pending this;
  ln_ring : KList.ring (links s) v waiting;
  ln_waiting x : x ∈ waiting -> is_Some (streams s !! x);
  ln_streams x : is_Some (streams s !! x) -> is_Some (links s !! x) /\ x < next_addr (ns s)
}.

Lemma enqueue_listening v l x s :
  listening v l s -> x ∉ v :: l -> is_Some (streams s !! x) ->
  exists s1, enqueue x v s = Some (0, s1) /\ listening v (l ++ [x]) s1 /\ streams s1 = streams s /\ ns s1 = ns s /\
    triggered s1 = triggered s ++ [(v, false)].
Proof.
  intros [(this & Ev & Hm) Hring Hw Hs] Hx Hxs. unfold enqueue. rewrite Ev. cbn [mbind option_bind].
  destruct (Z.leb_spec (max_pending this) (num_pending this)); [lia|].
  destruct (KList.add_before_spec (links s) v l x Hring Hx) as (h & Hh & Hring' & Hframe); [by apply Hs|].
  rewrite Hh. eexists. split; [reflexivity|]. split; [|done]. split; cbn.
  - eauto.
  - done.
  - intros y. rewrite elem_of_app, list_elem_of_singleton. intros [Hy| ->]; auto.
  - intros y Hy. split; [|by apply Hs]. destruct (decide (y ∈ v :: l ++ [x])) as [Hin|Hin].
    + by apply (KList.ring_dom _ _ _ _ Hring').
    + rewrite Hframe; [by apply Hs|set_solver|set_solver].
Qed.

Lemma enqueue_all_listening v xs l s :
  listening v l s -> NoDup (v :: l ++ xs) -> (forall x, x ∈ xs -> is_Some (streams s !! x)) ->
  exists s1, enqueue_all xs v s = Some s1 /\ listening v (l ++ xs) s1 /\ streams s1 = streams s /\ ns s1 = ns s.
Proof.
  revert l s. induction xs as [|x xs IH]; intros l s Hl Hnd Hxs; cbn [enqueue_all].
  { exists s. rewrite app_nil_r. done. }
  assert (x ∉ v :: l) as Hx.
  { rewrite app_comm_cons in Hnd. apply NoDup_app in Hnd as (_ & H & _). intros Hin. by apply (H x Hin); left. }
  destruct (enqueue_listening v l x s Hl Hx) as (s1 & -> & Hl1 & Hs1 & Hn1 & _); [apply Hxs; by left|].
  cbn [mbind option_bind]. destruct (IH (l ++ [x]) s1) as (s2 & -> & Hl2 & Hs2 & Hn2); [done|by rewrite <- app_assoc| |].
  { intros y Hy. rewrite Hs1. apply Hxs. by right. }
  exists s2. rewrite <- app_assoc in Hl2. split_and!; try done; congruence.
Qed.

(** Two sockets are connected: each is the other's peer, and both have rings. *)
Definition pair_of (x c : Z) (s : SockSys) : Prop :=
  exists a b, streams s !! x = Some a /\ streams s !! c = Some b /\ peer a = c /\ peer b = x /\
    is_Some (ring_buffer a) /\ is_Some (ring_buffer b).

Lemma accept_listening v x l fl s :
  listening v (x :: l) s ->
  exists r s1, accept_attempt v false fl s = Return r s1 /\ listening v l s1 /\
    pair_of x (next_addr (ns s)) s1 /\ next_addr (ns s1) = next_addr (ns s) + 32 /\
    (forall y, y <> x -> y < next_addr (ns s) -> streams s1 !! y = streams s !! y).
Proof.
  intros [(this & Ev & Hm) Hring Hw Hs]. unfold accept_attempt.
  rewrite (KList.is_empty_spec _ _ _ Hring). cbn [bool_decide decide_rel].
  rewrite bool_decide_eq_false_2 by done.
  destruct (KList.ring_first _ _ _ Hring) as (n & N & HnN & _ & Hnext & _). cbn in HnN. injection HnN as <- _.
  destruct (KList.remove_spec (links s) v [] x l Hring) as (h & Hh & Hring' & _ & Hframe).
  destruct (Hw x) as [st Est]; [by left|].
  destruct (accept_first v fl s) as [[[fd addr] s1]|] eqn:Ea.
  2: { exfalso. unfold accept_first in Ea. rewrite Ev, Hnext in Ea. cbn [mbind option_bind] in Ea.
       rewrite Hh, Est in Ea. cbn [mbind option_bind] in Ea. unfold new_stream, new_vnode, create_socket_fd in Ea.
       cbn in Ea. by destruct (install_fd _ _ _ _ _). }
  apply accept_first_spec in Ea; [|intros y d Hy; apply Hs; by rewrite Hy].
  destruct Ea as (this' & x' & st' & h' & Ev' & En' & Eh' & Es' & Hne & Hst & Hl & _ & Hnx & _).
  rewrite Hnext in En'. injection En' as <-. rewrite Hh in Eh'. injection Eh' as <-.
  rewrite Est in Es'. injection Es' as <-. set (c := next_addr (ns s)) in *.
  assert (v <> x) as Hvx by (destruct Hring as [Hnd _]; apply NoDup_cons in Hnd as [Hnd _]; intros ->; apply Hnd; left).
  assert (v < c) as Hvc by (apply Hs; by rewrite Ev).
  assert (Hold : forall y, y <> x -> y < c -> streams s1 !! y = streams s !! y).
  { intros y Hy Hyc. rewrite Hst. by rewrite !lookup_insert_ne by lia. }
  eexists _, s1. split; [reflexivity|]. split; [|split_and!; [|done|done]].
  - split.
    + exists this. by rewrite Hold.
    + rewrite Hl. apply (KList.ring_frame h); [|exact Hring']. intros z Hz. apply lookup_insert_ne.
      intros <-.
      assert (is_Some (streams s !! c)) as Hc; [|apply Hs in Hc; lia].
      apply elem_of_cons in Hz as [->|Hz]; [by rewrite Ev|]. apply Hw. by right.
    + intros y Hy. rewrite Hold; [apply Hw; by right| |].
      * destruct Hring as [Hnd _]. apply NoDup_cons in Hnd as [_ Hnd]. apply NoDup_cons in Hnd as [Hnd _]. by intros ->.
      * apply Hs, Hw. by right.
    + intros y Hy. rewrite Hl, Hnx, Hst in *. destruct (decide (y = c)) as [->|Hyc].
      { rewrite lookup_insert_eq. split; [done|]. lia. }
      rewrite lookup_insert_ne by done. assert (is_Some (streams s !! y)) as Hys.
      { destruct (decide (y = x)) as [->|Hyx]; [by rewrite Est|]. by rewrite !lookup_insert_ne in Hy by done. }
      destruct (Hs y Hys) as [Hly Hlt]. split; [|lia].
      by apply (KList.remove_dom x (links s) h y Hh).
  - exists (with_ring (Some (default new_ring (ring_buffer st))) (with_peer c st)). eexists.
    rewrite Hst. rewrite lookup_insert_eq, lookup_insert_ne, lookup_insert_eq by done. split_and!; try done; cbn; eauto.
Qed.

Lemma pair_kept x c s s1 v :
  pair_of x c s -> x <> v -> c <> v -> (forall y, y <> v -> y < next_addr (ns s) -> streams s1 !! y = streams s !! y) ->
  x < next_addr (ns s) -> c < next_addr (ns s) -> pair_of x c s1.
Proof. intros (a & b & Ha & Hb & H) Hx Hc Hold Hlx Hlc. exists a, b. by rewrite !Hold. Qed.

Lemma accept_all_listening v fl xs s :
  listening v xs s -> NoDup xs ->
  exists s1, accept_all (length xs) v fl s = Some s1 /\ listening v [] s1 /\
    (forall i x, xs !! i = Some x -> pair_of x (next_addr (ns s) + 32 * Z.of_nat i) s1) /\
    (forall y, y ∉ xs -> y < next_addr (ns s) -> streams s1 !! y = streams s !! y).
Proof.
  revert s. induction xs as [|x xs IH]; intros s Hl Hnd.
  { exists s. split_and!; try done. }
  apply NoDup_cons in Hnd as [Hx Hnd]. cbn [length accept_all].
  destruct (accept_listening v x xs fl s Hl) as (r & s1 & -> & Hl1 & Hp & Hn1 & Hold1).
  destruct (IH s1 Hl1 Hnd) as (s2 & -> & Hl2 & Hps & Hold2). exists s2. split; [done|]. split; [done|].
  assert (x < next_addr (ns s)) as Hxlt by (apply (ln_streams _ _ _ Hl), (ln_waiting _ _ _ Hl); left).
  assert (forall y, y ∈ xs -> y < next_addr (ns s)) as Hxs.
  { intros y Hy. apply (ln_streams _ _ _ Hl), (ln_waiting _ _ _ Hl). by right. }
  split.
  - intros [|i] y Hy; cbn in Hy.
    + injection Hy as <-. rewrite Z.add_0_r. destruct Hp as (a & b & Ha & Hb & H). exists a, b.
      rewrite !Hold2; [done|intros Hin; apply Hxs in Hin; lia|lia|done|lia].
    + replace (next_addr (ns s) + 32 * Z.of_nat (S i)) with (next_addr (ns s1) + 32 * Z.of_nat i) by lia. by apply Hps.
  - intros y Hy Hlt. rewrite not_elem_of_cons in Hy. destruct Hy. rewrite Hold2, Hold1 by (done || lia). done.
Qed.

(** Connections are accepted in the order of their requests: when clients join
    the list of a listener that nobody else waits for, as many accepts each
    return a new socket, the i-th of which is connected to the i-th client;
    then no client waits. *)
Theorem connections_accepted_in_order v fl xs s :
  listening v [] s -> NoDup (v :: xs) -> (forall x, x ∈ xs -> is_Some (streams s !! x)) ->
  exists s1 s2, enqueue_all xs v s = Some s1 /\ accept_all (length xs) v fl s1 = Some s2 /\
    (forall i x, xs !! i = Some x -> pair_of x (next_addr (ns s) + 32 * Z.of_nat i) s2) /\
    (forall y, y ∉ xs -> y < next_addr (ns s) -> streams s2 !! y = streams s !! y) /\
    KList.is_empty v (links s2) = Some true.
Proof.
  intros Hl Hnd Hxs.
  destruct (enqueue_all_listening v xs [] s Hl Hnd Hxs) as (s1 & H1 & Hl1 & Hs1 & Hn1).
  destruct (accept_all_listening v fl xs s1 Hl1) as (s2 & H2 & Hl2 & Hp & Hold); [by apply NoDup_cons in Hnd as [_ ?]|].
  rewrite Hn1 in *. exists s1, s2. split_and!; try done.
  - intros y Hy Hlt. rewrite Hold, Hs1; done.
  - rewrite (KList.is_empty_spec _ _ _ (ln_ring _ _ _ Hl2)). done.
Qed.

(** ** Packets

    A packet is its length in four bytes, then its bytes. *)
Definition frame (m : list Z) : list Z := le_split 4 (Z.of_nat (length m)) ++ m.

Lemma packet_length_eq iovs :
  Z.of_nat (length (concat iovs)) < 4294967296 -> packet_length_of iovs = Z.of_nat (length (concat iovs)).
Proof.
  unfold packet_length_of.
  enough (forall acc, 0 <= acc -> acc + Z.of_nat (length (concat iovs)) < 4294967296 ->
    fold_left (fun acc buf => u32 (acc + Z.of_nat (length buf))) iovs acc = acc + Z.of_nat (length (concat iovs))) as H.
  { intros Hlt. rewrite H; lia. }
  induction iovs as [|buf iovs IH]; intros acc Ha Hb; cbn in *; [lia|]. rewrite length_app in *.
  rewrite u32_small by lia. rewrite IH; lia.
Qed.

(** Sending a packet that fits appends its frame. *)
Lemma send_packet_spec iovs (rb : RingBuffer Z) :
  ring_wf RING_SIZE rb -> write_index rb + 4 + Z.of_nat (length (concat iovs)) < 18446744073709551616 ->
  data_count rb + 4 + Z.of_nat (length (concat iovs)) <= RING_SIZE ->
  exists rb', send_transfer true iovs rb = Some (Z.of_nat (length (concat iovs)), rb') /\
    ring_wf RING_SIZE rb' /\ contents RING_SIZE rb' = contents RING_SIZE rb ++ frame (concat iovs) /\
    write_index rb' = write_index rb + 4 + Z.of_nat (length (concat iovs)).
Proof.
  intros Hwf Hb Hfit. unfold send_transfer. rewrite packet_length_eq by (unfold RING_SIZE in *; pose proof (data_count_nonneg rb); lia).
  set (m := concat iovs) in *.
  pose proof (write_ok rb (le_split 4 (Z.of_nat (length m))) 4 Hwf ltac:(rewrite le_split_length; lia) ltac:(lia)) as Hw.
  destruct (RingBuffer_write RING_SIZE rb _ 4) as [c rb1]. destruct Hw as (Hc & Hwf1 & Hcon1 & _ & Hw1 & Hd1).
  rewrite Z.min_l in Hc by lia. subst c. cbn [negb Z.eqb Pos.eqb].
  pose proof (send_iovs_spec iovs 0 rb1 Hwf1 ltac:(unfold m in *; lia)) as Hs.
  destruct (send_iovs 0 iovs rb1) as [t rb2]. cbn zeta in Hs. fold m in Hs. destruct Hs as (-> & Hwf2 & _ & Hw2 & Hcon2).
  rewrite Z.min_l in * by lia. exists rb2. split_and!; try done; [|lia].
  rewrite Hcon2, Hcon1, <- app_assoc. unfold frame.
  rewrite (take_ge (le_split 4 _)) by (rewrite le_split_length; lia). by rewrite Nat2Z.id, firstn_all.
Qed.

(** Receiving takes the oldest packet, cut to the room there is. *)
Lemma recv_packet_spec iovs m rest (rb : RingBuffer Z) :
  ring_wf RING_SIZE rb -> Forall (fun n => 0 <= n) iovs ->
  contents RING_SIZE rb = frame m ++ rest ->
  exists out rb', recv_transfer true iovs rb =
      Some (Z.min (total_length iovs) (Z.of_nat (length m)), out,
            if total_length iovs <? Z.of_nat (length m) then MSG_TRUNC else 0, rb') /\
    concat out = take (Z.to_nat (total_length iovs)) m /\
    ring_wf RING_SIZE rb' /\ contents RING_SIZE rb' = rest /\ write_index rb' = write_index rb.
Proof.
  intros Hwf Hf Hcon. pose proof (total_nonneg _ Hf) as Htot. unfold recv_transfer.
  pose proof (contents_length _ _ Hwf) as Hl. rewrite Hcon in Hl. unfold frame in Hl. rewrite !length_app, le_split_length in Hl.
  pose proof (RingBuffer_read_spec RING_SIZE rb 4 Hwf ltac:(lia)) as Hr.
  assert (write_index (RingBuffer_read RING_SIZE rb 4).2 = write_index rb) as Hwi.
  { unfold RingBuffer_read. by destruct (_ =? 0). }
  destruct (RingBuffer_read RING_SIZE rb 4) as [[c hd] rb1]. cbn in Hwi. destruct Hr as (Hc & Hhd & Hwf1 & Hcon1).
  rewrite Z.min_l in Hc by lia. subst c. cbn [negb Z.eqb Pos.eqb].
  change (Z.to_nat 4) with 4%nat in *. rewrite Hcon in Hhd, Hcon1. unfold frame in Hhd, Hcon1. rewrite <- !app_assoc in Hhd, Hcon1.
  rewrite take_app_le in Hhd by (rewrite le_split_length; lia). rewrite drop_app_ge in Hcon1 by (rewrite le_split_length; lia).
  rewrite take_ge in Hhd by (rewrite le_split_length; lia). rewrite le_split_length, Nat.sub_diag, drop_0 in Hcon1. subst hd.
  pose proof (wf_count _ _ Hwf) as Hwc. unfold RING_SIZE in Hwc.
  rewrite le_combine_split. change (256 ^ Z.of_nat 4) with 4294967296. rewrite Z.mod_small by lia.
  set (pl := Z.of_nat (length m)) in *.
  pose proof (contents_length _ _ Hwf1) as Hl1. rewrite Hcon1, length_app in Hl1.
  pose proof (recv_iovs_spec true pl iovs 0 rb1 Hwf1 Hf ltac:(lia)) as Hs.
  assert (write_index (recv_iovs true pl 0 iovs rb1).2 = write_index rb1) as Hwi2.
  { clear. generalize 0. revert rb1. induction iovs as [|len iovs IH]; intros rb1 t0; cbn [recv_iovs]; [done|].
    destruct (len =? 0).
    - specialize (IH rb1 t0). by destruct (recv_iovs true pl t0 iovs rb1) as [[? ?] ?].
    - cbn [andb]. destruct (_ =? 0); [done|].
      assert (forall n, write_index (RingBuffer_read RING_SIZE rb1 n).2 = write_index rb1) as Hn.
      { intros n. unfold RingBuffer_read. by destruct (_ =? 0). }
      specialize (Hn (Z.min len (u64 (pl - t0)))). destruct (RingBuffer_read _ _ _) as [[n bs] rb2]. cbn in Hn.
      destruct (is_empty rb2); [done|]. specialize (IH rb2 (t0 + n)).
      destruct (recv_iovs true pl (t0 + n) iovs rb2) as [[? ?] ?]. cbn in *. congruence. }
  destruct (recv_iovs true pl 0 iovs rb1) as [[t out] rb2]. cbn in Hwi2. cbn zeta in Hs. rewrite Z.sub_0_r, Z.add_0_l in Hs.
  destruct Hs as (-> & Hwf2 & _ & Hout & Hcon2). rewrite Hcon1 in Hout, Hcon2.
  destruct (Z.ltb_spec pl (Z.min (total_length iovs) pl)); [lia|].
  assert (Hout' : concat out = take (Z.to_nat (total_length iovs)) m).
  { rewrite Hout, take_app_le by lia. destruct (decide (total_length iovs <= pl)); [by rewrite Z.min_l by lia|].
    rewrite !take_ge by lia. done. }
  destruct (Z.ltb_spec (total_length iovs) pl).
  - rewrite Z.min_l in * by lia. rewrite (proj2 (Z.ltb_lt _ _)) by lia.
    pose proof (RingBuffer_truncate_spec RING_SIZE rb2 (pl - total_length iovs) Hwf2 ltac:(lia)) as Ht.
    assert (write_index (RingBuffer_truncate rb2 (pl - total_length iovs)).2 = write_index rb2) as Hwt by done.
    destruct (RingBuffer_truncate rb2 (pl - total_length iovs)) as [c3 rb3]. destruct Ht as (_ & Hwf3 & Hcon3). cbn in Hwt. cbn [snd].
    exists out, rb3. split_and!; try done; [|congruence]. rewrite Hcon3, Hcon2, drop_drop.
    rewrite drop_app_ge by lia. replace (_ - length m)%nat with 0%nat by lia. done.
  - rewrite Z.min_r in * by lia. rewrite Z.ltb_irrefl. exists out, rb2. split_and!; try done; [|congruence].
    rewrite Hcon2, drop_app_ge by lia. replace (_ - length m)%nat with 0%nat by lia. done.
Qed.

(** *** A pair of packet sockets as a queue of packets *)
Inductive packet_op : Type :=
| PSend (nonblock : bool) (iovs : list (list Z))
| PRecv (nonblock : bool) (iovs : list Z).

Inductive packet_result : Type :=
| PDone (ret : Z) (received : list Z) (flags : Z)
| PSleep
| PCrash.

(** Packets go from [v] to [w]. *)
Definition packet_run (v w : Z) (s : SockSys) (op : packet_op) : packet_result * SockSys :=
  match op with
  | PSend nb iovs =>
      match send_attempt v nb iovs s with
      | Return n s' => (PDone n [] 0, s')
      | Block s' => (PSleep, s')
      | Crash => (PCrash, s)
      end
  | PRecv nb iovs =>
      match recv_attempt w nb iovs 0 None s with
      | Return r s' => (PDone (rr_ret r) (concat (rr_buffers r)) (rr_flags r), s')
      | Block s' => (PSleep, s')
      | Crash => (PCrash, s)
      end
  end.

Definition queue_bytes (q : list (list Z)) : Z := Z.of_nat (length (concat (frame <$> q))).

Definition packet_queue (q : list (list Z)) (op : packet_op) : packet_result * list (list Z) :=
  match op with
  | PSend nb iovs =>
      if queue_bytes q =? RING_SIZE then (if nb then PDone (- EWOULDBLOCK) [] 0 else PSleep, q)
      else (PDone (Z.of_nat (length (concat iovs))) [] 0, q ++ [concat iovs])
  | PRecv nb iovs =>
      match q with
      | [] => (if nb then PDone (- EWOULDBLOCK) [] 0 else PSleep, q)
      | m :: q' =>
          (PDone (Z.min (total_length iovs) (Z.of_nat (length m))) (take (Z.to_nat (total_length iovs)) m)
             (if total_length iovs <? Z.of_nat (length m) then MSG_TRUNC else 0), q')
      end
  end.

Fixpoint run_packets {S} (step : S -> packet_op -> packet_result * S) (s : S) (ops : list packet_op)
    : list packet_result * S :=
  match ops with
  | [] => ([], s)
  | op :: ops => let (r, s1) := step s op in let (rs, s2) := run_packets step s1 ops in (r :: rs, s2)
  end.

(** Each packet fits in what is free when it is sent, or nothing is free. *)
Fixpoint packets_fit (q : list (list Z)) (ops : list packet_op) : Prop :=
  match ops with
  | [] => True
  | op :: ops =>
      match op with
      | PSend _ iovs => queue_bytes q = RING_SIZE \/ queue_bytes q + 4 + Z.of_nat (length (concat iovs)) <= RING_SIZE
      | PRecv _ iovs => Forall (fun n => 0 <= n) iovs
      end /\ packets_fit (packet_queue q op).2 ops
  end.

Definition packet_bytes (op : packet_op) : Z :=
  match op with PSend _ iovs => 4 + Z.of_nat (length (concat iovs)) | _ => 0 end.
Definition packets_bytes (ops : list packet_op) : Z := foldr Z.add 0 (map packet_bytes ops).

Record packet_pair (v w : Z) (q : list (list Z)) (budget : Z) (s : SockSys) : Prop := {
  pp_sender : exists a, streams s !! v = Some a /\ peer a = w /\ is_seqpacket a = true;
  pp_receiver : exists b rb, streams s !! w = Some b /\ peer b <> 0 /\ is_seqpacket b = true /\
    ring_buffer b = Some rb /\ ring_wf RING_SIZE rb /\ contents RING_SIZE rb = concat (frame <$> q) /\
    write_index rb + budget < 18446744073709551616
}.

Lemma packet_pair_ring v w q budget s rb' budget' q' :
  v <> w -> packet_pair v w q budget s -> ring_wf RING_SIZE rb' -> contents RING_SIZE rb' = concat (frame <$> q') ->
  write_index rb' + budget' < 18446744073709551616 ->
  packet_pair v w q' budget' (upd_stream w (with_ring (Some rb')) s).
Proof.
  intros Hvw [(a & Ha & Hpa & Hsa) (b & rb & Hb & Hpb & Hsb & _)] Hwf Hcon Hidx. split; unfold upd_stream; cbn.
  - exists a. by rewrite lookup_alter_ne.
  - exists (with_ring (Some rb') b), rb'. rewrite lookup_alter_eq, Hb. done.
Qed.

Lemma packet_pair_weaken v w q b b' s : b' <= b -> packet_pair v w q b s -> packet_pair v w q b' s.
Proof.
  intros Hle [H1 (d & rb & H2)]. split; [done|]. exists d, rb. destruct H2 as (?&?&?&?&?&?&?). split_and!; try done. lia.
Qed.

Lemma packet_pair_trigger v w q b s x d : packet_pair v w q b s -> packet_pair v w q b (trigger_socket x d s).
Proof. intros [H1 H2]. by split. Qed.

Lemma packet_step v w q op budget s :
  v <> w -> w <> 0 -> packet_pair v w q (packet_bytes op + budget) s -> 0 <= budget -> packets_fit q [op] ->
  (packet_run v w s op).1 = (packet_queue q op).1 /\
  packet_pair v w (packet_queue q op).2 budget (packet_run v w s op).2.
Proof.
  intros Hvw Hw0 Hpp Hb [Hfit _].
  assert (packet_pair v w q budget s) as Hidle by (eapply packet_pair_weaken; [|done]; destruct op; cbn; lia).
  pose proof Hpp as [(a & Ha & Hpa & Hsa) (b & rb & Hrb & Hpb & Hsb & Hring & Hwf & Hcon & Hidx)].
  pose proof (contents_length _ _ Hwf) as Hl. rewrite Hcon in Hl. fold (queue_bytes q) in Hl.
  destruct op as [nb iovs|nb iovs]; cbn [packet_run packet_queue packet_bytes] in *.
  - unfold send_attempt. rewrite Ha, Hpa. rewrite (proj2 (Z.eqb_neq _ _)) by done. rewrite Hrb. cbn [mbind option_bind]. rewrite Hring.
    unfold is_full. rewrite <- Hl. destruct (Z.eqb_spec (queue_bytes q) RING_SIZE) as [Ef|Ef]; [by destruct nb|].
    destruct Hfit as [|Hfit]; [done|]. rewrite Hsa.
    destruct (send_packet_spec iovs rb Hwf) as (rb' & -> & Hwf' & Hcon' & Hidx'); [lia|lia|].
    cbn [fst snd]. split; [done|]. apply packet_pair_trigger. eapply packet_pair_ring; [done|done|done| |lia].
    rewrite Hcon', Hcon, fmap_app, concat_app. cbn. by rewrite app_nil_r.
  - unfold recv_attempt. rewrite Hrb, Hring, (ring_empty_spec _ _ Hwf), Hcon.
    destruct q as [|m q]; cbn [fmap list_fmap concat].
    { rewrite bool_decide_eq_true_2 by done. by destruct nb. }
    rewrite bool_decide_eq_false_2 by (unfold frame; intros H; apply (f_equal (@List.length Z)) in H;
      rewrite !length_app, le_split_length in H; cbn in H; lia).
    rewrite Hsb. destruct (recv_packet_spec iovs m (concat (list_fmap _ _ frame q)) rb Hwf Hfit Hcon) as (out & rb' & -> & Hout & Hwf' & Hcon' & Hidx').
    rewrite (proj2 (Z.eqb_neq _ _)) by done. cbn [fst snd rr_ret rr_buffers rr_flags]. rewrite Hout, Z.lor_0_l. split; [done|].
    apply packet_pair_trigger. eapply packet_pair_ring; [done|exact Hpp|done|done|lia].
Qed.

(** Packet sockets keep message boundaries: between two connected sockets that
    send and receive packets which fit in the free part of the ring, every call
    returns what a queue of packets returns, a packet longer than the room for
    it being cut and flagged; a sender sleeps only when the ring is full, and a
    receiver only when it is empty. *)
Theorem seqpacket_refines_queue v w s ops :
  v <> w -> w <> 0 -> packet_pair v w [] (packets_bytes ops) s -> packets_fit [] ops ->
  let (rs, s') := run_packets (packet_run v w) s ops in
  let (rs', q) := run_packets packet_queue [] ops in
  rs = rs' /\ packet_pair v w q 0 s'.
Proof.
  intros Hvw Hw0. generalize (@nil (list Z)) as q. revert s. induction ops as [|op ops IH]; intros s q Hpp Hfit; [done|].
  cbn [run_packets]. destruct Hfit as [Hop Hfit].
  assert (0 <= packets_bytes ops) as H0.
  { unfold packets_bytes. clear. induction ops as [|o ops IH]; [done|]. cbn. assert (0 <= packet_bytes o) by (destruct o; cbn; lia). lia. }
  destruct (packet_step v w q op (packets_bytes ops) s Hvw Hw0 Hpp H0) as [Hr Hpp']; [by split|].
  destruct (packet_run v w s op) as [r s1], (packet_queue q op) as [r' q1]. cbn in Hr, Hpp', Hfit. subst r'.
  specialize (IH s1 q1 Hpp' Hfit). destruct (run_packets (packet_run v w) s1 ops) as [rs s2], (run_packets packet_queue q1 ops) as [rs' q2].
  destruct IH as [-> ?]. done.
Qed.

(** ** Where sockets stop the kernel or lose data *)

(** A packet socket whose ring has one to three bytes free takes the next
    send, of any length, to a failed assertion. *)
Lemma packet_header_assertion v nb iovs s a rb :
  streams s !! v = Some a -> peer a <> 0 -> is_seqpacket a = true -> ring_of (peer a) s = Some rb ->
  ring_wf RING_SIZE rb -> write_index rb + 4 < 18446744073709551616 ->
  0 < RING_SIZE - data_count rb < 4 ->
  send_attempt v nb iovs s = Crash.
Proof.
  intros Ha Hp Hs Hr Hwf Hidx Hfree. unfold send_attempt. rewrite Ha.
  destruct (Z.eqb_spec (peer a) 0); [done|]. change (streams s !! peer a ≫= ring_buffer) with (ring_of (peer a) s). rewrite Hr.
  unfold is_full. destruct (Z.eqb_spec (data_count rb) RING_SIZE); [lia|]. rewrite Hs. unfold send_transfer.
  pose proof (write_ok rb (le_split 4 (packet_length_of iovs)) 4 Hwf ltac:(rewrite le_split_length; lia) Hidx) as Hw.
  destruct (RingBuffer_write RING_SIZE rb _ 4) as [c rb1]. destruct Hw as (-> & _). rewrite Z.min_r by lia.
  destruct (Z.eqb_spec (RING_SIZE - data_count rb) 4); [lia|done].
Qed.

(** When the peer closes, what it sent and was not yet received is gone: the
    socket is no longer connected, whatever its ring holds. *)
Lemma close_hides_data v w s s' a b :
  streams s !! v = Some a -> peer a = w -> streams s !! w = Some b -> v <> w ->
  stream_close v s = Some s' -> w <> 0 ->
  connected w s' = false /\ ring_of w s' = ring_of w s.
Proof.
  intros Ha Hp Hb Hvw Hc Hw. unfold stream_close in Hc. rewrite Ha in Hc. cbn [mbind option_bind] in Hc. rewrite Hp in Hc.
  destruct (Z.eqb_spec w 0); [done|]. injection Hc as <-. split.
  - unfold connected, upd_stream. cbn. rewrite lookup_alter_ne, lookup_alter_eq, Hb by done. done.
  - rewrite ring_of_upd, decide_False by done. by apply ring_of_upd_same.
Qed.

(** A socket that was accepted, or whose link was otherwise taken off a list,
    stops the kernel when it accepts: its link is null, which is not empty. *)
Lemma accept_unlinked_crashes v nb fl s :
  links s !! v = Some (0, 0) -> links s !! 0 = None -> v <> 0 -> accept_attempt v nb fl s = Crash.
Proof.
  intros Hv H0 Hne. unfold accept_attempt, KList.is_empty, KList.next_of. rewrite Hv.
  cbn [fmap option_fmap option_map fst mbind option_bind]. rewrite (proj2 (Z.eqb_neq 0 v)) by done.
  unfold accept_first, KList.remove, KList.next_of. rewrite Hv.
  cbn [fmap option_fmap option_map fst mbind option_bind]. rewrite H0. by destruct (streams s !! v).
Qed.

(** A control buffer whose second header says that its message is sixteen
    bytes shorter than nothing sends the kernel round the two headers for ever. *)
Definition looping_control : list Z :=
  le_split 8 16 ++ le_split 4 0 ++ le_split 4 0 ++ le_split 8 18446744073709551600 ++ le_split 4 0 ++ le_split 4 0 ++ replicate 16 0.
Lemma looping_control_hangs turns v s : send_control turns looping_control 0 v s = None.
Proof.
  enough (send_control turns looping_control 0 v s = None /\ send_control turns looping_control 16 v s = None) as [? _] by done.
  induction turns as [|turns [IH1 IH2]]; [done|]. split; cbn [send_control].
  - change (send_control turns looping_control 16 v s = None). exact IH2.
  - change (send_control turns looping_control 0 v s = None). exact IH1.
Qed.

(** ** Examples *)
Definition listener_example : Z := 2048.
Definition client_example : Z := 2064.
Definition sock_example : SockSys :=
  mkSockSys (set_next 4096 ns_home)
    (<[client_example := LocalStreamSocket_new false]>
       {[listener_example := with_max_pending 5 (LocalStreamSocket_new false)]})
    ∅ (<[client_example := (client_example, client_example)]> {[listener_example := (listener_example, listener_example)]}) [].

Lemma sock_example_streams x st : streams sock_example !! x = Some st ->
  (x = listener_example \/ x = client_example) /\ ring_buffer st = None /\ is_seqpacket st = false.
Proof.
  unfold sock_example. cbn [streams]. destruct (decide (x = client_example)) as [->|Hc].
  { rewrite lookup_insert_eq. intros [= <-]. auto. }
  rewrite lookup_insert_ne by done. intros [<- <-]%lookup_singleton_Some. auto.
Qed.

Definition stream_ops_example : list stream_op :=
  [OEnqueue client_example listener_example; OAccept listener_example true 0;
   OSend client_example true [[104; 105]; [33]]; ORecv (next_addr (ns sock_example)) true [2]; OClose client_example].

Lemma stream_sockets_deliver_witness :
  let t := fold_left (fun t op => stream_step op t) stream_ops_example (mkTrace sock_example (fun _ => []) (fun _ => [])) in
  tr_sent t 4096 = [104; 105; 33] /\ tr_received t 4096 = [104; 105] /\
  match ring_of 4096 (tr_sys t) with
  | Some rb => tr_sent t 4096 = tr_received t 4096 ++ contents RING_SIZE rb
  | None => False
  end.
Proof.
  intros t. split; [vm_compute; reflexivity|]. split; [vm_compute; reflexivity|].
  assert (bool_decide (is_Some (ring_of 4096 (tr_sys t))) = true) as Hs by (vm_compute; reflexivity).
  apply bool_decide_eq_true in Hs. destruct (ring_of 4096 (tr_sys t)) as [rb|] eqn:E; [|by destruct Hs].
  apply (stream_sockets_deliver sock_example stream_ops_example) with (x := 4096) (rb := rb); [| | | |exact E].
  - intros x st Hx. destruct (sock_example_streams x st Hx) as ([-> | ->] & _ & ->); split; reflexivity.
  - intros x. unfold ring_of. destruct (streams sock_example !! x) as [st|] eqn:E'; [|reflexivity].
    cbn. by apply sock_example_streams in E' as (_ & -> & _).
  - unfold stream_ops_example. repeat constructor; cbn; try lia.
  - reflexivity.
Defined.

Lemma sock_example_listening : listening listener_example [] sock_example.
Proof.
  split.
  - exists (with_max_pending 5 (LocalStreamSocket_new false)). split; vm_compute; reflexivity.
  - split; [apply NoDup_singleton|]. cbn. split_and!; vm_compute; reflexivity.
  - intros x Hx. set_solver.
  - intros x [st Hx]. destruct (sock_example_streams x st Hx) as ([-> | ->] & _ & _); (split; [eexists|]; vm_compute; reflexivity).
Qed.

Lemma connections_accepted_in_order_witness :
  exists s1 s2, enqueue_all [client_example] listener_example sock_example = Some s1 /\
    accept_all 1 listener_example 0 s1 = Some s2 /\ pair_of client_example (next_addr (ns sock_example)) s2.
Proof.
  destruct (connections_accepted_in_order listener_example 0 [client_example] sock_example) as (s1 & s2 & H1 & H2 & H3 & _).
  - exact sock_example_listening.
  - apply (bool_decide_unpack _). vm_compute. exact I.
  - intros x ->%list_elem_of_singleton. exists (LocalStreamSocket_new false). vm_compute. reflexivity.
  - exists s1, s2. split; [exact H1|]. split; [exact H2|]. replace (next_addr (ns sock_example)) with (next_addr (ns sock_example) + 32 * Z.of_nat 0) by lia.
    by apply H3.
Defined.

Definition packet_example : SockSys :=
  mkSockSys ns_home
    (<[32 := with_ring (Some new_ring) (with_peer 16 (LocalStreamSocket_new true))]>
       {[16 := with_ring (Some new_ring) (with_peer 32 (LocalStreamSocket_new true))]}) ∅ ∅ [].
Definition packet_ops_example : list packet_op :=
  [PSend true [[1; 2]; [3]]; PSend true [[]]; PRecv true [2]; PRecv true [7]; PRecv true [1]].

Lemma packet_example_pair : packet_pair 16 32 [] (packets_bytes packet_ops_example) packet_example.
Proof.
  destruct new_ring_ok as (Hwf & Hcon & Hidx). split.
  - eexists. split; [reflexivity|]. split; reflexivity.
  - eexists _, new_ring. split; [reflexivity|]. split_and!; try done; try (cbn; lia).
Qed.

Lemma seqpacket_refines_queue_witness :
  (run_packets (packet_run 16 32) packet_example packet_ops_example).1 =
  [PDone 3 [] 0; PDone 0 [] 0; PDone 2 [1; 2] MSG_TRUNC; PDone 0 [] 0; PDone (- EWOULDBLOCK) [] 0].
Proof.
  pose proof (seqpacket_refines_queue 16 32 packet_example packet_ops_example ltac:(lia) ltac:(lia) packet_example_pair) as T.
  assert (packets_fit [] packet_ops_example) as Hfit.
  { vm_compute. split_and!;
    match goal with
    | |- _ \/ _ => right; discriminate
    | |- Forall _ _ => repeat first [apply Forall_nil_2 | apply Forall_cons_2; [discriminate|]]
    | |- True => exact I
    end. }
  specialize (T Hfit). destruct (run_packets (packet_run 16 32) packet_example packet_ops_example) as [rs s'].
  assert ((run_packets packet_queue [] packet_ops_example).1 =
    [PDone 3 [] 0; PDone 0 [] 0; PDone 2 [1; 2] MSG_TRUNC; PDone 0 [] 0; PDone (- EWOULDBLOCK) [] 0]) as Hq by (vm_compute; reflexivity).
  destruct (run_packets packet_queue [] packet_ops_example) as [rs' q]. cbn in Hq |- *. rewrite <- Hq. apply T.
Defined.
