(* ===== verification/SocketCalls.v ===== *)
(** Local datagram sockets (src/kernel/src/userland/socket/local/datagram.cpp)
    and the socket system calls (userland/socket/socket.cpp) over both kinds of
    local sockets. *)
From S2P Require Import Prelude KList RingBuffer FdTable VNode Pipe NameSpace Sockets.
Import Sockets.Stream.

(** ** LocalDatagramSocket *)
Module Datagrams.
Import Sockets.Dgram.

Section DatagramOps.
(** The fuel of path resolution. *)
Context (fuel : nat).

Definition dgram_poll (v events : Z) (s : SockSys) : option Z :=
  d ← dgrams s !! v;
  let writable :=
    match dgrams s !! connected d with
    | Some t => negb (is_full RING_SIZE (ring_buffer t))
    | None => false
    end in
  Some (Z.lor (if has events POLLIN && negb (is_empty (ring_buffer d)) then POLLIN else 0)
              (if has events POLLOUT && writable then POLLOUT else 0)).

Definition TIOCOUTQ : Z := 21521.
Definition dgram_ioctl (v cmd : Z) (s : SockSys) : option (Z * option Z) :=
  d ← dgrams s !! v;
  Some (if cmd =? FIONREAD then
          match RingBuffer_peek RING_SIZE (ring_buffer d) with
          | (_, p :: _) => (0, Some (i32 (length p)))
          | (_, []) => (0, Some 0)
          end
        else if cmd =? TIOCOUTQ then (- EINVAL, None)
        else (VNode_ioctl cmd, None)).

Definition with_ring (r : RingBuffer Datagram) (d : LocalDatagramSocket) : LocalDatagramSocket :=
  mkDgram r (connected d) (address d).
Definition with_connected (c : Z) (d : LocalDatagramSocket) : LocalDatagramSocket :=
  mkDgram (ring_buffer d) c (address d).
Definition with_address (a : sockaddr_un) (d : LocalDatagramSocket) : LocalDatagramSocket :=
  mkDgram (ring_buffer d) (connected d) a.

Definition dgram_bind (v : Z) (addr : sockaddr_un) (s : SockSys) : option (Z * SockSys) :=
  '(r, s1) ← bind_entry fuel v addr s;
  Some (r, if r =? 0 then upd_dgram v (with_address (copy_address addr)) s1 else s1).

(** The datagram socket an address names: an error, or its vnode. *)
Definition dgram_target (addr : sockaddr_un) (s : SockSys) : option ((Z + Z) * SockSys) :=
  if negb (sun_family addr =? AF_LOCAL) then Some (inl (- EAFNOSUPPORT), s)
  else
    '(r, s1) ← target_of fuel addr s;
    Some (match r with
          | inl err => inl err
          | inr t => if bool_decide (is_Some (dgrams s1 !! t)) then inr t else inl (- EPROTOTYPE)
          end, s1).

Definition dgram_connect (v : Z) (addr : sockaddr_un) (s : SockSys) : option (Z * SockSys) :=
  '(r, s1) ← dgram_target addr s;
  Some (match r with
        | inl err => (err, s1)
        | inr t => (0, upd_dgram v (with_connected t) s1)
        end).

Definition dgram_recv_attempt (v : Z) (nonblock : bool) (iovs : list Z) (s : SockSys) : attempt SockSys RecvResult :=
  match dgrams s !! v with
  | None => Crash
  | Some d =>
      if is_empty (ring_buffer d) then
        if nonblock then Return (mkRecv (- EWOULDBLOCK) [] 0 (Some (0, []))) s else Block s
      else
        match RingBuffer_read RING_SIZE (ring_buffer d) 1 with
        | (_, p :: _, rb) =>
            let (t, out) := recv_iovs p 0 iovs in
            Return (mkRecv t out (if t <? length p then MSG_TRUNC else 0) (Some (0, [])))
              (trigger_socket (from p) false (upd_dgram v (with_ring rb) s))
        | (_, [], _) => Crash
        end
  end.
Definition dgram_recvmsg (v : Z) (nonblock : bool) (iovs : list Z) : proc SockSys RecvResult :=
  blocking (dgram_recv_attempt v nonblock iovs) (mkRecv (- EINTR) [] 0 (Some (0, []))).

(** The target of [sendmsg]: the connected socket, or the one named. *)
Definition send_target (v namelen : Z) (name : sockaddr_un) (s : SockSys) : option ((Z + Z) * SockSys) :=
  d ← dgrams s !! v;
  if negb (connected d =? 0) then Some (inr (connected d), s)
  else if namelen =? 0 then Some (inl (- EDESTADDRREQ), s)
  else dgram_target name s.

Definition dgram_send_attempt (v target : Z) (nonblock : bool) (iovs : list (list Z)) (s : SockSys)
    : attempt SockSys Z :=
  match dgrams s !! target with
  | None => Crash
  | Some t =>
      if is_full RING_SIZE (ring_buffer t) then
        if nonblock then Return (- EWOULDBLOCK) s else Block s
      else
        match construct v iovs with
        | None => Crash
        | Some p =>
            let (n, rb) := RingBuffer_write RING_SIZE (ring_buffer t) [p] 1 in
            if negb (n =? 1) then Crash
            else Return (Z.of_nat (List.length (concat iovs)))
                   (trigger_socket target false (upd_dgram target (with_ring rb) s))
        end
  end.
Definition dgram_sendmsg (v : Z) (nonblock : bool) (namelen : Z) (name : sockaddr_un) (iovs : list (list Z))
    : proc SockSys Z :=
  r ← act (send_target v namelen name);
  match r with
  | inl err => mret err
  | inr t => blocking (dgram_send_attempt v t nonblock iovs) (- EINTR)
  end.

Definition dgram_getsockname (v n : Z) (s : SockSys) : option (list Z * Z) :=
  d ← dgrams s !! v; Some (address_bytes (address d) n, get_local_addr_length (address d)).
Definition dgram_getpeername (v n : Z) (s : SockSys) : option (list Z * Z) :=
  d ← dgrams s !! v;
  p ← dgrams s !! connected d;
  Some (address_bytes (address p) n, get_local_addr_length (address p)).

End DatagramOps.

(** *** A receiver is a queue of datagrams *)

Definition bytes_ok (p : Datagram) : Prop :=
  length p = Z.of_nat (List.length (bytes p)) /\ length p < 4294967296.

Lemma recv_iovs_dgram p t0 iovs :
  bytes_ok p -> 0 <= t0 <= length p -> Forall (fun n => 0 <= n) iovs ->
  let (t, out) := recv_iovs p t0 iovs in
  t = t0 + Z.min (total_length iovs) (length p - t0) /\
  concat out = take (Z.to_nat (total_length iovs)) (drop (Z.to_nat t0) (bytes p)).
Proof.
  intros [Hl Hlt] Ht0 Hf. revert t0 Ht0. induction Hf as [|len iovs Hlen Hf IH]; intros t0 Ht0; cbn [recv_iovs total_length foldr].
  { rewrite Z.min_l by lia. split; [lia|]. by rewrite take_0. }
  fold (total_length iovs). pose proof (total_nonneg _ Hf).
  destruct (Z.eqb_spec len 0) as [->|Hne].
  { specialize (IH t0 Ht0). destruct (recv_iovs p t0 iovs). by rewrite Z.add_0_l. }
  rewrite u64_small by lia. set (count := Z.min (length p - t0) len).
  assert (Hsub : sub (bytes p) t0 count = take (Z.to_nat len) (drop (Z.to_nat t0) (bytes p))).
  { unfold sub. destruct (decide (len <= length p - t0)); [by replace count with len by lia|].
    rewrite !take_ge by (rewrite length_drop; lia). done. }
  destruct (Z.ltb_spec count len).
  - split; [lia|]. cbn [concat]. rewrite app_nil_r, Hsub, !take_ge by (rewrite length_drop; lia). done.
  - specialize (IH (t0 + count) ltac:(lia)). destruct (recv_iovs p (t0 + count) iovs) as [t out]. destruct IH as [-> Hout].
    split; [lia|]. cbn [concat]. rewrite Hout, Hsub, take_split, drop_split by lia.
    replace count with len by lia. done.
Qed.

(** What a receive of [iovs] gets of a datagram. *)
Definition cut (iovs : list Z) (p : Datagram) : Z * list Z * Z :=
  (Z.min (total_length iovs) (length p), take (Z.to_nat (total_length iovs)) (bytes p),
   if total_length iovs <? length p then MSG_TRUNC else 0).

(** The sockets with, for each of them, the datagrams sent to it, and its
    receives in order: the buffers' lengths and what was returned. *)
Record DgramTrace : Type := mkDTrace {
  dt_sys : SockSys;
  dt_sent : Z -> list Datagram;
  dt_received : Z -> list (list Z * (Z * list Z * Z))
}.
Inductive dgram_op : Type :=
| DSend (v target : Z) (nonblock : bool) (iovs : list (list Z))
| DRecv (v : Z) (nonblock : bool) (iovs : list Z).

Definition push_at {T} (v : Z) (x : T) (f : Z -> list T) : Z -> list T :=
  fun y => if decide (y = v) then f y ++ [x] else f y.

Definition dgram_step (op : dgram_op) (t : DgramTrace) : DgramTrace :=
  match op with
  | DSend v w nb iovs =>
      match dgram_send_attempt v w nb iovs (dt_sys t) with
      | Return n s' =>
          if n <? 0 then t
          else mkDTrace s' (push_at w (mkDatagram v (Z.of_nat (List.length (concat iovs))) (concat iovs)) (dt_sent t)) (dt_received t)
      | _ => t
      end
  | DRecv v nb iovs =>
      match dgram_recv_attempt v nb iovs (dt_sys t) with
      | Return r s' =>
          if rr_ret r <? 0 then t
          else mkDTrace s' (dt_sent t)
                 (push_at v (iovs, (rr_ret r, concat (rr_buffers r), rr_flags r)) (dt_received t))
      | _ => t
      end
  end.
Definition dgram_op_ok (op : dgram_op) : Prop :=
  match op with DRecv _ _ iovs => Forall (fun n => 0 <= n) iovs | _ => True end.

Definition dgram_inv (t : DgramTrace) : Prop := forall x d, dgrams (dt_sys t) !! x = Some d ->
  ring_wf RING_SIZE (ring_buffer d) /\ Forall bytes_ok (contents RING_SIZE (ring_buffer d)) /\
  exists taken, dt_sent t x = taken ++ contents RING_SIZE (ring_buffer d) /\
    dt_received t x = zip (fst <$> dt_received t x) (zip_with cut (fst <$> dt_received t x) taken) /\
    List.length taken = List.length (dt_received t x).

Lemma dgram_ring_wraps (rb : RingBuffer Datagram) n : no_wrap RING_SIZE rb n.
Proof. left. by exists 72057594037927936. Qed.

Lemma dgrams_upd x v f (s : SockSys) d :
  dgrams (upd_dgram v f s) !! x = Some d ->
  (x = v /\ exists d0, dgrams s !! v = Some d0 /\ d = f d0) \/ (x <> v /\ dgrams s !! x = Some d).
Proof.
  unfold upd_dgram. cbn. destruct (decide (x = v)) as [->|Hne].
  - rewrite lookup_alter_eq. destruct (dgrams s !! v) as [d0|]; [|done]. cbn. intros [= <-]. left. eauto.
  - rewrite lookup_alter_ne by done. auto.
Qed.

Lemma dgram_send_inv v w nb iovs t : dgram_inv t -> dgram_inv (dgram_step (DSend v w nb iovs) t).
Proof.
  intros Hinv. cbn [dgram_step]. unfold dgram_send_attempt.
  destruct (dgrams (dt_sys t) !! w) as [d|] eqn:Ew; [|done]. destruct (Hinv w d Ew) as (Hwf & Hok & taken & Hs & Hr & Hlen).
  pose proof (ring_full_spec RING_SIZE (ring_buffer d) Hwf) as Hfull. pose proof (contents_length _ _ Hwf) as Hl.
  destruct (is_full RING_SIZE (ring_buffer d)); [by destruct nb|]. symmetry in Hfull. apply Z.eqb_neq in Hfull.
  unfold construct. set (n := Z.of_nat (List.length (concat iovs))).
  pose proof (u32_range n). destruct (Z.ltb_spec (u32 n) n); [done|].
  assert (u32 n = n /\ n < 4294967296) as [Hn Hn'].
  { assert (u32 n <= n) by (unfold uN; apply Z.mod_le; lia). lia. }
  rewrite Hn. set (p := mkDatagram v n (concat iovs)).
  pose proof (RingBuffer_write_spec RING_SIZE (ring_buffer d) [p] 1 Hwf ltac:(cbn; lia) (dgram_ring_wraps _ _)) as Hw.
  destruct (RingBuffer_write RING_SIZE (ring_buffer d) [p] 1) as [c rb]. destruct Hw as (Hc & Hwf' & Hcon & _).
  pose proof (wf_count _ _ Hwf). rewrite Z.min_l in Hc by lia. subst c. cbn [negb Z.eqb Pos.eqb].
  destruct (Z.ltb_spec n 0); [lia|]. intros x e He. cbn [dt_sys dt_sent dt_received] in *. unfold push_at.
  change (dgrams (trigger_socket _ _ ?s)) with (dgrams s) in He.
  apply dgrams_upd in He as [(-> & d0 & Hd0 & ->)|[Hne He]].
  - rewrite Ew in Hd0. injection Hd0 as <-. rewrite decide_True by done. cbn [with_ring ring_buffer]. split; [done|].
    rewrite Hcon. change (take (Z.to_nat 1) [p]) with [p]. split.
    + apply Forall_app. split; [done|]. apply Forall_cons_2; [|apply Forall_nil_2]. split; cbn; [done|lia].
    + exists taken. rewrite Hs, <- app_assoc. done.
  - rewrite decide_False by done. by apply Hinv.
Qed.

Lemma dgram_recv_inv v nb iovs t :
  Forall (fun n => 0 <= n) iovs -> dgram_inv t -> dgram_inv (dgram_step (DRecv v nb iovs) t).
Proof.
  intros Hf Hinv. cbn [dgram_step]. unfold dgram_recv_attempt.
  destruct (dgrams (dt_sys t) !! v) as [d|] eqn:Ev; [|done]. destruct (Hinv v d Ev) as (Hwf & Hok & taken & Hs & Hr & Hlen).
  pose proof (ring_empty_spec RING_SIZE (ring_buffer d) Hwf) as He.
  destruct (is_empty (ring_buffer d)); [by destruct nb|]. symmetry in He. apply bool_decide_eq_false in He.
  pose proof (RingBuffer_read_spec RING_SIZE (ring_buffer d) 1 Hwf ltac:(lia)) as Hrd.
  destruct (RingBuffer_read RING_SIZE (ring_buffer d) 1) as [[c out] rb]. destruct Hrd as (_ & Hout & Hwf' & Hcon).
  destruct (contents RING_SIZE (ring_buffer d)) as [|p q] eqn:Eq; [done|]. change (Z.to_nat 1) with 1%nat in *. cbn in Hout, Hcon.
  rewrite Hout. apply Forall_cons in Hok as [Hp Hq].
  pose proof (recv_iovs_dgram p 0 iovs Hp ltac:(destruct Hp; lia) Hf) as Hri.
  destruct (recv_iovs p 0 iovs) as [n bufs]. rewrite Z.sub_0_r, Z.add_0_l in Hri. destruct Hri as [Hn Hb]. rewrite drop_0 in Hb.
  cbn [rr_ret rr_buffers rr_flags]. pose proof (total_nonneg _ Hf) as Ht. destruct Hp as [Hp Hp'].
  destruct (Z.ltb_spec n 0); [lia|]. intros x e Hx. cbn [dt_sys dt_sent dt_received] in *. unfold push_at.
  change (dgrams (trigger_socket _ _ ?s)) with (dgrams s) in Hx.
  apply dgrams_upd in Hx as [(-> & d0 & Hd0 & ->)|[Hne Hx]].
  - rewrite Ev in Hd0. injection Hd0 as <-. rewrite decide_True by done. cbn [with_ring ring_buffer]. rewrite Hcon.
    split; [done|]. split; [done|]. exists (taken ++ [p]). rewrite <- app_assoc. split; [done|].
    rewrite fmap_app, length_app, length_app, Hlen. cbn [fmap list_fmap fst]. split; [|done].
    rewrite zip_with_app by (rewrite length_fmap; lia). rewrite zip_with_app by (rewrite length_zip_with, length_fmap; lia).
    rewrite <- Hr. f_equal. cbn. unfold cut. rewrite Hn, Hb. do 3 f_equal.
    destruct (Z.ltb_spec (total_length iovs) (length p)), (Z.ltb_spec (Z.min (total_length iovs) (length p)) (length p)); done || lia.
  - rewrite decide_False by done. by apply Hinv.
Qed.

Definition fresh_dgrams (s : SockSys) : Prop := forall x d, dgrams s !! x = Some d ->
  ring_wf RING_SIZE (ring_buffer d) /\ contents RING_SIZE (ring_buffer d) = [].

(** Datagrams are received whole or cut, once, in the order in which they were
    sent: through any interleaving of sends and receives, what the receives of
    a socket returned is what its first datagrams give the buffers of these
    receives, and the datagrams after those wait in its ring, at most 256. *)
Theorem datagrams_in_order s ops :
  fresh_dgrams s -> Forall dgram_op_ok ops ->
  let t := fold_left (fun t op => dgram_step op t) ops (mkDTrace s (fun _ => []) (fun _ => [])) in
  forall x d, dgrams (dt_sys t) !! x = Some d -> exists taken,
    dt_sent t x = taken ++ contents RING_SIZE (ring_buffer d) /\
    (snd <$> dt_received t x) = zip_with cut (fst <$> dt_received t x) taken /\
    List.length taken = List.length (dt_received t x) /\
    Z.of_nat (List.length (contents RING_SIZE (ring_buffer d))) <= RING_SIZE.
Proof.
  intros Hfr Hok t x d Hx.
  assert (dgram_inv t) as Hinv.
  { unfold t. assert (dgram_inv (mkDTrace s (fun _ => []) (fun _ => []))) as H0.
    { intros y e Hy. cbn in *. destruct (Hfr y e Hy) as [Hwf Hc]. rewrite Hc. split; [done|]. split; [done|]. by exists []. }
    revert H0. generalize (mkDTrace s (fun _ => []) (fun _ => [])). clear -Hok. induction Hok as [|op ops Hop Hops IH]; intros t0 H0; [done|].
    cbn [fold_left]. apply IH. destruct op; [by apply dgram_send_inv|by apply dgram_recv_inv]. }
  destruct (Hinv x d Hx) as (Hwf & _ & taken & Hs & Hr & Hlen). exists taken. split; [done|]. split; [|split; [done|]].
  - rewrite Hr at 1. rewrite snd_zip; [done|]. rewrite length_zip_with, length_fmap. lia.
  - rewrite contents_length by done. apply Hwf.
Qed.
End Datagrams.

(** ** The system calls *)
Module Calls.
Import Datagrams.

(** The classes of sockets with a state here; an address that is neither is a
    socket of another family, whose calls are not given ([None]). *)
Inductive SocketClass : Type := LocalStream (seqpacket : bool) | LocalDatagram.

Definition class_of (v : Z) (s : SockSys) : option SocketClass :=
  match streams s !! v with
  | Some st => Some (LocalStream (is_seqpacket st))
  | None => match dgrams s !! v with Some _ => Some LocalDatagram | None => None end
  end.
Definition socket_type (c : SocketClass) : Z :=
  match c with LocalStream b => if b then SOCK_SEQPACKET else SOCK_STREAM | LocalDatagram => SOCK_DGRAM end.

Definition type_flags : Z := Z.lor SOCK_CLOEXEC SOCK_NONBLOCK.

(** The UDP socket made for [AF_INET] has no state here beyond its vnode. *)
Definition syscall_socket (family type : Z) (s : SockSys) : Z * SockSys :=
  let fl := Z.land type type_flags in
  let type := Z.ldiff type fl in
  if (family =? AF_LOCAL) && (type =? SOCK_STREAM) then
    let (v, s1) := new_stream false s in create_socket_fd v fl s1
  else if (family =? AF_LOCAL) && (type =? SOCK_DGRAM) then
    let (v, s1) := new_dgram s in create_socket_fd v fl s1
  else if (family =? AF_LOCAL) && (type =? SOCK_SEQPACKET) then
    let (v, s1) := new_stream true s in create_socket_fd v fl s1
  else if (family =? AF_INET) && (type =? SOCK_STREAM) then (- EAFNOSUPPORT, s)
  else if (family =? AF_INET) && (type =? SOCK_DGRAM) then
    let (v, s1) := new_vnode s in create_socket_fd v fl s1
  else (- EAFNOSUPPORT, s).

Section Syscalls.
Context (fuel : nat) (pid : Z).

(** The result and the two descriptors stored. *)
Definition syscall_socketpair (family type : Z) (s : SockSys) : Z * option (Z * Z) * SockSys :=
  let fl := Z.land type type_flags in
  let type := Z.ldiff type fl in
  if negb (family =? AF_LOCAL) then (- EAFNOSUPPORT, None, s)
  else if (type =? SOCK_STREAM) || (type =? SOCK_SEQPACKET) then
    let cred := my_credentials pid s in
    let (v1, s1) := new_stream (type =? SOCK_SEQPACKET) s in
    let (v2, s2) := new_stream (type =? SOCK_SEQPACKET) s1 in
    let s3 := upd_stream v1 (fun st => with_credentials cred (with_peer v2 (Stream.with_ring (Some new_ring) st))) s2 in
    let s4 := upd_stream v2 (fun st => with_credentials cred (with_peer v1 (Stream.with_ring (Some new_ring) st))) s3 in
    let (fd0, s5) := create_socket_fd v1 fl s4 in
    let (fd1, s6) := create_socket_fd v2 fl s5 in
    (0, Some (fd0, fd1), s6)
  else if type =? SOCK_DGRAM then
    let (v1, s1) := new_dgram s in
    let (v2, s2) := new_dgram s1 in
    let s3 := upd_dgram v2 (with_connected v1) (upd_dgram v1 (with_connected v2) s2) in
    let (fd0, s5) := create_socket_fd v1 fl s3 in
    let (fd1, s6) := create_socket_fd v2 fl s5 in
    (0, Some (fd0, fd1), s6)
  else (- EINVAL, None, s).

(** [get_socket]: an error, or the vnode, the flags of the description and
    the class. *)
Definition get_socket (fd : Z) (s : SockSys) : option (Z + Z * Z * SocketClass) :=
  match lookup_description fd (ns s) with
  | None => Some (inl (- EBADF))
  | Some (_, d) =>
      vn ← vnodes (ns s) !! vnode d;
      if negb (bool_decide (node_type vn = SOCKET)) then Some (inl (- ENOTSOCK))
      else (c ← class_of (vnode d) s; Some (inr (vnode d, flags d, c)))
  end.

(** A call on the socket of a descriptor; [err] makes a result of an error. *)
Definition on_socket {A} (fd : Z) (err : Z -> A) (k : Z -> Z -> SocketClass -> proc SockSys A) : proc SockSys A :=
  r ← act (fun s => r ← get_socket fd s; Some (r, s));
  match r with
  | inl e => mret (err e)
  | inr (v, fl, c) => k v fl c
  end.

Definition syscall_bind (fd : Z) (addr : sockaddr_un) : proc SockSys Z :=
  on_socket fd (fun e => e) (fun v fl c =>
    if negb (sun_family addr =? AF_LOCAL) then mret (- EINVAL)
    else act (match c with LocalStream _ => stream_bind fuel v addr | LocalDatagram => dgram_bind fuel v addr end)).

Definition syscall_connect (fd : Z) (addr : sockaddr_un) : proc SockSys Z :=
  on_socket fd (fun e => e) (fun v fl c =>
    if negb (sun_family addr =? AF_LOCAL) then mret (- EAFNOSUPPORT)
    else match c with LocalStream _ => stream_connect fuel pid v addr | LocalDatagram => act (dgram_connect fuel v addr) end).

Definition syscall_listen (fd backlog : Z) : proc SockSys Z :=
  on_socket fd (fun e => e) (fun v fl c =>
    match c with LocalStream _ => act (stream_listen pid v backlog) | LocalDatagram => mret (- EOPNOTSUPP) end).

Definition syscall_accept4 (fd flags : Z) : proc SockSys (Z * option (Z * list Z)) :=
  on_socket fd (fun e => (e, None)) (fun v fl c =>
    if negb (Z.ldiff flags type_flags =? 0) then mret (- EINVAL, None)
    else match c with
         | LocalStream _ => stream_accept v (has fl O_NONBLOCK) flags
         | LocalDatagram => mret (- EOPNOTSUPP, None)
         end).

Definition syscall_accept (fd : Z) : proc SockSys (Z * option (Z * list Z)) :=
  on_socket fd (fun e => (e, None)) (fun v fl c =>
    match c with
    | LocalStream _ => stream_accept v (has fl O_NONBLOCK) 0
    | LocalDatagram => mret (- EOPNOTSUPP, None)
    end).

Definition recvmsg (v fl flags : Z) (c : SocketClass) (iovs : list Z) (controllen : Z) : proc SockSys RecvResult :=
  match c with
  | LocalStream _ => stream_recvmsg v (nonblocking fl flags) iovs controllen
  | LocalDatagram => dgram_recvmsg v (nonblocking fl flags) iovs
  end.
Definition sendmsg (v fl flags : Z) (c : SocketClass) (namelen : Z) (name : sockaddr_un) (control : list Z)
    (iovs : list (list Z)) : proc SockSys Z :=
  match c with
  | LocalStream _ => stream_sendmsg v (nonblocking fl flags) namelen control iovs
  | LocalDatagram => dgram_sendmsg fuel v (nonblocking fl flags) namelen name iovs
  end.

Definition recv_error (e : Z) : RecvResult := mkRecv e [] 0 None.
Definition syscall_recvmsg (fd flags : Z) (iovs : list Z) (controllen : Z) : proc SockSys RecvResult :=
  on_socket fd recv_error (fun v fl c => recvmsg v fl flags c iovs controllen).
Definition syscall_recvfrom (fd size flags : Z) : proc SockSys RecvResult :=
  on_socket fd recv_error (fun v fl c => recvmsg v fl flags c [size] 0).
Definition syscall_sendmsg (fd flags namelen : Z) (name : sockaddr_un) (control : list Z) (iovs : list (list Z))
    : proc SockSys Z :=
  on_socket fd (fun e => e) (fun v fl c => sendmsg v fl flags c namelen name control iovs).
Definition syscall_sendto (fd : Z) (buf : list Z) (flags namelen : Z) (name : sockaddr_un) : proc SockSys Z :=
  on_socket fd (fun e => e) (fun v fl c => sendmsg v fl flags c namelen name [] [buf]).

(** [Socket::read], [readv], [write] and [writev], on the vnode of a
    description. *)
Definition Socket_readv (v fl : Z) (c : SocketClass) (iovs : list Z) : proc SockSys RecvResult := recvmsg v fl 0 c iovs 0.
Definition Socket_read (v fl : Z) (c : SocketClass) (count : Z) : proc SockSys RecvResult := recvmsg v fl 0 c [count] 0.
Definition Socket_writev (v fl : Z) (c : SocketClass) (iovs : list (list Z)) : proc SockSys Z :=
  sendmsg v fl 0 c 0 (mkUn 0 []) [] iovs.
Definition Socket_write (v fl : Z) (c : SocketClass) (buf : list Z) : proc SockSys Z :=
  sendmsg v fl 0 c 0 (mkUn 0 []) [] [buf].

Definition syscall_shutdown (fd how : Z) : proc SockSys Z :=
  if negb ((how =? 0) || (how =? 1) || (how =? 2)) then mret (- EINVAL)
  else on_socket fd (fun e => e) (fun v fl c => mret (- ENOSYS)).

Definition syscall_getsockopt (fd layer number : Z) : proc SockSys (Z * option (list Z + option ucred)) :=
  on_socket fd (fun e => (e, None)) (fun v fl c =>
    if (layer =? SOL_SOCKET) && (number =? SO_TYPE) then mret (0, Some (inl (le_split 4 (socket_type c))))
    else if (layer =? SOL_SOCKET) && (number =? SO_DOMAIN) then mret (0, Some (inl (le_split 4 AF_LOCAL)))
    else match c with
         | LocalStream _ => act (fun s => r ← stream_getsockopt v layer number s; Some (r, s))
         | LocalDatagram => mret (- ENOPROTOOPT, None)
         end).
Definition syscall_setsockopt (fd layer number value : Z) : proc SockSys Z :=
  on_socket fd (fun e => e) (fun v fl c =>
    match c with
    | LocalStream _ => act (fun s => Some (stream_setsockopt v layer number value s))
    | LocalDatagram => mret (- ENOPROTOOPT)
    end).

(** The result, the bytes stored and the length, for a caller's length of [n]. *)
Definition syscall_getsockname (fd n : Z) : proc SockSys (Z * list Z * Z) :=
  on_socket fd (fun e => (e, [], n)) (fun v fl c =>
    act (fun s => '(bs, len) ← match c with LocalStream _ => stream_getsockname v n s | LocalDatagram => dgram_getsockname v n s end;
                  Some ((0, bs, len), s))).
Definition syscall_getpeername (fd n : Z) : proc SockSys (Z * list Z * Z) :=
  on_socket fd (fun e => (e, [], n)) (fun v fl c =>
    act (fun s => '(bs, len) ← match c with LocalStream _ => stream_getpeername v n s | LocalDatagram => dgram_getpeername v n s end;
                  Some ((0, bs, len), s))).

End Syscalls.

(** [close] of a descriptor: a description destroyed closes its socket. *)
Definition close_vnode (s : option SockSys) (v : Z) : option SockSys :=
  s ← s; if bool_decide (is_Some (streams s !! v)) then stream_close v s else Some s.
Definition socket_close (fd : Z) (s : SockSys) : option (Z * SockSys) :=
  let (r, f) := FdTable.syscall_close fd (ns_fds (ns s)) in
  let gone := drop (List.length (closed (ns_fds (ns s)))) (closed f) in
  s' ← fold_left close_vnode gone (Some (set_ns (set_ns_fds f (desc_entry (ns s)) (ns s)) s));
  Some (r, s').

(** ** A socket pair carries bytes *)

Definition description_flags (fl : Z) : Z := Z.lor O_RDONLY (if has fl SOCK_NONBLOCK then O_NONBLOCK else 0).

Lemma create_socket_fd_spec ext v fl s fd s' :
  let p := next_addr (ns s) in
  fd_inv ext (ns_fds (ns s)) -> is_addr p -> descriptions (ns_fds (ns s)) !! p = None -> ext p = 0 ->
  create_socket_fd v fl s = (fd, s') ->
  fd_inv ext (ns_fds (ns s')) /\ next_addr (ns s') = p + 16 /\ vnodes (ns s') = vnodes (ns s) /\
  streams s' = streams s /\ dgrams s' = dgrams s /\ links s' = links s /\
  descriptions (ns_fds (ns s')) = <[p := mkDescription v 0 (description_flags fl) 1]> (descriptions (ns_fds (ns s))) /\
  lookup_description fd (ns s') = Some (p, mkDescription v 0 (description_flags fl) 1) /\
  (forall fd' r, lookup_description fd' (ns s) = Some r -> r.1 <> p -> fd' <> fd /\ lookup_description fd' (ns s') = Some r).
Proof.
  intros p Hinv Hp Hnone Hext H. unfold create_socket_fd in H. fold p in H. fold (description_flags fl) in H.
  destruct (install_fd p v (description_flags fl) (has fl SOCK_CLOEXEC) (ns_fds (ns s))) as [fd0 f] eqn:Ei. injection H as <- <-.
  pose proof (install_inv _ _ _ _ _ _ _ _ Hinv Hp Hnone Hext Ei) as Hinv'.
  destruct (install_lookup _ _ _ _ _ _ _ _ Hinv Hp Ei) as (Hg & _ & Hd & _ & Hold). cbn.
  split_and!; try done.
  - unfold lookup_description. cbn. rewrite Hg, Hd, lookup_insert_eq. destruct Hp.
    rewrite (proj2 (Z.eqb_neq p 0)) by lia. done.
  - intros fd' [q d] Hl Hq. cbn in Hq. unfold lookup_description in Hl. cbn in Hl.
    destruct (Z.eqb_spec (get_file_description fd' (ns_fds (ns s))) 0) as [|Hne]; [done|].
    destruct (Hold fd' Hne) as [Hfd Hsame]. split; [done|]. unfold lookup_description. cbn. rewrite Hsame, Hd.
    rewrite (proj2 (Z.eqb_neq _ 0)) by done. 
    destruct (descriptions (ns_fds (ns s)) !! get_file_description fd' (ns_fds (ns s))) as [d'|] eqn:E; cbn in Hl; [|done].
    injection Hl as <- <-. by rewrite lookup_insert_ne, E.
Qed.

Lemma ldiff_land a b : Z.ldiff a (Z.land a b) = Z.ldiff a b.
Proof. bitwise. Qed.

(** What a pair of stream sockets made by [socketpair] is: two descriptors of
    two sockets that are each other's peers and have empty rings. *)
Lemma socketpair_spec ext pid type s :
  let a := next_addr (ns s) in
  fd_inv ext (ns_fds (ns s)) -> is_addr (a + 32) -> is_addr (a + 48) -> ext (a + 32) = 0 -> ext (a + 48) = 0 ->
  descriptions (ns_fds (ns s)) !! (a + 32) = None -> descriptions (ns_fds (ns s)) !! (a + 48) = None ->
  Z.ldiff type type_flags = SOCK_STREAM ->
  exists fd0 fd1 s' x y, syscall_socketpair pid AF_LOCAL type s = (0, Some (fd0, fd1), s') /\ fd0 <> fd1 /\
    get_socket fd0 s' = Some (inr (a, description_flags (Z.land type type_flags), LocalStream false)) /\
    get_socket fd1 s' = Some (inr (a + 16, description_flags (Z.land type type_flags), LocalStream false)) /\
    streams s' !! a = Some x /\ streams s' !! (a + 16) = Some y /\ peer x = a + 16 /\ peer y = a /\
    is_seqpacket x = false /\ is_seqpacket y = false /\ ring_buffer x = Some new_ring /\ ring_buffer y = Some new_ring.
Proof.
  intros a Hinv Hp1 Hp2 He1 He2 Hn1 Hn2 Ht. unfold syscall_socketpair. rewrite ldiff_land, Ht. cbn [negb orb Z.eqb Pos.eqb AF_LOCAL SOCK_STREAM SOCK_SEQPACKET].
  unfold new_stream, new_vnode. cbn [ns set_ns set_links set_streams streams links dgrams triggered next_addr set_next set_vnodes vnodes].
  fold a. set (fl := Z.land type type_flags). set (s4 := upd_stream (a + 16) _ _).
  assert (ns_fds (ns s4) = ns_fds (ns s) /\ next_addr (ns s4) = a + 32) as [Hf4 Hx4] by (split; [done|cbn; lia]).
  assert (vnodes (ns s4) !! a = Some socket_vnode /\ vnodes (ns s4) !! (a + 16) = Some socket_vnode) as [Hv1 Hv2].
  { cbn. split; [rewrite lookup_insert_ne by lia; apply lookup_insert_eq|apply lookup_insert_eq]. }
  assert (exists x y, streams s4 !! a = Some x /\ streams s4 !! (a + 16) = Some y /\ peer x = a + 16 /\ peer y = a /\
    is_seqpacket x = false /\ is_seqpacket y = false /\ ring_buffer x = Some new_ring /\ ring_buffer y = Some new_ring) as Hxy.
  { cbn. eexists _, _. split.
    { rewrite lookup_alter_ne, lookup_alter_eq, lookup_insert_ne, lookup_insert_eq by lia. reflexivity. }
    split; [rewrite lookup_alter_eq, lookup_alter_ne, lookup_insert_eq by lia; reflexivity|]. split_and!; reflexivity. }
  destruct (create_socket_fd a fl s4) as [fd0 s5] eqn:E5.
  destruct (create_socket_fd_spec ext a fl s4 fd0 s5) as (Hi5 & Hx5 & Hvn5 & Hs5 & _ & _ & Hd5 & Hl5 & _); rewrite ?Hf4, ?Hx4; try done.
  rewrite Hx4 in *. destruct (create_socket_fd (a + 16) fl s5) as [fd1 s6] eqn:E6.
  destruct (create_socket_fd_spec ext (a + 16) fl s5 fd1 s6) as (Hi6 & Hx6 & Hvn6 & Hs6 & _ & _ & Hd6 & Hl6 & Hold); rewrite ?Hx5, ?Z.add_assoc; try done.
  { replace (a + 32 + 16) with (a + 48) by lia. done. }
  { rewrite Hd5, Hf4, lookup_insert_ne by lia. replace (a + 32 + 16) with (a + 48) by lia. done. }
  { replace (a + 32 + 16) with (a + 48) by lia. done. }
  destruct (Hold _ _ Hl5) as [Hne Hl5']; [cbn; lia|]. destruct Hxy as (x & y & Hx & Hy & H).
  exists fd0, fd1, s6, x, y. split; [done|]. split; [done|].
  assert (streams s6 = streams s4 /\ vnodes (ns s6) = vnodes (ns s4)) as [Hs Hvn] by (split; congruence).
  destruct H as (Hpx & Hpy & Hqx & Hqy & Hrx & Hry).
  unfold get_socket, class_of. rewrite Hl5', Hl6. cbn [vnode flags]. rewrite Hvn, Hs, Hv1, Hv2, Hx, Hy, Hqx, Hqy.
  split_and!; done.
Qed.

Lemma get_socket_same fd s s1 v fl c c' :
  ns s1 = ns s -> get_socket fd s = Some (inr (v, fl, c)) -> class_of v s1 = Some c' ->
  get_socket fd s1 = Some (inr (v, fl, c')).
Proof.
  unfold get_socket. intros -> H Hc. destruct (lookup_description fd (ns s)) as [[q d]|]; [|done].
  destruct (vnodes (ns s) !! vnode d); [|done]. cbn [mbind option_bind] in *. destruct (negb _); [done|].
  destruct (class_of (vnode d) s); [|done]. cbn [mbind option_bind] in H. injection H as Hv Hfl _. by rewrite Hv, Hc, Hfl.
Qed.

(** A socket pair carries bytes: what is sent on the one descriptor is
    received on the other, as much as the ring and the receiver's buffer hold. *)
Theorem socketpair_roundtrip ext fuel pid type s buf count ws :
  let a := next_addr (ns s) in
  fd_inv ext (ns_fds (ns s)) -> is_addr (a + 32) -> is_addr (a + 48) -> ext (a + 32) = 0 -> ext (a + 48) = 0 ->
  descriptions (ns_fds (ns s)) !! (a + 32) = None -> descriptions (ns_fds (ns s)) !! (a + 48) = None ->
  Z.ldiff type type_flags = SOCK_STREAM -> 0 < a ->
  buf <> [] -> Z.of_nat (length buf) < 9223372036854775808 -> 0 <= count ->
  exists fd0 fd1 s' s1 s2 r, syscall_socketpair pid AF_LOCAL type s = (0, Some (fd0, fd1), s') /\
    syscall_sendto fuel fd0 buf 0 0 (mkUn 0 []) s' ws = Done (Z.min (Z.of_nat (length buf)) RING_SIZE) s1 ws /\
    syscall_recvfrom fd1 count 0 s1 ws = Done r s2 ws /\
    rr_ret r = Z.min count (Z.min (Z.of_nat (length buf)) RING_SIZE) /\
    concat (rr_buffers r) = take (Z.to_nat (rr_ret r)) buf.
Proof.
  intros a Hinv Hp1 Hp2 He1 He2 Hn1 Hn2 Ht Ha Hbuf Hlen Hcount.
  destruct (socketpair_spec ext pid type s Hinv Hp1 Hp2 He1 He2 Hn1 Hn2 Ht)
    as (fd0 & fd1 & s' & x & y & Hsp & Hne & Hg0 & Hg1 & Hx & Hy & Hpx & Hpy & Hqx & Hqy & Hrx & Hry). fold a in Hg0, Hg1, Hx, Hy, Hpx, Hpy.
  destruct new_ring_ok as (Hwf & Hcon & Hidx). pose proof (contents_length _ _ Hwf) as Hl. rewrite Hcon in Hl. cbn in Hl.
  pose proof (send_iovs_spec [buf] 0 new_ring Hwf) as Hs. cbn [concat] in Hs. rewrite app_nil_r in Hs. specialize (Hs ltac:(lia)).
  set (fl := description_flags _) in *.
  destruct (send_iovs 0 [buf] new_ring) as [n rb1] eqn:Esend. cbn zeta in Hs. rewrite Hcon, app_nil_l in Hs.
  destruct Hs as (Hn & Hwf1 & _ & _ & Hcon1). rewrite <- Hl, Z.sub_0_r in *. rewrite Z.add_0_l in Hn.
  assert (0 < Z.of_nat (length buf)) by (destruct buf; [done|cbn; lia]).
  pose (s1 := trigger_socket (a + 16) true (upd_stream (a + 16) (Stream.with_ring (Some rb1)) s')).
  assert (Hsend : syscall_sendto fuel fd0 buf 0 0 (mkUn 0 []) s' ws = Done n s1 ws).
  { unfold syscall_sendto, on_socket. rewrite bind_run. unfold act at 1. rewrite Hg0. cbn [mbind option_bind sendmsg].
    unfold stream_sendmsg. rewrite bind_run. unfold act, send_begin. cbn [length negb Z.eqb].
    change (Z.of_nat 0 <? sizeof_cmsghdr) with true. cbn [mbind option_bind]. rewrite Hx. cbn [mbind option_bind]. rewrite Hpx, Hy. cbn [mbind option_bind]. rewrite Hry.
    rewrite (proj2 (Z.eqb_neq (a + 16) 0)) by lia. rewrite bool_decide_eq_false_2 by done. cbn [orb Z.ltb Z.compare].
    unfold blocking. apply run_blocking_now. unfold send_attempt. rewrite Hx, Hpx.
    rewrite (proj2 (Z.eqb_neq (a + 16) 0)) by lia. rewrite Hy. cbn [mbind option_bind]. rewrite Hry.
    unfold is_full. rewrite <- Hl. cbn [Z.eqb]. rewrite Hqx. unfold send_transfer. rewrite Esend. reflexivity. }
  assert (Hy1 : streams s1 !! (a + 16) = Some (Stream.with_ring (Some rb1) y)).
  { unfold s1. cbn. by rewrite lookup_alter_eq, Hy. }
  assert (Hg1' : get_socket fd1 s1 = Some (inr (a + 16, fl, LocalStream false))).
  { apply (get_socket_same fd1 s' s1 _ _ (LocalStream false)); [done|done|]. unfold class_of. rewrite Hy1. cbn. by rewrite Hqy. }
  pose proof (data_count_nonneg rb1) as Hd1. pose proof (contents_length _ _ Hwf1) as Hl1. rewrite Hcon1, length_take in Hl1.
  pose proof (recv_iovs_spec false 0 [count] 0 rb1 Hwf1 ltac:(by repeat constructor) ltac:(cbn; lia)) as Hr.
  destruct (recv_iovs false 0 0 [count] rb1) as [[m out] rb2] eqn:Erecv. cbn zeta in Hr. cbn [total_length foldr] in Hr. rewrite Z.add_0_r, Z.add_0_l in Hr.
  destruct Hr as (Hm & _ & _ & Hout & _).
  exists fd0, fd1, s', s1, (trigger_socket a true (upd_stream (a + 16) (Stream.with_ring (Some rb2)) s1)), (mkRecv m out 0 None).
  split; [done|]. split; [rewrite Hsend; f_equal; done|]. unfold RING_SIZE in *.
  split; [|cbn [rr_ret rr_buffers]; split; [lia|rewrite Hout, Hcon1, take_take; f_equal; lia]].
  unfold syscall_recvfrom, on_socket. rewrite bind_run. unfold act at 1. rewrite Hg1'. cbn [mbind option_bind recvmsg].
  unfold stream_recvmsg. rewrite bind_run. unfold act, recv_begin. rewrite Hy1. cbn [mbind option_bind Z.ltb Z.compare].
  rewrite bind_run. unfold get_state. cbn [fst snd]. unfold connected. rewrite Hy1. cbn [peer ring_buffer Stream.with_ring]. rewrite Hpy.
  rewrite (proj2 (Z.eqb_neq a 0)) by lia. rewrite bool_decide_eq_true_2 by done. cbn [negb andb].
  unfold blocking. apply run_blocking_now. unfold recv_attempt. rewrite Hy1. cbn [ring_buffer peer is_seqpacket Stream.with_ring].
  unfold is_empty. rewrite (proj2 (Z.eqb_neq _ 0)) by lia. unfold recv_transfer. rewrite Hqy, Erecv, Hpy.
  rewrite (proj2 (Z.eqb_neq a 0)) by lia. done.
Qed.

(** ** Examples *)
Definition pair_example : SockSys := mkSockSys (set_ns_fds fd_example ∅ (set_next 4096 ns_home)) ∅ ∅ ∅ [].

Lemma socketpair_roundtrip_witness :
  exists fd0 fd1 s' s1 s2 r, syscall_socketpair 7 AF_LOCAL 526337 pair_example = (0, Some (fd0, fd1), s') /\
    syscall_sendto 20 fd0 [104; 101; 121] 0 0 (mkUn 0 []) s' [] = Done 3 s1 [] /\
    syscall_recvfrom fd1 2 0 s1 [] = Done r s2 [] /\ rr_ret r = 2 /\ concat (rr_buffers r) = [104; 101].
Proof.
  destruct (socketpair_roundtrip (fun _ => 0) 20 7 526337 pair_example [104; 101; 121] 2 [])
    as (fd0 & fd1 & s' & s1 & s2 & r & H1 & H2 & H3 & H4 & H5).
  - exact fd_example_inv.
  - split; reflexivity.
  - split; reflexivity.
  - reflexivity.
  - reflexivity.
  - reflexivity.
  - reflexivity.
  - reflexivity.
  - reflexivity.
  - discriminate.
  - reflexivity.
  - discriminate.
  - change (rr_ret r = 2) in H4. rewrite H4 in H5. exists fd0, fd1, s', s1, s2, r.
    split; [exact H1|]. split; [exact H2|]. split; [exact H3|]. split; [exact H4|exact H5].
Defined.

Definition dgrams_example : SockSys :=
  mkSockSys ns_home ∅ (<[2048 := Dgram.LocalDatagramSocket_new]> {[2064 := Dgram.LocalDatagramSocket_new]}) ∅ [].
Definition dgram_ops_example : list dgram_op :=
  [DSend 2064 2048 true [[1; 2]; [3]]; DSend 2048 2048 true [[4]]; DRecv 2048 true [2]; DRecv 2048 true [5; 5]; DRecv 2064 true [1]].

Lemma dgrams_example_fresh : fresh_dgrams dgrams_example.
Proof.
  intros x d Hx. assert (d = Dgram.LocalDatagramSocket_new) as ->.
  { unfold dgrams_example in Hx. cbn [dgrams] in Hx. destruct (decide (x = 2048)) as [->|Hne].
    - rewrite lookup_insert_eq in Hx. by injection Hx.
    - rewrite lookup_insert_ne in Hx by done. by apply lookup_singleton_Some in Hx as [_ <-]. }
  apply (ring_init_wf Dgram.RING_SIZE (replicate (Z.to_nat Dgram.RING_SIZE) (Dgram.mkDatagram 0 0 []))); [|reflexivity].
  unfold Dgram.RING_SIZE. lia.
Qed.

Lemma datagrams_in_order_witness :
  let t := fold_left (fun t op => dgram_step op t) dgram_ops_example (mkDTrace dgrams_example (fun _ => []) (fun _ => [])) in
  (snd <$> dt_received t 2048) = [(2, [1; 2], MSG_TRUNC); (1, [4], 0)].
Proof.
  intros t. assert (exists d, dgrams (dt_sys t) !! 2048 = Some d) as [d Hd].
  { eexists. vm_compute. reflexivity. }
  destruct (datagrams_in_order dgrams_example dgram_ops_example dgrams_example_fresh) with (x := 2048) (d := d)
    as (taken & Hs & Hr & Hlen & _); [repeat constructor; cbn; lia|exact Hd|].
  assert (dt_sent t 2048 = [Dgram.mkDatagram 2064 3 [1; 2; 3]; Dgram.mkDatagram 2048 1 [4]]) as Hsent by (vm_compute; reflexivity).
  assert ((fst <$> dt_received t 2048) = [[2]; [5; 5]]) as Hfst by (vm_compute; reflexivity).
  fold t in Hs, Hr, Hlen. rewrite Hr, Hfst. rewrite Hsent in Hs.
  assert (length taken = 2%nat) as H2 by (rewrite Hlen, <- (length_fmap fst), Hfst; reflexivity).
  destruct taken as [|p1 [|p2 [|]]]; try discriminate H2. injection Hs as <- <- _. reflexivity.
Defined.

End Calls.
