(* ===== verification/Net.v ===== *)
(** The internet side of the kernel: checksums, ARP, routing and IPv4
    (src/kernel/src/dev/net.cpp) and UDP sockets (userland/socket/udp.cpp).

    A packet is the list of its bytes.  A received header is read from the
    memory that starts there, whose end the code does not know: reading past
    it is [None].  Coroutines run to their end but for the wait for an answer. *)
From S2P Require Import Prelude KList RingBuffer FdTable Sockets SocketCalls.
Import Sockets.Stream.

Definition EHOSTUNREACH : Z := 113.
Definition ENETUNREACH : Z := 101.

(** ** Big-endian fields *)
Definition bswap16 (x : Z) : Z := u16 (Z.lor (Z.shiftr x 8) (Z.shiftl x 8)).
Definition be16 (v : Z) : list Z := [v / 256 mod 256; v mod 256].
Definition be32 (v : Z) : list Z := [v / 16777216 mod 256; v / 65536 mod 256; v / 256 mod 256; v mod 256].
Definition be16_at (bs : list Z) (off : nat) : option Z :=
  a ← bs !! off; b ← bs !! S off; Some (a * 256 + b).
Definition be32_at (bs : list Z) (off : nat) : option Z :=
  a ← be16_at bs off; b ← be16_at bs (S (S off)); Some (a * 65536 + b).

(** [Ipv4(a0, a1, a2, a3)] *)
Definition be_ip (a0 a1 a2 a3 : Z) : Z := ((a0 * 256 + a1) * 256 + a2) * 256 + a3.

(** ** Checksums *)

(** The 16-bit words are added as the processor reads them. *)
Fixpoint partial_checksum (bs : list Z) : Z :=
  match bs with
  | a :: b :: r => a + 256 * b + partial_checksum r
  | [a] => a
  | [] => 0
  end.

(** [while (sum >> 16)]: three turns bring any [int] below 2^16. *)
Fixpoint fold_carries (turns : nat) (sum : Z) : option Z :=
  if sum / 65536 =? 0 then Some sum
  else match turns with O => None | S turns => fold_carries turns (sum mod 65536 + sum / 65536) end.

(** The sum is an [int]; one that leaves its range is [None]. *)
Definition finish_checksum (sum : Z) : option Z :=
  if INT_MAX <? sum then None else (s ← fold_carries 3 sum; Some (bswap16 (65535 - s))).

Definition compute_header_checksum (header : list Z) : option Z := finish_checksum (partial_checksum header).

Definition pseudo_header (src dst protocol count : Z) : list Z :=
  be32 src ++ be32 dst ++ [0; protocol] ++ be16 (u16 count).
Definition ipv4_transport_checksum (bs : list Z) (src dst protocol : Z) : option Z :=
  finish_checksum (partial_checksum (pseudo_header src dst protocol (Z.of_nat (length bs))) + partial_checksum bs).

(** ** UDP sockets *)
Record UDatagram : Type := mkUDatagram { src_addr : Z; src_port : Z; u_data : list Z }.

Record UdpSocket : Type := mkUdp {
  udp_ring : RingBuffer UDatagram;
  bound_ip : Z;
  bound_port : Z;
  connected_ip : Z;
  connected_port : Z;
  has_port : bool;
  is_connected : bool
}.
Definition UDP_RING : Z := 256.
Definition UdpSocket_new : UdpSocket :=
  mkUdp (RingBuffer_init (replicate (Z.to_nat UDP_RING) (mkUDatagram 0 0 []))) 0 0 0 0 false false.

(** *** Interfaces, routes and the state of the network *)
Record Interface : Type := mkInterface {
  mac : list Z;
  mtu : Z;
  ipv4 : Z;
  ipv4_packet_id : Z;
  arp_cache : HashTable.HashTable (K:=Z) (V:=list Z)
}.
Record Route : Type := mkRoute { r_interface : Z; destination : Z; netmask : Z; gateway : Z; metric : Z }.
Definition no_route : Route := mkRoute 0 0 0 0 INT_MAX.

(** A packet given to a device: the interface, the target and the protocol of
    the Ethernet header, and the bytes behind it. *)
Record Frame : Type := mkFrame { f_interface : Z; f_mac : list Z; f_proto : Z; f_bytes : list Z }.

(** The port table holds no null pointers: an absent port is free. *)
Record NetSys : Type := mkNet {
  sockets : gmap Z UdpSocket;
  port_table : gmap Z Z;
  interfaces : gmap Z Interface;
  routing_table : list Route;
  sent : list Frame;
  woken : list Z
}.
Definition upd_socket (v : Z) (f : UdpSocket -> UdpSocket) (s : NetSys) : NetSys :=
  mkNet (alter f v (sockets s)) (port_table s) (interfaces s) (routing_table s) (sent s) (woken s).
Definition set_ports (m : gmap Z Z) (s : NetSys) : NetSys :=
  mkNet (sockets s) m (interfaces s) (routing_table s) (sent s) (woken s).
Definition upd_interface (i : Z) (f : Interface -> Interface) (s : NetSys) : NetSys :=
  mkNet (sockets s) (port_table s) (alter f i (interfaces s)) (routing_table s) (sent s) (woken s).
Definition send (f : Frame) (s : NetSys) : NetSys :=
  mkNet (sockets s) (port_table s) (interfaces s) (routing_table s) (sent s ++ [f]) (woken s).
Definition wake_socket (v : Z) (s : NetSys) : NetSys :=
  mkNet (sockets s) (port_table s) (interfaces s) (routing_table s) (sent s) (woken s ++ [v]).

Definition with_ring (r : RingBuffer UDatagram) (u : UdpSocket) : UdpSocket :=
  mkUdp r (bound_ip u) (bound_port u) (connected_ip u) (connected_port u) (has_port u) (is_connected u).
Definition with_bound (ip port : Z) (h : bool) (u : UdpSocket) : UdpSocket :=
  mkUdp (udp_ring u) ip port (connected_ip u) (connected_port u) h (is_connected u).
Definition with_connected (ip port : Z) (u : UdpSocket) : UdpSocket :=
  mkUdp (udp_ring u) (bound_ip u) (bound_port u) ip port (has_port u) true.

(** *** Ports *)
Definition PORT_ALLOC_RANGE_START : Z := 32768.
Definition PORT_ALLOC_RANGE_END : Z := 60999.

Definition is_free (s : NetSys) (p : Z) : bool := bool_decide (port_table s !! p = None).
Definition alloc_port (v chosen : Z) (s : NetSys) : Z * NetSys :=
  let chosen :=
    if chosen =? 0 then
      match List.find (is_free s) (seqZ PORT_ALLOC_RANGE_START (PORT_ALLOC_RANGE_END - PORT_ALLOC_RANGE_START)) with
      | Some p => p
      | None => 0
      end
    else chosen in
  if is_free s chosen then (chosen, set_ports (<[chosen := v]> (port_table s)) s) else (- EADDRINUSE, s).

Definition free_port (v : Z) (s : NetSys) : option NetSys :=
  u ← sockets s !! v;
  if has_port u then
    Some (upd_socket v (fun u => with_bound (bound_ip u) 0 false u) (set_ports (delete (bound_port u) (port_table s)) s))
  else Some s.

Definition udp_bind (v ip port : Z) (s : NetSys) : option (Z * NetSys) :=
  let (ret, s1) := alloc_port v port s in
  if ret <? 0 then Some (ret, s1)
  else
    s2 ← free_port v (upd_socket v (fun u => with_bound ip port (has_port u) u) s1);
    Some (0, upd_socket v (fun u => with_bound (bound_ip u) ret true u) s2).

Definition udp_connect (v ip port : Z) (s : NetSys) : Z * NetSys := (0, upd_socket v (with_connected ip port) s).

Definition udp_poll (v events : Z) (s : NetSys) : option Z :=
  u ← sockets s !! v;
  Some (if has events POLLIN && negb (is_empty (udp_ring u)) then POLLIN else 0).

(** *** Receiving *)
Definition sizeof_UdpHeader : Z := 8.

(** [bs] is the memory from the UDP header on. *)
Definition udp_process (bs : list Z) (src dst protocol : Z) (s : NetSys) : option NetSys :=
  len ← be16_at bs 4;
  if len <? sizeof_UdpHeader then Some s
  else if Z.of_nat (length bs) <? len then None
  else
    cks ← ipv4_transport_checksum (take (Z.to_nat len) bs) src dst protocol;
    if negb (cks =? 0) then Some s
    else
      dst_port ← be16_at bs 2;
      sport ← be16_at bs 0;
      match port_table s !! dst_port with
      | None => Some s
      | Some v =>
          u ← sockets s !! v;
          let d := mkUDatagram src sport (sub bs sizeof_UdpHeader (len - sizeof_UdpHeader)) in
          let rb := if is_full UDP_RING (udp_ring u) then snd (RingBuffer_read UDP_RING (udp_ring u) 1) else udp_ring u in
          Some (wake_socket v (upd_socket v (with_ring (snd (RingBuffer_write UDP_RING rb [d] 1))) s))
      end.

Definition udp_recv_attempt (v : Z) (nonblock : bool) (iovs : list Z) (s : NetSys) : attempt NetSys RecvResult :=
  match sockets s !! v with
  | None => Crash
  | Some u =>
      if is_empty (udp_ring u) then
        if nonblock then Return (mkRecv (- EWOULDBLOCK) [] 0 (Some (0, []))) s else Block s
      else
        match RingBuffer_read UDP_RING (udp_ring u) 1 with
        | (_, d :: _, rb) =>
            let len := Z.of_nat (length (u_data d)) in
            let (t, out) := Dgram.recv_iovs (Dgram.mkDatagram 0 len (u_data d)) 0 iovs in
            Return (mkRecv t out (if t <? len then MSG_TRUNC else 0) (Some (0, []))) (upd_socket v (with_ring rb) s)
        | (_, [], _) => Crash
        end
  end.
Definition udp_recvmsg (v : Z) (nonblock : bool) (iovs : list Z) : proc NetSys RecvResult :=
  blocking (udp_recv_attempt v nonblock iovs) (mkRecv (- EINTR) [] 0 (Some (0, []))).

(** [sockaddr_in] in and out: the bytes stored for a caller's length of [n],
    and the length. *)
Definition sockaddr_in_bytes (ip port n : Z) : list Z * Z :=
  (take (Z.to_nat (Z.min 16 n)) (le_split 2 AF_INET ++ be16 port ++ be32 ip ++ replicate 8 0), 16).
Definition udp_getsockname (v n : Z) (s : NetSys) : option (list Z * Z) :=
  u ← sockets s !! v; Some (sockaddr_in_bytes (bound_ip u) (bound_port u) n).
Definition udp_getpeername (v n : Z) (s : NetSys) : option (Z + list Z * Z) :=
  u ← sockets s !! v;
  Some (if is_connected u then inr (sockaddr_in_bytes (connected_ip u) (connected_port u) n) else inl (- ENOTCONN)).

(** ** ARP and Ethernet *)
Definition BROADCAST_MAC : list Z := [255; 255; 255; 255; 255; 255].
Definition BROADCAST_IPV4 : Z := 4294967295.
Definition PROTOCOL_IPV4 : Z := 2048.
Definition PROTOCOL_ARP : Z := 2054.
Definition OPCODE_REQUEST : Z := 1.
Definition OPCODE_REPLY : Z := 2.
Definition PROTOCOL_TCP : Z := 6.
Definition PROTOCOL_UDP : Z := 17.

Section Hash.
(** [klib::hash] of an address, which places it in the ARP cache: whichever it
    is, the cache answers as a map does (KList.v). *)
Context (hash : Z -> Z).

Definition arp_header (opcode : Z) (src_hardware : list Z) (src_protocol : Z) (dst_hardware : list Z) (dst_protocol : Z) : list Z :=
  be16 1 ++ be16 PROTOCOL_IPV4 ++ [6; 4] ++ be16 opcode ++ src_hardware ++ be32 src_protocol ++ dst_hardware ++ be32 dst_protocol.

Definition arp_send (i opcode : Z) (src_hardware : list Z) (src_protocol : Z) (dst_hardware : list Z) (dst_protocol : Z)
    (s : NetSys) : NetSys :=
  send (mkFrame i (if opcode =? OPCODE_REPLY then dst_hardware else BROADCAST_MAC) PROTOCOL_ARP
          (arp_header opcode src_hardware src_protocol dst_hardware dst_protocol)) s.

Definition mac_at (bs : list Z) (off : nat) : option (list Z) :=
  if (off + 6 <=? length bs)%nat then Some (take 6 (drop off bs)) else None.

(** Whether a thread that waits for an answer is resumed comes with the state. *)
Definition arp_process (i : Z) (bs : list Z) (s : NetSys) : option (bool * NetSys) :=
  ifc ← interfaces s !! i;
  hardware_type ← be16_at bs 0;
  protocol_type ← be16_at bs 2;
  hardware_len ← bs !! 4%nat;
  protocol_len ← bs !! 5%nat;
  opcode ← be16_at bs 6;
  src_hardware ← mac_at bs 8;
  src_protocol ← be32_at bs 14;
  dst_hardware ← mac_at bs 18;
  dst_protocol ← be32_at bs 24;
  if negb (hardware_type =? 1) || negb (protocol_type =? PROTOCOL_IPV4) || negb (hardware_len =? 6)
     || negb (protocol_len =? 4)
     || ((opcode =? OPCODE_REPLY) && negb (bool_decide (dst_hardware = mac ifc)))
     || ((opcode =? OPCODE_REQUEST) && negb (dst_protocol =? ipv4 ifc))
  then Some (false, s)
  else if opcode =? OPCODE_REPLY then
    cache ← HashTable.emplace hash src_protocol src_hardware (arp_cache ifc);
    Some (true, upd_interface i (fun c => mkInterface (mac c) (mtu c) (ipv4 c) (ipv4_packet_id c) cache) s)
  else if opcode =? OPCODE_REQUEST then
    Some (false, arp_send i OPCODE_REPLY (mac ifc) (ipv4 ifc) src_hardware src_protocol s)
  else Some (false, s).

(** ** IPv4 *)
Definition sizeof_Ipv4Header : Z := 20.
Definition VERSION_AND_HEADER_LENGTH : Z := 69.

Definition ipv4_header (packet_length id flags_and_frag_offset protocol checksum src dst : Z) : list Z :=
  [VERSION_AND_HEADER_LENGTH; 0] ++ be16 packet_length ++ be16 id ++ be16 flags_and_frag_offset ++ [255; protocol]
  ++ be16 checksum ++ be32 src ++ be32 dst.

(** TCP sockets cannot be made: the table of TCP ports is empty, and a segment
    is only summed. *)
Definition tcp_process (bs : list Z) (packet_length src dst : Z) (s : NetSys) : option NetSys :=
  let len := u64 (packet_length - sizeof_Ipv4Header) in
  if len <? 20 then Some s
  else if Z.of_nat (length bs) <? len then None
  else (_ ← ipv4_transport_checksum (take (Z.to_nat len) bs) src dst PROTOCOL_TCP; Some s).

Definition ipv4_process (i : Z) (bs : list Z) (s : NetSys) : option NetSys :=
  ifc ← interfaces s !! i;
  vhl ← bs !! 0%nat;
  packet_length ← be16_at bs 2;
  ff ← be16_at bs 6;
  protocol ← bs !! 9%nat;
  src ← be32_at bs 12;
  dst ← be32_at bs 16;
  cks ← compute_header_checksum (take 20 bs);
  if negb (vhl =? VERSION_AND_HEADER_LENGTH) || (negb (dst =? BROADCAST_IPV4) && negb (dst =? ipv4 ifc)) || negb (cks =? 0)
  then Some s
  else if negb (Z.land (Z.land (Z.shiftr ff 13) 7) 1 =? 0) || (0 <? u16 (Z.shiftl (Z.land ff 8191) 3)) then Some s
  else if protocol =? PROTOCOL_TCP then tcp_process (drop 20 bs) packet_length src dst s
  else if protocol =? PROTOCOL_UDP then udp_process (drop 20 bs) src dst protocol s
  else Some s.

(** [bs] is the frame from its Ethernet header on. *)
Definition eth_process (i : Z) (bs : list Z) (s : NetSys) : option (bool * NetSys) :=
  ifc ← interfaces s !! i;
  dest ← mac_at bs 0;
  type ← be16_at bs 12;
  if negb (bool_decide (dest = mac ifc)) && negb (bool_decide (dest = BROADCAST_MAC)) then Some (false, s)
  else if type =? PROTOCOL_ARP then arp_process i (drop 14 bs) s
  else if type =? PROTOCOL_IPV4 then (s' ← ipv4_process i (drop 14 bs) s; Some (false, s'))
  else Some (false, s).

(** *** Sending *)
Definition matches (ip : Z) (r : Route) : bool := Z.land ip (netmask r) =? Z.land (destination r) (netmask r).
Definition lookup_route (ip : Z) (s : NetSys) : Route :=
  fold_left (fun chosen r => if negb (matches ip r) then chosen else if metric r <? metric chosen then r else chosen)
    (routing_table s) no_route.
Definition add_route (r : Route) (s : NetSys) : NetSys :=
  mkNet (sockets s) (port_table s) (interfaces s) (routing_table s ++ [r]) (sent s) (woken s).

(** The packet of a fragment, behind the Ethernet header: its length is a
    16-bit integer.  That there is memory for a packet is taken for granted. *)
Definition fragment_packet (src : Z) (data0 : list Z) (fragment_offset : Z) (is_last_fragment : bool)
    (target_ip packet_id protocol : Z) : option (list Z) :=
  let data := take (Z.to_nat (u16 (Z.of_nat (length data0)))) data0 in
  let ff := u16 (Z.lor (Z.shiftl (if is_last_fragment then 0 else 1) 13) (Z.shiftr (u16 fragment_offset) 3)) in
  let len := u16 (Z.of_nat (length data) + sizeof_Ipv4Header) in
  cks ← compute_header_checksum (ipv4_header len packet_id ff protocol 0 src target_ip);
  Some (ipv4_header len packet_id ff protocol cks src target_ip ++ data).

(** What the device returns for a packet. *)
Context (send_packet : Frame -> Z).

Definition ipv4_send_fragment (i : Z) (data : list Z) (fragment_offset : Z) (is_last_fragment : bool) (target_ip : Z)
    (target_mac : list Z) (packet_id protocol : Z) (s : NetSys) : option (Z * NetSys) :=
  ifc ← interfaces s !! i;
  p ← fragment_packet (ipv4 ifc) data fragment_offset is_last_fragment target_ip packet_id protocol;
  let f := mkFrame i target_mac PROTOCOL_IPV4 p in
  Some (send_packet f, send f s).

(** The loop over the fragments, [n] of them left. *)
Fixpoint send_fragments (n : nat) (i max : Z) (data : list Z) (fragment_offset : Z) (target_ip : Z)
    (target_mac : list Z) (packet_id protocol : Z) (s : NetSys) : option (Z * NetSys) :=
  match n with
  | O => Some (0, s)
  | S n' =>
      let len := Z.min max (u64 (Z.of_nat (length data) - fragment_offset)) in
      '(err, s1) ← ipv4_send_fragment i (sub data fragment_offset len) fragment_offset (bool_decide (n' = O)) target_ip
                     target_mac packet_id protocol s;
      if err <? 0 then Some (err, s1)
      else send_fragments n' i max data (fragment_offset + max) target_ip target_mac packet_id protocol s1
  end.

(** [ipv4_send] from the hardware address of the next hop on. *)
Definition put_checksum (data : list Z) (off : nat) (cks : Z) : list Z := list_inserts off (be16 cks) data.
Definition ipv4_send_to (i : Z) (target_mac data : list Z) (target_ip protocol : Z) (with_checksum : bool) (s : NetSys)
    : option (Z * NetSys) :=
  ifc ← interfaces s !! i;
  data' ←
    (if with_checksum && ((protocol =? PROTOCOL_UDP) || (protocol =? PROTOCOL_TCP)) then
       cks ← ipv4_transport_checksum data (ipv4 ifc) target_ip protocol;
       Some (put_checksum data (if protocol =? PROTOCOL_UDP then 6%nat else 16%nat) cks)
     else Some data);
  let max := align_down (u64 (mtu ifc - sizeof_Ipv4Header)) 8 in
  if max =? 0 then None
  else
    let s1 := upd_interface i (fun c => mkInterface (mac c) (mtu c) (ipv4 c) (ipv4_packet_id c + 1) (arp_cache c)) s in
    send_fragments (Z.to_nat (Z.of_nat (length data) / max + 1)) i max data' 0 target_ip target_mac
      (u16 (ipv4_packet_id ifc)) protocol s1.

Definition arp_lookup (i ip : Z) (s : NetSys) : option (option (list Z)) :=
  ifc ← interfaces s !! i; HashTable.get hash ip (arp_cache ifc).

Definition next_hop (r : Route) (target_ip : Z) : Z := if gateway r =? 0 then target_ip else gateway r.

(** [ipv4_send]: the wait for an answer to the request is not interrupted. *)
Definition wait_answer : proc NetSys unit := fun s ws =>
  match ws with
  | [] => Asleep
  | Interrupted s' :: ws' | Woken s' :: ws' => Done tt s' ws'
  end.
Definition net_act {A} (f : NetSys -> option (A * NetSys)) : proc NetSys A := fun s ws =>
  match f s with Some (a, s') => Done a s' ws | None => Crashed end.

Definition ipv4_send (data : list Z) (target_ip protocol : Z) (with_checksum : bool) : proc NetSys Z :=
  if target_ip =? BROADCAST_IPV4 then mret (- EHOSTUNREACH)
  else
    s ← get_state;
    let r := lookup_route target_ip s in
    let i := r_interface r in
    if i =? 0 then mret (- EHOSTUNREACH)
    else
      cached ← net_act (fun s => m ← arp_lookup i (next_hop r target_ip) s; Some (m, s));
      found ← match cached with
              | Some m => mret (Some m)
              | None =>
                  _ ← net_act (fun s => ifc ← interfaces s !! i;
                        Some (tt, arp_send i OPCODE_REQUEST (mac ifc) (ipv4 ifc) (replicate 6 0) (next_hop r target_ip) s));
                  _ ← wait_answer;
                  net_act (fun s => m ← arp_lookup i (next_hop r target_ip) s; Some (m, s))
              end;
      match found with
      | None => mret (- ENETUNREACH)
      | Some m => net_act (ipv4_send_to i m data target_ip protocol with_checksum)
      end.

(** *** UdpSocket::sendmsg *)
Definition udp_packet (sport dport : Z) (bytes : list Z) : list Z :=
  be16 sport ++ be16 dport ++ be16 (u16 (Z.of_nat (length bytes) + sizeof_UdpHeader)) ++ be16 0 ++ bytes.

(** The port and target, or an error. *)
Definition udp_send_begin (v : Z) (name : option (Z * Z)) (s : NetSys) : option ((Z + Z * (Z * Z)) * NetSys) :=
  u ← sockets s !! v;
  let '(ret, s1) :=
    if has_port u then (bound_port u, s)
    else
      let (ret, s1) := alloc_port v 0 s in
      (ret, if ret <? 0 then s1 else upd_socket v (fun u => with_bound (bound_ip u) ret true u) s1) in
  if ret <? 0 then Some (inl ret, s1)
  else
    match name with
    | Some t => Some (inr (ret, t), s1)
    | None => Some (if is_connected u then inr (ret, (connected_ip u, connected_port u)) else inl (- EDESTADDRREQ), s1)
    end.

Definition udp_sendmsg (v : Z) (name : option (Z * Z)) (iovs : list (list Z)) : proc NetSys Z :=
  b ← net_act (udp_send_begin v name);
  match b with
  | inl err => mret err
  | inr (sport, (ip, dport)) =>
      ret ← ipv4_send (udp_packet sport dport (concat iovs)) ip PROTOCOL_UDP true;
      mret (if ret <? 0 then ret else Z.of_nat (length (concat iovs)))
  end.

(** ** LoopbackInterface *)
Definition loopback_mtu : Z := 4082.
Definition loopback_route (i : Z) : Route := mkRoute i 0 (be_ip 255 0 0 0) 0 1.
Definition LOOPBACK_IP : Z := be_ip 127 0 0 1.

End Hash.

(** ** Checksums verify *)

Lemma bswap16_eq x : 0 <= x < 65536 -> bswap16 x = x / 256 + 256 * (x mod 256).
Proof.
  intros Hx. unfold bswap16. rewrite Z.shiftr_div_pow2 by lia. change (2 ^ 8) with 256.
  pose proof (Z.div_mod x 256 ltac:(lia)) as Hd. pose proof (Z.mod_pos_bound x 256 ltac:(lia)) as Hm.
  assert (0 <= x / 256 < 256) by (split; [apply Z.div_pos; lia|apply Z.div_lt_upper_bound; lia]).
  rewrite lor_shiftl by (change (2 ^ 8) with 256; lia). change (2 ^ 8) with 256.
  unfold uN. change (2 ^ 16) with 65536. symmetry. apply (Z.mod_unique _ 65536 (x / 256)); lia.
Qed.

Lemma fold_carries_spec S : 0 <= S <= INT_MAX ->
  exists f, fold_carries 3 S = Some f /\ 0 <= f < 65536 /\ (exists k, 0 <= k /\ S = f + 65535 * k) /\ (f = 0 -> S = 0).
Proof.
  unfold INT_MAX. intros HS.
  assert (Hstep : forall x, 0 <= x -> 0 <= x mod 65536 + x / 65536 /\ x mod 65536 + x / 65536 <= 65535 + x / 65536 /\
    x = x mod 65536 + x / 65536 + 65535 * (x / 65536) /\ x = 65536 * (x / 65536) + x mod 65536).
  { intros x Hx. pose proof (Z.div_mod x 65536 ltac:(lia)). pose proof (Z.mod_pos_bound x 65536 ltac:(lia)).
    pose proof (Z.div_pos x 65536 ltac:(lia) ltac:(lia)). lia. }
  assert (Hsmall : forall x, x / 65536 = 0 -> 0 <= x -> x < 65536) by (intros x Hx Hx0; pose proof (Hstep x Hx0); pose proof (Z.mod_pos_bound x 65536); lia).
  cbn [fold_carries].
  destruct (Z.eqb_spec (S / 65536) 0) as [E|E]; [exists S; split; [done|]; split; [split; [lia|apply Hsmall; lia]|]; split; [by exists 0; lia|lia]|].
  destruct (Hstep S ltac:(lia)) as (A0 & A1 & A2 & A3). set (s1 := S mod 65536 + S / 65536) in *.
  assert (S / 65536 <= 32767) by (apply Z.lt_succ_r, Z.div_lt_upper_bound; lia).
  assert (0 < S / 65536) by (pose proof (Z.div_pos S 65536 ltac:(lia) ltac:(lia)); lia).
  assert (0 < s1) by (pose proof (Z.mod_pos_bound S 65536 ltac:(lia)); lia).
  destruct (Z.eqb_spec (s1 / 65536) 0) as [E1|E1].
  { exists s1. split; [done|]. split; [split; [lia|apply Hsmall; lia]|]. split; [exists (S / 65536); lia|lia]. }
  destruct (Hstep s1 ltac:(lia)) as (B0 & B1 & B2 & B3). set (s2 := s1 mod 65536 + s1 / 65536) in *.
  assert (s1 / 65536 <= 1) by (apply Z.lt_succ_r, Z.div_lt_upper_bound; lia).
  assert (0 < s1 / 65536) by (pose proof (Z.div_pos s1 65536 ltac:(lia) ltac:(lia)); lia).
  pose proof (Z.mod_pos_bound s1 65536 ltac:(lia)).
  assert (s2 / 65536 = 0) as E2 by (apply Z.div_small; lia). rewrite E2. cbn [Z.eqb].
  exists s2. split; [done|]. split; [lia|]. split; [exists (S / 65536 + s1 / 65536); lia|lia].
Qed.

(** The checksum of a sum, stored as a big-endian field that was zero, brings
    the checksum of the whole to zero. *)
Lemma finish_verifies S : 0 <= S -> S + 65535 <= INT_MAX ->
  exists c, finish_checksum S = Some c /\ 0 <= c < 65536 /\
    finish_checksum (S + (c / 256 mod 256 + 256 * (c mod 256))) = Some 0.
Proof.
  intros HS HI. unfold finish_checksum. destruct (fold_carries_spec S ltac:(lia)) as (f & -> & Hf & (k & Hk0 & Hk) & H0).
  destruct (Z.ltb_spec INT_MAX S); [lia|]. cbn [mbind option_bind]. rewrite bswap16_eq by lia. set (x := 65535 - f).
  pose proof (Z.div_mod x 256 ltac:(lia)) as Hx. pose proof (Z.mod_pos_bound x 256 ltac:(lia)) as Hm.
  assert (0 <= x / 256 < 256) by (split; [apply Z.div_pos; lia|apply Z.div_lt_upper_bound; lia]).
  set (c := x / 256 + 256 * (x mod 256)). exists c. split; [done|]. split; [lia|].
  assert (c / 256 = x mod 256) as Hd by (symmetry; apply (Z.div_unique c 256 (x mod 256) (x / 256)); lia).
  assert (c mod 256 = x / 256) as Hc by (symmetry; apply (Z.mod_unique c 256 (x mod 256) (x / 256)); lia).
  rewrite Hd, Hc, (Z.mod_small (x mod 256)) by lia. replace (S + (x mod 256 + 256 * (x / 256))) with (S + x) by lia.
  destruct (Z.ltb_spec INT_MAX (S + x)); [lia|].
  destruct (fold_carries_spec (S + x) ltac:(lia)) as (g & -> & Hg & (l & Hl0 & Hl) & Hg0). cbn [mbind option_bind].
  assert (g = 65535) as -> by (unfold x in *; lia). reflexivity.
Qed.

Lemma byte_range x : 0 <= x mod 256 < 256.
Proof. apply Z.mod_pos_bound. lia. Qed.

Lemma ipv4_header_sum len id ff protocol c src dst :
  partial_checksum (ipv4_header len id ff protocol c src dst) =
  partial_checksum (ipv4_header len id ff protocol 0 src dst) + (c / 256 mod 256 + 256 * (c mod 256)).
Proof. unfold ipv4_header, be16, be32. cbn [app partial_checksum]. change (0 / 256 mod 256) with 0. change (0 mod 256) with 0. lia. Qed.

Lemma partial_checksum_bound bs : Forall byte bs ->
  0 <= partial_checksum bs <= 65535 * ((Z.of_nat (length bs) + 1) / 2).
Proof.
  enough (forall n bs, (length bs <= n)%nat -> Forall byte bs -> 0 <= partial_checksum bs <= 65535 * ((Z.of_nat (length bs) + 1) / 2)) as H
    by (intros; by apply (H (length bs))).
  clear bs. induction n as [|n IH]; intros [|a [|b r]] Hn Hb; cbn [length] in *; try lia.
  - done.
  - done.
  - apply Forall_cons in Hb as [Ha _]. unfold byte in Ha. change ((Z.of_nat 1 + 1) / 2) with 1. cbn. lia.
  - apply Forall_cons in Hb as [Ha Hb]. apply Forall_cons in Hb as [Hb Hr]. unfold byte in *.
    specialize (IH r ltac:(lia) Hr). cbn [partial_checksum].
    replace (Z.of_nat (S (S (length r))) + 1) with (Z.of_nat (length r) + 1 + 1 * 2) by lia. rewrite Z.div_add by lia. lia.
Qed.

Lemma be16_bytes v : Forall byte (be16 v).
Proof. unfold be16. repeat constructor; apply byte_range. Qed.
Lemma be32_bytes v : Forall byte (be32 v).
Proof. unfold be32. repeat constructor; apply byte_range. Qed.

Ltac solve_bytes :=
  repeat first
    [ assumption
    | apply be16_bytes
    | apply be32_bytes
    | apply Forall_nil_2
    | apply Forall_app; split
    | apply Forall_cons; split
    | solve [unfold byte, VERSION_AND_HEADER_LENGTH, PROTOCOL_UDP; lia] ].

Lemma header_checksum_verifies len id ff protocol src dst :
  byte protocol ->
  exists c, compute_header_checksum (ipv4_header len id ff protocol 0 src dst) = Some c /\ 0 <= c < 65536 /\
    compute_header_checksum (ipv4_header len id ff protocol c src dst) = Some 0.
Proof.
  intros Hp. unfold compute_header_checksum. set (h := ipv4_header len id ff protocol 0 src dst).
  assert (Forall byte h) as Hb.
  { unfold h, ipv4_header. solve_bytes. }
  pose proof (partial_checksum_bound h Hb) as Hs. change (length h) with 20%nat in Hs. change ((Z.of_nat 20 + 1) / 2) with 10 in Hs.
  destruct (finish_verifies (partial_checksum h) ltac:(lia) ltac:(unfold INT_MAX; lia)) as (c & Hc & Hr & Hv).
  exists c. split; [done|]. split; [done|]. by rewrite ipv4_header_sum.
Qed.

Lemma be16_value v : 0 <= v < 65536 -> v / 256 mod 256 * 256 + v mod 256 = v.
Proof.
  intros Hv. rewrite (Z.mod_small (v / 256)); [pose proof (Z.div_mod v 256); lia|].
  split; [apply Z.div_pos; lia|apply Z.div_lt_upper_bound; lia].
Qed.
Lemma be32_value v : 0 <= v < 4294967296 ->
  (v / 16777216 mod 256 * 256 + v / 65536 mod 256) * 65536 + (v / 256 mod 256 * 256 + v mod 256) = v.
Proof.
  intros Hv. pose proof (be16_value (v / 65536)) as H1. rewrite Z.div_div in H1 by lia. change (65536 * 256) with 16777216 in H1.
  rewrite H1. 2: { split; [apply Z.div_pos; lia|apply Z.div_lt_upper_bound; lia]. }
  pose proof (be16_value (v mod 65536) ltac:(apply Z.mod_pos_bound; lia)) as H2.
  pose proof (Z.div_mod v 65536 ltac:(lia)) as H3.
  assert (v mod 65536 / 256 mod 256 = v / 256 mod 256) as E1.
  { assert (v / 256 = v mod 65536 / 256 + v / 65536 * 256) as ->; [|by rewrite Z_mod_plus_full].
    rewrite <- Z.div_add by lia. f_equal. lia. }
  assert (v mod 65536 mod 256 = v mod 256) as E2.
  { replace (v mod 256) with ((v mod 65536 + v / 65536 * 256 * 256) mod 256) by (f_equal; lia). by rewrite Z_mod_plus_full. }
  rewrite E1, E2 in H2. lia.
Qed.

(** The checksum of a transport packet verifies when the packet arrives. *)
Definition udp_with (sport dport len c : Z) (bytes : list Z) : list Z := be16 sport ++ be16 dport ++ be16 len ++ be16 c ++ bytes.

Lemma udp_sum sport dport len c bytes :
  partial_checksum (udp_with sport dport len c bytes) =
  partial_checksum (udp_with sport dport len 0 bytes) + (c / 256 mod 256 + 256 * (c mod 256)).
Proof. unfold udp_with, be16. cbn [app partial_checksum]. change (0 / 256 mod 256) with 0. change (0 mod 256) with 0. lia. Qed.

Lemma udp_checksum_verifies sport dport len bytes src dst :
  Forall byte bytes -> Z.of_nat (length bytes) <= 60000 ->
  exists c, ipv4_transport_checksum (udp_with sport dport len 0 bytes) src dst PROTOCOL_UDP = Some c /\ 0 <= c < 65536 /\
    ipv4_transport_checksum (udp_with sport dport len c bytes) src dst PROTOCOL_UDP = Some 0.
Proof.
  intros Hb Hlen. unfold ipv4_transport_checksum.
  assert (forall c, length (udp_with sport dport len c bytes) = (8 + length bytes)%nat) as Hl by done.
  set (ph := pseudo_header _ _ _ _). set (p := udp_with sport dport len 0 bytes).
  assert (Forall byte ph) as Hph.
  { unfold ph, pseudo_header. solve_bytes. }
  assert (Forall byte p) as Hpb.
  { unfold p, udp_with. solve_bytes. }
  pose proof (partial_checksum_bound ph Hph) as H1. change (length ph) with 12%nat in H1. change ((Z.of_nat 12 + 1) / 2) with 6 in H1.
  pose proof (partial_checksum_bound p Hpb) as H2. unfold p in H2 at 3. rewrite Hl in H2.
  assert ((Z.of_nat (8 + length bytes) + 1) / 2 <= 30005) by (apply Z.div_le_upper_bound; lia).
  destruct (finish_verifies (partial_checksum ph + partial_checksum p) ltac:(lia) ltac:(unfold INT_MAX; lia)) as (c & Hc & Hr & Hv).
  exists c. split; [done|]. split; [done|]. rewrite Hl. fold ph. rewrite udp_sum. fold p. rewrite Z.add_assoc. done.
Qed.

(** ** A datagram arrives *)

Lemma be16_at_value v l off :
  0 <= v < 65536 -> l !! off = Some (v / 256 mod 256) -> l !! S off = Some (v mod 256) -> be16_at l off = Some v.
Proof. intros Hv H1 H2. unfold be16_at. rewrite H1. cbn. rewrite H2. cbn. by rewrite be16_value. Qed.

Lemma be32_at_value v l off :
  0 <= v < 4294967296 -> l !! off = Some (v / 16777216 mod 256) -> l !! S off = Some (v / 65536 mod 256) ->
  l !! S (S off) = Some (v / 256 mod 256) -> l !! S (S (S off)) = Some (v mod 256) -> be32_at l off = Some v.
Proof.
  intros Hv H1 H2 H3 H4. unfold be32_at, be16_at. rewrite H1. cbn. rewrite H2. cbn. rewrite H3. cbn. rewrite H4. cbn.
  by rewrite be32_value.
Qed.

Definition udp_receive (v : Z) (d : UDatagram) (u : UdpSocket) (s : NetSys) : NetSys :=
  let rb := if is_full UDP_RING (udp_ring u) then snd (RingBuffer_read UDP_RING (udp_ring u) 1) else udp_ring u in
  wake_socket v (upd_socket v (with_ring (snd (RingBuffer_write UDP_RING rb [d] 1))) s).

Lemma udp_process_arrives sport dport data pad c src dst s v u :
  0 <= sport < 65536 -> 0 <= dport < 65536 -> Z.of_nat (length data) <= 60000 ->
  let len := Z.of_nat (length data) + 8 in
  ipv4_transport_checksum (udp_with sport dport len c data) src dst PROTOCOL_UDP = Some 0 ->
  port_table s !! dport = Some v -> sockets s !! v = Some u ->
  udp_process (udp_with sport dport len c data ++ pad) src dst PROTOCOL_UDP s
  = Some (udp_receive v (mkUDatagram src sport data) u s).
Proof.
  intros Hsp Hdp Hlen len Hc Hp Hu. unfold udp_process.
  assert (be16_at (udp_with sport dport len c data ++ pad) 4 = Some len) as -> by (apply be16_at_value; [lia|done|done]).
  cbn [mbind option_bind]. unfold sizeof_UdpHeader. destruct (Z.ltb_spec len 8); [lia|].
  assert (length (udp_with sport dport len c data) = Z.to_nat len) as Hl by (cbn; lia).
  rewrite length_app, Hl. destruct (Z.ltb_spec (Z.of_nat (Z.to_nat len + length pad)) len); [lia|].
  rewrite take_app_le, take_ge by lia. rewrite Hc. cbn [mbind option_bind negb Z.eqb].
  assert (be16_at (udp_with sport dport len c data ++ pad) 2 = Some dport) as -> by (apply be16_at_value; [lia|done|done]).
  assert (be16_at (udp_with sport dport len c data ++ pad) 0 = Some sport) as -> by (apply be16_at_value; [lia|done|done]).
  cbn [mbind option_bind]. rewrite Hp, Hu. cbn [mbind option_bind]. unfold udp_receive.
  assert (sub (udp_with sport dport len c data ++ pad) 8 (len - 8) = data) as ->; [|done].
  unfold sub. change (drop (Z.to_nat 8) (udp_with sport dport len c data ++ pad)) with (data ++ pad).
  rewrite take_app_le, take_ge by lia. done.
Qed.

Lemma ipv4_process_arrives i ifc len id c src dst payload s :
  interfaces s !! i = Some ifc -> ipv4 ifc = dst ->
  0 <= src < 4294967296 -> 0 <= dst < 4294967296 -> 0 <= len < 65536 ->
  compute_header_checksum (ipv4_header len id 0 PROTOCOL_UDP c src dst) = Some 0 ->
  ipv4_process i (ipv4_header len id 0 PROTOCOL_UDP c src dst ++ payload) s = udp_process payload src dst PROTOCOL_UDP s.
Proof.
  intros Hi Hip Hs Hd Hl Hc. unfold ipv4_process. rewrite Hi. cbn [mbind option_bind].
  set (h := ipv4_header _ _ _ _ _ _ _) in *.
  assert (be16_at (h ++ payload) 2 = Some len) as -> by (apply be16_at_value; done).
  assert (be32_at (h ++ payload) 12 = Some src) as -> by (apply be32_at_value; done).
  assert (be32_at (h ++ payload) 16 = Some dst) as -> by (apply be32_at_value; done).
  change (take 20 (h ++ payload)) with h. rewrite Hc. change (drop 20 (h ++ payload)) with payload.
  change ((h ++ payload) !! 0%nat) with (Some VERSION_AND_HEADER_LENGTH).
  change ((h ++ payload) !! 9%nat) with (Some PROTOCOL_UDP).
  change (be16_at (h ++ payload) 6) with (Some 0). cbn [mbind option_bind].
  rewrite Z.eqb_refl, Hip, Z.eqb_refl, andb_false_r. done.
Qed.

(** The packet [ipv4_send_to] makes of a datagram that needs no fragments. *)
Definition single_packet (src dst id : Z) (k c : Z) (sport dport : Z) (data : list Z) : list Z :=
  let len := Z.of_nat (length data) + 8 in
  ipv4_header (len + 20) (u16 id) 0 PROTOCOL_UDP k src dst ++ udp_with sport dport len c data.

Lemma ipv4_send_to_single send_packet i ifc m sport dport data dst s :
  interfaces s !! i = Some ifc -> Forall byte data ->
  let len := Z.of_nat (length data) + 8 in
  len < align_down (u64 (mtu ifc - 20)) 8 -> len <= 60008 ->
  exists c k,
    let pk := single_packet (ipv4 ifc) dst (ipv4_packet_id ifc) k c sport dport data in
    let f := mkFrame i m PROTOCOL_IPV4 pk in
    ipv4_transport_checksum (udp_with sport dport len c data) (ipv4 ifc) dst PROTOCOL_UDP = Some 0 /\
    compute_header_checksum (ipv4_header (len + 20) (u16 (ipv4_packet_id ifc)) 0 PROTOCOL_UDP k (ipv4 ifc) dst) = Some 0 /\
    exists s', ipv4_send_to send_packet i m (udp_packet sport dport data) dst PROTOCOL_UDP true s
      = Some (if send_packet f <? 0 then send_packet f else 0, s') /\ sent s' = sent s ++ [f].
Proof.
  intros Hi Hb len Hmax Hlen.
  destruct (udp_checksum_verifies sport dport len data (ipv4 ifc) dst Hb ltac:(lia)) as (c & Hc & Hcr & Hcv).
  assert (byte PROTOCOL_UDP) as Hp by (unfold byte, PROTOCOL_UDP; lia).
  destruct (header_checksum_verifies (len + 20) (u16 (ipv4_packet_id ifc)) 0 PROTOCOL_UDP (ipv4 ifc) dst Hp) as (k & Hk & _ & Hkv).
  exists c, k. cbv zeta. split; [done|]. split; [done|]. unfold ipv4_send_to. rewrite Hi. cbn [mbind option_bind].
  assert (udp_packet sport dport data = udp_with sport dport len 0 data) as ->.
  { unfold udp_packet, udp_with, sizeof_UdpHeader. fold len. unfold uN. rewrite (Z.mod_small len) by (change (2 ^ 16) with 65536; lia). done. }
  rewrite Hc. cbn [andb orb PROTOCOL_UDP PROTOCOL_TCP Z.eqb Pos.eqb mbind option_bind].
  change (put_checksum (udp_with sport dport len 0 data) 6 c) with (udp_with sport dport len c data).
  unfold sizeof_Ipv4Header. set (max := align_down _ 8) in *. destruct (Z.eqb_spec max 0); [lia|].
  assert (forall c, Z.of_nat (length (udp_with sport dport len c data)) = len) as Hl by (intros; cbn; lia).
  rewrite Hl, Z.div_small by lia. change (Z.to_nat (0 + 1)) with 1%nat. cbn [send_fragments].
  rewrite Hl, Z.sub_0_r, u64_small, Z.min_r by lia. rewrite sub_full by (rewrite Hl; lia).
  unfold ipv4_send_fragment. cbn [upd_interface interfaces]. rewrite lookup_alter_eq, Hi. cbn [fmap option_fmap option_map mbind option_bind ipv4].
  unfold fragment_packet. rewrite Hl.
  assert (u16 len = len) as -> by (unfold uN; apply Z.mod_small; change (2 ^ 16) with 65536; lia).
  rewrite take_ge by (specialize (Hl c); lia). rewrite Hl. unfold sizeof_Ipv4Header.
  assert (u16 (len + 20) = len + 20) as -> by (unfold uN; apply Z.mod_small; change (2 ^ 16) with 65536; lia).
  rewrite bool_decide_eq_true_2 by done.
  change (u16 (Z.lor (Z.shiftl 0 13) (Z.shiftr (u16 0) 3))) with 0. fold PROTOCOL_UDP. change (u16 (ipv4_packet_id ifc)) with (u16 (ipv4_packet_id ifc)).
  rewrite Hk. cbn [mbind option_bind]. unfold single_packet. fold len.
  set (f := mkFrame i m PROTOCOL_IPV4 _). destruct (send_packet f <? 0); eexists; split; reflexivity || done.
Qed.

(** C27: The whole way of a datagram: sent in one packet to an address, whatever
    its payload, and processed by an interface with that address, it is the
    newest datagram of the socket at its port, with its sender's address and
    port and the bytes sent, and the socket is woken; a full ring loses its
    oldest datagram for it. *)
Theorem udp_delivered hash send_packet i ifc m sport dport data dst s j ifcj r v u pad :
  interfaces s !! i = Some ifc -> Forall byte data -> 0 <= sport < 65536 -> 0 <= dport < 65536 ->
  0 <= ipv4 ifc < 4294967296 -> 0 <= dst < 4294967296 ->
  Z.of_nat (length data) + 8 < align_down (u64 (mtu ifc - 20)) 8 -> Z.of_nat (length data) <= 60000 ->
  interfaces r !! j = Some ifcj -> ipv4 ifcj = dst -> length (mac ifcj) = 6%nat ->
  port_table r !! dport = Some v -> sockets r !! v = Some u -> ring_wf UDP_RING (udp_ring u) ->
  exists ret s' f r' u',
    ipv4_send_to send_packet i m (udp_packet sport dport data) dst PROTOCOL_UDP true s = Some (ret, s') /\
    sent s' = sent s ++ [f] /\ f_mac f = m /\ f_interface f = i /\
    eth_process hash j (mac ifcj ++ replicate 6 0 ++ be16 (f_proto f) ++ f_bytes f ++ pad) r = Some (false, r') /\
    sockets r' = <[v := u']> (sockets r) /\ woken r' = woken r ++ [v] /\
    contents UDP_RING (udp_ring u') =
      (if is_full UDP_RING (udp_ring u) then tail (contents UDP_RING (udp_ring u)) else contents UDP_RING (udp_ring u))
      ++ [mkUDatagram (ipv4 ifc) sport data].
Proof.
  intros Hi Hb Hsp Hdp Hip Hdst Hmax Hlen Hj Hdj Hmac Hport Hu Hwf.
  destruct (ipv4_send_to_single send_packet i ifc m sport dport data dst s Hi Hb) as (c & k & Hc & Hk & s' & Hs' & Hsent); [done|lia|].
  set (f := mkFrame i m PROTOCOL_IPV4 _) in *.
  set (d := mkUDatagram (ipv4 ifc) sport data).
  set (rb := if is_full UDP_RING (udp_ring u) then (RingBuffer_read UDP_RING (udp_ring u) 1).2 else udp_ring u).
  exists (if send_packet f <? 0 then send_packet f else 0), s', f, (udp_receive v d u r),
    (with_ring (RingBuffer_write UDP_RING rb [d] 1).2 u).
  split; [done|]. split; [done|]. split; [done|]. split; [done|]. split; [|split; [|split; [done|]]].
  - unfold eth_process. rewrite Hj. cbn [mbind option_bind].
    set (fr := mac ifcj ++ _). assert (mac_at fr 0 = Some (mac ifcj)) as ->.
    { unfold mac_at, fr. rewrite length_app, Hmac. cbn [Nat.add Nat.leb]. rewrite drop_0, take_app_le, take_ge by lia. done. }
    assert (be16_at fr 12 = Some PROTOCOL_IPV4) as ->.
    { unfold fr. apply be16_at_value; [done| |]; (rewrite lookup_app_r; [rewrite Hmac|lia]); done. }
    assert (drop 14 fr = f_bytes f ++ pad) as ->.
    { unfold fr. rewrite drop_app_ge by lia. rewrite Hmac. done. }
    cbn [mbind option_bind]. rewrite bool_decide_eq_true_2 by done. cbn [negb andb].
    change (PROTOCOL_IPV4 =? PROTOCOL_ARP) with false. change (PROTOCOL_IPV4 =? PROTOCOL_IPV4) with true. cbv iota.
    unfold f, single_packet. cbn [f_bytes]. rewrite <- app_assoc.
    rewrite (ipv4_process_arrives j ifcj) by (done || lia).
    rewrite (udp_process_arrives sport dport data pad c (ipv4 ifc) dst r v u) by (done || lia). done.
  - unfold udp_receive. cbn. fold rb d. apply map_eq. intros y. destruct (decide (y = v)) as [->|Hy].
    + by rewrite lookup_alter_eq, Hu, lookup_insert_eq.
    + by rewrite lookup_alter_ne, lookup_insert_ne.
  - assert (ring_wf UDP_RING rb /\ data_count rb < UDP_RING /\ contents UDP_RING rb =
      (if is_full UDP_RING (udp_ring u) then tail (contents UDP_RING (udp_ring u)) else contents UDP_RING (udp_ring u))) as (Hwf' & Hroom & Hcon).
    { unfold rb. pose proof (wf_count _ _ Hwf) as Hcnt. destruct (is_full UDP_RING (udp_ring u)) eqn:E; unfold is_full in E.
      - apply Z.eqb_eq in E. pose proof (RingBuffer_read_spec UDP_RING (udp_ring u) 1 Hwf ltac:(lia)) as Hr.
        destruct (RingBuffer_read UDP_RING (udp_ring u) 1) as [[n o] rb1]. destruct Hr as (_ & _ & Hw1 & Hc1). cbn [snd].
        change (Z.to_nat 1) with 1%nat in Hc1. rewrite Hc1. split; [done|].
        pose proof (contents_length _ _ Hw1) as L1. pose proof (contents_length _ _ Hwf) as L0. rewrite Hc1, length_drop in L1.
        split; [unfold UDP_RING in *; lia|]. by destruct (contents UDP_RING (udp_ring u)).
      - apply Z.eqb_neq in E. split; [done|]. split; [lia|done]. }
    pose proof (RingBuffer_write_spec UDP_RING rb [d] 1 Hwf' ltac:(cbn; lia)) as Hw.
    specialize (Hw ltac:(left; by exists 72057594037927936)). cbn [udp_ring with_ring].
    destruct (RingBuffer_write UDP_RING rb [d] 1) as [n rb2]. destruct Hw as (Hn & _ & Hw & _). cbn [snd].
    rewrite Hw, Hcon, Hn, Z.min_l by lia. done.
Qed.

(** ** Addresses are resolved *)

Lemma mac_at_app pre m post : length m = 6%nat -> mac_at (pre ++ m ++ post) (length pre) = Some m.
Proof.
  intros Hm. unfold mac_at. rewrite !length_app, Hm. rewrite (proj2 (Nat.leb_le _ _)) by lia.
  rewrite drop_app_ge, Nat.sub_diag, drop_0, take_app_le, take_ge by lia. done.
Qed.

Lemma arp_process_header hash i ifc opcode sh sp dh dp s :
  interfaces s !! i = Some ifc -> length sh = 6%nat -> length dh = 6%nat ->
  0 <= opcode < 65536 -> 0 <= sp < 4294967296 -> 0 <= dp < 4294967296 ->
  arp_process hash i (arp_header opcode sh sp dh dp) s =
  if ((opcode =? OPCODE_REPLY) && negb (bool_decide (dh = mac ifc))) || ((opcode =? OPCODE_REQUEST) && negb (dp =? ipv4 ifc))
  then Some (false, s)
  else if opcode =? OPCODE_REPLY then
    cache ← HashTable.emplace hash sp sh (arp_cache ifc);
    Some (true, upd_interface i (fun c => mkInterface (mac c) (mtu c) (ipv4 c) (ipv4_packet_id c) cache) s)
  else if opcode =? OPCODE_REQUEST then
    Some (false, arp_send i OPCODE_REPLY (mac ifc) (ipv4 ifc) sh sp s)
  else Some (false, s).
Proof.
  intros Hi Hsh Hdh Hop Hsp Hdp.
  do 7 (destruct sh as [|? sh]; try discriminate Hsh). do 7 (destruct dh as [|? dh]; try discriminate Hdh).
  unfold arp_process. rewrite Hi. cbn [mbind option_bind]. set (h := arp_header _ _ _ _ _).
  change (be16_at h 0) with (Some 1). change (be16_at h 2) with (Some PROTOCOL_IPV4).
  change (h !! 4%nat) with (Some 6). change (h !! 5%nat) with (Some 4).
  assert (be16_at h 6 = Some opcode) as -> by (by apply be16_at_value).
  assert (be32_at h 14 = Some sp) as -> by (by apply be32_at_value).
  assert (be32_at h 24 = Some dp) as -> by (by apply be32_at_value).
  change (mac_at h 8) with (Some (take 6 (drop 8 h))). change (mac_at h 18) with (Some (take 6 (drop 18 h))).
  cbn [mbind option_bind]. reflexivity.
Qed.

(** Hardware addresses are resolved: an interface that asks who has an address
    is answered by the interface that has it, and by no other; the answer
    resumes the asker, whose cache then gives the right hardware address. *)
Theorem arp_resolves hash i a s j b r c o m :
  interfaces s !! i = Some a -> interfaces r !! j = Some b -> length (mac a) = 6%nat -> length (mac b) = 6%nat ->
  0 <= ipv4 a < 4294967296 -> 0 <= ipv4 b < 4294967296 ->
  HashTable.represents hash (arp_cache a) m -> m !! ipv4 b = None ->
  interfaces r !! c = Some o -> ipv4 o <> ipv4 b ->
  let s1 := arp_send i OPCODE_REQUEST (mac a) (ipv4 a) (replicate 6 0) (ipv4 b) s in
  exists f1 r1 f2 s2,
    sent s1 = sent s ++ [f1] /\ f_mac f1 = BROADCAST_MAC /\ f_proto f1 = PROTOCOL_ARP /\
    arp_process hash c (f_bytes f1) r = Some (false, r) /\
    arp_process hash j (f_bytes f1) r = Some (false, r1) /\
    sent r1 = sent r ++ [f2] /\ f_mac f2 = mac a /\ f_interface f2 = j /\
    arp_process hash i (f_bytes f2) s1 = Some (true, s2) /\
    arp_lookup hash i (ipv4 b) s2 = Some (Some (mac b)).
Proof.
  intros Hi Hj Hma Hmb Ha Hb Hrep Hnone Hc Ho s1.
  destruct (HashTable.emplace_represents hash (arp_cache a) m (ipv4 b) (mac b) Hrep Hnone) as (cache & Hcache & Hrep').
  set (f1 := mkFrame i BROADCAST_MAC PROTOCOL_ARP (arp_header OPCODE_REQUEST (mac a) (ipv4 a) (replicate 6 0) (ipv4 b))).
  set (f2 := mkFrame j (mac a) PROTOCOL_ARP (arp_header OPCODE_REPLY (mac b) (ipv4 b) (mac a) (ipv4 a))).
  exists f1, (send f2 r), f2.
  exists (upd_interface i (fun c => mkInterface (mac c) (mtu c) (ipv4 c) (ipv4_packet_id c) cache) s1).
  split_and!; try done.
  - cbn [f_bytes f1]. rewrite (arp_process_header hash c o) by (done || (unfold OPCODE_REQUEST; lia)).
    rewrite (proj2 (Z.eqb_neq (ipv4 b) (ipv4 o))) by congruence. done.
  - cbn [f_bytes f1]. rewrite (arp_process_header hash j b) by (done || (unfold OPCODE_REQUEST; lia)).
    rewrite !Z.eqb_refl. done.
  - cbn [f_bytes f2]. rewrite (arp_process_header hash i a) by (done || (unfold OPCODE_REPLY; lia)).
    rewrite bool_decide_eq_true_2 by done. change (OPCODE_REPLY =? OPCODE_REPLY) with true. change (OPCODE_REPLY =? OPCODE_REQUEST) with false.
    cbn [andb orb negb]. rewrite Hcache. done.
  - unfold arp_lookup. cbn [upd_interface interfaces s1 arp_send send]. rewrite lookup_alter_eq, Hi. cbn [fmap option_fmap option_map mbind option_bind arp_cache].
    rewrite (HashTable.get_represents hash cache (<[ipv4 b := mac b]> m)) by done. by rewrite lookup_insert_eq.
Qed.

(** ** Routes *)

(** A chosen route matches and no matching route is shorter; without a match
    there is none. *)
Lemma lookup_route_spec ip s :
  Forall (fun r => metric r < INT_MAX) (routing_table s) ->
  let r := lookup_route ip s in
  (r = no_route /\ Forall (fun q => matches ip q = false) (routing_table s)) \/
  (r ∈ routing_table s /\ matches ip r = true /\
   Forall (fun q => matches ip q = true -> metric r <= metric q) (routing_table s)).
Proof.
  intros Hf. unfold lookup_route. set (step := fun chosen r => _).
  enough (forall l pre c, Forall (fun r => metric r < INT_MAX) l ->
    (c = no_route /\ Forall (fun q => matches ip q = false) pre) \/
    (c ∈ pre /\ matches ip c = true /\ metric c < INT_MAX /\ Forall (fun q => matches ip q = true -> metric c <= metric q) pre) ->
    let r := fold_left step l c in
    (r = no_route /\ Forall (fun q => matches ip q = false) (pre ++ l)) \/
    (r ∈ pre ++ l /\ matches ip r = true /\ metric r < INT_MAX /\ Forall (fun q => matches ip q = true -> metric r <= metric q) (pre ++ l))) as H.
  { destruct (H (routing_table s) [] no_route Hf) as [?|(?&?&_&?)]; [left; split; [done|constructor]|left|right]; done. }
  clear Hf. induction l as [|q l IH]; intros pre c Hf Hc; cbn [fold_left].
  { rewrite app_nil_r. done. }
  apply Forall_cons in Hf as [Hq Hf]. replace (pre ++ q :: l) with ((pre ++ [q]) ++ l) by (by rewrite <- app_assoc).
  apply IH; [done|]. unfold step. rewrite !Forall_app, !Forall_singleton.
  destruct (matches ip q) eqn:Em; cbn [negb].
  - destruct Hc as [[-> Hp]|(Hin & Hm & Hlt & Hp)].
    + right. cbn [metric no_route]. rewrite (proj2 (Z.ltb_lt _ _)) by done. split; [apply elem_of_app; right; left|].
      split; [done|]. split; [done|]. split; [|done]. eapply Forall_impl; [exact Hp|]. cbn. intros x Hx. by rewrite Hx.
    + right. destruct (Z.ltb_spec (metric q) (metric c)).
      * split; [apply elem_of_app; right; left|]. split; [done|]. split; [done|]. split; [|done].
        eapply Forall_impl; [exact Hp|]. cbn. intros x Hx Hx'. specialize (Hx Hx'). lia.
      * split; [apply elem_of_app; by left|]. done.
  - destruct Hc as [[-> Hp]|(Hin & Hm & Hlt & Hp)].
    + left. done.
    + right. split; [apply elem_of_app; by left|]. split; [done|]. split; [done|]. split; [done|]. congruence.
Qed.

(** The route of the loopback interface is for 0.0.0.0/8, not for its own
    127.0.0.0/8: without another route its address cannot be reached. *)
Lemma loopback_unreachable hash send_packet i data with_checksum s ws :
  routing_table s = [loopback_route i] ->
  ipv4_send hash send_packet data LOOPBACK_IP PROTOCOL_UDP with_checksum s ws = Done (- EHOSTUNREACH) s ws.
Proof.
  intros Hr. unfold ipv4_send. change (LOOPBACK_IP =? BROADCAST_IPV4) with false. cbv iota.
  rewrite bind_run. unfold get_state, lookup_route. rewrite Hr. reflexivity.
Qed.

(** Binding a socket a second time takes the new port away from it again, and
    leaves it the old one. *)
Lemma rebind_loses_port v ip p q s s1 s2 r1 r2 u :
  sockets s !! v = Some u -> has_port u = false -> p <> 0 -> q <> 0 -> p <> q -> 0 < p -> 0 < q ->
  port_table s !! p = None -> port_table s !! q = None ->
  udp_bind v ip p s = Some (r1, s1) -> udp_bind v ip q s1 = Some (r2, s2) ->
  r2 = 0 /\ port_table s2 !! q = None /\ port_table s2 !! p = Some v.
Proof.
  intros Hu Hh Hp Hq Hpq Hp0 Hq0 Hfp Hfq H1 H2.
  unfold udp_bind, alloc_port, free_port, is_free in H1.
  rewrite (proj2 (Z.eqb_neq p 0)) in H1 by done. rewrite bool_decide_eq_true_2 in H1 by done.
  rewrite (proj2 (Z.ltb_ge p 0)) in H1 by lia. cbn in H1. rewrite lookup_alter_eq, Hu in H1. cbn in H1. rewrite Hh in H1. cbn in H1.
  injection H1 as <- <-. unfold udp_bind, alloc_port, free_port, is_free in H2. cbn in H2.
  rewrite (proj2 (Z.eqb_neq q 0)) in H2 by done. rewrite bool_decide_eq_true_2 in H2 by (by rewrite lookup_insert_ne).
  rewrite (proj2 (Z.ltb_ge q 0)) in H2 by lia. cbn in H2. rewrite !lookup_alter_eq, Hu in H2. cbn in H2.
  injection H2 as <- <-. cbn. split; [done|]. split; [apply lookup_delete_eq|].
  rewrite lookup_delete_ne by done. rewrite lookup_insert_ne by done. apply lookup_insert_eq.
Qed.

(** ** Examples *)
Definition example_hash (a : Z) : Z := a.
Definition host_a : Interface := mkInterface [2; 0; 0; 0; 0; 1] 1500 (be_ip 10 0 0 1) 7 (HashTable.new 16).
Definition host_b : Interface := mkInterface [2; 0; 0; 0; 0; 2] 1500 (be_ip 10 0 0 2) 0 (HashTable.new 16).
Definition host_c : Interface := mkInterface [2; 0; 0; 0; 0; 3] 1500 (be_ip 10 0 0 3) 0 (HashTable.new 16).
Definition net_a : NetSys := mkNet ∅ ∅ {[1 := host_a]} [] [] [].
Definition net_b : NetSys :=
  mkNet {[64 := with_bound 0 53 true UdpSocket_new]} {[53 := 64]} (<[2 := host_b]> {[3 := host_c]}) [] [] [].

Lemma udp_delivered_witness :
  exists ret s' f r' u',
    ipv4_send_to (fun _ => 0) 1 [2; 0; 0; 0; 0; 2] (udp_packet 40000 53 [104; 105]) (be_ip 10 0 0 2) PROTOCOL_UDP true net_a = Some (ret, s') /\
    sent s' = [f] /\
    eth_process example_hash 2 ([2; 0; 0; 0; 0; 2] ++ replicate 6 0 ++ be16 (f_proto f) ++ f_bytes f ++ [0; 0; 0]) net_b = Some (false, r') /\
    sockets r' = <[64 := u']> (sockets net_b) /\
    contents UDP_RING (udp_ring u') = [mkUDatagram (be_ip 10 0 0 1) 40000 [104; 105]].
Proof.
  destruct (ring_init_wf UDP_RING (replicate (Z.to_nat UDP_RING) (mkUDatagram 0 0 []))) as [Hwf Hcon]; [unfold UDP_RING; lia|reflexivity|].
  destruct (udp_delivered example_hash (fun _ => 0) 1 host_a [2; 0; 0; 0; 0; 2] 40000 53 [104; 105] (be_ip 10 0 0 2) net_a
    2 host_b net_b 64 (with_bound 0 53 true UdpSocket_new) [0; 0; 0])
    as (ret & s' & f & r' & u' & H1 & H2 & _ & _ & H3 & H4 & _ & H5).
  - reflexivity.
  - repeat constructor; unfold byte; lia.
  - lia.
  - lia.
  - vm_compute. split; [discriminate|reflexivity].
  - vm_compute. split; [discriminate|reflexivity].
  - vm_compute. reflexivity.
  - cbn. lia.
  - reflexivity.
  - reflexivity.
  - reflexivity.
  - reflexivity.
  - reflexivity.
  - exact Hwf.
  - exists ret, s', f, r', u'. split; [exact H1|]. split; [exact H2|]. split; [exact H3|]. split; [exact H4|].
    rewrite H5. change (udp_ring (with_bound 0 53 true UdpSocket_new)) with (RingBuffer_init (replicate (Z.to_nat UDP_RING) (mkUDatagram 0 0 []))).
    rewrite Hcon. vm_compute. reflexivity.
Defined.

Lemma arp_resolves_witness :
  exists f1 r1 f2 s2,
    sent (arp_send 1 OPCODE_REQUEST (mac host_a) (be_ip 10 0 0 1) (replicate 6 0) (be_ip 10 0 0 2) net_a) = [f1] /\
    arp_process example_hash 2 (f_bytes f1) net_b = Some (false, r1) /\ sent r1 = [f2] /\
    arp_process example_hash 1 (f_bytes f2)
      (arp_send 1 OPCODE_REQUEST (mac host_a) (be_ip 10 0 0 1) (replicate 6 0) (be_ip 10 0 0 2) net_a) = Some (true, s2) /\
    arp_lookup example_hash 1 (be_ip 10 0 0 2) s2 = Some (Some [2; 0; 0; 0; 0; 2]).
Proof.
  destruct (arp_resolves example_hash 1 host_a net_a 2 host_b net_b 3 host_c ∅) as (f1 & r1 & f2 & s2 & H1 & _ & _ & _ & H2 & H3 & _ & _ & H4 & H5).
  - reflexivity.
  - reflexivity.
  - reflexivity.
  - reflexivity.
  - vm_compute. split; [discriminate|reflexivity].
  - vm_compute. split; [discriminate|reflexivity].
  - exact (HashTable.new_represents example_hash 16 ltac:(lia)).
  - reflexivity.
  - reflexivity.
  - vm_compute. discriminate.
  - exists f1, r1, f2, s2. split; [exact H1|]. split; [exact H2|]. split; [exact H3|]. split; [exact H4|exact H5].
Defined.
