(* ===== verification/Tcp.v ===== *)
(** TCP sockets (src/kernel/src/userland/socket/tcp.cpp) as far as they go: no
    system call makes one, nothing leaves the send ring and nothing enters the
    receive ring. *)
From S2P Require Import Prelude RingBuffer FdTable Sockets SocketCalls Net.
Import Sockets.Stream.

Definition TCP_RING : Z := 131072.

Record TcpSocket : Type := mkTcp {
  recv_ring_buffer : RingBuffer Z;
  send_ring_buffer : RingBuffer Z;
  t_bound_ip : Z;
  t_bound_port : Z;
  t_connected_ip : Z;
  t_connected_port : Z;
  t_has_port : bool;
  t_is_connected : bool
}.
Definition TcpSocket_new : TcpSocket :=
  mkTcp (RingBuffer_init (replicate (Z.to_nat TCP_RING) 0)) (RingBuffer_init (replicate (Z.to_nat TCP_RING) 0))
    0 0 0 0 false false.

Record TcpSys : Type := mkTcpSys { tcps : gmap Z TcpSocket; tcp_ports : gmap Z Z; tcp_woken : list Z }.
Definition upd_tcp (v : Z) (f : TcpSocket -> TcpSocket) (s : TcpSys) : TcpSys :=
  mkTcpSys (alter f v (tcps s)) (tcp_ports s) (tcp_woken s).
Definition set_tcp_ports (m : gmap Z Z) (s : TcpSys) : TcpSys := mkTcpSys (tcps s) m (tcp_woken s).
Definition t_with_bound (ip port : Z) (h : bool) (t : TcpSocket) : TcpSocket :=
  mkTcp (recv_ring_buffer t) (send_ring_buffer t) ip port (t_connected_ip t) (t_connected_port t) h (t_is_connected t).
Definition t_with_connected (ip port : Z) (t : TcpSocket) : TcpSocket :=
  mkTcp (recv_ring_buffer t) (send_ring_buffer t) (t_bound_ip t) (t_bound_port t) ip port (t_has_port t) true.
Definition t_with_rings (r w : RingBuffer Z) (t : TcpSocket) : TcpSocket :=
  mkTcp r w (t_bound_ip t) (t_bound_port t) (t_connected_ip t) (t_connected_port t) (t_has_port t) (t_is_connected t).

Definition tcp_alloc_port (v chosen : Z) (s : TcpSys) : Z * TcpSys :=
  let free p := bool_decide (tcp_ports s !! p = None) in
  let chosen :=
    if chosen =? 0 then
      match List.find free (seqZ PORT_ALLOC_RANGE_START (PORT_ALLOC_RANGE_END - PORT_ALLOC_RANGE_START)) with
      | Some p => p
      | None => 0
      end
    else chosen in
  if free chosen then (chosen, set_tcp_ports (<[chosen := v]> (tcp_ports s)) s) else (- EADDRINUSE, s).

Definition tcp_free_port (v : Z) (s : TcpSys) : option TcpSys :=
  t ← tcps s !! v;
  if t_has_port t then
    Some (upd_tcp v (fun t => t_with_bound (t_bound_ip t) 0 false t) (set_tcp_ports (delete (t_bound_port t) (tcp_ports s)) s))
  else Some s.

Definition tcp_bind (v ip port : Z) (s : TcpSys) : option (Z * TcpSys) :=
  let (ret, s1) := tcp_alloc_port v port s in
  if ret <? 0 then Some (ret, s1)
  else
    s2 ← tcp_free_port v (upd_tcp v (fun t => t_with_bound ip port (t_has_port t) t) s1);
    Some (0, upd_tcp v (fun t => t_with_bound (t_bound_ip t) ret true t) s2).

Definition tcp_connect (v ip port : Z) (s : TcpSys) : Z * TcpSys := (0, upd_tcp v (t_with_connected ip port) s).

Definition tcp_poll (v events : Z) (s : TcpSys) : option Z :=
  t ← tcps s !! v;
  Some (Z.lor (if has events POLLIN && negb (is_empty (recv_ring_buffer t)) then POLLIN else 0)
              (if has events POLLOUT && negb (is_full TCP_RING (send_ring_buffer t)) then POLLOUT else 0)).

(** [bs] is the memory from the TCP header on, [packet_length] the field of
    the IPv4 header. *)
Definition tcp_process (bs : list Z) (packet_length src dst protocol : Z) (s : TcpSys) : option TcpSys :=
  let len := u64 (packet_length - sizeof_Ipv4Header) in
  if len <? 20 then Some s
  else if Z.of_nat (length bs) <? len then None
  else
    cks ← ipv4_transport_checksum (take (Z.to_nat len) bs) src dst protocol;
    if negb (cks =? 0) then Some s
    else
      port ← be16_at bs 2;
      match tcp_ports s !! port with
      | None => Some s
      | Some v => Some (mkTcpSys (tcps s) (tcp_ports s) (tcp_woken s ++ [v]))
      end.

(** The loops over the vectors of buffers. *)
Fixpoint tcp_recv_iovs (transferred : Z) (iovs : list Z) (rb : RingBuffer Z) : Z * list (list Z) * RingBuffer Z :=
  match iovs with
  | [] => (transferred, [], rb)
  | len :: rest =>
      if len =? 0 then let '(t, out, rb') := tcp_recv_iovs transferred rest rb in (t, [] :: out, rb')
      else
        let '(n, bs, rb1) := RingBuffer_read TCP_RING rb len in
        if is_empty rb1 then (transferred + n, [bs], rb1)
        else let '(t, out, rb') := tcp_recv_iovs (transferred + n) rest rb1 in (t, bs :: out, rb')
  end.
Fixpoint tcp_send_iovs (transferred : Z) (iovs : list (list Z)) (rb : RingBuffer Z) : Z * RingBuffer Z :=
  match iovs with
  | [] => (transferred, rb)
  | buf :: rest =>
      if bool_decide (buf = []) then tcp_send_iovs transferred rest rb
      else
        let (n, rb1) := RingBuffer_write TCP_RING rb buf (Z.of_nat (length buf)) in
        if is_full TCP_RING rb1 then (transferred + n, rb1) else tcp_send_iovs (transferred + n) rest rb1
  end.

Definition tcp_recv_attempt (v : Z) (nonblock : bool) (iovs : list Z) (s : TcpSys) : attempt TcpSys RecvResult :=
  match tcps s !! v with
  | None => Crash
  | Some t =>
      if is_empty (recv_ring_buffer t) then
        if nonblock then Return (mkRecv (- EWOULDBLOCK) [] 0 (Some (0, []))) s else Block s
      else
        let '(n, out, rb) := tcp_recv_iovs 0 iovs (recv_ring_buffer t) in
        Return (mkRecv n out 0 (Some (0, []))) (upd_tcp v (t_with_rings rb (send_ring_buffer t)) s)
  end.
Definition tcp_recvmsg (v : Z) (nonblock : bool) (iovs : list Z) : proc TcpSys RecvResult :=
  blocking (tcp_recv_attempt v nonblock iovs) (mkRecv (- EINTR) [] 0 (Some (0, []))).

(** The port and the target of [sendmsg], or its error. *)
Definition tcp_send_begin (v : Z) (name : option (Z * Z)) (s : TcpSys) : option (Z * TcpSys) :=
  t ← tcps s !! v;
  let '(ret, s1) :=
    if t_has_port t then (t_bound_port t, s)
    else
      let (ret, s1) := tcp_alloc_port v 0 s in
      (ret, if ret <? 0 then s1 else upd_tcp v (fun t => t_with_bound (t_bound_ip t) ret true t) s1) in
  if ret <? 0 then Some (ret, s1)
  else Some (if bool_decide (name = None) && negb (t_is_connected t) then - EDESTADDRREQ else 0, s1).

Definition tcp_send_attempt (v : Z) (nonblock : bool) (iovs : list (list Z)) (s : TcpSys) : attempt TcpSys Z :=
  match tcps s !! v with
  | None => Crash
  | Some t =>
      if is_full TCP_RING (send_ring_buffer t) then if nonblock then Return (- EWOULDBLOCK) s else Block s
      else
        let (n, rb) := tcp_send_iovs 0 iovs (send_ring_buffer t) in
        Return n (upd_tcp v (t_with_rings (recv_ring_buffer t) rb) s)
  end.
Definition tcp_sendmsg (v : Z) (name : option (Z * Z)) (nonblock : bool) (iovs : list (list Z)) : proc TcpSys Z :=
  fun s ws =>
    match tcp_send_begin v name s with
    | None => Crashed
    | Some (r, s1) => if r <? 0 then Done r s1 ws else blocking (tcp_send_attempt v nonblock iovs) (- EINTR) s1 ws
    end.

(** Nothing takes bytes out of the send ring: once it is full, every send that
    may sleep sleeps until it is interrupted, whatever segments arrive. *)
Lemma tcp_process_keeps bs n src dst p s s' : tcp_process bs n src dst p s = Some s' -> tcps s' = tcps s.
Proof.
  unfold tcp_process. destruct (_ <? 20); [by intros [= <-]|]. destruct (_ <? _); [done|].
  destruct (ipv4_transport_checksum _ _ _ _) as [cks|]; cbn; [|done]. destruct (negb _); [by intros [= <-]|].
  destruct (be16_at bs 2) as [port|]; cbn; [|done]. destruct (tcp_ports s !! port); by intros [= <-].
Qed.

Lemma tcp_full_send_sleeps v iovs s t :
  tcps s !! v = Some t -> is_full TCP_RING (send_ring_buffer t) = true -> tcp_send_attempt v false iovs s = Block s.
Proof. intros Ht Hf. unfold tcp_send_attempt. by rewrite Ht, Hf. Qed.
