(* ===== verification/Terminal.v ===== *)
(** The console's terminal (src/kernel/src/gfx/terminal.cpp): the cells of the
    screen, the cursor, the escape sequences and what is drawn.

    A character is a C [char]: a number from -128 to 127.  Arithmetic on [int]
    that leaves its range and an access outside the cells are [None].  What the
    terminal has the frame buffer draw is kept in [drawn], newest first. *)
From S2P Require Import Prelude.

(** ** Cells *)

(** [ColoredChar]: the character, the foreground with the bold flag and the
    background in a word; the [char] is extended with its sign. *)
Definition ColoredChar (c fg bg : Z) : Z :=
  Z.lor (u64 c) (Z.lor (Z.shiftl (Z.land fg 33554431) 8) (Z.shiftl (Z.land bg 16777215) 40)).
Definition cell_c (e : Z) : Z := sN 8 (Z.land e 255).
Definition cell_fg (e : Z) : Z := Z.land (Z.shiftr e 8) 33554431.
Definition cell_bg (e : Z) : Z := Z.land (Z.shiftr e 40) 16777215.

Definition bold_flag : Z := 16777216.
Definition rgb (r g b : Z) : Z := Z.lor (Z.lor (Z.shiftl r 16) (Z.shiftl g 8)) b.
Definition color_table : list Z :=
  [rgb 0 0 0; rgb 205 49 49; rgb 13 188 121; rgb 229 229 16; rgb 36 114 200; rgb 188 63 188; rgb 17 168 205;
   rgb 229 229 229; rgb 102 102 102; rgb 241 76 76; rgb 35 209 139; rgb 245 245 67; rgb 59 142 234;
   rgb 214 112 214; rgb 41 184 219; rgb 229 229 229].
Definition default_fg_color : Z := rgb 229 229 229.
Definition default_bg_color : Z := rgb 0 0 0.
Definition blank : Z := ColoredChar 32 default_fg_color default_bg_color.

(** ** The state *)

Inductive Draw : Type :=
| DrawChar (cx cy c fg bg : Z)
| FillRect (x y w h color : Z).

Record Pen : Type := mkPen { current_fg : Z; current_bg : Z; is_bold : bool }.
Record Csi : Type := mkCsi {
  csi_progress : Z; csi_args : list Z; csi_arg_index : Z; csi_arg_count : Z; csi_question_mark : bool
}.
Record VirtualTerminal : Type := mkVT {
  width_chars : Z; height_chars : Z; font_width : Z; font_height : Z; pixel_x : Z; pixel_y : Z;
  buffer : list Z;
  pen : Pen;
  cursor_x : Z; cursor_y : Z; old_cursor_x : Z; old_cursor_y : Z;
  cursor_needs_undrawing : bool;
  csi : Csi;
  insert_mode : bool;
  drawn : list Draw
}.

Definition with_cells (b : list Z) (needs : bool) (d : list Draw) (t : VirtualTerminal) : VirtualTerminal :=
  mkVT (width_chars t) (height_chars t) (font_width t) (font_height t) (pixel_x t) (pixel_y t) b (pen t)
    (cursor_x t) (cursor_y t) (old_cursor_x t) (old_cursor_y t) needs (csi t) (insert_mode t) d.
Definition with_pen (p : Pen) (t : VirtualTerminal) : VirtualTerminal :=
  mkVT (width_chars t) (height_chars t) (font_width t) (font_height t) (pixel_x t) (pixel_y t) (buffer t) p
    (cursor_x t) (cursor_y t) (old_cursor_x t) (old_cursor_y t) (cursor_needs_undrawing t) (csi t) (insert_mode t) (drawn t).
Definition with_cursor (x y : Z) (t : VirtualTerminal) : VirtualTerminal :=
  mkVT (width_chars t) (height_chars t) (font_width t) (font_height t) (pixel_x t) (pixel_y t) (buffer t) (pen t)
    x y (old_cursor_x t) (old_cursor_y t) (cursor_needs_undrawing t) (csi t) (insert_mode t) (drawn t).
Definition with_old_cursor (x y : Z) (t : VirtualTerminal) : VirtualTerminal :=
  mkVT (width_chars t) (height_chars t) (font_width t) (font_height t) (pixel_x t) (pixel_y t) (buffer t) (pen t)
    (cursor_x t) (cursor_y t) x y (cursor_needs_undrawing t) (csi t) (insert_mode t) (drawn t).
Definition with_csi (c : Csi) (t : VirtualTerminal) : VirtualTerminal :=
  mkVT (width_chars t) (height_chars t) (font_width t) (font_height t) (pixel_x t) (pixel_y t) (buffer t) (pen t)
    (cursor_x t) (cursor_y t) (old_cursor_x t) (old_cursor_y t) (cursor_needs_undrawing t) c (insert_mode t) (drawn t).
Definition with_insert (b : bool) (t : VirtualTerminal) : VirtualTerminal :=
  mkVT (width_chars t) (height_chars t) (font_width t) (font_height t) (pixel_x t) (pixel_y t) (buffer t) (pen t)
    (cursor_x t) (cursor_y t) (old_cursor_x t) (old_cursor_y t) (cursor_needs_undrawing t) (csi t) b (drawn t).
Definition draw (d : Draw) (t : VirtualTerminal) : VirtualTerminal :=
  with_cells (buffer t) (cursor_needs_undrawing t) (d :: drawn t) t.
Definition set_needs (b : bool) (t : VirtualTerminal) : VirtualTerminal := with_cells (buffer t) b (drawn t) t.

(** ** Drawing *)

Definition index (cx cy : Z) (t : VirtualTerminal) : nat := Z.to_nat (u64 (u64 cy * width_chars t + u64 cx)).

Definition set_char_at (cx cy c fg bg : Z) (t : VirtualTerminal) : option VirtualTerminal :=
  old ← buffer t !! index cx cy t;
  if old =? ColoredChar c fg bg then Some t
  else Some (with_cells (<[index cx cy t := ColoredChar c fg bg]> (buffer t)) false (DrawChar cx cy c fg bg :: drawn t) t).

Definition set_char_at_cursor (c : Z) (t : VirtualTerminal) : option VirtualTerminal :=
  set_char_at (cursor_x t) (cursor_y t) c
    (Z.lor (current_fg (pen t)) (if is_bold (pen t) then bold_flag else 0)) (current_bg (pen t)) t.

Definition clear_at (cx cy : Z) (t : VirtualTerminal) : option VirtualTerminal :=
  set_char_at cx cy 32 default_fg_color default_bg_color t.

Definition move_char (old_cx old_cy new_cx new_cy : Z) (t : VirtualTerminal) : option VirtualTerminal :=
  e ← buffer t !! index old_cx old_cy t;
  t1 ← set_char_at new_cx new_cy (cell_c e) (cell_fg e) (cell_bg e) t;
  clear_at old_cx old_cy t1.

Definition scroll (t : VirtualTerminal) : option VirtualTerminal :=
  t1 ← each (fun y t => each (fun x t =>
         e ← buffer t !! index x (y + 1) t;
         set_char_at x y (cell_c e) (cell_fg e) (cell_bg e) t) (seqZ 0 (width_chars t)) t)
       (seqZ 0 (height_chars t - 1)) t;
  t2 ← each (fun x t => clear_at x (height_chars t - 1) t) (seqZ 0 (width_chars t)) t1;
  Some (set_needs true t2).

Definition cursor_rect (x y color : Z) (t : VirtualTerminal) : Draw :=
  FillRect (u16 (x * font_width t + pixel_x t)) (u16 (y * font_height t + pixel_y t)) 1 (u16 (font_height t)) color.

Definition redraw_cursor (t : VirtualTerminal) : option VirtualTerminal :=
  let ox := old_cursor_x t in
  let oy := old_cursor_y t in
  t1 ← (if cursor_needs_undrawing t then
          e ← buffer t !! index ox oy t;
          Some (draw (DrawChar ox oy (cell_c e) (cell_fg e) (cell_bg e)) (draw (cursor_rect ox oy (current_bg (pen t)) t) t))
        else Some t);
  Some (with_old_cursor (cursor_x t) (cursor_y t) (draw (cursor_rect (cursor_x t) (cursor_y t) (current_fg (pen t)) t) t1)).

Definition move_cursor (x y : Z) (t : VirtualTerminal) : option VirtualTerminal :=
  redraw_cursor (set_needs true (with_cursor x y t)).

(** [redraw] sets every cell to what it holds. *)
Definition redraw (pixel_width pixel_height : Z) (t : VirtualTerminal) : option VirtualTerminal :=
  t1 ← redraw_cursor (draw (FillRect (u16 (pixel_x t)) (u16 (pixel_y t)) (u16 pixel_width) (u16 pixel_height) (current_bg (pen t))) t);
  each (fun y t => each (fun x t =>
      e ← buffer t !! index x y t;
      set_char_at x y (cell_c e) (cell_fg e) (cell_bg e) t) (seqZ 0 (width_chars t)) t)
    (seqZ 0 (height_chars t1)) t1.

Definition csi_none : Csi := mkCsi 0 (replicate 16 0) 0 0 false.

(** The constructor, for a frame buffer and a font of these sizes. *)
Definition VirtualTerminal_new (pixel_width pixel_height fw fh : Z) : option VirtualTerminal :=
  let w := pixel_width / fw in
  let h := pixel_height / fh in
  redraw pixel_width pixel_height
    (mkVT w h fw fh 0 0 (replicate (Z.to_nat (w * h)) blank) (mkPen default_fg_color default_bg_color false)
       0 0 0 0 false csi_none false []).

(** ** Control sequences *)

Definition int_of (x : Z) : option Z := if x <=? INT_MAX then Some x else None.
Definition clamp (v low high : Z) : Z := Z.min (Z.max v low) high.
Definition arg (t : VirtualTerminal) (i : nat) : Z := nth i (csi_args (csi t)) 0.

Definition apply_sgr (n : Z) (p : Pen) : Pen :=
  let fg c := mkPen c (current_bg p) (is_bold p) in
  let bg c := mkPen (current_fg p) c (is_bold p) in
  let color i := nth (Z.to_nat i) color_table 0 in
  if n =? 0 then mkPen default_fg_color default_bg_color false
  else if n =? 1 then mkPen (current_fg p) (current_bg p) true
  else if n =? 7 then mkPen (current_bg p) (current_fg p) (is_bold p)
  else if n =? 22 then mkPen (current_fg p) (current_bg p) false
  else if (30 <=? n) && (n <=? 37) then fg (color (n - 30))
  else if (90 <=? n) && (n <=? 97) then fg (color (n + 8 - 90))
  else if n =? 39 then fg default_fg_color
  else if (40 <=? n) && (n <=? 47) then bg (color (n - 40))
  else if n =? 49 then bg default_bg_color
  else if (100 <=? n) && (n <=? 107) then bg (color (n + 8 - 100))
  else p.

(** Clears the cells of the screen that satisfy [p]. *)
Definition clear_cells (p : Z -> Z -> bool) (t : VirtualTerminal) : option VirtualTerminal :=
  each (fun y t => each (fun x t => if p x y then clear_at x y t else Some t) (seqZ 0 (width_chars t)) t)
    (seqZ 0 (height_chars t)) t.

Definition erase_display (t : VirtualTerminal) : option VirtualTerminal :=
  let w := width_chars t in
  let at_cursor := (cursor_y t + 1) * w + cursor_x t in
  let n := arg t 0 in
  if n =? 0 then clear_cells (fun x y => at_cursor <=? (y + 1) * w + x) t
  else if n =? 1 then clear_cells (fun x y => (y + 1) * w + x <=? at_cursor) t
  else if (n =? 2) || (n =? 3) then clear_cells (fun _ _ => true) t
  else Some t.

Definition clear_span (xs : list Z) (t : VirtualTerminal) : option VirtualTerminal :=
  each (fun x t => clear_at x (cursor_y t) t) xs t.

Definition erase_line (t : VirtualTerminal) : option VirtualTerminal :=
  let n := arg t 0 in
  if n =? 0 then clear_span (seqZ (cursor_x t) (width_chars t - cursor_x t)) t
  else if n =? 1 then clear_span (reverse (seqZ 0 (cursor_x t + 1))) t
  else if n =? 2 then clear_span (seqZ 0 (width_chars t)) t
  else Some t.

(** The column after the cells that 'P' and 'X' take. *)
Definition span_end (t : VirtualTerminal) : option Z :=
  s ← int_of (cursor_x t + (if csi_arg_count (csi t) =? 0 then 1 else arg t 0));
  Some (clamp s 0 (width_chars t)).

Definition delete_chars (t : VirtualTerminal) : option VirtualTerminal :=
  last ← span_end t;
  t1 ← clear_span (seqZ (cursor_x t) (last - cursor_x t)) t;
  each (fun i t => move_char (last + i) (cursor_y t) (cursor_x t + i) (cursor_y t) t) (seqZ 0 (width_chars t - last)) t1.

Definition erase_chars (t : VirtualTerminal) : option VirtualTerminal :=
  last ← span_end t;
  clear_span (seqZ (cursor_x t) (last - cursor_x t)) t.

Definition apply_control_sequence (code : Z) (t : VirtualTerminal) : option VirtualTerminal :=
  let a0 := Z.max (arg t 0) 1 in
  let col x := clamp x 0 (width_chars t - 1) in
  let row y := clamp y 0 (height_chars t - 1) in
  let key k := code =? k in
  if key 109 (* m *) then
    Some (with_pen (fold_left (fun p n => apply_sgr n p)
                      (take (Z.to_nat (csi_arg_index (csi t) + 1)) (csi_args (csi t))) (pen t)) t)
  else if key 74 (* J *) then erase_display t
  else if key 75 (* K *) then erase_line t
  else if csi_question_mark (csi t) && (key 104 || key 108) then Some t
  else if key 65 (* A *) then move_cursor (cursor_x t) (row (cursor_y t - a0)) t
  else if key 66 (* B *) then (y ← int_of (cursor_y t + a0); move_cursor (cursor_x t) (row y) t)
  else if key 67 (* C *) then (x ← int_of (cursor_x t + a0); move_cursor (col x) (cursor_y t) t)
  else if key 68 (* D *) then move_cursor (col (cursor_x t - a0)) (cursor_y t) t
  else if key 69 (* E *) then (y ← int_of (cursor_y t + a0); move_cursor 0 (row y) t)
  else if key 70 (* F *) then move_cursor 0 (row (cursor_y t - a0)) t
  else if key 71 (* G *) then move_cursor (col (arg t 0 - 1)) (cursor_y t) t
  else if key 72 || key 102 (* H f *) then move_cursor (col (arg t 0 - 1)) (row (arg t 1 - 1)) t
  else if key 100 (* d *) then move_cursor (cursor_x t) (row (arg t 0 - 1)) t
  else if key 114 (* r *) then move_cursor 0 0 t
  else if key 80 (* P *) then delete_chars t
  else if key 88 (* X *) then erase_chars t
  else if key 104 || key 108 (* h l *) then
    Some (if arg t 0 =? 4 then with_insert (key 104) t else t)
  else Some t.

Definition reset_control_sequence (t : VirtualTerminal) : VirtualTerminal := with_csi csi_none t.

(** ** Characters *)

(** A character after the control sequence introducer. *)
Definition csi_char (c : Z) (t : VirtualTerminal) : option VirtualTerminal :=
  let s := csi t in
  let i := Z.to_nat (csi_arg_index s) in
  if (48 <=? c) && (c <=? 57) then
    old ← csi_args s !! i;
    v ← int_of (old * 10 + (c - 48));
    Some (with_csi (mkCsi (csi_progress s) (<[i := v]> (csi_args s)) (csi_arg_index s) (csi_arg_index s + 1) (csi_question_mark s)) t)
  else if ((97 <=? c) && (c <=? 122)) || ((65 <=? c) && (c <=? 90)) then
    t1 ← apply_control_sequence c t; Some (reset_control_sequence t1)
  else if c =? 59 (* ; *) then
    let s1 := if 16 <=? csi_arg_index s + 1 then csi_none
              else mkCsi (csi_progress s) (csi_args s) (csi_arg_index s + 1) (csi_arg_count s) (csi_question_mark s) in
    Some (with_csi (mkCsi (csi_progress s1) (<[Z.to_nat (csi_arg_index s1) := 0]> (csi_args s1)) (csi_arg_index s1)
                      (csi_arg_count s1) (csi_question_mark s1)) t)
  else if c =? 63 (* ? *) then
    Some (with_csi (mkCsi (csi_progress s) (csi_args s) (csi_arg_index s) (csi_arg_count s) true) t)
  else Some (reset_control_sequence t).

(** The end of [write_char]: the cursor wraps and the screen scrolls. *)
Definition settle (t : VirtualTerminal) : option VirtualTerminal :=
  let t1 := if width_chars t <=? cursor_x t then with_cursor 0 (cursor_y t + 1) t else t in
  t2 ← (if height_chars t1 <=? cursor_y t1 then
          s ← scroll t1; Some (with_cursor (cursor_x s) (cursor_y s - 1) s)
        else Some t1);
  t3 ← redraw_cursor t2;
  Some (set_needs true t3).

(** [insert_mode]: the characters from the cursor on move right by one. *)
Definition make_room (t : VirtualTerminal) : option VirtualTerminal :=
  if insert_mode t then
    each (fun i t => move_char i (cursor_y t) (i + 1) (cursor_y t) t)
      (reverse (seqZ (cursor_x t) (width_chars t - cursor_x t))) t
  else Some t.

Definition plain_char (c : Z) (t : VirtualTerminal) : option VirtualTerminal :=
  t1 ← make_room t;
  t2 ← set_char_at_cursor c t1;
  settle (with_cursor (cursor_x t2 + 1) (cursor_y t2) t2).

Definition write_char (c : Z) (t : VirtualTerminal) : option VirtualTerminal :=
  let s := csi t in
  if csi_progress s =? 1 then
    if c =? 91 (* [ *) then
      Some (with_csi (mkCsi 2 (csi_args s) (csi_arg_index s) (csi_arg_count s) (csi_question_mark s)) t)
    else Some (reset_control_sequence t)
  else if csi_progress s =? 2 then csi_char c t
  else if c =? 8 then
    if 0 <? cursor_x t then redraw_cursor (set_needs true (with_cursor (cursor_x t - 1) (cursor_y t) t))
    else Some (set_needs false t)
  else if c =? 9 then settle (with_cursor (align_up (cursor_x t + 1) 8) (cursor_y t) t)
  else if c =? 13 then settle (with_cursor 0 (cursor_y t) t)
  else if (c =? 10) || (c =? 11) || (c =? 12) then settle (set_needs true (with_cursor 0 (cursor_y t + 1) t))
  else if c =? 27 then
    settle (with_csi (mkCsi 1 (csi_args s) (csi_arg_index s) (csi_arg_count s) (csi_question_mark s)) t)
  else if (c =? 7) || (c =? 0) || (c =? 127) || (c =? 14) || (c =? 15) then settle t
  else plain_char c t.

Definition write_chars (cs : list Z) (t : VirtualTerminal) : option VirtualTerminal := each write_char cs t.

(** ** What the screen shows *)

(** The last character drawn at a cell, with its colours; a cell where none was
    drawn has the background that [redraw] fills the screen with. *)
Fixpoint shown (l : list Draw) (cx cy : Z) : Z * Z * Z :=
  match l with
  | [] => (32, default_fg_color, default_bg_color)
  | DrawChar x y c fg bg :: l => if (x =? cx) && (y =? cy) then (c, fg, bg) else shown l cx cy
  | FillRect _ _ _ _ _ :: l => shown l cx cy
  end.

Definition cell (e : Z) : Z * Z * Z := (cell_c e, cell_fg e, cell_bg e).
Definition on_screen (cx cy : Z) (t : VirtualTerminal) : Prop := 0 <= cx < width_chars t /\ 0 <= cy < height_chars t.
Definition at_cell (cx cy : Z) (t : VirtualTerminal) : nat := Z.to_nat (cy * width_chars t + cx).

Definition sized (t : VirtualTerminal) : Prop :=
  0 < width_chars t <= 65536 /\ 0 < height_chars t <= 65536 /\
  Z.of_nat (length (buffer t)) = width_chars t * height_chars t.

Definition plain (e : Z) : Prop := 0 <= cell_c e /\ ColoredChar (cell_c e) (cell_fg e) (cell_bg e) = e.
Definition shows (t : VirtualTerminal) : Prop :=
  Forall plain (buffer t) /\
  forall cx cy, on_screen cx cy t -> cell <$> buffer t !! at_cell cx cy t = Some (shown (drawn t) cx cy).

(** What an operation that only changes cells keeps: all the rest. *)
Definition rest (t : VirtualTerminal) : VirtualTerminal := with_cells [] false [] t.

Section Cells.

Lemma cell_ColoredChar c fg bg :
  0 <= c < 128 -> 0 <= fg < 33554432 -> 0 <= bg < 16777216 -> cell (ColoredChar c fg bg) = (c, fg, bg).
Proof.
  intros Hc Hf Hb.
  assert (ColoredChar c fg bg = c + (fg + bg * 4294967296) * 256) as ->.
  { unfold ColoredChar. rewrite u64_small by lia.
    change 33554431 with (Z.ones 25). change 16777215 with (Z.ones 24). rewrite !Z.land_ones by lia.
    rewrite (Z.mod_small fg), (Z.mod_small bg) by lia.
    replace (Z.shiftl bg 40) with (Z.shiftl (Z.shiftl bg 32) 8) by (by rewrite Z.shiftl_shiftl by lia).
    rewrite <- Z.shiftl_lor. rewrite (lor_shiftl fg bg 32) by lia. rewrite lor_shiftl by lia. done. }
  unfold cell, cell_c, cell_fg, cell_bg. change 255 with (Z.ones 8). change 33554431 with (Z.ones 25).
  change 16777215 with (Z.ones 24). rewrite !Z.land_ones by lia. rewrite !Z.shiftr_div_pow2 by lia.
  assert (c + (fg + bg * 4294967296) * 256 = (fg + bg * 4294967296) * 2 ^ 8 + c) as -> by lia.
  f_equal; [f_equal|].
  - rewrite Z.add_comm, Z_mod_plus_full, Z.mod_small by lia. apply sN_small; lia.
  - rewrite Z.div_add_l, (Z.div_small c), Z.add_0_r by lia.
    replace (fg + bg * 4294967296) with (fg + (bg * 128) * 2 ^ 25) by lia. rewrite Z_mod_plus_full. apply Z.mod_small. lia.
  - replace ((fg + bg * 4294967296) * 2 ^ 8 + c) with (bg * 2 ^ 40 + (fg * 256 + c)) by lia.
    rewrite Z.div_add_l, (Z.div_small (fg * 256 + c)), Z.add_0_r by lia. apply Z.mod_small. lia.
Qed.

Lemma cell_range e : cell_c e < 128 /\ 0 <= cell_fg e < 33554432 /\ 0 <= cell_bg e < 16777216.
Proof.
  unfold cell_c, cell_fg, cell_bg. change 33554431 with (Z.ones 25). change 16777215 with (Z.ones 24).
  rewrite !Z.land_ones by lia. split_and!; try (apply Z.mod_pos_bound; lia).
  unfold sN. change (2 ^ 8) with 256. change (2 ^ (8 - 1)) with 128.
  pose proof (Z.mod_pos_bound (Z.land e 255) 256 ltac:(lia)). destruct (Z.ltb_spec (Z.land e 255 mod 256) 128); lia.
Qed.

Lemma rest_fields t t' : rest t' = rest t ->
  width_chars t' = width_chars t /\ height_chars t' = height_chars t /\ pen t' = pen t /\ cursor_x t' = cursor_x t /\
  cursor_y t' = cursor_y t /\ old_cursor_x t' = old_cursor_x t /\ old_cursor_y t' = old_cursor_y t /\ csi t' = csi t /\
  insert_mode t' = insert_mode t.
Proof. unfold rest, with_cells. intros H. injection H. intros. by split_and!. Qed.

Lemma index_at cx cy t : sized t -> on_screen cx cy t -> index cx cy t = at_cell cx cy t /\ (at_cell cx cy t < length (buffer t))%nat.
Proof.
  intros (Hw & Hh & Hl) [Hx Hy]. unfold index, at_cell. assert (cy * width_chars t + cx < width_chars t * height_chars t) by nia.
  assert (width_chars t * height_chars t <= 65536 * 65536) by nia. assert (0 <= cy * width_chars t) by nia.
  rewrite !(u64_small cx), (u64_small cy), u64_small by lia. lia.
Qed.

Lemma at_cell_inj cx cy x y t : on_screen cx cy t -> on_screen x y t -> at_cell cx cy t = at_cell x y t -> cx = x /\ cy = y.
Proof. unfold at_cell, on_screen. intros ? ? E. apply Z2Nat.inj in E; [|nia|nia]. assert (cy = y) by nia. subst. lia. Qed.

End Cells.

(** ** Operations on cells *)

(** [exact]: whether the screen is also followed. *)
Definition ok (exact : bool) (t : VirtualTerminal) : Prop := sized t /\ (exact = true -> shows t).
Definition writable (exact : bool) (c fg bg : Z) : Prop :=
  exact = true -> 0 <= c < 128 /\ 0 <= fg < 33554432 /\ 0 <= bg < 16777216.
Definition keeps (exact : bool) (t t' : VirtualTerminal) : Prop := rest t' = rest t /\ ok exact t'.
(** The operation does not stop the kernel and only changes cells. *)
Definition only_cells (exact : bool) (t : VirtualTerminal) (o : option VirtualTerminal) : Prop :=
  exists t', o = Some t' /\ keeps exact t t'.

Section CellOps.
Context {b : bool}.

Lemma keeps_refl t : ok b t -> keeps b t t.
Proof. by split. Qed.

Lemma keeps_trans t1 t2 t3 : keeps b t1 t2 -> keeps b t2 t3 -> keeps b t1 t3.
Proof. intros [E1 _] [E2 H]. split; [congruence|done]. Qed.

Lemma on_screen_rest cx cy t t' : rest t' = rest t -> on_screen cx cy t' <-> on_screen cx cy t.
Proof. intros E. apply rest_fields in E as (Ew & Eh & _). unfold on_screen. by rewrite Ew, Eh. Qed.

Lemma set_char_at_ok cx cy c fg bg t :
  ok b t -> on_screen cx cy t -> writable b c fg bg ->
  exists t', set_char_at cx cy c fg bg t = Some t' /\ keeps b t t' /\
             buffer t' = <[at_cell cx cy t := ColoredChar c fg bg]> (buffer t).
Proof.
  intros [Hsz Hsh] Hon Hw. destruct (index_at _ _ _ Hsz Hon) as [Ei Hi]. unfold set_char_at. rewrite Ei.
  destruct (lookup_lt_is_Some_2 _ _ Hi) as [old Hold]. rewrite Hold. cbn [mbind option_bind].
  destruct (Z.eqb_spec old (ColoredChar c fg bg)) as [->|Hne].
  { exists t. split; [done|]. split; [by apply keeps_refl|]. by rewrite list_insert_id. }
  eexists. split; [done|]. split; [|done]. split; [done|]. split.
  { destruct Hsz as (? & ? & ?). split_and!; cbn; rewrite ?length_insert; lia. }
  intros Hb. destruct (Hsh Hb) as [Hall Hsh']. destruct (Hw Hb) as (Hc & Hf & Hg).
  pose proof (cell_ColoredChar c fg bg Hc Hf Hg) as Hcell. split.
  - cbn. apply Forall_insert; [done|]. injection Hcell as E1 E2 E3. unfold plain. rewrite E1, E2, E3. split; [lia|done].
  - intros x y Hxy. cbn in Hxy |- *. change (at_cell x y (with_cells _ _ _ t)) with (at_cell x y t).
    destruct (Z.eqb_spec cx x) as [->|Hx]; [destruct (Z.eqb_spec cy y) as [->|Hy]|]; cbn.
    + rewrite list_lookup_insert_eq by done. cbn. by rewrite Hcell.
    + rewrite list_lookup_insert_ne; [by apply Hsh'|]. intros E. apply at_cell_inj in E as [_ ?]; [by subst|done..].
    + rewrite list_lookup_insert_ne; [by apply Hsh'|]. intros E. apply at_cell_inj in E as [? _]; [by subst|done..].
Qed.

Lemma blank_writable : writable b 32 default_fg_color default_bg_color.
Proof. intros _. vm_compute. intuition congruence. Qed.

Lemma cell_writable t i e : ok b t -> buffer t !! i = Some e -> writable b (cell_c e) (cell_fg e) (cell_bg e).
Proof.
  intros [_ Hsh] He Hb. destruct (Hsh Hb) as [Hall _]. destruct (Forall_lookup_1 _ _ _ _ Hall He) as [? _].
  pose proof (cell_range e). lia.
Qed.

Lemma clear_at_ok cx cy t : ok b t -> on_screen cx cy t -> only_cells b t (clear_at cx cy t).
Proof. intros H Hon. destruct (set_char_at_ok _ _ _ _ _ _ H Hon blank_writable) as (t' & ? & ? & _). by exists t'. Qed.

(** Reading a cell and putting it somewhere else. *)
Lemma copy_ok ox oy nx ny t :
  ok b t -> on_screen ox oy t -> on_screen nx ny t ->
  only_cells b t (e ← buffer t !! index ox oy t; set_char_at nx ny (cell_c e) (cell_fg e) (cell_bg e) t).
Proof.
  intros H Ho Hn. destruct (index_at _ _ _ (proj1 H) Ho) as [Ei Hi]. rewrite Ei.
  destruct (lookup_lt_is_Some_2 _ _ Hi) as [e He]. rewrite He. cbn [mbind option_bind].
  destruct (set_char_at_ok _ _ _ _ _ _ H Hn (cell_writable _ _ _ H He)) as (t' & ? & ? & _). by exists t'.
Qed.

Lemma only_cells_bind t o f :
  only_cells b t o -> (forall t1, keeps b t t1 -> only_cells b t1 (f t1)) -> only_cells b t (o ≫= f).
Proof.
  intros (t1 & -> & H1) Hf. destruct (Hf t1 H1) as (t2 & E & H2). exists t2. split; [done|]. by eapply keeps_trans.
Qed.

Lemma each_only_cells {A} (f : A -> VirtualTerminal -> option VirtualTerminal) xs t :
  (forall x t1, x ∈ xs -> keeps b t t1 -> only_cells b t1 (f x t1)) -> ok b t -> only_cells b t (each f xs t).
Proof.
  intros Hf Hok. apply (each_inv (keeps b t)); [|by apply keeps_refl].
  intros x t1 Hx H1. destruct (Hf x t1 Hx H1) as (t2 & E & H2). exists t2. split; [done|]. by eapply keeps_trans.
Qed.

Lemma keeps_ok t t' : keeps b t t' -> ok b t'.
Proof. by intros []. Qed.

Lemma keeps_on cx cy t t' : keeps b t t' -> on_screen cx cy t -> on_screen cx cy t'.
Proof. intros [E _]. by apply on_screen_rest. Qed.

Lemma move_char_ok ox oy nx ny t :
  ok b t -> on_screen ox oy t -> on_screen nx ny t -> only_cells b t (move_char ox oy nx ny t).
Proof.
  intros H Ho Hn. unfold move_char. destruct (copy_ok _ _ _ _ _ H Ho Hn) as (t1 & E & H1).
  destruct (buffer t !! index ox oy t) as [e|]; cbn [mbind option_bind] in E |- *; [|done]. rewrite E. cbn [mbind option_bind].
  destruct (clear_at_ok ox oy t1) as (t2 & E2 & H2); [by eapply keeps_ok|by eapply keeps_on|].
  exists t2. split; [done|]. by eapply keeps_trans.
Qed.

Lemma clear_cells_ok p t : ok b t -> only_cells b t (clear_cells p t).
Proof.
  intros H. apply each_only_cells; [|done]. intros y t1 Hy H1. apply each_only_cells; [|by eapply keeps_ok].
  intros x t2 Hx H2. pose proof (keeps_trans _ _ _ H1 H2) as H12.
  destruct (p x y); [|eexists; split; [done|]; eapply keeps_refl, keeps_ok, H12].
  apply clear_at_ok; [by eapply keeps_ok|]. eapply keeps_on; [exact H12|].
  apply elem_of_seqZ in Hx, Hy. rewrite (proj1 (rest_fields _ _ (proj1 H1))) in Hx. split; lia.
Qed.

Lemma clear_span_ok xs t :
  ok b t -> 0 <= cursor_y t < height_chars t -> (forall x, x ∈ xs -> 0 <= x < width_chars t) -> only_cells b t (clear_span xs t).
Proof.
  intros H Hy Hxs. apply each_only_cells; [|done]. intros x t1 Hx H1. pose proof (proj1 H1) as E.
  apply rest_fields in E as (Ew & Eh & _ & _ & Ey & _). rewrite Ey. apply clear_at_ok; [by eapply keeps_ok|].
  eapply keeps_on; [exact H1|]. split; [by apply Hxs|done].
Qed.

Lemma scroll_ok t : ok b t -> exists t', scroll t = Some (set_needs true t') /\ keeps b t t'.
Proof.
  intros H. assert (0 < height_chars t) by apply H. unfold scroll.
  edestruct (each_only_cells (fun y t => each (fun x t => e ← buffer t !! index x (y + 1) t;
     set_char_at x y (cell_c e) (cell_fg e) (cell_bg e) t) (seqZ 0 (width_chars t)) t) (seqZ 0 (height_chars t - 1)) t)
    as (t1 & E1 & H1); [|done|].
  { intros y t1 Hy H1. apply each_only_cells; [|by eapply keeps_ok]. intros x t2 Hx H2.
    pose proof (keeps_trans _ _ _ H1 H2) as H12. apply elem_of_seqZ in Hx, Hy.
    rewrite (proj1 (rest_fields _ _ (proj1 H1))) in Hx.
    apply copy_ok; [by eapply keeps_ok|..]; (eapply keeps_on; [exact H12|split; lia]). }
  rewrite E1. cbn [mbind option_bind].
  edestruct (each_only_cells (fun x t => clear_at x (height_chars t - 1) t) (seqZ 0 (width_chars t)) t1) as (t2 & E2 & H2).
  { intros x t2 Hx H2. pose proof (keeps_trans _ _ _ H1 H2) as H12. apply elem_of_seqZ in Hx.
    pose proof (rest_fields _ _ (proj1 H12)) as (_ & Eh & _). rewrite Eh. apply clear_at_ok; [by eapply keeps_ok|].
    eapply keeps_on; [exact H12|split; lia]. }
  { by eapply keeps_ok. }
  rewrite E2. exists t2. split; [done|]. by eapply keeps_trans.
Qed.

End CellOps.

(** [insert_mode] moves the last character of a line behind the line: that is
    the first cell of the next line. *)
Lemma move_right_sized i y t :
  sized t -> 0 <= i < width_chars t -> 0 <= y < height_chars t - 1 ->
  exists t', move_char i y (i + 1) y t = Some t' /\ keeps false t t'.
Proof.
  intros Hsz Hi Hy. pose proof (index_at i y t Hsz ltac:(split; lia)) as [Eo Ho]. unfold move_char. rewrite Eo.
  destruct (lookup_lt_is_Some_2 _ _ Ho) as [e ->]. cbn [mbind option_bind].
  assert (exists t1, set_char_at (i + 1) y (cell_c e) (cell_fg e) (cell_bg e) t = Some t1 /\ keeps false t t1) as (t1 & -> & H1).
  { destruct (decide (i + 1 < width_chars t)) as [Hlt|].
    { destruct (set_char_at_ok (b := false) (i + 1) y (cell_c e) (cell_fg e) (cell_bg e) t) as (t1 & ? & ? & _);
        [by split|split; lia|done|by exists t1]. }
    assert (index (i + 1) y t = index 0 (y + 1) t) as Ei.
    { unfold index. destruct Hsz as (? & ? & _). rewrite !(u64_small y), !(u64_small (y + 1)), !(u64_small (i + 1)) by lia.
      change (u64 0) with 0. rewrite (u64_small (y * _ + _)), (u64_small (_ * _ + 0)) by nia. f_equal. nia. }
    pose proof (index_at 0 (y + 1) t Hsz ltac:(split; lia)) as [En Hn]. unfold set_char_at. rewrite Ei, En.
    destruct (lookup_lt_is_Some_2 _ _ Hn) as [old ->]. cbn [mbind option_bind].
    destruct (_ =? _); eexists; (split; [done|]); split; try done; split; try done.
    destruct Hsz as (? & ? & ?). split_and!; cbn; rewrite ?length_insert; lia. }
  cbn [mbind option_bind].
  destruct (clear_at_ok (b := false) i y t1) as (t2 & -> & H2); [by eapply keeps_ok|eapply keeps_on; [exact H1|split; lia]|].
  exists t2. split; [done|]. by eapply keeps_trans.
Qed.

(** ** The invariant of the terminal *)

Definition color (c : Z) : Prop := 0 <= c < 16777216.
Definition pen_ok (p : Pen) : Prop := color (current_fg p) /\ color (current_bg p).
Definition csi_ok (c : Csi) : Prop :=
  length (csi_args c) = 16%nat /\ 0 <= csi_arg_index c < 16 /\ Forall (fun a => 0 <= a <= INT_MAX) (csi_args c).
Definition framed (t : VirtualTerminal) : Prop :=
  on_screen (old_cursor_x t) (old_cursor_y t) t /\ pen_ok (pen t) /\ csi_ok (csi t).
Definition inv (exact : bool) (t : VirtualTerminal) : Prop :=
  ok exact t /\ on_screen (cursor_x t) (cursor_y t) t /\ framed t.

(** What a run cannot go on from: a number near the end of [int], and a
    character put in the last line in insert mode. *)
Definition big_number (t : VirtualTerminal) : Prop := Exists (fun a => 200000000 <= a) (csi_args (csi t)).
Definition stuck (t : VirtualTerminal) : Prop :=
  (insert_mode t = true /\ cursor_y t = height_chars t - 1) \/ (csi_progress (csi t) = 2 /\ big_number t).

Section Invariant.
Context {b : bool}.

Lemma framed_rest t t' : rest t' = rest t -> framed t -> framed t'.
Proof. intros E H. change (framed (rest t')). rewrite E. exact H. Qed.

Lemma inv_rest t t' : keeps b t t' -> inv b t -> inv b t'.
Proof.
  intros [E Hok] (_ & Hc & Hf). split; [done|]. split; [|by eapply framed_rest].
  change (on_screen (cursor_x (rest t')) (cursor_y (rest t')) (rest t')). rewrite E. exact Hc.
Qed.

Lemma redraw_cursor_ok t :
  ok b t -> on_screen (old_cursor_x t) (old_cursor_y t) t ->
  exists t', redraw_cursor t = Some t' /\ ok b t' /\
             rest t' = rest (with_old_cursor (cursor_x t) (cursor_y t) t) /\ buffer t' = buffer t.
Proof.
  intros [Hsz Hsh] Hold. unfold redraw_cursor. destruct (cursor_needs_undrawing t); [|by eexists].
  destruct (index_at _ _ _ Hsz Hold) as [-> Hi]. destruct (lookup_lt_is_Some_2 _ _ Hi) as [e He]. rewrite He.
  cbn [mbind option_bind]. eexists. split; [done|]. split; [|done]. split; [done|]. intros Hb. destruct (Hsh Hb) as [Hall H].
  split; [done|]. intros x y Hxy. cbn. change (at_cell x y _) with (at_cell x y t).
  destruct (Z.eqb_spec (old_cursor_x t) x) as [<-|]; [destruct (Z.eqb_spec (old_cursor_y t) y) as [<-|]|]; cbn;
    [by rewrite He|by apply H..].
Qed.

Lemma redraw_cursor_inv t : inv b t -> exists t', redraw_cursor t = Some t' /\ inv b t'.
Proof.
  intros (Hok & Hc & Ho & Hp & Hs). destruct (redraw_cursor_ok t Hok Ho) as (t' & E & H' & Er & _). exists t'. split; [done|].
  apply (inv_rest (with_old_cursor (cursor_x t) (cursor_y t) t)); [by split|]. by split_and!.
Qed.

Lemma move_cursor_inv x y t : inv b t -> on_screen x y t -> exists t', move_cursor x y t = Some t' /\ inv b t'.
Proof. intros (Hok & Hc & Hf) Hxy. apply redraw_cursor_inv. by split_and!. Qed.

Lemma only_cells_inv t o : only_cells b t o -> inv b t -> exists t', o = Some t' /\ inv b t'.
Proof. intros (t' & -> & H') H. exists t'. split; [done|]. by eapply inv_rest. Qed.

Lemma settle_inv t :
  ok b t -> framed t -> 0 <= cursor_x t -> 0 <= cursor_y t ->
  cursor_y t < height_chars t \/ (cursor_y t = height_chars t /\ cursor_x t < width_chars t) ->
  exists t', settle t = Some t' /\ inv b t'.
Proof.
  intros Hok Hf Hx Hy Hy'. unfold settle. assert (0 < width_chars t /\ 0 < height_chars t) as [Hw Hh] by (destruct Hok as [(?&?&?) _]; lia).
  set (t1 := if width_chars t <=? cursor_x t then _ else _).
  assert (ok b t1 /\ framed t1 /\ 0 <= cursor_x t1 < width_chars t1 /\ 0 <= cursor_y t1 <= height_chars t1) as (Hok1 & Hf1 & Hx1 & Hy1).
  { unfold t1. destruct (Z.leb_spec (width_chars t) (cursor_x t)); (split; [exact Hok|]; split; [exact Hf|]); cbn; lia. }
  clearbody t1.
  assert (exists t2, (if height_chars t1 <=? cursor_y t1 then s ← scroll t1; Some (with_cursor (cursor_x s) (cursor_y s - 1) s)
                      else Some t1) = Some t2 /\ inv b t2) as (t2 & -> & H2).
  { destruct (Z.leb_spec (height_chars t1) (cursor_y t1)) as [Hge|Hlt]; [|exists t1; split; [done|split; [done|split; [split; lia|done]]]].
    destruct (scroll_ok t1 Hok1) as (s & -> & Hs). cbn [mbind option_bind]. eexists. split; [done|].
    destruct (rest_fields _ _ (proj1 Hs)) as (Ew & Eh & _ & Ex & Ey & _).
    split; [apply Hs|]. split; [|apply (framed_rest t1 s (proj1 Hs) Hf1)]. cbn. split; cbn; rewrite ?Ew, ?Eh, ?Ex, ?Ey; [done|].
    pose proof (proj1 Hok1) as (_ & ? & _). lia. }
  cbn [mbind option_bind]. destruct (redraw_cursor_inv t2 H2) as (t3 & -> & H3). cbn [mbind option_bind].
  eexists. split; [done|]. exact H3.
Qed.

End Invariant.

(** ** Control sequences keep the invariant *)

Lemma int_of_small x : x <= INT_MAX -> int_of x = Some x.
Proof. unfold int_of. intros. by destruct (Z.leb_spec x INT_MAX); [|lia]. Qed.

Lemma arg_range t i : csi_ok (csi t) -> 0 <= arg t i <= INT_MAX.
Proof.
  intros (_ & _ & H). unfold arg. rewrite nth_lookup. destruct (_ !! i) eqn:E; cbn; [|unfold INT_MAX; lia].
  exact (Forall_lookup_1 _ _ _ _ H E).
Qed.

Lemma arg_small t i : ~ big_number t -> arg t i < 200000000.
Proof.
  intros H. unfold arg. rewrite nth_lookup. destruct (_ !! i) as [a|] eqn:E; cbn; [|lia].
  destruct (Z.lt_ge_cases a 200000000); [done|]. destruct H. apply Exists_exists. exists a. split; [|done].
  by eapply list_elem_of_lookup_2.
Qed.

Lemma table_color i : color (nth i color_table 0).
Proof.
  assert (Forall color color_table) as H by (unfold color_table, color; repeat constructor; vm_compute; congruence).
  rewrite nth_lookup. destruct (color_table !! i) eqn:E; cbn [default]; [|unfold color; cbn; lia].
  exact (Forall_lookup_1 _ _ _ _ H E).
Qed.

Lemma apply_sgr_ok n p : pen_ok p -> pen_ok (apply_sgr n p).
Proof.
  intros [Hf Hb]. assert (color default_fg_color /\ color default_bg_color) as [? ?] by (unfold color; vm_compute; intuition congruence).
  unfold apply_sgr. repeat case_match; (split; cbn); try done; apply table_color.
Qed.

Section Control.
Context {b : bool}.

Lemma cells_inv t o : inv b t -> (ok b t -> only_cells b t o) -> exists t', o = Some t' /\ inv b t'.
Proof. intros H Ho. apply (only_cells_inv t); [|done]. apply Ho, H. Qed.

Lemma seqZ_range a n x : x ∈ seqZ a n -> a <= x < a + n.
Proof. intros ?%elem_of_seqZ. lia. Qed.

Lemma inv_bounds t : inv b t ->
  0 < width_chars t <= 65536 /\ 0 < height_chars t <= 65536 /\ 0 <= cursor_x t < width_chars t /\ 0 <= cursor_y t < height_chars t.
Proof. intros (((? & ? & _) & _) & (? & ?) & _). split_and!; lia. Qed.

Lemma erase_display_inv t : inv b t -> exists t', erase_display t = Some t' /\ inv b t'.
Proof.
  intros H. unfold erase_display. repeat case_match; try (apply (cells_inv t _ H), clear_cells_ok). by exists t.
Qed.

Lemma clear_span_inv xs t :
  inv b t -> (forall x, x ∈ xs -> 0 <= x < width_chars t) -> exists t', clear_span xs t = Some t' /\ inv b t' /\ keeps b t t'.
Proof.
  intros H Hxs. destruct (clear_span_ok xs t (proj1 H)) as (t' & E & Hk); [apply (inv_bounds t H)|done|].
  exists t'. split; [done|]. split; [by eapply inv_rest|done].
Qed.

Lemma erase_line_inv t : inv b t -> exists t', erase_line t = Some t' /\ inv b t'.
Proof.
  intros H. pose proof (inv_bounds t H) as (? & ? & ? & ?). unfold erase_line.
  repeat case_match; [..|by exists t];
    (edestruct clear_span_inv as (t' & E & H' & _); [exact H| |exists t'; split; [exact E|exact H']]);
    intros x Hx; rewrite ?elem_of_reverse in Hx; apply seqZ_range in Hx; lia.
Qed.

Lemma span_end_spec t : inv b t -> ~ big_number t -> exists e, span_end t = Some e /\ cursor_x t <= e <= width_chars t.
Proof.
  intros H Hbig. pose proof (inv_bounds t H) as (? & ? & ? & ?). destruct H as (_ & _ & _ & _ & Hcsi).
  pose proof (arg_range t 0 Hcsi). pose proof (arg_small t 0 Hbig). unfold span_end.
  rewrite int_of_small by (unfold INT_MAX; destruct (_ =? _); lia). eexists. split; [done|].
  unfold clamp. destruct (_ =? _); lia.
Qed.

Lemma erase_chars_inv t : inv b t -> ~ big_number t -> exists t', erase_chars t = Some t' /\ inv b t'.
Proof.
  intros H Hbig. destruct (span_end_spec t H Hbig) as (e & E & He). unfold erase_chars. rewrite E. cbn [mbind option_bind].
  destruct (clear_span_inv (seqZ (cursor_x t) (e - cursor_x t)) t H) as (t' & ? & ? & _); [|by exists t'].
  intros x Hx%seqZ_range. pose proof (inv_bounds t H). lia.
Qed.

Lemma delete_chars_inv t : inv b t -> ~ big_number t -> exists t', delete_chars t = Some t' /\ inv b t'.
Proof.
  intros H Hbig. destruct (span_end_spec t H Hbig) as (e & E & He). unfold delete_chars. rewrite E. cbn [mbind option_bind].
  destruct (clear_span_inv (seqZ (cursor_x t) (e - cursor_x t)) t H) as (t1 & -> & H1 & Hk).
  { intros x Hx%seqZ_range. pose proof (inv_bounds t H). lia. }
  cbn [mbind option_bind]. apply (only_cells_inv t1); [|done]. apply each_only_cells; [|apply H1].
  intros i t2 Hi%seqZ_range H2. destruct (rest_fields _ _ (proj1 Hk)) as (Ew & _ & _ & Ex & Ey & _).
  destruct (rest_fields _ _ (proj1 H2)) as (_ & _ & _ & Ex' & Ey' & _). pose proof (inv_bounds t1 H1).
  apply move_char_ok; [by eapply keeps_ok|eapply keeps_on; [exact H2|split; lia]..].
Qed.

Lemma with_pen_inv t p : inv b t -> pen_ok p -> inv b (with_pen p t).
Proof. intros (? & ? & ? & _ & ?) Hp. by split_and!. Qed.

Lemma with_insert_inv t m : inv b t -> inv b (with_insert m t).
Proof. done. Qed.

Lemma with_csi_inv t c : inv b t -> csi_ok c -> inv b (with_csi c t).
Proof. intros (? & ? & ? & ? & _) Hc. by split_and!. Qed.

Lemma csi_none_ok : csi_ok csi_none.
Proof. split; [done|]. split; [cbn; lia|]. by apply Forall_replicate. Qed.

Lemma fold_sgr_ok l p : pen_ok p -> pen_ok (fold_left (fun p n => apply_sgr n p) l p).
Proof. revert p. induction l as [|n l IH]; intros p Hp; [done|]. by apply IH, apply_sgr_ok. Qed.

Lemma apply_control_sequence_inv code t :
  inv b t -> ~ big_number t -> exists t', apply_control_sequence code t = Some t' /\ inv b t'.
Proof.
  intros H Hbig. pose proof (inv_bounds t H) as (Hw & Hh & Hx & Hy).
  pose proof (arg_range t 0 (proj2 (proj2 (proj2 (proj2 H))))) as Ha0. pose proof (arg_small t 0 Hbig) as Hs0.
  assert (forall x y, 0 <= x < width_chars t -> 0 <= y < height_chars t -> exists t', move_cursor x y t = Some t' /\ inv b t')
    as Hmove by (intros; by apply move_cursor_inv).
  unfold apply_control_sequence. rewrite !int_of_small by (unfold INT_MAX; lia). cbn [mbind option_bind].
  destruct (code =? 109); [eexists; split; [done|]; apply with_pen_inv; [done|apply fold_sgr_ok, H]|].
  destruct (code =? 74); [by apply erase_display_inv|]. destruct (code =? 75); [by apply erase_line_inv|].
  destruct (csi_question_mark _ && _); [by exists t|].
  repeat first
    [ match goal with |- context [if ?c then _ else _] => destruct c end
    | by apply delete_chars_inv | by apply erase_chars_inv
    | by (eexists; split; [reflexivity|exact H])
    | apply Hmove; unfold clamp; lia ].
Qed.
End Control.

(** ** Every character keeps the invariant *)

Section Writing.
Context {b : bool}.

Lemma csi_char_inv c t : inv b t -> ~ big_number t -> exists t', csi_char c t = Some t' /\ inv b t'.
Proof.
  intros H Hbig. pose proof (proj2 (proj2 (proj2 (proj2 H)))) as (Hlen & Hi & Hall). unfold csi_char.
  destruct ((48 <=? c) && (c <=? 57)) eqn:Ed.
  { apply andb_prop in Ed as [?%Z.leb_le ?%Z.leb_le].
    destruct (lookup_lt_is_Some_2 (csi_args (csi t)) (Z.to_nat (csi_arg_index (csi t)))) as [old Hold]; [lia|].
    rewrite Hold. cbn [mbind option_bind]. pose proof (Forall_lookup_1 _ _ _ _ Hall Hold) as Hr. cbn beta in Hr.
    assert (old < 200000000).
    { destruct (Z.lt_ge_cases old 200000000); [done|]. destruct Hbig. apply Exists_exists. exists old.
      split; [by eapply list_elem_of_lookup_2|done]. }
    rewrite int_of_small by (unfold INT_MAX; lia). cbn [mbind option_bind]. eexists. split; [done|].
    apply with_csi_inv; [done|]. split; [cbn; by rewrite length_insert|]. split; [done|]. apply Forall_insert; [done|].
    unfold INT_MAX. lia. }
  destruct (_ || _).
  { destruct (apply_control_sequence_inv c t H Hbig) as (t1 & -> & H1). cbn [mbind option_bind]. eexists. split; [done|].
    apply with_csi_inv; [done|apply csi_none_ok]. }
  destruct (c =? 59).
  { eexists. split; [done|]. apply with_csi_inv; [done|]. destruct (Z.leb_spec 16 (csi_arg_index (csi t) + 1)).
    - split; [done|]. split; [cbn; lia|]. apply Forall_insert; [apply csi_none_ok|unfold INT_MAX; lia].
    - split; [cbn; by rewrite length_insert|]. split; [cbn; lia|]. apply Forall_insert; [done|unfold INT_MAX; lia]. }
  destruct (c =? 63); eexists; (split; [done|]); apply with_csi_inv; try done. apply csi_none_ok.
Qed.

Lemma bold_range c : color c -> 0 <= Z.lor c bold_flag < 33554432.
Proof.
  unfold color, bold_flag. intros Hc. replace 16777216 with (Z.shiftl 1 24) by done. rewrite lor_shiftl by lia. lia.
Qed.

Lemma put_char_inv c t :
  inv b t -> (b = true -> 0 <= c < 128) ->
  exists t', (t2 ← set_char_at_cursor c t; settle (with_cursor (cursor_x t2 + 1) (cursor_y t2) t2)) = Some t' /\ inv b t'.
Proof.
  intros H Hc. pose proof (inv_bounds t H) as (Hw & Hh & Hx & Hy). destruct H as (Hok & Hcur & Hold & [Hfg Hbg] & Hcsi).
  destruct (set_char_at_ok (cursor_x t) (cursor_y t) c (Z.lor (current_fg (pen t)) (if is_bold (pen t) then bold_flag else 0))
              (current_bg (pen t)) t Hok Hcur) as (t1 & E & Hk & _).
  { intros Hb. split; [by apply Hc|]. split; [|done]. destruct (is_bold (pen t)); [by apply bold_range|].
    rewrite Z.lor_0_r. unfold color in Hfg. lia. }
  unfold set_char_at_cursor. rewrite E. cbn [mbind option_bind].
  destruct (rest_fields _ _ (proj1 Hk)) as (Ew & Eh & _ & Ex & Ey & _).
  apply settle_inv; [apply Hk|apply (framed_rest t t1 (proj1 Hk)); by split_and!|cbn; lia..].
Qed.

End Writing.

Lemma write_char_inv b c t :
  inv b t -> ~ stuck t -> (b = true -> insert_mode t = false /\ 0 <= c < 128) -> exists t', write_char c t = Some t' /\ inv b t'.
Proof.
  intros H Hs Hex. pose proof (inv_bounds t H) as (Hw & Hh & Hx & Hy). pose proof H as (Hok & Hcur & Hf).
  assert (csi_ok (csi t)) as Hcsi by apply Hf. unfold write_char.
  destruct (_ =? 1); [case_match; (eexists; split; [done|]); apply with_csi_inv; try done; apply csi_none_ok|].
  destruct (Z.eqb_spec (csi_progress (csi t)) 2); [apply csi_char_inv; [done|intros ?; apply Hs; by right]|].
  destruct (c =? 8).
  { destruct (Z.ltb_spec 0 (cursor_x t)); [|by eexists]. apply redraw_cursor_inv.
    split; [exact Hok|]. split; [split; cbn; lia|exact Hf]. }
  destruct (c =? 9).
  { apply settle_inv; [exact Hok|exact Hf|cbn..]; [|lia|lia].
    pose proof (align_up_le (cursor_x t + 1) 8 (65536 * 8) ltac:(lia) ltac:(lia) ltac:(lia) eq_refl). lia. }
  destruct (c =? 13); [apply settle_inv; [exact Hok|exact Hf|cbn; lia..]|].
  destruct (_ || _); [apply settle_inv; [exact Hok|exact Hf|cbn; lia..]|].
  destruct (c =? 27); [apply settle_inv; [exact Hok|by destruct Hf as (? & ? & ?)|cbn; lia..]|].
  destruct (_ || _); [apply settle_inv; [exact Hok|exact Hf|cbn; lia..]|].
  unfold plain_char, make_room. destruct (insert_mode t) eqn:Ei; [|apply put_char_inv; [done|apply Hex]].
  destruct b; [by destruct Hex|]. assert (cursor_y t <> height_chars t - 1) as Hne by (intros ?; apply Hs; by left).
  destruct (each_inv (keeps false t) (fun i t => move_char i (cursor_y t) (i + 1) (cursor_y t) t)
              (reverse (seqZ (cursor_x t) (width_chars t - cursor_x t))) t) as (t1 & -> & H1).
  { intros i t1 Hi H1. rewrite elem_of_reverse in Hi. apply seqZ_range in Hi.
    destruct (rest_fields _ _ (proj1 H1)) as (Ew & Eh & _ & Ex & Ey & _).
    destruct (move_right_sized i (cursor_y t1) t1 (proj1 (proj2 H1)) ltac:(lia) ltac:(lia)) as (t2 & E & H2).
    exists t2. split; [done|]. by eapply keeps_trans. }
  { by apply keeps_refl. }
  cbn [mbind option_bind]. apply put_char_inv; [by eapply inv_rest|done].
Qed.

Lemma blank_plain : plain blank.
Proof. split; [vm_compute; congruence|reflexivity]. Qed.

Lemma redraw_cells_ok b t : ok b t ->
  only_cells b t (each (fun y t => each (fun x t => e ← buffer t !! index x y t;
    set_char_at x y (cell_c e) (cell_fg e) (cell_bg e) t) (seqZ 0 (width_chars t)) t) (seqZ 0 (height_chars t)) t).
Proof.
  intros H. apply each_only_cells; [|done]. intros y t1 Hy H1. apply each_only_cells; [|by eapply keeps_ok].
  intros x t2 Hx H2. pose proof (keeps_trans _ _ _ H1 H2) as H12. apply elem_of_seqZ in Hx, Hy.
  rewrite (proj1 (rest_fields _ _ (proj1 H1))) in Hx.
  apply copy_ok; [by eapply keeps_ok|..]; (eapply keeps_on; [exact H12|split; lia]).
Qed.

Definition fits (pixels font : Z) : Prop := 0 < pixels / font <= 65536.

Lemma new_inv b pw ph fw fh : fits pw fw -> fits ph fh -> exists t, VirtualTerminal_new pw ph fw fh = Some t /\ inv b t.
Proof.
  unfold fits. intros Hw Hh. unfold VirtualTerminal_new, redraw.
  set (t0 := mkVT _ _ _ _ _ _ _ _ _ _ _ _ _ _ _ _). set (t1 := draw _ t0).
  assert (sized t0) as Hsz by (split; [done|split; [done|]]; cbn; rewrite length_replicate; nia).
  assert (inv b t1) as H1.
  { split; [split; [exact Hsz|]|split; [split; cbn; lia|split; [split; cbn; lia|split; [|apply csi_none_ok]]]].
    - intros _. split; [by apply Forall_replicate, blank_plain|]. intros x y Hxy.
      destruct (index_at x y t0 Hsz Hxy) as [_ Hi]. cbn in Hi. rewrite length_replicate in Hi. cbn.
      change (at_cell x y t1) with (at_cell x y t0). rewrite lookup_replicate_2 by done. reflexivity.
    - split; unfold color; vm_compute; intuition congruence. }
  destruct (redraw_cursor_inv t1 H1) as (t2 & -> & H2). cbn [mbind option_bind].
  apply (only_cells_inv t2); [|done]. apply redraw_cells_ok, H2.
Qed.

(** C28: Whatever is written to a terminal of at most 65536 rows and columns, it
    stays well formed: the cursor on the screen, a cell for every position, the
    arguments of a sequence inside their array.  Only two things stop it: a
    number of nine digits in a sequence, whose arithmetic leaves [int], and a
    character in the last line in insert mode. *)
Theorem terminal_stays_well_formed pw ph fw fh cs :
  fits pw fw -> fits ph fh ->
  exists t0, VirtualTerminal_new pw ph fw fh = Some t0 /\
  ((exists t, write_chars cs t0 = Some t /\ inv false t) \/
   (exists cs1 c cs2 t, cs = cs1 ++ c :: cs2 /\ write_chars cs1 t0 = Some t /\ inv false t /\ stuck t)).
Proof.
  intros Hw Hh. destruct (new_inv false pw ph fw fh Hw Hh) as (t0 & E & H). exists t0. split; [done|]. clear E.
  assert (forall t, Decision (stuck t)) as Hdec.
  { intros t. unfold stuck, big_number. apply _. }
  induction cs as [|c cs IH] using rev_ind; [left; by exists t0|].
  destruct IH as [(t & E & Ht)|(cs1 & c1 & cs2 & t & -> & ?)].
  - destruct (Hdec t) as [Hs|Hs]; [right; by exists cs, c, [], t|].
    destruct (write_char_inv false c t Ht Hs) as (t' & E' & Ht'); [done|]. left. exists t'. split; [|done].
    unfold write_chars in *. rewrite each_app, E. cbn [mbind option_bind each]. by rewrite E'.
  - right. exists cs1, c1, (cs2 ++ [c]), t. by rewrite <- app_assoc.
Qed.

(** The screen always shows the cells: while insert mode is off, the last
    character drawn at every position is the one its cell holds, in its colours,
    whatever is written in seven-bit characters; the comparison that spares the
    drawing of a cell that does not change loses nothing. *)
Theorem terminal_screen_shows_cells c t :
  inv true t -> insert_mode t = false -> 0 <= c < 128 -> ~ stuck t ->
  exists t', write_char c t = Some t' /\ inv true t' /\
  forall cx cy, on_screen cx cy t' -> cell <$> buffer t' !! at_cell cx cy t' = Some (shown (drawn t') cx cy).
Proof.
  intros H Hi Hc Hs. destruct (write_char_inv true c t H Hs) as (t1 & E1 & H1); [done|].
  exists t1. split; [done|]. split; [done|]. apply H1, eq_refl.
Qed.

(** ** Text: the terminal as a page *)

(** What plain text does to the cells and the cursor of a page of [w] columns
    and [h] rows. *)
Record Page : Type := mkPage { p_cells : list Z; p_x : Z; p_y : Z }.
Definition page_advance (w h : Z) (p : Page) : Page :=
  let p := if w <=? p_x p then mkPage (p_cells p) 0 (p_y p + 1) else p in
  if h <=? p_y p then
    mkPage (drop (Z.to_nat w) (p_cells p) ++ replicate (Z.to_nat w) blank) (p_x p) (p_y p - 1)
  else p.
Definition page_char (w h : Z) (e : Z -> Z) (c : Z) (p : Page) : Page :=
  if c =? 8 then mkPage (p_cells p) (Z.max 0 (p_x p - 1)) (p_y p)
  else if c =? 13 then mkPage (p_cells p) 0 (p_y p)
  else if c =? 10 then page_advance w h (mkPage (p_cells p) 0 (p_y p + 1))
  else page_advance w h
         (mkPage (<[Z.to_nat (p_y p * w + p_x p) := e c]> (p_cells p)) (p_x p + 1) (p_y p)).

Definition page (t : VirtualTerminal) : Page := mkPage (buffer t) (cursor_x t) (cursor_y t).
Definition pen_cell (p : Pen) (c : Z) : Z :=
  ColoredChar c (Z.lor (current_fg p) (if is_bold p then bold_flag else 0)) (current_bg p).
Definition is_text (c : Z) : Prop := 32 <= c < 127 \/ c = 8 \/ c = 10 \/ c = 13.

(** [set_char_at] of what was read elsewhere puts that cell. *)
Lemma copy_cell ox oy nx ny t e :
  ok true t -> on_screen ox oy t -> on_screen nx ny t -> buffer t !! at_cell ox oy t = Some e ->
  exists t', (e ← buffer t !! index ox oy t; set_char_at nx ny (cell_c e) (cell_fg e) (cell_bg e) t) = Some t' /\
             keeps true t t' /\ buffer t' = <[at_cell nx ny t := e]> (buffer t).
Proof.
  intros H Ho Hn He. destruct (index_at _ _ _ (proj1 H) Ho) as [-> _]. rewrite He. cbn [mbind option_bind].
  destruct (set_char_at_ok nx ny (cell_c e) (cell_fg e) (cell_bg e) t H Hn (cell_writable _ _ _ H He)) as (t' & E & Hk & Hb).
  exists t'. split; [done|]. split; [done|]. rewrite Hb. f_equal.
  destruct H as [_ Hs]. destruct (Hs eq_refl) as [Hall _]. apply (Forall_lookup_1 _ _ _ _ Hall He).
Qed.

(** The buffer with its first [n] cells moved up by one row. *)
Definition moved (w n : nat) (l l' : list Z) : Prop :=
  length l' = length l /\ forall i, l' !! i = if decide (i < n)%nat then l !! (i + w)%nat else l !! i.

Lemma moved_step w n l l' e : (n < length l)%nat -> l !! (n + w)%nat = Some e -> moved w n l l' -> moved w (S n) l (<[n := e]> l').
Proof.
  intros Hn He [Hl H]. split; [by rewrite length_insert|]. intros i. destruct (decide (i = n)) as [->|Hne].
  - rewrite list_lookup_insert_eq by lia. rewrite decide_True by lia. done.
  - rewrite list_lookup_insert_ne by done. rewrite H. repeat case_decide; (done || lia).
Qed.

Lemma scroll_rows w h l l' :
  length l = (w * S h)%nat -> moved w (w * h) l l' ->
  take (w * h) l' = drop w l.
Proof.
  intros Hl [Hl' H]. apply list_eq. intros i. rewrite lookup_drop.
  destruct (decide (i < w * h)%nat).
  - rewrite lookup_take_lt by done. rewrite H, decide_True by done. f_equal. lia.
  - rewrite lookup_take_ge by lia. symmetry. apply lookup_ge_None. lia.
Qed.

Definition cleared (k n : nat) (l l' : list Z) : Prop :=
  length l' = length l /\ forall i, l' !! i = if decide (k <= i < k + n)%nat then Some blank else l !! i.

Lemma cleared_step k n l l' : (k + n < length l)%nat -> cleared k n l l' -> cleared k (S n) l (<[(k + n)%nat := blank]> l').
Proof.
  intros Hn [Hl H]. split; [by rewrite length_insert|]. intros i. destruct (decide (i = k + n)%nat) as [->|Hne].
  - rewrite list_lookup_insert_eq by lia. by rewrite decide_True by lia.
  - rewrite list_lookup_insert_ne by done. rewrite H. repeat case_decide; (done || lia).
Qed.

Lemma cleared_tail k n l l' : length l = (k + n)%nat -> cleared k n l l' -> l' = take k l ++ replicate n blank.
Proof.
  intros Hl [Hl' H]. apply list_eq. intros i. rewrite H. destruct (decide (k <= i < k + n)%nat).
  - rewrite lookup_app_r, length_take by (rewrite length_take; lia). rewrite lookup_replicate_2; [done|lia].
  - destruct (decide (i < k)%nat).
    + rewrite lookup_app_l by (rewrite length_take; lia). by rewrite lookup_take_lt.
    + rewrite (lookup_ge_None_2 l) by lia. symmetry. apply lookup_ge_None. rewrite length_app, length_take, length_replicate. lia.
Qed.

(** The rows below move up. *)
Lemma scroll_moves t : ok true t ->
  exists t1, each (fun y t => each (fun x t => e ← buffer t !! index x (y + 1) t;
       set_char_at x y (cell_c e) (cell_fg e) (cell_bg e) t) (seqZ 0 (width_chars t)) t) (seqZ 0 (height_chars t - 1)) t = Some t1 /\
  keeps true t t1 /\ moved (Z.to_nat (width_chars t)) (Z.to_nat ((height_chars t - 1) * width_chars t)) (buffer t) (buffer t1).
Proof.
  intros H. pose proof (proj1 H) as (Hw & Hh & Hl). set (w := Z.to_nat (width_chars t)).
  set (P := fun n t1 => keeps true t t1 /\ moved w n (buffer t) (buffer t1)).
  apply (each_count (fun y => P (Z.to_nat (y * width_chars t)))); [|lia|by split; [apply keeps_refl|]].
  intros y t1 Hy [H1 M1]. pose proof (rest_fields _ _ (proj1 H1)) as (Ew & Eh & _).
  edestruct (each_count (fun x => P (Z.to_nat (y * width_chars t + x))) (fun x t => e ← buffer t !! index x (y + 1) t;
    set_char_at x y (cell_c e) (cell_fg e) (cell_bg e) t) 0 (width_chars t1) t1) as (t2 & E2 & H2).
  - intros x t2 Hx [H2 M2]. pose proof (rest_fields _ _ (proj1 H2)) as (Ew2 & Eh2 & _).
    set (n := Z.to_nat (y * width_chars t + x)) in *.
    assert (at_cell x (y + 1) t2 = (n + w)%nat) as En by (unfold at_cell, n, w; rewrite Ew2; lia).
    assert (n + w < length (buffer t))%nat as Hn by (unfold n, w; nia).
    destruct (lookup_lt_is_Some_2 _ _ Hn) as [e He].
    destruct (copy_cell x (y + 1) x y t2 e) as (t3 & E3 & H3 & B3); [apply H2|split; lia|split; lia| |].
    { rewrite En. destruct M2 as [_ M2]. rewrite M2, decide_False by lia. done. }
    exists t3. split; [done|]. split; [by eapply keeps_trans|]. rewrite B3.
    assert (at_cell x y t2 = n) as -> by (unfold at_cell; by rewrite Ew2).
    replace (Z.to_nat (y * width_chars t + (x + 1))) with (S n) by (unfold n; lia). apply moved_step; [lia|done..].
  - lia.
  - split; [done|]. by rewrite Z.add_0_r.
  - exists t2. split; [done|]. rewrite Ew, Z.add_0_l in H2.
    replace ((y + 1) * width_chars t) with (y * width_chars t + width_chars t) by lia. exact H2.
Qed.

(** The last row is cleared. *)
Lemma scroll_clears t : ok true t ->
  exists t1, each (fun x t => clear_at x (height_chars t - 1) t) (seqZ 0 (width_chars t)) t = Some t1 /\ keeps true t t1 /\
  cleared (Z.to_nat ((height_chars t - 1) * width_chars t)) (Z.to_nat (width_chars t)) (buffer t) (buffer t1).
Proof.
  intros H. pose proof (proj1 H) as (Hw & Hh & Hl). set (k := Z.to_nat ((height_chars t - 1) * width_chars t)).
  apply (each_count (fun x t2 => keeps true t t2 /\ cleared k (Z.to_nat x) (buffer t) (buffer t2))); [|lia|].
  - intros x t2 Hx [H2 C2]. pose proof (rest_fields _ _ (proj1 H2)) as (Ew2 & Eh2 & _).
    destruct (set_char_at_ok (b := true) x (height_chars t2 - 1) 32 default_fg_color default_bg_color t2) as (t3 & E3 & H3 & B3);
      [apply H2|split; lia|apply blank_writable|].
    exists t3. split; [done|]. split; [by eapply keeps_trans|]. rewrite B3.
    assert (at_cell x (height_chars t2 - 1) t2 = (k + Z.to_nat x)%nat) as -> by (unfold at_cell, k; rewrite Ew2, Eh2; nia).
    replace (Z.to_nat (x + 1)) with (S (Z.to_nat x)) by lia. apply cleared_step; [|done]. unfold k. nia.
  - split; [by apply keeps_refl|]. split; [done|]. intros i. by rewrite decide_False by lia.
Qed.

(** [scroll] moves every row up and blanks the last. *)
Lemma scroll_cells t : ok true t ->
  exists t', scroll t = Some (set_needs true t') /\ keeps true t t' /\
  buffer t' = drop (Z.to_nat (width_chars t)) (buffer t) ++ replicate (Z.to_nat (width_chars t)) blank.
Proof.
  intros H. pose proof (proj1 H) as (Hw & Hh & Hl). unfold scroll.
  destruct (scroll_moves t H) as (t1 & -> & H1 & M1). cbn [mbind option_bind].
  pose proof (rest_fields _ _ (proj1 H1)) as (Ew & Eh & _).
  destruct (scroll_clears t1 (keeps_ok _ _ H1)) as (t2 & E2 & H2 & C2). rewrite Ew in E2. rewrite E2.
  exists t2. split; [done|]. split; [by eapply keeps_trans|]. rewrite Ew, Eh in C2.
  apply cleared_tail in C2; [|destruct M1 as [-> _]; nia]. rewrite C2. f_equal.
  replace (Z.to_nat ((height_chars t - 1) * width_chars t)) with (Z.to_nat (width_chars t) * Z.to_nat (height_chars t - 1))%nat in * by nia.
  apply scroll_rows; [nia|done].
Qed.

(** What text does not change. *)
Definition mode (t : VirtualTerminal) : Z * Z * Pen * Csi * bool := (width_chars t, height_chars t, pen t, csi t, insert_mode t).

Lemma rest_mode t t' : rest t' = rest t -> mode t' = mode t.
Proof. intros E. apply rest_fields in E as (Ew & Eh & Ep & _ & _ & _ & _ & Ec & Ei). unfold mode. by rewrite Ew, Eh, Ep, Ec, Ei. Qed.

Lemma redraw_cursor_page t : inv true t ->
  exists t', redraw_cursor t = Some t' /\ page t' = page t /\ mode t' = mode t.
Proof.
  intros (Hok & _ & Ho & _). destruct (redraw_cursor_ok t Hok Ho) as (t' & E & _ & Er & Eb). exists t'. split; [done|].
  apply rest_mode in Er as Em. apply rest_fields in Er as (_ & _ & _ & Ex & Ey & _). unfold page. rewrite Ex, Ey, Eb. by split.
Qed.

(** The end of a character, on the page. *)
Lemma settle_page t :
  ok true t -> framed t -> 0 <= cursor_x t -> 0 <= cursor_y t ->
  cursor_y t < height_chars t \/ (cursor_y t = height_chars t /\ cursor_x t < width_chars t) ->
  exists t', settle t = Some t' /\ page t' = page_advance (width_chars t) (height_chars t) (page t) /\ mode t' = mode t.
Proof.
  intros Hok Hf Hx Hy Hy'. assert (0 < width_chars t /\ 0 < height_chars t) as [Hw Hh] by (destruct Hok as [(?&?&?) _]; lia).
  unfold settle, page_advance. cbn [p_x p_y p_cells page].
  set (t1 := if width_chars t <=? cursor_x t then _ else _).
  assert (ok true t1 /\ framed t1 /\ mode t1 = mode t /\ 0 <= cursor_x t1 < width_chars t1 /\ 0 <= cursor_y t1 <= height_chars t1)
    as (Hok1 & Hf1 & Hm1 & Hx1 & Hy1).
  { unfold t1. destruct (Z.leb_spec (width_chars t) (cursor_x t)); (split; [exact Hok|]; split; [exact Hf|]; split; [done|]); cbn; lia. }
  assert (page t1 = if width_chars t <=? cursor_x t then mkPage (buffer t) 0 (cursor_y t + 1) else page t) as Hp
    by (unfold t1; by destruct (_ <=? _)).
  clearbody t1. fold (page t). rewrite <- Hp, <- Hm1. cbn [p_x p_y p_cells page].
  injection Hm1 as Ew1 Eh1 _ _ _. rewrite <- Ew1, <- Eh1.
  assert (exists t2, (if height_chars t1 <=? cursor_y t1 then s ← scroll t1; Some (with_cursor (cursor_x s) (cursor_y s - 1) s)
                      else Some t1) = Some t2 /\ inv true t2 /\ mode t2 = mode t1 /\
     page t2 = if height_chars t1 <=? cursor_y t1 then
                 mkPage (drop (Z.to_nat (width_chars t1)) (buffer t1) ++ replicate (Z.to_nat (width_chars t1)) blank) (cursor_x t1) (cursor_y t1 - 1)
               else page t1) as (t2 & -> & H2 & Hm2 & Hp2).
  { destruct (Z.leb_spec (height_chars t1) (cursor_y t1)); [|exists t1; split; [done|split; [split; [done|split; [split; lia|done]]|done]]].
    destruct (scroll_cells t1 Hok1) as (s & -> & Hs & Hb). cbn [mbind option_bind]. eexists. split; [done|].
    pose proof (rest_fields _ _ (proj1 Hs)) as (Ew & Eh & _ & Ex & Ey & _).
    split; [|split; [apply (rest_mode _ _ (proj1 Hs))|unfold page; cbn; by rewrite Ex, Ey, Hb]].
    split; [apply Hs|]. split; [|apply (framed_rest t1 s (proj1 Hs) Hf1)]. cbn. split; cbn; rewrite ?Ew, ?Eh, ?Ex, ?Ey; lia. }
  cbn [mbind option_bind]. destruct (redraw_cursor_page t2 H2) as (t3 & -> & Hp3 & Hm3). cbn [mbind option_bind].
  eexists. split; [done|]. rewrite <- Hp2, <- Hm2. by split.
Qed.

Definition text_ready (t : VirtualTerminal) : Prop := inv true t /\ csi_progress (csi t) = 0 /\ insert_mode t = false.

Lemma write_char_page c t :
  text_ready t -> is_text c ->
  exists t', write_char c t = Some t' /\
             page t' = page_char (width_chars t) (height_chars t) (pen_cell (pen t)) c (page t) /\ mode t' = mode t.
Proof.
  intros (H & Hp & Hi) Hc. pose proof (inv_bounds t H) as (Hw & Hh & Hx & Hy). pose proof H as (Hok & Hcur & Hf).
  unfold write_char, page_char. rewrite Hp. cbn [Z.eqb].
  destruct (Z.eqb_spec c 8) as [->|].
  { destruct (Z.ltb_spec 0 (cursor_x t)).
    - destruct (redraw_cursor_page (set_needs true (with_cursor (cursor_x t - 1) (cursor_y t) t))) as (t' & E & Hpg & Hm).
      { split; [exact Hok|]. split; [split; cbn; lia|exact Hf]. }
      exists t'. split; [done|]. split; [|done]. rewrite Hpg. unfold page. cbn. f_equal. lia.
    - eexists. split; [done|]. split; [|done]. unfold page. cbn. f_equal. lia. }
  destruct (Z.eqb_spec c 9) as [->|]; [unfold is_text in Hc; lia|].
  destruct (Z.eqb_spec c 13) as [->|].
  { destruct (settle_page (with_cursor 0 (cursor_y t) t)) as (t' & E & Hpg & Hm); [exact Hok|exact Hf|cbn; lia..|].
    exists t'. split; [done|]. split; [|done]. rewrite Hpg. unfold page_advance. cbn.
    destruct (Z.leb_spec (width_chars t) 0); [lia|]. cbn. by destruct (Z.leb_spec (height_chars t) (cursor_y t)); [lia|]. }
  destruct (Z.eqb_spec c 10) as [->|].
  { cbn [orb Z.eqb Pos.eqb]. apply (settle_page (set_needs true (with_cursor 0 (cursor_y t + 1) t))); [exact Hok|exact Hf|cbn; lia..]. }
  assert (32 <= c < 127) as Hr by (unfold is_text in Hc; lia).
  rewrite !(proj2 (Z.eqb_neq c _)) by lia. cbn [orb]. unfold plain_char, make_room. rewrite Hi. cbn [mbind option_bind].
  destruct Hf as (Hold & [Hfg Hbg] & Hcsi).
  destruct (set_char_at_ok (b := true) (cursor_x t) (cursor_y t) c (Z.lor (current_fg (pen t)) (if is_bold (pen t) then bold_flag else 0))
              (current_bg (pen t)) t Hok Hcur) as (t1 & E & Hk & Hb).
  { intros _. split; [lia|]. split; [|done]. destruct (is_bold (pen t)); [by apply bold_range|].
    rewrite Z.lor_0_r. unfold color in Hfg. lia. }
  unfold set_char_at_cursor. rewrite E. cbn [mbind option_bind].
  pose proof (rest_fields _ _ (proj1 Hk)) as (Ew & Eh & _ & Ex & Ey & _).
  destruct (settle_page (with_cursor (cursor_x t1 + 1) (cursor_y t1) t1)) as (t' & E' & Hpg & Hm);
    [apply Hk|apply (framed_rest t t1 (proj1 Hk)); by split_and!|cbn; lia..|].
  exists t'. split; [done|]. split; [|by rewrite Hm, <- (rest_mode _ _ (proj1 Hk))].
  rewrite Hpg. unfold page. cbn. by rewrite Ew, Eh, Ex, Ey, Hb.
Qed.

Lemma text_ready_step c t t' : text_ready t -> is_text c -> write_char c t = Some t' -> mode t' = mode t -> text_ready t'.
Proof.
  intros (H & Hp & Hi) Hc E Hm. injection Hm as _ _ _ Ec Ei. split; [|by rewrite Ec, Ei].
  destruct (write_char_inv true c t H) as (t1 & E1 & H1); [|unfold is_text in Hc; split; [done|lia]|by simplify_eq].
  intros [[? _]|[? _]]; congruence.
Qed.

(** C29: The terminal refines the page: text of printable characters, line ends and
    backspaces, as long as one likes, does to the cells and the cursor what it
    does to a page of the same size, on which a character is put at the cursor,
    a full line continues on the next, and behind the last row the page moves
    up; the colours and modes stay. *)
Theorem terminal_refines_page cs t :
  text_ready t -> Forall is_text cs ->
  exists t', write_chars cs t = Some t' /\
    page t' = fold_left (fun p c => page_char (width_chars t) (height_chars t) (pen_cell (pen t)) c p) cs (page t) /\
    mode t' = mode t.
Proof.
  intros Hr Hcs. revert t Hr. induction Hcs as [|c cs Hc Hcs IH]; intros t Hr; [by exists t|].
  destruct (write_char_page c t Hr Hc) as (t1 & E & Hp & Hm). destruct (IH t1) as (t' & E' & Hp' & Hm');
    [by eapply text_ready_step|].
  exists t'. unfold write_chars in *. cbn [each fold_left]. rewrite E. split; [done|]. injection Hm as Ew Eh Epen Ec Ei.
  rewrite Ew, Eh, Epen, Hp in Hp'. split; [done|]. rewrite Hm'. unfold mode. by rewrite Ew, Eh, Epen, Ec, Ei.
Qed.

(** ** Where the code does not do what it means to *)

(** In insert mode the last cell of a line moves into the first of the next. *)
Lemma insert_mode_spills t i :
  sized t -> width_chars t - 1 = i -> 0 <= cursor_y t < height_chars t - 1 ->
  index (i + 1) (cursor_y t) t = index 0 (cursor_y t + 1) t.
Proof.
  intros (? & ? & _) <- Hy. unfold index. rewrite !(u64_small (cursor_y t)), !(u64_small (cursor_y t + 1)) by lia.
  rewrite (u64_small (width_chars t - 1 + 1)) by lia. change (u64 0) with 0. rewrite !u64_small by nia. f_equal. nia.
Qed.

(** A byte above 127 is a negative character, whose sign fills its cell: it is
    drawn in its colours once and becomes bold white on white when the cell is
    drawn again. *)
Lemma negative_char_colors c fg bg :
  -128 <= c < 0 -> cell_fg (ColoredChar c fg bg) = 33554431 /\ cell_bg (ColoredChar c fg bg) = 16777215.
Proof.
  intros Hc. assert (forall n, 8 <= n < 64 -> Z.testbit (ColoredChar c fg bg) n = true) as Hbits.
  { intros n Hn. unfold ColoredChar, uN. rewrite Z.lor_spec, Z.mod_pow2_bits_low by lia.
    replace c with (Z.lnot (- c - 1)) by (unfold Z.lnot; lia). rewrite Z.lnot_spec by lia.
    rewrite <- (Z.mod_small (- c - 1) (2 ^ 8)) by lia. by rewrite Z.mod_pow2_bits_high by lia. }
  unfold cell_fg, cell_bg. change 33554431 with (Z.ones 25). change 16777215 with (Z.ones 24).
  split; apply Z.bits_inj'; intros n Hn; rewrite Z.land_spec, Z.shiftr_spec by lia;
    rewrite Z.testbit_ones_nonneg by lia; (destruct (Z.ltb_spec n 24), (Z.ltb_spec n 25); try lia);
    rewrite ?andb_false_r, ?Hbits by lia; done.
Qed.

(** ** Examples *)

Definition small_terminal : option VirtualTerminal := VirtualTerminal_new 40 48 8 16.
Definition cell_chars (t : option VirtualTerminal) : option (list Z) := t' ← t; Some (map cell_c (buffer t')).

(** [ESC \[ 2 ; 1 H] is row 2, column 1 of a terminal; here the first number is
    the column. *)
Example cursor_position_swapped :
  (t ← small_terminal; t' ← write_chars [27; 91; 50; 59; 49; 72] t; Some (cursor_x t', cursor_y t')) = Some (1, 0).
Proof. vm_compute. reflexivity. Qed.

(** [ESC \[ 0 P] deletes no character or one; here it erases the line from the
    cursor on, each cell being moved onto itself and then cleared. *)
Example delete_none_erases :
  (t ← small_terminal; cell_chars (write_chars ([65; 66; 67; 68; 13] ++ [27; 91; 48; 80]) t)) =
  (t ← small_terminal; cell_chars (Some t)).
Proof. vm_compute. reflexivity. Qed.

(** A character put in the last line in insert mode stops the kernel, or writes
    behind the cells. *)
Example insert_last_line_stops :
  (t ← small_terminal; write_chars ([10; 10] ++ [27; 91; 52; 104] ++ [65]) t) = None.
Proof. vm_compute. reflexivity. Qed.

(** [redraw], after it has filled the screen with the background, draws no
    character but the one under the cursor: no cell changes. *)
Example redraw_draws_nothing :
  (t ← small_terminal; t1 ← write_chars [65; 66] t; t2 ← redraw 40 48 t1;
   Some (length (filter (fun d => match d with DrawChar _ _ _ _ _ => true | _ => false end = true) (drawn t2)),
         length (filter (fun d => match d with DrawChar _ _ _ _ _ => true | _ => false end = true) (drawn t1)))) =
  Some (3%nat, 2%nat).
Proof. vm_compute. reflexivity. Qed.

Lemma terminal_stays_well_formed_witness :
  fits 40 8 /\ fits 48 16 /\
  exists t0, VirtualTerminal_new 40 48 8 16 = Some t0 /\
  ((exists t, write_chars [65; 27; 91; 51; 49; 109; 10; 66] t0 = Some t /\ inv false t) \/
   (exists cs1 c cs2 t, [65; 27; 91; 51; 49; 109; 10; 66] = cs1 ++ c :: cs2 /\ write_chars cs1 t0 = Some t /\ inv false t /\ stuck t)).
Proof.
  assert (fits 40 8 /\ fits 48 16) as [H1 H2] by (unfold fits; vm_compute; intuition congruence).
  split; [exact H1|]. split; [exact H2|].
  apply (terminal_stays_well_formed 40 48 8 16 [65; 27; 91; 51; 49; 109; 10; 66] H1 H2).
Defined.

Lemma small_terminal_ready : exists t, small_terminal = Some t /\ text_ready t.
Proof.
  destruct (new_inv true 40 48 8 16) as (t & E & H); [unfold fits; vm_compute; intuition congruence..|].
  exists t. split; [done|]. split; [done|]. vm_compute in E. injection E as <-. by split.
Qed.

Lemma terminal_screen_shows_cells_witness :
  exists t t', small_terminal = Some t /\ inv true t /\ write_char 65 t = Some t' /\ inv true t' /\
    on_screen 0 0 t' /\ cell <$> buffer t' !! at_cell 0 0 t' = Some (shown (drawn t') 0 0).
Proof.
  destruct small_terminal_ready as (t & E & H & Hp & Hi).
  destruct (terminal_screen_shows_cells 65 t H Hi ltac:(lia)) as (t' & E' & H' & Hs).
  { intros [[? _]|[? _]]; congruence. }
  pose proof (inv_bounds t' H') as (? & ? & _ & _). assert (on_screen 0 0 t') as Hon by (split; lia).
  exists t, t'. do 5 (split; [done|]). by apply Hs.
Defined.

Lemma terminal_refines_page_witness :
  exists t t', small_terminal = Some t /\ text_ready t /\ Forall is_text [72; 105; 10; 33] /\
    write_chars [72; 105; 10; 33] t = Some t' /\ map cell_c (p_cells (page t')) = [72; 105; 32; 32; 32; 33; 32; 32; 32; 32; 32; 32; 32; 32; 32].
Proof.
  destruct small_terminal_ready as (t & E & H).
  assert (Forall is_text [72; 105; 10; 33]) as Hcs by (repeat constructor; unfold is_text; lia).
  destruct (terminal_refines_page [72; 105; 10; 33] t H Hcs) as (t' & E' & Hp & _).
  exists t, t'. do 4 (split; [done|]). rewrite Hp. vm_compute in E. injection E as <-. vm_compute. reflexivity.
Defined.
