(* ===== verification/Epoll.v ===== *)
(** epoll (src/kernel/src/userland/epoll.cpp) over the vnodes of VNode.v.

    An epoll is named by its vnode.  A wait whose descriptions have been freed
    is [None]: the registrations keep no reference. *)
From S2P Require Import Prelude KList RingBuffer FdTable Signal VNode Pipe.

Definition EPOLLET : Z := 2147483648.
Definition EPOLL_CTL_ADD : Z := 1.
Definition EPOLL_CTL_DEL : Z := 2.
Definition EPOLL_CTL_MOD : Z := 3.
Definition EPOLL_CLOEXEC : Z := 524288.

Record epoll_event : Type := mkEpollEvent { ee_events : Z; ee_data : Z }.
Record RegisteredEvent : Type := mkRegistered { re_description : Z; old_revents : Z; user_events : epoll_event }.
Definition no_event : RegisteredEvent := mkRegistered 0 0 (mkEpollEvent 0 0).

(** [wait_events] starts with the event of a wait's timer. *)
Record EPoll : Type := mkEPoll {
  key_to_events_index : @HashTable.HashTable Z Z;
  events : list RegisteredEvent;
  wait_events : list Z;
  first_free_event : Z
}.
Definition EPoll_new : EPoll := mkEPoll (HashTable.new 16) [] [0] 0.

Definition EPoll_poll (evs : Z) : Z := if has evs POLLIN then POLLIN else 0.

(** The first free entry from [i] on, in the entries from there on. *)
Fixpoint free_index (i : Z) (l : list RegisteredEvent) : option Z :=
  match l with
  | [] => None
  | r :: l => if re_description r =? 0 then Some i else free_index (i + 1) l
  end.
Definition allocate_events_index (e : EPoll) : Z * EPoll :=
  match free_index (first_free_event e) (drop (Z.to_nat (first_free_event e)) (events e)) with
  | Some i => (i, mkEPoll (key_to_events_index e) (events e) (wait_events e) (i + 1))
  | None =>
      let n := Z.of_nat (length (events e)) in
      (n, mkEPoll (key_to_events_index e) (events e ++ [no_event]) (wait_events e ++ [0]) n)
  end.

Definition hash_combine (old_hash new_hash : Z) : Z :=
  Z.lxor old_hash (u64 (new_hash + 11400714819323198485 + u64 (Z.shiftl old_hash 6) + Z.shiftr old_hash 2)).
Definition calculate_key (fd p : Z) : Z := hash_combine (hash64 (u64 fd)) (hash64 p).

(** The switch of [epoll_ctl]: [p] is the description of [fd] and [ev] the
    event of its vnode. *)
Definition epoll_ctl (op fd p ev : Z) (user_event : epoll_event) (e : EPoll) : option (Z * EPoll) :=
  let key := calculate_key fd p in
  index_ptr ← HashTable.get hash64 key (key_to_events_index e);
  if op =? EPOLL_CTL_ADD then
    match index_ptr with
    | Some _ => Some (- EEXIST, e)
    | None =>
        let (index, e1) := allocate_events_index e in
        t ← HashTable.emplace hash64 key index (key_to_events_index e1);
        Some (0, mkEPoll t (<[Z.to_nat index := mkRegistered p 0 user_event]> (events e1))
                   (<[Z.to_nat (index + 1) := ev]> (wait_events e1)) (first_free_event e1))
    end
  else if op =? EPOLL_CTL_MOD then
    match index_ptr with
    | None => Some (- ENOENT, e)
    | Some index =>
        Some (0, mkEPoll (key_to_events_index e)
                   (alter (fun r => mkRegistered (re_description r) (old_revents r) user_event) (Z.to_nat index) (events e))
                   (wait_events e) (first_free_event e))
    end
  else if op =? EPOLL_CTL_DEL then
    match index_ptr with
    | None => Some (- ENOENT, e)
    | Some index =>
        t ← HashTable.remove hash64 key (key_to_events_index e);
        Some (0, mkEPoll t (<[Z.to_nat index := no_event]> (events e)) (<[Z.to_nat (index + 1) := 0]> (wait_events e))
                   (if index <? first_free_event e then index else first_free_event e))
    end
  else Some (- EINVAL, e).

Section EpollCalls.
Context {V : Type} `{!VNodeOps V}.
(** The event of each vnode. *)
Context (event_of : Z -> Z).

Record EpSys : Type := mkEp { ep_sys : Sys V; epolls : gmap Z EPoll }.
Definition set_epoll (vn : Z) (e : EPoll) (s : EpSys) : EpSys := mkEp (ep_sys s) (<[vn := e]> (epolls s)).

(** [p] and [vn] are the new description and the new vnode. *)
Definition epoll_create1_impl (p vn fl : Z) (s : EpSys) : Z * EpSys :=
  if negb (Z.ldiff fl EPOLL_CLOEXEC =? 0) then (- EINVAL, s)
  else
    let (epfd, f) := install_fd p vn O_RDONLY (has fl EPOLL_CLOEXEC) (sys_fds (ep_sys s)) in
    (epfd, mkEp (set_fds f (ep_sys s)) (<[vn := EPoll_new]> (epolls s))).
Definition syscall_epoll_create (p vn size : Z) (s : EpSys) : Z * EpSys :=
  if size <=? 0 then (- EINVAL, s) else epoll_create1_impl p vn 0 s.
Definition syscall_epoll_create1 (p vn fl : Z) (s : EpSys) : Z * EpSys := epoll_create1_impl p vn fl s.

(** The epoll of a descriptor, or the error of a call on it. *)
Definition get_epoll (epfd : Z) (s : EpSys) : option (Z + Z * EPoll) :=
  let p := get_file_description epfd (sys_fds (ep_sys s)) in
  if p =? 0 then Some (inl (- EBADF))
  else
    d ← descriptions (sys_fds (ep_sys s)) !! p;
    Some (match epolls s !! vnode d with None => inl (- EINVAL) | Some e => inr (vnode d, e) end).

Definition syscall_epoll_ctl (epfd op fd : Z) (user_event : epoll_event) (s : EpSys) : option (Z * EpSys) :=
  r ← get_epoll epfd s;
  match r with
  | inl err => Some (err, s)
  | inr (vn, e) =>
      let p := get_file_description fd (sys_fds (ep_sys s)) in
      if p =? 0 then Some (- EBADF, s)
      else
        d ← descriptions (sys_fds (ep_sys s)) !! p;
        '(ret, e1) ← epoll_ctl op fd p (event_of (vnode d)) user_event e;
        Some (ret, set_epoll vn e1 s)
  end.

(** [description->vnode->poll(description, events)] *)
Definition node_poll (p evs : Z) (s : EpSys) : option Z :=
  d ← descriptions (sys_fds (ep_sys s)) !! p;
  match epolls s !! vnode d with
  | Some _ => Some (EPoll_poll evs)
  | None => v ← sys_nodes (ep_sys s) !! vnode d; Some (vn_poll (flags d) evs v)
  end.

(** One pass over the entries. *)
Fixpoint epoll_scan (maxevents num_ready : Z) (l : list RegisteredEvent) (s : EpSys)
    : option (list epoll_event * list RegisteredEvent) :=
  match l with
  | [] => Some ([], [])
  | r :: l =>
      if re_description r =? 0 then '(out, l') ← epoll_scan maxevents num_ready l s; Some (out, r :: l')
      else
        new_revents ← node_poll (re_description r) (ee_events (user_events r)) s;
        let revents := if has (ee_events (user_events r)) EPOLLET then Z.ldiff new_revents (old_revents r) else new_revents in
        let r' := mkRegistered (re_description r) (u32 new_revents) (user_events r) in
        if revents =? 0 then '(out, l') ← epoll_scan maxevents num_ready l s; Some (out, r' :: l')
        else
          let o := mkEpollEvent (u32 revents) (ee_data (user_events r)) in
          if maxevents <=? num_ready + 1 then Some ([o], r' :: l)
          else '(out, l') ← epoll_scan maxevents (num_ready + 1) l s; Some (o :: out, r' :: l')
  end.

(** The waiting loop; beside the system, whether the wait's timer has fired. *)
Definition epoll_try (vn maxevents : Z) (block : bool) (sf : EpSys * bool) : attempt (EpSys * bool) (Z * list epoll_event) :=
  match epolls (fst sf) !! vn with
  | None => Crash
  | Some e =>
      match epoll_scan maxevents 0 (events e) (fst sf) with
      | None => Crash
      | Some (out, l) =>
          let s' := set_epoll vn (mkEPoll (key_to_events_index e) l (wait_events e) (first_free_event e)) (fst sf) in
          let n := Z.of_nat (length out) in
          if 0 <? n then Return (n, out) (s', snd sf)
          else if negb block then Return (0, []) (s', snd sf)
          else Block (s', snd sf)
      end
  end.

(** [timer] is the event of the wait's timer. *)
Definition epoll_pwait2_impl (timer epfd maxevents : Z) (timeout : option (Z * Z)) (sigmask : option Z)
    : proc (EpSys * bool) (Z * list epoll_event) := fun sf ws =>
  let s := fst sf in
  if maxevents <=? 0 then Done (- EINVAL, []) sf ws
  else
    match get_epoll epfd s with
    | None => Crashed
    | Some (inl err) => Done (err, []) sf ws
    | Some (inr (vn, e)) =>
        match install_poll_mask sigmask (sys_thread (ep_sys s)) with
        | None => Crashed
        | Some (r, t) =>
            let s1 := mkEp (set_thread t (ep_sys s)) (epolls s) in
            match r with
            | Some ret => Done (ret, []) (s1, snd sf) ws
            | None =>
                let timed := match timeout with Some (sec, n) => negb ((sec =? 0) && (n =? 0)) | None => false end in
                let block := match timeout with Some _ => timed | None => true end in
                let s2 := set_epoll vn (mkEPoll (key_to_events_index e) (events e)
                            (<[0%nat := if timed then timer else 0]> (wait_events e)) (first_free_event e)) s1 in
                run_blocking (epoll_try vn maxevents block) (- EINTR, [])
                  (fun sf' => if snd sf' then Some (0, []) else None) (s2, snd sf) ws
            end
        end
    end.

Definition milliseconds (timeout : Z) : option (Z * Z) :=
  if 0 <=? timeout then Some (Z.quot timeout 1000, Z.rem timeout 1000 * 1000000) else None.
Definition syscall_epoll_wait timer epfd maxevents timeout :=
  epoll_pwait2_impl timer epfd maxevents (milliseconds timeout) None.
Definition syscall_epoll_pwait timer epfd maxevents timeout sigmask :=
  epoll_pwait2_impl timer epfd maxevents (milliseconds timeout) sigmask.
Definition syscall_epoll_pwait2 timer epfd maxevents timeout sigmask :=
  epoll_pwait2_impl timer epfd maxevents timeout sigmask.

End EpollCalls.
Arguments EpSys V : clear implicits.

(** ** Registrations *)

(** What [epoll_ctl] does to the registered pairs of descriptor and description. *)
Definition abstract_ctl (op fd p : Z) (ue : epoll_event) (M : gmap (Z * Z) epoll_event) : Z * gmap (Z * Z) epoll_event :=
  if op =? EPOLL_CTL_ADD then
    match M !! (fd, p) with Some _ => (- EEXIST, M) | None => (0, <[(fd, p) := ue]> M) end
  else if op =? EPOLL_CTL_MOD then
    match M !! (fd, p) with None => (- ENOENT, M) | Some _ => (0, <[(fd, p) := ue]> M) end
  else if op =? EPOLL_CTL_DEL then
    match M !! (fd, p) with None => (- ENOENT, M) | Some _ => (0, delete (fd, p) M) end
  else (- EINVAL, M).

Definition key_of (a : Z * Z) : Z := calculate_key (fst a) (snd a).
Definition live (r : RegisteredEvent) : Prop := re_description r <> 0.

(** The table [m] of keys and the entries hold the registrations [M]. *)
Record holds (l : list RegisteredEvent) (m : gmap Z Z) (M : gmap (Z * Z) epoll_event) : Prop := {
  holds_entry : forall a ue, M !! a = Some ue ->
    exists i o, m !! key_of a = Some (Z.of_nat i) /\ l !! i = Some (mkRegistered (snd a) o ue);
  holds_key : forall k i, m !! k = Some i -> exists a, k = key_of a /\ is_Some (M !! a);
  holds_desc : forall a ue, M !! a = Some ue -> snd a <> 0;
  holds_inj : forall k k' i, m !! k = Some i -> m !! k' = Some i -> k = k';
  holds_live : forall i r, l !! i = Some r -> live r -> exists k, m !! k = Some (Z.of_nat i)
}.

Definition epoll_wf (e : EPoll) : Prop :=
  length (wait_events e) = S (length (events e)) /\ 0 <= first_free_event e <= Z.of_nat (length (events e)) /\
  forall i r, events e !! i = Some r -> Z.of_nat i < first_free_event e -> live r.

Definition registers (e : EPoll) (M : gmap (Z * Z) epoll_event) : Prop :=
  epoll_wf e /\ exists m, HashTable.represents hash64 (key_to_events_index e) m /\ holds (events e) m M.

Lemma free_index_spec i l :
  match free_index i l with
  | Some j => exists n, j = i + Z.of_nat n /\ (exists r, l !! n = Some r /\ ~ live r) /\ (forall k r, (k < n)%nat -> l !! k = Some r -> live r)
  | None => forall k r, l !! k = Some r -> live r
  end.
Proof.
  revert i. induction l as [|r l IH]; intros i; cbn [free_index]; [done|]. unfold live in *.
  destruct (Z.eqb_spec (re_description r) 0) as [E|E].
  - exists 0%nat. split; [lia|]. split; [exists r; split; [done|lia]|lia].
  - specialize (IH (i + 1)). destruct (free_index (i + 1) l) as [j|].
    + destruct IH as (n & -> & (r' & Hr' & Hl) & Hlt). exists (S n). split; [lia|]. split; [by exists r'|].
      intros [|k] r0 Hk Hr0; [by injection Hr0 as <-|]. apply (Hlt k); [lia|done].
    + intros [|k] r0 Hr0; [by injection Hr0 as <-|]. by apply (IH k).
Qed.

(** The allocated entry is free, and nothing else changes. *)
Lemma allocate_spec e i e1 :
  epoll_wf e -> allocate_events_index e = (i, e1) ->
  exists n r, i = Z.of_nat n /\ events e1 !! n = Some r /\ ~ live r /\
    (forall k r', k <> n -> events e1 !! k = Some r' <-> events e !! k = Some r') /\
    (forall r', events e !! n = Some r' -> ~ live r') /\
    length (wait_events e1) = S (length (events e1)) /\ key_to_events_index e1 = key_to_events_index e /\
    0 <= first_free_event e1 <= Z.of_nat n + 1 /\ (n < length (events e1))%nat /\
    (forall k r', events e1 !! k = Some r' -> (k < n)%nat -> live r').
Proof.
  intros (Hw & Hf & Hlive) H. unfold allocate_events_index in H.
  pose proof (free_index_spec (first_free_event e) (drop (Z.to_nat (first_free_event e)) (events e))) as Hs.
  destruct (free_index _ _) as [j|].
  - injection H as <- <-. destruct Hs as (n & -> & (r & Hr & Hl) & Hlt). rewrite lookup_drop in Hr.
    exists (Z.to_nat (first_free_event e) + n)%nat, r. pose proof (lookup_lt_Some _ _ _ Hr).
    split_and!; cbn; try done; try lia.
    + intros r' Hr'. by simplify_eq.
    + intros k r' Hr' Hk. destruct (decide (Z.of_nat k < first_free_event e)); [by eapply Hlive|].
      apply (Hlt (k - Z.to_nat (first_free_event e))%nat); [lia|]. rewrite lookup_drop. rewrite <- Hr'. f_equal. lia.
  - injection H as <- <-. exists (length (events e)), no_event. cbn.
    split_and!; try done; try lia.
    + by apply list_lookup_middle.
    + unfold live. cbn. lia.
    + intros k r' Hk. destruct (decide (k < length (events e))%nat); [by rewrite lookup_app_l|].
      rewrite (lookup_ge_None_2 (events e)), lookup_ge_None_2 by (rewrite ?length_app; cbn; lia). done.
    + intros r' Hr'. apply lookup_lt_Some in Hr'. lia.
    + rewrite !length_app. cbn. lia.
    + rewrite length_app. cbn. lia.
    + intros k r' Hr' Hk. rewrite lookup_app_l in Hr' by done.
      destruct (decide (Z.of_nat k < first_free_event e)); [by eapply Hlive|].
      apply (Hs (k - Z.to_nat (first_free_event e))%nat). rewrite lookup_drop. rewrite <- Hr'. f_equal. lia.
Qed.

(** No other registered pair has the key of [a]. *)
Definition own_key (a : Z * Z) (M : gmap (Z * Z) epoll_event) : Prop :=
  forall b, is_Some (M !! b) -> key_of b = key_of a -> b = a.

Section Ctl.
Context (l : list RegisteredEvent) (m : gmap Z Z) (M : gmap (Z * Z) epoll_event) (a : Z * Z) (ue : epoll_event).

Lemma holds_absent : holds l m M -> own_key a M -> M !! a = None -> m !! key_of a = None.
Proof.
  intros H Hown Ha. destruct (m !! key_of a) as [i|] eqn:E; [|done].
  destruct (holds_key _ _ _ H _ _ E) as (b & Hk & Hb). rewrite (Hown b Hb) in Hb by done. rewrite Ha in Hb. by destruct Hb.
Qed.

Lemma key_ne b : own_key a M -> is_Some (M !! b) -> b <> a -> key_of b <> key_of a.
Proof. intros Hown Hb Hne E. by apply Hne, Hown. Qed.

Lemma holds_add l1 n r :
  holds l m M -> own_key a M -> M !! a = None -> snd a <> 0 ->
  l1 !! n = Some r -> (forall r', l !! n = Some r' -> ~ live r') ->
  (forall k r', k <> n -> l1 !! k = Some r' <-> l !! k = Some r') ->
  holds (<[n := mkRegistered (snd a) 0 ue]> l1) (<[key_of a := Z.of_nat n]> m) (<[a := ue]> M).
Proof.
  intros H Hown Ha Hp Hn Hfree Hsame. pose proof (lookup_lt_Some _ _ _ Hn) as Hlt.
  assert (forall k, m !! k <> Some (Z.of_nat n)) as Hunused.
  { intros k Hk. destruct (holds_key _ _ _ H _ _ Hk) as (b & -> & [ub Hb]).
    destruct (holds_entry _ _ _ H _ _ Hb) as (i & o & Hi & Hl). rewrite Hk in Hi. injection Hi as E.
    apply Nat2Z.inj in E as ->. apply (Hfree _ Hl). unfold live. cbn. intros E0.
    by apply (holds_desc _ _ _ H _ _ Hb). }
  split.
  - intros b ub Hb. destruct (decide (b = a)) as [->|Hne].
    + rewrite lookup_insert_eq in Hb. injection Hb as <-. exists n, 0. rewrite lookup_insert_eq, list_lookup_insert_eq by done. done.
    + rewrite lookup_insert_ne in Hb by done. destruct (holds_entry _ _ _ H _ _ Hb) as (i & o & Hi & Hl). exists i, o.
      rewrite lookup_insert_ne by (intros E; apply (key_ne b Hown); [by eexists|done|done]). split; [done|].
      assert (i <> n) by (intros ->; by apply (Hunused (key_of b))). rewrite list_lookup_insert_ne by done. by apply Hsame.
  - intros k i Hk. destruct (decide (k = key_of a)) as [->|Hne].
    + exists a. split; [done|]. rewrite lookup_insert_eq. by eexists.
    + rewrite lookup_insert_ne in Hk by done. destruct (holds_key _ _ _ H _ _ Hk) as (b & -> & Hb). exists b. split; [done|].
      rewrite lookup_insert_ne by (by intros ->). done.
  - intros b ub Hb. destruct (decide (b = a)) as [->|Hne]; [done|]. rewrite lookup_insert_ne in Hb by done.
    by eapply holds_desc.
  - intros k k' i Hk Hk'. rewrite !lookup_insert in Hk, Hk'. repeat case_decide; simplify_eq; try done;
      try (by destruct (Hunused _ Hk)); try (by destruct (Hunused _ Hk')). by eapply (holds_inj _ _ _ H).
  - intros i r' Hi Hl. destruct (decide (i = n)) as [->|Hne].
    + exists (key_of a). by rewrite lookup_insert_eq.
    + rewrite list_lookup_insert_ne in Hi by done. apply Hsame in Hi; [|done]. destruct (holds_live _ _ _ H _ _ Hi Hl) as (k & Hk).
      exists k. rewrite lookup_insert_ne; [done|]. intros <-. rewrite (holds_absent H Hown Ha) in Hk. done.
Qed.

(** An entry of a key is that of the pair with the key. *)
Lemma holds_at i : holds l m M -> own_key a M -> m !! key_of a = Some i ->
  exists ua n o, M !! a = Some ua /\ i = Z.of_nat n /\ l !! n = Some (mkRegistered (snd a) o ua).
Proof.
  intros H Hown Hi. destruct (holds_key _ _ _ H _ _ Hi) as (b & Hk & Hb). assert (b = a) as -> by (by apply Hown).
  destruct Hb as [ua Ha]. destruct (holds_entry _ _ _ H _ _ Ha) as (n & o & Hn & Hl). rewrite Hi in Hn.
  injection Hn as ->. by exists ua, n, o.
Qed.

Lemma entry_of_other n b ub :
  holds l m M -> own_key a M -> m !! key_of a = Some (Z.of_nat n) -> b <> a -> M !! b = Some ub ->
  exists i o, i <> n /\ m !! key_of b = Some (Z.of_nat i) /\ l !! i = Some (mkRegistered (snd b) o ub).
Proof.
  intros H Hown Hn Hne Hb. destruct (holds_entry _ _ _ H _ _ Hb) as (i & o & Hi & Hl). exists i, o. split; [|done].
  intros ->. apply (key_ne b Hown); [by eexists|done|]. by eapply (holds_inj _ _ _ H).
Qed.

Lemma holds_mod n o ua :
  holds l m M -> own_key a M -> M !! a = Some ua -> m !! key_of a = Some (Z.of_nat n) -> l !! n = Some (mkRegistered (snd a) o ua) ->
  holds (alter (fun r => mkRegistered (re_description r) (old_revents r) ue) n l) m (<[a := ue]> M).
Proof.
  intros H Hown Ha Hn Hl. split.
  - intros b ub Hb. destruct (decide (b = a)) as [->|Hne].
    + rewrite lookup_insert_eq in Hb. injection Hb as <-. exists n, o. split; [done|]. by rewrite list_lookup_alter_eq, Hl.
    + rewrite lookup_insert_ne in Hb by done. destruct (entry_of_other n b ub H Hown Hn Hne Hb) as (i & o' & Hi & ? & ?).
      exists i, o'. split; [done|]. by rewrite list_lookup_alter_ne.
  - intros k i Hk. destruct (holds_key _ _ _ H _ _ Hk) as (b & -> & Hb). exists b. split; [done|].
    destruct (decide (b = a)) as [->|]; [rewrite lookup_insert_eq; by eexists|by rewrite lookup_insert_ne].
  - intros b ub Hb. destruct (decide (b = a)) as [->|Hne]; [by eapply holds_desc|]. rewrite lookup_insert_ne in Hb by done.
    by eapply holds_desc.
  - apply (holds_inj _ _ _ H).
  - intros i r Hi Hr. destruct (decide (i = n)) as [->|Hne]; [by exists (key_of a)|].
    rewrite list_lookup_alter_ne in Hi by done. by eapply (holds_live _ _ _ H).
Qed.

Lemma holds_del n o ua :
  holds l m M -> own_key a M -> M !! a = Some ua -> m !! key_of a = Some (Z.of_nat n) -> l !! n = Some (mkRegistered (snd a) o ua) ->
  holds (<[n := no_event]> l) (delete (key_of a) m) (delete a M).
Proof.
  intros H Hown Ha Hn Hl. pose proof (lookup_lt_Some _ _ _ Hl) as Hlt. split.
  - intros b ub Hb. apply lookup_delete_Some in Hb as [Hne Hb]. assert (b <> a) as Hne' by done.
    destruct (entry_of_other n b ub H Hown Hn Hne' Hb) as (i & o' & Hi & Hk & ?). exists i, o'.
    rewrite lookup_delete_ne, list_lookup_insert_ne by (first [done | intros E; apply (key_ne b Hown); [by eexists|done|done]]).
    done.
  - intros k i Hk. apply lookup_delete_Some in Hk as [Hne Hk]. destruct (holds_key _ _ _ H _ _ Hk) as (b & -> & Hb).
    exists b. split; [done|]. rewrite lookup_delete_ne; [done|]. by intros ->.
  - intros b ub Hb. apply lookup_delete_Some in Hb as [_ Hb]. by eapply holds_desc.
  - intros k k' i Hk Hk'. apply lookup_delete_Some in Hk as [_ Hk]. apply lookup_delete_Some in Hk' as [_ Hk'].
    by eapply (holds_inj _ _ _ H).
  - intros i r Hi Hr. destruct (decide (i = n)) as [->|Hne].
    + rewrite list_lookup_insert_eq in Hi by done. injection Hi as <-. by destruct Hr.
    + rewrite list_lookup_insert_ne in Hi by done. destruct (holds_live _ _ _ H _ _ Hi Hr) as (k & Hk). exists k.
      rewrite lookup_delete_ne; [done|]. intros <-. rewrite Hn in Hk. injection Hk as E. by apply Nat2Z.inj in E.
Qed.
End Ctl.

(** A new epoll has no registrations. *)
Lemma registers_new : registers EPoll_new ∅.
Proof.
  split; [split; [done|]; split; [cbn; lia|]; by intros [|i] r Hi|].
  exists ∅. split; [by apply HashTable.new_represents|]. split; intros *; rewrite ?lookup_empty; try done.
Qed.

Lemma registers_add fd p ev ue e M :
  registers e M -> own_key (fd, p) M -> p <> 0 -> M !! (fd, p) = None ->
  exists e', epoll_ctl EPOLL_CTL_ADD fd p ev ue e = Some (0, e') /\ registers e' (<[(fd, p) := ue]> M).
Proof.
  intros (Hwf & m & Hr & Hh) Hown Hp Ha. pose proof (holds_absent _ _ _ _ Hh Hown Ha) as Hkey.
  unfold epoll_ctl. change (calculate_key fd p) with (key_of (fd, p)).
  rewrite (HashTable.get_represents _ _ _ _ Hr), Hkey. cbn [mbind option_bind Z.eqb EPOLL_CTL_ADD Pos.eqb].
  destruct (allocate_events_index e) as [i e1] eqn:Ea.
  destruct (allocate_spec _ _ _ Hwf Ea) as (n & r & -> & Hn & Hdead & Hsame & Hfree & Hlen & Ht & Hff & Hlt & Hbefore).
  rewrite Ht. destruct (HashTable.emplace_represents hash64 _ _ (key_of (fd, p)) (Z.of_nat n) Hr Hkey) as (t & -> & Hr').
  cbn [mbind option_bind]. eexists. split; [done|]. rewrite Nat2Z.id. split.
  - split; [cbn; by rewrite !length_insert|]. split; [cbn; rewrite length_insert; lia|]. cbn. intros k r' Hk Hkf.
    destruct (decide (k = n)) as [->|Hne]; [rewrite list_lookup_insert_eq in Hk by done; by injection Hk as <-|].
    rewrite list_lookup_insert_ne in Hk by done. apply (Hbefore k); [done|lia].
  - exists (<[key_of (fd, p) := Z.of_nat n]> m). split; [done|].
    apply (holds_add (events e) m M (fd, p) ue (events e1) n r Hh Hown Ha Hp Hn Hfree). done.
Qed.

Lemma wf_update e l' w' f' t' :
  epoll_wf e -> length l' = length (events e) -> length w' = length (wait_events e) -> 0 <= f' <= first_free_event e ->
  (forall i r, l' !! i = Some r -> Z.of_nat i < f' -> live r) -> epoll_wf (mkEPoll t' l' w' f').
Proof. intros (? & ? & ?) Hl Hw Hf Hlive. split; cbn; [lia|]. split; [lia|done]. Qed.

Lemma epoll_ctl_step op fd p ev ue e M :
  registers e M -> own_key (fd, p) M -> p <> 0 ->
  exists e', epoll_ctl op fd p ev ue e = Some (fst (abstract_ctl op fd p ue M), e') /\
             registers e' (snd (abstract_ctl op fd p ue M)).
Proof.
  intros H Hown Hp. destruct (decide (op = EPOLL_CTL_ADD /\ M !! (fd, p) = None)) as [[-> Ha]|Hno].
  { unfold abstract_ctl. rewrite Ha. by apply registers_add. }
  pose proof H as ((Hwl & Hwf & Hlive) & m & Hr & Hh). unfold epoll_ctl, abstract_ctl. change (calculate_key fd p) with (key_of (fd, p)).
  rewrite (HashTable.get_represents _ _ _ _ Hr). cbn [mbind option_bind].
  destruct (m !! key_of (fd, p)) as [i|] eqn:Hi.
  - destruct (holds_at _ _ _ _ _ Hh Hown Hi) as (ua & n & o & Ha & -> & Hn). pose proof (lookup_lt_Some _ _ _ Hn) as Hlt.
    rewrite Ha, Nat2Z.id. destruct (op =? EPOLL_CTL_ADD); [by exists e|].
    destruct (op =? EPOLL_CTL_MOD).
    { eexists. split; [done|]. split.
      - apply (wf_update e); [done|by rewrite length_alter|done|cbn; lia|]. intros k r Hk Hkf.
        destruct (decide (k = n)) as [->|Hne]; [|rewrite list_lookup_alter_ne in Hk by done; by eapply Hlive].
        rewrite list_lookup_alter_eq, Hn in Hk. injection Hk as <-. done.
      - exists m. split; [done|]. by eapply holds_mod. }
    destruct (op =? EPOLL_CTL_DEL); [|by exists e].
    destruct (HashTable.remove_represents hash64 _ _ (key_of (fd, p)) Hr) as (t & -> & Hr'). cbn [mbind option_bind].
    eexists. split; [done|]. split; [|exists (delete (key_of (fd, p)) m); split; [done|by eapply holds_del]].
    apply (wf_update e); [done|by rewrite length_insert|by rewrite length_insert|..].
    + cbn. destruct (Z.ltb_spec (Z.of_nat n) (first_free_event e)); lia.
    + intros k r Hk Hkf. destruct (Z.ltb_spec (Z.of_nat n) (first_free_event e)).
      * rewrite list_lookup_insert_ne in Hk by lia. eapply Hlive; [done|lia].
      * rewrite list_lookup_insert_ne in Hk by lia. by eapply Hlive.
  - assert (M !! (fd, p) = None) as Ha.
    { destruct (M !! (fd, p)) as [ua|] eqn:E; [|done]. destruct (holds_entry _ _ _ Hh _ _ E) as (n & o & Hk & _). congruence. }
    rewrite Ha. destruct (Z.eqb_spec op EPOLL_CTL_ADD) as [->|]; [by destruct Hno|].
    repeat case_match; by exists e.
Qed.

(** A call: operation, descriptor, description, event of its vnode, and the
    user's event. *)
Definition ctl_call : Type := Z * Z * Z * Z * epoll_event.
Fixpoint ctl_run (cs : list ctl_call) (e : EPoll) : option (list Z * EPoll) :=
  match cs with
  | [] => Some ([], e)
  | (op, fd, p, ev, ue) :: cs => '(r, e1) ← epoll_ctl op fd p ev ue e; '(rs, e') ← ctl_run cs e1; Some (r :: rs, e')
  end.
Fixpoint abstract_run (cs : list ctl_call) (M : gmap (Z * Z) epoll_event) : list Z * gmap (Z * Z) epoll_event :=
  match cs with
  | [] => ([], M)
  | (op, fd, p, ev, ue) :: cs =>
      let (r, M1) := abstract_ctl op fd p ue M in let (rs, M') := abstract_run cs M1 in (r :: rs, M')
  end.
Definition call_pair (c : ctl_call) : Z * Z := let '(_, fd, p, _, _) := c in (fd, p).

(** The interest list is a map: as long as the descriptors and descriptions the
    calls name have different keys, any sequence of additions, changes and
    removals returns what it returns on a map from those pairs, and leaves the
    entries of that map. *)
Theorem epoll_ctl_refines_map cs :
  (forall a b, a ∈ map call_pair cs -> b ∈ map call_pair cs -> key_of a = key_of b -> a = b) ->
  Forall (fun c => snd (call_pair c) <> 0) cs ->
  exists e, ctl_run cs EPoll_new = Some (fst (abstract_run cs ∅), e) /\ registers e (snd (abstract_run cs ∅)).
Proof.
  intros Hkeys Hp. set (D := map call_pair cs) in *.
  assert (forall c, c ∈ cs -> call_pair c ∈ D) as HD by (intros c Hc; apply list_elem_of_fmap; by exists c).
  clearbody D. assert (forall a, is_Some ((∅ : gmap (Z * Z) epoll_event) !! a) -> a ∈ D) as HM
    by (intros a [ue Ha]; by rewrite lookup_empty in Ha).
  pose proof registers_new as H. revert H HM. generalize EPoll_new as e. generalize (∅ : gmap (Z * Z) epoll_event) as M.
  induction cs as [|[[[[op fd] p] ev] ue] cs IH]; intros M e H HM; [by exists e|].
  inversion_clear Hp as [|? ? Hp1 Hp2]. cbn [ctl_run abstract_run].
  assert ((fd, p) ∈ D) as Hfd by (apply (HD (op, fd, p, ev, ue)); left).
  assert (own_key (fd, p) M) as Hown by (intros b Hb Hk; apply Hkeys; [by apply HM|done|done]).
  destruct (epoll_ctl_step op fd p ev ue e M H Hown Hp1) as (e1 & E & H1). rewrite E. cbn [mbind option_bind].
  destruct (abstract_ctl op fd p ue M) as [r M1] eqn:Eabs. cbn [fst snd] in H1.
  destruct (IH Hp2 (fun c Hc => HD c (list_elem_of_further _ _ _ Hc)) M1 e1 H1) as (e' & E' & H').
  { intros a Ha. unfold abstract_ctl in Eabs. repeat (case_match; simplify_eq; try by apply HM).
    - destruct (decide (a = (fd, p))) as [->|]; [done|]. rewrite lookup_insert_ne in Ha by done. by apply HM.
    - destruct (decide (a = (fd, p))) as [->|]; [done|]. rewrite lookup_insert_ne in Ha by done. by apply HM.
    - apply HM. destruct Ha as [x Ha]. apply lookup_delete_Some in Ha as [_ Ha]. by eexists. }
  rewrite E'. cbn [mbind option_bind]. destruct (abstract_run cs M1) as [rs M']. by exists e'.
Qed.

(** ** Waiting *)
Section Waiting.
Context {V : Type} `{!VNodeOps V}.

(** What a pass reports of an entry in the state [s]: the outer [None] is a
    description that is gone. *)
Definition report (s : EpSys V) (r : RegisteredEvent) : option (option epoll_event) :=
  if re_description r =? 0 then Some None
  else
    n ← node_poll (re_description r) (ee_events (user_events r)) s;
    let revents := if has (ee_events (user_events r)) EPOLLET then Z.ldiff n (old_revents r) else n in
    Some (if revents =? 0 then None else Some (mkEpollEvent (u32 revents) (ee_data (user_events r)))).

Definition same_registration (r r' : RegisteredEvent) : Prop :=
  re_description r' = re_description r /\ user_events r' = user_events r.

Lemma epoll_scan_spec maxevents num_ready l s reports :
  0 <= num_ready < maxevents -> mapM (report s) l = Some reports ->
  exists out l', epoll_scan maxevents num_ready l s = Some (out, l') /\
    out = take (Z.to_nat (maxevents - num_ready)) (omap id reports) /\ Forall2 same_registration l l'.
Proof.
  revert num_ready reports. induction l as [|r l IH]; intros n reports Hn Hr.
  { injection Hr as <-. exists [], []. cbn. by rewrite take_nil. }
  cbn [mapM] in Hr. destruct (report s r) as [o|] eqn:Eo; [|done]. cbn in Hr.
  destruct (mapM (report s) l) as [os|] eqn:Eos; [|done]. cbn in Hr. injection Hr as <-.
  assert (forall n, 0 <= n < maxevents -> exists out l', epoll_scan maxevents n l s = Some (out, l') /\
    out = take (Z.to_nat (maxevents - n)) (omap id os) /\ Forall2 same_registration l l') as IHn by (intros; by apply IH).
  cbn [epoll_scan]. unfold report in Eo.
  destruct (re_description r =? 0).
  { injection Eo as <-. destruct (IHn n Hn) as (out & l' & -> & -> & Hl). exists (take (Z.to_nat (maxevents - n)) (omap id os)), (r :: l').
    split; [done|]. split; [done|]. by constructor. }
  destruct (node_poll _ _ s) as [v|]; [|done]. cbn [mbind option_bind] in Eo |- *. injection Eo as <-.
  set (revents := if has _ EPOLLET then _ else _). destruct (revents =? 0).
  { destruct (IHn n Hn) as (out & l' & -> & -> & Hl). eexists _, _. split; [done|]. split; [done|]. by constructor. }
  destruct (Z.leb_spec maxevents (n + 1)).
  - eexists _, _. split; [done|]. split; [|constructor; [done|by apply Forall_Forall2_diag, Forall_true]].
    assert (Z.to_nat (maxevents - n) = 1%nat) as -> by lia. cbn. by rewrite take_0.
  - destruct (IHn (n + 1) ltac:(lia)) as (out & l' & -> & -> & Hl). eexists _, _. split; [done|].
    split; [|by constructor]. replace (Z.to_nat (maxevents - n)) with (S (Z.to_nat (maxevents - (n + 1)))) by lia. done.
Qed.

(** A pass reports only what its entries have, and all of it unless it is full. *)
Definition reported (s : EpSys V) (room : Z) (l : list RegisteredEvent) (out : list epoll_event) : Prop :=
  Z.of_nat (length out) <= room /\ (forall o, o ∈ out -> exists r, r ∈ l /\ report s r = Some (Some o)) /\
  (Z.of_nat (length out) < room -> forall r o, r ∈ l -> report s r = Some (Some o) -> o ∈ out).

Lemma reported_skip s room r l out : reported s room l out -> report s r = Some None -> reported s room (r :: l) out.
Proof.
  intros (Hl & Hin & Hall) Hr. split; [done|]. split.
  - intros o Ho. destruct (Hin o Ho) as (r0 & ? & ?). exists r0. split; [by right|done].
  - intros Hlt r0 o [->|H]%elem_of_cons Ho; [congruence|by eapply Hall].
Qed.

Lemma reported_cons s room r l out o :
  reported s (room - 1) l out -> report s r = Some (Some o) -> reported s room (r :: l) (o :: out).
Proof.
  intros (Hl & Hin & Hall) Hr. split; [cbn; lia|]. split.
  - intros o' [->|Ho]%elem_of_cons; [exists r; split; [left|done]|]. destruct (Hin o' Ho) as (r0 & ? & ?).
    exists r0. split; [by right|done].
  - intros Hlt r0 o' [->|H]%elem_of_cons Ho; [rewrite Hr in Ho; injection Ho as <-; left|]. right. eapply Hall; [cbn in Hlt; lia|done..].
Qed.

Lemma epoll_scan_reports maxevents num_ready l s out l' :
  0 <= num_ready < maxevents -> epoll_scan maxevents num_ready l s = Some (out, l') -> reported s (maxevents - num_ready) l out.
Proof.
  revert num_ready out l'. induction l as [|r l IH]; intros n out l' Hn H; cbn [epoll_scan] in H.
  { injection H as <- <-. split; [cbn; lia|]. split; [intros o Ho; by apply elem_of_nil in Ho|].
    intros _ r o Hr. by apply elem_of_nil in Hr. }
  assert (report s r = report s r) as Er by done. unfold report in Er at 2.
  destruct (re_description r =? 0).
  { destruct (epoll_scan maxevents n l s) as [[out1 l1]|] eqn:E; [|done]. cbn in H. injection H as <- <-.
    apply reported_skip; [by eapply IH|done]. }
  destruct (node_poll _ _ s) as [v|]; [|done]. cbn [mbind option_bind] in H, Er.
  set (revents := if has _ EPOLLET then _ else _) in *. destruct (revents =? 0).
  { destruct (epoll_scan maxevents n l s) as [[out1 l1]|] eqn:E; [|done]. cbn in H. injection H as <- <-.
    apply reported_skip; [by eapply IH|done]. }
  destruct (Z.leb_spec maxevents (n + 1)).
  - injection H as <- <-. split; [cbn; lia|]. split; [|cbn; lia]. intros o ->%list_elem_of_singleton. exists r. split; [left|done].
  - destruct (epoll_scan maxevents (n + 1) l s) as [[out1 l1]|] eqn:E; [|done]. cbn in H. injection H as <- <-.
    apply reported_cons; [|done]. replace (maxevents - n - 1) with (maxevents - (n + 1)) by lia. eapply IH; [lia|done].
Qed.

Lemma get_epoll_error epfd (s : EpSys V) err : get_epoll epfd s = Some (inl err) -> err < 0.
Proof.
  unfold get_epoll. intros H. destruct (_ =? 0); [by injection H as <-|]. destruct (descriptions _ !! _) as [d|]; [|done].
  cbn in H. destruct (epolls s !! vnode d); [done|]. by injection H as <-.
Qed.

(** A wait that returns a positive number has stored that many events, no more
    than there is room for; in the state its last pass found, each of them is
    what a registered description's poll answers, and when there was room left
    every registered description that was ready is among them. *)
Theorem epoll_wait_reports timer epfd maxevents timeout sigmask sf ws n out sf' ws' :
  epoll_pwait2_impl timer epfd maxevents timeout sigmask sf ws = Done (n, out) sf' ws' -> 0 < n ->
  n = Z.of_nat (length out) /\ n <= maxevents /\
  exists vn e s0 l, epolls s0 !! vn = Some e /\ reported s0 maxevents (events e) out /\
    fst sf' = set_epoll vn (mkEPoll (key_to_events_index e) l (wait_events e) (first_free_event e)) s0.
Proof.
  unfold epoll_pwait2_impl. intros H Hn. destruct (Z.leb_spec maxevents 0); [by simplify_eq|].
  destruct (get_epoll epfd (fst sf)) as [[err|[vn e]]|] eqn:Eg; [| |done].
  { apply get_epoll_error in Eg. simplify_eq. lia. }
  destruct (install_poll_mask sigmask _) as [[[r|] t]|] eqn:Hm; [|clear Hm|done].
  { simplify_eq. unfold install_poll_mask in Hm. repeat (case_match; simplify_eq; try done). }
  apply run_blocking_inv in H as [[E _]|[[E _]|(s0 & _ & Ht)]]; [simplify_eq; done| |].
  { destruct (snd sf'); simplify_eq; lia. }
  unfold epoll_try in Ht. destruct (epolls (fst s0) !! vn) as [e0|] eqn:He; [|done].
  destruct (epoll_scan maxevents 0 (events e0) (fst s0)) as [[out0 l]|] eqn:Es; [|done].
  destruct (Z.ltb_spec 0 (Z.of_nat (length out0))).
  - injection Ht as <- <- <-. apply epoll_scan_reports in Es; [|lia]. rewrite Z.sub_0_r in Es.
    split; [done|]. split; [apply Es|]. exists vn, e0, (fst s0), l. done.
  - destruct (negb _); simplify_eq; lia.
Qed.

(** ** Where the code does not do what it means to *)

(** An edge is a bit that was not in the answer of the last pass: a description
    that was drained and filled again in between is not reported. *)
Lemma edge_lost s r v :
  live r -> has (ee_events (user_events r)) EPOLLET = true ->
  node_poll (re_description r) (ee_events (user_events r)) s = Some v -> old_revents r = v -> report s r = Some None.
Proof.
  intros Hl He Hv <-. unfold report. destruct (Z.eqb_spec (re_description r) 0); [done|]. rewrite Hv. cbn [mbind option_bind].
  rewrite He. by rewrite Z.ldiff_diag.
Qed.

End Waiting.

(** ** Examples *)

(** A process with the reading end of an empty pipe at descriptor 0. *)
Definition pipe_example : Pipe := mkPipe 1 1 (RingBuffer_init (replicate 4096 0)) 0.
Definition ep_example : EpSys Pipe :=
  let (_, f) := install_fd 4096 1 0 false (mkFdState (replicate 8 0) 0 0 ∅ [] ∅) in
  mkEp (mkSys f {[1 := pipe_example]} (thread_example 0)) ∅.
(** Other threads write to the pipe and read from it while the caller is not
    in a call. *)
Definition outside_write (buf : list Z) (s : EpSys Pipe) : EpSys Pipe :=
  match sys_nodes (ep_sys s) !! 1 with
  | Some p => match Pipe_write 1 buf 0 p with
              | Return _ p' => mkEp (set_node 1 p' (ep_sys s)) (epolls s)
              | _ => s
              end
  | None => s
  end.
Definition drain (s : EpSys Pipe) : EpSys Pipe :=
  match syscall_read 0 100 (ep_sys s) [] with Done _ s' _ => mkEp s' (epolls s) | _ => s end.

Definition edge_wait (s : EpSys Pipe) : outcome (EpSys Pipe * bool) (Z * list epoll_event) :=
  syscall_epoll_wait 77 1 8 (-1) (s, false) [].

(** Data that comes after a drained pipe's last wait is never reported to an
    edge-triggered wait: it sleeps though there is something to read. *)
Example edge_triggered_sleeps :
  let '(epfd, s) := syscall_epoll_create1 8192 2 0 ep_example in
  match syscall_epoll_ctl (fun _ => 50) epfd EPOLL_CTL_ADD 0 (mkEpollEvent (Z.lor POLLIN EPOLLET) 5) s with
  | Some (0, s1) =>
      match edge_wait (outside_write [1; 2] s1) with
      | Done (n, out) (s2, _) _ =>
          n = 1 /\ out = [mkEpollEvent POLLIN 5] /\
          let s3 := outside_write [3] (drain s2) in
          node_poll 4096 POLLIN s3 = Some POLLIN /\ edge_wait s3 = Asleep
      | _ => False
      end
  | _ => False
  end.
Proof. vm_compute. repeat split; reflexivity. Qed.

Definition ctl_example : list ctl_call :=
  [(1, 0, 4096, 50, mkEpollEvent 1 5); (1, 3, 8192, 51, mkEpollEvent 4 6); (1, 0, 4096, 50, mkEpollEvent 1 7);
   (3, 0, 4096, 50, mkEpollEvent 4 8); (2, 3, 8192, 51, mkEpollEvent 0 0); (3, 3, 8192, 51, mkEpollEvent 1 1)].

Lemma epoll_ctl_refines_map_witness :
  exists e, ctl_run ctl_example EPoll_new = Some ([0; 0; -17; 0; 0; -2], e) /\
    registers e {[(0, 4096) := mkEpollEvent 4 8]}.
Proof.
  destruct (epoll_ctl_refines_map ctl_example) as (e & E & H).
  - assert (Forall (fun a => Forall (fun b => key_of a = key_of b -> a = b) (map call_pair ctl_example)) (map call_pair ctl_example))
      as Hall by (apply (bool_decide_unpack _); vm_compute; exact I).
    intros a b Ha Hb. rewrite Forall_forall in Hall. pose proof (Hall a Ha) as Hab. rewrite Forall_forall in Hab. by apply Hab.
  - unfold ctl_example. repeat constructor; cbn; lia.
  - exists e. split; [exact E|exact H].
Defined.

Definition waiting_example : EpSys Pipe :=
  let '(epfd, s) := syscall_epoll_create1 8192 2 0 ep_example in
  match syscall_epoll_ctl (fun _ => 50) epfd EPOLL_CTL_ADD 0 (mkEpollEvent POLLIN 5) s with
  | Some (_, s1) => outside_write [1; 2] s1
  | None => s
  end.

Lemma epoll_wait_reports_witness :
  exists s' vn e s0,
    epoll_pwait2_impl 77 1 8 None None (waiting_example, false) [] = Done (1, [mkEpollEvent POLLIN 5]) (s', false) [] /\
    epolls s0 !! vn = Some e /\ reported s0 8 (events e) [mkEpollEvent POLLIN 5].
Proof.
  assert (exists s', epoll_pwait2_impl 77 1 8 None None (waiting_example, false) [] =
    Done (1, [mkEpollEvent POLLIN 5]) (s', false) []) as [s' E] by (vm_compute; eexists; reflexivity).
  pose proof (epoll_wait_reports 77 1 8 None None (waiting_example, false) [] 1 [mkEpollEvent POLLIN 5] (s', false) [] E eq_refl) as H.
  clear -E H. destruct H as (_ & _ & vn & e & s0 & l & He & Hr & _).
  exists s', vn, e, s0. split; [exact E|]. split; [exact He|exact Hr].
Defined.
