(* ===== verification/MemFD.v ===== *)
(** Memory files (src/kernel/src/userland/memfd.cpp), a third implementation of
    the interface of VNode.v.

    [memory] is the kernel's mapping at [address], of which the file uses the
    first [size] bytes; its pages come zeroed.  Address space is taken for
    granted. *)
From S2P Require Import Prelude FdTable VNode.

Definition O_LARGEFILE : Z := 32768.
Definition MFD_CLOEXEC : Z := 1.
Definition MFD_ALLOW_SEALING : Z := 2.
Definition F_SEAL_SEAL : Z := 1.

Record MemFD : Type := mkMemFD { size : Z; memory : list Z; seals : Z }.
Definition capacity (m : MemFD) : Z := Z.of_nat (length (memory m)).
Definition MemFD_new : MemFD := mkMemFD 0 [] 0.
Definition with_memory (b : list Z) (m : MemFD) : MemFD := mkMemFD (size m) b (seals m).

Definition grow_to (length : Z) (m : MemFD) : MemFD :=
  if capacity m <? length then mkMemFD length (replicate (Z.to_nat (align_up length PAGE_SIZE)) 0) (seals m)
  else mkMemFD length (memory m) (seals m).

Definition MemFD_read (fl count off : Z) (m : MemFD) : attempt MemFD (Z * list Z) :=
  if size m <=? off then Return (0, []) m
  else
    let actual_count := if size m <? u64 (off + count) then size m - off else count in
    if capacity m <? off + actual_count then Crash
    else Return (actual_count, sub (memory m) off actual_count) m.

Definition MemFD_write (fl : Z) (buf : list Z) (off : Z) (m : MemFD) : attempt MemFD Z :=
  let count := Z.of_nat (length buf) in
  if count =? 0 then Return 0 m
  else
    let m1 := if size m <? u64 (off + count) then grow_to (u64 (off + count)) m else m in
    if capacity m1 <? off + count then Crash
    else Return count (with_memory (blit off buf (memory m1)) m1).

Definition MemFD_seek (position off whence : Z) (m : MemFD) : Z :=
  if whence =? SEEK_SET then off
  else if whence =? SEEK_CUR then i64 (position + off)
  else if whence =? SEEK_END then i64 (size m + off)
  else if whence =? SEEK_DATA then if size m <=? u64 off then - ENXIO else off
  else if whence =? SEEK_HOLE then if size m <=? u64 off then - ENXIO else i64 (size m)
  else - EINVAL.

Definition MemFD_truncate (fl length : Z) (m : MemFD) : option (Z * MemFD) :=
  let m1 :=
    if size m <? length then Some (grow_to length m)
    else if capacity m <? size m then None
    else Some (with_memory (blit length (replicate (Z.to_nat (size m - length)) 0) (memory m)) m) in
  m1 ← m1; Some (0, mkMemFD length (memory m1) (seals m1)).

#[export] Instance MemFD_VNodeOps : VNodeOps MemFD := {
  vn_open := VNode_open;
  vn_close := VNode_close;
  vn_read := MemFD_read;
  vn_write := MemFD_write;
  vn_seek := MemFD_seek;
  vn_poll := VNode_poll
}.

(** [p] and [vn] are the new description and the new vnode. *)
Definition syscall_memfd_create (p vn fl : Z) (s : FdState) : Z * MemFD * FdState :=
  let m := if has fl MFD_ALLOW_SEALING then MemFD_new else mkMemFD 0 [] F_SEAL_SEAL in
  let (mfd, s') := install_fd p vn (Z.lor O_RDWR O_LARGEFILE) (has fl MFD_CLOEXEC) s in
  (mfd, m, mkFdState (file_descriptors s') (num_file_descriptors s') (first_free_fdnum s') (descriptions s') (closed s')
             (<[vn := seals m]> (memfd_seals s'))).

(** ** The interface's promises *)

Definition memfd_wf (m : MemFD) : Prop := 0 <= size m <= capacity m /\ capacity m <= 4611686018427387904.
Definition memfd_content (m : MemFD) : list Z := take (Z.to_nat (size m)) (memory m).

Lemma new_memfd_wf : memfd_wf MemFD_new.
Proof. unfold memfd_wf. vm_compute. intuition congruence. Qed.

Lemma align_up_bounds n : 0 <= n <= 4611686018427387904 -> n <= align_up n PAGE_SIZE <= 4611686018427387904.
Proof.
  intros Hn. destruct (align_up_le n PAGE_SIZE 4611686018427387904) as [_ H]; unfold PAGE_SIZE in *; [lia..|reflexivity|lia].
Qed.

Lemma grow_to_wf n m : memfd_wf m -> 0 <= n <= 4611686018427387904 -> memfd_wf (grow_to n m) /\ n <= capacity (grow_to n m).
Proof.
  intros (Hs & Hc) Hn. unfold grow_to. destruct (Z.ltb_spec (capacity m) n).
  - pose proof (align_up_bounds n Hn). unfold memfd_wf, capacity. cbn. rewrite length_replicate. lia.
  - unfold memfd_wf. cbn. change (capacity (mkMemFD n (memory m) (seals m))) with (capacity m). lia.
Qed.

Lemma memfd_content_sub m off n : memfd_wf m -> 0 <= off -> off + n <= size m -> sub (memfd_content m) off n = sub (memory m) off n.
Proof.
  intros (Hs & _) Ho Hn. unfold sub, memfd_content. unfold capacity in Hs. apply list_eq. intros i.
  destruct (decide (i < Z.to_nat n)%nat).
  - rewrite !lookup_take_lt, !lookup_drop, lookup_take_lt by lia. done.
  - by rewrite !lookup_take_ge by lia.
Qed.

Lemma MemFD_read_spec fl count off m :
  memfd_wf m -> 0 <= count -> 0 <= off -> off + count < 18446744073709551616 ->
  MemFD_read fl count off m = Return (Z.of_nat (length (sub (memfd_content m) off count)), sub (memfd_content m) off count) m.
Proof.
  intros Hwf Hc Ho Hb. pose proof Hwf as [Hs Hcap]. unfold MemFD_read. unfold capacity in *.
  assert (length (memfd_content m) = Z.to_nat (size m)) as Hlen by (unfold memfd_content; rewrite length_take; lia).
  destruct (Z.leb_spec (size m) off) as [Hge|Hlt].
  - unfold sub. rewrite drop_ge by lia. by rewrite take_nil.
  - rewrite u64_small by lia. destruct (Z.ltb_spec (size m) (off + count)).
    + destruct (Z.ltb_spec (Z.of_nat (length (memory m))) (off + (size m - off))); [lia|].
      assert (sub (memfd_content m) off count = sub (memory m) off (size m - off)) as ->.
      { rewrite <- (memfd_content_sub m off (size m - off)) by (done || lia). unfold sub.
        rewrite !take_ge by (rewrite length_drop; lia). done. }
      rewrite sub_length by lia. done.
    + destruct (Z.ltb_spec (Z.of_nat (length (memory m))) (off + count)); [lia|].
      rewrite (memfd_content_sub m off count) by (done || lia). rewrite sub_length by lia. done.
Qed.

Lemma MemFD_write_returns fl buf off m :
  memfd_wf m -> buf <> [] -> 0 <= off -> off + Z.of_nat (length buf) <= 4611686018427387904 ->
  exists m1, MemFD_write fl buf off m = Return (Z.of_nat (length buf)) (with_memory (blit off buf (memory m1)) m1) /\
    memfd_wf m1 /\ m1 = (if size m <? off + Z.of_nat (length buf) then grow_to (off + Z.of_nat (length buf)) m else m) /\
    off + Z.of_nat (length buf) <= capacity m1.
Proof.
  intros Hwf Hne Ho Hb. unfold MemFD_write. assert (0 < Z.of_nat (length buf)) by (destruct buf; cbn; [done|lia]).
  destruct (Z.eqb_spec (Z.of_nat (length buf)) 0); [lia|]. rewrite u64_small by lia. eexists. split; [|split; [|split; [reflexivity|]]].
  - destruct (Z.ltb_spec (size m) (off + Z.of_nat (length buf))) as [Hlt|].
    + destruct (grow_to_wf (off + Z.of_nat (length buf)) m Hwf) as [_ Hg]; [lia|].
      by destruct (Z.ltb_spec (capacity (grow_to (off + Z.of_nat (length buf)) m)) (off + Z.of_nat (length buf))); [lia|].
    + destruct Hwf. by destruct (Z.ltb_spec (capacity m) (off + Z.of_nat (length buf))); [lia|].
  - destruct (Z.ltb_spec (size m) (off + Z.of_nat (length buf))); [apply grow_to_wf; [done|lia]|done].
  - destruct (Z.ltb_spec (size m) (off + Z.of_nat (length buf))); [apply grow_to_wf; [done|lia]|]. destruct Hwf. lia.
Qed.

Lemma with_memory_wf m b : memfd_wf m -> length b = length (memory m) -> memfd_wf (with_memory b m).
Proof. intros H E. unfold memfd_wf, capacity in *. cbn. by rewrite E. Qed.

#[export] Instance MemFD_VNodeFile : VNodeFile MemFD memfd_wf memfd_content.
Proof. intros fl count off m Hwf Hc Ho Hs. by apply MemFD_read_spec. Qed.

#[export] Instance MemFD_VNodeLaws : VNodeLaws MemFD memfd_wf.
Proof.
  split; cbn.
  - intros fl count off m Hwf Hc Ho. rewrite MemFD_read_spec by (done || lia). split; [done|]. right. split; [|done].
    unfold sub. rewrite length_take. lia.
  - intros fl buf off m Hwf _ Hl Ho. destruct (decide (buf = [])) as [->|Hb]; [split; [done|right; done]|].
    destruct (MemFD_write_returns fl buf off m Hwf Hb ltac:(lia) ltac:(lia)) as (m1 & -> & Hw & _).
    split; [apply with_memory_wf; [done|apply blit_length]|]. right. lia.
  - intros fl ev count off m _ _ _ m'. unfold MemFD_read. repeat case_match; done.
Qed.

(** ** What a write does *)

(** A write is read back; every byte elsewhere stays, and the file ends at the
    larger end, as long as the file fits the memory it has. *)
Theorem MemFD_write_spec fl buf off m :
  memfd_wf m -> buf <> [] -> 0 <= off -> off + Z.of_nat (length buf) <= capacity m ->
  exists m', MemFD_write fl buf off m = Return (Z.of_nat (length buf)) m' /\ memfd_wf m' /\
    size m' = Z.max (size m) (off + Z.of_nat (length buf)) /\
    sub (memfd_content m') off (Z.of_nat (length buf)) = buf /\
    forall i, (i < Z.to_nat off \/ Z.to_nat off + length buf <= i)%nat -> (i < Z.to_nat (size m))%nat ->
      memfd_content m' !! i = memfd_content m !! i.
Proof.
  intros Hwf Hne Ho Hb. pose proof Hwf as [Hs Hc].
  destruct (MemFD_write_returns fl buf off m Hwf Hne Ho ltac:(lia)) as (m1 & E & Hw1 & Hm1 & Hle).
  exists (with_memory (blit off buf (memory m1)) m1). split; [done|].
  assert (memory m1 = memory m /\ size m1 = Z.max (size m) (off + Z.of_nat (length buf))) as [Em Es].
  { rewrite Hm1. unfold grow_to. destruct (Z.ltb_spec (size m) (off + Z.of_nat (length buf)));
      [destruct (Z.ltb_spec (capacity m) (off + Z.of_nat (length buf))); [lia|]|]; split; cbn; (done || lia). }
  assert (memfd_wf (with_memory (blit off buf (memory m1)) m1)) as Hw' by (apply with_memory_wf; [done|apply blit_length]).
  split; [done|]. split; [done|]. rewrite Em in *. unfold capacity in *. split.
  - rewrite memfd_content_sub by (done || cbn; lia). cbn. apply list_eq. intros i.
    destruct (decide (i < length buf)%nat).
    + rewrite sub_lookup by lia. rewrite blit_lookup_in by lia. f_equal. lia.
    + unfold sub. rewrite lookup_take_ge by lia. symmetry. apply lookup_ge_None. lia.
  - intros i Hi Hlt. unfold memfd_content. cbn. rewrite Es. rewrite !lookup_take_lt by lia. apply blit_lookup_out. lia.
Qed.

(** ** Where the code does not do what it means to *)

(** A file that outgrows its memory gets new memory and loses its contents. *)
Theorem memfd_growth_loses fl buf off m i :
  memfd_wf m -> buf <> [] -> 0 <= off -> capacity m < off + Z.of_nat (length buf) <= 4611686018427387904 ->
  (i < Z.to_nat (size m))%nat -> (i < Z.to_nat off)%nat ->
  exists m', MemFD_write fl buf off m = Return (Z.of_nat (length buf)) m' /\ memfd_content m' !! i = Some 0.
Proof.
  intros Hwf Hne Ho Hb Hi Hio. pose proof Hwf as [Hs Hc].
  destruct (MemFD_write_returns fl buf off m Hwf Hne Ho ltac:(lia)) as (m1 & E & Hw1 & Hm1 & Hle).
  exists (with_memory (blit off buf (memory m1)) m1). split; [done|]. unfold memfd_content. cbn.
  destruct (Z.ltb_spec (size m) (off + Z.of_nat (length buf))); [|lia]. rewrite Hm1. unfold grow_to.
  destruct (Z.ltb_spec (capacity m) (off + Z.of_nat (length buf))); [|lia]. cbn. rewrite lookup_take_lt by lia.
  rewrite blit_lookup_out by lia. apply lookup_replicate_2. pose proof (align_up_bounds (off + Z.of_nat (length buf))). lia.
Qed.

Definition memfd_example : MemFD := mkMemFD 4 ([1; 2; 3; 4] ++ replicate 4092 0) 0.

Lemma memfd_example_wf : memfd_wf memfd_example.
Proof. unfold memfd_wf, capacity. split; vm_compute; intuition congruence. Qed.

Lemma MemFD_write_spec_witness :
  exists m', MemFD_write 2 [9; 9] 3 memfd_example = Return 2 m' /\ sub (memfd_content m') 3 2 = [9; 9] /\ size m' = 5.
Proof.
  destruct (MemFD_write_spec 2 [9; 9] 3 memfd_example memfd_example_wf ltac:(done) ltac:(lia)) as (m' & E & _ & Hs & Hr & _);
    [vm_compute; congruence|]. exists m'. split; [exact E|]. split; [exact Hr|exact Hs].
Defined.

Lemma memfd_growth_loses_witness :
  exists m', MemFD_write 2 [9] 4096 memfd_example = Return 1 m' /\ memfd_content m' !! 2%nat = Some 0.
Proof.
  apply (memfd_growth_loses 2 [9] 4096 memfd_example 2 memfd_example_wf); [done|lia|vm_compute; intuition congruence|cbn; lia|lia].
Defined.
