(* ===== verification/SignalFD.v ===== *)
(** Descriptors of events that are not data: signalfd
    (src/kernel/src/userland/signalfd.cpp) and the stub of inotify
    (userland/inotify.cpp).

    A signalfd is a mask; its reads and polls are about the pending signals of
    the main thread of the process that makes them. *)
From S2P Require Import Prelude RingBuffer FdTable Signal VNode.

Definition SFD_NONBLOCK : Z := 2048.
Definition SFD_CLOEXEC : Z := 524288.
Definition sizeof_siginfo : Z := 128.

(** ** signalfd *)

(** [signalfd_siginfo]: the number of the signal in its first word. *)
Definition siginfo (signal : Z) : list Z := le_split 4 signal ++ replicate 124 0.

(** The loop over the caller's array, [n] entries of it: the signals taken and
    what is left pending. *)
Fixpoint take_signals (n : nat) (mask pending : Z) : option (list Z * Z) :=
  match n with
  | O => Some ([], pending)
  | S n =>
      let accepted_signals := Z.land pending mask in
      if accepted_signals =? 0 then Some ([], pending)
      else
        signal ← first_signal accepted_signals;
        '(l, kept) ← take_signals n mask (Z.ldiff pending (get_signal_bit signal));
        Some (signal :: l, kept)
  end.

(** There are 64 signals, so 65 turns are as many as any number. *)
Definition SignalFD_read (mask fl count : Z) (t : Thread) : attempt Thread (Z * list Z) :=
  let num_siginfos := count / sizeof_siginfo in
  if num_siginfos <? 1 then Return (- EINVAL, []) t
  else if Z.land (pending_signals t) mask =? 0 then
    if has fl O_NONBLOCK then Return (- EWOULDBLOCK, []) t else Block t
  else
    match take_signals (Z.to_nat (Z.min num_siginfos 65)) mask (pending_signals t) with
    | None => Crash
    | Some (l, kept) => Return (Z.of_nat (length l) * sizeof_siginfo, concat (map siginfo l)) (set_pending kept t)
    end.

Definition SignalFD_poll (mask events : Z) (t : Thread) : Z :=
  if has events POLLIN && has (pending_signals t) mask then POLLIN else 0.

Record SfdSys : Type := mkSfd { sfd_fds : FdState; signalfds : gmap Z Z }.

(** [p] and [vn] are the new description and the new vnode.  The flags of the
    description are a conditional expression whose condition is
    [O_RDONLY | (flags & SFD_NONBLOCK)]. *)
Definition signalfd_impl (p vn fd mask fl : Z) (s : SfdSys) : option (Z * SfdSys) :=
  if negb (Z.ldiff fl (Z.lor SFD_NONBLOCK SFD_CLOEXEC) =? 0) then Some (- EINVAL, s)
  else if fd =? -1 then
    let dfl := if Z.lor O_RDONLY (Z.land fl SFD_NONBLOCK) =? 0 then 0 else O_NONBLOCK in
    let (sfd, f) := install_fd p vn dfl (has fl SFD_CLOEXEC) (sfd_fds s) in
    Some (sfd, mkSfd f (<[vn := mask]> (signalfds s)))
  else
    let q := get_file_description fd (sfd_fds s) in
    if q =? 0 then Some (- EBADF, s)
    else
      d ← descriptions (sfd_fds s) !! q;
      match signalfds s !! vnode d with
      | None => Some (- EINVAL, s)
      | Some _ => Some (fd, mkSfd (sfd_fds s) (<[vnode d := mask]> (signalfds s)))
      end.
Definition syscall_signalfd4 (p vn fd mask mask_size fl : Z) (s : SfdSys) : option (Z * SfdSys) :=
  if negb (mask_size =? 8) then Some (- EINVAL, s) else signalfd_impl p vn fd mask fl s.
Definition syscall_signalfd (p vn fd mask mask_size : Z) (s : SfdSys) : option (Z * SfdSys) :=
  if negb (mask_size =? 8) then Some (- EINVAL, s) else signalfd_impl p vn fd mask 0 s.

(** ** inotify *)

Module INotify.
Definition capacity : Z := 4096.
Record INotify : Type := mkINotify { ring_buffer : RingBuffer Z; wd : Z }.
Definition INotify_new : INotify := mkINotify (RingBuffer_init (replicate (Z.to_nat capacity) 0)) 0.

Definition INotify_read (fl count off : Z) (n : INotify) : attempt INotify (Z * list Z) :=
  if is_empty (ring_buffer n) then if has fl O_NONBLOCK then Return (- EWOULDBLOCK, []) n else Block n
  else
    let '(r, bs, rb) := RingBuffer_read capacity (ring_buffer n) count in
    Return (r, bs) (mkINotify rb (wd n)).
Definition INotify_poll (fl events : Z) (n : INotify) : Z :=
  if has events POLLIN && negb (is_empty (ring_buffer n)) then POLLIN else 0.

Record InSys : Type := mkIn { in_fds : FdState; inotifys : gmap Z INotify }.

Definition inotify_init1_impl (p vn fl : Z) (s : InSys) : Z * InSys :=
  if negb (Z.ldiff fl (Z.lor SFD_NONBLOCK SFD_CLOEXEC) =? 0) then (- EINVAL, s)
  else
    let dfl := if Z.lor O_RDONLY (Z.land fl SFD_NONBLOCK) =? 0 then 0 else O_NONBLOCK in
    let (ifd, f) := install_fd p vn dfl (has fl SFD_CLOEXEC) (in_fds s) in
    (ifd, mkIn f (<[vn := INotify_new]> (inotifys s))).
Definition syscall_inotify_init (p vn : Z) (s : InSys) : Z * InSys := inotify_init1_impl p vn 0 s.
Definition syscall_inotify_init1 (p vn fl : Z) (s : InSys) : Z * InSys := inotify_init1_impl p vn fl s.

Definition get_inotify (ifd : Z) (s : InSys) : option (Z + Z * INotify) :=
  let p := get_file_description ifd (in_fds s) in
  if p =? 0 then Some (inl (- EBADF))
  else
    d ← descriptions (in_fds s) !! p;
    Some (match inotifys s !! vnode d with None => inl (- EINVAL) | Some n => inr (vnode d, n) end).

(** The path and the mask are not looked at. *)
Definition syscall_inotify_add_watch (ifd : Z) (s : InSys) : option (Z * InSys) :=
  r ← get_inotify ifd s;
  match r with
  | inl err => Some (err, s)
  | inr (vn, n) => Some (wd n, mkIn (in_fds s) (<[vn := mkINotify (ring_buffer n) (i32 (wd n + 1))]> (inotifys s)))
  end.
Definition syscall_inotify_rm_watch (ifd : Z) (s : InSys) : option (Z * InSys) :=
  r ← get_inotify ifd s;
  match r with inl err => Some (err, s) | inr _ => Some (0, s) end.
End INotify.

(** ** A read takes the lowest signals *)

(** A strictly increasing list of signals above [low]. *)
Fixpoint rising (low : Z) (l : list Z) : Prop :=
  match l with
  | [] => True
  | s :: l => low < s <= 64 /\ rising s l
  end.

Lemma rising_length low l : rising low l -> low <= 64 -> Z.of_nat (length l) <= 64 - low.
Proof. revert low. induction l as [|s l IH]; intros low H Hl; cbn in *; [lia|]. destruct H as [? H]. specialize (IH s H). lia. Qed.

Lemma land_ldiff_bit pending mask s i :
  1 <= s <= 64 -> 0 <= i ->
  Z.testbit (Z.land (Z.ldiff pending (get_signal_bit s)) mask) i = Z.testbit (Z.land pending mask) i && negb (i =? s - 1).
Proof.
  intros Hs Hi. rewrite !Z.land_spec, Z.ldiff_spec, get_signal_bit_spec by lia.
  destruct (Z.testbit pending i), (Z.testbit mask i), (i =? s - 1); done.
Qed.

Lemma land_range a b : 0 <= a < 2 ^ 64 -> 0 <= Z.land a b < 2 ^ 64.
Proof.
  intros Ha. assert (Z.land a b = Z.land a b mod 2 ^ 64) as ->; [|apply Z.mod_pos_bound; lia].
  apply Z.bits_inj'. intros n Hn. destruct (Z.lt_ge_cases n 64).
  - by rewrite Z.mod_pow2_bits_low by lia.
  - rewrite Z.mod_pow2_bits_high by lia. rewrite Z.land_spec. rewrite <- (Z.mod_small a (2 ^ 64)) by lia.
    by rewrite Z.mod_pow2_bits_high by lia.
Qed.

Lemma ldiff_range64 a b : 0 <= a < 2 ^ 64 -> 0 <= Z.ldiff a b < 2 ^ 64.
Proof. intros Ha. rewrite Z.ldiff_land. by apply land_range. Qed.

Lemma take_signals_spec n mask pending low :
  0 <= pending < 2 ^ 64 -> (forall i, 0 <= i < low -> Z.testbit (Z.land pending mask) i = false) -> 0 <= low ->
  exists l kept, take_signals n mask pending = Some (l, kept) /\ rising low l /\ (length l <= n)%nat /\
    (forall s, s ∈ l -> Z.testbit (Z.land pending mask) (s - 1) = true) /\
    (forall i, 0 <= i -> Z.testbit kept i = Z.testbit pending i && negb (bool_decide (i + 1 ∈ l))) /\
    (Z.land kept mask = 0 \/ length l = n) /\
    (forall s i, s ∈ l -> Z.testbit (Z.land kept mask) i = true -> 0 <= i -> s < i + 1) /\ 0 <= kept < 2 ^ 64.
Proof.
  revert pending low. induction n as [|n IH]; intros pending low Hp Hlow Hl0.
  { exists [], pending. split_and!; try done; try lia; [by intros s ?%elem_of_nil| |by right|by intros s i ?%elem_of_nil].
    intros i Hi. by rewrite andb_true_r. }
  cbn [take_signals]. destruct (Z.eqb_spec (Z.land pending mask) 0) as [E|E].
  { exists [], pending. split_and!; try done; try (cbn; lia); [by intros s ?%elem_of_nil| |by intros s i ?%elem_of_nil].
    intros i Hi. by rewrite andb_true_r. }
  pose proof (land_range pending mask Hp). destruct (first_signal_total (Z.land pending mask)) as [s Hs]; [lia|].
  rewrite Hs. cbn [mbind option_bind]. destruct (first_signal_spec _ _ Hs) as (Hr & Hbit & Hmin).
  assert (low < s) as Hls.
  { destruct (Z.lt_ge_cases (s - 1) low) as [Hlt|]; [|lia]. rewrite (Hlow (s - 1)) in Hbit by lia. done. }
  destruct (IH (Z.ldiff pending (get_signal_bit s)) s) as (l & kept & -> & Hrise & Hlen & Hin & Hleft & Hend & Hgt & Hlr).
  { by apply ldiff_range64. }
  { intros i Hi. rewrite land_ldiff_bit by lia. destruct (Z.eqb_spec i (s - 1)); [by rewrite andb_false_r|].
    rewrite Hmin by lia. done. }
  { lia. }
  cbn [mbind option_bind]. exists (s :: l), kept. split; [done|]. split; [cbn; split; [lia|done]|]. split; [cbn; lia|].
  split.
  { intros s' [->|Hs']%elem_of_cons; [done|]. specialize (Hin _ Hs'). destruct (Z.lt_ge_cases (s' - 1) 0).
    - by rewrite Z.testbit_neg_r in Hin by lia.
    - rewrite land_ldiff_bit in Hin by lia. by apply andb_prop in Hin as [? _]. }
  split.
  { intros i Hi. rewrite Hleft by done. rewrite Z.ldiff_spec, get_signal_bit_spec by lia.
    rewrite <- andb_assoc. f_equal. rewrite <- negb_orb. f_equal. destruct (Z.eqb_spec i (s - 1)) as [->|Hne]; cbn [orb].
    - symmetry. apply bool_decide_eq_true_2. replace (s - 1 + 1) with s by lia. left.
    - apply bool_decide_ext. rewrite elem_of_cons. split; [by right|]. intros [?|?]; [lia|done]. }
  split; [destruct Hend as [?|?]; [by left|right; cbn; lia]|]. split; [|done].
  intros s' i [->|Hs']%elem_of_cons Hi Hi0; [|by eapply Hgt].
  rewrite Z.land_spec, Hleft in Hi by done. rewrite Z.ldiff_spec, get_signal_bit_spec in Hi by lia.
  destruct (Z.lt_ge_cases (i + 1) s) as [Hlt|].
  - specialize (Hmin i ltac:(lia)). rewrite Z.land_spec in Hmin. destruct (Z.testbit pending i), (Z.testbit mask i); rewrite ?andb_false_r in Hi; done.
  - destruct (Z.eqb_spec i (s - 1)); [|lia]. cbn [negb] in Hi. by rewrite andb_false_r in Hi.
Qed.

(** A read of a signalfd whose mask has a pending signal returns, without
    sleeping, the lowest pending signals of the mask in order, as many as there
    are or fit; they are pending no longer, and the others stay. *)
Theorem signalfd_reads_lowest mask fl count t :
  0 <= pending_signals t < 2 ^ 64 -> 1 <= count / sizeof_siginfo -> Z.land (pending_signals t) mask <> 0 ->
  exists l kept, SignalFD_read mask fl count t = Return (Z.of_nat (length l) * sizeof_siginfo, concat (map siginfo l)) (set_pending kept t) /\
    rising 0 l /\ Z.of_nat (length l) <= count / sizeof_siginfo /\
    (forall s, s ∈ l -> Z.testbit (Z.land (pending_signals t) mask) (s - 1) = true) /\
    (forall i, 0 <= i -> Z.testbit kept i = Z.testbit (pending_signals t) i && negb (bool_decide (i + 1 ∈ l))) /\
    (Z.land kept mask = 0 \/ Z.of_nat (length l) = count / sizeof_siginfo) /\
    (forall s i, s ∈ l -> Z.testbit (Z.land kept mask) i = true -> 0 <= i -> s < i + 1).
Proof.
  intros Hp Hc Hm. unfold SignalFD_read. destruct (Z.ltb_spec (count / sizeof_siginfo) 1); [lia|].
  destruct (Z.eqb_spec (Z.land (pending_signals t) mask) 0); [done|].
  destruct (take_signals_spec (Z.to_nat (Z.min (count / sizeof_siginfo) 65)) mask (pending_signals t) 0 Hp)
    as (l & kept & -> & Hrise & Hlen & Hin & Hleft & Hend & Hgt & _); [lia|lia|].
  exists l, kept. pose proof (rising_length _ _ Hrise ltac:(lia)). split; [done|]. split; [done|]. split; [lia|].
  split; [done|]. split; [done|]. split; [|done]. destruct Hend as [?|Hend]; [by left|right; lia].
Qed.

(** Nothing puts an event into the ring of an inotify descriptor. *)
Lemma inotify_silent fl count off :
  has fl O_NONBLOCK = false -> INotify.INotify_read fl count off INotify.INotify_new = Block INotify.INotify_new.
Proof. intros H. unfold INotify.INotify_read. rewrite H. reflexivity. Qed.

Definition pending_example : Thread := set_pending 16386 (thread_example 0).

Lemma signalfd_reads_lowest_witness :
  Z.land (pending_signals pending_example) 16391 <> 0 /\
  exists l kept, SignalFD_read 16391 0 300 pending_example = Return (Z.of_nat (length l) * 128, concat (map siginfo l)) (set_pending kept pending_example) /\
    rising 0 l /\ Z.of_nat (length l) <= 2.
Proof.
  assert (Z.land (pending_signals pending_example) 16391 <> 0) as Hm by (vm_compute; congruence). split; [exact Hm|].
  destruct (signalfd_reads_lowest 16391 0 300 pending_example) as (l & kept & E & Hr & Hl & _);
    [vm_compute; intuition congruence|vm_compute; congruence|exact Hm|].
  exists l, kept. split; [exact E|]. split; [exact Hr|exact Hl].
Defined.
