(* ===== verification/Tty.v ===== *)
(** Terminals as devices: the line discipline and the controls they share
    (src/kernel/src/dev/tty/tty.hpp, tty.cpp), pseudo-terminals (pty.cpp) and
    the console (console.cpp).

    Characters are C [char]s as in Terminal.v; bytes of user buffers are turned
    into them.  A terminal's [termios] is the memory of the structure.  Jobs.v
    has the process groups its signals go to. *)
From S2P Require Import Prelude KList Format RingBuffer Signal Sched Jobs Terminal.

Definition char_of (b : Z) : Z := sN 8 b.
Definition byte_of (c : Z) : Z := uN 8 c.

(** ** termios *)

Definition IGNCR : Z := 128.
Definition ICRNL : Z := 256.
Definition INLCR : Z := 64.
Definition ONLCR : Z := 4.
Definition ISIG : Z := 1.
Definition ICANON : Z := 2.
Definition ECHO : Z := 8.
Definition VINTR : nat := 0.
Definition VQUIT : nat := 1.
Definition VSUSP : nat := 10.
Definition SIGINT : Z := 2.
Definition SIGQUIT : Z := 3.
Definition SIGTSTP : Z := 20.
Definition SIGWINCH : Z := 28.

(** Four flag words, the line, nineteen characters and two speeds. *)
Definition sizeof_ktermios : Z := 44.
Definition sizeof_termios : Z := 36.
Definition c_iflag (tio : list Z) : Z := le_combine (sub tio 0 4).
Definition c_oflag (tio : list Z) : Z := le_combine (sub tio 4 4).
Definition c_lflag (tio : list Z) : Z := le_combine (sub tio 12 4).
Definition c_cc (tio : list Z) (i : nat) : Z := nth (17 + i) tio 0.

Record Terminal : Type := mkTerminal {
  termios : list Z;
  winsize : list Z;
  foreground_process_group : option Z;
  t_session : option Z
}.
Definition with_termios (b : list Z) (t : Terminal) : Terminal :=
  mkTerminal b (winsize t) (foreground_process_group t) (t_session t).
Definition with_winsize (b : list Z) (t : Terminal) : Terminal :=
  mkTerminal (termios t) b (foreground_process_group t) (t_session t).
Definition with_foreground (g : option Z) (t : Terminal) : Terminal :=
  mkTerminal (termios t) (winsize t) g (t_session t).
Definition with_session (sn g : option Z) (t : Terminal) : Terminal := mkTerminal (termios t) (winsize t) g sn.

Definition set_cc (i : nat) (v : Z) (tio : list Z) : list Z := <[(17 + i)%nat := v]> tio.

(** The constructor, in memory that held [raw] and [win]. *)
Definition Terminal_new (raw win : list Z) : Terminal :=
  let tio := blit 0 (le_split 4 ICRNL) raw in
  let tio := blit 4 (le_split 4 ONLCR) tio in
  let tio := blit 12 (le_split 4 (Z.lor (Z.lor ECHO ICANON) ISIG)) tio in
  let tio := blit 8 (le_split 4 0) tio in
  let tio := blit 36 (le_split 4 38400) tio in
  let tio := blit 40 (le_split 4 38400) tio in
  mkTerminal (set_cc 10 26 (set_cc 9 19 (set_cc 8 17 (set_cc 4 4 (set_cc 3 21 (set_cc 2 8 (set_cc 1 28 (set_cc 0 3 (set_cc 6 1 tio)))))))))
    win None None.

(** ** The line discipline *)

(** The characters [process_output_char] puts. *)
Definition process_output_char (t : Terminal) (c : Z) : list Z :=
  if (c =? 10) && has (c_oflag (termios t)) ONLCR then [13; c] else [c].

(** The signal a character stands for. *)
Definition char_signal (t : Terminal) (c : Z) : option Z :=
  if has (c_lflag (termios t)) ISIG then
    if c =? c_cc (termios t) VINTR then Some SIGINT
    else if c =? c_cc (termios t) VQUIT then Some SIGQUIT
    else if c =? c_cc (termios t) VSUSP then Some SIGTSTP
    else None
  else None.

(** The characters [process_input_char] puts, and the signal it sends to the
    foreground process group. *)
Definition process_input_char (t : Terminal) (c : Z) : list Z * option Z :=
  let iflag := c_iflag (termios t) in
  if (c =? 13) && has iflag IGNCR then ([], None)
  else
    let mapped := if (c =? 13) && has iflag ICRNL then [10]
                  else if (c =? 10) && has iflag INLCR then [13] else [] in
    match char_signal t c with
    | Some sg => (mapped, Some sg)
    | None => (mapped ++ [c], None)
    end.

(** ** Controls *)

Definition TIOCGWINSZ : Z := 21523.
Definition TIOCSWINSZ : Z := 21524.
Definition TCGETS : Z := 21505.
Definition TCSETS : Z := 21506.
Definition TCSETSW : Z := 21507.
Definition TCSETSF : Z := 21508.
Definition TCGETS2 : Z := 2150388778.
Definition TCSETS2 : Z := 1076646955.
Definition TCSETSW2 : Z := 1076646956.
Definition TCSETSF2 : Z := 1076646957.
Definition TIOCSCTTY : Z := 21518.
Definition TIOCGPGRP : Z := 21519.
Definition TIOCSPGRP : Z := 21520.
Definition TIOCGSID : Z := 21545.

(** The processes, the terminals by address, and the controlling terminal of
    each session, a vnode. *)
Record TtySys : Type := mkTty {
  jobs : Jobs;
  terminals : gmap Z Terminal;
  controlling_terminal : gmap Z Z
}.
Definition set_jobs (j : Jobs) (s : TtySys) : TtySys := mkTty j (terminals s) (controlling_terminal s).
Definition upd_terminal (a : Z) (f : Terminal -> Terminal) (s : TtySys) : TtySys :=
  mkTty (jobs s) (alter f a (terminals s)) (controlling_terminal s).

Definition process_session (p : Z) (j : Jobs) : option Z := g ← process_group p j; session j !! g.

(** [group->send_signal(sg)]; there is no group behind a null pointer. *)
Definition signal_group (g : option Z) (sg : Z) (s : TtySys) : option TtySys :=
  g ← g; sc ← ProcessGroup_send_signal g sg (sched (jobs s)); Some (set_jobs (set_sched sc (jobs s)) s).

Definition set_controlling_terminal (a p vn : Z) (s : TtySys) : option TtySys :=
  l ← session_leader p (jobs s);
  if negb (p =? l) then Some s
  else
    g ← process_group p (jobs s);
    sn ← session (jobs s) !! g;
    Some (mkTty (jobs s) (alter (with_session (Some sn) (Some g)) a (terminals s)) (<[sn := vn]> (controlling_terminal s))).

Definition O_NOCTTY : Z := 256.
Definition on_open (a self vn fl : Z) (s : TtySys) : option TtySys :=
  if has fl O_NOCTTY then Some s else set_controlling_terminal a self vn s.

(** [tty_ioctl] on the terminal at [a], by the process [self] through a
    description of the vnode [vn]: [arg] is the memory at the argument, and the
    result comes with the bytes stored there. *)
Definition tty_ioctl (a self vn cmd : Z) (arg : list Z) (s : TtySys) : option (Z * list Z * TtySys) :=
  t ← terminals s !! a;
  let key x := cmd =? x in
  if key TIOCGWINSZ then Some (0, take 8 (winsize t), s)
  else if key TIOCSWINSZ then
    let s1 := upd_terminal a (with_winsize (take 8 arg)) s in
    match foreground_process_group t with
    | None => Some (0, [], s1)
    | Some g => s2 ← signal_group (Some g) SIGWINCH s1; Some (0, [], s2)
    end
  else if key TCGETS then Some (0, sub (termios t) 0 sizeof_termios, s)
  else if key TCSETS || key TCSETSW || key TCSETSF then
    Some (0, [], upd_terminal a (fun t => with_termios (blit 0 (sub arg 0 sizeof_termios) (termios t)) t) s)
  else if key TCGETS2 then Some (0, sub (termios t) 0 sizeof_ktermios, s)
  else if key TCSETS2 || key TCSETSW2 || key TCSETSF2 then
    Some (0, [], upd_terminal a (fun t => with_termios (blit 0 (sub arg 0 sizeof_ktermios) (termios t)) t) s)
  else if key TIOCGPGRP then
    sn ← process_session self (jobs s);
    if negb (bool_decide (controlling_terminal s !! sn = Some vn)) then Some (- ENOTTY, [], s)
    else
      match foreground_process_group t with
      | None => Some (- ENOTTY, [], s)
      | Some g => l ← leader_process (jobs s) !! g; pid ← pid_of l (jobs s); Some (0, le_split 4 pid, s)
      end
  else if key TIOCSPGRP then
    match get_from_tid (sN 32 (le_combine (take 4 arg))) (sched (jobs s)) with
    | None => Some (- ESRCH, [], s)
    | Some th =>
        g ← process_group (process th) (jobs s);
        sn ← session (jobs s) !! g;
        sn' ← process_session self (jobs s);
        if negb (sn =? sn') then Some (- EPERM, [], s)
        else Some (0, [], upd_terminal a (with_foreground (Some g)) s)
    end
  else if key TIOCGSID then
    match t_session t with
    | None => Some (- ENOTTY, [], s)
    | Some sn =>
        lg ← leader_group (jobs s) !! sn; l ← leader_process (jobs s) !! lg; pid ← pid_of l (jobs s);
        Some (0, le_split 4 pid, s)
    end
  else if key TIOCSCTTY then s1 ← set_controlling_terminal a self vn s; Some (0, [], s1)
  else Some (- EINVAL, [], s).

(** Opening /dev/tty: the vnode the description is given. *)
Definition TTYDevNode_open (self : Z) (s : TtySys) : option (Z + Z) :=
  sn ← process_session self (jobs s);
  Some (match controlling_terminal s !! sn with None => inl (- ENXIO) | Some vn => inr vn end).

(** ** Pseudo-terminals *)

Definition PTY_MAX : Z := 256.
Definition PTY_RING : Z := 4096.
Definition TIOCGPTN : Z := 2147767344.
Definition TIOCSPTLCK : Z := 1074025521.
Definition TIOCPKT : Z := 21536.
Definition TIOCGPKT : Z := 2147767352.

Record PseudoTerminalEnd : Type := mkEnd {
  terminal : Z;
  peer : Z;
  ring_buffer : RingBuffer Z;
  pts_num : Z;
  slave : bool;
  packet_mode : bool;
  pty_triggers : Z
}.
(** [tty] and the ends of the pseudo-terminals, by their vnodes. *)
Record PtySys : Type := mkPty { tty : TtySys; ends : gmap Z PseudoTerminalEnd; pty_bitmap : list bool }.
Definition set_tty (t : TtySys) (s : PtySys) : PtySys := mkPty t (ends s) (pty_bitmap s).
Definition upd_end (v : Z) (f : PseudoTerminalEnd -> PseudoTerminalEnd) (s : PtySys) : PtySys :=
  mkPty (tty s) (alter f v (ends s)) (pty_bitmap s).
Definition with_ring (r : RingBuffer Z) (e : PseudoTerminalEnd) : PseudoTerminalEnd :=
  mkEnd (terminal e) (peer e) r (pts_num e) (slave e) (packet_mode e) (pty_triggers e).
Definition with_packet_mode (b : bool) (e : PseudoTerminalEnd) : PseudoTerminalEnd :=
  mkEnd (terminal e) (peer e) (ring_buffer e) (pts_num e) (slave e) b (pty_triggers e).
(** [pty_event.trigger()] *)
Definition trigger (e : PseudoTerminalEnd) : PseudoTerminalEnd :=
  mkEnd (terminal e) (peer e) (ring_buffer e) (pts_num e) (slave e) (packet_mode e) (pty_triggers e + 1).

Definition pty_read (v fl count : Z) (s : PtySys) : attempt PtySys (Z * list Z) :=
  match ends s !! v with
  | None => Crash
  | Some e =>
      if is_empty (ring_buffer e) then
        if has fl O_NONBLOCK then Return (- EWOULDBLOCK, []) s else Block s
      else
        let packet := packet_mode e && (0 <? count) in
        let '(n, cs, rb) := RingBuffer_read PTY_RING (ring_buffer e) (if packet then count - 1 else count) in
        let s1 := upd_end (peer e) trigger (upd_end v (with_ring rb) s) in
        Return (if packet then (n + 1, 0 :: map byte_of cs) else (n, map byte_of cs)) s1
  end.

(** The characters put one by one; whether one did not fit. *)
Fixpoint put_chars (cs : list Z) (rb : RingBuffer Z) : bool * RingBuffer Z :=
  match cs with
  | [] => (false, rb)
  | c :: cs =>
      let (n, rb1) := RingBuffer_write PTY_RING rb [c] 1 in
      let (e, rb2) := put_chars cs rb1 in
      ((n =? 0) || e, rb2)
  end.

(** The loop of the slave's [write]: how many characters were taken, and the
    master's ring. *)
Fixpoint write_output (t : Terminal) (cs : list Z) (rb : RingBuffer Z) : Z * RingBuffer Z :=
  match cs with
  | [] => (0, rb)
  | c :: cs =>
      let (full, rb1) := put_chars (process_output_char t c) rb in
      if full then (0, rb1) else let (n, rb2) := write_output t cs rb1 in (n + 1, rb2)
  end.

(** The loop of the master's [write], with the signals of the line discipline.
    The terminal is read again for every character. *)
Fixpoint write_input (a : Z) (cs : list Z) (rb : RingBuffer Z) (s : TtySys) : option (Z * RingBuffer Z * TtySys) :=
  match cs with
  | [] => Some (0, rb, s)
  | c :: cs =>
      t ← terminals s !! a;
      let (out, sg) := process_input_char t c in
      let (full, rb1) := put_chars out rb in
      s1 ← (match sg with Some sg => signal_group (foreground_process_group t) sg s | None => Some s end);
      if full then Some (0, rb1, s1) else '(n, rb2, s2) ← write_input a cs rb1 s1; Some (n + 1, rb2, s2)
  end.

Definition pty_write (v fl : Z) (buf : list Z) (s : PtySys) : attempt PtySys Z :=
  match ends s !! v with
  | None => Crash
  | Some e =>
      match ends s !! peer e with
      | None => Crash
      | Some p =>
          if is_full PTY_RING (ring_buffer p) then
            if has fl O_NONBLOCK then Return (- EWOULDBLOCK) s else Block s
          else
            let cs := map char_of buf in
            if slave e then
              match terminals (tty s) !! terminal e with
              | None => Crash
              | Some t =>
                  let (n, rb) := write_output t cs (ring_buffer p) in
                  Return n (upd_end (peer e) (fun p => trigger (with_ring rb p)) s)
              end
            else
              match write_input (terminal e) cs (ring_buffer p) (tty s) with
              | None => Crash
              | Some (n, rb, t) => Return n (upd_end (peer e) (fun p => trigger (with_ring rb p)) (set_tty t s))
              end
      end
  end.

Definition pty_poll (v events : Z) (s : PtySys) : option Z :=
  e ← ends s !! v;
  p ← ends s !! peer e;
  Some (Z.lor (if has events POLLIN && negb (is_empty (ring_buffer e)) then POLLIN else 0)
              (if has events POLLOUT && negb (is_full PTY_RING (ring_buffer p)) then POLLOUT else 0)).

Definition pty_ioctl (v self vn cmd : Z) (arg : list Z) (s : PtySys) : option (Z * list Z * PtySys) :=
  e ← ends s !! v;
  let key x := cmd =? x in
  if key TIOCGPTN then Some (0, le_split 4 (pts_num e), s)
  else if key TIOCSPTLCK then Some (0, [], s)
  else if key TIOCPKT then
    if slave e then Some (- ENOTTY, [], s)
    else Some (0, [], upd_end v (with_packet_mode (negb (le_combine (take 4 arg) =? 0))) s)
  else if key TIOCGPKT then Some (0, le_split 4 (b2z (packet_mode e)), s)
  else if key TIOCGPGRP && negb (slave e) then Some (0, le_split 4 0, s)
  else '(r, out, t) ← tty_ioctl (terminal e) self vn cmd arg (tty s); Some (r, out, set_tty t s).

(** The number of a new slave: the first that is free, or -1. *)
Definition pts_number (bitmap : list bool) : Z :=
  match list_find (fun b => b = false) bitmap with Some (i, _) => Z.of_nat i | None => -1 end.
Definition PseudoTerminalEnd_new (a : Z) (storage : list Z) (slave : bool) (s : PtySys) : PseudoTerminalEnd * PtySys :=
  let n := if slave then pts_number (pty_bitmap s) else -1 in
  (mkEnd a 0 (RingBuffer_init storage) n slave false 0,
   if n =? -1 then s else mkPty (tty s) (ends s) (<[Z.to_nat n := true]> (pty_bitmap s))).

(** Opening /dev/ptmx: [a], [m] and [sl] are the new terminal and ends, and
    [entry_free] what looking up the slave's path finds: the parent directory,
    and whether there is no vnode under the name yet.  The result is the error
    or the master's vnode. *)
Definition PseudoTerminalMultiplexer_open (a m sl self fl : Z) (raw win st1 st2 : list Z) (parent entry_free : bool) (s : PtySys)
    : option (Z * PtySys) :=
  let (em, s1) := PseudoTerminalEnd_new a st1 false s in
  let (es, s2) := PseudoTerminalEnd_new a st2 true s1 in
  if pts_num es =? -1 then Some (- ENOENT, s2)
  else if negb entry_free then Some (- EEXIST, s2)
  else if negb parent then Some (- ENOENT, s2)
  else
    let em := mkEnd a sl (ring_buffer em) (pts_num es) false false 0 in
    let es := mkEnd a m (ring_buffer es) (pts_num es) true false 0 in
    let t := mkTty (jobs (tty s2)) (<[a := Terminal_new raw win]> (terminals (tty s2))) (controlling_terminal (tty s2)) in
    t1 ← on_open a self m fl t;
    Some (0, mkPty t1 (<[m := em]> (<[sl := es]> (ends s2))) (pty_bitmap s2)).

(** ** The console *)

Definition CONSOLE_RING : Z := 512.
Definition EV_KEY : Z := 1.

(** The console's terminal at [c_terminal], the characters typed and the
    screen. *)
Record Console : Type := mkConsole {
  c_tty : TtySys;
  c_terminal : Z;
  input_buffer : RingBuffer Z;
  screen : VirtualTerminal
}.
Definition with_input (r : RingBuffer Z) (c : Console) : Console := mkConsole (c_tty c) (c_terminal c) r (screen c).
Definition set_c_tty (t : TtySys) (c : Console) : Console := mkConsole t (c_terminal c) (input_buffer c) (screen c).

(** The constructor's window size; [raw] is the memory of the terminal. *)
Definition Console_new (a : Z) (raw storage : list Z) (pixel_width pixel_height : Z) (screen : VirtualTerminal) (s : TtySys) : Console :=
  let win := le_split 2 (height_chars screen) ++ le_split 2 (width_chars screen) ++ le_split 2 pixel_width ++ le_split 2 pixel_height in
  mkConsole (mkTty (jobs s) (<[a := Terminal_new raw win]> (terminals s)) (controlling_terminal s)) a
    (RingBuffer_init storage) screen.

Definition console_open (self vn fl : Z) (c : Console) : option (Z * Console) :=
  t ← on_open (c_terminal c) self vn fl (c_tty c); Some (0, set_c_tty t c).

Definition console_read (count : Z) (c : Console) : attempt Console (Z * list Z) :=
  if is_empty (input_buffer c) then Block c
  else
    let '(n, cs, rb) := RingBuffer_read CONSOLE_RING (input_buffer c) count in
    Return (n, map byte_of cs) (with_input rb c).

(** [klib::printf("%.*s", (int)count, buf)], whose characters go to the screen
    when [enabled], which is [gfx::kernel_terminal_enabled]. *)
Definition console_write (enabled : bool) (buf : list Z) (c : Console) : option (Z * Console) :=
  '(out, n) ← vprintf 6 [chr_percent; chr_dot; chr_star; chr_s; 0] [AInt (i32 (Z.of_nat (length buf))); AStr buf];
  vt ← (if enabled then write_chars (map char_of out) (screen c) else Some (screen c));
  Some (n, mkConsole (c_tty c) (c_terminal c) (input_buffer c) vt).

Definition console_poll (events : Z) (c : Console) : Z :=
  if has events POLLIN && negb (is_empty (input_buffer c)) then POLLIN else 0.

Definition console_ioctl (self vn cmd : Z) (arg : list Z) (c : Console) : option (Z * list Z * Console) :=
  '(r, out, t) ← tty_ioctl (c_terminal c) self vn cmd arg (c_tty c); Some (r, out, set_c_tty t c).

Definition keycode_map : list Z :=
  [0; 27; 49; 50; 51; 52; 53; 54; 55; 56;
   57; 48; 45; 61; 8;
   9;
   113; 119; 101; 114;
   116; 121; 117; 105; 111; 112; 91; 93; 10;
   0;
   97; 115; 100; 102; 103; 104; 106; 107; 108; 59;
   39; 96; 0;
   92; 122; 120; 99; 118; 98; 110;
   109; 44; 46; 47; 0;
   42;
   0;
   32;
   0;
   0;
   0; 0; 0; 0; 0; 0; 0; 0;
   0;
   0; 0; 0; 0; 0;
   45;
   0; 0; 0;
   43]
  ++ replicate 49 0.

Definition shifted (c : Z) : Z :=
  match c with
  | 49 => 33 | 50 => 64 | 51 => 35 | 52 => 36 | 53 => 37 | 54 => 94 | 55 => 38 | 56 => 42 | 57 => 40 | 48 => 41
  | 47 => 63 | 92 => 124 | 44 => 60 | 46 => 62 | 39 => 34 | 93 => 125 | 91 => 123 | 59 => 58 | 45 => 95 | 61 => 43
  | c => c
  end.

(** The keys that put a sequence. *)
Definition key_sequence (code : Z) : option (list Z) :=
  let esc l := Some (27 :: 91 :: l) in
  match code with
  | 103 => esc [65] | 105 => esc [68] | 106 => esc [67] | 108 => esc [66]
  | 59 => Some [-113; 80] | 60 => Some [-113; 81] | 61 => Some [-113; 82] | 62 => Some [-113; 83]
  | 63 => esc [49; 53; 126] | 64 => esc [49; 55; 126] | 65 => esc [49; 56; 126] | 66 => esc [49; 57; 126]
  | 67 => esc [50; 48; 126] | 68 => esc [50; 49; 126] | 87 => esc [50; 51; 126] | 88 => esc [50; 52; 126]
  | _ => None
  end.

(** The character of a key, under shift, capitals and control. *)
Definition key_char (code : Z) (is_shift is_caps is_ctrl : bool) : option Z :=
  if 128 <=? code then None
  else
    c ← keycode_map !! Z.to_nat code;
    if c =? 0 then None
    else
      let c := if is_shift then shifted c else c in
      let c := if is_caps && (97 <=? c) && (c <=? 122) then c - 97 + 65 else c in
      Some (if is_ctrl then char_of (c - 97 + 65 - 64) else c).

Definition put_truncate (cs : list Z) (rb : RingBuffer Z) : RingBuffer Z :=
  snd (RingBuffer_write_truncate CONSOLE_RING rb cs (Z.of_nat (length cs))).

Definition process_input_event (enabled : bool) (type code value : Z) (is_shift is_caps is_ctrl : bool) (c : Console) : option Console :=
  if negb enabled then Some c
  else if negb (type =? EV_KEY) || (value =? 0) then Some c
  else
    match key_sequence code with
    | Some cs => Some (with_input (put_truncate cs (input_buffer c)) c)
    | None =>
        match key_char code is_shift is_caps is_ctrl with
        | None => Some c
        | Some ch =>
            t ← terminals (c_tty c) !! c_terminal c;
            let (out, sg) := process_input_char t ch in
            let c1 := with_input (fold_left (fun rb x => put_truncate [x] rb) out (input_buffer c)) c in
            match sg with
            | None => Some c1
            | Some sg => s ← signal_group (foreground_process_group t) sg (c_tty c1); Some (set_c_tty s c1)
            end
        end
    end.

Lemma keycode_map_length : length keycode_map = 128%nat.
Proof. reflexivity. Qed.

(** ** Controls of the attributes *)

Lemma blit_start {T} (xs l : list T) : (length xs <= length l)%nat -> blit 0 xs l = xs ++ drop (length xs) l.
Proof.
  intros H. apply list_eq. intros i. destruct (decide (i < length xs)%nat).
  - rewrite blit_lookup_in by lia. rewrite lookup_app_l by lia. f_equal. lia.
  - rewrite blit_lookup_out by lia. rewrite lookup_app_r by lia. rewrite lookup_drop. f_equal. lia.
Qed.

(** What a control that sets the attributes stores, one that gets them reads
    back, and no other terminal changes; the shorter form keeps the speeds. *)
Theorem termios_roundtrip a self vn arg tio s t set get size :
  (set ∈ [TCSETS; TCSETSW; TCSETSF] /\ get = TCGETS /\ size = sizeof_termios) \/
  (set ∈ [TCSETS2; TCSETSW2; TCSETSF2] /\ get = TCGETS2 /\ size = sizeof_ktermios) ->
  terminals s !! a = Some t -> length (termios t) = 44%nat -> Z.of_nat (length arg) = size ->
  exists s', tty_ioctl a self vn set arg s = Some (0, [], s') /\
    tty_ioctl a self vn get tio s' = Some (0, arg, s') /\
    (exists t', terminals s' !! a = Some t' /\ drop (Z.to_nat size) (termios t') = drop (Z.to_nat size) (termios t) /\
       winsize t' = winsize t /\ foreground_process_group t' = foreground_process_group t) /\
    forall b, b <> a -> terminals s' !! b = terminals s !! b.
Proof.
  intros Hc Ht Hl Ha.
  assert (0 < size <= 44) as Hs by (destruct Hc as [(_ & _ & ->)|(_ & _ & ->)]; vm_compute; by split).
  set (s' := upd_terminal a (fun t => with_termios (blit 0 (sub arg 0 size) (termios t)) t) s).
  assert (sub arg 0 size = arg) as Harg by (unfold sub; cbn [Z.to_nat drop]; apply take_ge; lia).
  assert (terminals s' !! a = Some (with_termios (blit 0 arg (termios t)) t)) as Ht'.
  { unfold s', upd_terminal. cbn [terminals]. by rewrite lookup_alter_eq, Ht, Harg. }
  exists s'. split; [|split; [|split]].
  - unfold tty_ioctl. rewrite Ht. cbn [mbind option_bind].
    destruct Hc as [(Hset & _ & Hsz)|(Hset & _ & Hsz)]; subst size;
      rewrite !elem_of_cons in Hset; destruct Hset as [->|[->|[->|Hn]]];
      first [by apply elem_of_nil in Hn|reflexivity].
  - assert (sub (blit 0 arg (termios t)) 0 size = arg) as Hsub.
    { rewrite blit_start by lia. unfold sub. cbn [Z.to_nat drop]. apply take_app_length'. lia. }
    unfold tty_ioctl. rewrite Ht'. cbn [mbind option_bind].
    destruct Hc as [(_ & -> & Hsz)|(_ & -> & Hsz)]; subst size; cbn [termios with_termios]; by rewrite Hsub.
  - eexists. split; [exact Ht'|]. split; [|by split]. cbn [termios with_termios].
    rewrite blit_start by lia. rewrite drop_app_length' by lia. f_equal. lia.
  - intros b Hb. unfold s', upd_terminal. cbn [terminals]. by rewrite lookup_alter_ne.
Qed.

Lemma termios_roundtrip_witness :
  exists s', tty_ioctl 7 1 9 TCSETSW (replicate 36 5) (mkTty demo_jobs (<[7 := Terminal_new (replicate 44 0) []]> ∅) ∅) = Some (0, [], s') /\
    tty_ioctl 7 1 9 TCGETS [] s' = Some (0, replicate 36 5, s').
Proof.
  destruct (termios_roundtrip 7 1 9 (replicate 36 5) [] (mkTty demo_jobs (<[7 := Terminal_new (replicate 44 0) []]> ∅) ∅)
    (Terminal_new (replicate 44 0) []) TCSETSW TCGETS sizeof_termios) as (s' & H1 & H2 & _).
  - left. split; [|by split]. apply elem_of_cons. right. apply elem_of_cons. by left.
  - reflexivity.
  - reflexivity.
  - reflexivity.
  - exists s'. split; [exact H1|exact H2].
Defined.

(** ** What the ends of a pseudo-terminal put in each other's ring *)

Lemma pty_ring_divides : (PTY_RING | 18446744073709551616).
Proof. by exists 4503599627370496. Qed.

Lemma put_char_spec (c : Z) (rb : RingBuffer Z) : ring_wf PTY_RING rb ->
  let (n, rb') := RingBuffer_write PTY_RING rb [c] 1 in
  ring_wf PTY_RING rb' /\
  (data_count rb < PTY_RING /\ n = 1 /\ contents PTY_RING rb' = contents PTY_RING rb ++ [c] \/
   data_count rb = PTY_RING /\ n = 0 /\ contents PTY_RING rb' = contents PTY_RING rb).
Proof.
  intros Hwf. pose proof (RingBuffer_write_spec PTY_RING rb [c] 1 Hwf ltac:(cbn; lia) ltac:(left; apply pty_ring_divides)) as H.
  destruct (RingBuffer_write PTY_RING rb [c] 1) as [n rb']. destruct H as (-> & Hwf' & -> & _). split; [done|].
  pose proof (wf_count _ _ Hwf). destruct (decide (data_count rb = PTY_RING)) as [E|E].
  - right. rewrite E. replace (Z.min 1 (PTY_RING - PTY_RING)) with 0 by lia. by rewrite app_nil_r.
  - left. rewrite Z.min_l by lia. split; [lia|done].
Qed.

(** The characters that fit are put, in order. *)
Lemma put_chars_spec cs : forall rb, ring_wf PTY_RING rb ->
  let (full, rb') := put_chars cs rb in
  let room := Z.to_nat (PTY_RING - data_count rb) in
  ring_wf PTY_RING rb' /\ contents PTY_RING rb' = contents PTY_RING rb ++ take room cs /\
  full = bool_decide (room < length cs)%nat.
Proof.
  induction cs as [|c cs IH]; intros rb Hwf; cbn [put_chars].
  { rewrite take_nil, app_nil_r, bool_decide_false by (cbn; lia). done. }
  pose proof (put_char_spec c rb Hwf) as H. destruct (RingBuffer_write PTY_RING rb [c] 1) as [n rb1].
  destruct H as [Hwf1 H]. specialize (IH rb1 Hwf1). destruct (put_chars cs rb1) as [e rb2]. destruct IH as (Hwf2 & Hc2 & He).
  split; [done|]. pose proof (contents_length _ _ Hwf) as L0. pose proof (contents_length _ _ Hwf1) as L1.
  destruct H as [(Hlt & -> & Hc)|(Hfull & -> & Hc)]; rewrite Hc in *.
  - rewrite length_app in L1. cbn [length] in L1. replace (Z.to_nat (PTY_RING - data_count rb)) with (S (Z.to_nat (PTY_RING - data_count rb1))) by lia.
    rewrite Hc2, <- app_assoc. split; [done|]. rewrite He. cbn [Z.eqb orb length]. apply bool_decide_ext. lia.
  - replace (data_count rb1) with (data_count rb) in * by lia. rewrite Hc2, Hfull.
    replace (Z.to_nat (PTY_RING - PTY_RING)) with 0%nat by lia. cbn [take]. split; [done|].
    rewrite bool_decide_true by (cbn; lia). done.
Qed.

(** The text the slave's characters become, with its line ends. *)
Definition output_text (t : Terminal) (cs : list Z) : list Z := concat (map (process_output_char t) cs).

Lemma write_output_room t cs : forall rb, ring_wf PTY_RING rb ->
  data_count rb + Z.of_nat (length (output_text t cs)) <= PTY_RING ->
  exists rb', write_output t cs rb = (Z.of_nat (length cs), rb') /\ ring_wf PTY_RING rb' /\
    contents PTY_RING rb' = contents PTY_RING rb ++ output_text t cs.
Proof.
  induction cs as [|c cs IH]; intros rb Hwf Hroom; cbn [write_output].
  { exists rb. by rewrite app_nil_r. }
  cbn [output_text map concat] in Hroom. fold (output_text t cs) in Hroom. rewrite length_app in Hroom.
  pose proof (put_chars_spec (process_output_char t c) rb Hwf) as H.
  destruct (put_chars (process_output_char t c) rb) as [full rb1]. destruct H as (Hwf1 & Hc & ->).
  rewrite bool_decide_false by lia. rewrite take_ge in Hc by lia.
  pose proof (contents_length _ _ Hwf) as L0. pose proof (contents_length _ _ Hwf1) as L1. rewrite Hc, length_app in L1.
  destruct (IH rb1 Hwf1 ltac:(lia)) as (rb' & -> & Hwf' & Hc'). exists rb'. split; [|split; [done|]].
  - f_equal. cbn [length]. lia.
  - rewrite Hc', Hc, <- app_assoc. done.
Qed.

(** ** A raw pseudo-terminal *)

(** No flag that makes the line discipline change or watch the characters. *)
Definition raw (t : Terminal) : bool :=
  negb (has (c_iflag (termios t)) IGNCR || has (c_iflag (termios t)) ICRNL || has (c_iflag (termios t)) INLCR
        || has (c_oflag (termios t)) ONLCR || has (c_lflag (termios t)) ISIG).

Lemma raw_output t c : raw t = true -> process_output_char t c = [c].
Proof.
  unfold raw, process_output_char. destruct (has (c_oflag (termios t)) ONLCR); [by rewrite !orb_true_r|].
  by rewrite andb_false_r.
Qed.

Lemma raw_input t c : raw t = true -> process_input_char t c = ([c], None).
Proof.
  unfold raw, process_input_char, char_signal.
  destruct (has (c_iflag (termios t)) IGNCR), (has (c_iflag (termios t)) ICRNL), (has (c_iflag (termios t)) INLCR);
    cbn [orb negb]; try done.
  destruct (has (c_lflag (termios t)) ISIG); [by rewrite orb_true_r|]. by rewrite !andb_false_r.
Qed.

Lemma write_output_raw t cs : raw t = true -> forall rb, ring_wf PTY_RING rb ->
  let (n, rb') := write_output t cs rb in
  ring_wf PTY_RING rb' /\ contents PTY_RING rb' = contents PTY_RING rb ++ take (Z.to_nat n) cs /\ 0 <= n <= Z.of_nat (length cs).
Proof.
  intros Hraw. induction cs as [|c cs IH]; intros rb Hwf; cbn [write_output]; [by rewrite app_nil_r|].
  rewrite (raw_output t c Hraw). pose proof (put_chars_spec [c] rb Hwf) as H.
  destruct (put_chars [c] rb) as [full rb1]. destruct H as (Hwf1 & Hc & ->). case_bool_decide as E.
  - cbn [length] in E. replace (Z.to_nat _) with 0%nat in Hc by lia. split; [done|]. rewrite Hc. split; [done|lia].
  - rewrite take_ge in Hc by lia. specialize (IH rb1 Hwf1). destruct (write_output t cs rb1) as [n rb2].
    destruct IH as (Hwf2 & Hc2 & Hn). split; [done|]. cbn [length]. split; [|lia].
    rewrite Hc2, Hc, <- app_assoc. f_equal. replace (Z.to_nat (n + 1)) with (S (Z.to_nat n)) by lia. done.
Qed.

Lemma write_input_raw a t cs s : terminals s !! a = Some t -> raw t = true -> forall rb,
  write_input a cs rb s = Some (fst (write_output t cs rb), snd (write_output t cs rb), s).
Proof.
  intros Ht Hraw. induction cs as [|c cs IH]; intros rb; cbn [write_input write_output]; [done|].
  rewrite Ht. cbn [mbind option_bind]. rewrite (raw_input t c Hraw), (raw_output t c Hraw).
  destruct (put_chars [c] rb) as [[] rb1]; cbn [mbind option_bind]; [done|]. rewrite IH. cbn [mbind option_bind].
  by destruct (write_output t cs rb1).
Qed.

Lemma byte_of_char b : 0 <= b < 256 -> byte_of (char_of b) = b.
Proof.
  intros Hb. unfold byte_of, char_of, uN, sN. cbv zeta. change (2 ^ 8) with 256. change (2 ^ (8 - 1)) with 128.
  rewrite (Z.mod_small b) by lia. destruct (b <? 128) eqn:E; [by apply Z.mod_small|].
  replace (b - 256) with (b + (-1) * 256) by lia. rewrite Z_mod_plus_full. by apply Z.mod_small.
Qed.

(** The operations at the two ends, [true] the slave's; [v] has their vnodes. *)
Inductive pty_op : Type :=
| ERead (b : bool) (fl count : Z)
| EWrite (b : bool) (fl : Z) (buf : list Z).

Definition pty_op_ok (op : pty_op) : Prop :=
  match op with ERead _ _ count => 0 <= count | EWrite _ _ buf => Forall (fun b => 0 <= b < 256) buf end.

(** What each end received and what each end was told it sent. *)
Record PtyTrace : Type := mkPtyTrace { pt_sys : PtySys; pt_received : bool -> list Z; pt_sent : bool -> list Z }.
Definition extend (b : bool) (l : list Z) (f : bool -> list Z) : bool -> list Z :=
  fun x => if Bool.eqb x b then f x ++ l else f x.

Definition pty_step (v : bool -> Z) (op : pty_op) (t : PtyTrace) : PtyTrace :=
  match op with
  | ERead b fl count =>
      match pty_read (v b) fl count (pt_sys t) with
      | Return (_, bs) s => mkPtyTrace s (extend b bs (pt_received t)) (pt_sent t)
      | _ => t
      end
  | EWrite b fl buf =>
      match pty_write (v b) fl buf (pt_sys t) with
      | Return r s => mkPtyTrace s (pt_received t) (extend b (take (Z.to_nat r) buf) (pt_sent t))
      | _ => t
      end
  end.

Record end_ok (v : bool -> Z) (a : Z) (b : bool) (e : PseudoTerminalEnd) : Prop := {
  ok_terminal : terminal e = a;
  ok_peer : peer e = v (negb b);
  ok_slave : slave e = b;
  ok_packet : packet_mode e = false;
  ok_ring : ring_wf PTY_RING (ring_buffer e)
}.

Definition ring_text (e : PseudoTerminalEnd) : list Z := map byte_of (contents PTY_RING (ring_buffer e)).

Record pty_inv (v : bool -> Z) (a : Z) (tm : Terminal) (t : PtyTrace) : Prop := {
  inv_terminal : terminals (tty (pt_sys t)) !! a = Some tm;
  inv_end : forall b, exists e, ends (pt_sys t) !! v b = Some e /\ end_ok v a b e /\
    pt_sent t (negb b) = pt_received t b ++ ring_text e
}.

Lemma extend_eq b l f : extend b l f b = f b ++ l.
Proof. unfold extend. by rewrite eqb_reflx. Qed.
Lemma extend_ne b l f : extend b l f (negb b) = f (negb b).
Proof. unfold extend. by destruct b. Qed.

Lemma bool_cases (b x : bool) : x = b \/ x = negb b.
Proof. destruct b, x; auto. Qed.

Lemma pty_read_inv v a tm b fl count t : v true <> v false -> 0 <= count ->
  pty_inv v a tm t -> pty_inv v a tm (pty_step v (ERead b fl count) t).
Proof.
  intros Hv Hc [Ht He]. assert (forall x, v (negb x) <> v x) as Hne by (intros []; cbn; congruence).
  destruct (He b) as (e & E & Ok & Hs). destruct (He (negb b)) as (p & P & Okp & Hsp). rewrite negb_involutive in *.
  cbn [pty_step]. unfold pty_read. rewrite E. destruct (is_empty (ring_buffer e)) eqn:Hemp.
  { destruct (has fl O_NONBLOCK); [|by constructor]. constructor; [done|]. intros x. cbn [pt_sys pt_sent pt_received].
    destruct (He x) as (ex & H1 & H2 & H3). exists ex. split; [done|]. split; [done|].
    unfold extend. by destruct (eqb x b); rewrite ?app_nil_r. }
  rewrite (ok_packet _ _ _ _ Ok). cbn [andb].
  pose proof (RingBuffer_read_spec PTY_RING (ring_buffer e) count (ok_ring _ _ _ _ Ok) Hc) as H.
  destruct (RingBuffer_read PTY_RING (ring_buffer e) count) as [[n cs] rb]. destruct H as (_ & -> & Hwf & Hcs).
  rewrite (ok_peer _ _ _ _ Ok). constructor; [done|]. intros x. cbn [pt_sys pt_sent pt_received].
  destruct (bool_cases b x) as [->| ->].
  - exists (with_ring rb e). split; [|split].
    + unfold upd_end. cbn [ends]. rewrite lookup_alter_ne by apply Hne. by rewrite lookup_alter_eq, E.
    + destruct Ok. by constructor.
    + rewrite extend_eq, Hs, <- app_assoc. f_equal. unfold ring_text. cbn [ring_buffer with_ring]. rewrite Hcs.
      by rewrite <- map_app, take_drop.
  - exists (trigger p). split; [|split].
    + unfold upd_end. cbn [ends]. rewrite lookup_alter_eq. rewrite lookup_alter_ne by (apply not_eq_sym, Hne). by rewrite P.
    + destruct Okp. by constructor.
    + by rewrite negb_involutive, extend_ne.
Qed.

Lemma pty_write_raw v a tm b fl buf t : raw tm = true -> pty_inv v a tm t ->
  match pty_write (v b) fl buf (pt_sys t) with
  | Crash => False
  | Block s => s = pt_sys t
  | Return r s => (s = pt_sys t /\ r < 0) \/
      exists p rb n, ends (pt_sys t) !! v (negb b) = Some p /\ r = n /\ 0 <= n <= Z.of_nat (length buf) /\
        s = upd_end (v (negb b)) (fun p => trigger (with_ring rb p)) (pt_sys t) /\
        ring_wf PTY_RING rb /\ contents PTY_RING rb = contents PTY_RING (ring_buffer p) ++ map char_of (take (Z.to_nat n) buf)
  end.
Proof.
  intros Hraw [Ht He]. destruct (He b) as (e & E & Ok & _). destruct (He (negb b)) as (p & P & Okp & _).
  unfold pty_write. rewrite E, (ok_peer _ _ _ _ Ok), P. destruct (is_full PTY_RING (ring_buffer p)).
  { destruct (has fl O_NONBLOCK); [left; by split|done]. }
  rewrite (ok_terminal _ _ _ _ Ok), Ht. rewrite (write_input_raw a tm _ _ Ht Hraw).
  pose proof (write_output_raw tm (map char_of buf) Hraw (ring_buffer p) (ok_ring _ _ _ _ Okp)) as H.
  destruct (write_output tm (map char_of buf) (ring_buffer p)) as [n rb]. destruct H as (Hwf & Hc & Hn).
  rewrite length_map in Hn. rewrite <- fmap_take in Hc. cbn [fst snd].
  destruct (slave e); (right; exists p, rb, n; do 3 (split; [done|]); split; [|done]); [done|].
  unfold upd_end, set_tty. by destruct (pt_sys t).
Qed.

Lemma pty_write_inv v a tm b fl buf t : v true <> v false -> raw tm = true -> Forall (fun b => 0 <= b < 256) buf ->
  pty_inv v a tm t -> pty_inv v a tm (pty_step v (EWrite b fl buf) t).
Proof.
  intros Hv Hraw Hbuf Inv. pose proof (pty_write_raw v a tm b fl buf t Hraw Inv) as H. destruct Inv as [Ht He].
  assert (forall x, v (negb x) <> v x) as Hne by (intros []; cbn; congruence).
  cbn [pty_step]. destruct (pty_write (v b) fl buf (pt_sys t)) as [r s|s|]; [|by constructor|done].
  destruct H as [[-> Hr]|(p & rb & n & P & -> & Hn & -> & Hwf & Hc)].
  { constructor; [done|]. intros x. cbn [pt_sys pt_sent pt_received]. replace (Z.to_nat r) with 0%nat by lia. cbn [take].
    destruct (He x) as (ex & H1 & H2 & H3). exists ex. split; [done|]. split; [done|].
    rewrite <- H3. unfold extend. by destruct (eqb (negb x) b); rewrite ?app_nil_r. }
  constructor; [done|]. intros x. cbn [pt_sys pt_sent pt_received]. destruct (He (negb b)) as (p' & P' & Okp & Hsp).
  assert (p' = p) as -> by congruence. rewrite negb_involutive in Hsp. destruct (bool_cases b x) as [->| ->].
  - destruct (He b) as (e & E & Ok & Hs). exists e. split; [|split; [done|]].
    + unfold upd_end. cbn [ends]. by rewrite lookup_alter_ne by apply Hne.
    + by rewrite extend_ne.
  - exists (trigger (with_ring rb p)). split; [|split].
    + unfold upd_end. cbn [ends]. by rewrite lookup_alter_eq, P.
    + destruct Okp. by constructor.
    + rewrite negb_involutive, extend_eq, Hsp, <- app_assoc. f_equal. unfold ring_text. cbn [ring_buffer with_ring trigger].
      rewrite Hc, map_app. f_equal. rewrite map_map. symmetry. rewrite <- (map_id (take _ buf)) at 2. apply map_ext_Forall.
      apply (Forall_take _ (Z.to_nat n)). eapply Forall_impl; [exact Hbuf|]. intros z Hz. by apply byte_of_char.
Qed.

(** An opened pair nothing was written to yet. *)
Definition pty_opened (v : bool -> Z) (a : Z) (tm : Terminal) (s : PtySys) : Prop :=
  terminals (tty s) !! a = Some tm /\
  forall b, exists e, ends s !! v b = Some e /\ end_ok v a b e /\ contents PTY_RING (ring_buffer e) = [].

(** C36: Through any interleaving of reads and writes at the two ends of a raw
    pseudo-terminal, what each end receives is what the other was told it sent,
    unchanged and in order, up to the characters still in the ring. *)
Theorem pty_raw_is_stream v a tm s ops :
  v true <> v false -> raw tm = true -> pty_opened v a tm s -> Forall pty_op_ok ops ->
  let t := fold_left (fun t op => pty_step v op t) ops (mkPtyTrace s (fun _ => []) (fun _ => [])) in
  forall b, exists e, ends (pt_sys t) !! v b = Some e /\
    pt_sent t (negb b) = pt_received t b ++ ring_text e /\ Z.of_nat (length (ring_text e)) <= PTY_RING.
Proof.
  intros Hv Hraw [Ht He] Hops t b.
  assert (pty_inv v a tm t) as [_ Inv].
  { unfold t. assert (pty_inv v a tm (mkPtyTrace s (fun _ => []) (fun _ => []))) as H0.
    { constructor; [done|]. intros x. destruct (He x) as (e & H1 & H2 & H3). exists e. split; [done|]. split; [done|].
      unfold ring_text. cbn [pt_sent pt_received]. by rewrite H3. }
    revert H0. generalize (mkPtyTrace s (fun _ => []) (fun _ => [])).
    induction Hops as [|op ops Hop Hops IH]; intros t0 H0; cbn [fold_left]; [done|]. apply IH.
    destruct op as [x fl count|x fl buf]; [by apply pty_read_inv|by apply pty_write_inv]. }
  destruct (Inv b) as (e & H1 & Ok & H2). exists e. split; [done|]. split; [done|].
  unfold ring_text. rewrite length_map, (contents_length PTY_RING) by apply Ok. apply (wf_count _ _ (ok_ring _ _ _ _ Ok)).
Qed.

(** The system after /dev/ptmx was opened by the leader of its session and the
    attributes were made raw. *)
Definition demo_pty : option PtySys :=
  '(_, s) ← PseudoTerminalMultiplexer_open 7 20 21 1 0 (replicate 44 0) (replicate 8 0) (replicate 4096 0) (replicate 4096 0) true true
    (mkPty (mkTty demo_jobs ∅ ∅) ∅ (replicate 256 false));
  '(_, _, s) ← pty_ioctl 21 1 21 TCSETS (replicate 36 0) s; Some s.
Definition demo_end (b : bool) : Z := if b then 21 else 20.
Definition demo_raw_terminal : Terminal := mkTerminal (replicate 36 0 ++ [0; 150; 0; 0; 0; 150; 0; 0]) (replicate 8 0) (Some 1) (Some 2).

Definition demo_pty_end (t p : Z) (sl : bool) : PseudoTerminalEnd := mkEnd t p (RingBuffer_init (replicate 4096 0)) 0 sl false 0.
Definition demo_pty_sys : PtySys :=
  mkPty (mkTty demo_jobs (<[7 := demo_raw_terminal]> ∅) (<[2 := 20]> (controlling_terminal (mkTty demo_jobs ∅ ∅))))
    (<[20 := demo_pty_end 7 21 false]> (<[21 := demo_pty_end 7 20 true]> ∅)) (true :: replicate 255 false).

Lemma demo_pty_eq : demo_pty = Some demo_pty_sys.
Proof. by vm_compute. Qed.

Lemma demo_pty_opened : pty_opened demo_end 7 demo_raw_terminal demo_pty_sys.
Proof.
  assert (ring_wf PTY_RING (RingBuffer_init (replicate 4096 0)) /\ contents PTY_RING (RingBuffer_init (replicate 4096 0)) = []) as [Hwf Hc]
    by (apply ring_init_wf; [unfold PTY_RING; lia|by rewrite length_replicate]).
  split; [reflexivity|]. intros []; [exists (demo_pty_end 7 20 true)|exists (demo_pty_end 7 21 false)]; (split; [reflexivity|]);
    (split; [by constructor|exact Hc]).
Qed.

Definition demo_pty_ops : list pty_op := [EWrite false 0 [3; 13; 200]; EWrite true 0 [10; 65]; ERead true 0 2; ERead false 0 9; EWrite false 0 [66]].

Lemma pty_raw_is_stream_witness :
  let t := fold_left (fun t op => pty_step demo_end op t) demo_pty_ops (mkPtyTrace demo_pty_sys (fun _ => []) (fun _ => [])) in
  exists e, ends (pt_sys t) !! demo_end true = Some e /\ pt_sent t (negb true) = pt_received t true ++ ring_text e /\
    Z.of_nat (length (ring_text e)) <= PTY_RING.
Proof.
  refine (pty_raw_is_stream demo_end 7 demo_raw_terminal demo_pty_sys demo_pty_ops _ _ _ _ true).
  - discriminate.
  - reflexivity.
  - exact demo_pty_opened.
  - repeat constructor; cbn; lia.
Defined.

Lemma pty_raw_received :
  let t := fold_left (fun t op => pty_step demo_end op t) demo_pty_ops (mkPtyTrace demo_pty_sys (fun _ => []) (fun _ => [])) in
  pt_received t true = [3; 13] /\ pt_received t false = [10; 65] /\ pt_sent t false = [3; 13; 200; 66].
Proof. by vm_compute. Qed.

(** ** The line discipline *)

(** A slave's write that has room, line ends included, takes everything, and the
    master finds the text with a carriage return before each line feed. *)
Theorem pty_output_text v fl buf s e p t :
  ends s !! v = Some e -> slave e = true -> ends s !! peer e = Some p -> terminals (tty s) !! terminal e = Some t ->
  ring_wf PTY_RING (ring_buffer p) -> is_full PTY_RING (ring_buffer p) = false ->
  data_count (ring_buffer p) + Z.of_nat (length (output_text t (map char_of buf))) <= PTY_RING ->
  exists s' p', pty_write v fl buf s = Return (Z.of_nat (length buf)) s' /\ tty s' = tty s /\
    ends s' = <[peer e := p']> (ends s) /\
    contents PTY_RING (ring_buffer p') = contents PTY_RING (ring_buffer p) ++ output_text t (map char_of buf) /\
    pty_triggers p' = pty_triggers p + 1.
Proof.
  intros E Hsl P Ht Hwf Hfull Hroom.
  destruct (write_output_room t (map char_of buf) (ring_buffer p) Hwf Hroom) as (rb & Hw & _ & Hc).
  exists (upd_end (peer e) (fun p => trigger (with_ring rb p)) s), (trigger (with_ring rb p)).
  unfold pty_write. rewrite E, P, Hfull, Hsl, Ht, Hw, length_map. split; [done|]. split; [done|]. split; [|by split].
  unfold upd_end. cbn [ends]. apply map_eq. intros i. destruct (decide (i = peer e)) as [->|].
  - by rewrite lookup_alter_eq, lookup_insert_eq, P.
  - by rewrite lookup_alter_ne, lookup_insert_ne.
Qed.

(** Without [ONLCR] the text is what was written, and with it a text without
    carriage returns is read back by dropping them. *)
Lemma output_text_plain t cs : has (c_oflag (termios t)) ONLCR = false -> output_text t cs = cs.
Proof.
  intros H. unfold output_text. induction cs as [|c cs IH]; [done|]. cbn [map concat]. rewrite IH.
  unfold process_output_char. by rewrite H, andb_false_r.
Qed.

Lemma output_text_crlf t cs : 13 ∉ cs -> filter (fun c => c <> 13) (output_text t cs) = cs.
Proof.
  unfold output_text. induction cs as [|c cs IH]; intros H; [done|]. apply not_elem_of_cons in H as [Hc Hcs].
  cbn [map concat]. rewrite filter_app, (IH Hcs). unfold process_output_char.
  destruct ((c =? 10) && has (c_oflag (termios t)) ONLCR);
    [rewrite filter_cons_False by (intros H; by apply H)|]; rewrite filter_cons_True by (by apply not_eq_sym); by rewrite filter_nil.
Qed.

(** With a single place left, a line feed puts its carriage return and is
    reported as not taken, so the writer's retry puts another. *)
Definition one_place : PtySys :=
  upd_end 20 (with_ring (snd (RingBuffer_write PTY_RING (RingBuffer_init (replicate 4096 0)) (replicate 4095 65) 4095)))
    (set_tty (upd_terminal 7 (fun t => Terminal_new (replicate 44 0) (winsize t)) (tty demo_pty_sys)) demo_pty_sys).

Lemma onlcr_repeats_return :
  (match pty_write 21 0 [10] one_place with
   | Return n s =>
       match pty_read 20 0 4096 s with
       | Return _ s => match pty_write 21 0 [10] s with
                       | Return m s => match pty_read 20 0 4096 s with Return (_, bs) _ => (n, m, bs) | _ => (n, m, []) end
                       | _ => (0, 0, []) end
       | _ => (0, 0, []) end
   | _ => (0, 0, []) end) = (0, 1, [13; 10]) /\
  (match pty_write 21 0 [10] one_place with
   | Return _ s => match pty_read 20 0 4096 s with Return (_, bs) _ => drop 4094 bs | _ => [] end
   | _ => [] end) = [65; 13].
Proof. split; by vm_compute. Qed.

(** *** Signals *)

(** C37: Typing the interrupt, quit or suspend character sends its signal: every
    member of the terminal's foreground group has it pending and no other thread
    does, and the program reading the terminal does not find the character. *)
Theorem typed_signal v fl b sg s e p t g l :
  ends s !! v = Some e -> slave e = false -> ends s !! peer e = Some p -> is_full PTY_RING (ring_buffer p) = false ->
  terminals (tty s) !! terminal e = Some t -> char_signal t (char_of b) = Some sg -> char_of b <> 10 -> char_of b <> 13 ->
  foreground_process_group t = Some g -> groups (sched (jobs (tty s))) !! g = Some l -> jobs_ok (jobs (tty s)) ->
  queue_ok (sched (jobs (tty s))) -> listeners_live (sched (jobs (tty s))) -> main_ok (sched (jobs (tty s))) ->
  exists s' p', pty_write v fl [b] s = Return 1 s' /\ ends s' = <[peer e := p']> (ends s) /\ ring_buffer p' = ring_buffer p /\
    forall u, pending_of (sched (jobs (tty s'))) u
      = if bool_decide (u ∈ l) then (fun m => Z.lor m (get_signal_bit sg)) <$> pending_of (sched (jobs (tty s))) u
        else pending_of (sched (jobs (tty s))) u.
Proof.
  intros E Hsl P Hfull Ht Hsg H10 H13 Hg Hl [_ [A B C]] Hq Hli Hm. destruct (C g l Hl) as [Hnd _].
  assert (sg <> SIGCONT) as Hc.
  { unfold char_signal in Hsg. destruct (has _ ISIG); [|done]. repeat case_match; simplify_eq; done. }
  destruct (send_to_members_total g sg l (sched (jobs (tty s)))) as (sc & Hsc & Hp); [done..|intros q; by apply B|].
  assert (process_input_char t (char_of b) = ([], Some sg)) as Hin.
  { unfold process_input_char. apply Z.eqb_neq in H10, H13. rewrite H10, H13. cbn [andb]. by rewrite Hsg. }
  set (tt := set_jobs (set_sched sc (jobs (tty s))) (tty s)).
  assert (write_input (terminal e) (map char_of [b]) (ring_buffer p) (tty s) = Some (1, ring_buffer p, tt)) as Hw.
  { cbn [map write_input]. rewrite Ht. cbn [mbind option_bind]. rewrite Hin. cbn [put_chars]. rewrite Hg.
    unfold signal_group, ProcessGroup_send_signal. cbn [mbind option_bind]. rewrite Hl. cbn [mbind option_bind]. by rewrite Hsc. }
  exists (upd_end (peer e) (fun p0 => trigger (with_ring (ring_buffer p) p0)) (set_tty tt s)), (trigger (with_ring (ring_buffer p) p)).
  unfold pty_write. rewrite E, P, Hfull, Hsl, Hw. split; [done|]. split; [|by split].
  unfold upd_end. cbn [ends set_tty]. apply map_eq. intros i. destruct (decide (i = peer e)) as [->|].
  - by rewrite lookup_alter_eq, lookup_insert_eq, P.
  - by rewrite lookup_alter_ne, lookup_insert_ne.
Qed.

(** Process 1's terminal with the default attributes: the master writes ^C. *)
Definition demo_cooked : PtySys :=
  set_tty (upd_terminal 7 (fun t => mkTerminal (termios (Terminal_new (replicate 44 0) [])) (winsize t) (Some 1) (Some 2)) (tty demo_pty_sys)) demo_pty_sys.

Lemma typed_signal_witness :
  exists s' p', pty_write 20 0 [3] demo_cooked = Return 1 s' /\ ends s' !! 21 = Some p' /\
    ring_buffer p' = RingBuffer_init (replicate 4096 0) /\ pending_of (sched (jobs (tty s'))) 6 = Some 2 /\
    pending_of (sched (jobs (tty s'))) 1 = Some 2.
Proof.
  destruct (typed_signal 20 0 3 SIGINT demo_cooked (demo_pty_end 7 21 false) (demo_pty_end 7 20 true)
    (mkTerminal (termios (Terminal_new (replicate 44 0) [])) (replicate 8 0) (Some 1) (Some 2)) 1 [1; 5; 6])
    as (s' & p' & H1 & H2 & H3 & H4).
  - reflexivity.
  - reflexivity.
  - reflexivity.
  - reflexivity.
  - reflexivity.
  - reflexivity.
  - discriminate.
  - discriminate.
  - reflexivity.
  - reflexivity.
  - exact demo_jobs_ok.
  - exact demo_jobs_queue.
  - exact demo_listeners_live.
  - exact demo_main.
  - exists s', p'. split; [exact H1|]. split; [rewrite H2; reflexivity|]. split; [exact H3|].
    split; rewrite H4; reflexivity.
Defined.

Lemma pty_output_text_witness :
  exists s' p', pty_write 21 0 [72; 10] demo_cooked = Return 2 s' /\ ends s' !! 20 = Some p' /\
    contents PTY_RING (ring_buffer p') = [72; 13; 10].
Proof.
  destruct (pty_output_text 21 0 [72; 10] demo_cooked (demo_pty_end 7 20 true) (demo_pty_end 7 21 false)
    (mkTerminal (termios (Terminal_new (replicate 44 0) [])) (replicate 8 0) (Some 1) (Some 2)))
    as (s' & p' & H1 & _ & H2 & H3 & _).
  - reflexivity.
  - reflexivity.
  - reflexivity.
  - reflexivity.
  - apply ring_init_wf; [unfold PTY_RING; lia|by rewrite length_replicate].
  - reflexivity.
  - vm_compute. discriminate.
  - exists s', p'. split; [exact H1|]. split; [rewrite H2; reflexivity|]. rewrite H3. reflexivity.
Defined.

(** A carriage return under [ICRNL] is read as two line ends, and without a
    foreground group ^C dereferences a null pointer. *)
Lemma icrnl_puts_both : process_input_char (Terminal_new (replicate 44 0) []) 13 = ([10; 13], None).
Proof. reflexivity. Qed.

Lemma interrupt_without_group :
  pty_write 20 0 [3] (set_tty (upd_terminal 7 (fun t => Terminal_new (replicate 44 0) []) (tty demo_pty_sys)) demo_pty_sys) = Crash.
Proof. by vm_compute. Qed.

(** ** The console's text *)

Definition text_format : list Z := [chr_percent; chr_dot; chr_star; chr_s; 0].

Lemma text_conversion buf n : Z.of_nat (length buf) = n ->
  conversion 5 text_format 1 no_spec [AInt n; AStr buf] = Some (buf, n, 3%nat, []).
Proof.
  intros <-. lazy -[Z.of_nat Z.ltb length Z.to_nat take]. rewrite Z.ltb_irrefl, Nat2Z.id, take_ge by lia. done.
Qed.

Lemma text_printed buf n : Z.of_nat (length buf) = n -> vprintf 6 text_format [AInt n; AStr buf] = Some (buf, n).
Proof.
  intros Hn. transitivity ('(o, w, j, args1) ← conversion 5 text_format 1 no_spec [AInt n; AStr buf];
    vprintf_loop 5 text_format (S j) args1 ([] ++ o) (0 + w)); [reflexivity|].
  rewrite (text_conversion buf n Hn). reflexivity.
Qed.

(** A write puts the whole buffer, zeros included, and returns its length. *)
Theorem console_write_spec enabled buf c :
  Z.of_nat (length buf) < 2 ^ 31 ->
  console_write enabled buf c =
    (vt ← (if enabled then write_chars (map char_of buf) (screen c) else Some (screen c));
     Some (Z.of_nat (length buf), mkConsole (c_tty c) (c_terminal c) (input_buffer c) vt)).
Proof.
  intros Hl. unfold console_write. fold text_format.
  rewrite (text_printed buf) by (symmetry; apply sN_small; lia).
  cbn [mbind option_bind]. by rewrite (sN_small 32 (Z.of_nat (length buf))) by lia.
Qed.

(** Control on a letter gives its control character, and on a digit another
    letter than the key shows. *)
Lemma control_keys :
  key_char 46 false false true = Some 3 /\ key_char 2 false false true = Some (-47) /\ key_char 46 true true true = Some (-29).
Proof. by vm_compute. Qed.
