(* ===== verification/Input.v ===== *)
(** Input devices: the queues of events and their listeners
    (src/kernel/src/dev/input/input.hpp, input.cpp), the event nodes
    (evdev.cpp) and the keyboard and mouse of the PS/2 controller
    (ps2/keyboard.cpp, ps2/mouse.cpp).

    A key goes from the interrupt through its device to the listeners; the
    console of Tty.v is one of them. *)
From S2P Require Import Prelude KList Format RingBuffer Signal Sched Jobs Terminal Tty.

Definition EVENTS : Z := 128.
Definition EV_SYN : Z := 0.
Definition EV_REL : Z := 2.
Definition EV_ABS : Z := 3.
Definition EV_MSC : Z := 4.
Definition EV_SW : Z := 5.
Definition EV_LED : Z := 17.
Definition EV_SND : Z := 18.
Definition EV_FF : Z := 21.
Definition SYN_REPORT : Z := 0.
Definition SYN_DROPPED : Z := 3.
Definition REL_X : Z := 0.
Definition REL_Y : Z := 1.
Definition REL_WHEEL : Z := 8.
Definition BTN_LEFT : Z := 272.
Definition BTN_RIGHT : Z := 273.
Definition BTN_MIDDLE : Z := 274.
Definition BTN_SIDE : Z := 275.
Definition BTN_EXTRA : Z := 276.
Definition KEY_LEFTCTRL : Z := 29.
Definition KEY_RIGHTCTRL : Z := 97.
Definition KEY_LEFTSHIFT : Z := 42.
Definition KEY_RIGHTSHIFT : Z := 54.

(** ** Events, listeners and devices *)

Record InputEvent : Type := mkEvent { time : Z * Z; type : Z; code : Z; value : Z }.
Definition no_event : InputEvent := mkEvent (0, 0) 0 0 0.
Definition to_timeval (now : Z * Z) : Z * Z := (fst now, snd now `quot` 1000).
Definition new_event (ty c v : Z) (now : Z * Z) : InputEvent := mkEvent (to_timeval now) (u16 ty) (u16 c) (u32 v).

(** What a listener calls: nothing, the console or the watch for the key that
    prints the threads. *)
Inductive Callback : Type := NoCallback | ConsoleCallback | DebugKeyCallback.
Record InputListener : Type := mkListener { callback : Callback; event_buffer : RingBuffer InputEvent }.
Definition with_events (r : RingBuffer InputEvent) (l : InputListener) : InputListener := mkListener (callback l) r.

(** The bitmaps of a device: what it can do and what is pressed or lit. *)
Inductive Bits : Type := PropBits | EvBits | KeyBits | RelBits | AbsBits | MscBits | LedBits | SndBits | FfBits | SwBits
  | KeyStatus | LedStatus | SndStatus | SwStatus.
#[export] Instance Bits_eq_dec : EqDecision Bits.
Proof. solve_decision. Defined.
Definition bits_count (b : Bits) : Z :=
  match b with
  | PropBits | EvBits => 32 | KeyBits | KeyStatus => 768 | RelBits | LedBits | LedStatus => 16
  | AbsBits => 64 | MscBits | SndBits | SndStatus => 8 | FfBits => 128 | SwBits | SwStatus => 17
  end.

(** A device; its listeners by address, in the order of [listeners_list], and
    [caps_lock] of a keyboard. *)
Record InputDevice : Type := mkDevice {
  name : list Z; phys : list Z; uniq : list Z; id : list Z;
  listeners : list (Z * InputListener);
  queue : RingBuffer InputEvent;
  bits : Bits -> list Z;
  caps_lock : bool;
  triggers : Z
}.
Definition with_listeners (l : list (Z * InputListener)) (d : InputDevice) : InputDevice :=
  mkDevice (name d) (phys d) (uniq d) (id d) l (queue d) (bits d) (caps_lock d) (triggers d).
Definition with_queue (q : RingBuffer InputEvent) (d : InputDevice) : InputDevice :=
  mkDevice (name d) (phys d) (uniq d) (id d) (listeners d) q (bits d) (caps_lock d) (triggers d).
Definition with_bits (b : Bits) (w : list Z) (d : InputDevice) : InputDevice :=
  mkDevice (name d) (phys d) (uniq d) (id d) (listeners d) (queue d)
    (fun b' => if decide (b' = b) then w else bits d b') (caps_lock d) (triggers d).
Definition trigger_device (d : InputDevice) : InputDevice :=
  mkDevice (name d) (phys d) (uniq d) (id d) (listeners d) (queue d) (bits d) (caps_lock d) (triggers d + 1).

Definition unspecified : list Z := [40; 117; 110; 115; 112; 101; 99; 105; 102; 105; 101; 100; 41; 0].
Definition InputDevice_new (storage : list InputEvent) : InputDevice :=
  mkDevice unspecified unspecified unspecified (replicate 8 0) [] (RingBuffer_init storage)
    (fun b => KList.Bitmap.new (bits_count b)) false 0.

Definition get_bit (b : Bits) (i : Z) (d : InputDevice) : option bool := KList.Bitmap.get i (bits d b).
Definition set_bit (b : Bits) (i : Z) (v : bool) (d : InputDevice) : option InputDevice :=
  w ← KList.Bitmap.set i v (bits d b); Some (with_bits b w d).

Definition create_listener (a : Z) (cb : Callback) (storage : list InputEvent) (d : InputDevice) : InputDevice :=
  with_listeners (listeners d ++ [(a, mkListener cb (RingBuffer_init storage))]) d.
Definition remove_listener (a : Z) (d : InputDevice) : InputDevice :=
  with_listeners (filter (fun al => fst al <> a) (listeners d)) d.
Fixpoint listener_at (a : Z) (ls : list (Z * InputListener)) : option InputListener :=
  match ls with [] => None | (b, l) :: ls => if b =? a then Some l else listener_at a ls end.
Definition find_listener (a : Z) (d : InputDevice) : option InputListener := listener_at a (listeners d).
Definition upd_listener (a : Z) (f : InputListener -> InputListener) (d : InputDevice) : InputDevice :=
  with_listeners (map (fun al => if fst al =? a then (fst al, f (snd al)) else al) (listeners d)) d.

Definition InputListener_read (count : Z) (blocking : bool) (l : InputListener) : attempt InputListener (Z * list InputEvent) :=
  if is_empty (event_buffer l) then
    if blocking then Block l else Return (- EWOULDBLOCK, []) l
  else
    let '(n, evs, rb) := RingBuffer_read EVENTS (event_buffer l) count in Return (n, evs) (with_events rb l).

Definition InputListener_poll (events : Z) (l : InputListener) : Z :=
  if has events POLLIN && negb (is_empty (event_buffer l)) then POLLIN else 0.

Definition push_event (ty c v : Z) (now : Z * Z) (d : InputDevice) : InputDevice :=
  with_queue (snd (RingBuffer_write_truncate EVENTS (queue d) [new_event ty c v now] 1)) d.

(** The body of the loop over the listeners, up to the callback. *)
Definition deliver_events (evs : list InputEvent) (n : Z) (now : Z * Z) (l : InputListener) : InputListener :=
  let rb := event_buffer l in
  let rb1 :=
    if free_count EVENTS rb <? n then
      snd (RingBuffer_write EVENTS (snd (RingBuffer_truncate rb (data_count rb))) [new_event EV_SYN SYN_DROPPED 0 now] 1)
    else rb in
  with_events (snd (RingBuffer_write EVENTS rb1 evs n)) l.

(** ** The listeners' callbacks *)

Definition either_key (k1 k2 : Z) (d : InputDevice) : option bool :=
  a ← get_bit KeyStatus k1 d; b ← get_bit KeyStatus k2 d; Some (a || b).
Definition is_ctrl : InputDevice -> option bool := either_key KEY_LEFTCTRL KEY_RIGHTCTRL.
Definition is_shift : InputDevice -> option bool := either_key KEY_LEFTSHIFT KEY_RIGHTSHIFT.
Definition is_caps (d : InputDevice) : option bool := b ← is_shift d; Some (xorb (caps_lock d) b).

(** The loop of the console's callback; every turn reads an event, so a turn
    more than the ring has places is enough. *)
Fixpoint console_events (fuel : nat) (enabled : bool) (d : InputDevice) (rb : RingBuffer InputEvent) (c : Console)
    : option (RingBuffer InputEvent * Console) :=
  match fuel with
  | O => None
  | S fuel =>
      let '(n, evs, rb1) := RingBuffer_read EVENTS rb 1 in
      if n =? 0 then Some (rb1, c)
      else
        e ← head evs; s ← is_shift d; k ← is_caps d; t ← is_ctrl d;
        c1 ← process_input_event enabled (type e) (code e) (value e) s k t c;
        console_events fuel enabled d rb1 c1
  end.

(** The watch stops at the first event that is no key press; what it prints is
    not kept. *)
Fixpoint debug_events (fuel : nat) (rb : RingBuffer InputEvent) : option (RingBuffer InputEvent) :=
  match fuel with
  | O => None
  | S fuel =>
      let '(n, evs, rb1) := RingBuffer_read EVENTS rb 1 in
      if n =? 0 then Some rb1
      else e ← head evs; if negb (type e =? EV_KEY) || (value e =? 0) then Some rb1 else debug_events fuel rb1
  end.

Definition callback_fuel : nat := 129.
Definition run_callback (enabled : bool) (d : InputDevice) (l : InputListener) (c : Console) : option (InputListener * Console) :=
  match callback l with
  | NoCallback => Some (l, c)
  | DebugKeyCallback => rb ← debug_events callback_fuel (event_buffer l); Some (with_events rb l, c)
  | ConsoleCallback => '(rb, c1) ← console_events callback_fuel enabled d (event_buffer l) c; Some (with_events rb l, c1)
  end.

Fixpoint flush_listeners (enabled : bool) (d : InputDevice) (evs : list InputEvent) (n : Z) (now : Z * Z)
    (ls : list (Z * InputListener)) (c : Console) : option (list (Z * InputListener) * Console) :=
  match ls with
  | [] => Some ([], c)
  | (a, l) :: ls =>
      '(l1, c1) ← run_callback enabled d (deliver_events evs n now l) c;
      '(ls1, c2) ← flush_listeners enabled d evs n now ls c1;
      Some ((a, l1) :: ls1, c2)
  end.

Definition flush_events (enabled : bool) (now : Z * Z) (d : InputDevice) (c : Console) : option (InputDevice * Console) :=
  let d1 := if is_empty (queue d) then d else push_event EV_SYN SYN_REPORT 0 now d in
  let '(n, evs, q) := RingBuffer_read EVENTS (queue d1) EVENTS in
  let d2 := with_queue q d1 in
  '(ls, c1) ← flush_listeners enabled d2 evs n now (listeners d2) c;
  Some (trigger_device (with_listeners ls d2), c1).

(** ** The keyboard *)

Record Keyboard : Type := mkKeyboard { kbd : InputDevice; extended : bool }.

Definition set_bits (b : Bits) (ixs : list Z) (d : InputDevice) : option InputDevice :=
  each (fun i d => set_bit b i true d) ixs d.

Definition kbd_name : list Z := [80; 83; 47; 50; 32; 75; 101; 121; 98; 111; 97; 114; 100; 0].
Definition kbd_phys : list Z := [112; 115; 50; 107; 98; 100; 47; 105; 110; 112; 117; 116; 48; 0].
Definition BUS_I8042 : Z := 17.
Definition input_id (bus vendor product version : Z) : list Z :=
  le_split 2 bus ++ le_split 2 vendor ++ le_split 2 product ++ le_split 2 version.

Definition Keyboard_new (storage : list InputEvent) : option Keyboard :=
  let d := InputDevice_new storage in
  let d := mkDevice kbd_name kbd_phys (uniq d) (input_id BUS_I8042 1 1 1) (listeners d) (queue d) (bits d) (caps_lock d) (triggers d) in
  d ← set_bits EvBits [EV_SYN; EV_KEY] d;
  d ← set_bits KeyBits (filter (fun k => k <> 84) (seqZ 1 127)) d;
  d ← set_bit EvBits EV_LED true d;
  d ← set_bits LedBits [0; 1; 2] d;
  Some (mkKeyboard d false).

(** The keys behind the prefix 0xE0. *)
Definition extended_key (k : Z) : Z :=
  match k with
  | 28 => 96 | 29 => 97 | 53 => 98 | 56 => 100 | 71 => 102 | 72 => 103 | 73 => 104 | 75 => 105 | 77 => 106
  | 79 => 107 | 80 => 108 | 81 => 109 | 82 => 110 | 83 => 111 | k => k
  end.

Definition Keyboard_irq (enabled : bool) (scancode : Z) (now : Z * Z) (k : Keyboard) (c : Console) : option (Keyboard * Console) :=
  if scancode =? 224 then Some (mkKeyboard (kbd k) true, c)
  else
    let release := negb (Z.land scancode 128 =? 0) in
    let key := Z.land scancode 127 in
    let keycode := if extended k then extended_key key else key in
    down ← get_bit KeyStatus keycode (kbd k);
    let is_repeat := negb release && down in
    d1 ← (if is_repeat then Some (kbd k) else set_bit KeyStatus keycode (negb release) (kbd k));
    '(d2, c1) ← flush_events enabled now (push_event EV_KEY keycode (if is_repeat then 2 else b2z (negb release)) now d1) c;
    Some (mkKeyboard d2 false, c1).

(** ** The mouse *)

Record Mouse : Type := mkMouse {
  mouse : InputDevice; has_wheel : bool; has_five_buttons : bool; packet : list Z; packet_count : Z
}.
Definition mouse_name : list Z := [80; 83; 47; 50; 32; 77; 111; 117; 115; 101; 0].
Definition mouse_phys : list Z := [112; 115; 50; 109; 111; 117; 115; 101; 47; 105; 110; 112; 117; 116; 48; 0].
Definition IDENTITY_MOUSE : Z := 0.
Definition IDENTITY_MOUSE_WHEEL : Z := 3.
Definition IDENTITY_MOUSE_FIVE_BUTTONS : Z := 4.

(** The identities are what the device answers before and after the rates that
    enable the wheel and the buttons; the first is asserted. *)
Definition Mouse_new (storage : list InputEvent) (id1 id2 id3 : Z) : option Mouse :=
  if negb (id1 =? IDENTITY_MOUSE) then None
  else
    let wheel := id2 =? IDENTITY_MOUSE_WHEEL in
    let five := wheel && (id3 =? IDENTITY_MOUSE_FIVE_BUTTONS) in
    let d := InputDevice_new storage in
    let d := mkDevice mouse_name mouse_phys (uniq d) (input_id BUS_I8042 2 1 1) (listeners d) (queue d) (bits d) (caps_lock d) (triggers d) in
    d ← set_bits EvBits [EV_SYN; EV_KEY] d;
    d ← set_bits KeyBits ([BTN_LEFT; BTN_RIGHT; BTN_MIDDLE] ++ if five then [BTN_SIDE; BTN_EXTRA] else []) d;
    d ← set_bit EvBits EV_REL true d;
    d ← set_bits RelBits ([REL_X; REL_Y] ++ if wheel then [REL_WHEEL] else []) d;
    Some (mkMouse d wheel five (replicate 4 0) 0).

Definition process_button (index : Z) (state : bool) (now : Z * Z) (d : InputDevice) : option InputDevice :=
  old ← get_bit KeyStatus index d;
  if eqb state old then Some d
  else d1 ← set_bit KeyStatus index state d; Some (push_event EV_KEY index (b2z state) now d1).

Definition push_motion (c v : Z) (now : Z * Z) (d : InputDevice) : InputDevice :=
  if v =? 0 then d else push_event EV_REL c v now d.

(** The motion of an axis and of the wheel. *)
Definition motion (b sign : Z) : Z := b - (if sign =? 0 then 0 else 256).
Definition wheel_motion (b : Z) : Z := Z.land b 7 * (if Z.land b 8 =? 0 then -1 else 1).

Definition mouse_packet (five wheel : bool) (p : list Z) (now : Z * Z) (d : InputDevice) : option InputDevice :=
  let b i := nth i p 0 in
  let flag x m := negb (Z.land x m =? 0) in
  d ← process_button BTN_LEFT (flag (b 0%nat) 1) now d;
  d ← process_button BTN_RIGHT (flag (b 0%nat) 2) now d;
  d ← process_button BTN_MIDDLE (flag (b 0%nat) 4) now d;
  d ← (if five then d ← process_button BTN_SIDE (flag (b 3%nat) 16) now d; process_button BTN_EXTRA (flag (b 3%nat) 32) now d
       else Some d);
  let d := push_motion REL_X (motion (b 1%nat) (Z.land (b 0%nat) 16)) now d in
  let d := push_motion REL_Y (- motion (b 2%nat) (Z.land (b 0%nat) 32)) now d in
  Some (if wheel then push_motion REL_WHEEL (wheel_motion (b 3%nat)) now d else d).

Definition Mouse_irq (enabled : bool) (byte : Z) (now : Z * Z) (m : Mouse) (c : Console) : option (Mouse * Console) :=
  if negb ((0 <=? packet_count m) && (packet_count m <? 4)) then None
  else
    let p := <[Z.to_nat (packet_count m) := byte]> (packet m) in
    if Z.land (nth 0 p 0) 8 =? 0 then Some (mkMouse (mouse m) (has_wheel m) (has_five_buttons m) p 0, c)
    else
      let n := packet_count m + 1 in
      if negb ((has_wheel m && (n =? 4)) || (negb (has_wheel m) && (n =? 3))) then
        Some (mkMouse (mouse m) (has_wheel m) (has_five_buttons m) p n, c)
      else
        d1 ← mouse_packet (has_five_buttons m) (has_wheel m) p now (mouse m);
        '(d2, c1) ← flush_events enabled now d1 c;
        Some (mkMouse d2 (has_wheel m) (has_five_buttons m) p 0, c1).

(** ** Event nodes *)

Definition sizeof_event : Z := 24.
Definition EventDevNode_open (a : Z) (storage : list InputEvent) (d : InputDevice) : Z * InputDevice :=
  (0, create_listener a NoCallback storage d).
Definition EventDevNode_close (a : Z) (d : InputDevice) : InputDevice := remove_listener a d.

(** The description's [priv] is the listener's address. *)
Definition EventDevNode_read (a fl count : Z) (d : InputDevice) : attempt InputDevice (Z * list InputEvent) :=
  match find_listener a d with
  | None => Crash
  | Some l =>
      match InputListener_read (count / sizeof_event) (negb (has fl O_NONBLOCK)) l with
      | Crash => Crash
      | Block l1 => Block d
      | Return (n, evs) l1 => Return (if n <? 0 then n else n * sizeof_event, evs) (upd_listener a (fun _ => l1) d)
      end
  end.

Definition EventDevNode_poll (a events : Z) (d : InputDevice) : option Z := l ← find_listener a d; Some (InputListener_poll events l).

(** The result with the bytes stored; strings hold their terminator. *)
Definition copy_string (size : Z) (str : list Z) : option (Z * list Z) :=
  bs ← strncpy str (Z.to_nat size);
  n ← strnlen str (length str);
  Some (Z.min (n + 1) size, bs).
Definition copy_bitmap (size : Z) (words : list Z) (len : Z) : Z * list Z :=
  let copied := Z.min (align_up len 8 / 8) size in
  (copied, take (Z.to_nat copied) (concat (map (le_split 8) words))).

Definition ioc_read (nr : Z) : Z := Z.lor 2147501312 nr.
Definition EVIOCGVERSION : Z := 2147763457.
Definition EVIOCGID : Z := 2148025602.
Definition EVIOCGEFFECTS : Z := 2147763588.
Definition EVIOCGRAB : Z := 1074021776.
Definition ioc_size (cmd : Z) : Z := Z.land (Z.shiftr cmd 16) 16383.
Definition ioc_mask_size (cmd : Z) : Z := Z.ldiff cmd 1073676288.

Definition event_bits (ty : Z) : option (Bits * Z) :=
  if ty =? 0 then Some (EvBits, 31)
  else if ty =? EV_KEY then Some (KeyBits, 767)
  else if ty =? EV_REL then Some (RelBits, 15)
  else if ty =? EV_ABS then Some (AbsBits, 63)
  else if ty =? EV_MSC then Some (MscBits, 7)
  else if ty =? EV_LED then Some (LedBits, 15)
  else if ty =? EV_SND then Some (SndBits, 7)
  else if ty =? EV_FF then Some (FfBits, 127)
  else if ty =? EV_SW then Some (SwBits, 16)
  else None.

Definition EventDevNode_ioctl (cmd : Z) (d : InputDevice) : option (Z * list Z) :=
  if cmd =? EVIOCGVERSION then Some (0, le_split 4 65537)
  else if cmd =? EVIOCGID then Some (0, id d)
  else if (cmd =? EVIOCGEFFECTS) || (cmd =? EVIOCGRAB) then Some (0, [])
  else
    let size := ioc_size cmd in
    let m := ioc_mask_size cmd in
    let all b := Some (copy_bitmap size (bits d b) (bits_count b)) in
    if m =? ioc_read 6 then copy_string size (name d)
    else if m =? ioc_read 7 then copy_string size (phys d)
    else if m =? ioc_read 8 then copy_string size (uniq d)
    else if m =? ioc_read 9 then all PropBits
    else if m =? ioc_read 24 then all KeyStatus
    else if m =? ioc_read 25 then all LedStatus
    else if m =? ioc_read 26 then all SndStatus
    else if m =? ioc_read 27 then all SwStatus
    else if negb (Z.land (Z.shiftr cmd 8) 255 =? 69) then Some (- EINVAL, [])
    else if (Z.land (Z.shiftr cmd 30) 3 =? 2) && (Z.ldiff (Z.land cmd 255) 31 =? 32) then
      match event_bits (Z.land (Z.land cmd 255) 31) with
      | None => Some (- EINVAL, [])
      | Some (b, len) => Some (copy_bitmap size (bits d b) len)
      end
    else Some (- EINVAL, []).

(** ** Rings of events *)

Lemma events_divide : (EVENTS | 18446744073709551616).
Proof. by exists 144115188075855872. Qed.

Lemma write_truncate_one (rb : RingBuffer InputEvent) e : ring_wf EVENTS rb ->
  let rb' := snd (RingBuffer_write_truncate EVENTS rb [e] 1) in
  ring_wf EVENTS rb' /\
  contents EVENTS rb' = (if data_count rb <? EVENTS then contents EVENTS rb else drop 1 (contents EVENTS rb)) ++ [e].
Proof.
  intros Hwf. pose proof (ring_run_spec EVENTS rb (QWriteTruncate [e]) events_divide Hwf I) as H. cbn [ring_run queue_run] in H.
  change (Z.of_nat (length [e])) with 1 in H. pose proof (contents_length _ _ Hwf) as Hl. pose proof (wf_count _ _ Hwf).
  destruct (RingBuffer_write_truncate EVENTS rb [e] 1) as [n rb']. destruct H as [Hwf' H]. split; [done|]. cbn [snd].
  rewrite Hl in H. destruct (Z.ltb_spec (EVENTS - data_count rb) 1) as [E|E], (Z.ltb_spec (data_count rb) EVENTS); try lia;
    injection H as _ <-; f_equal; rewrite take_ge; [done| |done|]; cbn [length].
  - change (Z.to_nat 1) with 1%nat. rewrite length_drop. unfold EVENTS in *. lia.
  - rewrite Hl. lia.
Qed.

Lemma read_all (rb : RingBuffer InputEvent) n : ring_wf EVENTS rb -> EVENTS <= n ->
  exists rb', RingBuffer_read EVENTS rb n = (data_count rb, contents EVENTS rb, rb') /\ ring_wf EVENTS rb' /\ contents EVENTS rb' = [].
Proof.
  intros Hwf Hn. unfold EVENTS in Hn. pose proof (RingBuffer_read_spec EVENTS rb n Hwf ltac:(lia)) as H.
  pose proof (contents_length _ _ Hwf) as Hl. pose proof (wf_count _ _ Hwf) as Hc. unfold EVENTS in Hc.
  destruct (RingBuffer_read EVENTS rb n) as [[c out] rb']. destruct H as (-> & -> & Hwf' & Hd). exists rb'.
  rewrite take_ge by lia. rewrite drop_ge in Hd by lia. by rewrite Z.min_r by lia.
Qed.

Definition dropped (now : Z * Z) : InputEvent := new_event EV_SYN SYN_DROPPED 0 now.

(** What a listener holds after a report. *)
Definition received (evs old : list InputEvent) (now : Z * Z) : list InputEvent :=
  if Z.of_nat (length old + length evs) <=? EVENTS then old ++ evs else dropped now :: take 127 evs.

Lemma deliver_events_spec evs now l : ring_wf EVENTS (event_buffer l) -> Z.of_nat (length evs) <= EVENTS ->
  let l' := deliver_events evs (Z.of_nat (length evs)) now l in
  ring_wf EVENTS (event_buffer l') /\ callback l' = callback l /\
  contents EVENTS (event_buffer l') = received evs (contents EVENTS (event_buffer l)) now.
Proof.
  intros Hwf Hn. unfold deliver_events, received. set (rb := event_buffer l) in *. set (n := Z.of_nat (length evs)) in *.
  pose proof (contents_length _ _ Hwf) as Hl. rewrite (free_count_eq _ _ Hwf). pose proof (wf_count _ _ Hwf) as Hc.
  destruct (Z.ltb_spec (EVENTS - data_count rb) n) as [E|E].
  - pose proof (RingBuffer_truncate_spec EVENTS rb (data_count rb) Hwf (data_count_nonneg rb)) as H.
    destruct (RingBuffer_truncate rb (data_count rb)) as [? rb1]. destruct H as (_ & Hwf1 & Hc1). cbn [snd].
    rewrite drop_ge in Hc1 by lia. pose proof (contents_length _ _ Hwf1) as Hl1. rewrite Hc1 in Hl1. cbn [length] in Hl1.
    pose proof (RingBuffer_write_spec EVENTS rb1 [new_event EV_SYN SYN_DROPPED 0 now] 1 Hwf1 ltac:(cbn; lia) ltac:(left; apply events_divide)) as H.
    destruct (RingBuffer_write EVENTS rb1 _ 1) as [c2 rb2]. destruct H as (-> & Hwf2 & Hc2 & _). cbn [snd].
    replace (Z.min 1 (EVENTS - data_count rb1)) with 1 in Hc2 by (unfold EVENTS; lia). rewrite Hc1 in Hc2. cbn [app] in Hc2.
    pose proof (contents_length _ _ Hwf2) as Hl2. rewrite Hc2 in Hl2. change (1 = data_count rb2) in Hl2.
    pose proof (RingBuffer_write_spec EVENTS rb2 evs n Hwf2 ltac:(lia) ltac:(left; apply events_divide)) as H.
    destruct (RingBuffer_write EVENTS rb2 evs n) as [c3 rb3]. destruct H as (-> & Hwf3 & Hc3 & _). cbn [snd with_events event_buffer callback].
    split; [done|]. split; [done|]. rewrite Hc3, Hc2. rewrite <- Hl2.
    destruct (Z.leb_spec (Z.of_nat (length (contents EVENTS rb) + length evs)) EVENTS); [lia|].
    change (EVENTS - 1) with 127. cbn. f_equal. destruct (decide (n <= 127)).
    + rewrite Z.min_l by lia. rewrite !take_ge by (unfold n in *; lia). done.
    + rewrite Z.min_r by lia. done.
  - pose proof (RingBuffer_write_spec EVENTS rb evs n Hwf ltac:(lia) ltac:(left; apply events_divide)) as H.
    destruct (RingBuffer_write EVENTS rb evs n) as [c3 rb3]. destruct H as (-> & Hwf3 & Hc3 & _). cbn [snd with_events event_buffer callback].
    split; [done|]. split; [done|]. rewrite Hc3, take_ge by lia.
    destruct (Z.leb_spec (Z.of_nat (length (contents EVENTS rb) + length evs)) EVENTS); [done|lia].
Qed.

(** ** Reports *)

Definition device_ok (d : InputDevice) : Prop :=
  ring_wf EVENTS (queue d) /\ Forall (fun al => ring_wf EVENTS (event_buffer (snd al))) (listeners d).

(** What is flushed from a queue. *)
Definition report (q : list InputEvent) (now : Z * Z) : list InputEvent :=
  if bool_decide (q = []) then [] else drop (length q - 127) q ++ [new_event EV_SYN SYN_REPORT 0 now].

Lemma flushed_queue d now : ring_wf EVENTS (queue d) ->
  let d1 := if is_empty (queue d) then d else push_event EV_SYN SYN_REPORT 0 now d in
  ring_wf EVENTS (queue d1) /\ contents EVENTS (queue d1) = report (contents EVENTS (queue d)) now /\
  d1 = with_queue (queue d1) d.
Proof.
  intros Hwf. unfold report. rewrite (ring_empty_spec EVENTS (queue d) Hwf). case_bool_decide as E.
  - rewrite E. split; [done|]. split; [done|]. by destruct d.
  - pose proof (write_truncate_one (queue d) (new_event EV_SYN SYN_REPORT 0 now) Hwf) as [Hwf' Hc].
    split; [done|]. split; [|done]. cbn [push_event queue with_queue]. rewrite Hc. f_equal.
    pose proof (contents_length _ _ Hwf) as Hl. pose proof (wf_count _ _ Hwf) as Hle. unfold EVENTS in Hle, Hl |- *.
    destruct (Z.ltb_spec (data_count (queue d)) 128); [|f_equal; lia].
    replace (_ - 127)%nat with 0%nat by lia. done.
Qed.

Lemma report_length q now : Z.of_nat (length q) <= EVENTS -> Z.of_nat (length (report q now)) <= EVENTS.
Proof.
  intros H. unfold report. case_bool_decide; [done|]. rewrite length_app, length_drop. cbn [length]. unfold EVENTS in *. lia.
Qed.

Lemma flush_listeners_quiet enabled d evs now c : Z.of_nat (length evs) <= EVENTS -> forall ls,
  Forall (fun al => ring_wf EVENTS (event_buffer (snd al)) /\ callback (snd al) = NoCallback) ls ->
  flush_listeners enabled d evs (Z.of_nat (length evs)) now ls c
  = Some (map (fun al => (fst al, deliver_events evs (Z.of_nat (length evs)) now (snd al))) ls, c).
Proof.
  intros Hn ls H. induction H as [|[a l] ls [Hwf Hcb] _ IH]; [done|]. cbn [flush_listeners map fst snd] in *.
  destruct (deliver_events_spec evs now l Hwf Hn) as (_ & Hcb' & _).
  unfold run_callback. rewrite Hcb', Hcb. cbn [mbind option_bind]. by rewrite IH.
Qed.

(** Listeners that call nothing, the nodes' among them. *)
Definition quiet (d : InputDevice) : Prop :=
  ring_wf EVENTS (queue d) /\
  Forall (fun al => ring_wf EVENTS (event_buffer (snd al)) /\ callback (snd al) = NoCallback) (listeners d).
Definition held (l : InputListener) : list InputEvent := contents EVENTS (event_buffer l).

Lemma flush_events_eq enabled now d c : quiet d ->
  let evs := report (contents EVENTS (queue d)) now in
  exists q, ring_wf EVENTS q /\ contents EVENTS q = [] /\
    flush_events enabled now d c
    = Some (trigger_device (with_listeners (map (fun al => (fst al, deliver_events evs (Z.of_nat (length evs)) now (snd al))) (listeners d))
              (with_queue q d)), c).
Proof.
  intros [Hwf Hls] evs. destruct (flushed_queue d now Hwf) as (Hwf1 & Hc1 & Hd1). unfold flush_events. cbv zeta.
  rewrite Hd1. set (d1 := if is_empty (queue d) then d else _) in *. cbn [queue with_queue].
  destruct (read_all (queue d1) EVENTS Hwf1 ltac:(lia)) as (q & Hr & Hwfq & Hcq). rewrite Hr.
  exists q. split; [done|]. split; [done|]. rewrite Hc1. fold evs.
  assert (data_count (queue d1) = Z.of_nat (length evs)) as -> by (rewrite <- (contents_length _ _ Hwf1), Hc1; done).
  cbn [listeners with_queue]. rewrite flush_listeners_quiet; [done| |done].
  apply report_length. rewrite (contents_length _ _ Hwf). apply (wf_count _ _ Hwf).
Qed.

(** A flush hands the device's queue, closed by a report, to every listener: one
    with room finds it behind what it held, and one without finds, in place of
    everything, the mark that events were dropped and the report. *)
Theorem flush_events_spec enabled now d c :
  quiet d ->
  exists d', flush_events enabled now d c = Some (d', c) /\ quiet d' /\ contents EVENTS (queue d') = [] /\
    map fst (listeners d') = map fst (listeners d) /\
    map (fun al => held (snd al)) (listeners d')
    = map (fun al => received (report (contents EVENTS (queue d)) now) (held (snd al)) now) (listeners d) /\
    bits d' = bits d /\ triggers d' = triggers d + 1.
Proof.
  intros Hq. destruct (flush_events_eq enabled now d c Hq) as (q & Hwfq & Hcq & E). eexists. split; [exact E|].
  destruct Hq as [Hwf Hls]. set (evs := report (contents EVENTS (queue d)) now).
  assert (Z.of_nat (length evs) <= EVENTS) as Hn by (apply report_length; rewrite (contents_length _ _ Hwf); apply (wf_count _ _ Hwf)).
  split; [|split; [done|split; [|split; [|by split]]]].
  - split; [done|]. cbn [listeners trigger_device with_listeners]. apply Forall_map. eapply Forall_impl; [exact Hls|].
    intros [a l] [H1 H2]. cbn [snd fst] in *. destruct (deliver_events_spec evs now l H1 Hn) as (? & Hcb & _). split; [done|]. by rewrite Hcb.
  - cbn [listeners trigger_device with_listeners]. by rewrite map_map.
  - cbn [listeners trigger_device with_listeners]. rewrite map_map. apply map_ext_Forall.
    eapply Forall_impl; [exact Hls|]. intros [a l] [H1 _]. cbn [snd fst] in *. unfold held. by apply deliver_events_spec.
Qed.

Lemma listener_at_map a f ls : listener_at a (map (fun al => (fst al, f (snd al))) ls) = f <$> listener_at a ls.
Proof. induction ls as [|[b l] ls IH]; [done|]. cbn [map listener_at fst snd]. by destruct (b =? a). Qed.

Lemma listener_at_in a l ls : listener_at a ls = Some l -> (a, l) ∈ ls.
Proof.
  induction ls as [|[b y] ls IH]; [done|]. cbn [listener_at]. destruct (Z.eqb_spec b a) as [->|]; [intros [= ->]; by left|].
  intros H. right. by apply IH.
Qed.

Lemma listener_at_upd a f l ls : listener_at a ls = Some l ->
  listener_at a (map (fun al => if fst al =? a then (fst al, f (snd al)) else al) ls) = Some (f l).
Proof.
  induction ls as [|[b y] ls IH]; [done|]. cbn [map listener_at fst snd]. destruct (b =? a) eqn:E; cbn [listener_at];
    rewrite E; [by intros [= ->]|done].
Qed.

(** A node's reader that has read everything. *)
Definition reader_ready (a : Z) (d : InputDevice) : Prop :=
  quiet d /\ contents EVENTS (queue d) = [] /\ exists l, find_listener a d = Some l /\ held l = [].

(** The reader's next read, of at least as many events as there can be. *)
Lemma node_read_all a fl count d l : quiet d -> find_listener a d = Some l -> EVENTS * sizeof_event <= count ->
  held l <> [] ->
  exists d', EventDevNode_read a fl count d = Return (Z.of_nat (length (held l)) * sizeof_event, held l) d' /\ quiet d' /\
    queue d' = queue d /\ bits d' = bits d /\ exists l', find_listener a d' = Some l' /\ held l' = [].
Proof.
  intros [Hq Hls] Hf Hc Hne. assert (ring_wf EVENTS (event_buffer l)) as Hwf.
  { apply listener_at_in in Hf. rewrite Forall_forall in Hls. apply (Hls _ Hf). }
  unfold EventDevNode_read. rewrite Hf. unfold InputListener_read. rewrite (ring_empty_spec _ _ Hwf), bool_decide_false by done.
  destruct (read_all (event_buffer l) (count / sizeof_event) Hwf) as (rb & -> & Hwfr & Hcr).
  { unfold sizeof_event in *. apply Z.div_le_lower_bound; lia. }
  pose proof (data_count_nonneg (event_buffer l)). destruct (Z.ltb_spec (data_count (event_buffer l)) 0); [lia|].
  rewrite <- (contents_length _ _ Hwf). eexists. split; [done|]. split; [|split; [done|split; [done|]]].
  - split; [done|]. cbn [listeners upd_listener with_listeners]. apply Forall_map. eapply Forall_impl; [exact Hls|].
    intros [b y] [H1 H2]. cbn [fst snd] in *. destruct (b =? a); [|done]. cbn. split; [done|].
    apply listener_at_in in Hf. rewrite Forall_forall in Hls. apply (Hls _ Hf).
  - exists (with_events rb l). split; [|done]. unfold find_listener, upd_listener. cbn [listeners with_listeners].
    by erewrite (listener_at_upd a (fun _ => with_events rb l)).
Qed.

(** Pushing less than a ring of events and flushing: the reader finds them. *)
Lemma push_event_queue ty c v now d : ring_wf EVENTS (queue d) -> (length (contents EVENTS (queue d)) < 128)%nat ->
  ring_wf EVENTS (queue (push_event ty c v now d)) /\
  contents EVENTS (queue (push_event ty c v now d)) = contents EVENTS (queue d) ++ [new_event ty c v now].
Proof.
  intros Hwf Hn. destruct (write_truncate_one (queue d) (new_event ty c v now) Hwf) as [H1 H2]. split; [done|].
  unfold push_event. cbn [queue with_queue]. rewrite H2. rewrite <- (contents_length _ _ Hwf). unfold EVENTS in *.
  by destruct (Z.ltb_spec (Z.of_nat (length (contents 128 (queue d)))) 128); [|lia].
Qed.

(** ** The keys that are down *)

Record KeyState : Type := mkKeys { prefixed : bool; pressed : gset Z }.
Definition keycode_of (prefix : bool) (sc : Z) : Z :=
  if prefix then extended_key (Z.land sc 127) else Z.land sc 127.

(** What a scan code means: the new state, and the key with 1 for a press, 2
    while it is held and 0 for its release. *)
Definition scan (sc : Z) (s : KeyState) : KeyState * option (Z * Z) :=
  if sc =? 224 then (mkKeys true (pressed s), None)
  else
    let key := keycode_of (prefixed s) sc in
    if Z.land sc 128 =? 0 then
      (mkKeys false ({[key]} ∪ pressed s), Some (key, if decide (key ∈ pressed s) then 2 else 1))
    else (mkKeys false (pressed s ∖ {[key]}), Some (key, 0)).

Definition keys_match (d : InputDevice) (s : KeyState) : Prop :=
  forall key, 0 <= key < 768 -> get_bit KeyStatus key d = Some (bool_decide (key ∈ pressed s)).

Lemma keycode_range prefix sc : 0 <= keycode_of prefix sc < 128.
Proof.
  assert (0 <= Z.land sc 127 < 128) as H.
  { change 127 with (Z.ones 7). rewrite Z.land_ones by lia. apply Z.mod_pos_bound. lia. }
  unfold keycode_of. destruct prefix; [|done].
  assert (Forall (fun k => 0 <= extended_key k < 128) (seqZ 0 128)) as Hall.
  { refine (bool_decide_unpack _ _). by vm_compute. }
  rewrite Forall_forall in Hall. apply Hall, elem_of_seqZ. lia.
Qed.

Lemma set_bit_total b i v d : is_Some (get_bit b i d) -> 0 <= i ->
  exists d', set_bit b i v d = Some d' /\ listeners d' = listeners d /\ queue d' = queue d /\ triggers d' = triggers d /\
    caps_lock d' = caps_lock d /\
    forall b' j, 0 <= j -> get_bit b' j d' = if decide (b' = b) then (if j =? i then Some v else get_bit b j d) else get_bit b' j d.
Proof.
  intros [x Hx] Hi. unfold get_bit in Hx. unfold set_bit. destruct (KList.Bitmap.set i v (bits d b)) as [w|] eqn:E.
  - cbn [mbind option_bind]. eexists. split; [done|]. do 4 (split; [done|]). intros b' j Hj. unfold get_bit. cbn [bits with_bits].
    case_decide as Hb; [|done]. by apply (KList.Bitmap.get_set _ _ _ _ j Hi Hj E).
  - unfold KList.Bitmap.get in Hx. unfold KList.Bitmap.set in E. by destruct (bits d b !! _).
Qed.

Lemma pushed_bits ty c v now d b i : get_bit b i (push_event ty c v now d) = get_bit b i d.
Proof. done. Qed.

Lemma bind_some {A B} (x : A) (f : A -> option B) : (Some x ≫= f) = f x.
Proof. done. Qed.

(** The interrupt up to the flush. *)
Lemma Keyboard_irq_eq enabled sc now k s c : extended k = prefixed s -> keys_match (kbd k) s ->
  match snd (scan sc s) with
  | None => Keyboard_irq enabled sc now k c = Some (mkKeyboard (kbd k) true, c) /\ pressed (fst (scan sc s)) = pressed s
  | Some (key, v) => 0 <= key < 128 /\ (v = 0 \/ v = 1 \/ v = 2) /\
      exists d1, listeners d1 = listeners (kbd k) /\ queue d1 = queue (kbd k) /\ caps_lock d1 = caps_lock (kbd k) /\
        keys_match d1 (fst (scan sc s)) /\
        Keyboard_irq enabled sc now k c
        = ('(d2, c1) ← flush_events enabled now (push_event EV_KEY key v now d1) c; Some (mkKeyboard d2 false, c1))
  end /\ prefixed (fst (scan sc s)) = match snd (scan sc s) with None => true | Some _ => false end.
Proof.
  intros Hext Hm. unfold scan, Keyboard_irq. destruct (sc =? 224) eqn:E; cbn [fst snd]; [by split|].
  rewrite Hext. set (key := keycode_of (prefixed s) sc). fold (keycode_of (prefixed s) sc). fold key.
  pose proof (keycode_range (prefixed s) sc) as Hk. fold key in Hk. rewrite (Hm key) by lia. rewrite bind_some. cbv beta.
  destruct (Z.land sc 128 =? 0) eqn:Er; cbn [negb andb fst snd prefixed pressed]; (split; [|done]); (split; [done|]).
  - case_decide as Hin; [rewrite bool_decide_true by done|rewrite bool_decide_false by done]; cbn [b2z].
    + split; [auto|]. exists (kbd k). do 3 (split; [done|]). split; [|by rewrite bind_some]. intros j Hj. rewrite Hm by done.
      f_equal. apply bool_decide_ext. cbn. set_solver.
    + split; [auto|]. destruct (set_bit_total KeyStatus key true (kbd k)) as (d1 & -> & Hl & Hq & _ & Hc & Hb); [by eexists; apply Hm; lia|lia|].
      exists d1. do 3 (split; [done|]). split; [|by rewrite bind_some]. intros j Hj. rewrite Hb by lia. case_decide; [|done]. cbn [pressed].
      destruct (Z.eqb_spec j key) as [->|]; [rewrite bool_decide_true by set_solver; done|]. rewrite Hm by done.
      f_equal. apply bool_decide_ext. set_solver.
  - split; [auto|]. destruct (set_bit_total KeyStatus key false (kbd k)) as (d1 & -> & Hl & Hq & _ & Hc & Hb); [by eexists; apply Hm; lia|lia|].
    exists d1. do 3 (split; [done|]). split; [|by rewrite bind_some]. intros j Hj. rewrite Hb by lia. case_decide; [|done]. cbn [pressed].
    destruct (Z.eqb_spec j key) as [->|]; [rewrite bool_decide_false by set_solver; done|]. rewrite Hm by done.
    f_equal. apply bool_decide_ext. set_solver.
Qed.

(** *** The reader of a keyboard's node *)

(** An interrupt, and the events a non-blocking read of everything then
    returns. *)
Definition node_step (enabled : bool) (a : Z) (sc : Z) (now : Z * Z) (k : Keyboard) (c : Console)
    : option (Keyboard * Console * list InputEvent) :=
  '(k1, c1) ← Keyboard_irq enabled sc now k c;
  match EventDevNode_read a O_NONBLOCK (EVENTS * sizeof_event) (kbd k1) with
  | Return (_, evs) d => Some (mkKeyboard d (extended k1), c1, evs)
  | _ => None
  end.
Fixpoint node_run (enabled : bool) (a : Z) (scs : list (Z * (Z * Z))) (k : Keyboard) (c : Console)
    : option (Keyboard * Console * list InputEvent) :=
  match scs with
  | [] => Some (k, c, [])
  | (sc, now) :: scs =>
      '(k1, c1, evs) ← node_step enabled a sc now k c;
      '(k2, c2, evs') ← node_run enabled a scs k1 c1;
      Some (k2, c2, evs ++ evs')
  end.

Definition strip (e : InputEvent) : Z * Z * Z := (type e, code e, value e).
Definition key_events (ev : option (Z * Z)) : list (Z * Z * Z) :=
  match ev with None => [] | Some (key, v) => [(EV_KEY, key, v); (EV_SYN, SYN_REPORT, 0)] end.
Fixpoint scan_all (scs : list Z) (s : KeyState) : KeyState * list (Z * Z * Z) :=
  match scs with
  | [] => (s, [])
  | sc :: scs => let (s1, ev) := scan sc s in let (s2, evs) := scan_all scs s1 in (s2, key_events ev ++ evs)
  end.

Definition keyboard_at (a : Z) (s : KeyState) (k : Keyboard) : Prop :=
  extended k = prefixed s /\ keys_match (kbd k) s /\ reader_ready a (kbd k).

Lemma node_read_ready a d l : quiet d -> contents EVENTS (queue d) = [] -> find_listener a d = Some l ->
  exists n d', EventDevNode_read a O_NONBLOCK (EVENTS * sizeof_event) d = Return (n, held l) d' /\ reader_ready a d' /\ bits d' = bits d.
Proof.
  intros Hqt Hq Hf. destruct (decide (held l = [])) as [E|E].
  - destruct Hqt as [Hwq Hls]. pose proof (listener_at_in _ _ _ Hf) as Hin. rewrite Forall_forall in Hls. pose proof (Hls _ Hin) as [Hwf Hcb].
    unfold EventDevNode_read. rewrite Hf. unfold InputListener_read. cbn [snd] in Hwf. rewrite (ring_empty_spec _ _ Hwf), bool_decide_true by done.
    change (negb (has O_NONBLOCK O_NONBLOCK)) with false. eexists _, _. split; [by rewrite E|]. split; [|done]. split; [|split; [done|]].
    + split; [done|]. cbn [listeners upd_listener with_listeners]. rewrite <- Forall_forall in Hls. apply Forall_map.
      eapply Forall_impl; [exact Hls|]. intros [b y] H. cbn [fst snd] in *. by destruct (b =? a).
    + exists l. split; [|done]. unfold find_listener, upd_listener. cbn [listeners with_listeners]. by erewrite (listener_at_upd a (fun _ => l)).
  - destruct (node_read_all a O_NONBLOCK (EVENTS * sizeof_event) d l Hqt Hf ltac:(lia) E) as (d' & H1 & H2 & H3 & H4 & H5).
    eexists _, d'. split; [exact H1|]. split; [|done]. split; [done|]. by rewrite H3.
Qed.

Lemma strip_new ty c v now : 0 <= ty < 65536 -> 0 <= c < 65536 -> 0 <= v < 4294967296 -> strip (new_event ty c v now) = (ty, c, v).
Proof. intros H1 H2 H3. unfold strip, new_event. cbn [type code value]. unfold uN. by rewrite !Z.mod_small by lia. Qed.

(** A report goes to a reader that has read everything, whole. *)
Lemma flush_then_read enabled a d c now l :
  quiet d -> find_listener a d = Some l -> held l = [] ->
  exists d1 n d2, flush_events enabled now d c = Some (d1, c) /\
    EventDevNode_read a O_NONBLOCK (EVENTS * sizeof_event) d1 = Return (n, report (contents EVENTS (queue d)) now) d2 /\
    reader_ready a d2 /\ bits d2 = bits d.
Proof.
  intros Hqt Hf Hl. destruct (flush_events_eq enabled now d c Hqt) as (q & Hwq & Hcq & E).
  destruct (flush_events_spec enabled now d c Hqt) as (d1 & E1 & Hqt1 & Hq1 & _ & _ & Hb1 & _).
  rewrite E1 in E. apply (inj Some) in E. apply (f_equal fst) in E. cbn [fst] in E.
  set (evs := report (contents EVENTS (queue d)) now) in *. destruct Hqt as [Hwf Hls].
  assert (Z.of_nat (length evs) <= EVENTS) as Hn by (apply report_length; rewrite (contents_length _ _ Hwf); apply (wf_count _ _ Hwf)).
  assert (exists l', find_listener a d1 = Some l' /\ held l' = evs) as (l' & Hf' & Hl').
  { rewrite E. unfold find_listener. cbn [listeners trigger_device with_listeners]. rewrite listener_at_map.
    unfold find_listener in Hf. rewrite Hf. eexists. split; [done|]. unfold held.
    destruct (deliver_events_spec evs now l) as (_ & _ & Hd); [|done|].
    - rewrite Forall_forall in Hls. apply (Hls _ (listener_at_in _ _ _ Hf)).
    - rewrite Hd. fold (held l). rewrite Hl. unfold received. cbn [length app]. by destruct (Z.leb_spec (Z.of_nat (0 + length evs)) EVENTS); [|lia]. }
  destruct (node_read_ready a d1 l' Hqt1 Hq1 Hf') as (n & d2 & H2 & Hr2 & Hb2). exists d1, n, d2.
  split; [done|]. rewrite H2, Hl'. split; [done|]. split; [done|]. by rewrite Hb2.
Qed.

Lemma node_step_spec enabled a sc now k s c : keyboard_at a s k ->
  exists k' evs, node_step enabled a sc now k c = Some (k', c, evs) /\ map strip evs = key_events (snd (scan sc s)) /\
    keyboard_at a (fst (scan sc s)) k'.
Proof.
  intros (Hext & Hm & Hqt & Hq & l & Hf & Hl). destruct (Keyboard_irq_eq enabled sc now k s c Hext Hm) as [H Hpre].
  unfold node_step. destruct (snd (scan sc s)) as [[key v]|].
  - destruct H as (Hk & Hv & d1 & Hld & Hqd & _ & Hm1 & ->).
    assert (quiet d1) as Hqt1 by (unfold quiet; by rewrite Hld, Hqd).
    destruct (push_event_queue EV_KEY key v now d1) as [Hwp Hcp]; [by apply Hqt1|rewrite Hqd, Hq; cbn; lia|].
    rewrite Hqd, Hq in Hcp. cbn [app] in Hcp. set (d2 := push_event EV_KEY key v now d1) in *.
    destruct (flush_then_read enabled a d2 c now l) as (d3 & n & d4 & E3 & H4 & Hr4 & Hb4);
      [split; [done|apply Hqt1]|unfold find_listener; cbn [listeners d2 push_event with_queue]; by rewrite Hld|done|].
    rewrite E3, bind_some. cbn [kbd]. rewrite bind_some. cbn [kbd]. rewrite H4, Hcp. eexists _, _. split; [done|]. split.
    + change (report [new_event EV_KEY key v now] now) with [new_event EV_KEY key v now; new_event EV_SYN SYN_REPORT 0 now].
      cbn [map key_events]. rewrite !strip_new by (unfold EV_KEY, EV_SYN, SYN_REPORT; lia). done.
    + split; [by rewrite Hpre|]. split; [|done]. cbn [kbd]. intros j Hj. unfold get_bit. rewrite Hb4. by apply Hm1.
  - destruct H as [-> Hpr]. rewrite bind_some. cbn [kbd extended].
    destruct (node_read_ready a (kbd k) l Hqt Hq Hf) as (n & d4 & H4 & Hr4 & Hb4). rewrite H4. eexists _, _. split; [done|].
    rewrite Hl. split; [done|]. split; [by rewrite Hpre|]. split; [|done]. cbn [kbd]. intros j Hj. unfold get_bit. rewrite Hb4, Hpr. by apply Hm.
Qed.

(** A program that reads a keyboard's node after every interrupt gets, for any
    sequence of scan codes, the press, repeat and release events of the keys
    these mean, each with its report and none lost, and the status bits are the
    set of keys that are down. *)
Theorem keyboard_node_events enabled a scs k s c :
  keyboard_at a s k ->
  exists k' evs, node_run enabled a scs k c = Some (k', c, evs) /\
    map strip evs = snd (scan_all (map fst scs) s) /\ keyboard_at a (fst (scan_all (map fst scs) s)) k'.
Proof.
  revert k s. induction scs as [|[sc now] scs IH]; intros k s H; [by exists k, []|]. cbn [map fst scan_all node_run].
  destruct (node_step_spec enabled a sc now k s c H) as (k1 & evs & -> & He & H1). rewrite bind_some.
  destruct (IH k1 _ H1) as (k2 & evs2 & -> & He2 & H2). rewrite bind_some. exists k2, (evs ++ evs2). split; [done|].
  destruct (scan sc s) as [s1 ev]. cbn [fst snd] in *. destruct (scan_all (map fst scs) s1) as [s2 evs'] eqn:Es. cbn [fst snd] in *.
  by rewrite map_app, He, He2.
Qed.

Definition demo_storage : list InputEvent := replicate 128 no_event.
Definition demo_keyboard (ls : list (Z * InputListener)) : option Keyboard :=
  k ← Keyboard_new demo_storage; Some (mkKeyboard (with_listeners ls (kbd k)) (extended k)).

Lemma fresh_events : ring_wf EVENTS (RingBuffer_init demo_storage) /\ contents EVENTS (RingBuffer_init demo_storage) = [].
Proof. apply ring_init_wf; [unfold EVENTS; lia|reflexivity]. Qed.

Lemma keys_match_start d s : pressed s = ∅ -> bits d KeyStatus = replicate 12 0 -> keys_match d s.
Proof.
  intros Hs Hb key Hk. rewrite Hs, bool_decide_false by set_solver. unfold get_bit, KList.Bitmap.get. rewrite Hb.
  change KList.Bitmap.bits_per_usize with 64. rewrite lookup_replicate_2.
  - cbn [mbind option_bind]. by rewrite Z.bits_0.
  - assert (key / 64 < 12) by (apply Z.div_lt_upper_bound; lia). assert (0 <= key / 64) by (apply Z.div_pos; lia). lia.
Qed.

Definition demo_node_keyboard : Keyboard :=
  match demo_keyboard [(5, mkListener NoCallback (RingBuffer_init demo_storage))] with
  | Some k => k | None => mkKeyboard (InputDevice_new []) false end.

Lemma demo_keyboard_at : keyboard_at 5 (mkKeys false ∅) demo_node_keyboard.
Proof.
  assert (queue (kbd demo_node_keyboard) = RingBuffer_init demo_storage) as Eq by (vm_compute; reflexivity).
  assert (listeners (kbd demo_node_keyboard) = [(5, mkListener NoCallback (RingBuffer_init demo_storage))]) as El by (vm_compute; reflexivity).
  destruct fresh_events as [Hw Hc]. split; [vm_compute; reflexivity|]. split; [apply keys_match_start; vm_compute; reflexivity|].
  split; [|split].
  - split; [by rewrite Eq|]. rewrite El. constructor; [split; [exact Hw|reflexivity]|constructor].
  - by rewrite Eq.
  - unfold find_listener. rewrite El. eexists. split; [reflexivity|exact Hc].
Qed.

Definition demo_console : Console :=
  mkConsole (mkTty demo_jobs (<[7 := demo_raw_terminal]> ∅) ∅) 7 (RingBuffer_init (replicate 512 0))
    (mkVT 0 0 0 0 0 0 [] (mkPen 0 0 false) 0 0 0 0 false (mkCsi 0 [] 0 0 false) false []).

(** A is pressed, held and released; then the right arrow. *)
Definition demo_scans : list (Z * (Z * Z)) := map (fun sc => (sc, (0, 0))) [30; 30; 158; 224; 77; 224; 205].

Lemma keyboard_node_events_witness :
  exists k' evs, node_run true 5 demo_scans demo_node_keyboard demo_console = Some (k', demo_console, evs) /\
    map strip evs = [(1, 30, 1); (0, 0, 0); (1, 30, 2); (0, 0, 0); (1, 30, 0); (0, 0, 0); (1, 106, 1); (0, 0, 0); (1, 106, 0); (0, 0, 0)].
Proof.
  destruct (keyboard_node_events true 5 demo_scans demo_node_keyboard (mkKeys false ∅) demo_console demo_keyboard_at)
    as (k' & evs & H1 & H2 & _).
  exists k', evs. split; [exact H1|exact H2].
Defined.

(** *** The console at the keyboard *)

Definition key_down (k1 k2 : Z) (s : KeyState) : bool := bool_decide (k1 ∈ pressed s) || bool_decide (k2 ∈ pressed s).
Definition shift_down (s : KeyState) : bool := key_down KEY_LEFTSHIFT KEY_RIGHTSHIFT s.
Definition ctrl_down (s : KeyState) : bool := key_down KEY_LEFTCTRL KEY_RIGHTCTRL s.

Lemma either_key_match k1 k2 d s : keys_match d s -> 0 <= k1 < 768 -> 0 <= k2 < 768 -> either_key k1 k2 d = Some (key_down k1 k2 s).
Proof. intros Hm H1 H2. unfold either_key. by rewrite (Hm k1 H1), bind_some, (Hm k2 H2). Qed.

(** What the console does with an event while the keys of [s] are down. *)
Definition console_event (enabled : bool) (s : KeyState) (e : InputEvent) (c : Console) : option Console :=
  process_input_event enabled (type e) (code e) (value e) (shift_down s) (shift_down s) (ctrl_down s) c.

Lemma console_events_spec enabled d s : keys_match d s -> caps_lock d = false -> forall fuel rb c,
  ring_wf EVENTS rb -> (length (contents EVENTS rb) < fuel)%nat ->
  match each (console_event enabled s) (contents EVENTS rb) c with
  | None => console_events fuel enabled d rb c = None
  | Some c1 => exists rb1, console_events fuel enabled d rb c = Some (rb1, c1) /\ ring_wf EVENTS rb1 /\ contents EVENTS rb1 = []
  end.
Proof.
  intros Hm Hcaps. induction fuel as [|fuel IH]; intros rb c Hwf Hf; [lia|]. cbn [console_events].
  pose proof (RingBuffer_read_spec EVENTS rb 1 Hwf ltac:(lia)) as H. pose proof (contents_length _ _ Hwf) as Hl.
  destruct (RingBuffer_read EVENTS rb 1) as [[n evs] rb1]. destruct H as (-> & -> & Hwf1 & Hc1).
  destruct (contents EVENTS rb) as [|e es] eqn:Ec.
  - cbn [length each] in *. rewrite <- Hl. change (Z.min 1 (Z.of_nat 0) =? 0) with true. cbn [each]. exists rb1. by rewrite Hc1.
  - change (Z.to_nat 1) with 1%nat in *. cbn [length take drop head each] in *. rewrite <- Hl. destruct (Z.eqb_spec (Z.min 1 (Z.of_nat (S (length es)))) 0); [lia|].
    rewrite bind_some. cbv beta. unfold is_caps, is_shift, is_ctrl. rewrite !(either_key_match _ _ d s Hm) by (unfold KEY_LEFTSHIFT, KEY_RIGHTSHIFT, KEY_LEFTCTRL, KEY_RIGHTCTRL; lia).
    rewrite !bind_some. cbv beta. rewrite Hcaps. cbn [xorb]. fold (shift_down s) (ctrl_down s). fold (console_event enabled s e c). rewrite ?drop_0 in Hc1.
    destruct (console_event enabled s e c) as [c1|]; [|done]. rewrite !bind_some. rewrite <- Hc1. apply IH; [done|]. rewrite Hc1. lia.
Qed.

(** A keyboard whose only listener is the console's, which has read everything. *)
Definition console_keyboard (s : KeyState) (k : Keyboard) : Prop :=
  extended k = prefixed s /\ keys_match (kbd k) s /\ caps_lock (kbd k) = false /\ ring_wf EVENTS (queue (kbd k)) /\
  contents EVENTS (queue (kbd k)) = [] /\
  exists a l, listeners (kbd k) = [(a, l)] /\ callback l = ConsoleCallback /\ ring_wf EVENTS (event_buffer l) /\ held l = [].

(** The keys a sequence of scan codes means, given to the console one by one. *)
Fixpoint type_keys (enabled : bool) (scs : list Z) (s : KeyState) (c : Console) : option (KeyState * Console) :=
  match scs with
  | [] => Some (s, c)
  | sc :: scs =>
      let (s1, ev) := scan sc s in
      c1 ← (match ev with
            | None => Some c
            | Some (key, v) => process_input_event enabled EV_KEY key v (shift_down s1) (shift_down s1) (ctrl_down s1) c
            end);
      type_keys enabled scs s1 c1
  end.
Definition keyboard_run (enabled : bool) (scs : list (Z * (Z * Z))) (kc : Keyboard * Console) : option (Keyboard * Console) :=
  each (fun x kc => Keyboard_irq enabled (fst x) (snd x) (fst kc) (snd kc)) scs kc.

Lemma console_flush enabled d s e now c a l :
  keys_match d s -> caps_lock d = false -> ring_wf EVENTS (queue d) -> contents EVENTS (queue d) = [e] ->
  listeners d = [(a, l)] -> callback l = ConsoleCallback -> ring_wf EVENTS (event_buffer l) -> held l = [] ->
  match console_event enabled s e c with
  | None => flush_events enabled now d c = None
  | Some c1 => exists d1 l1, flush_events enabled now d c = Some (d1, c1) /\ bits d1 = bits d /\ caps_lock d1 = false /\
      ring_wf EVENTS (queue d1) /\ contents EVENTS (queue d1) = [] /\ listeners d1 = [(a, l1)] /\ callback l1 = ConsoleCallback /\
      ring_wf EVENTS (event_buffer l1) /\ held l1 = []
  end.
Proof.
  intros Hm Hcaps Hwf Hq Hls Hcb Hwl Hh. destruct (flushed_queue d now Hwf) as (Hwf1 & Hc1 & Hd1). unfold flush_events. cbv zeta.
  rewrite Hd1. set (d1 := if is_empty (queue d) then d else _) in *. cbn [queue with_queue].
  destruct (read_all (queue d1) EVENTS Hwf1 ltac:(lia)) as (q & -> & Hwfq & Hcq). rewrite Hc1.
  pose proof (contents_length _ _ Hwf1) as Hn. rewrite Hc1 in Hn. rewrite Hq in Hn, Hc1 |- *.
  set (evs := report [e] now) in *. rewrite <- Hn. cbn [listeners with_queue]. rewrite Hls. cbn [flush_listeners].
  destruct (deliver_events_spec evs now l Hwl) as (Hwd & Hcd & Hd); [vm_compute; discriminate|]. fold (held l) in Hd. rewrite Hh in Hd.
  unfold run_callback. rewrite Hcd, Hcb. set (ld := deliver_events evs (Z.of_nat (length evs)) now l) in *.
  pose proof (console_events_spec enabled (with_queue q (with_queue (queue d1) d)) s Hm Hcaps callback_fuel (event_buffer ld) c Hwd) as HC.
  assert (contents EVENTS (event_buffer ld) = [e; new_event EV_SYN SYN_REPORT 0 now]) as Hld by (rewrite Hd; reflexivity).
  rewrite Hld in HC. specialize (HC ltac:(cbn [length]; unfold callback_fuel; lia)).
  change (each (console_event enabled s) [e; new_event EV_SYN SYN_REPORT 0 now] c) with
    (c1 ← console_event enabled s e c; c2 ← console_event enabled s (new_event EV_SYN SYN_REPORT 0 now) c1; Some c2) in HC.
  assert (forall c1, console_event enabled s (new_event EV_SYN SYN_REPORT 0 now) c1 = Some c1) as Hsyn.
  { intros c1. unfold console_event, process_input_event. by destruct enabled. }
  destruct (console_event enabled s e c) as [c1|]; [|rewrite HC; done]. rewrite bind_some, Hsyn, bind_some in HC.
  destruct HC as (rb & -> & Hwr & Hcr). repeat (rewrite bind_some; cbv beta iota zeta). eexists _, (with_events rb ld).
  split; [reflexivity|]. split; [done|]. split; [done|]. split; [done|]. split; [done|]. split; [done|].
  split; [cbn [callback with_events]; by rewrite Hcd|]. by split.
Qed.

Lemma Keyboard_irq_console enabled sc now k s c : console_keyboard s k ->
  match type_keys enabled [sc] s c with
  | None => Keyboard_irq enabled sc now k c = None
  | Some (s', c') => exists k', Keyboard_irq enabled sc now k c = Some (k', c') /\ console_keyboard s' k'
  end.
Proof.
  intros (Hext & Hm & Hcaps & Hwf & Hq & a & l & Hl & Hcb & Hwl & Hh).
  destruct (Keyboard_irq_eq enabled sc now k s c Hext Hm) as [H Hpre]. cbn [type_keys].
  destruct (scan sc s) as [s1 [[key v]|]]; cbn [fst snd] in *.
  - destruct H as (Hk & Hv & d1 & Hld & Hqd & Hcd & Hm1 & ->).
    destruct (push_event_queue EV_KEY key v now d1) as [Hwp Hcp]; [by rewrite Hqd|rewrite Hqd, Hq; cbn; lia|].
    rewrite Hqd, Hq in Hcp. cbn [app] in Hcp.
    pose proof (console_flush enabled (push_event EV_KEY key v now d1) s1 (new_event EV_KEY key v now) now c a l Hm1
      ltac:(cbn; by rewrite Hcd) Hwp Hcp ltac:(cbn; by rewrite Hld) Hcb Hwl Hh) as HF.
    assert (console_event enabled s1 (new_event EV_KEY key v now) c
      = process_input_event enabled EV_KEY key v (shift_down s1) (shift_down s1) (ctrl_down s1) c) as Hce.
    { unfold console_event, new_event. cbn [type code value]. unfold uN. by rewrite !Z.mod_small by (unfold EV_KEY; lia). }
    rewrite Hce in HF. destruct (process_input_event _ _ _ _ _ _ _ c) as [c1|]; [|by rewrite HF].
    rewrite bind_some. destruct HF as (d2 & l2 & -> & Hb2 & Hc2 & Hw2 & Hq2 & Hl2 & Hcb2 & Hwl2 & Hh2).
    rewrite bind_some. eexists. split; [done|]. split; [done|]. split; [|split; [done|split; [done|split; [done|by eexists _, _]]]].
    cbn [kbd]. intros j Hj. unfold get_bit. rewrite Hb2. by apply Hm1.
  - destruct H as [-> Hpr]. rewrite bind_some. eexists. split; [done|]. split; [done|].
    split; [|split; [done|split; [done|split; [done|by eexists _, _]]]]. cbn [kbd]. intros j Hj. rewrite Hpr. by apply Hm.
Qed.


Definition demo_console_keyboard : Keyboard :=
  match demo_keyboard [(5, mkListener ConsoleCallback (RingBuffer_init demo_storage))] with
  | Some k => k | None => mkKeyboard (InputDevice_new []) false end.

Lemma demo_console_keyboard_ok : console_keyboard (mkKeys false ∅) demo_console_keyboard.
Proof.
  assert (queue (kbd demo_console_keyboard) = RingBuffer_init demo_storage) as Eq by (vm_compute; reflexivity).
  destruct fresh_events as [Hw Hc]. split; [vm_compute; reflexivity|]. split; [apply keys_match_start; vm_compute; reflexivity|].
  split; [vm_compute; reflexivity|]. rewrite Eq. split; [done|]. split; [done|].
  exists 5, (mkListener ConsoleCallback (RingBuffer_init demo_storage)). split; [vm_compute; reflexivity|]. split; [reflexivity|]. split; [exact Hw|exact Hc].
Qed.

(** Shift is pressed, A, shift is released, A; the console has the two
    characters. *)
Definition demo_typing : list (Z * (Z * Z)) := map (fun sc => (sc, (0, 0))) [42; 30; 158; 170; 30; 158].


(** ** Packets of the mouse *)

Lemma process_button_spec i st old now d : get_bit KeyStatus i d = Some old -> 0 <= i -> ring_wf EVENTS (queue d) ->
  (length (contents EVENTS (queue d)) < 128)%nat ->
  exists d', process_button i st now d = Some d' /\ ring_wf EVENTS (queue d') /\ listeners d' = listeners d /\
    contents EVENTS (queue d') = contents EVENTS (queue d) ++ (if eqb st old then [] else [new_event EV_KEY i (b2z st) now]) /\
    forall j, 0 <= j -> get_bit KeyStatus j d' = if j =? i then Some st else get_bit KeyStatus j d.
Proof.
  intros Hb Hi Hwf Hn. unfold process_button. rewrite Hb, bind_some. destruct (eqb st old) eqn:E.
  - apply eqb_prop in E as ->. exists d. split; [done|]. split; [done|]. split; [done|]. rewrite app_nil_r. split; [done|].
    intros j _. by destruct (Z.eqb_spec j i) as [->|].
  - destruct (set_bit_total KeyStatus i st d) as (d1 & -> & Hl & Hq & _ & _ & Hbits); [by eexists|done|]. rewrite bind_some.
    destruct (push_event_queue EV_KEY i (b2z st) now d1) as [H1 H2]; [by rewrite Hq|by rewrite Hq|]. rewrite Hq in H2.
    eexists. split; [done|]. split; [done|]. split; [done|]. split; [done|]. intros j Hj. rewrite pushed_bits, Hbits by done. by case_decide.
Qed.

Lemma push_motion_spec c v now d : ring_wf EVENTS (queue d) -> (length (contents EVENTS (queue d)) < 128)%nat ->
  let d' := push_motion c v now d in
  ring_wf EVENTS (queue d') /\ listeners d' = listeners d /\ bits d' = bits d /\
  contents EVENTS (queue d') = contents EVENTS (queue d) ++ (if v =? 0 then [] else [new_event EV_REL c v now]).
Proof.
  intros Hwf Hn. unfold push_motion. cbv zeta. destruct (v =? 0); [by rewrite app_nil_r|].
  destruct (push_event_queue EV_REL c v now d Hwf Hn) as [H1 H2]. by split.
Qed.

(** The buttons and the motion a packet of three bytes stands for. *)
Record Motion : Type := mkMotion { b_left : bool; b_right : bool; b_middle : bool; dx : Z; dy : Z }.
Definition motion_ok (m : Motion) : Prop := -256 <= dx m < 256 /\ -256 <= dy m < 256.
Definition encode (m : Motion) : list Z :=
  [8 + b2z (b_left m) + 2 * b2z (b_right m) + 4 * b2z (b_middle m) + 16 * b2z (dx m <? 0) + 32 * b2z (dy m <? 0);
   dx m mod 256; dy m mod 256].

Definition buttons_match (d : InputDevice) (m : Motion) : Prop :=
  get_bit KeyStatus BTN_LEFT d = Some (b_left m) /\ get_bit KeyStatus BTN_RIGHT d = Some (b_right m) /\
  get_bit KeyStatus BTN_MIDDLE d = Some (b_middle m).

(** The events of a packet [m] after one with the buttons of [m0]; the axis down
    the screen is turned around. *)
Definition motion_events (m0 m : Motion) : list (Z * Z * Z) :=
  let button i (st old : bool) := if eqb st old then [] else [(EV_KEY, i, b2z st)] in
  let axis c v := if v =? 0 then [] else [(EV_REL, c, u32 v)] in
  button BTN_LEFT (b_left m) (b_left m0) ++ button BTN_RIGHT (b_right m) (b_right m0) ++ button BTN_MIDDLE (b_middle m) (b_middle m0) ++
  axis REL_X (dx m) ++ axis REL_Y (- dy m).

Lemma motion_decode v : -256 <= v < 256 -> motion (v mod 256) (16 * b2z (v <? 0)) = v /\ motion (v mod 256) (32 * b2z (v <? 0)) = v.
Proof.
  intros Hv. unfold motion. destruct (Z.ltb_spec v 0); cbn [b2z];
    [change (16 * 1 =? 0) with false; change (32 * 1 =? 0) with false|change (16 * 0 =? 0) with true; change (32 * 0 =? 0) with true]; cbv iota.
  - assert (v mod 256 = v + 256) as -> by (rewrite <- (Z_mod_plus_full v 1 256); apply Z.mod_small; lia). lia.
  - rewrite Z.mod_small by lia. lia.
Qed.

Lemma encode_flags m : let b := nth 0 (encode m) 0 in
  Z.land b 8 = 8 /\ Z.land b 1 = b2z (b_left m) /\ Z.land b 2 = 2 * b2z (b_right m) /\ Z.land b 4 = 4 * b2z (b_middle m) /\
  Z.land b 16 = 16 * b2z (dx m <? 0) /\ Z.land b 32 = 32 * b2z (dy m <? 0).
Proof. unfold encode. cbn [nth]. by destruct (b_left m), (b_right m), (b_middle m), (dx m <? 0), (dy m <? 0). Qed.

Lemma mouse_packet_spec m0 m x now d : motion_ok m -> buttons_match d m0 -> ring_wf EVENTS (queue d) -> contents EVENTS (queue d) = [] ->
  exists d' evs, mouse_packet false false (encode m ++ [x]) now d = Some d' /\ ring_wf EVENTS (queue d') /\
    listeners d' = listeners d /\ contents EVENTS (queue d') = evs /\ map strip evs = motion_events m0 m /\ buttons_match d' m /\
    (length evs <= 5)%nat.
Proof.
  intros [Hx Hy] (Hb1 & Hb2 & Hb3) Hwf Hq. destruct (encode_flags m) as (_ & F1 & F2 & F3 & F4 & F5). unfold mouse_packet.
  change (nth 0 (encode m ++ [x]) 0) with (nth 0 (encode m) 0). rewrite F1, F2, F3, F4, F5.
  change (nth 1 (encode m ++ [x]) 0) with (dx m mod 256). change (nth 2 (encode m ++ [x]) 0) with (dy m mod 256).
  destruct (motion_decode (dx m) Hx) as [-> _]. destruct (motion_decode (dy m) Hy) as [_ ->].
  assert (negb (b2z (b_left m) =? 0) = b_left m /\ negb (2 * b2z (b_right m) =? 0) = b_right m /\ negb (4 * b2z (b_middle m) =? 0) = b_middle m)
    as (-> & -> & ->) by (by destruct (b_left m), (b_right m), (b_middle m)).
  destruct (process_button_spec BTN_LEFT (b_left m) _ now d Hb1) as (d1 & -> & W1 & L1 & C1 & B1); [done|done|rewrite Hq; cbn; lia|].
  rewrite bind_some. cbv beta. rewrite Hq in C1.
  destruct (process_button_spec BTN_RIGHT (b_right m) (b_right m0) now d1) as (d2 & -> & W2 & L2 & C2 & B2);
    [by rewrite B1|done|done|rewrite C1; destruct (eqb _ _); cbn; lia|]. rewrite bind_some. cbv beta. rewrite C1 in C2.
  destruct (process_button_spec BTN_MIDDLE (b_middle m) (b_middle m0) now d2) as (d3 & -> & W3 & L3 & C3 & B3);
    [by rewrite B2, B1|done|done|rewrite C2; do 2 destruct (eqb _ _); cbn; lia|]. rewrite !bind_some. cbv beta. rewrite C2 in C3.
  destruct (push_motion_spec REL_X (dx m) now d3 W3) as (W4 & L4 & B4 & C4); [rewrite C3; do 3 destruct (eqb _ _); cbn; lia|].
  set (d4 := push_motion REL_X (dx m) now d3) in *. rewrite C3 in C4.
  destruct (push_motion_spec REL_Y (- dy m) now d4 W4) as (W5 & L5 & B5 & C5);
    [rewrite C4; do 3 destruct (eqb _ _); destruct (_ =? 0); cbn; lia|].
  rewrite C4 in C5. eexists _, _. split; [done|]. split; [done|]. split; [congruence|]. split; [exact C5|]. split; [|split].
  - unfold motion_events. rewrite !map_app. cbn [app]. rewrite <- !app_assoc.
    assert (forall i st old, 0 <= i < 65536 -> map strip (if eqb st old then [] else [new_event EV_KEY i (b2z st) now]) =
      if eqb st old then [] else [(EV_KEY, i, b2z st)]) as HB.
    { intros i st old Hi. destruct (eqb st old); [done|]. cbn [map]. by rewrite strip_new by (unfold EV_KEY; destruct st; cbn; lia). }
    assert (forall c v, 0 <= c < 65536 -> map strip (if v =? 0 then [] else [new_event EV_REL c v now]) = if v =? 0 then [] else [(EV_REL, c, u32 v)]) as HA.
    { intros c v Hc. destruct (v =? 0); [done|]. cbn [map]. unfold strip, new_event. cbn [type code value].
      by rewrite (uN_small 16 EV_REL), (uN_small 16 c) by (unfold EV_REL; lia). }
    rewrite !HB, !HA by (unfold BTN_LEFT, BTN_RIGHT, BTN_MIDDLE, REL_X, REL_Y; lia). done.
  - unfold buttons_match, get_bit. rewrite B5, B4. fold (get_bit KeyStatus BTN_LEFT d3) (get_bit KeyStatus BTN_RIGHT d3) (get_bit KeyStatus BTN_MIDDLE d3).
    by rewrite !B3, !B2, !B1.
  - do 3 destruct (eqb _ _); do 2 destruct (_ =? 0); cbn; lia.
Qed.

(** The interrupts of a packet's bytes, and the read of a node after them. *)
Definition mouse_step (enabled : bool) (a : Z) (bytes : list Z) (now : Z * Z) (m : Mouse) (c : Console)
    : option (Mouse * Console * list InputEvent) :=
  '(m1, c1) ← each (fun b mc => Mouse_irq enabled b now (fst mc) (snd mc)) bytes (m, c);
  match EventDevNode_read a O_NONBLOCK (EVENTS * sizeof_event) (mouse m1) with
  | Return (_, evs) d => Some (mkMouse d (has_wheel m1) (has_five_buttons m1) (packet m1) (packet_count m1), c1, evs)
  | _ => None
  end.
Fixpoint mouse_run (enabled : bool) (a : Z) (packets : list (list Z * (Z * Z))) (m : Mouse) (c : Console)
    : option (Mouse * Console * list InputEvent) :=
  match packets with
  | [] => Some (m, c, [])
  | (bytes, now) :: ps =>
      '(m1, c1, evs) ← mouse_step enabled a bytes now m c;
      '(m2, c2, evs') ← mouse_run enabled a ps m1 c1;
      Some (m2, c2, evs ++ evs')
  end.

(** The reports of a sequence of motions. *)
Definition report_of (m0 m : Motion) : list (Z * Z * Z) :=
  let evs := motion_events m0 m in if bool_decide (evs = []) then [] else evs ++ [(EV_SYN, SYN_REPORT, 0)].
Fixpoint reports (m0 : Motion) (ms : list Motion) : list (Z * Z * Z) :=
  match ms with [] => [] | m :: ms => report_of m0 m ++ reports m ms end.

(** A mouse of three-byte packets between two of them. *)
Definition mouse_at (a : Z) (m0 : Motion) (m : Mouse) : Prop :=
  has_wheel m = false /\ has_five_buttons m = false /\ length (packet m) = 4%nat /\ packet_count m = 0 /\
  buttons_match (mouse m) m0 /\ reader_ready a (mouse m).

Lemma packet_byte enabled b now d p n c : 0 <= n < 2 -> Z.land (nth 0 (<[Z.to_nat n := b]> p) 0) 8 = 8 ->
  Mouse_irq enabled b now (mkMouse d false false p n) c = Some (mkMouse d false false (<[Z.to_nat n := b]> p) (n + 1), c).
Proof.
  intros Hn Hb. unfold Mouse_irq. cbn [packet_count packet has_wheel has_five_buttons mouse]. rewrite Hb.
  destruct (Z.leb_spec 0 n); [|lia]. destruct (Z.ltb_spec n 4); [|lia]. destruct (Z.eqb_spec (n + 1) 3); [lia|]. done.
Qed.

Lemma packet_last_byte enabled b now d p c : Z.land (nth 0 (<[2%nat := b]> p) 0) 8 = 8 ->
  Mouse_irq enabled b now (mkMouse d false false p 2) c
  = (d1 ← mouse_packet false false (<[2%nat := b]> p) now d;
     '(d2, c1) ← flush_events enabled now d1 c;
     Some (mkMouse d2 false false (<[2%nat := b]> p) 0, c1)).
Proof.
  intros Hb. unfold Mouse_irq. cbn [packet_count packet has_wheel has_five_buttons mouse].
  change (Z.to_nat 2) with 2%nat. rewrite Hb. done.
Qed.

Lemma packet_bytes enabled m now mo c : has_wheel mo = false -> has_five_buttons mo = false -> length (packet mo) = 4%nat -> packet_count mo = 0 ->
  exists x, each (fun b mc => Mouse_irq enabled b now (fst mc) (snd mc)) (encode m) (mo, c)
    = (d1 ← mouse_packet false false (encode m ++ [x]) now (mouse mo);
       '(d2, c1) ← flush_events enabled now d1 c;
       Some (mkMouse d2 false false (encode m ++ [x]) 0, c1)).
Proof.
  intros Hw H5 Hl Hn. destruct mo as [d w f p n]. cbn [has_wheel has_five_buttons packet packet_count mouse] in *. subst w f n.
  destruct p as [|p0 [|p1 [|p2 [|x [|]]]]]; try done. exists x. destruct (encode_flags m) as (F & _).
  unfold encode in *. cbn [nth] in F. set (b0 := 8 + _ + _ + _ + _ + _) in *. cbn [each app fst snd].
  rewrite (packet_byte enabled b0 now d [p0; p1; p2; x] 0 c) by (done || lia). rewrite bind_some. cbn [fst snd].
  rewrite (packet_byte enabled _ now d _ (0 + 1) c) by (done || lia). rewrite bind_some. cbn [fst snd].
  change (0 + 1 + 1) with 2. rewrite packet_last_byte by done.
  change (<[2%nat := _]> (<[Z.to_nat (0 + 1) := _]> (<[Z.to_nat 0 := b0]> [p0; p1; p2; x]))) with [b0; dx m mod 256; dy m mod 256; x].
  destruct (mouse_packet _ _ _ _ _) as [d1|]; [|done]. rewrite !bind_some. by destruct (flush_events enabled now d1 c) as [[d2 c2]|].
Qed.

Lemma mouse_step_spec enabled a m0 m now mo c : motion_ok m -> mouse_at a m0 mo ->
  exists mo' evs, mouse_step enabled a (encode m) now mo c = Some (mo', c, evs) /\ map strip evs = report_of m0 m /\ mouse_at a m mo'.
Proof.
  intros Hok (Hw & H5 & Hlen & Hn & Hb & Hqt & Hq & l & Hf & Hl).
  destruct (packet_bytes enabled m now mo c Hw H5 Hlen Hn) as (x & E). unfold mouse_step. rewrite E. clear E.
  destruct (mouse_packet_spec m0 m x now (mouse mo) Hok Hb ltac:(apply Hqt) Hq) as (d1 & evs & -> & Hw1 & Hl1 & Hc1 & Hs & Hb1 & Hn1).
  rewrite bind_some. destruct (flush_then_read enabled a d1 c now l) as (d2 & n & d3 & -> & H3 & Hr3 & Hb3);
    [split; [done|rewrite Hl1; apply Hqt]|unfold find_listener; by rewrite Hl1|done|].
  rewrite !bind_some. cbn [mouse has_wheel has_five_buttons packet packet_count]. rewrite H3, Hc1. eexists _, _. split; [done|]. split.
  - unfold report, report_of. rewrite <- Hs. destruct evs as [|e evs]; [by rewrite !bool_decide_true|].
    rewrite !bool_decide_false by done. replace (length (e :: evs) - 127)%nat with 0%nat by lia. cbn [drop]. rewrite map_app. f_equal.
  - do 2 (split; [done|]). split; [done|]. split; [done|]. split; [|done]. cbn [mouse]. unfold buttons_match, get_bit. by rewrite Hb3.
Qed.

(** C32: Whatever a three-button mouse reports, its packets decoded by the interrupts
    are read from its node as they were meant: every button that changed, the
    motion of nine bits along each axis, and one report for each packet that
    says something. *)
Theorem mouse_packets_decode enabled a ms m0 mo c :
  Forall (fun x => motion_ok (fst x)) ms -> mouse_at a m0 mo ->
  exists mo' evs, mouse_run enabled a (map (fun x => (encode (fst x), snd x)) ms) mo c = Some (mo', c, evs) /\
    map strip evs = reports m0 (map fst ms).
Proof.
  intros Hms. revert m0 mo. induction Hms as [|[m now] ms Hm _ IH]; intros m0 mo Hmo; [by exists mo, []|].
  cbn [map fst snd mouse_run reports] in *.
  destruct (mouse_step_spec enabled a m0 m now mo c Hm Hmo) as (mo1 & evs & -> & He & H1). rewrite bind_some.
  destruct (IH m mo1 H1) as (mo2 & evs2 & E2 & He2). rewrite E2, bind_some.
  exists mo2, (evs ++ evs2). split; [done|]. by rewrite map_app, He, He2.
Qed.

Definition demo_mouse : Mouse :=
  match Mouse_new demo_storage 0 0 0 with
  | Some m => mkMouse (with_listeners [(5, mkListener NoCallback (RingBuffer_init demo_storage))] (mouse m)) (has_wheel m) (has_five_buttons m) (packet m) (packet_count m)
  | None => mkMouse (InputDevice_new []) false false [] 0 end.

Lemma demo_mouse_at : mouse_at 5 (mkMotion false false false 0 0) demo_mouse.
Proof.
  assert (queue (mouse demo_mouse) = RingBuffer_init demo_storage) as Eq by (vm_compute; reflexivity).
  assert (listeners (mouse demo_mouse) = [(5, mkListener NoCallback (RingBuffer_init demo_storage))]) as El by (vm_compute; reflexivity).
  destruct fresh_events as [Hw Hc]. do 4 (split; [vm_compute; reflexivity|]).
  split; [split; [|split]; vm_compute; reflexivity|]. split; [|split].
  - split; [by rewrite Eq|]. rewrite El. constructor; [split; [exact Hw|reflexivity]|constructor].
  - by rewrite Eq.
  - unfold find_listener. rewrite El. eexists. split; [reflexivity|exact Hc].
Qed.

Lemma mouse_packets_decode_witness :
  exists mo' evs, mouse_run true 5 (map (fun x => (encode (fst x), snd x))
      [(mkMotion true false false (-3) 0, (1, 0)); (mkMotion true false true 0 255, (2, 0))]) demo_mouse demo_console = Some (mo', demo_console, evs) /\
    map strip evs = [(1, 272, 1); (2, 0, 4294967293); (0, 0, 0); (1, 274, 1); (2, 1, 4294967041); (0, 0, 0)].
Proof.
  destruct (mouse_packets_decode true 5 [(mkMotion true false false (-3) 0, (1, 0)); (mkMotion true false true 0 255, (2, 0))]
    (mkMotion false false false 0 0) demo_mouse demo_console) as (mo' & evs & H1 & H2).
  - repeat constructor; cbn; lia.
  - exact demo_mouse_at.
  - exists mo', evs. split; [exact H1|exact H2].
Defined.

(** *** Out of step

    A byte without the third bit is dropped as long as it is the first of a
    packet; the bytes after it are checked by the first, not by themselves. *)
Theorem mouse_count_in_packet enabled b now m c m' c' :
  0 <= packet_count m < (if has_wheel m then 4 else 3) -> Mouse_irq enabled b now m c = Some (m', c') ->
  0 <= packet_count m' < (if has_wheel m' then 4 else 3) /\ has_wheel m' = has_wheel m /\ length (packet m') = length (packet m).
Proof.
  intros Hn. unfold Mouse_irq. assert (negb ((0 <=? packet_count m) && (packet_count m <? 4)) = false) as ->.
  { destruct (Z.leb_spec 0 (packet_count m)), (Z.ltb_spec (packet_count m) 4), (has_wheel m); try done; lia. }
  cbv zeta. destruct (Z.land _ 8 =? 0).
  { intros [= <- <-]. cbn [packet_count has_wheel packet]. rewrite length_insert. destruct (has_wheel m); lia. }
  destruct (has_wheel m) eqn:Ew; cbn [andb orb negb].
  - destruct (Z.eqb_spec (packet_count m + 1) 4); cbn [orb negb].
    + destruct (mouse_packet _ _ _ _ _) as [d1|]; [|done]. rewrite bind_some. destruct (flush_events _ _ _ _) as [[d2 c2]|]; [|done].
      rewrite bind_some. intros [= <- <-]. cbn [packet_count has_wheel packet]. rewrite length_insert. by split.
    + intros [= <- <-]. cbn [packet_count has_wheel packet]. rewrite length_insert. by split; [lia|].
  - destruct (Z.eqb_spec (packet_count m + 1) 3); cbn [negb].
    + destruct (mouse_packet _ _ _ _ _) as [d1|]; [|done]. rewrite bind_some. destruct (flush_events _ _ _ _) as [[d2 c2]|]; [|done].
      rewrite bind_some. intros [= <- <-]. cbn [packet_count has_wheel packet]. rewrite length_insert. by split.
    + intros [= <- <-]. cbn [packet_count has_wheel packet]. rewrite length_insert. by split; [lia|].
Qed.

(** The wheel's four bits are two's complement; read as a sign and a magnitude,
    one step the other way is seven. *)
Lemma wheel_steps : map wheel_motion [1; 2; 15; 14] = [-1; -2; 7; 6].
Proof. reflexivity. Qed.

(** A report as long as a listener's ring loses its last event behind the mark. *)
Lemma dropped_report_cut now : let evs := replicate 127 (new_event EV_KEY 30 1 now) ++ [new_event EV_SYN SYN_REPORT 0 now] in
  received evs [no_event] now = dropped now :: replicate 127 (new_event EV_KEY 30 1 now).
Proof. reflexivity. Qed.

(** The watch for the debug key leaves behind every event that is no press. *)
Lemma debug_key_leaves : 
  (rb ← debug_events callback_fuel (snd (RingBuffer_write EVENTS (RingBuffer_init demo_storage) [mkEvent (0, 0) 1 30 0; no_event] 2));
   Some (contents EVENTS rb)) = Some [no_event].
Proof. by vm_compute. Qed.
