(* ===== verification/UsbHid.v ===== *)
(** USB keyboards and mice (src/kernel/src/dev/input/usbhid.hpp, usbhid.cpp):
    the parser of report descriptors and the decoder of reports.

    A descriptor and a report are the memory from their first byte; a read
    behind it, a shift by more than an [int] has bits, [klib::unreachable] and a
    failed assertion are [None], like a loop that does not end.  What is printed
    is not kept. *)
From S2P Require Import Prelude KList Format RingBuffer Signal Sched Jobs Terminal Tty Input.

Definition usb_to_linux_keycode_table : list Z :=
  [240; 240; 240; 240; 30; 48; 46; 32; 18; 33; 34; 35; 23; 36; 37; 38; 50; 49; 24; 25;
   16; 19; 31; 20; 22; 47; 17; 45; 21; 44; 2; 3; 4; 5; 6; 7; 8; 9; 10; 11;
   28; 1; 14; 15; 57; 12; 13; 26; 27; 43; 43; 39; 40; 41; 51; 52; 53; 58; 59; 60;
   61; 62; 63; 64; 65; 66; 67; 68; 87; 88; 210; 70; 119; 110; 102; 104; 111; 107; 109; 106;
   105; 108; 103; 69; 98; 55; 74; 78; 96; 79; 80; 81; 75; 76; 77; 71; 72; 73; 82; 83;
   86; 127; 116; 117; 183; 184; 185; 186; 187; 188; 189; 190; 191; 192; 193; 194; 240; 138; 139; 353;
   128; 129; 131; 137; 133; 135; 136; 113; 115; 114; 240; 240; 240; 121; 240; 89; 93; 124; 92; 95;
   240; 240; 240; 240; 122; 123; 90; 91; 85; 240; 240; 240; 240; 222; 99; 223; 355; 240; 240; 240;
   240; 240; 240; 240; 240; 240; 240; 240; 240; 240; 240; 240; 240; 240; 240; 240; 240; 240; 240; 240;
   240; 240; 179; 180; 240; 240; 240; 240; 240; 240; 240; 240; 240; 240; 240; 240; 240; 240; 240; 240;
   240; 240; 240; 240; 240; 240; 240; 240; 240; 240; 240; 240; 240; 240; 240; 118; 240; 240; 240; 240;
   240; 240; 240; 240; 29; 42; 56; 125; 97; 54; 100; 126; 240; 240; 240; 240; 240; 240; 240; 240;
   240; 240; 240; 240; 240; 240; 240; 240; 240; 240; 240; 240; 240; 240; 240; 240].

(** ** The fields of a report *)

Record InputItem : Type := mkItem {
  size_bits : Z; item_type : Z; item_code : Z; usage_min : Z; usage_max : Z; is_array : bool; is_constant : bool; previous_value : Z
}.
Record UsbDevice : Type := mkUsb { usb : InputDevice; input_items : list InputItem; report_protocol_usable : bool }.

(** The state of the parser: the global items, the local items and what was
    found so far. *)
Record Parser : Type := mkParser {
  usage_page : Z; logical_minimum : Z; logical_maximum : Z; report_size : Z; report_count : Z;
  usages : list Z; usage_minimum : Z; usage_maximum : Z;
  items : list InputItem; usable : bool
}.
Definition with_globals (up lmin lmax rs rc : Z) (p : Parser) : Parser :=
  mkParser up lmin lmax rs rc (usages p) (usage_minimum p) (usage_maximum p) (items p) (usable p).
Definition with_locals (us : list Z) (umin umax : Z) (p : Parser) : Parser :=
  mkParser (usage_page p) (logical_minimum p) (logical_maximum p) (report_size p) (report_count p) us umin umax (items p) (usable p).
Definition with_items (l : list InputItem) (ok : bool) (p : Parser) : Parser :=
  mkParser (usage_page p) (logical_minimum p) (logical_maximum p) (report_size p) (report_count p)
    (usages p) (usage_minimum p) (usage_maximum p) l ok.

Definition keycode_of_usage (usage : Z) : Z := nth (Z.to_nat (Z.land usage 255)) usb_to_linux_keycode_table 0.

(** The event type and code of a usage; zeros for one that is not supported. *)
Definition usage_event (usage : Z) : Z * Z :=
  if Z.shiftr usage 16 =? 7 then (EV_KEY, keycode_of_usage usage)
  else if usage =? 589825 then (EV_KEY, BTN_LEFT)
  else if usage =? 589826 then (EV_KEY, BTN_RIGHT)
  else if usage =? 589827 then (EV_KEY, BTN_MIDDLE)
  else if usage =? 589828 then (EV_KEY, BTN_SIDE)
  else if usage =? 589829 then (EV_KEY, BTN_EXTRA)
  else if usage =? 65584 then (EV_REL, REL_X)
  else if usage =? 65585 then (EV_REL, REL_Y)
  else if usage =? 65592 then (EV_REL, REL_WHEEL)
  else (0, 0).

(** The usage of field [i] of an input item. *)
Definition field_usage (i : Z) (p : Parser) : option Z :=
  if i <? Z.of_nat (length (usages p)) then usages p !! Z.to_nat i
  else match last (usages p) with
       | Some u => Some u
       | None => if usage_minimum p =? 0 then None else Some (Z.min (u32 (usage_minimum p + i)) (usage_maximum p))
       end.

(** The loop over the fields of a variable item; it ends at a field without a
    usage. *)
Fixpoint variable_fields (is_ : list Z) (p : Parser) : Parser :=
  match is_ with
  | [] => p
  | i :: is_ =>
      match field_usage i p with
      | None => with_items (items p) false p
      | Some usage =>
          let (ty, c) := usage_event usage in
          variable_fields is_ (with_items (items p ++ [mkItem (report_size p) ty c 0 0 false false 0]) (usable p) p)
      end
  end.

(** An input item with the data [v]. *)
Definition input_item (v : Z) (p : Parser) : Parser :=
  if negb (Z.land v 1 =? 0) then
    with_items (items p ++ [mkItem (u32 (report_size p * report_count p)) 0 0 0 0 false true 0]) (usable p) p
  else if Z.land (Z.shiftr v 1) 1 =? 0 then
    with_items (items p ++ replicate (Z.to_nat (report_count p))
        (mkItem (report_size p) 0 0 (usage_minimum p) (usage_maximum p) true false 0)) (usable p) p
  else variable_fields (seqZ 0 (report_count p)) p.

(** The switch on the type and the tag of an item. *)
Definition parse_item (item_type item_tag item_size v : Z) (p : Parser) : Parser :=
  if item_type =? 0 then with_locals [] 0 0 (if item_tag =? 8 then input_item v p else p)
  else if item_type =? 1 then
    let set k d := if item_tag =? k then v else d in
    let seti k d := if item_tag =? k then i32 v else d in
    with_globals (set 0 (usage_page p)) (seti 1 (logical_minimum p)) (seti 2 (logical_maximum p)) (set 7 (report_size p))
      (set 9 (report_count p)) p
  else if item_type =? 2 then
    let usage := if item_size =? 4 then v else Z.lor v (u32 (Z.shiftl (usage_page p) 16)) in
    if item_tag =? 0 then with_locals (usages p ++ [usage]) (usage_minimum p) (usage_maximum p) p
    else if item_tag =? 1 then with_locals (usages p) usage (usage_maximum p) p
    else if item_tag =? 2 then with_locals (usages p) (usage_minimum p) usage p
    else p
  else with_items (items p) false p.

(** The loop that gathers an item's data from the bytes behind [i]. *)
Fixpoint item_data (offsets : list Z) (i length_ : Z) (data : list Z) (acc : Z) : option Z :=
  match offsets with
  | [] => Some acc
  | offset :: offsets =>
      if length_ <=? i + offset then Some acc
      else b ← data !! Z.to_nat (i + offset + 1); item_data offsets i length_ data (Z.lor acc (u32 (Z.shiftl b (offset * 8))))
  end.

(** The loop over the items; [i] has sixteen bits and every turn adds to it. *)
Fixpoint parse_items (fuel : nat) (i length_ : Z) (data : list Z) (p : Parser) : option Parser :=
  match fuel with
  | O => None
  | S fuel =>
      if length_ <=? i then Some p
      else
        item ← data !! Z.to_nat i;
        let size0 := Z.land item 3 in
        let size := if size0 =? 3 then 4 else size0 in
        v ← item_data (seqZ 0 size) i length_ data 0;
        parse_items fuel (u16 (u16 (i + size) + 1)) length_ data
          (parse_item (Z.land (Z.shiftr item 2) 3) (Z.land (Z.shiftr item 4) 15) size v p)
  end.
Definition start_parser : Parser := mkParser 0 0 0 0 0 [] 0 0 [] true.

(** A field of more bits than one has eight or sixteen and starts a byte, or the
    protocol is not used. *)
Fixpoint check_fields (bit_offset : Z) (l : list InputItem) (ok : bool) : bool :=
  match l with
  | [] => ok
  | it :: l =>
      let fine := (item_type it =? 0) || (size_bits it =? 1)
                  || ((bit_offset mod 8 =? 0) && ((size_bits it =? 8) || (size_bits it =? 16))) in
      check_fields (u32 (bit_offset + size_bits it)) l (ok && fine)
  end.

(** The bits of what the device can send; a loop up to the largest [u32] does
    not end. *)
Definition field_bits (it : InputItem) (d : InputDevice) : option InputDevice :=
  if is_array it then
    if (usage_max it =? 4294967295) then None
    else each (fun usage d => if Z.shiftr usage 16 =? 7 then set_bit KeyBits (keycode_of_usage usage) true d else Some d)
           (seqZ (usage_min it) (usage_max it - usage_min it + 1)) d
  else if item_type it =? 0 then Some d
  else
    d1 ← set_bit EvBits (item_type it) true d;
    if item_type it =? EV_KEY then set_bit KeyBits (item_code it) true d1
    else if item_type it =? EV_REL then set_bit RelBits (item_code it) true d1
    else None.

Definition parse_report_descriptor (fuel : nat) (data : list Z) (length_ : Z) (d : UsbDevice) : option UsbDevice :=
  p ← parse_items fuel 0 length_ data (mkParser 0 0 0 0 0 [] 0 0 (input_items d) true);
  if negb (check_fields 0 (items p) (usable p)) then Some (mkUsb (usb d) [] false)
  else u ← each field_bits (items p) (usb d); Some (mkUsb u (items p) true).

(** ** Reports *)

(** The value of a field at [bit_offset]; [Some None] where the report ends
    first. *)
Definition field_value (it : InputItem) (bit_offset : Z) (data : list Z) (data_length : Z) : option (option Z) :=
  let byte_offset := bit_offset / 8 in
  if data_length <=? byte_offset then Some None
  else
    b ← data !! Z.to_nat byte_offset;
    if size_bits it =? 1 then
      if 32 <=? bit_offset then None else Some (Some (b2z (negb (Z.land b (i32 (Z.shiftl 1 bit_offset)) =? 0))))
    else if bit_offset mod 8 =? 0 then
      if size_bits it =? 8 then Some (Some (sN 8 b))
      else if size_bits it =? 16 then
        if data_length <=? byte_offset + 1 then Some None
        else b1 ← data !! Z.to_nat (byte_offset + 1); Some (Some (sN 16 (Z.lor b (Z.shiftl b1 8))))
      else None
    else Some (Some 0).

(** The events of a field with the value [v]. *)
Definition field_event (it : InputItem) (v : Z) (now : Z * Z) (d : InputDevice) : option (InputItem * InputDevice) :=
  if is_array it then
    let usage := u32 (usage_min it + v) in
    let old_usage := u32 (usage_min it + previous_value it) in
    if (Z.shiftr usage 16 =? 7) && negb (v =? previous_value it) then
      let keycode := keycode_of_usage usage in
      let old_keycode := keycode_of_usage old_usage in
      d1 ← set_bit KeyStatus keycode true d;
      d2 ← set_bit KeyStatus old_keycode false d1;
      Some (mkItem (size_bits it) (item_type it) (item_code it) (usage_min it) (usage_max it) true (is_constant it) v,
            push_event EV_KEY old_keycode 0 now (push_event EV_KEY keycode 1 now d2))
    else Some (it, d)
  else if is_constant it then Some (it, d)
  else if item_type it =? EV_KEY then d1 ← process_button (item_code it) (negb (v =? 0)) now d; Some (it, d1)
  else if item_type it =? EV_REL then Some (it, push_motion (item_code it) v now d)
  else Some (it, d).

(** The loop over the fields. *)
Fixpoint report_fields (l : list InputItem) (bit_offset : Z) (data : list Z) (data_length : Z) (now : Z * Z) (d : InputDevice)
    : option (list InputItem * InputDevice) :=
  match l with
  | [] => Some ([], d)
  | it :: l =>
      r ← field_value it bit_offset data data_length;
      match r with
      | None => Some (it :: l, d)
      | Some v =>
          '(it1, d1) ← field_event it v now d;
          '(l1, d2) ← report_fields l (u32 (bit_offset + size_bits it)) data data_length now d1;
          Some (it1 :: l1, d2)
      end
  end.

Definition Device_event (enabled : bool) (data : list Z) (data_length : Z) (now : Z * Z) (u : UsbDevice) (c : Console)
    : option (UsbDevice * Console) :=
  '(l, d) ← report_fields (input_items u) 0 data data_length now (usb u);
  '(d1, c1) ← flush_events enabled now d c;
  Some (mkUsb d1 l (report_protocol_usable u), c1).

Definition BUS_USB : Z := 3.
Definition usb_device (nm ph : list Z) (vendor : Z) (storage : list InputEvent) : option UsbDevice :=
  let d := InputDevice_new storage in
  let d := mkDevice nm ph (uniq d) (input_id BUS_USB vendor 1 1) (listeners d) (queue d) (bits d) (caps_lock d) (triggers d) in
  d ← set_bit EvBits EV_SYN true d; Some (mkUsb d [] false).
Definition usb_mouse_name : list Z := [85; 83; 66; 32; 77; 111; 117; 115; 101; 0].
Definition usb_mouse_phys : list Z := [117; 115; 98; 109; 111; 117; 115; 101; 47; 105; 110; 112; 117; 116; 48; 0].
Definition UsbMouse_new (storage : list InputEvent) : option UsbDevice := usb_device usb_mouse_name usb_mouse_phys 2 storage.
Definition usb_keyboard_name : list Z := [85; 83; 66; 32; 75; 101; 121; 98; 111; 97; 114; 100; 0].
Definition usb_keyboard_phys : list Z := [117; 115; 98; 107; 98; 100; 47; 105; 110; 112; 117; 116; 48; 0].
Definition UsbKeyboard_new (storage : list InputEvent) : option UsbDevice := usb_device usb_keyboard_name usb_keyboard_phys 1 storage.

(** ** The parser ends inside its memory *)

Lemma item_data_total data len i offsets acc : 0 <= i -> Forall (fun o => 0 <= o) offsets -> len < Z.of_nat (length data) ->
  is_Some (item_data offsets i len data acc).
Proof.
  intros Hi Ho Hl. revert acc. induction Ho as [|o offsets H _ IH]; intros acc; cbn [item_data]; [by eexists|].
  destruct (Z.leb_spec len (i + o)); [by eexists|].
  destruct (lookup_lt_is_Some_2 data (Z.to_nat (i + o + 1))) as [b ->]; [lia|]. cbn [mbind option_bind]. apply IH.
Qed.

Lemma item_size_range b : 0 <= (let s := Z.land b 3 in if s =? 3 then 4 else s) <= 4.
Proof.
  cbv zeta. assert (0 <= Z.land b 3 < 4) by (change 3 with (Z.ones 2); rewrite Z.land_ones by lia; apply Z.mod_pos_bound; lia).
  destruct (Z.land b 3 =? 3); lia.
Qed.

(** C38: The parser of a descriptor of up to 65531 bytes ends after at most a turn for
    each of them, and reads nothing behind the byte after the last. *)
Theorem parse_items_terminates data len p :
  0 <= len <= 65531 -> len < Z.of_nat (length data) ->
  exists p', parse_items (S (Z.to_nat len)) 0 len data p = Some p'.
Proof.
  intros Hlen Hd. assert (forall fuel i p, 0 <= i -> 0 < Z.of_nat fuel -> len - i < Z.of_nat fuel -> exists p', parse_items fuel i len data p = Some p') as H.
  { induction fuel as [|fuel IH]; intros i p0 Hi H0 Hf; cbn [parse_items].
    - lia.
    - destruct (Z.leb_spec len i); [by eexists|].
      destruct (lookup_lt_is_Some_2 data (Z.to_nat i)) as [b ->]; [lia|]. cbn [mbind option_bind].
      pose proof (item_size_range b) as Hs. cbv zeta in *. set (size := if Z.land b 3 =? 3 then 4 else Z.land b 3) in *.
      destruct (item_data_total data len i (seqZ 0 size) 0 Hi) as [v ->]; [|done|].
      + apply Forall_forall. intros o Ho. apply elem_of_seqZ in Ho. lia.
      + cbn [mbind option_bind]. rewrite (uN_small 16 (i + size)), (uN_small 16) by lia. apply IH; lia. }
  apply H; lia.
Qed.

(** A mouse of three buttons, two axes and a wheel. *)
Definition mouse_descriptor : list Z :=
  [5; 1; 9; 2; 161; 1; 9; 1; 161; 0; 5; 9; 25; 1; 41; 3; 21; 0; 37; 1; 149; 3; 117; 1; 129; 2; 149; 1; 117; 5; 129; 3;
   5; 1; 9; 48; 9; 49; 9; 56; 21; 129; 37; 127; 117; 8; 149; 3; 129; 6; 192; 192].

Lemma parse_items_terminates_witness :
  exists p', parse_items (S 52) 0 52 (mouse_descriptor ++ [0]) start_parser = Some p' /\ length (items p') = 7%nat.
Proof.
  destruct (parse_items_terminates (mouse_descriptor ++ [0]) 52 start_parser) as [p' H].
  - lia.
  - vm_compute. reflexivity.
  - exists p'. split; [exact H|]. change (S (Z.to_nat 52)) with 53%nat in H. vm_compute in H. by injection H as <-.
Defined.

(** The data of the last item is read from behind a descriptor that ends in
    it. *)
Lemma data_behind_descriptor : parse_items 3 0 1 [9] start_parser = None /\ is_Some (parse_items 3 0 1 [9; 77] start_parser).
Proof. split; [done|]. by eexists. Qed.

(** A longer descriptor can be parsed for ever, because the index has sixteen
    bits: here the last item leads back to the first. *)
Definition long_descriptor : list Z := replicate (Z.to_nat 65534) 0 ++ [1; 0].

Lemma long_descriptor_at i : 0 <= i <= 65535 -> long_descriptor !! Z.to_nat i = Some (b2z (i =? 65534)).
Proof.
  intros Hi. unfold long_descriptor. destruct (decide (i < 65534)).
  - rewrite lookup_app_l by (rewrite length_replicate; lia). rewrite lookup_replicate_2 by lia. by destruct (Z.eqb_spec i 65534); [lia|].
  - rewrite lookup_app_r by (rewrite length_replicate; lia). rewrite length_replicate.
    destruct (Z.eqb_spec i 65534) as [->|]; [by rewrite Nat.sub_diag|].
    replace (Z.to_nat i - Z.to_nat 65534)%nat with 1%nat by lia. done.
Qed.

Lemma index_wraps fuel : parse_items fuel 0 65535 long_descriptor start_parser = None.
Proof.
  assert (forall i p, 0 <= i <= 65534 -> parse_items fuel i 65535 long_descriptor p = None) as H; [|apply H; lia].
  induction fuel as [|fuel IH]; intros i p Hi; [done|]. cbn [parse_items]. destruct (Z.leb_spec 65535 i); [lia|].
  rewrite long_descriptor_at by lia. rewrite bind_some. cbv zeta. destruct (Z.eqb_spec i 65534) as [->|]; cbn [b2z].
  - change (Z.land 1 3 =? 3) with false. cbv iota. change (seqZ 0 (Z.land 1 3)) with [0]. cbn [item_data].
    change (65535 <=? 65534 + 0) with false. cbv iota. change (65534 + 0 + 1) with 65535. rewrite long_descriptor_at by lia.
    rewrite !bind_some. apply IH. vm_compute. by split.
  - change (Z.land 0 3 =? 3) with false. cbv iota. change (seqZ 0 (Z.land 0 3)) with (@nil Z). cbn [item_data].
    rewrite bind_some. change (Z.land 0 3) with 0. rewrite Z.add_0_r. rewrite (uN_small 16 i), (uN_small 16) by lia. apply IH. lia.
Qed.

(** ** The fields of a report, as bits of a number *)

Lemma le_combine_drop k : forall l, Forall byte l -> Z.shiftr (le_combine l) (8 * Z.of_nat k) = le_combine (drop k l).
Proof.
  induction k as [|k IH]; intros l Hl; [done|]. destruct Hl as [|b l Hb Hl]; [by rewrite Z.shiftr_0_l|].
  cbn [drop]. rewrite <- (IH l Hl). change (le_combine (b :: l)) with (b + 256 * le_combine l). rewrite !Z.shiftr_div_pow2 by lia.
  replace (8 * Z.of_nat (S k)) with (8 + 8 * Z.of_nat k) by lia. rewrite Z.pow_add_r by lia. change (2 ^ 8) with 256.
  rewrite <- Z.div_div by lia. f_equal. rewrite Z.add_comm, Z.mul_comm, Z.div_add_l by lia. unfold byte in Hb.
  rewrite (Z.div_small b 256) by lia. lia.
Qed.

Lemma sN_mod w x y : x mod 2 ^ w = y mod 2 ^ w -> sN w x = sN w y.
Proof. intros H. unfold sN. by rewrite H. Qed.

Lemma land_bit b n : 0 <= n -> negb (Z.land b (Z.shiftl 1 n) =? 0) = Z.testbit b n.
Proof.
  intros Hn. rewrite Z.shiftl_1_l. destruct (Z.testbit b n) eqn:E.
  - apply negb_true_iff, Z.eqb_neq. intros H. apply (f_equal (fun z => Z.testbit z n)) in H.
    by rewrite Z.land_spec, E, Z.pow2_bits_true, Z.bits_0 in H.
  - apply negb_false_iff, Z.eqb_eq. apply Z.bits_inj'. intros m Hm. rewrite Z.land_spec, Z.bits_0.
    destruct (decide (m = n)) as [->|]; [by rewrite E|]. rewrite Z.pow2_bits_false by lia. by rewrite andb_false_r.
Qed.

(** Fields the decoder reads: bits of the first byte, and bytes and pairs of
    bytes that start a byte. *)
Definition field_fits (it : InputItem) (off : Z) (data : list Z) : Prop :=
  0 <= off /\ off + size_bits it <= 8 * Z.of_nat (length data) /\
  (size_bits it = 1 /\ off < 8 \/ off mod 8 = 0 /\ (size_bits it = 8 \/ size_bits it = 16)).

(** Their value is that of the field in the report read as one number with its
    first byte lowest: a bit, or eight or sixteen bits with their sign. *)
Theorem field_value_spec it off data :
  field_fits it off data -> Forall byte data ->
  field_value it off data (Z.of_nat (length data))
  = Some (Some (if size_bits it =? 1 then b2z (Z.testbit (le_combine data) off) else sN (size_bits it) (Z.shiftr (le_combine data) off))).
Proof.
  intros (H0 & Hlen & Hs) Hb. unfold field_value.
  assert (0 <= off / 8) as Hd by (apply Z.div_pos; lia). pose proof (Z.div_mod off 8 ltac:(lia)) as Hdm.
  pose proof (Z.mod_pos_bound off 8 ltac:(lia)) as Hm.
  assert (0 < size_bits it) as Hp by (destruct Hs as [[-> _]|[_ [-> | ->]]]; lia).
  destruct (Z.leb_spec (Z.of_nat (length data)) (off / 8)); [lia|].
  destruct (lookup_lt_is_Some_2 data (Z.to_nat (off / 8))) as [b E]; [lia|]. rewrite E. cbn [mbind option_bind].
  assert (Z.shiftr (le_combine data) (8 * (off / 8)) = le_combine (b :: drop (S (Z.to_nat (off / 8))) data)) as Hshift.
  { rewrite <- (drop_S _ _ _ E). rewrite <- (le_combine_drop _ data Hb). do 2 f_equal. lia. }
  change (le_combine (b :: drop (S (Z.to_nat (off / 8))) data)) with (b + 256 * le_combine (drop (S (Z.to_nat (off / 8))) data)) in Hshift.
  destruct Hs as [[Hs Ho]|[Hz Hs]].
  - rewrite Hs. change (1 =? 1) with true. cbv iota. destruct (Z.leb_spec 32 off); [lia|]. do 2 f_equal.
    rewrite sN_small.
    + rewrite land_bit by lia. f_equal. rewrite (Z.div_small off 8) in Hshift by lia. rewrite Z.mul_0_r, Z.shiftr_0_r in Hshift.
      rewrite Hshift. rewrite <- (Z.mod_pow2_bits_low (b + _) 8) by lia. change (2 ^ 8) with 256.
      rewrite (Z.mul_comm 256), Z_mod_plus_full. rewrite Z.mod_small; [done|]. rewrite Forall_lookup in Hb. apply (Hb _ _ E).
    + lia.
    + rewrite Z.shiftl_1_l. split; [lia|]. change (32 - 1) with 31. apply Z.pow_lt_mono_r; lia.
  - rewrite Hz. change (0 =? 0) with true. replace (8 * (off / 8)) with off in Hshift by lia. rewrite Hshift. destruct Hs as [Hs|Hs]; rewrite Hs.
    + change (8 =? 1) with false. change (8 =? 8) with true. cbv iota. do 2 f_equal. apply sN_mod. change (2 ^ 8) with 256.
      by rewrite (Z.mul_comm 256), Z_mod_plus_full.
    + change (16 =? 1) with false. change (16 =? 8) with false. change (16 =? 16) with true. cbv iota.
      destruct (Z.leb_spec (Z.of_nat (length data)) (off / 8 + 1)); [lia|].
      destruct (lookup_lt_is_Some_2 data (Z.to_nat (off / 8 + 1))) as [b1 E1]; [lia|]. rewrite E1. cbn [mbind option_bind]. do 2 f_equal.
      replace (Z.to_nat (off / 8 + 1)) with (S (Z.to_nat (off / 8))) in E1 by lia. rewrite (drop_S _ _ _ E1).
      assert (byte b) as Hbb by (rewrite Forall_lookup in Hb; apply (Hb _ _ E)). unfold byte in Hbb.
      rewrite lor_shiftl by lia. apply sN_mod. change (2 ^ 8) with 256. change (2 ^ 16) with 65536.
      set (r := drop (S (S (Z.to_nat (off / 8)))) data). change (le_combine (b1 :: r)) with (b1 + 256 * le_combine r).
      replace (b + 256 * (b1 + 256 * le_combine r)) with (b + b1 * 256 + le_combine r * 65536) by lia. by rewrite Z_mod_plus_full.
Qed.

Lemma field_value_spec_witness :
  field_value (mkItem 16 EV_REL REL_X 0 0 false false 0) 8 [1; 254; 255] 3 = Some (Some (-2)).
Proof.
  exact (field_value_spec (mkItem 16 EV_REL REL_X 0 0 false false 0) 8 [1; 254; 255]
    ltac:(split; [lia|split; [cbn; lia|right; split; [reflexivity|right; reflexivity]]])
    ltac:(repeat constructor; unfold byte; lia)).
Defined.

(** A bit behind the first byte is always read as off, and behind the fourth the
    shift is undefined; a field of another size at a byte's start stops the
    decoder, though a constant of twelve bits passes the parser's check. *)
Lemma later_bits_lost it data : size_bits it = 1 -> data !! 1%nat = Some 255 -> 2 <= Z.of_nat (length data) ->
  field_value it 8 data (Z.of_nat (length data)) = Some (Some 0).
Proof.
  intros Hs Hd Hl. unfold field_value. rewrite Hs. change (8 / 8) with 1. change (Z.to_nat 1) with 1%nat. rewrite Hd.
  destruct (Z.leb_spec (Z.of_nat (length data)) 1); [lia|]. reflexivity.
Qed.

Lemma constant_unreachable :
  let it := mkItem 12 0 0 0 0 false true 0 in
  check_fields 0 [it] true = true /\ field_value it 0 [0; 0] 2 = None.
Proof. by split. Qed.

(** The fields of the mouse above. *)
Lemma mouse_descriptor_fields :
  (p ← parse_items 60 0 52 mouse_descriptor start_parser; Some (items p, check_fields 0 (items p) (usable p))) =
  Some ([mkItem 1 EV_KEY BTN_LEFT 0 0 false false 0; mkItem 1 EV_KEY BTN_RIGHT 0 0 false false 0; mkItem 1 EV_KEY BTN_MIDDLE 0 0 false false 0;
         mkItem 5 0 0 0 0 false true 0;
         mkItem 8 EV_REL REL_X 0 0 false false 0; mkItem 8 EV_REL REL_Y 0 0 false false 0; mkItem 8 EV_REL REL_WHEEL 0 0 false false 0], true).
Proof. by vm_compute. Qed.

(** A report of that mouse and one of a keyboard whose second key stays down when
    the first is released: it moves to the first place of the array, its old
    place reports it as released, and a key that does not exist is pressed. *)
Definition demo_report (l : list InputItem) (data : list Z) : option (list (Z * Z * Z) * option bool) :=
  '(_, d) ← report_fields l 0 data (Z.of_nat (length data)) (0, 0) (InputDevice_new demo_storage);
  Some (map strip (contents EVENTS (queue d)), get_bit KeyStatus 48 d).

Lemma mouse_report :
  (p ← parse_items 60 0 52 mouse_descriptor start_parser; demo_report (items p) [5; 254; 3; 255]) =
  Some ([(1, 272, 1); (1, 274, 1); (2, 0, 4294967294); (2, 1, 3); (2, 8, 4294967295)], Some false).
Proof. by vm_compute. Qed.

Lemma held_key_released :
  let key v := mkItem 8 0 0 458752 458853 true false v in
  demo_report [key 4; key 5] [5; 0] = Some ([(1, 48, 1); (1, 30, 0); (1, 240, 1); (1, 48, 0)], Some false).
Proof. by vm_compute. Qed.
