(* ===== verification/Devices.v ===== *)
(** Device numbers and nodes (src/kernel/src/dev/devnode.hpp, devnode.cpp), the
    simple character devices (simple_char.hpp) and block devices behind
    byte-addressed reads and writes (block.cpp).

    The simple devices are vnodes in the sense of VNode.v. *)
From S2P Require Import Prelude VNode.

(** ** Device numbers *)

Definition major_dev_id (dev_id : Z) : Z := Z.lor (Z.land (Z.shiftr dev_id 8) 4095) (Z.ldiff (u32 (Z.shiftr dev_id 32)) 4095).
Definition minor_dev_id (dev_id : Z) : Z := Z.lor (Z.land dev_id 255) (Z.ldiff (u32 (Z.shiftr dev_id 12)) 255).
Definition make_dev_id (major_id minor_id : Z) : Z :=
  Z.lor (Z.lor (Z.lor (Z.land minor_id 255) (Z.shiftl (Z.land major_id 4095) 8)) (u64 (Z.shiftl (Z.ldiff minor_id 255) 12)))
    (u64 (Z.shiftl (Z.ldiff major_id 4095) 32)).

Lemma ones_bits n i : 0 <= n -> 0 <= i -> Z.testbit (Z.ones n) i = (i <? n).
Proof.
  intros Hn Hi. destruct (Z.ltb_spec i n); [by apply Z.ones_spec_low|]. by apply Z.ones_spec_high.
Qed.

Lemma uN_bits w x i : 0 <= w -> 0 <= i -> Z.testbit (uN w x) i = (i <? w) && Z.testbit x i.
Proof.
  intros Hw Hi. unfold uN. destruct (Z.ltb_spec i w); [by rewrite Z.mod_pow2_bits_low|]. by rewrite Z.mod_pow2_bits_high by lia.
Qed.

Lemma range_bits w x i : 0 <= w -> 0 <= x < 2 ^ w -> w <= i -> Z.testbit x i = false.
Proof. intros Hw Hx Hi. rewrite <- (uN_small w x Hx). unfold uN. apply Z.mod_pow2_bits_high. lia. Qed.

(** The bits of a device number. *)
Lemma make_dev_id_bits major minor i : 0 <= major < 2 ^ 32 -> 0 <= minor < 2 ^ 32 -> 0 <= i ->
  Z.testbit (make_dev_id major minor) i =
    if i <? 8 then Z.testbit minor i
    else if i <? 20 then Z.testbit major (i - 8)
    else if i <? 44 then Z.testbit minor (i - 12)
    else if i <? 64 then Z.testbit major (i - 32) else false.
Proof.
  intros Ha Hb Hi. unfold make_dev_id. change 255 with (Z.ones 8). change 4095 with (Z.ones 12).
  rewrite !Z.lor_spec, !uN_bits, !Z.land_spec, Z.shiftl_spec, ones_bits by lia.
  assert (forall n k, 0 <= n -> Z.testbit (Z.shiftl (Z.ldiff k (Z.ones n)) (if n =? 8 then 12 else 32)) i
    = Z.testbit k (i - (if n =? 8 then 12 else 32)) && negb (i - (if n =? 8 then 12 else 32) <? n)) as Hs.
  { intros n k Hn. rewrite Z.shiftl_spec by lia. set (j := i - _). destruct (Z.ltb_spec j 0).
    - rewrite !(Z.testbit_neg_r _ j) by lia. done.
    - rewrite Z.ldiff_spec, ones_bits by lia. done. }
  pose proof (Hs 8 minor ltac:(lia)) as H1. pose proof (Hs 12 major ltac:(lia)) as H2. cbn [Z.eqb Pos.eqb] in H1, H2. rewrite H1, H2. clear Hs H1 H2.
  assert (Z.testbit (Z.land major (Z.ones 12)) (i - 8) = Z.testbit major (i - 8) && (i - 8 <? 12)) as ->.
  { destruct (Z.ltb_spec (i - 8) 0); [by rewrite !(Z.testbit_neg_r _ (i - 8))|]. by rewrite Z.land_spec, ones_bits by lia. }
  assert (forall j, 32 <= j -> Z.testbit major j = false) as Hma by (intros; eapply (range_bits 32); lia).
  assert (forall j, 32 <= j -> Z.testbit minor j = false) as Hmi by (intros; eapply (range_bits 32); lia).
  destruct (Z.ltb_spec i 8), (Z.ltb_spec i 20), (Z.ltb_spec i 44), (Z.ltb_spec i 64), (Z.ltb_spec (i - 8) 12), (Z.ltb_spec (i - 12) 8),
    (Z.ltb_spec (i - 32) 12); try lia; cbn [negb andb]; rewrite ?andb_false_r, ?andb_true_r, ?orb_false_r, ?orb_false_l; try done;
    rewrite ?(Z.testbit_neg_r _ (i - 8)), ?(Z.testbit_neg_r _ (i - 12)), ?(Z.testbit_neg_r _ (i - 32)) by lia;
    rewrite ?andb_false_r, ?orb_false_r; try done; rewrite ?(Hmi (i - 12)) by lia; try done.
Qed.

Lemma dev_id_parts major minor : 0 <= major < 2 ^ 32 -> 0 <= minor < 2 ^ 32 ->
  major_dev_id (make_dev_id major minor) = major /\ minor_dev_id (make_dev_id major minor) = minor.
Proof.
  intros Ha Hb. assert (forall j, 32 <= j -> Z.testbit major j = false) as Hma by (intros; eapply (range_bits 32); lia).
  assert (forall j, 32 <= j -> Z.testbit minor j = false) as Hmi by (intros; eapply (range_bits 32); lia).
  split; apply Z.bits_inj'; intros i Hi; unfold major_dev_id, minor_dev_id; change 255 with (Z.ones 8); change 4095 with (Z.ones 12);
    rewrite Z.lor_spec, Z.land_spec, Z.ldiff_spec, uN_bits, !Z.shiftr_spec, ones_bits, !make_dev_id_bits by lia.
  - replace (i + 8 - 8) with i by lia. replace (i + 32 - 32) with i by lia.
    destruct (Z.ltb_spec i 12), (Z.ltb_spec i 32), (Z.ltb_spec (i + 8) 8), (Z.ltb_spec (i + 8) 20), (Z.ltb_spec (i + 32) 8), (Z.ltb_spec (i + 32) 20),
      (Z.ltb_spec (i + 32) 44), (Z.ltb_spec (i + 32) 64); try lia; cbn [negb andb]; rewrite ?andb_false_r, ?andb_true_r, ?orb_false_r; try done.
    rewrite Hma by lia. done.
  - replace (i + 12 - 12) with i by lia.
    destruct (Z.ltb_spec i 8), (Z.ltb_spec i 32), (Z.ltb_spec (i + 12) 8), (Z.ltb_spec (i + 12) 20), (Z.ltb_spec (i + 12) 44); try lia;
      cbn [negb andb]; rewrite ?andb_false_r, ?andb_true_r, ?orb_false_r; try done.
    rewrite Hmi by lia. done.
Qed.

(** The parts of a device number are the numbers it was made of. *)
Theorem dev_id_roundtrip major minor : 0 <= major < 2 ^ 32 -> 0 <= minor < 2 ^ 32 ->
  major_dev_id (make_dev_id major minor) = major /\ minor_dev_id (make_dev_id major minor) = minor.
Proof. apply dev_id_parts. Qed.

Lemma dev_id_roundtrip_witness : major_dev_id (make_dev_id 13 65) = 13 /\ minor_dev_id (make_dev_id 13 65) = 65.
Proof. apply (dev_id_roundtrip 13 65); lia. Defined.

(** ** The simple devices *)

Definition ENOSPC : Z := 28.

(** /dev/null, zero, full and random with its state. *)
Inductive SimpleDev : Type := NullDev | ZeroDev | FullDev | RandomDev (state : Z).

(** A turn of the generator and the byte it gives. *)
Definition next_random (state : Z) : Z :=
  let s1 := Z.lxor state (u32 (Z.shiftl state 13)) in
  let s2 := Z.lxor s1 (Z.shiftr s1 17) in
  Z.lxor s2 (u32 (Z.shiftl s2 5)).
Fixpoint random_bytes (n : nat) (state : Z) : list Z * Z :=
  match n with
  | O => ([], state)
  | S n => let s := next_random state in let (bs, s') := random_bytes n s in (Z.land s 255 :: bs, s')
  end.

Definition SimpleDev_read (_ count _ : Z) (d : SimpleDev) : attempt SimpleDev (Z * list Z) :=
  match d with
  | NullDev => Return (0, []) d
  | ZeroDev | FullDev => Return (count, replicate (Z.to_nat count) 0) d
  | RandomDev s => let (bs, s') := random_bytes (Z.to_nat count) s in Return (count, bs) (RandomDev s')
  end.
Definition SimpleDev_write (_ : Z) (buf : list Z) (_ : Z) (d : SimpleDev) : attempt SimpleDev Z :=
  match d with FullDev => Return (- ENOSPC) d | _ => Return (Z.of_nat (length buf)) d end.
Definition SimpleDev_seek (_ _ _ : Z) (_ : SimpleDev) : Z := 0.

#[export] Instance SimpleDev_VNodeOps : VNodeOps SimpleDev := {
  vn_open := VNode_open; vn_close := VNode_close; vn_read := SimpleDev_read; vn_write := SimpleDev_write;
  vn_seek := SimpleDev_seek; vn_poll := VNode_poll
}.

Lemma random_bytes_length n s : length (fst (random_bytes n s)) = n.
Proof. revert s. induction n as [|n IH]; intros s; [done|]. cbn. specialize (IH (next_random s)). destruct (random_bytes n _). cbn in *. lia. Qed.

(** They keep the promises of a vnode, so what is proved of the system calls
    holds on them. *)
#[export] Instance SimpleDev_VNodeLaws : VNodeLaws SimpleDev (fun _ => True).
Proof.
  split.
  - intros fl count off v _ Hc Ho. destruct v as [| | |s]; cbn; [split; [done|right; split; [lia|done]]| | |].
    + split; [done|]. right. rewrite length_replicate. lia.
    + split; [done|]. right. rewrite length_replicate. lia.
    + pose proof (random_bytes_length (Z.to_nat count) s). destruct (random_bytes _ s) as [bs s']. cbn in *. split; [done|]. right. lia.
  - intros fl buf off v _ Hb Hl Ho. destruct v; cbn; (split; [done|]); [right; lia|right; lia|left; split; [reflexivity|done]|right; lia].
  - intros fl ev count off v _ He Hp v' Hr. destruct v as [| | |s]; cbn in Hr; try done. by destruct (random_bytes _ s).
Qed.

(** The generator never falls silent: its state never becomes zero. *)
Lemma lxor_shiftl_nonzero x k : 0 < x < 2 ^ 32 -> 0 < k -> Z.lxor x (u32 (Z.shiftl x k)) <> 0.
Proof.
  intros Hx Hk E. apply Z.lxor_eq in E. assert (forall n : nat, forall i, 0 <= i <= Z.of_nat n -> Z.testbit x i = false) as H.
  { induction n as [|n IH]; intros i Hi; rewrite E, uN_bits, Z.shiftl_spec by lia.
    - rewrite (Z.testbit_neg_r _ (i - k)) by lia. apply andb_false_r.
    - destruct (Z.ltb_spec (i - k) 0); [rewrite (Z.testbit_neg_r _ (i - k)) by lia; apply andb_false_r|].
      rewrite (IH (i - k)) by lia. apply andb_false_r. }
  assert (x = 0) as ->; [|lia]. apply Z.bits_inj'. intros i Hi. rewrite Z.bits_0. apply (H (Z.to_nat i)). lia.
Qed.

Lemma lxor_shiftr_nonzero x k : 0 < x < 2 ^ 32 -> 0 < k -> Z.lxor x (Z.shiftr x k) <> 0.
Proof.
  intros Hx Hk E. apply Z.lxor_eq in E. rewrite Z.shiftr_div_pow2 in E by lia.
  assert (x / 2 ^ k < x); [|lia]. apply Z.div_lt; [lia|]. pose proof (Z.pow_gt_1 2 k). lia.
Qed.

Lemma lxor_range32 x y : 0 <= x < 2 ^ 32 -> 0 <= y < 2 ^ 32 -> 0 <= Z.lxor x y < 2 ^ 32.
Proof.
  intros Hx Hy. assert (Z.lxor x y = uN 32 (Z.lxor x y)) as ->; [|apply uN_range; lia].
  apply Z.bits_inj'. intros i Hi. rewrite uN_bits by lia. destruct (Z.ltb_spec i 32); [done|]. cbn [andb].
  rewrite Z.lxor_spec. by rewrite !(range_bits 32) by lia.
Qed.

Lemma next_random_nonzero s : 0 < s < 2 ^ 32 -> 0 < next_random s < 2 ^ 32.
Proof.
  intros Hs. unfold next_random. cbv zeta. set (s1 := Z.lxor s (u32 (Z.shiftl s 13))). set (s2 := Z.lxor s1 (Z.shiftr s1 17)).
  assert (0 < s1 < 2 ^ 32) as H1.
  { unfold s1. pose proof (lxor_range32 s (u32 (Z.shiftl s 13)) ltac:(lia) ltac:(apply uN_range; lia)). pose proof (lxor_shiftl_nonzero s 13 Hs ltac:(lia)). lia. }
  assert (0 <= Z.shiftr s1 17 < 2 ^ 32) as Hr.
  { rewrite Z.shiftr_div_pow2 by lia. split; [apply Z.div_pos; lia|]. apply Z.div_lt_upper_bound; lia. }
  assert (0 < s2 < 2 ^ 32) as H2.
  { unfold s2. pose proof (lxor_range32 s1 (Z.shiftr s1 17) ltac:(lia) Hr). pose proof (lxor_shiftr_nonzero s1 17 H1 ltac:(lia)). lia. }
  pose proof (lxor_range32 s2 (u32 (Z.shiftl s2 5)) ltac:(lia) ltac:(apply uN_range; lia)).
  pose proof (lxor_shiftl_nonzero s2 5 H2 ltac:(lia)). lia.
Qed.

(** *** Memory and ports *)

(** /dev/mem: [m] is physical memory; the address is added to [mem::hhdm], where
    all of it is mapped. *)
Fixpoint mem_write (bs : list Z) (a : Z) (m : Z -> Z) : Z -> Z :=
  match bs with [] => m | b :: bs => mem_write bs (a + 1) (fun x => if x =? a then b else m x) end.
Definition MemDevNode_read (count offset : Z) (m : Z -> Z) : Z * list Z := (count, map m (seqZ offset count)).
Definition MemDevNode_write (buf : list Z) (offset : Z) (m : Z -> Z) : Z * (Z -> Z) := (Z.of_nat (length buf), mem_write buf offset m).

(** /dev/port: [inb] is what the ports answer; a write is the list of what was
    sent to them. *)
Definition port_count (count offset : Z) : Z := if 65536 <? u64 (offset + count) then 65536 - offset else count.
Definition PortDevNode_read (inb : Z -> Z) (count offset : Z) : Z * list Z :=
  if 65536 <=? offset then (0, [])
  else let n := port_count count offset in (n, map inb (seqZ offset n)).
Definition PortDevNode_write (buf : list Z) (offset : Z) : Z * list (Z * Z) :=
  if 65536 <=? offset then (0, [])
  else let n := port_count (Z.of_nat (length buf)) offset in (n, zip (seqZ offset n) buf).

Definition SeekableCharDevNode_seek (position offset whence : Z) : Z :=
  if whence =? SEEK_SET then offset else if whence =? SEEK_CUR then i64 (position + offset) else - EINVAL.

Lemma mem_write_at bs : forall a m x,
  mem_write bs a m x = if (a <=? x) && (x <? a + Z.of_nat (length bs)) then nth (Z.to_nat (x - a)) bs 0 else m x.
Proof.
  induction bs as [|b bs IH]; intros a m x; cbn [mem_write length].
  - destruct (Z.leb_spec a x), (Z.ltb_spec x (a + Z.of_nat 0)); try done; lia.
  - rewrite IH. destruct (Z.eqb_spec x a) as [->|Hne].
    + destruct (Z.leb_spec (a + 1) a); [lia|]. cbn [andb]. destruct (Z.leb_spec a a); [|lia].
      destruct (Z.ltb_spec a (a + Z.of_nat (S (length bs)))); [|lia]. cbn [andb]. by rewrite Z.sub_diag.
    + destruct (Z.leb_spec (a + 1) x), (Z.leb_spec a x); try lia; [|done].
      destruct (Z.ltb_spec x (a + 1 + Z.of_nat (length bs))), (Z.ltb_spec x (a + Z.of_nat (S (length bs)))); try lia; [|done]. cbn [andb].
      replace (Z.to_nat (x - a)) with (S (Z.to_nat (x - (a + 1)))) by lia. done.
Qed.

(** What is written to memory is read back, whatever it overwrites. *)
Lemma mem_write_read buf off m : 0 <= off -> MemDevNode_read (Z.of_nat (length buf)) off (snd (MemDevNode_write buf off m)) = (Z.of_nat (length buf), buf).
Proof.
  intros Ho. unfold MemDevNode_read, MemDevNode_write. cbn [snd]. f_equal. apply list_eq. intros i. rewrite list_lookup_fmap.
  destruct (decide (i < length buf)%nat) as [Hi|Hi].
  - rewrite lookup_seqZ_lt by lia. cbn. rewrite mem_write_at. destruct (Z.leb_spec off (off + Z.of_nat i)); [|lia].
    destruct (Z.ltb_spec (off + Z.of_nat i) (off + Z.of_nat (length buf))); [|lia]. cbn [andb].
    replace (Z.to_nat (off + Z.of_nat i - off)) with i by lia. destruct (lookup_lt_is_Some_2 buf i Hi) as [b Hb]. rewrite Hb. f_equal.
    by apply nth_lookup_Some.
  - rewrite lookup_seqZ_ge by lia. cbn. symmetry. apply lookup_ge_None_2. lia.
Qed.

(** No port above 65535 is touched by counts that do not overflow. *)
Lemma ports_bounded count offset : 0 <= offset < 65536 -> 0 <= count < 9223372036854775808 -> offset + port_count count offset <= 65536.
Proof. intros Ho Hc. unfold port_count. rewrite u64_small by lia. destruct (Z.ltb_spec 65536 (offset + count)); lia. Qed.
Lemma ports_overflow : port_count 18446744073709551615 1 = 18446744073709551615.
Proof. reflexivity. Qed.

(** *** The registry *)

Inductive CharDevice : Type :=
| DevMem | DevNull | DevPort | DevZero | DevFull | DevRandom | DevUrandom | DevTty | DevConsole | DevPtmx | DevFb | DevEvent0 | DevEvent1.
(** [init_devices]: the numbers and what is made for them. *)
Definition char_device_initializers : list (Z * CharDevice) :=
  [(make_dev_id 1 1, DevMem); (make_dev_id 1 3, DevNull); (make_dev_id 1 4, DevPort); (make_dev_id 1 5, DevZero); (make_dev_id 1 7, DevFull);
   (make_dev_id 1 8, DevRandom); (make_dev_id 1 9, DevUrandom); (make_dev_id 5 0, DevTty); (make_dev_id 5 1, DevConsole);
   (make_dev_id 5 2, DevPtmx); (make_dev_id 29 0, DevFb); (make_dev_id 13 64, DevEvent0); (make_dev_id 13 65, DevEvent1)].
Definition register_node_initializer {A} (major minor : Z) (create : A) (l : list (Z * A)) : list (Z * A) := l ++ [(make_dev_id major minor, create)].
Fixpoint create_node {A} (dev_id : Z) (l : list (Z * A)) : option A :=
  match l with [] => None | (d, create) :: l => if d =? dev_id then Some create else create_node dev_id l end.

(** A registered device is made for its own numbers, unless one was registered
    for them before, and for no others. *)
Lemma registered_node {A} major minor (c : A) l major' minor' :
  0 <= major < 2 ^ 32 -> 0 <= minor < 2 ^ 32 -> 0 <= major' < 2 ^ 32 -> 0 <= minor' < 2 ^ 32 ->
  create_node (make_dev_id major' minor') (register_node_initializer major minor c l)
  = match create_node (make_dev_id major' minor') l with
    | Some d => Some d
    | None => if (major' =? major) && (minor' =? minor) then Some c else None
    end.
Proof.
  intros H1 H2 H3 H4. induction l as [|[d e] l IH]; cbn [register_node_initializer app create_node].
  - destruct (Z.eqb_spec (make_dev_id major minor) (make_dev_id major' minor')) as [E|E].
    + pose proof (dev_id_parts major minor H1 H2) as [P1 P2]. pose proof (dev_id_parts major' minor' H3 H4) as [P3 P4]. rewrite E in P1, P2.
      rewrite <- P1, <- P2, P3, P4. by rewrite !Z.eqb_refl.
    + destruct (Z.eqb_spec major' major) as [->|]; [|done]. by destruct (Z.eqb_spec minor' minor) as [->|].
  - by destruct (d =? _).
Qed.

(** ** Block devices *)

Module Block.

(** [read_block] and [write_block] are the device's [read_write_block] in the two
    directions, with an error or the page read or the disk written; [unmapped]
    gives the error of a page of the caller's buffer that has no physical page. *)
Section Disk.
Context {D : Type} (read_block : Z -> D -> Z + list Z) (write_block : Z -> list Z -> D -> Z + D) (unmapped : Z -> option Z).

(** [read_write_blocks]: whole pages of the buffer at [buffer]. *)
Fixpoint read_blocks (blocks : list Z) (buffer : Z) (disk : D) : Z * list Z :=
  match blocks with
  | [] => (0, [])
  | b :: blocks =>
      match unmapped buffer with
      | Some err => (err, [])
      | None =>
          match read_block b disk with
          | inl err => (err, [])
          | inr p => let (r, bs) := read_blocks blocks (buffer + PAGE_SIZE) disk in (r, p ++ bs)
          end
      end
  end.
Fixpoint write_blocks (blocks : list Z) (buffer : Z) (buf : list Z) (disk : D) : Z * D :=
  match blocks with
  | [] => (0, disk)
  | b :: blocks =>
      match unmapped buffer with
      | Some err => (err, disk)
      | None =>
          match write_block b (take (Z.to_nat PAGE_SIZE) buf) disk with
          | inl err => (err, disk)
          | inr disk1 => write_blocks blocks (buffer + PAGE_SIZE) (drop (Z.to_nat PAGE_SIZE) buf) disk1
          end
      end
  end.

Definition block_range (offset n : Z) : list Z := seqZ (offset / PAGE_SIZE) n.

(** [read_write] for reading into the buffer at [buf_virt]: the result and the
    bytes stored, from the buffer's start. *)
Definition read_from (buf_virt count offset : Z) (disk : D) : Z * list Z :=
  let part := if buf_virt mod PAGE_SIZE =? 0 then 0 else Z.min (PAGE_SIZE - buf_virt mod PAGE_SIZE) count in
  let first := if buf_virt mod PAGE_SIZE =? 0 then inr []
               else match read_block (offset / PAGE_SIZE) disk with inl err => inl err | inr p => inr (take (Z.to_nat part) p) end in
  match first with
  | inl err => (err, [])
  | inr bs0 =>
      let count1 := count - part in
      let offset1 := offset + part in
      let n := count1 / PAGE_SIZE in
      let rest := count1 - n * PAGE_SIZE in
      if count1 =? 0 then (part, bs0)
      else
        let (r, bs1) := if n =? 0 then (0, []) else read_blocks (block_range offset1 n) (buf_virt + part) disk in
        if r <? 0 then (r, bs0 ++ bs1)
        else if rest =? 0 then (part + n * PAGE_SIZE, bs0 ++ bs1)
        else
          match read_block ((offset1 + n * PAGE_SIZE) / PAGE_SIZE) disk with
          | inl err => (err, bs0 ++ bs1)
          | inr p => (part + n * PAGE_SIZE + rest, bs0 ++ bs1 ++ take (Z.to_nat rest) p)
          end
  end.

(** [read_write] for writing: the temporary pages [tmp1] and [tmp2] are written
    to the disk first and filled with the caller's bytes after that. *)
Definition write_to (buf_virt : Z) (buf : list Z) (offset : Z) (tmp1 tmp2 : list Z) (disk : D) : Z * D :=
  let count := Z.of_nat (length buf) in
  let part := if buf_virt mod PAGE_SIZE =? 0 then 0 else Z.min (PAGE_SIZE - buf_virt mod PAGE_SIZE) count in
  let first := if buf_virt mod PAGE_SIZE =? 0 then inr disk else write_block (offset / PAGE_SIZE) tmp1 disk in
  match first with
  | inl err => (err, disk)
  | inr disk1 =>
      let count1 := count - part in
      let offset1 := offset + part in
      let n := count1 / PAGE_SIZE in
      let rest := count1 - n * PAGE_SIZE in
      if count1 =? 0 then (part, disk1)
      else
        let (r, disk2) := if n =? 0 then (0, disk1)
                          else write_blocks (block_range offset1 n) (buf_virt + part) (drop (Z.to_nat part) buf) disk1 in
        if r <? 0 then (r, disk2)
        else if rest =? 0 then (part + n * PAGE_SIZE, disk2)
        else
          match write_block ((offset1 + n * PAGE_SIZE) / PAGE_SIZE) tmp2 disk2 with
          | inl err => (err, disk2)
          | inr disk3 => (part + n * PAGE_SIZE + rest, disk3)
          end
  end.

(** *** What works: whole blocks, and reads that start a block *)

(** The blocks a disk holds; every one of them can be read and written. *)
Context (blocks_of : D -> list (list Z)).
Hypothesis read_ok : forall b d p, 0 <= b -> blocks_of d !! Z.to_nat b = Some p -> read_block b d = inr p.
Hypothesis write_ok : forall b p d, 0 <= b < Z.of_nat (length (blocks_of d)) ->
  exists d', write_block b p d = inr d' /\ blocks_of d' = <[Z.to_nat b := p]> (blocks_of d).
Hypothesis all_mapped : forall a, unmapped a = None.

Definition disk_ok (disk : list (list Z)) : Prop := Forall (fun p => Z.of_nat (length p) = PAGE_SIZE) disk.

Lemma drop_blocks k : forall disk, disk_ok disk -> drop (k * Z.to_nat PAGE_SIZE) (concat disk) = concat (drop k disk).
Proof.
  induction k as [|k IH]; intros disk Hd; [done|]. destruct Hd as [|p disk Hp Hd]; [by rewrite drop_nil|]. cbn [concat drop].
  replace (S k * Z.to_nat PAGE_SIZE)%nat with (length p + k * Z.to_nat PAGE_SIZE)%nat by lia.
  rewrite <- drop_drop, drop_app_length. by apply IH.
Qed.

Lemma take_blocks k : forall disk, disk_ok disk -> (k <= length disk)%nat -> take (k * Z.to_nat PAGE_SIZE) (concat disk) = concat (take k disk).
Proof.
  induction k as [|k IH]; intros disk Hd Hk; [done|]. destruct Hd as [|p disk Hp Hd]; [cbn in Hk; lia|]. cbn [concat take length] in *.
  replace (S k * Z.to_nat PAGE_SIZE)%nat with (length p + k * Z.to_nat PAGE_SIZE)%nat by lia. rewrite take_app_add. by rewrite IH by (done || lia).
Qed.

Lemma read_blocks_ok n : forall b a disk, 0 <= b -> b + Z.of_nat n <= Z.of_nat (length (blocks_of disk)) ->
  read_blocks (seqZ b (Z.of_nat n)) a disk = (0, concat (take n (drop (Z.to_nat b) (blocks_of disk)))).
Proof.
  induction n as [|n IH]; intros b a disk Hb Hn; [done|]. rewrite seqZ_cons by lia. cbn [read_blocks]. rewrite all_mapped.
  destruct (lookup_lt_is_Some_2 (blocks_of disk) (Z.to_nat b)) as [p Hp]; [lia|]. rewrite (read_ok b disk p Hb Hp).
  replace (Z.pred (Z.of_nat (S n))) with (Z.of_nat n) by lia. rewrite IH by lia. rewrite (drop_S _ _ _ Hp). cbn [take concat].
  by replace (Z.to_nat (Z.succ b)) with (S (Z.to_nat b)) by lia.
Qed.

(** A read into a buffer that starts a page, of any number of bytes from the
    start of a block, gives the disk's bytes. *)
Lemma read_from_spec buf_virt count b disk : buf_virt mod PAGE_SIZE = 0 -> 0 <= b -> 0 <= count -> disk_ok (blocks_of disk) ->
  b * PAGE_SIZE + count <= Z.of_nat (length (blocks_of disk)) * PAGE_SIZE ->
  read_from buf_virt count (b * PAGE_SIZE) disk = (count, sub (concat (blocks_of disk)) (b * PAGE_SIZE) count).
Proof.
  intros Hv Hb Hc Hd Hlen. unfold read_from. rewrite Hv. change (0 =? 0) with true. cbv iota zeta. rewrite Z.sub_0_r, !Z.add_0_r.
  unfold sub. replace (Z.to_nat (b * PAGE_SIZE)) with (Z.to_nat b * Z.to_nat PAGE_SIZE)%nat by (unfold PAGE_SIZE; lia). rewrite drop_blocks by done.
  destruct (Z.eqb_spec count 0) as [->|Hne]; [done|].
  set (n := count / PAGE_SIZE). pose proof (Z.div_mod count PAGE_SIZE ltac:(done)) as Hdm. fold n in Hdm.
  pose proof (Z.mod_pos_bound count PAGE_SIZE ltac:(done)) as Hm. assert (0 <= n) by (apply Z.div_pos; [lia|done]).
  assert ((if n =? 0 then (0, []) else read_blocks (block_range (b * PAGE_SIZE) n) buf_virt disk)
    = (0, concat (take (Z.to_nat n) (drop (Z.to_nat b) (blocks_of disk))))) as ->.
  { destruct (Z.eqb_spec n 0) as [->|]; [done|]. unfold block_range. rewrite Z.div_mul by done.
    rewrite <- (Z2Nat.id n) at 1 by lia. apply read_blocks_ok; [lia|]. unfold PAGE_SIZE in *. lia. }
  cbn [app]. change (0 <? 0) with false. cbv iota. set (rest := count - n * PAGE_SIZE).
  assert (disk_ok (drop (Z.to_nat b) (blocks_of disk))) as Hdd by (by apply Forall_drop).
  destruct (Z.eqb_spec rest 0) as [Er|Er].
  - f_equal; [unfold rest in Er; lia|]. rewrite <- take_blocks by (rewrite ?length_drop; unfold PAGE_SIZE in *; try done; lia).
    f_equal. unfold rest, PAGE_SIZE in *. lia.
  - rewrite Z.div_add, Z.div_mul by done.
    destruct (lookup_lt_is_Some_2 (blocks_of disk) (Z.to_nat (b + n))) as [p Hp]; [unfold rest, PAGE_SIZE in *; lia|].
    rewrite (read_ok (b + n) disk p) by (done || lia). f_equal; [unfold rest; lia|].
    replace (Z.to_nat count) with (Z.to_nat n * Z.to_nat PAGE_SIZE + Z.to_nat rest)%nat by (unfold rest, PAGE_SIZE in *; lia).
    rewrite take_add. rewrite take_blocks by (rewrite ?length_drop; unfold PAGE_SIZE in *; try done; lia). f_equal.
    rewrite drop_blocks by done. rewrite drop_drop. replace (Z.to_nat b + Z.to_nat n)%nat with (Z.to_nat (b + n)) by lia.
    rewrite (drop_S _ _ _ Hp). cbn [concat]. rewrite take_app_le; [done|].
    unfold disk_ok in Hd. rewrite Forall_lookup in Hd. pose proof (Hd _ _ Hp). unfold rest, PAGE_SIZE in *. lia.
Qed.

(** Whole blocks written one after another. *)
Lemma write_blocks_ok n : forall b a buf disk, 0 <= b -> b + Z.of_nat n <= Z.of_nat (length (blocks_of disk)) ->
  length buf = (n * Z.to_nat PAGE_SIZE)%nat -> disk_ok (blocks_of disk) ->
  exists disk', write_blocks (seqZ b (Z.of_nat n)) a buf disk = (0, disk') /\ length (blocks_of disk') = length (blocks_of disk) /\
    disk_ok (blocks_of disk') /\ take (Z.to_nat b) (blocks_of disk') = take (Z.to_nat b) (blocks_of disk) /\
    concat (take n (drop (Z.to_nat b) (blocks_of disk'))) = buf /\
    drop (Z.to_nat b + n) (blocks_of disk') = drop (Z.to_nat b + n) (blocks_of disk).
Proof.
  induction n as [|n IH]; intros b a buf disk Hb Hn Hl Hd.
  { exists disk. destruct buf; [|done]. by rewrite take_0. }
  rewrite seqZ_cons by lia. cbn [write_blocks]. rewrite all_mapped.
  destruct (write_ok b (take (Z.to_nat PAGE_SIZE) buf) disk ltac:(lia)) as (d1 & -> & H1).
  replace (Z.pred (Z.of_nat (S n))) with (Z.of_nat n) by lia.
  assert (disk_ok (blocks_of d1)) as Hd1.
  { rewrite H1. apply Forall_insert; [done|]. rewrite length_take. unfold PAGE_SIZE in *. lia. }
  destruct (IH (Z.succ b) (a + PAGE_SIZE) (drop (Z.to_nat PAGE_SIZE) buf) d1) as (d' & -> & L & K & T & C & R);
    [lia|rewrite H1, length_insert; lia|rewrite length_drop; lia|done|].
  replace (Z.to_nat (Z.succ b)) with (S (Z.to_nat b)) in * by lia. rewrite H1, length_insert in L.
  assert (blocks_of d' !! Z.to_nat b = Some (take (Z.to_nat PAGE_SIZE) buf)) as Hat.
  { rewrite <- (lookup_take_lt _ (S (Z.to_nat b))) by lia. rewrite T, lookup_take_lt by lia. rewrite H1. apply list_lookup_insert_eq. lia. }
  exists d'. split; [done|]. split; [done|]. split; [done|]. split; [|split].
  - apply (f_equal (take (Z.to_nat b))) in T. rewrite !take_take in T. rewrite !Nat.min_l in T by lia. rewrite T, H1. by rewrite take_insert_ge.
  - rewrite (drop_S _ _ _ Hat). cbn [take concat]. rewrite C. apply take_drop.
  - replace (Z.to_nat b + S n)%nat with (S (Z.to_nat b) + n)%nat by lia. rewrite R, H1. by rewrite drop_insert_lt by lia.
Qed.

(** Whole blocks written from a buffer that starts a page are read back, and the
    blocks around them stay. *)
Theorem write_read_roundtrip buf_virt buf_virt' buf b tmp1 tmp2 disk n :
  buf_virt mod PAGE_SIZE = 0 -> buf_virt' mod PAGE_SIZE = 0 -> 0 <= b -> disk_ok (blocks_of disk) ->
  Z.of_nat (length buf) = n * PAGE_SIZE -> b + n <= Z.of_nat (length (blocks_of disk)) ->
  exists disk', write_to buf_virt buf (b * PAGE_SIZE) tmp1 tmp2 disk = (Z.of_nat (length buf), disk') /\
    read_from buf_virt' (Z.of_nat (length buf)) (b * PAGE_SIZE) disk' = (Z.of_nat (length buf), buf) /\
    take (Z.to_nat b) (blocks_of disk') = take (Z.to_nat b) (blocks_of disk) /\
    drop (Z.to_nat (b + n)) (blocks_of disk') = drop (Z.to_nat (b + n)) (blocks_of disk).
Proof.
  intros Hv Hv' Hb Hd Hl Hn. assert (0 <= n) by (unfold PAGE_SIZE in *; lia).
  destruct (write_blocks_ok (Z.to_nat n) b buf_virt buf disk) as (d' & Hw & L & K & T & C & R);
    [done|lia|unfold PAGE_SIZE in *; lia|done|]. rewrite Z2Nat.id in Hw by lia.
  exists d'. split; [|split; [|split; [done|]]].
  - unfold write_to. rewrite Hv. change (0 =? 0) with true. cbv iota zeta. rewrite Hl, Z.sub_0_r, !Z.add_0_r, Z.div_mul, Z.sub_diag by done.
    destruct (Z.eqb_spec (n * PAGE_SIZE) 0) as [E|E].
    + assert (n = 0) as -> by (unfold PAGE_SIZE in *; lia). cbn in Hw. injection Hw as ->. by rewrite E.
    + destruct (Z.eqb_spec n 0) as [->|]; [done|]. change (Z.to_nat 0) with 0%nat. rewrite drop_0. unfold block_range. rewrite Z.div_mul by done.
      rewrite Hw. change (0 <? 0) with false. cbn [Z.eqb]. by rewrite Z.add_0_l.
  - rewrite read_from_spec by (rewrite ?L, ?Hl; unfold PAGE_SIZE in *; try done; lia). f_equal. unfold sub.
    replace (Z.to_nat (b * PAGE_SIZE)) with (Z.to_nat b * Z.to_nat PAGE_SIZE)%nat by (unfold PAGE_SIZE; lia).
    rewrite drop_blocks by done. replace (Z.to_nat (Z.of_nat (length buf))) with (Z.to_nat n * Z.to_nat PAGE_SIZE)%nat by (unfold PAGE_SIZE in *; lia).
    rewrite take_blocks by (rewrite ?length_drop; try (by apply Forall_drop); lia). done.
  - replace (Z.to_nat (b + n)) with (Z.to_nat b + Z.to_nat n)%nat by lia. done.
Qed.
End Disk.

(** *** A disk in memory *)

Definition list_read (b : Z) (d : list (list Z)) : Z + list Z := match d !! Z.to_nat b with Some p => inr p | None => inl (-5) end.
Definition list_write (b : Z) (p : list Z) (d : list (list Z)) : Z + list (list Z) := inr (<[Z.to_nat b := p]> d).

Lemma write_read_roundtrip_witness :
  exists d', write_to list_write (fun _ => None) 8192 (replicate 4096 7) 4096 [] [] (replicate 3 (replicate 4096 0)) = (4096, d') /\
    read_from list_read (fun _ => None) 12288 4096 4096 d' = (4096, replicate 4096 7).
Proof.
  destruct (write_read_roundtrip list_read list_write (fun _ => None) id) with (buf_virt := 8192) (buf_virt' := 12288) (buf := replicate 4096 7)
    (b := 1) (tmp1 := @nil Z) (tmp2 := @nil Z) (disk := replicate 3 (replicate 4096 0)) (n := 1) as (d' & H1 & H2 & _).
  - intros b d p _ H. change (d !! Z.to_nat b = Some p) in H. unfold list_read. by rewrite H.
  - intros b p d _. by exists (<[Z.to_nat b := p]> d).
  - done.
  - reflexivity.
  - reflexivity.
  - lia.
  - unfold disk_ok. cbn [id]. apply Forall_replicate. by rewrite length_replicate.
  - by rewrite length_replicate.
  - cbn [id]. rewrite length_replicate. lia.
  - exists d'. split; [exact H1|exact H2].
Defined.

(** What does not work: a write of part of a block writes the temporary page
    before the caller's bytes are in it, and a read that does not start a block,
    or goes to a buffer that does not start a page, gives the bytes of another
    place. *)
Lemma partial_write_lost : snd (write_to list_write (fun _ => None) 8192 [1; 2; 3] 0 [] (replicate 4 9) [[0; 0; 0; 0]]) = [replicate 4 9].
Proof. reflexivity. Qed.
Lemma read_inside_block : read_from list_read (fun _ => None) 8192 2 2 [[1; 2; 3; 4]] = (2, [1; 2]).
Proof. reflexivity. Qed.
End Block.
