(* ===== verification/Framebuffer.v ===== *)
(** The frame buffer (src/kernel/src/gfx/framebuffer.hpp, framebuffer.cpp), its
    device node, and the characters the terminal draws on it (Font and
    draw_psf_char, src/kernel/src/gfx/terminal.hpp, terminal.cpp).

    The memory of the display is a list of bytes; a store outside it is [None],
    like a loop that does not end. *)
From S2P Require Import Prelude VNode PageTable AddressSpace MemSyscalls Terminal.

Record Framebuffer : Type := mkFb {
  fb_mem : list Z; fb_width : Z; fb_height : Z; pitch : Z; pixel_width : Z;
  red_mask : Z * Z; green_mask : Z * Z; blue_mask : Z * Z
}.
Definition with_mem (m : list Z) (fb : Framebuffer) : Framebuffer :=
  mkFb m (fb_width fb) (fb_height fb) (pitch fb) (pixel_width fb) (red_mask fb) (green_mask fb) (blue_mask fb).

(** Masks are pairs of size and shift. *)
Definition from_limine_fb (mem : list Z) (width height pitch bpp : Z) (red green blue : Z * Z) : Framebuffer :=
  mkFb mem (u32 width) (u32 height) (u32 pitch) (u32 bpp / 8) red green blue.

Definition poke (a : Z) (bs m : list Z) : option (list Z) :=
  if (0 <=? a) && (a + Z.of_nat (length bs) <=? Z.of_nat (length m)) then Some (blit a bs m) else None.
Definition bgr (rgb : Z) : list Z := [Z.land rgb 255; Z.land (Z.shiftr rgb 8) 255; Z.land (Z.shiftr rgb 16) 255].

Definition put_pixel (x y rgb : Z) (fb : Framebuffer) : option Framebuffer :=
  if (fb_width fb <? x) || (fb_height fb <? y) then Some fb
  else
    m ← poke (u32 (u32 (x * pixel_width fb) + u32 (y * pitch fb))) (bgr rgb) (fb_mem fb);
    Some (with_mem m fb).

(** The loops have indices of sixteen bits: one whose bound they cannot reach
    does not end. *)
Definition fill_rect (x y w h rgb : Z) (fb : Framebuffer) : option Framebuffer :=
  if 65535 <? h + y then None
  else
    m ← each (fun i m =>
        if fb_height fb <=? i then Some m
        else if 65535 <? w + x then None
        else each (fun j m =>
            if fb_width fb <=? j then Some m
            else poke (u32 (pitch fb * i) + u32 (j * pixel_width fb)) (bgr rgb) m) (seqZ x w) m)
      (seqZ y h) (fb_mem fb);
    Some (with_mem m fb).

(** ** Fonts *)

Record Font : Type := mkFont { f_data : list Z; f_width : Z; f_height : Z; num_glyph : Z; bytes_per_glyph : Z }.

Definition psf1_magic : Z := 1078.
Definition psf2_magic : Z := 2253043058.
(** The font at the memory [header]; its data runs to the end of the file. *)
Definition Font_init (header : list Z) : option Font :=
  let word off := le_combine (sub header off 4) in
  if le_combine (sub header 0 2) =? psf1_magic then
    Some (mkFont (drop 4 header) 8 16 (if Z.land (nth 2 header 0) 1 =? 0 then 256 else 512) (nth 3 header 0))
  else if word 0 =? psf2_magic then
    Some (mkFont (drop (Z.to_nat (word 8)) header) (word 28) (word 24) (word 16) (word 20))
  else None.

(** The colour of the dot [x], [y] of a glyph. *)
Definition glyph_start (f : Font) (c : Z) : Z := u32 ((if c <? num_glyph f then c else 0) * bytes_per_glyph f).
Definition dot (f : Font) (c x y fg bg : Z) : option Z :=
  let bytes_per_line := (f_width f + 7) / 8 in
  b ← f_data f !! Z.to_nat (glyph_start f c + y * bytes_per_line);
  Some (if Z.land b (Z.shiftr (Z.shiftl 1 (f_width f - 1)) x) =? 0 then bg else fg).

Definition draw_psf_char (f : Font) (c cx cy offx offy fg bg : Z) (fb : Framebuffer) : option Framebuffer :=
  let start := u32 (u32 (u32 (u32 (cy * f_height f) + offy) * pitch fb) + u32 (u32 (u32 (cx * f_width f) + offx) * 4)) in
  m ← each (fun y m => each (fun x m =>
        color ← dot f c x y fg bg;
        poke (start + y * pitch fb + x * pixel_width fb) (le_split 4 color) m) (seqZ 0 (f_width f)) m)
      (seqZ 0 (f_height f)) (fb_mem fb);
  Some (with_mem m fb).

(** ** What a terminal draws *)

Definition draw_char_at (regular bold : Font) (px py cx cy c fg bg : Z) (fb : Framebuffer) : option Framebuffer :=
  draw_psf_char (if has fg bold_flag then bold else regular) (u32 c) (u16 cx) (u16 cy) (u16 px) (u16 py) (Z.land fg 16777215) bg fb.
Definition paint (regular bold : Font) (px py : Z) (d : Draw) (fb : Framebuffer) : option Framebuffer :=
  match d with
  | DrawChar cx cy c fg bg => draw_char_at regular bold px py cx cy c fg bg fb
  | FillRect x y w h color => fill_rect x y w h color fb
  end.
(** The terminal keeps what it drew with the newest first. *)
Definition paint_all (regular bold : Font) (px py : Z) (ds : list Draw) (fb : Framebuffer) : option Framebuffer :=
  each (paint regular bold px py) (rev ds) fb.

(** ** The device node *)

Definition node_size (fb : Framebuffer) : Z := u32 (fb_height fb * pitch fb).
Definition clipped (count offset size : Z) : Z := if size <? u64 (offset + count) then size - offset else count.

Definition FramebufferDevNode_read (count offset : Z) (fb : Framebuffer) : option (Z * list Z) :=
  let size := node_size fb in
  if size <=? offset then Some (0, [])
  else
    let n := clipped count offset size in
    if Z.of_nat (length (fb_mem fb)) <? offset + n then None else Some (n, sub (fb_mem fb) offset n).
Definition FramebufferDevNode_write (buf : list Z) (offset : Z) (fb : Framebuffer) : option (Z * Framebuffer) :=
  let size := node_size fb in
  if size <=? offset then Some (0, fb)
  else
    let n := clipped (Z.of_nat (length buf)) offset size in
    m ← poke offset (take (Z.to_nat n) buf) (fb_mem fb); Some (n, with_mem m fb).

(** What is put under the page map: the address, the length, the flags and the
    physical address of the memory at [phy]. *)
Definition FramebufferDevNode_mmap (addr length prot phy : Z) (s : Pagemap) : Z * option Pagemap :=
  (addr, map_direct addr length (Z.lor (mmap_prot_to_page_flags prot) PAGE_WRITE_COMBINING) phy s).

Definition FBIOGET_VSCREENINFO : Z := 17920.
Definition FBIOPUT_VSCREENINFO : Z := 17921.
Definition FBIOGET_FSCREENINFO : Z := 17922.
Definition FBIOPUTCMAP : Z := 17925.
Definition FBIOBLANK : Z := 17937.
Definition limine_fb : list Z := [76; 105; 109; 105; 110; 101; 32; 70; 66; 0].
Definition VNode_ioctl (cmd : Z) : Z :=
  if (cmd =? 21505) || (cmd =? 21506) || (cmd =? 21518) || (cmd =? 21523) then - ENOTTY else - EINVAL.

(** The result and the words stored behind the argument, by their offsets. *)
Definition FramebufferDevNode_ioctl (cmd : Z) (fb : Framebuffer) : Z * list (Z * list Z) :=
  let word off v := (off, le_split 4 v) in
  if (cmd =? FBIOBLANK) || (cmd =? FBIOPUT_VSCREENINFO) || (cmd =? FBIOPUTCMAP) then (0, [])
  else if cmd =? FBIOGET_FSCREENINFO then
    (0, [(0, limine_fb); word 24 (u32 (pitch fb * fb_height fb)); word 28 0; word 36 2; word 48 (pitch fb);
         word 64 (u32 (pitch fb * fb_height fb))])
  else if cmd =? FBIOGET_VSCREENINFO then
    (0, [word 0 (fb_width fb); word 4 (fb_height fb); word 8 (fb_width fb); word 12 (fb_height fb); word 24 (u32 (pixel_width fb * 8));
         word 40 1; word 52 1; word 64 1; word 76 1;
         word 32 (snd (red_mask fb)); word 36 (fst (red_mask fb)); word 56 (snd (blue_mask fb)); word 60 (fst (blue_mask fb));
         word 44 (snd (green_mask fb)); word 48 (fst (green_mask fb)); word 88 4294967295; word 92 4294967295])
  else (VNode_ioctl cmd, []).

(** ** Pixels *)

Section Pixels.
Context (width height ptch : Z).
Hypothesis geometry : 0 <= width /\ 0 <= height /\ 4 * width <= ptch /\ ptch * height < 2 ^ 32.

Definition pixel_at (x y : Z) : Z := y * ptch + x * 4.
(** The colour of a pixel of four bytes: its first three. *)
Definition pixel (m : list Z) (x y : Z) : Z := le_combine (sub m (pixel_at x y) 3).
Definition on_screen (x y : Z) : Prop := 0 <= x < width /\ 0 <= y < height.
Definition mem_ok (m : list Z) : Prop := Z.of_nat (length m) = ptch * height.

Lemma pixel_at_range x y : on_screen x y -> 0 <= pixel_at x y /\ pixel_at x y + 4 <= ptch * height.
Proof. unfold on_screen, pixel_at. nia. Qed.

Lemma pixels_apart x y x' y' : on_screen x y -> on_screen x' y' -> (x, y) <> (x', y') ->
  pixel_at x y + 4 <= pixel_at x' y' \/ pixel_at x' y' + 4 <= pixel_at x y.
Proof.
  unfold on_screen, pixel_at. intros H H' Hne. destruct (Z.lt_total y y') as [Hy|[->|Hy]]; [left; nia| |right; nia].
  destruct (Z.lt_total x x') as [Hx|[->|Hx]]; [left; nia|done|right; nia].
Qed.

(** [m'] shows what [m] does, but for the colours of [g]. *)
Definition looks (m m' : list Z) (g : Z -> Z -> option Z) : Prop :=
  mem_ok m' /\ forall x y, on_screen x y -> pixel m' x y = match g x y with Some c => c | None => pixel m x y end.

Lemma poke_pixel m x y bs : mem_ok m -> on_screen x y -> (3 <= length bs <= 4)%nat ->
  exists m', poke (pixel_at x y) bs m = Some m' /\
    looks m m' (fun x' y' => if (x' =? x) && (y' =? y) then Some (le_combine (take 3 bs)) else None).
Proof.
  intros Hm Hs Hb. pose proof (pixel_at_range x y Hs) as [R1 R2]. unfold mem_ok in Hm. unfold poke.
  destruct (Z.leb_spec 0 (pixel_at x y)); [|lia]. destruct (Z.leb_spec (pixel_at x y + Z.of_nat (length bs)) (Z.of_nat (length m))); [|lia].
  cbn [andb]. eexists. split; [done|]. split; [unfold mem_ok; by rewrite blit_length|]. intros x' y' Hs'.
  pose proof (pixel_at_range x' y' Hs') as [R1' R2']. unfold pixel.
  destruct (decide ((x', y') = (x, y))) as [[= -> ->]|Hne].
  - rewrite !Z.eqb_refl. cbn [andb]. f_equal. apply list_eq. intros i. destruct (decide (i < 3)%nat) as [Hi|Hi].
    + rewrite sub_lookup, lookup_take_lt by lia. rewrite blit_lookup_in by lia. f_equal. lia.
    + rewrite !lookup_ge_None_2; [done|rewrite length_take; lia|]. unfold sub. rewrite length_take. lia.
  - destruct ((x' =? x) && (y' =? y)) eqn:E; [apply andb_true_iff in E as [E1 E2]; apply Z.eqb_eq in E1, E2; congruence|].
    f_equal. apply list_eq. intros i. destruct (decide (i < 3)%nat) as [Hi|Hi].
    + rewrite !sub_lookup by lia. apply blit_lookup_out. pose proof (pixels_apart x' y' x y Hs' Hs Hne). lia.
    + rewrite !lookup_ge_None_2; [done| |]; unfold sub; rewrite length_take; lia.
Qed.

Lemma looks_same m : mem_ok m -> looks m m (fun _ _ => None).
Proof. by split. Qed.

Lemma looks_trans m m1 m2 g g1 : looks m m1 g -> looks m1 m2 g1 ->
  looks m m2 (fun x y => match g1 x y with Some c => Some c | None => g x y end).
Proof.
  intros [_ H1] [Hm H2]. split; [done|]. intros x y Hs. rewrite (H2 x y Hs). destruct (g1 x y); [done|]. by apply H1.
Qed.

Lemma looks_ext m m' g g' : looks m m' g -> (forall x y, on_screen x y -> g x y = g' x y) -> looks m m' g'.
Proof. intros [Hm H] He. split; [done|]. intros x y Hs. rewrite (H x y Hs). by rewrite (He x y Hs). Qed.

(** A loop whose turn [k] draws [g k] draws for every pixel the colour of the
    last turn that has one. *)
Lemma each_looks (f : Z -> list Z -> option (list Z)) (g : Z -> Z -> Z -> option Z) a n m :
  (forall k m, a <= k < a + n -> mem_ok m -> exists m', f k m = Some m' /\ looks m m' (g k)) -> 0 <= n -> mem_ok m ->
  exists m', each f (seqZ a n) m = Some m' /\ mem_ok m' /\
    forall x y, on_screen x y ->
      (forall k, a <= k < a + n -> g k x y = None) /\ pixel m' x y = pixel m x y \/
      exists k, a <= k < a + n /\ g k x y = Some (pixel m' x y).
Proof.
  intros Hf Hn Hm.
  destruct (each_count (fun i m' => mem_ok m' /\ forall x y, on_screen x y ->
      (forall k, a <= k < i -> g k x y = None) /\ pixel m' x y = pixel m x y \/
      exists k, a <= k < i /\ g k x y = Some (pixel m' x y)) f a n m) as (m' & E & Hm' & H); [|done| |by exists m'].
  - intros i s Hi [Hs Hp]. destruct (Hf i s Hi Hs) as (s' & E & Hs' & Hl). exists s'. split; [done|]. split; [done|].
    intros x y Hxy. specialize (Hl x y Hxy). destruct (g i x y) as [c|] eqn:Eg.
    + right. exists i. split; [lia|]. by rewrite Hl.
    + rewrite Hl. destruct (Hp x y Hxy) as [[H1 H2]|(k & Hk & H2)].
      * left. split; [|done]. intros k Hk. destruct (decide (k = i)) as [->|]; [done|]. apply H1. lia.
      * right. exists k. split; [lia|done].
  - split; [done|]. intros x y Hxy. left. split; [|done]. intros k Hk. lia.
Qed.

Lemma each_looks_as (f : Z -> list Z -> option (list Z)) (g : Z -> Z -> Z -> option Z) (G : Z -> Z -> option Z) a n m :
  (forall k m, a <= k < a + n -> mem_ok m -> exists m', f k m = Some m' /\ looks m m' (g k)) -> 0 <= n -> mem_ok m ->
  (forall x y, on_screen x y -> (forall k, a <= k < a + n -> g k x y = None) -> G x y = None) ->
  (forall k x y c, a <= k < a + n -> on_screen x y -> g k x y = Some c -> G x y = Some c) ->
  exists m', each f (seqZ a n) m = Some m' /\ looks m m' G.
Proof.
  intros Hf Hn Hm H0 H1. destruct (each_looks f g a n m Hf Hn Hm) as (m' & E & Hm' & H). exists m'. split; [done|]. split; [done|].
  intros x y Hxy. destruct (H x y Hxy) as [[Hk Hp]|(k & Hk & Hg)]; [by rewrite (H0 x y Hxy Hk)|by rewrite (H1 k x y _ Hk Hxy Hg)].
Qed.
End Pixels.

(** A frame buffer of pixels of four bytes, as large as its lines. *)
Definition fb_ok (fb : Framebuffer) : Prop :=
  0 <= fb_width fb /\ 0 <= fb_height fb /\ 4 * fb_width fb <= pitch fb /\ pitch fb * fb_height fb < 2 ^ 32 /\
  Z.of_nat (length (fb_mem fb)) = pitch fb * fb_height fb /\ pixel_width fb = 4.
Definition fb_pixel (fb : Framebuffer) (x y : Z) : Z := pixel (pitch fb) (fb_mem fb) x y.
Definition visible (fb : Framebuffer) (x y : Z) : Prop := on_screen (fb_width fb) (fb_height fb) x y.

(** [fb'] shows what [fb] does, but for the colours of [g]. *)
Definition draws (fb fb' : Framebuffer) (g : Z -> Z -> option Z) : Prop :=
  fb_ok fb' /\ fb' = with_mem (fb_mem fb') fb /\
  forall x y, visible fb x y -> fb_pixel fb' x y = match g x y with Some c => c | None => fb_pixel fb x y end.

Lemma bgr_colour rgb : 0 <= rgb -> le_combine (take 3 (bgr rgb)) = rgb mod 2 ^ 24.
Proof.
  intros H. change (take 3 (bgr rgb)) with (bgr rgb). unfold bgr. change (le_combine [?a; ?b; ?c]) with (a + 256 * (b + 256 * (c + 256 * 0))).
  change 255 with (Z.ones 8). rewrite !Z.land_ones, !Z.shiftr_div_pow2 by lia. change (2 ^ 8) with 256. change (2 ^ 16) with (256 * 256). change (2 ^ 24) with (256 * (256 * 256)).
  rewrite <- (Z.div_div rgb 256 256) by lia. rewrite !Z.rem_mul_r by lia. lia.
Qed.

Definition in_rect (x0 y0 w h x y : Z) : bool := (x0 <=? x) && (x <? x0 + w) && (y0 <=? y) && (y <? y0 + h).

Lemma fill_rect_draws x0 y0 w h rgb fb : fb_ok fb -> 0 <= x0 -> 0 <= y0 -> 0 <= w -> 0 <= h -> x0 + w <= 65535 -> y0 + h <= 65535 -> 0 <= rgb ->
  exists fb', fill_rect x0 y0 w h rgb fb = Some fb' /\
    draws fb fb' (fun x y => if in_rect x0 y0 w h x y then Some (rgb mod 2 ^ 24) else None).
Proof.
  intros (Hw & Hh & Hp & Hs & Hl & H4) Hx0 Hy0 Hw0 Hh0 Hxw Hyh Hrgb. unfold fill_rect. destruct (Z.ltb_spec 65535 (h + y0)) as [|_]; [lia|].
  set (W := fb_width fb) in *. set (H := fb_height fb) in *. set (P := pitch fb) in *.
  assert (geo : 0 <= W /\ 0 <= H /\ 4 * W <= P /\ P * H < 2 ^ 32) by done.
  set (row i x y := if (y =? i) && (x0 <=? x) && (x <? x0 + w) then Some (rgb mod 2 ^ 24) else None : option Z).
  destruct (each_looks_as W H P (fun i m =>
      if H <=? i then Some m
      else if 65535 <? w + x0 then None
      else each (fun j m => if W <=? j then Some m else poke (u32 (P * i) + u32 (j * pixel_width fb)) (bgr rgb) m) (seqZ x0 w) m)
    row (fun x y => if in_rect x0 y0 w h x y then Some (rgb mod 2 ^ 24) else None) y0 h (fb_mem fb)) as (m' & E & Hl').
  - intros i m Hi Hm. destruct (Z.leb_spec H i).
    { exists m. split; [done|]. split; [done|]. intros x y [Hx Hy]. unfold row. destruct (Z.eqb_spec y i); [lia|]. done. }
    destruct (Z.ltb_spec 65535 (w + x0)); [lia|].
    apply (each_looks_as W H P _ (fun j x y => if (x =? j) && (y =? i) then Some (rgb mod 2 ^ 24) else None)); [|done|done| |].
    + intros j m1 Hj Hm1. destruct (Z.leb_spec W j).
      { exists m1. split; [done|]. split; [done|]. intros x y [Hx Hy]. destruct (Z.eqb_spec x j); [lia|]. done. }
      assert (on_screen W H j i) as Hji by (unfold on_screen; lia).
      destruct (pixel_at_range W H P geo j i Hji) as [R1 R2]. unfold pixel_at in R1, R2.
      destruct (poke_pixel W H P geo m1 j i (bgr rgb) Hm1 Hji ltac:(cbn; lia)) as (m2 & E2 & L2).
      exists m2. rewrite H4. rewrite !u32_small by nia. replace (P * i + j * 4) with (pixel_at P j i) by (unfold pixel_at; lia).
      split; [done|]. rewrite bgr_colour in L2 by lia. done.
    + intros x y Hxy Hno. unfold row. destruct ((y =? i) && (x0 <=? x) && (x <? x0 + w)) eqn:Er; [|done].
      rewrite !andb_true_iff in Er. destruct Er as [[E1 E2] E3]. specialize (Hno x ltac:(lia)). by rewrite Z.eqb_refl, E1 in Hno.
    + intros j x y c Hj Hxy Hg. unfold row. destruct ((x =? j) && (y =? i)) eqn:Er; [|done]. apply andb_true_iff in Er as [E1 E2].
      rewrite E2. destruct (Z.leb_spec x0 x), (Z.ltb_spec x (x0 + w)); try lia. done.
  - done.
  - done.
  - intros x y Hxy Hno. destruct (in_rect x0 y0 w h x y) eqn:Er; [|done]. unfold in_rect in Er. rewrite !andb_true_iff in Er.
    destruct Er as [[[E1 E2] E3] E4]. specialize (Hno y ltac:(lia)). unfold row in Hno. by rewrite Z.eqb_refl, E1, E2 in Hno.
  - intros i x y c Hi Hxy Hg. unfold row in Hg. destruct ((y =? i) && (x0 <=? x) && (x <? x0 + w)) eqn:Er; [|done].
    rewrite !andb_true_iff in Er. destruct Er as [[E1 E2] E3]. unfold in_rect. rewrite E2, E3. destruct (Z.leb_spec y0 y), (Z.ltb_spec y (y0 + h)); try lia. done.
  - rewrite E. cbn [mbind option_bind]. eexists. split; [done|]. destruct Hl' as [Hm' Hl']. split; [|split; [done|]].
    + repeat (split; [done|]). done.
    + intros x y Hxy. apply (Hl' x y Hxy).
Qed.

(** *** Characters *)

(** A font whose glyphs lie in its data. *)
Definition font_ok (f : Font) : Prop :=
  0 < f_width f /\ 0 < f_height f /\ 0 < num_glyph f /\ f_height f * ((f_width f + 7) / 8) <= bytes_per_glyph f /\
  num_glyph f * bytes_per_glyph f <= Z.of_nat (length (f_data f)) < 2 ^ 32.

Lemma dot_total f c x y fg bg : font_ok f -> 0 <= c -> 0 <= y < f_height f -> exists v, dot f c x y fg bg = Some v /\ (v = fg \/ v = bg).
Proof.
  intros (Hw & Hh & Hn & Hb & Hd) Hc Hy. unfold dot, glyph_start. set (k := if c <? num_glyph f then c else 0).
  assert (0 <= k < num_glyph f) as Hk by (unfold k; destruct (Z.ltb_spec c (num_glyph f)); lia).
  assert (1 <= (f_width f + 7) / 8) as Hl by (apply Z.div_le_lower_bound; lia). set (bl := (f_width f + 7) / 8) in *.
  assert (k * bytes_per_glyph f + bytes_per_glyph f <= num_glyph f * bytes_per_glyph f) as Hg by nia.
  assert (0 <= y * bl < bytes_per_glyph f) as Hyl by nia. rewrite u32_small by nia.
  destruct (lookup_lt_is_Some_2 (f_data f) (Z.to_nat (k * bytes_per_glyph f + y * bl))) as [b ->]; [nia|].
  cbn [mbind option_bind]. eexists. split; [done|]. destruct (_ =? 0); auto.
Qed.

Lemma word_colour v : 0 <= v -> le_combine (take 3 (le_split 4 v)) = v mod 2 ^ 24.
Proof.
  intros Hv. change (take 3 (le_split 4 v)) with (le_split 3 v). rewrite le_combine_split. done.
Qed.

Definition char_colour (f : Font) (c cx cy offx offy fg bg x y : Z) : option Z :=
  if in_rect (cx * f_width f + offx) (cy * f_height f + offy) (f_width f) (f_height f) x y
  then v ← dot f c (x - (cx * f_width f + offx)) (y - (cy * f_height f + offy)) fg bg; Some (v mod 2 ^ 24)
  else None.

Lemma draw_psf_char_draws f c cx cy offx offy fg bg fb : fb_ok fb -> font_ok f -> 0 <= c -> 0 <= cx -> 0 <= cy -> 0 <= offx -> 0 <= offy ->
  0 <= fg -> 0 <= bg -> cx * f_width f + offx + f_width f <= fb_width fb -> cy * f_height f + offy + f_height f <= fb_height fb ->
  exists fb', draw_psf_char f c cx cy offx offy fg bg fb = Some fb' /\ draws fb fb' (char_colour f c cx cy offx offy fg bg).
Proof.
  intros (Hw & Hh & Hp & Hs & Hl & H4) Hf Hc Hcx Hcy Hox Hoy Hfg Hbg Hx1 Hy1. pose proof Hf as (Fw & Fh & _).
  unfold draw_psf_char, char_colour. set (W := fb_width fb) in *. set (Hg := fb_height fb) in *. set (P := pitch fb) in *.
  set (fw := f_width f) in *. set (fh := f_height f) in *.
  assert (geo : 0 <= W /\ 0 <= Hg /\ 4 * W <= P /\ P * Hg < 2 ^ 32) by done.
  set (x0 := cx * fw + offx) in *. set (y0 := cy * fh + offy) in *. assert (0 <= x0 /\ 0 <= y0) as [X0 Y0] by (unfold x0, y0; nia).
  assert (u32 (u32 (u32 (u32 (cy * fh) + offy) * P) + u32 (u32 (u32 (cx * fw) + offx) * 4)) = pixel_at P x0 y0) as ->.
  { assert (0 <= cx * fw /\ 0 <= cy * fh) as [Mx My] by nia.
    assert (x0 + fw <= W /\ y0 + fh <= Hg) as [Ex Ey] by (unfold x0, y0; lia).
    assert (P <= P * Hg) by nia. assert (y0 * P + P <= P * Hg) by nia. assert (y0 <= y0 * P) by nia.
    rewrite (u32_small (cy * fh)), (u32_small (cx * fw)) by (unfold x0, y0 in *; lia). fold x0 y0.
    rewrite (u32_small y0), (u32_small x0) by lia. rewrite (u32_small (y0 * P)), (u32_small (x0 * 4)) by lia. rewrite u32_small by lia. done. }
  set (col x y := v ← dot f c x y fg bg; Some (v mod 2 ^ 24)).
  set (row i x y := if (y =? y0 + i) && (x0 <=? x) && (x <? x0 + fw) then col (x - x0) i else None).
  destruct (each_looks_as W Hg P (fun y m => each (fun x m => color ← dot f c x y fg bg;
      poke (pixel_at P x0 y0 + y * P + x * pixel_width fb) (le_split 4 color) m) (seqZ 0 fw) m)
    row (fun x y => if in_rect x0 y0 fw fh x y then col (x - x0) (y - y0) else None) 0 fh (fb_mem fb)) as (m' & E & Hl').
  - intros i m Hi Hm.
    apply (each_looks_as W Hg P _ (fun j x y => if (x =? x0 + j) && (y =? y0 + i) then col j i else None)); [|lia|done| |].
    + intros j m1 Hj Hm1. destruct (dot_total f c j i fg bg Hf Hc Hi) as (v & Ev & Hv). rewrite Ev. cbn [mbind option_bind].
      assert (on_screen W Hg (x0 + j) (y0 + i)) as Hji by (unfold on_screen; lia).
      destruct (poke_pixel W Hg P geo m1 (x0 + j) (y0 + i) (le_split 4 v) Hm1 Hji ltac:(rewrite le_split_length; lia)) as (m2 & E2 & L2).
      exists m2. rewrite H4. replace (pixel_at P x0 y0 + i * P + j * 4) with (pixel_at P (x0 + j) (y0 + i)) by (unfold pixel_at; lia).
      split; [done|]. rewrite word_colour in L2 by (destruct Hv; subst v; done). unfold col. rewrite Ev. exact L2.
    + intros x y Hxy Hno. unfold row. destruct ((y =? y0 + i) && (x0 <=? x) && (x <? x0 + fw)) eqn:Er; [|done].
      rewrite !andb_true_iff in Er. destruct Er as [[E1 E2] E3]. specialize (Hno (x - x0) ltac:(lia)).
      replace (x0 + (x - x0)) with x in Hno by lia. by rewrite Z.eqb_refl, E1 in Hno.
    + intros j x y k Hj Hxy Hgk. unfold row. destruct ((x =? x0 + j) && (y =? y0 + i)) eqn:Er; [|done]. apply andb_true_iff in Er as [E1 E2].
      rewrite E2. apply Z.eqb_eq in E1. destruct (Z.leb_spec x0 x), (Z.ltb_spec x (x0 + fw)); try lia. cbn [andb].
      by replace (x - x0) with j by lia.
  - lia.
  - done.
  - intros x y Hxy Hno. destruct (in_rect x0 y0 fw fh x y) eqn:Er; [|done]. unfold in_rect in Er. rewrite !andb_true_iff in Er.
    destruct Er as [[[E1 E2] E3] E4]. specialize (Hno (y - y0) ltac:(lia)). unfold row in Hno. replace (y0 + (y - y0)) with y in Hno by lia.
    by rewrite Z.eqb_refl, E1, E2 in Hno.
  - intros i x y k Hi Hxy Hgk. unfold row in Hgk. destruct ((y =? y0 + i) && (x0 <=? x) && (x <? x0 + fw)) eqn:Er; [|done].
    rewrite !andb_true_iff in Er. destruct Er as [[E1 E2] E3]. unfold in_rect. rewrite E2, E3. apply Z.eqb_eq in E1.
    destruct (Z.leb_spec y0 y), (Z.ltb_spec y (y0 + fh)); try lia. cbn [andb]. by replace (y - y0) with i by lia.
  - rewrite E. cbn [mbind option_bind]. eexists. split; [done|]. destruct Hl' as [Hm' Hl']. split; [|split; [done|]].
    + repeat (split; [done|]). done.
    + intros x y Hxy. apply (Hl' x y Hxy).
Qed.

(** *** The screen of a terminal *)

(** What one drawing shows at a pixel. *)
Definition draw_colour (regular bold : Font) (px py : Z) (d : Draw) (x y : Z) : option Z :=
  match d with
  | DrawChar cx cy c fg bg =>
      char_colour (if has fg bold_flag then bold else regular) (u32 c) cx cy px py (Z.land fg 16777215) bg x y
  | FillRect x0 y0 w h color => if in_rect x0 y0 w h x y then Some (color mod 2 ^ 24) else None
  end.
(** The newest of the drawings that reach a pixel. *)
Fixpoint painted (regular bold : Font) (px py : Z) (ds : list Draw) (x y : Z) : option Z :=
  match ds with
  | [] => None
  | d :: ds => match draw_colour regular bold px py d x y with Some c => Some c | None => painted regular bold px py ds x y end
  end.

(** Characters inside the screen, and rectangles whose ends have sixteen bits. *)
Definition draw_fits (regular bold : Font) (px py : Z) (fb : Framebuffer) (d : Draw) : Prop :=
  match d with
  | DrawChar cx cy c fg bg =>
      let f := if has fg bold_flag then bold else regular in
      0 <= cx < 65536 /\ 0 <= cy < 65536 /\ 0 <= bg /\
      cx * f_width f + px + f_width f <= fb_width fb /\ cy * f_height f + py + f_height f <= fb_height fb
  | FillRect x0 y0 w h color => 0 <= x0 /\ 0 <= y0 /\ 0 <= w /\ 0 <= h /\ x0 + w <= 65535 /\ y0 + h <= 65535 /\ 0 <= color
  end.

Lemma paint_draws regular bold px py d fb : fb_ok fb -> font_ok regular -> font_ok bold -> 0 <= px < 65536 -> 0 <= py < 65536 ->
  draw_fits regular bold px py fb d ->
  exists fb', paint regular bold px py d fb = Some fb' /\ draws fb fb' (draw_colour regular bold px py d).
Proof.
  intros Hfb Hr Hbo Hpx Hpy Hd. destruct d as [cx cy c fg bg|x0 y0 w h color]; cbn [paint draw_fits] in *.
  - destruct Hd as (Hcx & Hcy & Hbg & Hx & Hy). unfold draw_char_at, draw_colour.
    assert (forall z, 0 <= z < 65536 -> u16 z = z) as U by (intros; by apply uN_small).
    rewrite !U by lia. apply draw_psf_char_draws; try done; try lia.
    + by destruct (has fg bold_flag).
    + apply u32_range.
    + apply Z.land_nonneg. by right.
  - destruct Hd as (H1 & H2 & H3 & H4 & H5 & H6 & H7). by apply fill_rect_draws.
Qed.


(** A terminal of two by two characters on a small display: A is written. *)
Definition demo_font : Font := mkFont (replicate 520 0 ++ [24; 36; 66; 66; 126; 66; 66; 0] ++ replicate 1520 0) 8 8 256 8.
Definition demo_fb : Framebuffer := mkFb (replicate 1024 1) 16 16 64 4 (8, 16) (8, 8) (8, 0).
Definition demo_drawn : list Draw :=
  match (t ← VirtualTerminal_new 16 16 8 8; write_chars [65] t) with Some t => drawn t | None => [] end.

Lemma draw_fits_check regular bold px py fb ds :
  forallb (fun d => match d with
    | DrawChar cx cy c fg bg =>
        let f := if has fg bold_flag then bold else regular in
        (0 <=? cx) && (cx <? 65536) && (0 <=? cy) && (cy <? 65536) && (0 <=? bg) &&
        (cx * f_width f + px + f_width f <=? fb_width fb) && (cy * f_height f + py + f_height f <=? fb_height fb)
    | FillRect x0 y0 w h color =>
        (0 <=? x0) && (0 <=? y0) && (0 <=? w) && (0 <=? h) && (x0 + w <=? 65535) && (y0 + h <=? 65535) && (0 <=? color)
    end) ds = true -> Forall (draw_fits regular bold px py fb) ds.
Proof.
  rewrite forallb_forall, Forall_forall. intros H d Hd. specialize (H d ltac:(by apply list_elem_of_In)).
  destruct d; rewrite !andb_true_iff, ?Z.leb_le, ?Z.ltb_lt in H; cbn [draw_fits]; intuition lia.
Qed.


(** [put_pixel] lets the column and the row behind the last through: the first is
    the next line's first pixel, the second is behind the memory. *)
Lemma put_pixel_next_line : (fb ← put_pixel 16 0 255 demo_fb; Some (fb_pixel fb 0 1)) = Some 255.
Proof. by vm_compute. Qed.
Lemma put_pixel_outside : put_pixel 0 16 255 demo_fb = None.
Proof. by vm_compute. Qed.

(** A rectangle that ends behind the largest index is filled for ever. *)
Lemma fill_rect_hangs : fill_rect 0 1 1 65535 0 demo_fb = None.
Proof. by vm_compute. Qed.

(** A count so large that it wraps around at the offset is not clipped. *)
Lemma node_read_overflow : FramebufferDevNode_read 18446744073709551615 1 demo_fb = None.
Proof. by vm_compute. Qed.
