(* ===== verification/Initramfs.v ===== *)
(** The loader of the initial file system (src/kernel/src/fs/initramfs.cpp): an
    archive in ustar format, a module in memory, becomes entries of the name
    space.

    Memory is a function from addresses to bytes: the loader reads where the
    headers lead it, inside the module or not. *)
From stdpp Require Import strings.
From S2P Require Import Prelude FdTable VNode Tmpfs Devices NameSpace.
Open Scope Z_scope.

(** ** Headers *)

(** The bytes from an address on. *)
Definition bytes (mem : Z -> Z) (a n : Z) : list Z := map mem (seqZ a n).

(** Characters are signed and the sum is a machine word. *)
Fixpoint octal_digits (value : Z) (s : list Z) : Z :=
  match s with
  | [] => value
  | c :: s => if c =? 0 then value else octal_digits (u64 (value * 8 + (sN 8 c - 48))) s
  end.
Definition octal_to_bin (s : list Z) : Z := octal_digits 0 (take (length s - 1) s).

(** The path a header's name and prefix stand for, up to its zero. *)
Definition read_path (nm prefix : list Z) : list Z :=
  match cstr prefix with
  | [] => cstr nm
  | p => p ++ SLASH :: cstr nm
  end.

(** What the loader uses of a header. *)
Record Header : Type := mkHeader {
  h_size : Z;
  h_mode : Z;
  h_mtime : Z;
  h_dev_id : Z;
  typeflag : Z;
  current_path : list Z;
  current_link_path : list Z
}.

Definition magic_ok (mem : Z -> Z) (current : Z) : bool := bool_decide (bytes mem (current + 257) 5 = str "ustar").

Definition read_header (mem : Z -> Z) (current : Z) : Header :=
  let number off len := octal_to_bin (bytes mem (current + off) len) in
  let prefix := bytes mem (current + 345) 155 in
  mkHeader (number 124 12) (u32 (number 100 8)) (number 136 12)
    (make_dev_id (u32 (number 329 8)) (u32 (number 337 8))) (mem (current + 156))
    (read_path (bytes mem current 100) prefix) (read_path (bytes mem (current + 157) 100) prefix).

(** ** Loading *)

(** Times of the name space count nanoseconds. *)
Definition from_seconds (s : Z) : Z := sN 64 s * 1000000000.

Definition set_times (t : Z) (d : VNode) : VNode :=
  mkVNode (node_type d) (fs d) (fs_mounted_here d) (fs_data d) t (uid d) (gid d) (mode d) (rdev d).

Inductive load : Type :=
| Loaded (s : Ns)
| Halted
| Unfinished.

Section Load.
Context `{!Realloc}.
(** The fuel of path resolution, and the device numbers that have a
    constructor. *)
Context (fuel : nat) (char_device block_device : Z -> bool).

(** [entry->vnode = ...::create_node(dev_id)]: null for an unknown number. *)
Definition assign_device (known : Z -> bool) (e : Z) (t : NodeType) (dev : Z) (s : Ns) : Ns :=
  if known dev then
    let v := next_addr s in
    set_next (v + 16) (upd_entry e (with_vnode v) (set_vnodes (<[v := mkVNode t 0 0 None 0 no_id no_id 0 dev]> (vnodes s)) s))
  else upd_entry e (with_vnode 0) s.

(** The switch on the type: [data] are the bytes after the header. *)
Definition create_member (dir e : Z) (h : Header) (data : list Z) (s : Ns) : option Ns :=
  if (typeflag h =? 48) || (typeflag h =? 0) then
    s1 ← Entry_create e REGULAR 0 0 (h_mode h) s;
    v ← vnode_of e s1;
    '(_, s2) ← write_vnode v data 0 s1;
    Some s2
  else if typeflag h =? 49 then
    '(target, s1) ← path_to_entry fuel (current_link_path h) dir true s;
    v ← vnode_of target s1;
    if v =? 0 then None else Entry_create e HARD_LINK no_id no_id no_id (upd_entry e (with_vnode v) s1)
  else if typeflag h =? 50 then
    s1 ← Entry_create e SYMLINK 0 0 511 s;
    v ← vnode_of e s1;
    '(_, s2) ← write_vnode v (current_link_path h) 0 s1;
    Some s2
  else if typeflag h =? 51 then
    Entry_create e CHAR_DEVICE 0 0 (h_mode h) (assign_device char_device e CHAR_DEVICE (h_dev_id h) s)
  else if typeflag h =? 52 then
    Entry_create e BLOCK_DEVICE 0 0 (h_mode h) (assign_device block_device e BLOCK_DEVICE (h_dev_id h) s)
  else if typeflag h =? 53 then Entry_create e DIRECTORY 0 0 (h_mode h) s
  else Some s.

(** One turn of the loop but for the advance; a failed [ASSERT] stops it. *)
Definition load_member (dir : Z) (h : Header) (data : list Z) (s : Ns) : option Ns :=
  if bool_decide (current_path h = str "./") then Some s
  else
    '(e, s1) ← path_to_entry fuel (current_path h) dir true s;
    v ← vnode_of e s1;
    if negb (v =? 0) then None
    else
      s2 ← create_member dir e h data s1;
      v2 ← vnode_of e s2;
      Some (if negb (v2 =? 0) && negb (typeflag h =? 49) then upd_vnode v2 (set_times (from_seconds (h_mtime h))) s2 else s2).

Definition next_header (current : Z) (h : Header) : Z := u64 (current + u64 (512 + align_up (h_size h) 512)).

(** The loop, a unit of fuel a header; [last] is the end of the module. *)
Fixpoint load_from (turns : nat) (mem : Z -> Z) (dir current last : Z) (s : Ns) : load :=
  match turns with
  | O => Unfinished
  | S turns =>
      if negb (magic_ok mem current) then Loaded s
      else
        let h := read_header mem current in
        match load_member dir h (bytes mem (current + 512) (h_size h)) s with
        | None => Halted
        | Some s' =>
            if last <=? next_header current h then Loaded s' else load_from turns mem dir (next_header current h) last s'
        end
  end.

Definition load_into (turns : nat) (mem : Z -> Z) (dir file_addr file_size : Z) (s : Ns) : load :=
  load_from turns mem dir file_addr (u64 (file_addr + file_size)) s.

(** [create_device_file] of kernel.cpp: a device file beside the archive's; its
    [ASSERT]s. *)
Definition create_device_file (path : list Z) (major minor : Z) (is_char : bool) (s : Ns) : option Ns :=
  '(e, s1) ← path_to_entry fuel path 0 true s;
  d ← entries s1 !! e;
  if negb (e_vnode d =? 0) || (parent d =? 0) then None
  else
    let t := if is_char then CHAR_DEVICE else BLOCK_DEVICE in
    let known := if is_char then char_device else block_device in
    Entry_create e t 0 0 436 (assign_device known e t (make_dev_id major minor) s1).

(** ** Archives *)

(** A member as an archiver means it. *)
Inductive Kind : Type :=
| Regular (data : list Z)
| HardLink (target : list Z)
| SymLink (target : list Z)
| CharDevice (major minor : Z)
| BlockDevice (major minor : Z)
| Directory.

Record Member : Type := mkMember {
  m_prefix : list Z;
  m_name : list Z;
  m_mode : Z;
  m_mtime : Z;
  m_kind : Kind
}.

Definition m_path (m : Member) : list Z :=
  match m_prefix m with [] => m_name m | p => p ++ SLASH :: m_name m end.

(** What a member means in a directory of the name space. *)
Definition install_kind (dir e md : Z) (k : Kind) (s : Ns) : option Ns :=
  match k with
  | Regular data => s1 ← Entry_create e REGULAR 0 0 md s; v ← vnode_of e s1; snd <$> write_vnode v data 0 s1
  | HardLink target =>
      '(t, s1) ← path_to_entry fuel target dir true s;
      v ← vnode_of t s1;
      if v =? 0 then None else Entry_create e HARD_LINK no_id no_id no_id (upd_entry e (with_vnode v) s1)
  | SymLink target => s1 ← Entry_create e SYMLINK 0 0 511 s; v ← vnode_of e s1; snd <$> write_vnode v target 0 s1
  | CharDevice major minor =>
      Entry_create e CHAR_DEVICE 0 0 md (assign_device char_device e CHAR_DEVICE (make_dev_id major minor) s)
  | BlockDevice major minor =>
      Entry_create e BLOCK_DEVICE 0 0 md (assign_device block_device e BLOCK_DEVICE (make_dev_id major minor) s)
  | Directory => Entry_create e DIRECTORY 0 0 md s
  end.

Definition is_hard_link (k : Kind) : bool := match k with HardLink _ => true | _ => false end.

Definition install (dir : Z) (m : Member) (s : Ns) : option Ns :=
  if bool_decide (m_path m = str "./") then Some s
  else
    '(e, s1) ← path_to_entry fuel (m_path m) dir true s;
    v ← vnode_of e s1;
    if negb (v =? 0) then None
    else
      s2 ← install_kind dir e (m_mode m) (m_kind m) s1;
      v2 ← vnode_of e s2;
      Some (if negb (v2 =? 0) && negb (is_hard_link (m_kind m)) then upd_vnode v2 (set_times (from_seconds (m_mtime m))) s2 else s2).

End Load.

(** Numbers are written as octal digits, names and data padded with zeros. *)
Fixpoint octal (n : nat) (x : Z) : list Z :=
  match n with
  | O => []
  | S n => octal n (x / 8) ++ [48 + x mod 8]
  end.
Definition pad (n : nat) (l : list Z) : list Z := l ++ replicate (n - length l) 0.
Definition number (n : nat) (x : Z) : list Z := octal (n - 1) x ++ [0].

Definition kind_flag (k : Kind) : Z :=
  match k with
  | Regular _ => 48 | HardLink _ => 49 | SymLink _ => 50 | CharDevice _ _ => 51 | BlockDevice _ _ => 52 | Directory => 53
  end.
Definition kind_data (k : Kind) : list Z := match k with Regular data => data | _ => [] end.
Definition kind_link (k : Kind) : list Z := match k with HardLink t | SymLink t => t | _ => [] end.
Definition kind_major (k : Kind) : Z := match k with CharDevice a _ | BlockDevice a _ => a | _ => 0 end.
Definition kind_minor (k : Kind) : Z := match k with CharDevice _ b | BlockDevice _ b => b | _ => 0 end.

Definition header_fields (m : Member) : list (list Z) :=
  [pad 100 (m_name m); number 8 (m_mode m); number 8 0; number 8 0; number 12 (Z.of_nat (length (kind_data (m_kind m))));
   number 12 (m_mtime m); replicate 8 32; [kind_flag (m_kind m)]; pad 100 (kind_link (m_kind m));
   pad 6 (str "ustar"); str "00"; replicate 32 0; replicate 32 0; number 8 (kind_major (m_kind m));
   number 8 (kind_minor (m_kind m)); pad 155 (m_prefix m); replicate 12 0].

Definition blocks (n : nat) : nat := Z.to_nat (align_up (Z.of_nat n) 512).
Definition serialise (m : Member) : list Z :=
  concat (header_fields m) ++ pad (blocks (length (kind_data (m_kind m)))) (kind_data (m_kind m)).

(** Two blocks of zeros end an archive. *)
Definition archive (ms : list Member) : list Z := concat (map serialise ms) ++ replicate 1024 0.

(** What the format can say; a link's path must not need the prefix, which the
    loader puts before its target as well. *)
Definition text (n : nat) (l : list Z) : Prop := (length l <= n)%nat /\ Forall (fun c => 0 < c < 256) l.

Definition kind_ok (k : Kind) : Prop :=
  match k with
  | Regular data => Z.of_nat (length data) < 8 ^ 11
  | HardLink t | SymLink t => text 100 t
  | CharDevice a b | BlockDevice a b => 0 <= a < 8 ^ 7 /\ 0 <= b < 8 ^ 7
  | Directory => True
  end.

Record member_ok (m : Member) : Prop := {
  mo_name : text 100 (m_name m);
  mo_prefix : text 155 (m_prefix m);
  mo_mode : 0 <= m_mode m < 8 ^ 7;
  mo_mtime : 0 <= m_mtime m < 8 ^ 11;
  mo_kind : kind_ok (m_kind m);
  mo_link : match m_kind m with HardLink _ | SymLink _ => m_prefix m = [] | _ => True end
}.

(** ** The header of a member, read back *)

Lemma sub_fields (fs : list (list Z)) i f off n :
  fs !! i = Some f -> off = Z.of_nat (length (concat (take i fs))) -> n = Z.of_nat (length f) ->
  sub (concat fs) off n = f.
Proof.
  intros Hi -> ->. rewrite <- (take_drop_middle fs i f Hi) at 1. rewrite concat_app. unfold sub.
  rewrite !Nat2Z.id, drop_app_length. simpl. by rewrite take_app_length.
Qed.

Lemma bytes_sub mem a n off len : 0 <= off -> 0 <= len -> off + len <= n -> bytes mem (a + off) len = sub (bytes mem a n) off len.
Proof.
  intros Ho Hl Hn. unfold bytes, sub. rewrite skipn_map, firstn_map. f_equal.
  apply list_eq. intros i. destruct (decide (Z.of_nat i < len)) as [Hi|Hi].
  - rewrite lookup_take_lt, lookup_drop, !lookup_seqZ_lt by lia. f_equal. lia.
  - rewrite lookup_take_ge by lia. apply lookup_ge_None_2. rewrite length_seqZ. lia.
Qed.

Lemma bytes_length mem a n : length (bytes mem a n) = Z.to_nat n.
Proof. unfold bytes. by rewrite length_map, length_seqZ. Qed.

Lemma octal_length n x : length (octal n x) = n.
Proof. revert x. induction n as [|n IH]; intros x; [done|]. simpl. rewrite length_app, IH. simpl. lia. Qed.

Lemma octal_digits_app v s t : 0 ∉ s -> octal_digits v (s ++ t) = octal_digits (octal_digits v s) t.
Proof.
  revert v. induction s as [|c s IH]; intros v H; [done|]. apply not_elem_of_cons in H as [H1 H2]. simpl.
  destruct (Z.eqb_spec c 0); [congruence|]. by apply IH.
Qed.

Lemma octal_digit x : 0 <= x mod 8 < 8.
Proof. apply Z.mod_pos_bound. lia. Qed.

Lemma octal_no_zero n x : 0 ∉ octal n x.
Proof.
  revert x. induction n as [|n IH]; intros x; [by apply not_elem_of_nil|]. simpl. rewrite elem_of_app. intros [H|H].
  - by apply (IH (x / 8)).
  - apply list_elem_of_singleton in H. pose proof (octal_digit x). lia.
Qed.

(** Octal digits are read back in the 21 that fit a machine word. *)
Lemma octal_digits_octal n x : (n <= 21)%nat -> 0 <= x < 8 ^ Z.of_nat n -> octal_digits 0 (octal n x) = x.
Proof.
  revert x. induction n as [|n IH]; intros x Hn Hx; [simpl in *; lia|]. cbn [octal].
  rewrite octal_digits_app by apply octal_no_zero.
  replace (Z.of_nat (S n)) with (Z.of_nat n + 1) in Hx by lia. rewrite Z.pow_add_r in Hx by lia.
  assert (Hq : 0 <= x / 8 < 8 ^ Z.of_nat n).
  { split; [apply Z.div_pos; lia|]. apply Z.div_lt_upper_bound; lia. }
  rewrite IH by (lia || done). cbn [octal_digits]. pose proof (octal_digit x) as Hd.
  destruct (Z.eqb_spec (48 + x mod 8) 0); [lia|].
  assert (H8 : 8 ^ Z.of_nat n * 8 <= 2 ^ 63).
  { change 8 with (2 ^ 3). rewrite <- Z.pow_mul_r, <- Z.pow_add_r by lia. apply Z.pow_le_mono_r; lia. }
  assert (Hs : sN 8 (48 + x mod 8) = 48 + x mod 8).
  { unfold sN. change (2 ^ 8) with 256. change (2 ^ (8 - 1)) with 128. rewrite Z.mod_small by lia.
    destruct (Z.ltb_spec (48 + x mod 8) 128); lia. }
  rewrite Hs. pose proof (Z.div_mod x 8 ltac:(lia)). rewrite u64_small; lia.
Qed.

Lemma octal_to_bin_number n x : (1 <= n <= 22)%nat -> 0 <= x < 8 ^ Z.of_nat (n - 1) -> octal_to_bin (number n x) = x.
Proof.
  intros Hn Hx. unfold octal_to_bin, number. rewrite length_app, octal_length. cbn [length].
  replace (n - 1 + 1 - 1)%nat with (length (octal (n - 1) x)) by (rewrite octal_length; lia).
  rewrite take_app_length. apply octal_digits_octal; [lia|done].
Qed.

Lemma number_length n x : (1 <= n)%nat -> length (number n x) = n.
Proof. intros. unfold number. rewrite length_app, octal_length. simpl. lia. Qed.

Lemma pad_length n l : (length l <= n)%nat -> length (pad n l) = n.
Proof. intros. unfold pad. rewrite length_app, length_replicate. lia. Qed.

Lemma cstr_pad n l : text n l -> cstr (pad n l) = l.
Proof.
  intros [_ Hf]. unfold pad. revert n. induction Hf as [|c l Hc Hf IH]; intros n; simpl.
  - by destruct n.
  - destruct (Z.eqb_spec c 0); [lia|]. f_equal. destruct n; [apply (IH 0%nat)|apply IH].
Qed.

Section Header.
Context (m : Member) (Hok : member_ok m).

Lemma header_lengths :
  map (@length Z) (header_fields m) = [100; 8; 8; 8; 12; 12; 8; 1; 100; 6; 2; 32; 32; 8; 8; 155; 12]%nat.
Proof.
  destruct Hok as [[Hn _] [Hp _] Hm Ht Hk _].
  assert (Hl : (length (kind_link (m_kind m)) <= 100)%nat).
  { clear -Hk. destruct (m_kind m); cbn [kind_link length]; try lia; by destruct Hk. }
  unfold header_fields. cbn [map]. by rewrite !pad_length, !number_length by first [lia | exact Hn | exact Hl | exact Hp | vm_compute; lia].
Qed.

Lemma concat_length_map (l : list (list Z)) : length (concat l) = sum_list (map (@length Z) l).
Proof. induction l as [|x l IH]; [done|]. simpl. by rewrite length_app, IH. Qed.

Lemma header_length : length (concat (header_fields m)) = 512%nat.
Proof. by rewrite concat_length_map, header_lengths. Qed.

(** The [i]-th field, at the offset its predecessors leave. *)
Lemma header_field mem a i f off n :
  bytes mem a 512 = concat (header_fields m) -> header_fields m !! i = Some f ->
  off = Z.of_nat (sum_list (take i [100; 8; 8; 8; 12; 12; 8; 1; 100; 6; 2; 32; 32; 8; 8; 155; 12]))%nat ->
  n = Z.of_nat (length f) -> 0 <= off -> off + n <= 512 -> bytes mem (a + off) n = f.
Proof.
  intros Hb Hi Ho Hn Ho0 H512. rewrite (bytes_sub mem a 512) by lia. rewrite Hb.
  apply (sub_fields _ i); [done| |done].
  by rewrite concat_length_map, <- firstn_map, header_lengths.
Qed.
End Header.

(** The header the loader reads for a member. *)
Definition member_header (m : Member) : Header :=
  mkHeader (Z.of_nat (length (kind_data (m_kind m)))) (m_mode m) (m_mtime m)
    (make_dev_id (kind_major (m_kind m)) (kind_minor (m_kind m))) (kind_flag (m_kind m)) (m_path m)
    (read_path (kind_link (m_kind m)) (m_prefix m)).

Lemma cstr_text n l : text n l -> cstr l = l.
Proof.
  intros [_ Hf]. induction Hf as [|c l Hc Hf IH]; [done|]. simpl. destruct (Z.eqb_spec c 0); [lia|]. by rewrite IH.
Qed.

Lemma kind_link_text k : kind_ok k -> text 100 (kind_link k).
Proof. destruct k; simpl; try done; intros _; by split; [simpl; lia|]. Qed.

Lemma kind_numbers k : kind_ok k -> 0 <= kind_major k < 8 ^ 7 /\ 0 <= kind_minor k < 8 ^ 7 /\ Z.of_nat (length (kind_data k)) < 8 ^ 11.
Proof. destruct k; cbn [kind_ok kind_major kind_minor kind_data length]; intros H; repeat split; lia. Qed.

Lemma u32_octal x : 0 <= x < 8 ^ 7 -> u32 x = x.
Proof. intros. apply (uN_small 32). change (8 ^ 7) with 2097152 in *. change (2 ^ 32) with 4294967296. lia. Qed.

Lemma header_read m mem a :
  member_ok m -> bytes mem a 512 = concat (header_fields m) ->
  magic_ok mem a = true /\ read_header mem a = member_header m.
Proof.
  intros Hok Hb. pose proof Hok as [Hn Hp Hm Ht Hk _].
  pose proof (kind_link_text _ Hk) as Hl. destruct (kind_numbers _ Hk) as (Hma & Hmi & Hsz).
  assert (Hnum : forall i off n x, header_fields m !! i = Some (number (Z.to_nat n) x) ->
    off = Z.of_nat (sum_list (take i [100; 8; 8; 8; 12; 12; 8; 1; 100; 6; 2; 32; 32; 8; 8; 155; 12]))%nat ->
    1 <= n <= 22 -> off + n <= 512 -> 0 <= x < 8 ^ (n - 1) -> octal_to_bin (bytes mem (a + off) n) = x).
  { intros i off n x Hi Ho Hn' H512 Hx. rewrite (header_field m Hok mem a i _ off n Hb Hi Ho) by
      (rewrite ?number_length by lia; lia).
    apply octal_to_bin_number; [lia|]. by replace (Z.of_nat (Z.to_nat n - 1)) with (n - 1) by lia. }
  assert (Htxt : forall i off n x, header_fields m !! i = Some (pad (Z.to_nat n) x) ->
    off = Z.of_nat (sum_list (take i [100; 8; 8; 8; 12; 12; 8; 1; 100; 6; 2; 32; 32; 8; 8; 155; 12]))%nat ->
    0 <= n -> off + n <= 512 -> text (Z.to_nat n) x -> cstr (bytes mem (a + off) n) = x).
  { intros i off n x Hi Ho Hn' H512 Hx. rewrite (header_field m Hok mem a i _ off _ Hb Hi Ho) by
      (rewrite ?pad_length by apply Hx; lia). by apply (cstr_pad (Z.to_nat n)). }
  split.
  - unfold magic_ok. apply bool_decide_eq_true. replace (a + 257) with (a + 257 + 0) by lia.
    rewrite (bytes_sub mem (a + 257) 6) by lia.
    rewrite (header_field m Hok mem a 9 _ 257 6 Hb eq_refl eq_refl eq_refl) by lia. done.
  - unfold read_header, member_header, read_path.
    pose proof (Htxt 0%nat 0 100 (m_name m) eq_refl eq_refl ltac:(lia) ltac:(lia) Hn) as Hname. rewrite Z.add_0_r in Hname.
    rewrite (Htxt 15%nat 345 155 (m_prefix m) eq_refl eq_refl) by (done || lia).
    rewrite Hname.
    rewrite (Htxt 8%nat 157 100 (kind_link (m_kind m)) eq_refl eq_refl) by (done || lia).
    rewrite (Hnum 4%nat 124 12 _ eq_refl eq_refl), (Hnum 1%nat 100 8 _ eq_refl eq_refl), (Hnum 5%nat 136 12 _ eq_refl eq_refl),
      (Hnum 13%nat 329 8 _ eq_refl eq_refl), (Hnum 14%nat 337 8 _ eq_refl eq_refl), !u32_octal by (done || lia).
    rewrite (cstr_text _ _ Hp), (cstr_text _ _ Hl).
    pose proof (header_field m Hok mem a 7 _ 156 1 Hb eq_refl eq_refl eq_refl) as Hf.
    assert (mem (a + 156) = kind_flag (m_kind m)) as ->.
    { specialize (Hf ltac:(lia) ltac:(lia)). unfold bytes in Hf. by injection Hf. }
    done.
Qed.

Section Archive.
Context {Hrealloc : Realloc} (fuel : nat) (char_device block_device : Z -> bool).
Let load_member := load_member fuel char_device block_device.
Let install := install fuel char_device block_device.

Lemma load_member_install dir m s :
  member_ok m -> load_member dir (member_header m) (kind_data (m_kind m)) s = install dir m s.
Proof.
  intros [_ _ _ _ Hk Hl]. unfold load_member, install, Initramfs.load_member, Initramfs.install. cbn [current_path member_header].
  case_bool_decide; [done|]. destruct (path_to_entry _ _ _ _ _) as [[e s1]|]; [|done]. cbn [mbind option_bind].
  destruct (vnode_of e s1) as [v|]; [|done]. cbn [mbind option_bind]. destruct (v =? 0); [|done]. cbn [negb].
  assert (Hc : create_member fuel char_device block_device dir e (member_header m) (kind_data (m_kind m)) s1
    = install_kind fuel char_device block_device dir e (m_mode m) (m_kind m) s1).
  { unfold create_member, install_kind, member_header, read_path.
    destruct (m_kind m); cbn [typeflag h_mode h_dev_id current_link_path kind_flag kind_data kind_link kind_major
      kind_minor Z.eqb Pos.eqb orb]; try done.
    - destruct (Entry_create _ _ _ _ _ _) as [s2|]; [|done]. cbn [mbind option_bind].
      destruct (vnode_of e s2) as [v2|]; [|done]. cbn [mbind option_bind]. by destruct (write_vnode _ _ _ _) as [[]|].
    - cbn in Hl, Hk. by rewrite Hl, (cstr_text _ _ Hk).
    - cbn in Hl, Hk. rewrite Hl, (cstr_text _ _ Hk). destruct (Entry_create _ _ _ _ _ _) as [s2|]; [|done]. cbn [mbind option_bind].
      destruct (vnode_of e s2) as [v2|]; [|done]. cbn [mbind option_bind cstr]. by destruct (write_vnode _ _ _ _) as [[]|]. }
  rewrite Hc. destruct (install_kind _ _ _ _ _ _ _ _) as [s2|]; [|done]. cbn [mbind option_bind].
  destruct (vnode_of e s2) as [v2|]; [|done]. cbn [mbind option_bind member_header typeflag h_mtime].
  by destruct (m_kind m).
Qed.

Lemma align_512 x : 0 <= x < 8 ^ 11 -> x <= align_up x 512 < x + 512 /\ align_up x 512 mod 512 = 0.
Proof.
  intros Hx. change (8 ^ 11) with 8589934592 in Hx. unfold align_up.
  pose proof (Z.div_mod x 512 ltac:(lia)). pose proof (Z.mod_pos_bound x 512 ltac:(lia)).
  destruct (Z.eqb_spec (x mod 512) 0); [lia|]. rewrite u64_small by lia. split; [lia|]. by apply Z.mod_mul.
Qed.

Lemma serialise_length m :
  member_ok m -> Z.of_nat (length (serialise m)) = 512 + align_up (Z.of_nat (length (kind_data (m_kind m)))) 512.
Proof.
  intros Hok. unfold serialise, blocks. destruct (kind_numbers _ (mo_kind _ Hok)) as (_ & _ & Hsz).
  pose proof (align_512 (Z.of_nat (length (kind_data (m_kind m)))) ltac:(lia)).
  rewrite length_app, header_length, pad_length by (done || lia). lia.
Qed.

(** The bytes of a part of the memory that holds [l ++ r]. *)
Lemma bytes_app mem a (l r : list Z) :
  bytes mem a (Z.of_nat (length (l ++ r))) = l ++ r ->
  bytes mem a (Z.of_nat (length l)) = l /\ bytes mem (a + Z.of_nat (length l)) (Z.of_nat (length r)) = r.
Proof.
  intros H. pose proof (bytes_sub mem a (Z.of_nat (length (l ++ r)))) as Hs. rewrite H, length_app in Hs.
  pose proof (Hs 0 (Z.of_nat (length l)) ltac:(lia) ltac:(lia) ltac:(lia)) as H1.
  pose proof (Hs (Z.of_nat (length l)) (Z.of_nat (length r)) ltac:(lia) ltac:(lia) ltac:(lia)) as H2.
  rewrite Z.add_0_r in H1. unfold sub in H1, H2. rewrite !Nat2Z.id in *. change (drop (Z.to_nat 0) (l ++ r)) with (l ++ r) in H1.
  rewrite drop_app_length, firstn_all in H2. by rewrite take_app_length in H1.
Qed.

(** One member of an archive, loaded by one turn. *)
Lemma load_turn turns dir mem current last m s :
  member_ok m -> bytes mem current (Z.of_nat (length (serialise m))) = serialise m ->
  0 <= current -> current + Z.of_nat (length (serialise m)) < last < 2 ^ 64 ->
  load_from fuel char_device block_device (S turns) mem dir current last s
  = match install dir m s with
    | Some s' => load_from fuel char_device block_device turns mem dir (current + Z.of_nat (length (serialise m))) last s'
    | None => Halted
    end.
Proof.
  intros Hok Hb Hc Hl. pose proof (serialise_length m Hok) as Hlen.
  destruct (kind_numbers _ (mo_kind _ Hok)) as (_ & _ & Hsz).
  pose proof (align_512 (Z.of_nat (length (kind_data (m_kind m)))) ltac:(lia)) as Hal.
  change (2 ^ 64) with 18446744073709551616 in Hl.
  apply bytes_app in Hb as [Hh Hd]. rewrite (header_length m Hok) in Hh, Hd. change (Z.of_nat 512) with 512 in Hh, Hd.
  destruct (header_read m mem current Hok Hh) as [Hm Hr]. cbn [load_from]. rewrite Hm, Hr. cbn [negb].
  assert (Hn : next_header current (member_header m) = current + Z.of_nat (length (serialise m))).
  { unfold next_header, member_header. cbn [h_size]. rewrite (u64_small (512 + _)), u64_small by lia. lia. }
  assert (Hdata : bytes mem (current + 512) (h_size (member_header m)) = kind_data (m_kind m)).
  { unfold pad in Hd. apply bytes_app in Hd as [Hd _]. exact Hd. }
  pose proof (load_member_install dir m s Hok) as Hi. unfold load_member in Hi. rewrite Hdata, Hn, Hi. destruct (install dir m s) as [s'|]; [|done].
  destruct (Z.leb_spec last (current + Z.of_nat (length (serialise m)))); [lia|]. done.
Qed.

End Archive.

(** ** Ending *)

(** The eleven characters that count are octal digits, or end at a zero. *)
Definition octal_field (l : list Z) : Prop := Forall (fun c => c = 0 \/ 48 <= c <= 55) (take 11 l).

Lemma octal_digits_bound l v (k : nat) :
  Forall (fun c => c = 0 \/ 48 <= c <= 55) l -> (k + length l <= 21)%nat -> 0 <= v < 8 ^ Z.of_nat k ->
  0 <= octal_digits v l < 8 ^ Z.of_nat (k + length l).
Proof.
  intros H. revert v k. induction H as [|c l Hc H IH]; intros v k Hk Hv; [by rewrite Nat.add_0_r|].
  cbn [octal_digits length] in *. destruct (Z.eqb_spec c 0).
  - assert (8 ^ Z.of_nat k <= 8 ^ Z.of_nat (k + S (length l))) by (apply Z.pow_le_mono_r; lia). lia.
  - destruct Hc as [?|Hc]; [done|].
    assert (Hs : sN 8 c = c).
    { unfold sN. change (2 ^ 8) with 256. change (2 ^ (8 - 1)) with 128. rewrite Z.mod_small by lia.
      destruct (Z.ltb_spec c 128); lia. }
    assert (H8 : 8 ^ Z.of_nat (S k) <= 2 ^ 63).
    { change 8 with (2 ^ 3). rewrite <- Z.pow_mul_r by lia. apply Z.pow_le_mono_r; lia. }
    assert (Hp : 8 ^ Z.of_nat (S k) = 8 * 8 ^ Z.of_nat k) by (rewrite Nat2Z.inj_succ, Z.pow_succ_r by lia; done).
    rewrite Hs, u64_small by lia. replace (k + S (length l))%nat with (S k + length l)%nat by lia. apply IH; lia.
Qed.

Lemma octal_field_bound l : (length l = 12)%nat -> octal_field l -> 0 <= octal_to_bin l < 8 ^ 11.
Proof.
  intros Hl Hf. unfold octal_to_bin. rewrite Hl. unfold octal_field in Hf.
  pose proof (octal_digits_bound (take 11 l) 0 0 Hf) as H. rewrite length_take, Hl in H. simpl in H. simpl. lia.
Qed.

Section Ends.
Context `{!Realloc} (fuel : nat) (char_device block_device : Z -> bool).
Let load_from := load_from fuel char_device block_device.
Let load_into := load_into fuel char_device block_device.

Lemma load_from_ends turns mem dir current last s :
  0 <= current -> last + 8 ^ 11 + 1024 < 2 ^ 64 ->
  (forall a, current <= a < last -> magic_ok mem a = true -> octal_field (bytes mem (a + 124) 12)) ->
  current < last -> last - current <= 512 * Z.of_nat turns ->
  load_from turns mem dir current last s <> Unfinished.
Proof.
  change (8 ^ 11) with 8589934592. change (2 ^ 64) with 18446744073709551616.
  revert current s. induction turns as [|turns IH]; intros current s Hc Hl Ho Hlt Ht; [lia|].
  unfold load_from. cbn [Initramfs.load_from]. destruct (magic_ok mem current) eqn:Hm; [|done]. cbn [negb].
  destruct (load_member _ _ _ _ _ _ _) as [s'|]; [|done].
  pose proof (octal_field_bound _ (bytes_length mem (current + 124) 12) (Ho current ltac:(lia) Hm)) as Hsz.
  change (octal_to_bin (bytes mem (current + 124) 12)) with (h_size (read_header mem current)) in Hsz.
  pose proof (align_512 _ Hsz) as Hal. change (8 ^ 11) with 8589934592 in Hsz.
  assert (Hn : next_header current (read_header mem current) = current + (512 + align_up (h_size (read_header mem current)) 512)).
  { unfold next_header. rewrite (u64_small (512 + _)), u64_small by lia. lia. }
  rewrite Hn. destruct (Z.leb_spec last (current + (512 + align_up (h_size (read_header mem current)) 512))); [done|].
  apply IH; try lia. intros a Ha. apply Ho. lia.
Qed.

(** A module whose size fields are octal is loaded, or stops the kernel, in a
    turn for each of its 512-byte blocks, whatever else it holds. *)
Theorem load_terminates mem dir file_addr file_size s turns :
  0 <= file_addr -> 0 < file_size -> file_addr + file_size + 8 ^ 11 + 1024 < 2 ^ 64 ->
  (forall a, file_addr <= a < file_addr + file_size -> magic_ok mem a = true -> octal_field (bytes mem (a + 124) 12)) ->
  file_size <= 512 * Z.of_nat turns ->
  load_into turns mem dir file_addr file_size s <> Unfinished.
Proof.
  intros Ha Hs Hl Ho Ht. unfold load_into, Initramfs.load_into. assert (0 < 8 ^ 11) by done.
  change (2 ^ 64) with 18446744073709551616 in Hl. rewrite u64_small by lia. apply load_from_ends; try lia. done.
Qed.

(** a size field of other characters can make the next header the same one:
    "/000" is minus 512, and the loader reads the root member for ever. *)
Theorem load_never_ends mem dir current last s turns :
  0 <= current < last -> last < 2 ^ 64 -> magic_ok mem current = true ->
  current_path (read_header mem current) = str "./" -> take 5 (bytes mem (current + 124) 12) = str "/000" ++ [0] ->
  load_from turns mem dir current last s = Unfinished.
Proof.
  intros Hc Hl Hm Hp Hs. induction turns as [|turns IH]; [done|]. unfold load_from in *. cbn [Initramfs.load_from].
  rewrite Hm. unfold load_member. rewrite Hp, bool_decide_true by done. cbn [negb].
  assert (Hsz : h_size (read_header mem current) = 18446744073709551104).
  { cbn [read_header h_size]. unfold octal_to_bin. rewrite bytes_length. change (Z.to_nat 12 - 1)%nat with (5 + 6)%nat.
    rewrite take_add, Hs. vm_compute. done. }
  assert (Hn : next_header current (read_header mem current) = current).
  { unfold next_header. rewrite Hsz. change (u64 (512 + align_up 18446744073709551104 512)) with 0.
    change (2 ^ 64) with 18446744073709551616 in Hl. rewrite Z.add_0_r. by rewrite u64_small by lia. }
  rewrite Hn. destruct (Z.leb_spec last current); [lia|]. exact IH.
Qed.
End Ends.

(** ** A file of the archive *)

Lemma join_snoc ns n : exists l, join (ns ++ [n]) = l ++ n.
Proof.
  induction ns as [|m ns [l IH]]; [by exists []|]. cbn [app]. rewrite join_cons by (by destruct ns).
  exists (m ++ SLASH :: l). rewrite IH. by rewrite <- app_assoc.
Qed.

Lemma join_not_dot ns n : plain n -> join (ns ++ [n]) <> str "./".
Proof.
  intros (Hn & Hs & _). destruct (join_snoc ns n) as [l ->]. destruct (exists_last Hn) as (n' & x & ->).
  rewrite app_assoc. intros E. apply (app_inj_tail _ [46] x SLASH) in E as [_ ->]. apply Hs, elem_of_app. right.
  by apply list_elem_of_singleton.
Qed.

Lemma path_missing fuel s start dir ns p pd f n :
  ns_fresh s -> reduce reduce_fuel dir s = Some start -> dir <> 0 -> chain s start ns p -> is_dir p s -> plain n ->
  head (join (ns ++ [n])) <> Some SLASH -> entries s !! p = Some pd -> redirect pd = 0 -> fs_below p s = Some f ->
  is_Some (filesystems s !! f) -> find_child p n s = None -> (length ns < fuel)%nat ->
  path_to_entry fuel (join (ns ++ [n])) dir true s = Some (next_addr s, missed p pd n s).
Proof.
  intros Hfr Hst Hd0 Hch Hdir Hn Hrel Hp Hr Hf Hfd Hno Hfu. unfold path_to_entry, path_start.
  pose proof (join_snoc_nonempty ns n Hn) as Hne.
  pose proof (walk_missing fuel s true start ns p pd f n Hfr Hch Hdir Hn Hp Hr Hf Hfd Hno Hfu) as Hw.
  destruct (join (ns ++ [n])) as [|c l]; [done|]. destruct (Z.eqb_spec c SLASH) as [->|]; [done|].
  destruct (Z.eqb_spec dir 0); [done|]. rewrite Hst. exact Hw.
Qed.

(** The whole of a buffer written to an empty file is its contents. *)
Lemma write_empty `{!Realloc} data ino :
  Z.of_nat (length data) <= 4611686018427387904 ->
  exists r nd, Node_write 0 data 0 (mkNodeData false ino [] 0) = Return r nd /\ file_content nd = data /\ node_wf nd.
Proof.
  intros Hl. assert (Hwf : node_wf (mkNodeData false ino [] 0)).
  { split; [done|]. unfold node_capacity. simpl. by left. }
  destruct data as [|x data'] eqn:E.
  - eexists _, _. split; [reflexivity|]. done.
  - destruct (Node_write_returns 0 (x :: data') 0 _ Hwf eq_refl) as (nd & Hw & Hr); [done..|lia|].
    exists (Z.of_nat (length (x :: data'))), nd. split; [exact Hw|]. destruct Hr as (Hwf' & Hs & _ & _ & _ & Hin & _).
    split; [|done]. pose proof (file_content_length nd Hwf') as Hlen. simpl size in Hs. apply list_eq. intros i.
    destruct (decide (i < length (x :: data'))%nat) as [Hi|Hi].
    + rewrite Hin by lia. f_equal. lia.
    + rewrite !lookup_ge_None_2; [done|lia|]. lia.
Qed.

(** A regular member whose directory is there and whose name is not becomes a
    file with its bytes, its mode and its time, owned by root, under exactly
    that name. *)
Theorem regular_installed `{!Realloc} fuel cd bd s start dir ns p pd f fd n m data :
  ns_fresh s -> reduce reduce_fuel dir s = Some start -> dir <> 0 -> chain s start ns p -> is_dir p s -> plain n ->
  head (join (ns ++ [n])) <> Some SLASH -> entries s !! p = Some pd -> redirect pd = 0 -> fs_below p s = Some f ->
  filesystems s !! f = Some fd -> find_child p n s = None -> (length ns < fuel)%nat ->
  m_path m = join (ns ++ [n]) -> m_kind m = Regular data -> 0 <= m_mode m < 4096 ->
  Z.of_nat (length data) <= 4611686018427387904 ->
  exists s' v nd, install fuel cd bd dir m s = Some s' /\ find_child p n s' = Some (next_addr s) /\
    entry_vnode (next_addr s) s' = Some v /\ node_type v = REGULAR /\ fs v = f /\ fs_data v = Some nd /\
    file_content nd = data /\ uid v = 0 /\ gid v = 0 /\ mode v = m_mode m /\ times v = from_seconds (m_mtime m) /\
    same_but p n s s'.
Proof.
  intros Hfr Hst Hd0 Hch Hdir Hn Hrel Hp Hr Hf Hfd Hno Hfu Hpath Hk Hmode Hlen.
  pose proof (path_missing fuel s start dir ns p pd f n Hfr Hst Hd0 Hch Hdir Hn Hrel Hp Hr Hf ltac:(by exists fd) Hno Hfu) as Hpe.
  unfold install. rewrite Hpath, bool_decide_false by (by apply join_not_dot). rewrite Hpe. cbn [mbind option_bind].
  assert (Hv0 : vnode_of (next_addr s) (missed p pd n s) = Some 0).
  { unfold vnode_of, missed, set_next. cbn [entries set_entries]. by rewrite lookup_insert_eq. }
  rewrite Hv0. cbn [mbind option_bind Z.eqb negb]. rewrite Hk. cbn [install_kind is_hard_link].
  destruct (create_missed s p pd f fd n 0 0 (m_mode m) Hfr Hp Hf Hfd Hno Hmode) as (s2 & Hc & He2 & Hv2 & _ & _ & Hna & _).
  rewrite Hc. cbn [mbind option_bind].
  assert (Hve : vnode_of (next_addr s) s2 = Some (next_addr s + 16)) by (unfold vnode_of; by rewrite He2, lookup_insert_eq).
  rewrite Hve. cbn [mbind option_bind]. unfold write_vnode. rewrite Hv2, lookup_insert_eq.
  cbn [mbind option_bind fs_data created_vnode]. rewrite bool_decide_false by done.
  destruct (write_empty data (last_inode_num fd) Hlen) as (r & nd & Hw & Hcont & _). rewrite Hw.
  cbn [fmap option_fmap option_map snd mbind option_bind].
  match goal with |- context [vnode_of _ (upd_vnode ?a ?g s2)] => set (s3 := upd_vnode a g s2) end.
  assert (Hve3 : vnode_of (next_addr s) s3 = Some (next_addr s + 16)) by exact Hve. rewrite Hve3. cbn [mbind option_bind].
  pose proof (nf_pos _ Hfr). destruct (Z.eqb_spec (next_addr s + 16) 0); [lia|]. cbn [negb andb].
  eexists _, _, nd. split; [reflexivity|].
  destruct (find_child_grown s s2 p pd n _ Hfr Hp He2) as [Hfc Hsame].
  split; [exact Hfc|]. split.
  { unfold entry_vnode. change (vnode_of (next_addr s) _) with (vnode_of (next_addr s) s2). rewrite Hve. cbn [mbind option_bind].
    unfold s3. cbn [upd_vnode set_vnodes vnodes]. by rewrite Hv2, !alter_insert_eq, lookup_insert_eq. }
  done.
Qed.

(** ** A concrete image *)

(** kernel_thread (kernel.cpp): the image, then the device files. *)
Definition device_files : list (list Z * Z * Z * bool) :=
  [(str "/dev/mem", 1, 1, true); (str "/dev/null", 1, 3, true); (str "/dev/port", 1, 4, true); (str "/dev/zero", 1, 5, true);
   (str "/dev/full", 1, 7, true); (str "/dev/random", 1, 8, true); (str "/dev/urandom", 1, 9, true); (str "/dev/tty", 5, 0, true);
   (str "/dev/console", 5, 1, true); (str "/dev/fb0", 29, 0, true); (str "/dev/vda", 8, 0, false)].

Section Boot.
Context `{!Realloc} (fuel : nat) (char_device block_device : Z -> bool) (main_keyboard main_mouse : bool).

Definition make_directory (path : list Z) (must_be_new : bool) (s : Ns) : option Ns :=
  '(e, s1) ← path_to_entry fuel path 0 true s;
  d ← entries s1 !! e;
  if negb (e_vnode d =? 0) then (if must_be_new then None else Some s1)
  else if must_be_new && (parent d =? 0) then None
  else Entry_create e DIRECTORY 0 0 493 s1.

Definition device_file (d : list Z * Z * Z * bool) (s : Ns) : option Ns :=
  let '(path, major, minor, is_char) := d in create_device_file fuel char_device block_device path major minor is_char s.

Definition make_device_files (s : Ns) : option Ns :=
  s1 ← make_directory (str "/dev") false s;
  s2 ← each device_file device_files s1;
  s3 ← make_directory (str "/dev/input") true s2;
  s4 ← (if main_keyboard then device_file (str "/dev/input/event0", 13, 64, true) s3 else Some s3);
  s5 ← (if main_mouse then device_file (str "/dev/input/event1", 13, 65, true) s4 else Some s4);
  s6 ← make_directory (str "/dev/pts") true s5;
  s7 ← device_file (str "/dev/pts/ptmx", 5, 2, true) s6;
  device_file (str "/dev/ptmx", 5, 2, true) s7.
End Boot.

#[local] Existing Instance realloc_170.

Definition image_example : list Member :=
  [mkMember [] (str "./") 493 1700000000 Directory;
   mkMember [] (str "./usr/") 493 1700000000 Directory;
   mkMember (str "./usr") (str "motd") 420 1700000000 (Regular (str "hello"));
   mkMember [] (str "./usr/link") 511 1700000000 (SymLink (str "motd"));
   mkMember [] (str "./usr/copy") 420 1700000000 (HardLink (str "./usr/link"));
   mkMember [] (str "./dev/") 493 1700000000 Directory;
   mkMember [] (str "./dev/disk") 416 1700000000 (BlockDevice 8 0)].

Definition image_bytes : list Z := archive image_example.
Definition image_mem (bs : list Z) (file_addr a : Z) : Z := nth (Z.to_nat (a - file_addr)) bs 255.
Definition no_device (_ : Z) : bool := false.
Definition disk_only (d : Z) : bool := d =? make_dev_id 8 0.
Definition booted : option Ns := each (install 20 no_device disk_only ROOT) image_example ns_root.

Lemma text_check n l : bool_decide ((length l <= n)%nat /\ Forall (fun c => 0 < c < 256) l) = true -> text n l.
Proof. intros H%bool_decide_eq_true. exact H. Qed.

Lemma image_ok : Forall member_ok image_example.
Proof.
  unfold image_example. repeat constructor; cbn [m_name m_prefix m_mode m_mtime m_kind kind_ok kind_link];
    try (apply text_check; vm_compute; reflexivity); try done; try lia.
Qed.


(** What a path names in the loaded image: its type, mode, device and bytes. *)
Definition image_file (path : list Z) (follow : bool) (s : Ns) : option (NodeType * Z * Z * list Z) :=
  '(e, s1) ← path_to_entry 20 path ROOT follow s;
  v ← entry_vnode e s1;
  Some (node_type v, mode v, rdev v, from_option file_content [] (fs_data v)).

Example image_loaded :
  map (fun p => s ← booted; image_file (str p) false s) ["/usr/motd"; "/usr/link"; "/usr/copy"; "/dev/disk"; "/usr/none"]%string
  = [Some (REGULAR, 420, 0, str "hello"); Some (SYMLINK, 511, 0, str "motd"); Some (REGULAR, 420, 0, str "hello");
     Some (BLOCK_DEVICE, 416, make_dev_id 8 0, []); None].
Proof. vm_compute. reflexivity. Qed.

(** a link of a member with a prefix points below the prefix. *)
Example link_gets_prefix :
  current_link_path (member_header (mkMember (str "./usr") (str "alias") 511 0 (SymLink (str "motd")))) = str "./usr/motd".
Proof. reflexivity. Qed.

Definition small_image : list Member := [mkMember [] (str "./usr/") 493 1700000000 Directory].
Definition small_bytes : list Z := archive small_image.

Lemma load_terminates_witness :
  load_into 20 no_device disk_only 3 (image_mem small_bytes 65536) ROOT 65536 1536 ns_root <> Unfinished.
Proof.
  apply (load_terminates 20 no_device disk_only (image_mem small_bytes 65536) ROOT 65536 1536 ns_root 3); [lia|lia|done| |lia].
  assert (H : forallb (fun a => negb (magic_ok (image_mem small_bytes 0) a) ||
      bool_decide (Forall (fun c => c = 0 \/ 48 <= c <= 55) (take 11 (bytes (image_mem small_bytes 0) (a + 124) 12)))) (seqZ 0 1536) = true)
    by (vm_compute; reflexivity).
  intros a Ha Hm. rewrite forallb_forall in H. specialize (H (a - 65536)).
  assert (Hb : forall b n, bytes (image_mem small_bytes 65536) b n = bytes (image_mem small_bytes 0) (b - 65536) n).
  { intros b n. unfold bytes. apply list_eq. intros i. rewrite !list_lookup_fmap. destruct (decide (Z.of_nat i < n)).
    - rewrite !lookup_seqZ_lt by lia. cbn [fmap option_fmap option_map]. f_equal. unfold image_mem. f_equal. f_equal. lia.
    - rewrite !lookup_seqZ_ge by lia. done. }
  unfold magic_ok in *. rewrite Hb in *. replace (a + 257 - 65536) with (a - 65536 + 257) in Hm by lia. rewrite Hm in H.
  replace (a + 124 - 65536) with (a - 65536 + 124) by lia. cbn [negb orb] in H.
  apply bool_decide_eq_true in H; [exact H|]. apply list_elem_of_In, elem_of_seqZ. lia.
Defined.

Definition dot_header (a : Z) : Z :=
  nth (Z.to_nat a) (pad 100 (str "./") ++ replicate 24 48 ++ pad 12 (str "/000") ++ replicate 121 0 ++ str "ustar") 0.

Lemma load_never_ends_witness turns : load_from 20 no_device disk_only turns dot_header ROOT 0 512 ns_root = Unfinished.
Proof. by apply (load_never_ends 20 no_device disk_only dot_header ROOT 0 512 ns_root turns). Defined.

(** The device files of a booted kernel carry their numbers. *)
Example devices_made :
  match make_device_files 20 (fun _ => true) disk_only true false ns_root with
  | None => []
  | Some s => map (fun d => (fun x => x.1.2) <$> image_file d.1.1.1 true s) (firstn 3 device_files ++ skipn 9 device_files)
  end = [Some (make_dev_id 1 1); Some (make_dev_id 1 3); Some (make_dev_id 1 4); Some (make_dev_id 29 0); Some (make_dev_id 8 0)].
Proof. vm_compute. reflexivity. Qed.

Definition motd : Member := mkMember [] (str "motd") 420 5 (Regular (str "hello")).

Lemma regular_installed_witness :
  exists s' v nd, install 20 no_device no_device home_entry motd ns_home = Some s' /\
    entry_vnode (next_addr ns_home) s' = Some v /\ fs_data v = Some nd /\ file_content nd = str "hello".
Proof.
  destruct (entries ns_home !! home_entry) as [pd|] eqn:Hp; [|vm_compute in Hp; discriminate].
  destruct (fs_below home_entry ns_home) as [f|] eqn:Hf; [|vm_compute in Hf; discriminate].
  destruct (filesystems ns_home !! f) as [fd|] eqn:Hfd;
    [|exfalso; revert Hfd; vm_compute in Hf; injection Hf as <-; vm_compute; discriminate].
  assert (Hred : redirect pd = 0).
  { assert (redirect <$> entries ns_home !! home_entry = Some 0) as H by (vm_compute; reflexivity). rewrite Hp in H. by injection H. }
  destruct (regular_installed 20 no_device no_device ns_home home_entry home_entry [] home_entry pd f fd (str "motd") motd (str "hello"))
    as (s' & v & nd & H1 & _ & H3 & _ & _ & H6 & H7 & _).
  - apply fresh_check_ok. vm_compute. reflexivity.
  - vm_compute. reflexivity.
  - vm_compute. discriminate.
  - constructor.
  - apply is_dir_check. vm_compute. reflexivity.
  - apply plain_check. vm_compute. reflexivity.
  - vm_compute. discriminate.
  - exact Hp.
  - exact Hred.
  - exact Hf.
  - exact Hfd.
  - vm_compute. reflexivity.
  - simpl. lia.
  - reflexivity.
  - reflexivity.
  - simpl. lia.
  - vm_compute. discriminate.
  - exact (ex_intro _ s' (ex_intro _ v (ex_intro _ nd (conj H1 (conj H3 (conj H6 H7)))))).
Defined.
