(* ===== verification/ForkTables.v ===== *)
(** The page tables of a forked process: the first half of [Pagemap::fork]
    (src/kernel/src/mem/vmm.cpp), over the tables of PageTable.v.  The child's
    tables are a memory of their own, in frames of the shared allocator. *)
From S2P Require Import Prelude Pmm PageTable.

(** ** The child's page tables *)

(** Entry [i] of a table of level [k]: an absent one is copied, a table below
    gets a table of its own with the same bits, a page is left out. *)
Fixpoint fork_entry (k : nat) (src dst : Z) (pt : PageTables) (i : Z) (c : PageTables) : option PageTables :=
  let e := read_entry src i pt in
  if negb (has e PAGE_PRESENT) then Some (write_entry dst i e c)
  else
    match k with
    | O => Some c
    | S k =>
        '(new_page, c1) ← alloc_page_for_page_table c;
        let c2 := mkPT (pml4 c1) (<[new_page := replicate 512 0]> (tables c1)) (page_table_pages_list c1) (pt_pmm c1) in
        each (fork_entry k (Z.land e ADDR_MASK) new_page pt) (seqZ 0 512)
          (write_entry dst i (Z.lor new_page (Z.ldiff e ADDR_MASK)) c2)
    end.

(** The root: all its entries, then the tables of the lower half. *)
Definition fork_tables (pt : PageTables) : option PageTables :=
  '(t, c) ← alloc_page_for_page_table (mkPT 0 ∅ [] (pt_pmm pt));
  each (fork_entry 3 (pml4 pt) t pt) (seqZ 0 256)
    (mkPT t {[ t := default [] (tables pt !! pml4 pt) ]} (page_table_pages_list c) (pt_pmm c)).

(** The tables below the entries [l] of a table. *)
Fixpoint tables_below (k : nat) (t : Z) (pt : PageTables) (l : list Z) : nat :=
  match k with
  | O => 0
  | S k =>
      sum_list (map (fun i => let e := read_entry t i pt in
                              if has e PAGE_PRESENT then S (tables_below k (Z.land e ADDR_MASK) pt (seqZ 0 512)) else O) l)
  end.

(** What an entry of level [k] leads to at [v]. *)
Definition cell_val (k : nat) (e v : Z) (pt : PageTables) : Z :=
  match k with
  | O => e
  | S k => if has e PAGE_PRESENT then val_of k (Z.land e ADDR_MASK) v pt else 0
  end.

Definition absent (e : Z) : Z := if has e PAGE_PRESENT then 0 else e.

Lemma val_of_cell k t v pt : val_of k t v pt = cell_val k (read_entry t (index_at (12 + 9 * Z.of_nat k) v) pt) v pt.
Proof. unfold val_of. destruct k; [done|]. cbn [leaf_of cell_val]. by destruct (has _ _). Qed.

Lemma entry_of_val v pt : entry_of v pt = val_of 3 (pml4 pt) v pt.
Proof. apply entry_of_leaf. Qed.

(** Tables in frames of their own. *)
Record tables_ok (c : PageTables) : Prop := {
  to_pmm : pmm_wf (pt_pmm c);
  to_len : forall t l, tables c !! t = Some l -> length l = 512%nat;
  to_frame : forall t, is_Some (tables c !! t) -> exists pfn a, t = phy pfn /\ pages (pt_pmm c) !! pfn = Some (mkPage false a);
  to_bound : forall pfn, is_Some (pages (pt_pmm c) !! pfn) -> 0 <= pfn < 2 ^ 40
}.

Lemma fork_link p e : page_addr p -> has e PAGE_PRESENT = true ->
  Z.land (Z.lor p (Z.ldiff e ADDR_MASK)) ADDR_MASK = p /\ has (Z.lor p (Z.ldiff e ADDR_MASK)) PAGE_PRESENT = true.
Proof.
  intros Hp He. split.
  - apply Z.bits_inj'. intros n Hn. rewrite Z.land_spec, Z.lor_spec, Z.ldiff_spec, addr_mask_bits by done.
    rewrite (page_addr_bits p n Hp Hn). by destruct (Z.testbit p n), (Z.testbit e n), (12 <=? n), (n <? 52).
  - unfold has in *. apply negb_true_iff, Z.eqb_neq. intros H.
    assert (Hb : Z.testbit (Z.land (Z.lor p (Z.ldiff e ADDR_MASK)) PAGE_PRESENT) 0 = true); [|by rewrite H in Hb].
    assert (He0 : Z.testbit e 0 = true).
    { apply negb_true_iff, Z.eqb_neq in He. destruct (Z.testbit e 0) eqn:E; [done|]. exfalso. apply He.
      apply Z.bits_inj'. intros n Hn. rewrite Z.land_spec, Z.bits_0. change PAGE_PRESENT with (2 ^ 0).
      rewrite Z.pow2_bits_eqb by lia. destruct (Z.eqb_spec 0 n) as [<-|]; [by rewrite E|apply andb_false_r]. }
    rewrite Z.land_spec, Z.lor_spec, Z.ldiff_spec, He0. change (Z.testbit ADDR_MASK 0) with false.
    change (Z.testbit PAGE_PRESENT 0) with true. by rewrite orb_true_r.
Qed.

(** A fresh table. *)
Lemma alloc_table c : tables_ok c -> (0 < length (page_freelist (pt_pmm c)))%nat ->
  exists t c1, alloc_page_for_page_table c = Some (t, c1) /\ tables c1 = tables c /\ pml4 c1 = pml4 c /\
    tables c !! t = None /\ page_addr t /\
    (forall l, length l = 512%nat -> tables_ok (mkPT (pml4 c1) (<[t := l]> (tables c1)) (page_table_pages_list c1) (pt_pmm c1))) /\
    (length (page_freelist (pt_pmm c)) = S (length (page_freelist (pt_pmm c1))))%nat.
Proof.
  intros [Hwf Hlen Hfr Hb] Hroom. unfold alloc_page_for_page_table.
  destruct (alloc_page_total (pt_pmm c) Hwf) as (n & pmm & E); [intros E; by rewrite E in Hroom; simpl in Hroom; lia|].
  destruct (alloc_page_inv _ _ _ E) as (a & Hfree & Hpp & Hl). rewrite E. eexists _, _. split; [reflexivity|].
  cbn [tables pml4 pt_pmm page_table_pages_list]. do 2 (split; [done|]).
  assert (Hn : pages pmm !! n = Some (mkPage false a)) by (by rewrite Hpp, lookup_insert_eq).
  assert (Hother : forall q, q <> n -> pages pmm !! q = pages (pt_pmm c) !! q)
    by (intros q Hq; by rewrite Hpp, lookup_insert_ne).
  split; [|split; [exists n; split; [done|]; apply Hb; by eauto|split; [|by rewrite Hl]]].
  - destruct (tables c !! phy n) as [l|] eqn:Et; [|done]. destruct (Hfr (phy n) ltac:(eauto)) as (q & b & Hq & Hp).
    assert (n = q) as <- by (unfold phy, PAGE_SIZE in Hq; lia). congruence.
  - intros l Hll. constructor; cbn [pt_pmm tables].
    + by eapply alloc_page_wf.
    + intros t l'. destruct (decide (t = phy n)) as [->|]; [rewrite lookup_insert_eq; congruence|].
      rewrite lookup_insert_ne by done. apply Hlen.
    + intros t Ht. apply lookup_insert_is_Some in Ht as [<-|[_ Ht]]; [by eexists _, _|].
      destruct (Hfr t Ht) as (q & b & -> & Hp). exists q, b. split; [done|]. rewrite Hother; [done|]. intros ->. congruence.
    + intros q Hq. destruct (decide (q = n)) as [->|]; [apply Hb; by eauto|]. rewrite Hother in Hq by done. by apply Hb.
Qed.

Lemma write_tables_ok t i w c : tables_ok c -> tables_ok (write_entry t i w c).
Proof.
  intros [Hwf Hlen Hfr Hb]. constructor; cbn [write_entry pt_pmm tables]; auto.
  - intros t' l. destruct (decide (t' = t)) as [->|].
    + rewrite lookup_alter_eq. intros H. apply fmap_Some in H as (l0 & H0 & ->). rewrite length_insert. eauto.
    + rewrite lookup_alter_ne by done. eauto.
  - intros t' Ht. apply Hfr. destruct (decide (t' = t)) as [->|]; [|by rewrite lookup_alter_ne in Ht].
    rewrite lookup_alter_eq in Ht. by apply fmap_is_Some in Ht.
Qed.

Section Copy.
Context (pt : PageTables).

(** A table of [c'] that [c] had not. *)
Definition new_of (c c' : PageTables) (t : Z) : Prop := is_Some (tables c' !! t) /\ tables c !! t = None.

(** From [c0] to [c], only table [dst] changed and tables were added. *)
Record grown (c0 c : PageTables) (dst : Z) : Prop := {
  gr_ok : tables_ok c;
  gr_root : pml4 c = pml4 c0;
  gr_keep : forall t, t <> dst -> is_Some (tables c0 !! t) -> tables c !! t = tables c0 !! t;
  gr_dst0 : is_Some (tables c0 !! dst);
  gr_dst : is_Some (tables c !! dst)
}.

(** The entries [l] of table [dst] are copied, in every memory that has the
    new tables. *)
Definition cells_done (k : nat) (src dst : Z) (l : list Z) (c0 c : PageTables) : Prop :=
  forall c'', (forall t, new_of c0 c t -> tables c'' !! t = tables c !! t) ->
  forall v, index_at (12 + 9 * Z.of_nat k) v ∈ l ->
  cell_val k (read_entry dst (index_at (12 + 9 * Z.of_nat k) v) c) v c''
  = absent (cell_val k (read_entry src (index_at (12 + 9 * Z.of_nat k) v) pt) v pt).

Definition free_tables (c : PageTables) : nat := length (page_freelist (pt_pmm c)).

(** What copying entry [i] has to do. *)
Definition entry_copied (k : nat) (src dst i : Z) : Prop :=
  forall l c0 c, grown c0 c dst -> cells_done k src dst l c0 c -> i ∉ l -> 0 <= i < 512 ->
  (k = 0%nat -> read_entry dst i c = 0) -> (tables_below k src pt [i] <= free_tables c)%nat ->
  exists c', fork_entry k src dst pt i c = Some c' /\ grown c0 c' dst /\ cells_done k src dst (i :: l) c0 c' /\
    (free_tables c <= free_tables c' + tables_below k src pt [i])%nat /\
    (forall j, 0 <= j < 512 -> j <> i -> read_entry dst j c' = read_entry dst j c).

Lemma absent_idem e : has e PAGE_PRESENT = false -> absent e = e.
Proof. unfold absent. by intros ->. Qed.

Lemma tables_below_cons k t i l : (tables_below k t pt (i :: l) = tables_below k t pt [i] + tables_below k t pt l)%nat.
Proof. destruct k; [done|]. cbn [tables_below map sum_list sum_list_with fmap list_fmap id]. lia. Qed.

(** The loop over the entries of a table. *)
Lemma fork_loop k src dst zs : (forall i, i ∈ zs -> entry_copied k src dst i) ->
  forall l c0 c, grown c0 c dst -> cells_done k src dst l c0 c -> NoDup (zs ++ l) -> (forall i, i ∈ zs -> 0 <= i < 512) ->
  (k = 0%nat -> forall i, i ∈ zs -> read_entry dst i c = 0) -> (tables_below k src pt zs <= free_tables c)%nat ->
  exists c', each (fork_entry k src dst pt) zs c = Some c' /\ grown c0 c' dst /\
    cells_done k src dst (reverse zs ++ l) c0 c' /\ (free_tables c <= free_tables c' + tables_below k src pt zs)%nat /\
    (forall j, 0 <= j < 512 -> j ∉ zs -> read_entry dst j c' = read_entry dst j c).
Proof.
  induction zs as [|i zs IH]; intros Hstep l c0 c Hg Hd Hnd Hr Hz Hroom.
  - exists c. split; [done|]. split; [done|]. split; [done|]. split; [lia|done].
  - rewrite tables_below_cons in Hroom. cbn [app] in Hnd. apply NoDup_cons in Hnd as [Hnin Hnd].
    destruct (Hstep i ltac:(by left) l c0 c Hg Hd) as (c1 & E & Hg1 & Hd1 & Hf1 & Hs1);
      [set_solver|apply Hr; by left|intros Hk; apply Hz; [done|by left]|lia|].
    destruct (IH ltac:(intros j Hj; apply Hstep; by right) (i :: l) c0 c1 Hg1 Hd1) as (c2 & E2 & Hg2 & Hd2 & Hf2 & Hs2).
    + rewrite <- Permutation_middle. by apply NoDup_cons.
    + intros j Hj. apply Hr. by right.
    + intros Hk j Hj. rewrite Hs1; [apply Hz; [done|by right]|apply Hr; by right|]. intros ->. set_solver.
    + lia.
    + exists c2. cbn [each]. rewrite E. cbn [mbind option_bind]. split; [done|]. split; [done|].
      rewrite reverse_cons, <- app_assoc. split; [done|]. rewrite tables_below_cons. split; [lia|].
      intros j Hj Hjn. rewrite Hs2, Hs1; [done|done| |done|]; intros H; apply Hjn; [subst; by left|by right].
Qed.

(** A whole table, from one of zeros. *)
Lemma fork_table k src dst c :
  (forall i, 0 <= i < 512 -> entry_copied k src dst i) -> tables_ok c -> tables c !! dst = Some (replicate 512 0) ->
  (tables_below k src pt (seqZ 0 512) <= free_tables c)%nat ->
  exists c', each (fork_entry k src dst pt) (seqZ 0 512) c = Some c' /\ grown c c' dst /\
    (free_tables c <= free_tables c' + tables_below k src pt (seqZ 0 512))%nat /\
    forall c'', (forall t, new_of c c' t \/ t = dst -> tables c'' !! t = tables c' !! t) ->
      forall v, val_of k dst v c'' = absent (val_of k src v pt).
Proof.
  intros Hstep Hok Hdst Hroom.
  destruct (fork_loop k src dst (seqZ 0 512) ltac:(intros i Hi%elem_of_seqZ; apply Hstep; lia) [] c c) as (c' & E & Hg & Hd & Hf & _).
  - constructor; by eauto.
  - intros c'' _ v Hv. by apply elem_of_nil in Hv.
  - rewrite app_nil_r. apply NoDup_seqZ.
  - intros i Hi%elem_of_seqZ. lia.
  - intros _ i Hi%elem_of_seqZ. unfold read_entry. rewrite Hdst. by rewrite lookup_replicate_2 by lia.
  - done.
  - exists c'. split; [done|]. split; [done|]. split; [done|]. intros c'' Hc'' v. rewrite !val_of_cell.
    specialize (Hd c'' ltac:(intros t Ht; apply Hc''; by left) v). rewrite app_nil_r in Hd.
    assert (Hread : forall i, read_entry dst i c'' = read_entry dst i c').
    { intros i. unfold read_entry. by rewrite Hc'' by (by right). }
    rewrite Hread. apply Hd. rewrite elem_of_reverse, elem_of_seqZ. pose proof (index_range (12 + 9 * Z.of_nat k) v). lia.
Qed.

(** A change of table [dst] keeps the entries that were copied. *)
Lemma cells_keep k src dst l c0 c c' :
  grown c0 c dst -> grown c0 c' dst -> (forall t, new_of c0 c t -> tables c' !! t = tables c !! t) ->
  (forall j, j ∈ l -> 0 <= j < 512 -> read_entry dst j c' = read_entry dst j c) ->
  cells_done k src dst l c0 c -> cells_done k src dst l c0 c'.
Proof.
  intros Hg Hg' Hnew Hread Hd c'' Hc'' v Hv. rewrite Hread by (done || apply index_range). apply Hd; [|done].
  intros t Ht. rewrite Hc''; [by apply Hnew|]. destruct Ht as [H1 H2]. split; [|done]. rewrite Hnew by done. done.
Qed.

Lemma entry_spec k src dst i : entry_copied k src dst i.
Proof.
  revert src dst i. induction k as [k IHk] using lt_wf_ind. intros src dst i l c0 c Hg Hd Hi Hri Hz Hroom.
  pose proof Hg as [Hok Hroot Hkeep Hdst0 Hdst]. destruct Hdst as [ld Hld]. pose proof (to_len _ Hok _ _ Hld) as Hlen.
  assert (Hne : forall j, j ∈ l -> j <> i) by (intros j Hj ->; done).
  set (e := read_entry src i pt).
  destruct (has e PAGE_PRESENT) eqn:He.
  2: { exists (write_entry dst i e c).
    assert (Hrw : forall j, 0 <= j < 512 -> read_entry dst j (write_entry dst i e c) = if decide (j = i) then e else read_entry dst j c).
    { intros j Hj. rewrite (read_write_entry _ _ _ _ _ _ _ Hld Hlen) by done. repeat case_decide; naive_solver. }
    assert (Hg' : grown c0 (write_entry dst i e c) dst).
    { constructor; [by apply write_tables_ok|done| |done|cbn [write_entry tables]; rewrite lookup_alter_eq, Hld; by eexists].
      intros t Ht Hs. cbn [write_entry tables]. rewrite lookup_alter_ne by done. auto. }
    split; [destruct k; cbn [fork_entry]; fold e; by rewrite He|]. split; [done|]. split; [|split; [change (free_tables (write_entry dst i e c)) with (free_tables c); lia|]].
    - intros c'' Hc'' v [Hv|Hv]%elem_of_cons.
      + rewrite Hv, Hrw, decide_True by done. fold e. destruct k; cbn [cell_val]; [by rewrite absent_idem|]. by rewrite He.
      + assert (Hk : cells_done k src dst l c0 (write_entry dst i e c)).
        { eapply cells_keep; [exact Hg|done| |by intros j Hj1 Hj2; rewrite Hrw, decide_False by auto|done].
          intros t [_ Ht]. cbn [write_entry tables]. apply lookup_alter_ne. intros ->. rewrite Ht in Hdst0. by destruct Hdst0. }
        by apply Hk.
    - intros j Hj Hji. by rewrite Hrw, decide_False. }
  destruct k as [|k].
  - exists c. split; [cbn [fork_entry]; fold e; by rewrite He|]. split; [exact Hg|]. split; [|split; [lia|done]].
    intros c'' Hc'' v [Hv|Hv]%elem_of_cons; [|by apply Hd]. rewrite Hv, Hz by done. cbn [cell_val]. fold e. unfold absent.
    by rewrite He.
  - cbn [tables_below map sum_list sum_list_with fmap list_fmap id] in Hroom. fold e in Hroom. rewrite He in Hroom.
    destruct (alloc_table c Hok) as (t & c1 & Ea & Ht1 & Hr1 & Hnone & Hpa & Hok1 & Hfree); [unfold free_tables in Hroom; lia|].
    set (w := Z.lor t (Z.ldiff e ADDR_MASK)). destruct (fork_link t e Hpa He) as [Hwm Hwp]. fold w in Hwm, Hwp.
    set (c2 := mkPT (pml4 c1) (<[t := replicate 512 0]> (tables c1)) (page_table_pages_list c1) (pt_pmm c1)).
    set (c3 := write_entry dst i w c2).
    assert (Htd : t <> dst) by (intros ->; congruence).
    assert (Hld2 : tables c2 !! dst = Some ld) by (cbn [c2 tables]; by rewrite lookup_insert_ne, Ht1).
    assert (Hok3 : tables_ok c3) by (apply write_tables_ok, Hok1; by rewrite length_replicate).
    assert (Ht3 : tables c3 !! t = Some (replicate 512 0))
      by (cbn [c3 write_entry tables]; rewrite lookup_alter_ne by done; cbn [c2 tables]; by rewrite lookup_insert_eq).
    assert (Hf3 : (free_tables c = S (free_tables c3))%nat) by done.
    destruct (fork_table k (Z.land e ADDR_MASK) t c3) as (c4 & E4 & Hg4 & Hf4 & Hval);
      [intros j Hj; apply IHk; lia|done|done|lia|].
    destruct Hg4 as [Hok4 Hroot4 Hkeep4 _ Hdst4].
    assert (Hc4 : forall q, q <> t -> is_Some (tables c !! q) -> tables c4 !! q = tables c3 !! q).
    { intros q Hq Hs. apply Hkeep4; [done|]. cbn [c3 write_entry tables]. destruct (decide (q = dst)) as [->|].
      - rewrite lookup_alter_eq, Hld2. by eexists.
      - rewrite lookup_alter_ne by done. cbn [c2 tables]. by rewrite lookup_insert_ne, Ht1 by done. }
    assert (Hother : forall q, q <> dst -> is_Some (tables c !! q) -> tables c4 !! q = tables c !! q).
    { intros q Hq Hs. assert (q <> t) by (intros ->; rewrite Hnone in Hs; by destruct Hs). rewrite Hc4 by done.
      cbn [c3 write_entry tables]. rewrite lookup_alter_ne by done. cbn [c2 tables]. by rewrite lookup_insert_ne, Ht1 by done. }
    assert (Hrw : forall j, 0 <= j < 512 -> read_entry dst j c4 = if decide (j = i) then w else read_entry dst j c).
    { intros j Hj. unfold read_entry at 1. rewrite Hc4 by (done || by eauto). fold (read_entry dst j c3). unfold c3.
      rewrite (read_write_entry _ _ _ _ _ _ _ Hld2 Hlen) by done. destruct (decide (j = i)) as [->|Hji].
      - by rewrite decide_True.
      - rewrite decide_False by (by intros [_ ?]). unfold read_entry. by rewrite Hld2, Hld. }
    assert (Hg4 : grown c0 c4 dst).
    { constructor; [done|rewrite Hroot4; cbn [c3 write_entry pml4 c2]; congruence| |done|rewrite Hc4 by (done || by eauto)].
      - intros q Hq Hs. rewrite Hother; [auto|done|]. by rewrite Hkeep.
      - cbn [c3 write_entry tables]. rewrite lookup_alter_eq, Hld2. by eexists. }
    exists c4. split; [cbn [fork_entry]; fold e; rewrite He; cbn [negb]; rewrite Ea; cbn [mbind option_bind]; exact E4|].
    split; [done|]. split; [|split; [cbn [tables_below map sum_list sum_list_with fmap list_fmap id]; fold e; rewrite He; lia|by intros j Hj Hji; rewrite Hrw, decide_False]].
    intros c'' Hc'' v [Hv|Hv]%elem_of_cons.
    + rewrite Hv, Hrw, decide_True by done. fold e. cbn [cell_val]. rewrite Hwp, He, Hwm. apply Hval.
      intros q [[H1 H2]| ->]; apply Hc''; split; [done| |done|].
      * destruct (tables c0 !! q) eqn:Eq; [|done]. assert (q <> dst).
        { intros ->. cbn [c3 write_entry tables] in H2. rewrite lookup_alter_eq, Hld2 in H2. done. }
        assert (Hq : is_Some (tables c !! q)) by (rewrite Hkeep by (done || by eauto); by eexists).
        assert (q <> t) by (intros ->; rewrite Hnone in Hq; by destruct Hq).
        cbn [c3 write_entry tables] in H2. rewrite lookup_alter_ne in H2 by done. cbn [c2 tables] in H2.
        rewrite lookup_insert_ne, Ht1 in H2 by done. rewrite H2 in Hq. by destruct Hq.
      * destruct (tables c0 !! t) eqn:Eq; [|done]. rewrite Hkeep in Hnone by (done || by eauto). congruence.
    + assert (Hk : cells_done (S k) src dst l c0 c4).
      { eapply cells_keep; [exact Hg|done| |by intros j Hj1 Hj2; rewrite Hrw, decide_False by auto|done].
        intros q [H1 H2]. apply Hother; [|done]. intros ->. rewrite H2 in Hdst0. by destruct Hdst0. }
      by apply Hk.
Qed.
End Copy.

(** C30: The tables fork makes: in the lower half, absent entries are those of the
    parent and present ones are gone, whatever tables lead to them; the upper
    half is the parent's, that of the kernel. *)
Theorem fork_tables_spec pt l :
  pmm_wf (pt_pmm pt) -> (forall pfn, is_Some (pages (pt_pmm pt) !! pfn) -> 0 <= pfn < 2 ^ 40) ->
  tables pt !! pml4 pt = Some l -> length l = 512%nat ->
  (S (tables_below 3 (pml4 pt) pt (seqZ 0 256)) <= free_tables pt)%nat ->
  exists c, fork_tables pt = Some c /\
    (forall v, 0 <= v < 2 ^ 47 -> entry_of v c = absent (entry_of v pt)) /\
    (forall i, 256 <= i < 512 -> read_entry (pml4 c) i c = read_entry (pml4 pt) i pt).
Proof.
  intros Hpmm Hb Hl Hlen Hroom.
  assert (Hok0 : tables_ok (mkPT 0 ∅ [] (pt_pmm pt))) by (constructor; cbn [pt_pmm tables]; auto; intros t; rewrite lookup_empty; [done|by intros []]).
  destruct (alloc_table _ Hok0) as (t & c1 & Ea & Ht1 & _ & _ & _ & Hok1 & Hfree); [cbn [pt_pmm]; unfold free_tables in Hroom; lia|].
  unfold fork_tables. rewrite Ea, Hl. cbn [mbind option_bind default from_option id].
  set (c0 := mkPT t {[t := l]} (page_table_pages_list c1) (pt_pmm c1)).
  assert (Hokc : tables_ok c0).
  { specialize (Hok1 l Hlen). rewrite Ht1 in Hok1. destruct Hok1 as [H1 H2 H3 H4]. by constructor. }
  assert (Ht0 : tables c0 !! t = Some l) by apply lookup_singleton_eq.
  destruct (fork_loop pt 3 (pml4 pt) t (seqZ 0 256) ltac:(intros i _; apply entry_spec) [] c0 c0) as (c & E & Hg & Hd & _ & Hs).
  - constructor; by eauto.
  - intros c'' _ v Hv. by apply elem_of_nil in Hv.
  - rewrite app_nil_r. apply NoDup_seqZ.
  - intros i Hi%elem_of_seqZ. lia.
  - done.
  - unfold free_tables in *. cbn [c0 pt_pmm] in *. lia.
  - exists c. split; [exact E|]. rewrite (gr_root _ _ _ Hg). cbn [c0 pml4]. split.
    + intros v Hv. rewrite !entry_of_val, (gr_root _ _ _ Hg). cbn [c0 pml4]. rewrite !val_of_cell. apply Hd; [done|].
      rewrite app_nil_r, elem_of_reverse, elem_of_seqZ. change (12 + 9 * Z.of_nat 3) with 39.
      pose proof (index_range 39 v). split; [lia|]. unfold index_at. change 511 with (Z.ones 9).
      rewrite Z.land_ones, Z.shiftr_div_pow2 by lia. apply Z.le_lt_trans with (v / 2 ^ 39).
      * apply Z.mod_le; [apply Z.div_pos; lia|lia].
      * apply Z.div_lt_upper_bound; lia.
    + intros i Hi. rewrite Hs by (lia || rewrite elem_of_seqZ; lia). unfold read_entry. by rewrite Ht0, Hl.
Qed.

(** ** A process with one page *)
Definition one_page : PageTables :=
  default (mkPT 0 ∅ [] (Pmm_init small_memmap))
    (pt ← Pagemap_new (Pmm_init small_memmap); map_page 123456789 4198400 7 pt).

Lemma one_page_pmm : pmm_wf (pt_pmm one_page) /\ forall pfn, is_Some (pages (pt_pmm one_page) !! pfn) -> 0 <= pfn < 2 ^ 40.
Proof.
  unfold one_page. destruct (Pagemap_new (Pmm_init small_memmap)) as [pt|] eqn:Hpt; [|vm_compute in Hpt; discriminate].
  destruct (small_new_wf pt Hpt) as [Hwf _]. cbn [mbind option_bind].
  destruct (map_page_refines 123456789 4198400 7 pt _ Hwf) as (pt' & lvl & H1 & Hwf' & _).
  - split; [lia|reflexivity].
  - vm_compute in Hpt. injection Hpt as <-. vm_compute. lia.
  - rewrite H1. split; [apply (pt_pmm_wf _ _ Hwf')|apply (pt_frames _ _ Hwf')].
Qed.

Lemma fork_tables_spec_witness :
  exists c, fork_tables one_page = Some c /\ entry_of 4198400 one_page = 123453447 /\ entry_of 4198400 c = 0.
Proof.
  destruct (tables one_page !! pml4 one_page) as [l|] eqn:Hl; [|vm_compute in Hl; discriminate].
  destruct one_page_pmm as [Hpmm Hb].
  destruct (fork_tables_spec one_page l Hpmm Hb Hl) as (c & E & Hlow & _).
  - assert (H : (fun o => length <$> o) (tables one_page !! pml4 one_page) = Some 512%nat) by (vm_compute; reflexivity).
    rewrite Hl in H. injection H as H. exact H.
  - vm_compute. lia.
  - exists c. split; [exact E|]. assert (He : entry_of 4198400 one_page = 123453447) by (vm_compute; reflexivity).
    split; [exact He|]. rewrite Hlow by lia. rewrite He. reflexivity.
Defined.
