(* ===== verification/Fork.v ===== *)
(** Copying and reaching into address spaces (src/kernel/src/mem/vmm.cpp):
    [Pagemap::fork], the destructor of a pagemap and [Pagemap::access_memory],
    over the address spaces of AddressSpace.v and the tables of PageTable.v.

    Physical memory is the contents of the frames, 4096 bytes each. *)
From S2P Require Import Prelude Pmm PageTable AddressSpace MemSyscalls.

Abbreviation Ram := (gmap Z (list Z)).

(** ** fork *)

(** The page list of a range. *)
Definition page_list (r : Z) (s : Pagemap) : list Z :=
  map fst (filter (fun fo => snd fo = r) (map_to_list (page_owner s))).

(** One page of a range: a frame of its own for the child, mapped at the same
    address, with the same contents. *)
Definition fork_page (new_range : MappedRange) (old_page : Z) (cr : Pagemap * Ram) : option (Pagemap * Ram) :=
  let '(c, ram) := cr in
  old ← pages (pm_pmm c) !! old_page;
  '(n, pmm) ← alloc_page (pm_pmm c);
  let virt := mapped_addr old in
  Some (mkPagemap (range_list c) (<[vpn virt := Z.lor (Z.land (phy n) ADDR_MASK) (page_flags new_range)]> (ptes c))
          (<[n := rid new_range]> (page_owner c)) (file_refs c) (set_mapped_addr n virt pmm) (next_rid c),
        <[n := default [] (ram !! old_page)]> ram).

Definition fork_range (s : Pagemap) (old_range : MappedRange) (cr : Pagemap * Ram) : option (Pagemap * Ram) :=
  let '(c, ram) := cr in
  c1 ← add_range (base old_range) (range_length old_range) (page_flags old_range) (range_type old_range) false
         (phy_base old_range) (file old_range) (file_offset old_range) false false c;
  new_range ← List.find (fun y => rid y =? next_rid c) (range_list c1);
  match range_type new_range with
  | ANONYMOUS | FILE => each (fork_page new_range) (page_list (rid old_range) s) (c1, ram)
  | DIRECT | DIRECT_VIRTUAL => Some (c1, ram)
  | NONE => None
  end.

(** The child starts with the entries that are not present; what both share
    (frames, references of descriptions) goes on from the child's. *)
Definition fork (s : Pagemap) (ram : Ram) : option (Pagemap * Pagemap * Ram) :=
  let c0 := mkPagemap [] (filter (fun ve => has (snd ve) PAGE_PRESENT = false) (ptes s)) ∅ (file_refs s) (pm_pmm s)
              (next_rid s) in
  '(c, ram') ← each (fork_range s) (range_list s) (c0, ram);
  Some (mkPagemap (range_list s) (ptes s) (page_owner s) (file_refs c) (pm_pmm c) (next_rid c), c, ram').

(** The byte a user reads at an address; nothing where no page is present. *)
Definition user_byte (s : Pagemap) (ram : Ram) (a : Z) : option Z :=
  e ← ptes s !! vpn a;
  if has e PAGE_PRESENT then bs ← ram !! (Z.land e ADDR_MASK / PAGE_SIZE); bs !! Z.to_nat (a mod PAGE_SIZE) else None.

(** ** What fork makes *)

(** Each page knows the address it is mapped at. *)
Definition addrs_ok (s : Pagemap) : Prop :=
  forall f r, page_owner s !! f = Some r ->
  exists a e, a mod PAGE_SIZE = 0 /\ pages (pm_pmm s) !! f = Some (mkPage false a) /\ ptes s !! vpn a = Some e /\ Z.land e ADDR_MASK = phy f.

(** A range of the child is like the parent's, counted from its own base. *)
Definition like (x y : MappedRange) : Prop :=
  base y = base x /\ original_base y = base x /\ range_length y = range_length x /\ page_flags y = page_flags x /\
  range_type y = range_type x /\ phy_base y = phy_base x /\ file y = file x /\ file_offset y = file_offset x.

(** Pages of anonymous and file ranges are copied. *)
Definition copies (x : MappedRange) : bool :=
  match range_type x with ANONYMOUS | FILE => true | _ => false end.

Lemma elem_page_list f r s : f ∈ page_list r s <-> page_owner s !! f = Some r.
Proof.
  unfold page_list. change (map fst) with (fmap (M := list) (@fst Z Z)). rewrite list_elem_of_fmap. split.
  - intros ([f' r'] & -> & H). apply list_elem_of_filter in H as [Hr H]. simpl in *. subst.
    by apply elem_of_map_to_list in H.
  - intros H. exists (f, r). split; [done|]. apply list_elem_of_filter. split; [done|]. by apply elem_of_map_to_list.
Qed.

Lemma land_phy f : 0 <= f < 2 ^ 40 -> Z.land (phy f) ADDR_MASK = phy f.
Proof. intros Hf. pose proof (land_phy_lor f 0 Hf eq_refl) as H. by rewrite Z.lor_0_r in H. Qed.

Section Fork.
Context (s : Pagemap) (ram : Ram) (Hs : as_wf s) (Ha : addrs_ok s).

(** The child's entry for the page of frame [f] of the parent. *)
Definition copied (c : Pagemap) (ram' : Ram) (f v : Z) : Prop :=
  exists a x n y, page_owner s !! f = Some (rid x) /\ x ∈ range_list s /\ copies x = true /\
    pages (pm_pmm s) !! f = Some (mkPage false a) /\ v = vpn a /\
    y ∈ range_list c /\ like x y /\
    ptes c !! v = Some (Z.lor (phy n) (page_flags x)) /\ page_owner c !! n = Some (rid y) /\
    0 <= n < 2 ^ 40 /\ ram' !! n = Some (default [] (ram !! f)) /\ page_owner s !! n = None.

(** The state of the loops after the ranges [xs] and frames [fs]. *)
Record forking (xs : list MappedRange) (fs : list Z) (c : Pagemap) (ram' : Ram) : Prop := {
  fg_wf : as_wf c;
  fg_next : next_rid s <= next_rid c;
  fg_ranges : forall y, y ∈ range_list c -> exists x, x ∈ xs /\ like x y;
  fg_ranges' : forall x, x ∈ xs -> exists y, y ∈ range_list c /\ like x y;
  fg_pages : forall f a, is_Some (page_owner s !! f) -> pages (pm_pmm s) !! f = Some (mkPage false a) ->
    pages (pm_pmm c) !! f = Some (mkPage false a);
  fg_ram : forall f, is_Some (page_owner s !! f) -> ram' !! f = ram !! f;
  fg_done : forall f, f ∈ fs -> exists v, copied c ram' f v;
  fg_only : forall v e, ptes c !! v = Some e -> exists f, f ∈ fs /\ copied c ram' f v;
  fg_free : (length (page_freelist (pm_pmm s)) <= length (page_freelist (pm_pmm c)) + length fs)%nat
}.

Lemma owner_frame f r : page_owner s !! f = Some r -> 0 <= f < 2 ^ 40.
Proof.
  intros H. destruct (Ha f r H) as (a & e & _ & Hp & _). apply (fk_frame _ (aw_frames _ Hs)). eauto.
Qed.

(** The page of an owned frame lies in the range that owns it. *)
Lemma owned_page f x a :
  page_owner s !! f = Some (rid x) -> x ∈ range_list s -> pages (pm_pmm s) !! f = Some (mkPage false a) ->
  covers x a /\ a mod PAGE_SIZE = 0 /\
  exists e, ptes s !! vpn a = Some e /\ Z.land e ADDR_MASK = phy f /\ e = Z.lor (phy f) (page_flags x).
Proof.
  intros Ho Hx Hp. destruct (Ha f _ Ho) as (a' & e & Hal & Hp' & He & Hm). assert (a' = a) as -> by congruence.
  destruct Hs as [Hro Hfr Hpg].
  assert (Hv : page_view s (vpn a) = Some (e, Some (rid x))) by (apply page_view_Some; by rewrite Hm, phy_div).
  destruct (Hpg _ _ _ Hv) as (r & Hr & [(x' & Hx' & Hrx & Hc & Hw)|[? _]]); [|lia]. injection Hr as <-.
  assert (x' = x) as -> by (by eapply (rid_unique (range_list s)); [apply Hro|..]).
  assert (Hva : vpn a * PAGE_SIZE = a).
  { unfold vpn, PAGE_SIZE in *. pose proof (Z.div_mod a 4096 ltac:(lia)). lia. }
  rewrite Hva in Hc. split; [done|]. split; [done|]. exists e. split; [done|]. split; [done|]. by rewrite <- Hm.
Qed.

Lemma fork_page_spec xs fs c ram' x y f :
  forking xs fs c ram' -> x ∈ range_list s -> y ∈ range_list c -> like x y -> copies x = true ->
  page_owner s !! f = Some (rid x) -> f ∉ fs -> (length fs < length (page_freelist (pm_pmm s)))%nat ->
  exists c' ram'', fork_page y f (c, ram') = Some (c', ram'') /\ forking xs (f :: fs) c' ram'' /\
    range_list c' = range_list c /\ next_rid c' = next_rid c.
Proof.
  intros [Hwf Hnext Hrg Hrg' Hpages Hram Hdone Honly Hfree] Hx Hy Hl Hcp Ho Hnew Hroom.
  destruct (Ha f _ Ho) as (a & e0 & Hal & Hp & _ & _).
  destruct (owned_page f x a Ho Hx Hp) as (Hcov & _ & e & He & Hm & _).
  pose proof Hwf as [Hro Hfr Hpg]. pose proof Hl as (Hl1 & _ & Hl2 & Hl3 & _).
  destruct (alloc_page_total (pm_pmm c) (fk_pmm _ Hfr)) as (n & pmm & Hal').
  { intros E. rewrite E in Hfree. simpl in Hfree. lia. }
  destruct (alloc_page_inv _ _ _ Hal') as (b & Hpb & _ & Hlen).
  destruct (alloc_page_fresh c n pmm Hfr Hal') as (Hn & Hpn & Hno & Hown).
  unfold fork_page. rewrite (Hpages f a ltac:(eauto) Hp). cbn [mbind option_bind mapped_addr]. rewrite Hal'.
  cbn [mbind option_bind]. rewrite (land_phy n Hn). eexists _, _. split; [reflexivity|]. split; [|done].
  assert (Hns : page_owner s !! n = None).
  { destruct (page_owner s !! n) as [r|] eqn:E; [|done]. destruct (Ha n r E) as (a' & e' & _ & Hp' & _).
    pose proof (Hpages n a' ltac:(eauto) Hp'). congruence. }
  assert (Hv : ptes c !! vpn a = None).
  { destruct (ptes c !! vpn a) as [e'|] eqn:E; [|done]. exfalso.
    destruct (Honly _ _ E) as (f' & Hf' & a' & x' & n' & y' & Ho' & Hx' & _ & Hp' & Hv' & _).
    destruct (owned_page f' x' a' Ho' Hx' Hp') as (_ & _ & e2 & He2 & Hm2 & _). rewrite <- Hv', He in He2.
    injection He2 as <-. rewrite Hm in Hm2. apply phy_inj in Hm2. congruence. }
  assert (Hcy : covers y a) by (unfold covers in *; rewrite Hl1, Hl2; done).
  assert (Hkeep : forall c' ram'' f' v', copied c ram' f' v' ->
    range_list c' = range_list c -> ptes c' = <[vpn a := Z.lor (phy n) (page_flags y)]> (ptes c) ->
    page_owner c' = <[n := rid y]> (page_owner c) -> ram'' = <[n := default [] (ram' !! f)]> ram' -> copied c' ram'' f' v').
  { intros c' ram'' f' v' (a' & x' & n' & y' & H1 & H2 & H3 & H4 & H5 & H6 & H7 & H8 & H9 & H10 & H11 & H12) E1 E2 E3 E4.
    exists a', x', n', y'. rewrite E1, E2, E3, E4.
    assert (vpn a <> v') by (intros <-; congruence). assert (n <> n') by (intros <-; congruence).
    rewrite !lookup_insert_ne by done. by do 11 (split; [done|]). }
  constructor; cbn [range_list next_rid pm_pmm]; auto.
  - by apply fault_wf.
  - intros f' a' Hf' Hp'. assert (f' <> n) by (intros ->; destruct Hf'; congruence).
    cbn [set_mapped_addr pages]. rewrite lookup_insert_ne, Hpn, lookup_insert_ne by done. auto.
  - intros f' Hf'. rewrite lookup_insert_ne; [auto|]. intros ->. destruct Hf'; congruence.
  - intros f' [->|Hf']%elem_of_cons.
    + exists (vpn a), a, x, n, y. cbn [ptes page_owner]. rewrite !lookup_insert_eq, Hl3, (Hram f) by eauto.
      by do 11 (split; [done|]).
    + destruct (Hdone f' Hf') as [v' Hv']. exists v'. by eapply Hkeep.
  - intros v' e' He'. cbn [ptes] in He'. apply lookup_insert_Some in He' as [[<- <-]|[Hne He']].
    + exists f. split; [by left|]. exists a, x, n, y. cbn [ptes page_owner]. rewrite !lookup_insert_eq, Hl3, (Hram f) by eauto.
      by do 11 (split; [done|]).
    + destruct (Honly v' e' He') as (f' & Hf' & Hc'). exists f'. split; [by right|]. by eapply Hkeep.
  - cbn [set_mapped_addr page_freelist length]. rewrite Hlen in Hfree. simpl in Hfree. lia.
Qed.

Lemma fork_pages_spec xs fs0 fs c ram' x y :
  forking xs fs0 c ram' -> x ∈ range_list s -> y ∈ range_list c -> like x y -> copies x = true ->
  (forall f, f ∈ fs -> page_owner s !! f = Some (rid x) /\ f ∉ fs0) -> NoDup fs ->
  (length fs0 + length fs <= length (page_freelist (pm_pmm s)))%nat ->
  exists c' ram'' fs', each (fork_page y) fs (c, ram') = Some (c', ram'') /\ forking xs fs' c' ram'' /\
    range_list c' = range_list c /\ next_rid c' = next_rid c /\ (forall f, f ∈ fs' <-> f ∈ fs \/ f ∈ fs0) /\
    length fs' = (length fs0 + length fs)%nat.
Proof.
  intros Hf Hx. revert fs0 c ram' Hf. induction fs as [|f fs IH]; intros fs0 c ram' Hf Hy Hl Hcp Hfs Hnd Hroom.
  - exists c, ram', fs0. split; [done|]. do 3 (split; [done|]). split; [set_solver|simpl; lia].
  - apply NoDup_cons in Hnd as [Hnin Hnd]. cbn [length] in Hroom.
    destruct (Hfs f ltac:(by left)) as [Ho Hnew].
    destruct (fork_page_spec xs fs0 c ram' x y f Hf Hx Hy Hl Hcp Ho Hnew ltac:(lia)) as (c1 & ram1 & E & Hf1 & Hr1 & Hn1).
    destruct (IH (f :: fs0) c1 ram1 Hf1) as (c2 & ram2 & fs2 & E2 & Hf2 & Hr2 & Hn2 & Hm2 & Hlen2);
      [by rewrite Hr1|done|done| |done|cbn [length]; lia|].
    { intros f' Hf'. destruct (Hfs f' ltac:(by right)) as [? ?]. split; [done|]. set_solver. }
    exists c2, ram2, fs2. cbn [each]. rewrite E. cbn [mbind option_bind].
    split; [done|]. split; [done|]. split; [congruence|]. split; [congruence|]. split; [set_solver|].
    cbn [length] in *. lia.
Qed.

Lemma find_unique {A} (p : A -> bool) l x :
  x ∈ l -> p x = true -> (forall y, y ∈ l -> p y = true -> y = x) -> List.find p l = Some x.
Proof.
  intros Hx Hp Hu. destruct (List.find p l) as [y|] eqn:E.
  - apply List.find_some in E as [Hy Hpy]. by rewrite (Hu y (proj2 (list_elem_of_In _ _) Hy) Hpy).
  - apply List.find_none with (x := x) in E; [congruence|by apply list_elem_of_In].
Qed.

Lemma page_list_nodup r : NoDup (page_list r s).
Proof.
  unfold page_list. assert (Hsub : filter (fun fo : Z * Z => snd fo = r) (map_to_list (page_owner s)) `sublist_of` map_to_list (page_owner s))
    by apply sublist_filter.
  change (map fst) with (fmap (M := list) (@fst Z Z)). eapply sublist_NoDup; [apply (NoDup_fst_map_to_list (page_owner s))|].
  by apply fmap_sublist.
Qed.

Lemma fork_range_spec xs fs c ram' x :
  forking xs fs c ram' -> x ∈ range_list s -> (forall x', x' ∈ xs -> x' ∈ range_list s /\ rid x' <> rid x) ->
  (forall f, f ∈ fs -> page_owner s !! f <> Some (rid x)) ->
  (length fs + length (page_list (rid x) s) <= length (page_freelist (pm_pmm s)))%nat ->
  exists c' ram'' fs', fork_range s x (c, ram') = Some (c', ram'') /\ forking (x :: xs) fs' c' ram'' /\
    (forall f, f ∈ fs' <-> f ∈ fs \/ copies x = true /\ page_owner s !! f = Some (rid x)) /\
    (length fs' <= length fs + length (page_list (rid x) s))%nat.
Proof.
  intros Hfk Hx Hxs Hfs Hroom. pose proof Hfk as [Hwf Hnext Hrg Hrg' Hpages Hram Hdone Honly Hfree].
  destruct Hwf as [Hro Hfr Hpg]. pose proof Hs as [Hros Hfrs Hpgs]. destruct (ro_ok _ _ Hros x Hx) as [Hrx Hfx].
  pose proof (rk_type _ Hrx) as Hty.
  set (y := mkRange (next_rid c) (base x) (base x) (range_length x) (page_flags x) (range_type x) (phy_base x) (file x) (file_offset x)).
  set (c1 := mkPagemap (insert_position y (range_list c)) (ptes c) (page_owner c) (ref_file (file x) 1 (file_refs c)) (pm_pmm c) (next_rid c + 1)).
  assert (Hadd : add_range (base x) (range_length x) (page_flags x) (range_type x) false (phy_base x) (file x) (file_offset x)
      false false c = Some c1).
  { unfold add_range. cbn [andb]. by rewrite bool_decide_false by done. }
  assert (Hyin : y ∈ range_list c1) by (cbn [c1 range_list]; rewrite insert_position_perm; by left).
  assert (Hlike : like x y) by done.
  assert (Hro1 : ranges_ok (range_list c1) (next_rid c1)).
  { apply ranges_ok_insert; [done|done|by destruct Hrx|done|]. intros y' Hy'. destruct (Hrg y' Hy') as (x' & Hx' & Hl1 & _ & Hl2 & _).
    destruct (Hxs x' Hx') as [Hin Hne]. pose proof (ro_disj _ _ Hros x x' Hx Hin ltac:(congruence)) as Hd.
    unfold disjoint_ranges in *. cbn [y base range_length]. rewrite Hl1, Hl2. lia. }
  assert (Hmono : forall y', y' ∈ range_list c -> y' ∈ range_list c1)
    by (intros y' Hy'; cbn [c1 range_list]; rewrite insert_position_perm; by right).
  assert (Hwf1 : as_wf c1).
  { constructor; [done|by destruct Hfr|]. intros v w o Hw. destruct (Hpg v w o Hw) as (r & -> & [(y' & Hy' & H)|[? _]]); [|lia].
    exists r. split; [done|]. left. exists y'. split; [auto|done]. }
  assert (Hfk1 : forking (x :: xs) fs c1 ram').
  { constructor; cbn [next_rid c1 pm_pmm]; auto; [lia|..].
    - intros y'. cbn [c1 range_list]. rewrite insert_position_perm, elem_of_cons. intros [->|Hy'].
      + exists x. split; [by left|done].
      + destruct (Hrg y' Hy') as (x' & Hx' & Hl). exists x'. split; [by right|done].
    - intros x' [->|Hx']%elem_of_cons; [by exists y|]. destruct (Hrg' x' Hx') as (y' & Hy' & Hl). exists y'. auto.
    - intros f Hf. destruct (Hdone f Hf) as (v & a & x' & n & y' & H). exists v, a, x', n, y'. naive_solver.
    - intros v e He. destruct (Honly v e He) as (f & Hf & a & x' & n & y' & H). exists f. split; [done|]. exists a, x', n, y'. naive_solver. }
  unfold fork_range. rewrite Hadd. cbn [mbind option_bind].
  rewrite (find_unique _ (range_list c1) y Hyin) by
    (apply Z.eqb_refl || (intros y' Hy' E; apply Z.eqb_eq in E; by eapply (rid_unique (range_list c1)); [apply Hro1|..])).
  cbn [mbind option_bind range_type y].
  destruct (copies x) eqn:Hcp.
  - assert (Hgo : exists c' ram'' fs', each (fork_page y) (page_list (rid x) s) (c1, ram') = Some (c', ram'') /\ forking (x :: xs) fs' c' ram'' /\
      range_list c' = range_list c1 /\ next_rid c' = next_rid c1 /\ (forall f, f ∈ fs' <-> f ∈ page_list (rid x) s \/ f ∈ fs) /\
      length fs' = (length fs + length (page_list (rid x) s))%nat).
    { apply fork_pages_spec with x; try done; [|apply page_list_nodup]. intros f Hf. apply elem_page_list in Hf. split; [done|].
      intros Hin. by apply (Hfs f Hin). }
    destruct Hgo as (c' & ram'' & fs' & E & H1 & _ & _ & H2 & H3). exists c', ram'', fs'.
    split; [unfold copies in Hcp; destruct (range_type x); done|]. split; [done|]. split; [|lia].
    intros f. rewrite H2, elem_page_list. naive_solver.
  - exists c1, ram', fs. split; [unfold copies in Hcp; destruct (range_type x); done|]. split; [done|]. split; [|lia].
    intros f. naive_solver.
Qed.

Lemma fork_ranges_spec zs : forall xs fs c ram',
  forking xs fs c ram' -> (forall x, x ∈ zs -> x ∈ range_list s) -> (forall x, x ∈ xs -> x ∈ range_list s) ->
  NoDup (map rid (zs ++ xs)) ->
  (forall f, f ∈ fs -> exists x, x ∈ xs /\ page_owner s !! f = Some (rid x)) ->
  (forall x f, x ∈ xs -> copies x = true -> page_owner s !! f = Some (rid x) -> f ∈ fs) ->
  (length fs + length (flat_map (fun x => page_list (rid x) s) zs) <= length (page_freelist (pm_pmm s)))%nat ->
  exists c' ram'' fs', each (fork_range s) zs (c, ram') = Some (c', ram'') /\ forking (reverse zs ++ xs) fs' c' ram'' /\
    (forall x f, x ∈ zs ++ xs -> copies x = true -> page_owner s !! f = Some (rid x) -> f ∈ fs').
Proof.
  induction zs as [|x zs IH]; intros xs fs c ram' Hf Hzs Hxs Hnd Hsub Hall Hroom.
  - exists c, ram', fs. by rewrite reverse_nil.
  - cbn [flat_map] in Hroom. rewrite length_app in Hroom. cbn [app map] in Hnd. apply NoDup_cons in Hnd as [Hnin Hnd].
    assert (Hother : forall x', x' ∈ zs ++ xs -> rid x' <> rid x).
    { intros x' Hx' E. apply Hnin. change (map rid) with (fmap (M := list) rid). apply list_elem_of_fmap. by exists x'. }
    destruct (fork_range_spec xs fs c ram' x Hf) as (c1 & ram1 & fs1 & E & Hf1 & Hm1 & Hl1); [apply Hzs; by left|..|lia|].
    + intros x' Hx'. split; [auto|]. apply Hother. apply elem_of_app. by right.
    + intros f Hff Ho. destruct (Hsub f Hff) as (x' & Hx' & Ho'). apply (Hother x'); [apply elem_of_app; by right|congruence].
    + destruct (IH (x :: xs) fs1 c1 ram1 Hf1) as (c2 & ram2 & fs2 & E2 & Hf2 & Hm2); [..|lia|].
      * intros x' Hx'. apply Hzs. by right.
      * intros x' [->|Hx']%elem_of_cons; [apply Hzs; by left|auto].
      * rewrite map_app. cbn [map]. rewrite <- Permutation_middle. apply NoDup_cons. rewrite <- map_app. done.
      * intros f [Hff|[_ Ho]]%Hm1; [|exists x; split; [by left|done]].
        destruct (Hsub f Hff) as (x' & Hx' & Ho). exists x'. split; [by right|done].
      * intros x' f [->|Hx']%elem_of_cons Hc Ho; apply Hm1; [by right|]. left. by apply (Hall x').
      * exists c2, ram2, fs2. cbn [each]. rewrite E. cbn [mbind option_bind]. split; [done|].
        rewrite reverse_cons, <- app_assoc. split; [done|]. intros x' f Hx'. apply Hm2. set_solver.
Qed.
End Fork.

(** The part of the address space whose pages are copied. *)
Definition in_copied (s : Pagemap) (a : Z) : bool :=
  existsb (fun x => copies x && (base x <=? a) && (a <? base x + range_length x)) (range_list s).

Lemma in_copied_true s a : in_copied s a = true <-> exists x, x ∈ range_list s /\ copies x = true /\ covers x a.
Proof.
  unfold in_copied. rewrite existsb_exists. unfold covers.
  split; intros (x & Hx & H); exists x; rewrite ?list_elem_of_In in *.
  - split; [done|]. apply andb_true_iff in H as [H H2]. apply andb_true_iff in H as [H1 H]. split; [done|]. lia.
  - destruct H as (H1 & H2). split; [done|]. rewrite !andb_true_iff. split; [split; [done|lia]|lia].
Qed.

Lemma covers_page x a : range_ok x -> covers x a <-> covers x (vpn a * PAGE_SIZE).
Proof.
  intros [_ _ _ Hb Hl _]. unfold covers, vpn, PAGE_SIZE in *.
  pose proof (Z.div_mod (base x) 4096 ltac:(lia)). pose proof (Z.div_mod (range_length x) 4096 ltac:(lia)).
  pose proof (Z.div_mod a 4096 ltac:(lia)). pose proof (Z.mod_pos_bound a 4096 ltac:(lia)). lia.
Qed.

Lemma page_present f fl : 0 <= f < 2 ^ 40 -> flags_ok fl ->
  has (Z.lor (phy f) fl) PAGE_PRESENT = true /\ Z.land (Z.lor (phy f) fl) ADDR_MASK / PAGE_SIZE = f.
Proof. intros Hf [H1 H2]. split; [by apply has_lor_r|]. rewrite land_phy_lor by done. apply phy_div. Qed.

(** Every page of the parent is on the list of the range it lies in. *)
Lemma page_owned s a e : as_wf s -> ptes s !! vpn a = Some e ->
  exists f x, Z.land e ADDR_MASK = phy f /\ page_owner s !! f = Some (rid x) /\ x ∈ range_list s /\ covers x a /\
    has e PAGE_PRESENT = true /\ is_Some (pages (pm_pmm s) !! f).
Proof.
  intros [Hro Hfr Hpg] He. destruct (fk_pte _ Hfr _ _ He) as (Hp & f & b & Hm & Hf).
  assert (Hv : page_view s (vpn a) = Some (e, page_owner s !! f)) by (apply page_view_Some; by rewrite Hm, phy_div).
  destruct (Hpg _ _ _ Hv) as (r & Ho & [(x & Hx & <- & Hc & _)|[? _]]); [|lia]. exists f, x.
  split; [done|]. split; [done|]. split; [done|]. split; [|eauto]. apply covers_page; [|done]. by apply (ro_ok _ _ Hro).
Qed.

Section Forked.
Context (s : Pagemap) (ram : Ram) (Hs : as_wf s) (Ha : addrs_ok s).
Context (Hram : forall f, is_Some (page_owner s !! f) -> is_Some (ram !! f)).

Lemma fork_start :
  let c0 := mkPagemap [] (filter (fun ve => has (snd ve) PAGE_PRESENT = false) (ptes s)) ∅ (file_refs s) (pm_pmm s)
              (next_rid s) in
  forking s ram [] [] c0 ram.
Proof.
  intros c0. pose proof Hs as [_ Hfr _].
  assert (Hempty : forall v, ptes c0 !! v = None).
  { intros v. cbn [c0 ptes]. apply map_lookup_filter_None. right. intros e He. destruct (fk_pte _ Hfr _ _ He) as [Hp _].
    cbn [snd]. congruence. }
  constructor; cbn [c0 range_list next_rid pm_pmm]; auto; try set_solver; try lia.
  - constructor.
    + constructor; cbn [range_list c0]; try set_solver. apply NoDup_nil_2.
    + destruct Hfr. constructor; cbn [pm_pmm c0 page_owner]; auto; try (intros *; rewrite Hempty; done). set_solver.
    + intros v w o Hv. apply page_view_Some in Hv as [Hv _]. by rewrite Hempty in Hv.
  - intros v e. change (ptes c0 !! v = Some e -> exists f, f ∈ [] /\ copied s ram c0 ram f v). by rewrite Hempty.
Qed.

Context (c : Pagemap) (ram' : Ram) (xs : list MappedRange) (fs : list Z).
Context (Hfk : forking s ram xs fs c ram') (Hxs : forall x, x ∈ xs <-> x ∈ range_list s).
Context (Hall : forall x f, x ∈ range_list s -> copies x = true -> page_owner s !! f = Some (rid x) -> f ∈ fs).

(** The byte behind a copied page, in both address spaces. *)
Lemma copied_byte f a :
  copied s ram c ram' f (vpn a) -> user_byte c ram' a = user_byte s ram a /\ in_copied s a = true /\ is_Some (ptes s !! vpn a).
Proof.
  intros (b & x & n & y & Ho & Hx & Hcp & Hp & Hv & _ & _ & Hc & _ & Hn & Hr & _).
  destruct (owned_page s Hs Ha f x b Ho Hx Hp) as (Hcov & _ & e & He & _ & ->).
  destruct (ro_ok _ _ (aw_ranges _ Hs) x Hx) as [Hrx Hfx].
  destruct (page_present n (page_flags x) Hn Hfx) as [H1 H2].
  destruct (page_present f (page_flags x) (owner_frame s Hs Ha f _ Ho) Hfx) as [H3 H4].
  destruct (Hram f ltac:(eauto)) as [bs Hbs]. rewrite <- Hv in He.
  split; [|split; [|by eauto]].
  - unfold user_byte. rewrite Hc, He. cbn [mbind option_bind]. rewrite H1, H2, H3, H4, Hr, Hbs. done.
  - apply in_copied_true. exists x. split; [done|]. split; [done|]. apply covers_page; [done|]. rewrite Hv.
    by apply (covers_page x b Hrx).
Qed.

Lemma child_bytes a : user_byte c ram' a = if in_copied s a then user_byte s ram a else None.
Proof.
  destruct (ptes c !! vpn a) as [e|] eqn:E.
  - destruct (fg_only _ _ _ _ _ _ Hfk _ _ E) as (f & _ & Hc). destruct (copied_byte f a Hc) as (-> & -> & _). done.
  - unfold user_byte at 1. rewrite E. cbn [mbind option_bind]. destruct (in_copied s a) eqn:Hi; [|done].
    apply in_copied_true in Hi as (x & Hx & Hcp & Hcov). unfold user_byte.
    destruct (ptes s !! vpn a) as [e|] eqn:Es; [|done]. exfalso.
    destruct (page_owned s a e Hs Es) as (f & x' & Hm & Ho & Hx' & Hcov' & _).
    assert (x' = x) as ->.
    { destruct (decide (rid x' = rid x)) as [Hr|Hr]; [by eapply (rid_unique (range_list s)); [apply (aw_ranges _ Hs)|..]|].
      pose proof (ro_disj _ _ (aw_ranges _ Hs) _ _ Hx' Hx Hr). unfold disjoint_ranges, covers in *. lia. }
    destruct (fg_done _ _ _ _ _ _ Hfk f (Hall x f Hx Hcp Ho)) as (v & b & x2 & n & y & Ho2 & Hx2 & _ & Hp2 & -> & _ & _ & Hc & _).
    destruct (owned_page s Hs Ha f x2 b Ho2 Hx2 Hp2) as (_ & _ & e2 & He2 & Hm2 & _).
    rewrite (fk_inj _ (aw_frames _ Hs) _ _ _ _ Es He2 ltac:(congruence)) in E. congruence.
Qed.

Lemma parent_bytes a : user_byte s ram' a = user_byte s ram a.
Proof.
  unfold user_byte. destruct (ptes s !! vpn a) as [e|] eqn:E; [|done].
  destruct (page_owned s a e Hs E) as (f & x & Hm & Ho & _). cbn [mbind option_bind]. rewrite Hm, phy_div.
  by rewrite (fg_ram _ _ _ _ _ _ Hfk f) by eauto.
Qed.

Lemma forked_frames v1 v2 e1 e2 :
  ptes s !! v1 = Some e1 -> ptes c !! v2 = Some e2 -> Z.land e1 ADDR_MASK <> Z.land e2 ADDR_MASK.
Proof.
  intros H1 H2 Heq. destruct (fg_only _ _ _ _ _ _ Hfk _ _ H2) as (f & _ & b & x & n & y & _ & Hx & _ & _ & _ & _ & _ & Hc & _ & Hn & _ & Hnone).
  destruct (ro_ok _ _ (aw_ranges _ Hs) x Hx) as [_ Hfx]. rewrite Hc in H2. injection H2 as <-.
  rewrite land_phy_lor in Heq by (done || apply Hfx).
  destruct (fk_pte _ (aw_frames _ Hs) _ _ H1) as (_ & f1 & b1 & Hm1 & _). rewrite Hm1 in Heq. apply phy_inj in Heq as ->.
  destruct (Z_le_gt_dec 0 v1) as [Hpos|Hneg].
  - rewrite <- (vpn_page v1 Hpos) in H1. destruct (page_owned s _ _ Hs H1) as (f2 & x2 & Hm2 & Ho2 & _).
    assert (f2 = n) as -> by (apply phy_inj; congruence). congruence.
  - assert (Hv : vpn (v1 * PAGE_SIZE) = v1) by (unfold vpn, PAGE_SIZE; by rewrite Z.div_mul).
    rewrite <- Hv in H1. destruct (page_owned s _ _ Hs H1) as (f2 & x2 & Hm2 & Ho2 & _).
    assert (f2 = n) as -> by (apply phy_inj; congruence). congruence.
Qed.

Lemma parent_wf :
  as_wf (mkPagemap (range_list s) (ptes s) (page_owner s) (file_refs c) (pm_pmm c) (next_rid c)).
Proof.
  destruct (Hfk) as [Hwfc Hnext _ _ Hpages _ _ _ _]. pose proof Hs as [Hro Hfr Hpg]. constructor.
  - destruct Hro as [H1 H2 H3 H4]. constructor; cbn [range_list next_rid]; auto. intros x Hx. specialize (H4 x Hx). lia.
  - pose proof (aw_frames _ Hwfc) as Hfc. constructor; cbn [pm_pmm ptes page_owner].
    + apply Hfc.
    + intros v e He. destruct (fk_pte _ Hfr _ _ He) as (Hp & _). split; [done|].
      assert (Hv : vpn (v * PAGE_SIZE) = v) by (unfold vpn, PAGE_SIZE; by rewrite Z.div_mul).
      rewrite <- Hv in He. destruct (page_owned s _ _ Hs He) as (f & x & Hm & Ho & _).
      destruct (Ha f _ Ho) as (a & _ & _ & Hpa & _). exists f, a. split; [done|]. by apply Hpages; [eauto|].
    + apply Hfr.
    + apply Hfr.
    + apply Hfc.
  - exact Hpg.
Qed.
End Forked.

(** With frames for all pages, fork goes through all ranges. *)
Lemma fork_result s ram :
  as_wf s -> addrs_ok s -> (forall f, is_Some (page_owner s !! f) -> is_Some (ram !! f)) ->
  (length (flat_map (fun x => page_list (rid x) s) (range_list s)) <= length (page_freelist (pm_pmm s)))%nat ->
  exists c ram' fs,
    fork s ram = Some (mkPagemap (range_list s) (ptes s) (page_owner s) (file_refs c) (pm_pmm c) (next_rid c), c, ram') /\
    forking s ram (reverse (range_list s)) fs c ram' /\
    (forall x f, x ∈ range_list s -> copies x = true -> page_owner s !! f = Some (rid x) -> f ∈ fs).
Proof.
  intros Hs Ha Hram Hroom. pose proof (fork_start s ram Hs Ha Hram) as Hf0.
  assert (Hnd : NoDup (map rid (range_list s ++ []))) by (rewrite app_nil_r; apply (aw_ranges _ Hs)).
  destruct (fork_ranges_spec s ram Hs Ha (range_list s) [] [] _ _ Hf0) as (c & ram' & fs & E & Hfk & Hall);
    [done|by intros x ?%elem_of_nil|done|by intros f ?%elem_of_nil|by intros x f ?%elem_of_nil|exact Hroom|].
  rewrite !app_nil_r in *. unfold fork. rewrite E. cbn [mbind option_bind]. by exists c, ram', fs.
Qed.

(** With frames for its pages, fork gives the child ranges like the parent's
    and, in the anonymous and file ones, memory with the same bytes, and leaves
    the parent's as it was; no frame is in both address spaces, so that what
    one process writes later the other does not see. *)
Theorem fork_copies_memory s ram :
  as_wf s -> addrs_ok s -> (forall f, is_Some (page_owner s !! f) -> is_Some (ram !! f)) ->
  (length (flat_map (fun x => page_list (rid x) s) (range_list s)) <= length (page_freelist (pm_pmm s)))%nat ->
  exists s' c ram', fork s ram = Some (s', c, ram') /\ as_wf s' /\ as_wf c /\
    range_list s' = range_list s /\ ptes s' = ptes s /\
    (forall x, x ∈ range_list s -> exists y, y ∈ range_list c /\ like x y) /\
    (forall y, y ∈ range_list c -> exists x, x ∈ range_list s /\ like x y) /\
    (forall a, user_byte s' ram' a = user_byte s ram a) /\
    (forall a, user_byte c ram' a = if in_copied s a then user_byte s ram a else None) /\
    (forall v1 v2 e1 e2, ptes s' !! v1 = Some e1 -> ptes c !! v2 = Some e2 -> Z.land e1 ADDR_MASK <> Z.land e2 ADDR_MASK).
Proof.
  intros Hs Ha Hram Hroom. destruct (fork_result s ram Hs Ha Hram Hroom) as (c & ram' & fs & E & Hfk & Hall).
  assert (Hxs : forall x, x ∈ reverse (range_list s) <-> x ∈ range_list s) by (intros x; by rewrite elem_of_reverse).
  eexists _, c, ram'. split; [exact E|].
  split; [by eapply parent_wf|]. split; [apply Hfk|]. split; [done|]. split; [done|].
  split; [intros x Hx; apply (fg_ranges' _ _ _ _ _ _ Hfk); by apply Hxs|].
  split; [intros y Hy; destruct (fg_ranges _ _ _ _ _ _ Hfk y Hy) as (x & Hx & Hl); exists x; by rewrite <- Hxs|].
  split; [intros a; change (user_byte s ram' a = user_byte s ram a); by eapply parent_bytes|].
  split; [by eapply child_bytes|]. cbn [ptes]. by eapply forked_frames.
Qed.


(** ** A process with a page *)
Definition faulted : Pagemap :=
  match alloc_page (pm_pmm example_pagemap), range_list example_pagemap with
  | Some (f, pmm), e :: _ =>
      mkPagemap (range_list example_pagemap) (<[vpn example_base := Z.lor (phy f) (page_flags e)]> (ptes example_pagemap))
        (<[f := rid e]> (page_owner example_pagemap)) (file_refs example_pagemap) (set_mapped_addr f example_base pmm)
        (next_rid example_pagemap)
  | _, _ => example_pagemap
  end.

Definition faulted_ram : Ram := {[ 2 := replicate 4096 65 ]}.

Lemma faulted_wf : as_wf faulted.
Proof.
  unfold faulted. destruct (alloc_page (pm_pmm example_pagemap)) as [[f pmm]|] eqn:Ha; [|apply example_pagemap_wf].
  destruct (range_list example_pagemap) as [|e l] eqn:Hl; [apply example_pagemap_wf|]. rewrite <- Hl.
  apply fault_wf; [apply example_pagemap_wf|rewrite Hl; by left| |done|vm_compute; reflexivity].
  vm_compute in Hl. injection Hl as <- <-. vm_compute. done.
Qed.

Lemma faulted_owner f r : page_owner faulted !! f = Some r -> f = 2.
Proof.
  assert (E : page_owner faulted = {[2 := 1]}) by (vm_compute; reflexivity). rewrite E. intros [-> _]%lookup_singleton_Some. done.
Qed.

Lemma faulted_addrs : addrs_ok faulted.
Proof.
  intros f r Ho. rewrite (faulted_owner f r Ho).
  destruct (ptes faulted !! vpn example_base) as [e|] eqn:He; [|vm_compute in He; discriminate].
  exists example_base, e. split; [reflexivity|]. split; [vm_compute; reflexivity|]. split; [exact He|].
  assert (H : (fun e => Z.land e ADDR_MASK) <$> ptes faulted !! vpn example_base = Some (phy 2)) by (vm_compute; reflexivity).
  rewrite He in H. injection H as H. exact H.
Qed.

Lemma fork_copies_memory_witness :
  exists s' c ram', fork faulted faulted_ram = Some (s', c, ram') /\
    user_byte s' ram' (example_base + 7) = Some 65 /\ user_byte c ram' (example_base + 7) = Some 65 /\
    user_byte c ram' (example_base + 4096) = None.
Proof.
  destruct (fork_copies_memory faulted faulted_ram faulted_wf faulted_addrs) as (s' & c & ram' & E & _ & _ & _ & _ & _ & _ & H1 & H2 & _).
  - intros f [r Ho]. rewrite (faulted_owner f r Ho). exists (replicate 4096 65). reflexivity.
  - vm_compute. lia.
  - exists s', c, ram'. split; [exact E|]. rewrite H1, !H2. split; [vm_compute; reflexivity|]. split; vm_compute; reflexivity.
Defined.

(** a range whose front was trimmed counts its offsets from its old base; the
    child's counts them from the new one, and faults in other bytes. *)
Theorem fork_shifts_offsets x c : range_type x = FILE -> base x <> original_base x ->
  exists y c1, add_range (base x) (range_length x) (page_flags x) (range_type x) false (phy_base x) (file x) (file_offset x)
      false false c = Some c1 /\ y ∈ range_list c1 /\ like x y /\
    forall a, a - original_base y + file_offset y <> a - original_base x + file_offset x.
Proof.
  intros Ht Hb. unfold add_range. cbn [andb]. rewrite Ht, bool_decide_false by done.
  eexists (mkRange (next_rid c) (base x) (base x) (range_length x) (page_flags x) FILE (phy_base x) (file x) (file_offset x)), _.
  split; [reflexivity|]. split; [cbn [range_list]; rewrite insert_position_perm; by left|].
  split; [by rewrite <- Ht|]. intros a. cbn [original_base file_offset]. lia.
Qed.

(** ** access_memory *)

(** The loop over the pages of [start, end_): what it returns, the physical
    pieces it copies from or to, and the frames filled on the way. *)
Fixpoint access_loop (turns fuel : nat) (start end_ end_page_virt page_virt transferred : Z) (p : Process)
    : option (Z * list (Z * Z) * list (Z * Fill) * Process) :=
  match turns with
  | O => None
  | S turns =>
      if end_page_virt <? page_virt then Some (transferred, [], [], p)
      else
        let offset := if page_virt <? start then start - page_virt else 0 in
        let bytes_in_page :=
          if end_ <=? u64 (page_virt + PAGE_SIZE) then u64 (PAGE_SIZE - offset - u64 (page_virt + PAGE_SIZE - end_))
          else PAGE_SIZE - offset in
        if bytes_in_page =? 0 then Some (transferred, [], [], p)
        else
          '(page_phy, filled, p1) ← get_physical_addr fuel page_virt p;
          if page_phy =? - EFAULT then Some (if transferred =? 0 then - EFAULT else transferred, [], filled, p1)
          else
            '(r, pieces, filled', p2) ← access_loop turns fuel start end_ end_page_virt (u64 (page_virt + PAGE_SIZE))
                                          (transferred + bytes_in_page) p1;
            Some (r, (page_phy + offset, bytes_in_page) :: pieces, filled ++ filled', p2)
  end.

Definition access_memory (turns fuel : nat) (virt count : Z) (p : Process) : option (Z * list (Z * Z) * list (Z * Fill) * Process) :=
  let end_ := u64 (virt + count) in
  access_loop turns fuel virt end_ (align_down end_ PAGE_SIZE) (align_down virt PAGE_SIZE) 0 p.

(** Where a mapped address is in physical memory. *)
Definition phys_of (p : Process) (a : Z) : Z :=
  Z.land (default 0 (ptes (pagemap p) !! vpn a)) ADDR_MASK + a mod PAGE_SIZE.

Definition addresses (pieces : list (Z * Z)) : list Z := flat_map (fun pc => seqZ (fst pc) (snd pc)) pieces.

(** Every page of [lo, hi) is present, and page tables lead to it. *)
Definition present (lo hi : Z) (p : Process) : Prop :=
  forall a, lo <= a < hi -> vpn a / 512 ∈ tables p /\ exists e, ptes (pagemap p) !! vpn a = Some e /\ has e PAGE_PRESENT = true.

Lemma align_down_page x : 0 <= x -> align_down x PAGE_SIZE = vpn x * PAGE_SIZE.
Proof.
  intros Hx. unfold align_down, vpn. destruct (Z.eqb_spec (x mod PAGE_SIZE) 0); [|done].
  unfold PAGE_SIZE in *. pose proof (Z.div_mod x 4096). lia.
Qed.

Lemma piece_addresses p lo n v e : ptes (pagemap p) !! v = Some e -> v * PAGE_SIZE <= lo -> 0 <= n -> lo + n <= (v + 1) * PAGE_SIZE ->
  seqZ (Z.land e ADDR_MASK + (lo - v * PAGE_SIZE)) n = map (phys_of p) (seqZ lo n).
Proof.
  intros He Hlo Hn Hhi. apply list_eq. intros i. rewrite list_lookup_fmap. destruct (decide (Z.of_nat i < n)) as [Hi|Hi].
  - rewrite !lookup_seqZ_lt by done. cbn [fmap option_fmap option_map]. f_equal. unfold phys_of.
    assert (Hv : vpn (lo + Z.of_nat i) = v).
    { unfold vpn, PAGE_SIZE in *. symmetry. apply (Z.div_unique_pos _ _ _ (lo + Z.of_nat i - v * 4096)); lia. }
    rewrite Hv, He. cbn [default from_option id]. unfold PAGE_SIZE in *.
    assert (Hm : (lo + Z.of_nat i) mod 4096 = lo + Z.of_nat i - v * 4096) by (symmetry; apply (Z.mod_unique_pos _ _ v); lia).
    lia.
  - rewrite !lookup_seqZ_ge by lia. done.
Qed.

Lemma access_loop_spec turns fuel start end_ v p :
  0 <= start -> start <= end_ -> end_ + PAGE_SIZE < KERNEL_HALF -> present start end_ p ->
  vpn start <= v <= vpn end_ -> vpn end_ - v + 1 < Z.of_nat turns ->
  exists pieces, access_loop turns fuel start end_ (vpn end_ * PAGE_SIZE) (v * PAGE_SIZE) (Z.max start (v * PAGE_SIZE) - start) p
      = Some (end_ - start, pieces, [], p) /\
    addresses pieces = map (phys_of p) (seqZ (Z.max start (v * PAGE_SIZE)) (end_ - Z.max start (v * PAGE_SIZE))).
Proof.
  intros Hs Hse He Hp Hv Ht. revert v Hv Ht. induction turns as [|turns IH]; intros v Hv Ht; [lia|].
  assert (Hk : KERNEL_HALF < 18446744073709551616) by done.
  pose proof (Z.div_mod end_ 4096 ltac:(lia)) as De. pose proof (Z.mod_pos_bound end_ 4096 ltac:(lia)) as Me.
  pose proof (Z.div_mod start 4096 ltac:(lia)) as Ds. pose proof (Z.mod_pos_bound start 4096 ltac:(lia)) as Ms.
  unfold vpn, PAGE_SIZE in Hv, Ht, He. cbn [access_loop]. unfold vpn, PAGE_SIZE.
  destruct (Z.ltb_spec (end_ / 4096 * 4096) (v * 4096)); [lia|].
  set (lo := Z.max start (v * 4096)).
  assert (Hoff : (if v * 4096 <? start then start - v * 4096 else 0) = lo - v * 4096)
    by (unfold lo; destruct (Z.ltb_spec (v * 4096) start); lia).
  rewrite Hoff, (u64_small (v * 4096 + 4096)) by lia.
  assert (Hhi : lo <= Z.min end_ ((v + 1) * 4096)) by (unfold lo; lia).
  assert (Hb : (if end_ <=? v * 4096 + 4096 then u64 (4096 - (lo - v * 4096) - u64 (v * 4096 + 4096 - end_)) else 4096 - (lo - v * 4096))
    = Z.min end_ ((v + 1) * 4096) - lo).
  { destruct (Z.leb_spec end_ (v * 4096 + 4096)); [|lia]. rewrite (u64_small (v * 4096 + 4096 - end_)), u64_small by lia. lia. }
  rewrite Hb. destruct (Z.eqb_spec (Z.min end_ ((v + 1) * 4096) - lo) 0) as [Hz|Hz].
  - assert (Hle : lo = end_) by (unfold lo in *; lia). exists []. rewrite Hle, Z.sub_diag. done.
  - assert (Hlo : start <= lo < end_) by (unfold lo; lia).
    destruct (Hp lo Hlo) as (Htab & e & Hpte & Hpres).
    assert (Hvl : vpn lo = v) by (unfold vpn, PAGE_SIZE; symmetry; apply (Z.div_unique_pos _ _ _ (lo - v * 4096)); lia).
    rewrite Hvl in Htab, Hpte.
    assert (Hvv : vpn (v * 4096) = v) by (unfold vpn, PAGE_SIZE; by rewrite Z.div_mul).
    assert (Hg : get_physical_addr fuel (v * 4096) p = Some (Z.land e ADDR_MASK, [], p)).
    { unfold get_physical_addr, find_entry, half_of. rewrite Hvv, bool_decide_true by done.
      destruct (Z.ltb_spec (v * 4096) KERNEL_HALF); [|lia]. rewrite Hpte. cbn [default from_option id]. by rewrite Hpres. }
    rewrite Hg. cbn [mbind option_bind].
    destruct (Z.eqb_spec (Z.land e ADDR_MASK) (- EFAULT)) as [Hm|_].
    { exfalso. assert (0 <= Z.land e ADDR_MASK) by (apply Z.land_nonneg; right; unfold ADDR_MASK; lia). unfold EFAULT in *. lia. }
    replace (lo - start + (Z.min end_ ((v + 1) * 4096) - lo)) with (Z.min end_ ((v + 1) * 4096) - start) by lia.
    replace (v * 4096 + 4096) with ((v + 1) * 4096) by lia.
    assert (Hpiece : forall hi, lo <= hi <= (v + 1) * 4096 -> seqZ (Z.land e ADDR_MASK + (lo - v * 4096)) (hi - lo) = map (phys_of p) (seqZ lo (hi - lo))).
    { intros hi Hhi'. apply (piece_addresses p lo (hi - lo) v e Hpte); unfold PAGE_SIZE; lia. }
    destruct (Z.le_gt_cases (v + 1) (end_ / 4096)) as [Hnext|Hlast].
    + destruct (IH (v + 1) ltac:(unfold vpn, PAGE_SIZE; lia) ltac:(unfold vpn, PAGE_SIZE; lia)) as (pieces & E & Hadd).
      unfold vpn, PAGE_SIZE in E, Hadd. replace (Z.max start ((v + 1) * 4096)) with ((v + 1) * 4096) in E, Hadd by lia.
      replace (Z.min end_ ((v + 1) * 4096)) with ((v + 1) * 4096) by lia. unfold vpn, PAGE_SIZE. rewrite E. cbn [mbind option_bind].
      eexists. split; [reflexivity|]. unfold addresses. cbn [flat_map fst snd]. fold (addresses pieces). rewrite Hadd, Hpiece by lia.
      rewrite <- map_app. f_equal. replace (end_ - lo) with ((v + 1) * 4096 - lo + (end_ - (v + 1) * 4096)) by lia.
      rewrite seqZ_app by lia. f_equal. f_equal. lia.
    + replace (Z.min end_ ((v + 1) * 4096)) with end_ by lia. destruct turns as [|turns]; [lia|].
      cbn [access_loop]. unfold vpn, PAGE_SIZE at 1. destruct (Z.ltb_spec (end_ / 4096 * 4096) ((v + 1) * 4096)); [|lia].
      cbn [mbind option_bind]. eexists. split; [reflexivity|]. unfold addresses. cbn [flat_map fst snd]. rewrite app_nil_r.
      apply Hpiece. lia.
Qed.

(** Reading or writing present memory of a process transfers the whole of it,
    byte by byte from or to where its page tables say, across page boundaries. *)
Theorem access_memory_spec turns fuel virt count p :
  0 <= virt -> 0 <= count -> virt + count + PAGE_SIZE < KERNEL_HALF -> present virt (virt + count) p ->
  vpn (virt + count) - vpn virt + 1 < Z.of_nat turns ->
  exists pieces, access_memory turns fuel virt count p = Some (count, pieces, [], p) /\
    addresses pieces = map (phys_of p) (seqZ virt count).
Proof.
  intros Hv Hc Hk Hp Ht. unfold access_memory. assert (KERNEL_HALF < 18446744073709551616) by done. unfold PAGE_SIZE in Hk.
  rewrite u64_small, !align_down_page by lia.
  pose proof (Z.div_mod virt 4096 ltac:(lia)). pose proof (Z.mod_pos_bound virt 4096 ltac:(lia)).
  assert (Hvp : vpn virt <= vpn virt <= vpn (virt + count)).
  { split; [lia|]. unfold vpn, PAGE_SIZE. apply Z.div_le_mono; lia. }
  destruct (access_loop_spec turns fuel virt (virt + count) (vpn virt) p Hv ltac:(lia) ltac:(unfold PAGE_SIZE; lia) Hp Hvp ltac:(lia))
    as (pieces & E & Ha).
  unfold vpn, PAGE_SIZE in E, Ha. replace (Z.max virt (virt / 4096 * 4096)) with virt in E, Ha by lia.
  rewrite Z.sub_diag in E. replace (virt + count - virt) with count in E, Ha by lia.
  exists pieces. unfold vpn, PAGE_SIZE. split; [exact E|exact Ha].
Qed.

Definition faulted_process : Process := create_tables example_base (example_process faulted).

Lemma access_memory_spec_witness :
  exists pieces, access_memory 4 1 (example_base + 4090) 6 faulted_process = Some (6, pieces, [], faulted_process) /\
    addresses pieces = seqZ 12282 6.
Proof.
  destruct (access_memory_spec 4 1 (example_base + 4090) 6 faulted_process) as (pieces & E & Ha).
  - unfold example_base. lia.
  - lia.
  - vm_compute. reflexivity.
  - intros a Hlt. assert (Hv : vpn a = vpn example_base).
    { change (vpn example_base) with 262144. unfold vpn, PAGE_SIZE. symmetry.
      apply (Z.div_unique_pos _ _ _ (a - 1073741824)); unfold example_base in Hlt; lia. }
    rewrite Hv. split; [apply elem_of_union_l, elem_of_singleton; reflexivity|].
    destruct (ptes (pagemap faulted_process) !! vpn example_base) as [e|] eqn:He; [|vm_compute in He; discriminate].
    exists e. split; [reflexivity|]. assert (H : (fun e => has e PAGE_PRESENT) <$> ptes (pagemap faulted_process) !! vpn example_base = Some true)
      by (vm_compute; reflexivity). rewrite He in H. injection H as H. exact H.
  - vm_compute. reflexivity.
  - exists pieces. split; [exact E|]. rewrite Ha. vm_compute. reflexivity.
Defined.

(** ** The destructor *)

(** [Pagemap::~Pagemap]: the ranges with their pages, then the frames of the
    page tables. *)
Definition Pagemap_destroy (page_table_pages_list : list Z) (s : Pagemap) : option Pagemap :=
  s1 ← each delete_range (range_list s) s;
  pmm ← each free_page page_table_pages_list (pm_pmm s1);
  Some (mkPagemap (range_list s1) (ptes s1) (page_owner s1) (file_refs s1) pmm (next_rid s1)).

Definition allocated (f : Z) (p : Pmm) : Prop := exists a, pages p !! f = Some (mkPage false a).

(** [fs] go from allocated to free, and nothing else changes. *)
Definition freed (fs : list Z) (p p' : Pmm) : Prop :=
  pmm_wf p' /\ total_free_pages p' = total_free_pages p + Z.of_nat (length fs) /\
  forall f, allocated f p' <-> allocated f p /\ f ∉ fs.

Lemma freed_nil p : pmm_wf p -> freed [] p p.
Proof. intros H. split; [done|]. split; [simpl; lia|]. intros f. set_solver. Qed.

Lemma free_one f p : pmm_wf p -> allocated f p -> exists p', free_page f p = Some p' /\ freed [f] p p'.
Proof.
  intros Hp [a Ha]. assert (E : free_page f p = free_page f p) by done. unfold free_page at 2 in E. rewrite Ha in E.
  cbn [page_free] in E. eexists. split; [exact E|]. split; [by eapply free_page_wf|]. split; [cbn [total_free_pages length]; lia|].
  intros g. unfold allocated. cbn [pages]. destruct (decide (f = g)) as [->|Hne].
  - rewrite lookup_insert_eq. split; [by intros [b ?]|]. intros [_ H]. exfalso. apply H. by left.
  - rewrite lookup_insert_ne by done. set_solver.
Qed.

Lemma freed_trans fs gs p q r : freed fs p q -> freed gs q r -> freed (fs ++ gs) p r.
Proof.
  intros (_ & H1 & H2) (H3 & H4 & H5). split; [done|]. split; [rewrite length_app; lia|].
  intros f. rewrite H5, H2. set_solver.
Qed.

Lemma free_list fs p : pmm_wf p -> NoDup fs -> (forall f, f ∈ fs -> allocated f p) ->
  exists p', each free_page fs p = Some p' /\ freed fs p p'.
Proof.
  revert p. induction fs as [|f fs IH]; intros p Hp Hnd Ha; [exists p; split; [done|by apply freed_nil]|].
  apply NoDup_cons in Hnd as [Hn Hnd]. destruct (free_one f p Hp (Ha f ltac:(by left))) as (q & E & Hq).
  destruct (IH q) as (r & E2 & Hr); [apply Hq|done| |].
  - intros g Hg. apply Hq. split; [apply Ha; by right|]. set_solver.
  - exists r. cbn [each]. rewrite E. split; [exact E2|]. by apply (freed_trans [f] fs p q r).
Qed.

(** The pages of a deleted range. *)
Lemma delete_range_frees x s :
  pmm_wf (pm_pmm s) -> (forall f, f ∈ page_list (rid x) s -> allocated f (pm_pmm s)) ->
  exists s', delete_range x s = Some s' /\ range_list s' = filter (fun y => rid y <> rid x) (range_list s) /\
    freed (page_list (rid x) s) (pm_pmm s) (pm_pmm s') /\
    (forall f, page_owner s' !! f = if decide (page_owner s !! f = Some (rid x)) then None else page_owner s !! f).
Proof.
  intros Hp Ha. unfold delete_range, free_owned. fold (page_list (rid x) s).
  assert (H : forall fs, NoDup fs -> (forall f, f ∈ fs -> allocated f (pm_pmm s)) ->
    exists s', foldr (fun f acc => match acc with
        | None => None
        | Some s => match free_page f (pm_pmm s) with
                    | None => None
                    | Some pmm => Some (mkPagemap (range_list s) (ptes s) (delete f (page_owner s)) (file_refs s) pmm (next_rid s))
                    end end) (Some s) fs = Some s' /\
      range_list s' = range_list s /\ freed fs (pm_pmm s) (pm_pmm s') /\
      (forall f, page_owner s' !! f = if decide (f ∈ fs) then None else page_owner s !! f)).
  { induction fs as [|f fs IH]; intros Hnd Hfs.
    - exists s. split; [done|]. split; [done|]. split; [by apply freed_nil|]. intros f. by rewrite decide_False by set_solver.
    - apply NoDup_cons in Hnd as [Hn Hnd]. destruct IH as (s1 & E & Hr & Hf & Ho); [done|intros g Hg; apply Hfs; by right|].
      destruct (free_one f (pm_pmm s1)) as (q & E1 & Hq); [apply Hf|apply Hf; split; [apply Hfs; by left|done]|].
      eexists. cbn [foldr]. rewrite E, E1. split; [reflexivity|]. cbn [range_list pm_pmm page_owner]. split; [done|]. split.
      + destruct Hf as (_ & Hc1 & Ha1), Hq as (Hw & Hc2 & Ha2). split; [done|]. cbn [length] in *. split; [lia|].
        intros g. rewrite Ha2, Ha1. set_solver.
      + intros g. destruct (decide (f = g)) as [->|Hne]; [by rewrite lookup_delete_eq, decide_True by (by left)|].
        rewrite lookup_delete_ne, Ho by done. destruct (decide (g ∈ fs)); [by rewrite decide_True by (by right)|].
        by rewrite decide_False by set_solver. }
  destruct (H (page_list (rid x) s)) as (s1 & -> & Hr & Hf & Ho); [|done|].
  - clear. unfold page_list. eapply sublist_NoDup; [apply (NoDup_fst_map_to_list (page_owner s))|]. by apply fmap_sublist, sublist_filter.
  - eexists. split; [reflexivity|]. cbn [range_list pm_pmm page_owner]. split; [by rewrite Hr|]. split; [done|].
    intros f. rewrite Ho. destruct (decide (page_owner s !! f = Some (rid x))) as [E|E].
    + by rewrite decide_True by (by apply elem_page_list).
    + by rewrite decide_False by (by rewrite elem_page_list).
Qed.

Lemma delete_ranges_free xs : forall s,
  pmm_wf (pm_pmm s) -> (forall f, is_Some (page_owner s !! f) -> allocated f (pm_pmm s)) ->
  exists s' fs, each delete_range xs s = Some s' /\ freed fs (pm_pmm s) (pm_pmm s') /\
    (forall y, y ∈ range_list s' <-> y ∈ range_list s /\ rid y ∉ map rid xs) /\
    (forall f, f ∈ fs <-> exists x, x ∈ xs /\ page_owner s !! f = Some (rid x)).
Proof.
  induction xs as [|x xs IH]; intros s Hp Ha.
  - exists s, []. split; [done|]. split; [by apply freed_nil|]. split; [set_solver|]. set_solver.
  - destruct (delete_range_frees x s Hp) as (s1 & E & Hr & Hf & Ho);
      [intros f Hf; apply Ha; apply elem_page_list in Hf; by eexists|].
    destruct (IH s1) as (s2 & fs & E2 & Hf2 & Hr2 & Ho2); [apply Hf| |].
    + intros f Hs. apply Hf. rewrite Ho in Hs. case_decide as Hd; [by destruct Hs|]. split; [by apply Ha|].
      by rewrite elem_page_list.
    + exists s2, (page_list (rid x) s ++ fs). cbn [each]. rewrite E. split; [exact E2|]. split; [by eapply freed_trans|].
      split.
      * intros y. rewrite Hr2, Hr, list_elem_of_filter. cbn [map]. rewrite not_elem_of_cons. naive_solver.
      * intros f. rewrite elem_of_app, elem_page_list, Ho2. split.
        { intros [H|(y & Hy & H)]; [exists x; split; [by left|done]|]. exists y. split; [by right|].
          rewrite Ho in H. by case_decide. }
        { intros (y & [->|Hy]%elem_of_cons & H); [by left|]. destruct (decide (page_owner s !! f = Some (rid x))) as [Hd|Hd]; [by left|].
          right. exists y. split; [done|]. rewrite Ho. by rewrite decide_False. }
Qed.

(** Destroying an address space gives back exactly the frames of its pages and
    of its page tables. *)
Theorem destroy_frees_all table_pages s :
  as_wf s -> NoDup table_pages -> (forall f, f ∈ table_pages -> allocated f (pm_pmm s) /\ page_owner s !! f = None) ->
  exists s' fs, Pagemap_destroy table_pages s = Some s' /\ range_list s' = [] /\
    freed (fs ++ table_pages) (pm_pmm s) (pm_pmm s') /\ (forall f, f ∈ fs <-> is_Some (page_owner s !! f)).
Proof.
  intros Hs Hnd Ht. pose proof Hs as [Hro Hfr Hpg].
  assert (Hown : forall f r, page_owner s !! f = Some r -> allocated f (pm_pmm s) /\ exists x, x ∈ range_list s /\ r = rid x).
  { intros f r Ho. destruct (fk_owner _ Hfr _ _ Ho) as (v & e & He & Hm).
    assert (Hv : vpn (v * PAGE_SIZE) = v) by (unfold vpn, PAGE_SIZE; by rewrite Z.div_mul).
    rewrite <- Hv in He. destruct (page_owned s _ _ Hs He) as (f' & x & Hm' & Ho' & Hx & _).
    assert (f' = f) as -> by (apply phy_inj; congruence). destruct (fk_pte _ Hfr _ _ He) as (_ & g & a & Hg & Hpa).
    assert (g = f) as -> by (apply phy_inj; congruence). split; [by exists a|]. exists x. split; [done|]. congruence. }
  destruct (delete_ranges_free (range_list s) s (fk_pmm _ Hfr)) as (s1 & fs & E & Hf & Hr & Ho); [intros f [r Hr]; by eapply Hown|].
  assert (Hfs : forall f, f ∈ fs <-> is_Some (page_owner s !! f)).
  { intros f. rewrite Ho. split; [intros (x & _ & ->); by eexists|]. intros [r Hr']. destruct (Hown f r Hr') as (_ & x & Hx & ->). eauto. }
  destruct (free_list table_pages (pm_pmm s1)) as (q & E2 & Hq); [apply Hf|done| |].
  { intros f Hf'. apply Hf. destruct (Ht f Hf') as [H1 H2]. split; [done|]. rewrite Hfs, H2. by intros []. }
  unfold Pagemap_destroy. rewrite E. cbn [mbind option_bind]. rewrite E2. cbn [mbind option_bind].
  eexists _, fs. split; [reflexivity|]. cbn [range_list pm_pmm]. split.
  - destruct (range_list s1) as [|y l] eqn:El; [done|]. destruct (proj1 (Hr y) ltac:(by left)) as [Hy Hn]. exfalso. apply Hn.
    change (map rid) with (fmap (M := list) rid). apply list_elem_of_fmap. eauto.
  - split; [by eapply freed_trans|exact Hfs].
Qed.

Lemma destroy_frees_all_witness :
  exists s' (fs : list Z), Pagemap_destroy [] faulted = Some s' /\ range_list s' = [] /\ total_free_pages (pm_pmm s') = 5 /\
    (forall f, f ∈ fs <-> is_Some (page_owner faulted !! f)).
Proof.
  destruct (destroy_frees_all [] faulted faulted_wf) as (s' & fs & E & Hr & Hf & Hfs).
  - constructor.
  - intros f Hf. by apply elem_of_nil in Hf.
  - exists s', fs. split; [exact E|]. split; [exact Hr|]. split; [|exact Hfs].
    vm_compute in E. injection E as <-. vm_compute. reflexivity.
Defined.
