(* ===== verification/KernelMap.v ===== *)
(** The kernel's half of every address space (VMM::init, Pagemap::map_kernel
    and VMM::virt_alloc of src/kernel/src/mem/vmm.cpp).

    Only the root entries of the upper half are copied into a process; the
    kernel makes all of them present at start so that what it maps later is
    seen by processes made before. *)
From S2P Require Import Prelude Pmm PageTable AddressSpace.

Definition PAGE_GLOBAL : Z := 256.
Definition PAGE_WRITE_COMBINING : Z := 144.
Definition LIMINE_MEMMAP_USABLE : Z := 0.
Definition LIMINE_MEMMAP_BOOTLOADER_RECLAIMABLE : Z := 5.
Definition LIMINE_MEMMAP_KERNEL_AND_MODULES : Z := 6.
Definition LIMINE_MEMMAP_FRAMEBUFFER : Z := 7.

Record MemmapEntry : Type := mkMemmapEntry { me_base : Z; me_length : Z; me_type : Z }.

Record VMM : Type := mkVMM {
  hhdm_end : Z;
  heap_base : Z;
  heap_size : Z;
  kernel_virt_alloc_base : Z;
  kernel_tables : PageTables;
  kernel_ranges : list MappedRange
}.

(** The end of the direct map of physical memory. *)
Definition find_hhdm_end (hhdm_base : Z) (entries : list MemmapEntry) : Z :=
  align_up (fold_left (fun e m => let top := u64 (hhdm_base + me_base m + me_length m) in if e <? top then top else e)
              entries hhdm_base) PAGE_SIZE.

Definition memmap_flags (t : Z) : Z :=
  let flags := Z.lor (Z.lor (Z.lor PAGE_PRESENT PAGE_WRITABLE) PAGE_NO_EXECUTE) PAGE_GLOBAL in
  if t =? LIMINE_MEMMAP_FRAMEBUFFER then Z.lor flags PAGE_WRITE_COMBINING else flags.

Definition memmap_mapped (t : Z) : bool :=
  (t =? LIMINE_MEMMAP_BOOTLOADER_RECLAIMABLE) || (t =? LIMINE_MEMMAP_FRAMEBUFFER) || (t =? LIMINE_MEMMAP_USABLE) ||
  (t =? LIMINE_MEMMAP_KERNEL_AND_MODULES).

Definition kernel_size (entries : list MemmapEntry) : Z :=
  fold_left (fun n m => if me_type m =? LIMINE_MEMMAP_KERNEL_AND_MODULES then u64 (n + me_length m) else n) entries 0.

Definition map_memmap_entry (hhdm : Z) (m : MemmapEntry) (pt : PageTables) : option PageTables :=
  if memmap_mapped (me_type m) then map_pages (me_base m) (u64 (me_base m + hhdm)) (me_length m) (memmap_flags (me_type m)) pt
  else Some pt.

(** A table for every root entry of the upper half. *)
Definition create_upper_table (i : Z) (pt : PageTables) : option PageTables :=
  if has (read_entry (pml4 pt) i pt) PAGE_PRESENT then Some pt else snd <$> create_next_page_table (pml4 pt) i pt.
Definition create_upper_half (pt : PageTables) : option PageTables := each create_upper_table (seqZ 256 256) pt.

Definition VMM_init (hhdm_base kernel_phy_base kernel_virt_base : Z) (entries : list MemmapEntry) (pmm : Pmm) : option VMM :=
  let end_ := find_hhdm_end hhdm_base entries in
  let size := 12 * 1024 * 1024 * 1024 in
  pt ← Pagemap_new pmm;
  pt1 ← each (map_memmap_entry hhdm_base) entries pt;
  pt2 ← map_pages kernel_phy_base kernel_virt_base (kernel_size entries)
          (Z.lor (Z.lor PAGE_PRESENT PAGE_WRITABLE) PAGE_GLOBAL) pt1;
  pt3 ← create_upper_half pt2;
  Some (mkVMM end_ end_ size (u64 (end_ + size)) pt3
    [mkRange 1 hhdm_base hhdm_base (u64 (end_ - hhdm_base)) (Z.lor (Z.lor PAGE_PRESENT PAGE_WRITABLE) PAGE_GLOBAL) DIRECT 0 0 0;
     mkRange 2 end_ end_ size (memmap_flags LIMINE_MEMMAP_USABLE) ANONYMOUS 0 0 0]).

(** Kernel addresses are handed out once. *)
Definition virt_alloc (length : Z) (v : VMM) : Z * VMM :=
  (kernel_virt_alloc_base v,
   mkVMM (hhdm_end v) (heap_base v) (heap_size v) (u64 (kernel_virt_alloc_base v + align_up length PAGE_SIZE))
     (kernel_tables v) (kernel_ranges v)).

(** [map_kernel]: the root entries of the upper half. *)
Definition map_kernel (kernel pt : PageTables) : PageTables :=
  fold_left (fun pt i => write_entry (pml4 pt) i (read_entry (pml4 kernel) i kernel) pt) (seqZ 256 256) pt.

(** ** The upper half *)

Definition upper_present (pt : PageTables) : Prop :=
  forall i, 256 <= i < 512 -> has (read_entry (pml4 pt) i pt) PAGE_PRESENT = true.

Lemma create_upper_spec pt lvl :
  pt_wf pt lvl -> (256 <= length (page_freelist (pt_pmm pt)))%nat ->
  exists pt', create_upper_half pt = Some pt' /\ (exists lvl', pt_wf pt' lvl') /\ pml4 pt' = pml4 pt /\ upper_present pt' /\
    forall i, 0 <= i < 256 -> read_entry (pml4 pt) i pt' = read_entry (pml4 pt) i pt.
Proof.
  intros Hwf Hroom. unfold create_upper_half.
  destruct (each_count (fun n q => (exists l, pt_wf q l) /\ pml4 q = pml4 pt /\
      (Z.of_nat (length (page_freelist (pt_pmm pt))) - (n - 256) <= Z.of_nat (length (page_freelist (pt_pmm q)))) /\
      (forall i, 256 <= i < n -> has (read_entry (pml4 pt) i q) PAGE_PRESENT = true) /\
      (forall i, 0 <= i < 256 -> read_entry (pml4 pt) i q = read_entry (pml4 pt) i pt))
    create_upper_table 256 256 pt) as (pt' & E & (Hl & Hroot & _ & Hup & Hlow)); [|lia| |].
  - intros i q Hi ([l Hq] & Hroot & Hfree & Hup & Hlow). unfold create_upper_table. rewrite Hroot.
    destruct (has (read_entry (pml4 pt) i q) PAGE_PRESENT) eqn:Hp.
    + exists q. split; [done|]. split; [by exists l|]. split; [done|]. split; [lia|]. split; [|done].
      intros j Hj. destruct (decide (j = i)) as [->|]; [done|]. apply Hup. lia.
    + pose proof (pt_root _ _ Hq) as Hrq. rewrite Hroot in Hrq.
      destruct (create_table_spec (pml4 pt) 2 i q l Hq Hrq ltac:(lia) Hp) as
        (t & q' & Ec & Hlen & Hr' & _ & Hwf' & Hpres & _ & _ & Hsame).
      { intros H0. rewrite H0 in Hfree. simpl in Hfree. lia. }
      exists q'. rewrite Ec. split; [done|]. split; [by eexists|]. split; [congruence|]. split; [lia|]. split.
      * intros j Hj. destruct (decide (j = i)) as [->|]; [done|]. rewrite Hsame by (eauto || lia || naive_solver). apply Hup. lia.
      * intros j Hj. rewrite Hsame by (eauto || lia). by apply Hlow.
  - split; [by exists lvl|]. split; [done|]. split; [lia|]. split; [lia|done].
  - exists pt'. split; [done|]. split; [done|]. split; [done|]. split; [intros i Hi; rewrite Hroot; apply Hup; lia|done].
Qed.

Lemma next_table_root k t v pt lvl :
  pt_wf pt lvl -> lvl !! t = Some (S k) -> (k < 2)%nat -> (0 < length (page_freelist (pt_pmm pt)))%nat ->
  exists t' pt' lvl', next_table t (12 + 9 * Z.of_nat (S k)) v true pt = Some (Some t', pt') /\ pt_wf pt' lvl' /\
    lvl' !! t' = Some k /\ pml4 pt' = pml4 pt /\
    (length (page_freelist (pt_pmm pt)) <= S (length (page_freelist (pt_pmm pt'))))%nat /\
    forall j, 0 <= j < 512 -> read_entry (pml4 pt) j pt' = read_entry (pml4 pt) j pt.
Proof.
  intros Hwf Ht Hk Hroom. unfold next_table. pose proof (index_range (12 + 9 * Z.of_nat (S k)) v) as Hi.
  pose proof (pt_root _ _ Hwf) as Hroot.
  destruct (has (read_entry t (index_at (12 + 9 * Z.of_nat (S k)) v) pt) PAGE_PRESENT) eqn:Hp.
  - eexists _, pt, lvl. split; [reflexivity|]. split; [done|]. split; [by eapply pt_next|]. split; [done|]. split; [lia|done].
  - destruct (create_table_spec t k _ pt lvl Hwf Ht Hi Hp) as (t' & pt' & -> & Hlen & Hr & Hnew & Hwf' & _ & _ & _ & Hsame).
    { intros H0. rewrite H0 in Hroom. simpl in Hroom. lia. }
    exists t', pt', (<[t' := k]> lvl). split; [done|]. split; [done|]. split; [apply lookup_insert_eq|]. split; [done|].
    split; [lia|]. intros j Hj. apply Hsame; [by eauto|done|]. intros [E _]. rewrite E in Hroot. rewrite Ht in Hroot.
    injection Hroot as Hroot. lia.
Qed.

(** A page mapped under a present root entry leaves the root table alone. *)
Lemma map_page_root p v fl pt lvl :
  pt_wf pt lvl -> has (read_entry (pml4 pt) (index_at 39 v) pt) PAGE_PRESENT = true ->
  (2 <= length (page_freelist (pt_pmm pt)))%nat ->
  exists pt', map_page p v fl pt = Some pt' /\ pml4 pt' = pml4 pt /\
    forall j, 0 <= j < 512 -> read_entry (pml4 pt) j pt' = read_entry (pml4 pt) j pt.
Proof.
  intros Hwf Hp Hroom. unfold map_page, find_page_table_entry. unfold next_table at 1. rewrite Hp.
  pose proof (pt_root _ _ Hwf) as Hroot. pose proof (index_range 39 v) as Hi.
  pose proof (pt_next _ _ Hwf (pml4 pt) 2 (index_at 39 v) Hroot Hi Hp) as H1.
  destruct (next_table_root 1 _ v pt lvl Hwf H1 ltac:(lia) ltac:(lia)) as (t2 & pt2 & lvl2 & E2 & Hwf2 & Ht2 & Hr2 & Hf2 & Hs2).
  change (12 + 9 * Z.of_nat 2) with 30 in E2. rewrite E2.
  destruct (next_table_root 0 _ v pt2 lvl2 Hwf2 Ht2 ltac:(lia) ltac:(lia)) as (t3 & pt3 & lvl3 & E3 & Hwf3 & Ht3 & Hr3 & _ & Hs3).
  change (12 + 9 * Z.of_nat 1) with 21 in E3. rewrite E3. rewrite Hr2 in Hs3.
  eexists. split; [reflexivity|]. split; [cbn [write_entry pml4]; congruence|]. intros j Hj.
  destruct (proj1 (pt_dom _ _ Hwf3 t3) ltac:(eauto)) as [l Hl].
  rewrite (read_write_entry _ _ _ _ _ _ _ Hl (pt_len _ _ Hwf3 _ _ Hl)) by (done || apply index_range).
  rewrite decide_False; [by rewrite Hs3, Hs2|]. intros [E _]. pose proof (pt_root _ _ Hwf3) as Hr. rewrite Hr3, Hr2, E, Ht3 in Hr. done.
Qed.

Lemma map_kernel_root kernel pt l : tables pt !! pml4 pt = Some l -> length l = 512%nat ->
  pml4 (map_kernel kernel pt) = pml4 pt /\
  forall j, 0 <= j < 512 ->
    read_entry (pml4 pt) j (map_kernel kernel pt) = if 256 <=? j then read_entry (pml4 kernel) j kernel else read_entry (pml4 pt) j pt.
Proof.
  intros Hl Hlen. unfold map_kernel.
  assert (H : forall (n : nat) q, (n <= 256)%nat -> pml4 q = pml4 pt -> (exists l, tables q !! pml4 pt = Some l /\ length l = 512%nat) ->
    let q' := fold_left (fun pt i => write_entry (pml4 pt) i (read_entry (pml4 kernel) i kernel) pt) (seqZ (512 - Z.of_nat n) (Z.of_nat n)) q in
    pml4 q' = pml4 pt /\ forall j, 0 <= j < 512 ->
      read_entry (pml4 pt) j q' = if 512 - Z.of_nat n <=? j then read_entry (pml4 kernel) j kernel else read_entry (pml4 pt) j q).
  { induction n as [|n IH]; intros q Hn Hq (lq & Hlq & Hll).
    - cbn [fold_left seqZ]. split; [done|]. intros j Hj. destruct (Z.leb_spec (512 - Z.of_nat 0) j); [lia|done].
    - rewrite seqZ_cons by lia. cbn [fold_left]. rewrite Hq.
      set (q1 := write_entry (pml4 pt) (512 - Z.of_nat (S n)) _ q).
      replace (Z.succ (512 - Z.of_nat (S n))) with (512 - Z.of_nat n) by lia.
      replace (Z.pred (Z.of_nat (S n))) with (Z.of_nat n) by lia.
      destruct (IH q1 ltac:(lia) Hq) as [H1 H2].
      { exists (<[Z.to_nat (512 - Z.of_nat (S n)) := read_entry (pml4 kernel) (512 - Z.of_nat (S n)) kernel]> lq).
        split; [|by rewrite length_insert]. cbn [q1 write_entry tables]. rewrite lookup_alter_eq, Hlq. done. }
      split; [done|]. intros j Hj. rewrite H2 by done. unfold q1.
      rewrite (read_write_entry _ _ _ _ _ _ _ Hlq Hll) by lia.
      destruct (Z.leb_spec (512 - Z.of_nat n) j), (Z.leb_spec (512 - Z.of_nat (S n)) j); try lia; try done.
      + rewrite decide_True by (split; [done|lia]). by replace j with (512 - Z.of_nat (S n)) by lia.
      + by rewrite decide_False by lia. }
  apply (H 256%nat pt ltac:(lia) eq_refl). by exists l.
Qed.

(** What the kernel maps in its half after a process was made, the process
    sees: mapping a page there changes no root entry, so that the process's
    copies of them lead to the kernel's tables still. *)
Theorem kernel_half_shared p v fl kernel lvl pt l :
  pt_wf kernel lvl -> upper_present kernel -> 2 ^ 47 <= v < 2 ^ 48 ->
  (2 <= length (page_freelist (pt_pmm kernel)))%nat -> tables pt !! pml4 pt = Some l -> length l = 512%nat ->
  let process := map_kernel kernel pt in
  exists kernel', map_page p v fl kernel = Some kernel' /\ upper_present kernel' /\
    (forall i, 256 <= i < 512 -> read_entry (pml4 process) i process = read_entry (pml4 kernel') i kernel') /\
    (forall i, 0 <= i < 256 -> read_entry (pml4 process) i process = read_entry (pml4 pt) i pt).
Proof.
  intros Hwf Hup Hv Hroom Hl Hlen process.
  assert (Hi : 256 <= index_at 39 v < 512).
  { unfold index_at. change 511 with (Z.ones 9). rewrite Z.land_ones, Z.shiftr_div_pow2 by lia.
    assert (256 <= v / 2 ^ 39 < 512).
    { split; [apply Z.div_le_lower_bound; lia|apply Z.div_lt_upper_bound; lia]. }
    rewrite Z.mod_small by (change (2 ^ 9) with 512; lia). lia. }
  destruct (map_page_root p v fl kernel lvl Hwf (Hup _ Hi) Hroom) as (kernel' & E & Hr & Hs).
  destruct (map_kernel_root kernel pt l Hl Hlen) as [Hmr Hm]. unfold process. rewrite Hmr.
  exists kernel'. split; [done|]. split; [intros i Hi'; rewrite Hr, Hs by lia; by apply Hup|]. split.
  - intros i Hi'. rewrite Hm, Hr, Hs by lia. destruct (Z.leb_spec 256 i); [done|lia].
  - intros i Hi'. rewrite Hm by lia. destruct (Z.leb_spec 256 i); [lia|done].
Qed.

(** ** A machine with two megabytes *)
Definition two_megabytes : list (Z * Z) := [(1048576, 2097152)].
Definition started : PageTables :=
  default (mkPT 0 ∅ [] (Pmm_init two_megabytes)) (pt ← Pagemap_new (Pmm_init two_megabytes); create_upper_half pt).

Lemma started_ok : (exists lvl, pt_wf started lvl) /\ upper_present started.
Proof.
  assert (Hok : memmap_ok two_megabytes) by (split; [repeat constructor; simpl; lia|repeat constructor]).
  destruct (Pmm_init_wf _ Hok) as [Hwf Hrl]. unfold started.
  assert (Hroom : match Pagemap_new (Pmm_init two_megabytes) with
                  | Some pt => Nat.leb 256 (length (page_freelist (pt_pmm pt))) | None => false end = true) by (vm_compute; reflexivity).
  destruct (Pagemap_new (Pmm_init two_megabytes)) as [pt|] eqn:Hpt; [|discriminate Hroom].
  assert (Hb : forall pfn, is_Some (pages (Pmm_init two_megabytes) !! pfn) -> 0 <= pfn < 2 ^ 40).
  { intros pfn. apply (frames_bound _ _ Hwf). rewrite Hrl. repeat constructor. vm_compute. discriminate. }
  destruct (Pagemap_new_wf _ _ Hwf Hb Hpt) as [Hpwf _]. cbn [mbind option_bind].
  destruct (create_upper_spec pt _ Hpwf) as (pt' & E & H1 & _ & H2 & _).
  - by apply Nat.leb_le.
  - rewrite E. split; [exact H1|exact H2].
Qed.

Definition user_root : PageTables := mkPT 4096 {[ 4096 := replicate 512 0 ]} [] (Pmm_init two_megabytes).

Lemma kernel_half_shared_witness :
  exists kernel', map_page 8192 (2 ^ 47 + 4096) 3 started = Some kernel' /\
    read_entry 4096 256 (map_kernel started user_root) = read_entry (pml4 kernel') 256 kernel'.
Proof.
  destruct started_ok as [[lvl Hwf] Hup].
  destruct (kernel_half_shared 8192 (2 ^ 47 + 4096) 3 started lvl user_root (replicate 512 0) Hwf Hup) as (k & E & _ & H & _).
  - lia.
  - apply Nat.leb_le. vm_compute. reflexivity.
  - reflexivity.
  - reflexivity.
  - exists k. split; [exact E|]. exact (H 256 ltac:(lia)).
Defined.

(** The direct map of a machine with two megabytes of usable memory. *)
Example vmm_started :
  (fun v => (hhdm_end v, heap_base v, fst (virt_alloc 5000 v), kernel_virt_alloc_base (snd (virt_alloc 5000 v)),
             entry_of (2 ^ 48 - 2 ^ 47 + 4096) (kernel_tables v))) <$>
    VMM_init (2 ^ 47) 1048576 (2 ^ 48 - 2097152)
      [mkMemmapEntry 0 8192 LIMINE_MEMMAP_USABLE; mkMemmapEntry 8192 4096 1] (Pmm_init two_megabytes)
  = Some (2 ^ 47 + 12288, 2 ^ 47 + 12288, 2 ^ 47 + 12288 + 12884901888, 2 ^ 47 + 12288 + 12884901888 + 8192,
          4096 + 256 + 3 + PAGE_NO_EXECUTE).
Proof. vm_compute. reflexivity. Qed.
