(* ===== verification/Bump.v ===== *)
(** The kernel heap (src/kernel/src/mem/bump.cpp behind malloc, calloc, realloc
    and free of klib/cstdlib.cpp): a pointer that only moves up.

    Memory is a function from addresses to bytes; [None] is a failed [ASSERT]. *)
From S2P Require Import Prelude.

Record Bump : Type := mkBump {
  alloc_base : Z;
  total_size : Z;
  alloc_ptr : Z
}.

Definition default_alignment : Z := 16.

Definition init (base size : Z) : Bump := mkBump base size 0.

Definition allocate (size alignment : Z) (s : Bump) : option (Z * Bump) :=
  if size =? 0 then Some (0, s)
  else
    let ret := align_up (u64 (alloc_base s + alloc_ptr s)) alignment in
    let p := u64 (u64 (ret - alloc_base s) + size) in
    if p <? total_size s then Some (ret, mkBump (alloc_base s) (total_size s) p) else None.

(** [free] does nothing. *)
Definition free (ptr : Z) (s : Bump) : Bump := s.

Definition memcpy (dst src n : Z) (mem : Z -> Z) : Z -> Z :=
  fun a => if (dst <=? a) && (a <? dst + n) then mem (src + (a - dst)) else mem a.
Definition memset (dst v n : Z) (mem : Z -> Z) : Z -> Z :=
  fun a => if (dst <=? a) && (a <? dst + n) then v else mem a.

Definition reallocate (ptr size : Z) (s : Bump) (mem : Z -> Z) : option (Z * Bump * (Z -> Z)) :=
  if ptr =? 0 then ('(r, s') ← allocate size default_alignment s; Some (r, s', mem))
  else if size =? 0 then Some (0, free ptr s, mem)
  else '(r, s') ← allocate size default_alignment s; Some (r, free ptr s', memcpy r ptr size mem).

Definition malloc (size : Z) (s : Bump) : option (Z * Bump) := allocate size default_alignment s.
Definition aligned_alloc (size alignment : Z) (s : Bump) : option (Z * Bump) := allocate size alignment s.
Definition calloc (size : Z) (s : Bump) (mem : Z -> Z) : option (Z * Bump * (Z -> Z)) :=
  '(r, s') ← allocate size default_alignment s; Some (r, s', memset r 0 size mem).

(** ** Blocks *)

(** The heap lies in the address space, and the pointer in the heap. *)
Record bump_ok (s : Bump) : Prop := {
  bo_base : 0 <= alloc_base s;
  bo_ptr : 0 <= alloc_ptr s <= total_size s;
  bo_end : alloc_base s + total_size s <= 2 ^ 63
}.

Lemma heap_align_up x a : 0 < a -> 0 <= x -> x + a <= 2 ^ 63 + 2 ^ 62 ->
  x <= align_up x a < x + a /\ align_up x a mod a = 0.
Proof.
  intros Ha Hx Hb. change (2 ^ 63 + 2 ^ 62) with 13835058055282163712 in Hb. unfold align_up.
  pose proof (Z.div_mod x a ltac:(lia)) as D. pose proof (Z.mod_pos_bound x a Ha) as M.
  destruct (Z.eqb_spec (x mod a) 0); [lia|]. assert (Heq : (x / a + 1) * a = x - x mod a + a) by lia.
  rewrite u64_small by lia. split; [lia|]. apply Z.mod_mul; lia.
Qed.

Lemma heap_allocate_spec size alignment s r s' :
  bump_ok s -> 0 < size <= 2 ^ 62 -> 0 < alignment <= 2 ^ 61 -> allocate size alignment s = Some (r, s') ->
  bump_ok s' /\ r mod alignment = 0 /\ alloc_base s + alloc_ptr s <= r /\ r + size = alloc_base s' + alloc_ptr s' /\
  r + size < alloc_base s + total_size s /\ alloc_base s' = alloc_base s /\ total_size s' = total_size s.
Proof.
  intros [Hb Hp He] Hs Ha H. change (2 ^ 63) with 9223372036854775808 in *. change (2 ^ 62) with 4611686018427387904 in *.
  change (2 ^ 61) with 2305843009213693952 in *.
  unfold allocate in H. destruct (Z.eqb_spec size 0); [lia|].
  rewrite (u64_small (alloc_base s + alloc_ptr s)) in H by lia.
  destruct (heap_align_up (alloc_base s + alloc_ptr s) alignment) as [Hr Hm];
    [lia|lia|change (2 ^ 63 + 2 ^ 62) with 13835058055282163712; lia|].
  set (ret := align_up _ alignment) in *. rewrite (u64_small (ret - alloc_base s)), u64_small in H by lia.
  destruct (Z.ltb_spec (ret - alloc_base s + size) (total_size s)) as [Hlt|]; [|done]. injection H as <- <-.
  cbn [alloc_base total_size alloc_ptr]. split; [constructor; cbn [alloc_base total_size alloc_ptr]; change (2 ^ 63) with 9223372036854775808; lia|].
  repeat split; lia || done.
Qed.

(** ** Any sequence of requests *)

(** A block and the request it answers. *)
Inductive request : Type :=
| Allocate (size alignment : Z)
| Free (ptr : Z).

Definition serve (q : request) (c : Bump * list (Z * Z)) : option (Bump * list (Z * Z)) :=
  let '(s, blocks) := c in
  match q with
  | Allocate size alignment => '(r, s') ← allocate size alignment s; Some (s', if size =? 0 then blocks else (r, size) :: blocks)
  | Free ptr => Some (free ptr s, blocks)
  end.

Definition request_ok (q : request) : Prop :=
  match q with Allocate size alignment => 0 <= size <= 2 ^ 62 /\ 0 < alignment <= 2 ^ 61 | Free _ => True end.

(** Blocks, the last first, lie one below the other in the heap. *)
Fixpoint stacked (base top : Z) (blocks : list (Z * Z)) : Prop :=
  match blocks with
  | [] => base <= top
  | (r, n) :: blocks => r + n <= top /\ 0 < n /\ stacked base r blocks
  end.

Lemma stacked_weaken base t t' blocks : t <= t' -> stacked base t blocks -> stacked base t' blocks.
Proof. destruct blocks as [|[r n] l]; simpl; intuition lia. Qed.

Lemma stacked_inside base top blocks b n : stacked base top blocks -> (b, n) ∈ blocks -> base <= b /\ b + n <= top /\ 0 < n.
Proof.
  revert top. induction blocks as [|[r m] l IH]; intros top H Hin; [by apply elem_of_nil in Hin|].
  destruct H as (H1 & H2 & H3). apply elem_of_cons in Hin as [[= -> ->]|Hin].
  - split; [|lia]. clear -H3. revert r H3. induction l as [|[r' m'] l IH]; intros r H3; simpl in H3; [done|].
    destruct H3 as (? & ? & H3). specialize (IH _ H3). lia.
  - destruct (IH r H3 Hin). lia.
Qed.

Lemma stacked_disjoint base top blocks i j x y : stacked base top blocks -> blocks !! i = Some x -> blocks !! j = Some y ->
  (i < j)%nat -> fst y + snd y <= fst x.
Proof.
  revert top i j. induction blocks as [|[r m] l IH]; intros top i j H Hi Hj Hij; [done|]. destruct H as (_ & _ & H3).
  destruct i as [|i], j as [|j]; try lia; simpl in Hi, Hj; [|by apply (IH r i j); auto; lia].
  injection Hi as <-. destruct y as [b n]. apply list_elem_of_lookup_2 in Hj. destruct (stacked_inside _ _ _ _ _ H3 Hj). simpl. lia.
Qed.

Lemma serve_stacked qs : forall s blocks c,
  bump_ok s -> Forall request_ok qs -> stacked (alloc_base s) (alloc_base s + alloc_ptr s) blocks ->
  each serve qs (s, blocks) = Some c ->
  bump_ok (fst c) /\ alloc_base (fst c) = alloc_base s /\ total_size (fst c) = total_size s /\
  stacked (alloc_base s) (alloc_base s + alloc_ptr (fst c)) (snd c).
Proof.
  induction qs as [|q qs IH]; intros s blocks c Hs Hq Hst H; [by injection H as <-|].
  apply Forall_cons in Hq as [Hq Hqs]. cbn [each] in H. destruct q as [size alignment|ptr]; cbn [serve] in H.
  - destruct (allocate size alignment s) as [[r s']|] eqn:E; [|done]. cbn [mbind option_bind] in H.
    destruct (Z.eqb_spec size 0) as [->|Hne].
    + injection E as <- <-. by apply (IH s blocks).
    + destruct Hq as [Hsz Hal]. destruct (heap_allocate_spec size alignment s r s' Hs ltac:(lia) Hal E) as (Hs' & _ & H1 & H2 & _ & H3 & H4).
      destruct (IH s' ((r, size) :: blocks) c Hs' Hqs) as (G1 & G2 & G3 & G4); [|done|rewrite H3 in *; rewrite H4 in *; done].
      cbn [stacked]. split; [lia|]. split; [lia|]. rewrite H3. by eapply stacked_weaken.
  - by apply (IH s blocks).
Qed.

(** Whatever is asked for, in whatever order, the blocks the heap gives out lie
    inside it and no two of them share a byte. *)
Theorem heap_blocks_disjoint base size qs s blocks :
  0 <= base -> 0 <= size -> base + size <= 2 ^ 63 -> Forall request_ok qs ->
  each serve qs (init base size, []) = Some (s, blocks) ->
  (forall b n, (b, n) ∈ blocks -> base <= b /\ b + n <= base + size /\ 0 < n) /\
  (forall i j x y, blocks !! i = Some x -> blocks !! j = Some y -> i <> j ->
     fst x + snd x <= fst y \/ fst y + snd y <= fst x).
Proof.
  intros Hb Hs He Hq H.
  destruct (serve_stacked qs (init base size) [] (s, blocks)) as ([G0 G1 G2] & G3 & G4 & G5); [constructor; simpl; lia|done|simpl; lia|done|].
  cbn [fst snd init alloc_base total_size] in *. split.
  - intros b n Hin. destruct (stacked_inside _ _ _ _ _ G5 Hin). lia.
  - intros i j x y Hi Hj Hne. destruct (decide (i < j)%nat).
    + right. by eapply stacked_disjoint.
    + left. eapply (stacked_disjoint _ _ _ j i); eauto. lia.
Qed.

(** calloc gives zeros, and realloc keeps the old bytes; neither touches memory
    outside the new block. *)
Theorem realloc_keeps_bytes ptr n size s mem r s' mem' :
  bump_ok s -> 0 < size <= 2 ^ 62 -> 0 < ptr -> 0 < n -> ptr + n <= alloc_base s + alloc_ptr s ->
  reallocate ptr size s mem = Some (r, s', mem') ->
  bump_ok s' /\ (forall i, 0 <= i < Z.min n size -> mem' (r + i) = mem (ptr + i)) /\
  (forall a, ~ r <= a < r + size -> mem' a = mem a).
Proof.
  intros Hs Hsz Hp Hn Hend H. unfold reallocate in H. destruct (Z.eqb_spec ptr 0); [lia|]. destruct (Z.eqb_spec size 0); [lia|].
  destruct (allocate size default_alignment s) as [[q s1]|] eqn:E; [|done]. injection H as <- <- <-.
  destruct (heap_allocate_spec size default_alignment s q s1 Hs Hsz ltac:(unfold default_alignment; lia) E) as (H1 & _ & H3 & _).
  split; [done|]. unfold memcpy. split.
  - intros i Hi. destruct (Z.leb_spec q (q + i)), (Z.ltb_spec (q + i) (q + size)); try lia. cbn [andb]. f_equal. lia.
  - intros a Ha. destruct (Z.leb_spec q a), (Z.ltb_spec a (q + size)); try lia; done.
Qed.

Theorem calloc_zeroes size s mem r s' mem' :
  bump_ok s -> 0 < size <= 2 ^ 62 -> calloc size s mem = Some (r, s', mem') ->
  bump_ok s' /\ (forall a, r <= a < r + size -> mem' a = 0) /\ (forall a, ~ r <= a < r + size -> mem' a = mem a).
Proof.
  intros Hs Hsz H. unfold calloc in H. destruct (allocate size default_alignment s) as [[q s1]|] eqn:E; [|done]. injection H as <- <- <-.
  destruct (heap_allocate_spec size default_alignment s q s1 Hs Hsz ltac:(unfold default_alignment; lia) E) as (H1 & _).
  split; [done|]. unfold memset. split; intros a Ha; destruct (Z.leb_spec q a), (Z.ltb_spec a (q + size)); try lia; done.
Qed.

(** The heap serves a request that fits, and its allocations only run out. *)
Theorem allocate_succeeds size alignment s :
  bump_ok s -> 0 < size <= 2 ^ 62 -> 0 < alignment <= 2 ^ 61 ->
  alloc_ptr s + alignment + size <= total_size s -> exists r s', allocate size alignment s = Some (r, s').
Proof.
  intros [Hb Hp He] Hs Ha Hroom. change (2 ^ 63) with 9223372036854775808 in *. change (2 ^ 62) with 4611686018427387904 in *.
  change (2 ^ 61) with 2305843009213693952 in *. unfold allocate. destruct (Z.eqb_spec size 0); [lia|].
  rewrite (u64_small (alloc_base s + alloc_ptr s)) by lia.
  destruct (heap_align_up (alloc_base s + alloc_ptr s) alignment) as [Hr _];
    [lia|lia|change (2 ^ 63 + 2 ^ 62) with 13835058055282163712; lia|].
  set (ret := align_up _ alignment) in *. rewrite (u64_small (ret - alloc_base s)), u64_small by lia.
  destruct (Z.ltb_spec (ret - alloc_base s + size) (total_size s)); [by eexists _, _|lia].
Qed.

(** a size near the top of the word passes the [ASSERT]: the pointer wraps, and
    the next blocks overlap those given out before. *)
Theorem allocate_wraps s :
  bump_ok s -> 16 < total_size s -> alloc_base s mod 16 = 0 -> 0 < alloc_ptr s -> alloc_ptr s mod 16 = 0 ->
  exists r s', allocate (2 ^ 64 - alloc_ptr s) default_alignment s = Some (r, s') /\ alloc_ptr s' = 0.
Proof.
  intros [Hb Hp He] Ht Hal Hpos Hpal. change (2 ^ 63) with 9223372036854775808 in *. change (2 ^ 64) with 18446744073709551616.
  unfold allocate. destruct (Z.eqb_spec (18446744073709551616 - alloc_ptr s) 0); [lia|].
  rewrite (u64_small (alloc_base s + alloc_ptr s)) by lia.
  assert (Hm : (alloc_base s + alloc_ptr s) mod default_alignment = 0).
  { unfold default_alignment. rewrite Z.add_mod, Hal, Hpal by lia. done. }
  unfold align_up. rewrite Hm. cbn [Z.eqb]. replace (alloc_base s + alloc_ptr s - alloc_base s) with (alloc_ptr s) by lia.
  rewrite (u64_small (alloc_ptr s)) by lia. replace (alloc_ptr s + (18446744073709551616 - alloc_ptr s)) with 18446744073709551616 by lia.
  change (u64 18446744073709551616) with 0. destruct (Z.ltb_spec 0 (total_size s)); [|lia]. eexists _, _. split; [reflexivity|]. done.
Qed.

(** ** A small heap *)
Definition some_requests : list request := [Allocate 100 16; Free 65536; Allocate 0 16; Allocate 24 64; Allocate 1 16].

Lemma heap_blocks_disjoint_witness :
  exists s, each serve some_requests (init 65536 4096, []) = Some (s, [(65696, 1); (65664, 24); (65536, 100)]) /\
    forall b n, (b, n) ∈ [(65696, 1); (65664, 24); (65536, 100)] -> 65536 <= b /\ b + n <= 69632 /\ 0 < n.
Proof.
  assert (E : each serve some_requests (init 65536 4096, []) = Some (mkBump 65536 4096 161, [(65696, 1); (65664, 24); (65536, 100)]))
    by (vm_compute; reflexivity).
  exists (mkBump 65536 4096 161). split; [exact E|].
  destruct (heap_blocks_disjoint 65536 4096 some_requests _ _ ltac:(lia) ltac:(lia) ltac:(lia)
    ltac:(repeat constructor; vm_compute; discriminate) E) as [H _].
  exact H.
Defined.

Lemma realloc_keeps_bytes_witness :
  exists r s' mem', reallocate 65536 200 (mkBump 65536 4096 100) (fun a => a) = Some (r, s', mem') /\ mem' (r + 99) = 65635.
Proof.
  destruct (reallocate 65536 200 (mkBump 65536 4096 100) (fun a => a)) as [[[r s'] mem']|] eqn:E; [|discriminate E].
  exists r, s', mem'. split; [reflexivity|].
  destruct (realloc_keeps_bytes 65536 100 200 (mkBump 65536 4096 100) (fun a => a) r s' mem') as (_ & H & _);
    [constructor; vm_compute; intuition discriminate|lia|lia|lia|vm_compute; discriminate|exact E|].
  rewrite (H 99); [reflexivity|lia].
Defined.

Lemma calloc_zeroes_witness :
  exists r s' mem', calloc 8 (mkBump 65536 4096 100) (fun a => a) = Some (r, s', mem') /\ mem' (r + 7) = 0.
Proof.
  destruct (calloc 8 (mkBump 65536 4096 100) (fun a => a)) as [[[r s'] mem']|] eqn:E; [|discriminate E].
  exists r, s', mem'. split; [reflexivity|].
  destruct (calloc_zeroes 8 (mkBump 65536 4096 100) (fun a => a) r s' mem') as (_ & H & _);
    [constructor; vm_compute; intuition discriminate|lia|exact E|].
  apply H. lia.
Defined.

Lemma allocate_succeeds_witness : exists r s', allocate 3000 16 (mkBump 65536 4096 100) = Some (r, s').
Proof. apply allocate_succeeds; [constructor; vm_compute; intuition discriminate|lia|lia|vm_compute; discriminate]. Defined.

Lemma allocate_wraps_witness :
  exists r s', allocate (2 ^ 64 - 96) default_alignment (mkBump 65536 4096 96) = Some (r, s') /\ alloc_ptr s' = 0.
Proof.
  apply (allocate_wraps (mkBump 65536 4096 96)); [constructor; vm_compute; intuition discriminate|vm_compute; reflexivity|reflexivity|vm_compute; reflexivity|reflexivity].
Defined.
