(* ===== verification/Clone.v ===== *)
(** What a clone copies (clone_impl, src/kernel/src/sched/sched.cpp): the
    registers, credentials and signal state of the new thread, and for a new
    process its address space, descriptors and signal actions.  Which tasks are
    made and put on the run list is [clone_impl] of Sched.v, the copy of the
    address space [fork] of Fork.v.

    The state of the parts is put together here: every process's own part is a
    [Space], and what processes share (frames, descriptions, the frames'
    contents) is in the [Machine]. *)
From stdpp Require Import strings.
From S2P Require Import Prelude Signal Pmm PageTable AddressSpace MemSyscalls Fork.
From S2P Require Cred FdTable Sched Format.
Import FdTable (get_description, FileDescription, mkDescription, ref_count, occ).
Import Sched (Sched).

(** ** State *)

(** The registers a system call's entry saves (cpu::syscall::SyscallState):
    [rcx] and [r11] hold the address and the flags to return with. *)
Record SyscallState : Type := mkSyscallState {
  s_ds : Z; s_es : Z;
  s_r15 : Z; s_r14 : Z; s_r13 : Z; s_r12 : Z; s_r11 : Z; s_r10 : Z; s_r9 : Z; s_r8 : Z;
  s_rbp : Z; s_rdi : Z; s_rsi : Z; s_rdx : Z; s_rcx : Z; s_rbx : Z; s_rax : Z
}.

(** What the processor holds during the call of the running thread. *)
Record Cpu : Type := mkCpu {
  syscall_state : SyscallState;
  cpu_user_stack : Z;
  kernel_gs_base : Z;
  fs_base_register : Z
}.

(** The part of a thread the scheduler does not look at. *)
Record Context : Type := mkCtx {
  gpr : InterruptState;
  gs_base : Z;
  fs_base : Z;
  fpu : list Z;
  user_stack : Z;
  saved_user_stack : Z;
  alt_stack : stack_t;
  cred : Cred.Cred;
  name : list Z
}.

(** The same of a process. *)
Record Space : Type := mkSpace {
  pagemap : Pagemap;
  mmap_anon_base : Z;
  brk : Z;
  exe : Z;
  cwd : Z;
  file_descriptors : list Z;
  num_file_descriptors : Z;
  first_free_fdnum : Z;
  actions : list KernelSigaction;
  dumpable : bool;
  arg_start : Z; arg_end : Z;
  env_start : Z; env_end : Z
}.

Record Machine : Type := mkMachine {
  sched : Sched;
  contexts : gmap Z Context;
  spaces : gmap Z Space;
  descriptions : gmap Z FileDescription;
  refs_of_ranges : gmap Z Z;
  pmm : Pmm;
  fresh_rid : Z;
  ram : Ram
}.

(** The fields of clone_args the code reads. *)
Record CloneArgs : Type := mkArgs {
  a_flags : Z;
  a_child_tid : Z;
  a_parent_tid : Z;
  a_stack : Z;
  a_stack_size : Z;
  a_tls : Z
}.

(** ** The new thread *)

Definition USER_CODE_64 : Z := 32.
Definition USER_DATA_64 : Z := 24.
Definition CLONE_SETTLS : Z := 524288.
Definition CLONE_PARENT_SETTID : Z := 1048576.

Section Thread.
(** What the memory of the new thread's object held where its constructor
    writes nothing. *)
Context (indeterminate : Z).

(** The saved registers, then what is set one by one. *)
Definition child_regs (st : SyscallState) (sp : Z) : InterruptState :=
  mkRegs (Z.lor USER_DATA_64 3) (Z.lor USER_DATA_64 3)
    (s_r15 st) (s_r14 st) (s_r13 st) (s_r12 st) (s_r11 st) (s_r10 st) (s_r9 st) (s_r8 st)
    (s_rbp st) (s_rdi st) (s_rsi st) (s_rdx st) (s_rcx st) (s_rbx st) 0
    indeterminate (s_rcx st) (Z.lor USER_CODE_64 3) (s_r11 st) sp (Z.lor USER_DATA_64 3).

Definition child_context (c : Cpu) (args : CloneArgs) (flags : Z) (nm : list Z) (old : Context) : Context :=
  let new_stack := u64 (a_stack args + a_stack_size args) in
  let given := 0 <? a_stack_size args in
  mkCtx (child_regs (syscall_state c) (if given then new_stack else cpu_user_stack c))
    (kernel_gs_base c)
    (if has flags CLONE_SETTLS then a_tls args else fs_base_register c)
    (fpu old)
    (if given then new_stack else user_stack old)
    (if given then new_stack else cpu_user_stack c)
    (alt_stack old) (cred old) nm.
End Thread.

(** ** The new process *)

(** The page map with what all page maps share. *)
Definition with_shared (m : Machine) (p : Pagemap) : Pagemap :=
  mkPagemap (range_list p) (ptes p) (page_owner p) (refs_of_ranges m) (pmm m) (fresh_rid m).

(** The references [fork]'s ranges took, on the counts of the descriptions. *)
Definition range_refs_taken (before after : gmap Z Z) (ds : gmap Z FileDescription) : gmap Z FileDescription :=
  map_imap (fun p d => Some (mkDescription (FdTable.vnode d) (FdTable.cursor d) (FdTable.flags d)
                               (ref_count d + (default 0 (after !! p) - default 0 (before !! p))))) ds.

(** The loop over the old table: a descriptor is duplicated with its flags, a
    free slot stays free. *)
Definition fd_state (ds : gmap Z FileDescription) : FdTable.FdState := FdTable.mkFdState [] 0 0 ds [] ∅.
Fixpoint copy_descriptors (l : list Z) (ds : gmap Z FileDescription) : list Z * gmap Z FileDescription :=
  match l with
  | [] => ([], ds)
  | old :: l' =>
      let '(w, ds1) :=
        if negb (get_description old =? 0) then
          let '(w, s) := FdTable.FileDescriptor_duplicate true old (fd_state ds) in (w, FdTable.descriptions s)
        else (0, ds) in
      let '(t, ds2) := copy_descriptors l' ds1 in (w :: t, ds2)
  end.

Definition clear_handler (a : KernelSigaction) : KernelSigaction :=
  if negb (sa_handler a =? SIG_DFL) && negb (sa_handler a =? SIG_IGN)
  then mkAction SIG_DFL (sa_flags a) (sa_restorer a) (sa_mask a) else a.

Definition clone_process (flags old_process new_process : Z) (m : Machine) : option Machine :=
  sp ← spaces m !! old_process;
  '(old_pagemap, new_pagemap, ram') ← fork (with_shared m (pagemap sp)) (ram m);
  let ds := range_refs_taken (refs_of_ranges m) (file_refs new_pagemap) (descriptions m) in
  let '(table, ds') := copy_descriptors (file_descriptors sp) ds in
  let old' := mkSpace old_pagemap (mmap_anon_base sp) (brk sp) (exe sp) (cwd sp) (file_descriptors sp)
                (num_file_descriptors sp) (first_free_fdnum sp) (actions sp) (dumpable sp)
                (arg_start sp) (arg_end sp) (env_start sp) (env_end sp) in
  let new := mkSpace new_pagemap (mmap_anon_base sp) (brk sp) (exe sp) (cwd sp) table
               (num_file_descriptors sp) (first_free_fdnum sp)
               (if has flags Sched.CLONE_CLEAR_SIGHAND then map clear_handler (actions sp) else actions sp)
               true 0 0 0 0 in
  Some (mkMachine (sched m) (contexts m) (<[new_process := new]> (<[old_process := old']> (spaces m)))
          ds' (file_refs new_pagemap) (pm_pmm new_pagemap) (next_rid new_pagemap) ram').

(** ** clone *)

Section Clone.
Context (indeterminate : Z).

(** The result, what is written to [parent_tid] in the caller's memory, and the
    machine after the call. *)
Definition clone_impl (c : Cpu) (args : CloneArgs) (m : Machine) : option (Z * option (Z * Z) * Machine) :=
  let old := Sched.running_thread (sched m) in
  '(tid, s1) ← Sched.clone_impl old (a_flags args) (a_child_tid args) (sched m);
  match Sched.clone_flags (a_flags args) with
  | None => Some (tid, None, m)
  | Some (flags, is_spawning_thread) =>
      old_thread ← Sched.threads (sched m) !! old;
      old_context ← contexts m !! old;
      nm ← Format.strncpy (name old_context) 64;
      m1 ← (if is_spawning_thread : bool then Some m else clone_process flags (Sched.process old_thread) tid m);
      Some (tid, if has flags CLONE_PARENT_SETTID then Some (a_parent_tid args, tid) else None,
            mkMachine s1 (<[tid := child_context indeterminate c args flags nm old_context]> (contexts m1)) (spaces m1)
              (descriptions m1) (refs_of_ranges m1) (pmm m1) (fresh_rid m1) (ram m1))
  end.

Definition syscall_fork (c : Cpu) (m : Machine) : option (Z * option (Z * Z) * Machine) :=
  clone_impl c (mkArgs 0 0 0 0 0 0) m.
Definition syscall_vfork (c : Cpu) (m : Machine) : option (Z * option (Z * Z) * Machine) :=
  clone_impl c (mkArgs (Z.lor Sched.CLONE_VFORK Sched.CLONE_VM) 0 0 0 0 0) m.
(** The arguments are put together without a size of the stack. *)
Definition syscall_clone (flags stack parent_tid child_tid tls : Z) (c : Cpu) (m : Machine)
    : option (Z * option (Z * Z) * Machine) :=
  clone_impl c (mkArgs (Z.ldiff flags Sched.CSIGNAL) child_tid parent_tid stack 0 tls) m.
Definition syscall_clone3 (args : CloneArgs) (c : Cpu) (m : Machine) : option (Z * option (Z * Z) * Machine) :=
  clone_impl c args m.
End Clone.

(** ** What the new task sees *)

(** The registers a program sees: the general ones, the address it is at, the
    flags and the stack pointer. *)
Definition user_view (r : InterruptState) : list Z :=
  [r15 r; r14 r; r13 r; r12 r; r11 r; r10 r; r9 r; r8 r; rbp r; rdi r; rsi r; rdx r; rcx r; rbx r; rax r;
   rip r; rflags r; rsp r].

(** What [sysret] leaves the caller with, when the call returns [ret]: the saved
    registers, with the address from [rcx] and the flags from [r11]. *)
Definition sysret_view (c : Cpu) (ret : Z) : list Z :=
  let st := syscall_state c in
  [s_r15 st; s_r14 st; s_r13 st; s_r12 st; s_r11 st; s_r10 st; s_r9 st; s_r8 st; s_rbp st; s_rdi st; s_rsi st;
   s_rdx st; s_rcx st; s_rbx st; ret; s_rcx st; s_r11 st; cpu_user_stack c].

(** ** Descriptors *)

Definition take_reference (w : Z) (ds : gmap Z FileDescription) : gmap Z FileDescription :=
  if get_description w =? 0 then ds
  else alter (fun d => mkDescription (FdTable.vnode d) (FdTable.cursor d) (FdTable.flags d) (ref_count d + 1)) (get_description w) ds.

Lemma copy_descriptors_cons w l ds :
  copy_descriptors (w :: l) ds =
  ((if get_description w =? 0 then 0 else w) :: (copy_descriptors l (take_reference w ds)).1,
   (copy_descriptors l (take_reference w ds)).2).
Proof.
  cbn [copy_descriptors]. unfold take_reference. destruct (get_description w =? 0); cbn [negb];
    [|cbn [FdTable.FileDescriptor_duplicate FdTable.increment_ref_count FdTable.descriptions FdTable.set_descriptions fd_state]];
    by destruct (copy_descriptors l _).
Qed.

Lemma copy_descriptors_table l ds :
  (copy_descriptors l ds).1 = map (fun w => if get_description w =? 0 then 0 else w) l.
Proof. revert ds. induction l as [|w l IH]; intros ds; [done|]. rewrite copy_descriptors_cons. cbn [fst map]. f_equal. apply IH. Qed.

Definition with_count (n : Z) (d : FileDescription) : FileDescription :=
  mkDescription (FdTable.vnode d) (FdTable.cursor d) (FdTable.flags d) n.

(** A description gets a reference for each descriptor of the table. *)
Lemma copy_descriptors_count l ds p : p <> 0 ->
  (copy_descriptors l ds).2 !! p = (fun d => with_count (ref_count d + occ p l) d) <$> ds !! p.
Proof.
  intros Hp. revert ds. induction l as [|w l IH]; intros ds.
  - cbn [copy_descriptors snd]. destruct (ds !! p) as [[]|]; [|done]. unfold with_count, occ. simpl. by rewrite Z.add_0_r.
  - rewrite copy_descriptors_cons, FdTable.occ_cons. cbn [snd]. rewrite IH. unfold take_reference.
    destruct (Z.eqb_spec (get_description w) 0) as [Hw|Hw].
    + rewrite decide_False by congruence. by rewrite Z.add_0_l.
    + destruct (decide (get_description w = p)) as [->|Hne].
      * rewrite lookup_alter, decide_True by done. destruct (ds !! p) as [d|]; [|done]. cbn [fmap option_fmap option_map].
        unfold with_count. cbn. do 2 f_equal. lia.
      * rewrite lookup_alter_ne by congruence. by rewrite Z.add_0_l.
Qed.

(** The references of all tables to a description. *)
Definition table_refs (p : Z) (sps : gmap Z Space) : Z := map_fold (fun _ sp n => occ p (file_descriptors sp) + n) 0 sps.

Lemma table_refs_insert p k sp sps : sps !! k = None -> table_refs p (<[k := sp]> sps) = occ p (file_descriptors sp) + table_refs p sps.
Proof. intros H. unfold table_refs. rewrite (map_fold_insert_L (fun _ sp n => occ p (file_descriptors sp) + n)); [done|intros; lia|done]. Qed.

Lemma table_refs_replace p k sp sp' sps : sps !! k = Some sp -> file_descriptors sp' = file_descriptors sp ->
  table_refs p (<[k := sp']> sps) = table_refs p sps.
Proof.
  intros H E. rewrite <- (insert_delete_id sps k sp H) at 2. rewrite <- insert_delete_eq.
  rewrite !table_refs_insert by apply lookup_delete_eq. by rewrite E.
Qed.

(** Every description's count is the number of descriptors and of ranges that
    refer to it, and no descriptor refers to one that is gone. *)
Record counts_ok (m : Machine) : Prop := {
  co_counts : forall p d, p <> 0 -> descriptions m !! p = Some d ->
    ref_count d = table_refs p (spaces m) + default 0 (refs_of_ranges m !! p);
  co_live : forall k sp w, spaces m !! k = Some sp -> w ∈ file_descriptors sp -> get_description w <> 0 ->
    is_Some (descriptions m !! get_description w)
}.

Lemma range_refs_lookup before after ds p :
  range_refs_taken before after ds !! p =
  (fun d => with_count (ref_count d + (default 0 (after !! p) - default 0 (before !! p))) d) <$> ds !! p.
Proof. unfold range_refs_taken. rewrite map_lookup_imap. by destruct (ds !! p). Qed.

(** A new process's descriptors are its parent's, and the counts stay right. *)
Lemma clone_process_keeps_counts flags p q m m' :
  clone_process flags p q m = Some m' -> spaces m !! q = None -> counts_ok m -> counts_ok m'.
Proof.
  unfold clone_process. intros H Hq [Hc Hl]. destruct (spaces m !! p) as [sp|] eqn:Ep; [|done]. cbn [mbind option_bind] in H.
  destruct (fork _ _) as [[[pm cm] ram']|]; [|done]. cbn [mbind option_bind] in H.
  set (ds := range_refs_taken _ _ _) in H. set (l := file_descriptors sp) in H.
  pose proof (copy_descriptors_table l ds) as Ht. pose proof (fun r Hr => copy_descriptors_count l ds r Hr) as Hn.
  destruct (copy_descriptors l ds) as [table ds'] eqn:E. cbn [fst snd] in Ht, Hn. injection H as <-.
  assert (Hneq : q <> p) by congruence.
  assert (Hocc : forall r, r <> 0 -> occ r table = occ r l).
  { intros r Hr. rewrite Ht. clear -Hr. induction l as [|w l IH]; [done|]. cbn [map]. rewrite !FdTable.occ_cons, IH. f_equal.
    destruct (Z.eqb_spec (get_description w) 0) as [Hw|Hw]; [|done].
    rewrite !decide_False; [done|congruence|]. change (get_description 0) with 0. congruence. }
  assert (Hds : forall r, r <> 0 -> is_Some (ds' !! r) <-> is_Some (descriptions m !! r)).
  { intros r Hr. rewrite (Hn r Hr). unfold ds. rewrite range_refs_lookup, !fmap_is_Some. done. }
  constructor; cbn [descriptions spaces refs_of_ranges].
  - intros r d Hr Hd. rewrite (Hn r Hr) in Hd. unfold ds in Hd. rewrite range_refs_lookup in Hd.
    destruct (descriptions m !! r) as [d0|] eqn:E0; [|done]. injection Hd as <-. cbn [with_count ref_count].
    rewrite table_refs_insert by (rewrite lookup_insert_ne by done; done).
    erewrite table_refs_replace; [|done|done]. cbn [file_descriptors]. rewrite (Hocc r Hr), (Hc r d0 Hr E0). fold l. lia.
  - intros k sp' w Hk Hw Hnz. apply Hds; [done|]. apply lookup_insert_Some in Hk as [[<- <-]|[_ Hk]]; cbn [file_descriptors] in Hw.
    + rewrite Ht in Hw. change (map ?f l) with (f <$> l) in Hw. apply list_elem_of_fmap in Hw as (w0 & -> & Hw0).
      destruct (get_description w0 =? 0); [by destruct Hnz|]. by eapply Hl.
    + apply lookup_insert_Some in Hk as [[<- <-]|[_ Hk]]; by eapply Hl.
Qed.

(** A machine whose process [p] may be forked: its address space is well formed
    and there are frames for its pages. *)
Record can_fork (p : Z) (sp : Space) (m : Machine) : Prop := {
  cf_space : spaces m !! p = Some sp;
  cf_wf : as_wf (with_shared m (pagemap sp));
  cf_addrs : addrs_ok (with_shared m (pagemap sp));
  cf_ram : forall f, is_Some (page_owner (pagemap sp) !! f) -> is_Some (ram m !! f);
  cf_room : (length (flat_map (fun x => page_list (AddressSpace.rid x) (with_shared m (pagemap sp))) (range_list (pagemap sp)))
             <= length (page_freelist (pmm m)))%nat
}.

(** The copy of a process: its own memory with the same bytes, and the parent's
    state as it was. *)
Record copy_of (sp old new : Space) (flags : Z) (m m' : Machine) : Prop := {
  cp_old : forall a, user_byte (pagemap old) (ram m') a = user_byte (pagemap sp) (ram m) a;
  cp_new : forall a, user_byte (pagemap new) (ram m') a =
    if in_copied (pagemap sp) a then user_byte (pagemap sp) (ram m) a else None;
  cp_apart : forall v1 v2 e1 e2, ptes (pagemap old) !! v1 = Some e1 -> ptes (pagemap new) !! v2 = Some e2 ->
    Z.land e1 ADDR_MASK <> Z.land e2 ADDR_MASK;
  cp_wf : as_wf (with_shared m' (pagemap old)) /\ as_wf (with_shared m' (pagemap new));
  cp_same : (mmap_anon_base new, brk new, exe new, cwd new, first_free_fdnum new, num_file_descriptors new) =
    (mmap_anon_base sp, brk sp, exe sp, cwd sp, first_free_fdnum sp, num_file_descriptors sp);
  cp_table : file_descriptors new = map (fun w => if get_description w =? 0 then 0 else w) (file_descriptors sp);
  cp_old_table : file_descriptors old = file_descriptors sp;
  cp_actions : actions new = if has flags Sched.CLONE_CLEAR_SIGHAND then map clear_handler (actions sp) else actions sp
}.

Lemma clone_process_copies flags p q sp m : can_fork p sp m -> q <> p ->
  exists m' old new, clone_process flags p q m = Some m' /\ spaces m' !! p = Some old /\ spaces m' !! q = Some new /\
    contexts m' = contexts m /\ (forall k, k <> p -> k <> q -> spaces m' !! k = spaces m !! k) /\ copy_of sp old new flags m m'.
Proof.
  intros [Hsp Hwf Ha Hr Hroom] Hq. set (s := with_shared m (pagemap sp)) in *.
  destruct (fork_result s (ram m) Hwf Ha Hr Hroom) as (c & ram' & fs & E & Hfk & Hall).
  unfold clone_process. rewrite Hsp. cbn [mbind option_bind]. fold s. rewrite E. cbn [mbind option_bind].
  set (ds := range_refs_taken _ _ _). pose proof (copy_descriptors_table (file_descriptors sp) ds) as Ht.
  destruct (copy_descriptors (file_descriptors sp) ds) as [table ds']. cbn [fst] in Ht.
  eexists _, _, _. split; [reflexivity|]. cbn [spaces].
  split; [rewrite lookup_insert_ne by done; apply lookup_insert_eq|]. split; [apply lookup_insert_eq|]. split; [done|].
  split; [intros k Hk1 Hk2; by rewrite !lookup_insert_ne by done|].
  assert (Hxs : forall x, x ∈ reverse (range_list s) <-> x ∈ range_list s) by (intros x; by rewrite elem_of_reverse).
  constructor; cbn [pagemap Clone.ram mmap_anon_base brk exe cwd first_free_fdnum num_file_descriptors file_descriptors actions]; try done.
  - intros a. change (user_byte s ram' a = user_byte s (ram m) a). by eapply parent_bytes.
  - intros a. change (user_byte c ram' a = if in_copied s a then user_byte s (ram m) a else None). by eapply child_bytes.
  - cbn [ptes]. intros v1 v2 e1 e2. change (ptes (pagemap sp)) with (ptes s). by eapply forked_frames.
  - split; [|destruct c; apply (fg_wf _ _ _ _ _ _ Hfk)].
    change (as_wf (mkPagemap (range_list s) (ptes s) (page_owner s) (file_refs c) (pm_pmm c) (next_rid c))). by eapply parent_wf.
Qed.

(** ** clone *)

(** The string in a buffer for a name. *)
Definition named (nm n : list Z) : Prop := length nm = 64%nat /\ Format.chars n /\ exists r, nm = n ++ 0 :: r.

Lemma name_copied nm n : named nm n -> exists nm', Format.strncpy nm 64 = Some nm' /\ named nm' n.
Proof.
  intros (Hl & Hn & r & ->). rewrite length_app in Hl. simpl in Hl. eexists. split; [apply Format.strncpy_fits; [done|lia]|].
  split; [rewrite length_app, length_replicate; lia|]. split; [done|]. exists (replicate (63 - length n) 0).
  by replace (64 - length n)%nat with (S (63 - length n)) by lia.
Qed.

Lemma user_view_child e c args flags nm ctx :
  a_stack_size args = 0 -> user_view (gpr (child_context e c args flags nm ctx)) = sysret_view c 0.
Proof. intros H. unfold child_context. rewrite H. done. Qed.

(** C4: Where the scheduler has a task for the child and there
    are frames for its pages, the child is a copy of its parent -- the same
    bytes at the same addresses in frames of its own, the same descriptors,
    working directory, actions and credentials -- that returns from the call
    where its parent does, with 0; the parent's memory and descriptors are as
    they were, and the count of every description is again the number of its
    descriptors and ranges. *)
Theorem fork_duplicates e c m tid s1 th ctx nm sp :
  let old_tid := Sched.running_thread (sched m) in
  Sched.syscall_fork old_tid (sched m) = Some (tid, s1) -> Sched.threads (sched m) !! old_tid = Some th ->
  contexts m !! old_tid = Some ctx -> named (name ctx) nm -> can_fork (Sched.process th) sp m -> spaces m !! tid = None -> counts_ok m ->
  exists m' old new child, syscall_fork e c m = Some (tid, None, m') /\ sched m' = s1 /\
    spaces m' !! Sched.process th = Some old /\ spaces m' !! tid = Some new /\ contexts m' !! tid = Some child /\
    copy_of sp old new 0 m m' /\
    user_view (gpr child) = sysret_view c 0 /\ cred child = cred ctx /\ alt_stack child = alt_stack ctx /\ fpu child = fpu ctx /\
    named (name child) nm /\
    counts_ok m'.
Proof.
  intros old_tid Es Hth Hctx Hname Hcan Hfresh Hcounts. destruct (name_copied _ _ Hname) as (nm' & Enm & Hnm').
  assert (Hne : tid <> Sched.process th) by (intros ->; by rewrite (cf_space _ _ _ Hcan) in Hfresh).
  destruct (clone_process_copies 0 (Sched.process th) tid sp m Hcan Hne) as (m1 & old & new & E1 & Ho & Hn & Hc & Hk & Hcp).
  pose proof (clone_process_keeps_counts _ _ _ _ _ E1 Hfresh Hcounts) as [Hco Hli].
  unfold syscall_fork, clone_impl. cbn [a_flags a_child_tid]. fold old_tid. unfold Sched.syscall_fork in Es. rewrite Es.
  cbn [mbind option_bind]. change (Sched.clone_flags 0) with (Some (0, false)). cbn iota beta. rewrite Hth, Hctx.
  cbn [mbind option_bind]. rewrite Enm. cbn [mbind option_bind]. rewrite E1. cbn [mbind option_bind]. change (has 0 CLONE_PARENT_SETTID) with false. cbn iota.
  eexists _, old, new, _. split; [reflexivity|]. cbn [sched spaces contexts]. split; [done|]. split; [done|]. split; [done|].
  split; [apply lookup_insert_eq|]. split; [destruct Hcp; by constructor|].
  split; [by apply user_view_child|]. do 4 (split; [done|]). by constructor.
Qed.

(** A thread made by [clone] runs on its creator's stack: the stack it was given
    is not looked at, because the call passes no size for it. *)
Theorem syscall_clone_ignores_stack e flags stack parent_tid child_tid tls c m tid w m' :
  syscall_clone e flags stack parent_tid child_tid tls c m = Some (tid, w, m') -> 0 <= tid ->
  exists child, contexts m' !! tid = Some child /\ user_view (gpr child) = sysret_view c 0.
Proof.
  unfold syscall_clone, clone_impl. cbn [a_flags a_child_tid]. intros H Htid.
  destruct (Sched.clone_impl _ _ _ _) as [[r s1]|] eqn:Es; [|done]. cbn [mbind option_bind] in H.
  destruct (Sched.clone_flags _) as [[flags' th]|] eqn:Ef.
  - destruct (Sched.threads _ !! _) as [ot|]; [|done]. destruct (contexts m !! _) as [ctx|]; [|done]. cbn [mbind option_bind] in H.
    destruct (Format.strncpy _ _) as [nm|]; [|done]. cbn [mbind option_bind] in H.
    destruct (if th then _ else _) as [m1|]; [|done]. cbn [mbind option_bind] in H. injection H as <- <- <-.
    eexists. split; [apply lookup_insert_eq|]. by apply user_view_child.
  - injection H as <- <- <-. unfold Sched.clone_impl in Es. rewrite Ef in Es. injection Es as <- <-. by destruct Htid.
Qed.

(** ** A process that forks *)

Definition example_cpu : Cpu := mkCpu (mkSyscallState 27 27 15 14 13 12 514 10 9 8 5 6 4 3 4198400 2 57) 140737488351232 0 4096.
Definition example_context : Context :=
  mkCtx (mkRegs 0 0 0 0 0 0 0 0 0 0 0 0 0 0 0 0 0 0 0 0 0 0 0) 0 4096 [1; 2; 3] 0 0 (mkStack 0 0 0)
    (Cred.mkCred (Cred.mkIdSet 1000 1000 1000 1000) (Cred.mkIdSet 100 100 100 100) [100]) (115 :: 104 :: replicate 62 0).
(** Descriptors 0 and 2 refer to the description at 64. *)
Definition example_space : Space :=
  mkSpace faulted 139637976727552 0 5 1 [64; 0; 65] 2 1 (replicate 64 (mkAction 0 0 0 0)) true 0 0 0 0.
Definition example_sched : Sched :=
  Sched.mkSched {[ 2 := Sched.mkSThread 2 Sched.RUNNING (-1) 0 0 0 [] false false true 0 0 ]}
    {[ 2 := Sched.mkSProcess [2] 1 1 [] 0 0 false 0 2 18 ]} {[ 2 := [2] ]} ∅ [2] 2 [false; false; true] 3.
Definition example_machine : Machine :=
  mkMachine example_sched {[ 2 := example_context ]} {[ 2 := example_space ]} {[ 64 := mkDescription 9 0 2 2 ]}
    (file_refs faulted) (pm_pmm faulted) (next_rid faulted) faulted_ram.

Lemma with_shared_faulted : with_shared example_machine faulted = faulted.
Proof. unfold with_shared, example_machine. cbn [refs_of_ranges pmm fresh_rid]. by destruct faulted. Qed.

Lemma example_can_fork : can_fork 2 example_space example_machine.
Proof.
  constructor; cbn [pagemap example_space]; rewrite ?with_shared_faulted.
  - reflexivity.
  - apply faulted_wf.
  - apply faulted_addrs.
  - intros f [r Ho]. rewrite (faulted_owner f r Ho). exists (replicate 4096 65). reflexivity.
  - vm_compute. lia.
Qed.

Lemma example_counts : counts_ok example_machine.
Proof.
  constructor.
  - intros p d Hp Hd. cbn [descriptions example_machine] in Hd. apply lookup_singleton_Some in Hd as [<- <-]. vm_compute. reflexivity.
  - intros k sp w Hk Hw Hnz. cbn [spaces example_machine] in Hk. apply lookup_singleton_Some in Hk as [<- <-].
    cbn [file_descriptors example_space] in Hw.
    apply elem_of_cons in Hw as [->|Hw]; [by eexists|]. apply elem_of_cons in Hw as [->|Hw]; [done|].
    apply elem_of_cons in Hw as [->|Hw]; [by eexists|by apply elem_of_nil in Hw].
Qed.

Lemma example_name : named (name example_context) [115; 104].
Proof. split; [done|]. split; [by repeat constructor|]. by exists (replicate 61 0). Qed.

Lemma fork_duplicates_witness :
  exists m' child, syscall_fork 0 example_cpu example_machine = Some (3, None, m') /\ contexts m' !! 3 = Some child /\
    user_view (gpr child) = [15; 14; 13; 12; 514; 10; 9; 8; 5; 6; 4; 3; 4198400; 2; 0; 4198400; 514; 140737488351232] /\
    (ref_count <$> descriptions m' !! 64) = Some 4.
Proof.
  destruct (Sched.syscall_fork 2 example_sched) as [[tid s1]|] eqn:E; [|vm_compute in E; discriminate].
  assert (Htid : fst <$> Sched.syscall_fork 2 example_sched = Some 3) by (vm_compute; reflexivity).
  rewrite E in Htid. injection Htid as ->.
  destruct (fork_duplicates 0 example_cpu example_machine 3 s1 _ example_context [115; 104] example_space E eq_refl eq_refl
              example_name example_can_fork eq_refl example_counts) as (m' & old & new & child & H & _ & _ & _ & Hc & _ & Hv & _).
  exists m', child. split; [exact H|]. split; [exact Hc|]. split; [exact Hv|].
  assert (Hd : (fun r => ref_count <$> descriptions (snd r) !! 64) <$> syscall_fork 0 example_cpu example_machine = Some (Some 4))
    by (vm_compute; reflexivity).
  rewrite H in Hd. injection Hd as Hd. exact Hd.
Defined.

Lemma syscall_clone_ignores_stack_witness :
  exists m' child, syscall_clone 0 331520 139000000 0 0 0 example_cpu example_machine = Some (3, None, m') /\
    contexts m' !! 3 = Some child /\ rsp (gpr child) = 140737488351232.
Proof.
  destruct (syscall_clone 0 331520 139000000 0 0 0 example_cpu example_machine) as [[[tid w] m']|] eqn:E; [|vm_compute in E; discriminate].
  assert (Ht : fst <$> syscall_clone 0 331520 139000000 0 0 0 example_cpu example_machine = Some (3, None)) by (vm_compute; reflexivity).
  rewrite E in Ht. injection Ht as -> ->.
  destruct (syscall_clone_ignores_stack 0 331520 139000000 0 0 0 example_cpu example_machine 3 None m' E ltac:(lia)) as (child & Hc & Hv).
  exists m', child. split; [done|]. split; [exact Hc|]. by injection Hv.
Defined.
