(* ===== verification/ProcCalls.v ===== *)
(** Calls about the calling process and the system (src/kernel/src/sched/sched.cpp
    and src/kernel/src/userland/info.cpp): prctl, arch_prctl, set_tid_address,
    the resource limits, getcpu, sched_getaffinity, uname and sysinfo.

    What a call writes to the caller's memory is part of its result: the
    address and the bytes, or the fields of the structure.  A pointer the call
    reads characters through is the list of bytes from it on. *)
From stdpp Require Import strings.
From S2P Require Import Prelude Format NameSpace Pmm Clone.
From S2P Require Cred Time.

(** ** The caller *)

(** The thread's identifiers, context and fs register, and its process. *)
Record Caller : Type := mkCaller {
  c_tid : Z;
  c_clear_child_tid : Z;
  c_fs_base : Z;
  c_context : Context;
  c_space : Space
}.

Definition set_name (nm : list Z) (c : Caller) : Caller :=
  let x := c_context c in
  mkCaller (c_tid c) (c_clear_child_tid c) (c_fs_base c)
    (mkCtx (gpr x) (gs_base x) (fs_base x) (fpu x) (user_stack x) (saved_user_stack x) (alt_stack x) (cred x) nm) (c_space c).
Definition set_process (dump : bool) (args arge envs enve : Z) (c : Caller) : Caller :=
  let p := c_space c in
  mkCaller (c_tid c) (c_clear_child_tid c) (c_fs_base c) (c_context c)
    (mkSpace (pagemap p) (mmap_anon_base p) (brk p) (exe p) (cwd p) (file_descriptors p) (num_file_descriptors p)
       (first_free_fdnum p) (actions p) dump args arge envs enve).

(** ** prctl *)

Definition PR_GET_DUMPABLE : Z := 3.
Definition PR_SET_DUMPABLE : Z := 4.
Definition PR_SET_NAME : Z := 15.
Definition PR_GET_NAME : Z := 16.
Definition PR_CAPBSET_READ : Z := 23.
Definition PR_SET_MM : Z := 35.
Definition PR_SET_MM_ARG_START : Z := 8.
Definition PR_SET_MM_ARG_END : Z := 9.
Definition PR_SET_MM_ENV_START : Z := 10.
Definition PR_SET_MM_ENV_END : Z := 11.
Definition PR_SET_VMA : Z := 1398164801.
Definition PR_SET_VMA_ANON_NAME : Z := 0.
Definition CAP_SYS_RESOURCE : Z := 24.

(** What is written through a pointer of the caller. *)
Abbreviation Written := (option (Z * list Z)).

(** [strncpy(to, from, 16); to[15] = 0] over a buffer. *)
Definition copy_name (to from : list Z) : option (list Z) :=
  d ← strncpy from 16; Some (take 15 d ++ [0] ++ drop 16 to).

Definition prctl_set_mm (arg1 arg2 : Z) (c : Caller) : option Caller :=
  let p := c_space c in
  if arg1 =? PR_SET_MM_ARG_START then Some (set_process (dumpable p) arg2 (arg_end p) (env_start p) (env_end p) c)
  else if arg1 =? PR_SET_MM_ARG_END then Some (set_process (dumpable p) (arg_start p) arg2 (env_start p) (env_end p) c)
  else if arg1 =? PR_SET_MM_ENV_START then Some (set_process (dumpable p) (arg_start p) (arg_end p) arg2 (env_end p) c)
  else if arg1 =? PR_SET_MM_ENV_END then Some (set_process (dumpable p) (arg_start p) (arg_end p) (env_start p) arg2 c)
  else None.

(** [pointed] is what the caller's memory holds from [arg1] on. *)
Definition syscall_prctl (op arg1 arg2 : Z) (pointed : list Z) (c : Caller) : option (Z * Written * Caller) :=
  let p := c_space c in
  if op =? PR_GET_DUMPABLE then Some (if dumpable p then 1 else 0, None, c)
  else if op =? PR_SET_DUMPABLE then
    Some (0, None, set_process (negb (arg1 =? 0)) (arg_start p) (arg_end p) (env_start p) (env_end p) c)
  else if op =? PR_GET_NAME then
    d ← copy_name (replicate 16 0) (name (c_context c)); Some (0, Some (arg1, d), c)
  else if op =? PR_SET_NAME then
    nm ← copy_name (name (c_context c)) pointed; Some (0, None, set_name nm c)
  else if op =? PR_SET_MM then
    if negb (Cred.has_capability (cred (c_context c)) CAP_SYS_RESOURCE) then Some (- EPERM, None, c)
    else Some (match prctl_set_mm arg1 arg2 c with Some c1 => (0, None, c1) | None => (- EINVAL, None, c) end)
  else if op =? PR_SET_VMA then Some (if negb (arg1 =? PR_SET_VMA_ANON_NAME) then - EINVAL else 0, None, c)
  else if op =? PR_CAPBSET_READ then Some (1, None, c)
  else Some (- EINVAL, None, c).

(** ** arch_prctl and set_tid_address *)

Definition ARCH_SET_FS : Z := 4098.
Definition ARCH_GET_FS : Z := 4099.

Definition syscall_arch_prctl (op addr : Z) (c : Caller) : Z * Written * Caller :=
  if op =? ARCH_SET_FS then (0, None, mkCaller (c_tid c) (c_clear_child_tid c) addr (c_context c) (c_space c))
  else if op =? ARCH_GET_FS then (0, Some (addr, le_split 8 (c_fs_base c)), c)
  else (- EINVAL, None, c).

Definition syscall_set_tid_address (tidptr : Z) (c : Caller) : Z * Caller :=
  (c_tid c, mkCaller (c_tid c) tidptr (c_fs_base c) (c_context c) (c_space c)).

(** ** Limits and processors *)

Definition RLIM64_INFINITY : Z := 18446744073709551615.
Definition RLIMIT_CPU : Z := 0.
Definition RLIMIT_FSIZE : Z := 1.
Definition RLIMIT_DATA : Z := 2.
Definition RLIMIT_STACK : Z := 3.
Definition RLIMIT_CORE : Z := 4.
Definition RLIMIT_RSS : Z := 5.
Definition RLIMIT_NPROC : Z := 6.
Definition RLIMIT_NOFILE : Z := 7.
Definition RLIMIT_MEMLOCK : Z := 8.
Definition RLIMIT_AS : Z := 9.
Definition RLIMIT_LOCKS : Z := 10.

Definition limit_of (resource : Z) : option Z :=
  if resource =? RLIMIT_NOFILE then Some 1024
  else if resource =? RLIMIT_STACK then Some (8 * 1024 * 1024)
  else if resource =? RLIMIT_NPROC then Some 126047
  else if bool_decide (resource ∈ [RLIMIT_AS; RLIMIT_RSS; RLIMIT_CPU; RLIMIT_FSIZE; RLIMIT_DATA; RLIMIT_LOCKS; RLIMIT_MEMLOCK])
  then Some RLIM64_INFINITY
  else if resource =? RLIMIT_CORE then Some 0
  else None.

(** Whether there is a new limit and where the old one goes (0 is null); the
    second result is the soft and hard limit written. *)
Definition prlimit_impl (resource : Z) (new_limit : bool) (old_limit : Z) : Z * option (Z * Z) :=
  if new_limit then (0, None)
  else if old_limit =? 0 then (0, None)
  else match limit_of resource with
       | Some l => (0, Some (l, l))
       | None => (- EINVAL, None)
       end.
Definition syscall_prlimit64 (resource : Z) (new_limit : bool) (old_limit : Z) : Z * option (Z * Z) :=
  prlimit_impl resource new_limit old_limit.
Definition syscall_getrlimit (resource limit : Z) : Z * option (Z * Z) := prlimit_impl resource false limit.
Definition syscall_setrlimit (resource limit : Z) : Z * option (Z * Z) := prlimit_impl resource (negb (limit =? 0)) 0.

(** The first eight bytes of the mask, with the first processor in it. *)
Definition syscall_sched_getaffinity (cpusetsize mask : Z) : Z * Written :=
  if cpusetsize <? 8 then (- EINVAL, None) else (8, Some (mask, le_split 8 (Z.lor 0 (Z.shiftl 1 0)))).

(** The processor and the node, where their pointers are not null. *)
Definition syscall_getcpu (cpu node : Z) : Z * (option Z * option Z) :=
  (0, (if negb (cpu =? 0) then Some 0 else None, if negb (node =? 0) then Some 0 else None)).

(** ** uname and sysinfo *)

Record utsname : Type := mkUtsname {
  sysname : list Z; nodename : list Z; release : list Z; version : list Z; machine : list Z; domainname : list Z
}.
Definition field_size : nat := 65.
Definition field (s : list Z) : option (list Z) := strncpy (s ++ [0]) field_size.

Definition c_string (s : string) : list Z := str s ++ [0].

(** [date] and [time] are what the compiler puts for __DATE__ and __TIME__. *)
Definition syscall_uname (date time : list Z) (c : Caller) : option (Z * utsname) :=
  u ← strcmp (name (c_context c)) (c_string "uname");
  fake_linux ← (if u =? 0 then Some false
                else (f ← strcmp (name (c_context c)) (c_string "fastfetch"); Some (negb (f =? 0))));
  sys ← field (if fake_linux : bool then str "Linux" else str "Fishix");
  rel ← field (if fake_linux : bool then str "3.0.1-fishix" else str "1.0.0");
  ver ← field ((if fake_linux : bool then str "#1 SMP PREEMPT_DYNAMIC " else []) ++ date ++ str " " ++ time);
  node ← field (str "fishpc");
  mach ← field (str "x86_64");
  dom ← field (str "(none)");
  Some (0, mkUtsname sys node rel ver mach dom).

Record sysinfo : Type := mkSysinfo {
  uptime : Z; loads : list Z; totalram : Z; freeram : Z; sharedram : Z; bufferram : Z; totalswap : Z; freeswap : Z;
  procs : Z; totalhigh : Z; freehigh : Z; mem_unit : Z
}.
(** [us] is the time since the last tick of the clocks. *)
Definition syscall_sysinfo (us : Z) (clocks : Time.Clock) (p : Pmm) : Z * sysinfo :=
  (0, mkSysinfo (Time.seconds (Time.get_clock Time.CLOCK_MONOTONIC us false clocks)) [0; 0; 0]
        (total_pages_usable p) (total_free_pages p) 0 0 0 0 0 0 0 PAGE_SIZE).

(** ** Names *)

(** A name of 64 bytes with its terminator. *)
Lemma strncpy_long s r n : chars s -> (n <= length s)%nat -> strncpy (s ++ r) n = Some (take n s).
Proof.
  intros Hs. revert n. induction Hs as [|x s Hx Hs IH]; intros [|n] Hn; simpl in Hn; try lia; cbn [strncpy app take]; try (by destruct r || done).
  destruct (Z.eqb_spec x 0); [lia|]. rewrite IH by lia. done.
Qed.

(** The buffer after a copy: at most fifteen characters and zeros up to the
    sixteenth byte. *)
Definition short (s : list Z) : list Z := take 15 s ++ replicate (16 - length (take 15 s)) 0.

Lemma copy_name_spec to s r : chars s -> copy_name to (s ++ 0 :: r) = Some (short s ++ drop 16 to).
Proof.
  intros Hs. unfold copy_name, short. destruct (decide (16 <= length s)%nat) as [Hl|Hl].
  - rewrite strncpy_long by done. cbn [mbind option_bind]. rewrite take_take, length_take. 
    replace (15 `min` 16)%nat with 15%nat by done. replace (16 - 15 `min` length s)%nat with 1%nat by lia.
    by rewrite <- app_assoc.
  - rewrite strncpy_fits by (done || lia). cbn [mbind option_bind].
    rewrite (take_ge s 15) by lia. rewrite app_assoc. do 2 f_equal.
    rewrite take_app, (take_ge s), take_replicate, <- app_assoc by lia. f_equal.
    replace (16 - length s)%nat with (S (15 - length s)) by lia. rewrite (replicate_S_end (15 - length s)). do 2 f_equal. lia.
Qed.

Lemma named_short to s : length to = 64%nat -> chars s -> named (short s ++ drop 16 to) (take 15 s).
Proof.
  intros Hto Hs. split; [|split; [by apply Forall_take|]].
  - rewrite length_app, length_drop. unfold short. rewrite length_app, length_replicate, length_take. lia.
  - exists (replicate (15 - length (take 15 s)) 0 ++ drop 16 to). unfold short. rewrite <- app_assoc. f_equal.
    rewrite length_take. by replace (16 - 15 `min` length s)%nat with (S (15 - 15 `min` length s)) by lia.
Qed.

Lemma short_short s : short (take 15 s) = short s.
Proof. unfold short. by rewrite take_take. Qed.

(** A thread's name, once set, is read back: its first fifteen characters,
    with zeros up to sixteen bytes.  The name stays terminated. *)
Theorem prctl_name_roundtrip c s r arg1 arg2 addr pointed :
  chars s -> length (name (c_context c)) = 64%nat ->
  exists c', syscall_prctl PR_SET_NAME arg1 arg2 (s ++ 0 :: r) c = Some (0, None, c') /\
    named (name (c_context c')) (take 15 s) /\
    syscall_prctl PR_GET_NAME addr arg2 pointed c' = Some (0, Some (addr, short s), c').
Proof.
  intros Hs Hn. unfold syscall_prctl. cbn [Z.eqb PR_SET_NAME PR_GET_NAME PR_GET_DUMPABLE PR_SET_DUMPABLE Pos.eqb].
  rewrite copy_name_spec by done. cbn [mbind option_bind]. eexists. split; [reflexivity|].
  cbn [set_name c_context name]. destruct (named_short _ s Hn Hs) as (Hl & Hc & r' & E). split; [by split; [|split; [|exists r']]|].
  rewrite E, copy_name_spec by done. cbn [mbind option_bind]. by rewrite short_short, app_nil_r.
Qed.

(** Only root changes where a process's arguments are said to be. *)
Theorem prctl_mm_needs_root c arg1 arg2 pointed :
  Cred.eid (Cred.uids (cred (c_context c))) <> 0 -> syscall_prctl PR_SET_MM arg1 arg2 pointed c = Some (- EPERM, None, c).
Proof. intros H. unfold syscall_prctl, Cred.has_capability. by rewrite (proj2 (Z.eqb_neq _ _) H). Qed.

(** The limits do not change: a call that sets one succeeds, reports nothing,
    and a later call reports what an earlier one would have. *)
Theorem limits_fixed resource limit old_limit :
  old_limit <> 0 -> limit <> 0 ->
  syscall_setrlimit resource limit = (0, None) /\ syscall_prlimit64 resource true old_limit = (0, None) /\
  syscall_getrlimit resource old_limit = match limit_of resource with Some l => (0, Some (l, l)) | None => (- EINVAL, None) end.
Proof.
  intros Ho Hl. unfold syscall_setrlimit, syscall_prlimit64, syscall_getrlimit, prlimit_impl.
  by rewrite (proj2 (Z.eqb_neq _ _) Ho), (proj2 (Z.eqb_neq _ _) Hl).
Qed.

Lemma strcmp_total s t r1 r2 : chars s -> chars t -> is_Some (strcmp (s ++ 0 :: r1) (t ++ 0 :: r2)).
Proof.
  intros Hs. revert t. induction Hs as [|x s Hx Hs IH]; intros [|y t] Ht; cbn [strcmp app].
  - by eexists.
  - by eexists.
  - destruct (negb (x =? 0) && (x =? 0)) eqn:E; [lia|by eexists].
  - apply Forall_cons in Ht as [Hy Ht]. destruct (negb (x =? 0) && (x =? y)); [by apply IH|by eexists].
Qed.

Definition is_field (f s : list Z) : Prop := f = s ++ replicate (field_size - length s) 0.

Lemma field_spec s : chars s -> (length s < field_size)%nat -> exists f, field s = Some f /\ is_field f s.
Proof. intros Hs Hl. unfold field. rewrite strncpy_fits by done. by eexists. Qed.

(** uname fills its fields with terminated strings, and says it is Linux but to
    two programs. *)
Theorem uname_fields c nm date time :
  named (name (c_context c)) nm -> chars date -> chars time -> (length date + length time <= 40)%nat ->
  let honest := nm = str "uname" \/ nm = str "fastfetch" in
  exists u, syscall_uname date time c = Some (0, u) /\
    (honest -> is_field (sysname u) (str "Fishix")) /\ (~ honest -> is_field (sysname u) (str "Linux")) /\
    is_field (nodename u) (str "fishpc") /\ is_field (machine u) (str "x86_64") /\
    length (version u) = field_size /\ length (release u) = field_size.
Proof.
  intros (Hl & Hn & r & E) Hd Ht Hlen honest.
  assert (H0 : forall s : string, forallb (fun x => (0 <? x) && (x <? 256)) (str s) = true -> chars (str s)).
  { intros s Hs. apply Forall_forall. intros x Hx. rewrite forallb_forall in Hs. apply list_elem_of_In in Hx. specialize (Hs x Hx). lia. }
  assert (Hcmp : forall t, chars t -> exists v, strcmp (name (c_context c)) (t ++ [0]) = Some v /\ (v = 0 <-> nm = t)).
  { intros t Hct. rewrite E. destruct (strcmp_total nm t r [] Hn Hct) as [v Hv]. exists v. split; [done|].
    rewrite <- (strcmp_zero nm t r [] Hn Hct), Hv. split; [by intros ->|by intros [= ->]]. }
  destruct (Hcmp (str "uname")) as (v1 & E1 & H1); [by apply H0|]. destruct (Hcmp (str "fastfetch")) as (v2 & E2 & H2); [by apply H0|].
  assert (Hver : forall p, chars p -> (length p <= 23)%nat -> exists f, field (p ++ date ++ str " " ++ time) = Some f /\ length f = field_size).
  { intros p Hp Hlp. destruct (field_spec (p ++ date ++ str " " ++ time)) as (f & Ef & Hf).
    - apply Forall_app. split; [done|]. apply Forall_app. split; [done|]. apply Forall_app. split; [by apply H0|done].
    - rewrite !length_app. change (length (str " ")) with 1%nat. unfold field_size. lia.
    - exists f. split; [done|]. rewrite Hf, length_app, length_replicate. rewrite !length_app in *.
      change (length (str " ")) with 1%nat. unfold field_size. lia. }
  destruct (Hver (str "#1 SMP PREEMPT_DYNAMIC ")) as (f1 & Ef1 & Hf1); [by apply H0|done|].
  destruct (Hver []) as (f2 & Ef2 & Hf2); [constructor|simpl; lia|].
  unfold syscall_uname, c_string. rewrite E1. cbn [mbind option_bind]. rewrite E2.
  destruct (Z.eqb_spec v1 0) as [Hv1|Hv1]; [|cbn [mbind option_bind]; destruct (Z.eqb_spec v2 0) as [Hv2|Hv2]; cbn [negb]].
  - cbn [mbind option_bind]. rewrite Ef2. eexists. split; [reflexivity|]. cbn [sysname nodename machine version release].
    split; [done|]. split; [intros Hno; destruct Hno; left; by apply H1|]. done.
  - rewrite Ef2. eexists. split; [reflexivity|]. cbn [sysname nodename machine version release].
    split; [done|]. split; [intros Hno; destruct Hno; right; by apply H2|]. done.
  - rewrite Ef1. eexists. split; [reflexivity|]. cbn [sysname nodename machine version release].
    split; [|done]. intros [Hh|Hh]; [destruct Hv1; by apply H1|destruct Hv2; by apply H2].
Qed.

(** ** A caller *)
Definition example_caller : Caller := mkCaller 2 0 4096 example_context example_space.

Lemma prctl_name_roundtrip_witness :
  exists c', syscall_prctl PR_SET_NAME 4096 0 (c_string "a-name-of-nineteen!") example_caller = Some (0, None, c') /\
    syscall_prctl PR_GET_NAME 8192 0 [] c' = Some (0, Some (8192, c_string "a-name-of-ninet"), c').
Proof.
  destruct (prctl_name_roundtrip example_caller (str "a-name-of-nineteen!") [] 4096 0 8192 []) as (c' & H1 & _ & H2).
  - repeat constructor.
  - reflexivity.
  - exists c'. split; [exact H1|exact H2].
Defined.

Lemma prctl_mm_needs_root_witness : syscall_prctl PR_SET_MM PR_SET_MM_ARG_END 0 [] example_caller = Some (- EPERM, None, example_caller).
Proof. apply prctl_mm_needs_root. vm_compute. discriminate. Defined.

Lemma uname_fields_witness :
  exists u, syscall_uname (str "Jan  1 2025") (str "00:00:00") example_caller = Some (0, u) /\ is_field (sysname u) (str "Linux").
Proof.
  destruct (uname_fields example_caller [115; 104] (str "Jan  1 2025") (str "00:00:00") example_name) as (u & H & _ & Hl & _).
  - repeat constructor.
  - repeat constructor.
  - vm_compute. lia.
  - exists u. split; [exact H|]. apply Hl. intros [Hc|Hc]; discriminate Hc.
Defined.
