(* ===== verification/PathCalls.v ===== *)
(** The system calls on paths and descriptors that are variants of the ones in
    NameSpace.v (src/kernel/src/fs/vfs.cpp), statfs of a descriptor, ioctl and
    getrandom. *)
From stdpp Require Import strings.
From S2P Require Import Prelude FdTable NameSpace.
From S2P Require Tmpfs.

Section Calls.
Context `{!Tmpfs.Realloc}.
Context (fuel : nat) (pipe_dev_id socket_dev_id : Z) (create_device_node : Z -> bool).

(** ** Variants *)

Definition syscall_mkdirat (dirfd : Z) (path : list Z) (md : Z) := mkdirat_impl fuel dirfd path md.
Definition syscall_unlinkat (dirfd : Z) (path : list Z) (fl : Z) := unlinkat_impl fuel dirfd path fl.

Definition syscall_newfstatat (fd : Z) (path : list Z) (fl : Z) := fstatat_impl fuel pipe_dev_id socket_dev_id fd path fl.
Definition syscall_stat (path : list Z) := fstatat_impl fuel pipe_dev_id socket_dev_id AT_FDCWD path 0.
Definition syscall_fstat (fd : Z) := fstatat_impl fuel pipe_dev_id socket_dev_id fd [] AT_EMPTY_PATH.
Definition syscall_lstat (path : list Z) := fstatat_impl fuel pipe_dev_id socket_dev_id AT_FDCWD path AT_SYMLINK_NOFOLLOW.

Definition syscall_renameat (old_dirfd : Z) (old_path : list Z) (new_dirfd : Z) (new_path : list Z) :=
  renameat_impl fuel old_dirfd old_path new_dirfd new_path.
Definition syscall_readlinkat (dirfd : Z) (path : list Z) (count : Z) := readlinkat_impl fuel dirfd path count.
Definition syscall_readlink (path : list Z) (count : Z) := readlinkat_impl fuel AT_FDCWD path count.

(** [linkat_impl] does not look at its flags. *)
Definition syscall_linkat (old_dirfd : Z) (old_path : list Z) (new_dirfd : Z) (new_path : list Z) (_ : Z) :=
  linkat_impl fuel old_dirfd old_path new_dirfd new_path.
Definition syscall_link (old_path new_path : list Z) := linkat_impl fuel AT_FDCWD old_path AT_FDCWD new_path.
Definition syscall_symlinkat (target_path : list Z) (dirfd : Z) (link_path : list Z) := symlinkat_impl fuel target_path dirfd link_path.
Definition syscall_symlink (target_path link_path : list Z) := symlinkat_impl fuel target_path AT_FDCWD link_path.

(** Nor does [faccessat2_impl] at the mode. *)
Definition syscall_faccessat (dirfd : Z) (path : list Z) (_ : Z) := faccessat2_impl fuel pipe_dev_id socket_dev_id dirfd path 0.
Definition syscall_faccessat2 (dirfd : Z) (path : list Z) (_ fl : Z) := faccessat2_impl fuel pipe_dev_id socket_dev_id dirfd path fl.
Definition syscall_access (path : list Z) (_ : Z) := faccessat2_impl fuel pipe_dev_id socket_dev_id AT_FDCWD path 0.

Definition syscall_fchownat (fd : Z) (path : list Z) (owner group fl : Z) := fchownat_impl fuel fd path owner group fl.
Definition syscall_chown (path : list Z) (owner group : Z) := fchownat_impl fuel AT_FDCWD path owner group 0.
Definition syscall_fchown (fd owner group : Z) := fchownat_impl fuel fd [] owner group AT_EMPTY_PATH.
Definition syscall_lchown (path : list Z) (owner group : Z) := fchownat_impl fuel AT_FDCWD path owner group AT_SYMLINK_NOFOLLOW.

Definition syscall_fchmodat2 (fd : Z) (path : list Z) (md fl : Z) := fchmodat2_impl fuel fd path md fl.
Definition syscall_fchmodat (fd : Z) (path : list Z) (md : Z) := fchmodat2_impl fuel fd path md 0.
Definition syscall_chmod (path : list Z) (md : Z) := fchmodat2_impl fuel AT_FDCWD path md 0.
Definition syscall_fchmod (fd md : Z) := fchmodat2_impl fuel fd [] md AT_EMPTY_PATH.

Definition syscall_mknodat (dirfd : Z) (path : list Z) (md dev : Z) := mknodat_impl fuel create_device_node dirfd path md dev.
Definition syscall_mknod (path : list Z) (md dev : Z) := mknodat_impl fuel create_device_node AT_FDCWD path md dev.

Definition syscall_fstatfs (fd : Z) (s : Ns) : option (Z + Filesystem) :=
  match lookup_description fd s with
  | None => Some (inl (- EBADF))
  | Some (_, d) => statfs_vnode (vnode d) s
  end.

(** ** getrandom *)

Definition GRND_RANDOM : Z := 2.

(** The two devices, found at the first call and kept; 0 is null.  The result
    is the error or the vnode to read, with the devices and the names after
    it; reading it is [SimpleDev_read] of Devices.v. *)
Definition find_device (path : list Z) (device : Z) (s : Ns) : option (Z * Ns) :=
  if device =? 0 then
    '(e, s1) ← path_to_entry fuel path 0 true s; v ← vnode_of e s1; Some (v, s1)
  else Some (device, s).
Definition syscall_getrandom (fl : Z) (devices : Z * Z) (s : Ns) : option ((Z + Z) * (Z * Z) * Ns) :=
  let '(random_device, urandom_device) := devices in
  '(r, s1) ← find_device (str "/dev/random") random_device s;
  if r =? 0 then Some (inl (- ENOENT), devices, s1)
  else
    '(u, s2) ← find_device (str "/dev/urandom") urandom_device s1;
    if u =? 0 then Some (inl (- ENOENT), (r, urandom_device), s2)
    else Some (inr (if has fl GRND_RANDOM then r else u), (r, u), s2).
End Calls.

(** ** ioctl *)

Definition FIOCLEX : Z := 21585.
Definition FIONCLEX : Z := 21584.

(** The calls on the descriptor itself; any other is the vnode's, [inr] of the
    description. *)
Definition syscall_ioctl (fd cmd : Z) (s : FdState) : (Z * FdState) + Z :=
  if (fd_size s <=? fd) || (fd <? 0) then inl (- EBADF, s)
  else
    let descriptor := fd_word s fd in
    if get_description descriptor =? 0 then inl (- EBADF, s)
    else if cmd =? FIOCLEX then inl (0, set_table (<[Z.to_nat fd := set_flags descriptor FD_CLOEXEC]> (file_descriptors s)) s)
    else if cmd =? FIONCLEX then inl (0, set_table (<[Z.to_nat fd := set_flags descriptor 0]> (file_descriptors s)) s)
    else inr (get_description descriptor).

(** ** Theorems *)

(** Setting and clearing the flag with ioctl is what F_SETFD of fcntl does. *)
Theorem ioctl_is_fcntl (on : bool) fd s :
  (forall w, w ∈ file_descriptors s -> get_description w <> 0 -> is_Some (descriptions s !! get_description w)) ->
  exists r s', syscall_ioctl fd (if on then FIOCLEX else FIONCLEX) s = inl (r, s') /\
    fcntl_impl fd F_SETFD (if on then FD_CLOEXEC else 0) s = Some (r, s').
Proof.
  intros Hlive. unfold syscall_ioctl, fcntl_impl. destruct ((fd_size s <=? fd) || (fd <? 0)) eqn:Hr; [by eauto|].
  apply orb_false_iff in Hr as [H1 H2]. apply Z.leb_gt in H1. apply Z.ltb_ge in H2.
  destruct (Z.eqb_spec (get_description (fd_word s fd)) 0) as [Hz|Hz]; [by eauto|].
  destruct (Hlive (fd_word s fd)) as [d ->]; [apply fd_word_in; lia|done|].
  destruct on; cbn [Z.eqb Pos.eqb FIOCLEX FIONCLEX]; by eauto.
Qed.

Section Theorems.
Context `{RA : !Tmpfs.Realloc} (fuel : nat) (pipe_dev_id socket_dev_id : Z).

Lemma empty_path fd s : fd <> AT_FDCWD ->
  get_vnode_from_dirfd_path fuel fd [] AT_EMPTY_PATH s =
  Some (match lookup_description fd s with Some (_, d) => inr (vnode d) | None => inl (- EBADF) end, s).
Proof.
  intros Hfd. unfold get_vnode_from_dirfd_path. rewrite (proj2 (Z.eqb_neq _ _) Hfd).
  change (has AT_EMPTY_PATH AT_EMPTY_PATH) with true. rewrite bool_decide_true by done. cbn [andb].
  by destruct (lookup_description fd s) as [[p d]|].
Qed.

Definition with_mode (md : Z) (d : VNode) : VNode :=
  mkVNode (node_type d) (fs d) (fs_mounted_here d) (fs_data d) (times d) (uid d) (gid d) md (rdev d).
Definition with_owner (owner group : Z) (d : VNode) : VNode :=
  mkVNode (node_type d) (fs d) (fs_mounted_here d) (fs_data d) (times d) (if owner =? no_id then uid d else owner)
    (if group =? no_id then gid d else group) (mode d) (rdev d).

(** The three calls on an open descriptor. *)
Section Open.
Context (fd : Z) (Hfd : fd <> AT_FDCWD) (p : Z) (d : FileDescription).

Lemma fchmod_open md s : lookup_description fd s = Some (p, d) -> is_Some (vnodes s !! vnode d) ->
  syscall_fchmod fuel fd md s = Some (0, upd_vnode (vnode d) (with_mode md) s).
Proof.
  intros Hd [vn Hvn]. unfold syscall_fchmod, fchmodat2_impl. rewrite empty_path, Hd by done. cbn [mbind option_bind]. by rewrite Hvn.
Qed.

Lemma fchown_open owner group s : lookup_description fd s = Some (p, d) -> is_Some (vnodes s !! vnode d) ->
  syscall_fchown fuel fd owner group s = Some (0, upd_vnode (vnode d) (with_owner owner group) s).
Proof.
  intros Hd [vn Hvn]. unfold syscall_fchown, fchownat_impl. rewrite empty_path, Hd by done. cbn [mbind option_bind]. by rewrite Hvn.
Qed.

Lemma fstat_open s vn : lookup_description fd s = Some (p, d) -> vnodes s !! vnode d = Some vn ->
  syscall_fstat fuel pipe_dev_id socket_dev_id fd s =
  (st ← stat_vnode pipe_dev_id socket_dev_id vn s; Some (0, Some st, s)).
Proof.
  intros Hd Hvn. unfold syscall_fstat, fstatat_impl. rewrite empty_path, Hd by done. cbn [mbind option_bind]. by rewrite Hvn.
Qed.
End Open.

Lemma upd_vnode_lookup v f s vn : vnodes s !! v = Some vn -> vnodes (upd_vnode v f s) !! v = Some (f vn).
Proof. intros H. unfold upd_vnode. cbn [vnodes set_vnodes]. by rewrite lookup_alter_eq, H. Qed.

Lemma stat_changed vn vn' s s' st :
  stat_vnode pipe_dev_id socket_dev_id vn s = Some st -> filesystems s' = filesystems s ->
  (node_type vn', fs vn', fs_data vn', times vn', rdev vn') = (node_type vn, fs vn, fs_data vn, times vn, rdev vn) ->
  stat_vnode pipe_dev_id socket_dev_id vn' s' =
    Some (mkStat (st_dev st) (st_ino st) (Z.lor (Z.ldiff (mode vn') MODE_TYPE_MASK) (mode_type (node_type vn))) (st_nlink st)
            (uid vn') (gid vn') (st_rdev st) (st_size st) (st_blksize st) (st_blocks st) (st_times st)) /\
  st_uid st = uid vn /\ st_gid st = gid vn.
Proof.
  intros H Hf E. injection E as E1 E2 E3 E4 E5. unfold stat_vnode in *. rewrite Hf, E1, E2, E3, E4, E5. destruct (fs vn =? 0).
  - injection H as <-. done.
  - destruct (filesystems s !! fs vn) as [f|]; [|done]. cbn [mbind option_bind] in *. destruct (fs_data vn); [|done].
    cbn [mbind option_bind] in *. injection H as <-. done.
Qed.

(** What fchmod and fchown give a file, fstat reports: the permission bits with
    the file's type, and the owner and group unless they are -1. *)
Theorem fchmod_fchown_fstat fd md owner group s p d vn st s0 :
  fd <> AT_FDCWD -> lookup_description fd s = Some (p, d) -> vnodes s !! vnode d = Some vn ->
  syscall_fstat fuel pipe_dev_id socket_dev_id fd s = Some (0, Some st, s0) ->
  exists s1 s2 st', syscall_fchmod fuel fd md s = Some (0, s1) /\ syscall_fchown fuel fd owner group s1 = Some (0, s2) /\
    syscall_fstat fuel pipe_dev_id socket_dev_id fd s2 = Some (0, Some st', s2) /\
    st_mode st' = Z.lor (Z.ldiff md MODE_TYPE_MASK) (mode_type (node_type vn)) /\
    st_uid st' = (if owner =? no_id then st_uid st else owner) /\ st_gid st' = (if group =? no_id then st_gid st else group) /\
    (st_ino st', st_size st', st_dev st', st_rdev st') = (st_ino st, st_size st, st_dev st, st_rdev st).
Proof.
  intros Hfd Hd Hvn Hst. rewrite (fstat_open fd Hfd p d s vn Hd Hvn) in Hst.
  destruct (stat_vnode _ _ vn s) as [st0|] eqn:Est; [|done]. injection Hst as -> <-.
  set (s1 := upd_vnode (vnode d) (with_mode md) s). pose proof (upd_vnode_lookup _ (with_mode md) s vn Hvn) as Hv1. fold s1 in Hv1.
  set (s2 := upd_vnode (vnode d) (with_owner owner group) s1).
  pose proof (upd_vnode_lookup _ (with_owner owner group) s1 _ Hv1) as Hv2. fold s2 in Hv2.
  destruct (stat_changed vn (with_owner owner group (with_mode md vn)) s s2 st Est) as (E & Hu & Hg); [done|done|].
  exists s1, s2, (mkStat (st_dev st) (st_ino st) (Z.lor (Z.ldiff md MODE_TYPE_MASK) (mode_type (node_type vn))) (st_nlink st)
    (if owner =? no_id then uid vn else owner) (if group =? no_id then gid vn else group) (st_rdev st) (st_size st)
    (st_blksize st) (st_blocks st) (st_times st)).
  split; [by apply (fchmod_open fd Hfd p d); [|eexists]|]. split; [by apply (fchown_open fd Hfd p d); [|eexists]|].
  split; [rewrite (fstat_open fd Hfd p d s2 _ Hd Hv2), E; done|]. cbn. by rewrite Hu, Hg.
Qed.
End Theorems.

(** ** A file opened and changed through its descriptor *)
#[local] Existing Instance Tmpfs.realloc_170.

Definition ns_opened : Ns :=
  match syscall_open ns_example_fuel ns_open (str "/home/notes") 66 438 ns_home with Some (_, s) => s | None => ns_home end.

Lemma fchmod_fchown_fstat_witness :
  exists s1 s2 st', syscall_fchmod ns_example_fuel 0 384 ns_opened = Some (0, s1) /\
    syscall_fchown ns_example_fuel 0 7 no_id s1 = Some (0, s2) /\
    syscall_fstat ns_example_fuel 0 0 0 s2 = Some (0, Some st', s2) /\ st_mode st' = 33152 /\ st_uid st' = 7.
Proof.
  destruct (lookup_description 0 ns_opened) as [[p d]|] eqn:Hd; [|vm_compute in Hd; discriminate].
  destruct (vnodes ns_opened !! vnode d) as [vn|] eqn:Hvn;
    [|exfalso; vm_compute in Hd; injection Hd as <- <-; vm_compute in Hvn; discriminate].
  destruct (stat_vnode 0 0 vn ns_opened) as [st|] eqn:Est.
  2:{ exfalso. vm_compute in Hd. injection Hd as <- <-. vm_compute in Hvn. injection Hvn as <-. vm_compute in Est. discriminate. }
  assert (Ht : node_type vn = REGULAR) by (clear Est; vm_compute in Hd; injection Hd as <- <-; vm_compute in Hvn; injection Hvn as <-; reflexivity).
  destruct (fchmod_fchown_fstat ns_example_fuel 0 0 0 384 7 no_id ns_opened p d vn st ns_opened) as (s1 & s2 & st' & H1 & H2 & H3 & H4 & H5 & _).
  - discriminate.
  - exact Hd.
  - exact Hvn.
  - rewrite (fstat_open ns_example_fuel 0 0 0 ltac:(discriminate) p d ns_opened vn Hd Hvn), Est. reflexivity.
  - exists s1, s2, st'. split; [exact H1|]. split; [exact H2|]. split; [exact H3|]. rewrite H4, H5, Ht. split; reflexivity.
Defined.
