(* ===== verification/InfoNode.v ===== *)
(** Files whose contents are printed when they are read from the start
    (procfs::InfoNode, src/kernel/src/fs/procfs.hpp, procfs.cpp): the temporary
    buffer, reading and seeking.  What each file prints is in Procfs.v.

    The contents of a file are kept in the node of Tmpfs.v. *)
From stdpp Require Import strings.
From S2P Require Import Prelude VNode Tmpfs.

(** ** InfoNode: printing into the file *)

(** The temporary buffer holds the characters written to it and not flushed. *)
Record InfoNode : Type := mkInfo {
  node : NodeData;
  temp : list Z;
  total_written : Z;
  has_contents : bool
}.
Definition temp_written (s : InfoNode) : Z := Z.of_nat (length (temp s)).
Definition temp_buffer_size : Z := 1024.

Section Info.
Context `{RA : !Realloc}.

(** The size is set first, then the block grown to hold it. *)
Definition grow_to (length : Z) (n : NodeData) : option NodeData :=
  let n1 := mkNodeData (is_directory n) (inode_num n) (storage n) length in
  if node_capacity n1 <? size n1 then
    cap ← grow_capacity grow_fuel (node_capacity n1) (size n1);
    Some (mkNodeData (is_directory n1) (inode_num n1) (realloc (storage n1) cap) (size n1))
  else Some n1.

Definition write_contents (buf : list Z) (offset : Z) (n : NodeData) : option (Z * NodeData) :=
  let count := Z.of_nat (length buf) in
  if count =? 0 then Some (0, n)
  else
    n1 ← (if size n <? u64 (offset + count) then grow_to (u64 (offset + count)) n else Some n);
    if node_capacity n1 <? offset + count then None
    else Some (count, mkNodeData (is_directory n1) (inode_num n1) (blit offset buf (storage n1)) (size n1)).

Definition flush_temp_buffer (s : InfoNode) : option InfoNode :=
  '(_, n) ← write_contents (temp s) (total_written s) (node s);
  Some (mkInfo n [] (total_written s + temp_written s) (has_contents s)).

Definition print_char (c : Z) (s : InfoNode) : option InfoNode :=
  let s1 := mkInfo (node s) (temp s ++ [c]) (total_written s) (has_contents s) in
  if temp_written s1 =? temp_buffer_size then flush_temp_buffer s1 else Some s1.

Fixpoint print_chars (l : list Z) (s : InfoNode) : option InfoNode :=
  match l with
  | [] => Some s
  | c :: l' => s1 ← print_char c s; print_chars l' s1
  end.

(** The command line and the environment write the node themselves: the block
    is made as large as the [count] bytes of memory asked for, filled with the
    bytes that were read, and the size set to the result of that. *)
Definition read_memory (count : Z) (r : Z * list Z) (n : NodeData) : option NodeData :=
  n1 ← grow_to count n;
  let '(ret, bytes) := r in
  if node_capacity n1 <? Z.of_nat (length bytes) then None
  else Some (mkNodeData (is_directory n1) (inode_num n1) (blit 0 bytes (storage n1)) (if ret <? 0 then 0 else ret)).

Definition generate_contents (print_contents : InfoNode -> option InfoNode) (s : InfoNode) : option (Z * InfoNode) :=
  s1 ← print_contents (mkInfo (node s) [] 0 (has_contents s));
  s2 ← flush_temp_buffer s1;
  Some (total_written s2, s2).

(** A copy past the block is [None]. *)
Definition InfoNode_read (print_contents : InfoNode -> option InfoNode) (count offset : Z) (s : InfoNode)
    : option (Z * list Z * InfoNode) :=
  s1 ← (if negb (has_contents s) || (offset =? 0) then
          ('(_, s1) ← generate_contents print_contents s; Some (mkInfo (node s1) (temp s1) (total_written s1) true))
        else Some s);
  let n := node s1 in
  if size n <=? offset then Some (0, [], s1)
  else
    let actual_count := if size n <? u64 (offset + count) then size n - offset else count in
    if node_capacity n <? offset + actual_count then None
    else Some (actual_count, sub (storage n) offset actual_count, s1).

Definition InfoNode_seek (position offset whence : Z) (s : InfoNode) : Z :=
  let size := size (node s) in
  if whence =? SEEK_SET then offset
  else if whence =? SEEK_CUR then i64 (position + offset)
  else if whence =? SEEK_END then i64 (size + offset)
  else if whence =? SEEK_DATA then if size <=? u64 offset then - ENXIO else offset
  else if whence =? SEEK_HOLE then if size <=? u64 offset then - ENXIO else i64 size
  else - EINVAL.

(** *** Printing is writing *)

Lemma grow_to_tmpfs len n : grow_to len n = Tmpfs.grow_to len n.
Proof.
  unfold grow_to, Tmpfs.grow_to, node_capacity. cbn [storage size is_directory inode_num].
  destruct (_ <? len); [|done]. by destruct (grow_capacity _ _ _).
Qed.

Lemma write_contents_is_write buf off n : is_directory n = false ->
  write_contents buf off n = match Node_write 0 buf off n with Return r n' => Some (r, n') | _ => None end.
Proof.
  intros Hd. unfold write_contents, Node_write. rewrite Hd. destruct (_ =? 0); [done|].
  destruct (size n <? u64 _); rewrite ?grow_to_tmpfs; [destruct (Tmpfs.grow_to _ n) as [n1|]; [|done]|];
    cbn [mbind option_bind]; by destruct (_ <? _).
Qed.

(** The contents after printing [p] over [c]: [p], then what is left of [c]. *)
Definition over (p c : list Z) : list Z := p ++ drop (length p) c.

Definition limit : Z := 4611686018427387904.

Lemma over_write p buf c n n' :
  file_content n = over p c -> node_wf n -> write_result buf (Z.of_nat (length p)) n n' -> buf <> [] ->
  file_content n' = over (p ++ buf) c.
Proof.
  intros Hc Hwf (Hwf' & Hsz & _ & _ & Hbefore & Hin & Hafter) Hb.
  pose proof (file_content_length n Hwf) as Hl. rewrite Hc in Hl. unfold over in *. rewrite length_app, length_drop in Hl.
  apply list_eq. intros i. rewrite <- app_assoc.
  destruct (decide (i < length p)%nat) as [H1|H1].
  - rewrite Hbefore by lia. rewrite Hc, !lookup_app_l by lia. done.
  - rewrite (lookup_app_r p) by lia. destruct (decide (i < length p + length buf)%nat) as [H2|H2].
    + rewrite Hin, lookup_app_l by lia. f_equal. lia.
    + rewrite Hafter by lia. rewrite Hc, lookup_app_r, !lookup_drop by lia. rewrite lookup_app_r, lookup_drop by lia.
      f_equal. rewrite length_app. lia.
Qed.

(** What holds while [p] has been printed into a file that held [c]. *)
Record printing (p c : list Z) (s : InfoNode) : Prop := {
  pr_wf : node_wf (node s);
  pr_file : is_directory (node s) = false;
  pr_split : exists q, p = q ++ temp s /\ total_written s = Z.of_nat (length q) /\ file_content (node s) = over q c;
  pr_room : temp_written s < temp_buffer_size
}.

Lemma flush_spec p c s :
  node_wf (node s) -> is_directory (node s) = false ->
  (exists q, p = q ++ temp s /\ total_written s = Z.of_nat (length q) /\ file_content (node s) = over q c) ->
  Z.of_nat (length p) <= limit ->
  exists s', flush_temp_buffer s = Some s' /\ printing p c s' /\ temp s' = [] /\ total_written s' = Z.of_nat (length p) /\
    inode_num (node s') = inode_num (node s).
Proof.
  intros Hwf Hd (q & -> & Ht & Hc) Hl. unfold flush_temp_buffer, limit in *. rewrite length_app in Hl.
  rewrite write_contents_is_write, Ht by done. destruct (decide (temp s = [])) as [E|E].
  - unfold Node_write. rewrite Hd, E. cbn [length Z.of_nat Z.eqb mbind option_bind]. eexists. split; [reflexivity|].
    unfold temp_written. rewrite E. cbn [length Z.of_nat node temp total_written]. rewrite app_nil_r.
    split; [constructor; cbn [node temp total_written]; [done|done| |done]|by rewrite Z.add_0_r].
    exists q. rewrite app_nil_r, Z.add_0_r. done.
  - destruct (Node_write_returns 0 (temp s) (Z.of_nat (length q)) (node s) Hwf Hd E) as (n' & -> & Hr); [lia|lia|].
    cbn [mbind option_bind]. eexists. split; [reflexivity|]. pose proof Hr as (Hwf' & _ & Hd' & Hi & _).
    pose proof (over_write q (temp s) c (node s) n' Hc Hwf Hr E) as Hc'.
    unfold temp_written. cbn [node temp total_written]. split; [|rewrite length_app; split; [done|]; split; [lia|done]].
    constructor; cbn [node temp total_written]; [done|congruence| |done].
    exists (q ++ temp s). rewrite app_nil_r, length_app. split; [done|]. split; [lia|done].
Qed.

Lemma print_chars_spec l : forall p c s,
  printing p c s -> Z.of_nat (length (p ++ l)) <= limit ->
  exists s', print_chars l s = Some s' /\ printing (p ++ l) c s' /\ inode_num (node s') = inode_num (node s).
Proof.
  induction l as [|x l IH]; intros p c s Hp Hl.
  - exists s. rewrite app_nil_r. done.
  - cbn [print_chars]. assert (Hstep : exists s1, print_char x s = Some s1 /\ printing (p ++ [x]) c s1 /\
                          inode_num (node s1) = inode_num (node s)).
    { pose proof Hp as [Hwf Hd (q & E & Ht & Hc) Hroom]. unfold print_char. set (s1 := mkInfo _ _ _ _).
      assert (Hq : exists q, p ++ [x] = q ++ temp s1 /\ total_written s1 = Z.of_nat (length q) /\ file_content (node s1) = over q c).
      { exists q. cbn [temp total_written node s1]. rewrite E, <- app_assoc. done. }
      destruct (Z.eqb_spec (temp_written s1) temp_buffer_size) as [Hf|Hf].
      - destruct (flush_spec (p ++ [x]) c s1 Hwf Hd Hq) as (s' & E' & Hp' & _ & _ & Hi).
        + rewrite !length_app in *. cbn [length] in *. lia.
        + exists s'. done.
      - exists s1. split; [done|]. split; [|done]. constructor; [done|done|done|].
        unfold temp_written in *. cbn [temp s1] in *. rewrite length_app in *. cbn [length] in *. lia. }
    destruct Hstep as (s1 & -> & Hp1 & Hi1). cbn [mbind option_bind].
    destruct (IH (p ++ [x]) c s1 Hp1) as (s' & E & Hp' & Hi'); [by rewrite <- app_assoc|].
    exists s'. rewrite <- app_assoc in Hp'. split; [done|]. split; [done|congruence].
Qed.

Definition info_wf (s : InfoNode) : Prop := node_wf (node s) /\ is_directory (node s) = false.

(** Printing goes through a buffer of 1024 characters; what is in the file
    afterwards is what was printed, however long, over the old contents. *)
Lemma generate_chars l s : info_wf s -> Z.of_nat (length l) <= limit ->
  exists s', generate_contents (print_chars l) s = Some (Z.of_nat (length l), s') /\ info_wf s' /\
    file_content (node s') = over l (file_content (node s)) /\ inode_num (node s') = inode_num (node s).
Proof.
  intros [Hwf Hd] Hl. unfold generate_contents.
  destruct (print_chars_spec l [] (file_content (node s)) (mkInfo (node s) [] 0 (has_contents s))) as (s1 & -> & Hp & Hi).
  - constructor; [done|done| |done]. exists []. done.
  - done.
  - cbn [mbind option_bind app]. destruct Hp as [Hwf1 Hd1 Hq _].
    destruct (flush_spec l _ s1 Hwf1 Hd1 Hq Hl) as (s2 & -> & [Hwf2 Hd2 (q & E & _ & Hc) _] & Ht & Htot & Hi2).
    cbn [mbind option_bind]. rewrite Htot. exists s2. split; [done|]. split; [done|].
    rewrite Ht, app_nil_r in E. subst q. split; [done|]. rewrite Hi2, Hi. done.
Qed.

(** A read that does not generate takes its bytes from the contents. *)
Lemma read_contents print_contents count offset s :
  info_wf s -> has_contents s = true -> 0 < offset -> 0 <= count -> offset + count < 18446744073709551616 ->
  InfoNode_read print_contents count offset s =
    Some (Z.of_nat (length (sub (file_content (node s)) offset count)), sub (file_content (node s)) offset count, s).
Proof.
  intros [Hwf Hd] Hh Ho Hc Hs. pose proof (Node_read_spec 0 count offset (node s) Hwf Hd Hc ltac:(lia) Hs) as H.
  unfold InfoNode_read. rewrite Hh, (proj2 (Z.eqb_neq offset 0)) by lia. cbn [negb orb mbind option_bind].
  unfold Node_read in H. rewrite Hd in H. cbv zeta. destruct (size (node s) <=? offset); [by injection H as <- <-|].
  destruct (node_capacity (node s) <? _); [done|]. injection H as H1 H2. by rewrite H2, H1.
Qed.

(** A read from the start prints first. *)
Lemma read_start l count s :
  info_wf s -> Z.of_nat (length l) <= limit -> 0 <= count < 18446744073709551616 ->
  exists s', InfoNode_read (print_chars l) count 0 s =
      Some (Z.of_nat (length (sub (file_content (node s')) 0 count)), sub (file_content (node s')) 0 count, s') /\
    info_wf s' /\ has_contents s' = true /\ file_content (node s') = over l (file_content (node s)).
Proof.
  intros Hs Hl Hc. destruct (generate_chars l s Hs Hl) as (s1 & E & [Hwf Hd] & Hcon & _).
  set (s' := mkInfo (node s1) (temp s1) (total_written s1) true). exists s'.
  pose proof (Node_read_spec 0 count 0 (node s1) Hwf Hd ltac:(lia) ltac:(lia) ltac:(lia)) as H.
  split; [|split; [split; done|]; split; [done|exact Hcon]].
  unfold InfoNode_read. rewrite orb_true_r, E. cbn [mbind option_bind]. fold s'. cbn [node s'].
  unfold Node_read in H. rewrite Hd in H. cbv zeta. destruct (size (node s1) <=? 0); [by injection H as <- <-|].
  destruct (node_capacity (node s1) <? _); [done|]. injection H as H1 H2. by rewrite H2, H1.
Qed.

(** A program that reads a file from its start in turns until a read returns
    nothing; [prints] is what the kernel would print at each turn. *)
Fixpoint read_through (prints : list (list Z)) (count offset : Z) (s : InfoNode) : option (list Z * InfoNode) :=
  match prints with
  | [] => Some ([], s)
  | l :: prints' =>
      '(r, bytes, s1) ← InfoNode_read (print_chars l) count offset s;
      if r =? 0 then Some ([], s1)
      else ('(rest, s2) ← read_through prints' count (offset + r) s1; Some (bytes ++ rest, s2))
  end.

Lemma read_rest count prints : forall offset s,
  info_wf s -> has_contents s = true -> 0 < offset -> 0 < count < limit ->
  Z.of_nat (length (file_content (node s))) - offset <= count * Z.of_nat (length prints) ->
  read_through prints count offset s = Some (drop (Z.to_nat offset) (file_content (node s)), s).
Proof.
  induction prints as [|l prints IH]; intros offset s Hs Hh Ho Hc Hl.
  - cbn [read_through]. rewrite drop_ge; [done|]. cbn [length] in Hl. lia.
  - cbn [read_through]. destruct (Z_lt_le_dec offset (Z.of_nat (length (file_content (node s))))) as [Hlt|Hge].
    + pose proof (file_content_length (node s) (proj1 Hs)) as Hlen. pose proof (proj1 Hs) as [Hsz Hcap]. apply cap_ok_le in Hcap.
      unfold limit in *. rewrite read_contents by (done || lia). cbn [mbind option_bind].
      set (b := sub (file_content (node s)) offset count).
      assert (Hb : Z.of_nat (length b) = Z.min count (Z.of_nat (length (file_content (node s))) - offset)).
      { unfold b, sub. rewrite length_take, length_drop. lia. }
      destruct (Z.eqb_spec (Z.of_nat (length b)) 0); [lia|]. cbn [length] in Hl.
      rewrite IH by (done || lia). cbn [mbind option_bind]. rewrite Hb. do 2 f_equal. unfold b, sub.
      rewrite <- (take_drop (Z.to_nat count) (drop (Z.to_nat offset) (file_content (node s)))) at 2. f_equal. rewrite drop_drop.
      destruct (Z_lt_le_dec (Z.of_nat (length (file_content (node s))) - offset) count).
      * rewrite !drop_ge by lia. done.
      * f_equal. lia.
    + destruct (Z_lt_le_dec (offset + count) 18446744073709551616) as [Hov|Hov].
      * rewrite read_contents by (done || lia). cbn [mbind option_bind]. unfold sub. rewrite drop_ge by lia. rewrite take_nil. done.
      * unfold InfoNode_read. rewrite Hh, (proj2 (Z.eqb_neq offset 0)) by lia. cbn [negb orb mbind option_bind].
        pose proof (file_content_length (node s) (proj1 Hs)) as Hlen. rewrite (proj2 (Z.leb_le (size (node s)) offset)) by lia. cbn [mbind option_bind Z.eqb].
        by rewrite drop_ge by lia.
Qed.

(** However small the reads, a program that reads a new file from its start
    gets what was printed at the first read, and not a mixture of that and
    what later reads would print. *)
Theorem read_is_snapshot l later count s :
  info_wf s -> file_content (node s) = [] -> 0 < count < limit -> Z.of_nat (length l) <= count * Z.of_nat (S (length later)) ->
  Z.of_nat (length l) <= limit ->
  exists s', read_through (l :: later) count 0 s = Some (l, s') /\ info_wf s'.
Proof.
  intros Hs Hnew Hc Hl Hlim. cbn [read_through].
  destruct (read_start l count s Hs Hlim) as (s1 & -> & Hs1 & Hh & Hcon); [unfold limit in *; lia|].
  rewrite Hnew in Hcon. unfold over in Hcon. rewrite drop_nil, app_nil_r in Hcon. cbn [mbind option_bind]. rewrite Hcon.
  assert (Hb : Z.of_nat (length (sub l 0 count)) = Z.min count (Z.of_nat (length l))).
  { unfold sub. cbn [Z.to_nat]. rewrite drop_0, length_take. lia. }
  destruct (Z.eqb_spec (Z.of_nat (length (sub l 0 count))) 0) as [E|E].
  - exists s1. split; [|done]. do 2 f_equal. destruct l; [done|cbn [length] in *; lia].
  - rewrite read_rest; [|done|done|lia|done|rewrite Hcon; lia]. cbn [mbind option_bind]. exists s1. split; [|done].
    rewrite Hcon, Hb. do 2 f_equal. unfold sub. cbn [Z.to_nat]. rewrite drop_0.
    transitivity (take (Z.to_nat count) l ++ drop (Z.to_nat count) l); [f_equal|apply take_drop].
    destruct (Z_lt_le_dec (Z.of_nat (length l)) count); [rewrite !drop_ge by lia; done|f_equal; lia].
Qed.

(** The size never goes down: when a file is printed again and is shorter, the
    end of the older text follows it. *)
Theorem stale_tail_is_read l count s :
  info_wf s -> (length l < length (file_content (node s)))%nat ->
  Z.of_nat (length (file_content (node s))) <= count < 18446744073709551616 ->
  exists s', InfoNode_read (print_chars l) count 0 s =
    Some (Z.of_nat (length (file_content (node s))), l ++ drop (length l) (file_content (node s)), s').
Proof.
  intros Hs Hl Hc. pose proof (file_content_length (node s) (proj1 Hs)) as Hlen. pose proof (proj1 Hs) as [Hsz Hcap].
  apply cap_ok_le in Hcap. destruct (read_start l count s Hs) as (s1 & E & _ & _ & Hcon); [unfold limit; lia|lia|].
  exists s1. rewrite E, Hcon. unfold over. rewrite sub_full by (rewrite length_app, length_drop; lia).
  do 3 f_equal. rewrite length_app, length_drop. lia.
Qed.
End Info.

(** ** A text read in small pieces, and a file that shrinks *)
#[local] Existing Instance realloc_170.
Definition empty_info : InfoNode := mkInfo (mkNodeData false 9 [] 0) [] 0 false.

Lemma empty_info_wf : info_wf empty_info.
Proof. split; [|done]. split; [vm_compute; split; discriminate|by left]. Qed.

Lemma read_is_snapshot_witness :
  exists s', read_through [[1; 2; 3; 4; 5]; [6; 7]; [8]; []] 2 0 empty_info = Some ([1; 2; 3; 4; 5], s').
Proof.
  destruct (read_is_snapshot [1; 2; 3; 4; 5] [[6; 7]; [8]; []] 2 empty_info) as (s' & H & _).
  - apply empty_info_wf.
  - reflexivity.
  - unfold limit. lia.
  - simpl. lia.
  - unfold limit. simpl. lia.
  - exists s'. exact H.
Defined.

Example printed_again_shorter :
  ('(_, _, s1) ← InfoNode_read (print_chars [1; 2; 3; 4; 5]) 100 0 empty_info;
   '(r, bytes, _) ← InfoNode_read (print_chars [9; 9]) 100 0 s1; Some (r, bytes)) = Some (5, [9; 9; 3; 4; 5]).
Proof. by vm_compute. Qed.
