(* ===== verification/Procfs.v ===== *)
(** The process file system (src/kernel/src/fs/procfs.hpp, procfs.cpp): what its
    files print, by the printf of Format.v from the state of the other
    components, and the directories of processes and threads over the entries
    of NameSpace.v.  The files themselves are in InfoNode.v. *)
From stdpp Require Import strings.
From S2P Require Import Prelude Format Tmpfs InfoNode Pmm PageTable AddressSpace MemSyscalls Fork Clone.
From S2P Require FdTable NameSpace Cred Sched Jobs Time.
Import NameSpace (str).

(** ** What the files print *)


(** The state the files show: the processes and their jobs, the parts of
    threads and processes of Clone.v, memory, names, clocks, and the mounts
    with their source, target and driver's name.  [capacity] is the capacity
    of the vector of a process's descriptors. *)
Record System : Type := mkSystem {
  jobs : Jobs.Jobs;
  contexts : gmap Z Context;
  spaces : gmap Z Space;
  capacity : Z -> Z;
  stats : Pmm;
  names : NameSpace.Ns;
  clocks : Time.Clock;
  since_tick : Z;
  mount_list : list (list Z * list Z * list Z);
  kernel_cmdline : list Z
}.
Definition threads (y : System) : gmap Z Sched.SThread := Sched.threads (Jobs.sched (jobs y)).
Definition processes (y : System) : gmap Z Sched.SProcess := Sched.processes (Jobs.sched (jobs y)).

(** The texts are shorter than the fuel. *)
Definition print_fuel : nat := 200.
Definition info_node_printf (format : list Z) (args : list Arg) : option (list Z) :=
  fst <$> vprintf print_fuel (format ++ [0]) args.
Definition nl : list Z := [10].
Definition tab : list Z := [9].

(** The texts of several calls, one after the other. *)
Fixpoint lines (l : list (option (list Z))) : option (list Z) :=
  match l with
  | [] => Some []
  | x :: l' => t ← x; r ← lines l'; Some (t ++ r)
  end.

Definition current_process (y : System) : option Z :=
  Sched.process <$> threads y !! Sched.running_thread (Jobs.sched (jobs y)).

Definition print_self (y : System) : option (list Z) :=
  pid ← current_process y; info_node_printf (str "%d") [AInt pid].
Definition print_thread_self (y : System) : option (list Z) :=
  pid ← current_process y;
  info_node_printf (str "%d/task/%d") [AInt pid; AInt (Sched.running_thread (Jobs.sched (jobs y)))].
Definition print_cmdline (y : System) : option (list Z) := info_node_printf (str "%s" ++ nl) [AStr (kernel_cmdline y)].

Definition clock_now (id : Z) (y : System) : Time.TimeSpec := Time.get_clock id (since_tick y) false (clocks y).
Definition print_uptime (y : System) : option (list Z) :=
  let time := clock_now Time.CLOCK_BOOTTIME y in
  info_node_printf (str "%lu.%lu 0.00" ++ nl) [AInt (Time.seconds time); AInt (Z.quot (Time.nanoseconds time) 10000000)].

Definition print_value (name : string) (value : Z) : option (list Z) :=
  info_node_printf (str "%s%8lu kB" ++ nl) [AStr (str name ++ [0]); AInt (value / 1024)].
Definition print_meminfo (y : System) : option (list Z) :=
  lines [print_value "MemTotal:       " (u64 (total_pages_usable (stats y) * PAGE_SIZE));
         print_value "MemFree:        " (u64 (total_free_pages (stats y) * PAGE_SIZE));
         print_value "MemAvailable:   " (u64 (total_free_pages (stats y) * PAGE_SIZE));
         print_value "Buffers:        " 0; print_value "Cached:         " 0; print_value "SwapCached:     " 0;
         print_value "Slab:           " 0].

Definition print_stat (y : System) : option (list Z) :=
  let boottime := clock_now Time.CLOCK_BOOTTIME y in
  let realtime := clock_now Time.CLOCK_REALTIME y in
  lines [info_node_printf (str "cpu  0 0 0 0 0 0 0 0 0 0" ++ nl) []; info_node_printf (str "cpu0 0 0 0 0 0 0 0 0 0 0" ++ nl) [];
         info_node_printf (str "intr 0 0 0 0 0 0 0 0 0 0" ++ nl) []; info_node_printf (str "ctxt 30000" ++ nl) [];
         info_node_printf (str "btime %lu" ++ nl) [AInt (Time.seconds realtime - Time.seconds boottime)];
         info_node_printf (str "processes 100" ++ nl) []; info_node_printf (str "procs_running 5" ++ nl) [];
         info_node_printf (str "procs_blocked 0" ++ nl) []; info_node_printf (str "softirq 0 0 0 0 0 0 0 0 0 0 0" ++ nl) []].

(** *** Threads *)
Definition state_letter (st : Sched.State) : Z :=
  match st with Sched.READY | Sched.RUNNING => 82 | Sched.BLOCKED => 83 | Sched.STOPPED => 84 | Sched.ZOMBIE => 90 end.
Definition state_name (st : Sched.State) : list Z :=
  match st with
  | Sched.READY | Sched.RUNNING => str "R (running)" | Sched.BLOCKED => str "S (sleeping)"
  | Sched.STOPPED => str "T (stopped)" | Sched.ZOMBIE => str "Z (zombie)"
  end.

Definition print_thread_stat (tid : Z) (y : System) : option (list Z) :=
  thread ← threads y !! tid; ctx ← contexts y !! tid;
  let pid := Sched.process thread in
  process ← processes y !! pid;
  g ← Jobs.group_leader pid (jobs y); l ← Jobs.session_leader pid (jobs y);
  lines [info_node_printf (str "%d (%s) %c %d %d %d")
           [AInt pid; AStr (name ctx); AInt (state_letter (Sched.state thread)); AInt (Sched.parent process); AInt g; AInt l];
         Some (concat (replicate (52 - 6) [32; 48])); Some nl].

Definition print_ids (label : string) (ids : Cred.IdSet) : option (list Z) :=
  info_node_printf (str label ++ tab ++ str "%d" ++ tab ++ str "%d" ++ tab ++ str "%d" ++ tab ++ str "%d" ++ nl)
    [AInt (Cred.rid ids); AInt (Cred.eid ids); AInt (Cred.sid ids); AInt (Cred.fsid ids)].
Definition print_field (label conversion : string) (a : Arg) : option (list Z) :=
  info_node_printf (str label ++ tab ++ str conversion ++ nl) [a].
Definition print_status (tid : Z) (y : System) : option (list Z) :=
  thread ← threads y !! tid; ctx ← contexts y !! tid;
  let pid := Sched.process thread in
  process ← processes y !! pid;
  lines [print_field "Name:" "%s" (AStr (name ctx)); print_field "Umask:" "%#03o" (AInt (Sched.umask process));
         print_field "State:" "%s" (AStr (state_name (Sched.state thread) ++ [0])); print_field "Tgid:" "%d" (AInt pid);
         print_field "Ngid:" "%d" (AInt 0); print_field "Pid:" "%d" (AInt tid);
         print_field "PPid:" "%d" (AInt (Sched.parent process)); print_field "TracerPid:" "%d" (AInt 0);
         print_ids "Uid:" (Cred.uids (cred ctx)); print_ids "Gid:" (Cred.gids (cred ctx));
         print_field "FDSize:" "%d" (AInt (capacity y pid)); info_node_printf (str "Groups:" ++ tab) [];
         lines (map (fun g => info_node_printf (str "%d ") [AInt g]) (Cred.groups (cred ctx))); Some nl].

(** *** Processes *)
Definition letter (b : bool) (yes : Z) : Z := if b then yes else 45.

(** [MappedRange::print]: the columns, spaces up to the 72nd character, and
    where the range comes from. *)
Definition path_fuel : nat := 64.
Definition print_range (y : System) (r : MappedRange) : option (list Z) :=
  '(columns, written) ← vprintf print_fuel (str "%08lx-%08lx r%c%cp %08lx %02x:%02x %u" ++ [0])
      [AInt (base r); AInt (range_end r); AInt (letter (has (page_flags r) PAGE_WRITABLE) 119);
       AInt (letter (negb (has (page_flags r) PAGE_NO_EXECUTE)) 120); AInt (file_offset r); AInt 0; AInt 0; AInt 0];
  origin ← (match range_type r with
            | DIRECT => info_node_printf (str "direct to %#lX") [AInt (phy_base r)]
            | FILE => let e := default 0 (NameSpace.desc_entry (names y) !! file r) in
                      if e =? 0 then Some [] else NameSpace.print_path path_fuel e (names y)
            | _ => Some []
            end);
  Some (columns ++ replicate (Z.to_nat (72 - written)) 32 ++ origin ++ nl).
Definition print_maps (pid : Z) (y : System) : option (list Z) :=
  match spaces y !! pid with
  | Some sp => lines (map (print_range y) (range_list (pagemap sp)))
  | None => Some []
  end.

Definition print_entry_path (e : Z) (y : System) : option (list Z) := NameSpace.print_path path_fuel e (names y).

Definition print_mounts (y : System) : option (list Z) :=
  lines (map (fun m => let '(source, target, driver) := m in
                info_node_printf (str "%s %s %s rw 0 0" ++ nl) [AStr (source ++ [0]); AStr (target ++ [0]); AStr (driver ++ [0])])
           (mount_list y)).
Definition print_statm : option (list Z) :=
  info_node_printf (str "%d %d %d %d %d %d %d") [AInt 2000; AInt 1000; AInt 1000; AInt 10; AInt 0; AInt 20; AInt 0].

(** *** Memory *)
Definition ARG_MAX : Z := 131072.

Section Read.
Context `{RA : !Realloc}.
(** A page of a mapped file. *)
Context (file_page : Z -> Z -> list Z).

Definition fill_frames (fills : list (Z * Fill)) (ram : Ram) : Ram :=
  fold_left (fun r f => <[fst f / PAGE_SIZE := match snd f with
                                              | Zeroed => replicate (Z.to_nat PAGE_SIZE) 0
                                              | FilePage fl off => file_page fl off
                                              end]> r) fills ram.
Definition phys_byte (ram : Ram) (a : Z) : list Z :=
  match ram !! (a / PAGE_SIZE) with Some bs => sub bs (a mod PAGE_SIZE) 1 | None => [] end.

(** The bytes [access_memory] stores, and its result.  Page faults on the way
    change the process whose memory it is, which is left out here. *)
Definition read_process_memory (start count : Z) (ram : Ram) (p : MemSyscalls.Process) : option (Z * list Z) :=
  '(ret, pieces, fills, _) ← access_memory (Z.to_nat (count / PAGE_SIZE) + 3) 2 start count p;
  Some (ret, flat_map (phys_byte (fill_frames fills ram)) (addresses pieces)).

(** The [print_contents] of the command line and of the environment. *)
Definition print_memory (start end_ : Z) (ram : Ram) (p : MemSyscalls.Process) (s : InfoNode) : option InfoNode :=
  if end_ <=? start then Some s
  else
    let count := end_ - start in
    if ARG_MAX <? count then Some s
    else
      r ← read_process_memory start count ram p;
      n ← read_memory count r (node s);
      Some (mkInfo n (temp s) (total_written s) (has_contents s)).

(** ** Files and directories *)

(** What a file prints, by the file. *)
Inductive Source : Type :=
| SelfLink | ThreadSelfLink | MountsLink | KernelCmdline | Uptime | Meminfo | KernelStat
| ThreadStat (tid : Z) | ThreadStatus (tid : Z)
| Maps (pid : Z) | Cmdline (pid : Z) | Environ (pid : Z) | CwdLink (pid : Z) | ExeLink (pid : Z) | RootLink | Mounts | Statm.

(** A process's memory as [access_memory] sees it. *)
Context (memory : Z -> option MemSyscalls.Process) (ram : Ram).

Definition print_text (src : Source) (y : System) : option (list Z) :=
  match src with
  | SelfLink => print_self y
  | ThreadSelfLink => print_thread_self y
  | MountsLink => info_node_printf (str "self/mounts") []
  | KernelCmdline => print_cmdline y
  | Uptime => print_uptime y
  | Meminfo => print_meminfo y
  | KernelStat => print_stat y
  | ThreadStat tid => print_thread_stat tid y
  | ThreadStatus tid => print_status tid y
  | Maps pid => print_maps pid y
  | CwdLink pid => sp ← spaces y !! pid; print_entry_path (cwd sp) y
  | ExeLink pid => sp ← spaces y !! pid; print_entry_path (exe sp) y
  | RootLink => Some (str "/")
  | Mounts => print_mounts y
  | Statm => print_statm
  | Cmdline _ | Environ _ => Some []
  end.

Definition print_contents (src : Source) (y : System) (s : InfoNode) : option InfoNode :=
  match src with
  | Cmdline pid =>
      match memory pid with
      | None => Some s
      | Some p => sp ← spaces y !! pid; print_memory (arg_start sp) (arg_end sp) ram p s
      end
  | Environ pid =>
      match memory pid with
      | None => Some s
      | Some p => sp ← spaces y !! pid; print_memory (env_start sp) (env_end sp) ram p s
      end
  | _ => t ← print_text src y; print_chars t s
  end.
End Read.

(** The entries with what the vnodes of the files print. *)
Record Tree : Type := mkTree {
  ns : NameSpace.Ns;
  sources : gmap Z Source
}.

(** procfs makes vnodes and their inode numbers as tmpfs does, for an entry
    that has none a plain [Node]. *)
Definition Filesystem_create (f e : Z) (t : NameSpace.NodeType) (s : NameSpace.Ns) : option NameSpace.Ns :=
  NameSpace.fs_create f e t s.

(** [Filesystem::stat]: inode number, size, block size, blocks and links. *)
Definition Filesystem_stat (t : NameSpace.NodeType) (data : NodeData) : Z * Z * Z * Z * Z :=
  let st_size := match t with NameSpace.DIRECTORY => NameSpace.sizeof_Entry | _ => size data end in
  (inode_num data, st_size, PAGE_SIZE, Z.quot (st_size + PAGE_SIZE - 1) PAGE_SIZE, 1).

(** [Filesystem::statfs]: the type, the identifier, the longest name, the block
    sizes and the flags. *)
Definition Filesystem_statfs : Z * Z * Z * Z * Z * Z := (40864, 98784247808, 255, PAGE_SIZE, PAGE_SIZE, 2 + 4 + 8 + 4096).

(** [Filesystem::readdir] lists the children as tmpfs does. *)
Definition Filesystem_readdir (e max_size cursor : Z) (s : NameSpace.Ns) : option (list NameSpace.Dirent * Z * Z) :=
  dir ← NameSpace.entries s !! e; NameSpace.readdir_loop (NameSpace.children dir) 0 0 cursor max_size s.

(** [vfs::create_entry] with [new InfoNode] of a type. *)
Definition new_info_node (t : NameSpace.NodeType) : NameSpace.VNode :=
  NameSpace.mkVNode t 0 0 None 0 NameSpace.no_id NameSpace.no_id 0 0.
Definition create_entry (par : Z) (filename : list Z) (src : Source) (t : NameSpace.NodeType) (u g m : Z) (y : Tree) : option Tree :=
  let s := ns y in
  let v := NameSpace.next_addr s in
  let s0 := NameSpace.set_next (v + 16) (NameSpace.set_vnodes (<[v := new_info_node t]> (NameSpace.vnodes s)) s) in
  '(e, s1) ← NameSpace.lookup_child par filename s0;
  v0 ← NameSpace.vnode_of e s1;
  if negb (v0 =? 0) then None
  else
    s2 ← NameSpace.Entry_create e t u g m (NameSpace.upd_entry e (NameSpace.with_vnode v) s1);
    Some (mkTree s2 (<[v := src]> (sources y))).

Fixpoint create_entries (par : Z) (l : list (string * Source * NameSpace.NodeType * Z)) (u g : Z) (y : Tree) : option Tree :=
  match l with
  | [] => Some y
  | (nm, src, t, m) :: l' => y1 ← create_entry par (str nm) src t u g m y; create_entries par l' u g y1
  end.

(** [Filesystem::Filesystem]: the file system and its root. *)
Definition root_files : list (string * Source * NameSpace.NodeType * Z) :=
  [("self", SelfLink, NameSpace.SYMLINK, 511); ("thread-self", ThreadSelfLink, NameSpace.SYMLINK, 511);
   ("mounts", MountsLink, NameSpace.SYMLINK, 511); ("cmdline", KernelCmdline, NameSpace.REGULAR, 292);
   ("uptime", Uptime, NameSpace.REGULAR, 292); ("meminfo", Meminfo, NameSpace.REGULAR, 292);
   ("stat", KernelStat, NameSpace.REGULAR, 292)]%string.
Definition Filesystem_new (s : NameSpace.Ns) : option (Z * Z * Tree) :=
  let f := NameSpace.next_addr s in
  let root := f + 16 in
  let s1 := NameSpace.mkNs (NameSpace.entries s) (NameSpace.vnodes s)
              (<[f := NameSpace.mkFilesystem 2 (NameSpace.non_device_dev_id s) root]> (NameSpace.filesystems s))
              (f + 16) (NameSpace.non_device_dev_id s + 1) (NameSpace.ns_fds s) (NameSpace.desc_entry s) (NameSpace.cwd s)
              (NameSpace.umask s) (NameSpace.euid s) (NameSpace.egid s) (NameSpace.realtime s) in
  let '(root, s2) := NameSpace.Entry_construct 0 0 [] 0 s1 in
  s3 ← Filesystem_create f root NameSpace.DIRECTORY s2;
  v ← NameSpace.vnode_of root s3;
  let s4 := NameSpace.upd_vnode v
              (fun d => NameSpace.mkVNode (NameSpace.node_type d) (NameSpace.fs d) 0 (NameSpace.fs_data d) (NameSpace.times d)
                          0 0 365 (NameSpace.rdev d)) s3 in
  y ← create_entries root root_files 0 0 (mkTree s4 ∅);
  Some (f, root, y).

(** [Driver::mount]: the mount point leads to the root. *)
Definition mount (mount_entry root : Z) (s : NameSpace.Ns) : NameSpace.Ns :=
  NameSpace.upd_entry mount_entry
    (fun e => NameSpace.mkEntry (NameSpace.e_vnode e) (NameSpace.parent e) root (NameSpace.children e) (NameSpace.linked e)
                (NameSpace.name_hash e) (NameSpace.name e)) s.

Definition create_thread_process_common (tid dir u g : Z) (y : Tree) : option Tree :=
  create_entries dir [("stat", ThreadStat tid, NameSpace.REGULAR, 292); ("status", ThreadStatus tid, NameSpace.REGULAR, 292)]%string u g y.

(** The directory of a number, which must not be there. *)
Definition create_dir (par : Z) (nm : list Z) (u g : Z) (y : Tree) : option (Z * Tree) :=
  '(dir, s1) ← NameSpace.lookup_child par nm (ns y);
  v ← NameSpace.vnode_of dir s1;
  if negb (v =? 0) then None
  else (s2 ← NameSpace.Entry_create dir NameSpace.DIRECTORY u g 365 s1; Some (dir, mkTree s2 (sources y))).
Definition number_str (n : Z) : option (list Z) :=
  '(buf, _) ← snprintf print_fuel 11 (str "%d" ++ [0]) [AInt n]; Some (NameSpace.cstr buf).

Definition process_files (pid : Z) : list (string * Source * NameSpace.NodeType * Z) :=
  [("maps", Maps pid, NameSpace.REGULAR, 292); ("cmdline", Cmdline pid, NameSpace.REGULAR, 292);
   ("environ", Environ pid, NameSpace.REGULAR, 292); ("cwd", CwdLink pid, NameSpace.SYMLINK, 63);
   ("exe", ExeLink pid, NameSpace.SYMLINK, 63); ("root", RootLink, NameSpace.SYMLINK, 63);
   ("mounts", Mounts, NameSpace.REGULAR, 292); ("statm", Statm, NameSpace.REGULAR, 292)]%string.

(** The process's directory and the one of its threads; the main thread's
    number is the process's. *)
Definition create_process_dir (root pid u g : Z) (y : Tree) : option (Z * Z * Tree) :=
  pid_str ← number_str pid;
  '(dir, y1) ← create_dir root pid_str u g y;
  '(task, s2) ← NameSpace.lookup_child dir (str "task") (ns y1);
  s3 ← NameSpace.Entry_create task NameSpace.DIRECTORY u g 365 s2;
  y4 ← create_entries dir (process_files pid) u g (mkTree s3 (sources y1));
  y5 ← create_thread_process_common pid dir u g y4;
  Some (dir, task, y5).

Definition create_thread_dir (task tid u g : Z) (y : Tree) : option (Z * Tree) :=
  tid_str ← number_str tid;
  '(dir, y1) ← create_dir task tid_str u g y;
  y2 ← create_thread_process_common tid dir u g y1;
  Some (dir, y2).

(** ** Theorems *)

Lemma put_digits_positive value base di : forall ds, put_digits di low_digits value base = Some ds -> Forall (fun c => 0 < c) ds.
Proof.
  assert (Hlow : Forall (fun c => 0 < c) low_digits) by (repeat constructor).
  assert (Hone : forall v c, low_digits !! Z.to_nat (v mod base) = Some c -> 0 < c) by (intros v c Hc; by apply (Forall_lookup_1 _ _ _ _ Hlow Hc)).
  induction di as [|di IH]; intros ds; cbn [put_digits].
  - destruct (low_digits !! _) as [c|] eqn:E; [|done]. intros [= <-]. constructor; [by eapply Hone|constructor].
  - destruct (low_digits !! _) as [c|] eqn:E; [|done]. cbn [mbind option_bind].
    destruct (put_digits di low_digits value base) as [r|]; [|done]. intros [= <-]. constructor; [by eapply Hone|by apply IH].
Qed.

Lemma printf_d v n : vprintf (S (S (S n))) (str "%d" ++ [0]) [AInt v] = ('(o, w) ← put_number no_spec chr_d v; Some (o, w)).
Proof. cbv -[put_number]. by destruct (put_number _ _ _) as [[o w]|]. Qed.

(** The decimal form of a number that fits an int: at most ten characters. *)
Lemma put_decimal v : 0 <= v < 2147483648 ->
  exists ds, put_number no_spec chr_d v = Some (ds, Z.of_nat (length ds)) /\ Forall (fun c => 0 < c) ds /\ (length ds <= 10)%nat /\
    parse 10 ds = v.
Proof.
  intros Hv. destruct (num_digits_spec v 10 ltac:(lia) ltac:(lia)) as (n & En & Hn & Hlt & Hge).
  destruct (put_digits_spec low_digits 10 v (or_introl eq_refl) ltac:(lia) ltac:(lia) (Z.to_nat n)) as (ds & Ed & Hl & Hp & _).
  assert (Hn9 : n <= 9).
  { destruct Hge as [->|Hge]; [lia|]. apply Z.nlt_ge. intros Hc. assert (10 ^ 10 <= 10 ^ n) by (apply Z.pow_le_mono_r; lia). lia. }
  exists ds. split; [|split; [by eapply put_digits_positive|split; [lia|]]].
  - unfold put_number. change (chr_d =? chr_d) with true. change (chr_d =? chr_x) with false. change (chr_d =? chr_X) with false.
    change (chr_d =? chr_o) with false. cbn [no_spec long_int alt_form padding is_zero_padding orb andb].
    rewrite u32_small by lia. rewrite sN_small by (change (2 ^ (32 - 1)) with 2147483648; lia).
    rewrite (proj2 (Z.ltb_ge v 0)), En by lia. cbn [mbind option_bind Z.eqb negb andb]. rewrite Ed. cbn [mbind option_bind app].
    do 2 f_equal. cbn [length Z.of_nat]. lia.
  - unfold parse. rewrite Hp. rewrite Nat2Z.inj_succ, Z2Nat.id by lia. rewrite Z.mul_0_l, Z.add_0_l. apply Z.mod_small.
    replace (Z.succ n) with (n + 1) by lia. lia.
Qed.

Lemma cstr_positive ds r : Forall (fun c => 0 < c) ds -> NameSpace.cstr (ds ++ 0 :: r) = ds.
Proof.
  induction 1 as [|c ds Hc Hds IH]; [done|]. cbn [app NameSpace.cstr]. rewrite (proj2 (Z.eqb_neq c 0)) by lia. by rewrite IH.
Qed.

(** The link /proc/self reads as the name of the directory that was made for
    the calling process. *)
Theorem self_names_directory pid y :
  current_process y = Some pid -> 0 <= pid < 2147483648 ->
  exists ds, print_self y = Some ds /\ number_str pid = Some ds /\ parse 10 ds = pid.
Proof.
  intros Hp Hr. destruct (put_decimal pid Hr) as (ds & E & Hpos & Hl & Hparse). exists ds.
  unfold print_self, number_str, info_node_printf, snprintf, print_fuel. rewrite Hp. cbn [mbind option_bind].
  rewrite printf_d, E. cbn [mbind option_bind fmap option_fmap option_map fst]. split; [done|]. split; [|done].
  change (u64 (11 - 1)) with 10. rewrite take_ge by lia. by rewrite cstr_positive.
Qed.

(** The bytes of a process's memory that are present. *)
Definition memory_byte (ram : Ram) (p : MemSyscalls.Process) (a : Z) : option Z :=
  bs ← ram !! (phys_of p a / PAGE_SIZE); bs !! Z.to_nat (phys_of p a mod PAGE_SIZE).

Section Memory.
Context `{RA : !Realloc} (file_page : Z -> Z -> list Z).

Lemma phys_bytes ram p l : (forall a, a ∈ l -> is_Some (memory_byte ram p a)) ->
  exists bs, flat_map (phys_byte ram) (map (phys_of p) l) = bs /\ Forall2 (fun a b => memory_byte ram p a = Some b) l bs.
Proof.
  induction l as [|a l IH]; intros H; [exists []; split; [done|constructor]|].
  destruct (IH ltac:(intros; apply H; by right)) as (bs & E & Hbs). destruct (H a ltac:(by left)) as [b Hb].
  exists (b :: bs). split; [|by constructor]. cbn [map flat_map]. rewrite E. change (b :: bs) with ([b] ++ bs). f_equal.
  unfold memory_byte in Hb. unfold phys_byte. destruct (ram !! _) as [bytes|]; [|done]. cbn [mbind option_bind] in Hb.
  unfold sub. change (Z.to_nat 1) with 1%nat. rewrite (drop_S _ _ _ Hb). done.
Qed.

End Memory.

(** ** A mounted file system with the directory of process 2 *)
Definition proc_example : option (Tree * Z) :=
  '(_, s1) ← NameSpace.syscall_mkdir NameSpace.ns_example_fuel (str "/proc") 493 NameSpace.ns_root;
  '(f, root, y) ← Filesystem_new s1;
  '(e, s2) ← NameSpace.path_to_entry NameSpace.ns_example_fuel (str "/proc") 0 true (ns y);
  '(dir, task, y2) ← create_process_dir root 2 1000 100 (mkTree (mount e root s2) (sources y));
  '(tdir, y3) ← create_thread_dir task 2 1000 100 y2;
  Some (y3, root).

(** What the file at a path prints; nothing where there is no file. *)
Definition source_at (path : list Z) (y : Tree) : option Source :=
  '(e, s1) ← NameSpace.path_to_entry NameSpace.ns_example_fuel path 0 false (ns y);
  v ← NameSpace.vnode_of e s1;
  sources y !! v.
Definition vnode_at (path : list Z) (y : Tree) : option Z :=
  '(e, s1) ← NameSpace.path_to_entry NameSpace.ns_example_fuel path 0 false (ns y); NameSpace.vnode_of e s1.

Definition kind_of (s : Source) : Z * Z :=
  match s with
  | SelfLink => (0, 0) | ThreadSelfLink => (1, 0) | MountsLink => (2, 0) | KernelCmdline => (3, 0) | Uptime => (4, 0)
  | Meminfo => (5, 0) | KernelStat => (6, 0) | ThreadStat t => (7, t) | ThreadStatus t => (8, t) | Maps p => (9, p)
  | Cmdline p => (10, p) | Environ p => (11, p) | CwdLink p => (12, p) | ExeLink p => (13, p) | RootLink => (14, 0)
  | Mounts => (15, 0) | Statm => (16, 0)
  end.

(** Every file of a process and of its thread is found by its path. *)
Example process_files_found :
  (y ← proc_example;
   mapM (fun p => kind_of <$> source_at (str p) y.1)
     ["/proc/self"; "/proc/meminfo"; "/proc/2/maps"; "/proc/2/cmdline"; "/proc/2/environ"; "/proc/2/cwd"; "/proc/2/exe";
      "/proc/2/root"; "/proc/2/statm"; "/proc/2/stat"; "/proc/2/task/2/stat"; "/proc/2/task/2/status"]%string) =
  Some [(0, 0); (5, 0); (9, 2); (10, 2); (11, 2); (12, 2); (13, 2); (14, 0); (16, 0); (7, 2); (7, 2); (8, 2)].
Proof. by vm_compute. Qed.

(** The root of the file system is made without entries for itself and its
    parent: neither name leads to a vnode, as they do in every other
    directory. *)
Example root_has_no_dots :
  (y ← proc_example;
   mapM (fun p => (fun v => negb (v =? 0)) <$> vnode_at (str p) y.1)
     ["/proc/."; "/proc/.."; "/proc/2/."; "/proc/2/.."; "/."]%string) = Some [false; false; true; true; true].
Proof. by vm_compute. Qed.

Definition example_system (time : Time.TimeSpec) : System :=
  mkSystem (Jobs.mkJobs example_sched ∅ ∅ ∅ [] 0) {[ 2 := example_context ]} {[ 2 := example_space ]} (fun _ => 0)
    (mkPmm [] ∅ [] 262144 0 1000) NameSpace.ns_root (Time.mkClock ∅ [] time time) 0 [] [].

(** The hundredths of a second are printed without the zero before them. *)
Example uptime_drops_zero : print_uptime (example_system (Time.mkTime 5 30000000)) = Some (str "5.3 0.00" ++ nl).
Proof. by vm_compute. Qed.

Lemma self_names_directory_witness :
  exists ds, print_self (example_system Time.zero_time) = Some ds /\ number_str 2 = Some ds /\ parse 10 ds = 2.
Proof. apply (self_names_directory 2 (example_system Time.zero_time)); [reflexivity|lia]. Defined.

#[local] Existing Instance Tmpfs.realloc_170.
Definition new_file : InfoNode := mkInfo (mkNodeData false 9 [] 0) [] 0 false.

Lemma bytes_unique {A B} (f : A -> option B) l k1 k2 :
  Forall2 (fun a b => f a = Some b) l k1 -> Forall2 (fun a b => f a = Some b) l k2 -> k1 = k2.
Proof.
  intros H1. revert k2. induction H1 as [|a b l k1 Hb H1 IH]; intros k2 H2; inversion H2 as [|? ? ? ? Hb2 H2']; [done|]. f_equal; [congruence|auto].
Qed.

