(* ===== verification/Async.v ===== *)
(** Completions awaited by coroutines (klib::RequestCallback and
    klib::RootAwaitable, src/kernel/src/klib/async.hpp): a driver gives a caller
    an awaitable tied to a request, and the request's interrupt stores the
    result in it and resumes the coroutine that waits.

    One awaitable is followed, with the coroutine that awaits it.  A coroutine
    that awaits asks whether there is a result and, when there is none, is
    suspended and leaves its handle: an interrupt may come between the two. *)
From S2P Require Import Prelude.

(** Where the coroutine is: before the await, told that there is no result,
    suspended, or gone on with a result. *)
Inductive Phase : Type := Before | NotReady | Suspended | Resumed (result : Z).

(** [handler] is whether the request's callback leads to this awaitable. *)
Record RootAwaitable : Type := mkAwaitable {
  handler : bool;
  result : option Z;
  handle : bool;
  phase : Phase
}.
Definition has_result (a : RootAwaitable) : bool := match result a with Some _ => true | None => false end.

(** The two constructors: for a request, and of a known result. *)
Definition of_callback : RootAwaitable := mkAwaitable true None false Before.
Definition of_result (r : Z) : RootAwaitable := mkAwaitable false (Some r) false Before.

(** The move constructor: the request's callback is led to the new object where
    there is no result yet. *)
Definition moved (a : RootAwaitable) : RootAwaitable :=
  mkAwaitable (if has_result a then false else handler a) (if has_result a then result a else None) (handle a) (phase a).

(** [RequestCallback::invoke] with [callback_handler]; resuming runs
    [await_resume]. *)
Definition invoke (r : Z) (a : RootAwaitable) : RootAwaitable :=
  if handler a then mkAwaitable true (Some r) (handle a) (if handle a then Resumed r else phase a) else a.

(** [await_ready], then [await_suspend] or [await_resume]. *)
Definition await_ready (a : RootAwaitable) : RootAwaitable :=
  mkAwaitable (handler a) (result a) (handle a) (match result a with Some r => Resumed r | None => NotReady end).
Definition await_suspend (a : RootAwaitable) : RootAwaitable := mkAwaitable (handler a) (result a) true Suspended.

(** What may happen next; the request completes at most once. *)
Inductive step : RootAwaitable -> RootAwaitable -> Prop :=
| step_move a : phase a = Before -> step a (moved a)
| step_ready a : phase a = Before -> step a (await_ready a)
| step_suspend a : phase a = NotReady -> step a (await_suspend a)
| step_complete a r : result a = None -> step a (invoke r a).

Definition steps : RootAwaitable -> RootAwaitable -> Prop := rtc step.

Lemma step_resumed a b r : step a b -> phase b = Resumed r -> (forall r, phase a = Resumed r -> result a = Some r) -> result b = Some r.
Proof.
  intros Hs Hb Ha. destruct Hs as [a Hp|a Hp|a Hp|a r' Hn]; cbn in *.
  - congruence.
  - destruct (result a); [congruence|done].
  - done.
  - unfold invoke in *. destruct (handler a); cbn in *; [destruct (handle a); [congruence|]|]; specialize (Ha r Hb); congruence.
Qed.

(** A coroutine that goes on has the result its request completed with. *)
Theorem awaited_result_is_the_completions a r : steps of_callback a -> phase a = Resumed r -> result a = Some r.
Proof.
  intros Hs. assert (H : forall r, phase a = Resumed r -> result a = Some r); [|apply H]. clear r.
  unfold steps in Hs. apply rtc_ind_r with (P := fun a => forall r, phase a = Resumed r -> result a = Some r) in Hs; [done|done|].
  intros y z _ Hyz IH r Hz. by eapply step_resumed.
Qed.

(** A completion before the await, or after the coroutine is suspended, is
    seen. *)
Theorem completion_resumes r :
  phase (await_ready (invoke r of_callback)) = Resumed r /\
  phase (await_ready (moved (invoke r of_callback))) = Resumed r /\
  phase (await_ready (invoke r (moved of_callback))) = Resumed r /\
  phase (invoke r (await_suspend (await_ready of_callback))) = Resumed r.
Proof. done. Qed.

(** A completion between the question and the suspension is lost: the coroutine
    is suspended with its result there, and nothing that may happen afterwards
    resumes it. *)
Theorem completion_lost r :
  exists a, steps of_callback a /\ phase a = Suspended /\ result a = Some r /\ forall b, steps a b -> b = a.
Proof.
  exists (await_suspend (invoke r (await_ready of_callback))). split; [|split; [done|split; [done|]]].
  - eapply rtc_l; [by apply step_ready|]. eapply rtc_l; [by apply (step_complete _ r)|]. eapply rtc_l; [by apply step_suspend|]. constructor.
  - intros b Hb. apply rtc_inv in Hb as [->|(c & Hc & _)]; [done|]. by inversion Hc.
Qed.

(** ** The service that runs tasks (src/kernel/src/dev/io_service.cpp)

    [push] puts a task at the end and triggers the event, which is dropped when
    nobody waits for it; the thread takes the first task and runs it, and when
    it finds none it waits.  A push may come between the two.  Tasks are named by
    numbers; [pushed] are all those pushed. *)
Inductive Place : Type := Looping | FoundNone | Waiting.
Record IoService : Type := mkService { task_list : list Z; thread : Place; ran : list Z; pushed : list Z }.

Definition push (task : Z) (s : IoService) : IoService :=
  mkService (task_list s ++ [task]) (match thread s with Waiting => Looping | p => p end) (ran s) (pushed s ++ [task]).
Definition pop (s : IoService) : option Z * IoService :=
  match task_list s with
  | [] => (None, s)
  | task :: l => (Some task, mkService l (thread s) (ran s) (pushed s))
  end.

(** A turn of [thread_loop], and the wait it may end in. *)
Definition thread_turn (s : IoService) : IoService :=
  match pop s with
  | (Some task, s') => mkService (task_list s') Looping (ran s' ++ [task]) (pushed s')
  | (None, s') => mkService (task_list s') FoundNone (ran s') (pushed s')
  end.
Definition queue_event_wait (s : IoService) : IoService := mkService (task_list s) Waiting (ran s) (pushed s).

Inductive service_step : IoService -> IoService -> Prop :=
| service_push s task : service_step s (push task s)
| service_turn s : thread s = Looping -> service_step s (thread_turn s)
| service_wait s : thread s = FoundNone -> service_step s (queue_event_wait s).
Definition service_init : IoService := mkService [] Looping [] [].

(** Tasks are run once each, in the order they were pushed. *)
Theorem tasks_run_in_order s : rtc service_step service_init s -> pushed s = ran s ++ task_list s.
Proof.
  intros H. apply rtc_ind_r with (P := fun s => pushed s = ran s ++ task_list s) in H; [done|done|].
  intros y z _ Hs Hy. destruct Hs as [y task|y Hp|y Hp]; cbn.
  - by rewrite Hy, app_assoc.
  - unfold thread_turn, pop. destruct (task_list y) as [|t l] eqn:E; cbn; rewrite ?E in *; [done|]. by rewrite Hy, <- app_assoc.
  - done.
Qed.

(** While the thread is not about to wait, every task is run in time: as many
    turns as there are tasks. *)
Theorem tasks_are_run s : thread s = Looping -> ran (Nat.iter (length (task_list s)) thread_turn s) = ran s ++ task_list s.
Proof.
  remember (task_list s) as l eqn:El. revert s El. induction l as [|t l IH]; intros s El Hp; [by rewrite app_nil_r|].
  cbn [length]. rewrite Nat.iter_succ_r. unfold thread_turn at 2, pop. rewrite <- El. rewrite IH by done. cbn. by rewrite <- app_assoc.
Qed.

(** A task pushed between the look and the wait is not run: the thread waits
    with a task in the list, and nothing happens until another is pushed. *)
Theorem push_before_wait_is_lost task : exists s, rtc service_step service_init s /\ thread s = Waiting /\ task_list s = [task] /\
  forall s', service_step s s' -> exists other, s' = push other s.
Proof.
  exists (queue_event_wait (push task (thread_turn service_init))). split; [|split; [done|split; [done|]]].
  - eapply rtc_l; [by apply service_turn|]. eapply rtc_l; [apply (service_push _ task)|]. eapply rtc_l; [by apply service_wait|]. constructor.
  - intros s' Hs. inversion Hs; subst; [by eexists|done..].
Qed.
