(* ===== verification/Virtio.v ===== *)
(** Virtio queues and the block device over one (src/kernel/src/dev/virtio.hpp,
    virtio.cpp): the descriptors with their free list, the rings shared with the
    device, the requests and the interrupt.  The network device and the setup of
    devices are in VirtioNet.v.

    The device is not in the source: it takes heads of chains from the available
    ring and puts those it is done with into the used ring, in any order.
    Notifications and memory barriers are left out. *)
From S2P Require Import Prelude.

(** ** Queues *)

Definition FLAG_NEXT : Z := 1.
Definition FLAG_DEVICE_WRITE : Z := 2.

Record Descriptor : Type := mkDesc { address : Z; d_length : Z; d_flags : Z; next : Z }.

Record Queue : Type := mkQueue {
  q_length : Z;
  free_desc_index : Z;
  num_free_descs : Z;
  last_seen_used : Z;
  descriptor_array : list Descriptor;
  available_ring : list Z;
  available_index : Z;
  used_ring : list Z;
  used_index : Z
}.

Definition set_descs (f n : Z) (l : list Descriptor) (q : Queue) : Queue :=
  mkQueue (q_length q) f n (last_seen_used q) l (available_ring q) (available_index q) (used_ring q) (used_index q).
Definition set_available (l : list Z) (i : Z) (q : Queue) : Queue :=
  mkQueue (q_length q) (free_desc_index q) (num_free_descs q) (last_seen_used q) (descriptor_array q) l i (used_ring q) (used_index q).
Definition set_seen (i : Z) (q : Queue) : Queue :=
  mkQueue (q_length q) (free_desc_index q) (num_free_descs q) i (descriptor_array q) (available_ring q) (available_index q)
    (used_ring q) (used_index q).

(** [Queue::init]: a page of zeros, then the chain of free descriptors. *)
Definition Queue_init : Queue :=
  mkQueue 128 0 128 0 (map (fun i => mkDesc 0 0 0 (i + 1)) (seqZ 0 128)) (replicate 128 0) 0 (replicate 128 0) 0.

(** An index past the arrays is [None]. *)
Definition alloc_descriptor (q : Queue) : option (Z * Queue) :=
  let index := free_desc_index q in
  if index =? q_length q then Some (index, q)
  else
    d ← descriptor_array q !! Z.to_nat index;
    Some (index, set_descs (next d) (u16 (num_free_descs q - 1)) (descriptor_array q) q).

Definition free_descriptor (index : Z) (q : Queue) : option Queue :=
  d ← descriptor_array q !! Z.to_nat index;
  Some (set_descs index (u16 (num_free_descs q + 1))
          (<[Z.to_nat index := mkDesc (address d) (d_length d) (d_flags d) (free_desc_index q)]> (descriptor_array q)) q).

Definition submit_descriptor (index : Z) (q : Queue) : Queue :=
  set_available (<[Z.to_nat (available_index q mod q_length q) := index]> (available_ring q)) (u16 (available_index q + 1)) q.

(** The fields written of a descriptor. *)
Definition fill (index addr len fl : Z) (q : Queue) : Queue :=
  set_descs (free_desc_index q) (num_free_descs q)
    (alter (fun d => mkDesc addr len fl (next d)) (Z.to_nat index) (descriptor_array q)) q.
Definition set_next (index nxt : Z) (q : Queue) : Queue :=
  set_descs (free_desc_index q) (num_free_descs q)
    (alter (fun d => mkDesc (address d) (d_length d) (d_flags d) nxt) (Z.to_nat index) (descriptor_array q)) q.

(** ** The block device *)

Inductive Direction : Type := READ | WRITE.
Definition TYPE_IN : Z := 0.
Definition TYPE_OUT : Z := 1.
Definition sizeof_RequestHeader : Z := 16.
Definition PAGE_SIZE : Z := 4096.

(** A request's place in the list and its contents; [callback] is who waits. *)
Record Request : Type := mkRequest { r_next : Z; callback : Z; r_type : Z; sector : Z }.

(** [invoked] are the callbacks invoked, in order. *)
Record BlockDevice : Type := mkBlock {
  queue : Queue;
  requests : gmap Z Request;
  first_free_request : Z;
  invoked : list Z
}.
Definition set_queue (q : Queue) (b : BlockDevice) : BlockDevice :=
  mkBlock q (requests b) (first_free_request b) (invoked b).

(** A request is its address, 0 is null.  [header] and [status] are the offsets
    of the parts the device sees, [hhdm] where physical memory is mapped, and
    [request_size] the size of a request in the page of requests. *)
Section Block.
Context (hhdm header status request_size : Z).

Definition header_phys (r : Z) : Z := u64 (r + header - hhdm).
Definition status_phys (r : Z) : Z := u64 (r + status - hhdm).

(** [BlockDevice::init]: the queue, and [n] requests from [base] on. *)
Definition BlockDevice_init (base : Z) (n : nat) : BlockDevice :=
  mkBlock Queue_init
    (list_to_map (map (fun i => (base + request_size * i,
                                 mkRequest (if i =? Z.of_nat n - 1 then 0 else base + request_size * (i + 1)) 0 0 0)) (seqZ 0 (Z.of_nat n))))
    base [].

Definition alloc_request (b : BlockDevice) : option (Z * BlockDevice) :=
  if first_free_request b =? 0 then Some (0, b)
  else
    let ret := first_free_request b in
    r ← requests b !! ret;
    Some (ret, mkBlock (queue b) (requests b) (r_next r) (invoked b)).

Definition free_request (request : Z) (b : BlockDevice) : option BlockDevice :=
  r ← requests b !! request;
  Some (mkBlock (queue b) (<[request := mkRequest (first_free_request b) (callback r) (r_type r) (sector r)]> (requests b))
          request (invoked b)).

(** What the deferred blocks do on an error: the descriptors, the last first,
    then the request. *)
Fixpoint free_descriptors (l : list Z) (q : Queue) : option Queue :=
  match l with
  | [] => Some q
  | d :: l' => q1 ← free_descriptor d q; free_descriptors l' q1
  end.
Definition release_on_error (err : Z) (descs : list Z) (request : Z) (b : BlockDevice) : option (Z * BlockDevice) :=
  q ← free_descriptors descs (queue b);
  b1 ← free_request request (set_queue q b);
  Some (err, b1).

(** The result is an error, or 0 for an awaitable whose waiter is [awaiter]. *)
Definition read_write_block (block page_phy : Z) (direction : Direction) (awaiter : Z) (b : BlockDevice) : option (Z * BlockDevice) :=
  '(request, b) ← alloc_request b;
  if request =? 0 then release_on_error (- ENOMEM) [] request b
  else
    let ty := match direction with WRITE => TYPE_OUT | READ => TYPE_IN end in
    let b := mkBlock (queue b) (alter (fun r => mkRequest (r_next r) (callback r) ty (u64 (block * 8))) request (requests b))
               (first_free_request b) (invoked b) in
    '(desc1, q) ← alloc_descriptor (queue b);
    if desc1 =? q_length q then release_on_error (- ENOMEM) [] request (set_queue q b)
    else
      let q := fill desc1 (header_phys request) sizeof_RequestHeader FLAG_NEXT q in
      '(desc2, q) ← alloc_descriptor q;
      if desc2 =? q_length q then release_on_error (- ENOMEM) [desc1] request (set_queue q b)
      else
        let q := fill desc2 page_phy PAGE_SIZE
                   (Z.lor FLAG_NEXT (match direction with WRITE => 0 | READ => FLAG_DEVICE_WRITE end)) q in
        '(desc3, q) ← alloc_descriptor q;
        if desc3 =? q_length q then release_on_error (- ENOMEM) [desc2; desc1] request (set_queue q b)
        else
          let q := fill desc3 (status_phys request) 1 FLAG_DEVICE_WRITE q in
          let q := set_next desc2 desc3 (set_next desc1 desc2 q) in
          Some (0, mkBlock (submit_descriptor desc1 q)
                     (alter (fun r => mkRequest (r_next r) awaiter (r_type r) (sector r)) request (requests b))
                     (first_free_request b) (invoked b)).

(** One turn of the interrupt's loop: the request is found from the address in
    the head of the chain. *)
Definition complete (desc : Z) (b : BlockDevice) : option BlockDevice :=
  d ← descriptor_array (queue b) !! Z.to_nat desc;
  let request := u64 (address d + hhdm - header) in
  r ← requests b !! request;
  b1 ← free_request request (mkBlock (queue b) (requests b) (first_free_request b) (invoked b ++ [callback r]));
  d2 ← descriptor_array (queue b1) !! Z.to_nat (next d);
  q1 ← free_descriptor (next d2) (queue b1);
  d' ← descriptor_array q1 !! Z.to_nat desc;
  q2 ← free_descriptor (next d') q1;
  q3 ← free_descriptor desc q2;
  Some (set_queue q3 b1).

(** The turns are fewer than the slots of the ring. *)
Fixpoint irq_loop (turns : nat) (i : Z) (b : BlockDevice) : option (Z * BlockDevice) :=
  match turns with
  | O => None
  | S turns =>
      let q := queue b in
      if i =? used_index q mod q_length q then Some (i, b)
      else
        desc ← used_ring q !! Z.to_nat i;
        b1 ← complete (u16 desc) b;
        irq_loop turns ((i + 1) mod q_length q) b1
  end.
Definition irq (b : BlockDevice) : option BlockDevice :=
  '(i, b1) ← irq_loop 128 (last_seen_used (queue b)) b;
  Some (set_queue (set_seen i (queue b1)) b1).
End Block.

(** ** Lists of free things *)

(** The list that starts at [start] and follows [nx] up to [stop]. *)
Fixpoint linked (nx : Z -> option Z) (stop start : Z) (l : list Z) : Prop :=
  match l with
  | [] => start = stop
  | x :: l' => start = x /\ exists n, nx x = Some n /\ linked nx stop n l'
  end.

Lemma linked_frame nx nx' stop start l : (forall x, x ∈ l -> nx' x = nx x) -> linked nx stop start l -> linked nx' stop start l.
Proof.
  revert start. induction l as [|x l IH]; intros start H; [done|]. intros (-> & n & Hn & Hl). split; [done|].
  exists n. rewrite H by (by left). split; [done|]. apply IH; [|done]. intros y Hy. apply H. by right.
Qed.

(** A free descriptor, and the next one. *)
Definition desc_next (q : Queue) (x : Z) : option Z := next <$> descriptor_array q !! Z.to_nat x.

Record queue_ok (F : list Z) (q : Queue) : Prop := {
  qo_length : q_length q = 128;
  qo_array : length (descriptor_array q) = 128%nat;
  qo_linked : linked (desc_next q) 128 (free_desc_index q) F;
  qo_range : forall x, x ∈ F -> 0 <= x < 128;
  qo_nodup : NoDup F;
  qo_count : num_free_descs q = Z.of_nat (length F)
}.

(** The rest of a queue does not change. *)
Definition same_rings (q q' : Queue) : Prop :=
  available_ring q' = available_ring q /\ available_index q' = available_index q /\ used_ring q' = used_ring q /\
  used_index q' = used_index q /\ last_seen_used q' = last_seen_used q.
Definition same_descs (P : Z -> Prop) (q q' : Queue) : Prop :=
  forall x, 0 <= x < 128 -> ~ P x -> descriptor_array q' !! Z.to_nat x = descriptor_array q !! Z.to_nat x.

Lemma short_list (l : list Z) : NoDup l -> (forall x, x ∈ l -> 0 <= x < 128) -> (length l <= 128)%nat.
Proof.
  intros Hn Hr. assert (Hs : l ⊆+ seqZ 0 128).
  { apply NoDup_submseteq; [done|]. intros x Hx. apply elem_of_seqZ. specialize (Hr x Hx). lia. }
  apply submseteq_length in Hs. by rewrite length_seqZ in Hs.
Qed.

Lemma alloc_none q : queue_ok [] q -> alloc_descriptor q = Some (128, q).
Proof. intros [Hl _ Hf _ _ _]. cbn in Hf. unfold alloc_descriptor. rewrite Hf, Hl. done. Qed.

Lemma alloc_some x F q : queue_ok (x :: F) q ->
  exists q', alloc_descriptor q = Some (x, q') /\ queue_ok F q' /\ same_rings q q' /\ descriptor_array q' = descriptor_array q.
Proof.
  intros [Hl Ha (Hf & n & Hn & Hlk) Hr Hnd Hc]. unfold alloc_descriptor. rewrite Hf, Hl.
  assert (Hx : 0 <= x < 128) by (apply Hr; by left). rewrite (proj2 (Z.eqb_neq x 128)) by lia.
  unfold desc_next in Hn. destruct (descriptor_array q !! Z.to_nat x) as [d|] eqn:E; [|done]. injection Hn as <-.
  cbn [mbind option_bind]. eexists. split; [reflexivity|]. split; [|done].
  apply NoDup_cons in Hnd as [_ Hnd']. pose proof (short_list F Hnd' ltac:(intros y Hy; apply Hr; by right)) as Hs.
  constructor; cbn [set_descs q_length descriptor_array free_desc_index num_free_descs]; auto.
  - intros y Hy. apply Hr. by right.
  - rewrite Hc. cbn [length] in *. rewrite uN_small by (change (2 ^ 16) with 65536; lia). lia.
Qed.

Lemma free_spec x F q : queue_ok F q -> 0 <= x < 128 -> x ∉ F ->
  exists q', free_descriptor x q = Some q' /\ queue_ok (x :: F) q' /\ same_rings q q' /\ same_descs (fun y => y = x) q q'.
Proof.
  intros [Hl Ha Hlk Hr Hnd Hc] Hx Hnin. unfold free_descriptor.
  destruct (lookup_lt_is_Some_2 (descriptor_array q) (Z.to_nat x)) as [d Hd]; [lia|]. rewrite Hd. cbn [mbind option_bind].
  eexists. split; [reflexivity|].
  assert (Hlook : forall y, 0 <= y < 128 -> y <> x -> forall v, <[Z.to_nat x := v]> (descriptor_array q) !! Z.to_nat y = descriptor_array q !! Z.to_nat y).
  { intros y Hy Hne v. rewrite list_lookup_insert_ne by lia. done. }
  assert (Hnd' : NoDup (x :: F)) by (by constructor).
  assert (Hr' : forall y, y ∈ x :: F -> 0 <= y < 128) by (intros y [->|Hy]%elem_of_cons; auto).
  pose proof (short_list _ Hnd' Hr') as Hs. cbn [length] in Hs.
  split; [constructor; cbn [set_descs q_length descriptor_array free_desc_index num_free_descs]; auto|split; [done|]].
  - by rewrite length_insert.
  - cbn [linked]. split; [done|]. exists (free_desc_index q). unfold desc_next. cbn [set_descs descriptor_array].
    rewrite list_lookup_insert_eq by lia. split; [done|]. eapply linked_frame; [|exact Hlk].
    intros y Hy. unfold desc_next. cbn [set_descs descriptor_array]. rewrite Hlook; [done|auto|]. intros ->. done.
  - rewrite Hc. cbn [length] in *. rewrite uN_small by (change (2 ^ 16) with 65536; lia). lia.
  - intros y Hy Hne. cbn [set_descs descriptor_array]. by apply Hlook.
Qed.

(** Writing the fields of a descriptor that is not free. *)
Lemma alter_ok f x F q : queue_ok F q -> 0 <= x < 128 -> x ∉ F ->
  queue_ok F (set_descs (free_desc_index q) (num_free_descs q) (alter f (Z.to_nat x) (descriptor_array q)) q).
Proof.
  intros [Hl Ha Hlk Hr Hnd Hc] Hx Hnin. constructor; cbn [set_descs q_length descriptor_array free_desc_index num_free_descs]; auto.
  - by rewrite length_alter.
  - eapply linked_frame; [|exact Hlk]. intros y Hy. unfold desc_next. cbn [set_descs descriptor_array].
    rewrite list_lookup_alter_ne; [done|]. specialize (Hr y Hy). intros He. apply Hnin. by replace x with y by lia.
Qed.
Lemma fill_ok x a l f F q : queue_ok F q -> 0 <= x < 128 -> x ∉ F -> queue_ok F (fill x a l f q).
Proof. apply alter_ok. Qed.
Lemma set_next_ok x n F q : queue_ok F q -> 0 <= x < 128 -> x ∉ F -> queue_ok F (set_next x n q).
Proof. apply alter_ok. Qed.
Lemma submit_ok x F q : queue_ok F q -> queue_ok F (submit_descriptor x q).
Proof. by intros [? ? ? ? ? ?]. Qed.

Lemma queue_ok_fresh x F q : queue_ok (x :: F) q -> 0 <= x < 128 /\ x ∉ F.
Proof. intros [_ _ _ Hr Hnd _]. apply NoDup_cons in Hnd as [Hx _]. split; [apply Hr; by left|done]. Qed.

(** The rings are windows: [W] is what was put from index [s] on and not yet
    taken. *)
Definition window (l : list Z) (s e : Z) (W : list Z) : Prop :=
  length l = 128%nat /\ 0 <= s < 65536 /\ e = u16 (s + Z.of_nat (length W)) /\
  forall k x, W !! k = Some x -> l !! Z.to_nat ((s + Z.of_nat k) mod 128) = Some x.

Lemma u16_mod a : u16 a mod 128 = a mod 128.
Proof. unfold uN. change (2 ^ 16) with 65536. apply Z.mod_mod_divide. by exists 512. Qed.

Lemma mod_far a i j : 0 <= i -> i < j -> j - i < 128 -> (a + i) mod 128 <> (a + j) mod 128.
Proof. intros Hi Hij Hd He. pose proof (Z.div_mod (a + i) 128 ltac:(lia)). pose proof (Z.div_mod (a + j) 128 ltac:(lia)). lia. Qed.

Lemma window_push l s e W x : window l s e W -> (length W < 128)%nat ->
  window (<[Z.to_nat (e mod 128) := x]> l) s (u16 (e + 1)) (W ++ [x]).
Proof.
  intros (Hl & Hs & -> & Hw) Hlen. split; [by rewrite length_insert|]. split; [done|]. split.
  { rewrite length_app. cbn [length]. unfold uN. change (2 ^ 16) with 65536. rewrite Zplus_mod_idemp_l. f_equal. lia. }
  rewrite u16_mod. intros k y Hk. apply lookup_app_Some in Hk as [Hk|[Hge Hk]].
  - pose proof (lookup_lt_Some _ _ _ Hk) as Hlt. pose proof (mod_far s (Z.of_nat k) (Z.of_nat (length W)) ltac:(lia) ltac:(lia) ltac:(lia)) as Hne.
    pose proof (Z.mod_pos_bound (s + Z.of_nat k) 128 ltac:(lia)). pose proof (Z.mod_pos_bound (s + Z.of_nat (length W)) 128 ltac:(lia)).
    rewrite list_lookup_insert_ne by lia. by apply Hw.
  - destruct (k - length W)%nat eqn:Ek; [|done]. injection Hk as <-. assert (k = length W) as -> by lia.
    pose proof (Z.mod_pos_bound (s + Z.of_nat (length W)) 128 ltac:(lia)). apply list_lookup_insert_eq. lia.
Qed.

Lemma window_pop l s e x W : window l s e (x :: W) -> l !! Z.to_nat (s mod 128) = Some x /\ window l (u16 (s + 1)) e W.
Proof.
  intros (Hl & Hs & -> & Hw). split.
  { specialize (Hw 0%nat x eq_refl). by rewrite Z.add_0_r in Hw. }
  split; [done|]. split; [apply (uN_range 16); lia|]. split.
  - cbn [length]. unfold uN. change (2 ^ 16) with 65536. rewrite Zplus_mod_idemp_l. f_equal. lia.
  - intros k y Hk. specialize (Hw (S k) y Hk). rewrite <- Hw. do 2 f_equal.
    rewrite <- (Zplus_mod_idemp_l (u16 (s + 1))), u16_mod, Zplus_mod_idemp_l. f_equal. lia.
Qed.

Lemma window_nil l s e : window l s e [] -> s = e.
Proof. intros (_ & Hs & -> & _). rewrite uN_small; [cbn; lia|]. change (2 ^ 16) with 65536. cbn. lia. Qed.

Lemma window_nonempty l s e x W : window l s e (x :: W) -> (length W < 127)%nat -> s mod 128 <> e mod 128.
Proof.
  intros (_ & Hs & -> & _) Hlen. rewrite u16_mod. cbn [length].
  pose proof (mod_far s 0 (Z.of_nat (S (length W))) ltac:(lia) ltac:(lia) ltac:(lia)) as H. by rewrite Z.add_0_r in H.
Qed.

(** ** The block device's requests and chains *)

Section BlockFacts.
Context (hhdm header status request_size : Z).

Definition req_next (m : gmap Z Request) (r : Z) : option Z := r_next <$> m !! r.
Record requests_ok (R : list Z) (m : gmap Z Request) (first : Z) : Prop := {
  ro_linked : linked (req_next m) 0 first R;
  ro_range : forall r, r ∈ R -> 0 < r < 18446744073709551616;
  ro_nodup : NoDup R
}.

Lemma request_frame R m m' first : (forall r, r ∈ R -> req_next m' r = req_next m r) -> requests_ok R m first -> requests_ok R m' first.
Proof. intros Hf [Hl Hr Hn]. constructor; [|done..]. by eapply linked_frame. Qed.

Lemma alloc_request_ok r R b : requests_ok (r :: R) (requests b) (first_free_request b) -> exists r0,
  requests b !! r = Some r0 /\ alloc_request b = Some (r, mkBlock (queue b) (requests b) (r_next r0) (invoked b)) /\
  requests_ok R (requests b) (r_next r0) /\ 0 < r < 18446744073709551616 /\ r ∉ R.
Proof.
  intros [(Hf & n & Hn & Hl) Hr Hnd]. unfold req_next in Hn. destruct (requests b !! r) as [r0|] eqn:E; [|done].
  injection Hn as <-. exists r0. split; [done|]. assert (Hr0 : 0 < r < 18446744073709551616) by (apply Hr; by left).
  apply NoDup_cons in Hnd as [Hnin Hnd]. split; [|split; [|done]].
  - unfold alloc_request. rewrite Hf, E, (proj2 (Z.eqb_neq r 0)) by lia. done.
  - constructor; [done| |done]. intros y Hy. apply Hr. by right.
Qed.

Lemma free_request_ok r r0 R b : requests_ok R (requests b) (first_free_request b) -> requests b !! r = Some r0 -> r ∉ R ->
  0 < r < 18446744073709551616 -> exists m',
  free_request r b = Some (mkBlock (queue b) m' r (invoked b)) /\ requests_ok (r :: R) m' r /\
  (forall y, y <> r -> m' !! y = requests b !! y).
Proof.
  intros [Hl Hr Hn] E Hnin Hr0. unfold free_request. rewrite E. cbn [mbind option_bind]. eexists. split; [reflexivity|]. split.
  - constructor.
    + cbn [linked]. split; [done|]. exists (first_free_request b). unfold req_next. rewrite lookup_insert_eq. split; [done|].
      eapply linked_frame; [|exact Hl]. intros y Hy. unfold req_next. rewrite lookup_insert_ne; [done|]. by intros ->.
    + intros y [->|Hy]%elem_of_cons; auto.
    + by constructor.
  - intros y Hy. by rewrite lookup_insert_ne.
Qed.

(** A chain of three descriptors the device has, or has been given: what it is
    told to do and where it says how it went. *)
Record Chain : Type := mkChain {
  c_1 : Z; c_2 : Z; c_3 : Z; c_request : Z; c_awaiter : Z; c_page : Z; c_direction : Direction; c_block : Z
}.
Definition descs (c : Chain) : list Z := [c_1 c; c_2 c; c_3 c].
Definition type_of (d : Direction) : Z := match d with WRITE => TYPE_OUT | READ => TYPE_IN end.
Definition page_flags (d : Direction) : Z := Z.lor FLAG_NEXT (match d with WRITE => 0 | READ => FLAG_DEVICE_WRITE end).

Definition described (c : Chain) (q : Queue) (m : gmap Z Request) : Prop :=
  descriptor_array q !! Z.to_nat (c_1 c) = Some (mkDesc (header_phys hhdm header (c_request c)) sizeof_RequestHeader FLAG_NEXT (c_2 c)) /\
  descriptor_array q !! Z.to_nat (c_2 c) = Some (mkDesc (c_page c) PAGE_SIZE (page_flags (c_direction c)) (c_3 c)) /\
  (exists n, descriptor_array q !! Z.to_nat (c_3 c) = Some (mkDesc (status_phys hhdm status (c_request c)) 1 FLAG_DEVICE_WRITE n)) /\
  exists n, m !! c_request c = Some (mkRequest n (c_awaiter c) (type_of (c_direction c)) (u64 (c_block c * 8))).

Lemma described_frame c q q' m m' : (forall x, x ∈ descs c -> descriptor_array q' !! Z.to_nat x = descriptor_array q !! Z.to_nat x) ->
  m' !! c_request c = m !! c_request c -> described c q m -> described c q' m'.
Proof.
  intros Hd Hm. unfold described. rewrite Hm, (Hd (c_1 c)), (Hd (c_2 c)), (Hd (c_3 c)); [done| | |]; unfold descs; set_solver.
Qed.

Lemma chain_written x y z p r d q : 0 <= x < 128 -> 0 <= y < 128 -> 0 <= z < 128 -> NoDup [x; y; z] -> length (descriptor_array q) = 128%nat ->
  let q' := set_next y z (set_next x y (fill z (status_phys hhdm status r) 1 FLAG_DEVICE_WRITE
              (fill y p PAGE_SIZE (page_flags d) (fill x (header_phys hhdm header r) sizeof_RequestHeader FLAG_NEXT q)))) in
  descriptor_array q' !! Z.to_nat x = Some (mkDesc (header_phys hhdm header r) sizeof_RequestHeader FLAG_NEXT y) /\
  descriptor_array q' !! Z.to_nat y = Some (mkDesc p PAGE_SIZE (page_flags d) z) /\
  (exists n, descriptor_array q' !! Z.to_nat z = Some (mkDesc (status_phys hhdm status r) 1 FLAG_DEVICE_WRITE n)) /\
  forall w, 0 <= w < 128 -> w ∉ [x; y; z] -> descriptor_array q' !! Z.to_nat w = descriptor_array q !! Z.to_nat w.
Proof.
  intros Hx Hy Hz (H1 & (H2 & _)%NoDup_cons)%NoDup_cons Hl. assert (Hxy : x <> y) by set_solver. assert (Hxz : x <> z) by set_solver.
  assert (Hyz : y <> z) by set_solver. cbn [set_next fill set_descs descriptor_array].
  assert (Hs : forall w, 0 <= w < 128 -> exists d, descriptor_array q !! Z.to_nat w = Some d).
  { intros w Hw. destruct (lookup_lt_is_Some_2 (descriptor_array q) (Z.to_nat w)) as [d' Hd']; [lia|]. by exists d'. }
  destruct (Hs x Hx) as [dx Ex], (Hs y Hy) as [dy Ey], (Hs z Hz) as [dz Ez].
  split; [|split; [|split; [eexists|]]].
  - rewrite (list_lookup_alter_ne _ _ (Z.to_nat y)) by lia. rewrite list_lookup_alter_eq.
    rewrite (list_lookup_alter_ne _ _ (Z.to_nat z)), (list_lookup_alter_ne _ _ (Z.to_nat y)) by lia. by rewrite list_lookup_alter_eq, Ex.
  - rewrite list_lookup_alter_eq, (list_lookup_alter_ne _ _ (Z.to_nat x)), (list_lookup_alter_ne _ _ (Z.to_nat z)) by lia.
    rewrite list_lookup_alter_eq, (list_lookup_alter_ne _ _ (Z.to_nat x)) by lia. by rewrite Ey.
  - rewrite (list_lookup_alter_ne _ _ (Z.to_nat y)), (list_lookup_alter_ne _ _ (Z.to_nat x)) by lia.
    rewrite list_lookup_alter_eq, (list_lookup_alter_ne _ _ (Z.to_nat y)), (list_lookup_alter_ne _ _ (Z.to_nat x)) by lia. by rewrite Ez.
  - intros w Hw Hnin. assert (w <> x /\ w <> y /\ w <> z) as (? & ? & ?) by set_solver. rewrite !list_lookup_alter_ne by lia. done.
Qed.

Lemma alter_request_ok f r R m first : requests_ok R m first -> r ∉ R -> requests_ok R (alter f r m) first.
Proof.
  intros Hok Hnin. eapply request_frame; [|exact Hok]. intros y Hy. unfold req_next. rewrite lookup_alter_ne; [done|]. by intros ->.
Qed.

(** With three free descriptors and a free request, the chain is made of them
    and its head is put in the available ring. *)
Lemma read_write_submits x y z F r R b block page dir aw :
  queue_ok (x :: y :: z :: F) (queue b) -> requests_ok (r :: R) (requests b) (first_free_request b) ->
  exists b', read_write_block hhdm header status block page dir aw b = Some (0, b') /\
    queue_ok F (queue b') /\ requests_ok R (requests b') (first_free_request b') /\ invoked b' = invoked b /\
    described (mkChain x y z r aw page dir block) (queue b') (requests b') /\
    (available_ring (queue b') = <[Z.to_nat (available_index (queue b) mod 128) := x]> (available_ring (queue b)) /\
     available_index (queue b') = u16 (available_index (queue b) + 1) /\ used_ring (queue b') = used_ring (queue b) /\
     used_index (queue b') = used_index (queue b) /\ last_seen_used (queue b') = last_seen_used (queue b)) /\
    (forall w, 0 <= w < 128 -> w ∉ [x; y; z] -> descriptor_array (queue b') !! Z.to_nat w = descriptor_array (queue b) !! Z.to_nat w) /\
    (forall w, w <> r -> requests b' !! w = requests b !! w).
Proof.
  intros Hq Hr. destruct (alloc_request_ok _ _ _ Hr) as (r0 & E0 & Ea & HR & Hrr & HrR).
  unfold read_write_block. rewrite Ea. cbn [mbind option_bind]. rewrite (proj2 (Z.eqb_neq r 0)) by lia. cbn [queue requests first_free_request invoked].
  destruct (queue_ok_fresh _ _ _ Hq) as [Hx Hxn].
  destruct (alloc_some _ _ _ Hq) as (q1 & E1 & Hq1 & Hr1 & Hd1). rewrite E1. cbn [mbind option_bind].
  rewrite (qo_length _ _ Hq1), (proj2 (Z.eqb_neq x 128)) by lia.
  apply (fill_ok x (header_phys hhdm header r) sizeof_RequestHeader FLAG_NEXT) in Hq1; [|done..].
  destruct (queue_ok_fresh _ _ _ Hq1) as [Hy Hyn].
  destruct (alloc_some _ _ _ Hq1) as (q2 & E2 & Hq2 & Hr2 & Hd2). rewrite E2. cbn [mbind option_bind].
  rewrite (qo_length _ _ Hq2), (proj2 (Z.eqb_neq y 128)) by lia. fold (page_flags dir).
  apply (fill_ok y page PAGE_SIZE (page_flags dir)) in Hq2; [|done..].
  destruct (queue_ok_fresh _ _ _ Hq2) as [Hz Hzn].
  destruct (alloc_some _ _ _ Hq2) as (q3 & E3 & Hq3 & Hr3 & Hd3). rewrite E3. cbn [mbind option_bind].
  rewrite (qo_length _ _ Hq3), (proj2 (Z.eqb_neq z 128)) by lia.
  pose proof (qo_nodup _ _ Hq) as Hnd. apply (NoDup_app [x; y; z] F) in Hnd as (Hnd & _).
  destruct (chain_written x y z page r dir (queue b) Hx Hy Hz Hnd (qo_array _ _ Hq)) as (D1 & D2 & D3 & D4).
  eexists. split; [reflexivity|]. set (qf := set_next y z _).
  assert (Harr : descriptor_array qf = descriptor_array (set_next y z (set_next x y (fill z (status_phys hhdm status r) 1 FLAG_DEVICE_WRITE
              (fill y page PAGE_SIZE (page_flags dir) (fill x (header_phys hhdm header r) sizeof_RequestHeader FLAG_NEXT (queue b))))))).
  { subst qf. cbn [set_next fill set_descs descriptor_array] in *. by rewrite Hd3, Hd2, Hd1. }
  assert (Hqf : queue_ok F qf) by (subst qf; repeat (apply set_next_ok || apply fill_ok); set_solver).
  assert (Hrings : same_rings (queue b) qf).
  { subst qf. unfold same_rings, set_next, fill in *. cbn in Hr1, Hr2, Hr3 |- *. intuition congruence. }
  destruct Hrings as (Ra & Rb & Rc & Rd & Re). clearbody qf.
  cbn [queue requests first_free_request invoked submit_descriptor set_available available_ring available_index used_ring used_index
       last_seen_used descriptor_array described c_1 c_2 c_3 c_request c_awaiter c_page c_direction c_block].
  rewrite (qo_length _ _ Hqf), Ra, Rb. split; [by apply submit_ok|]. split; [by repeat apply alter_request_ok|]. split; [done|].
  unfold described. cbn. rewrite Harr.
  split; [|split; [by rewrite Rc, Rd, Re|split; [done|]]].
  - split; [done|]. split; [done|]. split; [done|]. exists (r_next r0). rewrite !lookup_alter_eq, E0. done.
  - intros w Hw. by rewrite !lookup_alter_ne.
Qed.

(** Giving up puts back the descriptors taken, in the order they were in. *)
Lemma free_descriptors_ok l F q : queue_ok F q -> (forall x, x ∈ l -> 0 <= x < 128) -> NoDup (rev l ++ F) -> exists q',
  free_descriptors l q = Some q' /\ queue_ok (rev l ++ F) q' /\ same_rings q q' /\ same_descs (fun x => x ∈ l) q q'.
Proof.
  revert F q. induction l as [|x l IH]; intros F q Hq Hl Hn.
  - exists q. split; [done|]. split; [done|]. split; [done|]. by intros ? ? ?.
  - cbn [rev] in *. rewrite <- app_assoc in *. cbn [app] in *.
    assert (Hx : x ∉ F) by (apply NoDup_app in Hn as (_ & _ & Hn); by apply NoDup_cons in Hn as [? _]).
    destruct (free_spec x F q Hq ltac:(apply Hl; by left) Hx) as (q1 & E1 & Hq1 & R1 & D1).
    destruct (IH (x :: F) q1 Hq1 ltac:(intros y Hy; apply Hl; by right) Hn) as (q2 & E2 & Hq2 & R2 & D2).
    exists q2. cbn [free_descriptors]. rewrite E1. cbn [mbind option_bind]. split; [done|]. split; [done|].
    split; [unfold same_rings in *; intuition congruence|]. intros w Hw Hnw. rewrite D2, D1; set_solver.
Qed.

Lemma release_ok l F r r0 R b : queue_ok F (queue b) -> (forall x, x ∈ l -> 0 <= x < 128) -> NoDup (rev l ++ F) ->
  requests_ok R (requests b) (first_free_request b) -> requests b !! r = Some r0 -> r ∉ R -> 0 < r < 18446744073709551616 ->
  exists b', release_on_error (- ENOMEM) l r b = Some (- ENOMEM, b') /\ queue_ok (rev l ++ F) (queue b') /\
    requests_ok (r :: R) (requests b') (first_free_request b') /\ invoked b' = invoked b /\ same_rings (queue b) (queue b') /\
    same_descs (fun x => x ∈ l) (queue b) (queue b') /\ forall y, y <> r -> requests b' !! y = requests b !! y.
Proof.
  intros Hq Hl Hn HR E Hr Hrr. unfold release_on_error.
  destruct (free_descriptors_ok l F (queue b) Hq Hl Hn) as (q' & -> & Hq' & Hs & Hd). cbn [mbind option_bind].
  destruct (free_request_ok r r0 R (set_queue q' b) HR E Hr Hrr) as (m' & -> & HR' & Hm). cbn [mbind option_bind].
  eexists. split; [reflexivity|]. done.
Qed.

Lemma fill_same x a l f q : same_rings q (fill x a l f q) /\
  (forall w, 0 <= w < 128 -> 0 <= x -> w <> x -> descriptor_array (fill x a l f q) !! Z.to_nat w = descriptor_array q !! Z.to_nat w).
Proof. split; [done|]. intros w Hw Hx Hne. cbn. rewrite list_lookup_alter_ne by lia. done. Qed.

(** What giving up leaves, from a state reached from [b]. *)
Definition refused (F : list Z) (r : Z) (R : list Z) (b b' : BlockDevice) : Prop :=
  queue_ok F (queue b') /\ requests_ok (r :: R) (requests b') (first_free_request b') /\ invoked b' = invoked b /\
  same_rings (queue b) (queue b') /\ same_descs (fun x => x ∈ F) (queue b) (queue b') /\
  (forall w, w <> r -> requests b' !! w = requests b !! w).

Lemma release_refused l r R b q m first :
  queue_ok [] q -> (forall x, x ∈ l -> 0 <= x < 128) -> NoDup (rev l) -> requests_ok R m first -> is_Some (m !! r) -> r ∉ R ->
  0 < r < 18446744073709551616 -> same_rings (queue b) q -> same_descs (fun x => x ∈ rev l) (queue b) q ->
  (forall w, w <> r -> m !! w = requests b !! w) ->
  exists b', release_on_error (- ENOMEM) l r (mkBlock q m first (invoked b)) = Some (- ENOMEM, b') /\ refused (rev l) r R b b'.
Proof.
  intros Hq Hl Hn HR [r1 E] Hr Hrr Hs Hd Hm.
  destruct (release_ok l [] r r1 R (mkBlock q m first (invoked b)) Hq Hl ltac:(by rewrite app_nil_r) HR E Hr Hrr)
    as (b' & Eb & Hb & HR' & Hi & Hs' & Hd' & Hw).
  rewrite app_nil_r in Hb. exists b'. split; [exact Eb|]. split; [exact Hb|]. split; [exact HR'|]. split; [exact Hi|].
  split; [cbn in Hs'; unfold same_rings in *; intuition congruence|]. split.
  - intros w Hw0 Hnin. cbn in Hd'. rewrite Hd', Hd; [done..|done|]. intros Hin. apply Hnin. apply list_elem_of_In, in_rev. rewrite rev_involutive. by apply list_elem_of_In.
  - intros w Hne. rewrite Hw by done. by apply Hm.
Qed.

(** With fewer than three free descriptors nothing is submitted: what was taken
    is free again. *)
Lemma read_write_refuses F r R b block page dir aw :
  queue_ok F (queue b) -> (length F < 3)%nat -> requests_ok (r :: R) (requests b) (first_free_request b) ->
  exists b', read_write_block hhdm header status block page dir aw b = Some (- ENOMEM, b') /\ refused F r R b b'.
Proof.
  intros Hq Hlen Hr. destruct (alloc_request_ok _ _ _ Hr) as (r0 & E0 & Ea & HR & Hrr & HrR).
  unfold read_write_block. rewrite Ea. cbn [mbind option_bind]. rewrite (proj2 (Z.eqb_neq r 0)) by lia. cbn [queue requests first_free_request invoked].
  set (m := alter _ r (requests b)). assert (HRm : requests_ok R m (r_next r0)) by (by apply alter_request_ok).
  assert (Em : is_Some (m !! r)) by (subst m; rewrite lookup_alter_eq, E0; by eexists).
  assert (Hm : forall w, w <> r -> m !! w = requests b !! w) by (intros w Hw; subst m; by rewrite lookup_alter_ne). clearbody m.
  pose proof (qo_nodup _ _ Hq) as Hnd. pose proof (qo_range _ _ Hq) as Hrange.
  destruct F as [|x F].
  { rewrite (alloc_none _ Hq). cbn [mbind option_bind]. rewrite (qo_length _ _ Hq).
    apply (release_refused [] r R b (queue b) m (r_next r0)); try done; set_solver. }
  destruct (queue_ok_fresh _ _ _ Hq) as [Hx Hxn].
  destruct (alloc_some _ _ _ Hq) as (q1 & E1 & Hq1 & Hr1 & Hd1). rewrite E1. cbn [mbind option_bind].
  rewrite (qo_length _ _ Hq1), (proj2 (Z.eqb_neq x 128)) by lia.
  apply (fill_ok x (header_phys hhdm header r) sizeof_RequestHeader FLAG_NEXT) in Hq1; [|done..].
  destruct F as [|y F].
  { rewrite (alloc_none _ Hq1). cbn [mbind option_bind]. rewrite (qo_length _ _ Hq1).
    apply (release_refused [x] r R b (fill x (header_phys hhdm header r) sizeof_RequestHeader FLAG_NEXT q1) m (r_next r0)); try done. intros w Hw Hne. cbn.
    assert (w <> x) by set_solver. rewrite list_lookup_alter_ne, Hd1 by lia. done. }
  destruct (queue_ok_fresh _ _ _ Hq1) as [Hy Hyn].
  destruct (alloc_some _ _ _ Hq1) as (q2 & E2 & Hq2 & Hr2 & Hd2). rewrite E2. cbn [mbind option_bind].
  rewrite (qo_length _ _ Hq2), (proj2 (Z.eqb_neq y 128)) by lia. fold (page_flags dir).
  apply (fill_ok y page PAGE_SIZE (page_flags dir)) in Hq2; [|done..].
  destruct F as [|z F]; [|cbn in Hlen; lia]. rewrite (alloc_none _ Hq2). cbn [mbind option_bind]. rewrite (qo_length _ _ Hq2).
  apply (release_refused [y; x] r R b (fill y page PAGE_SIZE (page_flags dir) q2) m (r_next r0)); try done.
  - set_solver.
  - cbn in Hr1, Hr2 |- *. unfold same_rings in *. cbn in *. intuition congruence.
  - intros w Hw Hne. cbn. assert (w <> x /\ w <> y) as [? ?] by set_solver.
    rewrite list_lookup_alter_ne, Hd2 by lia. cbn. rewrite list_lookup_alter_ne, Hd1 by lia. done.
Qed.

Lemma header_found r : 0 < r < 18446744073709551616 -> u64 (header_phys hhdm header r + hhdm - header) = r.
Proof.
  intros Hr. unfold header_phys, uN. change (2 ^ 64) with 18446744073709551616.
  rewrite <- Z.add_sub_assoc, Zplus_mod_idemp_l. rewrite <- (Z.mod_small r 18446744073709551616) at 2 by lia. f_equal. lia.
Qed.

(** A completion gives everything of its chain back and invokes its callback. *)
Lemma complete_ok c F R b : queue_ok F (queue b) -> requests_ok R (requests b) (first_free_request b) ->
  described c (queue b) (requests b) -> NoDup (descs c ++ F) -> (forall x, x ∈ descs c -> 0 <= x < 128) ->
  c_request c ∉ R -> 0 < c_request c < 18446744073709551616 ->
  exists b', complete hhdm header (c_1 c) b = Some b' /\ queue_ok (descs c ++ F) (queue b') /\
    requests_ok (c_request c :: R) (requests b') (first_free_request b') /\ invoked b' = invoked b ++ [c_awaiter c] /\
    same_rings (queue b) (queue b') /\ same_descs (fun x => x ∈ descs c) (queue b) (queue b') /\
    (forall w, w <> c_request c -> requests b' !! w = requests b !! w).
Proof.
  destruct c as [x y z r aw p dir blk]. unfold described, descs. cbn [c_1 c_2 c_3 c_request c_awaiter c_page c_direction c_block app].
  intros Hq HR (D1 & D2 & [n3 D3] & [nr Er]) Hnd Hrange Hr Hrr.
  assert (Hx : 0 <= x < 128) by (apply Hrange; set_solver). assert (Hy : 0 <= y < 128) by (apply Hrange; set_solver).
  assert (Hz : 0 <= z < 128) by (apply Hrange; set_solver).
  apply NoDup_cons in Hnd as [Hnx Hnd]. apply NoDup_cons in Hnd as [Hny Hnd]. apply NoDup_cons in Hnd as [Hnz Hnd].
  assert (x <> y /\ x <> z /\ y <> z) as (Hxy & Hxz & Hyz) by set_solver.
  unfold complete. rewrite D1. cbn [mbind option_bind address]. rewrite header_found by done. rewrite Er. cbn [mbind option_bind callback].
  destruct (free_request_ok r _ R (mkBlock (queue b) (requests b) (first_free_request b) (invoked b ++ [aw])) HR Er Hr Hrr) as (m & -> & HR' & Hm).
  cbn [mbind option_bind queue next]. rewrite D2. cbn [mbind option_bind next].
  destruct (free_spec z F (queue b) Hq Hz Hnz) as (q1 & -> & Hq1 & S1 & E1). cbn [mbind option_bind].
  rewrite (E1 x) by (lia || done). rewrite D1. cbn [mbind option_bind next].
  destruct (free_spec y (z :: F) q1 Hq1 Hy Hny) as (q2 & -> & Hq2 & S2 & E2). cbn [mbind option_bind].
  destruct (free_spec x (y :: z :: F) q2 Hq2 Hx Hnx) as (q3 & -> & Hq3 & S3 & E3). cbn [mbind option_bind].
  eexists. split; [reflexivity|]. split; [done|]. split; [done|]. split; [done|].
  split; [cbn; unfold same_rings in *; intuition congruence|]. split; [|done].
  intros w Hw Hnw. cbn. rewrite E3, E2, E1; set_solver.
Qed.

(** ** The device and the driver together *)

(** [taken] is how far the device has read the available ring, [owned] the heads
    of chains it has taken and not completed; [issued] are the waiters of the
    requests submitted.  A call of the driver is taken whole. *)
Record World : Type := mkWorld { driver : BlockDevice; taken : Z; owned : list Z; issued : list Z }.

(** The device puts a chain in the used ring. *)
Definition device_use (h : Z) (b : BlockDevice) : BlockDevice :=
  let q := queue b in
  set_queue (mkQueue (q_length q) (free_desc_index q) (num_free_descs q) (last_seen_used q) (descriptor_array q) (available_ring q)
    (available_index q) (<[Z.to_nat (used_index q mod 128) := h]> (used_ring q)) (u16 (used_index q + 1))) b.

Inductive wstep : World -> World -> Prop :=
| w_read_write w block page dir aw e b' :
    read_write_block hhdm header status block page dir aw (driver w) = Some (e, b') ->
    wstep w (mkWorld b' (taken w) (owned w) (if e =? 0 then issued w ++ [aw] else issued w))
| w_take w h : taken w <> available_index (queue (driver w)) -> available_ring (queue (driver w)) !! Z.to_nat (taken w mod 128) = Some h ->
    wstep w (mkWorld (driver w) (u16 (taken w + 1)) (owned w ++ [h]) (issued w))
| w_use w l1 h l2 : owned w = l1 ++ h :: l2 -> wstep w (mkWorld (device_use h (driver w)) (taken w) (l1 ++ l2) (issued w))
| w_irq w b' : irq hhdm header (driver w) = Some b' -> wstep w (mkWorld b' (taken w) (owned w) (issued w)).

(** [all] are the requests of the page, at least as many as the chains there
    can be. *)
Context (all : list Z) (Hall : forall r, r ∈ all -> 0 < r < 18446744073709551616) (Hmany : (43 <= length all)%nat).

(** [F] are the free descriptors, [R] the free requests, [Cs] the chains that
    are out, [W] the heads waiting in the available ring and [P] those waiting
    in the used ring from [s] on. *)
Record inv (F R : list Z) (Cs : list Chain) (W P : list Z) (s : Z) (w : World) : Prop := {
  i_queue : queue_ok F (queue (driver w));
  i_descs : flat_map descs Cs ++ F ≡ₚ seqZ 0 128;
  i_requests : requests_ok R (requests (driver w)) (first_free_request (driver w));
  i_all : map c_request Cs ++ R ≡ₚ all;
  i_described : forall c, c ∈ Cs -> described c (queue (driver w)) (requests (driver w));
  i_available : window (available_ring (queue (driver w))) (taken w) (available_index (queue (driver w))) W;
  i_used : window (used_ring (queue (driver w))) s (used_index (queue (driver w))) P;
  i_heads : W ++ owned w ++ P ≡ₚ map c_1 Cs;
  i_issued : issued w ≡ₚ invoked (driver w) ++ map c_awaiter Cs
}.
Context (Hnd_all : NoDup all).

Lemma flat_descs_length Cs : length (flat_map descs Cs) = (3 * length Cs)%nat.
Proof. induction Cs as [|c Cs IH]; [done|]. cbn [flat_map descs app length]. rewrite IH. lia. Qed.

Lemma inv_count F R Cs W P s w : inv F R Cs W P s w -> (3 * length Cs + length F = 128)%nat /\ (length W + length (owned w) + length P = length Cs)%nat.
Proof.
  intros [_ Hd _ _ _ _ _ Hh _]. apply Permutation_length in Hd, Hh. rewrite length_app, flat_descs_length, length_seqZ in Hd.
  rewrite !length_app, length_map in Hh. split; [|lia]. change (Z.to_nat 128) with 128%nat in Hd. lia.
Qed.

Lemma inv_request_left F R Cs W P s w : inv F R Cs W P s w -> exists r R', R = r :: R'.
Proof.
  intros Hi. destruct (inv_count _ _ _ _ _ _ _ Hi) as [Hc _]. pose proof (Permutation_length (i_all _ _ _ _ _ _ _ Hi)) as Hl.
  rewrite length_app, length_map in Hl. destruct R as [|r R]; [cbn in Hl; lia|]. by exists r, R.
Qed.

Lemma inv_range F R Cs W P s w c x : inv F R Cs W P s w -> c ∈ Cs -> x ∈ descs c -> 0 <= x < 128 /\ x ∉ F.
Proof.
  intros Hi Hc Hx. pose proof (i_descs _ _ _ _ _ _ _ Hi) as Hd.
  assert (Hin : x ∈ flat_map descs Cs) by (apply list_elem_of_In, in_flat_map; exists c; by rewrite <- !list_elem_of_In).
  split.
  - assert (Hs : x ∈ seqZ 0 128) by (rewrite <- Hd; apply elem_of_app; by left). apply elem_of_seqZ in Hs. lia.
  - assert (Hn : NoDup (flat_map descs Cs ++ F)) by (rewrite Hd; apply NoDup_seqZ).
    apply NoDup_app in Hn as (_ & Hn & _). by apply Hn.
Qed.

Lemma inv_request F R Cs W P s w c : inv F R Cs W P s w -> c ∈ Cs -> 0 < c_request c < 18446744073709551616 /\ c_request c ∉ R.
Proof.
  intros Hi Hc. pose proof (i_all _ _ _ _ _ _ _ Hi) as Ha.
  assert (Hin : c_request c ∈ map c_request Cs) by (apply list_elem_of_In, in_map; by apply list_elem_of_In).
  split; [apply Hall; rewrite <- Ha; apply elem_of_app; by left|].
  rewrite <- Ha in Hnd_all. apply NoDup_app in Hnd_all as (_ & Hn & _). by apply Hn.
Qed.

(** A request is submitted, or refused with nothing changed; either way the
    call succeeds. *)
Lemma inv_read_write F R Cs W P s w block page dir aw : inv F R Cs W P s w -> exists e b',
  read_write_block hhdm header status block page dir aw (driver w) = Some (e, b') /\
  last_seen_used (queue b') = last_seen_used (queue (driver w)) /\ exists F' R' Cs' W',
  inv F' R' Cs' W' P s (mkWorld b' (taken w) (owned w) (if e =? 0 then issued w ++ [aw] else issued w)).
Proof.
  intros Hi. destruct (inv_request_left _ _ _ _ _ _ _ Hi) as (r & R' & ->). destruct (inv_count _ _ _ _ _ _ _ Hi) as [Hc1 Hc2].
  assert (Hrg := fun c x => inv_range _ _ _ _ _ _ _ c x Hi). assert (Hrq := fun c => inv_request _ _ _ _ _ _ _ c Hi).
  destruct Hi as [Hq Hd Hr Ha Hdesc Hav Hus Hh His].
  destruct (decide (length F < 3)%nat) as [Hfew|Hmore].
  - destruct (read_write_refuses F r R' _ block page dir aw Hq Hfew Hr) as (b' & E & Hq' & Hr' & Hinv & (Wa & Wb & Wc & Wd & We) & Hsame & Hsamer).
    exists (- ENOMEM), b'. split; [exact E|]. split; [exact We|]. exists F, (r :: R'), Cs, W.
    constructor; cbn [driver taken owned issued]; [exact Hq'|exact Hd|exact Hr'|exact Ha| |by rewrite Wa, Wb|by rewrite Wc, Wd|exact Hh|by rewrite Hinv].
    intros c Hc. eapply described_frame; [| |by apply Hdesc].
    + intros v Hv. destruct (Hrg c v Hc Hv) as [Hv0 HvF]. by apply Hsame.
    + apply Hsamer. destruct (Hrq c Hc) as [_ Hn]. set_solver.
  - destruct F as [|x [|y [|z F]]]; [cbn in Hmore; lia..|].
    destruct (read_write_submits x y z F r R' _ block page dir aw Hq Hr)
      as (b' & E & Hq' & Hr' & Hinv & Hdsc & (Wa & Wb & Wc & Wd & We) & Hsame & Hsamer).
    exists 0, b'. split; [exact E|]. split; [exact We|]. exists F, R', (mkChain x y z r aw page dir block :: Cs), (W ++ [x]).
    constructor; cbn [driver taken owned issued Z.eqb]; [exact Hq'| |exact Hr'| | | | | |].
    + cbn [flat_map descs c_1 c_2 c_3]. rewrite <- Hd. rewrite <- app_assoc. cbn [app]. by rewrite <- !Permutation_middle.
    + cbn [map c_request app]. by rewrite <- Ha, <- Permutation_middle.
    + intros c [->|Hc]%elem_of_cons; [exact Hdsc|]. eapply described_frame; [| |by apply Hdesc].
      * intros v Hv. destruct (Hrg c v Hc Hv) as [Hv0 HvF]. apply Hsame; [done|]. set_solver.
      * apply Hsamer. destruct (Hrq c Hc) as [_ Hn]. set_solver.
    + rewrite Wa, Wb. apply window_push; [done|]. cbn in Hc1. lia.
    + by rewrite Wc, Wd.
    + cbn [map c_1]. rewrite <- Hh, <- !app_assoc. cbn [app]. by rewrite <- Permutation_middle.
    + rewrite Hinv, His, <- app_assoc. cbn [map c_awaiter]. f_equiv. symmetry. apply Permutation_cons_append.
Qed.

(** The interrupt serves what is waiting in the used ring. *)
Lemma inv_complete F R Cs W h P s b t o iss : inv F R Cs W (h :: P) s (mkWorld b t o iss) -> exists b' c Cs',
  used_ring (queue b) !! Z.to_nat (s mod 128) = Some h /\ complete hhdm header (u16 h) b = Some b' /\
  inv (descs c ++ F) (c_request c :: R) Cs' W P (u16 (s + 1)) (mkWorld b' t o iss) /\
  same_rings (queue b) (queue b').
Proof.
  intros Hi. destruct (inv_count _ _ _ _ _ _ _ Hi) as [Hc1 Hc2].
  assert (Hrg := fun c x => inv_range _ _ _ _ _ _ _ c x Hi). assert (Hrq := fun c => inv_request _ _ _ _ _ _ _ c Hi).
  destruct Hi as [Hq Hd Hr Ha Hdesc Hav Hus Hh His]. cbn [driver taken owned issued] in *.
  assert (Hin : h ∈ map c_1 Cs) by (rewrite <- Hh; set_solver).
  apply list_elem_of_fmap in Hin as (c & -> & Hc). destruct (list_elem_of_split _ _ Hc) as (C1 & C2 & E).
  assert (HC : Cs ≡ₚ c :: (C1 ++ C2)) by (rewrite E; symmetry; apply Permutation_middle).
  pose proof (Permutation_flat_map descs HC) as HCd. cbn [flat_map] in HCd.
  assert (Hnd : NoDup (descs c ++ flat_map descs (C1 ++ C2) ++ F)) by (rewrite app_assoc, <- HCd, Hd; apply NoDup_seqZ).
  assert (Hndr : NoDup (c_request c :: map c_request (C1 ++ C2) ++ R)).
  { rewrite <- Ha in Hnd_all. pose proof (Permutation_map c_request HC) as Hp. cbn [map] in Hp. by rewrite Hp in Hnd_all. }
  destruct (Hrq c Hc) as [Hrange Hnr]. pose proof (Hrg c (c_1 c) Hc ltac:(set_solver)) as [Hh0 _].
  apply NoDup_app in Hnd as (Hnd1 & Hnd2 & Hnd3). apply NoDup_cons in Hndr as [Hndr _].
  destruct (complete_ok c F R b Hq Hr (Hdesc c Hc)) as (b' & Eb & Hq' & Hr' & Hinv & (Wa & Wb & Wc & Wd & We) & Hsame & Hsamer);
    [|intros x Hx; by apply (Hrg c)|done|done|].
  { apply NoDup_app. split; [done|]. split; [intros x Hx; by apply (Hrg c)|]. by apply NoDup_app in Hnd3 as (_ & _ & ?). }
  destruct (window_pop _ _ _ _ _ Hus) as [Hring Hus']. exists b', c, (C1 ++ C2). split; [done|].
  split; [rewrite uN_small; [done|change (2 ^ 16) with 65536; lia]|]. split; [|done].
  constructor; cbn [driver taken owned issued]; [exact Hq'| |exact Hr'| | |by rewrite Wa, Wb|by rewrite Wc, Wd| |].
  - rewrite <- Hd, HCd, <- !app_assoc. rewrite (app_assoc (flat_map _ _)), (app_assoc (descs c)). f_equiv. apply Permutation_app_comm.
  - rewrite <- Ha. rewrite <- Permutation_middle. by rewrite (Permutation_map c_request HC).
  - intros c' Hc'. assert (HcC : c' ∈ Cs) by (rewrite HC; by right). eapply described_frame; [| |by apply Hdesc].
    + intros v Hv. destruct (Hrg c' v HcC Hv) as [Hv0 _]. apply Hsame; [done|]. intros Hvc. apply (Hnd2 v Hvc).
      apply elem_of_app. left. apply list_elem_of_In, in_flat_map. exists c'. by rewrite <- !list_elem_of_In.
    + apply Hsamer. intros He. apply Hndr. rewrite <- He. apply elem_of_app. left. apply list_elem_of_In, in_map. by apply list_elem_of_In.
  - pose proof (Permutation_map c_1 HC) as Hp. cbn [map] in Hp. rewrite Hp in Hh.
    apply (Permutation_cons_inv (a := c_1 c)). rewrite <- Hh, app_assoc, app_assoc. apply Permutation_middle.
  - rewrite His, Hinv, <- app_assoc. f_equiv. by rewrite (Permutation_map c_awaiter HC).
Qed.

Lemma inv_irq_loop P : forall turns F R Cs W s b t o iss, inv F R Cs W P s (mkWorld b t o iss) -> (length P < turns)%nat ->
  exists b' F' R' Cs', irq_loop hhdm header turns (s mod 128) b = Some (used_index (queue b) mod 128, b') /\
  inv F' R' Cs' W [] (used_index (queue b)) (mkWorld b' t o iss) /\ same_rings (queue b) (queue b').
Proof.
  induction P as [|h P IH]; intros turns F R Cs W s b t o iss Hi Ht; (destruct turns as [|turns]; [lia|]); cbn [irq_loop];
    pose proof (qo_length _ _ (i_queue _ _ _ _ _ _ _ Hi)) as Hql; cbn [driver] in Hql; rewrite Hql.
  - pose proof (window_nil _ _ _ (i_used _ _ _ _ _ _ _ Hi)) as Hs. cbn [driver] in Hs. rewrite <- Hs, Z.eqb_refl.
    by exists b, F, R, Cs.
  - destruct (inv_count _ _ _ _ _ _ _ Hi) as [Hc1 Hc2]. cbn [length owned] in Hc2.
    pose proof (window_nonempty _ _ _ _ _ (i_used _ _ _ _ _ _ _ Hi) ltac:(lia)) as Hne. cbn [driver] in Hne.
    rewrite (proj2 (Z.eqb_neq _ _)) by done.
    destruct (inv_complete _ _ _ _ _ _ _ _ _ _ _ Hi) as (b1 & c & Cs1 & Hring & Hc & Hi1 & Hs1). rewrite Hring. cbn [mbind option_bind].
    rewrite Hc. cbn [mbind option_bind]. destruct Hs1 as (Wa & Wb & Wc & Wd & We).
    destruct (IH turns _ _ _ _ _ _ _ _ _ Hi1 ltac:(cbn in Ht; lia)) as (b2 & F' & R' & Cs' & E & Hi2 & Hs2).
    rewrite u16_mod, <- (Zplus_mod_idemp_l s) in E. rewrite E, Wd. rewrite Wd in Hi2. exists b2, F', R', Cs'.
    split; [done|]. split; [done|]. unfold same_rings in *. intuition congruence.
Qed.

Definition good (w : World) : Prop := exists F R Cs W P s, inv F R Cs W P s w /\ last_seen_used (queue (driver w)) = s mod 128.

Lemma good_irq F R Cs W P s w : inv F R Cs W P s w -> last_seen_used (queue (driver w)) = s mod 128 -> exists b' F' R' Cs',
  irq hhdm header (driver w) = Some b' /\ inv F' R' Cs' W [] (used_index (queue (driver w))) (mkWorld b' (taken w) (owned w) (issued w)) /\
  last_seen_used (queue b') = used_index (queue b') mod 128 /\ used_index (queue b') = used_index (queue (driver w)).
Proof.
  intros Hi Hs. unfold irq. rewrite Hs. destruct w as [b t o iss]. cbn [driver taken owned issued] in *.
  destruct (inv_count _ _ _ _ _ _ _ Hi) as [Hc1 Hc2].
  destruct (inv_irq_loop P 128 _ _ _ _ _ _ _ _ _ Hi ltac:(lia)) as (b' & F' & R' & Cs' & -> & Hi' & (Wa & Wb & Wc & Wd & We)).
  cbn [mbind option_bind]. eexists _, F', R', Cs'. split; [reflexivity|]. split; [|cbn; by rewrite Wd].
  destruct Hi' as [Hq Hd Hr Ha Hdesc Hav Hus Hh His]. constructor; try done. by destruct Hq.
Qed.

Lemma good_step w w' : good w -> wstep w w' -> good w'.
Proof.
  intros (F & R & Cs & W & P & s & Hi & Hl) Hw. destruct Hw as [w block page dir aw e b' E|w h Hne Hh|w l1 h l2 Ho|w b' E].
  - destruct (inv_read_write F R Cs W P s w block page dir aw Hi) as (e' & b2 & E' & Hs & F' & R' & Cs' & W' & Hi'). rewrite E in E'.
    injection E' as <- <-. exists F', R', Cs', W', P, s. split; [done|]. cbn. by rewrite Hs.
  - destruct W as [|x W].
    { exfalso. apply Hne. apply window_nil with (l := available_ring (queue (driver w))). apply Hi. }
    destruct Hi as [Hq Hd Hr Ha Hdesc Hav Hus Hp His]. destruct (window_pop _ _ _ _ _ Hav) as [Hx Hav']. rewrite Hx in Hh. injection Hh as ->.
    exists F, R, Cs, W, P, s. split; [|done]. constructor; cbn [driver taken owned issued]; try done.
    rewrite <- Hp, <- app_assoc. cbn [app]. by rewrite <- !Permutation_middle.
  - destruct (inv_count _ _ _ _ _ _ _ Hi) as [Hc1 Hc2]. destruct Hi as [Hq Hd Hr Ha Hdesc Hav Hus Hp His].
    exists F, R, Cs, W, (P ++ [h]), s. split; [|done]. constructor; cbn [driver taken owned issued]; try done.
    + by destruct Hq.
    + apply window_push; [done|lia].
    + rewrite <- Hp, Ho, <- !app_assoc. f_equiv. cbn [app]. rewrite <- (Permutation_middle l1). rewrite !(app_assoc _ P), (app_assoc l1).
      symmetry. apply Permutation_cons_append.
  - destruct (good_irq _ _ _ _ _ _ _ Hi Hl) as (b2 & F' & R' & Cs' & E' & Hi' & Hl' & Hu). rewrite E in E'. injection E' as <-.
    exists F', R', Cs', W, [], (used_index (queue (driver w))). split; [done|]. cbn [driver]. by rewrite Hl', Hu.
Qed.

(** While the requests are more than the chains there can be, the driver does
    not get stuck, the descriptors are either free or in a chain that is out,
    and an interrupt invokes what was completed. *)
Lemma good_facts w : good w ->
  num_free_descs (queue (driver w)) + 3 * (Z.of_nat (length (issued w)) - Z.of_nat (length (invoked (driver w)))) = 128 /\
  invoked (driver w) ⊆+ issued w /\
  (forall block page dir aw, is_Some (read_write_block hhdm header status block page dir aw (driver w))) /\
  (forall h, h ∈ owned w -> exists c, described c (queue (driver w)) (requests (driver w)) /\ c_1 c = h /\ c_awaiter c ∈ issued w) /\
  exists b', irq hhdm header (driver w) = Some b' /\ last_seen_used (queue b') = used_index (queue b') mod 128 /\
    (owned w = [] -> taken w = available_index (queue (driver w)) -> invoked b' ≡ₚ issued w).
Proof.
  intros (F & R & Cs & W & P & s & Hi & Hl). destruct (inv_count _ _ _ _ _ _ _ Hi) as [Hc1 Hc2].
  pose proof (i_issued _ _ _ _ _ _ _ Hi) as His. split; [|split; [|split; [|split]]].
  - rewrite (qo_count _ _ (i_queue _ _ _ _ _ _ _ Hi)). apply Permutation_length in His. rewrite length_app, length_map in His. lia.
  - rewrite His. apply submseteq_inserts_r. done.
  - intros block page dir aw. destruct (inv_read_write F R Cs W P s w block page dir aw Hi) as (e & b' & -> & _). by eexists.
  - intros h Hh. assert (Hm : h ∈ map c_1 Cs) by (rewrite <- (i_heads _ _ _ _ _ _ _ Hi); set_solver).
    apply list_elem_of_fmap in Hm as (c & -> & Hc). exists c. split; [by apply (i_described _ _ _ _ _ _ _ Hi)|]. split; [done|].
    rewrite His. apply elem_of_app. right. apply list_elem_of_In, in_map. by apply list_elem_of_In.
  - destruct (good_irq _ _ _ _ _ _ _ Hi Hl) as (b' & F' & R' & Cs' & E & Hi' & Hl' & Hu). exists b'. split; [done|]. split; [done|].
    intros Ho Ht. destruct (inv_count _ _ _ _ _ _ _ Hi') as [_ Hc']. cbn [owned length] in Hc'. rewrite Ho in Hc'.
    assert (W = []) as ->.
    { destruct W as [|x W]; [done|]. pose proof (window_nonempty _ _ _ _ _ (i_available _ _ _ _ _ _ _ Hi) ltac:(cbn in Hc2; lia)) as Hne.
      by rewrite Ht in Hne. }
    destruct Cs' as [|]; [|cbn in Hc'; lia]. pose proof (i_issued _ _ _ _ _ _ _ Hi') as His'. cbn in His'. by rewrite app_nil_r in His'.
Qed.
End BlockFacts.

(** ** The initial state *)

Lemma linked_seq f nx stop n : forall a, (forall i, a <= i < a + Z.of_nat (S n) -> nx (f i) = Some (if i =? a + Z.of_nat n then stop else f (i + 1))) ->
  linked nx stop (f a) (map f (seqZ a (Z.of_nat (S n)))).
Proof.
  induction n as [|n IH]; intros a Hnx.
  - rewrite seqZ_cons by lia. cbn. split; [done|]. exists stop. rewrite Hnx, (proj2 (Z.eqb_eq _ _)) by lia. done.
  - rewrite seqZ_cons by lia. cbn [map linked]. split; [done|]. exists (f (a + 1)).
    rewrite Hnx, (proj2 (Z.eqb_neq _ _)) by lia. split; [done|]. replace (Z.succ a) with (a + 1) by lia.
    replace (Z.pred (Z.of_nat (S (S n)))) with (Z.of_nat (S n)) by lia. apply IH. intros i Hi. rewrite Hnx by lia.
    replace (a + 1 + Z.of_nat n) with (a + Z.of_nat (S n)) by lia. done.
Qed.

Lemma Queue_init_ok : queue_ok (seqZ 0 128) Queue_init.
Proof.
  constructor; try done.
  - replace (seqZ 0 128) with (map id (seqZ 0 128)) by apply map_id. apply (linked_seq id _ 128 127 0).
    intros i Hi. unfold desc_next, Queue_init, id. cbn [descriptor_array free_desc_index].
    rewrite list_lookup_fmap, lookup_seqZ_lt by lia. cbn. rewrite Z2Nat.id by lia.
    destruct (i =? _) eqn:E; [apply Z.eqb_eq in E; f_equal; lia|done].
  - intros x Hx. apply elem_of_seqZ in Hx. lia.
  - apply NoDup_seqZ.
Qed.

(** The requests of a page. *)
Definition request_at (base request_size i : Z) : Z := base + request_size * i.

Lemma init_lookup base size n i : 0 < size -> 0 <= i < Z.of_nat n ->
  requests (BlockDevice_init size base n) !! request_at base size i =
  Some (mkRequest (if i =? Z.of_nat n - 1 then 0 else request_at base size (i + 1)) 0 0 0).
Proof.
  intros Hs Hi. apply elem_of_list_to_map.
  - rewrite map_map. cbn [fst]. apply (NoDup_fmap_2_strong (fun i => base + size * i)); [|apply NoDup_seqZ]. intros x y _ _. nia.
  - apply list_elem_of_fmap. exists i. split; [done|]. apply elem_of_seqZ. lia.
Qed.

Lemma init_good hhdm header status size base n : 0 < size -> 0 < base -> base + size * Z.of_nat n <= 18446744073709551616 -> (0 < n)%nat ->
  good hhdm header status (map (request_at base size) (seqZ 0 (Z.of_nat n))) (mkWorld (BlockDevice_init size base n) 0 [] []).
Proof.
  intros Hs Hb He Hn. exists (seqZ 0 128), (map (request_at base size) (seqZ 0 (Z.of_nat n))), [], [], [], 0. split; [|done].
  constructor; try done; [apply Queue_init_ok| |intros c Hc; by apply not_elem_of_nil in Hc].
  constructor.
  - destruct n as [|n]; [lia|]. cbn [first_free_request driver].
    replace (first_free_request (BlockDevice_init size base (S n))) with (request_at base size 0) by (unfold request_at; cbn; lia).
    apply linked_seq. intros i Hi. unfold req_next. cbn [driver]. rewrite init_lookup by lia. cbn [fmap option_fmap option_map r_next].
    by replace (Z.of_nat (S n) - 1) with (0 + Z.of_nat n) by lia.
  - intros r (i & -> & Hi%elem_of_seqZ)%list_elem_of_fmap. unfold request_at. nia.
  - apply (NoDup_fmap_2_strong (request_at base size)); [|apply NoDup_seqZ]. unfold request_at. intros x y _ _. nia.
Qed.

(** C33: Whatever the order of the driver's calls, the device's answers and the
    interrupts, with at least 43 requests: the free descriptors and three for
    each request whose callback has not been invoked are 128; no callback is
    invoked more often than its request was submitted; a call to read or write
    always returns; what the device has is a chain of one such request; and an
    interrupt leaves nothing completed behind, so that once the device is done
    with everything all the callbacks have been invoked. *)
Theorem block_device_conserves hhdm header status size base n w :
  0 < size -> 0 < base -> base + size * Z.of_nat n <= 18446744073709551616 -> (43 <= n)%nat ->
  rtc (wstep hhdm header status) (mkWorld (BlockDevice_init size base n) 0 [] []) w ->
  num_free_descs (queue (driver w)) + 3 * (Z.of_nat (length (issued w)) - Z.of_nat (length (invoked (driver w)))) = 128 /\
  invoked (driver w) ⊆+ issued w /\
  (forall block page dir aw, is_Some (read_write_block hhdm header status block page dir aw (driver w))) /\
  (forall h, h ∈ owned w -> exists c, described hhdm header status c (queue (driver w)) (requests (driver w)) /\ c_1 c = h /\ c_awaiter c ∈ issued w) /\
  exists b', irq hhdm header (driver w) = Some b' /\ last_seen_used (queue b') = used_index (queue b') mod 128 /\
    (owned w = [] -> taken w = available_index (queue (driver w)) -> invoked b' ≡ₚ issued w).
Proof.
  intros Hs Hb He Hn Hw. set (all := map (request_at base size) (seqZ 0 (Z.of_nat n))).
  assert (Hall : forall r, r ∈ all -> 0 < r < 18446744073709551616).
  { intros r (i & -> & Hi%elem_of_seqZ)%list_elem_of_fmap. unfold request_at. nia. }
  assert (Hlen : (43 <= length all)%nat) by (subst all; rewrite length_map, length_seqZ; lia).
  assert (Hnd : NoDup all).
  { apply (NoDup_fmap_2_strong (request_at base size)); [|apply NoDup_seqZ]. unfold request_at. intros x y _ _. nia. }
  apply (good_facts hhdm header status all Hall Hlen Hnd).
  apply rtc_ind_r with (P := good hhdm header status all) in Hw; [done|apply init_good; lia|].
  intros y z _ Hyz Hy. by eapply good_step.
Qed.

(** ** A run *)

Definition hhdm0 : Z := 18446603336221196288.
Definition base0 : Z := hhdm0 + 1048576.
Definition world0 : World := mkWorld (BlockDevice_init 48 base0 85) 0 [] [].
Definition submit0 (aw : Z) (w : World) : World :=
  match read_write_block hhdm0 24 40 3 8192 READ aw (driver w) with
  | Some (e, b) => mkWorld b (taken w) (owned w) (if e =? 0 then issued w ++ [aw] else issued w)
  | None => w
  end.
Definition served0 (w : World) : World := mkWorld (device_use 0 (driver w)) 1 [] (issued w).

(** 42 requests fit the 128 descriptors; the next is refused and changes
    nothing that is free. *)
Example forty_two_requests :
  let w := Nat.iter 42 (submit0 7) world0 in
  num_free_descs (queue (driver w)) = 2 /\ length (issued w) = 42%nat /\
  (exists b', read_write_block hhdm0 24 40 3 8192 READ 7 (driver w) = Some (- ENOMEM, b') /\ num_free_descs (queue b') = 2).
Proof. vm_compute. split; [done|]. split; [done|]. eexists. split; reflexivity. Qed.

(** One request is made, taken and completed; the interrupt resumes its
    waiter. *)
Example request_served :
  let w := served0 (submit0 7 world0) in
  invoked <$> irq hhdm0 24 (driver w) = Some [7] /\ (num_free_descs ∘ queue) <$> irq hhdm0 24 (driver w) = Some 128.
Proof. vm_compute. done. Qed.

(** With no request left the deferred release writes through a null pointer:
    the code relies on there being more requests than chains. *)
Lemma no_request_stuck hhdm header status block page dir aw b : first_free_request b = 0 -> requests b !! 0 = None ->
  read_write_block hhdm header status block page dir aw b = None.
Proof. intros Hf Hn. unfold read_write_block, alloc_request, release_on_error, free_request. rewrite Hf. cbn. by rewrite Hn. Qed.

Lemma block_device_conserves_witness : exists w, issued w = [7] /\
  num_free_descs (queue (driver w)) + 3 * (Z.of_nat (length (issued w)) - Z.of_nat (length (invoked (driver w)))) = 128 /\
  invoked (driver w) ⊆+ issued w /\
  (forall block page dir aw, is_Some (read_write_block hhdm0 24 40 block page dir aw (driver w))) /\
  (forall h, h ∈ owned w -> exists c, described hhdm0 24 40 c (queue (driver w)) (requests (driver w)) /\ c_1 c = h /\ c_awaiter c ∈ issued w) /\
  exists b', irq hhdm0 24 (driver w) = Some b' /\ last_seen_used (queue b') = used_index (queue b') mod 128 /\
    (owned w = [] -> taken w = available_index (queue (driver w)) -> invoked b' ≡ₚ issued w).
Proof.
  exists (submit0 7 world0). split; [vm_compute; reflexivity|].
  apply (block_device_conserves hhdm0 24 40 48 base0 85); [lia|unfold base0, hhdm0; lia|unfold base0, hhdm0; lia|lia|].
  apply rtc_once. assert (E : is_Some (read_write_block hhdm0 24 40 3 8192 READ 7 (driver world0))) by (vm_compute; by eexists).
  change (mkWorld (BlockDevice_init 48 base0 85) 0 [] []) with world0. destruct E as [[e b] E]. unfold submit0. rewrite E.
  by apply (w_read_write hhdm0 24 40 world0 3 8192 READ 7 e b).
Defined.
