(* ===== verification/VirtioNet.v ===== *)
(** The setup of virtio devices and the network device
    (src/kernel/src/dev/virtio.cpp) over the queues of Virtio.v: the negotiation
    of features, packets sent with the callback kept for each descriptor, and
    buffers received and given back. *)
From S2P Require Import Prelude Virtio.
From S2P Require Net.

(** ** Setup *)

(** The registers of the common configuration, by offset. *)
Definition DEVICE_FEATURE_SELECT : Z := 0.
Definition DEVICE_FEATURES : Z := 4.
Definition DRIVER_FEATURE_SELECT : Z := 8.
Definition DRIVER_FEATURES : Z := 12.
Definition DEVICE_STATUS : Z := 20.
Definition QUEUE_SELECT : Z := 22.
Definition QUEUE_SIZE : Z := 24.
Definition QUEUE_MSIX_VECTOR : Z := 26.
Definition QUEUE_ENABLE : Z := 28.
Definition QUEUE_NOTIFY_OFFSET : Z := 30.
Definition QUEUE_DESC : Z := 32.
Definition QUEUE_AVAIL : Z := 40.
Definition QUEUE_USED : Z := 48.
Definition ACKNOWLEDGE : Z := 1.
Definition DRIVER : Z := 2.
Definition DRIVER_OK : Z := 4.
Definition FEATURES_OK : Z := 8.
Definition VERSION_1 : Z := Z.shiftl 1 32.
Definition NET_MAC : Z := Z.shiftl 1 5.

(** What the device answers depends on what was written to it before: [reads]
    gives the value of a register after a sequence of writes. *)
Section Setup.
Context (reads : list (Z * Z) -> Z -> Z).
Definition write (reg v : Z) (ws : list (Z * Z)) : list (Z * Z) := ws ++ [(reg, v)].
Definition set_status (bit : Z) (ws : list (Z * Z)) : list (Z * Z) :=
  write DEVICE_STATUS (u32 (Z.lor (reads ws DEVICE_STATUS) bit)) ws.

(** [Device::init], after the capabilities are found: the features negotiated,
    0 when the device refuses them. *)
Definition Device_init (features : Z) (ws : list (Z * Z)) : Z * list (Z * Z) :=
  let ws := set_status DRIVER (set_status ACKNOWLEDGE (write DEVICE_STATUS 0 ws)) in
  let ws := write DEVICE_FEATURE_SELECT 0 ws in
  let low := reads ws DEVICE_FEATURES in
  let ws := write DEVICE_FEATURE_SELECT 1 ws in
  let offered := Z.lor low (u64 (Z.shiftl (reads ws DEVICE_FEATURES) 32)) in
  let negotiated := Z.land offered features in
  let ws := write DRIVER_FEATURE_SELECT 0 ws in
  let ws := write DRIVER_FEATURES (Z.land negotiated 4294967295) ws in
  let ws := write DRIVER_FEATURE_SELECT 1 ws in
  let ws := write DRIVER_FEATURES (Z.land (Z.shiftr negotiated 32) 4294967295) ws in
  let ws := set_status FEATURES_OK ws in
  if Z.land (reads ws DEVICE_STATUS) FEATURES_OK =? 0 then (0, ws) else (negotiated, ws).

(** [add_queue]: the three addresses are physical; the result is where to
    notify.  [page] is the physical address of the queue's page. *)
Definition sizeof_Descriptor : Z := 16.
Definition sizeof_AvailableRing : Z := 4.
Definition available_at (page len : Z) : Z := page + len * sizeof_Descriptor.
Definition used_at (page len : Z) : Z := available_at page len + sizeof_AvailableRing + 2 * len.
Definition add_queue (len msix_vec page index : Z) (ws : list (Z * Z)) : Z * list (Z * Z) :=
  let ws := write QUEUE_SELECT index ws in
  let offset := reads ws QUEUE_NOTIFY_OFFSET in
  let ws := write QUEUE_SIZE len ws in
  let ws := write QUEUE_MSIX_VECTOR msix_vec ws in
  let ws := write QUEUE_DESC page ws in
  let ws := write QUEUE_AVAIL (available_at page len) ws in
  let ws := write QUEUE_USED (used_at page len) ws in
  (offset, write QUEUE_ENABLE 1 ws).

(** The network device asks for two features and gives up on others. *)
Definition required_features : Z := Z.lor VERSION_1 NET_MAC.
Definition net_negotiates (ws : list (Z * Z)) : bool * list (Z * Z) :=
  let '(negotiated, ws) := Device_init required_features ws in (negotiated =? required_features, ws).
End Setup.

(** The three arrays of 128 entries fit the queue's page and do not overlap. *)
Lemma queue_fits_page page : 0 <= page -> page mod 4096 = 0 ->
  page + 128 * sizeof_Descriptor <= available_at page 128 /\
  available_at page 128 + sizeof_AvailableRing + 2 * 128 <= used_at page 128 /\
  used_at page 128 + 4 + 8 * 128 <= page + 4096 /\
  (page mod 16 = 0 /\ available_at page 128 mod 2 = 0 /\ used_at page 128 mod 4 = 0).
Proof.
  intros Hp Hm. unfold used_at, available_at, sizeof_Descriptor, sizeof_AvailableRing.
  assert (exists k, page = k * 4096) as [k ->] by (exists (page / 4096); pose proof (Z.div_mod page 4096 ltac:(lia)); lia).
  repeat split; try lia.
  - replace (k * 4096) with (k * 256 * 16) by lia. apply Z_mod_mult.
  - replace (k * 4096 + 128 * 16) with ((k * 2048 + 1024) * 2) by lia. apply Z_mod_mult.
  - replace (k * 4096 + 128 * 16 + 4 + 2 * 128) with ((k * 1024 + 577) * 4) by lia. apply Z_mod_mult.
Qed.

(** ** Packets *)

Definition sizeof_PacketHeader : Z := 12.
Definition sizeof_EthHeader : Z := 14.
Record Packet : Type := mkPacket { p_addr : Z; p_size : Z; p_offset : Z }.

Record NetDevice : Type := mkNet {
  rx_queue : Queue;
  tx_queue : Queue;
  tx_callbacks : list (option Z);
  tx_invoked : list Z;
  io_service : list Z
}.
Definition set_tx (q : Queue) (n : NetDevice) : NetDevice := mkNet (rx_queue n) q (tx_callbacks n) (tx_invoked n) (io_service n).
Definition set_rx (q : Queue) (n : NetDevice) : NetDevice := mkNet q (tx_queue n) (tx_callbacks n) (tx_invoked n) (io_service n).

(** [alloc_packet] with the page it got; a size over the mtu fails the
    assertion. *)
Definition alloc_packet (mtu hhdm : Z) (page : option Z) (requested_size : Z) : option Packet :=
  if requested_size <=? mtu then
    Some (match page with
          | None => mkPacket 0 0 0
          | Some p => mkPacket (hhdm + p) (sizeof_PacketHeader + sizeof_EthHeader + requested_size) (sizeof_PacketHeader + sizeof_EthHeader)
          end)
  else None.

(** The bytes before the payload: the device's header, of zeros and the length
    of the headers, then the Ethernet header. *)
Definition le16 (v : Z) : list Z := [v mod 256; v / 256 mod 256].
Definition headers (target_mac mac : list Z) (proto : Z) : list Z :=
  [0; 0] ++ le16 (sizeof_PacketHeader + sizeof_EthHeader) ++ replicate 8 0 ++ target_mac ++ mac ++ Net.be16 proto.
Definition write_headers (target_mac mac : list Z) (proto : Z) (bs : list Z) : list Z :=
  headers target_mac mac proto ++ drop 26 bs.

(** [send_packet] in two parts: the packet is submitted, and only then is the
    callback of its descriptor led to the awaitable that is returned.  The first
    gives an error, or the descriptor. *)
Definition tx_submit (hhdm : Z) (packet : Packet) (n : NetDevice) : option ((Z + Z) * NetDevice) :=
  '(desc, q) ← alloc_descriptor (tx_queue n);
  if desc =? q_length q then Some (inl (- ENOMEM), set_tx q n)
  else
    let q := fill desc (u64 (p_addr packet - hhdm)) (u32 (p_size packet)) 0 q in
    Some (inr desc, set_tx (submit_descriptor desc q) n).
Definition tx_await (desc awaiter : Z) (n : NetDevice) : NetDevice :=
  mkNet (rx_queue n) (tx_queue n) (<[Z.to_nat desc := Some awaiter]> (tx_callbacks n)) (tx_invoked n) (io_service n).
Definition send_packet (hhdm : Z) (packet : Packet) (awaiter : Z) (n : NetDevice) : option (Z * NetDevice) :=
  '(r, n) ← tx_submit hhdm packet n;
  match r with inl e => Some (e, n) | inr desc => Some (0, tx_await desc awaiter n) end.

(** [tx_irq]: the callback of the descriptor is invoked, and the descriptor is
    free. *)
Fixpoint tx_loop (turns : nat) (i : Z) (n : NetDevice) : option (Z * NetDevice) :=
  match turns with
  | O => None
  | S turns =>
      let q := tx_queue n in
      if i =? used_index q mod q_length q then Some (i, n)
      else
        id ← used_ring q !! Z.to_nat i;
        let desc := u16 id in
        cb ← tx_callbacks n !! Z.to_nat desc;
        q1 ← free_descriptor desc q;
        tx_loop turns ((i + 1) mod q_length q)
          (mkNet (rx_queue n) q1 (tx_callbacks n) (tx_invoked n ++ option_list cb) (io_service n))
  end.
Definition tx_irq (n : NetDevice) : option NetDevice :=
  '(i, n1) ← tx_loop 128 (last_seen_used (tx_queue n)) n;
  Some (set_tx (set_seen i (tx_queue n1)) n1).

(** The last loop of [init]: a page for every descriptor, until none is left or
    there are no pages. *)
Fixpoint rx_fill (pages : list Z) (turns : nat) (q : Queue) {struct turns} : option Queue :=
  match turns with
  | O => None
  | S turns =>
      '(desc, q) ← alloc_descriptor q;
      if desc =? q_length q then Some q
      else
        match pages with
        | [] => Some q
        | page :: pages => rx_fill pages turns (submit_descriptor desc (fill desc page PAGE_SIZE FLAG_DEVICE_WRITE q))
        end
  end.

(** [rx_irq] gives the service a task for each buffer received; a task has the
    frame processed and submits the buffer again.  A task is its descriptor. *)
Fixpoint rx_loop (turns : nat) (n : NetDevice) : option NetDevice :=
  match turns with
  | O => None
  | S turns =>
      let q := rx_queue n in
      let i := last_seen_used q in
      if i =? used_index q mod q_length q then Some n
      else
        id ← used_ring q !! Z.to_nat i;
        rx_loop turns (mkNet (set_seen ((i + 1) mod q_length q) q) (tx_queue n) (tx_callbacks n) (tx_invoked n) (io_service n ++ [u16 id]))
  end.
Definition rx_irq (n : NetDevice) : option NetDevice := rx_loop 128 n.

(** The frame starts after the device's header. *)
Definition rx_frame (hhdm desc : Z) (n : NetDevice) : option Z :=
  d ← descriptor_array (rx_queue n) !! Z.to_nat desc; Some (u64 (address d + hhdm + sizeof_PacketHeader)).
Definition rx_done (desc : Z) (n : NetDevice) : NetDevice := set_rx (submit_descriptor desc (rx_queue n)) n.

(** ** What the setup does *)

(** The negotiation writes these registers in this order, whatever the device
    answers, and the driver's features are the two halves of those both know;
    the result is those, or 0 when the device clears FEATURES_OK. *)
Theorem Device_init_writes reads features ws r ws' : 0 <= features < 2 ^ 64 -> (forall ws reg, 0 <= reads ws reg < 2 ^ 32) ->
  Device_init reads features ws = (r, ws') -> exists s1 s2 s3 offered,
  let negotiated := Z.land offered features in
  ws' = ws ++ [(DEVICE_STATUS, 0); (DEVICE_STATUS, s1); (DEVICE_STATUS, s2); (DEVICE_FEATURE_SELECT, 0); (DEVICE_FEATURE_SELECT, 1);
               (DRIVER_FEATURE_SELECT, 0); (DRIVER_FEATURES, negotiated mod 2 ^ 32); (DRIVER_FEATURE_SELECT, 1);
               (DRIVER_FEATURES, negotiated / 2 ^ 32); (DEVICE_STATUS, s3)] /\
  Z.testbit s1 0 = true /\ Z.testbit s2 1 = true /\ Z.testbit s3 3 = true /\ (r = negotiated \/ r = 0).
Proof.
  intros Hf Hr. unfold Device_init, set_status, write. rewrite <- !app_assoc. cbn [app].
  set (s1 := u32 (Z.lor _ ACKNOWLEDGE)). set (s2 := u32 (Z.lor _ DRIVER)). set (offered := Z.lor _ (u64 _)).
  set (s3 := u32 (Z.lor _ FEATURES_OK)). intros E. exists s1, s2, s3, offered. cbn zeta.
  assert (Hneg : 0 <= Z.land offered features < 2 ^ 64).
  { split; [apply Z.land_nonneg; lia|]. destruct (decide (Z.land offered features = 0)) as [->|Hne]; [lia|].
    assert (0 <= Z.land offered features) by (apply Z.land_nonneg; lia). apply Z.log2_lt_pow2; [lia|].
    assert (0 < features) by (destruct (decide (features = 0)) as [->|]; [rewrite Z.land_0_r in Hne; lia|lia]).
    assert (0 <= offered). { apply Z.lor_nonneg. split; [apply Hr|]. apply (uN_range 64). lia. }
    pose proof (Z.log2_land offered features ltac:(done) ltac:(lia)) as Hl. pose proof (proj1 (Z.log2_lt_pow2 features 64 ltac:(lia)) ltac:(lia)). lia. }
  split.
  - destruct (Z.land (reads _ _) _ =? 0); injection E as _ <-; change 4294967295 with (Z.ones 32); rewrite !Z.land_ones by lia;
      rewrite (Z.mod_small (Z.shiftr _ _)) by (rewrite Z.shiftr_div_pow2 by lia; split; [apply Z.div_pos; lia|apply Z.div_lt_upper_bound; lia]);
      by rewrite Z.shiftr_div_pow2 by lia.
  - split; [|split; [|split]].
    + subst s1. unfold uN. rewrite Z.mod_pow2_bits_low, Z.lor_spec by lia. apply orb_true_r.
    + subst s2. unfold uN. rewrite Z.mod_pow2_bits_low, Z.lor_spec by lia. apply orb_true_r.
    + subst s3. unfold uN. rewrite Z.mod_pow2_bits_low, Z.lor_spec by lia. apply orb_true_r.
    + destruct (Z.land (reads _ _) _ =? 0); injection E as <- _; auto.
Qed.

(** ** Receiving *)

(** Every descriptor is given a buffer while there are pages. *)
Lemma rx_fill_ok F : forall pages turns q s W, queue_ok F q -> window (available_ring q) s (available_index q) W ->
  (length F <= length pages)%nat -> (length F < turns)%nat -> (length W + length F <= 128)%nat ->
  exists q', rx_fill pages turns q = Some q' /\ queue_ok [] q' /\ window (available_ring q') s (available_index q') (W ++ F).
Proof.
  induction F as [|x F IH]; intros pages turns q s W Hq Hw Hp Ht Hlen; (destruct turns as [|turns]; [lia|]); cbn [rx_fill].
  - rewrite (alloc_none _ Hq). cbn [mbind option_bind]. rewrite (qo_length _ _ Hq). exists q. by rewrite app_nil_r.
  - destruct (queue_ok_fresh _ _ _ Hq) as [Hx Hnin]. destruct (alloc_some _ _ _ Hq) as (q1 & -> & Hq1 & (Ra & Rb & _) & _).
    cbn [mbind option_bind]. rewrite (qo_length _ _ Hq1), (proj2 (Z.eqb_neq x 128)) by lia.
    destruct pages as [|page pages]; [cbn in Hp; lia|]. cbn [length] in *.
    destruct (IH pages turns (submit_descriptor x (fill x page PAGE_SIZE FLAG_DEVICE_WRITE q1)) s (W ++ [x])) as (q' & E & Hq' & Hw'); try lia.
    + apply submit_ok. by apply fill_ok.
    + cbn [submit_descriptor set_available available_ring available_index fill set_descs q_length].
      rewrite (qo_length _ _ Hq1), Ra, Rb. apply window_push; [done|lia].
    + rewrite length_app. cbn. lia.
    + exists q'. rewrite <- app_assoc in Hw'. done.
Qed.

Theorem rx_all_buffers_offered pages : (128 <= length pages)%nat -> exists q, rx_fill pages 129 Queue_init = Some q /\
  num_free_descs q = 0 /\ window (available_ring q) 0 (available_index q) (seqZ 0 128).
Proof.
  intros Hp. destruct (rx_fill_ok (seqZ 0 128) pages 129 Queue_init 0 []) as (q & E & Hq & Hw); try (rewrite ?length_seqZ; cbn; lia).
  - apply Queue_init_ok.
  - split; [done|]. split; [lia|]. split; [done|]. intros k x Hk. done.
  - exists q. split; [done|]. split; [apply (qo_count _ _ Hq)|done].
Qed.

(** A window of fewer than 128 is served whole; one of 128 looks empty. *)
Lemma rx_loop_ok P : forall turns n s, window (used_ring (rx_queue n)) s (used_index (rx_queue n)) P -> (length P < 128)%nat ->
  (length P < turns)%nat -> q_length (rx_queue n) = 128 -> last_seen_used (rx_queue n) = s mod 128 -> (forall x, x ∈ P -> 0 <= x < 128) ->
  exists n', rx_loop turns n = Some n' /\ io_service n' = io_service n ++ P /\ last_seen_used (rx_queue n') = used_index (rx_queue n') mod 128 /\
    used_index (rx_queue n') = used_index (rx_queue n) /\ available_ring (rx_queue n') = available_ring (rx_queue n).
Proof.
  induction P as [|x P IH]; intros turns n s Hw Hl Ht Hq Hs Hr; (destruct turns as [|turns]; [lia|]); cbn [rx_loop]; rewrite Hs, Hq.
  - apply window_nil in Hw as ->. rewrite Z.eqb_refl. exists n. by rewrite app_nil_r.
  - pose proof (window_nonempty _ _ _ _ _ Hw ltac:(cbn in Hl; lia)) as Hne. rewrite (proj2 (Z.eqb_neq _ _)) by done.
    destruct (window_pop _ _ _ _ _ Hw) as [Hx Hw']. rewrite Hx. cbn [mbind option_bind]. cbn [length] in *.
    edestruct (IH turns (mkNet (set_seen ((s mod 128 + 1) mod 128) (rx_queue n)) (tx_queue n) (tx_callbacks n) (tx_invoked n) (io_service n ++ [u16 x]))
      (u16 (s + 1))) as (n' & E & Hio & Hl' & Hu & Ha); [exact Hw'|lia|lia|done| |intros y Hy; apply Hr; by right|].
    + cbn. by rewrite u16_mod, Zplus_mod_idemp_l.
    + exists n'. split; [done|]. split; [|done]. rewrite Hio. cbn [io_service]. rewrite <- app_assoc. cbn [app]. do 2 f_equal.
      rewrite uN_small; [done|]. change (2 ^ 16) with 65536. specialize (Hr x ltac:(by left)). lia.
Qed.

Theorem rx_irq_takes_all P n s : window (used_ring (rx_queue n)) s (used_index (rx_queue n)) P -> (length P < 128)%nat ->
  q_length (rx_queue n) = 128 -> last_seen_used (rx_queue n) = s mod 128 -> (forall x, x ∈ P -> 0 <= x < 128) ->
  exists n', rx_irq n = Some n' /\ io_service n' = io_service n ++ P.
Proof. intros Hw Hl Hq Hs Hr. destruct (rx_loop_ok P 128 n s Hw Hl Hl Hq Hs Hr) as (n' & E & Hio & _). by exists n'. Qed.

(** When the device has filled all 128 buffers since the last interrupt, the
    interrupt does not see one of them: it compares indexes modulo 128. *)
Lemma window_full l s e P : window l s e P -> length P = 128%nat -> e mod 128 = s mod 128.
Proof. intros (_ & _ & -> & _) Hl. rewrite Hl, u16_mod. change (Z.of_nat 128) with (1 * 128). apply Z_mod_plus_full. Qed.

Lemma rx_loop_stops turns n : last_seen_used (rx_queue n) = used_index (rx_queue n) mod q_length (rx_queue n) -> rx_loop (S turns) n = Some n.
Proof. intros H. cbn [rx_loop]. by rewrite (proj2 (Z.eqb_eq _ _) H). Qed.

Theorem rx_full_ring_is_missed P n s : window (used_ring (rx_queue n)) s (used_index (rx_queue n)) P -> length P = 128%nat ->
  q_length (rx_queue n) = 128 -> last_seen_used (rx_queue n) = s mod 128 -> rx_irq n = Some n.
Proof.
  intros Hw Hl Hq Hs. apply (rx_loop_stops 127). by rewrite Hq, Hs, (window_full _ _ _ _ Hw Hl).
Qed.

(** ** Sending *)

Lemma tx_loop_ok P : forall turns n s F, queue_ok F (tx_queue n) -> window (used_ring (tx_queue n)) s (used_index (tx_queue n)) P ->
  (length P < 128)%nat -> (length P < turns)%nat -> NoDup (P ++ F) -> (forall x, x ∈ P -> 0 <= x < 128) -> length (tx_callbacks n) = 128%nat ->
  exists n', tx_loop turns (s mod 128) n = Some (used_index (tx_queue n) mod 128, n') /\ queue_ok (rev P ++ F) (tx_queue n') /\
    tx_invoked n' = tx_invoked n ++ flat_map (fun x => option_list (default None (tx_callbacks n !! Z.to_nat x))) P /\
    same_rings (tx_queue n) (tx_queue n').
Proof.
  induction P as [|x P IH]; intros turns n s F Hq Hw Hl Ht Hnd Hr Hcb; (destruct turns as [|turns]; [lia|]); cbn [tx_loop];
    rewrite (qo_length _ _ Hq).
  - apply window_nil in Hw as ->. rewrite Z.eqb_refl. exists n. by rewrite app_nil_r.
  - pose proof (window_nonempty _ _ _ _ _ Hw ltac:(cbn in Hl; lia)) as Hne. rewrite (proj2 (Z.eqb_neq _ _)) by done.
    destruct (window_pop _ _ _ _ _ Hw) as [Hx Hw']. rewrite Hx. cbn [mbind option_bind]. cbn [length] in *.
    assert (Hx0 : 0 <= x < 128) by (apply Hr; by left). rewrite (uN_small 16 x) by (change (2 ^ 16) with 65536; lia).
    destruct (lookup_lt_is_Some_2 (tx_callbacks n) (Z.to_nat x)) as [cb Ecb]; [lia|]. rewrite Ecb. cbn [mbind option_bind].
    apply NoDup_cons in Hnd as [Hnx Hnd].
    destruct (free_spec x F (tx_queue n) Hq Hx0 ltac:(set_solver)) as (q1 & -> & Hq1 & (Ra & Rb & Rc & Rd & Re) & _). cbn [mbind option_bind].
    destruct (IH turns (mkNet (rx_queue n) q1 (tx_callbacks n) (tx_invoked n ++ option_list cb) (io_service n)) (u16 (s + 1)) (x :: F))
      as (n' & E & Hq' & Hinv & Hsr); cbn [tx_queue tx_callbacks]; [done|by rewrite Rc, Rd|lia|lia| |intros y Hy; apply Hr; by right|done|].
    + rewrite <- Permutation_middle. by constructor.
    + rewrite u16_mod, <- (Zplus_mod_idemp_l s) in E. cbn [tx_queue] in E, Hsr. rewrite E, Rd. exists n'. split; [done|].
      cbn [rev flat_map]. rewrite <- app_assoc. split; [done|]. split.
      * rewrite Hinv. cbn [tx_invoked tx_callbacks]. rewrite Ecb. cbn [default]. by rewrite app_assoc.
      * unfold same_rings in *. intuition congruence.
Qed.

(** The interrupt invokes the callback of each packet that was sent and gives
    its descriptor back. *)
Theorem tx_irq_ok P n s F : queue_ok F (tx_queue n) -> window (used_ring (tx_queue n)) s (used_index (tx_queue n)) P ->
  (length P < 128)%nat -> NoDup (P ++ F) -> (forall x, x ∈ P -> 0 <= x < 128) -> length (tx_callbacks n) = 128%nat ->
  last_seen_used (tx_queue n) = s mod 128 ->
  exists n', tx_irq n = Some n' /\ queue_ok (rev P ++ F) (tx_queue n') /\
    tx_invoked n' = tx_invoked n ++ flat_map (fun x => option_list (default None (tx_callbacks n !! Z.to_nat x))) P /\
    last_seen_used (tx_queue n') = used_index (tx_queue n') mod 128.
Proof.
  intros Hq Hw Hl Hnd Hr Hcb Hs. unfold tx_irq. rewrite Hs.
  destruct (tx_loop_ok P 128 n s F Hq Hw Hl Hl Hnd Hr Hcb) as (n' & -> & Hq' & Hinv & (_ & _ & _ & Hu & _)). cbn [mbind option_bind].
  eexists. split; [reflexivity|]. split; [by destruct Hq'|]. split; [done|]. cbn. by rewrite Hu.
Qed.

(** A packet submitted: the descriptor gives its address and size. *)
Theorem tx_submit_ok x F hhdm p n : queue_ok (x :: F) (tx_queue n) -> exists n', tx_submit hhdm p n = Some (inr x, n') /\
  queue_ok F (tx_queue n') /\ available_ring (tx_queue n') = <[Z.to_nat (available_index (tx_queue n) mod 128) := x]> (available_ring (tx_queue n)) /\
  available_index (tx_queue n') = u16 (available_index (tx_queue n) + 1) /\
  exists nx, descriptor_array (tx_queue n') !! Z.to_nat x = Some (mkDesc (u64 (p_addr p - hhdm)) (u32 (p_size p)) 0 nx).
Proof.
  intros Hq. destruct (queue_ok_fresh _ _ _ Hq) as [Hx Hnin]. unfold tx_submit.
  destruct (alloc_some _ _ _ Hq) as (q1 & -> & Hq1 & (Ra & Rb & _) & Hd). cbn [mbind option_bind].
  rewrite (qo_length _ _ Hq1), (proj2 (Z.eqb_neq x 128)) by lia. eexists. split; [reflexivity|].
  cbn [set_tx tx_queue submit_descriptor set_available available_ring available_index fill set_descs descriptor_array q_length].
  rewrite (qo_length _ _ Hq1), Ra, Rb. split; [apply submit_ok; by apply fill_ok|]. split; [done|]. split; [done|].
  destruct (lookup_lt_is_Some_2 (descriptor_array q1) (Z.to_nat x)) as [d Ed]; [rewrite (qo_array _ _ Hq1); lia|].
  exists (next d). by rewrite list_lookup_alter_eq, Ed.
Qed.

(** The frame after the device's header has the addresses given, and the
    payload is left as it is. *)
Theorem headers_written target_mac mac proto bs : length target_mac = 6%nat -> length mac = 6%nat -> (26 <= length bs)%nat ->
  length (write_headers target_mac mac proto bs) = length bs /\
  Net.mac_at (drop 12 (write_headers target_mac mac proto bs)) 0 = Some target_mac /\
  Net.mac_at (drop 12 (write_headers target_mac mac proto bs)) 6 = Some mac /\
  drop 26 (write_headers target_mac mac proto bs) = drop 26 bs.
Proof.
  intros Ht Hm Hb. unfold write_headers, headers.
  destruct target_mac as [|? [|? [|? [|? [|? [|? [|]]]]]]]; try done. destruct mac as [|? [|? [|? [|? [|? [|? [|]]]]]]]; try done.
  split; [|done]. rewrite !length_app, length_drop. cbn [length le16 replicate Net.be16]. lia.
Qed.

(** ** Two runs *)

Definition net0 : NetDevice := mkNet Queue_init Queue_init (replicate 128 None) [] [].
Definition device_sent (h : Z) (n : NetDevice) : NetDevice :=
  let q := tx_queue n in
  set_tx (mkQueue (q_length q) (free_desc_index q) (num_free_descs q) (last_seen_used q) (descriptor_array q) (available_ring q)
    (available_index q) (<[Z.to_nat (used_index q mod 128) := h]> (used_ring q)) (u16 (used_index q + 1))) n.
Definition send1 (aw : Z) (n : NetDevice) : NetDevice := match send_packet 0 (mkPacket 4096 100 26) aw n with Some (_, n') => n' | None => n end.
Definition submit1 (n : NetDevice) : NetDevice := match tx_submit 0 (mkPacket 4096 100 26) n with Some (_, n') => n' | None => n end.
Definition irq1 (n : NetDevice) : NetDevice := default n (tx_irq n).

(** A packet completed before its callback is set: the interrupt invokes the
    callback of the packet that used the descriptor before, a second time, and
    the packet's own is never invoked. *)
Example stale_callback_invoked :
  let n := irq1 (device_sent 0 (send1 7 net0)) in
  let n' := tx_await 0 8 (irq1 (device_sent 0 (submit1 n))) in
  tx_invoked n' = [7; 7] /\ last_seen_used (tx_queue n') = used_index (tx_queue n').
Proof. vm_compute. done. Qed.

(** 128 packets sent before an interrupt is taken: none is seen, no descriptor is
    given back, and no packet can be sent any more. *)
Example full_send_ring :
  let n := foldr device_sent (Nat.iter 128 (send1 7) net0) (seqZ 0 128) in
  tx_irq n = Some n /\ num_free_descs (tx_queue n) = 0 /\ fst <$> send_packet 0 (mkPacket 4096 100 26) 8 n = Some (- ENOMEM).
Proof. vm_compute. done. Qed.
