(* ===== verification/Xhci.v ===== *)
(** The rings and requests of the xHCI driver (src/kernel/src/dev/xhci.hpp,
    xhci.cpp): transfer request blocks, the rings the driver fills for the
    controller and the one it reads, requests in flight and the interrupt that
    completes them.  What is sent over them to set a device up is in
    XhciSetup.v.

    The controller is not in the source.  It is described by how the rings are
    meant to be used: it takes a block whose cycle bit is its own, follows the
    link at the end, and puts events where the driver has read. *)
From S2P Require Import Prelude.

(** ** Transfer request blocks *)

Record TRB : Type := mkTRB { parameter : Z; status : Z; control : Z }.
Definition zero_TRB : TRB := mkTRB 0 0 0.

Definition TYPE_NORMAL : Z := 1.
Definition TYPE_SETUP_STAGE : Z := 2.
Definition TYPE_DATA_STAGE : Z := 3.
Definition TYPE_STATUS_STAGE : Z := 4.
Definition TYPE_LINK : Z := 6.
Definition TYPE_EVENT_DATA : Z := 7.
Definition TYPE_ENABLE_SLOT_CMD : Z := 9.
Definition TYPE_ADDRESS_DEVICE_CMD : Z := 11.
Definition TYPE_CONFIGURE_ENDPOINT_CMD : Z := 12.
Definition TYPE_EVALUATE_CONTEXT_CMD : Z := 13.
Definition TYPE_TRANSFER_EVENT : Z := 32.
Definition TYPE_COMMAND_COMPLETION_EVENT : Z := 33.
Definition TYPE_SHIFT_BITS : Z := 10.
Definition LINK_TOGGLE_CYCLE : Z := 2.
Definition INTERRUPT_ON_COMPLETION : Z := 32.
Definition IMMEDIATE_DATA : Z := 64.
Definition TRANSFER_TYPE_IN_DATA : Z := 196608.
Definition CHAIN : Z := 16.
Definition DIRECTION_IN : Z := 65536.

Definition cycle (t : TRB) : bool := Z.testbit (control t) 0.
Definition trb_type (t : TRB) : Z := Z.land (Z.shiftr (control t) TYPE_SHIFT_BITS) 63.
Definition of_type (ty flags : Z) : Z := Z.lor (Z.shiftl ty TYPE_SHIFT_BITS) flags.

(** The control word with the ring's cycle bit. *)
Definition stamp (c : bool) (t : TRB) : TRB :=
  mkTRB (parameter t) (status t) (if c then Z.lor (control t) 1 else Z.land (control t) (Z.lnot 1)).

(** ** Rings the driver fills *)

Definition PAGE_SIZE : Z := 4096.
Definition sizeof_TRB : Z := 16.

(** [page] is the physical address of the ring's page. *)
Record EnqueueRing : Type := mkEnqueue { page : Z; ring : list TRB; size : Z; enqueue_index : Z; cycle_bit : bool }.

Definition link_TRB (page : Z) (c : bool) : TRB :=
  mkTRB page 0 (Z.lor (Z.shiftl TYPE_LINK TYPE_SHIFT_BITS) (Z.lor LINK_TOGGLE_CYCLE (Z.b2z c))).
Definition EnqueueRing_init (page : Z) : EnqueueRing :=
  let size := PAGE_SIZE / sizeof_TRB in
  mkEnqueue page (<[Z.to_nat (size - 1) := link_TRB page true]> (replicate (Z.to_nat size) zero_TRB)) size 0 true.

(** The result is the physical address of the block. *)
Definition enqueue (trb : TRB) (r : EnqueueRing) : Z * EnqueueRing :=
  let phy := page r + enqueue_index r * sizeof_TRB in
  let l := <[Z.to_nat (enqueue_index r) := stamp (cycle_bit r) trb]> (ring r) in
  let i := enqueue_index r + 1 in
  if i =? size r - 1 then
    (phy, mkEnqueue (page r) (alter (fun t => mkTRB (parameter t) (status t) (control (link_TRB (page r) (cycle_bit r)))) (Z.to_nat (size r - 1)) l)
            (size r) 0 (negb (cycle_bit r)))
  else (phy, mkEnqueue (page r) l (size r) i (cycle_bit r)).

(** ** The ring of events *)

(** [erdp] is what was written last to the register of the dequeue pointer. *)
Record EventRing : Type := mkEvents { ring_page : Z; events : list TRB; e_size : Z; dequeue_index : Z; e_cycle : bool; erdp : Z }.
Definition EVENT_HANDLER_BUSY : Z := 8.
Definition EventRing_init (page : Z) : EventRing :=
  let size := PAGE_SIZE / sizeof_TRB in mkEvents page (replicate (Z.to_nat size) zero_TRB) size 0 true page.

Definition has_unprocessed_events (r : EventRing) : option bool :=
  t ← events r !! Z.to_nat (dequeue_index r); Some (Bool.eqb (cycle t) (e_cycle r)).
(** An event, or -EWOULDBLOCK; an index past the ring is [None]. *)
Definition dequeue (r : EventRing) : option ((Z + TRB) * EventRing) :=
  has ← has_unprocessed_events r;
  if negb has then Some (inl (- EWOULDBLOCK), r)
  else
    t ← events r !! Z.to_nat (dequeue_index r);
    let i := dequeue_index r + 1 in
    let '(i, c) := if i =? e_size r then (0, negb (e_cycle r)) else (i, e_cycle r) in
    Some (inr t, mkEvents (ring_page r) (events r) (e_size r) i c (Z.lor (ring_page r + i * sizeof_TRB) EVENT_HANDLER_BUSY)).

(** ** The controller's side *)

(** Where the controller is in a ring: index and cycle state.  It stays where
    the cycle bit is not its own, and goes through a link. *)
Fixpoint fetch (links : nat) (l : list TRB) (at_ : Z * bool) : option TRB * (Z * bool) :=
  let '(i, c) := at_ in
  match l !! Z.to_nat i with
  | None => (None, at_)
  | Some t =>
      if negb (Bool.eqb (cycle t) c) then (None, at_)
      else if trb_type t =? TYPE_LINK then
        match links with
        | O => (None, at_)
        | S links => fetch links l (0, if Z.testbit (control t) 1 then negb c else c)
        end
      else (Some t, (i + 1, c))
  end.

(** An event put at the producer's place. *)
Definition post (ev : TRB) (at_ : Z * bool) (r : EventRing) : (Z * bool) * EventRing :=
  let '(i, c) := at_ in
  (if i + 1 =? e_size r then (0, negb c) else (i + 1, c),
   mkEvents (ring_page r) (<[Z.to_nat i := stamp c ev]> (events r)) (e_size r) (dequeue_index r) (e_cycle r) (erdp r)).

(** ** Laps

    The place of the [k]th item of a ring of [L] places is [k mod L], and its
    cycle bit that of its lap; before the first lap the bits are as of a lap
    before it. *)
Definition lap_bit (L k : Z) : bool := Z.even (k / L).
Definition lap_ring (L : Z) (items l : list TRB) : Prop :=
  let n := Z.of_nat (length items) in
  L <= Z.of_nat (length l) /\
  forall k, n - L <= k < n -> exists t, l !! Z.to_nat (k mod L) = Some t /\ cycle t = lap_bit L k /\
    (0 <= k -> exists u, items !! Z.to_nat k = Some u /\ t = stamp (lap_bit L k) u).

Lemma cycle_stamp c t : cycle (stamp c t) = c.
Proof.
  unfold cycle, stamp. destruct c; cbn [control]; [rewrite Z.lor_spec|rewrite Z.land_spec, Z.lnot_spec by lia]; cbn.
  - apply orb_true_r.
  - apply andb_false_r.
Qed.

Lemma lap_bit_next L k : 0 < L -> lap_bit L (k + L) = negb (lap_bit L k).
Proof.
  intros HL. unfold lap_bit. replace (k + L) with (k + 1 * L) by lia. rewrite Z_div_plus_full by lia.
  rewrite Z.even_add. by destruct (Z.even (k / L)).
Qed.

Lemma mod_apart L a b : 0 < L -> a < b -> b - a < L -> a mod L <> b mod L.
Proof. intros HL Hab Hd He. pose proof (Z.div_mod a L ltac:(lia)). pose proof (Z.div_mod b L ltac:(lia)).
  assert (Hq : b - a = L * (b / L - a / L)) by lia. assert (0 < b / L - a / L) by nia. nia. Qed.

Lemma lap_push L items l t : 0 < L -> lap_ring L items l ->
  lap_ring L (items ++ [t]) (<[Z.to_nat (Z.of_nat (length items) mod L) := stamp (lap_bit L (Z.of_nat (length items))) t]> l).
Proof.
  intros HL [Hl Hk]. set (n := Z.of_nat (length items)) in *. unfold lap_ring. rewrite length_insert, length_app. cbn [length].
  replace (Z.of_nat (length items + 1)) with (n + 1) by lia. split; [lia|]. intros k Hkn.
  pose proof (Z.mod_pos_bound n L HL). pose proof (Z.mod_pos_bound k L HL). destruct (decide (k = n)) as [->|Hne].
  - rewrite list_lookup_insert_eq by lia. eexists. split; [reflexivity|]. split; [apply cycle_stamp|]. intros _. exists t.
    split; [|done]. subst n. rewrite Nat2Z.id, lookup_app_r, Nat.sub_diag by lia. done.
  - pose proof (mod_apart L k n HL ltac:(lia) ltac:(lia)). rewrite list_lookup_insert_ne by lia.
    destruct (Hk k ltac:(lia)) as (t' & Ht & Hc & Hi). exists t'. split; [done|]. split; [done|]. intros Hk0.
    destruct (Hi Hk0) as (u & Hu & ->). exists u. split; [|done]. by apply lookup_app_l_Some.
Qed.

(** The place after the last item has the other cycle bit. *)
Lemma lap_empty L items l : 0 < L -> lap_ring L items l ->
  exists t, l !! Z.to_nat (Z.of_nat (length items) mod L) = Some t /\ cycle t = negb (lap_bit L (Z.of_nat (length items))).
Proof.
  intros HL [Hl Hk]. set (n := Z.of_nat (length items)) in *. destruct (Hk (n - L) ltac:(lia)) as (t & Ht & Hc & _). exists t.
  replace n with (n - L + 1 * L) at 1 by lia. rewrite Z_mod_plus_full. split; [done|]. rewrite Hc.
  replace n with (n - L + L) at 2 by lia. rewrite lap_bit_next by lia. by rewrite negb_involutive.
Qed.

Lemma lap_item L items l m : 0 < L -> lap_ring L items l -> 0 <= m < Z.of_nat (length items) -> Z.of_nat (length items) <= m + L ->
  exists u, items !! Z.to_nat m = Some u /\ l !! Z.to_nat (m mod L) = Some (stamp (lap_bit L m) u).
Proof. intros HL [Hl Hk] Hm Hn. destruct (Hk m ltac:(lia)) as (t & Ht & _ & Hi). destruct (Hi ltac:(lia)) as (u & Hu & ->). by exists u. Qed.

Lemma lap_init L l : 0 < L -> L <= Z.of_nat (length l) -> (forall i, 0 <= i < L -> exists t, l !! Z.to_nat i = Some t /\ cycle t = false) ->
  lap_ring L [] l.
Proof.
  intros HL Hl H. split; [done|]. cbn [length]. intros k Hk. destruct (H (k mod L)) as (t & Ht & Hc); [by apply Z.mod_pos_bound|].
  exists t. split; [done|]. split; [|lia]. rewrite Hc. unfold lap_bit. replace (k / L) with (-1); [done|].
  apply (Z.div_unique_pos k L (-1) (k + L)); lia.
Qed.

Lemma step_mod L k : 1 < L -> 0 <= k -> (k + 1) mod L = if k mod L + 1 =? L then 0 else k mod L + 1.
Proof.
  intros HL Hk. pose proof (Z.mod_pos_bound k L ltac:(lia)). destruct (k mod L + 1 =? L) eqn:E; [apply Z.eqb_eq in E|apply Z.eqb_neq in E].
  - rewrite <- (Zplus_mod_idemp_l k), E. apply Z_mod_same_full.
  - rewrite <- (Zplus_mod_idemp_l k). apply Z.mod_small. lia.
Qed.
Lemma step_lap L k : 1 < L -> 0 <= k -> lap_bit L (k + 1) = if k mod L + 1 =? L then negb (lap_bit L k) else lap_bit L k.
Proof.
  intros HL Hk. pose proof (Z.mod_pos_bound k L ltac:(lia)). pose proof (Z.div_mod k L ltac:(lia)). unfold lap_bit.
  destruct (k mod L + 1 =? L) eqn:E; [apply Z.eqb_eq in E|apply Z.eqb_neq in E].
  - replace ((k + 1) / L) with (k / L + 1); [rewrite Z.even_add; by destruct (Z.even (k / L))|].
    apply (Z.div_unique_pos _ _ _ 0); lia.
  - replace ((k + 1) / L) with (k / L); [done|]. apply (Z.div_unique_pos _ _ _ (k mod L + 1)); lia.
Qed.

(** ** A ring is a queue *)

Definition link_bit (n : Z) : bool := if n <? 255 then true else negb (lap_bit 255 n).
Record ring_ok (items : list TRB) (r : EnqueueRing) : Prop := {
  rk_size : size r = 256;
  rk_length : length (ring r) = 256%nat;
  rk_index : enqueue_index r = Z.of_nat (length items) mod 255;
  rk_cycle : cycle_bit r = lap_bit 255 (Z.of_nat (length items));
  rk_lap : lap_ring 255 items (ring r);
  rk_link : ring r !! 255%nat = Some (link_TRB (page r) (link_bit (Z.of_nat (length items))))
}.

(** Where the controller is after [m] items: it may not have gone through the
    link yet. *)
Definition consumer_at (m : Z) (at_ : Z * bool) : Prop :=
  at_ = (m mod 255, lap_bit 255 m) \/ (0 < m /\ m mod 255 = 0 /\ at_ = (255, negb (lap_bit 255 m))).

(** The physical address of the [k]th item. *)
Definition item_address (r : EnqueueRing) (k : Z) : Z := page r + k mod 255 * sizeof_TRB.

Lemma EnqueueRing_init_ok p : ring_ok [] (EnqueueRing_init p) /\ consumer_at 0 (0, true).
Proof.
  split; [|by left]. constructor; try reflexivity. apply lap_init; [lia|by vm_compute|]. intros i Hi.
  exists zero_TRB. split; [|done]. cbn [EnqueueRing_init ring]. change (Z.to_nat (PAGE_SIZE / sizeof_TRB)) with 256%nat.
  change (Z.to_nat (PAGE_SIZE / sizeof_TRB - 1)) with 255%nat. rewrite list_lookup_insert_ne by lia. apply lookup_replicate_2. lia.
Qed.

Lemma enqueue_ok items r t : ring_ok items r ->
  ring_ok (items ++ [t]) (enqueue t r).2 /\ (enqueue t r).1 = item_address r (Z.of_nat (length items)) /\ page (enqueue t r).2 = page r.
Proof.
  intros [Hs Hl Hi Hc Hk Hn]. set (n := Z.of_nat (length items)) in *.
  assert (Hn1 : Z.of_nat (length (items ++ [t])) = n + 1) by (rewrite length_app; cbn; lia).
  pose proof (lap_push 255 items (ring r) t ltac:(lia) Hk) as Hpush. fold n in Hpush.
  pose proof (step_mod 255 n ltac:(lia) ltac:(lia)) as Hm. pose proof (step_lap 255 n ltac:(lia) ltac:(lia)) as Hb.
  pose proof (Z.mod_pos_bound n 255 ltac:(lia)) as Hr. pose proof (Z.div_mod n 255 ltac:(lia)) as Hd.
  unfold enqueue. rewrite Hs, Hi, Hc. change (256 - 1) with 255. destruct (n mod 255 + 1 =? 255) eqn:E; cbn [fst snd];
    (split; [constructor; cbn [size ring enqueue_index cycle_bit page]; rewrite ?Hn1, ?Hm, ?Hb; try done|done]).
  - by rewrite length_alter, length_insert.
  - destruct Hpush as [Hpl Hpk]. split; [by rewrite length_alter|]. intros k Hkr. destruct (Hpk k Hkr) as (u & Hu & Hrest). exists u.
    pose proof (Z.mod_pos_bound k 255 ltac:(lia)). rewrite list_lookup_alter_ne by lia. done.
  - change (Z.to_nat 255) with 255%nat. rewrite list_lookup_alter_eq, list_lookup_insert_ne, Hn by lia. cbn. do 3 f_equal.
    unfold link_bit. apply Z.eqb_eq in E. rewrite (proj2 (Z.ltb_ge (n + 1) 255)) by (assert (0 <= n / 255) by (apply Z.div_pos; lia); lia).
    rewrite Hb. by rewrite negb_involutive.
  - by rewrite length_insert.
  - rewrite list_lookup_insert_ne, Hn by lia. unfold link_bit. apply Z.eqb_neq in E.
    destruct (n <? 255) eqn:E2; [apply Z.ltb_lt in E2|apply Z.ltb_ge in E2].
    + rewrite (proj2 (Z.ltb_lt (n + 1) 255)); [done|]. rewrite Z.mod_small in E by lia. lia.
    + rewrite (proj2 (Z.ltb_ge (n + 1) 255)) by lia. by rewrite Hb.
Qed.

Lemma link_cycle p c : cycle (link_TRB p c) = c. Proof. by destruct c. Qed.
Lemma link_type p c : trb_type (link_TRB p c) = TYPE_LINK. Proof. by destruct c. Qed.
Lemma link_toggles p c : Z.testbit (control (link_TRB p c)) 1 = true. Proof. by destruct c. Qed.

Lemma stamp_type c t : trb_type (stamp c t) = trb_type t.
Proof.
  unfold trb_type, stamp, TYPE_SHIFT_BITS. apply Z.bits_inj'. intros i Hi. rewrite !Z.land_spec, !Z.shiftr_spec by lia.
  destruct c; cbn [control]; rewrite ?Z.lor_spec, ?Z.land_spec, ?Z.lnot_spec by lia;
    replace (Z.testbit 1 (i + 10)) with false by (symmetry; apply Z.bits_above_log2; [lia|cbn; lia]).
  - by rewrite orb_false_r.
  - cbn [negb]. by rewrite andb_true_r.
Qed.

(** From the place itself, past the link. *)
Lemma fetch_direct links items r m : ring_ok items r -> 0 <= m <= Z.of_nat (length items) -> Z.of_nat (length items) <= m + 254 ->
  (forall t, t ∈ items -> trb_type t <> TYPE_LINK) ->
  (m = Z.of_nat (length items) -> fetch links (ring r) (m mod 255, lap_bit 255 m) = (None, (m mod 255, lap_bit 255 m))) /\
  (m < Z.of_nat (length items) -> exists u, items !! Z.to_nat m = Some u /\
     fetch links (ring r) (m mod 255, lap_bit 255 m) = (Some (stamp (lap_bit 255 m) u), (m mod 255 + 1, lap_bit 255 m))).
Proof.
  intros Hr Hm Hn Hty. destruct Hr as [Hs Hl Hi Hc Hk Hlk]. split.
  - intros ->. destruct (lap_empty 255 items (ring r) ltac:(lia) Hk) as (t & Ht & Hct).
    destruct links; cbn [fetch]; rewrite Ht, Hct; by destruct (lap_bit _ _).
  - intros Hlt. destruct (lap_item 255 items (ring r) m ltac:(lia) Hk ltac:(lia) ltac:(lia)) as (u & Hu & Ht). exists u. split; [done|].
    assert (Hnl : trb_type u <> TYPE_LINK) by (eapply Hty, list_elem_of_lookup_2; exact Hu).
    destruct links; cbn [fetch]; rewrite Ht, cycle_stamp, eqb_reflx, stamp_type, (proj2 (Z.eqb_neq _ _) Hnl); done.
Qed.

(** The controller takes the items one by one, in order, and nothing else, as
    long as at most 254 are waiting. *)
Lemma fetch_ok items r m at_ : ring_ok items r -> consumer_at m at_ -> 0 <= m <= Z.of_nat (length items) -> Z.of_nat (length items) <= m + 254 ->
  (forall t, t ∈ items -> trb_type t <> TYPE_LINK) ->
  (m = Z.of_nat (length items) -> exists at', fetch 1 (ring r) at_ = (None, at') /\ consumer_at m at') /\
  (m < Z.of_nat (length items) -> exists u, items !! Z.to_nat m = Some u /\
     fetch 1 (ring r) at_ = (Some (stamp (lap_bit 255 m) u), (m mod 255 + 1, lap_bit 255 m)) /\ consumer_at (m + 1) (m mod 255 + 1, lap_bit 255 m)).
Proof.
  intros Hr Hat Hm Hn Hty.
  assert (Hnext : consumer_at (m + 1) (m mod 255 + 1, lap_bit 255 m)).
  { pose proof (step_mod 255 m ltac:(lia) ltac:(lia)) as H1. pose proof (step_lap 255 m ltac:(lia) ltac:(lia)) as H2.
    destruct (m mod 255 + 1 =? 255) eqn:E; [apply Z.eqb_eq in E; right|left]; [|by rewrite H1, H2].
    split; [lia|]. split; [done|]. by rewrite H2, negb_involutive, E. }
  destruct Hat as [->|(H0 & Hmod & ->)].
  - destruct (fetch_direct 1 items r m Hr Hm Hn Hty) as [Hnone Hsome]. split.
    + intros He. eexists. split; [by apply Hnone|by left].
    + intros Hlt. destruct (Hsome Hlt) as (u & Hu & Hf). by exists u.
  - destruct (fetch_direct 0 items r m Hr Hm Hn Hty) as [Hnone Hsome].
    assert (Hf : fetch 1 (ring r) (255, negb (lap_bit 255 m)) = fetch 0 (ring r) (m mod 255, lap_bit 255 m)).
    { cbn [fetch]. change (Z.to_nat 255) with 255%nat. rewrite (rk_link _ _ Hr).
      assert (Hlb : link_bit (Z.of_nat (length items)) = negb (lap_bit 255 m)).
      { pose proof (Z.div_mod m 255 ltac:(lia)) as Hd. unfold link_bit. rewrite (proj2 (Z.ltb_ge _ 255)) by lia. f_equal. unfold lap_bit. f_equal.
        symmetry. apply (Z.div_unique_pos _ _ _ (Z.of_nat (length items) - m)); lia. }
      rewrite Hlb, link_cycle, link_type, link_toggles, eqb_reflx, Z.eqb_refl, negb_involutive, Hmod. done. }
    rewrite Hf. split.
    + intros He. eexists. split; [by apply Hnone|by left].
    + intros Hlt. destruct (Hsome Hlt) as (u & Hu & Hf'). by exists u.
Qed.

(** The driver's side of the ring of events, after [j] of [evs]. *)
Record events_ok (evs : list TRB) (j : Z) (r : EventRing) : Prop := {
  ev_size : e_size r = 256;
  ev_length : length (events r) = 256%nat;
  ev_index : dequeue_index r = j mod 256;
  ev_cycle : e_cycle r = lap_bit 256 j;
  ev_lap : lap_ring 256 evs (events r);
  ev_count : 0 <= j <= Z.of_nat (length evs) /\ Z.of_nat (length evs) <= j + 256
}.

Lemma EventRing_init_ok p : events_ok [] 0 (EventRing_init p).
Proof.
  constructor; try reflexivity; [|cbn; lia]. apply lap_init; [lia|by vm_compute|]. intros i Hi. exists zero_TRB. split; [|done].
  cbn [EventRing_init events]. apply lookup_replicate_2. change (Z.to_nat (PAGE_SIZE / sizeof_TRB)) with 256%nat. lia.
Qed.

Lemma dequeue_none evs r : events_ok evs (Z.of_nat (length evs)) r -> dequeue r = Some (inl (- EWOULDBLOCK), r).
Proof.
  intros [Hs Hl Hi Hc Hk _]. destruct (lap_empty 256 evs _ ltac:(lia) Hk) as (t & Ht & Hct).
  unfold dequeue, has_unprocessed_events. rewrite Hi, Ht. cbn [mbind option_bind]. rewrite Hct, Hc. by destruct (lap_bit _ _).
Qed.

Lemma dequeue_some evs j r : events_ok evs j r -> j < Z.of_nat (length evs) -> exists u r',
  evs !! Z.to_nat j = Some u /\ dequeue r = Some (inr (stamp (lap_bit 256 j) u), r') /\ events_ok evs (j + 1) r'.
Proof.
  intros [Hs Hl Hi Hc Hk Hj] Hlt. destruct (lap_item 256 evs _ j ltac:(lia) Hk ltac:(lia) ltac:(lia)) as (u & Hu & Ht).
  pose proof (step_mod 256 j ltac:(lia) ltac:(lia)) as H1. pose proof (step_lap 256 j ltac:(lia) ltac:(lia)) as H2.
  exists u. unfold dequeue, has_unprocessed_events. rewrite Hi, Ht. cbn [mbind option_bind]. rewrite cycle_stamp, Hc, eqb_reflx, Hs. cbn [negb].
  destruct (j mod 256 + 1 =? 256); eexists; (split; [done|]; split; [reflexivity|]);
    (constructor; cbn [e_size events dequeue_index e_cycle]; [done|done|by rewrite H1|by rewrite H2|done|lia]).
Qed.

Lemma post_ok evs j r ev : events_ok evs j r -> Z.of_nat (length evs) < j + 256 -> forall at', forall r',
  post ev (Z.of_nat (length evs) mod 256, lap_bit 256 (Z.of_nat (length evs))) r = (at', r') ->
  at' = (Z.of_nat (length (evs ++ [ev])) mod 256, lap_bit 256 (Z.of_nat (length (evs ++ [ev])))) /\ events_ok (evs ++ [ev]) j r'.
Proof.
  intros [Hs Hl Hi Hc Hk Hj] Hlt at' r'. unfold post. rewrite Hs.
  pose proof (step_mod 256 (Z.of_nat (length evs)) ltac:(lia) ltac:(lia)) as H1. pose proof (step_lap 256 (Z.of_nat (length evs)) ltac:(lia) ltac:(lia)) as H2.
  assert (Hn : Z.of_nat (length (evs ++ [ev])) = Z.of_nat (length evs) + 1) by (rewrite length_app; cbn; lia). rewrite Hn, H1, H2.
  intros E. split.
  - injection E as <- _. by destruct (_ =? 256).
  - injection E as _ <-. constructor; cbn [e_size events dequeue_index e_cycle]; try done; [by rewrite length_insert|by apply lap_push|].
    rewrite Hn. lia.
Qed.

(** ** Requests and the controller *)

(** [callback] is who waits for the request. *)
Record Request : Type := mkRequest { trb_phy : Z; callback : Z }.
Record Endpoint : Type := mkEndpoint { transfer_ring : EnqueueRing; buffer_page : Z; device_context_index : Z; interrupt_packet_size : Z }.
Record Device : Type := mkDevice { slot_id : Z; control_ring : EnqueueRing; endpoints : gmap Z Endpoint }.

(** The two lists hold the addresses of requests.  [invoked] are the callbacks
    invoked, with the event; [reports] the reports handed to the device behind a
    slot, with their length; [doorbells] the writes to the doorbells. *)
Record Controller : Type := mkController {
  command_ring : EnqueueRing;
  event_ring : EventRing;
  requests : gmap Z Request;
  free_requests : list Z;
  in_flight : list Z;
  devices : gmap Z Device;
  invoked : list (Z * TRB);
  reports : list (Z * Z);
  doorbells : list (Z * Z)
}.
Definition set_requests (m : gmap Z Request) (f l : list Z) (c : Controller) : Controller :=
  mkController (command_ring c) (event_ring c) m f l (devices c) (invoked c) (reports c) (doorbells c).
Definition set_command_ring (r : EnqueueRing) (c : Controller) : Controller :=
  mkController r (event_ring c) (requests c) (free_requests c) (in_flight c) (devices c) (invoked c) (reports c) (doorbells c).
Definition set_event_ring (r : EventRing) (c : Controller) : Controller :=
  mkController (command_ring c) r (requests c) (free_requests c) (in_flight c) (devices c) (invoked c) (reports c) (doorbells c).
Definition set_device (slot : Z) (d : Device) (c : Controller) : Controller :=
  mkController (command_ring c) (event_ring c) (requests c) (free_requests c) (in_flight c) (<[slot := d]> (devices c)) (invoked c) (reports c) (doorbells c).
Definition ring_doorbell (reg v : Z) (c : Controller) : Controller :=
  mkController (command_ring c) (event_ring c) (requests c) (free_requests c) (in_flight c) (devices c) (invoked c) (reports c) (doorbells c ++ [(reg, v)]).
Definition invoke (r : Request) (ev : TRB) (c : Controller) : Controller :=
  mkController (command_ring c) (event_ring c) (requests c) (free_requests c) (in_flight c) (devices c) (invoked c ++ [(callback r, ev)]) (reports c) (doorbells c).

(** The requests of a page, in [Controller::init]. *)
Definition sizeof_Request : Z := 40.
Definition init_requests (base : Z) : list Z := map (fun i => base + i * sizeof_Request) (seqZ 0 (PAGE_SIZE / sizeof_Request)).
Definition Controller_init (command_page event_page base : Z) : Controller :=
  mkController (EnqueueRing_init command_page) (EventRing_init event_page)
    (list_to_map (map (fun r => (r, mkRequest 0 0)) (init_requests base))) (init_requests base) [] ∅ [] [] [].

Definition alloc_request (c : Controller) : option Z * Controller :=
  match free_requests c with
  | [] => (None, c)
  | r :: l => (Some r, set_requests (requests c) l (in_flight c ++ [r]) c)
  end.

(** The request leaves the list it is in. *)
Definition free_request (r : Z) (c : Controller) : Controller :=
  set_requests (requests c) (filter (fun x => x <> r) (free_requests c) ++ [r]) (filter (fun x => x <> r) (in_flight c)) c.

(** With no request the result is a block of zeros; else the callback of the
    request is led to the awaiter. *)
Definition send_command (trb : TRB) (awaiter : Z) (c : Controller) : option TRB * Controller :=
  match alloc_request c with
  | (None, c) => (Some zero_TRB, c)
  | (Some r, c) =>
      let '(phy, ring) := enqueue trb (command_ring c) in
      (None, ring_doorbell 0 0 (set_requests (<[r := mkRequest phy awaiter]> (requests c)) (free_requests c) (in_flight c) (set_command_ring ring c)))
  end.

(** The packet of a request, as the eight bytes of the setup block. *)
Record UsbRequestPacket : Type := mkPacket { request_type : Z; request : Z; value : Z; index : Z; p_length : Z }.
Definition packet_bits (p : UsbRequestPacket) : Z :=
  Z.lor (request_type p) (Z.lor (Z.shiftl (request p) 8) (Z.lor (Z.shiftl (value p) 16) (Z.lor (Z.shiftl (index p) 32) (Z.shiftl (p_length p) 48)))).

(** The blocks of a control request; [r] is the address of its request. *)
Definition request_blocks (p : UsbRequestPacket) (output_phy len r : Z) : list TRB :=
  [ mkTRB (packet_bits p) 8 (of_type TYPE_SETUP_STAGE (Z.lor IMMEDIATE_DATA TRANSFER_TYPE_IN_DATA));
    mkTRB output_phy len (of_type TYPE_DATA_STAGE DIRECTION_IN);
    mkTRB 0 0 (of_type TYPE_STATUS_STAGE CHAIN);
    mkTRB r 0 (of_type TYPE_EVENT_DATA INTERRUPT_ON_COMPLETION) ].
Definition request_blocks_no_data (p : UsbRequestPacket) (r : Z) : list TRB :=
  [ mkTRB (packet_bits p) 8 (of_type TYPE_SETUP_STAGE IMMEDIATE_DATA);
    mkTRB 0 0 (of_type TYPE_STATUS_STAGE (Z.lor DIRECTION_IN CHAIN));
    mkTRB r 0 (of_type TYPE_EVENT_DATA INTERRUPT_ON_COMPLETION) ].

(** Blocks one after the other; the address is the last one's. *)
Fixpoint enqueue_all (l : list TRB) (phy : Z) (r : EnqueueRing) : Z * EnqueueRing :=
  match l with
  | [] => (phy, r)
  | t :: l' => let '(phy, r) := enqueue t r in enqueue_all l' phy r
  end.

(** Both kinds of control request, by their blocks. *)
Definition send_blocks (slot : Z) (blocks : Z -> list TRB) (awaiter : Z) (c : Controller) : option (option TRB * Controller) :=
  match alloc_request c with
  | (None, c) => Some (Some zero_TRB, c)
  | (Some r, c) =>
      d ← devices c !! slot;
      let '(phy, ring) := enqueue_all (blocks r) 0 (control_ring d) in
      let c := set_device slot (mkDevice (slot_id d) ring (endpoints d)) c in
      Some (None, ring_doorbell (slot_id d * 4) 1
                    (set_requests (<[r := mkRequest phy awaiter]> (requests c)) (free_requests c) (in_flight c) c))
  end.
Definition send_usb_request (slot : Z) (p : UsbRequestPacket) (output_phy len awaiter : Z) : Controller -> option (option TRB * Controller) :=
  send_blocks slot (request_blocks p output_phy len) awaiter.
Definition send_usb_request_no_data (slot : Z) (p : UsbRequestPacket) (awaiter : Z) : Controller -> option (option TRB * Controller) :=
  send_blocks slot (request_blocks_no_data p) awaiter.

Definition string_packet (string_index lang_id : Z) : UsbRequestPacket := mkPacket 128 6 (u16 (Z.lor (Z.shiftl 3 8) string_index)) lang_id 256.
Definition request_usb_string_descriptor (slot string_index lang_id output_phy awaiter : Z) : Controller -> option (option TRB * Controller) :=
  send_usb_request slot (string_packet string_index lang_id) output_phy 256 awaiter.

(** The next report of an endpoint is asked for. *)
Definition report_block (e : Endpoint) : TRB := mkTRB (buffer_page e) (interrupt_packet_size e) (of_type TYPE_NORMAL INTERRUPT_ON_COMPLETION).
Definition request_usb_interrupt_report (slot which : Z) (c : Controller) : option Controller :=
  d ← devices c !! slot;
  e ← endpoints d !! which;
  let '(_, ring) := enqueue (report_block e) (transfer_ring e) in
  let e' := mkEndpoint ring (buffer_page e) (device_context_index e) (interrupt_packet_size e) in
  Some (ring_doorbell (slot_id d * 4) (device_context_index e) (set_device slot (mkDevice (slot_id d) (control_ring d) (<[which := e']> (endpoints d))) c)).
Definition handle_usb_interrupt (slot which : Z) (c : Controller) : option Controller :=
  d ← devices c !! slot;
  e ← endpoints d !! which;
  request_usb_interrupt_report slot which
    (mkController (command_ring c) (event_ring c) (requests c) (free_requests c) (in_flight c) (devices c) (invoked c)
       (reports c ++ [(slot, interrupt_packet_size e)]) (doorbells c)).

(** ** The interrupt *)

Definition complete (r : Z) (ev : TRB) (c : Controller) : option Controller :=
  rq ← requests c !! r; Some (free_request r (invoke rq ev c)).

(** The first request in flight with the event's block. *)
Fixpoint find_request (m : gmap Z Request) (addr : Z) (l : list Z) : option (option Z) :=
  match l with
  | [] => Some None
  | r :: l' => rq ← m !! r; if trb_phy rq =? addr then Some (Some r) else find_request m addr l'
  end.
Definition complete_by_block (ev : TRB) (c : Controller) : option Controller :=
  r ← find_request (requests c) (parameter ev) (in_flight c);
  match r with None => Some c | Some r => complete r ev c end.

(** An event data block names the request itself.  An endpoint that is not
    there is [None]. *)
Definition handle_event (ev : TRB) (c : Controller) : option Controller :=
  let type := trb_type ev in
  if type =? TYPE_TRANSFER_EVENT then
    let slot := Z.land (Z.shiftr (control ev) 24) 255 in
    let endpoint_id := Z.land (Z.shiftr (control ev) 16) 31 in
    if endpoint_id =? 1 then
      if Z.testbit (control ev) 2 then complete (parameter ev) ev c else complete_by_block ev c
    else handle_usb_interrupt slot (endpoint_id - 2) c
  else if type =? TYPE_COMMAND_COMPLETION_EVENT then complete_by_block ev c
  else Some c.

Fixpoint irq (turns : nat) (c : Controller) : option Controller :=
  match turns with
  | O => None
  | S turns =>
      '(e, r) ← dequeue (event_ring c);
      match e with
      | inl _ => Some (set_event_ring r c)
      | inr ev => c1 ← handle_event ev (set_event_ring r c); irq turns c1
      end
  end.

(** ** Commands, from the driver to the waiter *)

(** [consumer] is where the controller is in the command ring, [producer] where
    it puts the next event, [answered] the events it has put; [commands] and
    [issued] are the commands sent and who waits for them. *)
Record World : Type := mkWorld {
  ctl : Controller;
  consumer : Z * bool;
  producer : Z * bool;
  answered : list TRB;
  commands : list TRB;
  issued : list Z
}.

(** The controller executes commands in order and answers each with an event
    that has the address of its block. *)
Inductive wstep : World -> World -> Prop :=
| x_send w trb aw res c' : trb_type trb <> TYPE_LINK -> send_command trb aw (ctl w) = (res, c') ->
    wstep w (match res with
             | None => mkWorld c' (consumer w) (producer w) (answered w) (commands w ++ [trb]) (issued w ++ [aw])
             | Some _ => mkWorld c' (consumer w) (producer w) (answered w) (commands w) (issued w)
             end)
| x_execute w t at' ev p' r' : fetch 1 (ring (command_ring (ctl w))) (consumer w) = (Some t, at') ->
    trb_type ev = TYPE_COMMAND_COMPLETION_EVENT -> parameter ev = page (command_ring (ctl w)) + (at'.1 - 1) * sizeof_TRB ->
    post ev (producer w) (event_ring (ctl w)) = (p', r') ->
    wstep w (mkWorld (set_event_ring r' (ctl w)) at' p' (answered w ++ [ev]) (commands w) (issued w))
| x_irq w c' : irq 257 (ctl w) = Some c' -> wstep w (mkWorld c' (consumer w) (producer w) (answered w) (commands w) (issued w)).

Section Commands.
Context (all : list Z) (Hnd : NoDup all) (Hfew : (length all <= 254)%nat).

(** Between the driver and its waiters: after [j] events. *)
Record flight_ok (evs : list TRB) (iss : list Z) (c : Controller) : Prop := {
  fo_events : events_ok evs (Z.of_nat (length (invoked c))) (event_ring c);
  fo_answers : forall k ev, evs !! k = Some ev -> trb_type ev = TYPE_COMMAND_COMPLETION_EVENT /\ parameter ev = item_address (command_ring c) (Z.of_nat k);
  fo_count : (length evs <= length iss)%nat /\ (length (invoked c) + length (in_flight c) = length iss)%nat;
  fo_flight : forall i r, in_flight c !! i = Some r -> exists aw, iss !! (length (invoked c) + i)%nat = Some aw /\
    requests c !! r = Some (mkRequest (item_address (command_ring c) (Z.of_nat (length (invoked c) + i))) aw);
  fo_all : free_requests c ++ in_flight c ≡ₚ all;
  fo_invoked : forall k aw ev, invoked c !! k = Some (aw, ev) -> iss !! k = Some aw /\ parameter ev = item_address (command_ring c) (Z.of_nat k)
}.

Lemma filter_absent (r : Z) (l : list Z) : r ∉ l -> filter (fun x => x <> r) l = l.
Proof.
  induction l as [|x l IH]; intros H; [done|]. rewrite filter_cons_True by (intros ->; apply H; by left). f_equal. apply IH.
  intros Hr. apply H. by right.
Qed.

Lemma event_completes evs iss c r' u : flight_ok evs iss c -> (length (invoked c) < length evs)%nat ->
  evs !! length (invoked c) = Some u -> forall b, events_ok evs (Z.of_nat (length (invoked c)) + 1) r' ->
  exists c', handle_event (stamp b u) (set_event_ring r' c) = Some c' /\ flight_ok evs iss c' /\ event_ring c' = r' /\
    length (invoked c') = S (length (invoked c)) /\ command_ring c' = command_ring c.
Proof.
  intros [He Ha Hc Hf Hall Hi] Hlt Hu b Hr'. destruct (Ha _ _ Hu) as [Hty Hpar].
  unfold handle_event. rewrite stamp_type, Hty. cbn [Z.eqb TYPE_TRANSFER_EVENT TYPE_COMMAND_COMPLETION_EVENT Pos.eqb].
  destruct (in_flight c) as [|r l] eqn:El; [cbn in Hc; lia|]. destruct (Hf 0%nat r eq_refl) as (aw & Haw & Hrq). rewrite Nat.add_0_r in *.
  unfold complete_by_block. cbn [set_event_ring requests in_flight]. rewrite El. cbn [find_request]. rewrite Hrq. cbn [mbind option_bind trb_phy].
  change (parameter (stamp b u)) with (parameter u). rewrite Hpar, Z.eqb_refl. cbn [mbind option_bind].
  unfold complete. cbn [set_event_ring requests]. rewrite Hrq. cbn [mbind option_bind]. eexists. split; [reflexivity|].
  assert (Hnd' : NoDup (free_requests c ++ r :: l)) by by rewrite Hall.
  apply NoDup_app in Hnd' as (Hn1 & Hn2 & Hn3). apply NoDup_cons in Hn3 as [Hrl Hnl].
  assert (Hrf : r ∉ free_requests c) by (intros H; apply (Hn2 _ H); by left).
  assert (Hlen : length (invoked c ++ [(aw, stamp b u)]) = S (length (invoked c))) by (rewrite length_app; cbn; lia).
  split; [|by cbn; rewrite Hlen].
  constructor; cbn [free_request invoke set_requests set_event_ring command_ring event_ring requests free_requests in_flight invoked callback];
    rewrite ?Hlen, ?El, ?(filter_absent r (free_requests c)) by done.
  - by replace (Z.of_nat (S (length (invoked c)))) with (Z.of_nat (length (invoked c)) + 1) by lia.
  - done.
  - rewrite filter_cons_False by (intros H; by apply H). rewrite filter_absent by done. cbn in Hc. lia.
  - rewrite filter_cons_False by (intros H; by apply H). rewrite filter_absent by done. intros i x Hx. destruct (Hf (S i) x Hx) as (aw' & H1 & H2).
    exists aw'. by replace (S (length (invoked c)) + i)%nat with (length (invoked c) + S i)%nat by lia.
  - rewrite filter_cons_False by (intros H; by apply H). rewrite filter_absent by done. rewrite <- Hall, <- app_assoc. done.
  - intros k aw' ev' Hk. apply lookup_app_Some in Hk as [Hk|[Hge Hk]]; [by apply Hi|].
    destruct (k - length (invoked c))%nat eqn:Ek; [|done]. injection Hk as <- <-. assert (k = length (invoked c)) as -> by lia. done.
Qed.

Lemma irq_ok turns : forall evs iss c, flight_ok evs iss c -> (length evs < turns + length (invoked c))%nat ->
  exists c', irq turns c = Some c' /\ flight_ok evs iss c' /\ length (invoked c') = length evs /\ command_ring c' = command_ring c.
Proof.
  induction turns as [|turns IH]; intros evs iss c Hf Ht; pose proof (ev_count _ _ _ (fo_events _ _ _ Hf)) as Hj; [lia|]. cbn [irq].
  destruct (decide (length (invoked c) < length evs)%nat) as [Hlt|Hge].
  - destruct (dequeue_some _ _ _ (fo_events _ _ _ Hf) ltac:(lia)) as (u & r' & Hu & -> & Hr'). cbn [mbind option_bind].
    rewrite Nat2Z.id in Hu. destruct (event_completes evs iss c r' u Hf Hlt Hu (lap_bit 256 (Z.of_nat (length (invoked c)))) Hr')
      as (c1 & -> & Hf1 & _ & Hl1 & Hc1). cbn [mbind option_bind].
    destruct (IH evs iss c1 Hf1 ltac:(lia)) as (c' & E & Hf' & Hl' & Hc'). exists c'. by rewrite Hc', Hc1.
  - assert (Heq : length (invoked c) = length evs) by lia. pose proof (fo_events _ _ _ Hf) as He. rewrite Heq in He.
    rewrite (dequeue_none _ _ He). cbn [mbind option_bind]. exists c. split; [by destruct c|done].
Qed.

Definition world_ok (w : World) : Prop :=
  flight_ok (answered w) (issued w) (ctl w) /\ ring_ok (commands w) (command_ring (ctl w)) /\
  consumer_at (Z.of_nat (length (answered w))) (consumer w) /\
  producer w = (Z.of_nat (length (answered w)) mod 256, lap_bit 256 (Z.of_nat (length (answered w)))) /\
  (forall t, t ∈ commands w -> trb_type t <> TYPE_LINK) /\ length (issued w) = length (commands w).

Lemma flight_few evs iss c : flight_ok evs iss c -> (length (in_flight c) <= 254)%nat.
Proof. intros Hf. pose proof (Permutation_length (fo_all _ _ _ Hf)) as H. rewrite length_app in H. lia. Qed.

Lemma send_ok evs iss items c trb aw : flight_ok evs iss c -> ring_ok items (command_ring c) -> length iss = length items ->
  send_command trb aw c = (Some zero_TRB, c) /\ free_requests c = [] \/
  exists c', send_command trb aw c = (None, c') /\ flight_ok evs (iss ++ [aw]) c' /\ ring_ok (items ++ [trb]) (command_ring c').
Proof.
  intros [He Ha Hc Hf Hall Hi] Hr Hlen. unfold send_command, alloc_request.
  destruct (free_requests c) as [|r l] eqn:Efree; [by left|right].
  destruct (enqueue_ok items (command_ring c) trb Hr) as (Hr' & Hphy & Hpage). cbn [set_requests command_ring].
  destruct (enqueue trb (command_ring c)) as [phy ring'] eqn:E. cbn [fst snd] in *. eexists. split; [reflexivity|]. split; [|done].
  assert (Hnd' : NoDup ((r :: l) ++ in_flight c)) by by rewrite Hall. apply NoDup_app in Hnd' as (Hn1 & Hn2 & Hn3).
  assert (Hadr : forall k, item_address ring' k = item_address (command_ring c) k) by (intros k; unfold item_address; by rewrite Hpage).
  constructor; cbn [ring_doorbell set_requests set_command_ring command_ring event_ring requests free_requests in_flight invoked].
  - done.
  - intros k ev Hk. rewrite Hadr. by apply Ha.
  - rewrite !length_app. cbn. lia.
  - intros i x Hx. rewrite Hadr. apply lookup_app_Some in Hx as [Hx|[Hge Hx]].
    + destruct (Hf i x Hx) as (aw' & H1 & H2). exists aw'. split; [by apply lookup_app_l_Some|]. rewrite lookup_insert_ne; [done|].
      intros ->. apply (Hn2 x); [by left|]. by eapply list_elem_of_lookup_2.
    + destruct (i - length (in_flight c))%nat eqn:Ei; [|done]. injection Hx as <-. exists aw.
      assert (Hii : (length (invoked c) + i)%nat = length iss) by lia. rewrite Hii, lookup_app_r, Nat.sub_diag by lia. split; [done|].
      rewrite lookup_insert_eq. by rewrite Hphy, Hlen.
  - rewrite <- Hall. cbn [app]. rewrite app_assoc. symmetry. apply Permutation_cons_append.
  - intros k aw' ev Hk. rewrite Hadr. destruct (Hi k aw' ev Hk) as [H1 H2]. split; [by apply lookup_app_l_Some|done].
Qed.

Lemma world_step w w' : world_ok w -> wstep w w' -> world_ok w'.
Proof.
  intros (Hf & Hr & Hcon & Hpro & Hty & Hlen) Hs. pose proof (flight_few _ _ _ Hf) as Hfew'. pose proof (fo_count _ _ _ Hf) as [Hc1 Hc2].
  pose proof (ev_count _ _ _ (fo_events _ _ _ Hf)) as Hj.
  destruct Hs as [w trb aw res c' Ht E|w t at' ev p' r' E Hev Hpar Hpost|w c' E].
  - destruct (send_ok _ _ _ _ trb aw Hf Hr Hlen) as [[E' _]|(c2 & E' & Hf' & Hr')]; rewrite E in E'; injection E' as -> ->; [done|].
    split; [done|]. split; [done|]. split; [done|]. split; [done|]. cbn [commands issued]. split; [|rewrite !length_app; cbn; lia].
    intros t Hin. apply elem_of_app in Hin as [Hin|Hin]; [by apply Hty|]. apply list_elem_of_singleton in Hin as ->. done.
  - destruct (fetch_ok _ _ _ _ Hr Hcon ltac:(lia) ltac:(lia) Hty) as [Hnone Hsome].
    destruct (decide (length (answered w) = length (commands w))) as [He|Hne].
    { destruct Hnone as (at2 & E2 & _); [lia|]. rewrite E in E2. done. }
    destruct Hsome as (u & Hu & E2 & Hcon'); [lia|]. rewrite E in E2. injection E2 as -> ->. rewrite Hpro in Hpost.
    destruct (post_ok _ _ _ ev (fo_events _ _ _ Hf) ltac:(lia) _ _ Hpost) as [-> Hev'].
    assert (Hla : length (answered w ++ [ev]) = S (length (answered w))) by (rewrite length_app; cbn; lia).
    split; [|split; [done|split; [|split; [done|split; [done|done]]]]].
    + destruct Hf as [He Ha Hc Hfl Hall Hi]. constructor; try done.
      * intros k e Hk. apply lookup_app_Some in Hk as [Hk|[Hge Hk]]; [by apply Ha|].
        destruct (k - length (answered w))%nat eqn:Ek; [|done]. injection Hk as <-. assert (k = length (answered w)) as -> by lia.
        split; [done|]. rewrite Hpar. cbn [fst set_event_ring command_ring ctl]. unfold item_address. lia.
      * cbn [ctl answered issued set_event_ring invoked in_flight]. rewrite Hla. lia.
    + cbn [answered consumer]. rewrite Hla. by replace (Z.of_nat (S (length (answered w)))) with (Z.of_nat (length (answered w)) + 1) by lia.
  - destruct (irq_ok 257 _ _ _ Hf ltac:(lia)) as (c2 & E2 & Hf2 & Hl2 & Hc2'). rewrite E in E2. injection E2 as <-.
    split; [done|]. cbn [ctl commands]. by rewrite Hc2'.
Qed.

Lemma world_facts w : world_ok w ->
  (forall k aw ev, invoked (ctl w) !! k = Some (aw, ev) -> issued w !! k = Some aw /\ parameter ev = item_address (command_ring (ctl w)) (Z.of_nat k)) /\
  (length (free_requests (ctl w)) + length (in_flight (ctl w)) = length all)%nat /\
  (forall trb aw, (send_command trb aw (ctl w)).1 = None \/ free_requests (ctl w) = []) /\
  (length (answered w) < length (commands w) -> exists t b at', commands w !! length (answered w) = Some t /\
     fetch 1 (ring (command_ring (ctl w))) (consumer w) = (Some (stamp b t), at'))%nat /\
  exists c', irq 257 (ctl w) = Some c' /\ length (invoked c') = length (answered w) /\
    (length (answered w) = length (commands w) -> in_flight c' = [] /\ map fst (invoked c') = issued w).
Proof.
  intros (Hf & Hr & Hcon & Hpro & Hty & Hlen). pose proof (flight_few _ _ _ Hf) as Hfew'. pose proof (fo_count _ _ _ Hf) as [Hc1 Hc2].
  pose proof (ev_count _ _ _ (fo_events _ _ _ Hf)) as Hj. split; [apply (fo_invoked _ _ _ Hf)|]. split.
  { pose proof (Permutation_length (fo_all _ _ _ Hf)) as H. by rewrite length_app in H. }
  split. { intros trb aw. destruct (send_ok _ _ _ _ trb aw Hf Hr Hlen) as [[_ He]|(c2 & -> & _)]; [by right|by left]. }
  split.
  { intros Hlt. destruct (fetch_ok _ _ _ _ Hr Hcon ltac:(lia) ltac:(lia) Hty) as [_ Hsome]. destruct Hsome as (u & Hu & E & _); [lia|].
    rewrite Nat2Z.id in Hu. eauto. }
  destruct (irq_ok 257 _ _ _ Hf ltac:(lia)) as (c' & E & Hf' & Hl & _). exists c'. split; [done|]. split; [done|]. intros He.
  pose proof (fo_count _ _ _ Hf') as [Hd1 Hd2]. split; [apply nil_length_inv; lia|].
  apply list_eq. intros k. rewrite list_lookup_fmap. destruct (invoked c' !! k) as [[aw ev]|] eqn:Ek; cbn.
  - by destruct (fo_invoked _ _ _ Hf' _ _ _ Ek) as [-> _].
  - apply lookup_ge_None in Ek. symmetry. apply lookup_ge_None. lia.
Qed.
End Commands.

Lemma init_requests_nodup base : NoDup (init_requests base).
Proof. apply (NoDup_fmap_2_strong (fun i => base + i * sizeof_Request)); [|apply NoDup_seqZ]. unfold sizeof_Request. intros x y _ _. nia. Qed.
Lemma init_requests_length base : length (init_requests base) = 102%nat.
Proof. unfold init_requests. rewrite length_map, length_seqZ. done. Qed.

Definition world_init (command_page event_page base : Z) : World := mkWorld (Controller_init command_page event_page base) (0, true) (0, true) [] [] [].
Lemma world_init_ok cp ep base : world_ok (init_requests base) (world_init cp ep base).
Proof.
  split; [|split; [apply EnqueueRing_init_ok|split; [by left|split; [done|split; [|done]]]]].
  - constructor; try done; try apply EventRing_init_ok.
  - intros t Ht. by apply not_elem_of_nil in Ht.
Qed.

(** C34: Commands sent while the controller executes them in order and interrupts
    come at any time: the waiters are resumed in the order they sent, each with
    the event of its own command; the ring cannot overrun, since there are 102
    requests, and a command is refused only when all are in flight; the
    controller finds the next command until it has executed all; the interrupt
    leaves no event, and when all commands are executed it leaves no waiter. *)
Theorem commands_complete_in_order command_page event_page base w :
  rtc wstep (world_init command_page event_page base) w ->
  (forall k aw ev, invoked (ctl w) !! k = Some (aw, ev) -> issued w !! k = Some aw /\ parameter ev = item_address (command_ring (ctl w)) (Z.of_nat k)) /\
  (length (free_requests (ctl w)) + length (in_flight (ctl w)) = 102)%nat /\
  (forall trb aw, (send_command trb aw (ctl w)).1 = None \/ free_requests (ctl w) = []) /\
  (length (answered w) < length (commands w) -> exists t b at', commands w !! length (answered w) = Some t /\
     fetch 1 (ring (command_ring (ctl w))) (consumer w) = (Some (stamp b t), at'))%nat /\
  exists c', irq 257 (ctl w) = Some c' /\ length (invoked c') = length (answered w) /\
    (length (answered w) = length (commands w) -> in_flight c' = [] /\ map fst (invoked c') = issued w).
Proof.
  intros Hw. rewrite <- (init_requests_length base).
  apply (world_facts (init_requests base)); [apply init_requests_nodup|by rewrite init_requests_length; lia|].
  apply rtc_ind_r with (P := world_ok (init_requests base)) in Hw; [done|apply world_init_ok|]. intros y z _ Hyz Hy.
  eapply world_step; [apply init_requests_nodup|rewrite init_requests_length; lia|done|done].
Qed.

(** ** Control requests *)

(** The event that carries a request's own address completes it. *)
Theorem event_data_completes r rq ev c : trb_type ev = TYPE_TRANSFER_EVENT -> Z.land (Z.shiftr (control ev) 16) 31 = 1 ->
  Z.testbit (control ev) 2 = true -> parameter ev = r -> requests c !! r = Some rq ->
  exists c', handle_event ev c = Some c' /\ invoked c' = invoked c ++ [(callback rq, ev)] /\ r ∈ free_requests c' /\ r ∉ in_flight c'.
Proof.
  intros Ht He Hb Hp Hr. unfold handle_event. rewrite Ht, He, Hb, Hp. cbn [Z.eqb TYPE_TRANSFER_EVENT Pos.eqb]. unfold complete. rewrite Hr.
  cbn [mbind option_bind]. eexists. split; [reflexivity|]. split; [done|]. cbn. split; [set_solver|]. intros H. apply list_elem_of_filter in H as [H _]. done.
Qed.

(** The blocks of a request are found by the controller, in order. *)
Lemma enqueue_all_ok l : forall items r phy, ring_ok items r -> ring_ok (items ++ l) (enqueue_all l phy r).2 /\ page (enqueue_all l phy r).2 = page r.
Proof.
  induction l as [|t l IH]; intros items r phy Hr; [by rewrite app_nil_r|]. cbn [enqueue_all].
  destruct (enqueue_ok items r t Hr) as (Hr' & _ & Hp). destruct (enqueue t r) as [phy' r'] eqn:E. cbn [snd] in *.
  destruct (IH (items ++ [t]) r' phy' Hr') as [H1 H2]. rewrite <- app_assoc in H1. by rewrite H2.
Qed.
Theorem request_blocks_enqueued slot d items blocks r l aw c : devices c !! slot = Some d -> ring_ok items (control_ring d) ->
  free_requests c = r :: l -> exists c' d', send_blocks slot blocks aw c = Some (None, c') /\ devices c' !! slot = Some d' /\
    ring_ok (items ++ blocks r) (control_ring d') /\ callback <$> requests c' !! r = Some aw /\ in_flight c' = in_flight c ++ [r].
Proof.
  intros Hd Hr Hf. unfold send_blocks, alloc_request. rewrite Hf. cbn [set_requests devices]. rewrite Hd. cbn [mbind option_bind].
  destruct (enqueue_all_ok (blocks r) items (control_ring d) 0 Hr) as [H1 _]. destruct (enqueue_all (blocks r) 0 (control_ring d)) as [phy ring'].
  eexists _, _. split; [reflexivity|]. cbn [ring_doorbell set_requests set_device devices requests in_flight].
  rewrite !lookup_insert_eq. done.
Qed.

(** ** Runs *)

(** 256 blocks on a ring of 255 that nobody has taken from: the controller finds
    nothing, and all are lost. *)
Example overrun_looks_empty :
  let r := Nat.iter 256 (fun r => (enqueue (mkTRB 0 0 (of_type TYPE_NORMAL 0)) r).2) (EnqueueRing_init 4096) in
  fetch 1 (ring r) (0, true) = (None, (0, true)).
Proof. vm_compute. done. Qed.

(** A transfer that fails in its data stage is reported at the block of that
    stage: no request has it, and the waiter is not resumed. *)
Definition ctl0 : Controller := set_device 1 (mkDevice 1 (EnqueueRing_init 8192) ∅) (Controller_init 4096 12288 1000000).
Example failed_transfer_is_not_seen :
  exists c, send_usb_request 1 (mkPacket 128 6 256 0 8) 20480 8 7 ctl0 = Some (None, c) /\
    handle_event (mkTRB (8192 + 16) (Z.shiftl 6 24) (Z.lor (Z.shiftl 1 24) (Z.lor (Z.shiftl 1 16) (Z.shiftl TYPE_TRANSFER_EVENT 10)))) c = Some c /\
    in_flight c = [1000000] /\ invoked c = [].
Proof. eexists. split; [vm_compute; reflexivity|]. vm_compute. done. Qed.

(** The blocks of a request and its completion. *)
Definition event0 : TRB := mkTRB 1000000 (Z.shiftl 1 24) (Z.lor (Z.shiftl 1 24) (Z.lor (Z.shiftl 1 16) (Z.lor 4 (Z.shiftl TYPE_TRANSFER_EVENT 10)))).
Example request_completed :
  exists c, send_usb_request 1 (mkPacket 128 6 256 0 8) 20480 8 7 ctl0 = Some (None, c) /\
    invoked <$> handle_event event0 c = Some [(7, event0)].
Proof. eexists. split; [vm_compute; reflexivity|]. vm_compute. done. Qed.

Definition command0 : TRB := mkTRB 0 0 (of_type TYPE_ENABLE_SLOT_CMD 0).
Definition sent0 : World := mkWorld (send_command command0 7 (Controller_init 4096 12288 1000000)).2 (0, true) (0, true) [] [command0] [7].
Lemma commands_complete_in_order_witness :
  (forall k aw ev, invoked (ctl sent0) !! k = Some (aw, ev) -> issued sent0 !! k = Some aw /\ parameter ev = item_address (command_ring (ctl sent0)) (Z.of_nat k)) /\
  (length (free_requests (ctl sent0)) + length (in_flight (ctl sent0)) = 102)%nat /\
  (forall trb aw, (send_command trb aw (ctl sent0)).1 = None \/ free_requests (ctl sent0) = []) /\
  (length (answered sent0) < length (commands sent0) -> exists t b at', commands sent0 !! length (answered sent0) = Some t /\
     fetch 1 (ring (command_ring (ctl sent0))) (consumer sent0) = (Some (stamp b t), at'))%nat /\
  exists c', irq 257 (ctl sent0) = Some c' /\ length (invoked c') = length (answered sent0) /\
    (length (answered sent0) = length (commands sent0) -> in_flight c' = [] /\ map fst (invoked c') = issued sent0).
Proof.
  apply (commands_complete_in_order 4096 12288 1000000). apply rtc_once.
  apply (x_send (world_init 4096 12288 1000000) command0 7 None (send_command command0 7 (Controller_init 4096 12288 1000000)).2); [done|].
  vm_compute. reflexivity.
Defined.
