(* ===== verification/XhciSetup.v ===== *)
(** Setting a controller and its devices up (src/kernel/src/dev/xhci.cpp): the
    parameters of the controller, its ports, resets with their time limits, and
    the conversation that finds a keyboard or a mouse behind a port, over the
    requests of Xhci.v.

    What the hardware answers is an argument: a function of how often it was
    asked, or the answers of the conversation. *)
From S2P Require Import Prelude Xhci.

(** ** Parameters *)

Record Params : Type := mkParams {
  max_device_slots : Z;
  max_interrupters : Z;
  max_ports : Z;
  max_scratchpad_buffers : Z;
  context_size_64_bytes : bool;
  extended_capabilities_offset : Z
}.
Definition read_params (hcsparams1 hcsparams2 hccparams1 : Z) : Params :=
  mkParams (Z.land hcsparams1 255) (Z.land (Z.shiftr hcsparams1 8) 2047) (Z.land (Z.shiftr hcsparams1 24) 255)
    (u8 (Z.lor (Z.shiftl (Z.land (Z.shiftr hcsparams2 21) 31) 5) (Z.land (Z.shiftr hcsparams2 27) 31)))
    (Z.testbit hccparams1 2) (Z.land (Z.shiftr hccparams1 16) 65535 * 4).

(** [iterate_extended_capabilities]: where the capabilities are, with their
    first word; [read] reads the registers. *)
Fixpoint capabilities (fuel : nat) (read : Z -> Z) (cap_ptr : Z) : option (list (Z * Z)) :=
  match fuel with
  | O => None
  | S fuel =>
      let cap_first := read cap_ptr in
      let next := 4 * Z.land (Z.shiftr cap_first 8) 255 in
      if next =? 0 then Some [(cap_ptr, cap_first)]
      else l ← capabilities fuel read (u32 (cap_ptr + next)); Some ((cap_ptr, cap_first) :: l)
  end.

(** ** Ports *)

Inductive PortType : Type := UNKNOWN | USB2 | USB3.
#[global] Instance PortType_dec : EqDecision PortType.
Proof. solve_decision. Defined.

Record Port : Type := mkPort { p_offset : Z; pair_index : Z; p_type : PortType; speed : Z; high_speed_only : bool; has_pair : bool; active : bool }.
Definition new_port : Port := mkPort 0 0 UNKNOWN 0 false false false.

(** A supported protocol gives its ports their type and a number among those of
    the protocol; the two counters are those numbers. *)
Definition protocol_ports (is3 hso : bool) : Z -> nat -> Z -> list Port -> option (list Port * Z) :=
  fix go i n count ports :=
    match n with
    | O => Some (ports, count)
    | S n =>
        p ← ports !! Z.to_nat i;
        go (i + 1) n (u8 (count + 1))
          (<[Z.to_nat i := mkPort count (pair_index p) (if is3 then USB3 else USB2) (speed p) (if is3 then high_speed_only p else hso)
                             (has_pair p) (active p)]> ports)
    end.
Definition supported_protocol (dword0 name dword2 : Z) (s : list Port * Z * Z) : option (list Port * Z * Z) :=
  let '(ports, usb2, usb3) := s in
  let major := Z.land (Z.shiftr dword0 24) 255 in
  let port_offset := u8 (Z.land dword2 255 - 1) in
  let port_count := Z.land (Z.shiftr dword2 8) 255 in
  let port_flags := Z.land (Z.shiftr dword2 16) 65535 in
  if negb (name =? 541217621) then Some s
  else if major =? 2 then
    '(ports, usb2) ← protocol_ports false (Z.testbit port_flags 1) port_offset (Z.to_nat port_count) usb2 ports; Some (ports, usb2, usb3)
  else if major =? 3 then
    '(ports, usb3) ← protocol_ports true false port_offset (Z.to_nat port_count) usb3 ports; Some (ports, usb2, usb3)
  else Some s.

(** A port of USB 3 and one of USB 2 with the same number are a pair. *)
Definition with_pair (j : Z) (p : Port) : Port := mkPort (p_offset p) j (p_type p) (speed p) (high_speed_only p) true (active p).
Definition pairs (a b : Port) : bool := (p_offset a =? p_offset b) && bool_decide (p_type a = USB3) && bool_decide (p_type b = USB2).
Definition pair_turn (ports : list Port) (ij : nat * nat) : list Port :=
  match ports !! ij.1, ports !! ij.2 with
  | Some a, Some b => if pairs a b then alter (with_pair (Z.of_nat ij.1)) ij.2 (alter (with_pair (Z.of_nat ij.2)) ij.1 ports) else ports
  | _, _ => ports
  end.
Definition pair_ports (ports : list Port) : list Port :=
  fold_left pair_turn (list_prod (seq 0 (length ports)) (seq 0 (length ports))) ports.
Definition with_active (a : bool) (p : Port) : Port := mkPort (p_offset p) (pair_index p) (p_type p) (speed p) (high_speed_only p) (has_pair p) a.
Definition activate (p : Port) : Port :=
  if bool_decide (p_type p = UNKNOWN) then p
  else if negb (has_pair p) || (has_pair p && bool_decide (p_type p = USB3)) then with_active true p else p.
Definition setup_ports (ports : list Port) : list Port := map activate (pair_ports ports).

(** ** Waiting with a limit *)

(** [while (!ready) { if (--timeout == 0) fail; stall; }]: [ready] is what the
    [k]th look finds. *)
Fixpoint wait_for (timeout : nat) (ready : nat -> bool) (k : nat) : bool :=
  match timeout with
  | O => false
  | S timeout => if ready k then true else wait_for timeout ready (S k)
  end.

Lemma wait_for_spec timeout ready : forall k, wait_for timeout ready k = true <-> exists i, (k <= i < k + timeout)%nat /\ ready i = true.
Proof.
  induction timeout as [|t IH]; intros k; cbn [wait_for]; [split; [done|intros (i & Hi & _); lia]|].
  destruct (ready k) eqn:E; [split; [intros _; exists k; split; [lia|done]|done]|]. rewrite IH. split.
  - intros (i & Hi & Hr). exists i. split; [lia|done].
  - intros (i & Hi & Hr). exists i. split; [|done]. destruct (decide (i = k)) as [->|]; [congruence|lia].
Qed.

(** [Controller::reset] and [start], by what the looks at the registers find. *)
Definition reset (halted ready : nat -> bool) : Z :=
  if negb (wait_for 200 halted 0) then - ETIMEDOUT else if negb (wait_for 1000 ready 0) then - ETIMEDOUT else 0.
Definition start (running : nat -> bool) (not_ready : bool) : Z :=
  if negb (wait_for 1000 running 0) then - ETIMEDOUT else if not_ready then - EAGAIN else 0.

(** ** Resetting a port *)

(** What a port's register shows: whether it has power at once, or after the
    stall; when the change bit of the reset is set; whether it is enabled then,
    and the register for its speed. *)
Record PortHw : Type := mkHw { power_now : bool; power_later : bool; reset_done : nat -> bool; enabled : bool; status_control : Z }.

(** A port of USB 3 that fails passes the reset on to its pair.  The pair of a
    port without one is port 0. *)
Fixpoint reset_port (fuel : nat) (hw : nat -> PortHw) (port_index : nat) (ports : list Port) : option (Z * list Port) :=
  match fuel with
  | O => None
  | S fuel =>
      p ← ports !! port_index;
      let h := hw port_index in
      if negb (power_now h) && negb (power_later h) then Some (- ETIMEDOUT, ports)
      else if wait_for 500 (reset_done h) 0 && enabled h then
        let sp := Z.land (Z.shiftr (status_control h) 10) 15 in
        Some (0, <[port_index := mkPort (p_offset p) (pair_index p) (p_type p) sp (high_speed_only p) (has_pair p) (active p)]> ports)
      else
        let ports := <[port_index := with_active false p]> ports in
        if bool_decide (p_type p = USB3) then
          let j := Z.to_nat (pair_index p) in
          reset_port fuel hw j (alter (with_active true) j ports)
        else Some (- ENODEV, ports)
  end.

(** A port with a pair of USB 2, or of USB 2 itself, is reset in two steps. *)
Theorem reset_port_returns hw i ports p : ports !! i = Some p ->
  (p_type p = USB3 -> exists q, ports !! Z.to_nat (pair_index p) = Some q /\ p_type q = USB2) ->
  exists r ports', reset_port 2 hw i ports = Some (r, ports') /\ length ports' = length ports /\ (r = 0 \/ r = - ETIMEDOUT \/ r = - ENODEV).
Proof.
  intros Hp Hpair. cbn [reset_port]. rewrite Hp. cbn [mbind option_bind].
  destruct (negb (power_now (hw i)) && negb (power_later (hw i))); [eauto 10|].
  destruct (wait_for 500 (reset_done (hw i)) 0 && enabled (hw i)); [eexists _, _; split; [reflexivity|]; rewrite length_insert; auto|].
  destruct (bool_decide (p_type p = USB3)) eqn:E; [apply bool_decide_eq_true in E|eexists _, _; split; [reflexivity|]; rewrite length_insert; auto].
  destruct (Hpair E) as (q & Hq & Hq2). set (j := Z.to_nat (pair_index p)) in *.
  assert (Hij : i <> j) by (intros Hij; rewrite <- Hij, Hp in Hq; congruence).
  rewrite list_lookup_alter_eq, list_lookup_insert_ne, Hq by done. cbn [fmap option_fmap option_map mbind option_bind].
  destruct (negb (power_now (hw j)) && negb (power_later (hw j))).
  { eexists _, _. split; [reflexivity|]. rewrite length_alter, length_insert. auto. }
  destruct (wait_for 500 (reset_done (hw j)) 0 && enabled (hw j)).
  { eexists _, _. split; [reflexivity|]. rewrite length_insert, length_alter, length_insert. auto. }
  cbn [with_active p_type]. rewrite Hq2. cbn. eexists _, _. split; [reflexivity|]. rewrite length_insert, length_alter, length_insert. auto.
Qed.

(** A port of USB 3 without a pair that does not come up: port 0 calls the reset
    of port 0, without end. *)
Theorem reset_port_endless hw p ports fuel : p_type p = USB3 -> pair_index p = 0 -> (power_now (hw 0%nat) = true) -> enabled (hw 0%nat) = false ->
  reset_port fuel hw 0 (p :: ports) = None.
Proof.
  intros Ht Hi Hpw He. revert p Ht Hi. induction fuel as [|fuel IH]; intros p Ht Hi; [done|]. cbn [reset_port lookup list_lookup mbind option_bind].
  rewrite Hpw, He, andb_false_r, Ht, Hi. cbn. by apply IH.
Qed.

(** ** Which ports are used *)

Definition paired (ports : list Port) (i : nat) (ij : nat * nat) : bool :=
  match ports !! ij.1, ports !! ij.2 with
  | Some a, Some b => pairs a b && ((ij.1 =? i)%nat || (ij.2 =? i)%nat)
  | _, _ => false
  end.
Definition key (p : Port) : Z * PortType * bool := (p_offset p, p_type p, active p).

Lemma pairs_key a b a' b' : key a = key a' -> key b = key b' -> pairs a b = pairs a' b'.
Proof. unfold pairs, key. intros [= -> -> _] [= -> -> _]. done. Qed.

Lemma pair_turn_spec ports ij i p : ports !! i = Some p -> exists p', pair_turn ports ij !! i = Some p' /\ key p' = key p /\
  has_pair p' = has_pair p || paired ports i ij.
Proof.
  intros Hp. destruct ij as [a b]. unfold pair_turn, paired. cbn [fst snd].
  destruct (ports !! a) as [pa|] eqn:Ea; [|exists p; by rewrite orb_false_r]. destruct (ports !! b) as [pb|] eqn:Eb; [|exists p; by rewrite orb_false_r].
  destruct (pairs pa pb) eqn:E; [|exists p; by rewrite orb_false_r]. cbn [andb].
  destruct (decide (b = i)) as [->|Hb].
  - rewrite list_lookup_alter_eq. rewrite Nat.eqb_refl, orb_true_r, orb_true_r. destruct (decide (a = i)) as [->|Ha].
    + rewrite list_lookup_alter_eq, Hp. eexists. split; [reflexivity|]. done.
    + rewrite list_lookup_alter_ne by done. rewrite Hp. eexists. split; [reflexivity|]. done.
  - rewrite list_lookup_alter_ne by done. rewrite (proj2 (Nat.eqb_neq b i)) by done. rewrite orb_false_r. destruct (decide (a = i)) as [->|Ha].
    + rewrite list_lookup_alter_eq, Hp, Nat.eqb_refl, orb_true_r. eexists. split; [reflexivity|]. done.
    + rewrite list_lookup_alter_ne by done. rewrite (proj2 (Nat.eqb_neq a i)) by done. rewrite Hp, orb_false_r. by exists p.
Qed.

Lemma pair_turn_length ports ij : length (pair_turn ports ij) = length ports.
Proof. unfold pair_turn. destruct (ports !! ij.1), (ports !! ij.2); [|done..]. destruct (pairs _ _); [|done]. by rewrite !length_alter. Qed.

Lemma paired_turn ports ij i kl : paired (pair_turn ports ij) i kl = paired ports i kl.
Proof.
  assert (H : forall n, option_map key (pair_turn ports ij !! n) = option_map key (ports !! n)).
  { intros n. destruct (ports !! n) as [p|] eqn:E.
    - destruct (pair_turn_spec ports ij n p E) as (p' & -> & Hk & _). cbn. by rewrite Hk.
    - apply lookup_ge_None in E. rewrite <- (pair_turn_length ports ij) in E. apply lookup_ge_None in E. by rewrite E. }
  unfold paired. pose proof (H kl.1) as H1. pose proof (H kl.2) as H2.
  destruct (pair_turn ports ij !! kl.1) as [a|], (ports !! kl.1) as [a'|]; try done.
  destruct (pair_turn ports ij !! kl.2) as [b|], (ports !! kl.2) as [b'|]; try done.
  rewrite (pairs_key a b a' b'); [done| |]; cbn [option_map] in *; congruence.
Qed.

Lemma pair_fold_spec l : forall ports i p, ports !! i = Some p -> exists p', fold_left pair_turn l ports !! i = Some p' /\ key p' = key p /\
  has_pair p' = has_pair p || existsb (paired ports i) l.
Proof.
  induction l as [|ij l IH]; intros ports i p Hp; cbn [fold_left existsb]; [exists p; by rewrite orb_false_r|].
  destruct (pair_turn_spec ports ij i p Hp) as (p1 & Hp1 & Hk1 & Hh1). destruct (IH _ i p1 Hp1) as (p' & Hp' & Hk & Hh).
  exists p'. split; [done|]. split; [congruence|]. rewrite Hh, Hh1, <- orb_assoc. f_equal. f_equal. clear.
  induction l as [|x l IHl]; cbn [existsb]; [done|]. by rewrite paired_turn, IHl.
Qed.

(** From ports that are not yet active: a port is used exactly when it has a
    protocol and is not the USB 2 side of a pair. *)
Theorem setup_ports_active ports i p : ports !! i = Some p -> (forall q, q ∈ ports -> has_pair q = false /\ active q = false) ->
  exists p', setup_ports ports !! i = Some p' /\ p_type p' = p_type p /\
    (active p' = true <-> p_type p = USB3 \/
       p_type p = USB2 /\ ~ exists j q, ports !! j = Some q /\ p_type q = USB3 /\ p_offset q = p_offset p).
Proof.
  intros Hp Hnew. set (l := list_prod (seq 0 (length ports)) (seq 0 (length ports))).
  destruct (pair_fold_spec l ports i p Hp) as (p1 & Hp1 & Hk & Hh). destruct (Hnew p (list_elem_of_lookup_2 _ _ _ Hp)) as [Hp0 Ha0].
  rewrite Hp0, orb_false_l in Hh. exists (activate p1). unfold setup_ports, pair_ports. rewrite list_lookup_fmap. fold l. rewrite Hp1.
  split; [done|]. unfold key in Hk. injection Hk as Ho Ht Hact.
  assert (Hpair : p_type p = USB2 -> has_pair p1 = true <-> exists j q, ports !! j = Some q /\ p_type q = USB3 /\ p_offset q = p_offset p).
  { intros H2. rewrite Hh, existsb_exists. split.
    - intros ([a b] & _ & H). unfold paired in H. cbn [fst snd] in H. destruct (ports !! a) as [pa|] eqn:Ea; [|done].
      destruct (ports !! b) as [pb|] eqn:Eb; [|done]. apply andb_true_iff in H as [H Hor]. unfold pairs in H.
      apply andb_true_iff in H as [H Hb]. apply andb_true_iff in H as [Hoff Ha]. apply Z.eqb_eq in Hoff. apply bool_decide_eq_true in Ha, Hb.
      apply orb_true_iff in Hor as [He|He]; apply Nat.eqb_eq in He as ->; [congruence|]. exists a, pa. assert (pb = p) as -> by congruence. done.
    - intros (j & q & Hj & Hq & Hoff). exists (j, i). split.
      + apply in_prod; apply in_seq; [apply lookup_lt_Some in Hj|apply lookup_lt_Some in Hp]; lia.
      + unfold paired. cbn [fst snd]. rewrite Hj, Hp. unfold pairs. rewrite Hoff, Z.eqb_refl, Hq, H2, !bool_decide_eq_true_2, Nat.eqb_refl by done.
        by rewrite orb_true_r. }
  unfold activate. rewrite Ht. destruct (p_type p) eqn:Et; case_bool_decide; try done; try (case_bool_decide; try done).
  - rewrite Hact, Ha0. split; [done|]. split; [done|]. intros [?|[? _]]; done.
  - rewrite andb_false_r, orb_false_r. destruct (has_pair p1) eqn:E; cbn [negb].
    + rewrite Hact, Ha0. split; [done|]. split; [done|]. intros [?|[_ Hn]]; [done|]. exfalso. apply Hn. by apply Hpair.
    + split; [done|]. split; [|done]. intros _. right. split; [done|]. intros Hex. apply Hpair in Hex; done.
  - rewrite andb_true_r. destruct (has_pair p1); cbn [negb orb]; (split; [done|split; [by left|done]]).
Qed.

(** ** The conversation with a device

    What the driver asks, and what it does with the answers.  A command or a
    request with data gives the answer's block and, for the latter, the bytes
    written to the data page; [Crash] is an index past the end of a buffer, [Stuck]
    a loop cut off by its fuel. *)
Record EndpointContext : Type := mkEpContext {
  endpoint_type : Z; error_count : Z; max_packet_size : Z; max_burst_size : Z; interval : Z; average_trb_length : Z; max_esit_payload_low : Z
}.
(** The input context: what the controller reads with a command. *)
Record InputContext : Type := mkInput {
  add_flags : Z; drop_flags : Z; context_entries : Z; slot_speed : Z; root_hub_port : Z; control_ep : EndpointContext; interrupt_ep : option EndpointContext
}.

(** [Report] asks for the first report of the device. *)
Inductive Setup : Type :=
| Finished
| Crash
| Stuck
| Command (trb : TRB) (input : option InputContext) (k : TRB -> Setup)
| Request (p : UsbRequestPacket) (len : Z) (k : TRB -> list Z -> Setup)
| RequestNoData (p : UsbRequestPacket) (k : TRB -> Setup)
| Found (mouse : bool) (k : Setup)
| ParseReport (bytes : list Z) (k : Setup)
| Report.

Definition code (t : TRB) : Z := Z.shiftr (status t) 24.
(** Nothing more is done when an answer is not a success. *)
Definition if_success (t : TRB) (k : Setup) : Setup := if code t =? 1 then k else Finished.
Definition byte (bs : list Z) (i : Z) (k : Z -> Setup) : Setup :=
  match bs !! Z.to_nat i with Some b => k b | None => Crash end.
Definition word (bs : list Z) (i : Z) (k : Z -> Setup) : Setup := byte bs i (fun a => byte bs (i + 1) (fun b => k (a + 256 * b))).

Definition LOW_SPEED : Z := 2.
Definition FULL_SPEED : Z := 1.
Definition HIGH_SPEED : Z := 3.
Definition get_initial_max_packet_size (port_speed : Z) : Z :=
  if port_speed =? LOW_SPEED then 8 else if (port_speed =? FULL_SPEED) || (port_speed =? HIGH_SPEED) then 64 else 512.

(** The exponent of an endpoint's interval: 125 microseconds times a power of
    two. *)
Fixpoint interval_loop (turns : nat) (endpoint_interval specified : Z) : Z :=
  match turns with
  | O => endpoint_interval
  | S turns =>
      if endpoint_interval <? 10 then
        if specified * 1000 <? 125 * Z.shiftl 1 (endpoint_interval + 1) then endpoint_interval
        else interval_loop turns (endpoint_interval + 1) specified
      else endpoint_interval
  end.
Definition endpoint_interval (port_speed specified : Z) : Z :=
  if (port_speed =? LOW_SPEED) || (port_speed =? FULL_SPEED) then interval_loop 8 3 specified else u8 (specified - 1).

Definition DESCRIPTOR_DEVICE : Z := 1.
Definition DESCRIPTOR_CONFIGURATION : Z := 2.
Definition DESCRIPTOR_INTERFACE : Z := 4.
Definition DESCRIPTOR_ENDPOINT : Z := 5.
Definition DESCRIPTOR_HID : Z := 33.
Definition DESCRIPTOR_HID_REPORT : Z := 34.
Definition get_descriptor (type idx index len : Z) : UsbRequestPacket := mkPacket 128 6 (Z.lor (Z.shiftl type 8) idx) index len.

(** What the walk over the configuration keeps: whether a mouse or a keyboard was
    found, and the input context. *)
Record Walk : Type := mkWalk { hid_found : bool; current_interface : Z; input : InputContext }.

Definition with_endpoint (dci : Z) (e : EndpointContext) (i : InputContext) : InputContext :=
  mkInput (Z.lor (add_flags i) (Z.shiftl 1 dci)) (drop_flags i) (Z.max (dci + 1) (context_entries i)) (slot_speed i) (root_hub_port i)
    (control_ep i) (Some e).

(** Past an interface nobody drives: to the next interface descriptor, or to
    one of length 0. *)
Fixpoint skip_interface (fuel : nat) (config : list Z) (total ptr : Z) (k : Z -> Setup) : Setup :=
  match fuel with
  | O => Stuck
  | S fuel =>
      if ptr <? total then
        byte config (ptr + 1) (fun ty => byte config ptr (fun len =>
          if (ty =? DESCRIPTOR_INTERFACE) || (len =? 0) then k ptr else skip_interface fuel config total (ptr + len) k))
      else k ptr
  end.

(** The HID descriptor: the first report descriptor it names is asked for. *)
Fixpoint hid_descriptors (n : nat) (config : list Z) (ptr i : Z) (w : Walk) (k : Setup) : Setup :=
  match n with
  | O => k
  | S n =>
      byte config (ptr + 6 + i * 3) (fun ty => word config (ptr + 7 + i * 3) (fun len =>
        if ty =? DESCRIPTOR_HID_REPORT then
          if PAGE_SIZE <? len then k
          else
            Request (mkPacket 129 6 (Z.shiftl DESCRIPTOR_HID_REPORT 8) (current_interface w) len) len (fun res data =>
              if_success res (if hid_found w then ParseReport (take (Z.to_nat len) data) k else k))
        else hid_descriptors n config ptr (i + 1) w k))
  end.

(** An endpoint descriptor: only the interrupt endpoint IN 1 is set up. *)
Definition endpoint_descriptor (port_speed : Z) (config : list Z) (ptr : Z) (w : Walk) (k : Walk -> Setup) : Setup :=
  byte config (ptr + 2) (fun address => byte config (ptr + 3) (fun attributes =>
  word config (ptr + 4) (fun packet => byte config (ptr + 6) (fun specified =>
    if negb (Z.land attributes 3 =? 3) then k w
    else
      let direction := Z.shiftr address 7 in
      let dci := Z.land address 15 * 2 + Z.b2z (negb (direction =? 0)) in
      if negb (dci =? 3) then k w
      else
        let burst := Z.shiftr (Z.land packet 6144) 11 in
        let e := mkEpContext (Z.lor (Z.land attributes 3) (Z.shiftl (Z.b2z (negb (direction =? 0))) 2)) 3 (Z.land packet 2047) burst
                   (u8 (endpoint_interval port_speed specified)) 0 (u16 (packet * (burst + 1))) in
        k (mkWalk (hid_found w) (current_interface w) (with_endpoint dci e (input w))))))).

(** An interface descriptor: [k] goes on from a place, which is past what was
    skipped. *)
Definition interface_descriptor (config : list Z) (total ptr desc_length : Z) (w : Walk) (k : Z -> Walk -> Setup) : Setup :=
  byte config (ptr + 2) (fun interface_num => byte config (ptr + 5) (fun class_code => byte config (ptr + 7) (fun protocol =>
    let w' := mkWalk true interface_num (input w) in
    if (class_code =? 3) && (protocol =? 2) then Found true (k ptr w')
    else if (class_code =? 3) && (protocol =? 1) then Found false (k ptr w')
    else skip_interface (S (length config)) config total (ptr + desc_length) (fun ptr => k ptr (mkWalk (hid_found w) interface_num (input w)))))).

Fixpoint walk_config (fuel : nat) (port_speed : Z) (config : list Z) (total ptr : Z) (w : Walk) (k : Walk -> Setup) : Setup :=
  match fuel with
  | O => Stuck
  | S fuel =>
      if ptr <? total then
        byte config ptr (fun desc_length => byte config (ptr + 1) (fun desc_type =>
          if desc_length =? 0 then k w
          else if desc_type =? DESCRIPTOR_INTERFACE then
            interface_descriptor config total ptr desc_length w (fun ptr w => walk_config fuel port_speed config total (ptr + desc_length) w k)
          else if desc_type =? DESCRIPTOR_ENDPOINT then
            endpoint_descriptor port_speed config ptr w (fun w => walk_config fuel port_speed config total (ptr + desc_length) w k)
          else if desc_type =? DESCRIPTOR_HID then
            byte config (ptr + 5) (fun num =>
              hid_descriptors (Z.to_nat num) config ptr 0 w (walk_config fuel port_speed config total (ptr + desc_length) w k))
          else walk_config fuel port_speed config total (ptr + desc_length) w k))
      else k w
  end.

(** [setup_device] for a port of some speed.  [input_phy] is the page of the
    input context, [data] the data page before the first request, and
    [ring_phy] the control ring's page with its cycle bit. *)
Definition control_endpoint (mps : Z) : EndpointContext := mkEpContext 4 3 mps 0 0 8 0.
Definition overwrite (bytes data : list Z) : list Z := bytes ++ drop (length bytes) data.

(** A request for a string, whose answer is only printed. *)
Definition print_string (index lang : Z) (data : list Z) (must : bool) (k : list Z -> Setup) : Setup :=
  if index =? 0 then k data
  else Request (string_packet index lang) 256 (fun res bytes =>
         let data := overwrite bytes data in if must then if_success res (k data) else k data).

(** The first language is taken unless US English is among them; the count is a
    byte. *)
Fixpoint choose_lang (n : nat) (i : Z) (data : list Z) (k : Z -> Setup) : Setup :=
  match n with
  | O => word data 2 k
  | S n => word data (2 * (i + 1)) (fun lang => if lang =? 1033 then k lang else choose_lang n (i + 1) data k)
  end.
Definition num_languages (len : Z) : Z := u8 (Z.quot (len - 2) 2).

Section SetupDevice.
Context (input_phy : Z) (max_slots : Z).

Definition device_command (ty slot : Z) : TRB := mkTRB input_phy 0 (of_type ty (u32 (Z.shiftl slot 24))).

(** The end: the configuration is set and the endpoints configured, and the
    first report is asked for. *)
Definition configure_device (slot config_value : Z) (report_protocol_usable : bool) (w : Walk) : Setup :=
  if negb (hid_found w) then Finished
  else if add_flags (input w) =? 0 then Finished
  else
    let i := input w in
    let i := mkInput (Z.lor (add_flags i) 1) (drop_flags i) (context_entries i) (slot_speed i) (root_hub_port i) (control_ep i) (interrupt_ep i) in
    RequestNoData (mkPacket 0 9 config_value 0 0) (fun res => if_success res
      (Command (device_command TYPE_CONFIGURE_ENDPOINT_CMD slot) (Some i) (fun res => if_success res
        (RequestNoData (mkPacket 33 11 (Z.b2z report_protocol_usable) 0 0) (fun res => if_success res Report))))).

(** The configuration descriptor of up to 256 bytes. *)
Definition read_configuration (speed slot lang : Z) (rpu : bool) (i : InputContext) (data : list Z) : Setup :=
  Request (get_descriptor DESCRIPTOR_CONFIGURATION 0 0 256) 256 (fun res bytes => if_success res
    (let data := overwrite bytes data in
     byte data 0 (fun config_desc_length => word data 2 (fun total => byte data 5 (fun config_value => byte data 6 (fun config_string =>
       if 256 <? total then Finished
       else
         let config := take (Z.to_nat total) data in
         print_string config_string lang data false (fun _ =>
           walk_config (S (Z.to_nat total)) speed config total config_desc_length
             (mkWalk false 0 (mkInput 0 0 (context_entries i) (slot_speed i) (root_hub_port i) (control_ep i) (interrupt_ep i)))
             (configure_device slot config_value rpu)))))))).

Definition read_strings (manufacturer product serial lang : Z) (data : list Z) (k : list Z -> Setup) : Setup :=
  print_string manufacturer lang data true (fun data => print_string product lang data true (fun data => print_string serial lang data true k)).

(** The whole descriptor of the device, and its languages. *)
Definition read_names (speed slot : Z) (rpu : bool) (len : Z) (i : InputContext) (data : list Z) : Setup :=
  Request (get_descriptor DESCRIPTOR_DEVICE 0 0 len) len (fun res bytes => if_success res
    (let data := overwrite bytes data in
     byte data 14 (fun manufacturer => byte data 15 (fun product => byte data 16 (fun serial =>
       Request (string_packet 0 0) 256 (fun res bytes => if_success res
         (let data := overwrite bytes data in
          byte data 0 (fun n => choose_lang (Z.to_nat (num_languages n)) 0 data (fun lang =>
            read_strings manufacturer product serial lang data (read_configuration speed slot lang rpu i)))))))))).

(** The start of the descriptor of the device, with the size of its packets. *)
Definition read_device (speed slot : Z) (rpu : bool) (i : InputContext) (data : list Z) : Setup :=
  let mps := max_packet_size (control_ep i) in
  Request (get_descriptor DESCRIPTOR_DEVICE 0 0 mps) mps (fun res bytes => if_success res
    (let data := overwrite bytes data in
     byte data 0 (fun len => byte data 7 (fun new_mps =>
       let i' := mkInput (add_flags i) (drop_flags i) (context_entries i) (slot_speed i) (root_hub_port i) (control_endpoint new_mps) (interrupt_ep i) in
       if mps =? new_mps then read_names speed slot rpu len i data
       else Command (device_command TYPE_EVALUATE_CONTEXT_CMD slot) (Some i') (fun res => if_success res (read_names speed slot rpu len i' data)))))).

Definition setup_device (port_index speed : Z) (rpu : bool) (data : list Z) : Setup :=
  Command (mkTRB 0 0 (of_type TYPE_ENABLE_SLOT_CMD 0)) None (fun res => if_success res
    (let slot := Z.shiftr (control res) 24 in
     if max_slots <=? slot then Crash
     else
       let i := mkInput 3 0 1 speed (u8 (port_index + 1)) (control_endpoint (get_initial_max_packet_size speed)) None in
       Command (device_command TYPE_ADDRESS_DEVICE_CMD slot) (Some i) (fun res => if_success res (read_device speed slot rpu i data)))).
End SetupDevice.

(** ** Running the conversation *)

(** What was asked, in order. *)
Inductive Asked : Type :=
| A_command (type : Z) (input : option InputContext)
| A_request (p : UsbRequestPacket)
| A_found (mouse : bool)
| A_report_descriptor (bytes : list Z)
| A_report
| A_crash
| A_stuck.

(** The answers: a block, and the bytes for the data page. *)
Fixpoint converse (fuel : nat) (answers : list (TRB * list Z)) (s : Setup) : list Asked :=
  match fuel with
  | O => []
  | S fuel =>
      match s with
      | Finished => []
      | Crash => [A_crash]
      | Stuck => [A_stuck]
      | Report => [A_report]
      | Found m k => A_found m :: converse fuel answers k
      | ParseReport bs k => A_report_descriptor bs :: converse fuel answers k
      | Command t i k => A_command (trb_type t) i :: match answers with [] => [] | (r, _) :: a => converse fuel a (k r) end
      | Request p _ k => A_request p :: match answers with [] => [] | (r, bs) :: a => converse fuel a (k r bs) end
      | RequestNoData p k => A_request p :: match answers with [] => [] | (r, _) :: a => converse fuel a (k r) end
      end
  end.

(** An interval is the largest power of two that is not longer than asked for. *)
Theorem interval_is_floor port_speed specified : port_speed = LOW_SPEED \/ port_speed = FULL_SPEED -> 1 <= specified <= 255 ->
  let r := endpoint_interval port_speed specified in 3 <= r <= 10 /\ 125 * 2 ^ r <= specified * 1000 < 125 * 2 ^ (r + 1).
Proof.
  intros Hp Hs. unfold endpoint_interval. assert ((port_speed =? LOW_SPEED) || (port_speed =? FULL_SPEED) = true) as ->.
  { destruct Hp as [-> | ->]; done. }
  cbn zeta. assert (H : forallb (fun s => let r := interval_loop 8 3 s in
    (3 <=? r) && (r <=? 10) && (125 * 2 ^ r <=? s * 1000) && (s * 1000 <? 125 * 2 ^ (r + 1))) (seqZ 1 255) = true) by (vm_compute; reflexivity).
  rewrite forallb_forall in H. specialize (H specified). rewrite <- list_elem_of_In, elem_of_seqZ in H. specialize (H ltac:(lia)).
  cbn zeta in H. rewrite !andb_true_iff, !Z.leb_le, Z.ltb_lt in H. lia.
Qed.

(** ** The conversation ends *)

(** Whatever bytes and blocks are answered, no loop is cut off: a conversation
    of this type is finite. *)
Definition bytes_ok (bs : list Z) : Prop := Forall (fun b => 0 <= b < 256) bs.
Inductive finite : Setup -> Prop :=
| finite_finished : finite Finished
| finite_crash : finite Crash
| finite_report : finite Report
| finite_command t i k : (forall r, finite (k r)) -> finite (Command t i k)
| finite_request p len k : (forall r bs, bytes_ok bs -> finite (k r bs)) -> finite (Request p len k)
| finite_request_no_data p k : (forall r, finite (k r)) -> finite (RequestNoData p k)
| finite_found m k : finite k -> finite (Found m k)
| finite_parse bs k : finite k -> finite (ParseReport bs k).
#[local] Hint Constructors finite : setup.

Lemma finite_if t k : finite k -> finite (if_success t k).
Proof. unfold if_success. destruct (code t =? 1); auto with setup. Qed.
Lemma finite_byte bs i k : bytes_ok bs -> (forall b, 0 <= b < 256 -> finite (k b)) -> finite (byte bs i k).
Proof.
  intros Hb Hk. unfold byte. destruct (bs !! Z.to_nat i) as [b|] eqn:E; [|constructor]. apply Hk. by eapply (Forall_lookup_1 _ _ _ _ Hb).
Qed.
Lemma finite_word bs i k : bytes_ok bs -> (forall b, 0 <= b < 65536 -> finite (k b)) -> finite (word bs i k).
Proof. intros Hb Hk. apply finite_byte; [done|]. intros a Ha. apply finite_byte; [done|]. intros b Hb'. apply Hk. lia. Qed.
Lemma overwrite_ok bs data : bytes_ok bs -> bytes_ok data -> bytes_ok (overwrite bs data).
Proof. intros Hb Hd. apply Forall_app. split; [done|]. by apply Forall_drop. Qed.
#[local] Hint Resolve finite_if finite_byte finite_word overwrite_ok : setup.

Lemma finite_skip config total k : bytes_ok config -> forall fuel ptr, 0 <= ptr -> (forall p, ptr <= p -> finite (k p)) ->
  (length config - Z.to_nat ptr < fuel)%nat -> finite (skip_interface fuel config total ptr k).
Proof.
  intros Hc. induction fuel as [|fuel IH]; intros ptr Hp Hk Hf; [lia|]. cbn [skip_interface]. destruct (ptr <? total); [|by apply Hk].
  apply finite_byte; [done|]. intros ty _. unfold byte. destruct (config !! Z.to_nat ptr) as [len|] eqn:E; [|constructor].
  pose proof (Forall_lookup_1 _ _ _ _ Hc E) as Hlen. cbn in Hlen. apply lookup_lt_Some in E.
  destruct ((ty =? DESCRIPTOR_INTERFACE) || (len =? 0)) eqn:Ez; [apply Hk; lia|]. apply orb_false_iff in Ez as [_ Ez]. apply Z.eqb_neq in Ez.
  apply IH; [lia| |lia]. intros p Hp'. apply Hk. lia.
Qed.

Lemma finite_hid n config ptr w k : bytes_ok config -> finite k -> forall i, finite (hid_descriptors n config ptr i w k).
Proof.
  intros Hc Hk. induction n as [|n IH]; intros i; cbn [hid_descriptors]; [done|]. apply finite_byte; [done|]. intros ty _.
  apply finite_word; [done|]. intros len _. destruct (ty =? DESCRIPTOR_HID_REPORT); [|done]. destruct (PAGE_SIZE <? len); [done|].
  constructor. intros res bs _. apply finite_if. destruct (hid_found w); auto with setup.
Qed.

Lemma finite_endpoint speed config ptr w k : bytes_ok config -> (forall w, finite (k w)) -> finite (endpoint_descriptor speed config ptr w k).
Proof.
  intros Hc Hk. unfold endpoint_descriptor. apply finite_byte; [done|]. intros address _. apply finite_byte; [done|]. intros attributes _.
  apply finite_word; [done|]. intros packet _. apply finite_byte; [done|]. intros specified _. case_match; [done|]. case_match; done.
Qed.

Lemma finite_interface config total ptr dl w k : bytes_ok config -> 0 <= ptr -> 0 <= dl -> (forall p w, ptr <= p -> finite (k p w)) ->
  finite (interface_descriptor config total ptr dl w k).
Proof.
  intros Hc Hp Hd Hk. unfold interface_descriptor. apply finite_byte; [done|]. intros num _. apply finite_byte; [done|]. intros cls _.
  apply finite_byte; [done|]. intros prot _. case_match; [constructor; apply Hk; lia|]. case_match; [constructor; apply Hk; lia|].
  apply finite_skip; [done|lia| |lia]. intros p Hp'. apply Hk. lia.
Qed.

Lemma finite_walk speed config total k : bytes_ok config -> (forall w, finite (k w)) -> forall fuel ptr w, 0 <= ptr ->
  (Z.to_nat total - Z.to_nat ptr < fuel)%nat -> finite (walk_config fuel speed config total ptr w k).
Proof.
  intros Hc Hk. induction fuel as [|fuel IH]; intros ptr w Hp Hf; [lia|]. cbn [walk_config]. destruct (ptr <? total) eqn:Et; [|apply Hk].
  apply Z.ltb_lt in Et. apply finite_byte; [done|]. intros dl Hdl. apply finite_byte; [done|]. intros ty _.
  destruct (dl =? 0) eqn:Ez; [apply Hk|]. apply Z.eqb_neq in Ez.
  assert (Hnext : forall p w, ptr <= p -> finite (walk_config fuel speed config total (p + dl) w k)) by (intros p w' Hp'; apply IH; lia).
  destruct (ty =? DESCRIPTOR_INTERFACE); [by apply finite_interface; try lia|]. destruct (ty =? DESCRIPTOR_ENDPOINT); [apply finite_endpoint; [done|]; intros w'; apply Hnext; lia|].
  destruct (ty =? DESCRIPTOR_HID); [|apply Hnext; lia]. apply finite_byte; [done|]. intros num _. apply finite_hid; [done|]. apply Hnext; lia.
Qed.

Lemma finite_string index lang data must k : bytes_ok data -> (forall data, bytes_ok data -> finite (k data)) ->
  finite (print_string index lang data must k).
Proof.
  intros Hd Hk. unfold print_string. destruct (index =? 0); [by apply Hk|]. constructor. intros res bs Hbs. destruct must; auto with setup.
Qed.

Lemma finite_lang n data k : bytes_ok data -> (forall l, finite (k l)) -> forall i, finite (choose_lang n i data k).
Proof.
  intros Hd Hk. induction n as [|n IH]; intros i; cbn [choose_lang]; (apply finite_word; [done|]); intros l _; [done|]. destruct (l =? 1033); [done|]. apply IH.
Qed.

Lemma finite_configure input_phy slot cv rpu w : finite (configure_device input_phy slot cv rpu w).
Proof. unfold configure_device. case_match; [constructor|]. case_match; [constructor|]. repeat (constructor; intros; try apply finite_if). Qed.

Lemma finite_configuration input_phy speed slot lang rpu i data : bytes_ok data -> finite (read_configuration input_phy speed slot lang rpu i data).
Proof.
  intros Hd. unfold read_configuration. constructor. intros res bs Hbs. apply finite_if. assert (Ho : bytes_ok (overwrite bs data)) by auto with setup.
  apply finite_byte; [done|]. intros dl Hdl. apply finite_word; [done|]. intros total Ht. apply finite_byte; [done|]. intros cv _.
  apply finite_byte; [done|]. intros str _. destruct (256 <? total); [constructor|]. apply finite_string; [done|]. intros _ _.
  apply finite_walk; [by apply Forall_take|intros w; apply finite_configure|lia|lia].
Qed.

Lemma finite_names input_phy speed slot rpu len i data : bytes_ok data -> finite (read_names input_phy speed slot rpu len i data).
Proof.
  intros Hd. unfold read_names. constructor. intros res bs Hbs. apply finite_if. assert (Ho : bytes_ok (overwrite bs data)) by auto with setup.
  do 3 (apply finite_byte; [done|]; intros ? _). constructor. intros res' bs' Hbs'. apply finite_if.
  apply finite_byte; [auto with setup|]. intros n _. apply finite_lang; [auto with setup|]. intros lang. unfold read_strings.
  apply finite_string; [auto with setup|]. intros d1 Hd1. apply finite_string; [done|]. intros d2 Hd2. apply finite_string; [done|].
  intros d3 Hd3. by apply finite_configuration.
Qed.

Lemma finite_device input_phy speed slot rpu i data : bytes_ok data -> finite (read_device input_phy speed slot rpu i data).
Proof.
  intros Hd. unfold read_device. constructor. intros res bs Hbs. apply finite_if. assert (Ho : bytes_ok (overwrite bs data)) by auto with setup.
  apply finite_byte; [done|]. intros len _. apply finite_byte; [done|]. intros mps _. cbv zeta. case_match; [by apply finite_names|].
  constructor. intros r. by apply finite_if, finite_names.
Qed.

Theorem setup_device_finite input_phy max_slots port_index speed rpu data : bytes_ok data ->
  finite (setup_device input_phy max_slots port_index speed rpu data).
Proof.
  intros Hd. unfold setup_device. constructor. intros res. apply finite_if. case_match; [constructor|]. constructor. intros res'. apply finite_if.
  by apply finite_device.
Qed.

(** ** Runs *)

Definition success : TRB := mkTRB 0 (Z.shiftl 1 24) (Z.shiftl 1 24).
Definition device_bytes : list Z := [18; 1; 0; 2; 0; 0; 0; 8; 39; 6; 1; 0; 0; 0; 1; 2; 0; 1].
Definition storage_interface : list Z := [9; 4; 0; 0; 0; 8; 6; 80; 0].
Definition keyboard_interface : list Z := [9; 4; 0; 0; 1; 3; 1; 1; 0; 9; 33; 17; 1; 0; 1; 34; 3; 0; 7; 5; 129; 3; 8; 0; 10].
Definition config_bytes (interfaces : list Z) : list Z := [9; 2; 9 + Z.of_nat (length interfaces); 0; 1; 1; 0; 160; 50] ++ interfaces.

(** A device at full speed with these interfaces, which answers everything. *)
Definition talk (interfaces : list Z) : list Asked :=
  let s0 := (success, []) in
  let str := (success, [4; 3; 9; 4]) in
  converse 40 [s0; s0; (success, take 8 device_bytes); s0; (success, device_bytes); str; str; str; (success, config_bytes interfaces);
               (success, [5; 1; 9]); s0; s0; s0]
    (setup_device 65536 32 0 FULL_SPEED true (replicate (Z.to_nat PAGE_SIZE) 174)).

(** A keyboard: its endpoint is 3 with an interval of 2^6 times 125
    microseconds. *)
Example keyboard_set_up :
  let ep8 := control_endpoint 8 in
  let i0 := mkInput 3 0 1 FULL_SPEED 1 (control_endpoint 64) None in
  talk keyboard_interface =
  [ A_command TYPE_ENABLE_SLOT_CMD None; A_command TYPE_ADDRESS_DEVICE_CMD (Some i0); A_request (get_descriptor DESCRIPTOR_DEVICE 0 0 64);
    A_command TYPE_EVALUATE_CONTEXT_CMD (Some (mkInput 3 0 1 FULL_SPEED 1 ep8 None)); A_request (get_descriptor DESCRIPTOR_DEVICE 0 0 18);
    A_request (string_packet 0 0); A_request (string_packet 1 1033); A_request (string_packet 2 1033);
    A_request (get_descriptor DESCRIPTOR_CONFIGURATION 0 0 256); A_found false; A_request (mkPacket 129 6 8704 0 3); A_report_descriptor [5; 1; 9];
    A_request (mkPacket 0 9 1 0 0);
    A_command TYPE_CONFIGURE_ENDPOINT_CMD (Some (mkInput 9 0 4 FULL_SPEED 1 ep8 (Some (mkEpContext 7 3 8 0 6 0 8))));
    A_request (mkPacket 33 11 1 0 0); A_report ].
Proof. vm_compute. reflexivity. Qed.

(** The same keyboard behind an interface nobody drives is not found: after
    skipping to its descriptor the walk skips that descriptor too. *)
Example keyboard_not_found : A_found false ∉ talk (storage_interface ++ keyboard_interface) /\ A_report ∉ talk (storage_interface ++ keyboard_interface).
Proof.
  assert (E : exists l, talk (storage_interface ++ keyboard_interface) = l /\ forallb (fun a => match a with A_found _ | A_report => false | _ => true end) l = true)
    by (vm_compute; eexists; split; reflexivity).
  destruct E as (l & -> & Hl). rewrite forallb_forall in Hl. split; intros H; apply list_elem_of_In in H; by apply Hl in H.
Qed.

(** The last slot a controller may give is past the end of the devices. *)
Example last_slot_out_of_range :
  converse 9 [(mkTRB 0 (Z.shiftl 1 24) (Z.shiftl 32 24), [])] (setup_device 65536 32 0 FULL_SPEED true []) = [A_command TYPE_ENABLE_SLOT_CMD None; A_crash].
Proof. vm_compute. reflexivity. Qed.
