(* ===== verification/Lock.v ===== *)
(** Spin locks and the guards that mask interrupts (src/kernel/src/klib/lock.hpp):
    any number of processors take one lock, each through a guard, and
    interrupts, whose handlers take the lock too, come wherever they are
    enabled.

    The lock is taken by one atomic exchange; the debug counter of the spin and
    its stack trace are left out. *)
From S2P Require Import Prelude.

(** Where a function is in a guard: outside, with interrupts masked before
    [lock], between [lock] and [unlock], and before they are restored; [old] is
    what [InterruptLock] saved. *)
Inductive Frame : Type := Outside | Masked (old : bool) | Locked (old : bool) | Unlocked (old : bool).

(** A processor: whether interrupts are enabled, and its frames, the innermost
    handler first. *)
Record Cpu : Type := mkCpu { interrupts : bool; frames : list Frame }.

(** [locked] is the lock's flag. *)
Record System : Type := mkSystem { locked : bool; cpus : list Cpu }.

(** The constructor of [InterruptLock] and its destructor. *)
Definition InterruptLock (c : Cpu) : option Cpu :=
  match frames c with
  | Outside :: l => Some (mkCpu false (Masked (interrupts c) :: l))
  | _ => None
  end.
Definition InterruptLock_end (c : Cpu) : option Cpu :=
  match frames c with
  | Unlocked old :: l => Some (mkCpu old (Outside :: l))
  | _ => None
  end.

(** [lock] panics where interrupts are enabled ([inl]); a flag that is set
    changes nothing, and the loop tries again. *)
Definition lock (flag : bool) (c : Cpu) : option (unit + (bool * Cpu)) :=
  match frames c with
  | Masked old :: l =>
      if interrupts c then Some (inl tt) else Some (inr (true, if flag then c else mkCpu (interrupts c) (Locked old :: l)))
  | _ => None
  end.
Definition unlock (c : Cpu) : option (bool * Cpu) :=
  match frames c with
  | Locked old :: l => Some (false, mkCpu (interrupts c) (Unlocked old :: l))
  | _ => None
  end.

(** An interrupt is taken where they are enabled, and they are not in its
    handler; the return enables them. *)
Definition interrupt (c : Cpu) : option Cpu := if interrupts c then Some (mkCpu false (Outside :: frames c)) else None.
Definition interrupt_return (c : Cpu) : option Cpu :=
  match frames c with
  | Outside :: f :: l => if interrupts c then None else Some (mkCpu true (f :: l))
  | _ => None
  end.

Definition set_cpu (i : nat) (flag : bool) (c : Cpu) (s : System) : System := mkSystem flag (<[i := c]> (cpus s)).

(** One processor does one thing. *)
Inductive step : System -> System -> Prop :=
| step_mask s i c c' : cpus s !! i = Some c -> InterruptLock c = Some c' -> step s (set_cpu i (locked s) c' s)
| step_lock s i c flag c' : cpus s !! i = Some c -> lock (locked s) c = Some (inr (flag, c')) -> step s (set_cpu i flag c' s)
| step_unlock s i c flag c' : cpus s !! i = Some c -> unlock c = Some (flag, c') -> step s (set_cpu i flag c' s)
| step_restore s i c c' : cpus s !! i = Some c -> InterruptLock_end c = Some c' -> step s (set_cpu i (locked s) c' s)
| step_interrupt s i c c' : cpus s !! i = Some c -> interrupt c = Some c' -> step s (set_cpu i (locked s) c' s)
| step_return s i c c' : cpus s !! i = Some c -> interrupt_return c = Some c' -> step s (set_cpu i (locked s) c' s).

Definition init (n : nat) : System := mkSystem false (replicate n (mkCpu true [Outside])).

(** ** Mutual exclusion *)

Definition in_section (f : Frame) : bool := match f with Locked _ => true | _ => false end.
Definition holds (c : Cpu) : bool := match frames c with f :: _ => in_section f | [] => false end.

(** Only the innermost frame of a processor is in a guard, and then interrupts
    are masked; what it will restore is what the frames below expect. *)
Definition expected (below : list Frame) : bool := match below with [] => true | _ => false end.
Definition cpu_ok (c : Cpu) : Prop :=
  exists f l, frames c = f :: l /\ (l = [] \/ l = [Outside]) /\
    match f with
    | Outside => interrupts c = expected l
    | Masked old | Locked old | Unlocked old => interrupts c = false /\ old = expected l
    end.

Definition holders (l : list Cpu) : nat := sum_list_with (fun c => Nat.b2n (holds c)) l.
Definition system_ok (s : System) : Prop := Forall cpu_ok (cpus s) /\ holders (cpus s) = Nat.b2n (locked s).

Lemma holders_insert i c c' l : l !! i = Some c -> (holders (<[i := c']> l) + Nat.b2n (holds c) = holders l + Nat.b2n (holds c'))%nat.
Proof.
  revert i. induction l as [|x l IH]; intros [|i] H; [done|done| |].
  - injection H as ->. unfold holders. change (<[0%nat:=c']> (c :: l)) with (c' :: l). cbn [sum_list_with]. lia.
  - specialize (IH i H). unfold holders in *. change (<[S i:=c']> (x :: l)) with (x :: <[i:=c']> l). cbn [sum_list_with]. lia.
Qed.

(** The frames of a processor that is well-formed. *)
Ltac frames_of c :=
  intros (f & l & Hf & Hl & Hr); destruct c as [b fr]; cbn in Hf; subst fr; unfold holds; cbn in *.

Lemma mask_ok c c' : InterruptLock c = Some c' -> cpu_ok c -> cpu_ok c' /\ holds c' = holds c.
Proof.
  intros E. frames_of c. unfold InterruptLock in E. cbn in E. destruct f; try done. injection E as <-. split; [|done].
  exists (Masked b), l. cbn. auto.
Qed.
Lemma lock_ok flag c fl c' : lock flag c = Some (inr (fl, c')) -> cpu_ok c ->
  cpu_ok c' /\ (Nat.b2n fl + Nat.b2n (holds c) = Nat.b2n flag + Nat.b2n (holds c'))%nat.
Proof.
  intros E. frames_of c. unfold lock in E. cbn in E. destruct f; try done. destruct Hr as [-> ->]. destruct flag; injection E as <- <-; (split; [|done]).
  - exists (Masked (expected l)), l. cbn. auto.
  - exists (Locked (expected l)), l. cbn. auto.
Qed.
Lemma unlock_ok c fl c' : unlock c = Some (fl, c') -> cpu_ok c -> cpu_ok c' /\ fl = false /\ holds c = true /\ holds c' = false.
Proof.
  intros E. frames_of c. unfold unlock in E. cbn in E. destruct f; try done. injection E as <- <-. split; [|done]. eexists _, l. cbn. eauto.
Qed.
Lemma restore_ok c c' : InterruptLock_end c = Some c' -> cpu_ok c -> cpu_ok c' /\ holds c' = holds c.
Proof.
  intros E. frames_of c. unfold InterruptLock_end in E. cbn in E. destruct f; try done. injection E as <-. split; [|done].
  exists Outside, l. cbn. destruct Hr as [_ ->]. auto.
Qed.
Lemma interrupt_ok c c' : interrupt c = Some c' -> cpu_ok c -> cpu_ok c' /\ holds c' = holds c.
Proof.
  intros E. frames_of c. unfold interrupt in E. cbn in E. destruct b; [|done]. injection E as <-.
  destruct f; [|by destruct Hr..]. destruct l; [|done]. split; [|done]. exists Outside, [Outside]. cbn. auto.
Qed.
Lemma return_ok c c' : interrupt_return c = Some c' -> cpu_ok c -> cpu_ok c' /\ holds c' = holds c.
Proof.
  intros E. frames_of c. unfold interrupt_return in E. cbn in E. destruct f; try done. destruct l as [|f l]; [done|]. destruct b; [done|].
  injection E as <-. destruct Hl as [?|[= -> ->]]; [done|]. split; [|done]. exists Outside, []. cbn. auto.
Qed.

Lemma set_ok s i c c' flag : system_ok s -> cpus s !! i = Some c -> (cpu_ok c -> cpu_ok c') ->
  (cpu_ok c -> Nat.b2n flag + Nat.b2n (holds c) = Nat.b2n (locked s) + Nat.b2n (holds c'))%nat -> system_ok (set_cpu i flag c' s).
Proof.
  intros [Hc Hn] Hi Hok Hh. pose proof (Forall_lookup_1 _ _ _ _ Hc Hi) as Hci. split; cbn [set_cpu cpus locked].
  - apply Forall_insert; auto.
  - pose proof (holders_insert i c c' (cpus s) Hi). specialize (Hh Hci). lia.
Qed.

Lemma step_ok s s' : system_ok s -> step s s' -> system_ok s'.
Proof.
  intros Hs Hst. destruct Hst as [s i c c' Hi E|s i c flag c' Hi E|s i c flag c' Hi E|s i c c' Hi E|s i c c' Hi E|s i c c' Hi E];
    apply (set_ok s i c c' _ Hs Hi); intros Hc.
  - by apply (mask_ok c c' E).
  - destruct (mask_ok c c' E Hc) as [_ ->]. lia.
  - by apply (lock_ok _ c flag c' E).
  - by apply (lock_ok _ c flag c' E).
  - by apply (unlock_ok c flag c' E).
  - destruct (unlock_ok c flag c' E Hc) as (_ & -> & H1 & H2). rewrite H1, H2. destruct Hs as [_ Hn].
    pose proof (holders_insert i c c' (cpus s) Hi) as Hh. rewrite H1, H2 in Hh. destruct (locked s); cbn in *; lia.
  - by apply (restore_ok c c' E).
  - destruct (restore_ok c c' E Hc) as [_ ->]. lia.
  - by apply (interrupt_ok c c' E).
  - destruct (interrupt_ok c c' E Hc) as [_ ->]. lia.
  - by apply (return_ok c c' E).
  - destruct (return_ok c c' E Hc) as [_ ->]. lia.
Qed.

Lemma init_ok n : system_ok (init n).
Proof.
  split; cbn [init cpus locked].
  - apply Forall_replicate. exists Outside, []. cbn. auto.
  - induction n as [|n IH]; [done|]. cbn. done.
Qed.

Lemma reachable_ok n s : rtc step (init n) s -> system_ok s.
Proof. intros H. apply rtc_ind_r with (P := system_ok) in H; [done|apply init_ok|]. intros y z _ Hyz Hy. by eapply step_ok. Qed.

Lemma holders_two i j l ci cj : l !! i = Some ci -> l !! j = Some cj -> holds ci = true -> holds cj = true -> i <> j -> (2 <= holders l)%nat.
Proof.
  revert i j. unfold holders. induction l as [|x l IH]; intros i j Hi Hj H1 H2 Hij; [done|]. cbn [sum_list_with].
  assert (Hone : forall k c, l !! k = Some c -> holds c = true -> (1 <= sum_list_with (fun c => Nat.b2n (holds c)) l)%nat).
  { clear. induction l as [|y l IHl]; intros k c Hk Hc; [done|]. cbn [sum_list_with]. destruct k as [|k]; [injection Hk as ->; rewrite Hc; cbn; lia|].
    specialize (IHl k c Hk Hc). lia. }
  destruct i as [|i], j as [|j]; [done| | |].
  - injection Hi as ->. rewrite H1. specialize (Hone j cj Hj H2). cbn. lia.
  - injection Hj as ->. rewrite H2. specialize (Hone i ci Hi H1). cbn. lia.
  - specialize (IH i j Hi Hj H1 H2 ltac:(lia)). lia.
Qed.

(** At most one processor is between [lock] and [unlock], and one is exactly
    when the flag is set. *)
Theorem mutual_exclusion n s : rtc step (init n) s ->
  (forall i j ci cj, cpus s !! i = Some ci -> cpus s !! j = Some cj -> holds ci = true -> holds cj = true -> i = j) /\
  (locked s = true <-> exists i c, cpus s !! i = Some c /\ holds c = true).
Proof.
  intros H. apply reachable_ok in H as [_ Hn]. assert (Hle : (holders (cpus s) <= 1)%nat) by (rewrite Hn; destruct (locked s); cbn; lia). split.
  - intros i j ci cj Hi Hj H1 H2. destruct (decide (i = j)) as [|Hne]; [done|].
    pose proof (holders_two i j (cpus s) ci cj Hi Hj H1 H2 Hne). lia.
  - split.
    + intros Hl. rewrite Hl in Hn. cbn in Hn. clear Hle. induction (cpus s) as [|x l IH]; [done|]. unfold holders in *. cbn [sum_list_with] in Hn.
      destruct (holds x) eqn:E; [by exists 0%nat, x|]. destruct (IH Hn) as (i & c & Hi & Hc). by exists (S i), c.
    + intros (i & c & Hi & Hc). destruct (locked s); [done|]. pose proof (holders_insert i c (mkCpu true []) (cpus s) Hi) as Hh. rewrite Hc in Hh. cbn in *. lia.
Qed.

(** [lock] never panics; a processor that has the lock or waits for it takes no
    interrupt, so that its handlers cannot wait for it in turn; and outside of
    guards interrupts are enabled except in a handler. *)
Theorem guards_mask_interrupts n s i c : rtc step (init n) s -> cpus s !! i = Some c ->
  lock (locked s) c <> Some (inl tt) /\
  (forall f l, frames c = f :: l -> f <> Outside -> interrupt c = None /\ forall g, g ∈ l -> g = Outside) /\
  (forall l, frames c = Outside :: l -> interrupts c = true <-> l = []).
Proof.
  intros H Hi. apply reachable_ok in H as [Hc _]. destruct (Forall_lookup_1 _ _ _ _ Hc Hi) as (f & l & Hf & Hl & Hr).
  split; [|split].
  - unfold lock. rewrite Hf. destruct f; try done. destruct Hr as [-> _]. done.
  - intros f' l' Hf' Hne. rewrite Hf in Hf'. injection Hf' as <- <-. split.
    + unfold interrupt. destruct f; [done|by destruct Hr as [-> _]..].
    + intros g Hg. destruct Hl as [-> | ->]; [by apply not_elem_of_nil in Hg|]. by apply list_elem_of_singleton in Hg.
  - intros l' Hf'. rewrite Hf in Hf'. injection Hf' as -> <-. rewrite Hr. by destruct l.
Qed.

(** What a guard leaves: interrupts as it found them. *)
Theorem guard_restores c c1 fl c2 fl' c3 c4 : InterruptLock c = Some c1 -> lock false c1 = Some (inr (fl, c2)) -> unlock c2 = Some (fl', c3) ->
  InterruptLock_end c3 = Some c4 -> c4 = c /\ fl = true /\ fl' = false.
Proof.
  destruct c as [b [|[|?|?|?] l]]; cbn; try done. intros [= <-]. cbn. intros [= <- <-]. cbn. intros [= <- <-]. cbn. by intros [= <-].
Qed.
