(* ===== verification/Pci.v ===== *)
(** The PCI bus (src/kernel/src/dev/pci.hpp, pci.cpp): access to the
    configuration space of a function in words of 32 bits, base address
    registers and their sizes, capabilities, MSI-X, and the search for
    functions.

    A function's configuration space is 64 registers.  What a write does to one
    is described by two masks: the bits that take the value written, and those
    that a one clears. *)
From S2P Require Import Prelude.

(** ** Configuration space *)

Record Register : Type := mkRegister { word : Z; writable : Z; clears : Z }.
Abbreviation Space := (list Register).

Definition VENDOR_ID : Z := 0.
Definition DEVICE_ID : Z := 2.
Definition COMMAND : Z := 4.
Definition STATUS : Z := 6.
Definition CLASS : Z := 11.
Definition SUBCLASS : Z := 10.
Definition PROG_IF : Z := 9.
Definition HEADER_TYPE : Z := 14.
Definition CAP_PTR : Z := 52.
Definition IRQ_DISABLE : Z := 1024.

(** The address put in the address port, and the registers behind it. *)
Definition config_addr (bus device function offset : Z) : Z :=
  Z.lor 2147483648 (Z.lor (Z.land offset (Z.lnot 3)) (Z.lor (Z.shiftl function 8) (Z.lor (Z.shiftl device 11) (Z.shiftl bus 16)))).
Definition register_of (offset : Z) : nat := Z.to_nat (Z.shiftr (Z.land offset (Z.lnot 3)) 2).

Definition config_read32 (offset : Z) (s : Space) : option Z := r ← s !! register_of offset; Some (word r).
Definition config_read16 (offset : Z) (s : Space) : option Z :=
  v ← config_read32 offset s; Some (Z.land (Z.shiftr v (offset mod 4 * 8)) 65535).
Definition config_read8 (offset : Z) (s : Space) : option Z :=
  v ← config_read32 offset s; Some (Z.land (Z.shiftr v (offset mod 4 * 8)) 255).

Definition write_register (v : Z) (r : Register) : Register :=
  mkRegister (Z.ldiff (Z.lor (Z.ldiff (word r) (writable r)) (Z.land v (writable r))) (Z.land v (clears r))) (writable r) (clears r).
Definition config_write32 (offset v : Z) (s : Space) : option Space :=
  r ← s !! register_of offset; Some (<[register_of offset := write_register (u32 v) r]> s).

(** The narrower writes read the register and write it back. *)
Definition insert_bits (old mask value bit_offset : Z) : Z := Z.lor (Z.ldiff old (Z.shiftl mask bit_offset)) (Z.shiftl value bit_offset).
Definition config_write16 (offset v : Z) (s : Space) : option Space :=
  old ← config_read32 offset s; config_write32 offset (u32 (insert_bits old 65535 v (8 * Z.land offset 3))) s.
Definition config_write8 (offset v : Z) (s : Space) : option Space :=
  old ← config_read32 offset s; config_write32 offset (u32 (insert_bits old 255 v (8 * Z.land offset 3))) s.

Definition set_command (mask : Z) (value : bool) (s : Space) : option Space :=
  command ← config_read16 COMMAND s;
  config_write16 COMMAND (if value then Z.lor command mask else Z.ldiff command mask) s.

(** ** Base addresses *)

Record BAR : Type := mkBAR { b_address : Z; b_physical : Z; b_length : Z; is_mmio : bool; is_64_bit : bool; is_prefetchable : bool }.
Definition IO : Z := 1.
Definition TYPE_64_BIT : Z := 4.
Definition PREFETCHABLE : Z := 8.

(** [get_bar] for one not yet known; [map] gives the address memory is mapped
    at, for a length and a physical address. *)
Definition get_bar (map : Z -> Z -> Z) (index : Z) (s : Space) : option (BAR * Space) :=
  let offset := 16 + index * 4 in
  bar ← config_read32 offset s;
  if negb (Z.land bar IO =? 0) then
    s1 ← config_write32 offset (-1) s;
    v ← config_read32 offset s1;
    s2 ← config_write32 offset bar s1;
    Some (mkBAR (Z.land bar (Z.lnot 3)) 0 (u32 (Z.lnot (Z.land v (Z.lnot 3)) + 1)) false false false, s2)
  else
    let is64 := Z.land bar 6 =? TYPE_64_BIT in
    high ← (if is64 then config_read32 (offset + 4) s else Some 0);
    let physical := u64 (Z.land bar (Z.lnot 15) + Z.shiftl high 32) in
    s1 ← config_write32 offset (-1) s;
    v ← config_read32 offset s1;
    s2 ← config_write32 offset bar s1;
    let length := u32 (Z.lnot (Z.land v (Z.lnot 15)) + 1) in
    Some (mkBAR (map length physical) physical length true is64 (negb (Z.land bar PREFETCHABLE =? 0)), s2).

(** ** Capabilities and MSI-X *)

(** [iterate_capabilities]: where the capabilities are. *)
Fixpoint capability_list (fuel : nat) (cap_ptr : Z) (s : Space) : option (list Z) :=
  if cap_ptr =? 0 then Some []
  else
    match fuel with
    | O => None
    | S fuel =>
        v ← config_read8 (cap_ptr + 1) s;
        l ← capability_list fuel (Z.land v (Z.lnot 3)) s;
        Some (cap_ptr :: l)
    end.
Definition iterate_capabilities (fuel : nat) (s : Space) : option (list Z) :=
  status ← config_read16 STATUS s;
  if Z.testbit status 4 then
    p ← config_read8 CAP_PTR s; capability_list fuel (Z.land p (Z.lnot 3)) s
  else Some [].

Record MSIX : Type := mkMSIX { cap_ptr : Z; table_bar_index : Z; table_bar_offset : Z; pending_bar_index : Z; pending_bar_offset : Z; entry_count : Z }.
Definition msix_init (cap : Z) (s : Space) : option (MSIX * Space) :=
  c ← config_read16 (cap + 2) s;
  let msg_control := Z.lor c 49152 in
  s1 ← config_write16 (cap + 2) msg_control s;
  t ← config_read32 (cap + 4) s1;
  p ← config_read32 (cap + 8) s1;
  s2 ← set_command IRQ_DISABLE true s1;
  Some (mkMSIX cap (Z.land t 7) (Z.land t (Z.lnot 7)) (Z.land p 7) (Z.land p (Z.lnot 7)) (Z.land msg_control 1023 + 1), s2).
Definition msix_set_mask (mask : bool) (m : MSIX) (s : Space) : option Space :=
  c ← config_read16 (cap_ptr m + 2) s;
  config_write16 (cap_ptr m + 2) (if mask then Z.lor c 16384 else Z.ldiff c 16384) s.

(** The message of an interrupt: address and data; and the words of the table's
    entry, as offset and value. *)
Definition msi_format_message (vector : Z) (edge_trigger deassert : bool) (lapic_id : Z) : Z * Z :=
  (Z.lor 4276092928 (Z.shiftl lapic_id 12), Z.lor (if edge_trigger then 0 else 32768) (Z.lor (if deassert then 0 else 16384) vector)).
Definition msix_add (m : MSIX) (msix_vec vec : Z) (edge_trigger deassert : bool) (lapic_id : Z) : option (list (Z * Z)) :=
  if msix_vec <? entry_count m then
    let '(address, data) := msi_format_message vec edge_trigger deassert lapic_id in
    let offset := u32 (table_bar_offset m + msix_vec * 16) in
    Some [(offset, address); (offset + 8, data); (offset + 12, 0)]
  else None.

(** ** The functions of the bus *)

(** [vendor] and [header_type] are those registers of a function. *)
Section Bus.
Context (vendor header_type : Z -> Z -> Z -> Z).

Definition check_device (bus dev : Z) : list (Z * Z * Z) :=
  if vendor bus dev 0 =? 65535 then []
  else
    (bus, dev, 0) ::
    (if negb (Z.land (header_type bus dev 0) 128 =? 0)
     then map (fun f => (bus, dev, f)) (filter (fun f => vendor bus dev f <> 65535) (seqZ 1 7)) else []).
Definition enumerate : list (Z * Z * Z) := flat_map (fun bus => flat_map (fun dev => check_device bus dev) (seqZ 0 32)) (seqZ 0 256).
End Bus.

Inductive Driver : Type := VirtioNet | VirtioBlock | Xhci.
Definition driver_of (vendor_id device_id class_code subclass_code prog_if : Z) : option Driver :=
  if (vendor_id =? 6900) && (device_id =? 4096) then Some VirtioNet
  else if (vendor_id =? 6900) && (device_id =? 4097) then Some VirtioBlock
  else if (class_code =? 12) && (subclass_code =? 3) && (prog_if =? 48) then Some Xhci
  else None.

(** ** What is found *)

Lemma elem_of_flat_map {A B} (f : A -> list B) l y : y ∈ flat_map f l <-> exists x, x ∈ l /\ y ∈ f x.
Proof. rewrite list_elem_of_In, in_flat_map. by setoid_rewrite list_elem_of_In. Qed.

(** Each function that is there and can be found is found once: those of a
    device whose function 0 is there, others only if it says so. *)
Theorem enumerate_finds vendor header_type b d f :
  (b, d, f) ∈ enumerate vendor header_type <->
  0 <= b < 256 /\ 0 <= d < 32 /\ 0 <= f < 8 /\ vendor b d 0 <> 65535 /\
  (f = 0 \/ (Z.land (header_type b d 0) 128 <> 0 /\ vendor b d f <> 65535)).
Proof.
  unfold enumerate. rewrite elem_of_flat_map. setoid_rewrite elem_of_flat_map. setoid_rewrite elem_of_seqZ. unfold check_device. split.
  - intros (b' & Hb & d' & Hd & H). destruct (vendor b' d' 0 =? 65535) eqn:E; [by apply not_elem_of_nil in H|]. apply Z.eqb_neq in E.
    apply elem_of_cons in H as [H|H]; [injection H as -> -> ->; auto with lia|].
    destruct (Z.land (header_type b' d' 0) 128 =? 0) eqn:Eh; [by apply not_elem_of_nil in H|]. apply Z.eqb_neq in Eh.
    apply list_elem_of_fmap in H as (f' & [= -> -> ->] & H). apply list_elem_of_filter in H as [Hv Hf]. apply elem_of_seqZ in Hf. auto with lia.
  - intros (Hb & Hd & Hf & Hv & Hor). exists b. split; [lia|]. exists d. split; [lia|]. rewrite (proj2 (Z.eqb_neq _ _)) by done.
    apply elem_of_cons. destruct (decide (f = 0)) as [->|Hne]; [by left|right]. destruct Hor as [|[Hh Hvf]]; [done|].
    rewrite (proj2 (Z.eqb_neq _ 0)) by done. cbn [negb]. apply list_elem_of_fmap. exists f. split; [done|]. apply list_elem_of_filter.
    split; [done|]. apply elem_of_seqZ. lia.
Qed.

Lemma NoDup_flat_map {A B} (f : A -> list B) l : NoDup l -> (forall x, x ∈ l -> NoDup (f x)) ->
  (forall x y b, x ∈ l -> y ∈ l -> b ∈ f x -> b ∈ f y -> x = y) -> NoDup (flat_map f l).
Proof.
  induction l as [|x l IH]; intros Hn Hf Hd; [constructor|]. apply NoDup_cons in Hn as [Hx Hn]. cbn [flat_map]. apply NoDup_app. split; [|split].
  - apply Hf. by left.
  - intros b Hb Hin. apply elem_of_flat_map in Hin as (y & Hy & Hby). assert (x = y) as -> by (apply (Hd x y b); [by left|by right|done|done]). done.
  - apply IH; [done|intros y Hy; apply Hf; by right|]. intros y z b Hy Hz. apply Hd; by right.
Qed.

Theorem enumerate_once vendor header_type : NoDup (enumerate vendor header_type).
Proof.
  assert (Hdev : forall b d x, x ∈ check_device vendor header_type b d -> x.1 = (b, d)).
  { intros b d x H. unfold check_device in H. destruct (_ =? 65535); [by apply not_elem_of_nil in H|]. apply elem_of_cons in H as [-> |H]; [done|].
    destruct (negb _); [|by apply not_elem_of_nil in H]. by apply list_elem_of_fmap in H as (f & -> & _). }
  apply NoDup_flat_map; [apply NoDup_seqZ| |].
  - intros b _. apply NoDup_flat_map; [apply NoDup_seqZ| |].
    + intros d _. unfold check_device. destruct (_ =? 65535); [constructor|]. apply NoDup_cons. split.
      * destruct (negb _); [|apply not_elem_of_nil]. intros H. apply list_elem_of_fmap in H as (f & [= <-] & H). apply list_elem_of_filter in H as [_ H].
        apply elem_of_seqZ in H. lia.
      * destruct (negb _); [|constructor]. apply (NoDup_fmap_2_strong (fun f => (b, d, f))); [by intros ? ? _ _ [=]|]. apply NoDup_filter, NoDup_seqZ.
    + intros d d' x _ _ H1 H2. apply Hdev in H1, H2. congruence.
  - intros b b' x _ _ H1 H2. apply elem_of_flat_map in H1 as (d & _ & H1). apply elem_of_flat_map in H2 as (d' & _ & H2).
    apply Hdev in H1, H2. congruence.
Qed.

(** ** Sizes of base addresses *)

Section Sizing.
Context (k w : Z) (Hk : 4 <= k < 32) (Hw : 0 <= w < 2 ^ 32) (Hal : w mod 2 ^ k < 16).
Definition size_mask (k : Z) : Z := Z.shiftl (Z.ones (32 - k)) k.

Lemma mask_bit i : 0 <= i -> Z.testbit (size_mask k) i = (k <=? i) && (i <? 32).
Proof.
  intros Hi. unfold size_mask. rewrite Z.shiftl_spec by lia. destruct (k <=? i) eqn:E; [apply Z.leb_le in E|apply Z.leb_gt in E; by rewrite Z.testbit_neg_r by lia].
  rewrite Z.testbit_ones_nonneg by lia. cbn [andb]. destruct (i <? 32) eqn:E2; [apply Z.ltb_lt in E2; apply Z.ltb_lt; lia|apply Z.ltb_ge in E2; apply Z.ltb_ge; lia].
Qed.
Lemma word_high i : 32 <= i -> Z.testbit w i = false.
Proof. intros Hi. rewrite <- (Z.mod_small w (2 ^ 32)) by lia. apply Z.mod_pow2_bits_high. lia. Qed.
Lemma word_middle i : 4 <= i < k -> Z.testbit w i = false.
Proof.
  intros Hi. rewrite <- (Z.mod_pow2_bits_low w k i) by lia. assert (0 <= w mod 2 ^ k) by (apply Z.mod_pos_bound; apply Z.pow_pos_nonneg; lia).
  rewrite <- (Z.mod_small (w mod 2 ^ k) (2 ^ 4)) by lia. apply Z.mod_pow2_bits_high. lia.
Qed.

Definition sized : Z := Z.lor (Z.ldiff w (size_mask k)) (size_mask k).
Lemma sized_mask : Z.land sized (Z.lnot 15) = size_mask k.
Proof.
  apply Z.bits_inj'. intros i Hi. unfold sized. rewrite Z.land_spec, Z.lor_spec, Z.ldiff_spec, Z.lnot_spec, mask_bit by lia.
  change 15 with (Z.ones 4). rewrite Z.testbit_ones_nonneg by lia.
  destruct (i <? 4) eqn:E4; [apply Z.ltb_lt in E4|apply Z.ltb_ge in E4]; cbn [negb]; rewrite ?andb_false_r, ?andb_true_r.
  - rewrite (proj2 (Z.leb_gt _ _)) by lia. done.
  - destruct (k <=? i) eqn:E; [apply Z.leb_le in E|apply Z.leb_gt in E; rewrite word_middle by lia; done].
    destruct (i <? 32) eqn:E2; [apply orb_true_r|apply Z.ltb_ge in E2; by rewrite word_high by lia].
Qed.
Lemma sized_back : Z.lor (Z.ldiff sized (size_mask k)) (Z.land w (size_mask k)) = w.
Proof.
  apply Z.bits_inj'. intros i Hi. unfold sized. rewrite !Z.lor_spec, !Z.ldiff_spec, !Z.lor_spec, !Z.ldiff_spec, Z.land_spec.
  by destruct (Z.testbit w i), (Z.testbit (size_mask k) i).
Qed.
Lemma mask_size : u32 (Z.lnot (size_mask k) + 1) = 2 ^ k.
Proof.
  unfold size_mask. rewrite Z.shiftl_mul_pow2, Z.ones_equiv by lia. assert (H : 2 ^ 32 = 2 ^ (32 - k) * 2 ^ k) by (rewrite <- Z.pow_add_r by lia; f_equal; lia).
  assert (Hp : 0 < 2 ^ k < 2 ^ 32) by (split; [apply Z.pow_pos_nonneg; lia|apply Z.pow_lt_mono_r; lia]).
  replace (Z.lnot _ + 1) with (2 ^ k + (-1) * 2 ^ 32) by (unfold Z.lnot; lia). unfold uN. rewrite Z_mod_plus_full. apply Z.mod_small. lia.
Qed.
End Sizing.

(** A memory bar of 32 bits that decodes 2^k bytes: its size is found, and the
    register is left as it was. *)
Theorem get_bar_finds_size map index s w k : 0 <= index < 6 -> 4 <= k < 32 -> 0 <= w < 2 ^ 32 -> w mod 2 ^ k < 16 ->
  Z.land w IO = 0 -> Z.land w 6 = 0 -> s !! Z.to_nat (4 + index) = Some (mkRegister w (size_mask k) 0) ->
  get_bar map index s = Some (mkBAR (map (2 ^ k) (Z.land w (Z.lnot 15))) (Z.land w (Z.lnot 15)) (2 ^ k) true false (negb (Z.land w PREFETCHABLE =? 0)), s).
Proof.
  intros Hi Hk Hw Hal Hio H6 Hr. unfold get_bar.
  assert (Hreg : register_of (16 + index * 4) = Z.to_nat (4 + index)).
  { assert (index = 0 \/ index = 1 \/ index = 2 \/ index = 3 \/ index = 4 \/ index = 5) as Hc by lia. destruct Hc as [->|[->|[->|[->|[->| ->]]]]]; done. }
  unfold config_write32, config_read32. rewrite Hreg, Hr. cbn [mbind option_bind word]. rewrite Hio, H6.
  change (negb (0 =? 0)) with false. change (0 =? TYPE_64_BIT) with false. cbn [mbind option_bind].
  rewrite !list_lookup_insert_eq by (by eapply lookup_lt_Some). cbn [mbind option_bind].
  rewrite list_insert_insert_eq. unfold write_register. cbn [word writable clears].
  assert (Hu : forall v, Z.land (u32 v) (size_mask k) = Z.land v (size_mask k)).
  { intros v. unfold uN. apply Z.bits_inj'. intros i Hi'. rewrite !Z.land_spec, mask_bit by lia. destruct (i <? 32) eqn:E; [apply Z.ltb_lt in E|by rewrite !andb_false_r].
    by rewrite Z.mod_pow2_bits_low by lia. }
  assert (Hm1 : Z.land (-1) (size_mask k) = size_mask k) by apply Z.land_m1_l.
  rewrite !Hu, !Z.land_0_r, !Z.ldiff_0_r, Hm1. fold (sized k w). rewrite (sized_mask k w), (mask_size k), (sized_back k w) by done.
  assert (Hs : <[Z.to_nat (4 + index) := mkRegister w (size_mask k) 0]> s = s) by by apply list_insert_id. rewrite Hs.
  assert (Hp : u64 (Z.land w (Z.lnot 15) + Z.shiftl 0 32) = Z.land w (Z.lnot 15)).
  { change (Z.shiftl 0 32) with 0. rewrite Z.add_0_r. apply u64_small. split; [apply Z.land_nonneg; lia|].
    assert (Z.land w (Z.lnot 15) <= w) by (rewrite <- Z.ldiff_land; change 15 with (Z.ones 4);
      rewrite Z.ldiff_ones_r, Z.shiftl_mul_pow2, Z.shiftr_div_pow2 by lia; change (2 ^ 4) with 16;
      pose proof (Z.mul_div_le w 16); lia). lia. }
  rewrite Hp. done.
Qed.

(** ** The command register *)

(** The status register is the upper half of the command's word: setting a bit
    of the command writes ones to all the pending bits of the status, which
    clears them. *)
Theorem set_command_clears_status mask v s r i : s !! 1%nat = Some r -> 0 <= word r < 2 ^ 32 -> 16 <= i < 32 -> 0 <= mask < 65536 ->
  Z.testbit (clears r) i = true -> Z.testbit (writable r) i = false -> exists s' r', set_command mask v s = Some s' /\ s' !! 1%nat = Some r' /\
    Z.testbit (word r') i = false.
Proof.
  intros Hr Hw Hi Hm Hc Hwr. unfold set_command, config_read16, config_write16, config_write32, config_read32.
  change (register_of COMMAND) with 1%nat. rewrite Hr. cbn [mbind option_bind]. eexists _, _. split; [reflexivity|].
  rewrite list_lookup_insert_eq by (by eapply lookup_lt_Some). split; [reflexivity|]. change (COMMAND mod 4 * 8) with 0. change (8 * Z.land COMMAND 3) with 0.
  cbn [write_register word]. rewrite Z.shiftr_0_r. set (cmd := if v then _ else _). clearbody cmd.
  unfold insert_bits, uN. rewrite !Z.shiftl_0_r. rewrite !Z.ldiff_spec, !Z.lor_spec, !Z.land_spec, Hc, Hwr, !Z.mod_pow2_bits_low by lia.
  change 65535 with (Z.ones 16). rewrite Z.lor_spec, (Z.ldiff_spec (word r) (Z.ones 16)), Z.ones_spec_high by lia. rewrite Z.ldiff_spec. by destruct (Z.testbit (word r) i), (Z.testbit cmd i), (Z.testbit (writable r) i).
Qed.

(** ** A run *)

(** A bar of 64 KiB at 0xFEB00000: 4 is its register. *)
Example bar_of_64k :
  let s := replicate 4 (mkRegister 0 0 0) ++ [mkRegister 4272947200 (size_mask 16) 0] in
  get_bar (fun _ p => p + 1) 0 s = Some (mkBAR 4272947201 4272947200 65536 true false false, s).
Proof. vm_compute. done. Qed.

(** A port bar whose upper half is not decoded: its size is not a size. *)
Example port_bar_size :
  let s := replicate 4 (mkRegister 0 0 0) ++ [mkRegister 49153 65504 0] in
  b_length ∘ fst <$> get_bar (fun _ p => p) 0 s = Some 4294901792.
Proof. vm_compute. done. Qed.

(** A bar of 4 GiB seems to have no size. *)
Example bar_of_4g :
  let s := replicate 4 (mkRegister 0 0 0) ++ [mkRegister 4 0 0; mkRegister 8 4294967295 0] in
  b_length ∘ fst <$> get_bar (fun _ p => p) 0 s = Some 0.
Proof. vm_compute. done. Qed.
