(* ===== verification/Interrupts.v ===== *)
(** Descriptor tables, interrupt vectors and their sources, and the timers
    (src/kernel/src/cpu/gdt, cpu/interrupts, sched/timer): what is written to
    tables and registers, and the arithmetic of the clocks.

    A write to a device is a register and a value; what a device counts is an
    argument. *)
From S2P Require Import Prelude.

(** ** Segment descriptors *)

Record GDTEntry : Type := mkGDT { limit : Z; base_low : Z; base_mid : Z; access : Z; granularity : Z; base_high : Z }.
Definition gdt_entries : list GDTEntry :=
  [ mkGDT 0 0 0 0 0 0; mkGDT 0 0 0 154 32 0; mkGDT 0 0 0 146 0 0; mkGDT 0 0 0 242 0 0; mkGDT 0 0 0 250 32 0 ].
Definition KERNEL_CODE_64 : Z := 8.
Definition KERNEL_DATA_64 : Z := 16.
Definition USER_DATA_64 : Z := 24.
Definition USER_CODE_64 : Z := 32.
Definition TSS : Z := 40.

(** [load_tss]: the two entries of the task state segment. *)
Definition tss_entries (addr : Z) : GDTEntry * GDTEntry :=
  (mkGDT 103 (u16 addr) (u8 (Z.shiftr addr 16)) 137 0 (u8 (Z.shiftr addr 24)),
   mkGDT (u16 (Z.shiftr addr 32)) (u16 (Z.shiftr addr 48)) 0 0 0 0).
Definition load_tss (addr : Z) : list GDTEntry := let '(a, b) := tss_entries addr in gdt_entries ++ [a; b].

(** What the processor takes from an entry: whether it is a code or data
    segment, present, executable, 64 bits, and its privilege; and the base of a
    system segment of two entries. *)
Definition is_segment (e : GDTEntry) : bool := Z.testbit (access e) 4.
Definition present (e : GDTEntry) : bool := Z.testbit (access e) 7.
Definition executable (e : GDTEntry) : bool := Z.testbit (access e) 3.
Definition long_mode (e : GDTEntry) : bool := Z.testbit (granularity e) 5.
Definition privilege (e : GDTEntry) : Z := Z.land (Z.shiftr (access e) 5) 3.
Definition system_base (e e' : GDTEntry) : Z :=
  base_low e + base_mid e * 2 ^ 16 + base_high e * 2 ^ 24 + limit e' * 2 ^ 32 + base_low e' * 2 ^ 48.

(** ** Gates *)

Record IDTEntry : Type := mkIDT { offset1 : Z; selector : Z; attributes : Z; offset2 : Z; offset3 : Z }.
Definition INTERRUPT : Z := 14.
Definition load_idt_entry (wrapper type : Z) : IDTEntry :=
  mkIDT (Z.land wrapper 65535) KERNEL_CODE_64 (Z.lor (Z.shiftl 1 15) (Z.shiftl type 8)) (Z.shiftr (Z.land wrapper 4294901760) 16)
    (Z.shiftr (Z.land wrapper 18446744069414584320) 32).
Definition gate_offset (e : IDTEntry) : Z := offset1 e + offset2 e * 2 ^ 16 + offset3 e * 2 ^ 32.

(** ** Vectors *)

(** [handler] names a handler with its argument. *)
Record Vectors : Type := mkVectors { idt_bitmap : gset Z; isr_table : gmap Z (Z * Z) }.

(** The first free vector from 32 on; [None] is the panic. *)
Definition allocate_vector (v : Vectors) : option (Z * Vectors) :=
  match filter (fun i => i ∉ idt_bitmap v) (seqZ 32 224) with
  | [] => None
  | i :: _ => Some (i, mkVectors ({[i]} ∪ idt_bitmap v) (isr_table v))
  end.
Definition set_isr (vec handler priv : Z) (v : Vectors) : Vectors := mkVectors (idt_bitmap v) (<[vec := (handler, priv)]> (isr_table v)).
Definition EXCEPTION_HANDLER : Z := 1.
Definition PAGE_FAULT_HANDLER : Z := 2.
Definition load_idt : Vectors :=
  foldl (fun v i => let v := set_isr i (if i =? 14 then PAGE_FAULT_HANDLER else EXCEPTION_HANDLER) i v in mkVectors ({[i]} ∪ idt_bitmap v) (isr_table v))
    (mkVectors ∅ ∅) (seqZ 0 32).
(** [__idt_handler_common]; no handler is a call through null. *)
Definition idt_handler (vec : Z) (v : Vectors) : option (Z * Z) := isr_table v !! vec.

(** The signal an exception in user mode sends. *)
Definition SIGILL : Z := 4.
Definition SIGBUS : Z := 7.
Definition SIGFPE : Z := 8.
Definition SIGSEGV : Z := 11.
Definition exception_signal (vec : Z) : Z :=
  if (vec =? 0) || (vec =? 19) then SIGFPE else if vec =? 6 then SIGILL else if vec =? 13 then SIGBUS else SIGSEGV.

(** A page fault uses the kernel's map for the upper half. *)
Definition fault_in_kernel_map (cr2 : Z) : bool := 18446603336221196288 <=? cr2.

(** ** Local and I/O controllers *)

Definition LAPIC_ID : Z := 32.
Definition ICR0 : Z := 768.
Definition ICR1 : Z := 784.
Definition set_vector (reg vector : Z) (nmi active_low level_trigger mask : bool) : Z * Z :=
  (reg, Z.lor vector (Z.lor (Z.shiftl (Z.b2z nmi) 10) (Z.lor (Z.shiftl (Z.b2z active_low) 13)
          (Z.lor (Z.shiftl (Z.b2z level_trigger) 15) (Z.shiftl (Z.b2z mask) 16))))).
Definition mask_vector (reg value : Z) : Z * Z := (reg, Z.lor value 65536).
Definition unmask_vector (reg value : Z) : Z * Z := (reg, Z.ldiff value 65536).
Definition send_ipi (lapic_id vector : Z) : list (Z * Z) := [(ICR1, u32 (Z.shiftl lapic_id 24)); (ICR0, vector)].

Record IOAPIC : Type := mkIOAPIC { io_id : Z; gsi_base : Z; max_entries : Z }.
(** The constructor, with the version register. *)
Definition new_ioapic (id gsi version : Z) : IOAPIC := mkIOAPIC (u8 id) (u32 gsi) (u32 (Z.shiftr version 16 + 1)).
Definition set_redir_entry (n vector delivery_mode : Z) (logic_dest active_low level_trigger mask : bool) (dest : Z) : list (Z * Z) :=
  [ (n * 2 + 16, Z.lor vector (Z.lor (Z.shiftl delivery_mode 8) (Z.lor (Z.shiftl (Z.b2z logic_dest) 11) (Z.lor (Z.shiftl (Z.b2z active_low) 13)
       (Z.lor (Z.shiftl (Z.b2z level_trigger) 15) (Z.shiftl (Z.b2z mask) 16))))));
    (n * 2 + 17, u32 (Z.shiftl (u8 dest) 24)) ].

(** ** Sources *)

Record Sources : Type := mkSources { irq_to_gsi : list Z; irq_flags : list Z; ioapics : list IOAPIC; vectors : Vectors }.
Definition init_sources (v : Vectors) : Sources := mkSources (seqZ 0 16) (replicate 16 0) [] v.
Definition override_irq_source (irq gsi flags : Z) (s : Sources) : option Sources :=
  if irq <? 16 then Some (mkSources (<[Z.to_nat irq := gsi]> (irq_to_gsi s)) (<[Z.to_nat irq := flags]> (irq_flags s)) (ioapics s) (vectors s)) else None.

(** The writes go to the controller with that index. *)
Fixpoint find_ioapic (i : nat) (gsi : Z) (l : list IOAPIC) : option nat :=
  match l with
  | [] => None
  | a :: l' => if (gsi_base a <=? gsi) && (gsi <? u32 (gsi_base a + max_entries a)) then Some i else find_ioapic (S i) gsi l'
  end.
Definition register_gsi (gsi : Z) (active_low level_trigger : bool) (handler priv lapic_id : Z) (s : Sources) : option (list (nat * (Z * Z)) * Sources) :=
  '(vector, v) ← allocate_vector (vectors s);
  let s' := mkSources (irq_to_gsi s) (irq_flags s) (ioapics s) (set_isr vector handler priv v) in
  Some (match find_ioapic 0 gsi (ioapics s) with
        | None => []
        | Some i => map (pair i) (set_redir_entry gsi vector 0 false active_low level_trigger false lapic_id)
        end, s').
Definition register_irq (irq handler priv lapic_id : Z) (s : Sources) : option (list (nat * (Z * Z)) * Sources) :=
  gsi ← irq_to_gsi s !! Z.to_nat irq;
  flags ← irq_flags s !! Z.to_nat irq;
  register_gsi gsi (Z.land flags 3 =? 3) (Z.land flags 12 =? 12) handler priv lapic_id s.

(** ** The old controllers *)

Definition PIC1_COMMAND : Z := 32.
Definition PIC1_DATA : Z := 33.
Definition PIC2_COMMAND : Z := 160.
Definition PIC2_DATA : Z := 161.
Definition remap (offset1 offset2 m1 m2 : Z) : list (Z * Z) :=
  let delay := (128, 0) in
  [(PIC1_COMMAND, 17); delay; (PIC2_COMMAND, 17); delay; (PIC1_DATA, offset1); delay; (PIC2_DATA, offset2); delay;
   (PIC1_DATA, 4); delay; (PIC2_DATA, 2); delay; (PIC1_DATA, 1); delay; (PIC2_DATA, 1); delay; (PIC1_DATA, m1); (PIC2_DATA, m2)].
Definition send_eoi (irq : Z) : list (Z * Z) := (if 8 <=? irq then [(PIC2_COMMAND, 32)] else []) ++ [(PIC1_COMMAND, 32)].
Definition pic_port (irq : Z) : Z := if irq <? 8 then PIC1_DATA else PIC2_DATA.
Definition set_mask (irq old : Z) : Z * Z := (pic_port irq, u8 (Z.lor old (Z.shiftl 1 (Z.land irq 7)))).
Definition clear_mask (irq old : Z) : Z * Z := (pic_port irq, u8 (Z.ldiff old (Z.shiftl 1 (Z.land irq 7)))).

(** ** Timers *)

(** The local timer: [freq] ticks a second; what is written for a number of
    microseconds, and the microseconds of the ticks gone. *)
Definition TIMER_INITIAL : Z := 896.
Definition TIMER_DIVIDE : Z := 992.
Definition oneshot_ticks (freq us : Z) : Z := u32 (u64 (us * freq) / 1000000).
Definition oneshot (freq us : Z) : list (Z * Z) := [(TIMER_INITIAL, 0); (TIMER_DIVIDE, 11); (TIMER_INITIAL, oneshot_ticks freq us)].
Definition us_since_interrupt (freq initial current : Z) : Z := u64 (u64 (initial - current) * 1000000) / freq.
(** Calibration counts down from the top with a divisor of 16, for a tenth of a
    second. *)
Definition calibrate (current : Z) : Z := u64 (u64 (4294967295 - current) * 10 * 16).

(** The high precision timer: [period] femtoseconds a tick. *)
Definition hpet_period (info : Z) : Z := Z.shiftr info 32.
Definition hpet_freq (period : Z) : Z := 1000000000000000 / period.
Definition monotonic_time (period counter : Z) : Z := u64 (counter * (period / 1000000)) / 1000.
Definition stall_target (period counter ns : Z) : Z := u64 (counter + u64 (ns * 1000000) / period).

(** The oldest timer: the three writes of a mode and a count, a count read, and
    the ticks of a sleep at 14565 / 100000 a millisecond. *)
Definition set_reload (count : Z) : list (Z * Z) := [(67, 52); (64, Z.land count 255); (64, Z.shiftr count 8)].
Definition set_divide (divide : Z) : list (Z * Z) := [(67, 54); (64, Z.land divide 255); (64, Z.shiftr divide 8)].
Definition get_current_count (lo hi : Z) : Z := Z.lor (Z.shiftl hi 8) lo.
Definition sleep_ticks (ms : Z) : Z := u64 (ms * 14565) / 100000.

(** ** Tables *)

Lemma digits a m : 0 < m -> a = a mod m + a / m * m.
Proof. intros H. pose proof (Z.div_mod a m ltac:(lia)). lia. Qed.

(** The processor finds the address of the task state segment in its two
    entries. *)
Theorem tss_base_found addr : 0 <= addr < 18446744073709551616 -> let '(a, b) := tss_entries addr in
  system_base a b = addr /\ present a = true /\ is_segment a = false.
Proof.
  intros Ha. unfold tss_entries, system_base. cbn [limit base_low base_mid base_high access]. split; [|done].
  unfold uN. rewrite !Z.shiftr_div_pow2 by lia.
  change (2 ^ 16) with 65536. change (2 ^ 8) with 256. change (2 ^ 24) with 16777216. change (2 ^ 32) with 4294967296. change (2 ^ 48) with 281474976710656.
  pose proof (digits addr 65536 ltac:(lia)). pose proof (digits (addr / 65536) 256 ltac:(lia)). pose proof (digits (addr / 16777216) 256 ltac:(lia)).
  pose proof (digits (addr / 4294967296) 65536 ltac:(lia)).
  assert (addr / 65536 / 256 = addr / 16777216) by (rewrite Z.div_div by lia; done).
  assert (addr / 16777216 / 256 = addr / 4294967296) by (rewrite Z.div_div by lia; done).
  assert (addr / 4294967296 / 65536 = addr / 281474976710656) by (rewrite Z.div_div by lia; done).
  rewrite (Z.mod_small (addr / 281474976710656)) by (split; [apply Z.div_pos; lia|apply Z.div_lt_upper_bound; lia]). lia.
Qed.

(** A gate leads to its handler, with interrupts masked. *)
Theorem gate_offset_found wrapper type : 0 <= wrapper < 18446744073709551616 -> gate_offset (load_idt_entry wrapper type) = wrapper.
Proof.
  intros Hw. unfold load_idt_entry, gate_offset. cbn [offset1 offset2 offset3].
  change 65535 with (Z.ones 16). change 4294901760 with (Z.shiftl (Z.ones 16) 16). change 18446744069414584320 with (Z.shiftl (Z.ones 32) 32).
  rewrite Z.land_ones by lia. rewrite !Z.shiftr_land, !Z.shiftr_shiftl_l, !Z.sub_diag, !Z.shiftl_0_r, !Z.land_ones, !Z.shiftr_div_pow2 by lia.
  change (2 ^ 16) with 65536. change (2 ^ 32) with 4294967296.
  pose proof (digits wrapper 65536 ltac:(lia)). pose proof (digits (wrapper / 65536) 65536 ltac:(lia)).
  assert (wrapper / 65536 / 65536 = wrapper / 4294967296) by (rewrite Z.div_div by lia; done).
  rewrite (Z.mod_small (wrapper / 4294967296)) by (split; [apply Z.div_pos; lia|apply Z.div_lt_upper_bound; lia]). lia.
Qed.

(** The segments are what the processor needs: code of 64 bits and data, for
    the kernel and for users, and all present. *)
Example segments_ok :
  map (fun i => (present <$> gdt_entries !! Z.to_nat (i / 8), executable <$> gdt_entries !! Z.to_nat (i / 8),
                 long_mode <$> gdt_entries !! Z.to_nat (i / 8), privilege <$> gdt_entries !! Z.to_nat (i / 8)))
    [KERNEL_CODE_64; KERNEL_DATA_64; USER_DATA_64; USER_CODE_64] =
  [(Some true, Some true, Some true, Some 0); (Some true, Some false, Some false, Some 0);
   (Some true, Some false, Some false, Some 3); (Some true, Some true, Some true, Some 3)].
Proof. reflexivity. Qed.

(** ** Vectors *)

(** A vector is one that was free, and never one of an exception. *)
Theorem allocate_vector_fresh v : match allocate_vector v with
  | Some (i, v') => 32 <= i < 256 /\ i ∉ idt_bitmap v /\ idt_bitmap v' = {[i]} ∪ idt_bitmap v /\ isr_table v' = isr_table v /\
      forall j, 32 <= j < i -> j ∈ idt_bitmap v
  | None => forall j, 32 <= j < 256 -> j ∈ idt_bitmap v
  end.
Proof.
  unfold allocate_vector. assert (Hall : forall j, 32 <= j < 256 -> j ∉ idt_bitmap v -> j ∈ filter (fun i => i ∉ idt_bitmap v) (seqZ 32 224)).
  { intros j Hj Hn. apply list_elem_of_filter. split; [done|]. apply elem_of_seqZ. lia. }
  destruct (filter (fun i => i ∉ idt_bitmap v) (seqZ 32 224)) as [|i l] eqn:E.
  - intros j Hj. destruct (decide (j ∈ idt_bitmap v)) as [|Hn]; [done|]. specialize (Hall j Hj Hn). by apply not_elem_of_nil in Hall.
  - assert (Hi : i ∈ filter (fun i => i ∉ idt_bitmap v) (seqZ 32 224)) by (rewrite E; by left). apply list_elem_of_filter in Hi as [Hn Hr].
    apply elem_of_seqZ in Hr. split; [lia|]. split; [done|]. split; [done|]. split; [done|].
    intros j Hj. destruct (decide (j ∈ idt_bitmap v)) as [|Hnj]; [done|]. exfalso. revert E Hall.
    assert (Hsplit : seqZ 32 224 = seqZ 32 (j - 32) ++ j :: seqZ (j + 1) (255 - j)).
    { replace 224 with ((j - 32) + (256 - j)) by lia. rewrite seqZ_app by lia. f_equal. replace (32 + (j - 32)) with j by lia.
      rewrite (seqZ_cons j) by lia. f_equal. f_equal; lia. }
    rewrite Hsplit, filter_app, filter_cons_True by done. intros E _.
    destruct (filter (fun i => i ∉ idt_bitmap v) (seqZ 32 (j - 32))) as [|x l'] eqn:Ef; cbn in E; [injection E as -> _; lia|].
    injection E as -> _. assert (Hx : i ∈ filter (fun i => i ∉ idt_bitmap v) (seqZ 32 (j - 32))) by (rewrite Ef; by left).
    apply list_elem_of_filter in Hx as [_ Hx]. apply elem_of_seqZ in Hx. lia.
Qed.

(** The handlers of exceptions are there, and their vectors taken; 224 others can
    be had. *)
Example vectors_after_load :
  idt_handler 14 load_idt = Some (PAGE_FAULT_HANDLER, 14) /\ idt_handler 13 load_idt = Some (EXCEPTION_HANDLER, 13) /\
  fst <$> allocate_vector load_idt = Some 32 /\
  (let take := fun v => match allocate_vector v with Some (_, v) => v | None => v end in
   fst <$> allocate_vector (Nat.iter 223 take load_idt) = Some 255 /\ fst <$> allocate_vector (Nat.iter 224 take load_idt) = None).
Proof. vm_compute. done. Qed.

(** ** Sources *)

(** What a controller takes from an entry. *)
Definition entry_vector (e : Z) : Z := e mod 256.
Definition entry_low (e : Z) : bool := Z.testbit e 13.
Definition entry_level (e : Z) : bool := Z.testbit e 15.
Definition entry_masked (e : Z) : bool := Z.testbit e 16.

Lemma entry_fields vector low level mask : 0 <= vector < 256 ->
  let e := Z.lor vector (Z.lor (Z.shiftl 0 8) (Z.lor (Z.shiftl (Z.b2z false) 11) (Z.lor (Z.shiftl (Z.b2z low) 13)
             (Z.lor (Z.shiftl (Z.b2z level) 15) (Z.shiftl (Z.b2z mask) 16))))) in
  entry_vector e = vector /\ entry_low e = low /\ entry_level e = level /\ entry_masked e = mask.
Proof.
  intros Hv. assert (Hb : forall i, 8 <= i -> Z.testbit vector i = false).
  { intros i Hi. rewrite <- (Z.mod_small vector (2 ^ 8)) by lia. apply Z.mod_pow2_bits_high. lia. }
  cbn zeta. unfold entry_low, entry_level, entry_masked. rewrite !Z.lor_spec, !Hb by lia.
  split; [|by destruct low, level, mask]. unfold entry_vector. change 256 with (2 ^ 8). rewrite <- Z.land_ones by lia. rewrite Z.land_lor_distr_l.
  replace (Z.land (Z.lor (Z.shiftl 0 8) _) (Z.ones 8)) with 0 by (by destruct low, level, mask).
  rewrite Z.lor_0_r, Z.land_ones by lia. by apply Z.mod_small.
Qed.

(** An interrupt line is given a new vector with its handler, and the entry of
    its controller, at its place from gsi_base 0 on, says so as the overrides
    ask. *)
Theorem register_irq_spec irq handler priv lapic_id s gsi flags i v' vector n :
  irq_to_gsi s !! Z.to_nat irq = Some gsi -> irq_flags s !! Z.to_nat irq = Some flags -> allocate_vector (vectors s) = Some (vector, v') ->
  ioapics s = [mkIOAPIC i 0 n] -> 0 <= gsi < n -> n < 4294967296 ->
  exists w1 w2 s', register_irq irq handler priv lapic_id s = Some ([(0%nat, (16 + 2 * gsi, w1)); (0%nat, (17 + 2 * gsi, w2))], s') /\
    idt_handler vector (vectors s') = Some (handler, priv) /\
    entry_vector w1 = vector /\ entry_low w1 = (Z.land flags 3 =? 3) /\ entry_level w1 = (Z.land flags 12 =? 12) /\ entry_masked w1 = false.
Proof.
  intros Hg Hf Ha Hio Hr Hn. pose proof (allocate_vector_fresh (vectors s)) as Hv. rewrite Ha in Hv. destruct Hv as (Hv & _ & _ & _ & _).
  unfold register_irq, register_gsi. rewrite Hg, Hf. cbn [mbind option_bind]. rewrite Ha. cbn [mbind option_bind]. rewrite Hio.
  cbn [find_ioapic gsi_base max_entries]. rewrite Z.add_0_l. rewrite (uN_small 32 n) by (change (2 ^ 32) with 4294967296; lia).
  rewrite (proj2 (Z.leb_le 0 gsi)), (proj2 (Z.ltb_lt gsi n)) by lia. cbn [andb map].
  destruct (entry_fields vector (Z.land flags 3 =? 3) (Z.land flags 12 =? 12) false ltac:(lia)) as (E1 & E2 & E3 & E4).
  eexists _, _, _. split; [unfold set_redir_entry; cbn [map]; replace (gsi * 2) with (2 * gsi) by lia; rewrite !(Z.add_comm (2 * gsi)); reflexivity|].
  split; [unfold idt_handler; cbn [vectors set_isr isr_table]; apply lookup_insert_eq|]. done.
Qed.

(** A second controller's entries are written at the number of the line, not at
    its place in the controller. *)
Example second_ioapic_wrong_entry :
  let s := mkSources (<[10%nat := 30]> (seqZ 0 16)) (replicate 16 0) [mkIOAPIC 0 0 24; mkIOAPIC 1 24 24] load_idt in
  (map (fun w => (w.1, w.2.1)) ∘ fst) <$> register_irq 10 7 0 0 s = Some [(1%nat, 76); (1%nat, 77)].
Proof. vm_compute. reflexivity. Qed.

(** The identifier is read with the register's place: as a destination it is
    always 0, and it is never a processor's other than 0. *)
Example destination_is_lost :
  map snd (set_redir_entry 1 33 0 false false false false (Z.shiftl 3 24)) = [33; 0].
Proof. reflexivity. Qed.

(** ** Timers *)

(** A local timer that has run out says it took what was asked, but for the
    rounding of its ticks. *)
Theorem oneshot_elapsed freq us : 0 < freq -> 0 <= us -> us * freq < 4294967296000000 ->
  let gone := us_since_interrupt freq (oneshot_ticks freq us) 0 in
  gone <= us /\ us * freq < (gone + 1) * freq + 1000000.
Proof.
  intros Hf Hu Hb. unfold us_since_interrupt, oneshot_ticks. cbn zeta. rewrite (u64_small (us * freq)) by lia.
  pose proof (Z.div_mod (us * freq) 1000000 ltac:(lia)) as Hd. pose proof (Z.mod_pos_bound (us * freq) 1000000 ltac:(lia)) as Hm.
  set (t := us * freq / 1000000) in *. assert (Ht : 0 <= t < 4294967296) by (split; [apply Z.div_pos; lia|apply Z.div_lt_upper_bound; lia]).
  rewrite (uN_small 32 t) by (change (2 ^ 32) with 4294967296; lia). rewrite Z.sub_0_r, (u64_small t), (u64_small (t * 1000000)) by lia.
  pose proof (Z.div_mod (t * 1000000) freq ltac:(lia)) as Hd2. pose proof (Z.mod_pos_bound (t * 1000000) freq ltac:(lia)) as Hm2. split.
  - apply Z.div_le_upper_bound; lia.
  - lia.
Qed.

(** A longer time at 4 GHz is cut to 32 bits: 2 s become less than one. *)
Example oneshot_cut : oneshot_ticks 4000000000 2000000 = 3705032704.
Proof. reflexivity. Qed.

(** The monotonic clock does not run ahead; its period is cut to whole
    nanoseconds, by which it may fall behind. *)
Theorem monotonic_behind period counter : 0 < period -> 0 <= counter -> counter * period < 18446744073709551616 ->
  0 <= monotonic_time period counter /\ monotonic_time period counter * 1000000000 <= counter * period.
Proof.
  intros Hp Hc Hb. unfold monotonic_time. pose proof (Z.div_mod period 1000000 ltac:(lia)) as Hd. pose proof (Z.mod_pos_bound period 1000000 ltac:(lia)) as Hm.
  assert (Hq : 0 <= period / 1000000) by (apply Z.div_pos; lia). rewrite u64_small by nia.
  pose proof (Z.div_mod (counter * (period / 1000000)) 1000 ltac:(lia)) as Hd2. pose proof (Z.mod_pos_bound (counter * (period / 1000000)) 1000 ltac:(lia)) as Hm2.
  split; [apply Z.div_pos; nia|]. nia.
Qed.
(** At 14.318 MHz (a period of 69841279 fs) an hour is 43 seconds short. *)
Example monotonic_loses : monotonic_time 69841279 (3600 * 14318179) = 3556635663.
Proof. reflexivity. Qed.

Theorem reload_read_back count : 0 <= count < 65536 ->
  match set_reload count with [_; (_, lo); (_, hi)] => 0 <= lo < 256 /\ 0 <= hi < 256 /\ get_current_count lo hi = count | _ => False end.
Proof.
  intros Hc. unfold set_reload, get_current_count. change 255 with (Z.ones 8). rewrite Z.land_ones, Z.shiftr_div_pow2 by lia.
  assert (H1 : 0 <= count mod 2 ^ 8 < 256) by (apply Z.mod_pos_bound; lia).
  assert (H2 : 0 <= count / 2 ^ 8 < 256) by (split; [apply Z.div_pos; lia|apply Z.div_lt_upper_bound; lia]).
  split; [done|]. split; [done|]. rewrite Z.lor_comm. rewrite <- Z.land_ones, <- Z.shiftr_div_pow2, <- Z.ldiff_ones_r by lia.
  rewrite Z.lor_comm. apply Z.bits_inj'. intros i Hi. rewrite Z.lor_spec, Z.ldiff_spec, Z.land_spec. by destruct (Z.testbit count i), (Z.testbit (Z.ones 8) i).
Qed.

(** A line is masked alone, and unmasked alone. *)
Theorem pic_mask_one irq old j : 0 <= irq < 16 -> 0 <= old < 256 -> 0 <= j < 8 ->
  Z.testbit (set_mask irq old).2 j = (Z.testbit old j || (j =? irq mod 8)) /\
  Z.testbit (clear_mask irq old).2 j = (Z.testbit old j && negb (j =? irq mod 8)).
Proof.
  intros Hi Ho Hj. unfold set_mask, clear_mask. cbn [snd]. unfold uN. rewrite !Z.mod_pow2_bits_low, Z.lor_spec, Z.ldiff_spec by lia.
  change 7 with (Z.ones 3). rewrite Z.land_ones by lia. change (2 ^ 3) with 8. rewrite Z.shiftl_1_l, Z.pow2_bits_eqb by (apply Z.mod_pos_bound; lia).
  by rewrite (Z.eqb_sym (irq mod 8) j).
Qed.
