(* ===== verification/Acpi.v ===== *)
(** The tables of the firmware (src/kernel/src/acpi/tables.hpp, tables.cpp): the
    checksum, the root tables and the table of interrupt controllers.

    Memory is a function from addresses to bytes; the writes to the local
    controller are those of Interrupts.v. *)
From S2P Require Import Prelude Interrupts.

(** ** Reading *)

Inductive Panic : Type := RsdpSignature | RsdpChecksum | RootSignature | RootChecksum | TableChecksum.

Section Tables.
Context (mem : Z -> Z) (hhdm : Z).

Fixpoint le (n : nat) (a : Z) : Z := match n with O => 0 | S n => mem a + 256 * le n (a + 1) end.
Definition u32_at (a : Z) : Z := le 4 a.
Definition u64_at (a : Z) : Z := le 8 a.

(** [do_checksum]: the sum is a byte. *)
Fixpoint sum_bytes (n : nat) (a sum : Z) : Z := match n with O => sum | S n => sum_bytes n (a + 1) (u8 (sum + mem a)) end.
Definition do_checksum (table size : Z) : bool := sum_bytes (Z.to_nat size) table 0 =? 0.

(** [memcmp] against a signature. *)
Fixpoint matches (sig : list Z) (a : Z) : bool := match sig with [] => true | c :: sig => (mem a =? c) && matches sig (a + 1) end.
Definition SIG_RSDP : list Z := [82; 83; 68; 32; 80; 84; 82; 32].
Definition SIG_RSDT : list Z := [82; 83; 68; 84].
Definition SIG_XSDT : list Z := [88; 83; 68; 84].
Definition SIG_APIC : list Z := [65; 80; 73; 67].
Definition SIG_HPET : list Z := [72; 80; 69; 84].

Definition sizeof_RSDP1 : Z := 20.
Definition sizeof_SDT : Z := 36.
Definition sizeof_MADT : Z := 44.
Definition revision (rsdp : Z) : Z := mem (rsdp + 15).
Definition rsdt_addr (rsdp : Z) : Z := u32_at (rsdp + 16).
Definition rsdp2_size (rsdp : Z) : Z := u32_at (rsdp + 20).
Definition xsdt_addr (rsdp : Z) : Z := u64_at (rsdp + 24).
Definition sdt_size (sdt : Z) : Z := u32_at (sdt + 4).

(** ** The table of interrupt controllers *)

(** What an entry is, by its type. *)
Inductive Entry : Type :=
| E_LAPIC (processor_id lapic_id flags : Z)
| E_IOAPIC (ioapic_id addr gsi : Z)
| E_OVERRIDE (irq_source gsi flags : Z)
| E_NMI (processor_id flags lint : Z)
| E_ADDRESS (addr : Z)
| E_UNKNOWN (type : Z).

Definition read_entry (e : Z) : Entry :=
  let type := mem e in
  if type =? 0 then E_LAPIC (mem (e + 2)) (mem (e + 3)) (u32_at (e + 4))
  else if type =? 1 then E_IOAPIC (mem (e + 2)) (u32_at (e + 4)) (u32_at (e + 8))
  else if type =? 2 then E_OVERRIDE (mem (e + 3)) (u32_at (e + 4)) (le 2 (e + 8))
  else if type =? 4 then E_NMI (mem (e + 2)) (le 2 (e + 3)) (mem (e + 5))
  else if type =? 5 then E_ADDRESS (u64_at (e + 4))
  else E_UNKNOWN type.

(** The loop over the entries; each says how long it is. *)
Fixpoint entries (fuel : nat) (entry last : Z) : option (list Entry) :=
  if entry <? last then
    match fuel with
    | O => None
    | S fuel => l ← entries fuel (entry + mem (entry + 1)) last; Some (read_entry entry :: l)
    end
  else Some [].
Definition madt_entries (fuel : nat) (madt : Z) : option (list Entry) := entries fuel (madt + sizeof_MADT) (madt + sdt_size madt).

(** [lapics] are pairs of identifiers, of the controller and of the firmware;
    [version] is the version register of the controller at an address. *)
Record Madt : Type := mkMadt { lapics : list (Z * Z); sources : Sources; lvt : list (Z * Z) }.
Definition add_lapic (e : Entry) (l : list (Z * Z)) : list (Z * Z) :=
  match e with E_LAPIC p id flags => if Z.testbit flags 0 then l ++ [(id, p)] else l | _ => l end.
Definition add_source (version : Z -> Z) (e : Entry) (s : Sources) : option Sources :=
  match e with
  | E_IOAPIC id addr gsi => Some (mkSources (irq_to_gsi s) (irq_flags s) (ioapics s ++ [new_ioapic id gsi (version addr)]) (vectors s))
  | E_OVERRIDE irq gsi flags => override_irq_source irq gsi flags s
  | _ => Some s
  end.
Fixpoint add_sources (version : Z -> Z) (l : list Entry) (s : Sources) : option Sources :=
  match l with [] => Some s | e :: l => s1 ← add_source version e s; add_sources version l s1 end.

(** The local vectors: a non-maskable one is set and the other masked, for the
    entries of all processors or of the one with the identifier read. *)
Definition LVT_CMCI : Z := 752.
Definition LVT_TIMER : Z := 800.
Definition LVT_THERMAL : Z := 816.
Definition LVT_PERF : Z := 832.
Definition LVT_LINT0 : Z := 848.
Definition LVT_LINT1 : Z := 864.
Definition LVT_ERROR : Z := 880.
Definition bsp_acpi_id (lapics : list (Z * Z)) (read_id : Z) : Z := default 0 (snd <$> head (filter (fun l => l.1 = read_id) lapics)).
Definition nmi_writes (bsp : Z) (e : Entry) : list (Z * Z) :=
  match e with
  | E_NMI p flags lint =>
      if (p =? 255) || (p =? bsp) then
        [ set_vector (if negb (lint =? 0) then LVT_LINT1 else LVT_LINT0) 254 true (Z.land flags 3 =? 3) (Z.land flags 12 =? 12) false;
          set_vector (if negb (lint =? 0) then LVT_LINT0 else LVT_LINT1) 0 false false false true ]
      else []
  | _ => []
  end.
Definition masked_lvt : list (Z * Z) := map (fun r => set_vector r 0 false false false true) [LVT_CMCI; LVT_TIMER; LVT_PERF; LVT_THERMAL; LVT_ERROR].

Definition parse_madt (fuel : nat) (version : Z -> Z) (read_id madt : Z) (m : Madt) : option Madt :=
  l ← madt_entries fuel madt;
  let ls := foldl (fun ls e => add_lapic e ls) (lapics m) l in
  s ← add_sources version l (sources m);
  Some (mkMadt ls s (lvt m ++ flat_map (nmi_writes (bsp_acpi_id ls read_id)) l ++ masked_lvt)).

(** ** The root tables *)

(** A found table: that of interrupt controllers, that of the timer, or another. *)
Inductive Table : Type := T_MADT (addr : Z) | T_HPET (addr : Z) | T_OTHER (addr : Z).
Definition parse_sdt (sdt : Z) : Panic + Table :=
  if negb (do_checksum sdt (sdt_size sdt)) then inl TableChecksum
  else if matches SIG_APIC sdt then inr (T_MADT sdt)
  else if matches SIG_HPET sdt then inr (T_HPET sdt)
  else inr (T_OTHER sdt).

(** The tables of a root table with entries of [width] bytes, up to the first
    that panics. *)
Fixpoint parse_tables (n : nat) (width : nat) (entry : Z) : list Table * option Panic :=
  match n with
  | O => ([], None)
  | S n =>
      match parse_sdt (u64 (le width entry + hhdm)) with
      | inl p => ([], Some p)
      | inr t => let '(l, p) := parse_tables n width (entry + Z.of_nat width) in (t :: l, p)
      end
  end.
Definition parse_root (sig : list Z) (width : nat) (root : Z) : list Table * option Panic :=
  if negb (matches sig root) then ([], Some RootSignature)
  else if negb (do_checksum root (sdt_size root)) then ([], Some RootChecksum)
  else parse_tables (Z.to_nat (u64 (sdt_size root - sizeof_SDT) / Z.of_nat width)) width (root + sizeof_SDT).

Definition parse_rsdp (rsdp : Z) : list Table * option Panic :=
  if negb (matches SIG_RSDP rsdp) then ([], Some RsdpSignature)
  else if negb (do_checksum rsdp sizeof_RSDP1) then ([], Some RsdpChecksum)
  else if revision rsdp =? 0 then parse_root SIG_RSDT 4 (u64 (rsdt_addr rsdp + hhdm))
  else if revision rsdp =? 2 then
    if negb (do_checksum (rsdp + sizeof_RSDP1) (u64 (rsdp2_size rsdp - sizeof_RSDP1))) then ([], Some RsdpChecksum)
    else parse_root SIG_XSDT 8 (u64 (xsdt_addr rsdp + hhdm))
  else ([], None).
End Tables.

(** ** The checksum *)

Definition total (mem : Z -> Z) (a : Z) (n : nat) : Z := foldr Z.add 0 (map mem (seqZ a (Z.of_nat n))).

Lemma sum_bytes_total mem n : forall a sum, 0 <= sum < 256 -> sum_bytes mem n a sum = (sum + total mem a n) mod 256.
Proof.
  induction n as [|n IH]; intros a sum Hs; cbn [sum_bytes].
  - unfold total. cbn. rewrite Z.add_0_r. by rewrite Z.mod_small.
  - rewrite IH by (apply (uN_range 8); lia). unfold total. rewrite (seqZ_cons a) by lia. cbn [map foldr]. unfold uN. change (2 ^ 8) with 256.
    rewrite Zplus_mod_idemp_l. replace (Z.pred (Z.of_nat (S n))) with (Z.of_nat n) by lia. replace (Z.succ a) with (a + 1) by lia. f_equal. lia.
Qed.

(** A table is taken when its bytes add up to a multiple of 256. *)
Theorem do_checksum_spec mem table size : 0 <= size -> do_checksum mem table size = true <-> total mem table (Z.to_nat size) mod 256 = 0.
Proof. intros Hs. unfold do_checksum. rewrite sum_bytes_total by lia. by rewrite Z.add_0_l, Z.eqb_eq. Qed.

(** ** The entries *)

(** Where no entry says it has no length, the loop ends. *)
Theorem entries_end mem fuel entry last : (forall a, entry <= a < last -> 0 < mem (a + 1)) -> (Z.to_nat (last - entry) <= fuel)%nat ->
  is_Some (entries mem fuel entry last).
Proof.
  revert entry. induction fuel as [|fuel IH]; intros entry Hm Hf; cbn [entries]; destruct (entry <? last) eqn:E; try (by eexists);
    apply Z.ltb_lt in E; [lia|]. pose proof (Hm entry ltac:(lia)) as H.
  destruct (IH (entry + mem (entry + 1))) as [l ->]; [intros a Ha; apply Hm; lia|lia|]. by eexists.
Qed.
(** An entry of length 0 is read for ever. *)
Theorem entries_endless mem fuel entry last : entry < last -> mem (entry + 1) = 0 -> entries mem fuel entry last = None.
Proof.
  intros Hl Hm. induction fuel as [|fuel IH]; cbn [entries]; rewrite (proj2 (Z.ltb_lt _ _)) by lia; [done|]. by rewrite Hm, Z.add_0_r, IH.
Qed.

(** The entries found are those laid out one after the other. *)
Definition laid_out (mem : Z -> Z) (bs : list Z) (a : Z) : Prop := forall i b, bs !! i = Some b -> mem (a + Z.of_nat i) = b.
Fixpoint starts (a : Z) (l : list (list Z)) : list Z := match l with [] => [] | e :: l => a :: starts (a + Z.of_nat (length e)) l end.

Lemma laid_out_app mem bs bs' a : laid_out mem (bs ++ bs') a -> laid_out mem bs a /\ laid_out mem bs' (a + Z.of_nat (length bs)).
Proof.
  intros H. split; intros i b Hi.
  - apply H. by apply lookup_app_l_Some.
  - replace (a + Z.of_nat (length bs) + Z.of_nat i) with (a + Z.of_nat (length bs + i)) by lia. apply H.
    rewrite lookup_app_r by lia. by replace (length bs + i - length bs)%nat with i by lia.
Qed.

Theorem entries_found mem l : forall a, Forall (fun e => exists t rest, e = t :: Z.of_nat (length e) :: rest) l -> laid_out mem (concat l) a ->
  entries mem (length l) a (a + Z.of_nat (length (concat l))) = Some (map (read_entry mem) (starts a l)).
Proof.
  induction l as [|e l IH]; intros a Hl Hm; cbn [length concat entries starts map].
  - by rewrite (proj2 (Z.ltb_ge _ _)) by lia.
  - apply Forall_cons in Hl as [(t & rest & He) Hl]. cbn [concat] in Hm. apply laid_out_app in Hm as [He1 Hm].
    assert (Hlen : mem (a + 1) = Z.of_nat (length e)) by (apply (He1 1%nat); by rewrite He at 1).
    assert (Hpos : (2 <= length e)%nat) by (rewrite He; cbn; lia).
    rewrite (proj2 (Z.ltb_lt _ _)) by (rewrite length_app; lia). rewrite Hlen.
    replace (a + Z.of_nat (length (e ++ concat l))) with (a + Z.of_nat (length e) + Z.of_nat (length (concat l))) by (rewrite length_app; lia).
    by rewrite (IH _ Hl Hm).
Qed.

(** The list of processors gets those of the entries that are enabled, in
    their order. *)
Definition enabled_lapic (e : Entry) : option (Z * Z) :=
  match e with E_LAPIC p id flags => if Z.testbit flags 0 then Some (id, p) else None | _ => None end.
Theorem lapics_enabled l ls : foldl (fun ls e => add_lapic e ls) ls l = ls ++ omap enabled_lapic l.
Proof.
  revert ls. induction l as [|e l IH]; intros ls; cbn [foldl omap list_omap]; [by rewrite app_nil_r|]. rewrite IH.
  unfold add_lapic, enabled_lapic. destruct e as [p id flags| | | | |]; try done. destruct (Z.testbit flags 0); [|done]. by rewrite <- app_assoc.
Qed.

(** ** A run *)

(** Two processors, one of them off, a controller, an override and the
    non-maskable line of all processors. *)
Definition madt0 : list Z :=
  SIG_APIC ++ [44 + 8 + 8 + 12 + 10 + 6; 0; 0; 0] ++ replicate 36 0 ++
  [0; 8; 0; 0; 1; 0; 0; 0] ++ [0; 8; 1; 1; 0; 0; 0; 0] ++ [1; 12; 0; 0; 0; 0; 192; 254; 0; 0; 0; 0] ++ [2; 10; 0; 0; 2; 0; 0; 0; 0; 0] ++ [4; 6; 255; 0; 0; 1].
Definition mem0 (a : Z) : Z := default 0 (madt0 !! Z.to_nat a).
Example madt0_parsed :
  exists m, parse_madt mem0 9 (fun _ => 1507328) 0 0 (mkMadt [] (init_sources load_idt) []) = Some m /\
    lapics m = [(0, 0)] /\ ioapics (sources m) = [mkIOAPIC 0 0 24] /\ take 3 (irq_to_gsi (sources m)) = [2; 1; 2] /\
    take 2 (lvt m) = [(LVT_LINT1, 1278); (LVT_LINT0, 65536)].
Proof. eexists. split; [vm_compute; reflexivity|]. vm_compute. done. Qed.
