(* ===== verification/Execve.v ===== *)
(** The execve call (syscall_execve of src/kernel/src/sched/sched.cpp): the
    copies of its arguments from user memory in the kernel's heap, the exec of
    Exec.v, the registers the program starts with, and the deletion of the
    copies.

    The heap is the set of blocks that are allocated; a block that is deleted
    and is not is undefined.  The blocks that [user_exec] makes and deletes
    alone are left out; the one it puts in its caller's array is not. *)
From S2P Require Import Prelude FdTable Signal Tmpfs NameSpace UserMem Elf Exec.
From stdpp Require Import strings.
#[local] Open Scope Z_scope.

(** ** Blocks *)

Record Heap : Type := mkHeap { live : gset Z; next_block : Z }.
#[export] Instance heap_eq_dec : EqDecision Heap.
Proof. solve_decision. Defined.
Definition new_block (h : Heap) : Z * Heap := (next_block h, mkHeap ({[next_block h]} ∪ live h) (next_block h + 1)).
(** A null pointer is nothing to delete. *)
Definition delete_block (b : Z) (h : Heap) : option Heap :=
  if b =? 0 then Some h
  else if bool_decide (b ∈ live h) then Some (mkHeap (live h ∖ {[b]}) (next_block h)) else None.
Fixpoint delete_blocks (l : list Z) (h : Heap) : option Heap :=
  match l with [] => Some h | b :: l => h1 ← delete_block b h; delete_blocks l h1 end.

(** ** The arguments *)

(** A string in user memory, and the pointers of an array up to null. *)
Fixpoint user_string (fuel : nat) (a : Z) (m : Mem) : option (list Z) :=
  match fuel with
  | O => None
  | S fuel => c ← load8 a m; if c =? 0 then Some [] else l ← user_string fuel (u64 (a + 1)) m; Some (c :: l)
  end.
Fixpoint user_array (fuel : nat) (a : Z) (m : Mem) : option (list Z) :=
  match fuel with
  | O => None
  | S fuel => p ← load_word a m; if p =? 0 then Some [] else l ← user_array fuel (u64 (a + 8)) m; Some (p :: l)
  end.

(** The copies of the strings with their blocks, and of an array: that of the
    pointers comes first. *)
Fixpoint copy_strings (fuel : nat) (ptrs : list Z) (m : Mem) (h : Heap) : option (list (list Z) * list Z * Heap) :=
  match ptrs with
  | [] => Some ([], [], h)
  | a :: ptrs =>
      s ← user_string fuel a m;
      let '(b, h1) := new_block h in
      '(l, bs, h2) ← copy_strings fuel ptrs m h1;
      Some (s :: l, b :: bs, h2)
  end.
Definition copy_array (fuel : nat) (a : Z) (m : Mem) (h : Heap) : option (list (list Z) * Z * list Z * Heap) :=
  ptrs ← user_array fuel a m;
  let '(b, h1) := new_block h in
  '(l, bs, h2) ← copy_strings fuel ptrs m h1;
  Some (l, b, bs, h2).

(** ** The call *)

Section Execve.
Context `{!Realloc} (fuel : nat).

(** Whether [user_exec] comes to give the array's first place to a block of its
    own: an interpreter was loaded. *)
Definition runs_script (path : list Z) (s : Ns) : bool :=
  match find_executable fuel path (starting_point path s) s with
  | Some (inr (e, data), s1) =>
      match load_program fuel e data s1 with Some (inr pg, _) => negb (bool_decide (pg_interp pg = [])) | _ => false end
  | _ => false
  end.

(** [user_exec] with the blocks of [argv]: that block is deleted when it
    returns, and stays in the array. *)
Definition exec_with_blocks (path : list Z) (argv envp : list (list Z)) (blocks : list Z) (p : Proc) (s : Ns) (h : Heap)
    : option (Z * Proc * Ns * list Z * Heap) :=
  '(r, p', s') ← user_exec fuel path argv envp p s;
  if runs_script path s then
    let '(b, h1) := new_block h in
    h2 ← delete_block b h1;
    Some (r, p', s', match blocks with _ :: l => b :: l | [] => [] end, h2)
  else Some (r, p', s', blocks, h).

(** The registers at the return from the call. *)
Definition start_regs (rip rflags : Z) : InterruptState :=
  mkRegs 0 0 0 0 0 0 rflags 0 0 0 0 0 0 0 rip 0 0 0 0 0 0 0 0.

(** [other] are the registers last saved of the caller when it is not the
    process's main thread, which is the one [user_exec] sets up. *)
Definition syscall_execve (path argv envp : Z) (other : option InterruptState) (p : Proc) (s : Ns) (h : Heap)
    : option (Z * Proc * Ns * option InterruptState * Heap) :=
  path_copy ← user_string fuel path (p_mem p);
  let '(path_block, h1) := new_block h in
  '(envp_copy, envp_block, envp_blocks, h2) ← copy_array fuel envp (p_mem p) h1;
  '(argv_copy, argv_block, argv_blocks, h3) ← copy_array fuel argv (p_mem p) h2;
  '(r, p', s', argv_blocks', h4) ← exec_with_blocks path_copy argv_copy envp_copy argv_blocks p s h3;
  let regs := let g := default (p_regs p') other in if r <? 0 then None else Some (start_regs (rip g) (rflags g)) in
  h5 ← delete_blocks (path_block :: argv_blocks' ++ argv_block :: envp_blocks ++ [envp_block]) h4;
  Some (r, p', s', regs, h5).
End Execve.

(** ** Copies *)

Lemma user_string_spec fuel s : forall a m, string_at m a s -> 0 ∉ s -> (length s < fuel)%nat -> user_string fuel a m = Some s.
Proof.
  unfold string_at. revert s. induction fuel as [|fuel IH]; intros s a m Hs Hz Hf; [lia|]. cbn [user_string].
  destruct s as [|c s]; cbn [length Nat.add load_bytes app] in Hs.
  - destruct (load8 a m) as [x|]; [|done]. cbn [mbind option_bind] in Hs |- *. by injection Hs as ->.
  - destruct (load8 a m) as [x|]; [|done]. cbn [mbind option_bind] in Hs |- *.
    destruct (load_bytes (u64 (a + 1)) (length s + 1) m) as [l|] eqn:El; [|done]. cbn [mbind option_bind] in Hs. injection Hs as -> ->.
    apply not_elem_of_cons in Hz as [Hc Hz]. rewrite (proj2 (Z.eqb_neq c 0)) by congruence. cbn [length] in Hf.
    rewrite (IH s (u64 (a + 1)) m El Hz) by lia. done.
Qed.

(** The blocks made between two heaps are new, and each made once. *)
Record made (bs : list Z) (h h' : Heap) : Prop := {
  made_blocks : bs = seqZ (next_block h) (Z.of_nat (length bs));
  made_next : next_block h' = next_block h + Z.of_nat (length bs);
  made_live : live h' = live h ∪ list_to_set bs
}.
Definition heap_ok (h : Heap) : Prop := 0 < next_block h /\ forall b, b ∈ live h -> 0 < b < next_block h.

Lemma made_nil h : made [] h h.
Proof. constructor; cbn; [by rewrite seqZ_nil by lia|lia|set_solver]. Qed.
Lemma made_one h : made [(new_block h).1] h (new_block h).2.
Proof. constructor; cbn [new_block fst snd length next_block live]; [unfold seqZ; cbn; f_equal; lia|lia|set_solver]. Qed.
Lemma made_app bs bs' h h1 h2 : made bs h h1 -> made bs' h1 h2 -> made (bs ++ bs') h h2.
Proof.
  intros [B1 N1 L1] [B2 N2 L2]. constructor.
  - rewrite length_app, Nat2Z.inj_add, seqZ_app by lia. rewrite <- B1 at 1. f_equal. by rewrite B2 at 1; rewrite N1.
  - rewrite length_app. lia.
  - rewrite list_to_set_app_L. set_solver.
Qed.

Lemma copy_strings_made fuel ptrs : forall m h l bs h', copy_strings fuel ptrs m h = Some (l, bs, h') -> made bs h h'.
Proof.
  induction ptrs as [|a ptrs IH]; intros m h l bs h' H; cbn [copy_strings] in H; [injection H as <- <- <-; apply made_nil|].
  destruct (user_string fuel a m) as [s|]; [|done]. cbn [mbind option_bind] in H. destruct (new_block h) as [b h1] eqn:Eb.
  destruct (copy_strings fuel ptrs m h1) as [[[l' bs'] h2]|] eqn:E; [|done]. cbn [mbind option_bind] in H. injection H as <- <- <-.
  apply (made_app [b] bs' h h1 h2); [|by eapply IH]. pose proof (made_one h) as H1. by rewrite Eb in H1.
Qed.
Lemma copy_array_made fuel a m h l b bs h' : copy_array fuel a m h = Some (l, b, bs, h') -> made (b :: bs) h h'.
Proof.
  unfold copy_array. destruct (user_array fuel a m) as [ptrs|]; [|done]. cbn [mbind option_bind]. destruct (new_block h) as [b' h1] eqn:Eb.
  destruct (copy_strings fuel ptrs m h1) as [[[l' bs'] h2]|] eqn:E; [|done]. cbn [mbind option_bind]. injection 1 as <- <- <- <-.
  apply (made_app [b'] bs' h h1 h2); [|by eapply copy_strings_made]. pose proof (made_one h) as H1. by rewrite Eb in H1.
Qed.

Lemma delete_blocks_spec l : forall h, NoDup l -> (forall b, b ∈ l -> b <> 0 /\ b ∈ live h) ->
  delete_blocks l h = Some (mkHeap (live h ∖ list_to_set l) (next_block h)).
Proof.
  induction l as [|b l IH]; intros h Hn Hl; cbn [delete_blocks].
  - destruct h as [lv n]. cbn. f_equal. f_equal. set_solver.
  - apply NoDup_cons in Hn as [Hb Hn]. destruct (Hl b ltac:(by left)) as [Hz Hlive]. unfold delete_block.
    rewrite (proj2 (Z.eqb_neq b 0)), bool_decide_true by done. cbn [mbind option_bind]. rewrite IH by (done || (cbn [live]; intros b' Hb'; destruct (Hl b' ltac:(by right)); set_solver)).
    cbn [live next_block]. f_equal. f_equal. rewrite list_to_set_cons. set_solver.
Qed.
Lemma delete_blocks_absent l : forall h b, b ∈ l -> b <> 0 -> b ∉ live h -> delete_blocks l h = None.
Proof.
  induction l as [|b' l IH]; intros h b Hb Hz Hl; [by apply not_elem_of_nil in Hb|]. cbn [delete_blocks]. unfold delete_block.
  apply elem_of_cons in Hb as [<-|Hb].
  - by rewrite (proj2 (Z.eqb_neq b 0)), bool_decide_false by done.
  - destruct (b' =? 0); cbn [mbind option_bind]; [by apply (IH h b)|]. case_bool_decide; cbn [mbind option_bind]; [|done].
    apply (IH _ b); [done|done|]. cbn [live]. set_solver.
Qed.

(** ** The call's outcome *)

(** The steps of a call, up to the deletions. *)
Lemma syscall_execve_steps `{!Realloc} fuel path argv envp other p s h pth av ev ab eb abs ebs h2 h3 :
  user_string fuel path (p_mem p) = Some pth -> copy_array fuel envp (p_mem p) (new_block h).2 = Some (ev, eb, ebs, h2) ->
  copy_array fuel argv (p_mem p) h2 = Some (av, ab, abs, h3) ->
  made ((new_block h).1 :: (eb :: ebs) ++ ab :: abs) h h3 /\
  syscall_execve fuel path argv envp other p s h =
    ('(r, p', s', abs', h4) ← exec_with_blocks fuel pth av ev abs p s h3;
     let regs := let g := default (p_regs p') other in if r <? 0 then None else Some (start_regs (rip g) (rflags g)) in
     h5 ← delete_blocks ((new_block h).1 :: abs' ++ ab :: ebs ++ [eb]) h4;
     Some (r, p', s', regs, h5)).
Proof.
  intros Hp He Ha. split.
  - apply (made_app [_] _ h (new_block h).2 h3); [apply made_one|].
    apply (made_app (eb :: ebs) (ab :: abs) _ h2); [by eapply copy_array_made|by eapply copy_array_made].
  - unfold syscall_execve. rewrite Hp. cbn [mbind option_bind]. destruct (new_block h) as [b h1] eqn:Eb. cbn [fst snd] in *.
    rewrite He. cbn [mbind option_bind]. rewrite Ha. done.
Qed.

Lemma made_fresh bs h h' b : heap_ok h -> made bs h h' -> b ∈ bs -> b <> 0 /\ b ∉ live h /\ b ∈ live h'.
Proof.
  intros [H0 Hl] [Hb Hn Hlv] Hin. pose proof Hin as Hin2. rewrite Hb in Hin2. apply elem_of_seqZ in Hin2. split; [lia|]. split.
  - intros Hc. apply Hl in Hc. lia.
  - rewrite Hlv. apply elem_of_union. right. by apply elem_of_list_to_set.
Qed.
Lemma made_nodup bs h h' : made bs h h' -> NoDup bs.
Proof. intros [Hb _ _]. rewrite Hb. apply NoDup_seqZ. Qed.

(** A call that runs no script deletes each copy once: the heap is as it was,
    and what the program gets is what [user_exec] does with the strings read. *)
Theorem execve_returns_heap `{!Realloc} fuel path argv envp other p s h pth av ev ab eb abs ebs h2 h3 r p' s' :
  heap_ok h ->
  user_string fuel path (p_mem p) = Some pth -> copy_array fuel envp (p_mem p) (new_block h).2 = Some (ev, eb, ebs, h2) ->
  copy_array fuel argv (p_mem p) h2 = Some (av, ab, abs, h3) ->
  user_exec fuel pth av ev p s = Some (r, p', s') -> runs_script fuel pth s = false ->
  exists h5, live h5 = live h /\
    syscall_execve fuel path argv envp other p s h =
      Some (r, p', s', (if r <? 0 then None else Some (start_regs (rip (default (p_regs p') other)) (rflags (default (p_regs p') other)))), h5).
Proof.
  intros Hok Hp He Ha Hx Hr. destruct (syscall_execve_steps fuel path argv envp other p s h _ _ _ _ _ _ _ _ _ Hp He Ha) as [Hm ->].
  unfold exec_with_blocks. rewrite Hx. cbn [mbind option_bind]. rewrite Hr. cbn [mbind option_bind].
  assert (Hperm : (new_block h).1 :: abs ++ ab :: ebs ++ [eb] ≡ₚ (new_block h).1 :: (eb :: ebs) ++ ab :: abs) by solve_Permutation.
  rewrite delete_blocks_spec.
  - cbn [mbind option_bind]. eexists. split; [|reflexivity]. cbn [live]. rewrite (made_live _ _ _ Hm), (list_to_set_perm_L _ _ Hperm).
    apply set_eq. intros x. rewrite elem_of_difference, elem_of_union, elem_of_list_to_set. split; [tauto|]. intros Hx'. split; [by left|].
    intros Hin. by apply (made_fresh _ _ _ _ Hok Hm) in Hin as (_ & Hn & _).
  - rewrite Hperm. by eapply made_nodup.
  - intros b Hb. rewrite Hperm in Hb. destruct (made_fresh _ _ _ _ Hok Hm Hb) as (? & _ & ?). done.
Qed.

(** A script is run with its path in the first place of the copied array, in a
    block that is deleted when the exec returns - and again with the copies. *)
Theorem execve_script_deletes_twice `{!Realloc} fuel path argv envp other p s h pth av ev ab eb b abs ebs h2 h3 :
  heap_ok h ->
  user_string fuel path (p_mem p) = Some pth -> copy_array fuel envp (p_mem p) (new_block h).2 = Some (ev, eb, ebs, h2) ->
  copy_array fuel argv (p_mem p) h2 = Some (av, ab, b :: abs, h3) -> runs_script fuel pth s = true ->
  syscall_execve fuel path argv envp other p s h = None.
Proof.
  intros Hok Hp He Ha Hr. destruct (syscall_execve_steps fuel path argv envp other p s h _ _ _ _ _ _ _ _ _ Hp He Ha) as [Hm ->].
  unfold exec_with_blocks. destruct (user_exec fuel pth av ev p s) as [[[r p'] s']|]; [|done]. cbn [mbind option_bind]. rewrite Hr.
  destruct Hok as [H0 Hl]. pose proof (made_next _ _ _ Hm) as Hn. pose proof (made_live _ _ _ Hm) as Hlv. pose proof (made_blocks _ _ _ Hm) as Hbs.
  set (bs := (new_block h).1 :: (eb :: ebs) ++ ab :: b :: abs) in *. clearbody bs. unfold new_block, delete_block. cbn [live next_block].
  rewrite (proj2 (Z.eqb_neq (next_block h3) 0)), bool_decide_true by (lia || set_solver). cbn [mbind option_bind].
  rewrite (delete_blocks_absent _ _ (next_block h3)); [done|set_solver|lia|]. cbn [live]. set_solver.
Qed.

(** ** Runs *)

#[local] Existing Instance realloc_170.

(** Memory with a path, one argument and no environment. *)
Definition args_mem (path arg : list Z) : option Mem :=
  m ← store_bytes 4096 (path ++ [0]) (map_anonymous 4096 4096 no_mem);
  m ← store_bytes 4352 (arg ++ [0]) m;
  m ← store_word 4608 4352 m;
  m ← store_word 4616 0 m;
  store_word 4624 0 m.
Definition caller (path arg : list Z) : Proc := set_image (default no_mem (args_mem path arg)) 0 (p_name demo_proc) demo_proc.
Definition heap0 : Heap := mkHeap {[3; 7]} 16.

(** The directory with a script that names the program as its interpreter. *)
Definition script_data : NodeData :=
  let l := str "#!/home/notes" ++ [10] in mkNodeData false 8 (l ++ replicate (256 - length l) 0) (Z.of_nat (length l)).
Definition ns_script : Ns :=
  let s := run_ns (syscall_open ns_example_fuel ns_open (str "script") 66 493 ns_program) in
  match path_to_entry ns_example_fuel (str "/home/script") 0 true s with
  | Some (e, _) =>
      match vnode_of e s with
      | Some v => upd_vnode v (fun d => mkVNode (node_type d) (fs d) (fs_mounted_here d) (Some script_data) (times d) (uid d) (gid d) (mode d) (rdev d)) s
      | None => s
      end
  | None => s
  end.

(** A program starts with its entry point in rcx and every block deleted. *)
Lemma execve_returns_heap_witness :
  exists p' s' h5, syscall_execve ns_example_fuel 4096 4608 4624 None (caller (str "/home/notes") (str "notes")) ns_program heap0 =
    Some (0, p', s', Some (start_regs 4198412 514), h5) /\ live h5 = {[3; 7]}.
Proof.
  set (p := caller (str "/home/notes") (str "notes")).
  pose proof (fun r p' s' => execve_returns_heap ns_example_fuel 4096 4608 4624 None p ns_program heap0 (str "/home/notes") [str "notes"] []
    18 17 [19] [] (mkHeap {[17; 16; 3; 7]} 18) (mkHeap {[19; 18; 17; 16; 3; 7]} 20) r p' s') as T.
  assert (fst ∘ fst <$> user_exec ns_example_fuel (str "/home/notes") [str "notes"] [] p ns_program = Some 0) as E by (by vm_compute).
  assert (rip ∘ p_regs ∘ snd ∘ fst <$> user_exec ns_example_fuel (str "/home/notes") [str "notes"] [] p ns_program = Some 4198412) as E1 by (by vm_compute).
  assert (rflags ∘ p_regs ∘ snd ∘ fst <$> user_exec ns_example_fuel (str "/home/notes") [str "notes"] [] p ns_program = Some 514) as E2 by (by vm_compute).
  destruct (user_exec _ _ _ _ _ _) as [[[r p'] s']|]; [|discriminate E]. cbn in E, E1, E2. injection E as ->. injection E1 as E1. injection E2 as E2.
  destruct (T 0 p' s') as (h5 & Hl & Hs); [split; [done|]; intros b Hb; cbn in Hb |- *; set_unfold in Hb; lia| | | |done| |].
  - by vm_compute.
  - apply (bool_decide_unpack _). by vm_compute.
  - apply (bool_decide_unpack _). by vm_compute.
  - by vm_compute.
  - exists p', s', h5. split; [|exact Hl]. rewrite Hs. cbn. by rewrite E1, E2.
Defined.

(** The exec of a script succeeds, and the call deletes a block twice. *)
Lemma execve_script_deletes_twice_witness :
  let p := caller (str "/home/script") (str "script") in
  fst ∘ fst <$> user_exec ns_example_fuel (str "/home/script") [str "script"] [] p ns_script = Some 0 /\
  syscall_execve ns_example_fuel 4096 4608 4624 None p ns_script heap0 = None.
Proof.
  intros p. split; [by vm_compute|].
  apply (execve_script_deletes_twice ns_example_fuel 4096 4608 4624 None p ns_script heap0 (str "/home/script") [str "script"] []
    18 17 19 [] [] (mkHeap {[17; 16; 3; 7]} 18) (mkHeap {[19; 18; 17; 16; 3; 7]} 20)).
  - split; [done|]. intros b Hb. cbn in Hb |- *. set_unfold in Hb. lia.
  - by vm_compute.
  - apply (bool_decide_unpack _). by vm_compute.
  - apply (bool_decide_unpack _). by vm_compute.
  - by vm_compute.
Defined.

(** A thread other than the main one goes on, in the new program's memory, where
    it was last interrupted in the old one. *)
Example execve_other_thread :
  let p := caller (str "/home/notes") (str "notes") in
  (fun x => x.1.2) <$> syscall_execve ns_example_fuel 4096 4608 4624 (Some (init_user 6291456 0)) p ns_program heap0 =
  Some (Some (start_regs 6291456 514)).
Proof. vm_compute. reflexivity. Qed.
