(* ===== verification/Ps2.v ===== *)
(** The PS/2 controller (src/kernel/src/dev/input/ps2/ps2.cpp, and what the
    constructor of mouse.cpp asks of its device): the commands and the data
    written and read, with their time-outs, and the start of the controller.

    The controller is any state with a reading and a writing of its ports;
    [stall] is what 50 microseconds do to it.  A concrete one, with a mouse or
    none, is used to say what the start does. *)
From S2P Require Import Prelude.

(** ** Registers and commands *)

Definition PORT_DATA : Z := 96.
Definition PORT_COMMAND : Z := 100.
Definition PORT_STATUS : Z := 100.
Definition TIMEOUT : Z := 500000.
Definition ACK : Z := 250.
Definition RESEND : Z := 254.
Definition CTRL_SELF_TEST_OK : Z := 85.
Definition CONFIG_IRQ_P1 : Z := 1.
Definition CONFIG_IRQ_P2 : Z := 2.
Definition CONFIG_CLOCK_DISABLE_P2 : Z := 32.
Definition CONFIG_TRANSLATION : Z := 64.
Definition CTRL_CMD_SECOND_PORT_SELECT : Z := 212.
Definition CTRL_CMD_ENABLE_P1 : Z := 174.
Definition CTRL_CMD_ENABLE_P2 : Z := 168.
Definition CTRL_CMD_DISABLE_P1 : Z := 173.
Definition CTRL_CMD_DISABLE_P2 : Z := 167.
Definition CTRL_CMD_READ_CONFIG : Z := 32.
Definition CTRL_CMD_WRITE_CONFIG : Z := 96.
Definition CTRL_CMD_SELF_TEST : Z := 170.
Definition CTRL_CMD_P1_SELF_TEST : Z := 171.
Definition CTRL_CMD_P2_SELF_TEST : Z := 169.
Definition DEVICE_CMD_IDENTIFY : Z := 242.
Definition DEVICE_CMD_ENABLE_SCANNING : Z := 244.
Definition DEVICE_CMD_DISABLE_SCANNING : Z := 245.
Definition DEVICE_CMD_SAMPLE_RATE : Z := 243.
Definition IDENTITY_MOUSE : Z := 0.
Definition IDENTITY_MOUSE_WHEEL : Z := 3.
Definition IDENTITY_MOUSE_FIVE_BUTTONS : Z := 4.

Section Controller.
Context {W : Type} (inb : Z -> W -> Z * W) (outb : Z -> Z -> W -> W) (stall : W -> W).

(** ** Reading and writing *)

Definition out_buffer_empty (w : W) : bool * W := let '(s, w1) := inb PORT_STATUS w in (Z.land s 1 =? 0, w1).
Definition in_buffer_full (w : W) : bool * W := let '(s, w1) := inb PORT_STATUS w in (Z.land s 2 =? 2, w1).

(** The wait while [busy], for that many turns of 50 microseconds: whether it
    ended in time.  The condition is evaluated once more when the time is up. *)
Fixpoint wait (busy : W -> bool * W) (turns : nat) (w : W) : bool * W :=
  let '(b, w1) := busy w in
  match turns with
  | O => (false, w1)
  | S turns => if b then wait busy turns (stall w1) else (true, w1)
  end.
Definition wait_turns : nat := Z.to_nat (TIMEOUT / 50).

(** 0, or -1 when the time is up; the byte read, or -1. *)
Definition write_port (port v : Z) (w : W) : Z * W :=
  let '(ok, w1) := wait in_buffer_full wait_turns w in if ok then (0, outb port v w1) else (-1, w1).
Definition write_command (cmd : Z) (w : W) : Z * W := write_port PORT_COMMAND cmd w.
Definition write_data (data : Z) (w : W) : Z * W := write_port PORT_DATA data w.
Definition read_data (w : W) : Z * W :=
  let '(ok, w1) := wait out_buffer_empty wait_turns w in if ok then inb PORT_DATA w1 else (-1, w1).

Fixpoint flush_loop (turns : nat) (w : W) : W :=
  match turns with
  | O => w
  | S turns => let '(s, w1) := inb PORT_STATUS w in if Z.land s 3 =? 0 then w1 else flush_loop turns (snd (inb PORT_DATA w1))
  end.
Definition flush_out_buffer (w : W) : W := flush_loop 50 w.

(** ** Devices *)

Definition device_command (port command : Z) (w : W) : W :=
  let w1 := if port =? 2 then snd (write_command CTRL_CMD_SECOND_PORT_SELECT w) else w in snd (write_data command w1).

(** The loop for an acknowledgement; what is read is cut to a byte. *)
Fixpoint check_loop (fuel : nat) (port command resends : Z) (w : W) : option (bool * W) :=
  match fuel with
  | O => None
  | S fuel =>
      let '(d, w1) := read_data w in
      if u8 d =? RESEND then
        if 5 <? resends then Some (false, w1) else check_loop fuel port command (resends + 1) (device_command port command w1)
      else if u8 d =? ACK then Some (true, w1) else check_loop fuel port command resends w1
  end.
Definition device_command_check (fuel : nat) (port command : Z) (w : W) : option (bool * W) :=
  check_loop fuel port command 0 (device_command port command w).

(** Whether it succeeded, and what [*result] is, [old] before. *)
Definition identify (fuel : nat) (port : Z) (old : option Z) (w : W) : option (bool * option Z * W) :=
  '(ok1, w1) ← device_command_check fuel port DEVICE_CMD_DISABLE_SCANNING w;
  if negb ok1 then Some (false, old, w1)
  else
    '(ok2, w2) ← device_command_check fuel port DEVICE_CMD_IDENTIFY (flush_out_buffer w1);
    if negb ok2 then Some (false, old, w2)
    else
      let '(r, w3) := read_data w2 in
      '(ok3, w4) ← device_command_check fuel port DEVICE_CMD_ENABLE_SCANNING (flush_out_buffer w3);
      if negb ok3 then Some (false, Some (u8 r), w4) else Some (true, Some (u8 r), flush_out_buffer w4).

Definition set_rate (fuel : nat) (rate : Z) (w : W) : option W :=
  '(ok, w1) ← device_command_check fuel 2 DEVICE_CMD_SAMPLE_RATE w;
  if negb ok then Some w1 else snd <$> device_command_check fuel 2 rate w1.
Fixpoint set_rates (fuel : nat) (rates : list Z) (w : W) : option W :=
  match rates with [] => Some w | r :: rates => w1 ← set_rate fuel r w; set_rates fuel rates w1 end.

(** The constructor of [Mouse]: whether it has a wheel and five buttons.  A
    device that is no mouse, or an identity that was never read, is [None]. *)
Definition mouse_setup (fuel : nat) (w : W) : option (bool * bool * W) :=
  '(_, i0, w1) ← identify fuel 2 None w;
  i0 ← i0;
  if negb (i0 =? IDENTITY_MOUSE) then None
  else
    w2 ← set_rates fuel [200; 100; 80] w1;
    '(_, i1, w3) ← identify fuel 2 (Some i0) w2;
    i1 ← i1;
    '(five, w4) ← (if i1 =? IDENTITY_MOUSE_WHEEL then
                     w4 ← set_rates fuel [200; 200; 80] w3;
                     '(_, i2, w5) ← identify fuel 2 (Some i1) w4;
                     i2 ← i2;
                     Some (i2 =? IDENTITY_MOUSE_FIVE_BUTTONS, w5)
                   else Some (false, w3));
    w5 ← set_rate fuel 200 w4;
    Some (i1 =? IDENTITY_MOUSE_WHEEL, five, flush_out_buffer w5).

(** ** The start *)

Definition command (cmd : Z) (w : W) : W := snd (write_command cmd w).
Definition write_config (config : Z) (w : W) : W := snd (write_data config (command CTRL_CMD_WRITE_CONFIG w)).
Definition read_config (w : W) : Z * W := let '(d, w1) := read_data (command CTRL_CMD_READ_CONFIG w) in (u8 d, w1).
Definition self_test (cmd : Z) (w : W) : Z * W := let '(d, w1) := read_data (command cmd w) in (u8 d, w1).

(** Whether there is a second port; it is left disabled. *)
Definition find_second_port (w : W) : bool * W :=
  let '(config, w1) := read_config (command CTRL_CMD_ENABLE_P2 w) in
  if negb (Z.land config CONFIG_CLOCK_DISABLE_P2 =? 0) then (false, w1)
  else (true, write_config (Z.lor (Z.ldiff config CONFIG_IRQ_P2) CONFIG_CLOCK_DISABLE_P2) (command CTRL_CMD_DISABLE_P2 w1)).

(** The ports that work are enabled, with their interrupts. *)
Definition enable_ports (p1 p2 : bool) (w : W) : W :=
  let w1 := if p1 then command CTRL_CMD_ENABLE_P1 w else w in
  let w2 := if p2 then command CTRL_CMD_ENABLE_P2 w1 else w1 in
  let '(config, w3) := read_config w2 in
  let config := if p1 then Z.lor config (Z.lor CONFIG_IRQ_P1 CONFIG_TRANSLATION) else config in
  write_config (if p2 then Z.lor config CONFIG_IRQ_P2 else config) w3.

(** [init] up to the devices: whether they are made. *)
Definition init_controller (w : W) : bool * W :=
  let '(err, w1) := write_command CTRL_CMD_DISABLE_P1 w in
  if negb (err =? 0) then (false, w1)
  else
    let '(config, w2) := read_config (flush_out_buffer (command CTRL_CMD_DISABLE_P2 w1)) in
    let config := Z.ldiff config (Z.lor CONFIG_IRQ_P1 (Z.lor CONFIG_IRQ_P2 CONFIG_TRANSLATION)) in
    let '(result, w3) := self_test CTRL_CMD_SELF_TEST (write_config config w2) in
    if negb (result =? CTRL_SELF_TEST_OK) then (false, w3)
    else
      let '(dual_port, w4) := find_second_port (write_config config w3) in
      let '(r1, w5) := self_test CTRL_CMD_P1_SELF_TEST w4 in
      let '(p2, w6) := if dual_port then let '(r2, w6) := self_test CTRL_CMD_P2_SELF_TEST w5 in (r2 =? 0, w6) else (false, w5) in
      if negb (r1 =? 0) && negb p2 then (false, w6) else (true, enable_ports (r1 =? 0) p2 w6).

(** [init]: the keyboard's constructor only discards what is there. *)
Definition init (fuel : nat) (w : W) : option (option (bool * bool) * W) :=
  let '(made, w1) := init_controller w in
  if negb made then Some (None, w1)
  else '(wheel, five, w2) ← mouse_setup fuel (flush_out_buffer w1); Some (Some (wheel, five), w2).

(** ** Time-outs *)

Lemma wait_ready busy n w w1 : busy w = (false, w1) -> (0 < n)%nat -> wait busy n w = (true, w1).
Proof. intros H Hn. destruct n; [lia|]. cbn [wait]. by rewrite H. Qed.

(** A controller that is always busy is waited for that many turns, and given
    up. *)
Lemma wait_busy (always : W -> Prop) busy n : (forall w, always w -> exists w1, busy w = (true, w1) /\ always w1 /\ always (stall w1)) ->
  forall w, always w -> exists w1, wait busy n w = (false, w1) /\ always w1.
Proof.
  intros H. induction n as [|n IH]; intros w Hw; cbn [wait]; destruct (H w Hw) as (w1 & -> & Hw1 & Hs); [by exists w1|]. by apply IH.
Qed.

(** A device that never answers is asked for ever: there is no limit but on
    the answers that ask for the command again. *)
Theorem check_endless (silent : W -> Prop) fuel port cmd : (forall w, silent w -> exists w1, inb PORT_STATUS w = (0, w1) /\ silent w1 /\ silent (stall w1)) ->
  forall resends w, silent w -> check_loop fuel port cmd resends w = None.
Proof.
  intros H. induction fuel as [|fuel IH]; intros resends w Hw; [done|]. cbn [check_loop]. unfold read_data.
  destruct (wait_busy silent out_buffer_empty wait_turns) with (w := w) as (w1 & -> & Hw1); [|done|].
  - intros w0 H0. destruct (H w0 H0) as (w1 & E & ? & ?). exists w1. unfold out_buffer_empty. rewrite E. done.
  - change (u8 (-1) =? RESEND) with false. change (u8 (-1) =? ACK) with false. cbn iota. by apply IH.
Qed.

(** Seven answers that ask for the command again end it; a command that is
    acknowledged is not sent again. *)
Lemma check_ack fuel port cmd resends w w1 w2 : inb PORT_STATUS w = (1, w1) -> inb PORT_DATA w1 = (ACK, w2) ->
  check_loop (S fuel) port cmd resends w = Some (true, w2).
Proof.
  intros Hs Hd. cbn [check_loop]. unfold read_data. rewrite (wait_ready out_buffer_empty wait_turns w w1).
  - rewrite Hd. done.
  - unfold out_buffer_empty. by rewrite Hs.
  - apply Nat.ltb_lt. by vm_compute.
Qed.
End Controller.

(** ** A controller *)

(** What the next byte of data is for. *)
Inductive Target : Type := ToFirst | ToConfig | ToSecond.

(** A mouse: its identity, the last rates with the latest first, and whether a
    rate is expected. *)
Record MouseHw : Type := mkMouseHw { identity : Z; rates : list Z; rate_next : bool }.

(** [second]: nothing, or the mouse at the second port; [test1] and [test2] are
    what the tests of the ports answer. *)
Record Hw : Type := mkHw { config : Z; answers : list Z; target : Target; test1 : Z; test2 : Z; second : option MouseHw }.
Definition with_answers (l : list Z) (h : Hw) : Hw := mkHw (config h) l (target h) (test1 h) (test2 h) (second h).
Definition with_config (c : Z) (h : Hw) : Hw := mkHw c (answers h) ToFirst (test1 h) (test2 h) (second h).
Definition with_target (t : Target) (h : Hw) : Hw := mkHw (config h) (answers h) t (test1 h) (test2 h) (second h).
Definition with_second (m : MouseHw) (l : list Z) (h : Hw) : Hw := mkHw (config h) (answers h ++ l) ToFirst (test1 h) (test2 h) (Some m).

Definition hw_in (port : Z) (h : Hw) : Z * Hw :=
  if port =? PORT_DATA then match answers h with [] => (0, h) | a :: l => (a, with_answers l h) end
  else (match answers h with [] => 0 | _ => 1 end, h).

(** The identity changes on the rates 200, 100, 80 and then 200, 200, 80. *)
Definition mouse_data (v : Z) (m : MouseHw) : MouseHw * list Z :=
  if rate_next m then
    let rs := take 3 (v :: rates m) in
    (mkMouseHw (if bool_decide (rs = [80; 100; 200]) then Z.max 3 (identity m)
                else if bool_decide (rs = [80; 200; 200]) && (identity m =? 3) then 4 else identity m) rs false, [ACK])
  else if v =? DEVICE_CMD_IDENTIFY then (m, [ACK; identity m])
  else if v =? DEVICE_CMD_SAMPLE_RATE then (mkMouseHw (identity m) (rates m) true, [ACK])
  else (m, [ACK]).

(** The clock of a second port that is not there stays disabled. *)
Definition alone (m : option MouseHw) : bool := match m with None => true | Some _ => false end.
Definition hw_out (port v : Z) (h : Hw) : Hw :=
  if port =? PORT_DATA then
    match target h, second h with
    | ToConfig, _ => with_config (if alone (second h) then Z.lor v CONFIG_CLOCK_DISABLE_P2 else v) h
    | ToSecond, Some m => let '(m', l) := mouse_data v m in with_second m' l h
    | _, _ => with_target ToFirst h
    end
  else if v =? CTRL_CMD_READ_CONFIG then with_answers (answers h ++ [config h]) h
  else if v =? CTRL_CMD_WRITE_CONFIG then with_target ToConfig h
  else if v =? CTRL_CMD_SECOND_PORT_SELECT then with_target ToSecond h
  else if v =? CTRL_CMD_SELF_TEST then with_answers (answers h ++ [CTRL_SELF_TEST_OK]) h
  else if v =? CTRL_CMD_P1_SELF_TEST then with_answers (answers h ++ [test1 h]) h
  else if v =? CTRL_CMD_P2_SELF_TEST then with_answers (answers h ++ [test2 h]) h
  else if v =? CTRL_CMD_DISABLE_P1 then with_config (Z.lor (config h) 16) h
  else if v =? CTRL_CMD_ENABLE_P1 then with_config (Z.ldiff (config h) 16) h
  else if v =? CTRL_CMD_DISABLE_P2 then with_config (Z.lor (config h) CONFIG_CLOCK_DISABLE_P2) h
  else if v =? CTRL_CMD_ENABLE_P2 then (if alone (second h) then h else with_config (Z.ldiff (config h) CONFIG_CLOCK_DISABLE_P2) h)
  else h.

Abbreviation hw_command := (command hw_in hw_out (fun h => h)).
Abbreviation hw_read_data := (read_data hw_in (fun h => h)).
Abbreviation hw_start := (init_controller hw_in hw_out (fun h => h)).

Lemma turns_pos : (0 < wait_turns)%nat.
Proof. apply Nat.ltb_lt. by vm_compute. Qed.
Lemma hw_write port v h : write_port hw_in hw_out (fun h => h) port v h = (0, hw_out port v h).
Proof.
  unfold write_port. rewrite (wait_ready _ _ _ h h); [done| |apply turns_pos].
  unfold in_buffer_full, hw_in. cbn. by destruct (answers h).
Qed.
Lemma hw_read h a l : answers h = a :: l -> hw_read_data h = (a, with_answers l h).
Proof.
  intros H. unfold read_data. rewrite (wait_ready _ _ _ h h); [|unfold out_buffer_empty, hw_in; cbn; by rewrite H|apply turns_pos].
  unfold hw_in. cbn. by rewrite H.
Qed.
Lemma hw_silent h : answers h = [] -> hw_in PORT_STATUS h = (0, h).
Proof. intros H. unfold hw_in. cbn. by rewrite H. Qed.

Lemma hw_flush h : answers h = [] -> flush_out_buffer hw_in h = h.
Proof. intros H. unfold flush_out_buffer. cbn [flush_loop]. by rewrite hw_silent. Qed.
Lemma hw_self_test cmd h a l : answers (hw_out PORT_COMMAND cmd h) = a :: l ->
  self_test hw_in hw_out (fun h => h) cmd h = (u8 a, with_answers l (hw_out PORT_COMMAND cmd h)).
Proof. intros H. unfold self_test, command, write_command. rewrite hw_write. cbn [snd]. by rewrite (hw_read _ a l). Qed.
Lemma hw_read_config h : answers h = [] -> read_config hw_in hw_out (fun h => h) h = (u8 (config h), with_answers [] h).
Proof. intros H. unfold read_config, command, write_command. rewrite hw_write. cbn [snd]. rewrite (hw_read _ (config h) []); [done|]. cbn. by rewrite H. Qed.
Lemma hw_write_config c h : write_config hw_in hw_out (fun h => h) c h =
  with_config (match second h with None => Z.lor c CONFIG_CLOCK_DISABLE_P2 | Some _ => c end) h.
Proof. unfold write_config, command, write_command, write_data. rewrite !hw_write. cbn. by destruct (second h). Qed.
Lemma hw_command_eq cmd h : hw_command cmd h = hw_out PORT_COMMAND cmd h.
Proof. unfold command, write_command. by rewrite hw_write. Qed.


(** The controller with nothing to say, and what each step makes of it. *)
Section Idle.
Context (t1 t2 : Z) (m : option MouseHw).
Definition idle (c : Z) : Hw := mkHw c [] ToFirst t1 t2 m.

Lemma idle_flush c : flush_out_buffer hw_in (idle c) = idle c.
Proof. by apply hw_flush. Qed.
Lemma idle_disable_1 c : hw_command CTRL_CMD_DISABLE_P1 (idle c) = idle (Z.lor c 16).
Proof. by rewrite hw_command_eq. Qed.
Lemma idle_disable_2 c : hw_command CTRL_CMD_DISABLE_P2 (idle c) = idle (Z.lor c CONFIG_CLOCK_DISABLE_P2).
Proof. by rewrite hw_command_eq. Qed.
Lemma idle_enable_1 c : hw_command CTRL_CMD_ENABLE_P1 (idle c) = idle (Z.ldiff c 16).
Proof. by rewrite hw_command_eq. Qed.
Lemma idle_enable_2 c : hw_command CTRL_CMD_ENABLE_P2 (idle c) = idle (if alone m then c else Z.ldiff c CONFIG_CLOCK_DISABLE_P2).
Proof. rewrite hw_command_eq. unfold hw_out. cbn. by destruct m. Qed.
Lemma idle_read c : read_config hw_in hw_out (fun h => h) (idle c) = (u8 c, idle c).
Proof. by apply hw_read_config. Qed.
Lemma idle_write d c : write_config hw_in hw_out (fun h => h) d (idle c) = idle (if alone m then Z.lor d CONFIG_CLOCK_DISABLE_P2 else d).
Proof. rewrite hw_write_config. cbn. by destruct m. Qed.
Lemma idle_tests c : self_test hw_in hw_out (fun h => h) CTRL_CMD_SELF_TEST (idle c) = (CTRL_SELF_TEST_OK, idle c) /\
  self_test hw_in hw_out (fun h => h) CTRL_CMD_P1_SELF_TEST (idle c) = (u8 t1, idle c) /\
  self_test hw_in hw_out (fun h => h) CTRL_CMD_P2_SELF_TEST (idle c) = (u8 t2, idle c).
Proof.
  split; [|split]; [by rewrite (hw_self_test _ _ CTRL_SELF_TEST_OK [])|by rewrite (hw_self_test _ _ t1 [])|by rewrite (hw_self_test _ _ t2 [])].
Qed.

End Idle.

(** Bits of the configuration. *)
Lemma u8_bit x i : 0 <= i < 8 -> Z.testbit (u8 x) i = Z.testbit x i.
Proof. intros Hi. unfold uN. apply Z.mod_pow2_bits_low. lia. Qed.
Lemma land_32 x : negb (Z.land x CONFIG_CLOCK_DISABLE_P2 =? 0) = Z.testbit x 5.
Proof.
  assert (H : Z.land x 32 = if Z.testbit x 5 then 32 else 0).
  { apply Z.bits_inj'. intros i Hi. rewrite Z.land_spec. change 32 with (2 ^ 5). rewrite Z.pow2_bits_eqb by lia.
    destruct (Z.eqb_spec 5 i) as [<-|Hne]; [destruct (Z.testbit x 5); [by rewrite Z.pow2_bits_true|by rewrite Z.bits_0]|].
    rewrite andb_false_r. destruct (Z.testbit x 5); [by rewrite Z.pow2_bits_false by lia|by rewrite Z.bits_0]. }
  unfold CONFIG_CLOCK_DISABLE_P2. rewrite H. by destruct (Z.testbit x 5).
Qed.
Ltac config_bits :=
  unfold CONFIG_CLOCK_DISABLE_P2, CONFIG_IRQ_P1, CONFIG_IRQ_P2, CONFIG_TRANSLATION;
  repeat (rewrite Z.lor_spec || rewrite Z.ldiff_spec || rewrite u8_bit by lia);
  repeat match goal with |- context [Z.testbit (Zpos ?p) ?n] => let b := eval vm_compute in (Z.testbit (Zpos p) n) in change (Z.testbit (Zpos p) n) with b end;
  rewrite ?orb_false_r, ?orb_true_r, ?andb_true_r, ?andb_false_r; try reflexivity.

(** The search for a second port finds what is there. *)
Lemma idle_second_port t1 t2 m c : exists c',
  find_second_port hw_in hw_out (fun h => h) (idle t1 t2 m (if alone m then Z.lor c CONFIG_CLOCK_DISABLE_P2 else c)) = (negb (alone m), idle t1 t2 m c') /\
  Z.testbit c' 0 = Z.testbit c 0 /\ Z.testbit c' 1 = alone m && Z.testbit c 1 /\ Z.testbit c' 6 = Z.testbit c 6 /\
  Z.testbit c' 4 = Z.testbit c 4 /\ Z.testbit c' 5 = true.
Proof.
  unfold find_second_port. rewrite idle_enable_2, idle_read, land_32. destruct m as [mo|]; cbn [alone andb negb].
  - replace (Z.testbit _ 5) with false by config_bits. rewrite idle_disable_2, idle_write. cbn [alone].
    eexists. split; [reflexivity|]. repeat split; config_bits.
  - replace (Z.testbit _ 5) with true by config_bits. eexists. split; [reflexivity|]. repeat split; config_bits.
Qed.

(** Enabling ports of a controller where both are disabled. *)
Lemma idle_enable_ports t1 t2 m c p1 p2 : Z.testbit c 0 = false -> Z.testbit c 1 = false -> Z.testbit c 6 = false -> Z.testbit c 4 = true ->
  Z.testbit c 5 = true -> (p2 = true -> alone m = false) ->
  exists c', enable_ports hw_in hw_out (fun h => h) p1 p2 (idle t1 t2 m c) = idle t1 t2 m c' /\
    Z.testbit c' 0 = p1 /\ Z.testbit c' 1 = p2 /\ Z.testbit c' 6 = p1 /\ Z.testbit c' 4 = negb p1 /\ Z.testbit c' 5 = negb p2.
Proof.
  intros B0 B1 B6 B4 B5 Hm. unfold enable_ports. destruct p1, p2; rewrite ?idle_enable_1, ?idle_enable_2, idle_read, idle_write;
    try rewrite (Hm eq_refl); (eexists; split; [reflexivity|]); destruct (alone m); repeat split; config_bits; rewrite ?B0, ?B1, ?B6, ?B4, ?B5; done.
Qed.

(** With the controller idle, its start enables the ports whose tests pass, the
    second if it is there, and only those interrupt; without any it makes no
    devices. *)
Theorem start_enables c t1 t2 m : 0 <= c < 256 -> 0 <= t1 < 256 -> 0 <= t2 < 256 ->
  let h := mkHw c [] ToFirst t1 t2 m in
  let p1 := t1 =? 0 in
  let p2 := match m with None => false | Some _ => t2 =? 0 end in
  exists h', hw_start h = (p1 || p2, h') /\ answers h' = [] /\ second h' = m /\
    (p1 || p2 = true -> Z.testbit (config h') 0 = p1 /\ Z.testbit (config h') 1 = p2 /\ Z.testbit (config h') 6 = p1 /\
       Z.testbit (config h') 4 = negb p1 /\ Z.testbit (config h') 5 = negb p2).
Proof.
  intros Hc H1 H2. cbn zeta. fold (idle t1 t2 m c). unfold init_controller. unfold write_command at 1. rewrite hw_write. cbn [Z.eqb negb].
  change (hw_out PORT_COMMAND CTRL_CMD_DISABLE_P1 (idle t1 t2 m c)) with (idle t1 t2 m (Z.lor c 16)).
  rewrite idle_disable_2, idle_flush, idle_read, idle_write, (proj1 (idle_tests _ _ _ _)). change (negb (CTRL_SELF_TEST_OK =? CTRL_SELF_TEST_OK)) with false. cbn iota.
  rewrite idle_write. destruct (idle_second_port t1 t2 m (Z.ldiff (u8 (Z.lor (Z.lor c 16) CONFIG_CLOCK_DISABLE_P2)) (Z.lor CONFIG_IRQ_P1 (Z.lor CONFIG_IRQ_P2 CONFIG_TRANSLATION))))
    as (c' & -> & B0 & B1 & B6 & B4 & B5).
  replace (Z.testbit (Z.ldiff _ _) 0) with false in B0 by config_bits. replace (Z.testbit (Z.ldiff _ _) 1) with false in B1 by config_bits.
  replace (Z.testbit (Z.ldiff _ _) 6) with false in B6 by config_bits. replace (Z.testbit (Z.ldiff _ _) 4) with true in B4 by config_bits.
  rewrite andb_false_r in B1. destruct (idle_tests t1 t2 m c') as (_ & -> & ->). rewrite !(uN_small 8) by (change (2 ^ 8) with 256; lia).
  replace (if negb (alone m) then (t2 =? 0, idle t1 t2 m c') else (false, idle t1 t2 m c'))
    with (match m with None => false | Some _ => t2 =? 0 end, idle t1 t2 m c') by (by destruct m).
  set (p1 := t1 =? 0). set (p2 := match m with None => false | Some _ => t2 =? 0 end). cbn zeta.
  destruct (p1 || p2) eqn:E.
  - replace (negb p1 && negb p2) with false by (by destruct p1, p2).
    destruct (idle_enable_ports t1 t2 m c' p1 p2) as (c2 & -> & C); [done..|unfold p2; by destruct m|].
    by exists (idle t1 t2 m c2).
  - replace (negb p1 && negb p2) with true by (by destruct p1, p2). by exists (idle t1 t2 m c').
Qed.

(** Where there is no second port, the constructor of the mouse waits for ever
    for an acknowledgement: the start does not return. *)
Theorem no_mouse_never_starts fuel c t2 : 0 <= c < 256 -> 0 <= t2 < 256 ->
  init hw_in hw_out (fun h => h) fuel (mkHw c [] ToFirst 0 t2 None) = None.
Proof.
  intros Hc H2. destruct (start_enables c 0 t2 None Hc ltac:(lia) H2) as (h' & E & Ha & Hs & _). unfold init. rewrite E. cbn [orb negb].
  rewrite hw_flush by done. unfold mouse_setup, identify, device_command_check.
  rewrite (check_endless hw_in hw_out (fun h => h) (fun h => answers h = [] /\ second h = None)); [done| |].
  - intros h [Hh Hh2]. exists h. by rewrite hw_silent.
  - unfold device_command, write_command, write_data. cbn [Z.eqb Pos.eqb]. rewrite !hw_write. cbn [snd]. unfold hw_out. cbn. rewrite Hs. cbn. by rewrite Ha, Hs.
Qed.

(** A mouse with a wheel and five buttons is found to be one, and the ports
    interrupt. *)
Example mouse_found :
  (fun x => (x.1, config x.2)) <$> init hw_in hw_out (fun h => h) 9 (mkHw 101 [] ToFirst 0 0 (Some (mkMouseHw 0 [] false))) = Some (Some (true, true), 71).
Proof. vm_compute. reflexivity. Qed.
