(* ===== verification/Vmem.v ===== *)
(** The arenas of mem/vmem.hpp and mem/vmem.cpp: spans of addresses cut into
    segments, with lists of free segments by size and a hash table of those that
    are allocated.

    A tag is known by its address; the lists are lists of addresses (KList.v),
    and there is one arena.  The kernel only fills the list of free tags at its
    start; its own addresses come from elsewhere. *)
From S2P Require Import Prelude.

(** ** Tags *)

Inductive Type_ : Type := FREE | ALLOCATED | SPAN.
#[export] Instance type_eq_dec : EqDecision Type_.
Proof. solve_decision. Defined.
Record BoundaryTag : Type := mkTag { base : Z; size : Z; type : Type_ }.

Record Arena : Type := mkArena {
  quantum : Z;
  tags : gmap Z BoundaryTag;
  tag_list : list Z;
  span_list : list Z;
  freelists : gmap Z (list Z);
  hash_table : gmap Z (list Z);
  free_tags : list Z
}.
Definition num_freelists : Z := 64.
Definition num_hash_buckets : Z := 16.
Definition num_static_tags : nat := 128.

Definition freelist (i : Z) (a : Arena) : list Z := default [] (freelists a !! i).
Definition bucket (i : Z) (a : Arena) : list Z := default [] (hash_table a !! i).
Definition set_tag (t : Z) (g : BoundaryTag) (a : Arena) : Arena :=
  mkArena (quantum a) (<[t := g]> (tags a)) (tag_list a) (span_list a) (freelists a) (hash_table a) (free_tags a).
Definition set_lists (tl sl : list Z) (a : Arena) : Arena :=
  mkArena (quantum a) (tags a) tl sl (freelists a) (hash_table a) (free_tags a).
Definition set_freelist (i : Z) (l : list Z) (a : Arena) : Arena :=
  mkArena (quantum a) (tags a) (tag_list a) (span_list a) (<[i := l]> (freelists a)) (hash_table a) (free_tags a).
Definition set_bucket (i : Z) (l : list Z) (a : Arena) : Arena :=
  mkArena (quantum a) (tags a) (tag_list a) (span_list a) (freelists a) (<[i := l]> (hash_table a)) (free_tags a).
Definition set_free_tags (l : list Z) (a : Arena) : Arena :=
  mkArena (quantum a) (tags a) (tag_list a) (span_list a) (freelists a) (hash_table a) l.

(** [early_init], with the addresses of the static tags, and [Arena::init]. *)
Definition early_init (static : Z) : list Z := map (fun i => static + 56 * Z.of_nat i) (seq 0 num_static_tags).
Definition Arena_init (q : Z) (free : list Z) : Arena := mkArena q ∅ [] [] ∅ ∅ free.

(** No free tag is a failed assertion. *)
Definition allocate_tag (a : Arena) : option (Z * Arena) :=
  match free_tags a with [] => None | t :: l => Some (t, set_free_tags l a) end.

(** ** Lists by size and by address *)

(** The number of leading zeros of 0 is undefined. *)
Definition freelist_index_for_size (size : Z) : option Z := if size =? 0 then None else Some (Z.log2 size).
Definition hash (h : Z) : Z :=
  let h := Z.lxor h (Z.shiftr h 33) in
  let h := u64 (h * 18397679294719823053) in
  let h := Z.lxor h (Z.shiftr h 33) in
  let h := u64 (h * 14181476777654086739) in
  Z.lxor h (Z.shiftr h 33).
Definition hash_bucket_for_addr (addr : Z) : Z := hash addr mod num_hash_buckets.

Definition freelist_insert (t : Z) (a : Arena) : option Arena :=
  g ← tags a !! t;
  i ← freelist_index_for_size (size g);
  Some (set_freelist i (freelist i a ++ [t]) a).
Definition hash_table_insert (t : Z) (a : Arena) : option Arena :=
  g ← tags a !! t;
  let i := hash_bucket_for_addr (base g) in
  Some (set_bucket i (t :: bucket i a) a).

(** ** Spans *)

Fixpoint insert_before (x t : Z) (l : list Z) : list Z :=
  match l with [] => [] | y :: l => if y =? x then t :: y :: l else y :: insert_before x t l end.
Fixpoint insert_after (x t : Z) (l : list Z) : list Z :=
  match l with [] => [] | y :: l => if y =? x then y :: t :: l else y :: insert_after x t l end.

(** The loop for the span before the new one stops at the first that is not
    below it; without one, what is left is the list's head. *)
Fixpoint find_span (b : Z) (l : list Z) (a : Arena) : option (list Z * list Z) :=
  match l with
  | [] => Some ([], [])
  | t :: l =>
      g ← tags a !! t;
      if b <=? base g then Some ([t], l) else '(l1, l2) ← find_span b l a; Some (match l1 with [] => [] | _ => t :: l1 end, l2)
  end.
Definition add (b sz : Z) (a : Arena) : option Arena :=
  '(l1, l2) ← find_span b (span_list a) a;
  let l2 := match l1 with [] => span_list a | _ => l2 end in
  '(new_span, a1) ← allocate_tag a;
  '(new_segment, a2) ← allocate_tag a1;
  let a3 := set_tag new_segment (mkTag b sz FREE) (set_tag new_span (mkTag b sz SPAN) a2) in
  let tl := match l2 with next_span :: _ => insert_before next_span new_span (tag_list a) | [] => tag_list a ++ [new_span] end in
  freelist_insert new_segment (set_lists (insert_after new_span new_segment tl) (l1 ++ new_span :: l2) a3).

(** ** Allocation *)

(** The first list from [i] on that is not empty. *)
Fixpoint find_freelist (turns : nat) (i : Z) (a : Arena) : option (Z * Z * list Z) :=
  match turns with
  | O => None
  | S turns => match freelist i a with [] => find_freelist turns (i + 1) a | t :: l => Some (i, t, l) end
  end.
Definition first_freelist (size : Z) : option Z :=
  i ← freelist_index_for_size size; Some (if Z.land size (size - 1) =? 0 then i else i + 1).

(** 0 when there is none. *)
Definition xalloc (sz : Z) (a : Arena) : option (Z * Arena) :=
  if (sz =? 0) || (quantum a =? 0) || negb (sz mod quantum a =? 0) then None
  else
    i0 ← first_freelist sz;
    match find_freelist (Z.to_nat (num_freelists - i0)) i0 a with
    | None => Some (0, a)
    | Some (i, segment, l) =>
        let a1 := set_freelist i l a in
        g ← tags a1 !! segment;
        if size g =? sz then
          a2 ← hash_table_insert segment (set_tag segment (mkTag (base g) (size g) ALLOCATED) a1);
          Some (base g, a2)
        else
          '(new_segment, a2) ← allocate_tag a1;
          let a3 := set_tag new_segment (mkTag (base g) sz ALLOCATED) a2 in
          let a4 := set_tag segment (mkTag (u64 (base g + sz)) (u64 (size g - sz)) (type g)) a3 in
          let a5 := set_lists (insert_before segment new_segment (tag_list a4)) (span_list a4) a4 in
          a6 ← freelist_insert segment a5;
          a7 ← hash_table_insert new_segment a6;
          Some (base g, a7)
    end.

(** ** Freeing *)

Fixpoint find_tag (addr : Z) (l : list Z) (a : Arena) : option (option Z) :=
  match l with
  | [] => Some None
  | t :: l => g ← tags a !! t; if base g =? addr then Some (Some t) else find_tag addr l a
  end.
Fixpoint neighbours (t : Z) (prev : option Z) (l : list Z) : option (option Z * option Z) :=
  match l with
  | [] => None
  | y :: l => if y =? t then Some (prev, head l) else neighbours t (Some y) l
  end.

(** The neighbours are taken for tags by the wrong member, 16 bytes off: the
    type that is read is the low half of a neighbour's base, and where that is
    0, for [FREE], fields of other objects are written ([false]). *)
Definition misread_type (t : Z) (a : Arena) : option bool := g ← tags a !! t; Some (negb (u32 (base g) =? 0)).
Definition misread_right (o : option Z) (a : Arena) : option bool := match o with None => Some true | Some t => misread_type t a end.

(** A panic, and what is undefined, are [None]. *)
Definition xfree (addr sz : Z) (a : Arena) : option Arena :=
  let i := hash_bucket_for_addr addr in
  segment ← (o ← find_tag addr (bucket i a) a; o);
  g ← tags a !! segment;
  if negb (sz =? 0) && negb (sz =? size g) then None
  else
    let a1 := set_bucket i (filter (fun t => t <> segment) (bucket i a)) a in
    '(left_tag, right_tag) ← neighbours segment None (tag_list a);
    left_tag ← left_tag;
    ok_left ← misread_type left_tag a;
    ok_right ← misread_right right_tag a;
    if ok_left && ok_right then freelist_insert segment (set_tag segment (mkTag (base g) (size g) FREE) a1) else None.

(** ** The invariant *)

(** The lists [fl] hold the tags of [tl] of one type, each under its key. *)
Definition lists_ok (k : Type_) (key : BoundaryTag -> Z) (tgs : gmap Z BoundaryTag) (tl : list Z) (fl : Z -> list Z) : Prop :=
  (forall i t, t ∈ fl i <-> t ∈ tl /\ exists g, tgs !! t = Some g /\ type g = k /\ key g = i) /\ forall i, NoDup (fl i).

(** Segments follow each other from the base of their span to its end. *)
Fixpoint tiled (pos last : Z) (l : list BoundaryTag) : Prop :=
  match l with
  | [] => pos = last
  | g :: l =>
      match type g with
      | SPAN => pos = last /\ tiled (base g) (base g + size g) l
      | _ => base g = pos /\ tiled (pos + size g) last l
      end
  end.

Definition tag_of (tgs : gmap Z BoundaryTag) (t : Z) : BoundaryTag := default (mkTag 0 0 SPAN) (tgs !! t).
Definition segments (a : Arena) : list BoundaryTag := map (tag_of (tags a)) (tag_list a).
Definition tag_ok (g : BoundaryTag) : Prop := 0 < size g < 18446744073709551616 /\ 0 <= base g /\ base g + size g <= 18446744073709551616.

Record arena_ok (a : Arena) : Prop := {
  ok_nodup : NoDup (tag_list a ++ free_tags a);
  ok_tags : forall t, t ∈ tag_list a -> exists g, tags a !! t = Some g /\ tag_ok g;
  ok_spans : forall t, t ∈ span_list a -> t ∈ tag_list a /\ type (tag_of (tags a) t) = SPAN;
  ok_free : lists_ok FREE (fun g => Z.log2 (size g)) (tags a) (tag_list a) (fun i => freelist i a);
  ok_hash : lists_ok ALLOCATED (fun g => hash_bucket_for_addr (base g)) (tags a) (tag_list a) (fun i => bucket i a);
  ok_tiled : tiled 0 0 (segments a)
}.

(** One tag changes, or is added; its place in the lists changes with it. *)
Lemma lists_change k key tgs tl fl x g' tl' fl' : lists_ok k key tgs tl fl -> (forall t, t <> x -> (t ∈ tl' <-> t ∈ tl)) ->
  (forall i t, t <> x -> (t ∈ fl' i <-> t ∈ fl i)) -> (forall i, x ∈ fl' i <-> x ∈ tl' /\ type g' = k /\ key g' = i) ->
  (forall i, NoDup (fl' i)) -> lists_ok k key (<[x := g']> tgs) tl' fl'.
Proof.
  intros [H _] Ht Hf Hx Hn. split; [|done]. intros i t. destruct (decide (t = x)) as [->|Hne].
  - rewrite Hx, lookup_insert_eq. split; [intros (? & ? & ?); eauto|]. by intros (? & g & [= <-] & ? & ?).
  - rewrite (Hf i t Hne), H, (Ht t Hne). by rewrite lookup_insert_ne.
Qed.

(** A tag of another type that is in none of the lists; one that leaves its
    list; one that enters the list of its key. *)
Lemma lists_absent k key tgs tl fl x g' tl' : lists_ok k key tgs tl fl -> (forall t, t <> x -> (t ∈ tl' <-> t ∈ tl)) -> type g' <> k ->
  (forall i, x ∉ fl i) -> lists_ok k key (<[x := g']> tgs) tl' fl.
Proof.
  intros H Ht Hk Hx. apply (lists_change k key tgs tl fl); [done|done|done| |apply H]. intros i. split; [intros Hin; by apply Hx in Hin|by intros (_ & ? & _)].
Qed.
Lemma lists_remove k key tgs tl fl x g' fl' : lists_ok k key tgs tl fl -> type g' <> k ->
  (forall j, NoDup (fl' j) /\ forall t, t ∈ fl' j <-> t ∈ fl j /\ t <> x) -> lists_ok k key (<[x := g']> tgs) tl fl'.
Proof.
  intros H Hk Hf. apply (lists_change k key tgs tl fl); [done|done| | |intros i; apply Hf].
  - intros i t Hne. rewrite (proj2 (Hf i)). tauto.
  - intros i. rewrite (proj2 (Hf i)). split; [by intros [_ ?]|by intros (_ & ? & _)].
Qed.
Lemma lists_insert k key tgs tl fl x g' tl' fl' : lists_ok k key tgs tl fl -> (forall t, t <> x -> (t ∈ tl' <-> t ∈ tl)) -> type g' = k ->
  x ∈ tl' -> (forall i, x ∉ fl i) -> (forall j, fl' j ≡ₚ if decide (j = key g') then x :: fl j else fl j) -> lists_ok k key (<[x := g']> tgs) tl' fl'.
Proof.
  intros H Ht Hk Hin Hx Hf. apply (lists_change k key tgs tl fl); [done|done| | |].
  - intros i t Hne. rewrite (Hf i). case_decide; [|done]. rewrite elem_of_cons. naive_solver.
  - intros i. rewrite (Hf i). case_decide as E; [split; [intros _|by left]; done|]. split; [intros Hc; by apply Hx in Hc|by intros (_ & _ & <-)].
  - intros i. rewrite (Hf i). destruct H as [_ Hn]. case_decide; [|apply Hn]. apply NoDup_cons. split; [apply Hx|apply Hn].
Qed.
(** What is in one list is in no list of another type, nor of another key. *)
Lemma lists_other k key tgs tl fl t g i : lists_ok k key tgs tl fl -> tgs !! t = Some g -> type g <> k \/ key g <> i -> t ∉ fl i.
Proof. intros [H _] Hg Hne Hin. apply H in Hin as (_ & g0 & Hg0 & ? & ?). rewrite Hg in Hg0. injection Hg0 as <-. naive_solver. Qed.
(** The first of a list taken off. *)
Lemma lists_tail k key tgs tl fl x g l i : lists_ok k key tgs tl fl -> tgs !! x = Some g -> key g = i -> fl i = x :: l ->
  forall j, NoDup (if decide (j = i) then l else fl j) /\ forall t, t ∈ (if decide (j = i) then l else fl j) <-> t ∈ fl j /\ t <> x.
Proof.
  intros H Hg Hk Hi j. pose proof (proj2 H i) as Hn. rewrite Hi in Hn. apply NoDup_cons in Hn as [Hx Hn]. case_decide as E.
  - subst j. split; [done|]. intros t. rewrite Hi, elem_of_cons. naive_solver.
  - split; [apply H|]. intros t. split; [|tauto]. intros Hin. split; [done|]. intros ->. revert Hin. apply (lists_other _ _ _ _ _ _ _ _ H Hg). right. congruence.
Qed.

Lemma freelist_set i l a j : freelist j (set_freelist i l a) = if decide (j = i) then l else freelist j a.
Proof. unfold freelist, set_freelist. cbn. case_decide as E; [by rewrite E, lookup_insert_eq|by rewrite lookup_insert_ne]. Qed.
Lemma bucket_set i l a j : bucket j (set_bucket i l a) = if decide (j = i) then l else bucket j a.
Proof. unfold bucket, set_bucket. cbn. case_decide as E; [by rewrite E, lookup_insert_eq|by rewrite lookup_insert_ne]. Qed.

(** ** Tiles *)

Lemma tiled_boundary b sz l1 l2 : match l2 with [] => True | g :: _ => type g = SPAN end ->
  forall pos last, tiled pos last (l1 ++ l2) -> tiled pos last (l1 ++ mkTag b sz SPAN :: mkTag b sz FREE :: l2).
Proof.
  intros Hl. induction l1 as [|g l1 IH]; intros pos last; cbn [app tiled type base size].
  - destruct l2 as [|g l2]; cbn [tiled]; [done|]. rewrite Hl. by intros [-> ?].
  - destruct (type g); intros [? ?]; eauto.
Qed.
Lemma tiled_retype b sz k k' l1 l2 : k <> SPAN -> k' <> SPAN ->
  forall pos last, tiled pos last (l1 ++ mkTag b sz k :: l2) -> tiled pos last (l1 ++ mkTag b sz k' :: l2).
Proof.
  intros Hk Hk'. induction l1 as [|g l1 IH]; intros pos last; cbn [app tiled type base size].
  - by destruct k, k'.
  - destruct (type g); intros [? ?]; eauto.
Qed.
Lemma tiled_split b sz n l1 l2 :
  forall pos last, tiled pos last (l1 ++ mkTag b sz FREE :: l2) -> tiled pos last (l1 ++ mkTag b n ALLOCATED :: mkTag (b + n) (sz - n) FREE :: l2).
Proof.
  induction l1 as [|g l1 IH]; intros pos last; cbn [app tiled type base size].
  - intros [-> ?]. split; [done|]. split; [done|]. by replace (pos + n + (sz - n)) with (pos + sz) by lia.
  - destruct (type g); intros [? ?]; eauto.
Qed.

(** ** Sizes *)

Lemma power_of_two n : 0 < n -> Z.land n (n - 1) = 0 -> n = 2 ^ Z.log2 n.
Proof.
  intros Hn Hl. destruct (Z.log2_spec n Hn) as [H1 H2]. destruct (Z.eq_dec n (2 ^ Z.log2 n)) as [|Hne]; [done|]. exfalso.
  assert (n <> 1) by (intros ->; by apply Hne). assert (Z.testbit (Z.land n (n - 1)) (Z.log2 n) = true) as Hb; [|by rewrite Hl, Z.bits_0 in Hb].
  rewrite Z.land_spec, Z.bit_log2 by done. cbn [andb]. assert (Z.log2 (n - 1) = Z.log2 n) as <-; [|apply Z.bit_log2; lia].
  apply Z.log2_unique; [apply Z.log2_nonneg|lia].
Qed.
(** A segment of a list that is looked at is big enough; one that is not is
    smaller than twice the size. *)
Lemma first_freelist_spec sz i0 : 0 < sz -> first_freelist sz = Some i0 -> 0 <= i0 /\ sz <= 2 ^ i0 /\ 2 ^ i0 < 2 * sz + 1.
Proof.
  intros Hs. unfold first_freelist, freelist_index_for_size. rewrite (proj2 (Z.eqb_neq sz 0)) by lia. cbn [mbind option_bind].
  pose proof (Z.log2_nonneg sz). destruct (Z.log2_spec sz Hs) as [H1 H2]. rewrite Z.pow_succ_r in H2 by done.
  destruct (Z.eqb_spec (Z.land sz (sz - 1)) 0) as [E|E]; intros [= <-].
  - apply power_of_two in E; [|done]. lia.
  - rewrite Z.pow_add_r by lia. change (2 ^ 1) with 2. lia.
Qed.
Lemma find_freelist_spec turns : forall i0 a, match find_freelist turns i0 a with
  | Some (i, t, l) => i0 <= i < i0 + Z.of_nat turns /\ freelist i a = t :: l
  | None => forall j, i0 <= j < i0 + Z.of_nat turns -> freelist j a = []
  end.
Proof.
  induction turns as [|turns IH]; intros i0 a; cbn [find_freelist]; [lia|]. destruct (freelist i0 a) as [|t l] eqn:E; [|split; [lia|done]].
  specialize (IH (i0 + 1) a). destruct (find_freelist turns (i0 + 1) a) as [[[i t] l]|]; [destruct IH; split; [lia|done]|].
  intros j Hj. destruct (Z.eq_dec j i0) as [->|]; [done|]. apply IH. lia.
Qed.

(** ** Places in the lists *)

Lemma insert_before_split x t l1 l2 : x ∉ l1 -> insert_before x t (l1 ++ x :: l2) = l1 ++ t :: x :: l2.
Proof.
  induction l1 as [|y l1 IH]; intros Hx; cbn [app insert_before]; [by rewrite Z.eqb_refl|]. apply not_elem_of_cons in Hx as [Hy Hx].
  rewrite (proj2 (Z.eqb_neq y x)) by done. by rewrite IH.
Qed.
Lemma insert_after_split x t l1 l2 : x ∉ l1 -> insert_after x t (l1 ++ x :: l2) = l1 ++ x :: t :: l2.
Proof.
  induction l1 as [|y l1 IH]; intros Hx; cbn [app insert_after]; [by rewrite Z.eqb_refl|]. apply not_elem_of_cons in Hx as [Hy Hx].
  rewrite (proj2 (Z.eqb_neq y x)) by done. by rewrite IH.
Qed.
Lemma neighbours_split t prev l1 l2 : t ∉ l1 -> neighbours t prev (l1 ++ t :: l2) = Some (match last l1 with Some y => Some y | None => prev end, head l2).
Proof.
  revert prev. induction l1 as [|y l1 IH]; intros prev Ht; cbn [app neighbours]; [by rewrite Z.eqb_refl|]. apply not_elem_of_cons in Ht as [Hy Ht].
  rewrite (proj2 (Z.eqb_neq y t)), IH by done. rewrite last_cons. by destruct (last l1).
Qed.

(** A tag that is not in a list does not change what is read of it. *)
Lemma tags_frame x g tgs l : x ∉ l -> map (tag_of (<[x := g]> tgs)) l = map (tag_of tgs) l.
Proof.
  intros Hx. apply map_ext_in. intros t Ht. unfold tag_of. rewrite lookup_insert_ne; [done|]. intros ->. by apply list_elem_of_In in Ht.
Qed.
Lemma tag_of_insert x g tgs : tag_of (<[x := g]> tgs) x = g.
Proof. unfold tag_of. by rewrite lookup_insert_eq. Qed.
Lemma tag_of_ne x t g tgs : t <> x -> tag_of (<[x := g]> tgs) t = tag_of tgs t.
Proof. intros H. unfold tag_of. by rewrite lookup_insert_ne. Qed.
Lemma segments_split a l1 t l2 g : tag_list a = l1 ++ t :: l2 -> tags a !! t = Some g ->
  segments a = map (tag_of (tags a)) l1 ++ g :: map (tag_of (tags a)) l2.
Proof. intros Hl Ht. unfold segments. rewrite Hl, map_app. cbn [map]. unfold tag_of at 2. by rewrite Ht. Qed.

(** The tag found in a list by size is a free segment of the arena. *)
Lemma free_found a i t l : arena_ok a -> freelist i a = t :: l -> exists g l1 l2,
  tags a !! t = Some g /\ tag_ok g /\ type g = FREE /\ Z.log2 (size g) = i /\ tag_list a = l1 ++ t :: l2 /\ t ∉ l1 /\ t ∉ l2 /\ t ∉ l.
Proof.
  intros Ha Hi. destruct (ok_free a Ha) as [Hf Hn]. assert (Ht : t ∈ freelist i a) by (rewrite Hi; by left).
  apply Hf in Ht as (Hin & g & Hg & Hty & Hk). destruct (ok_tags a Ha t Hin) as (g' & Hg' & Hok). rewrite Hg in Hg'. injection Hg' as <-.
  apply list_elem_of_split in Hin as (l1 & l2 & Hl). exists g, l1, l2. pose proof (ok_nodup a Ha) as Hnd. rewrite Hl in Hnd.
  apply NoDup_app in Hnd as (Hnd & _ & _). apply NoDup_app in Hnd as (_ & Hd & Hnd2). apply NoDup_cons in Hnd2 as [Hnd2 _].
  specialize (Hn i). cbn in Hn. rewrite Hi in Hn. apply NoDup_cons in Hn as [Hn _]. repeat split; try done; try apply Hok.
  intros Hc. apply (Hd t Hc). by left.
Qed.

(** ** Taking a segment *)

Section Take.
Context (a : Arena) (i t : Z) (l : list Z) (g : BoundaryTag) (l1 l2 : list Z).
Context (Ha : arena_ok a) (Hi : freelist i a = t :: l) (Hg : tags a !! t = Some g) (Hok : tag_ok g) (Hty : type g = FREE) (Hk : Z.log2 (size g) = i).
Context (Hl : tag_list a = l1 ++ t :: l2) (N1 : t ∉ l1) (N2 : t ∉ l2).
Abbreviation freed := (fun j => freelist j (set_freelist i l a)).

Lemma freed_ok g' : type g' <> FREE -> lists_ok FREE (fun g => Z.log2 (size g)) (<[t := g']> (tags a)) (tag_list a) freed.
Proof.
  intros Hg'. apply (lists_remove _ _ _ _ (fun i => freelist i a)); [apply Ha|done|]. intros j. rewrite freelist_set.
  apply (lists_tail _ _ _ _ (fun i => freelist i a) t g l i (ok_free a Ha) Hg Hk Hi).
Qed.
Lemma taken_not_hashed j : t ∉ bucket j a.
Proof. apply (lists_other _ _ _ _ _ _ _ j (ok_hash a Ha) Hg). left. by rewrite Hty. Qed.
Lemma taken_no_span x : x ∈ span_list a -> x <> t /\ x ∈ tag_list a /\ type (tag_of (tags a) x) = SPAN.
Proof. intros Hx. destruct (ok_spans a Ha x Hx) as [? Hs]. split; [|done]. intros ->. unfold tag_of in Hs. rewrite Hg in Hs. cbn in Hs. congruence. Qed.
Lemma tiled_free : tiled 0 0 (map (tag_of (tags a)) l1 ++ mkTag (base g) (size g) FREE :: map (tag_of (tags a)) l2).
Proof.
  pose proof (ok_tiled a Ha) as Ht. rewrite (segments_split a l1 t l2 g Hl Hg) in Ht.
  by replace (mkTag (base g) (size g) FREE) with g by (destruct g; cbn in *; congruence).
Qed.

(** One that is taken whole. *)
Lemma take_whole : exists a', hash_table_insert t (set_tag t (mkTag (base g) (size g) ALLOCATED) (set_freelist i l a)) = Some a' /\ arena_ok a' /\
    segments a' = map (tag_of (tags a)) l1 ++ mkTag (base g) (size g) ALLOCATED :: map (tag_of (tags a)) l2.
Proof.
  set (g' := mkTag (base g) (size g) ALLOCATED). set (h := hash_bucket_for_addr (base g)).
  exists (set_bucket h (t :: bucket h a) (set_tag t g' (set_freelist i l a))). split.
  { unfold hash_table_insert. cbn [set_tag set_freelist tags]. by rewrite lookup_insert_eq. }
  assert (Hseg : map (tag_of (<[t := g']> (tags a))) (tag_list a) = map (tag_of (tags a)) l1 ++ g' :: map (tag_of (tags a)) l2).
  { rewrite Hl, map_app. cbn [map]. by rewrite !tags_frame, tag_of_insert. }
  split; [|exact Hseg]. constructor; cbn [set_bucket set_tag set_freelist tags tag_list span_list free_tags].
  - apply Ha.
  - intros x Hx. destruct (decide (x = t)) as [->|Hne]; [exists g'; by rewrite lookup_insert_eq|]. rewrite lookup_insert_ne by done. by apply (ok_tags a Ha).
  - intros x Hx. destruct (taken_no_span x Hx) as (? & ? & ?). by rewrite tag_of_ne.
  - by apply freed_ok.
  - apply (lists_insert _ _ (tags a) (tag_list a) (fun i => bucket i a)); [apply Ha|done|done|rewrite Hl; set_solver|apply taken_not_hashed|].
    intros j. rewrite bucket_set. cbn [g' base]. fold h. case_decide as E; [by rewrite E|done].
  - unfold segments. cbn. rewrite Hseg. apply (tiled_retype _ _ FREE); [done|done|apply tiled_free].
Qed.

(** One that is cut: a new tag takes its beginning. *)
Lemma take_part n fr sz : free_tags a = n :: fr -> 0 < sz < size g ->
  let gA := mkTag (base g) sz ALLOCATED in
  let gF := mkTag (base g + sz) (size g - sz) FREE in
  let a5 := set_lists (l1 ++ n :: t :: l2) (span_list a) (set_tag t gF (set_tag n gA (set_free_tags fr (set_freelist i l a)))) in
  exists a6 a7, freelist_insert t a5 = Some a6 /\ hash_table_insert n a6 = Some a7 /\ arena_ok a7 /\
    segments a7 = map (tag_of (tags a)) l1 ++ gA :: gF :: map (tag_of (tags a)) l2.
Proof.
  intros Hfr Hsz gA gF a5. pose proof (ok_nodup a Ha) as Hnd. rewrite Hfr in Hnd.
  assert (Hn : n ∉ tag_list a) by (intros Hin; apply NoDup_app in Hnd as (_ & Hd & _); apply (Hd n Hin); by left).
  assert (n <> t /\ n ∉ l1 /\ n ∉ l2) as (Hnt & Hn1 & Hn2) by (rewrite Hl in Hn; set_solver).
  set (i' := Z.log2 (size g - sz)). set (h := hash_bucket_for_addr (base g)).
  set (a6 := set_freelist i' (freelist i' (set_freelist i l a) ++ [t]) a5). set (a7 := set_bucket h (n :: bucket h a) a6). exists a6, a7. split.
  { unfold freelist_insert. cbn [a5 set_lists set_tag tags]. rewrite lookup_insert_eq. cbn [mbind option_bind].
    unfold freelist_index_for_size. cbn [gF size]. by rewrite (proj2 (Z.eqb_neq (size g - sz) 0)) by lia. }
  split.
  { unfold hash_table_insert. cbn [a6 a5 set_freelist set_lists set_tag tags]. by rewrite lookup_insert_ne, lookup_insert_eq by done. }
  assert (Hseg : map (tag_of (<[t := gF]> (<[n := gA]> (tags a)))) (l1 ++ n :: t :: l2) = map (tag_of (tags a)) l1 ++ gA :: gF :: map (tag_of (tags a)) l2).
  { rewrite map_app. cbn [map]. rewrite !tags_frame by done. by rewrite tag_of_insert, tag_of_ne, tag_of_insert by done. }
  assert (Htl : forall x, x <> n -> (x ∈ l1 ++ n :: t :: l2 <-> x ∈ tag_list a)) by (intros x Hx; rewrite Hl; set_solver).
  split; [|exact Hseg]. constructor; cbn [a7 a6 a5 set_bucket set_lists set_tag set_freelist set_free_tags tags tag_list span_list free_tags].
  - rewrite Hl in Hnd. eapply NoDup_Permutation_proper; [|exact Hnd]. solve_Permutation.
  - unfold tag_ok in Hok. intros x Hx. destruct (decide (x = t)) as [->|Hxt]; [exists gF; rewrite lookup_insert_eq; split; [done|]; unfold tag_ok; cbn; lia|].
    rewrite lookup_insert_ne by done. destruct (decide (x = n)) as [->|Hxn]; [exists gA; rewrite lookup_insert_eq; split; [done|]; unfold tag_ok; cbn; lia|].
    rewrite lookup_insert_ne by done. by apply (ok_tags a Ha), Htl.
  - intros x Hx. destruct (taken_no_span x Hx) as (? & Hin & ?). assert (x <> n) by congruence. split; [by apply Htl|]. by rewrite !tag_of_ne.
  - rewrite <- (insert_insert_eq (<[n := gA]> (tags a)) t gF (mkTag 0 0 SPAN)), (insert_insert_ne _ t n) by done.
    apply (lists_insert _ _ _ (l1 ++ n :: t :: l2) freed); [|done|done|set_solver| |].
    + apply (lists_absent _ _ _ (tag_list a)); [by apply freed_ok|done|done|]. intros j Hin. apply (freed_ok (mkTag 0 0 SPAN)) in Hin as [? _]; done.
    + intros j Hin. apply (freed_ok (mkTag 0 0 SPAN)) in Hin as (_ & g0 & Hg0 & Ht0 & _); [|done]. rewrite lookup_insert_eq in Hg0. by injection Hg0 as <-.
    + intros j. change (freelist j a7) with (freelist j (set_freelist i' (freelist i' (set_freelist i l a) ++ [t]) (set_freelist i l a))).
      rewrite (freelist_set i'). cbn [gF size]. fold i'. case_decide as E; [|done]. subst j. by rewrite Permutation_app_comm.
  - rewrite insert_insert_ne by done.
    apply (lists_insert _ _ (<[t := gF]> (tags a)) (tag_list a) (fun i => bucket i a)); [|done|done|set_solver| |].
    + apply (lists_absent _ _ _ (tag_list a)); [apply Ha|done|done|apply taken_not_hashed].
    + intros j Hin. by apply (ok_hash a Ha) in Hin as [? _].
    + intros j. change (bucket j a7) with (bucket j (set_bucket h (n :: bucket h a) a)). rewrite bucket_set. cbn [gA base]. fold h. case_decide as E; [by rewrite E|done].
  - unfold segments. cbn. rewrite Hseg. apply tiled_split, tiled_free.
Qed.
End Take.

(** Allocation keeps the arena well-formed.  It takes the beginning of a free
    segment, all of it or a part; where it finds none, no free segment is twice
    as large as what is asked. *)
Theorem xalloc_spec sz a addr a' : arena_ok a -> 0 < sz < 18446744073709551616 -> xalloc sz a = Some (addr, a') ->
  arena_ok a' /\
  ((exists l1 g l2, segments a = l1 ++ g :: l2 /\ type g = FREE /\ base g = addr /\ sz <= size g /\
      segments a' = l1 ++ mkTag addr sz ALLOCATED :: (if size g =? sz then [] else [mkTag (addr + sz) (size g - sz) FREE]) ++ l2) \/
   (addr = 0 /\ a' = a /\ forall g, g ∈ segments a -> type g = FREE -> size g < 2 * sz)).
Proof.
  intros Ha Hs. unfold xalloc. destruct ((sz =? 0) || (quantum a =? 0) || negb (sz mod quantum a =? 0)); [done|].
  destruct (first_freelist sz) as [i0|] eqn:E0; [|done]. cbn [mbind option_bind]. destruct (first_freelist_spec sz i0 ltac:(lia) E0) as (P0 & P1 & P2).
  pose proof (find_freelist_spec (Z.to_nat (num_freelists - i0)) i0 a) as Hf. destruct (find_freelist _ i0 a) as [[[i t] l]|].
  - destruct Hf as [Hir Hi]. destruct (free_found a i t l Ha Hi) as (g & l1 & l2 & Hg & Hok & Hty & Hk & Hl & N1 & N2 & _).
    change (tags (set_freelist i l a)) with (tags a). rewrite Hg. cbn [mbind option_bind].
    assert (Hge : sz <= size g) by (pose proof (Z.log2_spec (size g) ltac:(unfold tag_ok in Hok; lia)); assert (2 ^ i0 <= 2 ^ i) by (apply Z.pow_le_mono_r; lia); subst i; lia).
    assert (Hsg := segments_split a l1 t l2 g Hl Hg).
    destruct (Z.eqb_spec (size g) sz) as [E|E].
    + destruct (take_whole a i t l g l1 l2 Ha Hi Hg Hok Hty Hk Hl N1 N2) as (a2 & -> & Ha2 & Hs2). cbn [mbind option_bind]. injection 1 as <- <-.
      split; [done|]. left. eexists _, g, _. split; [exact Hsg|]. split; [done|]. split; [done|]. split; [done|]. by rewrite Hs2, <- E, Z.eqb_refl.
    + unfold allocate_tag. change (free_tags (set_freelist i l a)) with (free_tags a). destruct (free_tags a) as [|n fr] eqn:Hfr; [done|]. cbn [mbind option_bind].
      cbn [set_lists set_tag set_free_tags set_freelist tag_list span_list]. rewrite Hl, insert_before_split, Hty by done.
      unfold tag_ok in Hok. rewrite (u64_small (base g + sz)), (u64_small (size g - sz)) by lia.
      destruct (take_part a i t l g l1 l2 Ha Hi Hg Hok Hty Hk Hl N1 N2 n fr sz Hfr ltac:(lia)) as (a6 & a7 & E6 & E7 & Ha7 & Hs7).
      intros H. change (freelist_insert t _) with (freelist_insert t (set_lists (l1 ++ n :: t :: l2) (span_list a) (set_tag t (mkTag (base g + sz) (size g - sz) FREE)
        (set_tag n (mkTag (base g) sz ALLOCATED) (set_free_tags fr (set_freelist i l a)))))) in H.
      rewrite E6 in H. cbn [mbind option_bind] in H. rewrite E7 in H. cbn [mbind option_bind] in H. injection H as <- <-.
      split; [done|]. left. eexists _, g, _. split; [exact Hsg|]. rewrite Hs7. by rewrite (proj2 (Z.eqb_neq (size g) sz)).
  - injection 1 as <- <-. split; [done|]. right. split; [done|]. split; [done|]. intros g Hin Hty. unfold segments in Hin.
    apply list_elem_of_fmap in Hin as (t & -> & Ht). destruct (ok_tags a Ha t Ht) as (g & Hg & Hok). unfold tag_of in *. rewrite Hg in *. cbn in *.
    assert (Hin : t ∈ freelist (Z.log2 (size g)) a) by (apply (ok_free a Ha); eauto).
    destruct (Z.lt_ge_cases (Z.log2 (size g)) i0) as [Hlt|Hge].
    + unfold tag_ok in Hok. destruct (Z.log2_spec (size g) ltac:(lia)) as [_ Hu]. assert (2 ^ Z.succ (Z.log2 (size g)) <= 2 ^ i0) by (apply Z.pow_le_mono_r; lia). lia.
    + rewrite Hf in Hin; [by apply not_elem_of_nil in Hin|]. unfold num_freelists. split; [done|]. unfold tag_ok in Hok.
      assert (Z.log2 (size g) < 64) by (apply Z.log2_lt_pow2; lia). lia.
Qed.

(** ** Freeing *)

Lemma find_tag_spec addr l a : forall t, find_tag addr l a = Some (Some t) -> t ∈ l /\ exists g, tags a !! t = Some g /\ base g = addr.
Proof.
  induction l as [|y l IH]; intros t H; cbn [find_tag] in H; [done|]. destruct (tags a !! y) as [g|] eqn:Hg; [|done]. cbn [mbind option_bind] in H.
  destruct (Z.eqb_spec (base g) addr) as [E|E]; [injection H as <-; split; [by left|eauto]|]. destruct (IH t H) as [? ?]. split; [by right|done].
Qed.

(** A segment that is freed stays as it is cut: it is never joined to a free
    neighbour. *)
Theorem xfree_spec addr sz a a' : arena_ok a -> xfree addr sz a = Some a' -> arena_ok a' /\
  exists l1 g l2, segments a = l1 ++ g :: l2 /\ type g = ALLOCATED /\ base g = addr /\ (sz = 0 \/ sz = size g) /\
    segments a' = l1 ++ mkTag addr (size g) FREE :: l2.
Proof.
  intros Ha H. unfold xfree in H. set (i := hash_bucket_for_addr addr) in H. destruct (find_tag addr (bucket i a) a) as [[t|]|] eqn:Ef; [|done|done].
  cbn [mbind option_bind] in H. apply find_tag_spec in Ef as (Hin & g & Hg & Hb). rewrite Hg in H. cbn [mbind option_bind] in H.
  destruct (negb (sz =? 0) && negb (sz =? size g)) eqn:Esz; [done|]. apply (ok_hash a Ha) in Hin as (Htl & g0 & Hg0 & Hty & Hk).
  rewrite Hg in Hg0. injection Hg0 as <-. destruct (ok_tags a Ha t Htl) as (g0 & Hg0 & Hok). rewrite Hg in Hg0. injection Hg0 as <-.
  apply list_elem_of_split in Htl as (l1 & l2 & Hl).
  destruct (neighbours t None (tag_list a)) as [[[left_tag|] right_tag]|]; [|done|done]. cbn [mbind option_bind] in H.
  destruct (misread_type left_tag a) as [ok1|]; [|done]. cbn [mbind option_bind] in H. destruct (misread_right right_tag a) as [ok2|]; [|done].
  cbn [mbind option_bind] in H. destruct (ok1 && ok2); [|done]. set (g' := mkTag (base g) (size g) FREE) in H.
  unfold freelist_insert in H. cbn [set_tag set_bucket tags] in H. rewrite lookup_insert_eq in H. cbn [mbind option_bind g' size] in H.
  unfold freelist_index_for_size in H. unfold tag_ok in Hok. rewrite (proj2 (Z.eqb_neq (size g) 0)) in H by lia. cbn [mbind option_bind] in H.
  set (a3 := set_freelist _ _ _) in H. injection H as <-. pose proof (ok_nodup a Ha) as Hnd. rewrite Hl in Hnd.
  apply NoDup_app in Hnd as (Hnd & _ & _). apply NoDup_app in Hnd as (_ & Hd & Hnd). apply NoDup_cons in Hnd as [Hnd _].
  assert (N1 : t ∉ l1) by (intros Hc; apply (Hd t Hc); by left).
  assert (Hseg : map (tag_of (<[t := g']> (tags a))) (tag_list a) = map (tag_of (tags a)) l1 ++ g' :: map (tag_of (tags a)) l2).
  { rewrite Hl, map_app. cbn [map]. by rewrite !tags_frame, tag_of_insert. }
  pose proof (segments_split a l1 t l2 g Hl Hg) as Hsg. split.
  - constructor; cbn [a3 set_bucket set_tag set_freelist tags tag_list span_list free_tags].
    + apply Ha.
    + intros x Hx. destruct (decide (x = t)) as [->|Hne]; [exists g'; by rewrite lookup_insert_eq|]. rewrite lookup_insert_ne by done. by apply (ok_tags a Ha).
    + intros x Hx. destruct (ok_spans a Ha x Hx) as [? Hs]. split; [done|]. rewrite tag_of_ne; [done|]. intros ->. unfold tag_of in Hs. rewrite Hg in Hs. cbn in Hs. congruence.
    + apply (lists_insert _ _ (tags a) (tag_list a) (fun i => freelist i a)); [apply Ha|done|done|rewrite Hl; set_solver| |].
      * intros j. apply (lists_other _ _ _ _ _ _ _ j (ok_free a Ha) Hg). left. congruence.
      * intros j. unfold a3. rewrite freelist_set. cbn [g' size]. case_decide as E; [|done]. subst j. by rewrite Permutation_app_comm.
    + apply (lists_remove _ _ _ _ (fun i => bucket i a)); [apply Ha|done|]. intros j.
      change (bucket j a3) with (bucket j (set_bucket i (filter (fun x => x <> t) (bucket i a)) a)). rewrite bucket_set. case_decide as E.
      * subst j. split; [apply NoDup_filter, (ok_hash a Ha)|]. intros x. rewrite list_elem_of_filter. tauto.
      * split; [apply (ok_hash a Ha)|]. intros x. split; [|tauto]. intros Hx. split; [done|]. intros ->. revert Hx.
        apply (lists_other _ _ _ _ _ _ _ j (ok_hash a Ha) Hg). right. unfold i in *. congruence.
    + unfold segments. cbn. rewrite Hseg. apply (tiled_retype _ _ ALLOCATED); [done|done|]. pose proof (ok_tiled a Ha) as Ht. rewrite Hsg in Ht.
      by replace (mkTag (base g) (size g) ALLOCATED) with g by (destruct g; cbn in *; congruence).
  - eexists _, g, _. split; [exact Hsg|]. split; [done|]. split; [done|]. split.
    + destruct (Z.eqb_spec sz 0); [by left|]. destruct (Z.eqb_spec sz (size g)); [by right|done].
    + rewrite <- Hb. exact Hseg.
Qed.

(** ** Spans *)

Lemma Arena_init_ok q l : NoDup l -> arena_ok (Arena_init q l).
Proof.
  intros Hn. constructor; cbn; try done; try (by intros t Ht; apply not_elem_of_nil in Ht).
  all: split; [|constructor]; intros i t; split; [intros Hin; by apply not_elem_of_nil in Hin|by intros [Hin _]; apply not_elem_of_nil in Hin].
Qed.
Lemma early_init_distinct static : NoDup (early_init static).
Proof. apply (NoDup_fmap_2_strong (fun i => static + 56 * Z.of_nat i)); [intros; lia|apply NoDup_seq]. Qed.

Lemma find_span_split b l a l1 l2 : find_span b l a = Some (l1, l2) -> l1 = [] \/ l = l1 ++ l2.
Proof.
  revert l1 l2. induction l as [|t l IH]; intros l1 l2; cbn [find_span]; [injection 1 as <- <-; by left|].
  destruct (tags a !! t) as [g|]; [|done]. cbn [mbind option_bind]. destruct (b <=? base g); [injection 1 as <- <-; by right|].
  destruct (find_span b l a) as [[k1 k2]|]; [|done]. cbn [mbind option_bind]. injection 1 as <- <-. destruct (IH _ _ eq_refl) as [-> | ->]; [by left|].
  destruct k1; [by left|by right].
Qed.

Lemma new_tags a n m fr : arena_ok a -> free_tags a = n :: m :: fr -> n ∉ tag_list a /\ m ∉ tag_list a /\ n <> m.
Proof.
  intros Ha Hfr.  pose proof (ok_nodup a Ha) as Hnd. rewrite Hfr in Hnd. apply NoDup_app in Hnd as (_ & Hd & Hnd).
  split; [|split]; [intros Hc; apply (Hd n Hc); by left|intros Hc; apply (Hd m Hc); right; by left|]. apply NoDup_cons in Hnd as [Hx _]. set_solver.
Qed.

Section Place.
Context (a : Arena) (b sz n m : Z) (fr t1 t2 k1 k2 : list Z).
Context (Ha : arena_ok a) (Hs : 0 < sz < 18446744073709551616) (Hb : 0 <= b) (Hbs : b + sz <= 18446744073709551616).
Context (Hfr : free_tags a = n :: m :: fr) (Htl : tag_list a = t1 ++ t2) (Hsl : span_list a = k1 ++ k2).
Context (Hspan : match map (tag_of (tags a)) t2 with [] => True | g :: _ => type g = SPAN end).
Abbreviation gS := (mkTag b sz SPAN).
Abbreviation gF := (mkTag b sz FREE).

(** The new span and its segment at a place where a span begins. *)
Lemma place_ok : exists a', freelist_insert m (set_lists (t1 ++ n :: m :: t2) (k1 ++ n :: k2) (set_tag m gF (set_tag n gS (set_free_tags fr a)))) = Some a' /\
  arena_ok a' /\ segments a' = map (tag_of (tags a)) t1 ++ gS :: gF :: map (tag_of (tags a)) t2.
Proof.
  destruct (new_tags a n m fr Ha Hfr) as (Nn & Nm & Hnm). assert (n ∉ t1 /\ n ∉ t2 /\ m ∉ t1 /\ m ∉ t2) as (Nn1 & Nn2 & Nm1 & Nm2) by (rewrite Htl in Nn, Nm; set_solver).
  set (i := Z.log2 sz).
  set (a4 := set_freelist i (freelist i a ++ [m]) (set_lists (t1 ++ n :: m :: t2) (k1 ++ n :: k2) (set_tag m gF (set_tag n gS (set_free_tags fr a))))).
  exists a4. split.
  { unfold freelist_insert. cbn [set_lists set_tag tags]. rewrite lookup_insert_eq. cbn [mbind option_bind size].
    unfold freelist_index_for_size. by rewrite (proj2 (Z.eqb_neq sz 0)) by lia. }
  assert (Hseg : map (tag_of (<[m := gF]> (<[n := gS]> (tags a)))) (t1 ++ n :: m :: t2) = map (tag_of (tags a)) t1 ++ gS :: gF :: map (tag_of (tags a)) t2).
  { rewrite map_app. cbn [map]. rewrite !tags_frame by done. by rewrite tag_of_insert, tag_of_ne, tag_of_insert by done. }
  split; [|exact Hseg]. assert (Hin : forall x, x ∈ t1 ++ n :: m :: t2 <-> x = n \/ x = m \/ x ∈ tag_list a) by (intros x; rewrite Htl; set_solver).
  constructor; cbn [a4 set_freelist set_lists set_tag set_free_tags tags tag_list span_list free_tags].
  - pose proof (ok_nodup a Ha) as Hnd. rewrite Hfr, Htl in Hnd. eapply NoDup_Permutation_proper; [|exact Hnd]. solve_Permutation.
  - intros x Hx. destruct (decide (x = m)) as [->|Hxm]; [exists gF; rewrite lookup_insert_eq; split; [done|]; unfold tag_ok; cbn; lia|].
    rewrite lookup_insert_ne by done. destruct (decide (x = n)) as [->|Hxn]; [exists gS; rewrite lookup_insert_eq; split; [done|]; unfold tag_ok; cbn; lia|].
    rewrite lookup_insert_ne by done. apply (ok_tags a Ha). apply Hin in Hx. naive_solver.
  - intros x Hx. rewrite Hin. assert (x = n \/ x ∈ span_list a) as [->|Hx'] by (rewrite Hsl; set_solver).
    + split; [by left|]. by rewrite tag_of_ne, tag_of_insert by done.
    + destruct (ok_spans a Ha x Hx') as [Hxt Hty]. split; [by right; right|]. rewrite !tag_of_ne; [done| |]; by intros ->.
  - assert (Hno : forall x j, x ∉ tag_list a -> x ∉ freelist j a) by (intros x j Hx Hc; by apply (ok_free a Ha) in Hc as [? _]).
    apply (lists_insert _ _ (<[n := gS]> (tags a)) (t1 ++ n :: t2) (fun i => freelist i a)); [|set_solver|done|set_solver|by intros j; apply Hno|].
    + apply (lists_absent _ _ _ (tag_list a)); [apply Ha|rewrite Htl; set_solver|done|by intros j; apply Hno].
    + intros j. change (freelist j a4) with (freelist j (set_freelist i (freelist i a ++ [m]) a)). rewrite freelist_set. cbn [size]. fold i.
      case_decide as E; [|done]. subst j. by rewrite Permutation_app_comm.
  - assert (Hno : forall x j, x ∉ tag_list a -> x ∉ bucket j a) by (intros x j Hx Hc; by apply (ok_hash a Ha) in Hc as [? _]).
    apply (lists_absent _ _ _ (t1 ++ n :: t2)); [|set_solver|done|by intros j; apply Hno].
    apply (lists_absent _ _ _ (tag_list a)); [apply Ha|rewrite Htl; set_solver|done|by intros j; apply Hno].
  - unfold segments. cbn. rewrite Hseg. apply tiled_boundary; [done|]. pose proof (ok_tiled a Ha) as Ht. unfold segments in Ht. by rewrite Htl, map_app in Ht.
Qed.
End Place.

(** A span is put between others, whole and free. *)
Theorem add_span_spec b sz a a' : arena_ok a -> 0 < sz < 18446744073709551616 -> 0 <= b -> b + sz <= 18446744073709551616 -> add b sz a = Some a' ->
  arena_ok a' /\ exists l1 l2, segments a = l1 ++ l2 /\ segments a' = l1 ++ mkTag b sz SPAN :: mkTag b sz FREE :: l2.
Proof.
  intros Ha Hs Hb Hbs H. unfold add in H. destruct (find_span b (span_list a) a) as [[l1 l2]|] eqn:Ef; [|done]. cbn [mbind option_bind] in H.
  set (k2 := match l1 with [] => span_list a | _ => l2 end) in H. unfold allocate_tag in H.
  destruct (free_tags a) as [|n fr1] eqn:Hfr; [done|]. cbn [mbind option_bind free_tags set_free_tags] in H. destruct fr1 as [|m fr]; [done|]. cbn [mbind option_bind] in H.
  assert (Hk : span_list a = l1 ++ k2) by (apply find_span_split in Ef; unfold k2; destruct l1; [done|by destruct Ef]).
  set (tl := match k2 with next_span :: _ => insert_before next_span n (tag_list a) | [] => tag_list a ++ [n] end) in H.
  assert (exists t1 t2, tag_list a = t1 ++ t2 /\ tl = t1 ++ n :: t2 /\ match map (tag_of (tags a)) t2 with [] => True | g :: _ => type g = SPAN end)
    as (t1 & t2 & Htl & Etl & Hspan).
  { unfold tl. destruct k2 as [|s k2]; [exists (tag_list a), []; by rewrite app_nil_r|]. destruct (ok_spans a Ha s) as [Hin Hty]; [rewrite Hk; set_solver|].
    apply list_elem_of_split_l in Hin as (t1 & t2 & Hl & N1). exists t1, (s :: t2). rewrite Hl, insert_before_split by done. split; [done|]. split; [done|exact Hty]. }
  destruct (new_tags a n m fr Ha Hfr) as (Nn & _ & _). rewrite Htl in Nn. rewrite Etl, insert_after_split in H by (intros Hc; apply Nn, elem_of_app; by left).
  destruct (place_ok a b sz n m fr t1 t2 l1 k2 Ha Hs Hb Hbs Hfr Htl Hk Hspan) as (a4 & E4 & Ha4 & Hs4).
  change (freelist_insert m (set_lists (t1 ++ n :: m :: t2) (l1 ++ n :: k2) (set_tag m (mkTag b sz FREE) (set_tag n (mkTag b sz SPAN) (set_free_tags fr a)))) = Some a') in H.
  rewrite E4 in H. injection H as <-. split; [done|]. eexists _, _. split; [|exact Hs4]. unfold segments. by rewrite Htl, map_app.
Qed.

(** ** Runs *)

Definition arena0 : option Arena := add 4294971392 16384 (Arena_init 4096 (early_init 1048576)).
Definition alloc_n (n : nat) (sz : Z) (a : Arena) : option Arena := Nat.iter n (fun o => a ← o; snd <$> xalloc sz a) (Some a).

(** Four pages are taken and freed; the four that are then free are not one, and
    four cannot be had. *)
Example free_pages_stay_apart :
  (a ← arena0; a ← alloc_n 4 4096 a; a ← xfree 4294971392 4096 a; a ← xfree 4294975488 0 a; a ← xfree 4294979584 0 a; a ← xfree 4294983680 0 a;
   '(r, a') ← xalloc 16384 a; Some (r, map type (segments a'))) = Some (0, [SPAN; FREE; FREE; FREE; FREE]).
Proof. vm_compute. reflexivity. Qed.

(** Next to a base that is a multiple of 4 GiB a segment cannot be freed. *)
Example free_at_four_gib :
  (a ← add 4294967296 16384 (Arena_init 4096 (early_init 1048576)); '(r, a) ← xalloc 4096 a; Some (r, xfree r 4096 a)) = Some (4294967296, None).
Proof. vm_compute. reflexivity. Qed.
