(* ===== verification/Start.v ===== *)
(** The start of the system, from the scheduler's first threads to the first
    process (src/kernel/src/sched/sched.cpp: init, new_kernel_thread,
    create_init_process; src/kernel/src/kernel.cpp: kernel_thread): what the
    other files take for granted of a state holds of the first one.

    The kernel process has the identifier it is given; the idle thread, which
    has one too, is known as [IDLE].  The directories of procfs are in
    Procfs.v, the device files in Initramfs.v. *)
From S2P Require Import Prelude FdTable Signal Sched Jobs.
From S2P Require Terminal Tty NameSpace UserMem Exec Devices Tmpfs.
From stdpp Require Import strings.
#[local] Open Scope Z_scope.
Import Tty(TtySys, jobs, set_jobs, set_controlling_terminal, controlling_terminal).

(** ** Kernel threads *)

Definition no_sched : Sched := mkSched ∅ ∅ ∅ ∅ [] IDLE [] 2.

Definition kernel_mode (th : SThread) : SThread :=
  mkSThread (process th) (state th) (enqueued_by_signal th) (which_event th) (pending_signals th) (signal_mask th) (listeners th)
    (entering_signal th) (exiting_signal th) false (clear_child_tid th) (set_child_tid th).

(** A thread is ready and at the end of the run list. *)
Definition make_ready (t : Z) (s : Sched) : option Sched :=
  l ← list_append t (run_list s); Some (upd_thread t (with_state READY) (set_run_list l s)).

Definition new_kernel_thread (kernel_process : Z) (enqueue : bool) (s : Sched) : option (Z * Sched) :=
  let '(tid, s1) := allocate_tid s in
  s2 ← Thread_new kernel_process tid s1;
  let s3 := upd_thread tid kernel_mode s2 in
  if enqueue then s4 ← make_ready tid s3; Some (tid, s4) else Some (tid, s3).

(** [init]: the kernel process and the idle thread, which is ready and in no
    list. *)
Definition known_as_idle (tid : Z) (s : Sched) : option Sched :=
  th ← threads s !! tid;
  Some (mkSched (<[IDLE := with_state READY th]> (delete tid (threads s)))
          ((fun pr => mkSProcess (map (fun t => if t =? tid then IDLE else t) (thread_list pr)) (num_living_threads pr) (parent pr) (children_list pr)
                        (wait_status pr) (wait_code pr) (is_zombie pr) (sigchld_flags pr) (group pr) (umask pr)) <$> processes s)
          (groups s) (events s) (run_list s) (running_thread s) (thread_table s) (first_free_tid s)).
Definition sched_init : option (Z * Sched) :=
  let '(kernel_process, s1) := Process_new no_sched in
  '(tid, s2) ← new_kernel_thread kernel_process false s1;
  s3 ← known_as_idle tid s2;
  Some (kernel_process, s3).

Definition no_jobs (s : Sched) : Jobs := mkJobs s ∅ ∅ ∅ [] 1.

(** ** The first process *)

Definition with_group (g : Z) (pr : SProcess) : SProcess :=
  mkSProcess (thread_list pr) (num_living_threads pr) (parent pr) (children_list pr) (wait_status pr) (wait_code pr) (is_zombie pr)
    (sigchld_flags pr) g (umask pr).

(** The process with its session and group, which gets its pointer only, and
    its thread. *)
Definition first_process (j : Jobs) : option Jobs :=
  let '(_, s1) := allocate_tid (sched j) in
  let s2 := set_processes (<[INIT := mkSProcess [] 0 INIT [] 0 0 false 0 0 default_umask]> (processes s1)) s1 in
  let '(sn, j1) := Session_new (set_sched s2 j) in
  let '(g, j2) := ProcessGroup_new sn INIT j1 in
  let j3 := mkJobs (upd_process INIT (with_group g) (sched j2)) (leader_process j2) (session j2) (<[sn := g]> (leader_group j2)) (performed_execve j2)
              (next_object j2) in
  s ← Thread_new INIT INIT (sched j3);
  Some (set_sched s j3).

(** Three descriptions of the console. *)
Definition standard_descriptor (e v fl : Z) (s : NameSpace.Ns) : NameSpace.Ns :=
  let p := NameSpace.next_addr s in
  let f := NameSpace.ns_fds s in
  let f' := mkFdState (file_descriptors f ++ [FileDescriptor_init p 0]) (num_file_descriptors f) (first_free_fdnum f)
              (<[p := mkDescription v 0 fl 1]> (descriptions f)) (closed f) (memfd_seals f) in
  NameSpace.set_next (p + 16) (NameSpace.set_ns_fds f' (<[p := e]> (NameSpace.desc_entry s)) s).
Definition no_descriptors (f : FdState) : FdState := mkFdState [] 0 0 (descriptions f) (closed f) (memfd_seals f).
Definition standard_descriptors (e v : Z) (s : NameSpace.Ns) : NameSpace.Ns :=
  let s0 := NameSpace.set_ns_fds (no_descriptors (NameSpace.ns_fds s)) (NameSpace.desc_entry s) s in
  let s3 := standard_descriptor e v O_WRONLY (standard_descriptor e v O_WRONLY (standard_descriptor e v O_RDONLY s0)) in
  let f := NameSpace.ns_fds s3 in
  NameSpace.set_cwd NameSpace.ROOT
    (NameSpace.set_ns_fds (mkFdState (file_descriptors f) 3 3 (descriptions f) (closed f) (memfd_seals f)) (NameSpace.desc_entry s3) s3).

Section Start.
Context `{!Tmpfs.Realloc} (fuel : nat).

(** [console] is the address of the console's terminal; a failed exec is a
    failed assertion. *)
Definition create_init_process (path : list Z) (argv : list (list Z)) (console : Z) (y : TtySys) (s : NameSpace.Ns) (p : Exec.Proc)
    : option (TtySys * NameSpace.Ns * Exec.Proc) :=
  j1 ← first_process (jobs y);
  '(e, s1) ← NameSpace.path_to_entry fuel (NameSpace.str "/dev/console") 0 true s;
  v ← NameSpace.vnode_of e s1;
  if v =? 0 then None
  else
    let s2 := standard_descriptors e v s1 in
    y2 ← set_controlling_terminal console INIT v (set_jobs j1 y);
    '(ret, p', s3) ← Exec.user_exec fuel path argv [] p s2;
    if ret <? 0 then None
    else s4 ← make_ready INIT (sched (jobs y2)); Some (set_jobs (set_sched s4 (jobs y2)) y2, s3, p').

End Start.

(** ** The scheduler's first state *)

Lemma make_ready_ok t s : queue_ok s -> states s !! t = Some BLOCKED ->
  exists s', make_ready t s = Some s' /\ queue_ok s' /\ run_list s' = run_list s ++ [t] /\ groups s' = groups s /\ processes s' = processes s.
Proof.
  intros Hok Hb. destruct (rq_wake _ _ _ Hok Hb) as [Hn Hok']. unfold make_ready, list_append. rewrite bool_decide_false by done. cbn [mbind option_bind].
  eexists. split; [reflexivity|]. split; [|done]. unfold queue_ok. rewrite (states_set _ t _ READY); [exact Hok'| |done].
  rewrite states_lookup in Hb. cbn. destruct (threads s !! t); [by eexists|done].
Qed.

(** The scheduler starts with its idle thread alone, and well-formed. *)
Theorem sched_init_ok : exists k s, sched_init = Some (k, s) /\ queue_ok s /\ run_list s = [] /\ listeners_ok s /\ jobs_ok (no_jobs s) /\
  is_Some (threads s !! IDLE) /\ is_Some (processes s !! k) /\ threads s !! INIT = None /\ processes s !! INIT = None.
Proof.
  destruct sched_init as [[k s]|] eqn:E; [|vm_compute in E; discriminate]. vm_compute in E. injection E as <- <-. do 2 eexists. split; [reflexivity|].
  split; [apply rq_check_ok; by vm_compute|]. split; [done|]. split; [intros e ev t w H; by vm_compute in H|].
  split; [split; [cbn; lia|apply members_check; by vm_compute]|]. split; [eexists; by vm_compute|]. split; [eexists; by vm_compute|]. by vm_compute.
Qed.

(** A kernel thread runs at the end of the list, and never as a user's. *)
Theorem new_kernel_thread_ok k s : queue_ok s -> is_Some (processes s !! k) ->
  (forall t s1, allocate_tid s = (t, s1) -> t <> IDLE /\ threads s !! t = None) ->
  exists t s', new_kernel_thread k true s = Some (t, s') /\ queue_ok s' /\ run_list s' = run_list s ++ [t] /\
    (exists th, threads s' !! t = Some th /\ is_user th = false /\ process th = k).
Proof.
  intros Hok [pr Hk] Hfresh. unfold new_kernel_thread. destruct (allocate_tid s) as [t s1] eqn:E. destruct (Hfresh t s1 eq_refl) as [Ht Hno].
  destruct (allocate_tid_same _ _ _ E) as [Hsame Hth]. pose proof (allocate_tid_procs _ _ _ E) as [Hg Hp].
  assert (Hok1 : queue_ok s1) by (by eapply same_queue_ok). assert (Hrl : run_list s1 = run_list s) by apply Hsame.
  destruct (Thread_new k t s1) as [s2|] eqn:E2; [|unfold Thread_new in E2; rewrite Hp, Hk in E2; discriminate E2]. cbn [mbind option_bind].
  destruct (Thread_new_queue k t s1 s2 E2 Ht ltac:(by rewrite Hth) Hok1) as [Hok2 Hb].
  assert (Hst : states (upd_thread t kernel_mode s2) = states s2) by (by apply states_upd).
  destruct (make_ready_ok t (upd_thread t kernel_mode s2)) as (s4 & E4 & Hok4 & Hrl4 & _).
  - unfold queue_ok. by rewrite Hst.
  - by rewrite Hst.
  - rewrite E4. cbn [mbind option_bind]. exists t, s4. split; [done|]. split; [done|].
    unfold Thread_new in E2. rewrite Hp, Hk in E2. cbn [mbind option_bind] in E2. injection E2 as <-.
    split; [rewrite Hrl4; cbn; by rewrite Hrl|]. unfold make_ready in E4. destruct (list_append t _) as [l|]; [|done]. cbn [mbind option_bind] in E4. injection E4 as <-.
    cbn [upd_thread set_threads set_run_list threads]. rewrite !lookup_alter_eq. cbn. rewrite lookup_insert_eq. eexists. split; [reflexivity|]. done.
Qed.

(** ** The first process *)

(** A group that is empty with the first process in it is a group like the
    others. *)
Lemma first_member_ok n m g s s' : members_ok n s -> 0 < g -> n <= g < m -> group_ids s !! INIT = None ->
  groups s' = <[g := []]> (groups s) -> group_ids s' = <[INIT := g]> (group_ids s) -> members_ok m s'.
Proof.
  intros [Hl Hm Ho] Hg0 Hg HI Eg Ei.
  assert (Hfresh : groups s !! g = None) by (destruct (groups s !! g) as [l|] eqn:E; [|done]; destruct (Ho _ _ E); lia).
  split.
  - intros p h Hp Hh. rewrite Ei in Hp. rewrite Eg. apply lookup_insert_Some in Hp as [[<- <-]|[Hne Hp]].
    + exists []. by rewrite lookup_insert_eq.
    + destruct (Hl p h Hp Hh) as (l & E & Hin). exists l. split; [|done]. rewrite lookup_insert_ne; [done|]. intros <-. by rewrite Hfresh in E.
  - intros h l p Hh Hin. rewrite Eg in Hh. rewrite Ei. apply lookup_insert_Some in Hh as [[<- <-]|[Hne Hh]]; [by apply elem_of_nil in Hin|].
    pose proof (Hm h l p Hh Hin) as H. rewrite lookup_insert_ne; [done|]. intros <-. by rewrite HI in H.
  - intros h l Hh. rewrite Eg in Hh. apply lookup_insert_Some in Hh as [[<- <-]|[Hne Hh]]; [split; [constructor|lia]|].
    destruct (Ho h l Hh). split; [done|lia].
Qed.

(** The first process leads the first session; its group has it for a leader,
    and does not list it. *)
Theorem first_process_ok j : jobs_ok j -> queue_ok (sched j) -> threads (sched j) !! INIT = None -> processes (sched j) !! INIT = None ->
  exists j' g, first_process j = Some j' /\ jobs_ok j' /\ queue_ok (sched j') /\ run_list (sched j') = run_list (sched j) /\
    states (sched j') !! INIT = Some BLOCKED /\ process_group INIT j' = Some g /\ groups (sched j') !! g = Some [] /\
    group_leader INIT j' = Some INIT /\ session_leader INIT j' = Some INIT.
Proof.
  intros [Hn Hj] Hok Ht Hp. unfold first_process. destruct (allocate_tid (sched j)) as [t0 s1] eqn:E.
  destruct (allocate_tid_same _ _ _ E) as [[Hrl Hst] Hth]. destruct (allocate_tid_procs _ _ _ E) as [Hg Hps].
  cbn [Session_new ProcessGroup_new set_sched sched next_object leader_process session leader_group performed_execve].
  match goal with |- context [Thread_new INIT INIT ?S] => set (s3 := S) end.
  assert (Hp3 : processes s3 = <[INIT := with_group (next_object j + 1) (mkSProcess [] 0 INIT [] 0 0 false 0 0 default_umask)]> (processes (sched j))).
  { unfold s3. cbn. rewrite Hps, alter_insert_eq. done. }
  assert (Ht3 : threads s3 = threads (sched j)) by exact Hth.
  assert (Hg3 : groups s3 = <[next_object j + 1 := []]> (groups (sched j))) by (unfold s3; cbn; by rewrite Hg).
  assert (Hok3 : queue_ok s3) by (apply (same_queue_ok (sched j)); [split; [exact Hrl|exact Hst]|done]).
  destruct (Thread_new INIT INIT s3) as [s|] eqn:E4; [|unfold Thread_new in E4; rewrite Hp3, lookup_insert_eq in E4; discriminate E4].
  cbn [mbind option_bind].
  destruct (Thread_new_queue INIT INIT s3 s E4 ltac:(done) ltac:(by rewrite Ht3) Hok3) as [Hok4 Hb].
  destruct (Thread_new_members _ _ _ _ E4) as [Hg4 Hi4].
  assert (Hrun : run_list s = run_list (sched j)).
  { unfold Thread_new in E4. rewrite Hp3, lookup_insert_eq in E4. cbn [mbind option_bind] in E4. injection E4 as <-. exact Hrl. }
  assert (Hi3 : group_ids s3 = <[INIT := next_object j + 1]> (group_ids (sched j))) by (unfold group_ids; by rewrite Hp3, fmap_insert).
  assert (HiI : group <$> processes s !! INIT = Some (next_object j + 1)).
  { rewrite <- lookup_fmap. change (group <$> processes s) with (group_ids s). rewrite Hi4, Hi3. apply lookup_insert_eq. }
  eexists _, (next_object j + 1). split; [reflexivity|].
  split; [split; [cbn; lia|]|].
  { cbn [sched set_sched next_object]. eapply first_member_ok with (g := next_object j + 1); [exact Hj|lia|lia| | |].
    - unfold group_ids. by rewrite lookup_fmap, Hp.
    - rewrite Hg4. exact Hg3.
    - rewrite Hi4. exact Hi3. }
  split; [exact Hok4|]. split; [exact Hrun|]. split; [exact Hb|].
  unfold process_group, group_leader, session_leader, process_group. cbn [sched set_sched leader_process session leader_group].
  rewrite HiI. cbn [mbind option_bind]. rewrite Hg4, Hg3, !lookup_insert_eq. cbn [mbind option_bind]. rewrite lookup_insert_eq.
  cbn [mbind option_bind]. rewrite lookup_insert_eq. by repeat split.
Qed.

(** So a signal to its group, the console's ^C for one, finds no process. *)
Theorem first_group_hears_nothing j j' g sg : jobs_ok j -> queue_ok (sched j) -> threads (sched j) !! INIT = None ->
  processes (sched j) !! INIT = None -> first_process j = Some j' -> process_group INIT j' = Some g ->
  ProcessGroup_send_signal g sg (sched j') = Some (sched j').
Proof.
  intros Hj Hok Ht Hp E Eg. destruct (first_process_ok j Hj Hok Ht Hp) as (j1 & g1 & E1 & _ & _ & _ & _ & Eg1 & Hg & _).
  rewrite E1 in E. injection E as <-. rewrite Eg1 in Eg. injection Eg as <-. unfold ProcessGroup_send_signal. by rewrite Hg.
Qed.

(** The start, the first process and a signal to its group, from nothing. *)
Theorem first_group_hears_nothing_witness : exists k s j' g, sched_init = Some (k, s) /\ first_process (no_jobs s) = Some j' /\
  process_group INIT j' = Some g /\ ProcessGroup_send_signal g 2 (sched j') = Some (sched j').
Proof.
  destruct sched_init_ok as (k & s & E & Hq & _ & _ & Hj & _ & _ & Ht & Hp).
  destruct (first_process_ok (no_jobs s) Hj Hq Ht Hp) as (j' & g & E1 & _ & _ & _ & _ & Eg & _).
  exists k, s, j', g. split; [done|]. split; [done|]. split; [done|]. by apply (first_group_hears_nothing (no_jobs s) j' g 2).
Defined.

(** ** The descriptors of the first process *)

Definition push_description (p : Z) (d : FileDescription) (f : FdState) : FdState :=
  mkFdState (file_descriptors f ++ [FileDescriptor_init p 0]) (num_file_descriptors f) (first_free_fdnum f)
    (<[p := d]> (descriptions f)) (closed f) (memfd_seals f).

Lemma push_description_ok ext p d f : fd_inv ext f -> first_free_fdnum f = 0 -> is_addr p -> descriptions f !! p = None -> ext p = 0 ->
  ref_count d = 1 -> fd_inv ext (push_description p d f).
Proof.
  intros [Hl Hr Ha He Hrg Hu] H0 Hp Hn Hx Hd.
  assert (Hg : get_description (FileDescriptor_init p 0) = p) by exact (get_init p false Hp).
  assert (Hocc : occ p (file_descriptors f) = 0).
  { destruct (Z.eq_dec (occ p (file_descriptors f)) 0) as [|Hne]; [done|]. exfalso. unfold occ in Hne.
    destruct (filter _ _) as [|w l] eqn:E; [cbn in Hne; lia|].
    assert (Hw : w ∈ filter (fun w => get_description w = p) (file_descriptors f)) by (rewrite E; left).
    apply list_elem_of_filter in Hw as [Hw Hin]. destruct (Hl w Hin) as [x Hx']; [rewrite Hw; destruct Hp; lia|]. by rewrite Hw, Hn in Hx'. }
  split; cbn [push_description file_descriptors descriptions first_free_fdnum].
  - intros w Hin Hw. apply elem_of_app in Hin as [Hin|Hin]; [|apply list_elem_of_singleton in Hin as ->; rewrite Hg, lookup_insert_eq; by eexists].
    destruct (Z.eq_dec (get_description w) p) as [->|Hne]; [rewrite lookup_insert_eq; by eexists|]. rewrite lookup_insert_ne by done. by apply Hl.
  - intros q dq Hq. rewrite occ_app, occ_cons, Hg. apply lookup_insert_Some in Hq as [[<- <-]|[Hne Hq]].
    + rewrite decide_True by done. change (occ p []) with 0. lia.
    + rewrite decide_False by done. change (occ q []) with 0. destruct (Hr q dq Hq). lia.
  - intros q Hq. destruct (Z.eq_dec p q) as [->|Hne]; [done|]. rewrite lookup_insert_ne in Hq by done. by apply Ha.
  - exact He.
  - unfold fd_size in *. cbn [file_descriptors push_description]. rewrite H0. lia.
  - rewrite H0. intros i w Hi. lia.
Qed.

Lemma standard_descriptor_push e v fl s :
  NameSpace.ns_fds (standard_descriptor e v fl s) = push_description (NameSpace.next_addr s) (mkDescription v 0 fl 1) (NameSpace.ns_fds s) /\
  NameSpace.next_addr (standard_descriptor e v fl s) = NameSpace.next_addr s + 16.
Proof. done. Qed.

(** It starts with three descriptors of the console, each a description of its
    own: the first for reading, the others for writing; the next is the
    fourth. *)
Theorem standard_descriptors_ok ext e v s a : NameSpace.next_addr s = a ->
  fd_inv ext (no_descriptors (NameSpace.ns_fds s)) ->
  (forall q, q ∈ [a; a + 16; a + 32] -> is_addr q /\ descriptions (NameSpace.ns_fds s) !! q = None /\ ext q = 0) ->
  let f := NameSpace.ns_fds (standard_descriptors e v s) in
  fd_inv ext f /\ first_free_fdnum f = 3 /\ num_file_descriptors f = 3 /\
  map (fun fd => get_file_description fd f) [0; 1; 2] = [a; a + 16; a + 32] /\
  descriptions f = <[a + 32 := mkDescription v 0 O_WRONLY 1]> (<[a + 16 := mkDescription v 0 O_WRONLY 1]>
                     (<[a := mkDescription v 0 O_RDONLY 1]> (descriptions (NameSpace.ns_fds s)))).
Proof.
  intros Ha Hf Hq.
  destruct (Hq a ltac:(set_solver)) as (A1 & N1 & X1), (Hq (a + 16) ltac:(set_solver)) as (A2 & N2 & X2),
    (Hq (a + 32) ltac:(set_solver)) as (A3 & N3 & X3).
  assert (G1 : get_description (FileDescriptor_init a 0) = a) by exact (get_init a false A1).
  assert (G2 : get_description (FileDescriptor_init (a + 16) 0) = a + 16) by exact (get_init (a + 16) false A2).
  assert (G3 : get_description (FileDescriptor_init (a + 32) 0) = a + 32) by exact (get_init (a + 32) false A3).
  set (f0 := no_descriptors (NameSpace.ns_fds s)) in *.
  set (f1 := push_description a (mkDescription v 0 O_RDONLY 1) f0).
  set (f2 := push_description (a + 16) (mkDescription v 0 O_WRONLY 1) f1).
  set (f3 := push_description (a + 32) (mkDescription v 0 O_WRONLY 1) f2).
  assert (H1 : fd_inv ext f1) by (by apply push_description_ok).
  assert (H2 : fd_inv ext f2) by (apply push_description_ok; try done; cbn; rewrite lookup_insert_ne by lia; done).
  assert (H3 : fd_inv ext f3) by (apply push_description_ok; try done; cbn; rewrite !lookup_insert_ne by lia; done).
  assert (E : NameSpace.ns_fds (standard_descriptors e v s) =
    mkFdState (file_descriptors f3) 3 3 (descriptions f3) (closed f3) (memfd_seals f3)).
  { unfold standard_descriptors. cbn. rewrite Ha. replace (a + 16 + 16) with (a + 32) by lia. done. }
  cbv zeta. rewrite E. split; [|split; [done|]; split; [done|]; split; [|done]].
  - destruct H3 as [Hl Hr Ha' He Hrg Hu]. split; [exact Hl|exact Hr|exact Ha'|exact He|unfold fd_size; cbn; lia|].
    intros i w Hi _ Hw. cbn [first_free_fdnum] in Hi. cbn [file_descriptors] in Hw. change (file_descriptors f3) with
      [FileDescriptor_init a 0; FileDescriptor_init (a + 16) 0; FileDescriptor_init (a + 32) 0] in Hw.
    destruct A1, A2, A3. destruct i as [|[|[|i]]]; [..|lia]; cbn in Hw; injection Hw as <-; lia.
  - change (map (fun w => get_description w) [FileDescriptor_init a 0; FileDescriptor_init (a + 16) 0; FileDescriptor_init (a + 32) 0]
      = [a; a + 16; a + 32]). cbn [map]. by rewrite G1, G2, G3.
Qed.

(** On the root directory alone. *)
Theorem standard_descriptors_ok_witness :
  let f := NameSpace.ns_fds (standard_descriptors 7 9 (NameSpace.set_next 4096 NameSpace.ns_root)) in
  fd_inv (fun _ => 0) f /\ first_free_fdnum f = 3 /\ num_file_descriptors f = 3 /\
  map (fun fd => get_file_description fd f) [0; 1; 2] = [4096; 4112; 4128].
Proof.
  cbv zeta. destruct (standard_descriptors_ok (fun _ => 0) 7 9 (NameSpace.set_next 4096 NameSpace.ns_root) 4096) as (H1 & H2 & H3 & H4 & _).
  - reflexivity.
  - split; [set_solver| | | |vm_compute; split; discriminate|]; [intros p d H; by vm_compute in H|intros p [d H]; by vm_compute in H|lia|].
    intros i w H. vm_compute in H. destruct i; discriminate.
  - intros q H. repeat (apply elem_of_cons in H as [->|H]; [split; [split; [lia|by vm_compute]|split; by vm_compute]|]). by apply elem_of_nil in H.
  - exact (conj H1 (conj H2 (conj H3 H4))).
Defined.
